(* ===== verification/_CoqProject ===== *)
-Q . S2P
Prelude.v
FlagFields.v
Bytes.v
Siphash.v
SiphashSpec.v
Switch.v
Dtable.v
DtableSpec.v
DtableKeyed.v
DtablePlain.v
DtableLpm.v
DtableTern.v
DtableIdent.v
DtableList.v
Stable.v
ParserTypes.v
Parser.v
ParserSafe.v
ParserMain.v
ProtoDefs.v
ParserApi.v
Metadata.v
Parsers.v
ParsersSafe.v
ParserProps.v
SimpleHashSpec.v
TlvScan.v
FastParser.v
FastEquiv.v
ParserLimits.v
FlowHash.v
FlowHashSpec.v
Checksum.v
BitmapWord.v
BitmapWordSpec.v
Bitmap.v
BitmapSpec.v
BitmapOps.v
BitmapTwo.v
BitmapShift.v
BitmapGen.v
BitmapProps.v
Timer.v
TimerSpec.v
TimerRun.v
TimerWheel.v
TimerProps.v
Memory.v
ObjAlloc.v
ObjAllocSpec.v
Conc.v
Fifo.v
FifoSpec.v
FifoInv.v
FifoOps.v
FifoScript.v
FifoProps.v
Paddr.v
Pvbuf.v
PvbufEdit.v
PvbufPop.v
PvbufIter.v
PvbufMap.v
PvbufRep.v
PvbufInv.v
PvbufRead.v
PvbufCopy.v
PvbufSlots.v
PvbufInsert.v
PvbufAppend.v
PvbufJoin.v
PvbufPopStep.v
PvbufPopProps.v
PvbufProps.v
PvbufPopData.v
Vstruct.v
Parselite.v
ParseliteProps.v
Config.v
ConfigProps.v
