(* ===== verification/Prelude.v ===== *)
(** * Verification of the XDP2 library

    XDP2 is a C library for programmable packet processing. A program describes
    a protocol stack as a graph of parse nodes; a generic engine walks a packet
    along the graph, checks lengths, and runs per-node callbacks that extract
    metadata; match tables, hashes and checksums work on the result. This
    library models that core as pure functions and proves what a user of the
    code relies on.

    ** Conventions

    The C types are kept at their width: a w-bit value is a [Z] with its
    wrap-around written out ([u8] ... [u64], [s8], [s32], [s64]), for the LP64
    little endian target. A pointer ([ptr]) is a buffer and an offset, so that
    every load and store is checked against its buffer. A computation is an
    [outcome]: a value ([Done]), an access or call C leaves undefined or an
    assertion that fails ([Crash]), or exhausted fuel ([NoFuel]). [wp] is the
    weakest precondition of an outcome; in strict mode it includes termination.
    State (control data, metadata, tables, lists) is passed explicitly. What
    the code takes from outside (callbacks, memory that malloc refuses,
    uninitialised locals, alignment of an address, the compiler's knowledge of
    a constant length, a clock) is an argument of the definitions.

    ** Parts of the program and files

    - [Prelude] (this file): outcomes, machine integers, buffers, linear table
      search, the tactics [orun] and [zcase] and the hint database [xdp2].
      [Bytes]: little endian values and the bytes behind a pointer.
    - [FlagFields]: [include/xdp2/flag_fields.h], the offsets of optional fields.
    - [Siphash], [SiphashSpec]: [lib/siphash/siphash.c] and its header; buffer,
      word, iterator and register interfaces, all related to one reference.
    - [Switch]: the key comparisons and the switch and select statements of
      [include/xdp2/switch.h].
    - [Dtable] (operations), [DtableSpec], [DtableKeyed] (shared theory),
      [DtablePlain], [DtableLpm], [DtableTern] (one theorem per table kind),
      [DtableIdent] (identifiers), [DtableList] (creation and initialization):
      [lib/xdp2/dtable.c]. A table is a heap of entries linked into two lists.
      [Stable]: the lookup functions of [include/xdp2/stable.h].
    - [ParserTypes]: the structures of [parser_types.h], [tlvs.h], [flag_fields.h]
      and [arrays.h]; the classes [ProtoDefSafe], [TlvsDefSafe] and
      [FlagFieldsDefSafe] are the promises a protocol definition makes to the
      engine. [Parser]: all of [lib/xdp2/parser.c]. [ParserApi]: the macros and
      entry points of [parser.h]. [ProtoDefs]: the definitions of
      [include/xdp2/proto_defs], with instances of the classes.
    - [Metadata]: layouts and extraction templates of [parser_metadata.h].
      [Parsers]: the graphs of [lib/xdp2/parsers/parser_big.c] and
      [parser_simple_hash.c]. [FlowHash]: consistent hashing of the metadata.
    - [ParserSafe], [ParserMain], [ParsersSafe], [ParserProps]: safety
      and termination. [TlvScan]: refinement of TLV processing. In the same file:
      independence of the fuel. [FastParser], [FastEquiv]: the fast parser.
      [SimpleHashSpec], [FlowHashSpec]: what is extracted and hashed.
      [ParserLimits]: behaviour outside the conditions of these theorems.
    - [Checksum]: [include/xdp2/checksum.h].
    - [BitmapWord], [BitmapWordSpec]: [include/xdp2/bitmap_word.h], operations on
      one word. [Bitmap]: the macros of [include/xdp2/bitmap.h] and
      [bitmap_helpers.h], with the word size, the byte order conversion and the
      number of words of a reverse bitmap as parameters; [BitmapSpec] (the class
      [WordConv] and the bits of a bitmap), [BitmapOps] (one argument),
      [BitmapTwo] (two and three arguments), [BitmapShift] (shifts and rotations),
      [BitmapGen] (operations with a position per argument), [BitmapProps].
    - [Timer]: [lib/xdp2/timer.c] and [include/xdp2/timer.h], the timer wheel on
      a bitmap of its slots. The parameter [env] is what callbacks and other
      threads do while a run has released the mutex. [TimerSpec]: the invariant
      and the steps of the users of a wheel; [TimerRun]: slots; [TimerWheel]: a
      run; [TimerProps].
    - [Memory]: byte memory by integer address. [ObjAlloc], [ObjAllocSpec]:
      [lib/xdp2/addr_xlat.c] with its header, relative addresses, and
      [lib/xdp2/obj_allocator.c] and its header; free objects
      are linked through their first eight bytes by relative addresses.
    - [Conc]: threads as programs of atomic sections, signals and waits, their
      interleavings, and a rely/guarantee logic for them. [Fifo]: all of
      [include/xdp2/fifo.h], one section per hold of a mutex. [FifoSpec]: a ring
      is a list of messages, the abstract machine and the invariant;
      [FifoInv], [FifoOps], [FifoScript]: the rules of sections, queue operations
      and scripts of operations; [FifoProps].
    - [Paddr]: the addresses of [include/xdp2/pvbuf.h]. [Pvbuf]: the
      state of a manager, allocation, iovecs, reference counts and lengths;
      [PvbufEdit]: prepend, append, join and free; [PvbufPop]: pop and pull;
      [PvbufIter]: iteration, copies, checksum, clone and allocation with data
      ([lib/xdp2/pvbuf.c]). [PvbufMap]: total triples and the map of iovecs;
      [PvbufRep]: the list of buffers a pvbuf stands for; [PvbufInv]: the
      invariant of the manager and what an operation may change;
      [PvbufRead], [PvbufCopy], [PvbufSlots], [PvbufInsert],
      [PvbufAppend], [PvbufJoin] (join and free): the operations; [PvbufPopStep],
      [PvbufPopProps], [PvbufPopData]: removal at either end; [PvbufProps]
      (behaviour outside of the theorems included).
    - [Vstruct]: [lib/xdp2/vstruct.c] and [include/xdp2/vstruct.h], structures with
      arrays of sizes known at run time.
    - [Parselite]: [lib/parselite/parser.c] and [include/parselite], the hand-written
      parser, as steps between the labels of its two switch statements;
      [ParseliteProps].
    - [Config]: [lib/xdp2/config_functions.c] and the macros of
      [include/xdp2/config.h], a configuration structure described by a table, with
      the functions of the C library on strings it uses; [ConfigProps].

    ** What the theorems show

    Parser: on a well-formed graph ([graph_ok]) no packet makes the engine read
    outside the packet, dereference NULL or call a callback outside its contract
    ([parse_memory_safe]); with ranked overlays and shrinking nested TLVs it
    returns ([parse_terminates]); the shipped big parser meets the conditions when
    its control data does ([big_parse_ether_total]); TLVs are visited once, in order, disjoint
    ([tlv_walk_refines]); the fast parser does what the generic one does where
    its missing checks cannot fire, and returns the same code except for unknown
    protocols ([fast_refines_generic]).
    Extraction and hashing: exactly the right fields are stored
    ([simple_hash_ipv4_extracts]) and both directions of a flow hash alike
    if the addresses are not 2^31 apart ([flow_hash_symmetric],
    [simple_hash_both_directions]).
    Tables: a plain table is a finite map, an LPM lookup returns a longest
    matching prefix, a ternary lookup the first matching row, after any sequence
    of operations; identifiers stay unique and ordered. Static tables agree with
    dynamic tables with the same entries, LPM tables if no prefix is empty
    ([stable_dtable_agree]).
    SipHash and checksums: every entry point computes the reference function.
    Bitmaps: searches, iterations, tests, fills and boolean functions of every
    word size, byte order and word order do on the bits of a range what their
    names say ([bitmap_find_first], [bitmap_foreach_visits], [bitmap_range_ops],
    [bitmap_pointwise]); shifts and rotations move every bit, along the rings of a
    rotation ([bitmap_shift_rotate]); operations with a position per argument compute
    every bit from the bits at the same distance ([bitmap_gen_pointwise]); the variants on words agree ([word_variants_agree]).
    Timers: operations keep the invariant of the wheel ([timer_add_remove]); a
    turn of a run returns whatever others do meanwhile, and so does the run unless
    requests repeat it for ever ([timer_run_returns]); it fires
    exactly the timers that have expired ([timer_run_fires_expired]); run at the
    times it asks for, the wheel fires every timer at its time
    ([timer_fires_on_time]); after a late run a pop may be lost
    ([timer_late_run_loses_pop]).
    Object allocator: objects handed out are distinct and never touched by the
    allocator ([obj_alloc_contract]), indices and addresses correspond
    ([obj_index_roundtrip]), the debugging check finds a second free
    ([double_free_detected]).
    FIFOs: any interleaving of threads that use bound FIFOs is matched by an
    abstract machine of bounded queues ([fifo_linearizable]), but unbinding
    meanwhile is not safe ([fifo_unbind_race_crashes]); readiness for polling is not lost
    ([fifo_readiness_not_lost]), polling is fair ([fifo_poll_round_robin]); what
    can be lost with several producers or consumers is
    [fifo_two_producers_lose_writable] and [fifo_two_consumers_lose_wakeup].
    Packet vectors: on a tree of pvbufs the operations act on a list of buffers:
    adding a buffer ([insert_paddr_ok]), joining ([join_pvbuf_ok]), freeing
    ([pvbuf_free_ok]), removing bytes at either end
    ([pvbuf_pop_ok]), length ([calc_length_ok]), checksum
    ([pvbuf_checksum_ref]), copying out ([copy_pvbuf_to_data_ok]); addresses are
    typed ([paddr_typed]). This holds for managers with pvbuf sizes 0 to 7, since
    pvbufs of 64 iovecs make a search shift by 64 ([iovec_63_crashes]); reading
    and removing data need a packet without a one-word buffer in the last iovec of
    a pvbuf, since the code reads the next iovec ([last_iovec_read_past]). The fuel of recursive functions bounds the depth of
    the tree; any fuel above the depth is enough.
    Variable structures: the arrays are aligned, disjoint and inside the structure
    ([vstruct_layout]). Parselite: it returns on every packet and stays inside it
    unless it comes to a header the code does not check ([parselite_total]), one of
    which makes it loop ([parselite_empty_ipip_loops]); it extracts what the simple
    hash parser extracts ([parselite_agrees]), and its hash is the same in both
    directions ([parselite_hash_symmetric]).
    Configuration: a saved configuration is restored ([config_save_restore]); any
    text is parsed inside the structure and leaves every parameter other than a
    FIFO in its range ([config_parse_safe]). The rows of a file are read with as much fuel as it has
    characters.

    ** Fuel and bounds

    The main parser loop is structural in [max_nodes]. TLV processing carries
    fuel, since the code bounds neither overlay chains nor nesting;
    [(R + 3) * len + 2] units suffice, with [R] the longest overlay chain, and
    more fuel never changes a result ([parse_fuel_independent]). The fast parser
    has no node budget and takes the number of iterations as fuel. A pass over a
    slot of the timer wheel fires at least one timer, so more passes than timers
    are never needed; a bitmap iteration makes at most as many turns as bits; a
    walk along a free list takes more fuel than the allocator has objects. The
    times of a wheel stay below [2^63], where sequence numbers compare like times.

    ** Not modelled

    Debug printing, the CLI, shared memory, the creation of threads and the
    implementation of mutexes (input and output or thin wrappers of system
    calls; [Conc] models what a mutex and a condition variable do); the optimizing compiler (C++, its output
    is the entry point parameter of a parser); vendored code ([lzf], [crc],
    [murmur3hash], [flowdis]) and third-party trees; kernel and BPF variants.
    Of the modelled parts: the access to words of a bitmap at bit positions, the
    initialization of a manager of packet vectors from a table, theorems
    on pull and clone, the typed table templates and pvpkt. *)

From stdpp Require Import base list gmap sets numbers.
From Stdlib Require Import ZArith Lia.

#[global] Open Scope Z_scope.

(** ** Outcomes

    A C computation either produces a value, performs an access that C leaves
    undefined (a load outside its buffer, a dereference of NULL, a cast to the
    wrong super structure), or has not finished within the fuel given to it.
    [Crash] and [NoFuel] are absorbing. *)

Inductive outcome (A : Type) : Type :=
| Done (a : A)
| Crash
| NoFuel.
Arguments Done {A} a.
Arguments Crash {A}.
Arguments NoFuel {A}.

#[global] Instance outcome_ret : MRet outcome := fun A a => Done a.

#[global] Instance outcome_bind : MBind outcome := fun A B f m =>
  match m with
  | Done a => f a
  | Crash => Crash
  | NoFuel => NoFuel
  end.

#[global] Instance outcome_fmap : FMap outcome := fun A B f m =>
  match m with
  | Done a => Done (f a)
  | Crash => Crash
  | NoFuel => NoFuel
  end.

(** Weakest precondition of an outcome. With [strict = true] the computation
    must finish; with [strict = false] running out of fuel is allowed. In
    neither mode may it crash. *)
Definition wp {A} (strict : bool) (m : outcome A) (P : A -> Prop) : Prop :=
  match m with
  | Done a => P a
  | Crash => False
  | NoFuel => strict = false
  end.

Create HintDb xdp2.

Lemma wp_ret {A} s (a : A) (P : A -> Prop) : P a -> wp s (mret a) P.
Proof. done. Qed.

Lemma wp_done {A} s (a : A) (P : A -> Prop) : P a -> wp s (Done a) P.
Proof. done. Qed.

Lemma wp_bind {A B} s (m : outcome A) (f : A -> outcome B) Q P :
  wp s m Q -> (forall a, Q a -> wp s (f a) P) -> wp s (m ≫= f) P.
Proof. destruct m; simpl; auto. Qed.

Lemma wp_mono {A} s (m : outcome A) (Q P : A -> Prop) :
  wp s m Q -> (forall a, Q a -> P a) -> wp s m P.
Proof. destruct m; simpl; auto. Qed.

Lemma wp_not_crash {A} s (m : outcome A) P : wp s m P -> m <> Crash.
Proof. by destruct m. Qed.

Lemma wp_strict_done {A} (m : outcome A) P :
  wp true m P -> exists a, m = Done a /\ P a.
Proof. destruct m; simpl; [eauto | done | done]. Qed.

Lemma wp_weaken_strict {A} s (m : outcome A) P : wp true m P -> wp s m P.
Proof. by destruct m. Qed.

#[export] Hint Resolve wp_ret wp_done : xdp2.

(** Dereference of a possibly NULL pointer. *)
Definition deref {A} (o : option A) : outcome A :=
  match o with Some a => Done a | None => Crash end.

(** An assertion that fails ends the program. *)
Definition XDP2_ASSERT (b : bool) : outcome unit := if b then mret tt else Crash.

(** [!p] on a pointer. *)
Definition is_null {A} (o : option A) : bool :=
  match o with Some _ => false | None => true end.

Lemma wp_deref {A} s (o : option A) (P : A -> Prop) a :
  o = Some a -> P a -> wp s (deref o) P.
Proof. by intros ->. Qed.

(** ** Machine integers (LP64, little endian) *)

Definition u8 (z : Z) : Z := z mod 2 ^ 8.
Definition u16 (z : Z) : Z := z mod 2 ^ 16.
Definition u32 (z : Z) : Z := z mod 2 ^ 32.
Definition u64 (z : Z) : Z := z mod 2 ^ 64.

(** Conversion to the two's complement type of width [w]. *)
Definition sext (w z : Z) : Z :=
  let m := z mod 2 ^ w in if m <? 2 ^ (w - 1) then m else m - 2 ^ w.
Definition s8 := sext 8.
Definition s32 := sext 32.
Definition s64 := sext 64.

Definition is_u8 (z : Z) : Prop := 0 <= z < 2 ^ 8.
Definition is_u32 (z : Z) : Prop := 0 <= z < 2 ^ 32.
Definition is_u64 (z : Z) : Prop := 0 <= z < 2 ^ 64.

(** [htons] and [ntohs] on a little endian host. *)
Definition bswap16 (z : Z) : Z :=
  Z.lor (Z.shiftl (Z.land z 0xff) 8) (Z.land (Z.shiftr z 8) 0xff).
Definition bswap32 (z : Z) : Z :=
  Z.lor (Z.shiftl (bswap16 (Z.land z 0xffff)) 16)
        (bswap16 (Z.land (Z.shiftr z 16) 0xffff)).

Lemma u8_small z : is_u8 z -> u8 z = z.
Proof. intros H. by apply Z.mod_small. Qed.

Lemma u64_small z : 0 <= z < 2 ^ 64 -> u64 z = z.
Proof. intros H. by apply Z.mod_small. Qed.

Lemma u64_neg z : - 2 ^ 64 <= z < 0 -> u64 z = 2 ^ 64 + z.
Proof.
  intros H. unfold u64. rewrite <- (Z.mod_add z 1) by lia.
  rewrite Z.mod_small; lia.
Qed.

Lemma u64_range z : 0 <= u64 z < 2 ^ 64.
Proof. apply Z.mod_pos_bound. lia. Qed.

Lemma sext_small w z : 0 < w -> - 2 ^ (w - 1) <= z < 2 ^ (w - 1) -> sext w z = z.
Proof.
  intros Hw Hz. unfold sext.
  assert (2 ^ w = 2 * 2 ^ (w - 1)) as E.
  { replace w with (Z.succ (w - 1)) at 1 by lia. by rewrite Z.pow_succ_r by lia. }
  destruct (decide (0 <= z)).
  - rewrite Z.mod_small by lia. destruct (Z.ltb_spec z (2 ^ (w - 1))); lia.
  - rewrite <- (Z.mod_add z 1) by lia. rewrite Z.mod_small by lia.
    destruct (Z.ltb_spec (z + 1 * 2 ^ w) (2 ^ (w - 1))); lia.
Qed.

Lemma s64_range z : - 2 ^ 63 <= s64 z < 2 ^ 63.
Proof.
  unfold s64, sext. pose proof (Z.mod_pos_bound z (2 ^ 64) ltac:(lia)).
  destruct (Z.ltb_spec (z mod 2 ^ 64) (2 ^ (64 - 1))); simpl in *; lia.
Qed.

(** ** Buffers and pointers

    A pointer is a buffer together with an offset into it, so that every load
    of the program is checked against the extent of its buffer. *)

Definition bytes : Type := list Z.

Record ptr := Ptr { pbuf : list Z; poff : Z }.

Definition padd (p : ptr) (n : Z) : ptr := Ptr (pbuf p) (poff p + n).

Definition ld8 (p : ptr) (i : Z) : outcome Z :=
  let a := poff p + i in
  if a <? 0 then Crash else deref (pbuf p !! Z.to_nat a).

Definition ld16 (p : ptr) (i : Z) : outcome Z :=
  b0 ← ld8 p i; b1 ← ld8 p (i + 1); mret (b0 + 2 ^ 8 * b1).

Definition ld32 (p : ptr) (i : Z) : outcome Z :=
  h0 ← ld16 p i; h1 ← ld16 p (i + 2); mret (h0 + 2 ^ 16 * h1).

(** [n] bytes can be read at [p], and all of them are bytes. *)
Definition in_bounds (p : ptr) (n : Z) : Prop :=
  0 <= poff p /\ 0 <= n /\ poff p + n <= Z.of_nat (length (pbuf p)) /\
  Forall is_u8 (pbuf p).

Lemma in_bounds_le p n m : in_bounds p n -> 0 <= m <= n -> in_bounds p m.
Proof. unfold in_bounds. intuition lia. Qed.

Lemma in_bounds_padd p n k :
  in_bounds p n -> 0 <= k <= n -> in_bounds (padd p k) (n - k).
Proof. unfold in_bounds, padd; simpl. intuition lia. Qed.

Lemma padd_0 p : padd p 0 = p.
Proof. destruct p. unfold padd; simpl. by rewrite Z.add_0_r. Qed.

Lemma padd_padd p a b : padd (padd p a) b = padd p (a + b).
Proof. unfold padd; simpl. f_equal. lia. Qed.

Lemma ld8_wp s p n i (P : Z -> Prop) :
  in_bounds p n -> 0 <= i < n -> (forall b, is_u8 b -> P b) -> wp s (ld8 p i) P.
Proof.
  intros (H0 & Hn & Hl & Hb) Hi HP. unfold ld8.
  destruct (Z.ltb_spec (poff p + i) 0); [lia |].
  destruct (lookup_lt_is_Some_2 (pbuf p) (Z.to_nat (poff p + i))) as [b Eb]; [lia |].
  rewrite Eb. simpl. apply HP. eapply Forall_lookup_1; eauto.
Qed.

Lemma ld16_wp s p n i (P : Z -> Prop) :
  in_bounds p n -> 0 <= i -> i + 2 <= n ->
  (forall b, 0 <= b < 2 ^ 16 -> P b) -> wp s (ld16 p i) P.
Proof.
  intros Hb H0 Hi HP. unfold ld16.
  eapply wp_bind. { eapply ld8_wp with (P := is_u8); eauto. lia. }
  intros b0 E0. eapply wp_bind. { eapply ld8_wp with (P := is_u8); eauto. lia. }
  intros b1 E1. apply wp_ret, HP. unfold is_u8 in *. lia.
Qed.

Lemma ld32_wp s p n i (P : Z -> Prop) :
  in_bounds p n -> 0 <= i -> i + 4 <= n ->
  (forall b, 0 <= b < 2 ^ 32 -> P b) -> wp s (ld32 p i) P.
Proof.
  intros Hb H0 Hi HP. unfold ld32.
  eapply wp_bind. { eapply ld16_wp with (P := fun b => 0 <= b < 2 ^ 16); eauto. lia. }
  intros b0 E0.
  eapply wp_bind. { eapply ld16_wp with (P := fun b => 0 <= b < 2 ^ 16); eauto; lia. }
  intros b1 E1. apply wp_ret, HP. simpl in E0, E1. lia.
Qed.

#[export] Hint Resolve in_bounds_le in_bounds_padd : xdp2.

(** Run the monadic plumbing of the goal. *)
Ltac orun := lazy beta iota delta [mbind outcome_bind mret outcome_ret deref].

(** Split a boolean comparison of integers in the goal. *)
Ltac zcase :=
  match goal with
  | |- context [Z.ltb ?a ?b] => destruct (Z.ltb_spec a b)
  | |- context [Z.leb ?a ?b] => destruct (Z.leb_spec a b)
  | |- context [Z.eqb ?a ?b] => destruct (Z.eqb_spec a b)
  end.

Ltac zcase_in H :=
  match type of H with
  | context [Z.ltb ?a ?b] => destruct (Z.ltb_spec a b)
  | context [Z.leb ?a ?b] => destruct (Z.leb_spec a b)
  | context [Z.eqb ?a ?b] => destruct (Z.eqb_spec a b)
  end.

(** First entry of a key/value table whose key is [k]: the linear search every
    table lookup of the program performs. *)
Fixpoint assoc_first {A} (k : Z) (l : list (Z * A)) : option A :=
  match l with
  | [] => None
  | (k', a) :: l' => if k =? k' then Some a else assoc_first k l'
  end.

Lemma assoc_first_Some {A} k (l : list (Z * A)) a :
  assoc_first k l = Some a <->
  exists i, l !! i = Some (k, a) /\
            forall j k' a', (j < i)%nat -> l !! j = Some (k', a') -> k' <> k.
Proof.
  induction l as [| [k' a'] l IH]; simpl.
  - split; [done |]. intros (i & Hi & _). done.
  - destruct (Z.eqb_spec k k') as [-> | Hne].
    + split.
      * intros [= ->]. exists 0%nat. split; [done |]. lia.
      * intros ([| i] & Hi & Hlt); simpl in Hi; [congruence |].
        exfalso. eapply (Hlt 0%nat); [lia | done | done].
    + rewrite IH. split.
      * intros (i & Hi & Hlt). exists (S i). split; [done |].
        intros [| j] k1 a1 Hj E; simpl in E; [congruence |].
        eapply Hlt; [| done]. lia.
      * intros ([| i] & Hi & Hlt); simpl in Hi; [congruence |].
        exists i. split; [done |]. intros j k1 a1 Hj E.
        eapply (Hlt (S j)); [lia | done].
Qed.

Lemma assoc_first_None {A} k (l : list (Z * A)) :
  assoc_first k l = None <-> forall a, (k, a) ∉ l.
Proof.
  induction l as [| [k' a'] l IH]; simpl.
  - split; [| done]. intros _ a. apply not_elem_of_nil.
  - destruct (Z.eqb_spec k k') as [-> | Hne].
    + split; [done |]. intros H. exfalso. apply (H a'). left.
    + rewrite IH. split; intros H a.
      * intros E. apply elem_of_cons in E as [[= ->] | E]; [done |]. by apply (H a).
      * intros E. apply (H a). by right.
Qed.

Lemma assoc_first_elem {A} k (l : list (Z * A)) a :
  assoc_first k l = Some a -> (k, a) ∈ l.
Proof.
  rewrite assoc_first_Some. intros (i & Hi & _).
  by apply list_elem_of_lookup_2 with i.
Qed.
