(* ===== verification/FlagFields.v ===== *)
(** * Flag-fields

    The flag-field descriptors of [src/src/include/xdp2/flag_fields.h]: a table
    of (flag, mask, size) triples says which optional fields follow a protocol
    header and where each of them starts. The offsets are the ones the parser
    and the GRE, L2TP and similar protocol definitions compute with. *)

From stdpp Require Import base list numbers.
From S2P Require Import Prelude.

(** [struct xdp2_flag_field] *)
Record xdp2_flag_field := FlagField { ff_flag : Z; ff_mask : Z; ff_size : Z }.

(** [struct xdp2_flag_fields] *)
Record xdp2_flag_fields := FlagFieldsDesc {
  ffs_num_idx : Z;
  ffs_fields : list xdp2_flag_field }.

(** [fields[i].mask ? : fields[i].flag] *)
Definition ff_eff_mask (f : xdp2_flag_field) : Z :=
  if ff_mask f =? 0 then ff_flag f else ff_mask f.

(** [(flags & mask) == flag] *)
Definition ff_present (flags : Z) (f : xdp2_flag_field) : bool :=
  Z.land flags (ff_eff_mask f) =? ff_flag f.

(** The loop of [__xdp2_flag_fields_offset], [n] iterations from index [i]
    with the running [offset] (a [size_t]). *)
Fixpoint flag_fields_offset_loop (n : nat) (i : nat) (flags offset : Z)
    (ffs : xdp2_flag_fields) : outcome Z :=
  match n with
  | O => mret offset
  | S n' =>
      f ← deref (ffs_fields ffs !! i);
      let offset := if ff_present flags f
                    then u64 (offset + ff_size f) else offset in
      flag_fields_offset_loop n' (S i) flags offset ffs
  end.

Definition __xdp2_flag_fields_offset (targ_idx flags : Z)
    (ffs : xdp2_flag_fields) : outcome Z :=
  s64 <$> flag_fields_offset_loop (Z.to_nat targ_idx) 0 flags 0 ffs.

Definition xdp2_flag_fields_length (flags : Z) (ffs : xdp2_flag_fields)
    : outcome Z :=
  u64 <$> __xdp2_flag_fields_offset (u32 (ffs_num_idx ffs)) flags ffs.

Definition xdp2_flag_fields_offset (targ_idx flags : Z)
    (ffs : xdp2_flag_fields) : outcome Z :=
  f ← deref (ffs_fields ffs !! Z.to_nat targ_idx);
  if ff_present flags f then __xdp2_flag_fields_offset targ_idx flags ffs
  else mret (-1).

(** [!!(flags & ~mask)], on 32-bit operands. *)
Definition xdp2_flag_fields_check_invalid (flags mask : Z) : bool :=
  negb (Z.land flags (Z.lxor mask (2 ^ 32 - 1)) =? 0).

(** [xdp2_flag_fields_get##NUM]: the field as an unsigned integer of [8 * nb]
    bits, all ones when the flag is not set. *)
Fixpoint ld_le (nb : nat) (p : ptr) (i : Z) : outcome Z :=
  match nb with
  | O => mret 0
  | S nb' => b ← ld8 p i; r ← ld_le nb' p (i + 1); mret (b + 2 ^ 8 * r)
  end.

Definition xdp2_flag_fields_get (nb : nat) (fields : ptr) (targ_idx flags : Z)
    (ffs : xdp2_flag_fields) : outcome Z :=
  offset ← xdp2_flag_fields_offset targ_idx flags ffs;
  if offset <? 0 then mret (2 ^ (8 * Z.of_nat nb) - 1)
  else ld_le nb fields offset.

(** ** Specification: sum of the sizes of the present fields *)

Fixpoint present_size (flags : Z) (fs : list xdp2_flag_field) : Z :=
  match fs with
  | [] => 0
  | f :: fs' => (if ff_present flags f then ff_size f else 0) + present_size flags fs'
  end.

(** A descriptor as the protocol headers write them: [num_idx] counts the
    table, and the fields together fit any header. *)
Definition flag_fields_wf (ffs : xdp2_flag_fields) : Prop :=
  ffs_num_idx ffs = Z.of_nat (length (ffs_fields ffs)) /\
  Forall (fun f => 0 <= ff_size f) (ffs_fields ffs) /\
  ffs_num_idx ffs < 2 ^ 32 /\
  foldr (fun f acc => ff_size f + acc) 0 (ffs_fields ffs) < 2 ^ 63.

Lemma present_size_nonneg flags fs :
  Forall (fun f => 0 <= ff_size f) fs -> 0 <= present_size flags fs.
Proof. induction 1; simpl; [lia |]. destruct (ff_present _ _); lia. Qed.

Lemma present_size_le_total flags fs :
  Forall (fun f => 0 <= ff_size f) fs ->
  present_size flags fs <= foldr (fun f acc => ff_size f + acc) 0 fs.
Proof. induction 1; simpl; [lia |]. destruct (ff_present _ _); lia. Qed.

Lemma present_size_app flags fs gs :
  present_size flags (fs ++ gs) = present_size flags fs + present_size flags gs.
Proof. induction fs; simpl; lia. Qed.

Lemma present_size_take flags fs n :
  Forall (fun f => 0 <= ff_size f) fs ->
  present_size flags (take n fs) <= present_size flags fs.
Proof.
  intros H. rewrite <- (take_drop n fs) at 2. rewrite present_size_app.
  pose proof (present_size_nonneg flags (drop n fs)) as Hn.
  specialize (Hn ltac:(by apply Forall_drop)). lia.
Qed.

Section wf.
Context (ffs : xdp2_flag_fields) (flags : Z) (Hwf : flag_fields_wf ffs).

Lemma flag_fields_offset_loop_spec n i offset :
  (i + n <= length (ffs_fields ffs))%nat ->
  0 <= offset ->
  offset + present_size flags (drop i (ffs_fields ffs)) < 2 ^ 63 ->
  flag_fields_offset_loop n i flags offset ffs =
    Done (offset + present_size flags (take n (drop i (ffs_fields ffs)))).
Proof using Hwf.
  revert i offset. induction n as [| n IH]; intros i offset Hn H0 Hlt; simpl.
  { f_equal. lia. }
  destruct Hwf as (_ & Hsz & _).
  destruct (lookup_lt_is_Some_2 (ffs_fields ffs) i) as [f Hf]; [lia |].
  rewrite Hf. simpl.
  assert (0 <= ff_size f) as Hf0 by (eapply Forall_lookup_1 in Hsz; eauto).
  rewrite (drop_S _ _ _ Hf) in Hlt |- *. simpl in Hlt |- *.
  pose proof (present_size_nonneg flags (drop (S i) (ffs_fields ffs))
                ltac:(by apply Forall_drop)).
  assert (u64 (offset + ff_size f) = offset + ff_size f \/
          ff_present flags f = false) as Hu.
  { destruct (ff_present flags f); [left | by right]. apply u64_small. lia. }
  destruct (ff_present flags f).
  - destruct Hu as [-> | ?]; [| done]. rewrite IH by lia. f_equal. lia.
  - rewrite IH by lia. f_equal.
Qed.

(** The computed offset of index [targ_idx]. *)
Lemma __xdp2_flag_fields_offset_spec targ_idx :
  0 <= targ_idx <= ffs_num_idx ffs ->
  __xdp2_flag_fields_offset targ_idx flags ffs =
    Done (present_size flags (take (Z.to_nat targ_idx) (ffs_fields ffs))).
Proof using Hwf.
  intros Ht. pose proof Hwf as (Hn & Hsz & Hidx & Htot).
  pose proof (present_size_le_total flags _ Hsz).
  pose proof (present_size_take flags _ (Z.to_nat targ_idx) Hsz).
  pose proof (present_size_nonneg flags (take (Z.to_nat targ_idx) (ffs_fields ffs))
                ltac:(by apply Forall_take)).
  unfold __xdp2_flag_fields_offset.
  rewrite flag_fields_offset_loop_spec; rewrite ?drop_0; try lia.
  simpl. f_equal. apply sext_small; simpl; lia.
Qed.

Lemma xdp2_flag_fields_length_eq :
  xdp2_flag_fields_length flags ffs = Done (present_size flags (ffs_fields ffs)).
Proof using Hwf.
  pose proof Hwf as (Hn & Hsz & Hidx & Htot).
  pose proof (present_size_le_total flags _ Hsz).
  pose proof (present_size_nonneg flags _ Hsz).
  unfold xdp2_flag_fields_length, u32.
  rewrite Z.mod_small by lia.
  rewrite __xdp2_flag_fields_offset_spec by lia.
  simpl. rewrite take_ge by lia. by rewrite u64_small by lia.
Qed.
End wf.

(** One branch lemma for clients: the offset of an index is either [-1] (flag
    clear) or the size of the present fields before it, and then the field
    ends within the announced length. *)
Lemma xdp2_flag_fields_offset_cases ffs flags i f :
  flag_fields_wf ffs -> ffs_fields ffs !! i = Some f ->
  (ff_present flags f = false /\
   xdp2_flag_fields_offset (Z.of_nat i) flags ffs = Done (-1)) \/
  (ff_present flags f = true /\ exists off,
   xdp2_flag_fields_offset (Z.of_nat i) flags ffs = Done off /\
   off = present_size flags (take i (ffs_fields ffs)) /\ 0 <= off /\
   off + ff_size f <= present_size flags (ffs_fields ffs)).
Proof.
  intros Hwf Hf. pose proof Hwf as (Hn & Hsz & Hidx & Htot).
  pose proof (lookup_lt_Some _ _ _ Hf) as Hlt.
  unfold xdp2_flag_fields_offset. rewrite Nat2Z.id, Hf. simpl.
  destruct (ff_present flags f) eqn:Ep; [right | by left].
  split; [done |]. eexists. rewrite __xdp2_flag_fields_offset_spec by (auto; lia).
  rewrite Nat2Z.id. split_and!; [done | done | |].
  - by apply present_size_nonneg, Forall_take.
  - pose proof (present_size_take flags _ (S i) Hsz) as Hle.
    rewrite (take_S_r _ _ _ Hf), present_size_app in Hle. simpl in Hle.
    rewrite Ep in Hle. lia.
Qed.

(** ** Properties *)

(** C36: for a well-formed descriptor the length of the optional fields is the
    sum of the sizes of the fields whose flag is present. The offset of a present
    field is the sum of the sizes of the present fields before it, and the field
    ends inside that length; the offset of an absent field is -1. The get functions
    load a present field from its offset and give all ones for an absent one. Two
    present fields never overlap. *)
Theorem flag_fields_layout ffs flags :
  flag_fields_wf ffs ->
  xdp2_flag_fields_length flags ffs = Done (present_size flags (ffs_fields ffs)) /\
  (forall i f nb p, ffs_fields ffs !! i = Some f ->
     let off := present_size flags (take i (ffs_fields ffs)) in
     if (ff_present flags f : bool) then
       xdp2_flag_fields_offset (Z.of_nat i) flags ffs = Done off /\
       0 <= off /\ off + ff_size f <= present_size flags (ffs_fields ffs) /\
       xdp2_flag_fields_get nb p (Z.of_nat i) flags ffs = ld_le nb p off
     else
       xdp2_flag_fields_offset (Z.of_nat i) flags ffs = Done (-1) /\
       xdp2_flag_fields_get nb p (Z.of_nat i) flags ffs = Done (2 ^ (8 * Z.of_nat nb) - 1)) /\
  forall i j f g, (i < j)%nat -> ffs_fields ffs !! i = Some f -> ffs_fields ffs !! j = Some g ->
    ff_present flags f = true -> ff_present flags g = true ->
    exists offi offj, xdp2_flag_fields_offset (Z.of_nat i) flags ffs = Done offi /\
      xdp2_flag_fields_offset (Z.of_nat j) flags ffs = Done offj /\ offi + ff_size f <= offj.
Proof.
  intros Hwf. pose proof Hwf as (_ & Hsz & _). split_and!; [by apply xdp2_flag_fields_length_eq | |].
  - intros i f nb p Hf. unfold xdp2_flag_fields_get.
    destruct (xdp2_flag_fields_offset_cases ffs flags i f Hwf Hf) as [[-> ->] | (-> & off & -> & -> & H0 & Hle)]; [done |].
    split_and!; [done | done | done |]. simpl. destruct (Z.ltb_spec (present_size flags (take i (ffs_fields ffs))) 0); [lia | done].
  - intros i j f g Hij Hf Hg Pf Pg.
    destruct (xdp2_flag_fields_offset_cases ffs flags i f Hwf Hf) as [[E _] | (_ & offi & Ei & Eoi & _)]; [congruence |].
    destruct (xdp2_flag_fields_offset_cases ffs flags j g Hwf Hg) as [[E _] | (_ & offj & Ej & Eoj & _)]; [congruence |].
    exists offi, offj. split_and!; [done | done |]. rewrite Eoi, Eoj.
    rewrite <- (take_drop (S i) (take j _)), take_take, Nat.min_l by lia.
    rewrite (take_S_r _ _ _ Hf), !present_size_app. simpl. rewrite Pf.
    pose proof (present_size_nonneg flags (drop (S i) (take j (ffs_fields ffs)))
                  ltac:(by apply Forall_drop, Forall_take)). lia.
Qed.

(** A descriptor with a masked field, and flags that select the first and third. *)
Definition sample_fields : xdp2_flag_fields :=
  FlagFieldsDesc 3 [FlagField 0x8000 0 4; FlagField 0x4000 0 2; FlagField 0x2000 0x3000 4].

Lemma flag_fields_layout_witness :
  xdp2_flag_fields_length 0xa000 sample_fields = Done 8 /\
  xdp2_flag_fields_offset 2 0xa000 sample_fields = Done 4 /\ xdp2_flag_fields_offset 1 0xa000 sample_fields = Done (-1) /\
  exists offi offj, xdp2_flag_fields_offset 0 0xa000 sample_fields = Done offi /\
    xdp2_flag_fields_offset 2 0xa000 sample_fields = Done offj /\ offi + 4 <= offj.
Proof.
  destruct (flag_fields_layout sample_fields 0xa000) as (Hlen & Hoff & Hord).
  { split_and!; [reflexivity | repeat constructor; simpl; lia | reflexivity | reflexivity]. }
  split_and!; [exact Hlen | | |].
  - exact (proj1 (Hoff 2%nat (FlagField 0x2000 0x3000 4) 4%nat (Ptr [] 0) eq_refl)).
  - exact (proj1 (Hoff 1%nat (FlagField 0x4000 0 2) 4%nat (Ptr [] 0) eq_refl)).
  - apply (Hord 0%nat 2%nat (FlagField 0x8000 0 4) (FlagField 0x2000 0x3000 4)); reflexivity || lia.
Defined.
