(* ===== verification/Bytes.v ===== *)
(** * Byte strings in memory

    Little endian values of byte lists, and the relation between a pointer and
    the bytes it points to. *)

From stdpp Require Import base list numbers.
From S2P Require Import Prelude FlagFields.

(** Split a [Forall] over an explicit list. *)
Ltac forall_inv H := repeat (let H' := fresh "Hb" in apply Forall_cons_1 in H; destruct H as [H' H]).

(** The little endian value of a list of bytes. *)
Fixpoint le_val (bs : list Z) : Z :=
  match bs with
  | [] => 0
  | b :: bs' => b + 2 ^ 8 * le_val bs'
  end.

Lemma le_val_range bs :
  Forall is_u8 bs -> 0 <= le_val bs < 2 ^ (8 * Z.of_nat (length bs)).
Proof.
  induction 1 as [| b bs Hb _ IH]; [done |]. cbn [le_val length]. unfold is_u8 in Hb.
  replace (8 * Z.of_nat (S (length bs))) with (8 + 8 * Z.of_nat (length bs)) by lia.
  rewrite Z.pow_add_r by lia. nia.
Qed.

Lemma le_val_app a b : le_val (a ++ b) = le_val a + 2 ^ (8 * Z.of_nat (length a)) * le_val b.
Proof.
  induction a as [| x a IH]; [cbn; lia |]. cbn [le_val length app]. rewrite IH.
  replace (8 * Z.of_nat (S (length a))) with (8 + 8 * Z.of_nat (length a)) by lia.
  rewrite Z.pow_add_r by lia. lia.
Qed.

(** Bits below [n] and bits from [n] on do not meet. *)
Lemma lor_shiftl a b n : 0 <= n -> 0 <= a < 2 ^ n -> Z.lor a (Z.shiftl b n) = a + 2 ^ n * b.
Proof.
  intros Hn Ha. rewrite (Z.mul_comm (2 ^ n)), <- Z.shiftl_mul_pow2 by done. symmetry.
  rewrite Z.add_nocarry_lxor; [rewrite Z.lxor_lor; [done |] |];
    (apply Z.bits_inj'; intros i Hi; rewrite Z.land_spec, Z.bits_0;
     destruct (Z.ltb_spec i n) as [Hlt | Hge];
     [rewrite Z.shiftl_spec_low by done; by rewrite andb_false_r |]);
    (rewrite <- (Z.mod_small a (2 ^ n)) by done; rewrite Z.mod_pow2_bits_high by lia; done).
Qed.

Lemma le_val_cons_lor b bs : is_u8 b -> le_val (b :: bs) = Z.lor b (Z.shiftl (le_val bs) 8).
Proof. intros Hb. rewrite lor_shiftl by (done || lia). done. Qed.

(** ** Bytes behind a pointer *)

Definition bytes_at (p : ptr) (bs : list Z) : Prop :=
  forall k b, bs !! k = Some b -> ld8 p (Z.of_nat k) = Done b.

Lemma bytes_at_ld8 p bs i b : bytes_at p bs -> 0 <= i -> bs !! Z.to_nat i = Some b -> ld8 p i = Done b.
Proof. intros H Hi Hb. rewrite <- (H _ _ Hb). f_equal. lia. Qed.

Lemma bytes_at_self bs : bytes_at (Ptr bs 0) bs.
Proof.
  intros k b Hk. unfold ld8; cbn [poff pbuf]. rewrite Z.add_0_l.
  destruct (Z.ltb_spec (Z.of_nat k) 0); [lia |]. by rewrite Nat2Z.id, Hk.
Qed.

Lemma ld8_padd p n i : ld8 (padd p n) i = ld8 p (n + i).
Proof. unfold ld8, padd; simpl. by rewrite Z.add_assoc. Qed.

Lemma bytes_at_app_l p a b : bytes_at p (a ++ b) -> bytes_at p a.
Proof. intros H k x Hk. apply H. by apply lookup_app_l_Some. Qed.

Lemma bytes_at_app_r p a b :
  bytes_at p (a ++ b) -> bytes_at (padd p (Z.of_nat (length a))) b.
Proof.
  intros H k x Hk. rewrite ld8_padd. rewrite <- Nat2Z.inj_add. apply H.
  rewrite lookup_app_r by lia. by replace (length a + k - length a)%nat with k by lia.
Qed.

Lemma bytes_at_cons p b bs : bytes_at p (b :: bs) -> bytes_at (padd p 1) bs.
Proof. apply (bytes_at_app_r p [b] bs). Qed.

Lemma bytes_at_take p bs n : bytes_at p bs -> bytes_at p (take n bs).
Proof. rewrite <- (take_drop n bs) at 1. apply bytes_at_app_l. Qed.

(** A load of [length bs] bytes. *)
Lemma ld_le_at bs : forall p i,
  (forall k b, bs !! k = Some b -> ld8 p (i + Z.of_nat k) = Done b) ->
  ld_le (length bs) p i = Done (le_val bs).
Proof.
  induction bs as [| b bs IH]; intros p i H; [done |]. cbn [length ld_le le_val].
  pose proof (H 0%nat b eq_refl) as E. rewrite Z.add_0_r in E. rewrite E. orun.
  rewrite IH; [done |]. intros k x Hk. rewrite <- (H (S k) x Hk). f_equal. lia.
Qed.

Lemma ld_le_bytes_at bs p : bytes_at p bs -> ld_le (length bs) p 0 = Done (le_val bs).
Proof. intros H. by apply ld_le_at. Qed.

(** What [in_bounds] says about the bytes. *)
Lemma in_bounds_bytes_at p n :
  in_bounds p n -> exists bs, Z.of_nat (length bs) = n /\ Forall is_u8 bs /\ bytes_at p bs.
Proof.
  intros (H0 & Hn & Hl & Hb).
  exists (take (Z.to_nat n) (drop (Z.to_nat (poff p)) (pbuf p))). split_and!.
  - rewrite length_take, length_drop. lia.
  - by apply Forall_take, Forall_drop.
  - intros k b [Hk Hlt]%lookup_take_Some. rewrite lookup_drop in Hk. unfold ld8.
    destruct (Z.ltb_spec (poff p + Z.of_nat k) 0); [lia |].
    replace (Z.to_nat (poff p + Z.of_nat k)) with (Z.to_nat (poff p) + k)%nat by lia.
    by rewrite Hk.
Qed.
