(* ===== verification/Siphash.v ===== *)
(** * SipHash

    The keyed hash of [src/src/lib/siphash/siphash.c] and
    [src/src/include/siphash/siphash.h] (the dynamic tables and the flow hash
    of the parsers use it), as compiled without [SIPHASH_KERNEL_METHOD] and
    without [BITS_PER_LONG]: SipHash with one compression round per word and two
    finalization rounds, and HalfSipHash for the [hsiphash] functions. All
    entry points are related to one reference definition, the hash of a list of
    bytes. *)

From stdpp Require Import base list numbers.
From S2P Require Import Prelude FlagFields Bytes.

(** ** Rounds *)

Definition siphash_rol64 (word shift : Z) : Z :=
  Z.lor (u64 (Z.shiftl word (Z.land shift 63))) (Z.shiftr word (Z.land (u32 (- shift)) 63)).

Definition rol32 (word shift : Z) : Z :=
  Z.lor (u32 (Z.shiftl word (Z.land shift 31))) (Z.shiftr word (Z.land (u32 (- shift)) 31)).

(** The local variables [v0] to [v3] of every function. *)
Record sip_state := SipState { sip_v0 : Z; sip_v1 : Z; sip_v2 : Z; sip_v3 : Z }.

(** [siphash_key_t] and [hsiphash_key_t]: two 64-bit words. *)
Record siphash_key_t := SiphashKey { sk_key0 : Z; sk_key1 : Z }.

Definition siphash_key_is_zero (key : siphash_key_t) : bool :=
  Z.lor (sk_key0 key) (sk_key1 key) =? 0.

Definition SIPHASH_SIPROUND (v : sip_state) : sip_state :=
  let '(SipState v0 v1 v2 v3) := v in
  let v0 := u64 (v0 + v1) in
  let v1 := siphash_rol64 v1 13 in
  let v1 := Z.lxor v1 v0 in
  let v0 := siphash_rol64 v0 32 in
  let v2 := u64 (v2 + v3) in
  let v3 := siphash_rol64 v3 16 in
  let v3 := Z.lxor v3 v2 in
  let v0 := u64 (v0 + v3) in
  let v3 := siphash_rol64 v3 21 in
  let v3 := Z.lxor v3 v0 in
  let v2 := u64 (v2 + v1) in
  let v1 := siphash_rol64 v1 17 in
  let v1 := Z.lxor v1 v2 in
  let v2 := siphash_rol64 v2 32 in
  SipState v0 v1 v2 v3.

(** [v3 ^= m] and [v0 ^= m] *)
Definition xor_v3 (m : Z) (v : sip_state) : sip_state :=
  SipState (sip_v0 v) (sip_v1 v) (sip_v2 v) (Z.lxor (sip_v3 v) m).
Definition xor_v0 (m : Z) (v : sip_state) : sip_state :=
  SipState (Z.lxor (sip_v0 v) m) (sip_v1 v) (sip_v2 v) (sip_v3 v).
Definition xor_v2 (m : Z) (v : sip_state) : sip_state :=
  SipState (sip_v0 v) (sip_v1 v) (Z.lxor (sip_v2 v) m) (sip_v3 v).

(** [MAKE_ROUND], and the same three lines written out in most functions. *)
Definition MAKE_ROUND (v : sip_state) (m : Z) : sip_state :=
  xor_v0 m (SIPHASH_SIPROUND (xor_v3 m v)).

(** [PREAMBLE]: the state and the accumulator [b] *)
Definition PREAMBLE (len : Z) (key : siphash_key_t) : sip_state * Z :=
  (SipState (Z.lxor 0x736f6d6570736575 (sk_key0 key))
            (Z.lxor 0x646f72616e646f6d (sk_key1 key))
            (Z.lxor 0x6c7967656e657261 (sk_key0 key))
            (Z.lxor 0x7465646279746573 (sk_key1 key)),
   u64 (Z.shiftl len 56)).

Definition SIPHASH_POSTAMBLE (v : sip_state) (b : Z) : Z :=
  let v := xor_v3 b v in
  let v := SIPHASH_SIPROUND v in
  let v := xor_v0 b v in
  let v := xor_v2 0xff v in
  let v := SIPHASH_SIPROUND v in
  let v := SIPHASH_SIPROUND v in
  Z.lxor (Z.lxor (sip_v0 v) (sip_v1 v)) (Z.lxor (sip_v2 v) (sip_v3 v)).

(** ** Loads *)

Definition get_unaligned_le16 (p : ptr) : outcome Z :=
  p0 ← ld8 p 0; p1 ← ld8 p 1; mret (u16 (Z.lor p0 (Z.shiftl p1 8))).

Definition get_unaligned_le32 (p : ptr) : outcome Z :=
  p0 ← ld8 p 0; p1 ← ld8 p 1; p2 ← ld8 p 2; p3 ← ld8 p 3;
  mret (u32 (Z.lor (Z.lor (Z.lor p0 (Z.shiftl p1 8)) (Z.shiftl p2 16)) (Z.shiftl p3 24))).

Definition get_unaligned_le64 (p : ptr) : outcome Z :=
  h ← get_unaligned_le32 (padd p 4); l ← get_unaligned_le32 p;
  mret (Z.lor (u64 (Z.shiftl h 32)) l).

(** [__le16_to_cpup] and the like: plain loads on a little endian host. *)
Definition le16_to_cpup (p : ptr) : outcome Z := ld_le 2 p 0.
Definition le32_to_cpup (p : ptr) : outcome Z := ld_le 4 p 0.
Definition le64_to_cpup (p : ptr) : outcome Z := ld_le 8 p 0.

(** ** Hash of a buffer *)

(** [for (; data != end; data += w) { m = load(data); ... }] *)
Fixpoint words_loop {S} (fuel : nat) (w : Z) (load : ptr -> outcome Z) (round : S -> Z -> S)
    (data end_ : ptr) (v : S) : outcome (S * ptr) :=
  if poff data =? poff end_ then mret (v, data) else
  match fuel with
  | O => NoFuel
  | Datatypes.S fuel' =>
      m ← load data;
      words_loop fuel' w load round (padd data w) end_ (round v m)
  end.

(** [switch (left) { case 7: ... }] with its fall-throughs; [data] equals [end]
    after the loop. *)
Definition tail_switch (ld16 ld32 : ptr -> outcome Z) (left b : Z) (end_ : ptr) : outcome Z :=
  b ← (if left =? 7 then e ← ld8 end_ 6; mret (Z.lor b (u64 (Z.shiftl e 48))) else mret b);
  b ← (if (6 <=? left) && (left <=? 7)
       then e ← ld8 end_ 5; mret (Z.lor b (u64 (Z.shiftl e 40))) else mret b);
  b ← (if (5 <=? left) && (left <=? 7)
       then e ← ld8 end_ 4; mret (Z.lor b (u64 (Z.shiftl e 32))) else mret b);
  if (4 <=? left) && (left <=? 7) then e ← ld32 end_; mret (Z.lor b e) else
  b ← (if left =? 3 then e ← ld8 end_ 2; mret (Z.lor b (u64 (Z.shiftl e 16))) else mret b);
  if (2 <=? left) && (left <=? 3) then e ← ld16 end_; mret (Z.lor b e) else
  if left =? 1 then e ← ld8 end_ 0; mret (Z.lor b e) else mret b.

(** [data + len - (len % sizeof(__u64))] and [len & (sizeof(__u64) - 1)] *)
Definition words_end (w : Z) (data : ptr) (len : Z) : ptr := padd data (len - len mod w).

Definition __siphash_aligned (data : ptr) (len : Z) (key : siphash_key_t) : outcome Z :=
  let end_ := words_end 8 data len in
  let left := Z.land len 7 in
  let '(v, b) := PREAMBLE len key in
  '(v, data) ← words_loop (Z.to_nat len) 8 le64_to_cpup MAKE_ROUND data end_ v;
  b ← tail_switch (fun _ => le16_to_cpup data) (fun _ => le32_to_cpup data) left b end_;
  mret (SIPHASH_POSTAMBLE v b).

Definition __siphash_unaligned (data : ptr) (len : Z) (key : siphash_key_t) : outcome Z :=
  let end_ := words_end 8 data len in
  let left := Z.land len 7 in
  let '(v, b) := PREAMBLE len key in
  '(v, data) ← words_loop (Z.to_nat len) 8 get_unaligned_le64 MAKE_ROUND data end_ v;
  b ← tail_switch get_unaligned_le16 get_unaligned_le32 left b end_;
  mret (SIPHASH_POSTAMBLE v b).

(** ** Hash of a few words *)

Definition siphash_1u64 (first : Z) (key : siphash_key_t) : Z :=
  let '(v, b) := PREAMBLE 8 key in
  let v := MAKE_ROUND v first in
  SIPHASH_POSTAMBLE v b.

Definition siphash_2u64 (first second : Z) (key : siphash_key_t) : Z :=
  let '(v, b) := PREAMBLE 16 key in
  let v := MAKE_ROUND v first in
  let v := MAKE_ROUND v second in
  SIPHASH_POSTAMBLE v b.

Definition siphash_3u64 (first second third : Z) (key : siphash_key_t) : Z :=
  let '(v, b) := PREAMBLE 24 key in
  let v := MAKE_ROUND v first in
  let v := MAKE_ROUND v second in
  let v := MAKE_ROUND v third in
  SIPHASH_POSTAMBLE v b.

Definition siphash_4u64 (first second third forth : Z) (key : siphash_key_t) : Z :=
  let '(v, b) := PREAMBLE 32 key in
  let v := MAKE_ROUND v first in
  let v := MAKE_ROUND v second in
  let v := MAKE_ROUND v third in
  let v := MAKE_ROUND v forth in
  SIPHASH_POSTAMBLE v b.

(** [MAKE_ROUND(data64[0]); ... MAKE_ROUND(data64[15]);] *)
Fixpoint make_rounds (n : nat) (i : Z) (data : ptr) (v : sip_state) : outcome sip_state :=
  match n with
  | O => mret v
  | S n' => m ← ld_le 8 data (8 * i); make_rounds n' (i + 1) data (MAKE_ROUND v m)
  end.

Definition siphash_16u64 (data : ptr) (key : siphash_key_t) : outcome Z :=
  let '(v, b) := PREAMBLE 128 key in
  v ← make_rounds 16 0 data v;
  mret (SIPHASH_POSTAMBLE v b).

Definition siphash_1u32 (first : Z) (key : siphash_key_t) : Z :=
  let '(v, b) := PREAMBLE 4 key in
  SIPHASH_POSTAMBLE v (Z.lor b first).

Definition siphash_2u32 (a b : Z) (key : siphash_key_t) : Z :=
  siphash_1u64 (Z.lor (u64 (Z.shiftl b 32)) a) key.

Definition siphash_3u32 (first second third : Z) (key : siphash_key_t) : Z :=
  let combined := Z.lor (u64 (Z.shiftl second 32)) first in
  let '(v, b) := PREAMBLE 12 key in
  let v := MAKE_ROUND v combined in
  SIPHASH_POSTAMBLE v (Z.lor b third).

Definition siphash_4u32 (a b c d : Z) (key : siphash_key_t) : Z :=
  siphash_2u64 (Z.lor (u64 (Z.shiftl b 32)) a) (Z.lor (u64 (Z.shiftl d 32)) c) key.

(** [const_len] is [__builtin_constant_p(len)]. *)
Definition ___siphash_aligned (const_len : bool) (data : ptr) (len : Z) (key : siphash_key_t)
    : outcome Z :=
  if const_len && (len =? 4) then
    w0 ← ld_le 4 data 0; mret (siphash_1u32 w0 key)
  else if const_len && (len =? 8) then
    w0 ← ld_le 8 data 0; mret (siphash_1u64 w0 key)
  else if const_len && (len =? 16) then
    w0 ← ld_le 8 data 0; w1 ← ld_le 8 data 8; mret (siphash_2u64 w0 w1 key)
  else if const_len && (len =? 24) then
    w0 ← ld_le 8 data 0; w1 ← ld_le 8 data 8; w2 ← ld_le 8 data 16;
    mret (siphash_3u64 w0 w1 w2 key)
  else if const_len && (len =? 32) then
    w0 ← ld_le 8 data 0; w1 ← ld_le 8 data 8; w2 ← ld_le 8 data 16; w3 ← ld_le 8 data 24;
    mret (siphash_4u64 w0 w1 w2 w3 key)
  else __siphash_aligned data len key.

(** [siphash]; [aligned] is [IS_ALIGNED] of the address. *)
Definition siphash (aligned const_len : bool) (data : ptr) (len : Z) (key : siphash_key_t)
    : outcome Z :=
  if negb aligned then __siphash_unaligned data len key
  else ___siphash_aligned const_len data len key.

(** ** The iterator *)

(** [struct siphash_iter] *)
Record siphash_iter_t := SiphashIter {
  it_v : sip_state;
  it_b : Z;
  it_residual : list Z;
  it_residual_length : Z }.

(** [residual] is whatever the caller's structure held. *)
Definition siphash_iter_start (residual : list Z) (len : Z) (key : siphash_key_t)
    : siphash_iter_t :=
  let '(v, b) := PREAMBLE len key in SiphashIter v b residual 0.

Definition siphash_iter_end (iter : siphash_iter_t) : outcome Z :=
  let data := Ptr (it_residual iter) 0 in
  b ← tail_switch le16_to_cpup le32_to_cpup (it_residual_length iter) (it_b iter) data;
  mret (SIPHASH_POSTAMBLE (it_v iter) b).

(** [for (i = 0; i < n; i++) residual[base + i] = src[i]] *)
Fixpoint copy_residual (n : nat) (i base : Z) (src : ptr) (residual : list Z)
    : outcome (list Z) :=
  match n with
  | O => mret residual
  | S n' =>
      b ← ld8 src i;
      if (base + i <? 0) || (Z.of_nat (length residual) <=? base + i) then Crash
      else copy_residual n' (i + 1) base src (<[Z.to_nat (base + i) := b]> residual)
  end.

(** From [end = data + len - ...] to the end of [siphash_iter]. *)
Definition siphash_iter_words (iter : siphash_iter_t) (data : ptr) (len : Z)
    : outcome siphash_iter_t :=
  let end_ := words_end 8 data len in
  let left := Z.land len 7 in
  '(v, _) ← words_loop (Z.to_nat len) 8 le64_to_cpup MAKE_ROUND data end_ (it_v iter);
  if negb (left =? 0) then
    residual ← copy_residual (Z.to_nat left) 0 0 end_ (it_residual iter);
    mret (SiphashIter v (it_b iter) residual left)
  else mret (SiphashIter v (it_b iter) (it_residual iter) (it_residual_length iter)).

Definition siphash_iter (iter : siphash_iter_t) (data : ptr) (len : Z)
    : outcome siphash_iter_t :=
  let rl := it_residual_length iter in
  if negb (rl =? 0) then
    let clen := Z.min len (8 - rl) in
    residual ← copy_residual (Z.to_nat clen) 0 rl data (it_residual iter);
    if clen <? 8 - rl then
      mret (SiphashIter (it_v iter) (it_b iter) residual (u8 (rl + clen)))
    else
      m ← ld_le 8 (Ptr residual 0) 0;
      siphash_iter_words (SiphashIter (MAKE_ROUND (it_v iter) m) (it_b iter) residual 0)
        (padd data clen) (len - clen)
  else siphash_iter_words iter data len.

(** ** The register interface *)

(** [for (i = 0; i < 4 && i < len / 8; i++)]; returns [i] as well. *)
Fixpoint start_loop (n : nat) (i : Z) (args : list Z) (len : Z) (v : sip_state)
    : outcome (sip_state * Z) :=
  match n with
  | O => mret (v, i)
  | S n' =>
      if i <? len / 8 then
        m ← deref (args !! Z.to_nat i);
        start_loop n' (i + 1) args len (MAKE_ROUND v m)
      else mret (v, i)
  end.

(** [args[2] = b; args[3] = v0; ... args[6] = v3] *)
Definition store_chain (args : list Z) (v : sip_state) (b : Z) : list Z :=
  take 2 args ++ [b; sip_v0 v; sip_v1 v; sip_v2 v; sip_v3 v] ++ drop 7 args.

(** The returned value and the argument array. *)
Definition __siphash_start (args : list Z) : outcome (Z * list Z) :=
  len ← deref (args !! 4%nat);
  k0 ← deref (args !! 5%nat);
  k1 ← deref (args !! 6%nat);
  let '(v, b) := PREAMBLE len (SiphashKey k0 k1) in
  '(v, i) ← start_loop 4 0 args len v;
  if len <=? 32 then
    b ← (if negb (Z.land len 7 =? 0)
         then a ← deref (args !! Z.to_nat i); mret (Z.lor b a) else mret b);
    mret (SIPHASH_POSTAMBLE v b, args)
  else mret (0, store_chain args v b).

Definition __siphash_round (args : list Z) (one_arg end_ partial : bool) : outcome (Z * list Z) :=
  b ← deref (args !! 2%nat);
  v0 ← deref (args !! 3%nat); v1 ← deref (args !! 4%nat);
  v2 ← deref (args !! 5%nat); v3 ← deref (args !! 6%nat);
  a0 ← deref (args !! 0%nat);
  let v := SipState v0 v1 v2 v3 in
  if one_arg && partial && end_ then mret (SIPHASH_POSTAMBLE v (Z.lor b a0), args) else
  let v := MAKE_ROUND v a0 in
  if negb one_arg then
    a1 ← deref (args !! 1%nat);
    if partial && end_ then mret (SIPHASH_POSTAMBLE v (Z.lor b a1), args) else
    let v := MAKE_ROUND v a1 in
    if end_ then mret (SIPHASH_POSTAMBLE v b, args) else mret (0, store_chain args v b)
  else if end_ then mret (SIPHASH_POSTAMBLE v b, args) else mret (0, store_chain args v b).

(** ** HalfSipHash *)

Definition HSIPROUND (v : sip_state) : sip_state :=
  let '(SipState v0 v1 v2 v3) := v in
  let v0 := u32 (v0 + v1) in
  let v1 := rol32 v1 5 in
  let v1 := Z.lxor v1 v0 in
  let v0 := rol32 v0 16 in
  let v2 := u32 (v2 + v3) in
  let v3 := rol32 v3 8 in
  let v3 := Z.lxor v3 v2 in
  let v0 := u32 (v0 + v3) in
  let v3 := rol32 v3 7 in
  let v3 := Z.lxor v3 v0 in
  let v2 := u32 (v2 + v1) in
  let v1 := rol32 v1 13 in
  let v1 := Z.lxor v1 v2 in
  let v2 := rol32 v2 16 in
  SipState v0 v1 v2 v3.

(** The key words are [unsigned long], the state is 32 bits wide. *)
Definition HPREAMBLE (len : Z) (key : siphash_key_t) : sip_state * Z :=
  (SipState (u32 (Z.lxor 0 (sk_key0 key)))
            (u32 (Z.lxor 0 (sk_key1 key)))
            (u32 (Z.lxor 0x6c796765 (sk_key0 key)))
            (u32 (Z.lxor 0x74656462 (sk_key1 key))),
   u32 (Z.shiftl (u32 len) 24)).

Definition HPOSTAMBLE (v : sip_state) (b : Z) : Z :=
  let v := xor_v3 b v in
  let v := HSIPROUND v in
  let v := xor_v0 b v in
  let v := xor_v2 0xff v in
  let v := HSIPROUND v in
  let v := HSIPROUND v in
  let v := HSIPROUND v in
  Z.lxor (sip_v1 v) (sip_v3 v).

Definition HROUND (v : sip_state) (m : Z) : sip_state := xor_v0 m (HSIPROUND (xor_v3 m v)).

(** [switch (left) { case 3: ... }] *)
Definition htail_switch (ld16 : ptr -> outcome Z) (left b : Z) (end_ : ptr) : outcome Z :=
  b ← (if left =? 3 then e ← ld8 end_ 2; mret (Z.lor b (u32 (Z.shiftl e 16))) else mret b);
  if (2 <=? left) && (left <=? 3) then e ← ld16 end_; mret (Z.lor b e) else
  if left =? 1 then e ← ld8 end_ 0; mret (Z.lor b e) else mret b.

Definition __hsiphash_aligned (data : ptr) (len : Z) (key : siphash_key_t) : outcome Z :=
  let end_ := words_end 4 data len in
  let left := Z.land len 3 in
  let '(v, b) := HPREAMBLE len key in
  '(v, data) ← words_loop (Z.to_nat len) 4 le32_to_cpup HROUND data end_ v;
  b ← htail_switch (fun _ => le16_to_cpup data) left b end_;
  mret (HPOSTAMBLE v b).

Definition __hsiphash_unaligned (data : ptr) (len : Z) (key : siphash_key_t) : outcome Z :=
  let end_ := words_end 4 data len in
  let left := Z.land len 3 in
  let '(v, b) := HPREAMBLE len key in
  '(v, data) ← words_loop (Z.to_nat len) 4 get_unaligned_le32 HROUND data end_ v;
  b ← htail_switch get_unaligned_le16 left b end_;
  mret (HPOSTAMBLE v b).

Definition hsiphash_1u32 (first : Z) (key : siphash_key_t) : Z :=
  let '(v, b) := HPREAMBLE 4 key in
  HPOSTAMBLE (HROUND v first) b.

Definition hsiphash_2u32 (first second : Z) (key : siphash_key_t) : Z :=
  let '(v, b) := HPREAMBLE 8 key in
  HPOSTAMBLE (HROUND (HROUND v first) second) b.

Definition hsiphash_3u32 (first second third : Z) (key : siphash_key_t) : Z :=
  let '(v, b) := HPREAMBLE 12 key in
  HPOSTAMBLE (HROUND (HROUND (HROUND v first) second) third) b.

Definition hsiphash_4u32 (first second third forth : Z) (key : siphash_key_t) : Z :=
  let '(v, b) := HPREAMBLE 16 key in
  HPOSTAMBLE (HROUND (HROUND (HROUND (HROUND v first) second) third) forth) b.

Definition ___hsiphash_aligned (const_len : bool) (data : ptr) (len : Z) (key : siphash_key_t)
    : outcome Z :=
  if const_len && (len =? 4) then
    w0 ← ld_le 4 data 0; mret (hsiphash_1u32 w0 key)
  else if const_len && (len =? 8) then
    w0 ← ld_le 4 data 0; w1 ← ld_le 4 data 4; mret (hsiphash_2u32 w0 w1 key)
  else if const_len && (len =? 12) then
    w0 ← ld_le 4 data 0; w1 ← ld_le 4 data 4; w2 ← ld_le 4 data 8;
    mret (hsiphash_3u32 w0 w1 w2 key)
  else if const_len && (len =? 16) then
    w0 ← ld_le 4 data 0; w1 ← ld_le 4 data 4; w2 ← ld_le 4 data 8; w3 ← ld_le 4 data 12;
    mret (hsiphash_4u32 w0 w1 w2 w3 key)
  else __hsiphash_aligned data len key.

Definition hsiphash (aligned const_len : bool) (data : ptr) (len : Z) (key : siphash_key_t)
    : outcome Z :=
  if negb aligned then __hsiphash_unaligned data len key
  else ___hsiphash_aligned const_len data len key.
