(* ===== verification/SiphashSpec.v ===== *)
(** * All entry points of SipHash compute one function

    [siphash_ref] and [hsiphash_ref] hash a list of bytes. The buffer, word,
    iterator and register interfaces of [Siphash.v] are shown to compute them. *)

From stdpp Require Import base list numbers.
From Stdlib Require Import Btauto.
From S2P Require Import Prelude FlagFields Bytes Siphash.

(** ** Reference *)

(** Absorb the first [n] words of [w] bytes; the rest is left over. *)
Fixpoint absorb_n {S} (w : nat) (round : S -> Z -> S) (n : nat) (v : S) (bs : list Z)
    : S * list Z :=
  match n with
  | O => (v, bs)
  | Datatypes.S n' => absorb_n w round n' (round v (le_val (take w bs))) (drop w bs)
  end.

(** All complete words. *)
Definition absorb {S} (w : nat) (round : S -> Z -> S) (v : S) (bs : list Z) : S * list Z :=
  absorb_n w round (length bs / w) v bs.

Definition siphash_ref (key : siphash_key_t) (bs : list Z) : Z :=
  let '(v, b) := PREAMBLE (Z.of_nat (length bs)) key in
  let '(v, tail) := absorb 8 MAKE_ROUND v bs in
  SIPHASH_POSTAMBLE v (Z.lor b (le_val tail)).

Lemma siphash_ref_eq key bs :
  siphash_ref key bs =
    let '(v, b) := PREAMBLE (Z.of_nat (length bs)) key in
    SIPHASH_POSTAMBLE (absorb 8 MAKE_ROUND v bs).1 (Z.lor b (le_val (absorb 8 MAKE_ROUND v bs).2)).
Proof. unfold siphash_ref. destruct (PREAMBLE _ _) as [v b]. by destruct (absorb _ _ v bs). Qed.

Definition hsiphash_ref (key : siphash_key_t) (bs : list Z) : Z :=
  let '(v, b) := HPREAMBLE (Z.of_nat (length bs)) key in
  let '(v, tail) := absorb 4 HROUND v bs in
  HPOSTAMBLE v (Z.lor b (le_val tail)).

(** ** Absorbing *)

Section absorb.
Context {S : Type} (w : nat) (round : S -> Z -> S) (Hw : (0 < w)%nat).

Lemma absorb_short v bs : (length bs < w)%nat -> absorb w round v bs = (v, bs).
Proof using Hw. intros H. unfold absorb. by rewrite Nat.div_small. Qed.

Lemma absorb_word v m bs :
  length m = w -> absorb w round v (m ++ bs) = absorb w round (round v (le_val m)) bs.
Proof using Hw.
  intros Hm. unfold absorb. rewrite length_app, Hm.
  replace (w + length bs)%nat with (length bs + 1 * w)%nat by lia.
  rewrite Nat.div_add by lia. rewrite Nat.add_1_r. cbn [absorb_n].
  by rewrite (take_app_length' m bs w), (drop_app_length' m bs w) by done.
Qed.

(** Words of a list, one at a time. *)
Lemma words_ind (P : list Z -> Prop) :
  (forall bs, (length bs < w)%nat -> P bs) ->
  (forall m bs, length m = w -> P bs -> P (m ++ bs)) -> forall bs, P bs.
Proof using Hw.
  intros Hshort Hword bs. induction bs as [bs IH] using (induction_ltof1 _ (@length Z)).
  destruct (decide (length bs < w)%nat) as [| Hge]; [by apply Hshort |].
  rewrite <- (take_drop w bs). apply Hword; [rewrite length_take; lia |].
  apply IH. unfold ltof. rewrite length_drop. lia.
Qed.

(** The left over bytes can be put in front of more input. *)
Lemma absorb_app bs2 bs1 : forall v,
  absorb w round v (bs1 ++ bs2) =
    let '(v', t) := absorb w round v bs1 in absorb w round v' (t ++ bs2).
Proof using Hw.
  induction bs1 as [bs1 H | m bs1 Hm IH] using words_ind; intros v.
  - by rewrite (absorb_short v bs1).
  - rewrite <- (assoc_L (++)), (absorb_word v m (bs1 ++ bs2)), (absorb_word v m bs1) by done.
    apply IH.
Qed.

Lemma absorb_tail bs : forall v,
  let t := (absorb w round v bs).2 in
  length t = (length bs mod w)%nat /\ (Forall is_u8 bs -> Forall is_u8 t).
Proof using Hw.
  induction bs as [bs H | m bs Hm IH] using words_ind; intros v.
  - rewrite absorb_short by done. by rewrite Nat.mod_small.
  - rewrite absorb_word by done. destruct (IH (round v (le_val m))) as [E Hu]. split.
    + rewrite E, length_app, Hm. replace (w + length bs)%nat with (length bs + 1 * w)%nat by lia.
      by rewrite Nat.Div0.mod_add.
    + rewrite Forall_app. intros [_ ?]. auto.
Qed.

Lemma words_end_word p n :
  words_end (Z.of_nat w) p (Z.of_nat w + n) =
  words_end (Z.of_nat w) (padd p (Z.of_nat w)) n.
Proof using Hw.
  unfold words_end. rewrite padd_padd. f_equal.
  replace (Z.of_nat w + n) with (n + 1 * Z.of_nat w) at 2 by lia.
  rewrite Z.mod_add by lia. lia.
Qed.

Context (load : ptr -> outcome Z).
Context (Hload : forall p m, length m = w -> Forall is_u8 m -> bytes_at p m ->
                             load p = Done (le_val m)).

Lemma words_loop_spec bs : forall p v fuel,
  Forall is_u8 bs -> bytes_at p bs -> (length bs <= fuel)%nat ->
  let end_ := words_end (Z.of_nat w) p (Z.of_nat (length bs)) in
  words_loop fuel (Z.of_nat w) load round p end_ v = Done ((absorb w round v bs).1, end_) /\
  bytes_at end_ (absorb w round v bs).2.
Proof using Hw Hload.
  induction bs as [bs H | m bs Hm IH] using words_ind; intros p v fuel Hu Hat Hf end_.
  - rewrite absorb_short by done. assert (end_ = p) as ->.
    { unfold end_, words_end. rewrite Z.mod_small by lia. rewrite Z.sub_diag. apply padd_0. }
    split; [| done]. destruct fuel; cbn [words_loop]; by rewrite Z.eqb_refl.
  - rewrite absorb_word by done. apply Forall_app in Hu as [Hum Hub].
    pose proof (bytes_at_app_l _ _ _ Hat) as Hatm. pose proof (bytes_at_app_r _ _ _ Hat) as Hatb.
    subst end_. rewrite length_app, Hm in *. rewrite Nat2Z.inj_add, words_end_word.
    destruct fuel as [| fuel]; [lia |]. cbn [words_loop].
    destruct (IH (padd p (Z.of_nat w)) (round v (le_val m)) fuel) as [E1 E2];
      [done | done | lia |]. split; [| done].
    destruct (Z.eqb_spec (poff p) (poff (words_end (Z.of_nat w) (padd p (Z.of_nat w))
                                          (Z.of_nat (length bs))))) as [E | _].
    + exfalso. unfold words_end, padd in E. simpl in E.
      pose proof (Z.mod_le (Z.of_nat (length bs)) (Z.of_nat w)). lia.
    + rewrite (Hload p m) by done. orun. exact E1.
Qed.
End absorb.

(** ** Loads *)

Lemma lor_mask_byte b n k : is_u8 b -> 0 <= n -> n + 8 <= k ->
  Z.shiftl b n mod 2 ^ k = Z.shiftl b n.
Proof.
  unfold is_u8. intros Hb Hn Hk. rewrite Z.shiftl_mul_pow2 by done. apply Z.mod_small.
  assert (2 ^ 8 * 2 ^ n <= 2 ^ k) as Hp by (rewrite <- Z.pow_add_r by lia; apply Z.pow_le_mono_r; lia).
  nia.
Qed.

(** A list of bytes as a disjunction of shifted bytes. *)
Lemma le_val_4 b0 b1 b2 b3 : is_u8 b0 -> is_u8 b1 -> is_u8 b2 -> is_u8 b3 ->
  le_val [b0; b1; b2; b3] =
    Z.lor (Z.lor (Z.lor b0 (Z.shiftl b1 8)) (Z.shiftl b2 16)) (Z.shiftl b3 24).
Proof.
  intros. rewrite !le_val_cons_lor by done. cbn [le_val].
  rewrite !Z.shiftl_lor, !Z.shiftl_shiftl, Z.shiftl_0_l, Z.lor_0_r by lia. simpl Z.add.
  by rewrite !Z.lor_assoc.
Qed.

Lemma get_unaligned_le16_at p m :
  length m = 2%nat -> Forall is_u8 m -> bytes_at p m -> get_unaligned_le16 p = Done (le_val m).
Proof.
  intros Hl Hu Hat. destruct m as [| b0 [| b1 [|]]]; try discriminate.
  forall_inv Hu.
  unfold get_unaligned_le16. rewrite (bytes_at_ld8 p _ 0 b0 Hat), (bytes_at_ld8 p _ 1 b1 Hat) by done. orun. f_equal.
  unfold is_u8, u16 in *. cbn [le_val]. rewrite lor_shiftl by lia. rewrite Z.mod_small; lia.
Qed.

Lemma get_unaligned_le32_at p m :
  length m = 4%nat -> Forall is_u8 m -> bytes_at p m -> get_unaligned_le32 p = Done (le_val m).
Proof.
  intros Hl Hu Hat. pose proof (le_val_range m Hu) as Hr.
  destruct m as [| b0 [| b1 [| b2 [| b3 [|]]]]]; try discriminate.
  unfold get_unaligned_le32.
  rewrite (bytes_at_ld8 p _ 0 b0 Hat), (bytes_at_ld8 p _ 1 b1 Hat), (bytes_at_ld8 p _ 2 b2 Hat),
    (bytes_at_ld8 p _ 3 b3 Hat) by done. orun. f_equal.
  forall_inv Hu.
  rewrite <- le_val_4 by done. by apply Z.mod_small.
Qed.

Lemma get_unaligned_le64_at p m :
  length m = 8%nat -> Forall is_u8 m -> bytes_at p m -> get_unaligned_le64 p = Done (le_val m).
Proof.
  intros Hl Hu Hat. rewrite <- (take_drop 4 m) in Hu, Hat |- *.
  assert (length (take 4 m) = 4%nat) as Hl1 by (rewrite length_take; lia).
  assert (length (drop 4 m) = 4%nat) as Hl2 by (rewrite length_drop; lia).
  apply Forall_app in Hu as [Hu1 Hu2].
  pose proof (bytes_at_app_l _ _ _ Hat) as Hat1. pose proof (bytes_at_app_r _ _ _ Hat) as Hat2.
  rewrite Hl1 in Hat2. unfold get_unaligned_le64.
  rewrite (get_unaligned_le32_at (padd p 4) (drop 4 m)), (get_unaligned_le32_at p (take 4 m))
    by done. orun. f_equal. rewrite le_val_app, Hl1.
  pose proof (le_val_range _ Hu1) as R1. pose proof (le_val_range _ Hu2) as R2.
  rewrite Hl1 in R1. rewrite Hl2 in R2. change (8 * Z.of_nat 4) with 32 in *.
  unfold u64. rewrite Z.mod_small by (rewrite Z.shiftl_mul_pow2 by lia; lia).
  rewrite Z.lor_comm. by apply lor_shiftl.
Qed.

Lemma le_to_cpup_at (n : nat) p m :
  length m = n -> Forall is_u8 m -> bytes_at p m -> ld_le n p 0 = Done (le_val m).
Proof. intros <- _. apply ld_le_bytes_at. Qed.

(** ** Left over bytes *)

Lemma le_val_3 b0 b1 b2 : is_u8 b0 -> is_u8 b1 -> is_u8 b2 ->
  le_val [b0; b1; b2] = Z.lor (le_val [b0; b1]) (Z.shiftl b2 16).
Proof.
  intros. rewrite !le_val_cons_lor by done. cbn [le_val].
  rewrite !Z.shiftl_lor, !Z.shiftl_shiftl, !Z.shiftl_0_l, !Z.lor_0_r by lia. simpl Z.add.
  by rewrite !Z.lor_assoc.
Qed.

(** Four bytes and the bytes that follow, as the switch adds them. *)
Lemma le_val_app4 a t : length a = 4%nat -> Forall is_u8 a ->
  le_val (a ++ t) = Z.lor (le_val a) (Z.shiftl (le_val t) 32).
Proof.
  intros Hl Hu. pose proof (le_val_range a Hu) as R. rewrite Hl in R.
  rewrite lor_shiftl by (done || lia). by rewrite le_val_app, Hl.
Qed.

Lemma le_val_shift_32 t : Forall is_u8 t -> (length t <= 3)%nat ->
  Z.shiftl (le_val t) 32 =
    Z.lor (Z.lor (Z.shiftl (default 0 (t !! 2%nat)) 48) (Z.shiftl (default 0 (t !! 1%nat)) 40))
          (Z.shiftl (default 0 (t !! 0%nat)) 32).
Proof.
  intros Hu Hl. destruct t as [| b0 [| b1 [| b2 [|]]]]; simpl in Hl; try lia; forall_inv Hu;
    rewrite ?le_val_cons_lor by done; cbn [le_val lookup list_lookup default];
    rewrite ?Z.shiftl_lor, ?Z.shiftl_shiftl, ?Z.shiftl_0_l, ?Z.lor_0_r, ?Z.lor_0_l by lia;
    simpl Z.add; try done; [by rewrite Z.lor_comm |].
  rewrite (Z.lor_comm (Z.shiftl b0 32)). f_equal. apply Z.lor_comm.
Qed.

(** The switches do not depend on how the two and four byte loads are done. *)
Lemma tail_switch_spec ld16 ld32 p t b :
  Forall is_u8 t -> (length t < 8)%nat -> bytes_at p t ->
  (forall m, length m = 2%nat -> Forall is_u8 m -> bytes_at p m -> ld16 p = Done (le_val m)) ->
  (forall m, length m = 4%nat -> Forall is_u8 m -> bytes_at p m -> ld32 p = Done (le_val m)) ->
  tail_switch ld16 ld32 (Z.of_nat (length t)) b p = Done (Z.lor b (le_val t)).
Proof.
  intros Hu Hl Hat H16 H32.
  assert (forall i x, t !! Z.to_nat i = Some x -> 0 <= i -> ld8 p i = Done x) as Hld
    by (intros; by eapply bytes_at_ld8).
  assert (forall x, is_u8 x -> forall n, 0 <= n -> n + 8 <= 64 -> u64 (Z.shiftl x n) = Z.shiftl x n) as Hsh
    by (intros; by apply lor_mask_byte).
  destruct (decide (4 <= length t)%nat) as [Hge | Hlt].
  - (* four bytes and up to three more *)
    destruct t as [| b0 [| b1 [| b2 [| b3 t]]]]; simpl in Hge; try lia.
    set (a := [b0; b1; b2; b3]). change (b0 :: b1 :: b2 :: b3 :: t) with (a ++ t) in *.
    apply Forall_app in Hu as [Hua Hut]. rewrite length_app in Hl. simpl in Hl.
    rewrite le_val_app4, le_val_shift_32 by (done || lia).
    specialize (H32 a eq_refl Hua (bytes_at_app_l _ _ _ Hat)).
    unfold tail_switch.
    destruct t as [| b4 [| b5 [| b6 [|]]]]; simpl in Hl; try lia; forall_inv Hut;
      cbn -[ld8 le_val Z.lor Z.shiftl u64 a]; orun;
      rewrite ?(Hld 4 b4), ?(Hld 5 b5), ?(Hld 6 b6), ?H32 by (done || lia); orun;
      rewrite ?Hsh, ?Z.shiftl_0_l by (done || lia); f_equal;
      apply Z.bits_inj'; intros i Hi; rewrite ?Z.lor_spec, ?Z.bits_0; btauto.
  - unfold tail_switch.
    destruct t as [| b0 [| b1 [| b2 [|]]]]; simpl in Hlt; try lia; forall_inv Hu;
      cbn -[ld8 le_val Z.lor Z.shiftl u64]; orun.
    + by rewrite Z.lor_0_r.
    + rewrite (Hld 0 b0) by done. orun. do 2 f_equal. cbn [le_val]. lia.
    + by rewrite (H16 [b0; b1]) by auto.
    + rewrite (Hld 2 b2), (H16 [b0; b1]) by (done || auto || exact (bytes_at_app_l p [b0; b1] [b2] Hat)).
      orun. rewrite Hsh, le_val_3 by (done || lia). f_equal.
      rewrite <- Z.lor_assoc. f_equal. apply Z.lor_comm.
Qed.

(** ** The buffer interface *)

Lemma land_7 n : 0 <= n -> Z.land n 7 = n mod 8.
Proof. intros H. by apply (Z.land_ones n 3). Qed.
Lemma land_3 n : 0 <= n -> Z.land n 3 = n mod 4.
Proof. intros H. by apply (Z.land_ones n 2). Qed.

Section buffer.
Context (key : siphash_key_t) (p : ptr) (bs : list Z).
Context (Hu : Forall is_u8 bs) (Hat : bytes_at p bs).
Local Abbreviation len := (Z.of_nat (length bs)).

(** After the loop over the words, with any way of loading words. *)
Lemma words_then_tail {A} (w : nat) load round v (k : sip_state * ptr -> outcome A) r :
  (0 < w)%nat ->
  (forall q m, length m = w -> Forall is_u8 m -> bytes_at q m -> load q = Done (le_val m)) ->
  (forall t, Forall is_u8 t -> (length t < w)%nat -> Z.of_nat (length t) = len mod Z.of_nat w ->
     bytes_at (words_end (Z.of_nat w) p len) t -> (absorb w round v bs).2 = t ->
     k ((absorb w round v bs).1, words_end (Z.of_nat w) p len) = r) ->
  words_loop (Z.to_nat len) (Z.of_nat w) load round p (words_end (Z.of_nat w) p len) v ≫= k = r.
Proof using Hu Hat.
  intros Hw Hload Hk. rewrite Nat2Z.id.
  destruct (words_loop_spec w round Hw load Hload bs p v (length bs) Hu Hat ltac:(lia)) as [-> Ht].
  destruct (absorb_tail w round Hw bs v) as [Hl Hf].
  eapply Hk; [by apply Hf | | | exact Ht | done]; rewrite Hl;
    [apply Nat.mod_upper_bound; lia | by rewrite Nat2Z.inj_mod].
Qed.

Lemma siphash_unaligned_ref : __siphash_unaligned p len key = Done (siphash_ref key bs).
Proof using Hu Hat.
  unfold __siphash_unaligned, siphash_ref. cbv beta iota zeta delta [PREAMBLE].
  apply (words_then_tail 8); [lia | by apply get_unaligned_le64_at |].
  intros t Htu Ht8 Htl Hta Et. rewrite land_7 by lia. change (Z.of_nat 8) with 8 in *. rewrite <- Htl.
  rewrite tail_switch_spec;
    [| done | done | done | by apply get_unaligned_le16_at | by apply get_unaligned_le32_at].
  orun. by destruct (absorb _ _ _ bs); simpl in *; subst.
Qed.

Lemma siphash_aligned_ref : __siphash_aligned p len key = Done (siphash_ref key bs).
Proof using Hu Hat.
  unfold __siphash_aligned, siphash_ref. cbv beta iota zeta delta [PREAMBLE].
  apply (words_then_tail 8); [lia | by apply le_to_cpup_at |].
  intros t Htu Ht8 Htl Hta Et. rewrite land_7 by lia. change (Z.of_nat 8) with 8 in *. rewrite <- Htl.
  rewrite tail_switch_spec;
    [| done | done | done | by apply le_to_cpup_at | by apply le_to_cpup_at].
  orun. by destruct (absorb _ _ _ bs); simpl in *; subst.
Qed.

Lemma ld_word (w i : nat) z :
  Z.of_nat i = z -> (i + w <= length bs)%nat ->
  ld_le w p z = Done (le_val (take w (drop i bs))).
Proof using Hat.
  intros <- Hi. pose proof (ld_le_at (take w (drop i bs)) p (Z.of_nat i)) as H.
  rewrite length_take, length_drop, Nat.min_l in H by lia. apply H.
  intros k b [Hk _]%lookup_take_Some. rewrite lookup_drop in Hk.
  rewrite <- Nat2Z.inj_add. by apply Hat.
Qed.

(** Hash of [n] complete words. *)
Lemma siphash_ref_words n :
  length bs = (8 * n)%nat ->
  siphash_ref key bs =
    SIPHASH_POSTAMBLE (absorb_n 8 MAKE_ROUND n (PREAMBLE (8 * Z.of_nat n) key).1 bs).1
      (PREAMBLE (8 * Z.of_nat n) key).2.
Proof using Type.
  intros Hn. unfold siphash_ref.
  destruct (absorb_tail 8 MAKE_ROUND ltac:(lia) bs (PREAMBLE len key).1) as [Ht _].
  revert Ht. unfold absorb. rewrite Hn, (Nat.mul_comm 8 n), Nat.div_mul, Nat.Div0.mod_mul by done.
  replace (Z.of_nat (n * 8)) with (8 * Z.of_nat n) by lia.
  destruct (PREAMBLE _ key) as [v b]. cbn [fst].
  destruct (absorb_n _ _ _ v bs) as [v' t]. cbn [fst snd].
  intros Ht. destruct t; [| done]. by rewrite Z.lor_0_r.
Qed.

Lemma siphash_ref_ok aligned const_len :
  siphash aligned const_len p len key = Done (siphash_ref key bs).
Proof using Hu Hat.
  unfold siphash, ___siphash_aligned.
  destruct aligned; [| apply siphash_unaligned_ref].
  destruct const_len; [| apply siphash_aligned_ref]. simpl negb. simpl andb. cbv iota.
  assert (forall n, len = 8 * Z.of_nat n -> length bs = (8 * n)%nat) as Hn by lia.
  pose proof (ld_word 8 0 0 eq_refl) as L0. pose proof (ld_word 8 8 8 eq_refl) as L1.
  pose proof (ld_word 8 16 16 eq_refl) as L2. pose proof (ld_word 8 24 24 eq_refl) as L3.
  destruct (Z.eqb_spec len 4) as [E | _].
  { rewrite (ld_word 4 0) by (done || lia). orun. f_equal. rewrite drop_0, take_ge by lia.
    rewrite siphash_ref_eq, E. unfold siphash_1u32. destruct (PREAMBLE 4 key) as [v b].
    by rewrite absorb_short by lia. }
  destruct (Z.eqb_spec len 8) as [E | _].
  { rewrite (siphash_ref_words 1), L0 by lia. orun. cbn [absorb_n]. by rewrite ?drop_drop. }
  destruct (Z.eqb_spec len 16) as [E | _].
  { rewrite (siphash_ref_words 2), L0, L1 by lia. orun. cbn [absorb_n]. by rewrite ?drop_drop. }
  destruct (Z.eqb_spec len 24) as [E | _].
  { rewrite (siphash_ref_words 3), L0, L1, L2 by lia. orun. cbn [absorb_n]. by rewrite ?drop_drop. }
  destruct (Z.eqb_spec len 32) as [E | _].
  { rewrite (siphash_ref_words 4), L0, L1, L2, L3 by lia. orun. cbn [absorb_n]. by rewrite ?drop_drop. }
  apply siphash_aligned_ref.
Qed.
End buffer.

(** ** The word interface *)

(** The [n] low bytes of [z]. *)
Fixpoint le_bytes (n : nat) (z : Z) : list Z :=
  match n with
  | O => []
  | S n' => z mod 2 ^ 8 :: le_bytes n' (z / 2 ^ 8)
  end.

Lemma le_bytes_length n : forall z, length (le_bytes n z) = n.
Proof. induction n; simpl; auto. Qed.

Lemma le_val_le_bytes n : forall z, 0 <= z < 2 ^ (8 * Z.of_nat n) -> le_val (le_bytes n z) = z.
Proof.
  induction n as [| n IH]; intros z Hz; cbn [le_bytes le_val]; [simpl in Hz; lia |].
  replace (8 * Z.of_nat (S n)) with (8 + 8 * Z.of_nat n) in Hz by lia.
  rewrite Z.pow_add_r in Hz by lia. rewrite IH.
  - pose proof (Z.div_mod z (2 ^ 8)). lia.
  - split; [apply Z.div_pos; lia |]. apply Z.div_lt_upper_bound; lia.
Qed.

Lemma le_bytes_u8 n : forall z, Forall is_u8 (le_bytes n z).
Proof. induction n as [| n IH]; intros z; constructor; [by apply Z.mod_pos_bound | done]. Qed.

Section words.
Context (key : siphash_key_t).

(** A list that begins with complete words, and ends with less than one. *)
Lemma siphash_ref_run ws t :
  Forall (fun m => length m = 8%nat) ws -> (length t < 8)%nat ->
  siphash_ref key (concat ws ++ t) =
    let '(v, b) := PREAMBLE (8 * Z.of_nat (length ws) + Z.of_nat (length t)) key in
    SIPHASH_POSTAMBLE (foldl MAKE_ROUND v (le_val <$> ws)) (Z.lor b (le_val t)).
Proof using Type.
  intros Hws Ht. rewrite siphash_ref_eq, length_app.
  assert (length (concat ws) = (8 * length ws)%nat) as ->.
  { induction Hws as [| m ws Hm _ IH]; [done |]. cbn [concat length].
    rewrite length_app, IH, Hm. lia. }
  replace (Z.of_nat (8 * length ws + length t))
    with (8 * Z.of_nat (length ws) + Z.of_nat (length t)) by lia.
  destruct (PREAMBLE _ key) as [v b].
  assert (absorb 8 MAKE_ROUND v (concat ws ++ t) = (foldl MAKE_ROUND v (le_val <$> ws), t)) as ->;
    [| done].
  revert v. induction Hws as [| m ws Hm _ IH]; intros v; [apply absorb_short; [lia | done] |].
  cbn [concat]. rewrite <- (assoc_L (++)), absorb_word by (done || lia). apply IH.
Qed.

(** The same with the words and the rest given by their values. *)
Lemma siphash_run_eq bs ws t ms lt :
  bs = concat ws ++ t -> Forall (fun m => length m = 8%nat) ws -> (length t < 8)%nat ->
  le_val <$> ws = ms -> le_val t = lt ->
  siphash_ref key bs =
    let pre := PREAMBLE (8 * Z.of_nat (length ws) + Z.of_nat (length t)) key in
    SIPHASH_POSTAMBLE (foldl MAKE_ROUND pre.1 ms) (Z.lor pre.2 lt).
Proof using Type.
  intros -> Hws Ht <- <-. rewrite siphash_ref_run by done. by destruct (PREAMBLE _ key).
Qed.

Lemma combine_u32 a b : is_u32 a -> is_u32 b ->
  le_val (le_bytes 4 a ++ le_bytes 4 b) = Z.lor (u64 (Z.shiftl b 32)) a.
Proof using Type.
  unfold is_u32. intros Ha Hb. rewrite le_val_app4 by auto using le_bytes_length, le_bytes_u8.
  rewrite !le_val_le_bytes by done. rewrite Z.lor_comm. f_equal. unfold u64.
  rewrite Z.mod_small; [done |]. rewrite Z.shiftl_mul_pow2 by lia. lia.
Qed.
End words.

(** ** The iterator *)

(** The iterator holds the state after the complete words of [bs], and the
    bytes that are left over. *)
Definition iter_repr (key : siphash_key_t) (len : Z) (it : siphash_iter_t) (bs : list Z) : Prop :=
  let '(v, b) := PREAMBLE len key in
  it_v it = (absorb 8 MAKE_ROUND v bs).1 /\ it_b it = b /\
  it_residual_length it = Z.of_nat (length (absorb 8 MAKE_ROUND v bs).2) /\
  length (it_residual it) = 8%nat /\
  take (length (absorb 8 MAKE_ROUND v bs).2) (it_residual it) = (absorb 8 MAKE_ROUND v bs).2.

Lemma copy_residual_spec bs : forall (r : list Z) (base i : nat) p,
  (forall k b, bs !! k = Some b -> ld8 p (Z.of_nat (i + k)) = Done b) ->
  (base + i + length bs <= length r)%nat ->
  copy_residual (length bs) (Z.of_nat i) (Z.of_nat base) p r =
    Done (take (base + i) r ++ bs ++ drop (base + i + length bs) r).
Proof.
  induction bs as [| b bs IH]; intros r base i p Hld Hl; cbn [length copy_residual].
  { orun. by rewrite Nat.add_0_r, app_nil_l, take_drop. }
  pose proof (Hld 0%nat b eq_refl) as E. rewrite Nat.add_0_r in E. rewrite E. orun.
  cbn [length] in Hl.
  destruct (Z.ltb_spec (Z.of_nat base + Z.of_nat i) 0),
    (Z.leb_spec (Z.of_nat (length r)) (Z.of_nat base + Z.of_nat i)); try lia. cbn [orb].
  replace (Z.of_nat i + 1) with (Z.of_nat (S i)) by lia.
  replace (Z.to_nat (Z.of_nat base + Z.of_nat i)) with (base + i)%nat by lia.
  rewrite IH.
  - f_equal. rewrite Nat.add_succ_r. rewrite (take_S_r _ _ b) by (apply list_lookup_insert_eq; lia).
    rewrite take_insert_ge, drop_insert_lt by lia. rewrite <- (assoc_L (++)). simpl.
    by replace (base + i + S (length bs))%nat with (S (base + i + length bs)) by lia.
  - intros k x Hk. rewrite <- (Hld (S k) x Hk). f_equal. lia.
  - rewrite length_insert. lia.
Qed.

Section iterator.
Context (key : siphash_key_t) (len : Z).
Local Abbreviation repr := (iter_repr key len).

(** The end of [siphash_iter], entered with an empty residual. *)
Lemma siphash_iter_words_repr it bs p chunk :
  repr it bs -> it_residual_length it = 0 -> Forall is_u8 chunk -> bytes_at p chunk ->
  exists it', siphash_iter_words it p (Z.of_nat (length chunk)) = Done it' /\ repr it' (bs ++ chunk).
Proof using Type.
  intros Hr Hl0 Hu Hat. unfold siphash_iter_words, iter_repr in *.
  destruct (PREAMBLE len key) as [v b]. destruct Hr as (Hv & Hb & Hl & Hr8 & _).
  rewrite absorb_app by lia. destruct (absorb 8 MAKE_ROUND v bs) as [v' t0]. cbn [fst snd] in *.
  destruct t0; [| cbn [length] in Hl; lia]. rewrite app_nil_l. subst v'. eexists. split.
  { eapply (words_then_tail p chunk Hu Hat 8); [lia | by apply le_to_cpup_at |].
    intros t Htu Ht8 Htl Hta Et. rewrite land_7 by lia. change (Z.of_nat 8) with 8 in *.
    rewrite <- Htl. rewrite <- Et in *.
    instantiate (1 := SiphashIter (absorb 8 MAKE_ROUND (it_v it) chunk).1 b
      ((absorb 8 MAKE_ROUND (it_v it) chunk).2 ++
         drop (length (absorb 8 MAKE_ROUND (it_v it) chunk).2) (it_residual it))
      (Z.of_nat (length (absorb 8 MAKE_ROUND (it_v it) chunk).2))).
    set (t' := (absorb 8 MAKE_ROUND (it_v it) chunk).2) in *. rewrite Nat2Z.id.
    destruct (Z.eqb_spec (Z.of_nat (length t')) 0) as [E0 | _]; cbn [negb].
    - destruct t'; [| done]. by rewrite Hb, Hl0.
    - rewrite (copy_residual_spec t' (it_residual it) 0 0) by (done || lia). orun. by rewrite Hb. }
  destruct (absorb_tail 8 MAKE_ROUND ltac:(lia) chunk (it_v it)) as [Ht _].
  pose proof (Nat.mod_upper_bound (length chunk) 8 ltac:(lia)).
  cbn [it_v it_b it_residual it_residual_length]. split_and!; try done.
  - rewrite length_app, length_drop. lia.
  - by rewrite take_app_length.
Qed.

Lemma siphash_iter_repr it bs p chunk :
  repr it bs -> Forall is_u8 bs -> Forall is_u8 chunk -> bytes_at p chunk ->
  exists it', siphash_iter it p (Z.of_nat (length chunk)) = Done it' /\ repr it' (bs ++ chunk).
Proof using Type.
  intros Hr Hub Hu Hat. unfold siphash_iter.
  destruct (Z.eqb_spec (it_residual_length it) 0) as [E0 | Hne]; cbn [negb].
  { by apply siphash_iter_words_repr. }
  pose proof Hr as Hr'. unfold iter_repr in Hr. destruct (PREAMBLE len key) as [v b] eqn:Epre.
  destruct (absorb_tail 8 MAKE_ROUND ltac:(lia) bs v) as [Htl Htu]. specialize (Htu Hub).
  pose proof (Nat.mod_upper_bound (length bs) 8 ltac:(lia)) as H8.
  destruct (absorb 8 MAKE_ROUND v bs) as [v' t] eqn:Eabs. cbn [fst snd] in *.
  destruct Hr as (Hv & Hb & Hl & Hr8 & Htake). rewrite Hl in *.
  set (n := (8 - length t)%nat).
  replace (Z.min (Z.of_nat (length chunk)) (8 - Z.of_nat (length t)))
    with (Z.of_nat (length (take n chunk))) by (rewrite length_take; lia).
  rewrite Nat2Z.id.
  rewrite (copy_residual_spec (take n chunk) (it_residual it) (length t) 0);
    [| intros k x Hk; by apply (bytes_at_take _ _ n Hat) | rewrite length_take; lia].
  orun. rewrite Nat.add_0_r, Htake.
  assert (absorb 8 MAKE_ROUND v (bs ++ take n chunk) =
            absorb 8 MAKE_ROUND v' (t ++ take n chunk)) as Ea
    by (rewrite absorb_app by lia; by rewrite Eabs).
  pose proof (length_take chunk n) as Hlt.
  destruct (Z.ltb_spec (Z.of_nat (length (take n chunk))) (8 - Z.of_nat (length t))) as [Hlt8 | Hge8].
  - (* the residual is not yet full *)
    eexists. split; [done |]. unfold iter_repr. rewrite Epre.
    rewrite (take_ge chunk n) in * by lia.
    rewrite Ea, absorb_short by (rewrite ?length_app; lia).
    cbn [fst snd it_v it_b it_residual it_residual_length].
    rewrite length_app, Nat2Z.inj_add, (assoc_L (++)).
    rewrite u8_small by (unfold is_u8; lia). split_and!; try done.
    + rewrite !length_app, length_drop. lia.
    + by rewrite <- length_app, take_app_length.
  - (* a complete word *)
    rewrite drop_ge, app_nil_r by lia.
    assert (length (t ++ take n chunk) = 8%nat) as Hw by (rewrite length_app; lia).
    rewrite (le_to_cpup_at 8 _ (t ++ take n chunk));
      [| done | apply Forall_app; split; [done | by apply Forall_take] | apply bytes_at_self].
    orun. rewrite <- (take_drop n chunk) in Hat, Hu.
    apply Forall_app in Hu as [_ Hu2]. pose proof (bytes_at_app_r _ _ _ Hat) as Hat2.
    replace (Z.of_nat (length chunk) - Z.of_nat (length (take n chunk)))
      with (Z.of_nat (length (drop n chunk))) by (rewrite length_drop; lia).
    assert (bs ++ chunk = (bs ++ take n chunk) ++ drop n chunk) as ->
      by (by rewrite <- (assoc_L (++)), take_drop).
    apply siphash_iter_words_repr; [| done | done | done].
    unfold iter_repr. rewrite Epre, Ea, <- (app_nil_r (t ++ _)), absorb_word by (done || lia).
    rewrite absorb_short by (simpl; lia). cbn [fst snd it_v it_b it_residual it_residual_length].
    rewrite Hv. by rewrite app_nil_r.
Qed.

Lemma siphash_iter_end_ref it bs :
  repr it bs -> len = Z.of_nat (length bs) -> Forall is_u8 bs ->
  siphash_iter_end it = Done (siphash_ref key bs).
Proof using Type.
  intros Hr Hlen Hu. unfold siphash_iter_end, iter_repr in *. rewrite siphash_ref_eq, <- Hlen.
  destruct (PREAMBLE len key) as [v b]. destruct Hr as (-> & -> & -> & Hr8 & Htake).
  destruct (absorb_tail 8 MAKE_ROUND ltac:(lia) bs v) as [Htl Htu].
  pose proof (Nat.mod_upper_bound (length bs) 8 ltac:(lia)).
  rewrite tail_switch_spec; [done | auto | lia | | by apply le_to_cpup_at | by apply le_to_cpup_at].
  rewrite <- Htake. apply bytes_at_take, bytes_at_self.
Qed.
End iterator.

(** ** The register interface *)

(** Word [i] of [bs], padded with zeros. *)
Definition word_at (bs : list Z) (i : nat) : Z := le_val (take 8 (drop (8 * i) bs)).

Lemma start_loop_absorb n : forall i args len v bs q,
  Z.of_nat q = len / 8 -> (i + n = 4)%nat -> (i <= q <= 4)%nat ->
  (forall k, (k < 4)%nat -> args !! k = Some (word_at bs k)) ->
  start_loop n (Z.of_nat i) args len v =
    Done ((absorb_n 8 MAKE_ROUND (q - i) v (drop (8 * i) bs)).1, Z.of_nat q).
Proof.
  induction n as [| n IH]; intros i args len v bs q Hq Hn Hi Hargs; cbn [start_loop].
  { replace (q - i)%nat with 0%nat by lia. by replace q with i by lia. }
  rewrite <- Hq. destruct (Z.ltb_spec (Z.of_nat i) (Z.of_nat q)) as [Hlt | Hge].
  - rewrite Nat2Z.id, Hargs by lia. orun.
    replace (Z.of_nat i + 1) with (Z.of_nat (S i)) by lia.
    rewrite (IH (S i) args len _ bs q) by (done || lia).
    replace (q - i)%nat with (S (q - S i)) by lia. cbn [absorb_n]. rewrite drop_drop.
    by replace (8 * i + 8)%nat with (8 * S i)%nat by lia.
  - replace (q - i)%nat with 0%nat by lia. by replace q with i by lia.
Qed.

Lemma absorb_n_tail {S} w (round : S -> Z -> S) n : forall v bs,
  (absorb_n w round n v bs).2 = drop (n * w) bs.
Proof. induction n as [| n IH]; intros v bs; [done |]. cbn [absorb_n]. by rewrite IH, drop_drop. Qed.

Lemma siphash_start_ref key bs :
  (length bs <= 32)%nat ->
  let args := [word_at bs 0; word_at bs 1; word_at bs 2; word_at bs 3; Z.of_nat (length bs);
               sk_key0 key; sk_key1 key] in
  __siphash_start args = Done (siphash_ref key bs, args).
Proof.
  intros Hl args. unfold __siphash_start. change (args !! 4%nat) with (Some (Z.of_nat (length bs))).
  change (args !! 5%nat) with (Some (sk_key0 key)). change (args !! 6%nat) with (Some (sk_key1 key)).
  orun. replace (SiphashKey (sk_key0 key) (sk_key1 key)) with key by (by destruct key).
  rewrite siphash_ref_eq. destruct (PREAMBLE _ key) as [v b].
  set (q := (length bs / 8)%nat).
  assert (length bs = 8 * q + length bs mod 8)%nat as Ediv by apply Nat.div_mod_eq.
  pose proof (Nat.mod_upper_bound (length bs) 8 ltac:(lia)) as Hmod.
  assert (forall k, (k < 4)%nat -> args !! k = Some (word_at bs k)) as Hargs.
  { intros k Hk. by do 4 (destruct k as [| k]; [done |]); lia. }
  rewrite (start_loop_absorb 4 0 args _ v bs q) by
    (done || (rewrite <- (Nat2Z.inj_div _ 8); done) || lia).
  orun. rewrite Nat.sub_0_r, drop_0. destruct (Z.leb_spec (Z.of_nat (length bs)) 32); [| lia].
  unfold absorb. fold q. rewrite absorb_n_tail, land_7, Nat2Z.id by lia.
  destruct (Z.eqb_spec (Z.of_nat (length bs) mod 8) 0) as [E0 | Hne]; cbn [negb].
  - rewrite drop_ge; [| change 8 with (Z.of_nat 8) in E0; rewrite <- Nat2Z.inj_mod in E0; lia].
    orun. by rewrite Z.lor_0_r.
  - rewrite Hargs; [| change 8 with (Z.of_nat 8) in Hne; rewrite <- Nat2Z.inj_mod in Hne; lia].
    orun. do 4 f_equal. unfold word_at. rewrite take_ge by (rewrite length_drop; lia).
    by rewrite Nat.mul_comm.
Qed.

(** ** HalfSipHash *)

Lemma hsiphash_ref_eq key bs :
  hsiphash_ref key bs =
    let '(v, b) := HPREAMBLE (Z.of_nat (length bs)) key in
    HPOSTAMBLE (absorb 4 HROUND v bs).1 (Z.lor b (le_val (absorb 4 HROUND v bs).2)).
Proof. unfold hsiphash_ref. destruct (HPREAMBLE _ _) as [v b]. by destruct (absorb _ _ v bs). Qed.

Lemma htail_switch_spec ld16 p t b :
  Forall is_u8 t -> (length t < 4)%nat -> bytes_at p t ->
  (forall m, length m = 2%nat -> Forall is_u8 m -> bytes_at p m -> ld16 p = Done (le_val m)) ->
  htail_switch ld16 (Z.of_nat (length t)) b p = Done (Z.lor b (le_val t)).
Proof.
  intros Hu Hl Hat H16. unfold htail_switch.
  destruct t as [| b0 [| b1 [| b2 [|]]]]; simpl in Hl; try lia; forall_inv Hu;
    cbn -[ld8 le_val Z.lor Z.shiftl u32]; orun.
  - by rewrite Z.lor_0_r.
  - rewrite (bytes_at_ld8 _ _ 0 b0 Hat) by done. orun. do 2 f_equal. cbn [le_val]. lia.
  - by rewrite (H16 [b0; b1]) by auto.
  - rewrite (bytes_at_ld8 _ _ 2 b2 Hat), (H16 [b0; b1]) by
      (done || auto || exact (bytes_at_app_l p [b0; b1] [b2] Hat)).
    orun. unfold u32. rewrite lor_mask_byte, le_val_3 by (done || lia). f_equal.
    rewrite <- Z.lor_assoc. f_equal. apply Z.lor_comm.
Qed.

Section hbuffer.
Context (key : siphash_key_t) (p : ptr) (bs : list Z).
Context (Hu : Forall is_u8 bs) (Hat : bytes_at p bs).
Local Abbreviation len := (Z.of_nat (length bs)).

Lemma hsiphash_unaligned_ref : __hsiphash_unaligned p len key = Done (hsiphash_ref key bs).
Proof using Hu Hat.
  unfold __hsiphash_unaligned. rewrite hsiphash_ref_eq. destruct (HPREAMBLE len key) as [v b].
  apply (words_then_tail p bs Hu Hat 4); [lia | by apply get_unaligned_le32_at |].
  intros t Htu Ht4 Htl Hta Et. rewrite land_3 by lia. change (Z.of_nat 4) with 4 in *.
  rewrite <- Htl, htail_switch_spec; [by rewrite Et | done .. | by apply get_unaligned_le16_at].
Qed.

Lemma hsiphash_aligned_ref : __hsiphash_aligned p len key = Done (hsiphash_ref key bs).
Proof using Hu Hat.
  unfold __hsiphash_aligned. rewrite hsiphash_ref_eq. destruct (HPREAMBLE len key) as [v b].
  apply (words_then_tail p bs Hu Hat 4); [lia | by apply le_to_cpup_at |].
  intros t Htu Ht4 Htl Hta Et. rewrite land_3 by lia. change (Z.of_nat 4) with 4 in *.
  rewrite <- Htl, htail_switch_spec; [by rewrite Et | done .. | by apply le_to_cpup_at].
Qed.

Lemma hsiphash_ref_words n :
  length bs = (4 * n)%nat ->
  hsiphash_ref key bs =
    HPOSTAMBLE (absorb_n 4 HROUND n (HPREAMBLE (4 * Z.of_nat n) key).1 bs).1
      (HPREAMBLE (4 * Z.of_nat n) key).2.
Proof using Type.
  intros Hn. rewrite hsiphash_ref_eq. unfold absorb. rewrite Hn.
  replace (4 * n / 4)%nat with n by (rewrite Nat.mul_comm, Nat.div_mul; done).
  replace (Z.of_nat (4 * n)) with (4 * Z.of_nat n) by lia.
  destruct (HPREAMBLE _ key) as [v b]. rewrite absorb_n_tail, drop_ge by lia.
  by rewrite Z.lor_0_r.
Qed.

Lemma hsiphash_ref_ok aligned const_len :
  hsiphash aligned const_len p len key = Done (hsiphash_ref key bs).
Proof using Hu Hat.
  unfold hsiphash, ___hsiphash_aligned.
  destruct aligned; [| apply hsiphash_unaligned_ref].
  destruct const_len; [| apply hsiphash_aligned_ref]. simpl negb. simpl andb. cbv iota.
  pose proof (ld_word p bs Hat 4 0 0 eq_refl) as L0. pose proof (ld_word p bs Hat 4 4 4 eq_refl) as L1.
  pose proof (ld_word p bs Hat 4 8 8 eq_refl) as L2. pose proof (ld_word p bs Hat 4 12 12 eq_refl) as L3.
  destruct (Z.eqb_spec len 4) as [E | _].
  { rewrite (hsiphash_ref_words 1), L0 by lia. orun. cbn [absorb_n]. by rewrite ?drop_drop. }
  destruct (Z.eqb_spec len 8) as [E | _].
  { rewrite (hsiphash_ref_words 2), L0, L1 by lia. orun. cbn [absorb_n]. by rewrite ?drop_drop. }
  destruct (Z.eqb_spec len 12) as [E | _].
  { rewrite (hsiphash_ref_words 3), L0, L1, L2 by lia. orun. cbn [absorb_n]. by rewrite ?drop_drop. }
  destruct (Z.eqb_spec len 16) as [E | _].
  { rewrite (hsiphash_ref_words 4), L0, L1, L2, L3 by lia. orun. cbn [absorb_n].
    by rewrite ?drop_drop. }
  apply hsiphash_aligned_ref.
Qed.
End hbuffer.

(** ** Properties *)

Lemma make_rounds_absorb p bs (Hat : bytes_at p bs) n : forall i v,
  (8 * (i + n) <= length bs)%nat ->
  make_rounds n (Z.of_nat i) p v = Done (absorb_n 8 MAKE_ROUND n v (drop (8 * i) bs)).1.
Proof.
  induction n as [| n IH]; intros i v Hl; cbn [make_rounds absorb_n]; [done |].
  rewrite (ld_word p bs Hat 8 (8 * i)) by lia. orun.
  replace (Z.of_nat i + 1) with (Z.of_nat (S i)) by lia. rewrite IH by lia.
  rewrite drop_drop. by replace (8 * S i)%nat with (8 * i + 8)%nat by lia.
Qed.

(** C26: hashing a buffer. The aligned, unaligned and constant-length code of
    [siphash] and of [hsiphash] all read exactly the [len] bytes of the buffer
    and return the same function of these bytes, whatever the alignment of the
    address and whatever the compiler knows about the length. *)
Theorem siphash_buffer_ref key p bs aligned const_len :
  Forall is_u8 bs -> bytes_at p bs ->
  siphash aligned const_len p (Z.of_nat (length bs)) key = Done (siphash_ref key bs) /\
  hsiphash aligned const_len p (Z.of_nat (length bs)) key = Done (hsiphash_ref key bs).
Proof. intros Hu Hat. split; [by apply siphash_ref_ok | by apply hsiphash_ref_ok]. Qed.

Definition sample_key : siphash_key_t := SiphashKey 0x1234567890abcdef 0xfedcba0987654321.

Lemma siphash_buffer_ref_witness :
  siphash false true (Ptr [1; 2; 3; 4; 5; 6; 7; 8; 9] 0) 9 sample_key =
    Done (siphash_ref sample_key [1; 2; 3; 4; 5; 6; 7; 8; 9]).
Proof.
  apply (siphash_buffer_ref sample_key (Ptr [1; 2; 3; 4; 5; 6; 7; 8; 9] 0)
           [1; 2; 3; 4; 5; 6; 7; 8; 9] false true).
  - repeat constructor; discriminate.
  - apply bytes_at_self.
Defined.

(** Split the bytes of a hash into the words [ws] and the rest [t]. *)
Local Ltac run_words ws t :=
  match goal with |- _ = siphash_ref ?key ?bs =>
    erewrite (siphash_run_eq key bs ws t);
      [| by rewrite ?app_nil_r, <- ?app_assoc | by repeat constructor | cbn; lia | reflexivity | reflexivity]; cbv zeta
  end.

(** Hashing integers. The functions on 64-bit and 32-bit words agree with
    the hash of the little endian bytes of the words, in order. *)
Theorem siphash_words_ref key a b c d data p :
  is_u64 a -> is_u64 b -> is_u64 c -> is_u64 d ->
  Forall is_u8 data -> length data = 128%nat -> bytes_at p data ->
  siphash_1u64 a key = siphash_ref key (le_bytes 8 a) /\
  siphash_2u64 a b key = siphash_ref key (le_bytes 8 a ++ le_bytes 8 b) /\
  siphash_3u64 a b c key = siphash_ref key (le_bytes 8 a ++ le_bytes 8 b ++ le_bytes 8 c) /\
  siphash_4u64 a b c d key =
    siphash_ref key (le_bytes 8 a ++ le_bytes 8 b ++ le_bytes 8 c ++ le_bytes 8 d) /\
  siphash_16u64 p key = Done (siphash_ref key data) /\
  (is_u32 a -> is_u32 b -> is_u32 c -> is_u32 d ->
   siphash_1u32 a key = siphash_ref key (le_bytes 4 a) /\
   siphash_2u32 a b key = siphash_ref key (le_bytes 4 a ++ le_bytes 4 b) /\
   siphash_3u32 a b c key = siphash_ref key (le_bytes 4 a ++ le_bytes 4 b ++ le_bytes 4 c) /\
   siphash_4u32 a b c d key =
     siphash_ref key (le_bytes 4 a ++ le_bytes 4 b ++ le_bytes 4 c ++ le_bytes 4 d)).
Proof.
  intros Ha Hb Hc Hd Hdu Hdl Hat.
  assert (forall z, is_u64 z -> le_val (le_bytes 8 z) = z) as H8 by (intros; by apply le_val_le_bytes).
  assert (forall z, is_u32 z -> le_val (le_bytes 4 z) = z) as H4 by (intros; by apply le_val_le_bytes).
  pose proof combine_u32 as Hcomb.
  split_and!; [| | | | | intros Ha4 Hb4 Hc4 Hd4; split_and!].
  - run_words [le_bytes 8 a] (@nil Z). cbn [fmap list_fmap]. by rewrite H8, Z.lor_0_r.
  - run_words [le_bytes 8 a; le_bytes 8 b] (@nil Z). cbn [fmap list_fmap]. by rewrite !H8, Z.lor_0_r.
  - run_words [le_bytes 8 a; le_bytes 8 b; le_bytes 8 c] (@nil Z). cbn [fmap list_fmap].
    by rewrite !H8, Z.lor_0_r.
  - run_words [le_bytes 8 a; le_bytes 8 b; le_bytes 8 c; le_bytes 8 d] (@nil Z).
    cbn [fmap list_fmap]. by rewrite !H8, Z.lor_0_r.
  - rewrite (siphash_ref_words key data 16) by lia. unfold siphash_16u64.
    change (8 * Z.of_nat 16) with 128. destruct (PREAMBLE 128 key) as [v bb].
    by rewrite (make_rounds_absorb p data Hat 16 0) by lia.
  - run_words (@nil (list Z)) (le_bytes 4 a). by rewrite H4.
  - run_words [le_bytes 4 a ++ le_bytes 4 b] (@nil Z). cbn [fmap list_fmap].
    by rewrite Hcomb, Z.lor_0_r.
  - run_words [le_bytes 4 a ++ le_bytes 4 b] (le_bytes 4 c). cbn [fmap list_fmap].
    by rewrite Hcomb, H4.
  - run_words [le_bytes 4 a ++ le_bytes 4 b; le_bytes 4 c ++ le_bytes 4 d] (@nil Z).
    cbn [fmap list_fmap]. by rewrite !Hcomb, Z.lor_0_r.
Qed.

Lemma siphash_words_ref_witness :
  siphash_3u32 1 2 0xffffffff sample_key =
    siphash_ref sample_key (le_bytes 4 1 ++ le_bytes 4 2 ++ le_bytes 4 0xffffffff).
Proof.
  apply (siphash_words_ref sample_key 1 2 0xffffffff 0 (replicate 128 7) (Ptr (replicate 128 7) 0));
    [by split | by split | by split | by split | by apply Forall_replicate | reflexivity
    | apply bytes_at_self | by split | by split | by split | by split].
Defined.

(** Feed the iterator one chunk after the other. *)
Fixpoint iter_all (it : siphash_iter_t) (chunks : list (list Z)) : outcome siphash_iter_t :=
  match chunks with
  | [] => mret it
  | c :: cs => it ← siphash_iter it (Ptr c 0) (Z.of_nat (length c)); iter_all it cs
  end.

Lemma iter_all_repr key len chunks : forall it bs,
  iter_repr key len it bs -> Forall is_u8 bs -> Forall (Forall is_u8) chunks ->
  exists it', iter_all it chunks = Done it' /\ iter_repr key len it' (bs ++ concat chunks).
Proof.
  induction chunks as [| c cs IH]; intros it bs Hr Hu Hcs; cbn [iter_all concat].
  { exists it. by rewrite app_nil_r. }
  apply Forall_cons_1 in Hcs as [Hc Hcs].
  destruct (siphash_iter_repr key len it bs (Ptr c 0) c Hr Hu Hc (bytes_at_self c)) as (it1 & -> & H1).
  orun. rewrite (assoc_L (++)). apply IH; [done | by apply Forall_app | done].
Qed.

(** C27: hashing in pieces. However a message is cut into chunks (empty ones
    included), starting an iterator with the total length, feeding it the chunks
    in order and ending it gives the hash of the whole message. *)
Theorem siphash_iterator_ref key residual chunks :
  length residual = 8%nat -> Forall (Forall is_u8) chunks ->
  (it ← iter_all (siphash_iter_start residual (Z.of_nat (length (concat chunks))) key) chunks;
   siphash_iter_end it) = Done (siphash_ref key (concat chunks)).
Proof.
  intros Hl Hcs. set (len := Z.of_nat (length (concat chunks))).
  assert (iter_repr key len (siphash_iter_start residual len key) []) as H0.
  { unfold iter_repr, siphash_iter_start. destruct (PREAMBLE len key) as [v b].
    rewrite absorb_short by (simpl; lia). by split_and!. }
  destruct (iter_all_repr key len chunks _ [] H0) as (it & -> & Hr); [done | done |].
  orun. rewrite app_nil_l in Hr. eapply siphash_iter_end_ref; [exact Hr | done |].
  apply Forall_concat. done.
Qed.

Lemma siphash_iterator_ref_witness :
  (it ← iter_all (siphash_iter_start (replicate 8 0) 11 sample_key)
          [[1; 2; 3]; []; [4; 5; 6; 7; 8; 9; 10]; [11]];
   siphash_iter_end it) = Done (siphash_ref sample_key [1; 2; 3; 4; 5; 6; 7; 8; 9; 10; 11]).
Proof.
  apply (siphash_iterator_ref sample_key (replicate 8 0) [[1; 2; 3]; []; [4; 5; 6; 7; 8; 9; 10]; [11]]).
  - reflexivity.
  - repeat constructor; discriminate.
Defined.

(** Hashing from registers. For a message of at most 32 bytes in the four
    data registers, padded with zeros, [__siphash_start] returns the hash of the
    message and leaves the registers alone. *)
Theorem siphash_start_oneshot key bs :
  (length bs <= 32)%nat ->
  let args := [word_at bs 0; word_at bs 1; word_at bs 2; word_at bs 3; Z.of_nat (length bs);
               sk_key0 key; sk_key1 key] in
  __siphash_start args = Done (siphash_ref key bs, args).
Proof. apply siphash_start_ref. Qed.

Lemma siphash_start_oneshot_witness :
  __siphash_start [0x0807060504030201; 9; 0; 0; 9; 0x1234567890abcdef; 0xfedcba0987654321] =
    Done (siphash_ref sample_key [1; 2; 3; 4; 5; 6; 7; 8; 9],
          [0x0807060504030201; 9; 0; 0; 9; 0x1234567890abcdef; 0xfedcba0987654321]).
Proof.
  apply (siphash_start_oneshot sample_key [1; 2; 3; 4; 5; 6; 7; 8; 9]). simpl. lia.
Defined.

(** A message of more than 32 bytes, as the comment on [__siphash_round]
    describes it: sixteen bytes at a time, the last call with the end flag. *)
Fixpoint chain_rounds (n : nat) (state rest : list Z) : outcome Z :=
  match n with
  | O => NoFuel
  | S n' =>
      let args := [word_at rest 0; word_at rest 1] ++ state in
      if decide (length rest <= 16)%nat then
        fst <$> __siphash_round args (bool_decide (length rest <= 8)%nat) true
                  (negb (bool_decide (length rest mod 8 = 0)%nat))
      else
        '(_, args) ← __siphash_round args false false false;
        chain_rounds n' (drop 2 args) (drop 16 rest)
  end.

Definition chain_state (v : sip_state) (b : Z) : list Z :=
  [b; sip_v0 v; sip_v1 v; sip_v2 v; sip_v3 v].

Lemma word_at_0 bs : word_at bs 0 = le_val (take 8 bs).
Proof. unfold word_at. by rewrite drop_0. Qed.

(** The first word of a message that has one. *)
Lemma absorb_first v bs :
  (8 <= length bs)%nat ->
  absorb 8 MAKE_ROUND v bs = absorb 8 MAKE_ROUND (MAKE_ROUND v (word_at bs 0)) (drop 8 bs).
Proof.
  intros H. rewrite word_at_0. rewrite <- (take_drop 8 bs) at 1.
  by rewrite absorb_word by (rewrite ?length_take; lia).
Qed.

Lemma word_at_drop bs : word_at (drop 8 bs) 0 = word_at bs 1.
Proof. unfold word_at. by rewrite drop_drop. Qed.

Lemma absorb_last v bs :
  (length bs < 8)%nat -> absorb 8 MAKE_ROUND v bs = (v, bs) /\ word_at bs 0 = le_val bs.
Proof. intros H. rewrite word_at_0, take_ge by lia. split; [apply absorb_short; lia | done]. Qed.

Lemma chain_rounds_ref n : forall v b rest,
  (0 < length rest <= 16 * n)%nat ->
  chain_rounds n (chain_state v b) rest =
    Done (SIPHASH_POSTAMBLE (absorb 8 MAKE_ROUND v rest).1
            (Z.lor b (le_val (absorb 8 MAKE_ROUND v rest).2))).
Proof.
  induction n as [| n IH]; intros v b rest Hl; [lia |]. cbn [chain_rounds].
  assert (forall w, length w = 8%nat -> absorb 8 MAKE_ROUND v w =
            (MAKE_ROUND v (word_at w 0), [])) as Hone.
  { intros w Hw. rewrite absorb_first by lia. by rewrite drop_ge, absorb_short by (simpl; lia). }
  destruct (decide (length rest <= 16)%nat) as [Hle | Hgt].
  - unfold __siphash_round. cbn [app lookup list_lookup chain_state]. orun.
    replace (SipState (sip_v0 v) (sip_v1 v) (sip_v2 v) (sip_v3 v)) with v by (by destruct v).
    destruct (decide (length rest < 8)%nat) as [H8 | H8].
    { rewrite bool_decide_eq_true_2, bool_decide_eq_false_2 by
        (rewrite ?Nat.mod_small by lia; lia).
      destruct (absorb_last v rest H8) as [-> Hw]. by rewrite Hw. }
    rewrite (absorb_first v) by lia.
    destruct (decide (length rest = 8)%nat) as [E | Hne].
    { rewrite E. rewrite drop_ge, absorb_short by (simpl; lia). cbn. by rewrite Z.lor_0_r. }
    rewrite (bool_decide_eq_false_2 (length rest <= 8)%nat) by lia. cbn [negb andb].
    destruct (decide (length rest = 16)%nat) as [E | Hne'].
    { rewrite E, <- word_at_drop. rewrite absorb_first by (rewrite length_drop; lia).
      rewrite drop_drop, (drop_ge rest (8 + 8)), absorb_short by (simpl; lia). cbn. by rewrite Z.lor_0_r. }
    destruct (absorb_last (MAKE_ROUND v (word_at rest 0)) (drop 8 rest)) as [-> Hw];
      [rewrite length_drop; lia |].
    rewrite word_at_drop in Hw. rewrite bool_decide_eq_false_2; [by rewrite Hw |].
    replace (length rest) with (length rest - 8 + 1 * 8)%nat by lia.
    rewrite Nat.Div0.mod_add, Nat.mod_small by lia. lia.
  - unfold __siphash_round. cbn [app lookup list_lookup chain_state negb andb]. orun.
    replace (SipState (sip_v0 v) (sip_v1 v) (sip_v2 v) (sip_v3 v)) with v by (by destruct v).
    cbn [store_chain take drop app].
    change (chain_rounds n _ _) with
      (chain_rounds n (chain_state (MAKE_ROUND (MAKE_ROUND v (word_at rest 0)) (word_at rest 1)) b)
         (drop 16 rest)).
    rewrite IH by (rewrite length_drop; lia).
    rewrite (absorb_first v rest), (absorb_first _ (drop 8 rest)) by (rewrite ?length_drop; lia).
    by rewrite word_at_drop, drop_drop.
Qed.

Lemma start_loop_full w0 w1 w2 w3 rest len v :
  32 < len ->
  start_loop 4 0 (w0 :: w1 :: w2 :: w3 :: rest) len v =
    Done (MAKE_ROUND (MAKE_ROUND (MAKE_ROUND (MAKE_ROUND v w0) w1) w2) w3, 4).
Proof.
  intros Hl.
  assert (forall i, i < 4 -> (i <? len / 8) = true) as Hlt.
  { intros i Hi. apply Z.ltb_lt. apply Z.lt_le_trans with 4; [done |].
    apply Z.div_le_lower_bound; lia. }
  cbn [start_loop]. rewrite !Hlt by lia. reflexivity.
Qed.

(** Hashing a long message from registers. For a message of more than 32
    bytes, [__siphash_start] on its first four words followed by
    [__siphash_round] on sixteen bytes at a time (with the flags for a last call
    of one or two words, the last of them complete or not) returns the hash of
    the message. *)
Theorem siphash_chain_ref key bs :
  (32 < length bs)%nat ->
  ('(_, args) ← __siphash_start
      [word_at bs 0; word_at bs 1; word_at bs 2; word_at bs 3; Z.of_nat (length bs);
       sk_key0 key; sk_key1 key];
   chain_rounds (length bs) (drop 2 args) (drop 32 bs)) = Done (siphash_ref key bs).
Proof.
  intros Hl. rewrite siphash_ref_eq. unfold __siphash_start. cbn [lookup list_lookup]. orun.
  replace (SiphashKey (sk_key0 key) (sk_key1 key)) with key by (by destruct key).
  destruct (PREAMBLE _ key) as [v b]. rewrite start_loop_full by lia.
  set (v4 := MAKE_ROUND _ (word_at bs 3)).
  destruct (Z.leb_spec (Z.of_nat (length bs)) 32); [lia |].
  change (chain_rounds _ _ _) with (chain_rounds (length bs) (chain_state v4 b) (drop 32 bs)).
  rewrite chain_rounds_ref by (rewrite length_drop; lia).
  assert (absorb 8 MAKE_ROUND v bs = absorb 8 MAKE_ROUND v4 (drop 32 bs)) as ->; [| done].
  rewrite absorb_first, (absorb_first _ (drop 8 bs)), drop_drop, (absorb_first _ (drop 16 bs)),
    drop_drop, (absorb_first _ (drop 24 bs)), drop_drop by (rewrite ?length_drop; lia).
  unfold v4, word_at. by rewrite !drop_drop.
Qed.

Lemma siphash_chain_ref_witness :
  let bs := replicate 45 7 in
  ('(_, args) ← __siphash_start
      [word_at bs 0; word_at bs 1; word_at bs 2; word_at bs 3; 45;
       0x1234567890abcdef; 0xfedcba0987654321];
   chain_rounds 45 (drop 2 args) (drop 32 bs)) = Done (siphash_ref sample_key (replicate 45 7)).
Proof. apply (siphash_chain_ref sample_key (replicate 45 7)). simpl. lia. Defined.
