(* ===== verification/Switch.v ===== *)
(** * Field comparison

    [include/xdp2/switch.h]: the comparison functions that the switch statements,
    the static and the dynamic tables match keys with (equality, equality under a
    mask, equality of a prefix of bits), and the switch and select statements. *)

From stdpp Require Import base list numbers.
From S2P Require Import Prelude FlagFields Bytes.

(** ** Code *)

(** [memcmp(f1, f2, n) == 0]; all [n] bytes of both fields may be read. *)
Fixpoint memcmp_eq (n : nat) (f1 f2 : ptr) (i : Z) : outcome bool :=
  match n with
  | O => mret true
  | S n' =>
      c1 ← ld8 f1 i; c2 ← ld8 f2 i;
      r ← memcmp_eq n' f1 f2 (i + 1);
      mret ((c1 =? c2) && r)
  end.

Definition xdp2_compare_equal (f1 f2 : ptr) (len : Z) : outcome bool :=
  memcmp_eq (Z.to_nat len) f1 f2 0.

Fixpoint compare_tern_loop (n : nat) (f1 f2 mask : ptr) (i : Z) : outcome bool :=
  match n with
  | O => mret true
  | S n' =>
      c1 ← ld8 f1 i; c2 ← ld8 f2 i; m ← ld8 mask i;
      if negb (Z.land (Z.lxor c1 c2) m =? 0) then mret false
      else compare_tern_loop n' f1 f2 mask (i + 1)
  end.

Definition xdp2_compare_tern (f1 f2 mask : ptr) (len : Z) : outcome bool :=
  compare_tern_loop (Z.to_nat len) f1 f2 mask 0.

(** [div] and [mod] are [int]; the result of [memcmp] takes a [size_t]. *)
Definition xdp2_compare_prefix (f1 f2 : ptr) (prefix_len : Z) : outcome bool :=
  let div := s32 (prefix_len / 8) in
  let mod_ := prefix_len mod 8 in
  eq ← memcmp_eq (Z.to_nat (u64 div)) f1 f2 0;
  if negb eq then mret false else
  if mod_ =? 0 then mret true else
  let mask := u8 (Z.shiftl 0xff (8 - mod_)) in
  c1 ← ld8 f1 div; c2 ← ld8 f2 div;
  mret (Z.land (Z.lxor c1 c2) mask =? 0).

(** ** Specification *)

(** Bit [j] of a field, the most significant bit of the first byte first. *)
Definition bit_at (bs : list Z) (j : nat) : bool :=
  Z.testbit (default 0 (bs !! (j / 8)%nat)) (7 - Z.of_nat (j mod 8)).

(** The first [n] bits agree. *)
Definition prefix_eq (n : nat) (a b : list Z) : Prop := forall j, (j < n)%nat -> bit_at a j = bit_at b j.

(** The bits selected by [mask] agree. *)
Definition mask_eq (mask a b : list Z) : Prop :=
  forall j, bit_at mask j = true -> bit_at a j = bit_at b j.

Lemma bytes_at_lookup p bs i : bytes_at p bs -> (i < length bs)%nat ->
  exists b, bs !! i = Some b /\ ld8 p (Z.of_nat i) = Done b.
Proof. intros Hat Hi. destruct (lookup_lt_is_Some_2 bs i Hi) as [b E]. eauto. Qed.

Lemma memcmp_eq_spec p1 p2 a b n : forall i,
  bytes_at p1 a -> bytes_at p2 b -> (i + n <= length a)%nat -> (i + n <= length b)%nat ->
  memcmp_eq n p1 p2 (Z.of_nat i) = Done (bool_decide (take n (drop i a) = take n (drop i b))).
Proof.
  induction n as [| n IH]; intros i H1 H2 Hl1 Hl2; cbn [memcmp_eq]; [done |].
  destruct (bytes_at_lookup p1 a i H1) as (x & Ex & ->); [lia |].
  destruct (bytes_at_lookup p2 b i H2) as (y & Ey & ->); [lia |]. orun.
  replace (Z.of_nat i + 1) with (Z.of_nat (S i)) by lia. rewrite IH by (done || lia). f_equal.
  rewrite (drop_S a x i Ex), (drop_S b y i Ey). cbn [take].
  destruct (Z.eqb_spec x y) as [-> | Hne]; cbn [andb].
  - apply bool_decide_ext. split; congruence.
  - symmetry. apply bool_decide_eq_false_2. congruence.
Qed.

Lemma memcmp_eq_start p1 p2 a b n :
  bytes_at p1 a -> bytes_at p2 b -> (n <= length a)%nat -> (n <= length b)%nat ->
  memcmp_eq n p1 p2 0 = Done (bool_decide (take n a = take n b)).
Proof. intros. by apply (memcmp_eq_spec p1 p2 a b n 0). Qed.

Lemma xdp2_compare_equal_spec p1 p2 a b :
  bytes_at p1 a -> bytes_at p2 b -> length a = length b ->
  xdp2_compare_equal p1 p2 (Z.of_nat (length a)) = Done (bool_decide (a = b)).
Proof.
  intros H1 H2 Hl. unfold xdp2_compare_equal. rewrite Nat2Z.id.
  rewrite (memcmp_eq_start p1 p2 a b) by (done || lia). by rewrite !take_ge by lia.
Qed.

(** *** Bytes and bits *)

Lemma u8_bits_high x i : is_u8 x -> 8 <= i -> Z.testbit x i = false.
Proof.
  unfold is_u8. intros Hx Hi. rewrite <- (Z.mod_small x (2 ^ 8)) by done.
  by apply Z.mod_pow2_bits_high.
Qed.

(** Two bytes agree under a mask exactly on the bits of the mask. *)
Lemma masked_eq x y m : is_u8 m ->
  Z.land (Z.lxor x y) m = 0 <->
  forall k, (k < 8)%nat -> Z.testbit m (7 - Z.of_nat k) = true ->
    Z.testbit x (7 - Z.of_nat k) = Z.testbit y (7 - Z.of_nat k).
Proof.
  intros Hm. split.
  - intros E k Hk Hb. apply (f_equal (fun z => Z.testbit z (7 - Z.of_nat k))) in E.
    rewrite Z.land_spec, Z.lxor_spec, Z.bits_0, Hb, andb_true_r in E.
    by destruct (Z.testbit x _), (Z.testbit y _).
  - intros H. apply Z.bits_inj'. intros i Hi. rewrite Z.land_spec, Z.lxor_spec, Z.bits_0.
    destruct (Z.testbit m i) eqn:Em; [| by rewrite andb_false_r].
    destruct (decide (8 <= i)); [by rewrite u8_bits_high in Em |].
    specialize (H (Z.to_nat (7 - i)) ltac:(lia)).
    replace (7 - Z.of_nat (Z.to_nat (7 - i))) with i in H by lia.
    rewrite H by done. by rewrite xorb_nilpotent.
Qed.

Lemma bit_at_byte bs i k x : (k < 8)%nat -> bs !! i = Some x ->
  bit_at bs (8 * i + k) = Z.testbit x (7 - Z.of_nat k).
Proof.
  intros Hk E. unfold bit_at. rewrite Nat.mul_comm.
  rewrite Nat.div_add_l, (Nat.div_small k 8), Nat.add_0_r, E by lia. cbn [default].
  rewrite Nat.add_comm, Nat.Div0.mod_add, Nat.mod_small by lia. done.
Qed.

Lemma bit_at_split (P : nat -> Prop) n :
  (forall j, (j < 8 * n)%nat -> P j) <-> (forall i k, (i < n)%nat -> (k < 8)%nat -> P (8 * i + k)%nat).
Proof.
  split; [intros H i k Hi Hk; apply H; lia |]. intros H j Hj.
  pose proof (Nat.mod_upper_bound j 8 ltac:(lia)). rewrite (Nat.div_mod_eq j 8).
  apply H; [| done]. apply Nat.Div0.div_lt_upper_bound; lia.
Qed.

(** Fields agree on all bits exactly when they are equal. *)
Lemma prefix_eq_bytes n a b :
  Forall is_u8 a -> Forall is_u8 b -> (n <= length a)%nat -> (n <= length b)%nat ->
  prefix_eq (8 * n) a b <-> take n a = take n b.
Proof.
  intros Ha Hb Hla Hlb. unfold prefix_eq. rewrite bit_at_split. split.
  - intros H. apply list_eq. intros i. destruct (decide (i < n)%nat) as [Hi | Hi].
    + destruct (lookup_lt_is_Some_2 a i) as [x Ex]; [lia |].
      destruct (lookup_lt_is_Some_2 b i) as [y Ey]; [lia |].
      rewrite !lookup_take_lt, Ex, Ey by lia. f_equal.
      apply Z.bits_inj'. intros k Hk. destruct (decide (8 <= k)) as [Hge | Hlt].
      * by rewrite (u8_bits_high x), (u8_bits_high y) by
          (done || exact (Forall_lookup_1 _ _ _ _ Ha Ex) || exact (Forall_lookup_1 _ _ _ _ Hb Ey)).
      * specialize (H i (Z.to_nat (7 - k)) Hi ltac:(lia)).
        rewrite (bit_at_byte a i _ x), (bit_at_byte b i _ y) in H by (done || lia).
        by replace (7 - Z.of_nat (Z.to_nat (7 - k))) with k in H by lia.
    + by rewrite !lookup_take_ge by lia.
  - intros E i k Hi Hk.
    destruct (lookup_lt_is_Some_2 a i) as [x Ex]; [lia |].
    assert (b !! i = Some x) as Ey.
    { rewrite <- (lookup_take_lt b n i), <- E, lookup_take_lt by lia. done. }
    by rewrite (bit_at_byte a i k x), (bit_at_byte b i k x).
Qed.

(** ** Correctness of the comparisons *)

(** The mask of [xdp2_compare_prefix] selects the first [r] bits of a byte. *)
Lemma prefix_mask_bits r k : 0 < r < 8 -> (k < 8)%nat ->
  Z.testbit (u8 (Z.shiftl 0xff (8 - r))) (7 - Z.of_nat k) = true <-> (Z.of_nat k < r).
Proof.
  intros Hr Hk. unfold u8. rewrite Z.mod_pow2_bits_low by lia. rewrite Z.shiftl_spec by lia.
  change 0xff with (Z.ones 8). destruct (decide (Z.of_nat k < r)).
  - rewrite Z.ones_spec_low by lia. done.
  - rewrite Z.testbit_neg_r by lia. lia.
Qed.

Lemma prefix_eq_split n r a b :
  (r < 8)%nat ->
  prefix_eq (8 * n + r) a b <->
  prefix_eq (8 * n) a b /\ forall k, (k < r)%nat -> bit_at a (8 * n + k) = bit_at b (8 * n + k).
Proof.
  intros Hr. unfold prefix_eq. split.
  - intros H. split; intros; apply H; lia.
  - intros [H1 H2] j Hj. destruct (decide (j < 8 * n)%nat); [by apply H1 |].
    replace j with (8 * n + (j - 8 * n))%nat by lia. apply H2. lia.
Qed.

Lemma xdp2_compare_prefix_spec p1 p2 a b n :
  Forall is_u8 a -> Forall is_u8 b -> bytes_at p1 a -> bytes_at p2 b ->
  (n <= 8 * length a)%nat -> (n <= 8 * length b)%nat -> Z.of_nat n < 2 ^ 34 ->
  exists r, xdp2_compare_prefix p1 p2 (Z.of_nat n) = Done r /\ (r = true <-> prefix_eq n a b).
Proof.
  intros Ha Hb H1 H2 Hla Hlb Hn. unfold xdp2_compare_prefix.
  set (q := (n / 8)%nat). set (r := (n mod 8)%nat).
  assert (n = 8 * q + r)%nat as En by apply Nat.div_mod_eq.
  assert (r < 8)%nat as Hr by (apply Nat.mod_upper_bound; lia).
  assert (Z.of_nat n / 8 = Z.of_nat q) as Eq by (unfold q; by rewrite Nat2Z.inj_div).
  assert (Z.of_nat n mod 8 = Z.of_nat r) as Er by (unfold r; by rewrite Nat2Z.inj_mod).
  rewrite Eq, Er. clearbody q r. subst n. clear Eq Er. assert (s32 (Z.of_nat q) = Z.of_nat q) as -> by (apply sext_small; lia).
  rewrite u64_small, Nat2Z.id by lia.
  rewrite (memcmp_eq_start p1 p2 a b q) by (done || lia). orun.
  pose proof (prefix_eq_split q r a b Hr) as Hs. rewrite prefix_eq_bytes in Hs by (done || lia).
  destruct (bool_decide_reflect (take q a = take q b)) as [Et | Hne]; cbn [negb].
  2: { exists false. split; [done |]. rewrite Hs. split; [done |]. tauto. }
  destruct (Z.eqb_spec (Z.of_nat r) 0) as [E0 | Hr0].
  { exists true. split; [done |]. rewrite Hs. split; [| done]. intros _. split; [done |]. lia. }
  destruct (bytes_at_lookup p1 a q H1) as (x & Ex & ->); [lia |].
  destruct (bytes_at_lookup p2 b q H2) as (y & Ey & ->); [lia |]. orun.
  eexists. split; [done |]. rewrite Hs, Z.eqb_eq, masked_eq by (by apply Z.mod_pos_bound).
  split.
  - intros H. split; [done |]. intros k Hk.
    rewrite (bit_at_byte a q k x), (bit_at_byte b q k y) by (done || lia).
    apply H; [lia |]. apply prefix_mask_bits; lia.
  - intros [_ H] k Hk Hm. apply prefix_mask_bits in Hm; [| lia | done].
    specialize (H k ltac:(lia)).
    by rewrite (bit_at_byte a q k x), (bit_at_byte b q k y) in H by (done || lia).
Qed.

Lemma compare_tern_loop_spec p1 p2 pm a b m n : forall i,
  Forall is_u8 m -> bytes_at p1 a -> bytes_at p2 b -> bytes_at pm m ->
  (i + n <= length a)%nat -> (i + n <= length b)%nat -> (i + n <= length m)%nat ->
  exists r, compare_tern_loop n p1 p2 pm (Z.of_nat i) = Done r /\
    (r = true <-> forall i' k, (i <= i' < i + n)%nat -> (k < 8)%nat ->
       bit_at m (8 * i' + k) = true -> bit_at a (8 * i' + k) = bit_at b (8 * i' + k)).
Proof.
  induction n as [| n IH]; intros i Hm H1 H2 H3 L1 L2 L3; cbn [compare_tern_loop].
  { exists true. split; [done |]. split; [lia | done]. }
  destruct (bytes_at_lookup p1 a i H1) as (x & Ex & ->); [lia |].
  destruct (bytes_at_lookup p2 b i H2) as (y & Ey & ->); [lia |].
  destruct (bytes_at_lookup pm m i H3) as (w & Ew & ->); [lia |]. orun.
  pose proof (masked_eq x y w (Forall_lookup_1 _ _ _ _ Hm Ew)) as Hmask.
  assert (forall k, (k < 8)%nat -> bit_at m (8 * i + k) = Z.testbit w (7 - Z.of_nat k) /\
            bit_at a (8 * i + k) = Z.testbit x (7 - Z.of_nat k) /\
            bit_at b (8 * i + k) = Z.testbit y (7 - Z.of_nat k)) as Hbits
    by (intros k Hk; split_and!; by apply bit_at_byte).
  destruct (Z.eqb_spec (Z.land (Z.lxor x y) w) 0) as [E | Hne]; cbn [negb].
  - replace (Z.of_nat i + 1) with (Z.of_nat (S i)) by lia.
    destruct (IH (S i)) as (r & -> & Hr); try done; try lia. exists r. split; [done |].
    rewrite Hr. split; intros H i' k Hi Hk; [| apply H; lia].
    destruct (decide (i' = i)) as [-> | ?]; [| apply H; lia].
    destruct (Hbits k Hk) as (-> & -> & ->). by apply Hmask.
  - exists false. split; [done |]. split; [done |]. intros H. exfalso. apply Hne, Hmask.
    intros k Hk. destruct (Hbits k Hk) as (<- & <- & <-). apply H; lia.
Qed.

Lemma xdp2_compare_tern_spec p1 p2 pm a b m :
  Forall is_u8 m -> bytes_at p1 a -> bytes_at p2 b -> bytes_at pm m ->
  length a = length m -> length b = length m ->
  exists r, xdp2_compare_tern p1 p2 pm (Z.of_nat (length m)) = Done r /\
    (r = true <-> mask_eq m a b).
Proof.
  intros Hm H1 H2 H3 La Lb. unfold xdp2_compare_tern. rewrite Nat2Z.id.
  destruct (compare_tern_loop_spec p1 p2 pm a b m (length m) 0) as (r & E & Hr); try done; try lia.
  exists r. split; [done |]. rewrite Hr. unfold mask_eq. split.
  - intros H j. pose proof (Nat.mod_upper_bound j 8 ltac:(lia)). rewrite (Nat.div_mod_eq j 8).
    destruct (decide (j / 8 < length m)%nat) as [Hlt | Hge]; [by apply H; lia |].
    unfold bit_at at 1. rewrite lookup_ge_None_2; [by rewrite Z.testbit_0_l |].
    rewrite Nat.mul_comm, Nat.div_add_l, (Nat.div_small (j mod 8)) by lia. lia.
  - intros H i' k _ _. apply H.
Qed.

(** ** Switch and select statements

    A statement is a list of clauses; the code of a clause changes a state and says
    whether it ended with [break]. *)

Section Statements.
Context {S : Type}.

Inductive clause :=
| Case (test : outcome bool) (code : S -> outcome (S * bool))
| Default (code : S -> outcome (S * bool)).

(** [check] is [__xdp2_switch_check] or [__xdp2_select_fallthrough], which stays set. *)
Fixpoint run_clauses (check : bool) (cs : list clause) (s : S) : outcome S :=
  match cs with
  | [] => mret s
  | Case test code :: cs =>
    check ← (if check then mret true else test);
    if (check : bool) then '(s, brk) ← code s; if (brk : bool) then mret s else run_clauses true cs s
    else run_clauses false cs s
  | Default code :: cs => '(s, brk) ← code s; if (brk : bool) then mret s else run_clauses check cs s
  end.
Definition XDP2_SWITCH_START (cs : list clause) (s : S) : outcome S := run_clauses false cs s.

(** [sizeof(__xdp2_switch_v)] is the length of the value. *)
Definition XDP2_SWITCH_CASE_EQUAL (target : ptr) (v : list Z) : (S -> outcome (S * bool)) -> clause :=
  Case (xdp2_compare_equal target (Ptr v 0) (Z.of_nat (length v))).
Definition XDP2_SWITCH_CASE_TERN (target : ptr) (v mask : list Z) : (S -> outcome (S * bool)) -> clause :=
  Case (xdp2_compare_tern target (Ptr v 0) (Ptr mask 0) (Z.of_nat (length v))).
(** The number of bits is compared with the number of bytes. *)
Definition XDP2_SWITCH_CASE_PREFIX (target : ptr) (v : list Z) (plen : Z) : (S -> outcome (S * bool)) -> clause :=
  let plen := u32 plen in
  let plen := if Z.of_nat (length v) <? plen then Z.of_nat (length v) else plen in
  Case (xdp2_compare_prefix target (Ptr v 0) plen).

(** The targets of a select statement are numbers; an argument that is left out is
    [None] and matches. Targets and values have one type, so that they compare as
    numbers. *)
Definition all_args {A} (f : Z -> A -> bool) (targets : list Z) (args : list A) : bool := forallb (uncurry f) (zip targets args).

Definition __XDP2_SELECT_COMPARE_ONE (t : Z) (v : option Z) : bool := match v with None => true | Some v => t =? v end.
Definition __XDP2_SELECT_COMPARE_RANGE_ONE (t : Z) (r : option Z * option Z) : bool :=
  match r.1 with None => true | Some lo => lo <=? t end && match r.2 with None => true | Some hi => hi <=? t end.
Definition __XDP2_SELECT_COMPARE_MASK_ONE (t : Z) (r : option Z * option Z) : bool :=
  match r with (Some v, Some mask) => Z.land (Z.lxor t v) mask =? 0 | _ => true end.
Definition __XDP2_SELECT_COMPARE_MASK_ANY_ONE (t : Z) (mask : option Z) : bool :=
  match mask with None => true | Some mask => negb (Z.land t mask =? 0) end.

Definition XDP2_SELECT_CASE (targets : list Z) (vs : list (option Z)) : (S -> outcome (S * bool)) -> clause :=
  Case (mret (all_args __XDP2_SELECT_COMPARE_ONE targets vs)).
Definition XDP2_SELECT_CASE_RANGE (targets : list Z) (rs : list (option Z * option Z)) : (S -> outcome (S * bool)) -> clause :=
  Case (mret (all_args __XDP2_SELECT_COMPARE_RANGE_ONE targets rs)).
Definition XDP2_SELECT_CASE_MASK (targets : list Z) (rs : list (option Z * option Z)) : (S -> outcome (S * bool)) -> clause :=
  Case (mret (all_args __XDP2_SELECT_COMPARE_MASK_ONE targets rs)).
Definition XDP2_SELECT_CASE_MASK_ANY (targets : list Z) (ms : list (option Z)) : (S -> outcome (S * bool)) -> clause :=
  Case (mret (all_args __XDP2_SELECT_COMPARE_MASK_ANY_ONE targets ms)).

Definition clause_code (c : clause) : S -> outcome (S * bool) := match c with Case _ code | Default code => code end.
Definition no_match (c : clause) : Prop := match c with Case test _ => test = Done false | Default _ => False end.

(** Codes one after the other until one breaks. *)
Fixpoint run_codes (codes : list (S -> outcome (S * bool))) (s : S) : outcome S :=
  match codes with
  | [] => mret s
  | code :: codes => '(s, brk) ← code s; if (brk : bool) then mret s else run_codes codes s
  end.

Lemma run_clauses_checked cs : forall s, run_clauses true cs s = run_codes (clause_code <$> cs) s.
Proof.
  induction cs as [| [test code | code] cs IH]; intros s; cbn [run_clauses run_codes fmap list_fmap clause_code]; [done | |];
    orun; destruct (code s) as [[s' [|]] | |]; orun; done || apply IH.
Qed.

(** The statement runs the code of the first case that matches, or of a default
    clause before it, and falls through like a C switch until a [break]. *)
Lemma switch_first_match pre c cs s :
  Forall no_match pre -> match c with Case test _ => test = Done true | Default _ => True end -> (match c with Case _ _ => True | Default _ => cs = [] end) ->
  XDP2_SWITCH_START (pre ++ c :: cs) s = run_codes (clause_code <$> c :: cs) s.
Proof.
  intros Hpre Hc Hd. unfold XDP2_SWITCH_START. induction Hpre as [| [test code | code] pre Ht Hpre IH]; cbn [app run_clauses]; [| rewrite Ht; orun; apply IH | done].
  destruct c as [test code | code]; cbn [run_clauses fmap list_fmap clause_code run_codes].
  - rewrite Hc. orun. destruct (code s) as [[s' [|]] | |]; orun; done || apply run_clauses_checked.
  - subst cs. destruct (code s) as [[s' [|]] | |]; done.
Qed.

Lemma switch_no_match cs s : Forall no_match cs -> XDP2_SWITCH_START cs s = Done s.
Proof. unfold XDP2_SWITCH_START. intros H. induction H as [| [test code | code] cs Ht H IH]; cbn [run_clauses]; [done | rewrite Ht; orun; apply IH | done]. Qed.
End Statements.
Arguments clause : clear implicits.

(** Appends a number to the state; the code has no [break]. *)
Definition note (n : Z) (s : list Z) : outcome (list Z * bool) := mret (s ++ [n], false).

(** A case after a match that does not break runs although its value differs. *)
Example switch_falls_through :
  XDP2_SWITCH_START [XDP2_SWITCH_CASE_EQUAL (Ptr [1; 2] 0) [1; 2] (note 1); XDP2_SWITCH_CASE_EQUAL (Ptr [1; 2] 0) [3; 4] (note 2)] [] = Done [1; 2].
Proof. reflexivity. Qed.

(** A prefix of 16 bits of a value of two bytes is cut to two bits. *)
Example switch_prefix_cut :
  XDP2_SWITCH_START [XDP2_SWITCH_CASE_PREFIX (Ptr [1; 2] 0) [3; 4] 16 (note 1)] [] = Done [1].
Proof. reflexivity. Qed.

(** 3 is not in the range from 1 to 5 of a select statement, and 7 is. *)
Example select_range_upper :
  XDP2_SWITCH_START [XDP2_SELECT_CASE_RANGE [3] [(Some 1, Some 5)] (note 1)] [] = Done [] /\
  XDP2_SWITCH_START [XDP2_SELECT_CASE_RANGE [7] [(Some 1, Some 5)] (note 1)] [] = Done [1].
Proof. split; reflexivity. Qed.
