(* ===== verification/Dtable.v ===== *)
(** * Dynamic match tables

    The tables of [src/src/lib/xdp2/dtable.c] and [src/src/include/xdp2/dtable.h]:
    plain (exact match), ternary (match under a mask, by position) and longest
    prefix match. The entries of a table are heap objects that are linked into
    two lists, one ordered by identifier and one ordered for lookup; the model
    keeps the heap and the two lists of pointers. *)

From stdpp Require Import base list gmap numbers.
From S2P Require Import Prelude FlagFields Bytes Siphash Switch.

(** ** Constants *)

Definition ENOENT := 2.
Definition ENOMEM := 12.
Definition EINVAL := 22.
Definition EALREADY := 114.
Definition BASE_IDENT := 1000000.

(** [siphash_key] *)
Definition dtable_siphash_key : siphash_key_t := SiphashKey 0x1234567890abcdef 0xfedcba0987654321.

(** [memcpy] out of a buffer. *)
Fixpoint ld_bytes (n : nat) (p : ptr) (i : Z) : outcome (list Z) :=
  match n with
  | O => mret []
  | S n' => b ← ld8 p i; r ← ld_bytes n' p (i + 1); mret (b :: r)
  end.

(** ** Entries and tables *)

Section table.
(** The key structure that follows the target in an entry. *)
Context {K : Type}.

(** [struct xdp2_dtable_entry]; the key is unset between the allocation of
    an entry and the moment the caller of [xdp2_dtable_add] fills it in. *)
Record xdp2_dtable_entry := DtableEntry {
  de_ident : Z;
  de_targ : list Z;
  de_key : option K }.

(** [struct xdp2_dtable_table]; entry pointers are heap addresses. *)
Record xdp2_dtable_table := DtableTable {
  dt_key_len : Z;
  dt_targ_len : Z;
  dt_default_target : list Z;
  dt_ident : Z;
  dt_entries : list positive;
  dt_entries_lookup : list positive;
  dt_heap : gmap positive xdp2_dtable_entry }.

Implicit Types (t : xdp2_dtable_table) (h : gmap positive xdp2_dtable_entry) (p : positive).

Definition dt_set_heap t h : xdp2_dtable_table :=
  DtableTable (dt_key_len t) (dt_targ_len t) (dt_default_target t) (dt_ident t)
    (dt_entries t) (dt_entries_lookup t) h.

(** [LIST_INSERT_HEAD] without predecessor, [LIST_INSERT_AFTER] with one. *)
Fixpoint insert_after_elem (q p : positive) (l : list positive) : list positive :=
  match l with
  | [] => []
  | x :: l' => if decide (x = q) then x :: p :: l' else x :: insert_after_elem q p l'
  end.
Definition list_insert_at (prev : option positive) (p : positive) (l : list positive)
    : list positive :=
  match prev with
  | None => p :: l
  | Some q => insert_after_elem q p l
  end.

(** [LIST_REMOVE] *)
Definition list_remove (p : positive) (l : list positive) : list positive :=
  filter (fun q => q ≠ p) l.

Fixpoint find_id_loop h (ident : Z) (l : list positive) : outcome (option positive) :=
  match l with
  | [] => mret None
  | p :: l' =>
      e ← deref (h !! p);
      if u32 ident <? u32 (de_ident e) then mret None else
      if u32 (de_ident e) =? u32 ident then mret (Some p) else
      find_id_loop h ident l'
  end.

(** [ident] is an [unsigned int], the entries hold an [int]. *)
Definition xdp2_dtable_find_ent_by_id t (ident : Z) : outcome (option positive) :=
  find_id_loop (dt_heap t) ident (dt_entries t).

(** The loop of [xdp2_dtable_add]: [None] when the identifier is taken, and
    otherwise [*ident], [want_ident] and [pentry]. *)
Fixpoint add_loop h (ident want_ident : Z) (pentry : option positive) (l : list positive)
    : outcome (option (Z * Z * option positive)) :=
  match l with
  | [] => mret (Some (ident, want_ident, pentry))
  | p :: l' =>
      e ← deref (h !! p);
      if negb (ident =? 0) then
        if de_ident e =? ident then mret None else
        if ident <? de_ident e then mret (Some (ident, want_ident, pentry)) else
        add_loop h ident want_ident (Some p) l'
      else
        if de_ident e <? BASE_IDENT then add_loop h ident want_ident pentry l' else
        if negb (de_ident e =? want_ident) then mret (Some (want_ident, want_ident, pentry)) else
        add_loop h ident (s32 (want_ident + 1)) (Some p) l'
  end.

(** [xdp2_dtable_add]: the new entry (NULL on failure) and its identifier.
    [malloc_ok] is whether the allocation succeeds. *)
Definition xdp2_dtable_add (malloc_ok : bool) t (plentry : option positive) (ident : Z)
    (target : ptr) : outcome (option (positive * Z) * xdp2_dtable_table) :=
  r ← add_loop (dt_heap t) ident BASE_IDENT None (dt_entries t);
  match r with
  | None => mret (None, t)
  | Some (ident, want_ident, pentry) =>
      if want_ident <? 0 then mret (None, t) else
      if negb malloc_ok then mret (None, t) else
      let ident := if ident =? 0 then want_ident else ident in
      targ ← ld_bytes (Z.to_nat (dt_targ_len t)) target 0;
      let p := fresh (dom (dt_heap t)) in
      mret (Some (p, ident),
        DtableTable (dt_key_len t) (dt_targ_len t) (dt_default_target t) (dt_ident t)
          (list_insert_at pentry p (dt_entries t))
          (list_insert_at plentry p (dt_entries_lookup t))
          (<[p := DtableEntry ident targ None]> (dt_heap t)))
  end.

(** Filling in [keyinfo] of a new entry. *)
Definition set_entry_key (p : positive) (k : K) t : xdp2_dtable_table :=
  dt_set_heap t (alter (fun e => DtableEntry (de_ident e) (de_targ e) (Some k)) p (dt_heap t)).

Definition xdp2_dtable_del t p : xdp2_dtable_table :=
  DtableTable (dt_key_len t) (dt_targ_len t) (dt_default_target t) (dt_ident t)
    (list_remove p (dt_entries t)) (list_remove p (dt_entries_lookup t))
    (delete p (dt_heap t)).

Definition xdp2_dtable_del_by_id t (ident : Z) : outcome xdp2_dtable_table :=
  entry ← xdp2_dtable_find_ent_by_id t ident;
  mret (match entry with Some p => xdp2_dtable_del t p | None => t end).

Definition xdp2_dtable_change t p (target : ptr) : outcome xdp2_dtable_table :=
  targ ← ld_bytes (Z.to_nat (dt_targ_len t)) target 0;
  mret (dt_set_heap t
          (alter (fun e => DtableEntry (de_ident e) targ (de_key e)) p (dt_heap t))).

Definition xdp2_dtable_change_by_id t (ident : Z) (target : ptr)
    : outcome (Z * xdp2_dtable_table) :=
  entry ← xdp2_dtable_find_ent_by_id t ident;
  match entry with
  | None => mret (- ENOENT, t)
  | Some p => t ← xdp2_dtable_change t p target; mret (0, t)
  end.

(** The [LIST_FOREACH] over [entries_lookup] the find and lookup functions
    share: [stop] is the test that ends the search, [hit] the one that finds
    the entry. Returns the entry and its predecessor. *)
Fixpoint find_loop h (stop : K -> bool) (hit : K -> outcome bool) (prev : option positive)
    (l : list positive) : outcome (option positive * option positive) :=
  match l with
  | [] => mret (None, prev)
  | p :: l' =>
      e ← deref (h !! p);
      keyinfo ← deref (de_key e);
      if stop keyinfo then mret (None, prev) else
      b ← hit keyinfo;
      if (b : bool) then mret (Some p, prev) else find_loop h stop hit (Some p) l'
  end.

(** The target of the entry found, or the default target. *)
Definition lookup_result t (entry : option positive) : outcome (list Z) :=
  match entry with
  | Some p => e ← deref (dt_heap t !! p); mret (de_targ e)
  | None => mret (dt_default_target t)
  end.
End table.

Arguments xdp2_dtable_entry : clear implicits.
Arguments xdp2_dtable_table : clear implicits.

(** ** Plain tables *)

Module Plain.

(** [struct xdp2_plain_entry_key] *)
Record xdp2_plain_entry_key := PlainKey { pk_hash : Z; pk_key : list Z }.

Section ops.
(** [IS_ALIGNED] of an address. *)
Context (is_aligned : ptr -> bool).
Implicit Type t : xdp2_dtable_table xdp2_plain_entry_key.

(** [siphash(key, table->key_len, &siphash_key)]; the length is not constant. *)
Definition key_hash t (key : ptr) : outcome Z :=
  siphash (is_aligned key) false key (dt_key_len t) dtable_siphash_key.

Definition plain_hit t (key : ptr) (hash : Z) (k : xdp2_plain_entry_key) : outcome bool :=
  if pk_hash k =? hash then xdp2_compare_equal (Ptr (pk_key k) 0) key (dt_key_len t)
  else mret false.

(** The entry, its predecessor and the hash. *)
Definition __xdp2_dtable_find_plain t (key : ptr)
    : outcome (option positive * option positive * Z) :=
  hash ← key_hash t key;
  r ← find_loop (dt_heap t) (fun k => hash <? pk_hash k) (plain_hit t key hash) None
        (dt_entries_lookup t);
  mret (r, hash).

Definition xdp2_dtable_add_plain (malloc_ok : bool) t (ident : Z) (key target : ptr)
    : outcome (Z * xdp2_dtable_table xdp2_plain_entry_key) :=
  '(entry, prev_entry, hash) ← __xdp2_dtable_find_plain t key;
  if negb (is_null entry) then mret (- EALREADY, t) else
  '(entry, t) ← xdp2_dtable_add malloc_ok t prev_entry ident target;
  match entry with
  | None => mret (- ENOMEM, t)
  | Some (p, ident) =>
      bytes ← ld_bytes (Z.to_nat (dt_key_len t)) key 0;
      mret (ident, set_entry_key p (PlainKey hash bytes) t)
  end.

Definition xdp2_dtable_del_plain t (key : ptr)
    : outcome (xdp2_dtable_table xdp2_plain_entry_key) :=
  '(entry, _, _) ← __xdp2_dtable_find_plain t key;
  mret (match entry with Some p => xdp2_dtable_del t p | None => t end).

Definition xdp2_dtable_change_plain t (key target : ptr)
    : outcome (Z * xdp2_dtable_table xdp2_plain_entry_key) :=
  '(entry, _, _) ← __xdp2_dtable_find_plain t key;
  match entry with
  | None => mret (- ENOENT, t)
  | Some p => t ← xdp2_dtable_change t p target; mret (0, t)
  end.

Definition xdp2_dtable_lookup_plain t (key : ptr) : outcome (list Z) :=
  hash ← key_hash t key;
  '(entry, _) ← find_loop (dt_heap t) (fun k => hash <? pk_hash k) (plain_hit t key hash) None
                  (dt_entries_lookup t);
  lookup_result t entry.
End ops.

Definition xdp2_dtable_del_plain_by_id (t : xdp2_dtable_table xdp2_plain_entry_key) (ident : Z) :=
  xdp2_dtable_del_by_id t ident.
Definition xdp2_dtable_change_plain_by_id (t : xdp2_dtable_table xdp2_plain_entry_key) (ident : Z)
    (target : ptr) := xdp2_dtable_change_by_id t ident target.

End Plain.

(** ** Ternary tables *)

Module Tern.

(** [struct xdp2_tern_entry_key]: the key is followed by the mask. *)
Record xdp2_tern_entry_key := TernKey { tk_pos : Z; tk_key : list Z }.

Implicit Type t : xdp2_dtable_table xdp2_tern_entry_key.

Definition tern_same t (key key_mask : ptr) (k : xdp2_tern_entry_key) : outcome bool :=
  b ← xdp2_compare_equal (Ptr (tk_key k) 0) key (dt_key_len t);
  if (b : bool) then
    xdp2_compare_equal (padd (Ptr (tk_key k) 0) (dt_key_len t)) key_mask (dt_key_len t)
  else mret false.

Definition __xdp2_dtable_find_tern t (key key_mask : ptr) (pos : Z)
    : outcome (option positive * option positive) :=
  find_loop (dt_heap t) (fun k => pos <? tk_pos k) (tern_same t key key_mask) None
    (dt_entries_lookup t).

Definition xdp2_dtable_add_tern (malloc_ok : bool) t (ident : Z) (key key_mask : ptr) (pos : Z)
    (target : ptr) : outcome (Z * xdp2_dtable_table xdp2_tern_entry_key) :=
  '(entry, prev_entry) ← __xdp2_dtable_find_tern t key key_mask pos;
  if negb (is_null entry) then mret (- EALREADY, t) else
  '(entry, t) ← xdp2_dtable_add malloc_ok t prev_entry ident target;
  match entry with
  | None => mret (- ENOMEM, t)
  | Some (p, _) =>
      k ← ld_bytes (Z.to_nat (dt_key_len t)) key 0;
      m ← ld_bytes (Z.to_nat (dt_key_len t)) key_mask 0;
      mret (0, set_entry_key p (TernKey pos (k ++ m)) t)
  end.

Definition xdp2_dtable_del_tern t (key key_mask : ptr) (pos : Z)
    : outcome (xdp2_dtable_table xdp2_tern_entry_key) :=
  '(entry, _) ← __xdp2_dtable_find_tern t key key_mask pos;
  mret (match entry with Some p => xdp2_dtable_del t p | None => t end).

Definition xdp2_dtable_del_tern_by_id t (ident : Z) := xdp2_dtable_del_by_id t ident.

Definition xdp2_dtable_change_tern t (key key_mask : ptr) (pos : Z) (target : ptr)
    : outcome (Z * xdp2_dtable_table xdp2_tern_entry_key) :=
  '(entry, _) ← __xdp2_dtable_find_tern t key key_mask pos;
  match entry with
  | None => mret (- ENOENT, t)
  | Some p => t ← xdp2_dtable_change t p target; mret (0, t)
  end.

Definition xdp2_dtable_change_tern_by_id t (ident : Z) (target : ptr) :=
  xdp2_dtable_change_by_id t ident target.

Definition tern_match t (key : ptr) (k : xdp2_tern_entry_key) : outcome bool :=
  xdp2_compare_tern (Ptr (tk_key k) 0) key (padd (Ptr (tk_key k) 0) (dt_key_len t)) (dt_key_len t).

Definition xdp2_dtable_lookup_tern t (key : ptr) : outcome (list Z) :=
  '(entry, _) ← find_loop (dt_heap t) (fun _ => false) (tern_match t key) None
                  (dt_entries_lookup t);
  lookup_result t entry.

End Tern.

(** ** Longest prefix match tables *)

Module Lpm.

(** [struct xdp2_lpm_entry_key] *)
Record xdp2_lpm_entry_key := LpmKey { lk_prefix_len : Z; lk_key : list Z }.

Implicit Type t : xdp2_dtable_table xdp2_lpm_entry_key.

Definition lpm_same t (key : ptr) (prefix_len : Z) (k : xdp2_lpm_entry_key) : outcome bool :=
  b ← xdp2_compare_equal (Ptr (lk_key k) 0) key (dt_key_len t);
  mret ((b : bool) && (lk_prefix_len k =? prefix_len)).

Definition __xdp2_dtable_find_lpm t (key : ptr) (prefix_len : Z)
    : outcome (option positive * option positive) :=
  find_loop (dt_heap t) (fun k => lk_prefix_len k <? prefix_len) (lpm_same t key prefix_len) None
    (dt_entries_lookup t).

Definition xdp2_dtable_add_lpm (malloc_ok : bool) t (ident : Z) (key : ptr) (prefix_len : Z)
    (target : ptr) : outcome (Z * xdp2_dtable_table xdp2_lpm_entry_key) :=
  '(entry, prev_entry) ← __xdp2_dtable_find_lpm t key prefix_len;
  if negb (is_null entry) then mret (- EALREADY, t) else
  '(entry, t) ← xdp2_dtable_add malloc_ok t prev_entry ident target;
  match entry with
  | None => mret (- ENOMEM, t)
  | Some (p, _) =>
      k ← ld_bytes (Z.to_nat (dt_key_len t)) key 0;
      mret (0, set_entry_key p (LpmKey prefix_len k) t)
  end.

Definition xdp2_dtable_del_lpm t (key : ptr) (prefix_len : Z)
    : outcome (xdp2_dtable_table xdp2_lpm_entry_key) :=
  '(entry, _) ← __xdp2_dtable_find_lpm t key prefix_len;
  mret (match entry with Some p => xdp2_dtable_del t p | None => t end).

Definition xdp2_dtable_del_lpm_by_id t (ident : Z) := xdp2_dtable_del_by_id t ident.

Definition xdp2_dtable_change_lpm t (key : ptr) (prefix_len : Z) (target : ptr)
    : outcome (Z * xdp2_dtable_table xdp2_lpm_entry_key) :=
  '(entry, _) ← __xdp2_dtable_find_lpm t key prefix_len;
  match entry with
  | None => mret (- ENOENT, t)
  | Some p => t ← xdp2_dtable_change t p target; mret (0, t)
  end.

Definition xdp2_dtable_change_lpm_by_id t (ident : Z) (target : ptr) :=
  xdp2_dtable_change_by_id t ident target.

Definition lpm_match (key : ptr) (k : xdp2_lpm_entry_key) : outcome bool :=
  xdp2_compare_prefix (Ptr (lk_key k) 0) key (lk_prefix_len k).

Definition xdp2_dtable_lookup_lpm t (key : ptr) : outcome (list Z) :=
  '(entry, _) ← find_loop (dt_heap t) (fun _ => false) (lpm_match key) None (dt_entries_lookup t);
  lookup_result t entry.

End Lpm.
