(* ===== verification/DtableSpec.v ===== *)
(** * What the dynamic tables promise

    A table represents the list of its rows in lookup order. The shared
    operations of [Dtable.v] are specified on that list, for any kind of key;
    the plain, ternary and longest prefix tables then get their own meaning. *)

From stdpp Require Import base list gmap numbers sorting.
From S2P Require Import Prelude FlagFields Bytes Siphash SiphashSpec Switch Dtable.

Lemma ld_bytes_at bs : forall p i,
  (forall k b, bs !! k = Some b -> ld8 p (i + Z.of_nat k) = Done b) ->
  ld_bytes (length bs) p i = Done bs.
Proof.
  induction bs as [| b bs IH]; intros p i H; [done |]. cbn [length ld_bytes].
  pose proof (H 0%nat b eq_refl) as E. rewrite Z.add_0_r in E. rewrite E. orun.
  rewrite IH; [done |]. intros k x Hk. rewrite <- (H (S k) x Hk). f_equal. lia.
Qed.

Lemma ld_bytes_key p bs n : bytes_at p bs -> Z.of_nat (length bs) = n ->
  ld_bytes (Z.to_nat n) p 0 = Done bs.
Proof. intros H <-. rewrite Nat2Z.id. by apply ld_bytes_at. Qed.

(** ** Lists of pointers *)

Lemma insert_after_last l1 l2 q p :
  NoDup (l1 ++ q :: l2) -> insert_after_elem q p (l1 ++ q :: l2) = l1 ++ q :: p :: l2.
Proof.
  induction l1 as [| x l1 IH]; simpl; intros Hnd; [by rewrite decide_True |].
  apply NoDup_cons in Hnd as [Hx Hnd]. rewrite decide_False by set_solver. by rewrite IH.
Qed.

Lemma list_insert_split l1 l2 p :
  NoDup (l1 ++ l2) -> list_insert_at (last l1) p (l1 ++ l2) = l1 ++ p :: l2.
Proof.
  destruct l1 as [| q l1 _] using rev_ind; [done |]. rewrite last_snoc. simpl.
  rewrite <- !(assoc_L (++)). simpl. apply insert_after_last.
Qed.

Lemma list_insert_perm prev p l :
  (forall q, prev = Some q -> q ∈ l) -> list_insert_at prev p l ≡ₚ p :: l.
Proof.
  destruct prev as [q |]; [| done]. intros H. specialize (H q eq_refl). simpl.
  induction l as [| x l IH]; [by apply not_elem_of_nil in H |]. simpl.
  destruct (decide (x = q)) as [-> | Hne]; [by constructor |].
  apply elem_of_cons in H as [-> | H]; [done |]. rewrite IH by done. constructor.
Qed.

Lemma list_remove_notin p l : p ∉ l -> list_remove p l = l.
Proof.
  unfold list_remove. induction l as [| x l IH]; [done |]. intros H.
  rewrite filter_cons_True by set_solver. f_equal. apply IH. set_solver.
Qed.

Lemma list_remove_split l1 l2 p : NoDup (l1 ++ p :: l2) -> list_remove p (l1 ++ p :: l2) = l1 ++ l2.
Proof.
  intros Hnd. apply NoDup_app in Hnd as (_ & Hd & Hnd). apply NoDup_cons in Hnd as [Hp _].
  unfold list_remove. rewrite filter_app, filter_cons_False by tauto.
  rewrite !(list_remove_notin p : forall l, _ -> filter _ l = l); [done | done |].
  intros H. apply (Hd p H). by left.
Qed.

Lemma Forall2_impl_in {A B} (P Q : A -> B -> Prop) l k :
  Forall2 P l k -> (forall x y, x ∈ l -> P x y -> Q x y) -> Forall2 Q l k.
Proof.
  induction 1 as [| x y l k Hxy _ IH]; intros H; constructor.
  - apply H; [by left | done].
  - apply IH. intros a b Ha. apply H. by right.
Qed.

Section table.
Context {K : Type}.

(** What an entry holds. *)
Record row := Row { row_ident : Z; row_key : K; row_targ : list Z }.

Definition row_entry (r : row) : xdp2_dtable_entry K :=
  DtableEntry (row_ident r) (row_targ r) (Some (row_key r)).

(** [rows] are the entries in lookup order. *)
Record table_repr (t : xdp2_dtable_table K) (rows : list row) : Prop := {
  tr_nodup : NoDup (dt_entries_lookup t);
  tr_perm : dt_entries t ≡ₚ dt_entries_lookup t;
  tr_rows : Forall2 (fun p r => dt_heap t !! p = Some (row_entry r)) (dt_entries_lookup t) rows;
  tr_dom p : is_Some (dt_heap t !! p) -> p ∈ dt_entries_lookup t;
  tr_targ : Forall (fun r => Z.of_nat (length (row_targ r)) = dt_targ_len t) rows;
  tr_lens : 0 <= dt_key_len t /\ Z.of_nat (length (dt_default_target t)) = dt_targ_len t }.

(** ** The search *)

Section find.
Context (h : gmap positive (xdp2_dtable_entry K)).
Context (stop : K -> bool) (hit : K -> outcome bool) (hitb : K -> bool).

(** What a search does: it skips rows that neither stop nor hit, and ends at
    the end of the list, at a row that stops it, or at a row that is hit. *)
Inductive find_spec (prev : option positive) :
  list positive -> list row -> option positive * option positive -> Prop :=
| fs_miss l1 l2 r1 r2 : length l1 = length r1 ->
    Forall (fun r => stop (row_key r) = false /\ hitb (row_key r) = false) r1 ->
    (forall r, head r2 = Some r -> stop (row_key r) = true) ->
    find_spec prev (l1 ++ l2) (r1 ++ r2)
      (None, match last l1 with Some q => Some q | None => prev end)
| fs_hit l1 p l2 r1 r r2 : length l1 = length r1 ->
    Forall (fun r => stop (row_key r) = false /\ hitb (row_key r) = false) r1 ->
    stop (row_key r) = false -> hitb (row_key r) = true ->
    find_spec prev (l1 ++ p :: l2) (r1 ++ r :: r2)
      (Some p, match last l1 with Some q => Some q | None => prev end).

Lemma find_loop_spec l rows :
  Forall2 (fun p r => h !! p = Some (row_entry r)) l rows ->
  Forall (fun r => hit (row_key r) = Done (hitb (row_key r))) rows ->
  forall prev, exists res, find_loop h stop hit prev l = Done res /\ find_spec prev l rows res.
Proof using Type.
  induction 1 as [| p r l rows Hp Hl IH]; intros Hh prev; cbn [find_loop].
  - eexists. split; [done |]. by apply (fs_miss prev [] [] [] []).
  - apply Forall_cons_1 in Hh as [Hhit Hh]. rewrite Hp. orun. cbn [row_entry de_key].
    destruct (stop (row_key r)) eqn:Es.
    { eexists. split; [done |]. apply (fs_miss prev [] (p :: l) [] (r :: rows)); try done.
      by intros ? [= <-]. }
    rewrite Hhit. destruct (hitb (row_key r)) eqn:Eb.
    { eexists. split; [done |]. by apply (fs_hit prev [] p l [] r rows). }
    destruct (IH Hh (Some p)) as (res & -> & Hres). exists res. split; [done |].
    assert (forall (l1 : list positive), match last l1 with Some q => Some q | None => Some p end =
              match last (p :: l1) with Some q => Some q | None => prev end) as Hlast.
    { intros l1. destruct l1 as [| x l1]; [done |]. rewrite !last_cons.
      destruct (last l1) as [y |] eqn:E; simpl; by rewrite ?E. }
    inversion Hres as [l1 l2 r1 r2 Hlen Hsk Hhd | l1 q l2 r1 r' r2 Hlen Hsk Hst Hht]; subst;
      rewrite Hlast.
    + apply (fs_miss prev (p :: l1) l2 (r :: r1) r2); [simpl; lia | by constructor | done].
    + apply (fs_hit prev (p :: l1) q l2 (r :: r1) r' r2); [simpl; lia | by constructor | done | done].
Qed.
End find.

(** ** The shared operations *)

Implicit Types (t : xdp2_dtable_table K) (rows : list row).

(** Same shape, possibly other entries. *)
Definition same_shape t t' : Prop :=
  dt_key_len t' = dt_key_len t /\ dt_targ_len t' = dt_targ_len t /\
  dt_default_target t' = dt_default_target t /\ dt_ident t' = dt_ident t.

Lemma same_shape_refl t : same_shape t t.
Proof. by repeat split. Qed.
Lemma same_shape_del t p : same_shape t (xdp2_dtable_del t p).
Proof. by repeat split. Qed.

Lemma same_shape_set_key t t' p k : same_shape t t' -> same_shape t (set_entry_key p k t').
Proof. done. Qed.

Lemma repr_entry t rows p :
  table_repr t rows -> p ∈ dt_entries_lookup t ->
  exists r, r ∈ rows /\ dt_heap t !! p = Some (row_entry r).
Proof.
  intros Hr Hp. apply list_elem_of_lookup_1 in Hp as [i Hi].
  destruct (Forall2_lookup_l _ _ _ _ _ (tr_rows _ _ Hr) Hi) as (r & Hri & E).
  exists r. split; [by eapply list_elem_of_lookup_2 | done].
Qed.

Lemma repr_split_rows t rows l1 l2 :
  table_repr t rows -> dt_entries_lookup t = l1 ++ l2 ->
  exists r1 r2, rows = r1 ++ r2 /\ length l1 = length r1.
Proof.
  intros Hr E. pose proof (tr_rows _ _ Hr) as H. rewrite E in H.
  apply Forall2_app_inv_l in H as (r1 & r2 & H1 & _ & ->). exists r1, r2.
  split; [done |]. by eapply Forall2_length.
Qed.

Lemma add_loop_total h l : forall ident want pentry,
  (forall p, p ∈ l -> is_Some (h !! p)) ->
  exists r, add_loop (K := K) h ident want pentry l = Done r /\
    forall i w pe, r = Some (i, w, pe) -> pe = pentry \/ exists q, pe = Some q /\ q ∈ l.
Proof.
  induction l as [| p l IH]; intros ident want pentry Hh; cbn [add_loop].
  { eexists. split; [done |]. intros i w pe [= _ _ <-]. by left. }
  destruct (Hh p ltac:(by left)) as [e ->]. orun.
  assert (forall q, q ∈ l -> is_Some (h !! q)) as Hh' by (intros q Hq; apply Hh; by right).
  assert (forall id w pe, exists r, add_loop h id w pe l = Done r /\
            forall i w' pe', r = Some (i, w', pe') -> (pe = Some p \/ pe = pentry) ->
              pe' = pentry \/ exists q, pe' = Some q /\ q ∈ p :: l) as Hrec.
  { intros id w pe. destruct (IH id w pe Hh') as (r & -> & Hr). exists r. split; [done |].
    intros i w' pe' E Hpe. destruct (Hr _ _ _ E) as [-> | (q & -> & Hq)].
    - destruct Hpe as [-> | ->]; [| by left]. right. exists p. split; [done | by left].
    - right. exists q. split; [done | by right]. }
  destruct (negb (ident =? 0)).
  - destruct (de_ident e =? ident); [by eexists |].
    destruct (ident <? de_ident e); [eexists; split; [done |]; intros i w pe [= _ _ <-]; by left |].
    destruct (Hrec ident want (Some p)) as (r & -> & Hr). exists r. split; [done |]. eauto.
  - destruct (de_ident e <? BASE_IDENT).
    { destruct (Hrec ident want pentry) as (r & -> & Hr). exists r. split; [done |]. eauto. }
    destruct (negb _); [eexists; split; [done |]; intros i w pe [= _ _ <-]; by left |].
    destruct (Hrec ident (s32 (want + 1)) (Some p)) as (r & -> & Hr). exists r.
    split; [done |]. eauto.
Qed.

(** Why an insertion fails, and which identifier it gets. *)
Lemma add_loop_result h l : forall ident want pentry r,
  add_loop (K := K) h ident want pentry l = Done r ->
  match r with
  | None => ident <> 0 /\ exists p e, p ∈ l /\ h !! p = Some e /\ de_ident e = ident
  | Some (i, w, _) =>
      (ident <> 0 -> i = ident /\ w = want) /\
      (ident = 0 -> (i = 0 \/ i = w) /\
         (0 <= want -> want + Z.of_nat (length l) < 2 ^ 31 -> want <= w < 2 ^ 31))
  end.
Proof.
  induction l as [| p l IH]; intros ident want pentry r E; cbn [add_loop length] in *.
  { injection E as <-. split; [done |]. intros ->. split; [by left | lia]. }
  destruct (h !! p) as [e |] eqn:Ep; [| done]. revert E. orun.
  destruct (Z.eqb_spec ident 0) as [E0 | Hne]; cbn [negb].
  - destruct (de_ident e <? BASE_IDENT); [| destruct (Z.eqb_spec (de_ident e) want); cbn [negb]].
    + intros E. specialize (IH _ _ _ _ E). destruct r as [[[i w] pe] |]; [| by destruct IH].
      destruct IH as [_ H]. split; [done |]. intros _. destruct (H E0). split; [done | lia].
    + intros E. specialize (IH _ _ _ _ E). destruct r as [[[i w] pe] |]; [| by destruct IH].
      destruct IH as [_ H]. split; [done |]. intros _. destruct (H E0) as [Hi Hw]. split; [done |].
      intros H0 Hb. assert (s32 (want + 1) = want + 1) as Es by (apply sext_small; lia).
      rewrite Es in Hw. lia.
    + intros [= <-]. split; [done |]. intros _. split; [by right | lia].
  - destruct (Z.eqb_spec (de_ident e) ident).
    { intros [= <-]. split; [done |]. exists p, e. split_and!; [by left | done | done]. }
    destruct (ident <? de_ident e); [by intros [= <-] |].
    intros E. specialize (IH _ _ _ _ E). destruct r as [[[i w] pe] |]; [by destruct IH |].
    destruct IH as (_ & q & e' & Hq & ?). split; [done |]. exists q, e'. split; [by right | done].
Qed.

(** The possible outcomes of an insertion, by the rows of the table. *)
Definition add_refused (malloc_ok : bool) (ident : Z) rows : Prop :=
  malloc_ok = false \/ (ident <> 0 /\ exists r, r ∈ rows /\ row_ident r = ident) \/
  (ident = 0 /\ 2 ^ 31 <= BASE_IDENT + Z.of_nat (length rows)).
Definition add_ident_ok (ident id : Z) rows : Prop :=
  (ident <> 0 -> id = ident) /\
  (ident = 0 -> BASE_IDENT + Z.of_nat (length rows) < 2 ^ 31 -> BASE_IDENT <= id < 2 ^ 31).

(** The table with a new entry, linked after [pe] and [plentry]. *)
Definition table_with t (pe plentry : option positive) (id : Z) (targ : list Z)
    : xdp2_dtable_table K :=
  let p := fresh (dom (dt_heap t)) in
  DtableTable (dt_key_len t) (dt_targ_len t) (dt_default_target t) (dt_ident t)
    (list_insert_at pe p (dt_entries t)) (list_insert_at plentry p (dt_entries_lookup t))
    (<[p := DtableEntry id targ None]> (dt_heap t)).

Lemma xdp2_dtable_add_cases malloc_ok t rows plentry ident target targ :
  table_repr t rows -> bytes_at target targ -> Z.of_nat (length targ) = dt_targ_len t ->
  (xdp2_dtable_add malloc_ok t plentry ident target = Done (None, t) /\
   add_refused malloc_ok ident rows) \/
  exists id pe, add_ident_ok ident id rows /\ (forall q, pe = Some q -> q ∈ dt_entries t) /\
    xdp2_dtable_add malloc_ok t plentry ident target =
      Done (Some (fresh (dom (dt_heap t)), id), table_with t pe plentry id targ).
Proof.
  intros Hr Hat Htl. unfold xdp2_dtable_add.
  destruct (add_loop_total (dt_heap t) (dt_entries t) ident BASE_IDENT None) as (res & Eadd & Hpe).
  { intros p Hp. rewrite (tr_perm _ _ Hr) in Hp. destruct (repr_entry _ _ _ Hr Hp) as (r & _ & ->). eauto. }
  assert (length (dt_entries t) = length rows) as Elen
    by (rewrite (tr_perm _ _ Hr); by eapply Forall2_length, tr_rows).
  pose proof (add_loop_result _ _ _ _ _ _ Eadd) as Hres. rewrite Elen in Hres. rewrite Eadd. orun.
  destruct res as [[[i w] pe] |].
  - destruct Hres as [Hne H0].
    assert (w < 0 -> ident = 0 /\ 2 ^ 31 <= BASE_IDENT + Z.of_nat (length rows)) as Hneg.
    { intros Hw. destruct (decide (ident = 0)) as [-> | Hi]; [| destruct (Hne Hi); unfold BASE_IDENT in *; lia].
      split; [done |]. destruct (H0 eq_refl) as [_ Hb]. unfold BASE_IDENT in *. lia. }
    destruct (Z.ltb_spec w 0); [left; split; [done |]; right; right; by apply Hneg |].
    destruct malloc_ok; cbn [negb]; [| left; by split; [| left]].
    rewrite (ld_bytes_key target targ) by done. right. do 2 eexists. split_and!; [| | done].
    + split.
      * intros Hi. destruct (Hne Hi) as [-> _]. by destruct (Z.eqb_spec ident 0).
      * intros Hi Hb. destruct (H0 Hi) as [Hor Hw].
        specialize (Hw ltac:(unfold BASE_IDENT; lia) Hb).
        destruct (Z.eqb_spec i 0); [done |]. by destruct Hor as [-> | ->].
    + intros q ->. by destruct (Hpe i w (Some q) eq_refl) as [? | (q' & [= ->] & ?)].
  - left. split; [done |]. right; left. destruct Hres as (Hne & p & e & Hp & Ep & Ei).
    split; [done |]. rewrite (tr_perm _ _ Hr) in Hp.
    destruct (repr_entry _ _ _ Hr Hp) as (r & Hin & E). exists r. split; [done |].
    rewrite Ep in E. by injection E as ->.
Qed.

(** Insertion at a place of the lookup list. *)
Lemma table_with_repr t rows r1 r2 l1 l2 pe id targ k :
  table_repr t rows -> rows = r1 ++ r2 -> dt_entries_lookup t = l1 ++ l2 ->
  length l1 = length r1 -> Z.of_nat (length targ) = dt_targ_len t ->
  (forall q, pe = Some q -> q ∈ dt_entries t) ->
  table_repr (set_entry_key (fresh (dom (dt_heap t))) k (table_with t pe (last l1) id targ))
    (r1 ++ Row id k targ :: r2).
Proof.
  intros Hr -> El Hlen Htl Hpe. unfold table_with.
  set (p := fresh (dom (dt_heap t))).
  assert (dt_heap t !! p = None) as Hfr by (apply not_elem_of_dom, is_fresh).
  assert (p ∉ dt_entries_lookup t) as Hpn.
  { intros Hp. destruct (repr_entry _ _ _ Hr Hp) as (r & _ & E). congruence. }
  pose proof (tr_rows _ _ Hr) as Hrows. rewrite El in Hrows.
  apply Forall2_app_inv in Hrows as [Hr1 Hr2]; [| done].
  pose proof (tr_nodup _ _ Hr) as Hnd. rewrite El in Hnd, Hpn.
  unfold set_entry_key, dt_set_heap.
  cbn [dt_entries_lookup dt_entries dt_heap dt_key_len dt_targ_len dt_default_target dt_ident].
  rewrite El, list_insert_split by done.
  constructor; cbn [dt_entries_lookup dt_entries dt_heap dt_key_len dt_targ_len dt_default_target].
  - rewrite <- Permutation_middle. by constructor.
  - rewrite list_insert_perm by done. by rewrite (tr_perm _ _ Hr), El, <- Permutation_middle.
  - assert (forall q r, q ∈ l1 ++ l2 -> dt_heap t !! q = Some (row_entry r) ->
      alter (fun e => DtableEntry (de_ident e) (de_targ e) (Some k)) p
        (<[p := DtableEntry id targ None]> (dt_heap t)) !! q =
      Some (row_entry r)) as Hkeep.
    { intros q r Hq E. rewrite lookup_alter_ne, lookup_insert_ne; [done | |]; intros ->; done. }
    apply Forall2_app; [| constructor].
    + eapply Forall2_impl_in; [exact Hr1 |]. intros q r Hq. apply Hkeep. set_solver.
    + by rewrite lookup_alter_eq, lookup_insert_eq.
    + eapply Forall2_impl_in; [exact Hr2 |]. intros q r Hq. apply Hkeep. set_solver.
  - intros q [<- | [_ Hq]]%lookup_alter_is_Some%lookup_insert_is_Some.
    + set_solver.
    + apply (tr_dom _ _ Hr) in Hq. rewrite El in Hq. set_solver.
  - pose proof (tr_targ _ _ Hr) as Ht. apply Forall_app in Ht as [Ht1 Ht2].
    apply Forall_app; split; [done |]. by constructor.
  - apply (tr_lens _ _ Hr).
Qed.

Lemma xdp2_dtable_add_repr malloc_ok t rows r1 r2 l1 l2 ident target targ :
  table_repr t rows -> rows = r1 ++ r2 -> dt_entries_lookup t = l1 ++ l2 ->
  length l1 = length r1 -> bytes_at target targ -> Z.of_nat (length targ) = dt_targ_len t ->
  exists res t', xdp2_dtable_add malloc_ok t (last l1) ident target = Done (res, t') /\
    same_shape t t' /\
    match res with
    | None => t' = t /\ add_refused malloc_ok ident rows
    | Some (p, id) => add_ident_ok ident id rows /\
        forall k, table_repr (set_entry_key p k t') (r1 ++ Row id k targ :: r2)
    end.
Proof.
  intros Hr Er El Hlen Hat Htl.
  destruct (xdp2_dtable_add_cases malloc_ok t rows (last l1) ident target targ Hr Hat Htl)
    as [[-> Href] | (id & pe & Hid & Hpe & ->)]; do 2 eexists; (split; [done |]).
  - by auto with xdp2.
  - split; [by repeat split |]. split; [done |]. intros k. by eapply table_with_repr.
Qed.

Section at_row.
Context (t : xdp2_dtable_table K) (l1 : list positive) (p : positive) (l2 : list positive).
Context (r1 : list row) (r : row) (r2 : list row) (Hr : table_repr t (r1 ++ r :: r2)).
Context (El : dt_entries_lookup t = l1 ++ p :: l2) (Hlen : length l1 = length r1).

Lemma at_row_parts :
  NoDup (l1 ++ p :: l2) /\ (p ∉ l1) /\ (p ∉ l2) /\ dt_heap t !! p = Some (row_entry r) /\
  Forall2 (fun p r => dt_heap t !! p = Some (row_entry r)) l1 r1 /\
  Forall2 (fun p r => dt_heap t !! p = Some (row_entry r)) l2 r2.
Proof using Hr El Hlen.
  pose proof (tr_nodup _ _ Hr) as Hnd. pose proof (tr_rows _ _ Hr) as Hrows. rewrite El in *.
  apply Forall2_app_inv in Hrows as [H1 H2]; [| done]. inversion H2; subst.
  pose proof Hnd as (_ & Hd & [Hp _]%NoDup_cons)%NoDup_app. split_and!; try done.
  intros Hin. apply (Hd p Hin). by left.
Qed.

Lemma xdp2_dtable_del_repr : table_repr (xdp2_dtable_del t p) (r1 ++ r2).
Proof using Hr El Hlen.
  destruct at_row_parts as (Hnd & Hp1 & Hp2 & Hp & H1 & H2). unfold xdp2_dtable_del.
  rewrite El, list_remove_split by done.
  constructor; cbn [dt_entries_lookup dt_entries dt_heap dt_key_len dt_targ_len dt_default_target].
  - rewrite <- Permutation_middle in Hnd. by apply NoDup_cons in Hnd as [_ ?].
  - unfold list_remove. rewrite (tr_perm _ _ Hr), El.
    change (filter _ (l1 ++ p :: l2)) with (list_remove p (l1 ++ p :: l2)).
    by rewrite list_remove_split.
  - apply Forall2_app; (eapply Forall2_impl_in; [eassumption |]); intros q r' Hq E;
      (rewrite lookup_delete_ne; [done |]); intros ->; done.
  - intros q [Hne Hq]%lookup_delete_is_Some. apply (tr_dom _ _ Hr) in Hq. rewrite El in Hq. set_solver.
  - pose proof (tr_targ _ _ Hr) as Ht. apply Forall_app in Ht as [? [_ ?]%Forall_cons_1].
    by apply Forall_app.
  - apply (tr_lens _ _ Hr).
Qed.

Lemma xdp2_dtable_change_repr target targ :
  bytes_at target targ -> Z.of_nat (length targ) = dt_targ_len t ->
  exists t', xdp2_dtable_change t p target = Done t' /\ same_shape t t' /\
    table_repr t' (r1 ++ Row (row_ident r) (row_key r) targ :: r2).
Proof using Hr El Hlen.
  intros Hat Htl. destruct at_row_parts as (Hnd & Hp1 & Hp2 & Hp & H1 & H2).
  unfold xdp2_dtable_change. rewrite (ld_bytes_key target targ) by done. eexists.
  split; [done |]. split; [by repeat split |]. unfold dt_set_heap.
  constructor; cbn [dt_entries_lookup dt_entries dt_heap dt_key_len dt_targ_len dt_default_target].
  - apply (tr_nodup _ _ Hr).
  - apply (tr_perm _ _ Hr).
  - rewrite El. apply Forall2_app; [| constructor].
    + eapply Forall2_impl_in; [exact H1 |]. intros q r' Hq E.
      rewrite lookup_alter_ne; [done |]. by intros ->.
    + by rewrite lookup_alter_eq, Hp.
    + eapply Forall2_impl_in; [exact H2 |]. intros q r' Hq E.
      rewrite lookup_alter_ne; [done |]. by intros ->.
  - intros q Hq%lookup_alter_is_Some. by apply (tr_dom _ _ Hr).
  - pose proof (tr_targ _ _ Hr) as Ht. apply Forall_app in Ht as [? [_ ?]%Forall_cons_1].
    apply Forall_app. split; [done |]. by constructor.
  - apply (tr_lens _ _ Hr).
Qed.
End at_row.

(** Every entry pointer of a table is some row. *)
Lemma repr_pointer t rows p :
  table_repr t rows -> p ∈ dt_entries_lookup t ->
  exists l1 l2 r1 r r2, dt_entries_lookup t = l1 ++ p :: l2 /\ rows = r1 ++ r :: r2 /\
    length l1 = length r1 /\ dt_heap t !! p = Some (row_entry r).
Proof.
  intros Hr (l1 & l2 & E)%list_elem_of_split. pose proof (tr_rows _ _ Hr) as H. rewrite E in H.
  apply Forall2_app_inv_l in H as (r1 & r2' & H1 & H2 & ->).
  inversion H2 as [| ? r ? r2 Hp H2']; subst. exists l1, l2, r1, r, r2.
  split_and!; try done. by eapply Forall2_length.
Qed.

Lemma find_id_loop_total h ident l :
  (forall p, p ∈ l -> is_Some (h !! p)) ->
  exists r, find_id_loop (K := K) h ident l = Done r /\ forall p, r = Some p -> p ∈ l.
Proof.
  induction l as [| p l IH]; intros Hh; cbn [find_id_loop]; [by exists None |].
  destruct (Hh p ltac:(by left)) as [e ->]. orun.
  destruct (u32 ident <? u32 (de_ident e)); [by exists None |].
  destruct (u32 (de_ident e) =? u32 ident).
  { exists (Some p). split; [done |]. intros q [= <-]. by left. }
  destruct IH as (r & -> & Hr); [intros q Hq; apply Hh; by right |].
  exists r. split; [done |]. intros q E. right. by apply Hr.
Qed.

Lemma find_ent_by_id_total t rows ident :
  table_repr t rows ->
  exists r, xdp2_dtable_find_ent_by_id t ident = Done r /\
    forall p, r = Some p -> p ∈ dt_entries_lookup t.
Proof.
  intros Hr. destruct (find_id_loop_total (dt_heap t) ident (dt_entries t)) as (r & E & Hp).
  { intros p Hp. rewrite (tr_perm _ _ Hr) in Hp.
    destruct (repr_entry _ _ _ Hr Hp) as (? & _ & ->). eauto. }
  exists r. split; [done |]. intros p Ep. rewrite <- (tr_perm _ _ Hr). by apply Hp.
Qed.
End table.

Arguments row : clear implicits.
#[export] Hint Resolve same_shape_refl same_shape_del same_shape_set_key : xdp2.

(** ** Rows ordered by a rank *)

Section rank.
Context {A : Type} (rank : A -> Z).
Local Abbreviation ord := (fun a b => rank a <= rank b).

Lemma sorted_after x r2 :
  StronglySorted ord r2 -> (forall r, head r2 = Some r -> x < rank r) ->
  Forall (fun r => x < rank r) r2.
Proof.
  intros Hs Hhd. destruct Hs as [| r r2 Hs Hall]; [constructor |].
  specialize (Hhd r eq_refl). constructor; [done |].
  eapply Forall_impl; [exact Hall |]. simpl. lia.
Qed.

Lemma sorted_insert r1 r r2 :
  StronglySorted ord (r1 ++ r2) -> Forall (fun a => rank a <= rank r) r1 ->
  Forall (fun b => rank r <= rank b) r2 -> StronglySorted ord (r1 ++ r :: r2).
Proof.
  intros (Hc & H1 & H2)%StronglySorted_app Ha Hb. apply StronglySorted_app. split_and!; try done.
  - intros x y Hx Hy. apply elem_of_cons in Hy as [-> | Hy]; [| by apply Hc].
    by eapply Forall_forall in Ha.
  - by constructor.
Qed.

Lemma sorted_delete r1 r r2 : StronglySorted ord (r1 ++ r :: r2) -> StronglySorted ord (r1 ++ r2).
Proof.
  intros (Hc & H1 & H2)%StronglySorted_app. apply StronglySorted_app. split_and!; [| done |].
  - intros x y Hx Hy. apply Hc; [done |]. by right.
  - by apply StronglySorted_inv in H2 as [? _].
Qed.

Lemma sorted_replace r1 r r' r2 :
  StronglySorted ord (r1 ++ r :: r2) -> rank r' = rank r -> StronglySorted ord (r1 ++ r' :: r2).
Proof.
  intros Hs E. pose proof Hs as (Hc & H1 & [H2 Hr]%StronglySorted_inv)%StronglySorted_app.
  apply sorted_insert; [by eapply sorted_delete | |].
  - apply Forall_forall. intros x Hx. rewrite E. apply Hc; [done | by left].
  - by rewrite E.
Qed.
End rank.
