(* ===== verification/DtableKeyed.v ===== *)
(** * Tables as finite maps

    Plain and longest prefix tables find an entry by a key that determines its
    place in the lookup order. For such tables the rows are a finite map from
    keys to identifiers and targets, and the shared operations are operations
    of that map. *)

From stdpp Require Import base list gmap numbers sorting.
From S2P Require Import Prelude FlagFields Bytes Dtable DtableSpec.

Section keyed.
(** Key structures [K] hold a key of type [B], which determines the rank. *)
Context {K B : Type} `{Countable B} (kid : K -> B) (rank : B -> Z) (kok : Z -> K -> Prop).
Implicit Types (t : xdp2_dtable_table K) (rows : list (row K)) (m : gmap B (Z * list Z)).

Definition rkey (r : row K) : B := kid (row_key r).
Definition rrank (r : row K) : Z := rank (rkey r).

(** Well-formed keys, in the order of their ranks, all different. *)
Record keyed_rows (len : Z) rows : Prop := {
  kr_keys : Forall (fun r => kok len (row_key r)) rows;
  kr_sorted : StronglySorted (fun a b => rrank a <= rrank b) rows;
  kr_nodup : NoDup (rkey <$> rows) }.

Definition kv (r : row K) : B * (Z * list Z) := (rkey r, (row_ident r, row_targ r)).
Definition rows_map rows : gmap B (Z * list Z) := list_to_map (kv <$> rows).

(** The abstraction: a table and the map it represents. *)
Definition keyed_repr t m : Prop :=
  exists rows, table_repr t rows /\ keyed_rows (dt_key_len t) rows /\ rows_map rows = m.

(** ** Rows and the map *)

Lemma fst_kv rows : (kv <$> rows).*1 = rkey <$> rows.
Proof. by rewrite <- list_fmap_compose. Qed.

Lemma rows_map_middle r1 r r2 :
  NoDup (rkey <$> r1 ++ r :: r2) ->
  rows_map (r1 ++ r :: r2) = <[rkey r := (row_ident r, row_targ r)]> (rows_map (r1 ++ r2)) /\
  rows_map (r1 ++ r2) !! rkey r = None.
Proof.
  intros Hnd. assert (r1 ++ r :: r2 ≡ₚ r :: r1 ++ r2) as Hp by (by rewrite Permutation_middle).
  split.
  - unfold rows_map. rewrite (list_to_map_proper (kv <$> r1 ++ r :: r2) (kv <$> r :: r1 ++ r2)); [done | |].
    + by rewrite fst_kv.
    + by rewrite Hp.
  - rewrite Hp in Hnd. apply NoDup_cons in Hnd as [Hn _].
    apply not_elem_of_list_to_map_1. by rewrite fst_kv.
Qed.

Lemma rows_map_none rows k : k ∉ rkey <$> rows -> rows_map rows !! k = None.
Proof. intros Hn. apply not_elem_of_list_to_map_1. by rewrite fst_kv. Qed.

Lemma rows_map_row rows r : NoDup (rkey <$> rows) -> r ∈ rows ->
  rows_map rows !! rkey r = Some (row_ident r, row_targ r).
Proof.
  intros Hnd Hr. apply elem_of_list_to_map_1; [by rewrite fst_kv |].
  apply list_elem_of_fmap. by exists r.
Qed.

Lemma rows_map_inv rows k id targ : rows_map rows !! k = Some (id, targ) ->
  exists r, r ∈ rows /\ rkey r = k /\ row_ident r = id /\ row_targ r = targ.
Proof.
  intros E%elem_of_list_to_map_2. apply list_elem_of_fmap in E as (r & [= -> -> ->] & Hr).
  by exists r.
Qed.

Lemma rows_map_size rows : NoDup (rkey <$> rows) -> size (rows_map rows) = length rows.
Proof.
  intros Hnd. unfold rows_map. rewrite map_size_list_to_map by (by rewrite fst_kv).
  apply length_fmap.
Qed.

(** ** Updates of the rows *)

Lemma keyed_rows_insert len r1 r r2 :
  keyed_rows len (r1 ++ r2) -> kok len (row_key r) ->
  Forall (fun a => rrank a <= rrank r) r1 -> Forall (fun b => rrank r < rrank b) r2 ->
  rkey r ∉ rkey <$> r1 ++ r2 -> keyed_rows len (r1 ++ r :: r2).
Proof.
  intros [Hk Hs Hn] Hkr H1 H2 Hnew. constructor.
  - apply Forall_app in Hk as [? ?]. apply Forall_app. split; [done |]. by constructor.
  - apply sorted_insert; [done | done |]. eapply Forall_impl; [exact H2 |]. simpl. lia.
  - rewrite fmap_app, fmap_cons, <- Permutation_middle, <- fmap_app. by apply NoDup_cons.
Qed.

Lemma keyed_rows_delete len r1 r r2 : keyed_rows len (r1 ++ r :: r2) -> keyed_rows len (r1 ++ r2).
Proof.
  intros [Hk Hs Hn]. constructor.
  - apply Forall_app in Hk as [? [_ ?]%Forall_cons_1]. by apply Forall_app.
  - by eapply sorted_delete.
  - rewrite fmap_app, fmap_cons, <- Permutation_middle, <- fmap_app in Hn.
    by apply NoDup_cons in Hn as [_ ?].
Qed.

Lemma keyed_rows_change len r1 r r2 targ :
  keyed_rows len (r1 ++ r :: r2) ->
  keyed_rows len (r1 ++ Row (row_ident r) (row_key r) targ :: r2).
Proof.
  intros [Hk Hs Hn]. constructor.
  - apply Forall_app in Hk as [? [? ?]%Forall_cons_1]. apply Forall_app. split; [done |]. by constructor.
  - by eapply sorted_replace.
  - by rewrite fmap_app, fmap_cons in Hn |- *.
Qed.

(** ** The search *)

(** What a search for [k] finds: its row, or the place where it belongs. *)
Inductive keyed_find t rows (k : B) : option positive * option positive -> Prop :=
| kf_miss l1 l2 r1 r2 : dt_entries_lookup t = l1 ++ l2 -> rows = r1 ++ r2 ->
    length l1 = length r1 -> Forall (fun r => rrank r <= rank k) r1 ->
    Forall (fun r => rank k < rrank r) r2 -> k ∉ rkey <$> rows ->
    keyed_find t rows k (None, last l1)
| kf_hit l1 p l2 r1 r r2 prev : dt_entries_lookup t = l1 ++ p :: l2 -> rows = r1 ++ r :: r2 ->
    length l1 = length r1 -> rkey r = k -> keyed_find t rows k (Some p, prev).

Lemma keyed_find_spec t rows k stop hit hitb :
  table_repr t rows -> keyed_rows (dt_key_len t) rows ->
  Forall (fun r => stop (row_key r) = (rank k <? rrank r)) rows ->
  Forall (fun r => hit (row_key r) = Done (hitb (row_key r))) rows ->
  Forall (fun r => hitb (row_key r) = true <-> rkey r = k) rows ->
  exists res, find_loop (dt_heap t) stop hit None (dt_entries_lookup t) = Done res /\
    keyed_find t rows k res.
Proof.
  intros Ht [_ Hs _] Hstop Hhit Hhitb.
  destruct (find_loop_spec (dt_heap t) stop hit hitb _ rows (tr_rows _ _ Ht) Hhit None)
    as (res & E & Hf).
  exists res. split; [done |]. clear E Hhit. rewrite Forall_forall in Hstop, Hhitb.
  inversion Hf as [l1 l2 r1 r2 Hlen Hsk Hhd El Er Eres | l1 p l2 r1 r r2 Hlen Hsk Hst Hht El Er Eres];
    symmetry in Er; subst rows.
  - assert (Forall (fun r => rrank r <= rank k) r1) as H1.
    { apply Forall_forall. intros r Hr. rewrite Forall_forall in Hsk. destruct (Hsk r Hr) as [Hst _].
      rewrite Hstop in Hst by (apply elem_of_app; by left). by apply Z.ltb_ge in Hst. }
    assert (Forall (fun r => rank k < rrank r) r2) as H2.
    { apply (sorted_after rrank).
      - by apply StronglySorted_app in Hs as (_ & _ & ?).
      - intros r Hr. pose proof (Hhd r Hr) as Hst. rewrite Hstop in Hst; [by apply Z.ltb_lt |].
        apply elem_of_app. right. by apply head_Some_elem_of. }
    replace (match last l1 with Some q => Some q | None => None end) with (last l1)
      by (by destruct (last l1)).
    eapply (kf_miss _ _ _ l1 l2 r1 r2); try done. intros (r & Ek & Hin)%list_elem_of_fmap.
    pose proof (proj2 (Hhitb r Hin) (eq_sym Ek)) as Hb.
    apply elem_of_app in Hin as [Hin | Hin].
    + rewrite Forall_forall in Hsk. destruct (Hsk r Hin) as [_ ?]. congruence.
    + rewrite Forall_forall in H2. specialize (H2 r Hin). unfold rrank in H2. rewrite <- Ek in H2. lia.
  - eapply (kf_hit _ _ _ l1 p l2 r1 r r2); try done.
    apply Hhitb; [| done]. apply elem_of_app. right. by left.
Qed.

(** ** Operations on the map *)

(** When an insertion may be refused, and which identifier it returns. *)
Definition map_refused (malloc_ok : bool) (ident : Z) m : Prop :=
  malloc_ok = false \/ (ident <> 0 /\ exists k targ, m !! k = Some (ident, targ)) \/
  (ident = 0 /\ 2 ^ 31 <= BASE_IDENT + Z.of_nat (size m)).
Definition map_ident_ok (ident ret : Z) m : Prop :=
  (ident <> 0 -> ret = ident) /\
  (ident = 0 -> BASE_IDENT + Z.of_nat (size m) < 2 ^ 31 -> BASE_IDENT <= ret < 2 ^ 31).

Lemma map_refused_rows malloc_ok ident rows :
  NoDup (rkey <$> rows) -> add_refused malloc_ok ident rows ->
  map_refused malloc_ok ident (rows_map rows).
Proof.
  intros Hnd [Hm | [(Hi & r & Hr & E) | [Hi Hm]]]; [by left | right; left | right; right].
  - split; [done |]. exists (rkey r), (row_targ r). rewrite <- E. by apply rows_map_row.
  - by rewrite rows_map_size.
Qed.

Section found.
Context t rows (Ht : table_repr t rows) (Hrows : keyed_rows (dt_key_len t) rows).

Lemma keyed_add k prev malloc_ok ident target targ :
  keyed_find t rows k (None, prev) -> bytes_at target targ ->
  Z.of_nat (length targ) = dt_targ_len t ->
  rows_map rows !! k = None /\
  exists res t', xdp2_dtable_add malloc_ok t prev ident target = Done (res, t') /\
    same_shape t t' /\
    match res with
    | None => t' = t /\ map_refused malloc_ok ident (rows_map rows)
    | Some (p, id) => map_ident_ok ident id (rows_map rows) /\
        forall x, kid x = k -> kok (dt_key_len t) x ->
          keyed_repr (set_entry_key p x t') (<[k := (id, targ)]> (rows_map rows))
    end.
Proof using Ht Hrows.
  intros Hf Hat Htl. inversion Hf as [l1 l2 r1 r2 El Er Hlen H1 H2 Hn |]; subst.
  split; [by apply rows_map_none |].
  destruct (xdp2_dtable_add_repr malloc_ok t _ r1 r2 l1 l2 ident target targ Ht eq_refl El Hlen Hat Htl)
    as ([[p id] |] & t' & -> & Hsh & Hadd); do 2 eexists; (split; [done |]); (split; [done |]).
  - destruct Hadd as [Hid Hadd].
    split; [by unfold map_ident_ok; rewrite rows_map_size by apply Hrows |].
    intros x <- Hx. eexists. split; [apply Hadd |]. destruct Hsh as (Ek & _).
    assert (keyed_rows (dt_key_len t) (r1 ++ Row id x targ :: r2)) as Hp' by (by apply keyed_rows_insert).
    split; [cbn; by rewrite Ek |].
    by destruct (rows_map_middle _ _ _ (kr_nodup _ _ Hp')) as [-> _].
  - destruct Hadd as [-> Href]. split; [done |]. apply map_refused_rows; [apply Hrows | done].
Qed.

Lemma keyed_hit k p prev :
  keyed_find t rows k (Some p, prev) ->
  exists id old e, rows_map rows !! k = Some (id, old) /\ dt_heap t !! p = Some e /\ de_targ e = old /\
    keyed_repr (xdp2_dtable_del t p) (delete k (rows_map rows)) /\
    forall target targ, bytes_at target targ -> Z.of_nat (length targ) = dt_targ_len t ->
      exists t', xdp2_dtable_change t p target = Done t' /\ same_shape t t' /\
        keyed_repr t' (<[k := (id, targ)]> (rows_map rows)).
Proof using Ht Hrows.
  intros Hf. inversion Hf as [| l1 q l2 r1 r r2 prev' El Er Hlen Ek]; subst.
  destruct (at_row_parts _ _ _ _ _ _ _ Ht El Hlen) as (_ & _ & _ & Hp & _).
  destruct (rows_map_middle _ _ _ (kr_nodup _ _ Hrows)) as [Em Hnone].
  exists (row_ident r), (row_targ r), (row_entry r). rewrite Em, lookup_insert_eq.
  split_and!; [done | done | done | |].
  - rewrite delete_insert_id by done. exists (r1 ++ r2).
    split_and!; [by eapply xdp2_dtable_del_repr | by eapply keyed_rows_delete | done].
  - intros target targ Hat Htl.
    destruct (xdp2_dtable_change_repr t l1 p l2 r1 r r2 Ht El Hlen target targ Hat Htl)
      as (t' & -> & Hsh & Hch).
    exists t'. split_and!; [done | done |]. rewrite insert_insert_eq.
    eexists. split; [exact Hch |]. destruct Hsh as (Ekl & _). rewrite Ekl.
    pose proof (keyed_rows_change _ _ _ _ targ Hrows) as Hp'. split; [done |].
    by destruct (rows_map_middle _ _ _ (kr_nodup _ _ Hp')) as [-> _].
Qed.
End found.
End keyed.

(** A table as [xdp2_dtable_create] makes it. *)
Definition empty_table {K} (key_len targ_len : Z) (dflt : list Z) (ident : Z) : xdp2_dtable_table K :=
  DtableTable key_len targ_len dflt ident [] [] ∅.

Lemma empty_table_repr {K} key_len targ_len dflt ident :
  0 <= key_len -> Z.of_nat (length dflt) = targ_len ->
  table_repr (K := K) (empty_table key_len targ_len dflt ident) [].
Proof.
  intros Hk Hl. constructor; cbn [dt_entries_lookup dt_entries dt_heap dt_key_len dt_targ_len
    dt_default_target empty_table]; try constructor; try done.
  intros p [x Hx]. by rewrite lookup_empty in Hx.
Qed.

(** ** Sequences of operations on a keyed table *)

Section trace.
Context {B : Type} `{Countable B}.
Implicit Type m : gmap B (Z * list Z).

(** The calls of the API: allocation may fail in an addition. *)
Inductive table_op :=
| OpAdd (malloc_ok : bool) (ident : Z) (k : B) (targ : list Z)
| OpDel (k : B)
| OpChange (k : B) (targ : list Z).

Inductive table_ret :=
| RetCode (ret : Z)
| RetVoid.

(** The specification: the same calls on a map. [code] is what a successful
    addition returns for the identifier of the new entry. *)
Inductive map_step (code : Z -> Z) : gmap B (Z * list Z) -> table_op -> table_ret ->
    gmap B (Z * list Z) -> Prop :=
| ms_add_exists m malloc_ok ident k targ : is_Some (m !! k) ->
    map_step code m (OpAdd malloc_ok ident k targ) (RetCode (- EALREADY)) m
| ms_add_refused m malloc_ok ident k targ : m !! k = None -> map_refused malloc_ok ident m ->
    map_step code m (OpAdd malloc_ok ident k targ) (RetCode (- ENOMEM)) m
| ms_add m malloc_ok ident k targ id : m !! k = None -> map_ident_ok ident id m ->
    map_step code m (OpAdd malloc_ok ident k targ) (RetCode (code id)) (<[k := (id, targ)]> m)
| ms_del m k : map_step code m (OpDel k) RetVoid (delete k m)
| ms_change_missing m k targ : m !! k = None ->
    map_step code m (OpChange k targ) (RetCode (- ENOENT)) m
| ms_change m k targ id old : m !! k = Some (id, old) ->
    map_step code m (OpChange k targ) (RetCode 0) (<[k := (id, targ)]> m).

Inductive map_steps (code : Z -> Z) : gmap B (Z * list Z) -> list table_op -> list table_ret ->
    gmap B (Z * list Z) -> Prop :=
| ms_nil m : map_steps code m [] [] m
| ms_cons m op r m1 ops rs m2 : map_step code m op r m1 -> map_steps code m1 ops rs m2 ->
    map_steps code m (op :: ops) (r :: rs) m2.

Context {K : Type} (exec : xdp2_dtable_table K -> table_op -> outcome (table_ret * xdp2_dtable_table K)).

Fixpoint exec_ops (t : xdp2_dtable_table K) (ops : list table_op)
    : outcome (list table_ret * xdp2_dtable_table K) :=
  match ops with
  | [] => mret ([], t)
  | op :: ops' =>
      '(r, t) ← exec t op;
      '(rs, t) ← exec_ops t ops';
      mret (r :: rs, t)
  end.

Context (code : Z -> Z) (repr : xdp2_dtable_table K -> gmap B (Z * list Z) -> Prop).
Context (op_ok : Z -> Z -> table_op -> Prop).

(** Step by step simulation gives simulation of sequences. *)
Lemma exec_ops_refines :
  (forall t m op, repr t m -> op_ok (dt_key_len t) (dt_targ_len t) op ->
     exists r t' m', exec t op = Done (r, t') /\ same_shape t t' /\
       map_step code m op r m' /\ repr t' m') ->
  forall ops t m, repr t m -> Forall (op_ok (dt_key_len t) (dt_targ_len t)) ops ->
    exists rs t' m', exec_ops t ops = Done (rs, t') /\ same_shape t t' /\
      map_steps code m ops rs m' /\ repr t' m'.
Proof.
  intros Hstep. induction ops as [| op ops IH]; intros t m Hr Hops; cbn [exec_ops].
  { do 3 eexists. split_and!; [done | apply same_shape_refl | constructor | done]. }
  apply Forall_cons_1 in Hops as [Hop Hops].
  destruct (Hstep t m op Hr Hop) as (r & t1 & m1 & -> & Hsh & Hst & Hr1). orun.
  pose proof Hsh as (Ek & Et & _).
  destruct (IH t1 m1 Hr1) as (rs & t2 & m2 & -> & Hsh2 & Hsts & Hr2); [by rewrite Ek, Et |].
  do 3 eexists. split_and!; [done | | by econstructor | done].
  unfold same_shape in *. intuition congruence.
Qed.
End trace.

Arguments table_op : clear implicits.
