(* ===== verification/DtablePlain.v ===== *)
(** * Plain tables implement a finite map

    A plain table represents a map from keys to identifiers and targets. Every
    sequence of calls of the plain table API is simulated on the map. *)

From stdpp Require Import base list gmap numbers sorting.
From S2P Require Import Prelude FlagFields Bytes Siphash SiphashSpec Switch Dtable DtableSpec.
From S2P Require Import DtableKeyed.
Import Plain.

Local Abbreviation ptable := (xdp2_dtable_table xdp2_plain_entry_key).

Definition key_ok (len : Z) (k : list Z) : Prop := Z.of_nat (length k) = len /\ Forall is_u8 k.
Definition phash (k : list Z) : Z := siphash_ref dtable_siphash_key k.
Definition plain_kok (len : Z) (x : xdp2_plain_entry_key) : Prop :=
  key_ok len (pk_key x) /\ pk_hash x = phash (pk_key x).

(** The table represents the map [m]; entries are chained in hash order. *)
Definition plain_repr (t : ptable) (m : gmap (list Z) (Z * list Z)) : Prop :=
  keyed_repr pk_key phash plain_kok t m.

Section ops.
Context (is_aligned : ptr -> bool).
Context (t : ptable) (rows : list (row xdp2_plain_entry_key)) (Ht : table_repr t rows).
Context (Hrows : keyed_rows pk_key phash plain_kok (dt_key_len t) rows).
Context (key : ptr) (k : list Z) (Hk : key_ok (dt_key_len t) k) (Hkat : bytes_at key k).

Lemma key_hash_eq : key_hash is_aligned t key = Done (phash k).
Proof using Hk Hkat.
  destruct Hk as [Hl Hu]. unfold key_hash. rewrite <- Hl. by apply siphash_ref_ok.
Qed.

Definition hitb (x : xdp2_plain_entry_key) : bool :=
  (pk_hash x =? phash k) && bool_decide (pk_key x = k).

Lemma find_plain_spec :
  exists res, find_loop (dt_heap t) (fun x => phash k <? pk_hash x)
                (plain_hit t key (phash k)) None (dt_entries_lookup t) = Done res /\
    keyed_find pk_key phash t rows k res.
Proof using Ht Hrows Hk Hkat.
  apply (keyed_find_spec pk_key phash plain_kok t rows k _ _ hitb); [exact Ht | exact Hrows | ..];
    (eapply Forall_impl; [apply (kr_keys _ _ _ _ _ Hrows) |]); intros r [[Hl Hu] Hh].
  - unfold rrank, rkey. by rewrite Hh.
  - unfold plain_hit, hitb. destruct (_ =? _); [| done]. rewrite <- Hl. cbn [andb].
    apply xdp2_compare_equal_spec; [apply bytes_at_self | done |]. destruct Hk. lia.
  - unfold hitb, rkey. rewrite andb_true_iff, bool_decide_eq_true. split; [by intros [_ ?] |].
    intros <-. by rewrite Hh, Z.eqb_refl.
Qed.

Lemma __find_plain_eq :
  exists res, __xdp2_dtable_find_plain is_aligned t key = Done (res, phash k) /\
    keyed_find pk_key phash t rows k res.
Proof using Ht Hrows Hk Hkat.
  destruct find_plain_spec as (res & E & Hf). exists res. split; [| done].
  unfold __xdp2_dtable_find_plain. rewrite key_hash_eq. orun. by rewrite E.
Qed.
End ops.

(** ** Simulation *)

Section simulation.
Context (is_aligned : ptr -> bool) (t : ptable) (m : gmap (list Z) (Z * list Z)).
Context (Hr : plain_repr t m).

Lemma sim_lookup key k :
  key_ok (dt_key_len t) k -> bytes_at key k ->
  xdp2_dtable_lookup_plain is_aligned t key = Done (default (dt_default_target t) (snd <$> m !! k)).
Proof using Hr.
  intros Hk Hat. destruct Hr as (rows & Ht & Hp & <-). unfold xdp2_dtable_lookup_plain.
  rewrite (key_hash_eq is_aligned t key k Hk Hat). orun.
  destruct (find_plain_spec t rows Ht Hp key k Hk Hat) as ([[p |] prev] & -> & Hf).
  - destruct (keyed_hit _ _ _ t rows Ht Hp k p prev Hf) as (id & old & e & -> & Ee & <- & _).
    unfold lookup_result. by rewrite Ee.
  - inversion Hf. by rewrite rows_map_none.
Qed.

Lemma sim_add malloc_ok ident k targ :
  key_ok (dt_key_len t) k -> Z.of_nat (length targ) = dt_targ_len t ->
  exists ret t' m',
    xdp2_dtable_add_plain is_aligned malloc_ok t ident (Ptr k 0) (Ptr targ 0) = Done (ret, t') /\
    same_shape t t' /\ map_step id m (OpAdd malloc_ok ident k targ) (RetCode ret) m' /\
    plain_repr t' m'.
Proof using Hr.
  intros Hk Htl. destruct Hr as (rows & Ht & Hp & <-). unfold xdp2_dtable_add_plain.
  destruct (__find_plain_eq is_aligned t rows Ht Hp (Ptr k 0) k Hk (bytes_at_self k))
    as ([[p |] prev] & -> & Hf); orun; cbn [is_null negb].
  - destruct (keyed_hit _ _ _ t rows Ht Hp k p prev Hf) as (id & old & e & Em & _).
    do 3 eexists. split_and!; [done | apply same_shape_refl | by apply ms_add_exists |]. by exists rows.
  - destruct (keyed_add _ _ _ t rows Ht Hp k prev malloc_ok ident (Ptr targ 0) targ Hf
                (bytes_at_self targ) Htl) as (Hn & [[p id'] |] & t' & -> & Hsh & Hadd); orun.
    + destruct Hadd as [Hid Hadd]. pose proof Hsh as (Ek & _).
      rewrite (ld_bytes_key (Ptr k 0) k) by (apply bytes_at_self || destruct Hk; congruence).
      do 3 eexists. split_and!; [done | by auto with xdp2 | by apply (ms_add id) |]. by apply Hadd.
    + destruct Hadd as [-> Href].
      do 3 eexists. split_and!; [done | done | by apply ms_add_refused |]. by exists rows.
Qed.

Lemma sim_del k :
  key_ok (dt_key_len t) k ->
  exists t', xdp2_dtable_del_plain is_aligned t (Ptr k 0) = Done t' /\ same_shape t t' /\
    plain_repr t' (delete k m).
Proof using Hr.
  intros Hk. destruct Hr as (rows & Ht & Hp & <-). unfold xdp2_dtable_del_plain.
  destruct (__find_plain_eq is_aligned t rows Ht Hp (Ptr k 0) k Hk (bytes_at_self k))
    as ([[p |] prev] & -> & Hf); orun.
  - destruct (keyed_hit _ _ _ t rows Ht Hp k p prev Hf) as (id & old & e & _ & _ & _ & Hdel & _).
    eexists. split_and!; [done | apply same_shape_del | done].
  - inversion Hf. eexists. split_and!; [done | apply same_shape_refl |]. subst.
    eexists. rewrite delete_id by (by apply rows_map_none). by split_and!.
Qed.

Lemma sim_change k targ :
  key_ok (dt_key_len t) k -> Z.of_nat (length targ) = dt_targ_len t ->
  exists ret t' m',
    xdp2_dtable_change_plain is_aligned t (Ptr k 0) (Ptr targ 0) = Done (ret, t') /\
    same_shape t t' /\ map_step id m (OpChange k targ) (RetCode ret) m' /\ plain_repr t' m'.
Proof using Hr.
  intros Hk Htl. destruct Hr as (rows & Ht & Hp & <-). unfold xdp2_dtable_change_plain.
  destruct (__find_plain_eq is_aligned t rows Ht Hp (Ptr k 0) k Hk (bytes_at_self k))
    as ([[p |] prev] & -> & Hf); orun.
  - destruct (keyed_hit _ _ _ t rows Ht Hp k p prev Hf) as (id & old & e & Em & _ & _ & _ & Hch).
    destruct (Hch (Ptr targ 0) targ (bytes_at_self targ) Htl) as (t' & -> & Hsh & Hr'). orun.
    do 3 eexists. split_and!; [done | done | by eapply ms_change | done].
  - inversion Hf. subst. do 3 eexists.
    split_and!; [done | apply same_shape_refl | by apply ms_change_missing, rows_map_none |].
    by eexists.
Qed.
End simulation.

(** ** Sequences of operations *)

(** An API call with its arguments in buffers of their own. *)
Definition exec_plain (is_aligned : ptr -> bool) (t : ptable) (op : table_op (list Z))
    : outcome (table_ret * ptable) :=
  match op with
  | OpAdd malloc_ok ident k targ =>
      '(ret, t) ← xdp2_dtable_add_plain is_aligned malloc_ok t ident (Ptr k 0) (Ptr targ 0);
      mret (RetCode ret, t)
  | OpDel k => t ← xdp2_dtable_del_plain is_aligned t (Ptr k 0); mret (RetVoid, t)
  | OpChange k targ =>
      '(ret, t) ← xdp2_dtable_change_plain is_aligned t (Ptr k 0) (Ptr targ 0);
      mret (RetCode ret, t)
  end.

(** Arguments of the sizes the table was created with. *)
Definition plain_op_ok (key_len targ_len : Z) (op : table_op (list Z)) : Prop :=
  match op with
  | OpAdd _ _ k targ | OpChange k targ => key_ok key_len k /\ Z.of_nat (length targ) = targ_len
  | OpDel k => key_ok key_len k
  end.

Lemma exec_plain_refines is_aligned t m op :
  plain_repr t m -> plain_op_ok (dt_key_len t) (dt_targ_len t) op ->
  exists r t' m', exec_plain is_aligned t op = Done (r, t') /\ same_shape t t' /\
    map_step id m op r m' /\ plain_repr t' m'.
Proof.
  intros Hr Hop. destruct op as [ok ident k targ | k | k targ]; cbn [plain_op_ok exec_plain] in *.
  - destruct Hop as [Hk Hl].
    destruct (sim_add is_aligned t m Hr ok ident k targ Hk Hl) as (ret & t' & m' & -> & ? & ? & ?).
    by do 3 eexists.
  - destruct (sim_del is_aligned t m Hr k Hop) as (t' & -> & ? & ?).
    do 3 eexists. split_and!; [done | done | constructor | done].
  - destruct Hop as [Hk Hl].
    destruct (sim_change is_aligned t m Hr k targ Hk Hl) as (ret & t' & m' & -> & ? & ? & ?).
    by do 3 eexists.
Qed.

(** C14: a plain table is a finite map. Any sequence of additions, deletions
    and changes on a table that represents a map runs to its end without a
    fault, returns what the same sequence on the map returns, and leaves a table
    that represents the resulting map, in which a lookup finds exactly the
    target of its key or else the default target; the hash order of the chain,
    the two lists the entries are linked into and the early exit of the searches
    are invisible. *)
Theorem plain_table_refines is_aligned ops t m :
  plain_repr t m -> Forall (plain_op_ok (dt_key_len t) (dt_targ_len t)) ops ->
  exists rs t' m', exec_ops (exec_plain is_aligned) t ops = Done (rs, t') /\
    map_steps id m ops rs m' /\ plain_repr t' m' /\
    forall key k, key_ok (dt_key_len t) k -> bytes_at key k ->
      xdp2_dtable_lookup_plain is_aligned t' key =
        Done (default (dt_default_target t) (snd <$> m' !! k)).
Proof.
  intros Hr Hops.
  destruct (exec_ops_refines (exec_plain is_aligned) id plain_repr plain_op_ok
              (exec_plain_refines is_aligned) ops t m Hr Hops) as (rs & t' & m' & E & Hsh & Hm & Hr').
  exists rs, t', m'. split_and!; [done | done | done |]. intros key k Hk Hat.
  destruct Hsh as (Ek & _ & <- & _). rewrite <- Ek in Hk. by apply sim_lookup.
Qed.

Definition sample_plain_ops : list (table_op (list Z)) :=
  [OpAdd true 0 [1; 2] [7]; OpAdd true 5 [1; 2] [8]; OpAdd false 0 [3; 4] [9];
   OpAdd true 6 [3; 4] [9]; OpChange [1; 2] [10]; OpDel [5; 6]].

Lemma empty_plain_repr key_len targ_len dflt ident :
  0 <= key_len -> Z.of_nat (length dflt) = targ_len ->
  plain_repr (empty_table key_len targ_len dflt ident) ∅.
Proof.
  intros Hk Hl. exists []. split_and!; [by apply empty_table_repr | | done].
  constructor; constructor.
Qed.

Lemma plain_table_refines_witness :
  exists rs t', exec_ops (exec_plain (fun _ => false)) (empty_table 2 1 [0] 1000000) sample_plain_ops
                  = Done (rs, t') /\
    rs = [RetCode 1000000; RetCode (- EALREADY); RetCode (- ENOMEM); RetCode 6; RetCode 0; RetVoid] /\
    exists m', plain_repr t' m' /\
      xdp2_dtable_lookup_plain (fun _ => false) t' (Ptr [1; 2] 0) =
        Done (default [0] (snd <$> m' !! [1; 2])).
Proof.
  destruct (plain_table_refines (fun _ => false) sample_plain_ops (empty_table 2 1 [0] 1000000) ∅)
    as (rs & t' & m' & E & Hm & Hr & Hl).
  - by apply empty_plain_repr.
  - repeat constructor; try done; discriminate.
  - exists rs, t'. split; [exact E |]. split; [vm_compute in E; by injection E as <- _ |].
    exists m'. split; [exact Hr |]. apply Hl; [by repeat constructor | apply bytes_at_self].
Defined.
