(* ===== verification/DtableLpm.v ===== *)
(** * Longest prefix match tables

    A longest prefix match table represents a map from (key, prefix length)
    pairs, and a lookup returns the target of a longest matching prefix. *)

From stdpp Require Import base list gmap numbers sorting.
From S2P Require Import Prelude FlagFields Bytes Switch Dtable DtableSpec DtableKeyed DtablePlain.
Import Lpm.

Local Abbreviation ltable := (xdp2_dtable_table xdp2_lpm_entry_key).

Definition lkid (x : xdp2_lpm_entry_key) : list Z * Z := (lk_key x, lk_prefix_len x).
(** Longer prefixes come first. *)
Definition lrank (b : list Z * Z) : Z := - b.2.
Definition prefix_ok (len : Z) (b : list Z * Z) : Prop := key_ok len b.1 /\ 0 <= b.2 <= 8 * len /\ b.2 < 2 ^ 34.
Definition lpm_kok (len : Z) (x : xdp2_lpm_entry_key) : Prop := prefix_ok len (lkid x).

Definition lpm_repr (t : ltable) (m : gmap (list Z * Z) (Z * list Z)) : Prop :=
  keyed_repr lkid lrank lpm_kok t m.

(** Entry [b] of a table matches the key [k]. *)
Definition lpm_matches (b : list Z * Z) (k : list Z) : Prop := prefix_eq (Z.to_nat b.2) b.1 k.

Section find.
Context (t : ltable) (rows : list (row xdp2_lpm_entry_key)) (Ht : table_repr t rows).
Context (Hrows : keyed_rows lkid lrank lpm_kok (dt_key_len t) rows).
Context (key : ptr) (k : list Z) (Hk : key_ok (dt_key_len t) k) (Hkat : bytes_at key k).

Lemma find_lpm_spec plen :
  exists res, __xdp2_dtable_find_lpm t key plen = Done res /\
    keyed_find lkid lrank t rows (k, plen) res.
Proof using Ht Hrows Hk Hkat.
  eapply (keyed_find_spec lkid lrank lpm_kok t rows (k, plen) _ _
           (fun x => bool_decide (lk_key x = k) && (lk_prefix_len x =? plen)));
    [exact Ht | exact Hrows | ..]; (eapply Forall_impl; [apply (kr_keys _ _ _ _ _ Hrows) |]);
    intros r [[Hl Hu] _]; cbn [lkid fst] in *.
  - unfold rrank, rkey, lrank. cbn [lkid snd].
    destruct (Z.ltb_spec (lk_prefix_len (row_key r)) plen),
      (Z.ltb_spec (- plen) (- lk_prefix_len (row_key r))); done || lia.
  - unfold lpm_same. rewrite <- Hl.
    rewrite (xdp2_compare_equal_spec _ key _ k);
      [done | apply bytes_at_self | done |]. destruct Hk. lia.
  - unfold rkey, lkid. rewrite andb_true_iff, bool_decide_eq_true, Z.eqb_eq.
    split; [by intros [<- <-] | by intros [= <- <-]].
Qed.

(** The search of a lookup never stops early. *)
Lemma lookup_lpm_rows :
  (forall r, r ∈ rows -> ~ lpm_matches (rkey lkid r) k) /\
    xdp2_dtable_lookup_lpm t key = Done (dt_default_target t) \/
  exists r, r ∈ rows /\ lpm_matches (rkey lkid r) k /\
    xdp2_dtable_lookup_lpm t key = Done (row_targ r) /\
    forall r', r' ∈ rows -> lpm_matches (rkey lkid r') k ->
      lk_prefix_len (row_key r') <= lk_prefix_len (row_key r).
Proof using Ht Hrows Hk Hkat.
  assert (exists mb : xdp2_lpm_entry_key -> bool,
    Forall (fun r => lpm_match key (row_key r) = Done (mb (row_key r))) rows /\
    forall r, r ∈ rows -> (mb (row_key r) = true <-> lpm_matches (rkey lkid r) k)) as (mb & Hm & Hmb).
  { exists (fun x => match lpm_match key x with Done b => b | _ => false end).
    pose proof (kr_keys _ _ _ _ _ Hrows) as Hkeys. rewrite Forall_forall in Hkeys.
    assert (forall r, r ∈ rows -> exists b, lpm_match key (row_key r) = Done b /\
              (b = true <-> lpm_matches (rkey lkid r) k)) as Hall.
    { intros r Hr. destruct (Hkeys r Hr) as [[Hl Hu] [Hp Hlt]]. cbn [lkid fst snd] in *.
      destruct Hk as [Hkl Hku].
      unfold lpm_match, lpm_matches, rkey. cbn [lkid fst snd].
      pose proof (xdp2_compare_prefix_spec (Ptr (lk_key (row_key r)) 0) key (lk_key (row_key r)) k
                    (Z.to_nat (lk_prefix_len (row_key r)))) as Hc.
      rewrite Z2Nat.id in Hc by lia. apply Hc; try done; [apply bytes_at_self | lia | lia]. }
    split.
    - apply Forall_forall. intros r Hr. by destruct (Hall r Hr) as (b & -> & _).
    - intros r Hr. by destruct (Hall r Hr) as (b & -> & ?). }
  unfold xdp2_dtable_lookup_lpm.
  destruct (find_loop_spec (dt_heap t) (fun _ => false) (lpm_match key) mb _ rows (tr_rows _ _ Ht) Hm None)
    as (res & -> & Hf). orun.
  inversion Hf as [l1 l2 r1 r2 Hlen Hsk Hhd El Er Eres | l1 p l2 r1 r r2 Hlen Hsk Hst Hht El Er Eres];
    subst res; symmetry in El, Er; rewrite <- ?Er.
  - left. split; [| done]. intros r Hr. rewrite <- Hmb by done.
    rewrite Er in Hr. apply elem_of_app in Hr as [Hr | Hr].
    + rewrite Forall_forall in Hsk. destruct (Hsk r Hr) as [_ ->]. done.
    + destruct r2 as [| r0 r2]; [by apply not_elem_of_nil in Hr |]. by specialize (Hhd r0 eq_refl).
  - right. assert (r ∈ rows) as Hr by (rewrite Er; apply elem_of_app; right; by left).
    exists r. split; [done |]. split; [by apply Hmb |]. split.
    + pose proof Ht as Ht'. rewrite Er in Ht'.
      destruct (at_row_parts _ _ _ _ _ _ _ Ht' El Hlen) as (_ & _ & _ & Hp & _).
      unfold lookup_result. by rewrite Hp.
    + intros r' Hr' Hm'. apply Hmb in Hm'; [| done].
      pose proof (kr_sorted _ _ _ _ _ Hrows) as Hs. rewrite Er in Hr', Hs.
      apply elem_of_app in Hr' as [Hr' | Hr'].
      { rewrite Forall_forall in Hsk. destruct (Hsk r' Hr') as [_ ?]. congruence. }
      apply elem_of_cons in Hr' as [-> | Hr']; [done |].
      apply StronglySorted_app in Hs as (_ & _ & [_ Hall]%StronglySorted_inv).
      rewrite Forall_forall in Hall. specialize (Hall r' Hr'). unfold rrank, rkey, lrank in Hall.
      simpl in Hall. lia.
Qed.
End find.

(** ** Simulation *)

(** An API call with its arguments in buffers of their own. *)
Definition exec_lpm (t : ltable) (op : table_op (list Z * Z)) : outcome (table_ret * ltable) :=
  match op with
  | OpAdd malloc_ok ident (k, plen) targ =>
      '(ret, t) ← xdp2_dtable_add_lpm malloc_ok t ident (Ptr k 0) plen (Ptr targ 0);
      mret (RetCode ret, t)
  | OpDel (k, plen) => t ← xdp2_dtable_del_lpm t (Ptr k 0) plen; mret (RetVoid, t)
  | OpChange (k, plen) targ =>
      '(ret, t) ← xdp2_dtable_change_lpm t (Ptr k 0) plen (Ptr targ 0); mret (RetCode ret, t)
  end.

Definition lpm_op_ok (key_len targ_len : Z) (op : table_op (list Z * Z)) : Prop :=
  match op with
  | OpAdd _ _ b targ | OpChange b targ => prefix_ok key_len b /\ Z.of_nat (length targ) = targ_len
  | OpDel b => prefix_ok key_len b
  end.

Lemma exec_lpm_refines t m op :
  lpm_repr t m -> lpm_op_ok (dt_key_len t) (dt_targ_len t) op ->
  exists r t' m', exec_lpm t op = Done (r, t') /\ same_shape t t' /\
    map_step (fun _ => 0) m op r m' /\ lpm_repr t' m'.
Proof.
  intros (rows & Ht & Hp & <-) Hop.
  assert (forall k plen, key_ok (dt_key_len t) k -> exists res,
            __xdp2_dtable_find_lpm t (Ptr k 0) plen = Done res /\
            keyed_find lkid lrank t rows (k, plen) res) as Hfind
    by (intros; apply find_lpm_spec; auto using bytes_at_self).
  destruct op as [ok ident [k plen] targ | [k plen] | [k plen] targ]; cbn [lpm_op_ok exec_lpm] in *.
  - destruct Hop as [[Hk Hpl] Htl]. unfold xdp2_dtable_add_lpm.
    destruct (Hfind k plen Hk) as ([[p |] prev] & -> & Hf); orun; cbn [is_null negb].
    + destruct (keyed_hit _ _ _ t rows Ht Hp (k, plen) p prev Hf) as (id & old & e & Em & _).
      do 3 eexists. split_and!; [done | apply same_shape_refl | by apply ms_add_exists |]. by exists rows.
    + destruct (keyed_add _ _ _ t rows Ht Hp (k, plen) prev ok ident (Ptr targ 0) targ Hf
                  (bytes_at_self targ) Htl) as (Hn & [[p id'] |] & t' & -> & Hsh & Hadd); orun.
      * destruct Hadd as [Hid Hadd]. pose proof Hsh as (Ek & _).
        rewrite (ld_bytes_key (Ptr k 0) k) by (apply bytes_at_self || destruct Hk; simpl in *; congruence).
        do 3 eexists. split_and!; [done | by auto with xdp2 | by apply (ms_add (fun _ => 0)) |].
        by apply Hadd.
      * destruct Hadd as [-> Href].
        do 3 eexists. split_and!; [done | done | by apply ms_add_refused |]. by exists rows.
  - destruct Hop as [Hk Hpl]. unfold xdp2_dtable_del_lpm.
    destruct (Hfind k plen Hk) as ([[p |] prev] & -> & Hf); orun.
    + destruct (keyed_hit _ _ _ t rows Ht Hp (k, plen) p prev Hf) as (id & old & e & _ & _ & _ & Hdel & _).
      do 3 eexists. split_and!; [done | apply same_shape_del | constructor | done].
    + inversion Hf. subst. do 3 eexists. split_and!; [done | apply same_shape_refl | constructor |].
      eexists. rewrite delete_id by (by apply rows_map_none). by split_and!.
  - destruct Hop as [[Hk Hpl] Htl]. unfold xdp2_dtable_change_lpm.
    destruct (Hfind k plen Hk) as ([[p |] prev] & -> & Hf); orun.
    + destruct (keyed_hit _ _ _ t rows Ht Hp (k, plen) p prev Hf) as (id & old & e & Em & _ & _ & _ & Hch).
      destruct (Hch (Ptr targ 0) targ (bytes_at_self targ) Htl) as (t' & -> & Hsh & Hr'). orun.
      do 3 eexists. split_and!; [done | done | by eapply ms_change | done].
    + inversion Hf. subst. do 3 eexists.
      split_and!; [done | apply same_shape_refl | by apply ms_change_missing, rows_map_none |].
      by eexists.
Qed.

(** A lookup in a table that represents a map. *)
Lemma sim_lookup_lpm t m key k : lpm_repr t m -> key_ok (dt_key_len t) k -> bytes_at key k ->
  ((forall b v, m !! b = Some v -> ~ lpm_matches b k) /\ xdp2_dtable_lookup_lpm t key = Done (dt_default_target t)) \/
  exists b id targ, m !! b = Some (id, targ) /\ lpm_matches b k /\ xdp2_dtable_lookup_lpm t key = Done targ /\
    forall b' v', m !! b' = Some v' -> lpm_matches b' k -> b'.2 <= b.2.
Proof.
  intros (rows & Ht & Hp & <-) Hk Hat.
  destruct (lookup_lpm_rows t rows Ht Hp key k Hk Hat) as [[Hno ->] | (r & Hr' & Hmt & -> & Hmax)].
  - left. split; [| done]. intros b [id targ] (r & Hr' & <- & _)%rows_map_inv. by apply Hno.
  - right. exists (rkey lkid r), (row_ident r), (row_targ r). split_and!; try done.
    + apply rows_map_row; [apply Hp | done].
    + intros b' [id' targ'] (r' & Hr'' & <- & _)%rows_map_inv Hm'. by apply Hmax.
Qed.

(** C15: longest prefix match. After any sequence of additions, deletions and
    changes, a lookup of a key returns the target of a matching prefix that is at
    least as long as every other matching prefix of the table, and the default
    target exactly when no prefix matches; the table holds the prefixes that the
    same sequence of operations on a map leaves. *)
Theorem lpm_lookup_longest ops t m :
  lpm_repr t m -> Forall (lpm_op_ok (dt_key_len t) (dt_targ_len t)) ops ->
  exists rs t' m', exec_ops exec_lpm t ops = Done (rs, t') /\
    map_steps (fun _ => 0) m ops rs m' /\
    forall key k, key_ok (dt_key_len t) k -> bytes_at key k ->
      ((forall b v, m' !! b = Some v -> ~ lpm_matches b k) /\
       xdp2_dtable_lookup_lpm t' key = Done (dt_default_target t)) \/
      exists b id targ, m' !! b = Some (id, targ) /\ lpm_matches b k /\
        xdp2_dtable_lookup_lpm t' key = Done targ /\
        forall b' v', m' !! b' = Some v' -> lpm_matches b' k -> b'.2 <= b.2.
Proof.
  intros Hr Hops.
  destruct (exec_ops_refines exec_lpm (fun _ => 0) lpm_repr lpm_op_ok exec_lpm_refines ops t m Hr Hops)
    as (rs & t' & m' & E & Hsh & Hm & Hr').
  exists rs, t', m'. split_and!; [done | done |]. intros key k Hk Hat.
  destruct Hsh as (Ek & _ & <- & _). rewrite <- Ek in Hk. by apply sim_lookup_lpm.
Qed.

(** Routes for 10.0.0.0/8 and 10.1.0.0/16. *)
Definition sample_lpm_ops : list (table_op (list Z * Z)) :=
  [OpAdd true 0 ([10; 0; 0; 0], 8) [1]; OpAdd true 0 ([10; 1; 0; 0], 16) [2]].

Lemma empty_lpm_repr key_len targ_len dflt ident :
  0 <= key_len -> Z.of_nat (length dflt) = targ_len ->
  lpm_repr (empty_table key_len targ_len dflt ident) ∅.
Proof.
  intros Hk Hl. exists []. split_and!; [by apply empty_table_repr | | done].
  constructor; constructor.
Qed.

Lemma lpm_lookup_longest_witness :
  exists t' (m' : gmap (list Z * Z) (Z * list Z)),
    exec_ops exec_lpm (empty_table 4 1 [0] 1000000) sample_lpm_ops
                  = Done ([RetCode 0; RetCode 0], t') /\
    xdp2_dtable_lookup_lpm t' (Ptr [10; 1; 2; 3] 0) = Done [2] /\
    exists b id, m' !! b = Some (id, [2]) /\ lpm_matches b [10; 1; 2; 3] /\
      forall b' v', m' !! b' = Some v' -> lpm_matches b' [10; 1; 2; 3] -> b'.2 <= b.2.
Proof.
  destruct (lpm_lookup_longest sample_lpm_ops (empty_table 4 1 [0] 1000000) ∅)
    as (rs & t' & m' & E & Hm & Hl).
  - by apply empty_lpm_repr.
  - repeat constructor; try done; discriminate.
  - exists t', m'. specialize (Hl (Ptr [10; 1; 2; 3] 0) [10; 1; 2; 3]).
    vm_compute in E. injection E as <- <-.
    destruct Hl as [[_ Hd] | (b & id & targ & Hb & Hmt & El & Hmax)].
    + repeat constructor; discriminate.
    + apply bytes_at_self.
    + vm_compute in Hd. discriminate Hd.
    + vm_compute in El. injection El as <-. split_and!; [by vm_compute | by vm_compute |].
      by exists b, id.
Defined.
