(* ===== verification/DtableTern.v ===== *)
(** * Ternary tables

    A ternary table represents the list of its rows in the order of their
    positions; rows with equal positions stay in the order of their insertion.
    A lookup returns the target of the first row that matches under its mask. *)

From stdpp Require Import base list gmap numbers sorting.
From S2P Require Import Prelude FlagFields Bytes Switch Dtable DtableSpec DtableKeyed DtablePlain.
Import Tern.

Local Abbreviation ttable := (xdp2_dtable_table xdp2_tern_entry_key).
Local Abbreviation trow := (row xdp2_tern_entry_key).

Definition tpos (r : trow) : Z := tk_pos (row_key r).

(** The key structure for key [k] and mask [m] at position [pos]. *)
Definition tern_key (pos : Z) (k m : list Z) : xdp2_tern_entry_key := TernKey pos (k ++ m).

Definition tern_kok (len : Z) (x : xdp2_tern_entry_key) : Prop :=
  exists k m, x = tern_key (tk_pos x) k m /\ key_ok len k /\ key_ok len m.

Record tern_rows (len : Z) (rows : list trow) : Prop := {
  tn_keys : Forall (fun r => tern_kok len (row_key r)) rows;
  tn_sorted : StronglySorted (fun a b => tpos a <= tpos b) rows }.

Definition tern_repr (t : ttable) (rows : list trow) : Prop :=
  table_repr t rows /\ tern_rows (dt_key_len t) rows.

(** Row [r] has key [k] and mask [m]; row [r] matches [k]. *)
Definition tern_has (k m : list Z) (r : trow) : Prop := tk_key (row_key r) = k ++ m.
Definition tern_matches (r : trow) (k : list Z) : Prop :=
  forall key m, tk_key (row_key r) = key ++ m -> length key = length k -> mask_eq m key k.

Section find.
Context (t : ttable) (rows : list trow) (Hr : tern_repr t rows).
Context (k : list Z) (Hk : key_ok (dt_key_len t) k).

Lemma tern_same_eq m pk pm : key_ok (dt_key_len t) m -> bytes_at pk k -> bytes_at pm m ->
  Forall (fun r => tern_same t pk pm (row_key r) =
                   Done (bool_decide (tk_key (row_key r) = k ++ m))) rows.
Proof using Hr Hk.
  intros Hm Hpk Hpm. destruct Hr as [_ [Hkeys _]]. eapply Forall_impl; [exact Hkeys |].
  intros r (k' & m' & E & [Hk' _] & [Hm' _]). destruct Hk as [Hkl _], Hm as [Hml _].
  rewrite E. unfold tern_same. cbn [tern_key tk_key].
  rewrite <- Hk' at 1. rewrite (xdp2_compare_equal_spec _ pk k' k) by
    (lia || done || exact (bytes_at_app_l _ _ _ (bytes_at_self (k' ++ m')))).
  orun. destruct (bool_decide_reflect (k' = k)) as [-> | Hne].
  - rewrite <- Hk' at 1. rewrite <- Hm'. rewrite (xdp2_compare_equal_spec _ pm m' m) by
      (lia || done || exact (bytes_at_app_r _ _ _ (bytes_at_self (k ++ m')))).
    f_equal. apply bool_decide_ext. split; [by intros -> | apply app_inj_1; done].
  - orun. f_equal. symmetry. apply bool_decide_eq_false_2. intros Heq.
    apply app_inj_1 in Heq as [? _]; [done | lia].
Qed.

(** What a search for key, mask and position finds. *)
Inductive tern_find (m : list Z) (pos : Z) : option positive * option positive -> Prop :=
| tf_miss l1 l2 r1 r2 : dt_entries_lookup t = l1 ++ l2 -> rows = r1 ++ r2 ->
    length l1 = length r1 -> Forall (fun r => tpos r <= pos /\ ~ tern_has k m r) r1 ->
    Forall (fun r => pos < tpos r) r2 -> tern_find m pos (None, last l1)
| tf_hit l1 p l2 r1 r r2 prev : dt_entries_lookup t = l1 ++ p :: l2 -> rows = r1 ++ r :: r2 ->
    length l1 = length r1 -> Forall (fun r => ~ tern_has k m r) r1 -> tern_has k m r ->
    tpos r <= pos -> tern_find m pos (Some p, prev).

Lemma find_tern_spec m pos pk pm : key_ok (dt_key_len t) m -> bytes_at pk k -> bytes_at pm m ->
  exists res, __xdp2_dtable_find_tern t pk pm pos = Done res /\ tern_find m pos res.
Proof using Hr Hk.
  intros Hm Hpk Hpm. pose proof (tern_same_eq m pk pm Hm Hpk Hpm) as Hsame.
  destruct Hr as [Ht [_ Hs]].
  destruct (find_loop_spec (dt_heap t) (fun x => pos <? tk_pos x) (tern_same t pk pm)
    (fun x => bool_decide (tk_key x = k ++ m)) _ rows (tr_rows _ _ Ht) Hsame None) as (res & E & Hf).
  exists res. split; [done |].
  inversion Hf as [l1 l2 r1 r2 Hlen Hsk Hhd El Er Eres | l1 p l2 r1 r r2 Hlen Hsk Hst Hht El Er Eres].
  - replace (match last l1 with Some q => Some q | None => None end) with (last l1)
      by (by destruct (last l1)).
    eapply (tf_miss m pos l1 l2 r1 r2); try done.
    + eapply Forall_impl; [exact Hsk |]. intros r [Hst Hh]. unfold tpos, tern_has.
      split; [by apply Z.ltb_ge in Hst | by apply bool_decide_eq_false in Hh].
    + apply (sorted_after tpos).
      * rewrite <- Er in Hs. by apply StronglySorted_app in Hs as (_ & _ & ?).
      * intros r Hr'. by apply Z.ltb_lt, Hhd.
  - eapply (tf_hit m pos l1 p l2 r1 r r2); try done.
    + eapply Forall_impl; [exact Hsk |]. intros r' [_ Hh]. by apply bool_decide_eq_false in Hh.
    + by apply bool_decide_eq_true in Hht.
    + by apply Z.ltb_ge in Hst.
Qed.

Lemma tern_match_eq pk : bytes_at pk k ->
  forall r, r ∈ rows -> exists b, tern_match t pk (row_key r) = Done b /\
    (b = true <-> tern_matches r k).
Proof using Hr Hk.
  intros Hpk r Hin. destruct Hr as [_ [Hkeys _]]. rewrite Forall_forall in Hkeys.
  destruct (Hkeys r Hin) as (k' & m' & E & [Hk' Hku] & [Hm' Hmu]). destruct Hk as [Hkl _].
  unfold tern_match, tern_matches. rewrite E. cbn [tern_key tk_key].
  replace (padd (Ptr (k' ++ m') 0) (dt_key_len t)) with
    (padd (Ptr (k' ++ m') 0) (Z.of_nat (length k'))) by (by rewrite Hk').
  rewrite <- Hm'.
  destruct (xdp2_compare_tern_spec (Ptr (k' ++ m') 0) pk (padd (Ptr (k' ++ m') 0) (Z.of_nat (length k')))
    k' k m') as (b & -> & Hb); try done; try lia.
  - exact (bytes_at_app_l _ _ _ (bytes_at_self _)).
  - exact (bytes_at_app_r _ _ _ (bytes_at_self _)).
  - exists b. split; [done |]. rewrite Hb. split.
    + intros H key m Ekm Hl. apply app_inj_1 in Ekm as [<- <-]; [done | lia].
    + intros H. apply (H k' m'); [done | lia].
Qed.

Lemma lookup_tern_rows pk : bytes_at pk k ->
  (forall r, r ∈ rows -> ~ tern_matches r k) /\
    xdp2_dtable_lookup_tern t pk = Done (dt_default_target t) \/
  exists r1 r r2, rows = r1 ++ r :: r2 /\ (forall r', r' ∈ r1 -> ~ tern_matches r' k) /\
    tern_matches r k /\ xdp2_dtable_lookup_tern t pk = Done (row_targ r) /\
    forall r', r' ∈ rows -> tern_matches r' k -> tpos r <= tpos r'.
Proof using Hr Hk.
  intros Hpk. pose proof (tern_match_eq pk Hpk) as Hall. destruct Hr as [Ht [_ Hs]].
  set (mb := fun x => match tern_match t pk x with Done b => b | _ => false end).
  assert (Forall (fun r => tern_match t pk (row_key r) = Done (mb (row_key r))) rows) as Hm.
  { apply Forall_forall. intros r Hin. unfold mb. by destruct (Hall r Hin) as (b & -> & _). }
  assert (forall r, r ∈ rows -> (mb (row_key r) = true <-> tern_matches r k)) as Hmb.
  { intros r Hin. unfold mb. by destruct (Hall r Hin) as (b & -> & ?). }
  unfold xdp2_dtable_lookup_tern.
  destruct (find_loop_spec (dt_heap t) (fun _ => false) (tern_match t pk) mb _ rows (tr_rows _ _ Ht) Hm None)
    as (res & -> & Hf). orun.
  inversion Hf as [l1 l2 r1 r2 Hlen Hsk Hhd El Er Eres | l1 p l2 r1 r r2 Hlen Hsk Hst Hht El Er Eres];
    subst res; symmetry in El, Er; rewrite <- ?Er.
  - left. split; [| done]. intros r Hin. rewrite <- Hmb by done.
    rewrite Er in Hin. apply elem_of_app in Hin as [Hin | Hin].
    + rewrite Forall_forall in Hsk. destruct (Hsk r Hin) as [_ ->]. done.
    + destruct r2 as [| r0 r2]; [by apply not_elem_of_nil in Hin |]. by specialize (Hhd r0 eq_refl).
  - right. assert (r ∈ rows) as Hin by (rewrite Er; apply elem_of_app; right; by left).
    rewrite Forall_forall in Hsk.
    assert (forall r', r' ∈ r1 -> ~ tern_matches r' k) as Hno.
    { intros r' Hr'. rewrite <- Hmb by (rewrite Er; apply elem_of_app; by left).
      destruct (Hsk r' Hr') as [_ ->]. done. }
    exists r1, r, r2. split_and!; [done | done | by apply Hmb | |].
    + pose proof Ht as Ht'. rewrite Er in Ht'.
      destruct (at_row_parts _ _ _ _ _ _ _ Ht' El Hlen) as (_ & _ & _ & Hp & _).
      unfold lookup_result. by rewrite Hp.
    + intros r' Hr' Hm'. rewrite Er in Hr', Hs. apply elem_of_app in Hr' as [Hr' | Hr'].
      { by destruct (Hno r' Hr'). }
      apply elem_of_cons in Hr' as [-> | Hr']; [done |].
      apply StronglySorted_app in Hs as (_ & _ & [_ Hge]%StronglySorted_inv).
      rewrite Forall_forall in Hge. by apply Hge.
Qed.
End find.

(** ** Operations on the list of rows *)

(** [b] is key, mask and position. *)
Definition tern_id : Type := list Z * list Z * Z.
Definition tern_id_ok (len : Z) (b : tern_id) : Prop := key_ok len b.1.1 /\ key_ok len b.1.2.

(** The row that an operation on [b] finds: same key and mask, position not
    after that of [b]; the first such row of the list. *)
Definition tern_hit (b : tern_id) (r : trow) : Prop := tern_has b.1.1 b.1.2 r /\ tpos r <= b.2.

Inductive tern_step : list trow -> table_op tern_id -> table_ret -> list trow -> Prop :=
| ts_add_exists rows ok ident b targ r : r ∈ rows -> tern_hit b r ->
    tern_step rows (OpAdd ok ident b targ) (RetCode (- EALREADY)) rows
| ts_add_refused rows ok ident b targ : Forall (fun r => ~ tern_hit b r) rows ->
    add_refused ok ident rows -> tern_step rows (OpAdd ok ident b targ) (RetCode (- ENOMEM)) rows
| ts_add r1 r2 ok ident b targ id : Forall (fun r => ~ tern_hit b r) (r1 ++ r2) ->
    Forall (fun r => tpos r <= b.2) r1 -> Forall (fun r => b.2 < tpos r) r2 ->
    add_ident_ok ident id (r1 ++ r2) ->
    tern_step (r1 ++ r2) (OpAdd ok ident b targ) (RetCode 0)
      (r1 ++ Row id (tern_key b.2 b.1.1 b.1.2) targ :: r2)
| ts_del_missing rows b : Forall (fun r => ~ tern_hit b r) rows -> tern_step rows (OpDel b) RetVoid rows
| ts_del r1 r r2 b : Forall (fun r => ~ tern_hit b r) r1 -> tern_hit b r ->
    tern_step (r1 ++ r :: r2) (OpDel b) RetVoid (r1 ++ r2)
| ts_change_missing rows b targ : Forall (fun r => ~ tern_hit b r) rows ->
    tern_step rows (OpChange b targ) (RetCode (- ENOENT)) rows
| ts_change r1 r r2 b targ : Forall (fun r => ~ tern_hit b r) r1 -> tern_hit b r ->
    tern_step (r1 ++ r :: r2) (OpChange b targ) (RetCode 0)
      (r1 ++ Row (row_ident r) (row_key r) targ :: r2).

Inductive tern_steps : list trow -> list (table_op tern_id) -> list table_ret -> list trow -> Prop :=
| tss_nil rows : tern_steps rows [] [] rows
| tss_cons rows op r rows1 ops rs rows2 : tern_step rows op r rows1 -> tern_steps rows1 ops rs rows2 ->
    tern_steps rows (op :: ops) (r :: rs) rows2.

(** An API call with its arguments in buffers of their own. *)
Definition exec_tern (t : ttable) (op : table_op tern_id) : outcome (table_ret * ttable) :=
  match op with
  | OpAdd ok ident (k, m, pos) targ =>
      '(ret, t) ← xdp2_dtable_add_tern ok t ident (Ptr k 0) (Ptr m 0) pos (Ptr targ 0);
      mret (RetCode ret, t)
  | OpDel (k, m, pos) => t ← xdp2_dtable_del_tern t (Ptr k 0) (Ptr m 0) pos; mret (RetVoid, t)
  | OpChange (k, m, pos) targ =>
      '(ret, t) ← xdp2_dtable_change_tern t (Ptr k 0) (Ptr m 0) pos (Ptr targ 0); mret (RetCode ret, t)
  end.

Definition tern_op_ok (key_len targ_len : Z) (op : table_op tern_id) : Prop :=
  match op with
  | OpAdd _ _ b targ | OpChange b targ => tern_id_ok key_len b /\ Z.of_nat (length targ) = targ_len
  | OpDel b => tern_id_ok key_len b
  end.

(** A search in terms of [tern_hit]. *)
Lemma tern_find_miss t rows k m pos prev :
  tern_find t rows k m pos (None, prev) -> Forall (fun r => ~ tern_hit (k, m, pos) r) rows.
Proof.
  intros Hf. inversion Hf as [l1 l2 r1 r2 El Er Hlen H1 H2 |]; subst. apply Forall_app. split.
  - eapply Forall_impl; [exact H1 |]. intros r [_ Hn] [Hh _]. done.
  - eapply Forall_impl; [exact H2 |]. intros r Hp [_ Hle]. simpl in *. lia.
Qed.

Lemma tern_rows_delete len r1 r r2 : tern_rows len (r1 ++ r :: r2) -> tern_rows len (r1 ++ r2).
Proof.
  intros [Hk Hs]. constructor; [| by eapply sorted_delete].
  apply Forall_app in Hk as [? [_ ?]%Forall_cons_1]. by apply Forall_app.
Qed.

Lemma tern_rows_change len r1 r r2 targ :
  tern_rows len (r1 ++ r :: r2) -> tern_rows len (r1 ++ Row (row_ident r) (row_key r) targ :: r2).
Proof.
  intros [Hk Hs]. constructor; [| by eapply sorted_replace].
  apply Forall_app in Hk as [? [? ?]%Forall_cons_1]. apply Forall_app. split; [done |]. by constructor.
Qed.

Lemma tern_rows_insert len r1 r2 id pos k m targ :
  tern_rows len (r1 ++ r2) -> key_ok len k -> key_ok len m ->
  Forall (fun r => tpos r <= pos) r1 -> Forall (fun r => pos < tpos r) r2 ->
  tern_rows len (r1 ++ Row id (tern_key pos k m) targ :: r2).
Proof.
  intros [Hk Hs] Hkk Hkm H1 H2. constructor.
  - apply Forall_app in Hk as [? ?]. apply Forall_app. split; [done |]. constructor; [| done].
    by exists k, m.
  - apply sorted_insert; [done | done |]. eapply Forall_impl; [exact H2 |]. unfold tpos. simpl. lia.
Qed.

Section steps.
Context (t : ttable) (rows : list trow) (Hr : tern_repr t rows).
Context (k m : list Z) (pos : Z) (Hk : key_ok (dt_key_len t) k) (Hm : key_ok (dt_key_len t) m).

Lemma tern_hit_step p prev : tern_find t rows k m pos (Some p, prev) ->
  exists r1 r r2, rows = r1 ++ r :: r2 /\ Forall (fun r => ~ tern_hit (k, m, pos) r) r1 /\
    tern_hit (k, m, pos) r /\ tern_repr (xdp2_dtable_del t p) (r1 ++ r2) /\
    forall targ, Z.of_nat (length targ) = dt_targ_len t ->
      exists t', xdp2_dtable_change t p (Ptr targ 0) = Done t' /\ same_shape t t' /\
        tern_repr t' (r1 ++ Row (row_ident r) (row_key r) targ :: r2).
Proof using Hr.
  intros Hf. inversion Hf as [| l1 q l2 r1 r r2 prev' El Er Hlen Hno Hh Hp]; subst.
  destruct Hr as [Ht Hrows]. exists r1, r, r2. split_and!; try done.
  - eapply Forall_impl; [exact Hno |]. intros r' Hn [? _]. done.
  - split; [by eapply xdp2_dtable_del_repr | by eapply tern_rows_delete].
  - intros targ Htl.
    destruct (xdp2_dtable_change_repr t l1 p l2 r1 r r2 Ht El Hlen (Ptr targ 0) targ (bytes_at_self targ) Htl)
      as (t' & -> & Hsh & Hch).
    exists t'. split_and!; [done | done |]. split; [done |].
    pose proof Hsh as (-> & _). by apply tern_rows_change.
Qed.

Lemma exec_tern_add ok ident targ : Z.of_nat (length targ) = dt_targ_len t ->
  exists ret t' rows', xdp2_dtable_add_tern ok t ident (Ptr k 0) (Ptr m 0) pos (Ptr targ 0) = Done (ret, t') /\
    same_shape t t' /\ tern_step rows (OpAdd ok ident (k, m, pos) targ) (RetCode ret) rows' /\
    tern_repr t' rows'.
Proof using Hr Hk Hm.
  intros Htl. unfold xdp2_dtable_add_tern.
  destruct (find_tern_spec t rows Hr k Hk m pos (Ptr k 0) (Ptr m 0) Hm) as ([[p |] prev] & -> & Hf);
    [apply bytes_at_self | apply bytes_at_self | |]; orun; cbn [is_null negb].
  - destruct (tern_hit_step p prev Hf) as (r1 & r & r2 & -> & _ & Hh & _).
    do 3 eexists. split_and!; [done | apply same_shape_refl | | done].
    eapply ts_add_exists; [| exact Hh]. apply elem_of_app. right. by left.
  - pose proof (tern_find_miss _ _ _ _ _ _ Hf) as Hmiss.
    inversion Hf as [l1 l2 r1 r2 El Er Hlen H1 H2 |]; subst prev. destruct Hr as [Ht Hrows].
    destruct (xdp2_dtable_add_repr ok t rows r1 r2 l1 l2 ident (Ptr targ 0) targ Ht Er El Hlen
                (bytes_at_self targ) Htl) as ([[p id] |] & t' & -> & Hsh & Hadd); orun.
    + destruct Hadd as [Hid Hadd]. pose proof Hsh as (Ek & _).
      rewrite (ld_bytes_key (Ptr k 0) k), (ld_bytes_key (Ptr m 0) m) by
        (apply bytes_at_self || destruct Hk, Hm; congruence). orun.
      do 3 eexists. split_and!; [done | by apply same_shape_set_key | |]; [subst rows |].
      * apply (ts_add r1 r2 ok ident (k, m, pos) targ id); try done.
        eapply Forall_impl; [exact H1 |]. by intros r [? _].
      * split; [apply Hadd |]. cbn. rewrite Ek. apply tern_rows_insert; [by subst rows | done | done | |];
          [| done]. eapply Forall_impl; [exact H1 |]. by intros r [? _].
    + destruct Hadd as [-> Href].
      do 3 eexists. split_and!; [done | done | by apply ts_add_refused | done].
Qed.
End steps.

Lemma exec_tern_refines t rows op :
  tern_repr t rows -> tern_op_ok (dt_key_len t) (dt_targ_len t) op ->
  exists r t' rows', exec_tern t op = Done (r, t') /\ same_shape t t' /\
    tern_step rows op r rows' /\ tern_repr t' rows'.
Proof.
  intros Hr Hop.
  destruct op as [ok ident [[k m] pos] targ | [[k m] pos] | [[k m] pos] targ];
    cbn [tern_op_ok exec_tern] in *.
  - destruct Hop as [[Hk Hm] Htl].
    destruct (exec_tern_add t rows Hr k m pos Hk Hm ok ident targ Htl) as (ret & t' & rows' & -> & ? & ? & ?).
    by do 3 eexists.
  - destruct Hop as [Hk Hm]. unfold xdp2_dtable_del_tern.
    destruct (find_tern_spec t rows Hr k Hk m pos (Ptr k 0) (Ptr m 0) Hm) as ([[p |] prev] & -> & Hf);
      [apply bytes_at_self | apply bytes_at_self | |]; orun.
    + destruct (tern_hit_step t rows Hr k m pos p prev Hf) as (r1 & r & r2 & -> & Hno & Hh & Hdel & _).
      do 3 eexists. split_and!; [done | apply same_shape_del | by apply ts_del | done].
    + do 3 eexists. split_and!; [done | apply same_shape_refl | | done].
      apply ts_del_missing. by eapply tern_find_miss.
  - destruct Hop as [[Hk Hm] Htl]. unfold xdp2_dtable_change_tern.
    destruct (find_tern_spec t rows Hr k Hk m pos (Ptr k 0) (Ptr m 0) Hm) as ([[p |] prev] & -> & Hf);
      [apply bytes_at_self | apply bytes_at_self | |]; orun.
    + destruct (tern_hit_step t rows Hr k m pos p prev Hf) as (r1 & r & r2 & -> & Hno & Hh & _ & Hch).
      destruct (Hch targ Htl) as (t' & -> & Hsh & Hr'). orun.
      do 3 eexists. split_and!; [done | done | by apply ts_change | done].
    + do 3 eexists. split_and!; [done | apply same_shape_refl | | done].
      apply ts_change_missing. by eapply tern_find_miss.
Qed.

(** C16: ternary match by position. Any sequence of additions, deletions and
    changes runs without a fault and keeps the rows in the order of their
    positions, first come first served among equal positions; a lookup then
    returns the target of the first row that matches under its mask, which has
    the lowest position of all matching rows, and the default target exactly
    when no row matches. *)
Theorem tern_lookup_first ops : forall t rows,
  tern_repr t rows -> Forall (tern_op_ok (dt_key_len t) (dt_targ_len t)) ops ->
  exists rs t' rows', exec_ops exec_tern t ops = Done (rs, t') /\
    tern_steps rows ops rs rows' /\ StronglySorted (fun a b => tpos a <= tpos b) rows' /\
    forall pk k, key_ok (dt_key_len t) k -> bytes_at pk k ->
      ((forall r, r ∈ rows' -> ~ tern_matches r k) /\
       xdp2_dtable_lookup_tern t' pk = Done (dt_default_target t)) \/
      exists r1 r r2, rows' = r1 ++ r :: r2 /\ (forall r', r' ∈ r1 -> ~ tern_matches r' k) /\
        tern_matches r k /\ xdp2_dtable_lookup_tern t' pk = Done (row_targ r) /\
        forall r', r' ∈ rows' -> tern_matches r' k -> tpos r <= tpos r'.
Proof.
  induction ops as [| op ops IH]; intros t rows Hr Hops; cbn [exec_ops].
  { exists [], t, rows. split_and!; [done | constructor | apply Hr |]. intros pk k Hk Hat.
    by apply (lookup_tern_rows t rows Hr k Hk pk Hat). }
  apply Forall_cons_1 in Hops as [Hop Hops].
  destruct (exec_tern_refines t rows op Hr Hop) as (r & t1 & rows1 & -> & Hsh & Hst & Hr1). orun.
  destruct Hsh as (Ek & Et & Ed & _).
  destruct (IH t1 rows1 Hr1) as (rs & t2 & rows2 & -> & Hsts & Hs2 & Hl); [by rewrite Ek, Et |].
  exists (r :: rs), t2, rows2. split_and!; [done | by econstructor | done |].
  intros pk k Hk Hat. rewrite <- Ek in Hk. rewrite <- Ed. by apply Hl.
Qed.

Definition sample_tern_ops : list (table_op tern_id) :=
  [OpAdd true 0 ([10; 0], [255; 0], 20) [1]; OpAdd true 0 ([10; 7], [255; 255], 10) [2];
   OpAdd true 0 ([10; 7], [255; 255], 30) [3]].

Lemma tern_lookup_first_witness :
  exists t', exec_ops exec_tern (empty_table 2 1 [0] 1000000) sample_tern_ops =
               Done ([RetCode 0; RetCode 0; RetCode (- EALREADY)], t') /\
    exists r : trow, tern_matches r [10; 7] /\ row_targ r = [2] /\
      xdp2_dtable_lookup_tern t' (Ptr [10; 7] 0) = Done (row_targ r).
Proof.
  destruct (tern_lookup_first sample_tern_ops (empty_table 2 1 [0] 1000000) [])
    as (rs & t' & rows' & E & _ & _ & Hl).
  - split; [by apply empty_table_repr |]. constructor; constructor.
  - repeat constructor; try done; discriminate.
  - vm_compute in E. injection E as <- <-. eexists. split; [by vm_compute |].
    destruct (Hl (Ptr [10; 7] 0) [10; 7]) as [[_ Hd] | (r1 & r & r2 & _ & _ & Hm & El & _)].
    + by repeat constructor.
    + apply bytes_at_self.
    + vm_compute in Hd. discriminate Hd.
    + exists r. split_and!; [exact Hm | | exact El].
      assert (Done (row_targ r) = Done [2]) as Et by (rewrite <- El; vm_compute; reflexivity).
      injection Et as Et. exact Et.
Defined.
