(* ===== verification/DtableIdent.v ===== *)
(** * Identifiers of table entries

    The entries of a table are also linked in the order of their identifiers,
    and can be deleted and changed by identifier. The order is kept as long as
    automatic identifiers are not mixed with explicit ones below
    [BASE_IDENT]. *)

From stdpp Require Import base list gmap numbers sorting.
From S2P Require Import Prelude FlagFields Bytes Siphash Switch Dtable DtableSpec DtableKeyed.
From S2P Require Import DtablePlain.

Section idents.
Context {K : Type}.
Implicit Types (t : xdp2_dtable_table K) (h : gmap positive (xdp2_dtable_entry K)).

Definition has_ident h (p : positive) (i : Z) : Prop := de_ident <$> h !! p = Some i.

(** [ids] are the identifiers of the entries, strictly increasing. *)
Record idents_ok t (ids : list Z) : Prop := {
  io_ids : Forall2 (has_ident (dt_heap t)) (dt_entries t) ids;
  io_sorted : StronglySorted Z.lt ids;
  io_pos : Forall (fun i => 0 < i < 2 ^ 31) ids }.

(** ** Search *)

Lemma find_id_loop_exact h ident l ids :
  Forall2 (has_ident h) l ids -> StronglySorted Z.lt ids -> Forall (fun i => 0 < i < 2 ^ 31) ids ->
  0 <= ident < 2 ^ 31 ->
  exists r, find_id_loop h ident l = Done r /\ forall p, r = Some p <-> p ∈ l /\ has_ident h p ident.
Proof.
  intros Hl Hs Hp Hi. assert (forall z, 0 <= z < 2 ^ 31 -> u32 z = z) as Hu
    by (intros; apply Z.mod_small; lia).
  induction Hl as [| p i l ids Hpi Hl IH]; cbn [find_id_loop].
  { exists None. split; [done |]. intros p. split; [done |]. by intros [?%not_elem_of_nil _]. }
  apply StronglySorted_inv in Hs as [Hs Hall]. apply Forall_cons_1 in Hp as [Hi0 Hp].
  unfold has_ident in Hpi. destruct (h !! p) as [e |] eqn:Ep; [| done]. injection Hpi as Ei. orun.
  rewrite Ei, !Hu by lia.
  assert (forall q j, q ∈ l -> has_ident h q j -> i < j) as Hrest.
  { intros q j Hq Hj. apply list_elem_of_lookup in Hq as [n Hn].
    destruct (Forall2_lookup_l _ _ _ _ _ Hl Hn) as (j' & Hj' & Hhj). unfold has_ident in *.
    assert (j' = j) as -> by congruence. rewrite Forall_forall in Hall. apply Hall.
    by eapply list_elem_of_lookup_2. }
  assert (forall q, has_ident h q i -> forall j, has_ident h q j -> i = j) as Hfun
    by (unfold has_ident; intros; congruence).
  assert (has_ident h p i) as Hpi by (unfold has_ident; rewrite Ep; simpl; congruence).
  destruct (Z.ltb_spec ident i) as [Hlt | Hge].
  - exists None. split; [done |]. intros q. split; [done |].
    intros [[-> | Hq]%elem_of_cons Hid]; exfalso; [specialize (Hfun _ Hpi _ Hid) | specialize (Hrest _ _ Hq Hid)]; lia.
  - destruct (Z.eqb_spec i ident) as [<- | Hne].
    + exists (Some p). split; [done |]. intros q. split.
      * intros [= <-]. split; [by left | done].
      * intros [[-> | Hq]%elem_of_cons Hid]; [done |]. specialize (Hrest _ _ Hq Hid). lia.
    + destruct IH as (r & -> & Hr); [done | done |]. exists r. split; [done |]. intros q. rewrite Hr.
      split; [intros [? ?]; split; [by right | done] |].
      intros [[-> | Hq]%elem_of_cons Hid]; [| done]. by specialize (Hfun _ Hpi _ Hid).
Qed.

(** ** Insertion *)

(** Where the loop of [xdp2_dtable_add] puts a new entry. *)
Lemma add_loop_place h l ids : Forall2 (has_ident h) l ids -> StronglySorted Z.lt ids ->
  forall ident want l0,
  (0 < ident \/ ident = 0 /\ 0 < want /\ Forall (fun i => Z.max want BASE_IDENT <= i) ids /\
     want + Z.of_nat (length l) < 2 ^ 31) ->
  (add_loop h ident want (last l0) l = Done None /\ ident ∈ ids) \/
  exists i w l1 l2 ids1 ids2, add_loop h ident want (last l0) l = Done (Some (i, w, last (l0 ++ l1))) /\
    l = l1 ++ l2 /\ ids = ids1 ++ ids2 /\ length l1 = length ids1 /\
    let id := if i =? 0 then w else i in
    Forall (fun j => j < id) ids1 /\ Forall (fun j => id < j) ids2 /\
    (0 < ident -> id = ident /\ w = want) /\ (ident = 0 -> want <= id < 2 ^ 31 /\ w = id).
Proof.
  induction 1 as [| p i0 l ids Hpi Hl IH]; intros Hs ident want l0 Hc; cbn [add_loop].
  { right. exists ident, want, [], [], [], []. rewrite app_nil_r. cbv zeta. split_and!; try done.
    - intros Hi. by destruct (Z.eqb_spec ident 0); [lia |].
    - intros ->. simpl in *. lia. }
  apply StronglySorted_inv in Hs as [Hs Hall].
  unfold has_ident in Hpi. destruct (h !! p) as [e |] eqn:Ep; [| done]. injection Hpi as Ei. orun.
  rewrite Ei.
  assert (forall id w', (0 < id \/ id = 0 /\ 0 < w' /\ Forall (fun i => Z.max w' BASE_IDENT <= i) ids /\
       w' + Z.of_nat (length l) < 2 ^ 31) -> (0 < id -> i0 < id) -> (id = 0 -> i0 < w') ->
    (add_loop h id w' (Some p) l = Done None /\ id ∈ i0 :: ids) \/
    exists i w l1 l2 ids1 ids2, add_loop h id w' (Some p) l = Done (Some (i, w, last (l0 ++ l1))) /\
      p :: l = l1 ++ l2 /\ i0 :: ids = ids1 ++ ids2 /\ length l1 = length ids1 /\
      let id' := if i =? 0 then w else i in
      Forall (fun j => j < id') ids1 /\ Forall (fun j => id' < j) ids2 /\
      (0 < id -> id' = id /\ w = w') /\ (id = 0 -> w' <= id' < 2 ^ 31 /\ w = id')) as Hstep.
  { intros id w' Hc' H1 H2. pose proof (IH Hs id w' (l0 ++ [p]) Hc') as IH'. rewrite last_snoc in IH'.
    destruct IH' as [[E Hin] | (i & w & l1 & l2 & ids1 & ids2 & E & -> & -> & Hlen & Hrest)].
    - left. split; [done | by right].
    - right. exists i, w, (p :: l1), l2, (i0 :: ids1), ids2. rewrite <- (assoc_L (++)) in E. simpl in E.
      destruct Hrest as (Hb & Ha & Hx & Hz). cbv zeta.
      split_and!; [done | done | done | simpl; lia | | done | done | done].
      constructor; [| done]. destruct Hc' as [Hpos | (-> & _)].
      + destruct (Hx Hpos) as [-> _]. auto.
      + destruct (Hz eq_refl). specialize (H2 eq_refl). lia. }
  destruct Hc as [Hpos | (-> & Hw & Hge & Hb)].
  - destruct (Z.eqb_spec ident 0) as [? | Hne]; [lia |]. cbn [negb].
    destruct (Z.eqb_spec i0 ident) as [-> | Hn]; [left; split; [done | by left] |].
    destruct (Z.ltb_spec ident i0) as [Hlt | Hgt]; [| apply Hstep; [by left | lia | lia]].
    right. exists ident, want, [], (p :: l), [], (i0 :: ids). rewrite app_nil_r.
    destruct (Z.eqb_spec ident 0); [lia |]. cbv zeta. split_and!; try done; try lia.
    constructor; [done |]. eapply Forall_impl; [exact Hall |]. simpl. lia.
  - cbn [negb Z.eqb]. apply Forall_cons_1 in Hge as [Hg0 Hge].
    destruct (Z.ltb_spec i0 BASE_IDENT); [lia |].
    destruct (Z.eqb_spec i0 want) as [-> | Hne]; cbn [negb].
    + cbn [length] in Hb. assert (s32 (want + 1) = want + 1) as -> by (apply sext_small; lia).
      destruct (Hstep 0 (want + 1)) as [[E Hin] | (i & w & l1 & l2 & ids1 & ids2 & Hx)].
      * right. split_and!; [done | lia | | lia]. apply Forall_forall. intros j Hj.
        rewrite Forall_forall in Hall, Hge. specialize (Hall j Hj). specialize (Hge j Hj). lia.
      * lia.
      * lia.
      * exfalso. apply elem_of_cons in Hin as [? | Hin]; [lia |].
        rewrite Forall_forall in Hge. specialize (Hge _ Hin). unfold BASE_IDENT in *. lia.
      * right. exists i, w, l1, l2, ids1, ids2. destruct Hx as (? & ? & ? & ? & ? & ? & ? & Hz).
        cbv zeta. split_and!; try done. intros _. destruct (Hz eq_refl). lia.
    + right. exists want, want, [], (p :: l), [], (i0 :: ids). rewrite app_nil_r. cbn [length] in Hb.
      destruct (Z.eqb_spec want 0); [lia |]. cbv zeta. split_and!; try done; try lia.
      constructor; [lia |]. rewrite Forall_forall in Hall |- *. intros j Hj. specialize (Hall j Hj). lia.
Qed.
End idents.

(** The conditions under which the order is kept. *)
Definition ident_request_ok (ident : Z) (ids : list Z) : Prop :=
  0 < ident < 2 ^ 31 \/
  ident = 0 /\ Forall (fun i => BASE_IDENT <= i) ids /\ BASE_IDENT + Z.of_nat (length ids) < 2 ^ 31.

Section idents_add.
Context {K : Type} (t : xdp2_dtable_table K) (rows : list (row K)) (ids : list Z).
Context (Hr : table_repr t rows) (Hids : idents_ok t ids).

Lemma entries_insert_split l1 l2 pe plentry id targ ids1 ids2 k :
  dt_entries t = l1 ++ l2 -> ids = ids1 ++ ids2 -> length l1 = length ids1 -> pe = last l1 ->
  0 < id < 2 ^ 31 -> Forall (fun j => j < id) ids1 -> Forall (fun j => id < j) ids2 ->
  idents_ok (set_entry_key (fresh (dom (dt_heap t))) k (table_with t pe plentry id targ))
    (ids1 ++ id :: ids2).
Proof using Hr Hids.
  intros El Ei Hlen -> Hid Hb Ha. destruct Hids as [Hf Hs Hp]. rewrite El, Ei in *.
  set (p := fresh (dom (dt_heap t))).
  assert (dt_heap t !! p = None) as Hfr by (apply not_elem_of_dom, is_fresh).
  assert (NoDup (l1 ++ l2)) as Hnd.
  { rewrite <- El, (tr_perm _ _ Hr). apply (tr_nodup _ _ Hr). }
  apply Forall2_app_inv in Hf as [Hf1 Hf2]; [| done].
  assert (forall q i, has_ident (dt_heap t) q i ->
    has_ident (alter (fun e => DtableEntry (de_ident e) (de_targ e) (Some k)) p
      (<[p := DtableEntry id targ None]> (dt_heap t))) q i) as Hkeep.
  { intros q i Hq. unfold has_ident in *. rewrite lookup_alter_ne, lookup_insert_ne; [done | |];
      intros <-; by rewrite Hfr in Hq. }
  apply StronglySorted_app in Hs as (Hc & Hs1 & Hs2). constructor.
  - unfold set_entry_key, dt_set_heap, table_with. cbn [dt_entries dt_heap]. fold p.
    rewrite El, list_insert_split by done. apply Forall2_app; [| constructor].
    + eapply Forall2_impl; [exact Hf1 |]. apply Hkeep.
    + unfold has_ident. by rewrite lookup_alter_eq, lookup_insert_eq.
    + eapply Forall2_impl; [exact Hf2 |]. apply Hkeep.
  - apply StronglySorted_app. split_and!; [| done | by constructor].
    rewrite Forall_forall in Hb, Ha. intros x y Hx Hy. apply elem_of_cons in Hy as [-> | Hy]; [by apply Hb |].
    by apply Hc.
  - apply Forall_app in Hp as [? ?]. apply Forall_app. split; [done |]. by constructor.
Qed.

Lemma add_idents malloc_ok plentry ident target targ :
  ident_request_ok ident ids -> bytes_at target targ -> Z.of_nat (length targ) = dt_targ_len t ->
  (xdp2_dtable_add malloc_ok t plentry ident target = Done (None, t) /\
   (malloc_ok = false \/ ident ∈ ids)) \/
  exists p id t' ids1 ids2, xdp2_dtable_add malloc_ok t plentry ident target = Done (Some (p, id), t') /\
    ids = ids1 ++ ids2 /\ (id ∉ ids) /\ (ident <> 0 -> id = ident) /\ (ident = 0 -> BASE_IDENT <= id) /\
    forall k, idents_ok (set_entry_key p k t') (ids1 ++ id :: ids2).
Proof using Hr Hids.
  intros Hreq Hat Htl. unfold xdp2_dtable_add. pose proof Hids as [Hf Hs Hp].
  pose proof (Forall2_length _ _ _ Hf) as Elen.
  assert (0 < ident \/ ident = 0 /\ 0 < BASE_IDENT /\
    Forall (fun i => Z.max BASE_IDENT BASE_IDENT <= i) ids /\
    BASE_IDENT + Z.of_nat (length (dt_entries t)) < 2 ^ 31) as Hc.
  { destruct Hreq as [? | (-> & ? & ?)]; [left; lia | right]. by rewrite Z.max_id, Elen. }
  destruct (add_loop_place (dt_heap t) (dt_entries t) ids Hf Hs ident BASE_IDENT [] Hc)
    as [[E Hin] | (i & w & l1 & l2 & ids1 & ids2 & E & El & Ei & Hlen & Hb & Ha & Hx & Hz)];
    cbn [last app] in E; rewrite E; orun.
  - left. split; [done | by right].
  - set (id := if i =? 0 then w else i) in *.
    assert (0 <= w /\ 0 < id < 2 ^ 31 /\ (ident <> 0 -> id = ident) /\ (ident = 0 -> BASE_IDENT <= id))
      as (Hw & Hid & Hne & H0).
    { destruct Hreq as [Hpos | (-> & _)].
      - destruct (Hx ltac:(lia)) as [Hxi Hxw]. unfold BASE_IDENT in *. lia.
      - destruct (Hz eq_refl) as [Hzi Hzw]. unfold BASE_IDENT in *. lia. }
    destruct (Z.ltb_spec w 0); [lia |].
    destruct malloc_ok; cbn [negb]; [right | left; by split; [| left]].
    rewrite (ld_bytes_key target targ) by done. do 5 eexists. split; [done |].
    split_and!; [exact Ei | | done | done |].
    + rewrite Ei, elem_of_app. rewrite Forall_forall in Hb, Ha.
      intros [Hin | Hin]; [specialize (Hb _ Hin) | specialize (Ha _ Hin)]; lia.
    + intros k. by eapply entries_insert_split.
Qed.
End idents_add.

(** C38: entries by identifier. When the identifiers of a table increase along
    its entry list, an identifier (0 to 2^31 - 1) finds exactly the entry that
    carries it; and an addition with an explicit positive identifier, or with an
    automatic one when no identifier is below [BASE_IDENT], keeps them
    increasing, gives the new entry an identifier no other entry has, and is
    refused only when the identifier is taken or memory is short. *)
Theorem entries_by_identifier {K} (t : xdp2_dtable_table K) rows ids :
  table_repr t rows -> idents_ok t ids ->
  (forall ident, 0 <= ident < 2 ^ 31 ->
     exists r, xdp2_dtable_find_ent_by_id t ident = Done r /\
       forall p, r = Some p <-> p ∈ dt_entries t /\ has_ident (dt_heap t) p ident) /\
  (forall malloc_ok plentry ident target targ,
     ident_request_ok ident ids -> bytes_at target targ -> Z.of_nat (length targ) = dt_targ_len t ->
     (xdp2_dtable_add malloc_ok t plentry ident target = Done (None, t) /\
      (malloc_ok = false \/ ident ∈ ids)) \/
     exists p id t' ids1 ids2,
       xdp2_dtable_add malloc_ok t plentry ident target = Done (Some (p, id), t') /\
       ids = ids1 ++ ids2 /\ (id ∉ ids) /\ (ident <> 0 -> id = ident) /\ (ident = 0 -> BASE_IDENT <= id) /\
       forall k, idents_ok (set_entry_key p k t') (ids1 ++ id :: ids2)).
Proof.
  intros Hr [Hf Hs Hp]. split.
  - intros ident Hi. by apply (find_id_loop_exact _ _ _ ids).
  - intros. by eapply add_idents.
Qed.

Lemma entries_by_identifier_witness :
  let t : xdp2_dtable_table Plain.xdp2_plain_entry_key := empty_table 2 1 [0] 1000000 in
  exists p id t', xdp2_dtable_add true t None 7 (Ptr [9] 0) = Done (Some (p, id), t') /\
    (id ∉ @nil Z) /\ id = 7.
Proof.
  intros t.
  assert (table_repr t []) as Hr by (by apply empty_table_repr).
  assert (idents_ok t []) as Hi by (constructor; constructor).
  destruct (entries_by_identifier t [] [] Hr Hi) as [_ Hadd].
  destruct (Hadd true None 7 (Ptr [9] 0) [9]) as [[E _] | (p & id & t' & ids1 & ids2 & E & _ & Hn & Hid & _)].
  - left. lia.
  - apply bytes_at_self.
  - reflexivity.
  - vm_compute in E. discriminate E.
  - exists p, id, t'. split_and!; [exact E | exact Hn |]. apply Hid. lia.
Defined.

(** Mixing breaks the order. After an explicit identifier 5, an automatic
    identifier is linked before it; entry 5 is then in the table (a lookup by
    key finds it) but cannot be changed by its identifier any more, and the
    identifier 5 can be given to a second entry. *)
Theorem automatic_after_explicit_ident :
  exists t, exec_ops (exec_plain (fun _ => true)) (empty_table 1 1 [0] 1000000)
              [OpAdd true 5 [1] [11]; OpAdd true 0 [2] [12]] = Done ([RetCode 5; RetCode 1000000], t) /\
    Plain.xdp2_dtable_lookup_plain (fun _ => true) t (Ptr [1] 0) = Done [11] /\
    Plain.xdp2_dtable_change_plain_by_id t 5 (Ptr [13] 0) = Done (- ENOENT, t) /\
    exists t', Plain.xdp2_dtable_add_plain (fun _ => true) true t 5 (Ptr [3] 0) (Ptr [14] 0) = Done (5, t').
Proof.
  eexists. split; [vm_compute; reflexivity |]. split; [vm_compute; reflexivity |].
  split; [vm_compute; reflexivity |]. eexists. vm_compute. reflexivity.
Qed.
