(* ===== verification/DtableList.v ===== *)
(** * The lists of dynamic tables

    Creation of tables and the global lists of [dtable.c], one per kind of
    table, ordered by table identifier. *)

From stdpp Require Import base list gmap numbers sorting.
From S2P Require Import Prelude FlagFields Bytes Dtable DtableSpec DtableKeyed DtablePlain DtableLpm.
From S2P Require Import DtableTern.

Section lists.
Context {K : Type}.
Implicit Types (tb : xdp2_dtable_table K) (l : list (xdp2_dtable_table K)).

(** The loop of [__xdp2_dtable_find_table]; tables are designated by their
    place in the list. Returns [table], [prev_table], [*ident] and
    [want_ident]. *)
Fixpoint find_table_loop (ident want_ident : Z) l (i : nat) (prev_table : option nat)
    : option nat * option nat * Z * Z :=
  match l with
  | [] => (None, prev_table, ident, want_ident)
  | tb :: l' =>
      if negb (ident =? 0) then
        if dt_ident tb =? ident then (Some i, prev_table, ident, want_ident) else
        if ident <? dt_ident tb then (None, prev_table, ident, want_ident) else
        find_table_loop ident want_ident l' (S i) (Some i)
      else
        if dt_ident tb <? BASE_IDENT then find_table_loop ident want_ident l' (S i) prev_table else
        if negb (dt_ident tb =? want_ident) then (None, prev_table, want_ident, want_ident) else
        let want_ident := s32 (want_ident + 1) in
        if want_ident <? 0 then (None, None, ident, want_ident) else
        find_table_loop ident want_ident l' (S i) (Some i)
  end.

(** The table, its predecessor (meaningless for a negative identifier, which
    every caller checks) and [*ident]. *)
Definition __xdp2_dtable_find_table (ident : Z) l : option nat * option nat * Z :=
  if ident <? 0 then (None, None, ident) else
  let '(table, prev_table, ident, want_ident) := find_table_loop ident BASE_IDENT l 0 None in
  (table, prev_table, if ident =? 0 then want_ident else ident).

Definition dt_set_ident (ident : Z) tb : xdp2_dtable_table K :=
  DtableTable (dt_key_len tb) (dt_targ_len tb) (dt_default_target tb) ident
    (dt_entries tb) (dt_entries_lookup tb) (dt_heap tb).

(** [LIST_INSERT_AFTER] and [LIST_INSERT_HEAD] *)
Definition insert_table_at (prev_table : option nat) tb l : list (xdp2_dtable_table K) :=
  match prev_table with
  | Some i => take (S i) l ++ tb :: drop (S i) l
  | None => tb :: l
  end.

(** The return code, [*ident] and the list. *)
Definition __xdp2_dtable_insert_table tb (ident : Z) l : Z * Z * list (xdp2_dtable_table K) :=
  let '(otable, prev_table, ident) := __xdp2_dtable_find_table ident l in
  if negb (is_null otable) then (- EALREADY, ident, l) else
  if ident <? 0 then (- EINVAL, ident, l) else
  (0, ident, insert_table_at prev_table (dt_set_ident ident tb) l).

(** [xdp2_dtable_create]: the new table (NULL on failure), [*ident] and the
    list; [malloc_table] and [malloc_target] are whether the two allocations
    succeed. *)
Definition xdp2_dtable_create (malloc_table malloc_target : bool) (key_len : Z) (ident : Z)
    (default_target : ptr) (target_len : Z) l
    : outcome (option (xdp2_dtable_table K) * Z * list (xdp2_dtable_table K)) :=
  let '(table, _, ident) := __xdp2_dtable_find_table ident l in
  if negb (is_null table) then mret (None, ident, l) else
  if ident <? 0 then mret (None, ident, l) else
  if negb malloc_table then mret (None, ident, l) else
  if negb malloc_target then mret (None, ident, l) else
  dtarget ← ld_bytes (Z.to_nat target_len) default_target 0;
  let table := DtableTable key_len target_len dtarget ident [] [] ∅ in
  let '(ret, ident, l) := __xdp2_dtable_insert_table table ident l in
  if negb (ret =? 0) then mret (None, ident, l) else mret (Some (dt_set_ident ident table), ident, l).
End lists.

(** ** The global lists *)

Record dtable_lists := DtableLists {
  plain_tables : list (xdp2_dtable_table Plain.xdp2_plain_entry_key);
  tern_tables : list (xdp2_dtable_table Tern.xdp2_tern_entry_key);
  lpm_tables : list (xdp2_dtable_table Lpm.xdp2_lpm_entry_key) }.

Section create.
Context (malloc_table malloc_target : bool) (key_len : Z) (default_target : ptr) (target_len ident : Z).

Definition xdp2_dtable_create_plain (ls : dtable_lists) :=
  '(table, ident, l) ← xdp2_dtable_create malloc_table malloc_target key_len ident default_target
                         target_len (plain_tables ls);
  mret (M := outcome) (table, ident, DtableLists l (tern_tables ls) (lpm_tables ls)).
Definition xdp2_dtable_create_tern (ls : dtable_lists) :=
  '(table, ident, l) ← xdp2_dtable_create malloc_table malloc_target key_len ident default_target
                         target_len (tern_tables ls);
  mret (M := outcome) (table, ident, DtableLists (plain_tables ls) l (lpm_tables ls)).
Definition xdp2_dtable_create_lpm (ls : dtable_lists) :=
  '(table, ident, l) ← xdp2_dtable_create malloc_table malloc_target key_len ident default_target
                         target_len (lpm_tables ls);
  mret (M := outcome) (table, ident, DtableLists (plain_tables ls) (tern_tables ls) l).
End create.

(** [enum xdp2_dtable_table_types] *)
Definition XDP2_DTABLE_TABLE_TYPE_INVALID := 0.
Definition XDP2_DTABLE_TABLE_TYPE_PLAIN := 1.
Definition XDP2_DTABLE_TABLE_TYPE_TERN := 2.
Definition XDP2_DTABLE_TABLE_TYPE_LPM := 3.

(** A statically defined table, an element of the section array. *)
Record table_def := TableDef {
  td_type : Z; td_key_len : Z; td_targ_len : Z; td_default_target : list Z; td_ident : Z }.

(** The table with its lists initialized. *)
Definition def_table {K} (d : table_def) : xdp2_dtable_table K :=
  DtableTable (td_key_len d) (td_targ_len d) (td_default_target d) (td_ident d) [] [] ∅.

(** One iteration of [xdp2_dtable_init]; [None] is the exit of [XDP2_ERR(1, ...)]. *)
Definition init_table (ls : dtable_lists) (d : table_def) : option dtable_lists :=
  if td_type d =? XDP2_DTABLE_TABLE_TYPE_PLAIN then
    let '(ret, _, l) := __xdp2_dtable_insert_table (def_table d) 0 (plain_tables ls) in
    if negb (ret =? 0) then None else Some (DtableLists l (tern_tables ls) (lpm_tables ls))
  else if td_type d =? XDP2_DTABLE_TABLE_TYPE_TERN then
    let '(ret, _, l) := __xdp2_dtable_insert_table (def_table d) 0 (tern_tables ls) in
    if negb (ret =? 0) then None else Some (DtableLists (plain_tables ls) l (lpm_tables ls))
  else if td_type d =? XDP2_DTABLE_TABLE_TYPE_LPM then
    let '(ret, _, l) := __xdp2_dtable_insert_table (def_table d) 0 (lpm_tables ls) in
    if negb (ret =? 0) then None else Some (DtableLists (plain_tables ls) (tern_tables ls) l)
  else if td_type d =? XDP2_DTABLE_TABLE_TYPE_INVALID then Some ls
  else None.

Definition xdp2_dtable_init (defs : list table_def) : option dtable_lists :=
  foldl (fun acc d => ls ← acc; init_table ls d) (Some (DtableLists [] [] [])) defs.

(** ** Order of the lists *)

Section order.
Context {K : Type}.
Implicit Types (tb : xdp2_dtable_table K) (l : list (xdp2_dtable_table K)).

Definition table_ids l : list Z := dt_ident <$> l.

(** Strictly increasing positive identifiers. *)
Definition tables_ok l : Prop :=
  StronglySorted Z.lt (table_ids l) /\ Forall (fun i => 0 < i < 2 ^ 31) (table_ids l).

(** The place after the first [length l1] tables, seen from position [i]. *)
Definition prev_of (i : nat) (prev : option nat) (l1 : list (xdp2_dtable_table K)) : option nat :=
  match l1 with [] => prev | _ => Some (i + length l1 - 1)%nat end.

Lemma find_explicit l : forall ident want i prev,
  StronglySorted Z.lt (table_ids l) -> 0 < ident ->
  (exists j prev', find_table_loop ident want l i prev = (Some j, prev', ident, want) /\
     ident ∈ table_ids l) \/
  exists l1 l2, find_table_loop ident want l i prev = (None, prev_of i prev l1, ident, want) /\
    l = l1 ++ l2 /\ Forall (fun j => j < ident) (table_ids l1) /\
    Forall (fun j => ident < j) (table_ids l2).
Proof.
  induction l as [| tb l IH]; intros ident want i prev Hs Hi; cbn [find_table_loop].
  { right. exists [], []. split_and!; done || constructor. }
  apply StronglySorted_inv in Hs as [Hs Hall].
  destruct (Z.eqb_spec ident 0); [lia |]. cbn [negb].
  destruct (Z.eqb_spec (dt_ident tb) ident) as [E | Hne].
  { left. exists i, prev. split; [done |]. rewrite <- E. by left. }
  destruct (Z.ltb_spec ident (dt_ident tb)) as [Hlt | Hge].
  { right. exists [], (tb :: l). split_and!; [done | done | constructor |].
    constructor; [done |]. eapply Forall_impl; [exact Hall |]. simpl. lia. }
  destruct (IH ident want (S i) (Some i) Hs Hi) as [(j & prev' & -> & Hin) | (l1 & l2 & -> & -> & H1 & H2)].
  - left. exists j, prev'. split; [done | by right].
  - right. exists (tb :: l1), l2. split_and!; [| done | | done].
    + destruct l1 as [| tb' l1]; simpl; [by rewrite Nat.add_1_r, Nat.sub_succ, Nat.sub_0_r |].
      do 4 f_equal. lia.
    + constructor; [simpl; lia | done].
Qed.

Lemma find_auto l : forall want i prev,
  StronglySorted Z.lt (table_ids l) -> BASE_IDENT <= want -> want + Z.of_nat (length l) < 2 ^ 31 ->
  Forall (fun j => j < BASE_IDENT \/ want <= j) (table_ids l) ->
  exists prev' id w, find_table_loop 0 want l i prev = (None, prev', id, w) /\
    let id := if id =? 0 then w else id in want <= id < 2 ^ 31 /\ id ∉ table_ids l.
Proof.
  induction l as [| tb l IH]; intros want i prev Hs Hw Hb Hr; cbn [find_table_loop Z.eqb negb].
  { exists prev, 0, want. split; [done |]. cbn [Z.eqb length] in *. split; [lia |]. apply not_elem_of_nil. }
  apply StronglySorted_inv in Hs as [Hs Hall]. apply Forall_cons_1 in Hr as [Hr0 Hr].
  cbn [length] in Hb.
  destruct (Z.ltb_spec (dt_ident tb) BASE_IDENT) as [Hlt | Hge].
  { destruct (IH want (S i) prev) as (p' & id & w & -> & Hid & Hn); try done; try lia.
    exists p', id, w. split; [done |]. cbv zeta in *. split; [done |].
    intros [E | Hin]%elem_of_cons; [lia | done]. }
  destruct (Z.eqb_spec (dt_ident tb) want) as [E | Hne]; cbn [negb].
  - assert (s32 (want + 1) = want + 1) as -> by (apply sext_small; unfold BASE_IDENT in *; lia).
    destruct (Z.ltb_spec (want + 1) 0); [unfold BASE_IDENT in *; lia |].
    destruct (IH (want + 1) (S i) (Some i)) as (p' & id & w & -> & Hid & Hn); try done; try lia.
    { rewrite Forall_forall in Hr, Hall |- *. intros j Hj. specialize (Hr j Hj). specialize (Hall j Hj).
      lia. }
    exists p', id, w. split; [done |]. cbv zeta in *. split; [lia |].
    intros [E' | Hin]%elem_of_cons; [lia | done].
  - exists prev, want, want. split; [done |]. cbv zeta.
    destruct (Z.eqb_spec want 0); [unfold BASE_IDENT in *; lia |]. split; [lia |].
    intros [E' | Hin]%elem_of_cons; [lia |].
    rewrite Forall_forall in Hall. specialize (Hall _ Hin). lia.
Qed.

Lemma insert_table_place l1 l2 tb :
  insert_table_at (prev_of 0 None l1) tb (l1 ++ l2) = l1 ++ tb :: l2.
Proof.
  destruct l1 as [| tb1 l1]; [done |]. unfold prev_of, insert_table_at.
  replace (S (0 + length (tb1 :: l1) - 1)) with (length (tb1 :: l1)) by (simpl; lia).
  by rewrite take_app_length, drop_app_length.
Qed.

(** Insertion under an identifier that is not in use. *)
Lemma insert_table_fresh tb ident l :
  tables_ok l -> 0 < ident < 2 ^ 31 -> ident ∉ table_ids l ->
  exists l1 l2, l = l1 ++ l2 /\
    __xdp2_dtable_insert_table tb ident l = (0, ident, l1 ++ dt_set_ident ident tb :: l2) /\
    tables_ok (l1 ++ dt_set_ident ident tb :: l2).
Proof.
  intros [Hs Hp] Hi Hn. unfold __xdp2_dtable_insert_table, __xdp2_dtable_find_table.
  destruct (Z.ltb_spec ident 0); [lia |].
  destruct (find_explicit l ident BASE_IDENT 0 None Hs ltac:(lia))
    as [(j & p & _ & Hin) | (l1 & l2 & -> & -> & H1 & H2)]; [done |].
  exists l1, l2. split; [done |]. destruct (Z.eqb_spec ident 0); [lia |]. cbn [is_null negb].
  destruct (Z.ltb_spec ident 0); [lia |]. rewrite insert_table_place. split; [done |].
  unfold tables_ok, table_ids in *. rewrite fmap_app in *. rewrite fmap_cons. cbn [dt_ident dt_set_ident].
  apply StronglySorted_app in Hs as (Hc & Hs1 & Hs2). apply Forall_app in Hp as [Hp1 Hp2]. split.
  - apply StronglySorted_app. split_and!; [| done | by constructor].
    rewrite Forall_forall in H1, H2. intros x y Hx [-> | Hy]%elem_of_cons; [by apply H1 | by apply Hc].
  - apply Forall_app. split; [done |]. by constructor.
Qed.
End order.

(** Creating a table. In a list of tables with increasing identifiers a
    creation with a non-negative identifier fails only when the identifier is
    taken or memory is short, and leaves the list alone; otherwise the new,
    empty table is linked at its place, under the requested identifier or, for
    zero, under an unused one from [BASE_IDENT] on, and the identifiers still
    increase. *)
Theorem create_table_unique {K} (l : list (xdp2_dtable_table K)) malloc_table malloc_target key_len ident
    default_target dtarget target_len :
  tables_ok l -> 0 <= ident < 2 ^ 31 -> BASE_IDENT + Z.of_nat (length l) < 2 ^ 31 ->
  bytes_at default_target dtarget -> Z.of_nat (length dtarget) = target_len ->
  exists table id l',
    xdp2_dtable_create malloc_table malloc_target key_len ident default_target target_len l
      = Done (table, id, l') /\ tables_ok l' /\
    match table with
    | None => l' = l /\ (ident ∈ table_ids l \/ malloc_table = false \/ malloc_target = false)
    | Some tb => tb = empty_table key_len target_len dtarget id /\ (id ∉ table_ids l) /\
        (ident <> 0 -> id = ident) /\ (ident = 0 -> BASE_IDENT <= id) /\
        exists l1 l2, l = l1 ++ l2 /\ l' = l1 ++ tb :: l2
    end.
Proof.
  intros Hok Hi Hb Hat Htl. pose proof Hok as [Hs Hp]. unfold xdp2_dtable_create.
  assert (exists t p id, __xdp2_dtable_find_table ident l = (t, p, id) /\
    (is_null t = false /\ ident ∈ table_ids l \/
     t = None /\ 0 < id < 2 ^ 31 /\ (id ∉ table_ids l) /\ (ident <> 0 -> id = ident) /\
       (ident = 0 -> BASE_IDENT <= id))) as (t & p & id & -> & Hcase).
  { unfold __xdp2_dtable_find_table. destruct (Z.ltb_spec ident 0); [lia |].
    destruct (decide (ident = 0)) as [-> | Hne].
    - destruct (find_auto l BASE_IDENT 0 None Hs) as (p & i & w & -> & Hid & Hn); [done | done | |].
      { apply Forall_forall. lia. }
      do 3 eexists. split; [done |]. right. unfold BASE_IDENT in *. split_and!; [done | lia | lia | done | done | lia].
    - destruct (find_explicit l ident BASE_IDENT 0 None Hs ltac:(lia))
        as [(j & p & -> & Hin) | (l1 & l2 & -> & -> & H1 & H2)]; do 3 eexists; (split; [done |]).
      + left. by split.
      + right. destruct (Z.eqb_spec ident 0); [lia |]. split_and!; [done | lia | lia | | done | lia].
        unfold table_ids. rewrite fmap_app, elem_of_app. rewrite Forall_forall in H1, H2.
        intros [Hin | Hin]; [specialize (H1 _ Hin) | specialize (H2 _ Hin)]; lia. }
  destruct Hcase as [[Et Hin] | (-> & Hid & Hn & Hne & H0)].
  { rewrite Et. cbn [negb]. do 3 eexists. split_and!; [done | done |]. split; [done | by left]. }
  cbn [is_null negb]. destruct (Z.ltb_spec id 0); [lia |].
  destruct malloc_table; cbn [negb]; [| do 3 eexists; split_and!; [done | done |]; split; [done | by right; left]].
  destruct malloc_target; cbn [negb]; [| do 3 eexists; split_and!; [done | done |]; split; [done | by right; right]].
  rewrite (ld_bytes_key default_target dtarget) by done. orun.
  destruct (insert_table_fresh (DtableTable key_len target_len dtarget id [] [] ∅) id l Hok Hid Hn)
    as (l1 & l2 & El & -> & Hok'). cbn [Z.eqb negb].
  do 3 eexists. split_and!; [done | done |]. cbv iota.
  split_and!; [done | done | done | done | by exists l1, l2].
Qed.

Lemma create_table_unique_witness :
  exists tb l', xdp2_dtable_create true true 4 0 (Ptr [0; 0] 0) 2
                  [empty_table (K := Plain.xdp2_plain_entry_key) 1 1 [0] 5;
                   empty_table 1 1 [0] 1000000] = Done (Some tb, 1000001, l') /\ tables_ok l'.
Proof.
  destruct (create_table_unique
    [empty_table (K := Plain.xdp2_plain_entry_key) 1 1 [0] 5; empty_table 1 1 [0] 1000000]
    true true 4 0 (Ptr [0; 0] 0) [0; 0] 2) as (table & id & l' & E & Hok & Hc).
  - split; repeat constructor.
  - lia.
  - unfold BASE_IDENT. simpl. lia.
  - apply bytes_at_self.
  - reflexivity.
  - vm_compute in E. injection E as <- <- <-. do 2 eexists. split; [vm_compute; reflexivity | exact Hok].
Defined.

(** ** Statically defined tables *)

Section init.
Context {K : Type}.
Implicit Types (tb : xdp2_dtable_table K) (ts : list (xdp2_dtable_table K)).

(** Tables numbered from [BASE_IDENT] on. *)
Definition numbered ts : list (xdp2_dtable_table K) :=
  imap (fun i tb => dt_set_ident (BASE_IDENT + Z.of_nat i) tb) ts.

Lemma find_numbered ts : forall (n i : nat) prev,
  BASE_IDENT + Z.of_nat n + Z.of_nat (length ts) < 2 ^ 31 ->
  find_table_loop 0 (BASE_IDENT + Z.of_nat n)
    (imap (fun i tb => dt_set_ident (BASE_IDENT + Z.of_nat (n + i)) tb) ts) i prev =
  (None, match ts with [] => prev | _ => Some (i + length ts - 1)%nat end, 0,
   BASE_IDENT + Z.of_nat (n + length ts)).
Proof.
  induction ts as [| tb ts IH]; intros n i prev Hb; cbn [imap find_table_loop length] in *.
  { by rewrite Nat.add_0_r. }
  cbn [Z.eqb negb dt_ident dt_set_ident]. rewrite Nat.add_0_r.
  destruct (Z.ltb_spec (BASE_IDENT + Z.of_nat n) BASE_IDENT); [lia |]. rewrite Z.eqb_refl. cbn [negb].
  assert (s32 (BASE_IDENT + Z.of_nat n + 1) = BASE_IDENT + Z.of_nat (S n)) as ->.
  { unfold s32. rewrite sext_small; unfold BASE_IDENT in *; lia. }
  destruct (Z.ltb_spec (BASE_IDENT + Z.of_nat (S n)) 0); [unfold BASE_IDENT in *; lia |].
  rewrite (imap_ext _ (fun i tb => dt_set_ident (BASE_IDENT + Z.of_nat (S n + i)) tb)).
  2: { intros j x _. cbn. do 2 f_equal. lia. }
  rewrite IH by lia. replace (n + S (length ts))%nat with (S n + length ts)%nat by lia.
  destruct ts; simpl; [by rewrite Nat.add_1_r, Nat.sub_succ, Nat.sub_0_r |].
  do 4 f_equal. lia.
Qed.

Lemma insert_numbered ts tb :
  BASE_IDENT + Z.of_nat (length ts) < 2 ^ 31 ->
  __xdp2_dtable_insert_table tb 0 (numbered ts) =
    (0, BASE_IDENT + Z.of_nat (length ts), numbered (ts ++ [tb])).
Proof.
  intros Hb. unfold __xdp2_dtable_insert_table, __xdp2_dtable_find_table, numbered.
  pose proof (find_numbered ts 0 0 None ltac:(lia)) as E.
  rewrite Z.add_0_r, Nat.add_0_l in E. cbn [Nat.add] in E. cbn [Z.ltb Z.compare].
  rewrite E. cbn [is_null negb Z.eqb].
  destruct (Z.ltb_spec (BASE_IDENT + Z.of_nat (length ts)) 0); [unfold BASE_IDENT in *; lia |].
  f_equal. rewrite imap_app. cbn [imap]. rewrite Nat.add_0_r.
  destruct ts as [| t1 ts]; [done |]. unfold insert_table_at.
  replace (S (length (t1 :: ts) - 1)) with (length (t1 :: ts)) by (simpl; lia).
  rewrite <- (length_imap (fun i tb => dt_set_ident (BASE_IDENT + Z.of_nat i) tb) (t1 :: ts)) at 1 3.
  by rewrite firstn_all, drop_all.
Qed.
End init.

(** The tables of one kind, in the order of their definition. *)
Definition defs_of {K} (ty : Z) (defs : list table_def) : list (xdp2_dtable_table K) :=
  def_table <$> filter (fun d => td_type d = ty) defs.

Definition numbered_lists (defs : list table_def) : dtable_lists :=
  DtableLists (numbered (defs_of XDP2_DTABLE_TABLE_TYPE_PLAIN defs))
    (numbered (defs_of XDP2_DTABLE_TABLE_TYPE_TERN defs))
    (numbered (defs_of XDP2_DTABLE_TABLE_TYPE_LPM defs)).

Lemma defs_of_snoc {K} ty defs d :
  defs_of (K := K) ty (defs ++ [d]) =
    if td_type d =? ty then defs_of ty defs ++ [def_table d] else defs_of ty defs.
Proof.
  unfold defs_of. rewrite filter_app, fmap_app. destruct (Z.eqb_spec (td_type d) ty) as [E | Hne].
  - by rewrite filter_cons_True.
  - by rewrite filter_cons_False, filter_nil, app_nil_r.
Qed.

Lemma defs_of_length {K} ty defs : (length (defs_of (K := K) ty defs) <= length defs)%nat.
Proof. unfold defs_of. rewrite length_fmap. apply length_filter. Qed.

(** Initialization. With known table types and fewer tables than there are
    automatic identifiers, [xdp2_dtable_init] succeeds and each global list holds
    the tables of its kind, empty, in the order of their definition, numbered
    consecutively from [BASE_IDENT]. *)
Theorem dtable_init_numbers defs :
  Forall (fun d => 0 <= td_type d <= 3) defs -> BASE_IDENT + Z.of_nat (length defs) < 2 ^ 31 ->
  xdp2_dtable_init defs = Some (numbered_lists defs).
Proof.
  intros Hty Hb. unfold xdp2_dtable_init.
  induction defs as [| d defs IH] using rev_ind; [done |]. rewrite foldl_app. cbn [foldl].
  apply Forall_app in Hty as [Hty Hd]. apply Forall_cons_1 in Hd as [Hd _].
  rewrite length_app in Hb. cbn [length] in Hb. rewrite IH by (done || lia).
  cbn [mbind option_bind]. unfold init_table, numbered_lists. cbn [plain_tables tern_tables lpm_tables].
  pose proof (@defs_of_length Plain.xdp2_plain_entry_key XDP2_DTABLE_TABLE_TYPE_PLAIN defs).
  pose proof (@defs_of_length Tern.xdp2_tern_entry_key XDP2_DTABLE_TABLE_TYPE_TERN defs).
  pose proof (@defs_of_length Lpm.xdp2_lpm_entry_key XDP2_DTABLE_TABLE_TYPE_LPM defs).
  rewrite !insert_numbered by lia. rewrite !defs_of_snoc. cbn [Z.eqb negb].
  assert (td_type d = 0 \/ td_type d = 1 \/ td_type d = 2 \/ td_type d = 3) as [-> | [-> | [-> | ->]]]
    by lia; reflexivity.
Qed.

Lemma dtable_init_numbers_witness :
  xdp2_dtable_init [TableDef 0 0 0 [] 0; TableDef 1 4 1 [0] 0; TableDef 3 4 1 [0] 0; TableDef 1 2 1 [0] 0]
  = Some (numbered_lists [TableDef 0 0 0 [] 0; TableDef 1 4 1 [0] 0; TableDef 3 4 1 [0] 0;
                          TableDef 1 2 1 [0] 0]).
Proof.
  apply dtable_init_numbers.
  - repeat constructor; discriminate.
  - unfold BASE_IDENT. simpl. lia.
Defined.
