(* ===== verification/Stable.v ===== *)
(** * Static tables

    The lookup functions that the macros of [include/xdp2/stable.h] and
    [table_common.h] generate. The entries of a table are the array in its linker
    section, in the order of their definition. A target table returns the target of
    an entry; a function table calls its action. *)

From stdpp Require Import base list gmap numbers sorting.
From S2P Require Import Prelude FlagFields Bytes Siphash SiphashSpec Switch Dtable DtableSpec DtableKeyed DtablePlain DtableLpm DtableTern.

(** ** Code *)

(** [T] is the type of targets, or of actions. *)
Record entry_struct (T : Type) := Entry { se_key : list Z; se_key_mask : list Z; se_prefix_len : Z; se_target : T }.
Arguments Entry {T}. Arguments se_key {T}. Arguments se_key_mask {T}. Arguments se_prefix_len {T}. Arguments se_target {T}.

(** A field of the key: the bytes of a member of the parameters, or, with a cast,
    the value of an expression converted to a number of bytes. *)
Inductive key_field :=
| FieldCopy (offset size : Z)
| FieldCast (size : nat) (get : ptr -> outcome Z).

(** The structure of the key is packed. *)
Fixpoint make_key (fs : list key_field) (params : ptr) : outcome (list Z) :=
  match fs with
  | [] => mret []
  | f :: fs =>
    bytes ← match f with
            | FieldCopy offset size => ld_bytes (Z.to_nat size) params offset
            | FieldCast size get => v ← get params; mret (le_bytes size v)
            end;
    rest ← make_key fs params;
    mret (bytes ++ rest)
  end.

Section Table.
Context {T : Type} (key_size : Z).

(** Members that an initializer leaves out are zero. *)
Definition XDP2_STABLE_ADD_PLAIN_MATCH (key : list Z) (target : T) : entry_struct T := Entry key (replicate (Z.to_nat key_size) 0) 0 target.
Definition XDP2_STABLE_ADD_TERN_MATCH (key key_mask : list Z) (target : T) : entry_struct T := Entry key key_mask 0 target.
Definition XDP2_STABLE_ADD_LPM_MATCH (key : list Z) (prefix_len : Z) (target : T) : entry_struct T :=
  Entry key (replicate (Z.to_nat key_size) 0) prefix_len target.

Definition compare_by_key (use_key_mask : bool) (key : ptr) (e : entry_struct T) : outcome bool :=
  if use_key_mask then xdp2_compare_tern (Ptr (se_key e) 0) key (Ptr (se_key_mask e) 0) key_size
  else xdp2_compare_equal (Ptr (se_key e) 0) key key_size.
Definition compare_lpm_by_key (key : ptr) (e : entry_struct T) : outcome bool :=
  xdp2_compare_prefix (Ptr (se_key e) 0) key (se_prefix_len e).
Definition compare_func (use_key_mask : bool) (fs : list key_field) (params : ptr) (e : entry_struct T) : outcome bool :=
  key ← make_key fs params; compare_by_key use_key_mask (Ptr key 0) e.

Fixpoint lookup_loop (cmp : entry_struct T -> outcome bool) (es : list (entry_struct T)) : outcome (option (entry_struct T)) :=
  match es with
  | [] => mret None
  | e :: es => hit ← cmp e; if (hit : bool) then mret (Some e) else lookup_loop cmp es
  end.

(** [longest_match] is an [int] and [prefix_len] is unsigned. *)
Fixpoint lookup_lpm_loop (key : ptr) (longest_match : Z) (lm_def : option (entry_struct T)) (es : list (entry_struct T)) : outcome (option (entry_struct T)) :=
  match es with
  | [] => mret lm_def
  | e :: es =>
    if se_prefix_len e <=? u32 longest_match then lookup_lpm_loop key longest_match lm_def es else
    hit ← compare_lpm_by_key key e;
    if (hit : bool) then lookup_lpm_loop key (s32 (se_prefix_len e)) (Some e) es else lookup_lpm_loop key longest_match lm_def es
  end.

Context (entries : list (entry_struct T)) (default_target : T).

Definition target_of (e : option (entry_struct T)) : T := match e with Some e => se_target e | None => default_target end.

Definition stable_lookup_by_key (use_key_mask : bool) (key : ptr) : outcome T :=
  target_of <$> lookup_loop (compare_by_key use_key_mask key) entries.
Definition stable_lookup_plain_by_key : ptr -> outcome T := stable_lookup_by_key false.
Definition stable_lookup_tern_by_key : ptr -> outcome T := stable_lookup_by_key true.
Definition stable_lookup_lpm_by_key (key : ptr) : outcome T := target_of <$> lookup_lpm_loop key 0 None entries.

Definition stable_lookup_plain (fs : list key_field) (params : ptr) : outcome T := key ← make_key fs params; stable_lookup_plain_by_key (Ptr key 0).
Definition stable_lookup_tern (fs : list key_field) (params : ptr) : outcome T := key ← make_key fs params; stable_lookup_tern_by_key (Ptr key 0).
Definition stable_lookup_lpm (fs : list key_field) (params : ptr) : outcome T := key ← make_key fs params; stable_lookup_lpm_by_key (Ptr key 0).
End Table.

(** Function tables: the action that is found changes the common arguments [st]. *)
Section Function_table.
Context {S : Type} (key_size : Z) (entries : list (entry_struct (S -> outcome S))) (default_action : S -> outcome S).

Definition sftable_lookup_by_key (use_key_mask : bool) (key : ptr) (st : S) : outcome S :=
  r ← lookup_loop (compare_by_key key_size use_key_mask key) entries;
  match r with Some e => se_target e st | None => default_action st end.
Definition sftable_lookup_lpm_by_key (key : ptr) (st : S) : outcome S :=
  r ← lookup_lpm_loop key 0 None entries;
  match r with Some e => se_target e st | None => default_action st end.
Definition sftable_lookup (use_key_mask : bool) (fs : list key_field) (params : ptr) (st : S) : outcome S :=
  key ← make_key fs params; sftable_lookup_by_key use_key_mask (Ptr key 0) st.
Definition sftable_lookup_lpm (fs : list key_field) (params : ptr) (st : S) : outcome S :=
  key ← make_key fs params; sftable_lookup_lpm_by_key (Ptr key 0) st.

(** A function table runs the action that a target table with the same entries
    returns. *)
Lemma sftable_target use_key_mask key st :
  sftable_lookup_by_key use_key_mask key st = (a ← stable_lookup_by_key key_size entries default_action use_key_mask key; a st).
Proof. unfold sftable_lookup_by_key, stable_lookup_by_key. destruct (lookup_loop _ _) as [[e |] | |]; done. Qed.
Lemma sftable_lpm_target key st : sftable_lookup_lpm_by_key key st = (a ← stable_lookup_lpm_by_key entries default_action key; a st).
Proof. unfold sftable_lookup_lpm_by_key, stable_lookup_lpm_by_key. destruct (lookup_lpm_loop _ _ _ _) as [[e |] | |]; done. Qed.
End Function_table.

(** ** Lookups *)

Lemma lookup_loop_find {T} cmp mb (es : list (entry_struct T)) :
  Forall (fun e => cmp e = Done (mb e)) es -> lookup_loop cmp es = Done (List.find mb es).
Proof. induction 1 as [| e es E _ IH]; cbn [lookup_loop List.find]; [done |]. rewrite E. orun. by destruct (mb e). Qed.

(** The keys and masks of the entries have the size of the key. *)
Definition entry_ok {T} (len : Z) (e : entry_struct T) : Prop := key_ok len (se_key e) /\ key_ok len (se_key_mask e).

Lemma plain_compare {T} len (es : list (entry_struct T)) p k :
  Forall (entry_ok len) es -> key_ok len k -> bytes_at p k ->
  Forall (fun e => compare_by_key len false p e = Done (bool_decide (se_key e = k))) es.
Proof.
  intros Hes [Hk _] Hp. eapply Forall_impl; [exact Hes |]. intros e [[He _] _]. unfold compare_by_key. rewrite <- He.
  apply xdp2_compare_equal_spec; [apply bytes_at_self | done | lia].
Qed.

(** The result of a comparison under a mask. *)
Definition tern_hitb (len : Z) (p : ptr) (km : list Z) : bool :=
  match xdp2_compare_tern (Ptr km 0) p (padd (Ptr km 0) len) len with Done b => b | _ => false end.

Lemma tern_hitb_spec len p k key m : key_ok len k -> key_ok len key -> key_ok len m -> bytes_at p k -> tern_hitb len p (key ++ m) = true <-> mask_eq m key k.
Proof.
  intros [Hk _] [Hl Hu] [Hm Hum] Hp. unfold tern_hitb.
  replace (padd (Ptr (key ++ m) 0) len) with (padd (Ptr (key ++ m) 0) (Z.of_nat (length key))) by (by rewrite Hl). rewrite <- Hm.
  destruct (xdp2_compare_tern_spec (Ptr (key ++ m) 0) p (padd (Ptr (key ++ m) 0) (Z.of_nat (length key))) key k m) as (b & -> & Hb); try done; try lia.
  - exact (bytes_at_app_l _ _ _ (bytes_at_self _)).
  - exact (bytes_at_app_r _ _ _ (bytes_at_self _)).
Qed.

Lemma tern_compare {T} len (es : list (entry_struct T)) p k :
  Forall (entry_ok len) es -> key_ok len k -> bytes_at p k ->
  Forall (fun e => compare_by_key len true p e = Done (tern_hitb len p (se_key e ++ se_key_mask e))) es.
Proof.
  intros Hes Hk Hp. eapply Forall_impl; [exact Hes |]. intros e [He Hm]. unfold compare_by_key.
  pose proof (tern_hitb_spec len p k _ _ Hk He Hm Hp) as Hb. destruct Hk as [Hk _], He as [He Hu], Hm as [Hm Hum]. rewrite <- Hm.
  destruct (xdp2_compare_tern_spec (Ptr (se_key e) 0) p (Ptr (se_key_mask e) 0) (se_key e) k (se_key_mask e)) as (b & -> & Hb'); try done; try lia; try apply bytes_at_self.
  f_equal. rewrite Hm. destruct b, (tern_hitb len p _); try done; [symmetry; apply Hb, Hb'; done | apply Hb', Hb; done].
Qed.

(** The longest match so far is better than the entries before. *)
Definition lpm_best {T} (k : list Z) (es : list (entry_struct T)) (r : option (entry_struct T)) : Prop :=
  match r with
  | None => forall e, e ∈ es -> prefix_eq (Z.to_nat (se_prefix_len e)) (se_key e) k -> se_prefix_len e <= 0
  | Some b => b ∈ es /\ prefix_eq (Z.to_nat (se_prefix_len b)) (se_key b) k /\ 0 < se_prefix_len b /\
    forall e, e ∈ es -> prefix_eq (Z.to_nat (se_prefix_len e)) (se_key e) k -> se_prefix_len e <= se_prefix_len b
  end.

Lemma lpm_compare {T} len (e : entry_struct T) p k : prefix_ok len (se_key e, se_prefix_len e) -> key_ok len k -> bytes_at p k ->
  exists b, compare_lpm_by_key p e = Done b /\ (b = true <-> prefix_eq (Z.to_nat (se_prefix_len e)) (se_key e) k).
Proof.
  intros ([Hl Hu] & Hp & Hlt) [Hk Hku] Hat. cbn [fst snd] in *. unfold compare_lpm_by_key.
  pose proof (xdp2_compare_prefix_spec (Ptr (se_key e) 0) p (se_key e) k (Z.to_nat (se_prefix_len e))) as Hc.
  rewrite Z2Nat.id in Hc by lia. apply Hc; try done; [apply bytes_at_self | lia | lia].
Qed.

Lemma s32_u32 x : 0 <= x < 2 ^ 32 -> u32 (s32 x) = x.
Proof. intros H. unfold u32, s32, sext. rewrite (Z.mod_small x) by lia. destruct (Z.ltb_spec x (2 ^ (32 - 1))); [by apply Z.mod_small |]. rewrite <- (Z.mod_add _ 1) by lia. replace (x - 2 ^ 32 + 1 * 2 ^ 32) with x by lia. by apply Z.mod_small. Qed.

Lemma lookup_lpm_best {T} len p k (es : list (entry_struct T)) : key_ok len k -> bytes_at p k -> Forall (fun e => prefix_ok len (se_key e, se_prefix_len e) /\ se_prefix_len e < 2 ^ 32) es ->
  forall pre lm, lpm_best k pre lm -> (forall b, lm = Some b -> se_prefix_len b < 2 ^ 32) ->
  exists r, lookup_lpm_loop p (s32 (from_option se_prefix_len 0 lm)) lm es = Done r /\ lpm_best k (pre ++ es) r.
Proof.
  intros Hk Hat Hes. induction Hes as [| e es [He H32] _ IH]; intros pre lm Hlm Hb; [exists lm; by rewrite app_nil_r |].
  cbn [lookup_lpm_loop]. rewrite (cons_middle e pre es), app_assoc. pose proof He as (_ & Hp & _). cbn [snd] in Hp.
  assert (0 <= from_option se_prefix_len 0 lm < 2 ^ 32) as Hr by (destruct lm as [b |]; cbn; [pose proof (Hb b eq_refl); destruct Hlm as (_ & _ & ? & _); lia | lia]).
  rewrite s32_u32 by exact Hr. destruct (Z.leb_spec (se_prefix_len e) (from_option se_prefix_len 0 lm)) as [Hle | Hgt].
  - apply IH; [| done]. destruct lm as [b |]; cbn in *.
    + destruct Hlm as (H1 & H2 & H3 & H4). split_and!; [apply elem_of_app; by left | done | done |].
      intros e' [?| ->%list_elem_of_singleton]%elem_of_app; [by apply H4 | done].
    + intros e' [?| ->%list_elem_of_singleton]%elem_of_app; [by apply Hlm | done].
  - destruct (lpm_compare len e p k He Hk Hat) as (b & -> & Hm). orun. destruct b.
    + change (s32 (se_prefix_len e)) with (s32 (from_option se_prefix_len 0 (Some e))). apply IH; [| by intros ? [= <-]]. cbn.
      split_and!; [apply elem_of_app; right; by left | by apply Hm | lia |].
      intros e' [Hin | ->%list_elem_of_singleton]%elem_of_app Hpe; [| done]. destruct lm as [b |]; cbn in *; [destruct Hlm as (_ & _ & _ & H4); specialize (H4 e' Hin Hpe); lia | specialize (Hlm e' Hin Hpe); lia].
    + apply IH; [| done]. destruct lm as [b |]; cbn in *.
      * destruct Hlm as (H1 & H2 & H3 & H4). split_and!; [apply elem_of_app; by left | done | done |].
        intros e' [? | ->%list_elem_of_singleton]%elem_of_app Hpe; [by apply H4 | by apply Hm in Hpe].
      * intros e' [? | ->%list_elem_of_singleton]%elem_of_app Hpe; [by apply Hlm | by apply Hm in Hpe].
Qed.

(** ** Agreement with the dynamic tables

    The same entries added one after the other to an empty dynamic table, with
    automatic identifiers. *)

Local Abbreviation targ_entry := (entry_struct (list Z)).

Definition adds {B} (id_of : targ_entry -> B) (es : list targ_entry) : list (table_op B) := (fun e => OpAdd true 0 (id_of e) (se_target e)) <$> es.
(** Ternary entries have their indices as positions. *)
Definition tern_adds (es : list targ_entry) : list (table_op tern_id) := imap (fun i e => OpAdd true 0 (se_key e, se_key_mask e, Z.of_nat i) (se_target e)) es.

Definition lpm_id (e : targ_entry) : list Z * Z := (se_key e, se_prefix_len e).

(** The first entry with a key determines its target. *)
Lemma adds_map `{Countable B} (id_of : targ_entry -> B) code es : forall m rs m', map_steps code m (adds id_of es) rs m' ->
  BASE_IDENT + Z.of_nat (size m + length es) < 2 ^ 31 ->
  forall b, snd <$> m' !! b = match m !! b with Some v => Some v.2 | None => se_target <$> List.find (fun e => bool_decide (id_of e = b)) es end.
Proof.
  induction es as [| e es IH]; intros m rs m' Hs Hsz b; cbn [adds fmap list_fmap List.find] in *; inversion Hs as [| ? ? ? m1 ? ? ? H1 H2]; subst; [by destruct (m' !! b) |].
  assert (size m1 <= size m + 1)%nat as Hs1.
  { inversion H1; subst; [lia | lia |]. rewrite map_size_insert_None by done. lia. }
  rewrite (IH m1 _ _ H2 ltac:(cbn in Hsz; lia) b). inversion H1 as [? ? ? ? ? Hex | ? ? ? ? ? Hn Href | ? ? ? ? ? id Hn Hid | | |]; subst.
  - destruct (m1 !! b) eqn:Eb; [done |]. case_bool_decide as Eq; [| done]. subst b. rewrite Eb in Hex. by destruct Hex.
  - destruct Href as [? | [[? _] | [_ ?]]]; [done | done | cbn in Hsz; lia].
  - case_bool_decide as Eq.
    + subst b. by rewrite lookup_insert_eq, Hn.
    + rewrite lookup_insert_ne by congruence. done.
Qed.

Lemma find_skip {A} (f : A -> bool) l l' : (forall x, x ∈ l -> f x = false) -> List.find f (l ++ l') = List.find f l'.
Proof. induction l as [| x l IH]; intros H; cbn; [done |]. rewrite H by (by left). apply IH. intros y Hy. apply H. by right. Qed.

(** A second row with the key and mask of a row before it is never found. *)
Lemma find_dup {A} (f : A -> bool) l x y l' : x ∈ l -> f x = f y -> List.find f (l ++ y :: l') = List.find f (l ++ l').
Proof.
  intros Hin E. induction l as [| z l IH]; [by apply not_elem_of_nil in Hin |]. cbn [app List.find]. destruct (f z) eqn:Ez; [done |].
  apply elem_of_cons in Hin as [<- | Hin]; [| by apply IH]. rewrite Ez in E. clear IH Ez. induction l as [| w l IHl]; cbn [app List.find]; [by rewrite <- E | by rewrite IHl].
Qed.

Definition row_pair (r : row Tern.xdp2_tern_entry_key) : list Z * list Z := (Tern.tk_key (row_key r), row_targ r).
Definition entry_pair (e : targ_entry) : list Z * list Z := (se_key e ++ se_key_mask e, se_target e).

Lemma tern_adds_rows (f : list Z -> bool) es : forall (i : nat) rows rs rows', tern_steps rows (imap (fun j e => OpAdd true 0 (se_key e, se_key_mask e, Z.of_nat (i + j)) (se_target e)) es) rs rows' ->
  Forall (fun r => tpos r < Z.of_nat i) rows -> BASE_IDENT + Z.of_nat (length rows + length es) < 2 ^ 31 ->
  List.find (fun x => f x.1) (row_pair <$> rows') = List.find (fun x => f x.1) ((row_pair <$> rows) ++ (entry_pair <$> es)).
Proof.
  induction es as [| e es IH]; intros i rows rs rows' Hs Hp Hsz; cbn [imap fmap list_fmap] in *; inversion Hs as [| rows0 op0 ret rows1 ops0 rs0 rows2 H1 H2]; subst; [by rewrite app_nil_r |].
  assert (forall rows1, Forall (fun r => tpos r < Z.of_nat i) rows1 -> Forall (fun r => tpos r < Z.of_nat (S i)) rows1) as Hw by (intros ? H; eapply Forall_impl; [exact H |]; cbn; lia).
  rewrite (imap_ext _ (fun j e => OpAdd true 0 (se_key e, se_key_mask e, Z.of_nat (S i + j)) (se_target e))) in H2 by (intros j x Hj; cbn; do 3 f_equal; lia).
  inversion H1 as [rows0 ok0 ident0 b0 targ0 r Hin [Hhas _] | ? ? ? ? ? Hno Href | r1 r2 ? ? ? ? id Hno Hp1 Hp2 Hid | | | |]; subst.
  - rewrite (IH (S i) _ _ _ H2) by (auto || cbn in Hsz; lia). symmetry. apply (find_dup _ _ (row_pair r)); [by apply list_elem_of_fmap_2 |]. cbn. by rewrite Hhas.
  - destruct Href as [? | [[? _] | [_ ?]]]; [done | done | cbn in Hsz; lia].
  - destruct r2 as [| r2 r2s]; [| exfalso; apply Forall_app in Hp as [_ [Hp _]%Forall_cons_1]; apply Forall_cons_1 in Hp2 as [Hp2 _]; cbn in Hp2; lia].
    rewrite app_nil_r in *. rewrite (IH (S i) _ _ _ H2).
    + rewrite fmap_app, <- app_assoc. done.
    + apply Forall_app. split; [auto |]. constructor; [cbn; lia | constructor].
    + rewrite length_app. cbn in Hsz |- *. lia.
Qed.

(** What the entries of a table with keys of [len] bytes and targets like [dflt]
    have to be. *)
Record entries_ok (len : Z) (dflt : list Z) (es : list targ_entry) : Prop := {
  eo_len : 0 <= len;
  eo_keys : Forall (entry_ok len) es;
  eo_targs : Forall (fun e => length (se_target e) = length dflt) es;
  eo_count : BASE_IDENT + Z.of_nat (length es) < 2 ^ 31 }.

Definition new_table {K} (len : Z) (dflt : list Z) (id : Z) : xdp2_dtable_table K := empty_table len (Z.of_nat (length dflt)) dflt id.

Section Agree.
Context (len : Z) (dflt : list Z) (id : Z) (es : list targ_entry) (Hes : entries_ok len dflt es).
Context (p : ptr) (k : list Z) (Hk : key_ok len k) (Hp : bytes_at p k).

Lemma adds_ok {B} (id_of : targ_entry -> B) (P : targ_entry -> Prop) (ok : Z -> Z -> table_op B -> Prop) :
  (forall e, P e -> length (se_target e) = length dflt -> ok len (Z.of_nat (length dflt)) (OpAdd true 0 (id_of e) (se_target e))) -> Forall P es ->
  Forall (ok len (Z.of_nat (length dflt))) (adds id_of es).
Proof using Hes.
  intros H HP. unfold adds. apply Forall_fmap. eapply Forall_impl; [exact (proj2 (Forall_and _ _) (conj HP (eo_targs _ _ _ Hes))) |]. intros e [? ?]. cbn. by apply H.
Qed.

Lemma plain_agree is_aligned : exists rs t v,
  exec_ops (exec_plain is_aligned) (new_table len dflt id) (adds se_key es) = Done (rs, t) /\
  stable_lookup_plain_by_key len es dflt p = Done v /\ Plain.xdp2_dtable_lookup_plain is_aligned t p = Done v.
Proof using Hes Hk Hp.
  destruct (exec_ops_refines (exec_plain is_aligned) (@Datatypes.id Z) plain_repr plain_op_ok (exec_plain_refines is_aligned) (adds se_key es) (new_table len dflt id) ∅)
    as (rs & t & m & E & Hsh & Hm & Hr).
  { apply empty_plain_repr; [exact (eo_len _ _ _ Hes) | done]. }
  { apply (adds_ok se_key (entry_ok len) plain_op_ok); [| exact (eo_keys _ _ _ Hes)]. intros e [He _] Ht. split; [done | by rewrite Ht]. }
  exists rs, t, (target_of dflt (List.find (fun e => bool_decide (se_key e = k)) es)). split_and!; [exact E | |].
  - unfold stable_lookup_plain_by_key, stable_lookup_by_key. rewrite (lookup_loop_find _ (fun e => bool_decide (se_key e = k))); [done |].
    apply plain_compare; [exact (eo_keys _ _ _ Hes) | done | done].
  - destruct Hsh as (Ek & _ & Ed & _). rewrite (sim_lookup is_aligned t m Hr p k); [| by rewrite Ek | done]. rewrite Ed. f_equal.
    rewrite (adds_map se_key (@Datatypes.id Z) es ∅ rs m Hm); [| rewrite map_size_empty; exact (eo_count _ _ _ Hes)]. rewrite lookup_empty. by destruct (List.find _ _).
Qed.

Lemma exec_tern_ops ops : forall t rows, tern_repr t rows -> Forall (tern_op_ok (dt_key_len t) (dt_targ_len t)) ops ->
  exists rs t' rows', exec_ops exec_tern t ops = Done (rs, t') /\ same_shape t t' /\ tern_steps rows ops rs rows' /\ tern_repr t' rows'.
Proof using.
  clear. induction ops as [| op ops IH]; intros t rows Hr Ho; [exists [], t, rows; split_and!; [done | apply same_shape_refl | constructor | done] |].
  apply Forall_cons_1 in Ho as [Ho Hos]. destruct (exec_tern_refines t rows op Hr Ho) as (r & t1 & rows1 & E1 & Hsh & Hst & Hr1).
  pose proof Hsh as (Ek & Et & _). destruct (IH t1 rows1 Hr1) as (rs & t2 & rows2 & E2 & Hsh2 & Hsts & Hr2); [by rewrite Ek, Et |].
  exists (r :: rs), t2, rows2. cbn [exec_ops]. rewrite E1. orun. rewrite E2. split_and!; [done | | by econstructor | done].
  unfold same_shape in *. intuition congruence.
Qed.

Lemma tern_agree : exists rs t v,
  exec_ops exec_tern (new_table len dflt id) (tern_adds es) = Done (rs, t) /\
  stable_lookup_tern_by_key len es dflt p = Done v /\ Tern.xdp2_dtable_lookup_tern t p = Done v.
Proof using Hes Hk Hp.
  destruct (exec_tern_ops (tern_adds es) (new_table len dflt id) []) as (rs & t & rows & E & Hsh & Hst & Hr).
  { split; [apply empty_table_repr; [exact (eo_len _ _ _ Hes) | done] |]. constructor; constructor. }
  { unfold tern_adds. apply Forall_lookup_2. intros i op Hop. rewrite list_lookup_imap in Hop. destruct (es !! i) as [e |] eqn:Ee; [| done]. injection Hop as <-.
    pose proof (Forall_lookup_1 _ _ _ _ (eo_keys _ _ _ Hes) Ee) as [? ?]. split; [by split |]. cbn. by rewrite (Forall_lookup_1 _ _ _ _ (eo_targs _ _ _ Hes) Ee). }
  pose proof (tern_adds_rows (tern_hitb len p) es 0 [] rs rows Hst ltac:(constructor) (eo_count _ _ _ Hes)) as Hfind. cbn [fmap list_fmap app] in Hfind.
  assert (lookup_loop (compare_by_key len true p) es = Done (List.find (fun e => tern_hitb len p (se_key e ++ se_key_mask e)) es)) as El
    by (apply lookup_loop_find, (tern_compare _ _ _ k); [exact (eo_keys _ _ _ Hes) | done | done]).
  exists rs, t, (target_of dflt (List.find (fun e => tern_hitb len p (se_key e ++ se_key_mask e)) es)). split_and!; [exact E | unfold stable_lookup_tern_by_key, stable_lookup_by_key; by rewrite El |].
  assert (target_of dflt (List.find (fun e => tern_hitb len p (se_key e ++ se_key_mask e)) es) = from_option snd dflt (List.find (fun x => tern_hitb len p x.1) (entry_pair <$> es))) as ->.
  { clear. induction es as [| e es' IH]; cbn; [done |]. by destruct (tern_hitb _ _ _). }
  rewrite <- Hfind. pose proof Hsh as (Ek & _ & Ed & _). cbn in Ek, Ed. assert (key_ok (dt_key_len t) k) as Hk' by (by rewrite Ek).
  assert (forall r, r ∈ rows -> tern_hitb len p (row_pair r).1 = true <-> tern_matches r k) as Hm.
  { intros r Hin. destruct (tern_match_eq t rows Hr k Hk' p Hp r Hin) as (b & Eb & Hb). unfold tern_hitb, row_pair. cbn. unfold Tern.tern_match in Eb. rewrite Ek in Eb. by rewrite Eb. }
  destruct (lookup_tern_rows t rows Hr k Hk' p Hp) as [[Hno ->] | (r1 & r & r2 & Er & Hno & Hr' & -> & _)]; f_equal.
  - rewrite Ed, <- (app_nil_r (row_pair <$> rows)), find_skip; [done |].
    intros x (r & -> & Hin)%list_elem_of_fmap_1. apply not_true_is_false. rewrite Hm by done. by apply Hno.
  - rewrite Er, fmap_app, find_skip.
    + cbn. assert (tern_hitb len p (row_pair r).1 = true) as E1 by (apply Hm; [rewrite Er; apply elem_of_app; right; by left | done]). cbn in E1. by rewrite E1.
    + intros x (r' & -> & Hin)%list_elem_of_fmap_1. apply not_true_is_false. rewrite Hm by (rewrite Er; apply elem_of_app; by left). by apply Hno.
Qed.

Lemma find_elem {A} (f : A -> bool) l x : List.find f l = Some x -> x ∈ l /\ f x = true.
Proof using. intros H. apply List.find_some in H as [H ?]. split; [by apply list_elem_of_In | done]. Qed.

(** The lengths of prefixes are positive, and two entries with the same prefix have
    the same target. *)
Definition prefixes_ok : Prop :=
  Forall (fun e => prefix_ok len (lpm_id e) /\ 0 < se_prefix_len e < 2 ^ 32) es /\
  forall e e', e ∈ es -> e' ∈ es -> se_prefix_len e = se_prefix_len e' -> prefix_eq (Z.to_nat (se_prefix_len e)) (se_key e) (se_key e') -> se_target e = se_target e'.

Lemma lpm_agree : prefixes_ok -> exists rs t v,
  exec_ops exec_lpm (new_table len dflt id) (adds lpm_id es) = Done (rs, t) /\
  stable_lookup_lpm_by_key es dflt p = Done v /\ Lpm.xdp2_dtable_lookup_lpm t p = Done v.
Proof using Hes Hk Hp.
  intros [Hok Hsame].
  destruct (exec_ops_refines exec_lpm (fun _ => 0) lpm_repr lpm_op_ok exec_lpm_refines (adds lpm_id es) (new_table len dflt id) ∅) as (rs & t & m & E & Hsh & Hm & Hr).
  { apply empty_lpm_repr; [exact (eo_len _ _ _ Hes) | done]. }
  { eapply (adds_ok lpm_id _ lpm_op_ok); [| exact Hok]. intros e [He _] Ht. split; [done | by rewrite Ht]. }
  pose proof (adds_map lpm_id (fun _ => 0) es ∅ rs m Hm ltac:(rewrite map_size_empty; exact (eo_count _ _ _ Hes))) as Hmap.
  destruct (lookup_lpm_best len p k es Hk Hp) with (pre := @nil targ_entry) (lm := @None targ_entry) as (r & El & Hbest); [| by intros ? ?%not_elem_of_nil | done |].
  { eapply Forall_impl; [exact Hok |]. intros e [He [_ ?]]. by split. }
  change (s32 (from_option se_prefix_len 0 None)) with 0 in El. cbn [app] in Hbest.
  exists rs, t, (target_of dflt r). split_and!; [exact E | unfold stable_lookup_lpm_by_key; by rewrite El |].
  pose proof Hsh as (Ek & _ & Ed & _). cbn in Ek, Ed.
  assert (forall e, e ∈ es -> exists n, m !! lpm_id e = Some (n, se_target e)) as Hin.
  { intros e He. pose proof (Hmap (lpm_id e)) as Hb. rewrite lookup_empty in Hb. destruct (List.find _ _) as [e' |] eqn:Ef.
    - apply find_elem in Ef as [He' Eq%bool_decide_eq_true]. destruct (m !! lpm_id e) as [[n v] |] eqn:Ev; [| done]. injection Hb as ->. exists n. injection Eq as Ek' El'.
      rewrite (Hsame e' e He' He); [done | done |]. rewrite Ek'. by intros j Hj.
    - exfalso. apply list_elem_of_In in He. pose proof (List.find_none _ _ Ef e He) as Hf. by apply bool_decide_eq_false in Hf. }
  assert (forall b n v, m !! b = Some (n, v) -> exists e, e ∈ es /\ lpm_id e = b /\ se_target e = v) as Hout.
  { intros b n v Hb. pose proof (Hmap b) as Hb'. rewrite Hb, lookup_empty in Hb'. destruct (List.find _ _) as [e |] eqn:Ef; [| done]. injection Hb' as ->.
    apply find_elem in Ef as [? ?%bool_decide_eq_true]. by exists e. }
  rewrite <- Ek in Hk. destruct (sim_lookup_lpm t m p k Hr Hk Hp) as [[Hno ->] | (b & n & v & Hb & Hmt & -> & Hmax)]; f_equal.
  - rewrite Ed. destruct r as [c |]; [exfalso | done]. destruct Hbest as (Hc & Hpc & _). destruct (Hin c Hc) as [n Hn]. exact (Hno _ _ Hn Hpc).
  - destruct (Hout b n v Hb) as (e & He & <- & <-). destruct r as [c |]; cbn in Hbest |- *.
    + destruct Hbest as (Hc & Hpc & _ & Hle). destruct (Hin c Hc) as [n' Hn']. pose proof (Hmax _ _ Hn' Hpc) as H1. pose proof (Hle e He Hmt) as H2. cbn in H1. symmetry.
      apply Hsame; [done | done | lia |]. intros j Hj. rewrite (Hpc j Hj). symmetry. apply Hmt. cbn. replace (se_prefix_len e) with (se_prefix_len c) by lia. done.
    + rewrite Forall_forall in Hok. specialize (Hbest e He Hmt). destruct (Hok e He) as [_ ?]. lia.
Qed.
End Agree.

(** C35: static and dynamic tables agree. When the entries of a static table are added
    in their order to an empty dynamic table of the same kind, every lookup in the
    two tables returns, and returns the same target: for plain tables, for ternary
    tables whose positions are the indices of the entries, and for longest prefix
    match tables whose prefixes are not empty and determine their targets. *)
Theorem stable_dtable_agree is_aligned len dflt id es p k :
  entries_ok len dflt es -> key_ok len k -> bytes_at p k ->
  (exists rs t v, exec_ops (exec_plain is_aligned) (new_table len dflt id) (adds se_key es) = Done (rs, t) /\
     stable_lookup_plain_by_key len es dflt p = Done v /\ Plain.xdp2_dtable_lookup_plain is_aligned t p = Done v) /\
  (exists rs t v, exec_ops exec_tern (new_table len dflt id) (tern_adds es) = Done (rs, t) /\
     stable_lookup_tern_by_key len es dflt p = Done v /\ Tern.xdp2_dtable_lookup_tern t p = Done v) /\
  (prefixes_ok len es -> exists rs t v, exec_ops exec_lpm (new_table len dflt id) (adds lpm_id es) = Done (rs, t) /\
     stable_lookup_lpm_by_key es dflt p = Done v /\ Lpm.xdp2_dtable_lookup_lpm t p = Done v).
Proof. intros Hes Hk Hp. split_and!; [by apply (plain_agree len dflt id es Hes p k) | by apply (tern_agree len dflt id es Hes p k) | by apply (lpm_agree len dflt id es Hes p k)]. Qed.

(** 10.1.0.0/16 and 10.0.0.0/8. *)
Definition ex_routes : list (entry_struct (list Z)) := [Entry [10; 1; 0; 0] [255; 255; 0; 0] 16 [2]; Entry [10; 0; 0; 0] [255; 0; 0; 0] 8 [1]].

Lemma ex_routes_ok : entries_ok 4 [0] ex_routes /\ prefixes_ok 4 ex_routes.
Proof.
  assert (Forall (entry_ok 4) ex_routes) as Hk by (repeat (apply Forall_cons_2 || apply Forall_nil_2 || split); done || unfold is_u8; lia).
  split; [constructor; [lia | exact Hk | by repeat (apply Forall_cons_2 || apply Forall_nil_2) | done] |]. split.
  - eapply Forall_impl; [exact (proj2 (Forall_and _ _) (conj Hk (proj2 (Forall_forall (fun e => se_prefix_len e = 16 \/ se_prefix_len e = 8) ex_routes)
      ltac:(intros e [-> | ->%list_elem_of_singleton]%elem_of_cons; cbn; lia)))) |].
    intros e [[? _] He]. unfold prefix_ok. cbn. split_and!; done || lia.
  - intros e e' [-> | ->%list_elem_of_singleton]%elem_of_cons [-> | ->%list_elem_of_singleton]%elem_of_cons E _; done || discriminate E.
Qed.

Lemma stable_dtable_agree_witness :
  exists rs t, exec_ops exec_lpm (new_table 4 [0] 1) (adds lpm_id ex_routes) = Done (rs, t) /\
    stable_lookup_lpm_by_key ex_routes [0] (Ptr [10; 1; 2; 3] 0) = Done [2] /\ Lpm.xdp2_dtable_lookup_lpm t (Ptr [10; 1; 2; 3] 0) = Done [2].
Proof.
  destruct (stable_dtable_agree (fun _ => false) 4 [0] 1 ex_routes (Ptr [10; 1; 2; 3] 0) [10; 1; 2; 3]) as (_ & _ & H).
  - apply ex_routes_ok.
  - split; [done | by repeat (apply Forall_cons_2; [done |]); apply Forall_nil_2].
  - apply bytes_at_self.
  - destruct (H (proj2 ex_routes_ok)) as (rs & t & v & E & Es & Ed). exists rs, t. split; [exact E |]. assert (v = [2]) as -> by (vm_compute in Es; by injection Es as <-). by split.
Defined.

(** The default route, whose prefix is empty, is never found in a static table, and
    is in a dynamic table. *)
Example stable_lpm_default_route :
  stable_lookup_lpm_by_key [Entry [0; 0; 0; 0] [] 0 [7]] [0] (Ptr [10; 1; 2; 3] 0) = Done [0] /\
  ('(_, t) ← exec_ops exec_lpm (new_table 4 [0] 1) [OpAdd true 0 ([0; 0; 0; 0], 0) [7]]; Lpm.xdp2_dtable_lookup_lpm t (Ptr [10; 1; 2; 3] 0)) = Done [7].
Proof. split; vm_compute; reflexivity. Qed.

(** The key of an IPv4 header: protocol, source and destination address. *)
Example ex_make_key : make_key [FieldCopy 9 1; FieldCopy 12 8] (Ptr [0x45; 0; 0; 28; 0; 0; 0; 0; 64; 17; 0; 0; 10; 0; 0; 1; 10; 0; 0; 2] 0) = Done [17; 10; 0; 0; 1; 10; 0; 0; 2].
Proof. reflexivity. Qed.
