(* ===== verification/ParserTypes.v ===== *)
(** * Parser data model

    The static structures of [src/src/include/xdp2/parser_types.h], [tlvs.h],
    [flag_fields.h] and [arrays.h]: protocol definitions, parse nodes and the
    control data a parse carries along.

    Parse nodes and TLV nodes refer to each other by pointer and form cyclic
    graphs, so both live in a [parse_graph] keyed by identifiers, and a pointer
    to one is an identifier. A structure that embeds [struct xdp2_proto_def]
    or [struct xdp2_parse_node] as its first member (the "super structures" of
    the TLVs, flag-fields and array types) is an extension carried by the
    record; casting to the wrong super structure is a crash. The callbacks of a
    node run over an abstract metadata type [M]; the [frame] pointer is the
    byte offset of the current frame in the metadata. *)

From stdpp Require Import base list gmap numbers.
From S2P Require Import Prelude FlagFields.

(** ** Return codes *)

Definition XDP2_OKAY := 0.
Definition XDP2_RET_OKAY := -1.
Definition XDP2_OKAY_USE_WILD := -2.
Definition XDP2_OKAY_USE_ALT_WILD := -3.
Definition XDP2_STOP_OKAY := -4.
Definition XDP2_STOP_NODE_OKAY := -5.
Definition XDP2_STOP_SUB_NODE_OKAY := -6.
Definition XDP2_STOP_FAIL := -12.
Definition XDP2_STOP_LENGTH := -13.
Definition XDP2_STOP_UNKNOWN_PROTO := -14.
Definition XDP2_STOP_ENCAP_DEPTH := -15.
Definition XDP2_STOP_UNKNOWN_TLV := -16.
Definition XDP2_STOP_TLV_LENGTH := -17.
Definition XDP2_STOP_BAD_FLAG := -18.
Definition XDP2_STOP_OPTION_LIMIT := -22.
Definition XDP2_STOP_MAX_NODES := -23.

(** [XDP2_CODE_IS_OKAY] *)
Definition XDP2_CODE_IS_OKAY (code : Z) : bool :=
  (code =? XDP2_OKAY) || (code =? XDP2_STOP_OKAY).

Definition nodeid := positive.
Definition tlvid := positive.

Inductive xdp2_parser_node_type :=
| XDP2_NODE_TYPE_PLAIN
| XDP2_NODE_TYPE_TLVS
| XDP2_NODE_TYPE_FLAG_FIELDS
| XDP2_NODE_TYPE_ARRAY.

#[global] Instance node_type_eq_dec : EqDecision xdp2_parser_node_type.
Proof. solve_decision. Defined.

(** ** Protocol definitions *)

(** [struct xdp2_parse_ops] *)
Record xdp2_parse_ops := ParseOps {
  op_len : option (ptr -> Z -> outcome Z);
  op_next_proto : option (ptr -> outcome Z);
  op_next_proto_keyin : option (ptr -> Z -> outcome Z) }.

Definition no_ops : xdp2_parse_ops := ParseOps None None None.

(** [struct xdp2_proto_tlvs_opts] and the TLV part of
    [struct xdp2_proto_tlvs_def]. *)
Record xdp2_proto_tlvs_def := ProtoTlvsDef {
  tlvs_len : option (ptr -> Z -> outcome Z);
  tlvs_type : ptr -> outcome Z;
  tlvs_start_offset : ptr -> outcome Z;
  tlvs_pad1_val : Z;
  tlvs_eol_val : Z;
  tlvs_pad1_enable : bool;
  tlvs_eol_enable : bool;
  tlvs_min_len : Z }.

(** The flag-fields part of [struct xdp2_proto_flag_fields_def]. *)
Record xdp2_proto_flag_fields_def := ProtoFlagFieldsDef {
  ffd_get_flags : ptr -> outcome Z;
  ffd_start_fields_offset : ptr -> outcome Z;
  ffd_flag_fields : xdp2_flag_fields }.

(** [struct xdp2_proto_array_opts] and the array part of
    [struct xdp2_proto_array_def]. *)
Record xdp2_proto_array_def := ProtoArrayDef {
  ad_num_els : ptr -> Z -> outcome Z;
  ad_el_type : option (ptr -> outcome Z);
  ad_start_offset : ptr -> outcome Z;
  ad_el_length : Z }.

Inductive proto_def_ext :=
| PDPlain
| PDTlvs (d : xdp2_proto_tlvs_def)
| PDFlagFields (d : xdp2_proto_flag_fields_def)
| PDArray (d : xdp2_proto_array_def).

(** [struct xdp2_proto_def] *)
Record xdp2_proto_def := ProtoDef {
  pd_node_type : xdp2_parser_node_type;
  pd_encap : bool;
  pd_overlay : bool;
  pd_min_len : Z;
  pd_ops : xdp2_parse_ops;
  pd_ext : proto_def_ext }.

(** [struct xdp2_proto_tlv_def] with its operations *)
Record xdp2_proto_tlv_def := ProtoTlvDef {
  tlvd_min_len : Z;
  tlvd_overlay_type : option (ptr -> outcome Z);
  tlvd_nested_offset : option (ptr -> Z -> outcome Z) }.

(** ** Control data *)

(** [struct xdp2_ctrl_packet_data] *)
Record xdp2_ctrl_packet_data := CtrlPacketData {
  pkt_packet : Z;
  pkt_start : ptr;
  pkt_len : Z;
  pkt_seqno : Z;
  pkt_timestamp : Z;
  pkt_in_port : Z;
  pkt_vrf_id : Z;
  pkt_pkt_csum : Z;
  pkt_flags : Z }.

(** [struct xdp2_ctrl_var_data] *)
Record xdp2_ctrl_var_data := CtrlVarData {
  var_last_node : option nodeid;
  var_ret_code : Z;
  var_encaps : Z;
  var_node_cnt : Z;
  var_tlv_levels : Z;
  var_pkt_csum : Z;
  var_hdr_csum : Z }.

(** [struct xdp2_ctrl_key_data]; the arrays are writable by callbacks even
    through a [const struct xdp2_ctrl_data]. *)
Record xdp2_ctrl_key_data := CtrlKeyData {
  key_counters : list Z;
  key_keys : list Z;
  key_arg : Z }.

(** [struct xdp2_ctrl_data] *)
Record xdp2_ctrl_data := CtrlData {
  ctrl_var : xdp2_ctrl_var_data;
  ctrl_pkt : xdp2_ctrl_packet_data;
  ctrl_key : xdp2_ctrl_key_data }.

Definition set_var (v : xdp2_ctrl_var_data) (c : xdp2_ctrl_data) : xdp2_ctrl_data :=
  CtrlData v (ctrl_pkt c) (ctrl_key c).
Definition set_key (k : xdp2_ctrl_key_data) (c : xdp2_ctrl_data) : xdp2_ctrl_data :=
  CtrlData (ctrl_var c) (ctrl_pkt c) k.

Definition var_set_last_node (n : option nodeid) (v : xdp2_ctrl_var_data) :=
  CtrlVarData n (var_ret_code v) (var_encaps v) (var_node_cnt v)
    (var_tlv_levels v) (var_pkt_csum v) (var_hdr_csum v).
Definition var_set_ret_code (r : Z) (v : xdp2_ctrl_var_data) :=
  CtrlVarData (var_last_node v) r (var_encaps v) (var_node_cnt v)
    (var_tlv_levels v) (var_pkt_csum v) (var_hdr_csum v).
Definition var_set_encaps (e : Z) (v : xdp2_ctrl_var_data) :=
  CtrlVarData (var_last_node v) (var_ret_code v) e (var_node_cnt v)
    (var_tlv_levels v) (var_pkt_csum v) (var_hdr_csum v).
Definition var_set_tlv_levels (l : Z) (v : xdp2_ctrl_var_data) :=
  CtrlVarData (var_last_node v) (var_ret_code v) (var_encaps v) (var_node_cnt v)
    l (var_pkt_csum v) (var_hdr_csum v).

(** [xdp2_parse_hdr_offset]: pointer difference within the packet buffer. *)
Definition xdp2_parse_hdr_offset (hdr : ptr) (c : xdp2_ctrl_data) : Z :=
  u64 (poff hdr - poff (pkt_start (ctrl_pkt c))).

(** ** Parse nodes *)

Section nodes.
Context (M : Type).

(** The callbacks see the header (NULL for exit nodes), its length, the
    metadata, the offset of the frame and the (constant) control data; they
    may change the metadata and the key arrays. *)
Definition extract_metadata_t : Type :=
  option ptr -> Z -> M -> Z -> xdp2_ctrl_data -> outcome (M * xdp2_ctrl_key_data).
Definition handler_t : Type :=
  option ptr -> Z -> M -> Z -> xdp2_ctrl_data ->
  outcome (Z * M * xdp2_ctrl_key_data).

(** [struct xdp2_parse_node_ops]; the TLV, flag-field and array element
    nodes have the first two members only. *)
Record xdp2_parse_node_ops := ParseNodeOps {
  extract_metadata : option extract_metadata_t;
  handler : option handler_t;
  post_handler : option handler_t }.

(** [struct xdp2_parse_tlv_node] *)
Record xdp2_parse_tlv_node := ParseTlvNode {
  tn_proto_tlv_def : option xdp2_proto_tlv_def;
  tn_ops : xdp2_parse_node_ops;
  tn_overlay_table : option (list (Z * option tlvid));
  tn_overlay_wildcard_node : option tlvid;
  tn_nested_node : option nodeid;
  tn_unknown_overlay_ret : Z }.

(** [struct xdp2_parse_tlvs_node] beyond its parse node *)
Record xdp2_parse_tlvs_node := ParseTlvsNode {
  tsn_tlv_proto_table : option (list (Z * option tlvid));
  tsn_max_tlvs : Z;
  tsn_max_tlv_len : Z;
  tsn_unknown_tlv_type_ret : Z;
  tsn_tlv_wildcard_node : option tlvid }.

(** [struct xdp2_parse_flag_fields_node] beyond its parse node *)
Record xdp2_parse_flag_fields_node := ParseFlagFieldsNode {
  ffn_flag_fields_proto_table : list (Z * option xdp2_parse_node_ops) }.

(** [struct xdp2_parse_array_node] beyond its parse node *)
Record xdp2_parse_array_node := ParseArrayNode {
  an_array_proto_table : option (list (Z * option xdp2_parse_node_ops));
  an_max_els : Z;
  an_unknown_array_type_ret : Z;
  an_array_wildcard_node : option xdp2_parse_node_ops }.

Inductive parse_node_ext :=
| PNPlain
| PNTlvs (n : xdp2_parse_tlvs_node)
| PNFlagFields (n : xdp2_parse_flag_fields_node)
| PNArray (n : xdp2_parse_array_node).

(** [struct xdp2_parse_node] *)
Record xdp2_parse_node := ParseNode {
  pn_node_type : xdp2_parser_node_type;
  pn_unknown_ret : Z;
  pn_key_sel : Z;
  pn_flags : Z;
  pn_proto_def : option xdp2_proto_def;
  pn_ops : xdp2_parse_node_ops;
  pn_proto_table : option (list (Z * option nodeid));
  pn_wildcard_node : option nodeid;
  pn_ext : parse_node_ext }.

(** All nodes of a program, by address. *)
Record parse_graph := ParseGraph {
  g_nodes : gmap positive xdp2_parse_node;
  g_tlvs : gmap positive xdp2_parse_tlv_node }.

(** [struct xdp2_parser_config] *)
Record xdp2_parser_config := ParserConfig {
  cfg_max_nodes : Z;
  cfg_max_encaps : Z;
  cfg_max_frames : Z;
  cfg_metameta_size : Z;
  cfg_frame_size : Z;
  cfg_num_counters : Z;
  cfg_num_keys : Z;
  cfg_okay_node : option nodeid;
  cfg_fail_node : option nodeid;
  cfg_atencap_node : option nodeid }.

(** The state a parse threads through its callbacks. *)
Record pstate := PState { st_meta : M; st_ctrl : xdp2_ctrl_data }.

Definition upd_var (f : xdp2_ctrl_var_data -> xdp2_ctrl_var_data) (st : pstate) : pstate :=
  PState (st_meta st) (set_var (f (ctrl_var (st_ctrl st))) (st_ctrl st)).

(** [if (ops.extract_metadata) ops.extract_metadata(...)] *)
Definition run_extract (f : option extract_metadata_t) (hdr : option ptr)
    (hlen frame : Z) (st : pstate) : outcome pstate :=
  match f with
  | None => mret st
  | Some g =>
      '(m, k) ← g hdr hlen (st_meta st) frame (st_ctrl st);
      mret (PState m (set_key k (st_ctrl st)))
  end.

(** [if (ops.handler) ret = ops.handler(...)], with [XDP2_OKAY] when there is
    no handler. *)
Definition run_handler (f : option handler_t) (hdr : option ptr)
    (hlen frame : Z) (st : pstate) : outcome (Z * pstate) :=
  match f with
  | None => mret (XDP2_OKAY, st)
  | Some g =>
      '(r, m, k) ← g hdr hlen (st_meta st) frame (st_ctrl st);
      mret (r, PState m (set_key k (st_ctrl st)))
  end.
End nodes.

Arguments ParseNodeOps {M} _ _ _.
Arguments extract_metadata {M} _.
Arguments handler {M} _.
Arguments post_handler {M} _.
Arguments ParseTlvNode {M} _ _ _ _ _ _.
Arguments tn_proto_tlv_def {M} _.
Arguments tn_ops {M} _.
Arguments tn_overlay_table {M} _.
Arguments tn_overlay_wildcard_node {M} _.
Arguments tn_nested_node {M} _.
Arguments tn_unknown_overlay_ret {M} _.
Arguments ParseFlagFieldsNode {M} _.
Arguments ffn_flag_fields_proto_table {M} _.
Arguments ParseArrayNode {M} _ _ _ _.
Arguments an_array_proto_table {M} _.
Arguments an_max_els {M} _.
Arguments an_unknown_array_type_ret {M} _.
Arguments an_array_wildcard_node {M} _.
Arguments PNPlain {M}.
Arguments PNTlvs {M} _.
Arguments PNFlagFields {M} _.
Arguments PNArray {M} _.
Arguments ParseNode {M} _ _ _ _ _ _ _ _ _.
Arguments pn_node_type {M} _.
Arguments pn_unknown_ret {M} _.
Arguments pn_key_sel {M} _.
Arguments pn_flags {M} _.
Arguments pn_proto_def {M} _.
Arguments pn_ops {M} _.
Arguments pn_proto_table {M} _.
Arguments pn_wildcard_node {M} _.
Arguments pn_ext {M} _.
Arguments ParseGraph {M} _ _.
Arguments g_nodes {M} _.
Arguments g_tlvs {M} _.
Arguments PState {M} _ _.
Arguments st_meta {M} _.
Arguments st_ctrl {M} _.
Arguments upd_var {M} _ _.
Arguments run_extract {M} _ _ _ _ _.
Arguments run_handler {M} _ _ _ _ _.

(** ** What the protocol definitions promise the parser

    The parser calls the operations of a definition on a header of which at
    least [min_len] bytes are present. [ProtoDefSafe] states that the
    operations then stay inside that header; the protocol definitions of
    [ProtoDefs.v] provide instances, the parser's theorems use them. *)

Definition op_safe (f : ptr -> outcome Z) (lb : Z) : Prop :=
  forall s p n, in_bounds p n -> lb <= n -> wp s (f p) (fun _ => True).

Definition op_len_safe (f : ptr -> Z -> outcome Z) (lb : Z) : Prop :=
  forall s p n, in_bounds p n -> lb <= n -> n < 2 ^ 63 ->
    wp s (f p n) (fun r => - 2 ^ 63 <= r < 2 ^ 63).

Class ProtoDefSafe (pd : xdp2_proto_def) : Prop := {
  pds_min_len : 0 <= pd_min_len pd < 2 ^ 16;
  pds_len f : op_len (pd_ops pd) = Some f -> op_len_safe f (pd_min_len pd);
  pds_next_proto f : op_next_proto (pd_ops pd) = Some f -> op_safe f (pd_min_len pd);
  pds_next_proto_keyin f : op_next_proto_keyin (pd_ops pd) = Some f ->
    forall k, op_safe (fun p => f p k) (pd_min_len pd) }.

(** Promises of a TLVs definition for headers of at least [lb] bytes: the TLVs
    start inside the header, and the operations on a single TLV read at most
    its first [tlvs_min_len] bytes, of which there is at least one. *)
Class TlvsDefSafe (d : xdp2_proto_tlvs_def) (lb : Z) : Prop := {
  tds_min_len : 1 <= tlvs_min_len d < 2 ^ 63;
  tds_start : forall s p n, in_bounds p n -> lb <= n ->
    wp s (tlvs_start_offset d p) (fun off => 0 <= off <= n);
  tds_len f : tlvs_len d = Some f -> op_len_safe f (tlvs_min_len d);
  tds_type : op_safe (tlvs_type d) (tlvs_min_len d) }.

(** Promises of a flag-fields definition: when the header length was computed
    by the definition's own [len] operation, the announced optional fields lie
    inside the header. *)
Class FlagFieldsDefSafe (pd : xdp2_proto_def) (d : xdp2_proto_flag_fields_def) : Prop := {
  ffs_wf : flag_fields_wf (ffd_flag_fields d);
  ffs_layout : forall s p n hlen lenf,
    op_len (pd_ops pd) = Some lenf ->
    in_bounds p n -> pd_min_len pd <= n -> n < 2 ^ 63 ->
    lenf p n = Done hlen -> pd_min_len pd <= hlen <= n ->
    wp s (ffd_get_flags d p) (fun flags =>
      wp s (ffd_start_fields_offset d p) (fun off =>
        0 <= off /\
        off + present_size flags (ffs_fields (ffd_flag_fields d)) <= hlen));
  ffs_has_len : is_Some (op_len (pd_ops pd)) }.
