(* ===== verification/Parser.v ===== *)
(** * The generic parser

    [src/src/lib/xdp2/parser.c]: table lookups, TLV, flag-field and array
    processing, and the parsing loops [__xdp2_parse] and [__xdp2_parse_fast].

    The mutual recursion of [xdp2_parse_one_tlv] and [xdp2_parse_tlvs] (with
    the [goto parse_again] of the first and the [while] of the second) carries
    fuel, since the code bounds neither the overlay chain nor the nesting; the
    main loop of [__xdp2_parse] is bounded by [max_nodes] and needs none. The
    [flags] argument only selects debug printing and is left out. *)

From stdpp Require Import base list gmap numbers.
From S2P Require Import Prelude FlagFields ParserTypes.

(** [lookup_node], [lookup_tlv_node], [lookup_array_node] and
    [lookup_flag_field_node]: linear search, first match; an entry may hold
    NULL. *)
Definition lookup_node (type : Z) (table : list (Z * option nodeid)) : option nodeid :=
  mjoin (assoc_first type table).

Definition lookup_tlv_node (type : Z) (table : list (Z * option tlvid)) : option tlvid :=
  mjoin (assoc_first type table).

Definition lookup_array_node {M} (type : Z)
    (table : list (Z * option (xdp2_parse_node_ops M))) : option (xdp2_parse_node_ops M) :=
  mjoin (assoc_first type table).

Definition lookup_flag_field_node {M} (idx : Z)
    (table : list (Z * option (xdp2_parse_node_ops M))) : option (xdp2_parse_node_ops M) :=
  mjoin (assoc_first idx table).

Section parser.
Context {M : Type} (g : parse_graph M).
Implicit Types (st : pstate M) (hdr cp : ptr).

Definition get_node (p : option nodeid) : outcome (xdp2_parse_node M) :=
  id ← deref p; deref (g_nodes g !! id).
Definition get_tlv (p : option tlvid) : outcome (xdp2_parse_tlv_node M) :=
  id ← deref p; deref (g_tlvs g !! id).

(** [xdp2_parse_lookup_tlv] *)
Definition xdp2_parse_lookup_tlv (node : xdp2_parse_tlvs_node) (type : Z)
    : outcome (option tlvid) :=
  table ← deref (tsn_tlv_proto_table node);
  mret (lookup_tlv_node (s32 type) table).

(** The cast of a parse node and its definition to the TLV structures. *)
Definition as_tlvs (n : xdp2_parse_node M)
    : outcome (xdp2_parse_tlvs_node * xdp2_proto_tlvs_def) :=
  pd ← deref (pn_proto_def n);
  match pn_ext n, pd_ext pd with
  | PNTlvs tn, PDTlvs d => mret (tn, d)
  | _, _ => Crash
  end.

(** ** TLVs *)

Fixpoint xdp2_parse_one_tlv (fuel : nat) (tsn : xdp2_parse_tlvs_node)
    (proto_tlv_def : option xdp2_proto_tlv_def) (tlv : tlvid)
    (hdr : ptr) (frame tlv_len : Z) (st : pstate M) {struct fuel}
    : outcome (Z * pstate M) :=
  match fuel with
  | O => NoFuel
  | S fuel =>
      if match proto_tlv_def with
         | Some d => u64 tlv_len <? tlvd_min_len d
         | None => false
         end
      then
        match tsn_tlv_wildcard_node tsn with
        | Some w => xdp2_parse_one_tlv fuel tsn proto_tlv_def w hdr frame tlv_len st
        | None => mret (tsn_unknown_tlv_type_ret tsn, st)
        end
      else
        tn ← get_tlv (Some tlv);
        st ← run_extract (extract_metadata (tn_ops tn)) (Some hdr) tlv_len frame st;
        '(ret, st) ← run_handler (handler (tn_ops tn)) (Some hdr) tlv_len frame st;
        if negb (ret =? XDP2_OKAY) then mret (ret, st) else
        '(ret, st) ←
          match tn_nested_node tn with
          | None => mret (XDP2_OKAY, st)
          | Some nested =>
              d ← deref proto_tlv_def;
              nested_offset ← match tlvd_nested_offset d with
                              | Some f => f hdr tlv_len
                              | None => mret 0
                              end;
              let st := upd_var (fun v => var_set_tlv_levels (u8 (var_tlv_levels v + 1)) v) st in
              '(ret, st) ← xdp2_parse_tlvs fuel nested (padd hdr nested_offset)
                             (u64 (tlv_len - nested_offset)) frame st;
              mret (ret, upd_var (fun v => var_set_tlv_levels (u8 (var_tlv_levels v - 1)) v) st)
          end;
        if negb (ret =? XDP2_OKAY) then mret (ret, st) else
        match tn_overlay_table tn with
        | None => mret (XDP2_OKAY, st)
        | Some table =>
            d ← deref proto_tlv_def;
            type ← match tlvd_overlay_type d with
                   | Some f => f hdr
                   | None => mret (s32 tlv_len)
                   end;
            match lookup_tlv_node type table with
            | Some next => xdp2_parse_one_tlv fuel tsn proto_tlv_def next hdr frame tlv_len st
            | None =>
                match tn_overlay_wildcard_node tn with
                | Some next => xdp2_parse_one_tlv fuel tsn proto_tlv_def next hdr frame tlv_len st
                | None => mret (tn_unknown_overlay_ret tn, st)
                end
            end
        end
  end

with xdp2_parse_tlvs (fuel : nat) (parse_node : nodeid) (hdr : ptr)
    (hlen frame : Z) (st : pstate M) {struct fuel} : outcome (Z * pstate M) :=
  match fuel with
  | O => NoFuel
  | S fuel =>
      n ← get_node (Some parse_node);
      '(tsn, d) ← as_tlvs n;
      off ← tlvs_start_offset d hdr;
      tlvs_loop fuel tsn d 0 (padd hdr off) (u64 (hlen - off)) frame st
  end

(** The [while (hlen > 0)] loop of [xdp2_parse_tlvs]. *)
with tlvs_loop (fuel : nat) (tsn : xdp2_parse_tlvs_node) (d : xdp2_proto_tlvs_def)
    (tlv_cnt : Z) (cp : ptr) (hlen frame : Z) (st : pstate M) {struct fuel}
    : outcome (Z * pstate M) :=
  match fuel with
  | O => NoFuel
  | S fuel =>
      if hlen =? 0 then mret (XDP2_OKAY, st) else
      pad1 ← (if tlvs_pad1_enable d
              then b ← ld8 cp 0; mret (b =? tlvs_pad1_val d) else mret false);
      if (pad1 : bool) then tlvs_loop fuel tsn d tlv_cnt (padd cp 1) (hlen - 1) frame st else
      eol ← (if tlvs_eol_enable d
             then b ← ld8 cp 0; mret (b =? tlvs_eol_val d) else mret false);
      if (eol : bool) then mret (XDP2_OKAY, st) else
      let tlv_cnt := u32 (tlv_cnt + 1) in
      if negb (tsn_max_tlvs tsn =? 0) && (tsn_max_tlvs tsn <? tlv_cnt)
      then mret (XDP2_STOP_OPTION_LIMIT, st) else
      let tlv_len := s64 (tlvs_min_len d) in
      if hlen <? u64 tlv_len then mret (XDP2_STOP_TLV_LENGTH, st) else
      tlv_len ← match tlvs_len d with
                | None => mret (Some tlv_len)
                | Some f =>
                    l ← f cp hlen;
                    mret (if (l =? 0) || (hlen <? u64 l) then None else Some l)
                end;
      match tlv_len with
      | None => mret (XDP2_STOP_TLV_LENGTH, st)
      | Some tlv_len =>
          type ← tlvs_type d cp;
          let found := match tsn_tlv_proto_table tsn with
                       | Some table => lookup_tlv_node type table
                       | None => None
                       end in
          let found := match found with
                       | Some _ => found
                       | None => tsn_tlv_wildcard_node tsn
                       end in
          '(ret, st) ←
            match found with
            | Some tlv =>
                tn ← get_tlv (Some tlv);
                xdp2_parse_one_tlv fuel tsn (tn_proto_tlv_def tn) tlv cp frame tlv_len st
            | None => mret (tsn_unknown_tlv_type_ret tsn, st)
            end;
          if negb (ret =? XDP2_OKAY) then mret (ret, st) else
          tlvs_loop fuel tsn d tlv_cnt (padd cp tlv_len) (u64 (hlen - tlv_len)) frame st
      end
  end.

(** ** Flag-fields *)

(** Loop of [xdp2_parse_flag_fields] over the remaining [n] indices. *)
Fixpoint flag_fields_loop (n : nat) (i : Z) (table : list (Z * option (xdp2_parse_node_ops M)))
    (ffs : xdp2_flag_fields) (flags : Z) (hdr : ptr) (frame : Z) (st : pstate M)
    : outcome (pstate M) :=
  match n with
  | O => mret st
  | S n' =>
      off ← xdp2_flag_fields_offset i flags ffs;
      st ← (if off <? 0 then mret st else
            match lookup_flag_field_node i table with
            | None => mret st
            | Some ops =>
                f ← deref (ffs_fields ffs !! Z.to_nat i);
                st ← run_extract (extract_metadata ops) (Some (padd hdr off)) (ff_size f) frame st;
                '(_, st) ← run_handler (handler ops) (Some (padd hdr off)) (ff_size f) frame st;
                mret st
            end);
      flag_fields_loop n' (i + 1) table ffs flags hdr frame st
  end.

Definition xdp2_parse_flag_fields (n : xdp2_parse_node M) (hdr : ptr) (hlen frame : Z)
    (st : pstate M) : outcome (Z * pstate M) :=
  pd ← deref (pn_proto_def n);
  match pn_ext n, pd_ext pd with
  | PNFlagFields fn, PDFlagFields d =>
      flags ← ffd_get_flags d hdr;
      ioff ← ffd_start_fields_offset d hdr;
      let ffs := ffd_flag_fields d in
      st ← flag_fields_loop (Z.to_nat (ffs_num_idx ffs)) 0
             (ffn_flag_fields_proto_table fn) ffs flags (padd hdr ioff) frame st;
      mret (XDP2_OKAY, st)
  | _, _ => Crash
  end.

(** ** Arrays *)

(** Loop of [xdp2_parse_array] with [n = num_els - i] iterations left; the
    result of an early [return] is [inl], falling out of the loop is [inr]
    with whether [i] reached [num_els]. *)
Fixpoint array_loop (n : nat) (an : xdp2_parse_array_node M) (d : xdp2_proto_array_def)
    (el_type : Z) (cp : ptr) (hlen frame : Z) (st : pstate M)
    : outcome ((Z + bool) * pstate M) :=
  match n with
  | O => mret (inr true, st)
  | S n' =>
      if hlen =? 0 then mret (inr false, st) else
      el_type ← match ad_el_type d with
                | Some f => f cp
                | None => mret el_type
                end;
      if (match ad_el_type d with Some _ => el_type <? 0 | None => false end)
      then mret (inl el_type, st) else
      let found := match an_array_proto_table an with
                   | Some table => lookup_array_node el_type table
                   | None => None
                   end in
      let found := match found with
                   | Some _ => found
                   | None => an_array_wildcard_node an
                   end in
      match found with
      | Some ops =>
          st ← run_extract (extract_metadata ops) (Some cp) (ad_el_length d) frame st;
          '(_, st) ← run_handler (handler ops) (Some cp) (ad_el_length d) frame st;
          array_loop n' an d el_type (padd cp (ad_el_length d))
            (u64 (hlen - ad_el_length d)) frame st
      | None =>
          if negb (an_unknown_array_type_ret an =? XDP2_OKAY)
          then mret (inl (an_unknown_array_type_ret an), st)
          else array_loop n' an d el_type (padd cp (ad_el_length d))
                 (u64 (hlen - ad_el_length d)) frame st
      end
  end.

Definition xdp2_parse_array (n : xdp2_parse_node M) (hdr : ptr) (hlen frame : Z)
    (st : pstate M) : outcome (Z * pstate M) :=
  pd ← deref (pn_proto_def n);
  match pn_ext n, pd_ext pd with
  | PNArray an, PDArray d =>
      off ← ad_start_offset d hdr;
      let hlen := u64 (hlen - off) in
      num_els ← ad_num_els d hdr hlen;
      '(r, st) ← array_loop (Z.to_nat (u32 num_els)) an d 0 (padd hdr off) hlen frame st;
      mret (match r with
            | inl ret => ret
            | inr true => XDP2_OKAY
            | inr false => XDP2_STOP_LENGTH
            end, st)
  | _, _ => Crash
  end.

(** ** The main loop *)

(** The protocol length checks: [inl] is the code to stop with, [inr] the
    header length. [len] is a [size_t], [hlen] an [ssize_t]. *)
Definition proto_hlen (pd : xdp2_proto_def) (hdr : ptr) (len : Z) : outcome (Z + Z) :=
  let hlen := pd_min_len pd in
  if len <? u64 hlen then mret (inl XDP2_STOP_LENGTH) else
  match op_len (pd_ops pd) with
  | None => mret (inr hlen)
  | Some f =>
      hlen ← f hdr len;
      mret (if len <? u64 hlen then inl XDP2_STOP_LENGTH
            else if hlen <? pd_min_len pd
            then inl (if hlen <? 0 then s32 hlen else XDP2_STOP_LENGTH)
            else inr hlen)
  end.

(** The [switch (parse_node->node_type)]. *)
Definition process_ext (fuel : nat) (id : nodeid) (n : xdp2_parse_node M)
    (pd : xdp2_proto_def) (hdr : ptr) (hlen frame : Z) (st : pstate M)
    : outcome (Z * pstate M) :=
  match pn_node_type n with
  | XDP2_NODE_TYPE_PLAIN => mret (XDP2_OKAY, st)
  | XDP2_NODE_TYPE_TLVS =>
      if decide (pd_node_type pd = XDP2_NODE_TYPE_TLVS)
      then xdp2_parse_tlvs fuel id hdr (u64 hlen) frame st
      else mret (XDP2_OKAY, st)
  | XDP2_NODE_TYPE_FLAG_FIELDS =>
      if decide (pd_node_type pd = XDP2_NODE_TYPE_FLAG_FIELDS)
      then xdp2_parse_flag_fields n hdr (u64 hlen) frame st
      else mret (XDP2_OKAY, st)
  | XDP2_NODE_TYPE_ARRAY =>
      if decide (pd_node_type pd = XDP2_NODE_TYPE_ARRAY)
      then xdp2_parse_array n hdr (u64 hlen) frame st
      else mret (XDP2_OKAY, st)
  end.

(** [__xdp2_parse_run_exit_node] *)
Definition __xdp2_parse_run_exit_node (id : nodeid) (frame : Z) (st : pstate M)
    : outcome (Z * pstate M) :=
  n ← get_node (Some id);
  st ← run_extract (extract_metadata (pn_ops n)) None 0 frame st;
  '(_, st) ← run_handler (handler (pn_ops n)) None 0 frame st;
  mret (0, st).

(** The encapsulation block: [inl] stops, [inr] continues with the (maybe
    new) frame. *)
Definition enter_encap (cfg : xdp2_parser_config) (frame frame_num : Z) (st : pstate M)
    : outcome ((Z + (Z * Z)) * pstate M) :=
  '(ret, st) ← match cfg_atencap_node cfg with
               | Some id => __xdp2_parse_run_exit_node id frame st
               | None => mret (XDP2_OKAY, st)
               end;
  if negb (ret =? XDP2_OKAY) then mret (inl ret, st) else
  let st := upd_var (fun v => var_set_encaps (u8 (var_encaps v + 1)) v) st in
  if cfg_max_encaps cfg <? var_encaps (ctrl_var (st_ctrl st))
  then mret (inl XDP2_STOP_ENCAP_DEPTH, st)
  else if frame_num <? cfg_max_frames cfg
  then mret (inr (frame + cfg_frame_size cfg, frame_num + 1), st)
  else mret (inr (frame, frame_num), st).

(** The choice of the next node up to [found_next]: [inl] stops with a code,
    [inr] is [next_parse_node], possibly NULL. *)
Definition next_node (n : xdp2_parse_node M) (pd : xdp2_proto_def) (hdr : ptr)
    (c : xdp2_ctrl_data) : outcome (Z + option nodeid) :=
  let ops := pd_ops pd in
  first ←
    match pn_proto_table n, op_next_proto_keyin ops, op_next_proto ops with
    | Some table, Some f, _ =>
        key ← deref (key_keys (ctrl_key c) !! Z.to_nat (pn_key_sel n));
        type ← f hdr key;
        mret (if type <? 0 then inl type else inr (lookup_node type table))
    | Some table, None, Some f =>
        type ← f hdr;
        mret (if type <? 0 then inl type else inr (lookup_node type table))
    | _, _, _ => mret (inr None)
    end;
  match first with
  | inl ret => mret (inl ret)
  | inr (Some next) => mret (inr (Some next))
  | inr None =>
      match pn_wildcard_node n with
      | None => mret (inl (pn_unknown_ret n))
      | Some wild =>
          match pn_proto_table n, op_next_proto ops with
          | Some table, Some f =>
              type ← f hdr;
              mret (if type <? 0 then inl type else inr (lookup_node type table))
          | _, _ => mret (inr (Some wild))
          end
      end
  end.

Inductive step_result :=
| SOut (ret frame : Z) (st : pstate M)
| SNext (next : option nodeid) (hdr : ptr) (len frame frame_num : Z) (st : pstate M).

(** One iteration of the main loop, up to the test of the node budget. *)
Definition parse_step (fuel : nat) (cfg : xdp2_parser_config) (id : nodeid)
    (hdr : ptr) (len frame frame_num : Z) (st : pstate M) : outcome step_result :=
  n ← get_node (Some id);
  pd ← deref (pn_proto_def n);
  let st := upd_var (var_set_last_node (Some id)) st in
  chk ← proto_hlen pd hdr len;
  match chk with
  | inl ret => mret (SOut ret frame st)
  | inr hlen =>
      st ← run_extract (extract_metadata (pn_ops n)) (Some hdr) hlen frame st;
      '(_, st) ← run_handler (handler (pn_ops n)) (Some hdr) hlen frame st;
      '(ret, st) ← process_ext fuel id n pd hdr hlen frame st;
      if negb (ret =? XDP2_OKAY) then mret (SOut ret frame st) else
      '(_, st) ← run_handler (post_handler (pn_ops n)) (Some hdr) hlen frame st;
      if is_null (pn_proto_table n) && is_null (pn_wildcard_node n)
      then mret (SOut XDP2_STOP_OKAY frame st) else
      '(enc, st) ← (if pd_encap pd then enter_encap cfg frame frame_num st
                    else mret (inr (frame, frame_num), st));
      match enc with
      | inl ret => mret (SOut ret frame st)
      | inr (frame, frame_num) =>
          nxt ← next_node n pd hdr (st_ctrl st);
          match nxt with
          | inl ret => mret (SOut ret frame st)
          | inr next =>
              let '(hdr, len) := if pd_overlay pd then (hdr, len)
                                 else (padd hdr hlen, u64 (len - hlen)) in
              if (len =? 0) && negb (Z.land (pn_flags n) 1 =? 0)
              then mret (SOut XDP2_STOP_OKAY frame st)
              else mret (SNext next hdr len frame frame_num st)
          end
      end
  end.

(** The code after the label [out]. *)
Definition parse_out (cfg : xdp2_parser_config) (ret frame : Z) (st : pstate M)
    : outcome (Z * pstate M) :=
  let exit := if XDP2_CODE_IS_OKAY ret then cfg_okay_node cfg else cfg_fail_node cfg in
  let st := upd_var (var_set_ret_code (s8 ret)) st in
  match exit with
  | None => mret (ret, st)
  | Some id => '(_, st) ← __xdp2_parse_run_exit_node id frame st; mret (ret, st)
  end.

Fixpoint parse_loop (nodes : nat) (fuel : nat) (cfg : xdp2_parser_config)
    (next : option nodeid) (hdr : ptr) (len frame frame_num : Z) (st : pstate M)
    : outcome (Z * pstate M) :=
  id ← deref next;
  r ← parse_step fuel cfg id hdr len frame frame_num st;
  match r with
  | SOut ret frame st => parse_out cfg ret frame st
  | SNext next hdr len frame frame_num st =>
      match nodes with
      | O => mret (XDP2_STOP_MAX_NODES, st)
      | S nodes' => parse_loop nodes' fuel cfg next hdr len frame frame_num st
      end
  end.

Definition __xdp2_parse (fuel : nat) (cfg : xdp2_parser_config) (root : nodeid)
    (hdr : ptr) (len : Z) (st : pstate M) : outcome (Z * pstate M) :=
  parse_loop (Z.to_nat (cfg_max_nodes cfg)) fuel cfg (Some root) hdr len
    (cfg_metameta_size cfg) 0 st.

(** ** The fast parser *)

Definition fast_step (fuel : nat) (cfg : xdp2_parser_config) (id : nodeid)
    (hdr : ptr) (len frame frame_num : Z) (st : pstate M) : outcome step_result :=
  n ← get_node (Some id);
  pd ← deref (pn_proto_def n);
  if len <? u64 (pd_min_len pd) then mret (SOut XDP2_STOP_LENGTH frame st) else
  hlen ← match op_len (pd_ops pd) with Some f => f hdr len | None => mret (pd_min_len pd) end;
  if len <? u64 hlen then mret (SOut XDP2_STOP_LENGTH frame st) else
  st ← run_extract (extract_metadata (pn_ops n)) (Some hdr) hlen frame st;
  '(_, st) ← run_handler (handler (pn_ops n)) (Some hdr) hlen frame st;
  '(ret, st) ← match pn_node_type n with
               | XDP2_NODE_TYPE_TLVS => xdp2_parse_tlvs fuel id hdr (u64 hlen) frame st
               | XDP2_NODE_TYPE_FLAG_FIELDS => xdp2_parse_flag_fields n hdr (u64 hlen) frame st
               | _ => mret (XDP2_OKAY, st)
               end;
  if negb (ret =? XDP2_OKAY) then mret (SOut ret frame st) else
  let st' := if pd_encap pd
             then upd_var (fun v => var_set_encaps (u8 (var_encaps v + 1)) v) st else st in
  if pd_encap pd && (cfg_max_encaps cfg <? var_encaps (ctrl_var (st_ctrl st')))
  then mret (SOut XDP2_STOP_ENCAP_DEPTH frame st') else
  let '(frame, frame_num) := if pd_encap pd && (frame_num <? cfg_max_frames cfg)
                             then (frame + cfg_frame_size cfg, frame_num + 1)
                             else (frame, frame_num) in
  nxt ← match pn_proto_table n with
        | None => mret (inr None)
        | Some table =>
            f ← deref (op_next_proto (pd_ops pd));
            type ← f hdr;
            mret (if type <? 0 then inl type else inr (lookup_node type table))
        end;
  match nxt with
  | inl ret => mret (SOut ret frame st')
  | inr next =>
      match (match next with Some _ => next | None => pn_wildcard_node n end) with
      | None => mret (SOut XDP2_STOP_OKAY frame st')
      | Some next =>
          let '(hdr, len) := if pd_overlay pd then (hdr, len)
                             else (padd hdr hlen, u64 (len - hlen)) in
          mret (SNext (Some next) hdr len frame frame_num st')
      end
  end.

(** [__xdp2_parse_fast]; its loop has no node budget, so it carries fuel. *)
Fixpoint fast_loop (loops : nat) (fuel : nat) (cfg : xdp2_parser_config)
    (next : option nodeid) (hdr : ptr) (len frame frame_num : Z) (st : pstate M)
    : outcome (Z * pstate M) :=
  match loops with
  | O => NoFuel
  | S loops' =>
      id ← deref next;
      r ← fast_step fuel cfg id hdr len frame frame_num st;
      match r with
      | SOut ret _ st => mret (ret, st)
      | SNext next hdr len frame frame_num st =>
          fast_loop loops' fuel cfg next hdr len frame frame_num st
      end
  end.

Definition __xdp2_parse_fast (loops fuel : nat) (cfg : xdp2_parser_config) (root : nodeid)
    (hdr : ptr) (len : Z) (st : pstate M) : outcome (Z * pstate M) :=
  fast_loop loops fuel cfg (Some root) hdr len (cfg_metameta_size cfg) 0 st.

(** ** Validation for the fast parser *)

Definition NUM_FAST_NODES : nat := 64.

(** The checks of [validate_parse_fast_node] on the node itself. *)
Definition fast_node_ok (n : xdp2_parse_node M) : bool :=
  match post_handler (pn_ops n), pn_proto_def n with
  | None, Some pd =>
      match op_next_proto_keyin (pd_ops pd) with
      | Some _ => false
      | None =>
          match pn_node_type n with
          | XDP2_NODE_TYPE_TLVS => bool_decide (pd_node_type pd = XDP2_NODE_TYPE_TLVS)
          | XDP2_NODE_TYPE_FLAG_FIELDS =>
              bool_decide (pd_node_type pd = XDP2_NODE_TYPE_FLAG_FIELDS)
          | _ => true
          end
      end
  | _, _ => false
  end.

(** [validate_parse_fast_node]: [None] is [false]; [Some vis] is [true] with
    the used part of the [fast_nodes] array. The recursion stores a new node
    in the array each time, so depth [NUM_FAST_NODES + 1] is never reached. *)
Fixpoint validate_parse_fast_node (depth : nat) (vis : list nodeid) (id : nodeid)
    {struct depth} : outcome (option (list nodeid)) :=
  match depth with
  | O => NoFuel
  | S depth' =>
      n ← get_node (Some id);
      if decide (id ∈ vis) then mret (Some vis) else
      if decide (NUM_FAST_NODES <= length vis)%nat then mret None else
      let vis := vis ++ [id] in
      if negb (fast_node_ok n) then mret None else
      match pn_proto_table n with
      | None => mret (Some vis)
      | Some table =>
          (fix entries_loop (es : list (Z * option nodeid)) (vis : list nodeid)
               : outcome (option (list nodeid)) :=
             match es with
             | [] => mret (Some vis)
             | (_, None) :: es' => entries_loop es' vis
             | (_, Some id') :: es' =>
                 r ← validate_parse_fast_node depth' vis id';
                 match r with
                 | None => mret None
                 | Some vis' => entries_loop es' vis'
                 end
             end) table vis
      end
  end.

(** [xdp2_parse_validate_fast]; [calloc_ok] is whether the allocation of the
    array succeeded. *)
Definition xdp2_parse_validate_fast (calloc_ok : bool) (cfg : xdp2_parser_config)
    (root : nodeid) : outcome bool :=
  if negb calloc_ok then mret false else
  match cfg_okay_node cfg, cfg_fail_node cfg, cfg_atencap_node cfg with
  | None, None, None =>
      if negb (cfg_num_counters cfg =? 0) || negb (cfg_num_keys cfg =? 0) then mret false else
      r ← validate_parse_fast_node (S NUM_FAST_NODES) [] root;
      mret (match r with Some _ => true | None => false end)
  | _, _, _ => mret false
  end.
End parser.
