(* ===== verification/ParserSafe.v ===== *)
(** * Memory safety and termination of the generic parser

    Well-formedness of a parse graph (every pointer of a node or table leads
    to a node, tags agree with the structures, definitions keep the promises of
    [ParserTypes.v], callbacks are safe on the headers and frames they may be
    given), and the proof that [__xdp2_parse] then never performs an undefined
    access. The same induction, run in strict mode, gives termination from
    explicit conditions on the TLV graph. *)

From stdpp Require Import base list gmap numbers.
From S2P Require Import Prelude FlagFields ParserTypes Parser.

Lemma get_node_Some {M} (g : parse_graph M) id n :
  g_nodes g !! id = Some n -> get_node g (Some id) = Done n.
Proof. intros E. unfold get_node; simpl. by rewrite E. Qed.

Lemma get_tlv_Some {M} (g : parse_graph M) id n :
  g_tlvs g !! id = Some n -> get_tlv g (Some id) = Done n.
Proof. intros E. unfold get_tlv; simpl. by rewrite E. Qed.

Section safe.
Context {M : Type} (g : parse_graph M) (cfg : xdp2_parser_config).
(** Number of keys the caller allocated, and what the caller guarantees about
    the metadata (its size, for instance) and every callback preserves. *)
Context (nk : nat) (Im : M -> Prop).

(** No node of the graph is an encapsulation. *)
Definition encap_free : Prop :=
  forall id n pd, g_nodes g !! id = Some n -> pn_proto_def n = Some pd -> pd_encap pd = false.

(** Frames are [max_frames + 1] consecutive slots after the metameta area; a
    parse also enters no more of them than encapsulations, as long as the
    8-bit count of encapsulations cannot wrap around. *)
Definition frame_ok (fr : Z) : Prop :=
  exists k, 0 <= k <= cfg_max_frames cfg /\
            (cfg_max_encaps cfg < 255 -> k <= cfg_max_encaps cfg) /\
            (encap_free -> k = 0) /\
            fr = cfg_metameta_size cfg + k * cfg_frame_size cfg.

(** ** Callbacks *)

(** A callback is safe for the header lengths in [L]. *)
Definition cb_extract_safe (L : Z -> Prop) (f : extract_metadata_t M) : Prop :=
  forall s p n m fr c, in_bounds p n -> L n -> frame_ok fr -> Im m ->
    length (key_keys (ctrl_key c)) = nk ->
    wp s (f (Some p) n m fr c) (fun r => Im r.1 /\ length (key_keys r.2) = nk).
Definition cb_handler_safe (L : Z -> Prop) (f : handler_t M) : Prop :=
  forall s p n m fr c, in_bounds p n -> L n -> frame_ok fr -> Im m ->
    length (key_keys (ctrl_key c)) = nk ->
    wp s (f (Some p) n m fr c) (fun r => Im r.1.2 /\ length (key_keys r.2) = nk).
Definition cb_exit_safe (ops : xdp2_parse_node_ops M) : Prop :=
  (forall f s m fr c, extract_metadata ops = Some f -> frame_ok fr -> Im m ->
     length (key_keys (ctrl_key c)) = nk ->
     wp s (f None 0 m fr c) (fun r => Im r.1 /\ length (key_keys r.2) = nk)) /\
  (forall f s m fr c, handler ops = Some f -> frame_ok fr -> Im m ->
     length (key_keys (ctrl_key c)) = nk ->
     wp s (f None 0 m fr c) (fun r => Im r.1.2 /\ length (key_keys r.2) = nk)).

Record ops_safe (L : Z -> Prop) (ops : xdp2_parse_node_ops M) : Prop := {
  os_extract f : extract_metadata ops = Some f -> cb_extract_safe L f;
  os_handler f : handler ops = Some f -> cb_handler_safe L f;
  os_post f : post_handler ops = Some f -> cb_handler_safe L f }.

(** [tlv_at t d tl]: TLV node [t] can be given a TLV of [tl] bytes while
    [proto_tlv_def] of [xdp2_parse_one_tlv] is [d]: its own definition, or
    that of a node it is an overlay of. Without an [overlay_type] operation
    an overlay is selected by the length of the TLV. *)
Inductive tlv_at : tlvid -> xdp2_proto_tlv_def -> Z -> Prop :=
| tda_self t tn d tl : g_tlvs g !! t = Some tn -> tn_proto_tlv_def tn = Some d -> tlv_at t d tl
| tda_overlay t tn d tl table v t' : tlv_at t d tl -> g_tlvs g !! t = Some tn ->
    tn_overlay_table tn = Some table -> (v, Some t') ∈ table ->
    (tlvd_overlay_type d = None -> s32 tl = v) -> tlv_at t' d tl
| tda_overlay_wild t tn d tl t' : tlv_at t d tl -> g_tlvs g !! t = Some tn ->
    tn_overlay_wildcard_node tn = Some t' -> tlv_at t' d tl.

(** ** Nodes *)

Definition tlv_ptr_ok (p : option tlvid) : Prop :=
  forall t, p = Some t -> is_Some (g_tlvs g !! t).
Definition node_ptr_ok (p : option nodeid) : Prop :=
  forall t, p = Some t -> is_Some (g_nodes g !! t).

Record tlv_def_ok (d : xdp2_proto_tlv_def) : Prop := {
  td_min : 0 <= tlvd_min_len d;
  td_overlay f : tlvd_overlay_type d = Some f ->
    op_safe f (Z.max 1 (tlvd_min_len d));
  td_nested f : tlvd_nested_offset d = Some f ->
    forall s p n, in_bounds p n -> Z.max 1 (tlvd_min_len d) <= n ->
      wp s (f p n) (fun o => 0 <= o <= n) }.

(** A TLVs node usable on any header of at least [lb] bytes. *)
Record tlvs_node_ok (lb : Z) (n : xdp2_parse_node M) : Prop := {
  tno : exists pd tsn d,
    pn_proto_def n = Some pd /\ pn_ext n = PNTlvs tsn /\ pd_ext pd = PDTlvs d /\
    TlvsDefSafe d lb /\
    (forall table v t, tsn_tlv_proto_table tsn = Some table -> (v, t) ∈ table -> tlv_ptr_ok t) /\
    tlv_ptr_ok (tsn_tlv_wildcard_node tsn) }.

Record tlv_node_ok (id : tlvid) (tn : xdp2_parse_tlv_node M) : Prop := {
  tn_def : exists d, tn_proto_tlv_def tn = Some d /\ tlv_def_ok d;
  tn_cb : ops_safe (fun tl => exists d, tlv_at id d tl /\ tlvd_min_len d <= tl) (tn_ops tn);
  tn_table : forall table v t, tn_overlay_table tn = Some table -> (v, t) ∈ table -> tlv_ptr_ok t;
  tn_wild : tlv_ptr_ok (tn_overlay_wildcard_node tn);
  tn_nested : forall id', tn_nested_node tn = Some id' ->
    exists n, g_nodes g !! id' = Some n /\ tlvs_node_ok 0 n }.

Definition flag_fields_node_ok (n : xdp2_parse_node M) (pd : xdp2_proto_def) : Prop :=
  exists fn d, pn_ext n = PNFlagFields fn /\ pd_ext pd = PDFlagFields d /\
    FlagFieldsDefSafe pd d /\
    forall v ops f, (v, Some ops) ∈ ffn_flag_fields_proto_table fn ->
      ffs_fields (ffd_flag_fields d) !! Z.to_nat v = Some f -> ops_safe (eq (ff_size f)) ops.

(** An array node is safe when the elements it announces fit the header. *)
Definition array_node_ok (n : xdp2_parse_node M) (pd : xdp2_proto_def) : Prop :=
  exists an d, pn_ext n = PNArray an /\ pd_ext pd = PDArray d /\
    0 <= ad_el_length d /\
    (forall s p n, in_bounds p n -> pd_min_len pd <= n ->
       wp s (ad_start_offset d p) (fun off => 0 <= off <= n /\
         wp s (ad_num_els d p (n - off)) (fun k => 0 <= k < 2 ^ 32 /\
           k * ad_el_length d <= n - off))) /\
    (forall f, ad_el_type d = Some f -> op_safe f (ad_el_length d)) /\
    (forall table v ops, an_array_proto_table an = Some table -> (v, Some ops) ∈ table ->
       ops_safe (eq (ad_el_length d)) ops) /\
    (forall ops, an_array_wildcard_node an = Some ops -> ops_safe (eq (ad_el_length d)) ops).

Record node_ok (n : xdp2_parse_node M) : Prop := {
  no_pd : exists pd, pn_proto_def n = Some pd /\ ProtoDefSafe pd /\
    (** the tags select a super structure that is really there *)
    match pn_node_type n with
    | XDP2_NODE_TYPE_PLAIN => True
    | XDP2_NODE_TYPE_TLVS =>
        pd_node_type pd = XDP2_NODE_TYPE_TLVS -> tlvs_node_ok (pd_min_len pd) n
    | XDP2_NODE_TYPE_FLAG_FIELDS =>
        pd_node_type pd = XDP2_NODE_TYPE_FLAG_FIELDS -> flag_fields_node_ok n pd
    | XDP2_NODE_TYPE_ARRAY =>
        pd_node_type pd = XDP2_NODE_TYPE_ARRAY -> array_node_ok n pd
    end /\
    (** a wildcard next to a table that is searched with [next_proto] is
        what the loop does not handle *)
    (is_Some (pn_wildcard_node n) -> is_Some (op_next_proto (pd_ops pd)) ->
     pn_proto_table n = None) /\
    (is_Some (pn_proto_table n) -> is_Some (op_next_proto_keyin (pd_ops pd)) ->
     (Z.to_nat (pn_key_sel n) < nk)%nat) /\
    ops_safe (Z.le (pd_min_len pd)) (pn_ops n);
  no_table : forall table v t, pn_proto_table n = Some table -> (v, t) ∈ table -> node_ptr_ok t;
  no_wild : node_ptr_ok (pn_wildcard_node n) }.

Record graph_ok : Prop := {
  go_nodes id n : g_nodes g !! id = Some n -> node_ok n;
  go_tlvs id tn : g_tlvs g !! id = Some tn -> tlv_node_ok id tn;
  go_atencap id : cfg_atencap_node cfg = Some id ->
    exists n, g_nodes g !! id = Some n /\ cb_exit_safe (pn_ops n);
  go_okay id : cfg_okay_node cfg = Some id ->
    exists n, g_nodes g !! id = Some n /\ cb_exit_safe (pn_ops n);
  go_fail id : cfg_fail_node cfg = Some id ->
    exists n, g_nodes g !! id = Some n /\ cb_exit_safe (pn_ops n);
  go_sizes : 0 <= cfg_max_frames cfg /\ 0 <= cfg_frame_size cfg /\ 0 <= cfg_max_encaps cfg }.

(** TLV nodes a TLVs node starts with. *)
Definition tlvs_entry (tsn : xdp2_parse_tlvs_node) (t : tlvid) : Prop :=
  tsn_tlv_wildcard_node tsn = Some t \/
  exists table v, tsn_tlv_proto_table tsn = Some table /\ (v, Some t) ∈ table.

(** ** Conditions for termination of TLV processing

    [rank] bounds overlay chains, nested TLVs shrink, and a TLVs node with a
    wildcard only starts TLV definitions that no TLV is too short for. *)
Record tlv_terminating (R : nat) (rank : tlvid -> nat) : Prop := {
  tt_bound t : (rank t <= R)%nat;
  tt_overlay t tn table v t' : g_tlvs g !! t = Some tn ->
    tn_overlay_table tn = Some table -> (v, Some t') ∈ table -> (rank t' < rank t)%nat;
  tt_overlay_wild t tn t' : g_tlvs g !! t = Some tn ->
    tn_overlay_wildcard_node tn = Some t' -> (rank t' < rank t)%nat;
  tt_nested t tn d tl id : g_tlvs g !! t = Some tn -> tn_nested_node tn = Some id ->
    tlv_at t d tl ->
    exists f, tlvd_nested_offset d = Some f /\
      forall p n r, in_bounds p n -> 1 <= n -> f p n = Done r -> 1 <= r;
  tt_short id n tsn t tn d : g_nodes g !! id = Some n -> pn_ext n = PNTlvs tsn ->
    is_Some (tsn_tlv_wildcard_node tsn) -> tlvs_entry tsn t ->
    g_tlvs g !! t = Some tn -> tn_proto_tlv_def tn = Some d -> tlvd_min_len d <= 1 }.

(** ** Frame conditions of the state *)

(** What the processing of a header may change: metadata and key contents. *)
Definition st_same (st st' : pstate M) : Prop :=
  ctrl_var (st_ctrl st') = ctrl_var (st_ctrl st) /\
  ctrl_pkt (st_ctrl st') = ctrl_pkt (st_ctrl st) /\
  Im (st_meta st') /\ length (key_keys (ctrl_key (st_ctrl st'))) = nk.

Definition st_ok (st : pstate M) : Prop :=
  Im (st_meta st) /\ length (key_keys (ctrl_key (st_ctrl st))) = nk /\
  is_u8 (var_tlv_levels (ctrl_var (st_ctrl st))).

Lemma st_same_refl st : st_ok st -> st_same st st.
Proof. intros (? & ? & _). by repeat split. Qed.

Lemma st_same_trans a b c : st_same a b -> st_same b c -> st_same a c.
Proof. unfold st_same. intros (? & ? & _) (? & ? & ? & ?). split_and!; congruence. Qed.

Lemma st_same_ok a b : st_ok a -> st_same a b -> st_ok b.
Proof. intros (_ & _ & H) (E & _ & ? & ?). split_and!; [done | done |]. by rewrite E. Qed.

(** Entering and leaving a nested TLV restores the 8-bit level counter. *)
Lemma st_same_levels a b :
  st_ok a ->
  st_same (upd_var (fun v => var_set_tlv_levels (u8 (var_tlv_levels v + 1)) v) a) b ->
  st_same a (upd_var (fun v => var_set_tlv_levels (u8 (var_tlv_levels v - 1)) v) b).
Proof.
  destruct a as [ma [va pa ka]], b as [mb [vb pb kb]].
  unfold st_same, st_ok, upd_var; simpl. intros (Hm & Hk & Hl) (-> & -> & ? & ?).
  split_and!; [| done | done | done]. destruct va; unfold var_set_tlv_levels; simpl in *.
  f_equal. unfold is_u8, u8 in *.
  rewrite Zminus_mod_idemp_l, Z.mod_small; lia.
Qed.

Lemma run_extract_wp s L ops hdr n fr st :
  ops_safe L ops -> in_bounds hdr n -> L n -> frame_ok fr -> st_ok st ->
  wp s (run_extract (extract_metadata ops) (Some hdr) n fr st) (st_same st).
Proof.
  intros Ho Hb HL Hf Hs. unfold run_extract.
  destruct (extract_metadata ops) as [f |] eqn:E; [| by apply wp_ret, st_same_refl].
  destruct Hs as (? & ? & _). eapply wp_bind; [eapply (os_extract _ _ Ho); eauto |].
  intros [m k] [Hm Hk]. by repeat split.
Qed.

Lemma run_handler_wp s L (f : option (handler_t M)) hdr n fr st :
  (forall h, f = Some h -> cb_handler_safe L h) ->
  in_bounds hdr n -> L n -> frame_ok fr -> st_ok st ->
  wp s (run_handler f (Some hdr) n fr st) (fun r => st_same st r.2).
Proof.
  intros Ho Hb HL Hf Hs. unfold run_handler.
  destruct f as [f |]; [| by apply wp_ret, st_same_refl].
  destruct Hs as (? & ? & _). eapply wp_bind; [eapply (Ho _ eq_refl); eauto |].
  intros [[r m] k] [Hm Hk]. by repeat split.
Qed.

(** Extraction followed by the handler, as every sub-object gets them. *)
Lemma run_callbacks_wp {A} s L ops hdr n fr st (k : Z -> pstate M -> outcome A) P :
  ops_safe L ops -> in_bounds hdr n -> L n -> frame_ok fr -> st_ok st ->
  (forall ret st', st_same st st' -> st_ok st' -> wp s (k ret st') P) ->
  wp s (st ← run_extract (extract_metadata ops) (Some hdr) n fr st;
        '(ret, st) ← run_handler (handler ops) (Some hdr) n fr st; k ret st) P.
Proof.
  intros Ho Hb HL Hf Hs HP.
  eapply wp_bind; [by eapply run_extract_wp |]. intros st1 H1.
  pose proof (st_same_ok _ _ Hs H1) as Hs1.
  eapply wp_bind. { eapply (run_handler_wp s L); [by apply os_handler | done ..]. }
  intros [ret st2] H2. simpl in H2.
  apply HP; [by eapply st_same_trans | by eapply st_same_ok].
Qed.
End safe.

(** ** TLV processing is safe and terminates

    The induction over [xdp2_parse_one_tlv], [xdp2_parse_tlvs] and its loop. Run
    with [strict = false] it shows that no access leaves the header; with [strict
    = true] and the conditions of [tlv_terminating] it also shows that fuel [(R +
    3) * hlen + 2] suffices. *)

(** The length test of the loop, with the conversion of a negative length to
    [size_t], only lets through lengths within the header. *)
Lemma tlv_len_checked hlen l l' :
  0 <= hlen < 2 ^ 63 -> - 2 ^ 63 <= l < 2 ^ 63 ->
  (if (l =? 0) || (hlen <? u64 l) then None else Some l) = Some l' -> 1 <= l' <= hlen.
Proof.
  intros Hh Hl. destruct (Z.eqb_spec l 0); [done |]. destruct (Z.ltb_spec hlen (u64 l)); [done |].
  intros [= <-]. destruct (decide (0 <= l)).
  - pose proof (u64_small l). lia.
  - pose proof (u64_neg l). lia.
Qed.

Section tlv.
Context {M : Type} (g : parse_graph M) (cfg : xdp2_parser_config) (nk : nat)
  (Im : M -> Prop).
Local Abbreviation frame_ok := (frame_ok g cfg).
Local Abbreviation st_ok := (st_ok nk Im).
Local Abbreviation st_same := (st_same nk Im).

(** A TLV shorter than the minimum of the definition it was looked up with,
    in a TLVs node with a wildcard: [goto parse_again] keeps the definition
    and repeats the test forever. *)
Lemma one_tlv_short_diverges fuel tsn d w t hdr frame tlv_len (st : pstate M) :
  u64 tlv_len < tlvd_min_len d ->
  tsn_tlv_wildcard_node tsn = Some w ->
  xdp2_parse_one_tlv g fuel tsn (Some d) t hdr frame tlv_len st = NoFuel.
Proof.
  intros Hs Hw. revert t. induction fuel as [| fuel IH]; intros t; simpl; [done |].
  destruct (Z.ltb_spec (u64 tlv_len) (tlvd_min_len d)); [| lia].
  rewrite Hw. apply IH.
Qed.

Context (Hg : graph_ok g cfg nk Im).
Context (s : bool) (R : nat) (rank : tlvid -> nat).
Context (Hterm : s = true -> tlv_terminating g R rank).

Definition K : nat := R + 3.

Lemma lookup_tlv_node_elem type table t :
  lookup_tlv_node type table = Some t -> (type, Some t) ∈ table.
Proof.
  unfold lookup_tlv_node. destruct (assoc_first type table) as [o |] eqn:E; [| done].
  intros Ho. simpl in Ho. subst o. by apply assoc_first_elem.
Qed.

Lemma tlv_def_at_ok t d tl : tlv_at g t d tl -> tlv_def_ok d.
Proof using Hg.
  induction 1 as [t tn d tl Ht Hd | |]; [| done | done].
  destruct (tn_def _ _ _ _ _ _ (go_tlvs _ _ _ _ Hg _ _ Ht)) as (d' & E & Hok). by simplify_eq.
Qed.

(** What [xdp2_parse_one_tlv] needs for a TLV of [tl] bytes at node [t]. *)
Definition one_pre (fuel : nat) tsn t d tl : Prop :=
  tlv_at g t d tl /\ is_Some (g_tlvs g !! t) /\ 1 <= tl < 2 ^ 63 /\
  (s = true -> is_Some (tsn_tlv_wildcard_node tsn) -> tlvd_min_len d <= 1) /\
  (s = true -> (K * Z.to_nat tl - K + 3 + rank t <= fuel)%nat).

Definition tlvs_pre (fuel : nat) lb id hlen : Prop :=
  (exists n, g_nodes g !! id = Some n /\ tlvs_node_ok g lb n) /\
  lb <= hlen < 2 ^ 63 /\ (s = true -> (K * Z.to_nat hlen + 2 <= fuel)%nat).

Record loop_pre (fuel : nat) tsn d hlen : Prop := {
  lp_def : exists lb, TlvsDefSafe d lb;
  lp_entries t : tlvs_entry tsn t -> is_Some (g_tlvs g !! t);
  lp_short t tn d' : s = true -> is_Some (tsn_tlv_wildcard_node tsn) -> tlvs_entry tsn t ->
    g_tlvs g !! t = Some tn -> tn_proto_tlv_def tn = Some d' -> tlvd_min_len d' <= 1;
  lp_len : 0 <= hlen < 2 ^ 63;
  lp_fuel : s = true -> (K * Z.to_nat hlen + 1 <= fuel)%nat }.

Definition one_spec fuel := forall tsn t d hdr frame tl st,
  one_pre fuel tsn t d tl -> in_bounds hdr tl -> frame_ok frame -> st_ok st ->
  wp s (xdp2_parse_one_tlv g fuel tsn (Some d) t hdr frame tl st) (fun r => st_same st r.2).
Definition tlvs_spec fuel := forall lb id hdr hlen frame st,
  tlvs_pre fuel lb id hlen -> in_bounds hdr hlen -> frame_ok frame -> st_ok st ->
  wp s (xdp2_parse_tlvs g fuel id hdr hlen frame st) (fun r => st_same st r.2).
Definition loop_spec fuel := forall tsn d cnt cp hlen frame st,
  loop_pre fuel tsn d hlen -> in_bounds cp hlen -> frame_ok frame -> st_ok st ->
  wp s (tlvs_loop g fuel tsn d cnt cp hlen frame st) (fun r => st_same st r.2).

(** The nested block of [xdp2_parse_one_tlv]. *)
Lemma nested_block_wp fuel t tn d hdr tl frame st :
  tlvs_spec fuel ->
  g_tlvs g !! t = Some tn -> tlv_at g t d tl -> tlvd_min_len d <= tl -> 1 <= tl < 2 ^ 63 ->
  (s = true -> (K * Z.to_nat tl - K + 2 <= fuel)%nat) ->
  in_bounds hdr tl -> frame_ok frame -> st_ok st ->
  wp s (match tn_nested_node tn with
        | None => mret (XDP2_OKAY, st)
        | Some nested =>
            d ← deref (Some d);
            nested_offset ← match tlvd_nested_offset d with
                            | Some f => f hdr tl
                            | None => mret 0
                            end;
            let st := upd_var (fun v => var_set_tlv_levels (u8 (var_tlv_levels v + 1)) v) st in
            '(ret, st) ← xdp2_parse_tlvs g fuel nested (padd hdr nested_offset)
                           (u64 (tl - nested_offset)) frame st;
            mret (ret, upd_var (fun v => var_set_tlv_levels (u8 (var_tlv_levels v - 1)) v) st)
        end) (fun r => st_same st r.2).
Proof using Hg Hterm.
  intros IH Ht Hd Hmin Htl Hfuel Hb Hf Hs.
  destruct (tn_nested_node tn) as [id |] eqn:En; [| by apply wp_ret, st_same_refl].
  destruct (tn_nested _ _ _ _ _ _ (go_tlvs _ _ _ _ Hg _ _ Ht) _ En) as (n & Hn & Hnok).
  orun.
  eapply (wp_bind _ _ _ (fun o => 0 <= o <= tl /\ (s = true -> 1 <= o))).
  { pose proof (tlv_def_at_ok _ _ _ Hd) as Hdo.
    destruct (decide (s = true)) as [Hst | Hst].
    - destruct (tt_nested _ _ _ (Hterm Hst) _ _ _ _ _ Ht En Hd) as (f & Ef & Hf1).
      rewrite Ef. pose proof (td_nested _ Hdo _ Ef s hdr tl Hb ltac:(lia)) as Hwp.
      destruct (f hdr tl) as [r | |] eqn:Er; simpl in *; [| done | done].
      split; [done |]. intros _. eapply Hf1; eauto; lia.
    - destruct (tlvd_nested_offset d) as [f |] eqn:Ef.
      + eapply wp_mono; [by eapply (td_nested _ Hdo _ Ef); eauto; lia |].
        simpl. intros o Ho. done.
      + apply wp_ret. split; [lia | done]. }
  intros o [Ho Ho1]. cbv zeta. rewrite u64_small by lia.
  eapply wp_bind.
  { eapply (IH 0); [| by apply in_bounds_padd | done |].
    - split; [by exists n |]. split; [lia |]. intros E.
      specialize (Hfuel E). specialize (Ho1 E). unfold K in *. nia.
    - destruct Hs as (Hm & Hk & Hl). split_and!; [done | done |]. simpl. unfold is_u8, u8.
      apply Z.mod_pos_bound. lia. }
  intros [ret st'] Hst. simpl in *. by apply st_same_levels.
Qed.

Lemma one_step fuel : one_spec fuel -> tlvs_spec fuel -> one_spec (S fuel).
Proof using Hg Hterm.
  intros IH1 IH2 tsn t d hdr frame tl st (Hd & [tn Ht] & Htl & Hsh & Hfu) Hb Hf Hs.
  cbn [xdp2_parse_one_tlv].
  pose proof (go_tlvs _ _ _ _ Hg _ _ Ht) as Htok.
  rewrite u64_small by lia.
  destruct (Z.ltb_spec tl (tlvd_min_len d)) as [Hlt | Hge].
  { destruct (tsn_tlv_wildcard_node tsn) as [w |] eqn:Ew; [| by apply wp_ret, st_same_refl].
    rewrite (one_tlv_short_diverges fuel tsn d w) by (try done; rewrite u64_small; lia).
    simpl. destruct s; [| done]. specialize (Hsh eq_refl ltac:(eauto)). lia. }
  rewrite (get_tlv_Some _ _ _ Ht). orun.
  eapply run_callbacks_wp; [by apply Htok | done | by exists d | done | done |].
  intros ret st1 H1 Hs1.
  destruct (negb (ret =? XDP2_OKAY)); [by apply wp_ret |].
  eapply wp_bind.
  { eapply nested_block_wp; eauto. intros E. specialize (Hfu E). lia. }
  intros [ret2 st2] H2. simpl in H2.
  pose proof (st_same_trans _ _ _ _ _ H1 H2) as H12.
  pose proof (st_same_ok _ _ _ _ Hs1 H2) as Hs2.
  destruct (negb (ret2 =? XDP2_OKAY)); [by apply wp_ret |].
  destruct (tn_overlay_table tn) as [table |] eqn:Etab; [| by apply wp_ret].
  orun.
  eapply (wp_bind _ _ _ (fun type => tlvd_overlay_type d = None -> s32 tl = type)).
  { pose proof (tlv_def_at_ok _ _ _ Hd) as Hdo.
    destruct (tlvd_overlay_type d) as [f |] eqn:Ef; [| by apply wp_ret].
    eapply wp_mono; [eapply (td_overlay _ Hdo _ Ef); eauto; lia | done]. }
  intros type Htype.
  assert (forall next, tlv_at g next d tl -> is_Some (g_tlvs g !! next) ->
            (s = true -> (rank next < rank t)%nat) ->
            wp s (xdp2_parse_one_tlv g fuel tsn (Some d) next hdr frame tl st2)
               (fun r => st_same st r.2)) as Hnext.
  { intros next Hnd Hin Hrk. eapply wp_mono.
    - eapply IH1; eauto. split_and!; try done; try lia. intros E.
      specialize (Hfu E). specialize (Hrk E). lia.
    - intros [r st3] H3. by eapply st_same_trans. }
  destruct (lookup_tlv_node type table) as [next |] eqn:El.
  - pose proof (lookup_tlv_node_elem _ _ _ El) as Hv.
    apply Hnext; [by eapply tda_overlay | by eapply (tn_table _ _ _ _ _ _ Htok) |].
    intros E. eapply (tt_overlay _ _ _ (Hterm E)); eauto.
  - destruct (tn_overlay_wildcard_node tn) as [next |] eqn:Ew; [| by apply wp_ret].
    apply Hnext; [by eapply tda_overlay_wild | by eapply (tn_wild _ _ _ _ _ _ Htok) |].
    intros E. eapply (tt_overlay_wild _ _ _ (Hterm E)); eauto.
Qed.

Lemma tlvs_step fuel : loop_spec fuel -> tlvs_spec (S fuel).
Proof using Hg Hterm.
  intros IH lb id hdr hlen frame st ((n & Hn & [Hok]) & Hlen & Hfu) Hb Hf Hs.
  destruct Hok as (pd & tsn & d & Epd & Eext & Epe & Hsafe & Htab & Hwild).
  cbn [xdp2_parse_tlvs]. rewrite (get_node_Some _ _ _ Hn).
  orun. unfold as_tlvs. rewrite Epd. orun. rewrite Eext, Epe. orun.
  eapply wp_bind. { apply Hsafe; [done | lia]. }
  intros off Hoff. simpl in Hoff. rewrite u64_small by (destruct Hb; lia).
  eapply IH; [| by apply in_bounds_padd | done | done].
  constructor.
  - by exists lb.
  - intros t [Ht | (table & v & Et & Hv)]; [by apply Hwild |]. by eapply Htab.
  - intros t tn d' E Hw Hent Ht Hd. eapply tt_short; eauto.
  - destruct Hb. lia.
  - intros E. specialize (Hfu E). nia.
Qed.

(** The test of a one-byte marker at the current position. *)
Lemma marker_wp (en : bool) val cp hlen :
  in_bounds cp hlen -> 1 <= hlen ->
  wp s (if en then b ← ld8 cp 0; mret (b =? val) else mret false) (fun _ => True).
Proof.
  intros Hb H. destruct en; [| done].
  eapply wp_bind; [by eapply ld8_wp with (P := fun _ => True); eauto; lia |]. done.
Qed.

Lemma loop_step fuel : one_spec fuel -> loop_spec fuel -> loop_spec (S fuel).
Proof using Hg Hterm.
  intros IH1 IHl tsn d cnt cp hlen frame st Hpre Hb Hf Hs.
  pose proof (lp_def _ _ _ _ Hpre) as [lb Hd]. pose proof (lp_len _ _ _ _ Hpre) as Hlen.
  assert (forall fuel' cnt' k st', 1 <= k <= hlen -> fuel' = fuel -> st_ok st' -> st_same st st' ->
            wp s (tlvs_loop g fuel' tsn d cnt' (padd cp k) (hlen - k) frame st')
               (fun r => st_same st r.2)) as Hnext.
  { intros fuel' cnt' k st' Hk -> Hok Hsame. eapply wp_mono.
    - eapply IHl; [| apply in_bounds_padd; [done | lia] | done | done].
      constructor; [by exists lb | apply (lp_entries _ _ _ _ Hpre) | apply (lp_short _ _ _ _ Hpre) | lia |].
      intros E. pose proof (lp_fuel _ _ _ _ Hpre E). unfold K in *. nia.
    - intros [r st3] H3. by eapply st_same_trans. }
  cbn [tlvs_loop].
  destruct (Z.eqb_spec hlen 0); [by apply wp_ret, st_same_refl |].
  eapply wp_bind; [by apply (marker_wp _ _ _ hlen); auto; lia |]. intros pad1 _.
  destruct pad1; [by apply Hnext; auto using st_same_refl; lia |].
  eapply wp_bind; [by apply (marker_wp _ _ _ hlen); auto; lia |]. intros eol _.
  destruct eol; [by apply wp_ret, st_same_refl |].
  cbv zeta.
  destruct (negb _ && _); [by apply wp_ret, st_same_refl |].
  pose proof (tds_min_len (d := d) (lb := lb)) as Hmin.
  unfold s64. rewrite sext_small by lia. rewrite u64_small by lia.
  destruct (Z.ltb_spec hlen (tlvs_min_len d)); [by apply wp_ret, st_same_refl |].
  eapply (wp_bind _ _ _ (fun o => forall l, o = Some l -> 1 <= l <= hlen)).
  { destruct (tlvs_len d) as [f |] eqn:Ef; [| apply wp_ret; intros l [= <-]; lia].
    eapply wp_bind; [eapply (tds_len (lb := lb) _ Ef); eauto; lia |]. intros l Hl. apply wp_ret.
    intros l'. by apply tlv_len_checked. }
  intros [tl |] Htl; [| by apply wp_ret, st_same_refl].
  specialize (Htl tl eq_refl).
  eapply (wp_bind _ _ _ (fun _ => True)); [eapply (tds_type (lb := lb)); eauto; lia |].
  intros type _.
  eapply (wp_bind _ _ _ (fun r => st_same st r.2)).
  { assert (forall t, tlvs_entry tsn t ->
              wp s (tn ← get_tlv g (Some t);
                    xdp2_parse_one_tlv g fuel tsn (tn_proto_tlv_def tn) t cp frame tl st)
                 (fun r => st_same st r.2)) as Hone.
    { intros t Hent. destruct (lp_entries _ _ _ _ Hpre _ Hent) as [tn Ht].
      rewrite (get_tlv_Some _ _ _ Ht). orun.
      destruct (tn_def _ _ _ _ _ _ (go_tlvs _ _ _ _ Hg _ _ Ht)) as (d' & Ed' & _). rewrite Ed'.
      eapply IH1; [| eapply in_bounds_le; eauto; lia | done | done].
      split_and!; [by eapply tda_self | by eexists | lia | lia | |].
      - intros E Hw. by eapply (lp_short _ _ _ _ Hpre).
      - intros E. pose proof (lp_fuel _ _ _ _ Hpre E).
        pose proof (tt_bound _ _ _ (Hterm E) t). unfold K in *. nia. }
    destruct (match tsn_tlv_proto_table tsn with Some table => lookup_tlv_node type table
              | None => None end) as [t |] eqn:El.
    - apply Hone. right. destruct (tsn_tlv_proto_table tsn) as [table |]; [| done].
      pose proof (lookup_tlv_node_elem _ _ _ El). eauto.
    - destruct (tsn_tlv_wildcard_node tsn) as [w |] eqn:Ew; [| by apply wp_ret, st_same_refl].
      apply Hone. by left. }
  intros [ret st2] H2. simpl in H2.
  destruct (negb (ret =? XDP2_OKAY)); [by apply wp_ret |].
  rewrite u64_small by lia.
  apply Hnext; [lia | done | by eapply st_same_ok | done].
Qed.

Lemma tlv_all fuel : one_spec fuel /\ tlvs_spec fuel /\ loop_spec fuel.
Proof using Hg Hterm.
  induction fuel as [| fuel (IH1 & IH2 & IH3)].
  - split_and!.
    + intros tsn t d hdr frame tl st (_ & _ & _ & _ & Hfu) _ _ _. simpl.
      destruct s; [| done]. specialize (Hfu eq_refl). lia.
    + intros lb id hdr hlen frame st (_ & _ & Hfu) _ _ _. simpl.
      destruct s; [| done]. specialize (Hfu eq_refl). lia.
    + intros tsn d cnt cp hlen frame st Hpre _ _ _. simpl.
      pose proof (lp_fuel _ _ _ _ Hpre) as Hfu. destruct s; [| done]. specialize (Hfu eq_refl). lia.
  - split_and!; [by apply one_step | by apply tlvs_step | by apply loop_step].
Qed.

Lemma xdp2_parse_tlvs_wp fuel lb id hdr hlen frame st :
  tlvs_pre fuel lb id hlen -> in_bounds hdr hlen -> frame_ok frame -> st_ok st ->
  wp s (xdp2_parse_tlvs g fuel id hdr hlen frame st) (fun r => st_same st r.2).
Proof using Hg Hterm. apply tlv_all. Qed.
End tlv.
