(* ===== verification/ParserMain.v ===== *)
(** * The main parsing loop: safety, termination, control data

    Flag-field and array processing, one iteration of the loop of
    [__xdp2_parse], and the theorems about a whole parse. *)

From stdpp Require Import base list gmap numbers.
From S2P Require Import Prelude FlagFields ParserTypes Parser ParserSafe.

Section main.
Context {M : Type} (g : parse_graph M) (cfg : xdp2_parser_config) (nk : nat)
  (Im : M -> Prop).
Local Abbreviation frame_ok := (frame_ok g cfg).
Local Abbreviation st_ok := (st_ok nk Im).
Local Abbreviation st_same := (st_same nk Im).
Local Abbreviation ops_safe := (ops_safe g cfg nk Im).

Lemma lookup_ops_elem type (table : list (Z * option (xdp2_parse_node_ops M))) ops :
  mjoin (assoc_first type table) = Some ops -> (type, Some ops) ∈ table.
Proof.
  destruct (assoc_first type table) as [o |] eqn:E; [| done].
  intros Ho. simpl in Ho. subst o. by apply assoc_first_elem.
Qed.

Lemma lookup_node_elem type table t :
  lookup_node type table = Some t -> exists v, (v, Some t) ∈ table.
Proof.
  unfold lookup_node. destruct (assoc_first type table) as [o |] eqn:E; [| done].
  intros Ho. simpl in Ho. subst o. exists type. by apply assoc_first_elem.
Qed.

(** ** Flag-fields *)

Lemma flag_fields_loop_wp s n i (table : list (Z * option (xdp2_parse_node_ops M)))
    ffs flags hdr frame st :
  flag_fields_wf ffs -> (i + n <= length (ffs_fields ffs))%nat ->
  (forall v ops f, (v, Some ops) ∈ table -> ffs_fields ffs !! Z.to_nat v = Some f ->
     ops_safe (eq (ff_size f)) ops) ->
  in_bounds hdr (present_size flags (ffs_fields ffs)) -> frame_ok frame -> st_ok st ->
  wp s (flag_fields_loop n (Z.of_nat i) table ffs flags hdr frame st) (st_same st).
Proof.
  intros Hwf. revert i st. induction n as [| n IH]; intros i st Hn Ht Hb Hf Hs;
    cbn [flag_fields_loop]; [by apply wp_ret, st_same_refl |].
  destruct (lookup_lt_is_Some_2 (ffs_fields ffs) i) as [f Hff]; [lia |].
  assert (forall st', st_same st st' -> st_ok st' ->
            wp s (flag_fields_loop n (Z.of_nat i + 1) table ffs flags hdr frame st')
               (st_same st)) as Hnext.
  { intros st' H1 H2. replace (Z.of_nat i + 1) with (Z.of_nat (S i)) by lia.
    eapply wp_mono; [apply IH; auto; lia |]. intros st2 H3. by eapply st_same_trans. }
  destruct (xdp2_flag_fields_offset_cases ffs flags i f Hwf Hff)
    as [[_ E] | (_ & off & E & _ & H0 & Hle)]; rewrite E; orun.
  { simpl. apply Hnext; auto using st_same_refl. }
  destruct (Z.ltb_spec off 0); [lia |].
  destruct (lookup_flag_field_node _ _) as [ops |] eqn:El;
    [| apply Hnext; auto using st_same_refl].
  pose proof (lookup_ops_elem _ _ _ El) as Hv.
  rewrite Nat2Z.id, Hff. orun.
  eapply (wp_bind _ _ _ (fun st' => st_same st st' /\ st_ok st')).
  - pose proof Hwf as (_ & Hsz & _). eapply Forall_lookup_1 in Hsz; [| done].
    eapply run_callbacks_wp; [eapply Ht; [done | by rewrite Nat2Z.id] | | done | done | done |].
    + eapply in_bounds_le; [apply in_bounds_padd; [done |] |]; lia.
    + intros ret st' H1 H2. by apply wp_done.
  - intros st' [H1 H2]. by apply Hnext.
Qed.

Lemma xdp2_parse_flag_fields_wp s (n : xdp2_parse_node M) pd lenf hdr len hlen frame st :
  pn_proto_def n = Some pd -> flag_fields_node_ok g cfg nk Im n pd ->
  op_len (pd_ops pd) = Some lenf -> lenf hdr len = Done hlen ->
  in_bounds hdr len -> pd_min_len pd <= hlen <= len -> len < 2 ^ 63 -> 0 <= hlen ->
  frame_ok frame -> st_ok st ->
  wp s (xdp2_parse_flag_fields n hdr hlen frame st) (fun r => st_same st r.2).
Proof.
  intros Hpd (fn & d & Ee & Epe & Hd & Hops) El Er Hb Hlen Hlt H0 Hf Hs.
  unfold xdp2_parse_flag_fields. rewrite Hpd. orun. rewrite Ee, Epe.
  pose proof (ffs_layout s hdr len hlen lenf El Hb ltac:(lia) ltac:(lia) Er Hlen) as Hl.
  eapply wp_bind; [exact Hl |]. intros flags Hflags. simpl in Hflags.
  eapply wp_bind; [exact Hflags |]. intros off [Ho1 Ho2].
  pose proof ffs_wf as (Hnum & Hsz & _ & _).
  pose proof (present_size_nonneg flags _ Hsz).
  eapply wp_bind.
  - eapply (flag_fields_loop_wp s _ 0); [apply ffs_wf | lia | done | | done | done].
    eapply in_bounds_le; [apply (in_bounds_padd hdr len off); [done |] |]; lia.
  - intros st' Hst. by apply wp_ret.
Qed.

(** ** Arrays *)

Lemma array_loop_wp s n (an : xdp2_parse_array_node M) d ty cp hlen frame st :
  0 <= ad_el_length d ->
  (forall f, ad_el_type d = Some f -> op_safe f (ad_el_length d)) ->
  (forall table v ops, an_array_proto_table an = Some table -> (v, Some ops) ∈ table ->
     ops_safe (eq (ad_el_length d)) ops) ->
  (forall ops, an_array_wildcard_node an = Some ops -> ops_safe (eq (ad_el_length d)) ops) ->
  Z.of_nat n * ad_el_length d <= hlen < 2 ^ 63 ->
  in_bounds cp hlen -> frame_ok frame -> st_ok st ->
  wp s (array_loop n an d ty cp hlen frame st) (fun r => st_same st r.2).
Proof.
  intros H0 Hty Htab Hwild. revert ty cp hlen st.
  induction n as [| n IH]; intros ty cp hlen st Hlen Hb Hf Hs;
    cbn [array_loop]; [by apply wp_ret, st_same_refl |].
  destruct (Z.eqb_spec hlen 0); [by apply wp_ret, st_same_refl |].
  eapply (wp_bind _ _ _ (fun _ => True)).
  { destruct (ad_el_type d) as [f |]; [| done]. eapply Hty; eauto. nia. }
  intros ty' _.
  destruct (match ad_el_type d with Some _ => _ | None => _ end);
    [by apply wp_ret, st_same_refl |].
  assert (forall st', st_same st st' -> st_ok st' ->
            wp s (array_loop n an d ty' (padd cp (ad_el_length d))
                    (u64 (hlen - ad_el_length d)) frame st') (fun r => st_same st r.2)) as Hnext.
  { intros st' H1 H2. rewrite u64_small by nia. eapply wp_mono.
    - apply IH; [nia | apply in_bounds_padd; [done | nia] | done | done].
    - intros r H3. by eapply st_same_trans. }
  cbv zeta.
  destruct (match _ with Some _ => _ | None => an_array_wildcard_node an end)
    as [ops |] eqn:Efound.
  - eapply (run_callbacks_wp _ _ _ _ _ (eq (ad_el_length d)));
      [| eapply in_bounds_le; [done | nia] | done | done | done |].
    + destruct (an_array_proto_table an) as [table |] eqn:Etab; [| by apply Hwild].
      destruct (lookup_array_node ty' table) as [o |] eqn:El; [| by apply Hwild].
      simplify_eq. pose proof (lookup_ops_elem _ _ _ El) as Hv. by eapply Htab.
    + intros ret st' H1 H2. by apply Hnext.
  - destruct (negb _); [by apply wp_ret, st_same_refl |]. apply Hnext; auto using st_same_refl.
Qed.

Lemma xdp2_parse_array_wp s (n : xdp2_parse_node M) pd hdr hlen frame st :
  pn_proto_def n = Some pd -> array_node_ok g cfg nk Im n pd ->
  in_bounds hdr hlen -> pd_min_len pd <= hlen -> hlen < 2 ^ 63 -> frame_ok frame -> st_ok st ->
  wp s (xdp2_parse_array n hdr hlen frame st) (fun r => st_same st r.2).
Proof.
  intros Hpd (an & d & Ee & Epe & Hel & Hst & Hty & Htab & Hwild) Hb Hlen Hlt Hf Hs.
  unfold xdp2_parse_array. rewrite Hpd. orun. rewrite Ee, Epe.
  eapply wp_bind; [by apply Hst |]. intros off [Hoff Hnum].
  cbv zeta. rewrite u64_small by lia.
  eapply wp_bind; [exact Hnum |]. intros k [Hk Hke].
  eapply wp_bind.
  - eapply array_loop_wp; eauto; [| by apply in_bounds_padd].
    unfold u32. rewrite Z.mod_small by lia. lia.
  - intros [r st'] Hst'. by apply wp_ret.
Qed.

Context (Hg : graph_ok g cfg nk Im).

(** ** Pieces of one iteration *)

Lemma proto_hlen_wp s pd hdr len :
  ProtoDefSafe pd -> in_bounds hdr len -> len < 2 ^ 63 ->
  wp s (proto_hlen pd hdr len) (fun r => forall hlen, r = inr hlen ->
    pd_min_len pd <= hlen <= len /\
    (forall f, op_len (pd_ops pd) = Some f -> f hdr len = Done hlen)).
Proof.
  intros Hpd Hb Hlt. pose proof pds_min_len as Hm. unfold proto_hlen. cbv zeta.
  rewrite u64_small by lia.
  destruct (Z.ltb_spec len (pd_min_len pd)); [by apply wp_ret |].
  destruct (op_len (pd_ops pd)) as [f |] eqn:Ef.
  - pose proof (pds_len f Ef s hdr len Hb ltac:(lia) Hlt) as Hw.
    destruct (f hdr len) as [r | |] eqn:Er; [| done | done]. orun. simpl in Hw. simpl.
    intros hlen. destruct (Z.ltb_spec len (u64 r)); [done |].
    destruct (Z.ltb_spec r (pd_min_len pd)); [by destruct (r <? 0) |].
    intros [= <-]. rewrite u64_small in * by lia. split; [lia |]. intros f' [= <-]. done.
  - apply wp_ret. intros hlen [= <-]. split; [lia | done].
Qed.

Lemma exit_node_wp s id frame st :
  (exists n, g_nodes g !! id = Some n /\ cb_exit_safe g cfg nk Im (pn_ops n)) ->
  frame_ok frame -> st_ok st ->
  wp s (__xdp2_parse_run_exit_node g id frame st) (fun r => r.1 = 0 /\ st_same st r.2).
Proof.
  intros (n & Hn & He & Hh) Hf Hs. unfold __xdp2_parse_run_exit_node.
  rewrite (get_node_Some _ _ _ Hn). orun.
  eapply (wp_bind _ _ _ (st_same st)).
  { unfold run_extract. destruct (extract_metadata (pn_ops n)) as [f |] eqn:E;
      [| by apply wp_ret, st_same_refl].
    destruct Hs as (? & ? & _). eapply wp_bind; [eapply He; eauto |].
    intros [m k] [Hm Hk]. by repeat split. }
  intros st1 H1. eapply (wp_bind _ _ _ (fun r => st_same st r.2)).
  { unfold run_handler. destruct (handler (pn_ops n)) as [f |] eqn:E; [| by apply wp_ret].
    destruct (st_same_ok _ _ _ _ Hs H1) as (? & ? & _).
    eapply wp_bind; [eapply Hh; eauto |].
    intros [[r m] k] [Hm Hk]. simpl in *. eapply st_same_trans; [done |]. by repeat split. }
  intros [r st2] H2. by apply wp_ret.
Qed.

Lemma process_ext_wp s fuel R rank id n pd hdr len hlen frame st :
  (s = true -> tlv_terminating g R rank) ->
  (s = true -> ((R + 3) * Z.to_nat len + 2 <= fuel)%nat) ->
  g_nodes g !! id = Some n -> pn_proto_def n = Some pd ->
  in_bounds hdr len -> len < 2 ^ 63 -> pd_min_len pd <= hlen <= len -> 0 <= hlen ->
  (forall f, op_len (pd_ops pd) = Some f -> f hdr len = Done hlen) ->
  frame_ok frame -> st_ok st ->
  wp s (process_ext g fuel id n pd hdr hlen frame st) (fun r => st_same st r.2).
Proof using Hg.
  intros Hterm Hfu Hn Hpd Hb Hlt Hlen H0 Hl Hf Hs.
  destruct (no_pd _ _ _ _ _ (go_nodes _ _ _ _ Hg _ _ Hn)) as (pd' & E & Hsafe & Htag & _).
  rewrite Hpd in E. injection E as <-. unfold process_ext.
  assert (in_bounds hdr hlen) as Hb' by (eapply in_bounds_le; eauto; lia).
  destruct (pn_node_type n).
  - by apply wp_ret, st_same_refl.
  - rewrite u64_small by lia. case_decide; [| by apply wp_ret, st_same_refl].
    eapply (xdp2_parse_tlvs_wp _ _ _ _ Hg s R rank Hterm); [| done | done | done].
    split; [exists n; eauto |]. split; [lia |]. intros Es. specialize (Hfu Es). unfold K. nia.
  - rewrite u64_small by lia. case_decide; [| by apply wp_ret, st_same_refl].
    destruct (Htag ltac:(done)) as (fn & d & He1 & He2 & Hd & Ho).
    destruct ffs_has_len as [lenf Elen].
    eapply xdp2_parse_flag_fields_wp; eauto.
  - rewrite u64_small by lia. case_decide; [| by apply wp_ret, st_same_refl].
    eapply xdp2_parse_array_wp; eauto; lia.
Qed.

(** ** The loop invariant *)

Definition encaps_of (st : pstate M) : Z := var_encaps (ctrl_var (st_ctrl st)).
Definition ret_code_of (st : pstate M) : Z := var_ret_code (ctrl_var (st_ctrl st)).
Definition last_node_of (st : pstate M) : option nodeid := var_last_node (ctrl_var (st_ctrl st)).

Definition frame_at (encaps frame_num frame : Z) : Prop :=
  0 <= frame_num <= cfg_max_frames cfg /\
  (cfg_max_encaps cfg < 255 -> frame_num <= encaps) /\
  (encap_free g -> frame_num = 0) /\
  frame = cfg_metameta_size cfg + frame_num * cfg_frame_size cfg.

Lemma frame_at_ok e fn fr : frame_at e fn fr -> e <= cfg_max_encaps cfg -> frame_ok fr.
Proof. intros (? & ? & ? & ?) ?. exists fn. split_and!; auto; lia. Qed.

Record loop_inv (id : nodeid) (hdr : ptr) (len frame frame_num : Z) (st : pstate M) : Prop := {
  li_node : is_Some (g_nodes g !! id);
  li_bounds : in_bounds hdr len;
  li_len : len < 2 ^ 63;
  li_st : st_ok st;
  li_encaps : 0 <= encaps_of st <= cfg_max_encaps cfg;
  li_frame : frame_at (encaps_of st) frame_num frame }.

(** State after [out], with the control data it left. *)
Record out_inv (frame : Z) (st0 st : pstate M) : Prop := {
  oi_st : st_ok st;
  oi_frame : frame_ok frame;
  oi_encaps : 0 <= encaps_of st <= cfg_max_encaps cfg + 1;
  oi_ret_code : ret_code_of st = ret_code_of st0;
  oi_last : is_Some (last_node_of st) }.

Definition step_post (id : nodeid) (hdr : ptr) (len : Z) (st0 : pstate M) (r : step_result) : Prop :=
  match r with
  | SOut ret frame st => out_inv frame st0 st
  | SNext next hdr' len' frame frame_num st =>
      exists id', next = Some id' /\ loop_inv id' hdr' len' frame frame_num st /\
        ret_code_of st = ret_code_of st0 /\ last_node_of st = Some id /\
        0 <= len' <= len /\ (poff hdr' + len' = poff hdr + len) /\ pbuf hdr' = pbuf hdr
  end.

Lemma enter_encap_wp s frame frame_num st :
  ~ encap_free g -> frame_at (encaps_of st) frame_num frame -> st_ok st ->
  0 <= encaps_of st <= cfg_max_encaps cfg ->
  wp s (enter_encap g cfg frame frame_num st) (fun r =>
    st_ok r.2 /\ ret_code_of r.2 = ret_code_of st /\ last_node_of r.2 = last_node_of st /\
    match r.1 with
    | inl ret => 0 <= encaps_of r.2 <= cfg_max_encaps cfg + 1
    | inr (fr, fn) => frame_at (encaps_of r.2) fn fr /\ 0 <= encaps_of r.2 <= cfg_max_encaps cfg
    end).
Proof using Hg.
  intros Hne Hf Hs He. unfold enter_encap.
  eapply (wp_bind _ _ _ (fun r => r.1 = XDP2_OKAY /\ st_same st r.2)).
  { destruct (cfg_atencap_node cfg) as [id |] eqn:E;
      [| apply wp_ret; split; [done |]; by apply st_same_refl].
    apply exit_node_wp; [by eapply go_atencap | eapply frame_at_ok; [done | lia] | done]. }
  intros [ret st1] [Hret H1]. simpl in Hret, H1. subst ret.
  change (negb (XDP2_OKAY =? XDP2_OKAY)) with false. cbv zeta iota.
  pose proof (st_same_ok _ _ _ _ Hs H1) as (Hm & Hk & Hl). pose proof H1 as (Ev & _).
  assert (0 <= u8 (encaps_of st + 1) <= encaps_of st + 1) as Hu.
  { unfold u8. split; [apply Z.mod_pos_bound; lia |]. apply Z.mod_le; lia. }
  unfold encaps_of, ret_code_of, last_node_of, ParserSafe.st_ok in *. simpl. rewrite Ev in *.
  destruct (Z.ltb_spec (cfg_max_encaps cfg) (u8 (var_encaps (ctrl_var (st_ctrl st)) + 1)));
    [apply wp_ret; simpl; rewrite ?Ev; split_and!; try done; lia |].
  destruct Hf as (Hfn & Hfe & _ & Hfr).
  assert (cfg_max_encaps cfg < 255 ->
          u8 (var_encaps (ctrl_var (st_ctrl st)) + 1) =
          var_encaps (ctrl_var (st_ctrl st)) + 1) as Hu1.
  { intros. unfold u8. rewrite Z.mod_small; lia. }
  destruct (Z.ltb_spec frame_num (cfg_max_frames cfg));
    apply wp_ret; simpl; rewrite ?Ev; split_and!; try done; unfold frame_at; try split_and!; try done; lia.
Qed.

Lemma next_node_wp s id n pd hdr c len :
  g_nodes g !! id = Some n -> pn_proto_def n = Some pd ->
  in_bounds hdr len -> pd_min_len pd <= len ->
  length (key_keys (ctrl_key c)) = nk ->
  wp s (next_node n pd hdr c) (fun r => forall next, r = inr next ->
    exists id', next = Some id' /\ is_Some (g_nodes g !! id')).
Proof using Hg.
  intros Hn Hpd Hb Hlen Hk. pose proof (go_nodes _ _ _ _ Hg _ _ Hn) as Hok.
  destruct (no_pd _ _ _ _ _ Hok) as (pd' & E & Hsafe & _ & Hwild & Hkey & _).
  rewrite Hpd in E. injection E as <-. unfold next_node. cbv zeta.
  eapply (wp_bind _ _ _ (fun r => forall next, r = inr (Some next) ->
            is_Some (g_nodes g !! next))).
  { assert (forall table type next, pn_proto_table n = Some table ->
              @inr Z _ (lookup_node type table) = inr (Some next) ->
              is_Some (g_nodes g !! next)) as Hlk.
    { intros table type next Et [= El]. destruct (lookup_node_elem _ _ _ El) as [v Hv].
      by eapply (no_table _ _ _ _ _ Hok). }
    destruct (pn_proto_table n) as [table |]; [| by apply wp_ret].
    destruct (op_next_proto_keyin (pd_ops pd)) as [f |] eqn:Ek.
    - destruct (lookup_lt_is_Some_2 (key_keys (ctrl_key c)) (Z.to_nat (pn_key_sel n)))
        as [key Ekey]; [rewrite Hk; apply Hkey; eauto |].
      rewrite Ekey. orun.
      eapply (wp_bind _ _ _ (fun _ => True)); [by eapply (pds_next_proto_keyin _ Ek) |].
      intros type _. apply wp_ret. intros next. destruct (type <? 0); [done |]. by apply Hlk.
    - destruct (op_next_proto (pd_ops pd)) as [f |] eqn:Ep; [| by apply wp_ret].
      eapply (wp_bind _ _ _ (fun _ => True)); [by eapply (pds_next_proto _ Ep) |].
      intros type _. apply wp_ret. intros next. destruct (type <? 0); [done |]. by apply Hlk. }
  intros [ret | [next |]] Hnext; [by apply wp_ret | |].
  - apply wp_ret. intros next' [= <-]. eauto.
  - destruct (pn_wildcard_node n) as [w |] eqn:Ew; [| by apply wp_ret].
    assert (is_Some (g_nodes g !! w)) as Hw by (by eapply (no_wild _ _ _ _ _ Hok)).
    destruct (op_next_proto (pd_ops pd)) as [f |] eqn:Ep.
    + rewrite Hwild by eauto. apply wp_ret. intros next [= <-]. eauto.
    + destruct (pn_proto_table n); apply wp_ret; intros next [= <-]; eauto.
Qed.

Lemma parse_step_wp s fuel R rank id hdr len frame frame_num st :
  (s = true -> tlv_terminating g R rank) ->
  (s = true -> ((R + 3) * Z.to_nat len + 2 <= fuel)%nat) ->
  loop_inv id hdr len frame frame_num st ->
  wp s (parse_step g fuel cfg id hdr len frame frame_num st) (step_post id hdr len st).
Proof using Hg.
  intros Hterm Hfu [[n Hn] Hb Hlt Hs He Hf]. unfold parse_step.
  pose proof (go_nodes _ _ _ _ Hg _ _ Hn) as Hok.
  destruct (no_pd _ _ _ _ _ Hok) as (pd & Hpd & Hsafe & _ & _ & _ & Hcb).
  rewrite (get_node_Some _ _ _ Hn). orun. rewrite Hpd. orun. cbv zeta.
  set (st1 := upd_var (var_set_last_node (Some id)) st).
  assert (st_ok st1) as Hs1 by done.
  assert (0 <= encaps_of st1 <= cfg_max_encaps cfg) as He1 by done.
  assert (frame_at (encaps_of st1) frame_num frame) as Hf1 by done.
  assert (ret_code_of st1 = ret_code_of st) as Hr1 by done.
  assert (last_node_of st1 = Some id) as Hl1 by done.
  clearbody st1.
  assert (frame_ok frame) as Hfo by (eapply frame_at_ok; [done | lia]).
  eapply wp_bind; [by eapply proto_hlen_wp |].
  intros [ret | hlen] Hh.
  { apply wp_ret. simpl. constructor; rewrite ?Hr1, ?Hl1; try done. lia. }
  destruct (Hh hlen eq_refl) as [Hlen Hlf]. pose proof (pds_min_len (pd := pd)) as Hmin.
  assert (in_bounds hdr hlen) as Hb' by (eapply in_bounds_le; eauto; lia).
  assert (forall st2, st_same st1 st2 -> st_ok st2 /\
            0 <= encaps_of st2 <= cfg_max_encaps cfg /\ ret_code_of st2 = ret_code_of st /\
            last_node_of st2 = Some id /\ frame_at (encaps_of st2) frame_num frame) as Hsame.
  { intros st2 H2. split; [by eapply st_same_ok |]. destruct H2 as (E & _).
    unfold encaps_of, ret_code_of, last_node_of in *. by rewrite E. }
  eapply run_callbacks_wp; [done | done | lia | done | done |].
  intros _ st2 H2 Hs2.
  eapply wp_bind; [eapply process_ext_wp; eauto; lia |].
  intros [ret st3] H3. simpl in H3. pose proof (st_same_trans _ _ _ _ _ H2 H3) as H13.
  destruct (Hsame _ H13) as (Hs3 & He3 & Hr3 & Hl3 & _).
  destruct (negb (ret =? XDP2_OKAY)).
  { apply wp_ret. constructor; rewrite ?Hl3; try done. lia. }
  eapply wp_bind. { eapply (run_handler_wp g cfg); [apply (os_post _ _ _ _ _ _ Hcb) | done | simpl; lia | done ..]. }
  intros [ret4 st4] H4. simpl in H4. pose proof (st_same_trans _ _ _ _ _ H13 H4) as H14.
  destruct (Hsame _ H14) as (Hs4 & He4 & Hr4 & Hl4 & Hf4).
  destruct (is_null _ && is_null _).
  { apply wp_ret. constructor; rewrite ?Hl4; try done. lia. }
  eapply (wp_bind _ _ _ (fun r =>
    st_ok r.2 /\ ret_code_of r.2 = ret_code_of st /\ last_node_of r.2 = Some id /\
    match r.1 with
    | inl ret => 0 <= encaps_of r.2 <= cfg_max_encaps cfg + 1
    | inr (fr, fn) => frame_at (encaps_of r.2) fn fr /\ 0 <= encaps_of r.2 <= cfg_max_encaps cfg
    end)).
  { destruct (pd_encap pd) eqn:Eenc; [| by apply wp_ret].
    eapply wp_mono; [apply enter_encap_wp; try done |].
    { intros Hfree. specialize (Hfree _ _ _ Hn Hpd). congruence. } intros r. by rewrite Hr4, Hl4. }
  intros [[ret5 | [fr fn]] st5] (Hs5 & Hr5 & Hl5 & H5); simpl in *.
  { constructor; [done | done | done | done | rewrite Hl5; by eexists]. }
  destruct H5 as [Hf5 He5].
  eapply wp_bind; [eapply next_node_wp; eauto; [lia | apply Hs5] |].
  intros [ret6 | next] Hnext.
  { apply wp_ret. constructor; rewrite ?Hl5; try done; [eapply frame_at_ok; [done | lia] | lia]. }
  destruct (Hnext next eq_refl) as (id' & -> & Hid').
  assert (forall hdr' len', in_bounds hdr' len' -> 0 <= len' <= len ->
            poff hdr' + len' = poff hdr + len -> pbuf hdr' = pbuf hdr ->
            wp s (if (len' =? 0) && negb (Z.land (pn_flags n) 1 =? 0)
                  then mret (SOut XDP2_STOP_OKAY fr st5)
                  else mret (SNext (Some id') hdr' len' fr fn st5))
               (step_post id hdr len st)) as Hend.
  { intros hdr' len' Hb1 Hl1' Ho1 Hp1. destruct (_ && _); apply wp_ret.
    - constructor; rewrite ?Hl5; try done; [eapply frame_at_ok; [done | lia] | lia].
    - exists id'. split_and!; [done | constructor; done || lia | done | done | lia | lia | done | done]. }
  destruct (pd_overlay pd).
  - apply Hend; [done | | done | done]. destruct Hb. lia.
  - rewrite u64_small by lia. apply Hend; [apply in_bounds_padd; [done | lia] | lia | | done].
    simpl. lia.
Qed.

Lemma parse_out_wp s ret frame st0 st :
  out_inv frame st0 st ->
  wp s (parse_out g cfg ret frame st) (fun r =>
    st_ok r.2 /\ r.1 = ret /\ 0 <= encaps_of r.2 <= cfg_max_encaps cfg + 1 /\
    ret_code_of r.2 = s8 ret /\ is_Some (last_node_of r.2)).
Proof using Hg.
  intros [Hs Hf He Hr Hl]. unfold parse_out. cbv zeta.
  destruct (if XDP2_CODE_IS_OKAY ret then cfg_okay_node cfg else cfg_fail_node cfg)
    as [id |] eqn:E; [| by apply wp_ret].
  eapply wp_bind.
  { eapply (exit_node_wp s id frame); [| done |].
    - destruct (XDP2_CODE_IS_OKAY ret); [by eapply go_okay | by eapply go_fail].
    - done. }
  intros [r st'] [_ Hsame]. apply wp_ret. split; [exact (st_same_ok nk Im (upd_var (var_set_ret_code (s8 ret)) st) _ Hs Hsame) |].
  destruct Hsame as (Ev & _). simpl in *.
  unfold encaps_of, ret_code_of, last_node_of in *. by rewrite Ev.
Qed.

Lemma parse_loop_wp s nodes fuel R rank id hdr len frame frame_num st :
  (s = true -> tlv_terminating g R rank) ->
  (s = true -> ((R + 3) * Z.to_nat len + 2 <= fuel)%nat) ->
  loop_inv id hdr len frame frame_num st ->
  wp s (parse_loop g nodes fuel cfg (Some id) hdr len frame frame_num st) (fun r =>
    st_ok r.2 /\ 0 <= encaps_of r.2 <= cfg_max_encaps cfg + 1 /\ is_Some (last_node_of r.2) /\
    (ret_code_of r.2 = s8 r.1 \/
     r.1 = XDP2_STOP_MAX_NODES /\ ret_code_of r.2 = ret_code_of st)).
Proof using Hg.
  intros Hterm. revert id hdr len frame frame_num st.
  induction nodes as [| nodes IH]; intros id hdr len frame frame_num st Hfu Hinv;
    cbn [parse_loop]; orun; (eapply wp_bind; [by eapply parse_step_wp |]);
    intros [ret fr st' | next hdr' len' fr fn st'] Hpost.
  1, 3: eapply wp_mono; [by eapply parse_out_wp |]; intros [r st2] (Hok & Hr & He & Hrc & Hl);
    simpl in *; subst r; by auto.
  - destruct Hpost as (id' & -> & Hinv' & Hr & Hl & _).
    apply wp_ret. simpl. split_and!.
    + apply Hinv'.
    + apply Hinv'.
    + pose proof (li_encaps _ _ _ _ _ _ Hinv'). lia.
    + by rewrite Hl.
    + by right.
  - destruct Hpost as (id' & -> & Hinv' & Hr & Hl & Hlen' & _).
    rewrite <- Hr. apply IH; [| done]. intros E. specialize (Hfu E). nia.
Qed.
End main.
