(* ===== verification/ProtoDefs.v ===== *)
(** * Protocol definitions

    The protocol definitions of [src/src/include/xdp2/proto_defs/]: for each
    header its minimum length, the computation of its length and of the next
    protocol, and the [xdp2_proto_def] record built from them. A 16-bit field
    in network order is used by the code without conversion, so it is the
    little endian load here; constants written with [htons] or
    [__cpu_to_be16] are swapped with [bswap16].

    Every definition is shown to keep the promises ([ProtoDefSafe],
    [TlvsDefSafe], [FlagFieldsDefSafe]) the parser relies on, except those the
    theorems at the end single out. *)

From stdpp Require Import base list gmap numbers.
From S2P Require Import Prelude FlagFields ParserTypes.

Definition plain_def (encap overlay : bool) (min_len : Z) (ops : xdp2_parse_ops) :=
  ProtoDef XDP2_NODE_TYPE_PLAIN encap overlay min_len ops PDPlain.

(** ** Link layer *)

Definition ETH_ALEN := 6.
Definition ETH_P_IP := 0x0800.
Definition ETH_P_TEB := 0x6558.

Definition ether_proto (p : ptr) : outcome Z := ld16 p 12.
Definition xdp2_parse_ether :=
  plain_def false false 14 (ParseOps None (Some ether_proto) None).

Definition vlan_proto (p : ptr) : outcome Z := ld16 p 2.
Definition xdp2_parse_vlan :=
  plain_def false false 4 (ParseOps None (Some vlan_proto) None).

Definition ppp_proto (p : ptr) : outcome Z := ld16 p 2.
Definition xdp2_parse_ppp :=
  plain_def false false 4 (ParseOps None (Some ppp_proto) None).

Definition pppoe_proto (p : ptr) : outcome Z := ld16 p 6.
Definition xdp2_parse_pppoe :=
  plain_def false false 8 (ParseOps None (Some pppoe_proto) None).

Definition xdp2_parse_mpls := plain_def false false (2 * 4) no_ops.
Definition xdp2_parse_fcoe := plain_def false false 38 no_ops.
Definition xdp2_parse_tipc := plain_def false false 16 no_ops.
Definition xdp2_parse_igmp := plain_def false false 8 no_ops.
Definition xdp2_parse_ports := plain_def false false 4 no_ops.

Definition vxlan_proto (p : ptr) : outcome Z := mret ETH_P_TEB.
Definition xdp2_parse_vxlan :=
  plain_def true false 8 (ParseOps None (Some vxlan_proto) None).

(** [sizeof(struct earphdr)] *)
Definition EARPHDR_LEN := 28.
Definition ARPHRD_ETHER := 1.
Definition ARPOP_REQUEST := 1.
Definition ARPOP_REPLY := 2.

Definition arp_len_check (p : ptr) (maxlen : Z) : outcome Z :=
  ar_hrd ← ld16 p 0; ar_pro ← ld16 p 2; ar_hln ← ld8 p 4; ar_pln ← ld8 p 5;
  ar_op ← ld16 p 6;
  mret (if negb (ar_hrd =? bswap16 ARPHRD_ETHER) || negb (ar_pro =? bswap16 ETH_P_IP) ||
           negb (ar_hln =? ETH_ALEN) || negb (ar_pln =? 4) ||
           (negb (ar_op =? bswap16 ARPOP_REPLY) && negb (ar_op =? bswap16 ARPOP_REQUEST))
        then XDP2_STOP_FAIL else EARPHDR_LEN).
Definition xdp2_parse_arp :=
  plain_def false false EARPHDR_LEN (ParseOps (Some arp_len_check) None None).
Definition xdp2_parse_rarp :=
  plain_def false false EARPHDR_LEN (ParseOps (Some arp_len_check) None None).

Definition BATADV_COMPAT_VERSION := 15.
Definition BATADV_UNICAST := 0x40.
(** [sizeof(struct batadv_eth)]: a unicast packet header and an Ethernet header *)
Definition BATADV_ETH_LEN := 10 + 14.

Definition batman_len_check (p : ptr) (maxlen : Z) : outcome Z :=
  packet_type ← ld8 p 0; version ← ld8 p 1;
  mret (if negb (version =? BATADV_COMPAT_VERSION) || negb (packet_type =? BATADV_UNICAST)
        then XDP2_STOP_FAIL else BATADV_ETH_LEN).
Definition batman_proto (p : ptr) : outcome Z := ld16 p (10 + 12).
Definition xdp2_parse_batman :=
  plain_def true false BATADV_ETH_LEN (ParseOps (Some batman_len_check) (Some batman_proto) None).

(** ** IP *)

(** [struct ip_hdr_byte]: the version is the high nibble of the first byte. *)
Definition ip_proto (p : ptr) : outcome Z := b ← ld8 p 0; mret (Z.shiftr b 4).
Definition ip_min_len (p : ptr) : Z := 1.
Definition ip_proto_by_key (p : ptr) (key : Z) : outcome Z := mret (s32 key).
Definition xdp2_parse_ip :=
  plain_def false true 1 (ParseOps None (Some ip_proto) None).
Definition xdp2_parse_ip_by_key :=
  plain_def false true 0 (ParseOps None None (Some ip_proto_by_key)).

Definition IP_MF := 0x2000.
Definition IP_OFFSET := 0x1FFF.

Definition ipv4_len (p : ptr) : outcome Z := b ← ld8 p 0; mret (Z.land b 0xf * 4).
Definition ip_is_fragment (p : ptr) : outcome bool :=
  frag_off ← ld16 p 6;
  mret (negb (Z.land frag_off (bswap16 (Z.lor IP_MF IP_OFFSET)) =? 0)).
Definition ipv4_proto (p : ptr) : outcome Z :=
  frag ← ip_is_fragment p;
  frag_off ← ld16 p 6;
  if (frag : bool) && negb (Z.land frag_off (bswap16 IP_OFFSET) =? 0)
  then mret XDP2_STOP_OKAY else ld8 p 9.
Definition ipv4_proto_stop1stfrag (p : ptr) : outcome Z :=
  frag ← ip_is_fragment p;
  if (frag : bool) then mret XDP2_STOP_OKAY else ld8 p 9.
Definition ipv4_length (p : ptr) (maxlen : Z) : outcome Z := ipv4_len p.
Definition ipv4_length_check (p : ptr) (maxlen : Z) : outcome Z :=
  b ← ld8 p 0;
  if negb (Z.shiftr b 4 =? 4) then mret XDP2_STOP_UNKNOWN_PROTO else ipv4_len p.

Definition xdp2_parse_ipv4 :=
  plain_def false false 20 (ParseOps (Some ipv4_length) (Some ipv4_proto) None).
Definition xdp2_parse_ipv4_stop1stfrag :=
  plain_def false false 20 (ParseOps (Some ipv4_length) (Some ipv4_proto_stop1stfrag) None).
Definition xdp2_parse_ipv4_check :=
  plain_def false true 20 (ParseOps (Some ipv4_length_check) (Some ipv4_proto) None).
Definition xdp2_parse_ipv4_stop1stfrag_check :=
  plain_def false false 20 (ParseOps (Some ipv4_length) (Some ipv4_proto_stop1stfrag) None).

Definition ipv4_proto_default (p : ptr) : outcome Z := mret 0.
Definition xdp2_parse_ipv4ip :=
  plain_def true true 20 (ParseOps None (Some ipv4_proto_default) None).

Definition IPV6_FLOWLABEL_MASK := bswap32 0x000FFFFF.
Definition ip6_flowlabel (p : ptr) : outcome Z :=
  w ← ld32 p 0; mret (Z.land w IPV6_FLOWLABEL_MASK).
Definition ipv6_proto (p : ptr) : outcome Z := ld8 p 6.
Definition ipv6_proto_stopflowlabel (p : ptr) : outcome Z :=
  fl ← ip6_flowlabel p;
  if negb (fl =? 0) then mret XDP2_STOP_OKAY else ld8 p 6.
Definition ipv6_length_check (p : ptr) (maxlen : Z) : outcome Z :=
  b ← ld8 p 0;
  mret (if negb (Z.shiftr b 4 =? 6) then XDP2_STOP_UNKNOWN_PROTO else 40).

Definition xdp2_parse_ipv6 :=
  plain_def false false 40 (ParseOps None (Some ipv6_proto) None).
Definition xdp2_parse_ipv6_stopflowlabel :=
  plain_def false false 40 (ParseOps None (Some ipv6_proto_stopflowlabel) None).
Definition xdp2_parse_ipv6_check :=
  plain_def false true 40 (ParseOps (Some ipv6_length_check) (Some ipv6_proto) None).
Definition xdp2_parse_ipv6_stopflowlabel_check :=
  plain_def false false 40 (ParseOps (Some ipv6_length_check) (Some ipv6_proto_stopflowlabel) None).

Definition ipv6_proto_default (p : ptr) : outcome Z := mret 0.
Definition xdp2_parse_ipv6ip :=
  plain_def true true 40 (ParseOps None (Some ipv6_proto_default) None).

(** [ipv6_optlen]: [(hdrlen + 1) << 3] *)
Definition ipv6_optlen (p : ptr) : outcome Z := h ← ld8 p 1; mret (Z.shiftl (h + 1) 3).

Definition IP6_OFFSET := 0xFFF8.
Definition ipv6_eh_proto (p : ptr) : outcome Z := ld8 p 0.
Definition ipv6_eh_len (p : ptr) (maxlen : Z) : outcome Z := ipv6_optlen p.
Definition ipv6_frag_proto (p : ptr) : outcome Z :=
  frag_off ← ld16 p 2;
  if negb (Z.land frag_off (bswap16 IP6_OFFSET) =? 0) then mret XDP2_STOP_OKAY else ld8 p 0.
Definition ipv6_routing_header_proto (p : ptr) : outcome Z := ld8 p 2.

Definition xdp2_parse_ipv6_eh :=
  plain_def false false 2 (ParseOps (Some ipv6_eh_len) (Some ipv6_eh_proto) None).
Definition xdp2_parse_ipv6_routing_hdr :=
  plain_def false true 4 (ParseOps (Some ipv6_eh_len) (Some ipv6_routing_header_proto) None).
Definition xdp2_parse_ipv6_frag_eh :=
  plain_def false false 8 (ParseOps None (Some ipv6_frag_proto) None).
Definition xdp2_parse_ipv6_frag_eh_stop1stfrag := plain_def false false 8 no_ops.

(** SRv6: the segment list is an array of 16-byte addresses. *)
Definition ipv6_srv6_proto (p : ptr) : outcome Z := ld8 p 0.
Definition ipv6_srv6_len (p : ptr) (maxlen : Z) : outcome Z := ipv6_optlen p.
Definition ipv6_srv6_num_els (p : ptr) (hlen : Z) : outcome Z :=
  first_segment ← ld8 p 4; mret (first_segment + 1).
Definition ipv6_srv6_el_type (p : ptr) : outcome Z := mret 0.
Definition ipv6_srv6_seg_list_start_offset (p : ptr) : outcome Z := mret 8.

Definition xdp2_parse_srv6 :=
  plain_def false false 2 (ParseOps (Some ipv6_srv6_len) (Some ipv6_srv6_proto) None).
Definition xdp2_parse_srv6_seg_list :=
  ProtoDef XDP2_NODE_TYPE_ARRAY false false 2
    (ParseOps (Some ipv6_srv6_len) (Some ipv6_srv6_proto) None)
    (PDArray (ProtoArrayDef ipv6_srv6_num_els (Some ipv6_srv6_el_type)
                ipv6_srv6_seg_list_start_offset 16)).

(** ** Transport and ICMP *)

Definition tcp_len (p : ptr) (maxlen : Z) : outcome Z := b ← ld8 p 12; mret (Z.shiftr b 4 * 4).
Definition tcp_tlv_len (p : ptr) (maxlen : Z) : outcome Z := ld8 p 1.
Definition tcp_tlv_type (p : ptr) : outcome Z := ld8 p 0.
Definition tcp_tlvs_start_offset (p : ptr) : outcome Z := mret 20.

Definition TCPOPT_NOP := 1.
Definition TCPOPT_EOL := 0.

Definition tcp_tlvs_def : xdp2_proto_tlvs_def :=
  ProtoTlvsDef (Some tcp_tlv_len) tcp_tlv_type tcp_tlvs_start_offset
    TCPOPT_NOP TCPOPT_EOL true true 2.
Definition xdp2_parse_tcp_tlvs :=
  ProtoDef XDP2_NODE_TYPE_TLVS false false 20 (ParseOps (Some tcp_len) None None)
    (PDTlvs tcp_tlvs_def).
Definition xdp2_parse_tcp_notlvs :=
  plain_def false false 20 (ParseOps (Some tcp_len) None None).

(** Definitions of the individual TCP options. *)
Definition xdp2_parse_tcp_option_unknown := ProtoTlvDef 2 None None.
Definition xdp2_parse_tcp_option_mss := ProtoTlvDef (2 + 2) None None.
Definition xdp2_parse_tcp_option_window_scaling := ProtoTlvDef (2 + 1) None None.
Definition xdp2_parse_tcp_option_timestamp := ProtoTlvDef (2 + 8) None None.
Definition xdp2_parse_tcp_option_sack_permitted := ProtoTlvDef 2 None None.
Definition xdp2_parse_tcp_option_sack := ProtoTlvDef 2 None None.
Definition xdp2_parse_tcp_option_sack_1 := ProtoTlvDef (2 + 8) None None.
Definition xdp2_parse_tcp_option_sack_2 := ProtoTlvDef (2 + 2 * 8) None None.
Definition xdp2_parse_tcp_option_sack_3 := ProtoTlvDef (2 + 3 * 8) None None.
Definition xdp2_parse_tcp_option_sack_4 := ProtoTlvDef (2 + 4 * 8) None None.

Definition udp_proto (p : ptr) : outcome Z := ld16 p 2.
Definition xdp2_parse_udp :=
  plain_def false false 8 (ParseOps None (Some udp_proto) None).

(** [icmp_has_id]: echo, timestamp and ICMPv6 echo messages *)
Definition icmp_has_id (type : Z) : bool :=
  (type =? 8) || (type =? 0) || (type =? 13) || (type =? 14) || (type =? 128) || (type =? 129).
Definition icmp_get_type (p : ptr) : outcome Z := ld8 p 0.
Definition icmp_all_len (p : ptr) (max_len : Z) : outcome Z := mret (s64 max_len).
Definition xdp2_parse_icmpv4 :=
  plain_def false true 8 (ParseOps (Some icmp_all_len) (Some icmp_get_type) None).
Definition xdp2_parse_icmpv6 :=
  plain_def false true 8 (ParseOps (Some icmp_all_len) (Some icmp_get_type) None).

(** IPv6 neighbour discovery: ICMPv6 header and target address, then options. *)
Definition ND_NEIGH_ADVERT_LEN := 8 + 16.
Definition icmpv6_nd_all_len (p : ptr) (maxlen : Z) : outcome Z := mret (s64 maxlen).
Definition icmpv6_nd_tlv_len (p : ptr) (maxlen : Z) : outcome Z := l ← ld8 p 1; mret (8 * l).
Definition icmpv6_nd_tlv_type (p : ptr) : outcome Z := ld8 p 0.
Definition icmpv6_nd_tlvs_start_offset (p : ptr) : outcome Z := mret ND_NEIGH_ADVERT_LEN.
Definition icmpv6_nd_tlvs_def : xdp2_proto_tlvs_def :=
  ProtoTlvsDef (Some icmpv6_nd_tlv_len) icmpv6_nd_tlv_type icmpv6_nd_tlvs_start_offset
    0 0 false false 2.
Definition xdp2_parse_icmpv6_nd_solicit :=
  ProtoDef XDP2_NODE_TYPE_TLVS false false ND_NEIGH_ADVERT_LEN
    (ParseOps (Some icmpv6_nd_all_len) None None) (PDTlvs icmpv6_nd_tlvs_def).

(** ** Geneve *)

Definition GENEVE_VERSION_MASK := 0xc0.
Definition geneve_base_proto (p : ptr) : outcome Z :=
  b ← ld8 p 0; mret (Z.land b GENEVE_VERSION_MASK).
Definition geneve_proto_v0 (p : ptr) : outcome Z := ld16 p 2.
Definition geneve_len_v0 (p : ptr) (max_len : Z) : outcome Z :=
  b ← ld8 p 0; mret (8 + 4 * Z.land b 0x3f).
Definition geneve_tlv_len (p : ptr) (max_len : Z) : outcome Z :=
  b ← ld8 p 3; mret (4 + Z.land b 0x1f * 4).
Definition geneve_tlv_type (p : ptr) : outcome Z := ld16 p 0.
Definition geneve_tlv_overlay_type (p : ptr) : outcome Z := ld8 p 2.
Definition geneve_tlvs_start_offset (p : ptr) : outcome Z := mret 8.
Definition xdp2_parse_geneve_base :=
  plain_def false true 1 (ParseOps None (Some geneve_base_proto) None).
Definition geneve_tlvs_def : xdp2_proto_tlvs_def :=
  ProtoTlvsDef (Some geneve_tlv_len) geneve_tlv_type geneve_tlvs_start_offset 0 0 false false 4.
Definition xdp2_parse_geneve_v0 :=
  ProtoDef XDP2_NODE_TYPE_TLVS true false 8
    (ParseOps (Some geneve_len_v0) (Some geneve_proto_v0) None) (PDTlvs geneve_tlvs_def).
Definition xdp2_parse_geneve_tlv_overlay := ProtoTlvDef 0 (Some geneve_tlv_overlay_type) None.

(** ** GRE *)

Definition GRE_CSUM := bswap16 0x8000.
Definition GRE_ROUTING := bswap16 0x4000.
Definition GRE_KEY := bswap16 0x2000.
Definition GRE_SEQ := bswap16 0x1000.
Definition GRE_ACK := bswap16 0x0080.
Definition GRE_VERSION := bswap16 0x0007.
Definition GRE_PROTO_PPP := bswap16 0x880b.

Definition gre_flag_fields : xdp2_flag_fields :=
  FlagFieldsDesc 3 [FlagField GRE_CSUM 0 4; FlagField GRE_KEY 0 4; FlagField GRE_SEQ 0 4].
Definition pptp_gre_flag_fields : xdp2_flag_fields :=
  FlagFieldsDesc 4 [FlagField GRE_CSUM 0 4; FlagField GRE_KEY 0 4; FlagField GRE_SEQ 0 4;
                    FlagField GRE_ACK 0 4].
Definition GRE_FLAGS_V0_MASK :=
  Z.lor GRE_CSUM (Z.lor GRE_KEY (Z.lor GRE_SEQ GRE_ROUTING)).
Definition GRE_FLAGS_V1_MASK :=
  Z.lor GRE_CSUM (Z.lor GRE_KEY (Z.lor GRE_SEQ (Z.lor GRE_ROUTING GRE_ACK))).

Definition gre_proto_version (p : ptr) : outcome Z :=
  flags ← ld16 p 0; mret (bswap16 (Z.land flags GRE_VERSION)).
Definition gre_v0_len_from_flags (flags : Z) : outcome Z :=
  l ← xdp2_flag_fields_length flags gre_flag_fields; mret (u64 (4 + l)).
Definition gre_v0_len_check (p : ptr) (maxlen : Z) : outcome Z :=
  flags ← ld16 p 0;
  if xdp2_flag_fields_check_invalid flags (Z.lor GRE_FLAGS_V0_MASK GRE_VERSION)
  then mret XDP2_STOP_BAD_FLAG
  else if negb (Z.land flags GRE_ROUTING =? 0) then mret XDP2_STOP_OKAY
  else s64 <$> gre_v0_len_from_flags flags.
Definition gre_v0_proto (p : ptr) : outcome Z := ld16 p 2.
Definition gre_v1_len_from_flags (flags : Z) : outcome Z :=
  l ← xdp2_flag_fields_length flags pptp_gre_flag_fields; mret (u64 (4 + l)).
Definition gre_v1_len_check (p : ptr) (maxlen : Z) : outcome Z :=
  flags ← ld16 p 0;
  if xdp2_flag_fields_check_invalid flags (Z.lor GRE_FLAGS_V1_MASK GRE_VERSION)
  then mret XDP2_STOP_BAD_FLAG
  else if negb (Z.land flags GRE_ROUTING =? 0) then mret XDP2_STOP_OKAY
  else protocol ← ld16 p 2;
       if negb ((protocol =? GRE_PROTO_PPP) && negb (Z.land flags GRE_KEY =? 0))
       then mret XDP2_STOP_OKAY
       else s64 <$> gre_v1_len_from_flags flags.
Definition gre_v1_proto (p : ptr) : outcome Z := ld16 p 2.
Definition gre_get_flags (p : ptr) : outcome Z := ld16 p 0.
Definition gre_fields_offset (p : ptr) : outcome Z := mret 4.

Definition xdp2_parse_gre_base :=
  plain_def false true 4 (ParseOps None (Some gre_proto_version) None).
Definition gre_v0_ff_def := ProtoFlagFieldsDef gre_get_flags gre_fields_offset gre_flag_fields.
Definition xdp2_parse_gre_v0 :=
  ProtoDef XDP2_NODE_TYPE_FLAG_FIELDS true false 4
    (ParseOps (Some gre_v0_len_check) (Some gre_v0_proto) None) (PDFlagFields gre_v0_ff_def).
Definition gre_v1_ff_def := ProtoFlagFieldsDef gre_get_flags gre_fields_offset pptp_gre_flag_fields.
Definition xdp2_parse_gre_v1 :=
  ProtoDef XDP2_NODE_TYPE_FLAG_FIELDS true false 4
    (ParseOps (Some gre_v1_len_check) (Some gre_v1_proto) None) (PDFlagFields gre_v1_ff_def).

(** ** L2TP *)

Definition l2tp_proto_version (p : ptr) : outcome Z := b ← ld8 p 1; mret (Z.land b 0xf).
Definition xdp2_parse_l2tp_base :=
  plain_def true true 2 (ParseOps None (Some l2tp_proto_version) None).

Definition L2TP_F_LENGTH := bswap16 0x4000.
Definition L2TP_F_NSNR := bswap16 0x0800.
Definition L2TP_F_OFFSZ := bswap16 0x0200.
Definition l2tp_v0_base_flag_fields : xdp2_flag_fields :=
  FlagFieldsDesc 2 [FlagField L2TP_F_LENGTH 0 2; FlagField L2TP_F_NSNR 0 4].
Definition l2tp_v0_base_len_from_flags (flags : Z) : outcome Z :=
  l ← xdp2_flag_fields_length flags l2tp_v0_base_flag_fields; mret (u64 (2 + 4 + l)).
Definition l2tp_v0_base_len_check (p : ptr) (maxlen : Z) : outcome Z :=
  flags ← ld16 p 0; s64 <$> l2tp_v0_base_len_from_flags flags.
Definition l2tp_v0_base_proto_version (p : ptr) : outcome Z :=
  flags ← ld16 p 0; mret (if negb (Z.land flags L2TP_F_OFFSZ =? 0) then 1 else 0).
Definition l2tp_v0_offsz_len (p : ptr) (maxlen : Z) : outcome Z :=
  sz ← ld16 p 0; mret (2 + sz).
Definition xdp_parse_l2tp_v0_base :=
  plain_def false false 2
    (ParseOps (Some l2tp_v0_base_len_check) (Some l2tp_v0_base_proto_version) None).
Definition xdp2_parse_l2tp_v0_offsz :=
  plain_def false false 2 (ParseOps (Some l2tp_v0_offsz_len) None None).

(** ** The promises to the parser *)

(** Sizes of loads from bit operations. *)
Lemma land_nibble b m : 0 <= m -> 0 <= Z.land b m <= m.
Proof. intros Hm. split; [apply Z.land_nonneg; auto |].
  apply Z.ldiff_le; [done |]. rewrite Z.ldiff_land.
  apply Z.bits_inj'. intros i Hi. rewrite !Z.land_spec, Z.lnot_spec, Z.bits_0 by done.
  by destruct (Z.testbit b i), (Z.testbit m i).
Qed.

Lemma shiftr_nibble b : is_u8 b -> 0 <= Z.shiftr b 4 < 16.
Proof. unfold is_u8. intros H. rewrite Z.shiftr_div_pow2 by lia.
  split; [apply Z.div_pos; lia |]. apply Z.div_lt_upper_bound; lia. Qed.

(** Walk through the loads of an operation: each is inside the header because
    the header is at least as long as its minimum. *)
Ltac load_step :=
  match goal with
  | |- wp _ (mbind _ (ld8 _ _)) _ =>
      eapply wp_bind; [eapply ld8_wp with (P := is_u8); [eassumption | simpl in *; lia | done] |];
      let b := fresh "b" in let Hb := fresh "Hb" in intros b Hb
  | |- wp _ (mbind _ (ld16 _ _)) _ =>
      eapply wp_bind;
      [eapply ld16_wp with (P := fun b => 0 <= b < 2 ^ 16);
         [eassumption | simpl in *; lia | simpl in *; lia | done] |];
      let b := fresh "b" in let Hb := fresh "Hb" in intros b Hb; simpl in Hb
  | |- wp _ (mbind _ (ld32 _ _)) _ =>
      eapply wp_bind;
      [eapply ld32_wp with (P := fun b => 0 <= b < 2 ^ 32);
         [eassumption | simpl in *; lia | simpl in *; lia | done] |];
      let b := fresh "b" in let Hb := fresh "Hb" in intros b Hb; simpl in Hb
  | |- wp _ (ld8 _ _) _ => eapply ld8_wp; [eassumption | simpl in *; lia |]; intros ? ?
  | |- wp _ (ld16 _ _) _ =>
      eapply ld16_wp; [eassumption | simpl in *; lia | simpl in *; lia |]; intros ? ?
  | |- wp _ (mret _) _ => apply wp_ret
  | |- wp _ (if ?c then _ else _) _ => destruct c eqn:?
  | |- wp _ (mbind _ (?f _)) _ =>
      eapply (wp_bind _ _ _ (fun _ => True)); [unfold f | intros ? _]
  end.

#[local] Ltac unfold_op :=
  match goal with
  | |- wp _ (?f _ _) _ => unfold f
  | |- wp _ (?f _) _ => unfold f
  end.

(** Bounds of the returned length, from the width of the fields it uses. *)
Ltac range_solve :=
  repeat match goal with |- context [if ?c then _ else _] => destruct c end;
  rewrite ?Z.shiftl_mul_pow2 by lia;
  repeat match goal with
  | |- context [Z.land ?b ?m] =>
      lazymatch goal with
      | _ : 0 <= Z.land b m <= m |- _ => fail
      | _ => pose proof (land_nibble b m ltac:(lia))
      end
  | H : is_u8 ?b |- context [Z.shiftr ?b 4] =>
      lazymatch goal with
      | _ : 0 <= Z.shiftr b 4 < 16 |- _ => fail
      | _ => pose proof (shiftr_nibble b H)
      end
  end;
  unfold EARPHDR_LEN, BATADV_ETH_LEN, XDP2_STOP_OKAY, XDP2_STOP_FAIL, XDP2_STOP_UNKNOWN_PROTO, XDP2_STOP_BAD_FLAG, is_u8 in *;
  solve [apply s64_range | simpl in *; lia].

(** Discharge [op_safe] and [op_len_safe] for an operation made of loads. *)
Ltac op_solve :=
  let s := fresh "s" in let p := fresh "p" in let n := fresh "n" in
  intros s p n Hin Hlb; intros; simpl in Hlb;
  unfold EARPHDR_LEN, BATADV_ETH_LEN, ND_NEIGH_ADVERT_LEN in *;
  repeat first [load_step | unfold_op]; try done; try range_solve.

(** Definitions without operations, or with loads only. *)
Ltac proto_solve :=
  constructor; simpl;
  [unfold EARPHDR_LEN, BATADV_ETH_LEN, ND_NEIGH_ADVERT_LEN; lia | ..]; intros f [= <-];
  lazymatch goal with |- forall k : Z, op_safe _ _ => intros ? | _ => idtac end; op_solve.

#[global] Instance ether_safe : ProtoDefSafe xdp2_parse_ether.
Proof. proto_solve. Qed.
#[global] Instance vlan_safe : ProtoDefSafe xdp2_parse_vlan.
Proof. proto_solve. Qed.
#[global] Instance ppp_safe : ProtoDefSafe xdp2_parse_ppp.
Proof. proto_solve. Qed.
#[global] Instance pppoe_safe : ProtoDefSafe xdp2_parse_pppoe.
Proof. proto_solve. Qed.
#[global] Instance mpls_safe : ProtoDefSafe xdp2_parse_mpls.
Proof. proto_solve. Qed.
#[global] Instance fcoe_safe : ProtoDefSafe xdp2_parse_fcoe.
Proof. proto_solve. Qed.
#[global] Instance tipc_safe : ProtoDefSafe xdp2_parse_tipc.
Proof. proto_solve. Qed.
#[global] Instance igmp_safe : ProtoDefSafe xdp2_parse_igmp.
Proof. proto_solve. Qed.
#[global] Instance ports_safe : ProtoDefSafe xdp2_parse_ports.
Proof. proto_solve. Qed.
#[global] Instance vxlan_safe : ProtoDefSafe xdp2_parse_vxlan.
Proof. proto_solve. Qed.
#[global] Instance rarp_safe : ProtoDefSafe xdp2_parse_rarp.
Proof. proto_solve. Qed.
#[global] Instance batman_safe : ProtoDefSafe xdp2_parse_batman.
Proof. proto_solve. Qed.
#[global] Instance ip_safe : ProtoDefSafe xdp2_parse_ip.
Proof. proto_solve. Qed.
#[global] Instance ip_by_key_safe : ProtoDefSafe xdp2_parse_ip_by_key.
Proof. proto_solve. Qed.
#[global] Instance ipv4_safe : ProtoDefSafe xdp2_parse_ipv4.
Proof. proto_solve. Qed.
#[global] Instance ipv4_stop1stfrag_safe : ProtoDefSafe xdp2_parse_ipv4_stop1stfrag.
Proof. proto_solve. Qed.
#[global] Instance ipv4_check_safe : ProtoDefSafe xdp2_parse_ipv4_check.
Proof. proto_solve. Qed.
#[global] Instance ipv4_stop1stfrag_check_safe : ProtoDefSafe xdp2_parse_ipv4_stop1stfrag_check.
Proof. proto_solve. Qed.
#[global] Instance ipv4ip_safe : ProtoDefSafe xdp2_parse_ipv4ip.
Proof. proto_solve. Qed.
#[global] Instance ipv6_safe : ProtoDefSafe xdp2_parse_ipv6.
Proof. proto_solve. Qed.
#[global] Instance ipv6_stopflowlabel_safe : ProtoDefSafe xdp2_parse_ipv6_stopflowlabel.
Proof. proto_solve. Qed.
#[global] Instance ipv6_check_safe : ProtoDefSafe xdp2_parse_ipv6_check.
Proof. proto_solve. Qed.
#[global] Instance ipv6_stopflowlabel_check_safe :
  ProtoDefSafe xdp2_parse_ipv6_stopflowlabel_check.
Proof. proto_solve. Qed.
#[global] Instance ipv6ip_safe : ProtoDefSafe xdp2_parse_ipv6ip.
Proof. proto_solve. Qed.
#[global] Instance ipv6_eh_safe : ProtoDefSafe xdp2_parse_ipv6_eh.
Proof. proto_solve. Qed.
#[global] Instance ipv6_routing_hdr_safe : ProtoDefSafe xdp2_parse_ipv6_routing_hdr.
Proof. proto_solve. Qed.
#[global] Instance ipv6_frag_eh_safe : ProtoDefSafe xdp2_parse_ipv6_frag_eh.
Proof. proto_solve. Qed.
#[global] Instance ipv6_frag_eh_stop1stfrag_safe :
  ProtoDefSafe xdp2_parse_ipv6_frag_eh_stop1stfrag.
Proof. proto_solve. Qed.
#[global] Instance srv6_safe : ProtoDefSafe xdp2_parse_srv6.
Proof. proto_solve. Qed.
#[global] Instance srv6_seg_list_safe : ProtoDefSafe xdp2_parse_srv6_seg_list.
Proof. proto_solve. Qed.
#[global] Instance tcp_tlvs_safe : ProtoDefSafe xdp2_parse_tcp_tlvs.
Proof. proto_solve. Qed.
#[global] Instance tcp_notlvs_safe : ProtoDefSafe xdp2_parse_tcp_notlvs.
Proof. proto_solve. Qed.
#[global] Instance udp_safe : ProtoDefSafe xdp2_parse_udp.
Proof. proto_solve. Qed.
#[global] Instance icmpv4_safe : ProtoDefSafe xdp2_parse_icmpv4.
Proof. proto_solve. Qed.
#[global] Instance icmpv6_safe : ProtoDefSafe xdp2_parse_icmpv6.
Proof. proto_solve. Qed.
#[global] Instance icmpv6_nd_safe : ProtoDefSafe xdp2_parse_icmpv6_nd_solicit.
Proof. proto_solve. Qed.
#[global] Instance geneve_base_safe : ProtoDefSafe xdp2_parse_geneve_base.
Proof. proto_solve. Qed.
#[global] Instance geneve_v0_safe : ProtoDefSafe xdp2_parse_geneve_v0.
Proof. proto_solve. Qed.
#[global] Instance gre_base_safe : ProtoDefSafe xdp2_parse_gre_base.
Proof. proto_solve. Qed.
#[global] Instance l2tp_base_safe : ProtoDefSafe xdp2_parse_l2tp_base.
Proof. proto_solve. Qed.
#[global] Instance l2tp_v0_offsz_safe : ProtoDefSafe xdp2_parse_l2tp_v0_offsz.
Proof. proto_solve. Qed.
#[global] Instance arp_safe : ProtoDefSafe xdp2_parse_arp.
Proof. proto_solve. Qed.

(** *** Flag-field based headers *)

Lemma gre_flag_fields_wf : flag_fields_wf gre_flag_fields.
Proof. split_and!; simpl; try done; repeat constructor; done. Qed.
Lemma pptp_gre_flag_fields_wf : flag_fields_wf pptp_gre_flag_fields.
Proof. split_and!; simpl; try done; repeat constructor; done. Qed.
Lemma l2tp_flag_fields_wf : flag_fields_wf l2tp_v0_base_flag_fields.
Proof. split_and!; simpl; try done; repeat constructor; done. Qed.
#[export] Hint Resolve gre_flag_fields_wf pptp_gre_flag_fields_wf l2tp_flag_fields_wf : xdp2.

(** Length of a header of [base] bytes followed by flag-fields, through the
    conversions of the [*_len_from_flags] functions. *)
Lemma len_from_flags_eq base ffs flags :
  flag_fields_wf ffs -> 0 <= base < 2 ^ 16 ->
  foldr (fun f acc => ff_size f + acc) 0 (ffs_fields ffs) < 2 ^ 16 ->
  s64 <$> (l ← xdp2_flag_fields_length flags ffs; mret (u64 (base + l))) =
    Done (base + present_size flags (ffs_fields ffs)).
Proof.
  intros Hwf Hb Ht. rewrite xdp2_flag_fields_length_eq by done. simpl.
  destruct Hwf as (_ & Hsz & _).
  pose proof (present_size_nonneg flags _ Hsz). pose proof (present_size_le_total flags _ Hsz).
  rewrite u64_small by lia. unfold s64. rewrite sext_small; [done | lia | simpl; lia].
Qed.

Lemma present_size_small flags ffs :
  flag_fields_wf ffs -> foldr (fun f acc => ff_size f + acc) 0 (ffs_fields ffs) < 2 ^ 16 ->
  0 <= present_size flags (ffs_fields ffs) < 2 ^ 16.
Proof.
  intros (_ & Hsz & _) Ht.
  pose proof (present_size_nonneg flags _ Hsz). pose proof (present_size_le_total flags _ Hsz). lia.
Qed.

(** The result of the GRE length checks: an error code or the exact length. *)
Lemma gre_v0_len_check_wp s p n (P : Z -> Prop) :
  in_bounds p n -> 4 <= n ->
  (forall r, r < 0 -> - 2 ^ 63 <= r -> P r) ->
  (forall flags, ld16 p 0 = Done flags ->
     P (4 + present_size flags (ffs_fields gre_flag_fields))) ->
  wp s (gre_v0_len_check p n) P.
Proof.
  intros Hin Hn Herr Hok. unfold gre_v0_len_check.
  pose proof (ld16_wp s p n 0 (fun _ => True) Hin ltac:(lia) ltac:(lia) ltac:(done)) as Hld.
  destruct (ld16 p 0) as [flags | |] eqn:E; [| done | done]. orun.
  destruct (xdp2_flag_fields_check_invalid _ _); [by apply Herr |].
  destruct (negb _); [by apply Herr |].
  unfold gre_v0_len_from_flags. rewrite len_from_flags_eq; auto with xdp2; simpl; lia.
Qed.

Lemma gre_v1_len_check_wp s p n (P : Z -> Prop) :
  in_bounds p n -> 4 <= n ->
  (forall r, r < 0 -> - 2 ^ 63 <= r -> P r) ->
  (forall flags, ld16 p 0 = Done flags ->
     P (4 + present_size flags (ffs_fields pptp_gre_flag_fields))) ->
  wp s (gre_v1_len_check p n) P.
Proof.
  intros Hin Hn Herr Hok. unfold gre_v1_len_check.
  pose proof (ld16_wp s p n 0 (fun _ => True) Hin ltac:(lia) ltac:(lia) ltac:(done)) as Hld.
  destruct (ld16 p 0) as [flags | |] eqn:E; [| done | done]. orun.
  destruct (xdp2_flag_fields_check_invalid _ _); [by apply Herr |].
  destruct (negb _); [by apply Herr |].
  eapply (wp_bind _ _ _ (fun _ => True)); [eapply ld16_wp; eauto; lia |]. intros proto _.
  destruct (negb _); [by apply Herr |].
  unfold gre_v1_len_from_flags. rewrite len_from_flags_eq; auto with xdp2; simpl; lia.
Qed.

#[global] Instance gre_v0_safe : ProtoDefSafe xdp2_parse_gre_v0.
Proof.
  constructor; simpl; [lia | | |]; intros f [= <-]; [| op_solve].
  intros s p n Hin Hlb Hlt. apply gre_v0_len_check_wp; [done | done | lia |].
  intros flags _. pose proof (present_size_small flags gre_flag_fields
    gre_flag_fields_wf ltac:(done)). lia.
Qed.

#[global] Instance gre_v1_safe : ProtoDefSafe xdp2_parse_gre_v1.
Proof.
  constructor; simpl; [lia | | |]; intros f [= <-]; [| op_solve].
  intros s p n Hin Hlb Hlt. apply gre_v1_len_check_wp; [done | done | lia |].
  intros flags _. pose proof (present_size_small flags pptp_gre_flag_fields
    pptp_gre_flag_fields_wf ltac:(done)). lia.
Qed.

#[global] Instance l2tp_v0_base_safe : ProtoDefSafe xdp_parse_l2tp_v0_base.
Proof.
  constructor; simpl; [lia | | |]; intros f [= <-]; [| op_solve].
  intros s p n Hin Hlb Hlt. unfold l2tp_v0_base_len_check.
  eapply (wp_bind _ _ _ (fun _ => True)); [eapply ld16_wp; eauto; lia |]. intros flags _.
  unfold l2tp_v0_base_len_from_flags. rewrite len_from_flags_eq by (auto with xdp2; simpl; lia).
  pose proof (present_size_small flags l2tp_v0_base_flag_fields l2tp_flag_fields_wf ltac:(done)).
  unfold wp. lia.
Qed.

Lemma gre_ff_layout pd d lenf :
  op_len (pd_ops pd) = Some lenf -> pd_min_len pd = 4 ->
  d = ProtoFlagFieldsDef gre_get_flags gre_fields_offset (ffd_flag_fields d) ->
  flag_fields_wf (ffd_flag_fields d) ->
  (forall p n P, in_bounds p n -> 4 <= n -> (forall r, r < 0 -> - 2 ^ 63 <= r -> P r) ->
     (forall flags, ld16 p 0 = Done flags ->
        P (4 + present_size flags (ffs_fields (ffd_flag_fields d)))) -> wp true (lenf p n) P) ->
  FlagFieldsDefSafe pd d.
Proof.
  intros El Em Ed Hwf Hlen. constructor; [done | | by rewrite El].
  intros s p n hlen lenf' El' Hin Hmin Hlt Er Hh. rewrite El in El'. injection El' as <-.
  rewrite Em in *.
  pose proof (Hlen p n (fun r => r < 0 \/ exists flags, ld16 p 0 = Done flags /\
     r = 4 + present_size flags (ffs_fields (ffd_flag_fields d))) Hin Hmin) as Hw.
  specialize (Hw ltac:(by left) ltac:(right; eauto)). rewrite Er in Hw.
  destruct Hw as [Hw | (flags & Ef & Hw)]; [lia |].
  rewrite Ed. simpl. unfold gre_get_flags. rewrite Ef. simpl. lia.
Qed.

#[global] Instance gre_v0_ff_safe : FlagFieldsDefSafe xdp2_parse_gre_v0 gre_v0_ff_def.
Proof.
  eapply gre_ff_layout; eauto with xdp2; simpl; auto with xdp2.
  intros p n P. apply gre_v0_len_check_wp.
Qed.
#[global] Instance gre_v1_ff_safe : FlagFieldsDefSafe xdp2_parse_gre_v1 gre_v1_ff_def.
Proof.
  eapply gre_ff_layout; eauto with xdp2; simpl; auto with xdp2.
  intros p n P. apply gre_v1_len_check_wp.
Qed.

(** *** TLV based headers *)

Ltac tlvs_solve d :=
  unfold d; constructor; cbn [tlvs_min_len tlvs_start_offset tlvs_len tlvs_type];
  [lia | intros s p n Hin Hlb; apply wp_ret; simpl in *; unfold ND_NEIGH_ADVERT_LEN in *; lia
  | intros f [= <-]; op_solve | op_solve].

#[global] Instance tcp_tlvs_def_safe : TlvsDefSafe tcp_tlvs_def 20.
Proof. tlvs_solve tcp_tlvs_def. Qed.
#[global] Instance icmpv6_nd_tlvs_def_safe : TlvsDefSafe icmpv6_nd_tlvs_def 24.
Proof. tlvs_solve icmpv6_nd_tlvs_def. Qed.
#[global] Instance geneve_tlvs_def_safe : TlvsDefSafe geneve_tlvs_def 8.
Proof. tlvs_solve geneve_tlvs_def. Qed.
