(* ===== verification/ParserApi.v ===== *)
(** * Building and invoking parsers

    The interface of [src/src/include/xdp2/parser.h], [tlvs.h] and
    [flag_fields.h] on top of the generic parser: the macros that create parse
    nodes and parsers, the initialisation of the control data, and the entry
    points [xdp2_parse], [xdp2_parse_fast] and [xdp2_parse_from_table]. *)

From stdpp Require Import base list gmap numbers.
From S2P Require Import Prelude FlagFields ParserTypes Parser.

(** ** Node construction *)

Section make.
Context {M : Type}.

Definition null_ops : xdp2_parse_node_ops M := ParseNodeOps None None None.

(** [(.ops.extract_metadata = F)] *)
Definition extract_op (f : extract_metadata_t M) : xdp2_parse_node_ops M :=
  ParseNodeOps (Some f) None None.

Definition XDP2_MAKE_PARSE_NODE (pd : xdp2_proto_def) (table : list (Z * option nodeid))
    (ops : xdp2_parse_node_ops M) : xdp2_parse_node M :=
  ParseNode XDP2_NODE_TYPE_PLAIN XDP2_STOP_UNKNOWN_PROTO 0 0 (Some pd) ops
    (Some table) None PNPlain.

Definition XDP2_MAKE_AUTONEXT_PARSE_NODE (pd : xdp2_proto_def) (next : nodeid)
    (ops : xdp2_parse_node_ops M) : xdp2_parse_node M :=
  ParseNode XDP2_NODE_TYPE_PLAIN XDP2_STOP_UNKNOWN_PROTO 0 0 (Some pd) ops
    None (Some next) PNPlain.

Definition XDP2_MAKE_LEAF_PARSE_NODE (pd : xdp2_proto_def)
    (ops : xdp2_parse_node_ops M) : xdp2_parse_node M :=
  ParseNode XDP2_NODE_TYPE_PLAIN XDP2_STOP_UNKNOWN_PROTO 0 0 (Some pd) ops
    None None PNPlain.

Definition XDP2_MAKE_LEAF_TLVS_PARSE_NODE (pd : xdp2_proto_def)
    (tlv_table : list (Z * option tlvid)) (ops : xdp2_parse_node_ops M) : xdp2_parse_node M :=
  ParseNode XDP2_NODE_TYPE_TLVS XDP2_STOP_UNKNOWN_PROTO 0 0 (Some pd) ops
    None None (PNTlvs (ParseTlvsNode (Some tlv_table) 0 0 XDP2_OKAY None)).

Definition XDP2_MAKE_TLVS_PARSE_NODE (pd : xdp2_proto_def) (table : list (Z * option nodeid))
    (tlv_table : list (Z * option tlvid)) (ops : xdp2_parse_node_ops M) : xdp2_parse_node M :=
  ParseNode XDP2_NODE_TYPE_TLVS XDP2_STOP_UNKNOWN_PROTO 0 0 (Some pd) ops
    (Some table) None (PNTlvs (ParseTlvsNode (Some tlv_table) 0 0 XDP2_OKAY None)).

Definition XDP2_MAKE_TLV_PARSE_NODE (d : xdp2_proto_tlv_def)
    (ops : xdp2_parse_node_ops M) : xdp2_parse_tlv_node M :=
  ParseTlvNode (Some d) ops None None None XDP2_OKAY.

Definition XDP2_MAKE_TLV_OVERLAY_PARSE_NODE (d : xdp2_proto_tlv_def)
    (table : list (Z * option tlvid)) (ops : xdp2_parse_node_ops M) : xdp2_parse_tlv_node M :=
  ParseTlvNode (Some d) ops (Some table) None None XDP2_OKAY.

(** The flag-fields macros leave [unknown_ret] at zero. *)
Definition XDP2_MAKE_FLAG_FIELDS_PARSE_NODE (pd : xdp2_proto_def)
    (table : list (Z * option nodeid)) (ff_table : list (Z * option (xdp2_parse_node_ops M)))
    (ops : xdp2_parse_node_ops M) : xdp2_parse_node M :=
  ParseNode XDP2_NODE_TYPE_FLAG_FIELDS 0 0 0 (Some pd) ops
    (Some table) None (PNFlagFields (ParseFlagFieldsNode ff_table)).

Definition XDP2_MAKE_FLAG_FIELDS_AUTONEXT_PARSE_NODE (pd : xdp2_proto_def)
    (next : nodeid) (ff_table : list (Z * option (xdp2_parse_node_ops M)))
    (ops : xdp2_parse_node_ops M) : xdp2_parse_node M :=
  ParseNode XDP2_NODE_TYPE_FLAG_FIELDS 0 0 0 (Some pd) ops
    None (Some next) (PNFlagFields (ParseFlagFieldsNode ff_table)).
End make.

Definition xdp2_parse_tlv_null : xdp2_proto_tlv_def := ProtoTlvDef 0 None None.

(** [__XDP2_PARSER_CONFIG_DEFAULTS] *)
Definition XDP2_PARSER_CONFIG_DEFAULTS : xdp2_parser_config :=
  ParserConfig 255 4 4 64 256 0 0 None None None.

(** The defaults overridden with [.max_frames], [.metameta_size] and
    [.frame_size]. *)
Definition parser_config_frames (max_frames metameta_size frame_size : Z) : xdp2_parser_config :=
  let d := XDP2_PARSER_CONFIG_DEFAULTS in
  ParserConfig (cfg_max_nodes d) (cfg_max_encaps d) max_frames metameta_size frame_size
    (cfg_num_counters d) (cfg_num_keys d) (cfg_okay_node d) (cfg_fail_node d) (cfg_atencap_node d).

(** ** Control data *)

Definition zero_var : xdp2_ctrl_var_data := CtrlVarData None 0 0 0 0 0 0.

Definition XDP2_CTRL_RESET_VAR_DATA (c : xdp2_ctrl_data) : xdp2_ctrl_data := set_var zero_var c.

Definition XDP2_CTRL_SET_BASIC_PKT_DATA (packet : Z) (start : ptr) (len seqno : Z)
    (c : xdp2_ctrl_data) : xdp2_ctrl_data :=
  CtrlData (ctrl_var c) (CtrlPacketData packet start len seqno 0 0 0 0 0) (ctrl_key c).

Definition null_ptr : ptr := Ptr [] 0.

(** Zeroes everything, the packet data included; the arrays are on the stack
    of the caller, with the numbers of elements the parser asks for. *)
Definition XDP2_CTRL_INIT_KEY_DATA (cfg : xdp2_parser_config) (arg : Z) : xdp2_ctrl_data :=
  CtrlData zero_var (CtrlPacketData 0 null_ptr 0 0 0 0 0 0 0)
    (CtrlKeyData (replicate (Z.to_nat (cfg_num_counters cfg)) 0)
                 (replicate (Z.to_nat (cfg_num_keys cfg)) 0) arg).

Definition XDP2_CTRL_RESET_KEY_DATA (cfg : xdp2_parser_config) (c : xdp2_ctrl_data)
    : xdp2_ctrl_data :=
  let k := ctrl_key c in
  let clear (n : Z) (l : list Z) := replicate (Z.to_nat n) 0 ++ drop (Z.to_nat n) l in
  set_key (CtrlKeyData (clear (cfg_num_counters cfg) (key_counters k))
                       (clear (cfg_num_keys cfg) (key_keys k)) (key_arg k)) c.

(** ** Invocation *)

Inductive xdp2_parser_type := XDP2_GENERIC | XDP2_OPTIMIZED | XDP2_XDP.

Section invoke.
Context {M : Type} (g : parse_graph M).

(** [struct xdp2_parser]; the entry point of an optimised parser is
    generated code. *)
Record xdp2_parser := Parser {
  prs_type : xdp2_parser_type;
  prs_root_node : nodeid;
  prs_entry_point : ptr -> Z -> pstate M -> outcome (Z * pstate M);
  prs_config : xdp2_parser_config }.

Definition no_entry_point : ptr -> Z -> pstate M -> outcome (Z * pstate M) :=
  fun _ _ _ => Crash.

Definition XDP2_PARSER (root : nodeid) (cfg : xdp2_parser_config) : xdp2_parser :=
  Parser XDP2_GENERIC root no_entry_point cfg.

Definition xdp2_parse (fuel : nat) (prs : xdp2_parser) (hdr : ptr) (len : Z) (st : pstate M)
    : outcome (Z * pstate M) :=
  match prs_type prs with
  | XDP2_GENERIC => __xdp2_parse g fuel (prs_config prs) (prs_root_node prs) hdr len st
  | XDP2_OPTIMIZED => prs_entry_point prs hdr len st
  | XDP2_XDP => mret (XDP2_STOP_FAIL, st)
  end.

Definition xdp2_parse_fast (loops fuel : nat) (prs : xdp2_parser) (hdr : ptr) (len : Z)
    (st : pstate M) : outcome (Z * pstate M) :=
  __xdp2_parse_fast g loops fuel (prs_config prs) (prs_root_node prs) hdr len st.

Definition xdp2_lookup_parser_table (table : list (Z * option xdp2_parser)) (key : Z)
    : option xdp2_parser :=
  mjoin (assoc_first key table).

(** The packet is not passed on: the parser is run on NULL with length 0. *)
Definition xdp2_parse_from_table (fuel : nat) (table : list (Z * option xdp2_parser)) (key : Z)
    (st : pstate M) : outcome (Z * pstate M) :=
  match xdp2_lookup_parser_table table key with
  | None => mret (XDP2_STOP_FAIL, st)
  | Some prs => xdp2_parse fuel prs null_ptr 0 st
  end.
End invoke.

Arguments Parser {M} _ _ _ _.
Arguments prs_type {M} _.
Arguments prs_root_node {M} _.
Arguments prs_config {M} _.
Arguments XDP2_PARSER {M} _ _.
