(* ===== verification/Metadata.v ===== *)
(** * Common metadata

    [src/src/include/xdp2/parser_metadata.h]: the metadata a parse fills in is
    a byte array of the caller, a frame is an offset into it, and the
    [XDP2_METADATA_TEMP_*] templates store header fields at the offsets the
    compiler gives the members of the metadata structure. A store outside the
    array is a crash. *)

From stdpp Require Import base list gmap numbers.
From S2P Require Import Prelude FlagFields ParserTypes ProtoDefs.

(** ** Stores *)

Definition meta : Type := list Z.

Definition st8 (m : meta) (a v : Z) : outcome meta :=
  if (0 <=? a) && (a <? Z.of_nat (length m)) then Done (<[Z.to_nat a := u8 v]> m) else Crash.

Definition st16 (m : meta) (a v : Z) : outcome meta :=
  m ← st8 m a v; st8 m (a + 1) (Z.shiftr v 8).

Definition st32 (m : meta) (a v : Z) : outcome meta :=
  m ← st16 m a v; st16 m (a + 2) (Z.shiftr v 16).

Definition mld8 (m : meta) (a : Z) : outcome Z := ld8 (Ptr m a) 0.
Definition mld16 (m : meta) (a : Z) : outcome Z := ld16 (Ptr m a) 0.
Definition mld32 (m : meta) (a : Z) : outcome Z := ld32 (Ptr m a) 0.

(** [memcpy(&m[a], p + i, n)] *)
Fixpoint memcpy (n : nat) (m : meta) (a : Z) (p : ptr) (i : Z) : outcome meta :=
  match n with
  | O => mret m
  | S n' => b ← ld8 p i; m ← st8 m a b; memcpy n' m (a + 1) p (i + 1)
  end.

(** ** Structure layout *)

(** The common members; [F_flags] is the byte that holds the bit-fields
    [is_fragment] (bit 0), [first_frag] (bit 1) and [vlan_count] (bits 2-3). *)
Inductive field :=
| F_addr_type | F_flags | F_eth_addrs | F_tcp_options | F_mpls | F_arp | F_gre
| F_gre_pptp | F_l2_off | F_l3_off | F_l4_off | F_eth_proto | F_ip_proto
| F_flow_label | F_vlan | F_keyid | F_ports | F_icmp | F_addrs.

(** Offsets of the members a structure has, and [sizeof]. *)
Record layout := Layout { lo_off : field -> option Z; lo_size : Z }.

(** [struct xdp2_metadata_all] *)
Definition xdp2_metadata_all : layout :=
  Layout (fun f => Some (match f with
    | F_addr_type => 0 | F_flags => 1 | F_eth_addrs => 2 | F_tcp_options => 16
    | F_mpls => 60 | F_arp => 64 | F_gre => 88 | F_gre_pptp => 108
    | F_l2_off => 124 | F_l3_off => 126 | F_l4_off => 128
    | F_eth_proto => 136 | F_ip_proto => 138 | F_flow_label => 140 | F_vlan => 144
    | F_keyid => 152 | F_ports => 156 | F_icmp => 160 | F_addrs => 164
    end)) 200.

(** [struct xdp2_parser_simple_hash_metadata] *)
Definition xdp2_parser_simple_hash_metadata : layout :=
  Layout (fun f => match f with
    | F_addr_type => Some 0 | F_eth_proto => Some 8 | F_ip_proto => Some 10
    | F_flow_label => Some 12 | F_ports => Some 16 | F_addrs => Some 20
    | _ => None
    end) 56.

Definition XDP2_ADDR_TYPE_INVALID := 0.
Definition XDP2_ADDR_TYPE_IPV4 := 1.
Definition XDP2_ADDR_TYPE_IPV6 := 2.
Definition XDP2_ADDR_TYPE_TIPC := 3.

(** ** Templates *)

Section templates.
Context (S : layout).

(** Address of member [f] of the frame at [fr], [k] bytes into it. *)
Definition at_field (fr : Z) (f : field) (k : Z) : outcome Z :=
  off ← deref (lo_off S f); mret (fr + off + k).

Definition put8 (fr : Z) (f : field) (k v : Z) (m : meta) : outcome meta :=
  a ← at_field fr f k; st8 m a v.
Definition put16 (fr : Z) (f : field) (k v : Z) (m : meta) : outcome meta :=
  a ← at_field fr f k; st16 m a v.
Definition put32 (fr : Z) (f : field) (k v : Z) (m : meta) : outcome meta :=
  a ← at_field fr f k; st32 m a v.
Definition put_bytes (n : nat) (fr : Z) (f : field) (k : Z) (p : ptr) (i : Z) (m : meta)
    : outcome meta :=
  a ← at_field fr f k; memcpy n m a p i.
Definition get8 (fr : Z) (f : field) (k : Z) (m : meta) : outcome Z :=
  a ← at_field fr f k; mld8 m a.
Definition get16 (fr : Z) (f : field) (k : Z) (m : meta) : outcome Z :=
  a ← at_field fr f k; mld16 m a.
Definition get32 (fr : Z) (f : field) (k : Z) (m : meta) : outcome Z :=
  a ← at_field fr f k; mld32 m a.

(** Assignment to a bit-field of [w] bits at bit [b] of the byte, half word
    or word that holds it. *)
Definition bf_set (x b w v : Z) : Z :=
  Z.lor (Z.ldiff x (Z.shiftl (Z.ones w) b)) (Z.shiftl (Z.land v (Z.ones w)) b).
Definition bf_get (x b w : Z) : Z := Z.land (Z.shiftr x b) (Z.ones w).

Definition put_bits8 (fr : Z) (f : field) (b w v : Z) (m : meta) : outcome meta :=
  x ← get8 fr f 0 m; put8 fr f 0 (bf_set x b w v) m.
Definition put_bits16 (fr : Z) (f : field) (k b w v : Z) (m : meta) : outcome meta :=
  x ← get16 fr f k m; put16 fr f k (bf_set x b w v) m.
Definition put_bits32 (fr : Z) (f : field) (b w v : Z) (m : meta) : outcome meta :=
  x ← get32 fr f 0 m; put32 fr f 0 (bf_set x b w v) m.

(** A template from the body that stores into the frame. *)
Definition template (body : ptr -> Z -> xdp2_ctrl_data -> meta -> outcome meta)
    : extract_metadata_t meta :=
  fun hdr hlen m fr c => p ← deref hdr; m ← body p fr c m; mret (m, ctrl_key c).

Definition XDP2_METADATA_TEMP_ether := template (fun p fr c m =>
  h_proto ← ld16 p 12;
  m ← put16 fr F_eth_proto 0 h_proto m;
  put_bytes 12 fr F_eth_addrs 0 p 0 m).

Definition XDP2_METADATA_TEMP_ether_off := template (fun p fr c m =>
  m ← put16 fr F_l2_off 0 (u16 (xdp2_parse_hdr_offset p c)) m;
  h_proto ← ld16 p 12;
  m ← put16 fr F_eth_proto 0 h_proto m;
  put_bytes 12 fr F_eth_addrs 0 p 0 m).

Definition XDP2_METADATA_TEMP_ether_noaddrs := template (fun p fr c m =>
  h_proto ← ld16 p 12;
  put16 fr F_eth_proto 0 h_proto m).

Definition XDP2_METADATA_TEMP_ipv4 := template (fun p fr c m =>
  frag ← ip_is_fragment p;
  m ← (if (frag : bool) then
         m ← put_bits8 fr F_flags 0 1 1 m;
         frag_off ← ld16 p 6;
         put_bits8 fr F_flags 1 1
           (if Z.land frag_off (bswap16 IP_OFFSET) =? 0 then 1 else 0) m
       else mret m);
  m ← put16 fr F_l3_off 0 (u16 (xdp2_parse_hdr_offset p c)) m;
  m ← put8 fr F_addr_type 0 XDP2_ADDR_TYPE_IPV4 m;
  protocol ← ld8 p 9;
  m ← put8 fr F_ip_proto 0 protocol m;
  put_bytes 8 fr F_addrs 0 p 12 m).

Definition XDP2_METADATA_TEMP_ipv4_addrs := template (fun p fr c m =>
  m ← put8 fr F_addr_type 0 XDP2_ADDR_TYPE_IPV4 m;
  protocol ← ld8 p 9;
  m ← put8 fr F_ip_proto 0 protocol m;
  put_bytes 8 fr F_addrs 0 p 12 m).

Definition XDP2_METADATA_TEMP_ipv6 := template (fun p fr c m =>
  m ← put16 fr F_l3_off 0 (u16 (xdp2_parse_hdr_offset p c)) m;
  nexthdr ← ld8 p 6;
  m ← put8 fr F_ip_proto 0 nexthdr m;
  m ← put8 fr F_addr_type 0 XDP2_ADDR_TYPE_IPV6 m;
  fl ← ip6_flowlabel p;
  m ← put32 fr F_flow_label 0 (bswap32 fl) m;
  put_bytes 32 fr F_addrs 0 p 8 m).

Definition XDP2_METADATA_TEMP_ipv6_addrs := template (fun p fr c m =>
  nexthdr ← ld8 p 6;
  m ← put8 fr F_ip_proto 0 nexthdr m;
  m ← put8 fr F_addr_type 0 XDP2_ADDR_TYPE_IPV6 m;
  put_bytes 32 fr F_addrs 0 p 8 m).

Definition XDP2_METADATA_TEMP_ports := template (fun p fr c m =>
  ports ← ld32 p 0; put32 fr F_ports 0 ports m).

Definition XDP2_METADATA_TEMP_ports_off := template (fun p fr c m =>
  ports ← ld32 p 0;
  m ← put32 fr F_ports 0 ports m;
  put16 fr F_l4_off 0 (u16 (xdp2_parse_hdr_offset p c)) m).

Definition XDP2_METADATA_TEMP_tcp_option_mss := template (fun p fr c m =>
  mss ← ld16 p 2; put16 fr F_tcp_options 0 (bswap16 mss) m).

Definition XDP2_METADATA_TEMP_tcp_option_window_scaling := template (fun p fr c m =>
  ws ← ld8 p 2; put8 fr F_tcp_options 2 ws m).

Definition XDP2_METADATA_TEMP_tcp_option_timestamp := template (fun p fr c m =>
  value ← ld32 p 2;
  m ← put32 fr F_tcp_options 4 (bswap32 value) m;
  echo ← ld32 p 6;
  put32 fr F_tcp_options 8 (bswap32 echo) m).

Definition XDP2_METADATA_SET_TCP_SACK (N : Z) (p : ptr) (fr : Z) (m : meta) : outcome meta :=
  left ← ld32 p (2 + 8 * N);
  m ← put32 fr F_tcp_options (12 + 8 * N) (bswap32 left) m;
  right ← ld32 p (2 + 8 * N + 4);
  put32 fr F_tcp_options (12 + 8 * N + 4) (bswap32 right) m.

Definition XDP2_METADATA_TEMP_tcp_option_sack_1 := template (fun p fr c m =>
  XDP2_METADATA_SET_TCP_SACK 0 p fr m).
Definition XDP2_METADATA_TEMP_tcp_option_sack_2 := template (fun p fr c m =>
  m ← XDP2_METADATA_SET_TCP_SACK 0 p fr m;
  XDP2_METADATA_SET_TCP_SACK 1 p fr m).
Definition XDP2_METADATA_TEMP_tcp_option_sack_3 := template (fun p fr c m =>
  m ← XDP2_METADATA_SET_TCP_SACK 0 p fr m;
  m ← XDP2_METADATA_SET_TCP_SACK 1 p fr m;
  XDP2_METADATA_SET_TCP_SACK 2 p fr m).
Definition XDP2_METADATA_TEMP_tcp_option_sack_4 := template (fun p fr c m =>
  m ← XDP2_METADATA_SET_TCP_SACK 0 p fr m;
  m ← XDP2_METADATA_SET_TCP_SACK 1 p fr m;
  m ← XDP2_METADATA_SET_TCP_SACK 2 p fr m;
  XDP2_METADATA_SET_TCP_SACK 3 p fr m).

Definition ETH_P_IPV6 := 0x86DD.

Definition XDP2_METADATA_TEMP_ip_overlay := template (fun p fr c m =>
  b ← ld8 p 0;
  if Z.shiftr b 4 =? 4 then put16 fr F_eth_proto 0 (bswap16 ETH_P_IP) m
  else if Z.shiftr b 4 =? 6 then put16 fr F_eth_proto 0 (bswap16 ETH_P_IPV6) m
  else mret m).

Definition XDP2_METADATA_TEMP_ipv6_eh := template (fun p fr c m =>
  nexthdr ← ld8 p 0; put8 fr F_ip_proto 0 nexthdr m).

Definition XDP2_METADATA_TEMP_ipv6_frag := template (fun p fr c m =>
  nexthdr ← ld8 p 0;
  m ← put8 fr F_ip_proto 0 nexthdr m;
  m ← put_bits8 fr F_flags 0 1 1 m;
  frag_off ← ld16 p 2;
  put_bits8 fr F_flags 1 1
    (if Z.land frag_off (bswap16 IP6_OFFSET) =? 0 then 1 else 0) m).

Definition XDP2_METADATA_TEMP_ipv6_frag_noinfo := template (fun p fr c m =>
  nexthdr ← ld8 p 0; put8 fr F_ip_proto 0 nexthdr m).

Definition XDP2_METADATA_TEMP_arp_rarp := template (fun p fr c m =>
  ar_op ← ld16 p 6;
  m ← put8 fr F_arp 8 (Z.land (bswap16 ar_op) 0xff) m;
  m ← put_bytes 6 fr F_arp 9 p 8 m;
  m ← put_bytes 6 fr F_arp 15 p 18 m;
  m ← put_bytes 4 fr F_arp 0 p 14 m;
  put_bytes 4 fr F_arp 4 p 24 m).

Definition XDP2_MAX_VLAN_CNT := 2.
Definition VLAN_VID_MASK := 0x0fff.
Definition VLAN_PRIO_MASK := 0xe000.
Definition VLAN_PRIO_SHIFT := 13.
Definition ETH_P_8021Q := 0x8100.
Definition ETH_P_8021AD := 0x88A8.

Definition XDP2_METADATA_TEMP_vlan_set_tpid (tpid : Z) := template (fun p fr c m =>
  flags ← get8 fr F_flags 0 m;
  let count := bf_get flags 2 2 in
  '(index, m) ← (if count <? XDP2_MAX_VLAN_CNT
                 then m ← put_bits8 fr F_flags 2 2 (count + 1) m; mret (count, m)
                 else mret (XDP2_MAX_VLAN_CNT - 1, m));
  tci ← ld16 p 0;
  m ← put_bits16 fr F_vlan (4 * index) 0 12 (Z.land (bswap16 tci) VLAN_VID_MASK) m;
  m ← put_bits16 fr F_vlan (4 * index) 13 3
        (Z.shiftr (Z.land (bswap16 tci) VLAN_PRIO_MASK) VLAN_PRIO_SHIFT) m;
  put16 fr F_vlan (4 * index + 2) tpid m).

Definition XDP2_METADATA_TEMP_vlan_8021AD := XDP2_METADATA_TEMP_vlan_set_tpid ETH_P_8021AD.
Definition XDP2_METADATA_TEMP_vlan_8021Q := XDP2_METADATA_TEMP_vlan_set_tpid ETH_P_8021Q.

Definition XDP2_METADATA_TEMP_icmp := template (fun p fr c m =>
  type ← ld8 p 0;
  m ← put8 fr F_icmp 0 type m;
  code ← ld8 p 1;
  m ← put8 fr F_icmp 1 code m;
  if icmp_has_id type then
    id ← ld16 p 4;
    put16 fr F_icmp 2 (if id =? 0 then 1 else id) m
  else put16 fr F_icmp 2 0 m).

Definition MPLS_LS_LABEL_MASK := 0xFFFFF000.
Definition MPLS_LS_LABEL_SHIFT := 12.
Definition MPLS_LS_TC_MASK := 0x00000E00.
Definition MPLS_LS_TC_SHIFT := 9.
Definition MPLS_LS_S_MASK := 0x00000100.
Definition MPLS_LS_S_SHIFT := 8.
Definition MPLS_LS_TTL_MASK := 0x000000FF.
Definition MPLS_LS_TTL_SHIFT := 0.
Definition MPLS_LABEL_ENTROPY := 7.

Definition XDP2_METADATA_TEMP_mpls := template (fun p fr c m =>
  w ← ld32 p 0;
  let entry := bswap32 w in
  let label := Z.shiftr (Z.land entry MPLS_LS_LABEL_MASK) MPLS_LS_LABEL_SHIFT in
  m ← put_bits32 fr F_mpls 12 20 label m;
  m ← put_bits32 fr F_mpls 0 8 (Z.shiftr (Z.land entry MPLS_LS_TTL_MASK) MPLS_LS_TTL_SHIFT) m;
  m ← put_bits32 fr F_mpls 9 3 (Z.shiftr (Z.land entry MPLS_LS_TC_MASK) MPLS_LS_TC_SHIFT) m;
  m ← put_bits32 fr F_mpls 8 1 (Z.shiftr (Z.land entry MPLS_LS_S_MASK) MPLS_LS_S_SHIFT) m;
  if label =? MPLS_LABEL_ENTROPY then
    w1 ← ld32 p 4;
    put32 fr F_keyid 0 (Z.land w1 (bswap32 MPLS_LS_LABEL_MASK)) m
  else mret m).

Definition TIPC_KEEPALIVE_MSG_MASK := 0x0e080000.

Definition XDP2_METADATA_TEMP_tipc := template (fun p fr c m =>
  w ← ld32 p 0;
  let keepalive_msg := Z.land (bswap32 w) TIPC_KEEPALIVE_MSG_MASK =? TIPC_KEEPALIVE_MSG_MASK in
  key ← (if keepalive_msg then mret 0 else ld32 p 12);
  m ← put32 fr F_addrs 0 key m;
  put8 fr F_addr_type 0 XDP2_ADDR_TYPE_TIPC m).

Definition XDP2_METADATA_TEMP_gre := template (fun p fr c m =>
  flags ← gre_get_flags p; put32 fr F_gre 0 flags m).
Definition XDP2_METADATA_TEMP_gre_pptp := template (fun p fr c m =>
  flags ← gre_get_flags p; put32 fr F_gre_pptp 0 flags m).
Definition XDP2_METADATA_TEMP_gre_checksum := template (fun p fr c m =>
  v ← ld16 p 0; put16 fr F_gre 4 v m).
Definition XDP2_METADATA_TEMP_gre_keyid := template (fun p fr c m =>
  v ← ld32 p 0; m ← put32 fr F_gre 8 v m; put32 fr F_keyid 0 v m).
Definition XDP2_METADATA_TEMP_gre_seq := template (fun p fr c m =>
  v ← ld32 p 0; put32 fr F_gre 12 v m).
Definition XDP2_METADATA_TEMP_gre_routing := template (fun p fr c m =>
  v ← ld32 p 0; put32 fr F_gre 16 v m).
Definition XDP2_METADATA_TEMP_gre_pptp_key := template (fun p fr c m =>
  v ← ld32 p 0;
  m ← put32 fr F_keyid 0 v m;
  payload_len ← ld16 p 0;
  m ← put16 fr F_gre_pptp 4 payload_len m;
  call_id ← ld16 p 2;
  put16 fr F_gre_pptp 6 call_id m).
Definition XDP2_METADATA_TEMP_gre_pptp_seq := template (fun p fr c m =>
  v ← ld32 p 0; put32 fr F_gre_pptp 8 v m).
Definition XDP2_METADATA_TEMP_gre_pptp_ack := template (fun p fr c m =>
  v ← ld32 p 0; put32 fr F_gre_pptp 12 v m).
End templates.

(** ** Safety of the templates *)

Definition meta_ok (N : Z) (m : meta) : Prop := Z.of_nat (length m) = N /\ Forall is_u8 m.

Lemma st8_wp s N m a v (P : meta -> Prop) :
  meta_ok N m -> 0 <= a < N -> (forall m', meta_ok N m' -> P m') -> wp s (st8 m a v) P.
Proof.
  intros [Hl Hb] Ha HP. unfold st8.
  destruct (Z.leb_spec 0 a), (Z.ltb_spec a (Z.of_nat (length m))); try lia.
  simpl. apply HP. split; [rewrite <- Hl; f_equal; apply length_insert |].
  apply Forall_insert; [done |]. unfold is_u8, u8. apply Z.mod_pos_bound. lia.
Qed.

Lemma st16_wp s N m a v (P : meta -> Prop) :
  meta_ok N m -> 0 <= a -> a + 2 <= N -> (forall m', meta_ok N m' -> P m') -> wp s (st16 m a v) P.
Proof.
  intros Hm H0 Ha HP. unfold st16.
  eapply wp_bind; [eapply (st8_wp _ N _ _ _ (meta_ok N)); eauto; lia |]. intros m1 H1.
  eapply st8_wp; eauto. lia.
Qed.

Lemma st32_wp s N m a v (P : meta -> Prop) :
  meta_ok N m -> 0 <= a -> a + 4 <= N -> (forall m', meta_ok N m' -> P m') -> wp s (st32 m a v) P.
Proof.
  intros Hm H0 Ha HP. unfold st32.
  eapply wp_bind; [eapply (st16_wp _ N _ _ _ (meta_ok N)); eauto; lia |]. intros m1 H1.
  eapply st16_wp; eauto; lia.
Qed.

Lemma memcpy_wp s N k m a p n i (P : meta -> Prop) :
  meta_ok N m -> in_bounds p n -> 0 <= i -> i + Z.of_nat k <= n ->
  0 <= a -> a + Z.of_nat k <= N -> (forall m', meta_ok N m' -> P m') ->
  wp s (memcpy k m a p i) P.
Proof.
  intros Hm Hb. revert m a i Hm.
  induction k as [| k IH]; intros m a i Hm Hi Hin Ha Han HP; cbn [memcpy]; [by apply wp_ret, HP |].
  eapply wp_bind; [eapply (ld8_wp _ _ n _ (fun _ => True)); eauto; lia |]. intros b _.
  eapply wp_bind; [eapply (st8_wp _ N _ _ _ (meta_ok N)); eauto; lia |]. intros m1 H1.
  apply IH; try done; lia.
Qed.

Lemma meta_in_bounds N m a : meta_ok N m -> 0 <= a <= N -> in_bounds (Ptr m a) (N - a).
Proof. intros [Hl Hb] Ha. unfold in_bounds; simpl. split_and!; try lia. done. Qed.

Section fields.
Context (S : layout) (s : bool) (N fr : Z) (m : meta).
Context (Hm : meta_ok N m) (Hfr : 0 <= fr) (Hfit : fr + lo_size S <= N).
(** [k + w] bytes into member [f] are still inside the structure. *)
Definition field_fits (f : field) (k w : Z) : Prop :=
  match lo_off S f with Some off => 0 <= off + k /\ off + k + w <= lo_size S | None => False end.

Lemma at_field_fits f k w :
  field_fits f k w -> exists a, at_field S fr f k = Done a /\ 0 <= a /\ a + w <= N.
Proof using Hfr Hfit.
  unfold field_fits, at_field. destruct (lo_off S f) as [off |]; [| done].
  intros H. exists (fr + off + k). split; [done | lia].
Qed.

Lemma put8_wp f k v (P : meta -> Prop) :
  field_fits f k 1 -> (forall m', meta_ok N m' -> P m') -> wp s (put8 S fr f k v m) P.
Proof using Hm Hfr Hfit.
  intros (a & E & H)%at_field_fits HP. unfold put8. rewrite E. orun.
  eapply st8_wp; eauto; lia.
Qed.
Lemma put16_wp f k v (P : meta -> Prop) :
  field_fits f k 2 -> (forall m', meta_ok N m' -> P m') -> wp s (put16 S fr f k v m) P.
Proof using Hm Hfr Hfit.
  intros (a & E & H)%at_field_fits HP. unfold put16. rewrite E. orun.
  eapply st16_wp; eauto; lia.
Qed.
Lemma put32_wp f k v (P : meta -> Prop) :
  field_fits f k 4 -> (forall m', meta_ok N m' -> P m') -> wp s (put32 S fr f k v m) P.
Proof using Hm Hfr Hfit.
  intros (a & E & H)%at_field_fits HP. unfold put32. rewrite E. orun.
  eapply st32_wp; eauto; lia.
Qed.
Lemma put_bytes_wp w f k p n i (P : meta -> Prop) :
  field_fits f k (Z.of_nat w) -> in_bounds p n -> 0 <= i -> i + Z.of_nat w <= n ->
  (forall m', meta_ok N m' -> P m') -> wp s (put_bytes S w fr f k p i m) P.
Proof using Hm Hfr Hfit.
  intros (a & E & H)%at_field_fits Hb Hi Hin HP. unfold put_bytes. rewrite E. orun.
  eapply memcpy_wp; eauto; lia.
Qed.
Lemma get8_wp f k (P : Z -> Prop) :
  field_fits f k 1 -> (forall v, is_u8 v -> P v) -> wp s (get8 S fr f k m) P.
Proof using Hm Hfr Hfit.
  intros (a & E & H)%at_field_fits HP. unfold get8. rewrite E. orun. unfold mld8.
  eapply ld8_wp; [eapply (meta_in_bounds N); eauto; lia | lia | done].
Qed.
Lemma get16_wp f k (P : Z -> Prop) :
  field_fits f k 2 -> (forall v, 0 <= v < 2 ^ 16 -> P v) -> wp s (get16 S fr f k m) P.
Proof using Hm Hfr Hfit.
  intros (a & E & H)%at_field_fits HP. unfold get16. rewrite E. orun. unfold mld16.
  eapply ld16_wp; [eapply (meta_in_bounds N); eauto; lia | lia | lia | done].
Qed.
Lemma get32_wp f k (P : Z -> Prop) :
  field_fits f k 4 -> (forall v, 0 <= v < 2 ^ 32 -> P v) -> wp s (get32 S fr f k m) P.
Proof using Hm Hfr Hfit.
  intros (a & E & H)%at_field_fits HP. unfold get32. rewrite E. orun. unfold mld32.
  eapply ld32_wp; [eapply (meta_in_bounds N); eauto; lia | lia | lia | done].
Qed.
End fields.

(** What a template promises a parse node: on a header of [lb] bytes and a
    frame that lies inside the metadata it stays inside both, and leaves the
    control data alone. *)
Class TemplateSafe (S : layout) (lb : Z) (t : extract_metadata_t meta) : Prop :=
  template_safe : forall N fr s p n m c,
    in_bounds p n -> lb <= n -> 0 <= fr -> fr + lo_size S <= N -> meta_ok N m ->
    wp s (t (Some p) n m fr c) (fun r => meta_ok N r.1 /\ r.2 = ctrl_key c).

Lemma template_wp s body p n m fr c N :
  wp s (body p fr c m) (meta_ok N) ->
  wp s (template body (Some p) n m fr c) (fun r => meta_ok N r.1 /\ r.2 = ctrl_key c).
Proof. intros H. unfold template. orun. by destruct (body p fr c m). Qed.

Ltac fits :=
  lazymatch goal with
  | |- field_fits _ _ _ _ => unfold field_fits; cbn -[Z.add Z.mul]; lia
  | |- _ => lia
  end.

(** One load or store of a template. *)
Ltac meta_step :=
  lazymatch goal with
  | |- wp _ (mbind _ (put_bits8 _ _ _ _ _ _ _)) _ => unfold put_bits8 at 1
  | |- wp _ (put_bits8 _ _ _ _ _ _ _) _ => unfold put_bits8
  | |- wp _ (mbind _ (put_bits16 _ _ _ _ _ _ _ _)) _ => unfold put_bits16 at 1
  | |- wp _ (mbind _ (put_bits32 _ _ _ _ _ _ _)) _ => unfold put_bits32 at 1
  | |- wp _ (mbind _ (gre_get_flags _)) _ => unfold gre_get_flags at 1
  | |- wp _ (mbind _ (mbind _ _)) _ => eapply (wp_bind _ _ _ (meta_ok _)); [| intros ? ?]
  | |- wp _ (mbind _ (if _ then _ else _)) _ =>
      eapply (wp_bind _ _ _ (meta_ok _)); [| intros ? ?]
  | |- wp _ (mbind _ (XDP2_METADATA_SET_TCP_SACK _ _ _ _ _)) _ =>
      unfold XDP2_METADATA_SET_TCP_SACK at 1
  | |- wp _ (XDP2_METADATA_SET_TCP_SACK _ _ _ _ _) _ => unfold XDP2_METADATA_SET_TCP_SACK
  | |- wp _ (mbind _ (put8 _ _ _ _ _ _)) _ =>
      eapply (wp_bind _ _ _ (meta_ok _)); [eapply put8_wp; eauto; fits | intros ? ?]
  | |- wp _ (mbind _ (put16 _ _ _ _ _ _)) _ =>
      eapply (wp_bind _ _ _ (meta_ok _)); [eapply put16_wp; eauto; fits | intros ? ?]
  | |- wp _ (mbind _ (put32 _ _ _ _ _ _)) _ =>
      eapply (wp_bind _ _ _ (meta_ok _)); [eapply put32_wp; eauto; fits | intros ? ?]
  | |- wp _ (mbind _ (put_bytes _ _ _ _ _ _ _ _)) _ =>
      eapply (wp_bind _ _ _ (meta_ok _)); [eapply put_bytes_wp; eauto; fits | intros ? ?]
  | |- wp _ (mbind _ (get8 _ _ _ _ _)) _ =>
      eapply (wp_bind _ _ _ is_u8); [eapply get8_wp; eauto; fits | intros ? ?]
  | |- wp _ (mbind _ (get16 _ _ _ _ _)) _ =>
      eapply (wp_bind _ _ _ (fun _ => True)); [eapply get16_wp; eauto; fits | intros ? _]
  | |- wp _ (mbind _ (get32 _ _ _ _ _)) _ =>
      eapply (wp_bind _ _ _ (fun _ => True)); [eapply get32_wp; eauto; fits | intros ? _]
  | |- wp _ (put8 _ _ _ _ _ _) _ => eapply put8_wp; eauto; fits
  | |- wp _ (put16 _ _ _ _ _ _) _ => eapply put16_wp; eauto; fits
  | |- wp _ (put32 _ _ _ _ _ _) _ => eapply put32_wp; eauto; fits
  | |- wp _ (put_bytes _ _ _ _ _ _ _ _) _ => eapply put_bytes_wp; eauto; fits
  | |- wp _ (mret _) _ => apply wp_ret; done
  | |- _ => load_step
  end.

Ltac template_solve :=
  intros N fr s p n m c Hin Hlb Hfr Hfit Hm; apply template_wp; cbv beta;
  repeat (cbv zeta; meta_step).

Lemma bf_get_2_range x b : 0 <= bf_get x b 2 < 4.
Proof.
  unfold bf_get. change (Z.ones 2) with 3.
  pose proof (land_nibble (Z.shiftr x b) 3 ltac:(lia)). lia.
Qed.

Lemma vlan_set_tpid_safe tpid :
  TemplateSafe xdp2_metadata_all 4 (XDP2_METADATA_TEMP_vlan_set_tpid xdp2_metadata_all tpid).
Proof.
  intros N fr s p n m c Hin Hlb Hfr Hfit Hm. apply template_wp. cbv beta.
  eapply wp_bind; [eapply (get8_wp _ _ N) with (P := fun _ => True); eauto; fits |]. intros v _.
  cbv zeta. pose proof (bf_get_2_range v 2) as Hc.
  eapply (wp_bind _ _ _ (fun r => 0 <= r.1 < 2 /\ meta_ok N r.2)).
  { unfold XDP2_MAX_VLAN_CNT. destruct (Z.ltb_spec (bf_get v 2 2) 2); [| by apply wp_ret].
    eapply (wp_bind _ _ _ (meta_ok N)); [repeat meta_step |]. intros m' Hm'.
    apply wp_ret. simpl. split; [lia | done]. }
  intros [index m1] [Hi Hm1]; simpl in Hi, Hm1. repeat meta_step.
Qed.

#[global] Instance temp_ether_off_safe :
  TemplateSafe xdp2_metadata_all 14 (XDP2_METADATA_TEMP_ether_off xdp2_metadata_all).
Proof. template_solve. Qed.
#[global] Instance temp_ipv4_safe :
  TemplateSafe xdp2_metadata_all 20 (XDP2_METADATA_TEMP_ipv4 xdp2_metadata_all).
Proof. template_solve. Qed.
#[global] Instance temp_ipv6_safe :
  TemplateSafe xdp2_metadata_all 40 (XDP2_METADATA_TEMP_ipv6 xdp2_metadata_all).
Proof. template_solve. Qed.
#[global] Instance temp_ip_overlay_safe :
  TemplateSafe xdp2_metadata_all 1 (XDP2_METADATA_TEMP_ip_overlay xdp2_metadata_all).
Proof. template_solve. Qed.
#[global] Instance temp_ipv6_eh_safe :
  TemplateSafe xdp2_metadata_all 2 (XDP2_METADATA_TEMP_ipv6_eh xdp2_metadata_all).
Proof. template_solve. Qed.
#[global] Instance temp_ipv6_frag_safe :
  TemplateSafe xdp2_metadata_all 8 (XDP2_METADATA_TEMP_ipv6_frag xdp2_metadata_all).
Proof. template_solve. Qed.
#[global] Instance temp_ports_off_safe :
  TemplateSafe xdp2_metadata_all 4 (XDP2_METADATA_TEMP_ports_off xdp2_metadata_all).
Proof. template_solve. Qed.
#[global] Instance temp_icmp_safe :
  TemplateSafe xdp2_metadata_all 8 (XDP2_METADATA_TEMP_icmp xdp2_metadata_all).
Proof. template_solve. Qed.
#[global] Instance temp_vlan_8021AD_safe :
  TemplateSafe xdp2_metadata_all 4 (XDP2_METADATA_TEMP_vlan_8021AD xdp2_metadata_all).
Proof. apply vlan_set_tpid_safe. Qed.
#[global] Instance temp_vlan_8021Q_safe :
  TemplateSafe xdp2_metadata_all 4 (XDP2_METADATA_TEMP_vlan_8021Q xdp2_metadata_all).
Proof. apply vlan_set_tpid_safe. Qed.
#[global] Instance temp_mpls_safe :
  TemplateSafe xdp2_metadata_all 8 (XDP2_METADATA_TEMP_mpls xdp2_metadata_all).
Proof.
  intros N fr s p n m c Hin Hlb Hfr Hfit Hm. apply template_wp. cbv beta.
  meta_step. generalize (bswap32 b). intros entry. cbv zeta.
  generalize (Z.shiftr (Z.land entry MPLS_LS_LABEL_MASK) MPLS_LS_LABEL_SHIFT). intros label.
  repeat meta_step.
Qed.
#[global] Instance temp_arp_rarp_safe :
  TemplateSafe xdp2_metadata_all 28 (XDP2_METADATA_TEMP_arp_rarp xdp2_metadata_all).
Proof. template_solve. Qed.
#[global] Instance temp_tipc_safe :
  TemplateSafe xdp2_metadata_all 16 (XDP2_METADATA_TEMP_tipc xdp2_metadata_all).
Proof.
  intros N fr s p n m c Hin Hlb Hfr Hfit Hm. apply template_wp. cbv beta.
  meta_step. cbv zeta. eapply (wp_bind _ _ _ (fun _ => True)); [| intros ? _; repeat meta_step].
  destruct (_ =? _); [done |]. eapply ld32_wp; eauto; lia.
Qed.
#[global] Instance temp_tcp_option_mss_safe :
  TemplateSafe xdp2_metadata_all 4 (XDP2_METADATA_TEMP_tcp_option_mss xdp2_metadata_all).
Proof. template_solve. Qed.
#[global] Instance temp_tcp_option_window_scaling_safe :
  TemplateSafe xdp2_metadata_all 3 (XDP2_METADATA_TEMP_tcp_option_window_scaling xdp2_metadata_all).
Proof. template_solve. Qed.
#[global] Instance temp_tcp_option_timestamp_safe :
  TemplateSafe xdp2_metadata_all 10 (XDP2_METADATA_TEMP_tcp_option_timestamp xdp2_metadata_all).
Proof. template_solve. Qed.
#[global] Instance temp_tcp_option_sack_1_safe :
  TemplateSafe xdp2_metadata_all 10 (XDP2_METADATA_TEMP_tcp_option_sack_1 xdp2_metadata_all).
Proof. template_solve. Qed.
#[global] Instance temp_tcp_option_sack_2_safe :
  TemplateSafe xdp2_metadata_all 18 (XDP2_METADATA_TEMP_tcp_option_sack_2 xdp2_metadata_all).
Proof. template_solve. Qed.
#[global] Instance temp_tcp_option_sack_3_safe :
  TemplateSafe xdp2_metadata_all 26 (XDP2_METADATA_TEMP_tcp_option_sack_3 xdp2_metadata_all).
Proof. template_solve. Qed.
#[global] Instance temp_tcp_option_sack_4_safe :
  TemplateSafe xdp2_metadata_all 34 (XDP2_METADATA_TEMP_tcp_option_sack_4 xdp2_metadata_all).
Proof. template_solve. Qed.
#[global] Instance temp_gre_safe :
  TemplateSafe xdp2_metadata_all 4 (XDP2_METADATA_TEMP_gre xdp2_metadata_all).
Proof. template_solve. Qed.
#[global] Instance temp_gre_pptp_safe :
  TemplateSafe xdp2_metadata_all 4 (XDP2_METADATA_TEMP_gre_pptp xdp2_metadata_all).
Proof. template_solve. Qed.
#[global] Instance temp_gre_checksum_safe :
  TemplateSafe xdp2_metadata_all 4 (XDP2_METADATA_TEMP_gre_checksum xdp2_metadata_all).
Proof. template_solve. Qed.
#[global] Instance temp_gre_keyid_safe :
  TemplateSafe xdp2_metadata_all 4 (XDP2_METADATA_TEMP_gre_keyid xdp2_metadata_all).
Proof. template_solve. Qed.
#[global] Instance temp_gre_seq_safe :
  TemplateSafe xdp2_metadata_all 4 (XDP2_METADATA_TEMP_gre_seq xdp2_metadata_all).
Proof. template_solve. Qed.
#[global] Instance temp_gre_pptp_key_safe :
  TemplateSafe xdp2_metadata_all 4 (XDP2_METADATA_TEMP_gre_pptp_key xdp2_metadata_all).
Proof. template_solve. Qed.
#[global] Instance temp_gre_pptp_seq_safe :
  TemplateSafe xdp2_metadata_all 4 (XDP2_METADATA_TEMP_gre_pptp_seq xdp2_metadata_all).
Proof. template_solve. Qed.
#[global] Instance temp_gre_pptp_ack_safe :
  TemplateSafe xdp2_metadata_all 4 (XDP2_METADATA_TEMP_gre_pptp_ack xdp2_metadata_all).
Proof. template_solve. Qed.
#[global] Instance temp_ether_noaddrs_safe :
  TemplateSafe xdp2_parser_simple_hash_metadata 14
    (XDP2_METADATA_TEMP_ether_noaddrs xdp2_parser_simple_hash_metadata).
Proof. template_solve. Qed.
#[global] Instance temp_ipv4_addrs_safe :
  TemplateSafe xdp2_parser_simple_hash_metadata 20
    (XDP2_METADATA_TEMP_ipv4_addrs xdp2_parser_simple_hash_metadata).
Proof. template_solve. Qed.
#[global] Instance temp_ipv6_addrs_safe :
  TemplateSafe xdp2_parser_simple_hash_metadata 40
    (XDP2_METADATA_TEMP_ipv6_addrs xdp2_parser_simple_hash_metadata).
Proof. template_solve. Qed.
#[global] Instance temp_ports_safe :
  TemplateSafe xdp2_parser_simple_hash_metadata 4
    (XDP2_METADATA_TEMP_ports xdp2_parser_simple_hash_metadata).
Proof. template_solve. Qed.
