(* ===== verification/Parsers.v ===== *)
(** * The parsers shipped with the library

    The parse graphs of [src/src/lib/xdp2/parsers/parser_big.c] and
    [parser_simple_hash.c], over the metadata structures of the [Metadata]
    file. Node names are the source's; a node's address is a number. *)

From stdpp Require Import base list gmap numbers.
From S2P Require Import Prelude FlagFields ParserTypes Parser ParserApi ProtoDefs Metadata.

(** ** Protocol numbers *)

Definition ETH_P_MPLS_UC := 0x8847.
Definition ETH_P_MPLS_MC := 0x8848.
Definition ETH_P_ARP := 0x0806.
Definition ETH_P_RARP := 0x8035.
Definition ETH_P_TIPC := 0x88CA.
Definition ETH_P_BATMAN := 0x4305.
Definition ETH_P_FCOE := 0x8906.
Definition ETH_P_PPP_SES := 0x8864.
Definition PPP_IP := 0x21.
Definition PPP_IPV6 := 0x57.
Definition IPPROTO_HOPOPTS := 0.
Definition IPPROTO_ICMP := 1.
Definition IPPROTO_IGMP := 2.
Definition IPPROTO_IPIP := 4.
Definition IPPROTO_TCP := 6.
Definition IPPROTO_UDP := 17.
Definition IPPROTO_DCCP := 33.
Definition IPPROTO_IPV6 := 41.
Definition IPPROTO_ROUTING := 43.
Definition IPPROTO_FRAGMENT := 44.
Definition IPPROTO_GRE := 47.
Definition IPPROTO_ICMPV6 := 58.
Definition IPPROTO_DSTOPTS := 60.
Definition IPPROTO_SCTP := 132.
Definition IPPROTO_MPLS := 137.
Definition TCPOPT_MSS := 2.
Definition TCPOPT_WINDOW := 3.
Definition TCPOPT_SACK := 5.
Definition TCPOPT_TIMESTAMP := 8.

(** ** The simple hash parser *)

Module SimpleHash.

Definition ether_node : nodeid := 1%positive.
Definition ipv4_node : nodeid := 2%positive.
Definition ipv4_check_node : nodeid := 3%positive.
Definition ipv6_node : nodeid := 4%positive.
Definition ipv6_check_node : nodeid := 5%positive.
Definition ipv6_eh_node : nodeid := 6%positive.
Definition ipv6_frag_node : nodeid := 7%positive.
Definition ports_node : nodeid := 8%positive.

Definition ether_table : list (Z * option nodeid) :=
  [(bswap16 ETH_P_IP, Some ipv4_check_node);
   (bswap16 ETH_P_IPV6, Some ipv6_check_node)].

Definition ipv4_table : list (Z * option nodeid) :=
  [(IPPROTO_TCP, Some ports_node);
   (IPPROTO_UDP, Some ports_node);
   (IPPROTO_SCTP, Some ports_node);
   (IPPROTO_DCCP, Some ports_node)].

Definition ipv6_table : list (Z * option nodeid) :=
  [(IPPROTO_HOPOPTS, Some ipv6_eh_node);
   (IPPROTO_ROUTING, Some ipv6_eh_node);
   (IPPROTO_DSTOPTS, Some ipv6_eh_node);
   (IPPROTO_FRAGMENT, Some ipv6_frag_node);
   (IPPROTO_TCP, Some ports_node);
   (IPPROTO_UDP, Some ports_node);
   (IPPROTO_SCTP, Some ports_node);
   (IPPROTO_DCCP, Some ports_node)].

Definition S := xdp2_parser_simple_hash_metadata.

Definition nodes : list (positive * xdp2_parse_node meta) :=
  [(ether_node, XDP2_MAKE_PARSE_NODE xdp2_parse_ether ether_table
                  (extract_op (XDP2_METADATA_TEMP_ether_noaddrs S)));
   (ipv4_node, XDP2_MAKE_PARSE_NODE xdp2_parse_ipv4 ipv4_table
                 (extract_op (XDP2_METADATA_TEMP_ipv4_addrs S)));
   (ipv4_check_node, XDP2_MAKE_AUTONEXT_PARSE_NODE xdp2_parse_ipv4_check ipv4_node null_ops);
   (ipv6_node, XDP2_MAKE_PARSE_NODE xdp2_parse_ipv6_stopflowlabel ipv6_table
                 (extract_op (XDP2_METADATA_TEMP_ipv6_addrs S)));
   (ipv6_check_node, XDP2_MAKE_AUTONEXT_PARSE_NODE xdp2_parse_ipv6_check ipv6_node null_ops);
   (ipv6_eh_node, XDP2_MAKE_PARSE_NODE xdp2_parse_ipv6_eh ipv6_table null_ops);
   (ipv6_frag_node, XDP2_MAKE_PARSE_NODE xdp2_parse_ipv6_frag_eh ipv6_table null_ops);
   (ports_node, XDP2_MAKE_LEAF_PARSE_NODE xdp2_parse_ports
                  (extract_op (XDP2_METADATA_TEMP_ports S)))].

Definition graph : parse_graph meta := ParseGraph (list_to_map nodes) ∅.

Definition XDP2_PARSER_SIMPLE_NUM_FRAMES := 1.

Definition xdp2_parser_simple_hash_ether : xdp2_parser (M := meta) :=
  XDP2_PARSER ether_node
    (parser_config_frames XDP2_PARSER_SIMPLE_NUM_FRAMES 0 (lo_size S)).

End SimpleHash.

(** ** The big parser *)

Module Big.

Definition ether_node : nodeid := 1%positive.
Definition ip_overlay_node : nodeid := 2%positive.
Definition ipv4_node : nodeid := 3%positive.
Definition ipv4_check_node : nodeid := 4%positive.
Definition ipv6_node : nodeid := 5%positive.
Definition ipv6_check_node : nodeid := 6%positive.
Definition ipv6_eh_node : nodeid := 7%positive.
Definition ipv6_frag_node : nodeid := 8%positive.
Definition ppp_node : nodeid := 9%positive.
Definition pppoe_node : nodeid := 10%positive.
Definition gre_base_node : nodeid := 11%positive.
Definition gre_v0_node : nodeid := 12%positive.
Definition gre_v1_node : nodeid := 13%positive.
Definition e8021AD_node : nodeid := 14%positive.
Definition e8021Q_node : nodeid := 15%positive.
Definition ipv4ip_node : nodeid := 16%positive.
Definition ipv6ip_node : nodeid := 17%positive.
Definition batman_node : nodeid := 18%positive.
Definition ports_node : nodeid := 19%positive.
Definition icmpv4_node : nodeid := 20%positive.
Definition icmpv6_node : nodeid := 21%positive.
Definition mpls_node : nodeid := 22%positive.
Definition arp_node : nodeid := 23%positive.
Definition rarp_node : nodeid := 24%positive.
Definition tipc_node : nodeid := 25%positive.
Definition fcoe_node : nodeid := 26%positive.
Definition igmp_node : nodeid := 27%positive.
Definition tcp_node : nodeid := 28%positive.

Definition tcp_opt_mss_node : tlvid := 1%positive.
Definition tcp_opt_window_scaling_node : tlvid := 2%positive.
Definition tcp_opt_timestamp_node : tlvid := 3%positive.
Definition tcp_opt_sack_node : tlvid := 4%positive.
Definition tcp_opt_sack_1 : tlvid := 5%positive.
Definition tcp_opt_sack_2 : tlvid := 6%positive.
Definition tcp_opt_sack_3 : tlvid := 7%positive.
Definition tcp_opt_sack_4 : tlvid := 8%positive.

Definition ether_table : list (Z * option nodeid) :=
  [(bswap16 ETH_P_IP, Some ipv4_check_node);
   (bswap16 ETH_P_IPV6, Some ipv6_check_node);
   (bswap16 ETH_P_8021AD, Some e8021AD_node);
   (bswap16 ETH_P_8021Q, Some e8021Q_node);
   (bswap16 ETH_P_MPLS_UC, Some mpls_node);
   (bswap16 ETH_P_MPLS_MC, Some mpls_node);
   (bswap16 ETH_P_ARP, Some arp_node);
   (bswap16 ETH_P_RARP, Some rarp_node);
   (bswap16 ETH_P_TIPC, Some tipc_node);
   (bswap16 ETH_P_BATMAN, Some batman_node);
   (bswap16 ETH_P_FCOE, Some fcoe_node);
   (bswap16 ETH_P_PPP_SES, Some pppoe_node)].

Definition ipv4_table : list (Z * option nodeid) :=
  [(IPPROTO_TCP, Some tcp_node);
   (IPPROTO_UDP, Some ports_node);
   (IPPROTO_SCTP, Some ports_node);
   (IPPROTO_DCCP, Some ports_node);
   (IPPROTO_GRE, Some gre_base_node);
   (IPPROTO_ICMP, Some icmpv4_node);
   (IPPROTO_IGMP, Some igmp_node);
   (IPPROTO_MPLS, Some mpls_node);
   (IPPROTO_IPIP, Some ipv4ip_node);
   (IPPROTO_IPV6, Some ipv6ip_node)].

Definition ipv6_table : list (Z * option nodeid) :=
  [(IPPROTO_HOPOPTS, Some ipv6_eh_node);
   (IPPROTO_ROUTING, Some ipv6_eh_node);
   (IPPROTO_DSTOPTS, Some ipv6_eh_node);
   (IPPROTO_FRAGMENT, Some ipv6_frag_node);
   (IPPROTO_TCP, Some tcp_node);
   (IPPROTO_UDP, Some ports_node);
   (IPPROTO_SCTP, Some ports_node);
   (IPPROTO_DCCP, Some ports_node);
   (IPPROTO_GRE, Some gre_base_node);
   (IPPROTO_ICMPV6, Some icmpv6_node);
   (IPPROTO_IGMP, Some igmp_node);
   (IPPROTO_MPLS, Some mpls_node);
   (IPPROTO_IPIP, Some ipv4ip_node);
   (IPPROTO_IPV6, Some ipv6ip_node)].

Definition ip_table : list (Z * option nodeid) :=
  [(4, Some ipv4_node); (6, Some ipv6_node)].

Definition gre_base_table : list (Z * option nodeid) :=
  [(0, Some gre_v0_node); (1, Some gre_v1_node)].

Definition gre_v0_table : list (Z * option nodeid) :=
  [(bswap16 ETH_P_IP, Some ipv4_check_node);
   (bswap16 ETH_P_IPV6, Some ipv6_check_node);
   (bswap16 ETH_P_TEB, Some ether_node)].

Definition ppp_table : list (Z * option nodeid) :=
  [(bswap16 PPP_IP, Some ipv4_check_node); (bswap16 PPP_IPV6, Some ipv6_check_node)].

Definition pppoe_table : list (Z * option nodeid) :=
  [(bswap16 PPP_IP, Some ipv4_check_node); (bswap16 PPP_IPV6, Some ipv6_check_node)].

Definition tcp_tlv_table : list (Z * option tlvid) :=
  [(TCPOPT_MSS, Some tcp_opt_mss_node);
   (TCPOPT_WINDOW, Some tcp_opt_window_scaling_node);
   (TCPOPT_TIMESTAMP, Some tcp_opt_timestamp_node);
   (TCPOPT_SACK, Some tcp_opt_sack_node)].

(** Keys are possible lengths of the TCP sack option *)
Definition tcp_sack_tlv_table : list (Z * option tlvid) :=
  [(10, Some tcp_opt_sack_1); (18, Some tcp_opt_sack_2);
   (26, Some tcp_opt_sack_3); (34, Some tcp_opt_sack_4)].

Definition S := xdp2_metadata_all.

Definition gre_v0_flag_fields_table : list (Z * option (xdp2_parse_node_ops meta)) :=
  [(0, Some (extract_op (XDP2_METADATA_TEMP_gre_checksum S)));
   (1, Some (extract_op (XDP2_METADATA_TEMP_gre_keyid S)));
   (2, Some (extract_op (XDP2_METADATA_TEMP_gre_seq S)))].

Definition gre_v1_flag_fields_table : list (Z * option (xdp2_parse_node_ops meta)) :=
  [(0, Some null_ops);
   (1, Some (extract_op (XDP2_METADATA_TEMP_gre_pptp_key S)));
   (2, Some (extract_op (XDP2_METADATA_TEMP_gre_pptp_seq S)));
   (3, Some (extract_op (XDP2_METADATA_TEMP_gre_pptp_ack S)))].

Definition nodes : list (positive * xdp2_parse_node meta) :=
  [(ether_node, XDP2_MAKE_PARSE_NODE xdp2_parse_ether ether_table
                  (extract_op (XDP2_METADATA_TEMP_ether_off S)));
   (ip_overlay_node, XDP2_MAKE_PARSE_NODE xdp2_parse_ip ip_table
                       (extract_op (XDP2_METADATA_TEMP_ip_overlay S)));
   (ipv4_node, XDP2_MAKE_PARSE_NODE xdp2_parse_ipv4 ipv4_table
                 (extract_op (XDP2_METADATA_TEMP_ipv4 S)));
   (ipv4_check_node, XDP2_MAKE_AUTONEXT_PARSE_NODE xdp2_parse_ipv4_check ipv4_node null_ops);
   (ipv6_node, XDP2_MAKE_PARSE_NODE xdp2_parse_ipv6 ipv6_table
                 (extract_op (XDP2_METADATA_TEMP_ipv6 S)));
   (ipv6_check_node, XDP2_MAKE_AUTONEXT_PARSE_NODE xdp2_parse_ipv6_check ipv6_node null_ops);
   (ipv6_eh_node, XDP2_MAKE_PARSE_NODE xdp2_parse_ipv6_eh ipv6_table
                    (extract_op (XDP2_METADATA_TEMP_ipv6_eh S)));
   (ipv6_frag_node, XDP2_MAKE_PARSE_NODE xdp2_parse_ipv6_frag_eh ipv6_table
                      (extract_op (XDP2_METADATA_TEMP_ipv6_frag S)));
   (ppp_node, XDP2_MAKE_PARSE_NODE xdp2_parse_ppp ppp_table null_ops);
   (pppoe_node, XDP2_MAKE_PARSE_NODE xdp2_parse_pppoe pppoe_table null_ops);
   (gre_base_node, XDP2_MAKE_PARSE_NODE xdp2_parse_gre_base gre_base_table null_ops);
   (gre_v0_node, XDP2_MAKE_FLAG_FIELDS_PARSE_NODE xdp2_parse_gre_v0 gre_v0_table
                   gre_v0_flag_fields_table (extract_op (XDP2_METADATA_TEMP_gre S)));
   (gre_v1_node, XDP2_MAKE_FLAG_FIELDS_AUTONEXT_PARSE_NODE xdp2_parse_gre_v1 ppp_node
                   gre_v1_flag_fields_table (extract_op (XDP2_METADATA_TEMP_gre_pptp S)));
   (e8021AD_node, XDP2_MAKE_PARSE_NODE xdp2_parse_vlan ether_table
                    (extract_op (XDP2_METADATA_TEMP_vlan_8021AD S)));
   (e8021Q_node, XDP2_MAKE_PARSE_NODE xdp2_parse_vlan ether_table
                   (extract_op (XDP2_METADATA_TEMP_vlan_8021Q S)));
   (ipv4ip_node, XDP2_MAKE_AUTONEXT_PARSE_NODE xdp2_parse_ipv4ip ipv4_node null_ops);
   (ipv6ip_node, XDP2_MAKE_AUTONEXT_PARSE_NODE xdp2_parse_ipv6ip ipv6_node null_ops);
   (batman_node, XDP2_MAKE_PARSE_NODE xdp2_parse_batman ether_table null_ops);
   (ports_node, XDP2_MAKE_LEAF_PARSE_NODE xdp2_parse_ports
                  (extract_op (XDP2_METADATA_TEMP_ports_off S)));
   (icmpv4_node, XDP2_MAKE_LEAF_PARSE_NODE xdp2_parse_icmpv4
                   (extract_op (XDP2_METADATA_TEMP_icmp S)));
   (icmpv6_node, XDP2_MAKE_LEAF_PARSE_NODE xdp2_parse_icmpv6
                   (extract_op (XDP2_METADATA_TEMP_icmp S)));
   (mpls_node, XDP2_MAKE_LEAF_PARSE_NODE xdp2_parse_mpls
                 (extract_op (XDP2_METADATA_TEMP_mpls S)));
   (arp_node, XDP2_MAKE_LEAF_PARSE_NODE xdp2_parse_arp
                (extract_op (XDP2_METADATA_TEMP_arp_rarp S)));
   (rarp_node, XDP2_MAKE_LEAF_PARSE_NODE xdp2_parse_rarp
                 (extract_op (XDP2_METADATA_TEMP_arp_rarp S)));
   (tipc_node, XDP2_MAKE_LEAF_PARSE_NODE xdp2_parse_tipc
                 (extract_op (XDP2_METADATA_TEMP_tipc S)));
   (fcoe_node, XDP2_MAKE_LEAF_PARSE_NODE xdp2_parse_fcoe null_ops);
   (igmp_node, XDP2_MAKE_LEAF_PARSE_NODE xdp2_parse_igmp null_ops);
   (tcp_node, XDP2_MAKE_LEAF_TLVS_PARSE_NODE xdp2_parse_tcp_tlvs tcp_tlv_table
                (extract_op (XDP2_METADATA_TEMP_ports_off S)))].

Definition tlvs : list (positive * xdp2_parse_tlv_node meta) :=
  [(tcp_opt_mss_node, XDP2_MAKE_TLV_PARSE_NODE xdp2_parse_tcp_option_mss
                        (extract_op (XDP2_METADATA_TEMP_tcp_option_mss S)));
   (tcp_opt_window_scaling_node, XDP2_MAKE_TLV_PARSE_NODE xdp2_parse_tcp_option_window_scaling
                        (extract_op (XDP2_METADATA_TEMP_tcp_option_window_scaling S)));
   (tcp_opt_timestamp_node, XDP2_MAKE_TLV_PARSE_NODE xdp2_parse_tcp_option_timestamp
                        (extract_op (XDP2_METADATA_TEMP_tcp_option_timestamp S)));
   (tcp_opt_sack_node, XDP2_MAKE_TLV_OVERLAY_PARSE_NODE xdp2_parse_tlv_null
                         tcp_sack_tlv_table null_ops);
   (tcp_opt_sack_1, XDP2_MAKE_TLV_PARSE_NODE xdp2_parse_tcp_option_sack_1
                      (extract_op (XDP2_METADATA_TEMP_tcp_option_sack_1 S)));
   (tcp_opt_sack_2, XDP2_MAKE_TLV_PARSE_NODE xdp2_parse_tcp_option_sack_2
                      (extract_op (XDP2_METADATA_TEMP_tcp_option_sack_2 S)));
   (tcp_opt_sack_3, XDP2_MAKE_TLV_PARSE_NODE xdp2_parse_tcp_option_sack_3
                      (extract_op (XDP2_METADATA_TEMP_tcp_option_sack_3 S)));
   (tcp_opt_sack_4, XDP2_MAKE_TLV_PARSE_NODE xdp2_parse_tcp_option_sack_4
                      (extract_op (XDP2_METADATA_TEMP_tcp_option_sack_4 S)))].

Definition graph : parse_graph meta := ParseGraph (list_to_map nodes) (list_to_map tlvs).

Definition XDP2_PARSER_BIG_NUM_FRAMES := 5.

(** [sizeof(struct xdp2_parser_big_metadata)] and
    [sizeof(struct xdp2_parser_big_metadata_one)] *)
Definition metadata_size : Z := XDP2_PARSER_BIG_NUM_FRAMES * lo_size S.
Definition metadata_one_size : Z := lo_size S.

Definition parser : Type := xdp2_parser (M := meta).

Definition xdp2_parser_big_ether : parser :=
  XDP2_PARSER ether_node
    (parser_config_frames XDP2_PARSER_BIG_NUM_FRAMES 0 metadata_one_size).
Definition xdp2_parser_big_ip : parser := XDP2_PARSER ip_overlay_node XDP2_PARSER_CONFIG_DEFAULTS.

Definition xdp2_parser_big_ipv4 : parser := XDP2_PARSER ipv4_check_node XDP2_PARSER_CONFIG_DEFAULTS.
Definition xdp2_parser_big_ipv6 : parser := XDP2_PARSER ipv6_check_node XDP2_PARSER_CONFIG_DEFAULTS.
Definition xdp2_parser_big_e8021AD : parser := XDP2_PARSER e8021AD_node XDP2_PARSER_CONFIG_DEFAULTS.
Definition xdp2_parser_big_e8021Q : parser := XDP2_PARSER e8021Q_node XDP2_PARSER_CONFIG_DEFAULTS.
Definition xdp2_parser_big_mpls : parser := XDP2_PARSER mpls_node XDP2_PARSER_CONFIG_DEFAULTS.
Definition xdp2_parser_big_arp : parser := XDP2_PARSER arp_node XDP2_PARSER_CONFIG_DEFAULTS.
Definition xdp2_parser_big_rarp : parser := XDP2_PARSER rarp_node XDP2_PARSER_CONFIG_DEFAULTS.
Definition xdp2_parser_big_tipc : parser := XDP2_PARSER tipc_node XDP2_PARSER_CONFIG_DEFAULTS.
Definition xdp2_parser_big_batman : parser := XDP2_PARSER batman_node XDP2_PARSER_CONFIG_DEFAULTS.
Definition xdp2_parser_big_fcoe : parser := XDP2_PARSER fcoe_node XDP2_PARSER_CONFIG_DEFAULTS.
Definition xdp2_parser_big_pppoe : parser := XDP2_PARSER pppoe_node XDP2_PARSER_CONFIG_DEFAULTS.

Definition l3_parser_table : list (Z * option parser) :=
  [(bswap16 ETH_P_IP, Some xdp2_parser_big_ipv4);
   (bswap16 ETH_P_IPV6, Some xdp2_parser_big_ipv6);
   (bswap16 ETH_P_8021AD, Some xdp2_parser_big_e8021AD);
   (bswap16 ETH_P_8021Q, Some xdp2_parser_big_e8021Q);
   (bswap16 ETH_P_MPLS_UC, Some xdp2_parser_big_mpls);
   (bswap16 ETH_P_MPLS_MC, Some xdp2_parser_big_mpls);
   (bswap16 ETH_P_ARP, Some xdp2_parser_big_arp);
   (bswap16 ETH_P_RARP, Some xdp2_parser_big_rarp);
   (bswap16 ETH_P_TIPC, Some xdp2_parser_big_tipc);
   (bswap16 ETH_P_BATMAN, Some xdp2_parser_big_batman);
   (bswap16 ETH_P_FCOE, Some xdp2_parser_big_fcoe);
   (bswap16 ETH_P_PPP_SES, Some xdp2_parser_big_pppoe)].

(** Whether a parse ended with [XDP2_STOP_OKAY], and the metadata it left. *)
Definition stopped_okay (r : outcome (Z * pstate meta)) : outcome (bool * meta) :=
  '(ret, st) ← r; mret (ret =? XDP2_STOP_OKAY, st_meta st).

(** [ctrl] is a local variable the functions below do not initialise, except
    for its [var] part in the last two. *)
Definition xdp2_parser_big_parse_ether (fuel : nat) (ctrl : xdp2_ctrl_data) (p : ptr) (len : Z)
    (mdata : meta) : outcome (bool * meta) :=
  stopped_okay (xdp2_parse graph fuel xdp2_parser_big_ether p len (PState mdata ctrl)).

Definition xdp2_parser_big_parse_l3 (fuel : nat) (ctrl : xdp2_ctrl_data) (p : ptr) (len proto : Z)
    (mdata : meta) : outcome (bool * meta) :=
  stopped_okay (xdp2_parse_from_table graph fuel l3_parser_table proto
                  (PState mdata (XDP2_CTRL_RESET_VAR_DATA ctrl))).

Definition xdp2_parser_big_parse_ip (fuel : nat) (ctrl : xdp2_ctrl_data) (p : ptr) (len : Z)
    (mdata : meta) : outcome (bool * meta) :=
  stopped_okay (xdp2_parse graph fuel xdp2_parser_big_ip p len
                  (PState mdata (XDP2_CTRL_RESET_VAR_DATA ctrl))).

End Big.
