(* ===== verification/ParsersSafe.v ===== *)
(** * The shipped parsers are safe on every packet

    [graph_ok] and the termination conditions for the graphs of [Parsers.v],
    and with them the properties of the parsers themselves. *)

From stdpp Require Import base list gmap numbers.
From S2P Require Import Prelude FlagFields ParserTypes Parser ParserApi ParserSafe ParserMain.
From S2P Require Import ProtoDefs Metadata Parsers.

(** ** Callbacks made from templates *)

Section callbacks.
Context (g : parse_graph meta) (cfg : xdp2_parser_config) (S : layout) (N : Z).
(** The metadata has room for every frame the configuration allows. *)
Context (Hfit : forall fr, frame_ok g cfg fr -> 0 <= fr /\ fr + lo_size S <= N).

Lemma extract_op_safe (L : Z -> Prop) lb t :
  TemplateSafe S lb t -> (forall n, 0 <= n -> L n -> lb <= n) ->
  ops_safe g cfg 0 (meta_ok N) L (extract_op t).
Proof using Hfit.
  intros Ht HL. constructor; [| done | done]. intros f [= <-] s p n m fr c Hb Hn Hf Hm Hk.
  destruct (Hfit _ Hf) as [H0 H1]. pose proof Hb as (_ & Hn0 & _).
  eapply wp_mono; [by apply (Ht N fr s p n m c Hb (HL _ Hn0 Hn) H0 H1 Hm) |].
  intros r [Hr ->]. by split.
Qed.

Lemma null_ops_safe L : ops_safe g cfg 0 (meta_ok N) L null_ops.
Proof. constructor; done. Qed.
End callbacks.

(** Pointers of a literal table lead to nodes. *)
Definition table_ok {A} (nodes : gmap positive A) (table : list (Z * option positive)) : bool :=
  forallb (fun e => match e.2 with Some t => bool_decide (is_Some (nodes !! t)) | None => true end)
    table.

Lemma table_ok_elem {A} (nodes : gmap positive A) table v t t' :
  table_ok nodes table = true -> (v, t) ∈ table -> t = Some t' -> is_Some (nodes !! t').
Proof.
  unfold table_ok. rewrite forallb_forall. intros H Hin ->.
  specialize (H (v, Some t')). simpl in H. apply bool_decide_eq_true in H; [done |].
  by apply list_elem_of_In.
Qed.

Lemma ptr_ok_b (g : parse_graph meta) p :
  match p with Some t => bool_decide (is_Some (g_nodes g !! t)) | None => true end = true ->
  node_ptr_ok g p.
Proof. intros H t ->. by apply bool_decide_eq_true in H. Qed.

(** Node by node: [constructor] for [node_ok] of a plain node. *)
Lemma plain_node_ok g cfg N pd ops table wild ret :
  ProtoDefSafe pd ->
  (is_Some wild -> table = None) ->
  (forall tb, table = Some tb -> table_ok (g_nodes g) tb = true) ->
  op_next_proto_keyin (pd_ops pd) = None ->
  node_ptr_ok g wild ->
  ops_safe g cfg 0 (meta_ok N) (Z.le (pd_min_len pd)) ops ->
  node_ok g cfg 0 (meta_ok N)
    (ParseNode XDP2_NODE_TYPE_PLAIN ret 0 0 (Some pd) ops table wild PNPlain).
Proof.
  intros Hpd Hw Ht Hk Hwild Hops. constructor; simpl.
  - exists pd. split_and!; try done; [by intros ? _; apply Hw |].
    rewrite Hk. intros _ [? ?]. done.
  - intros tb v t Etb Hin t' Et. eapply table_ok_elem; eauto.
  - done.
Qed.

(** Split membership in a literal association list into its cases. *)
Ltac elem_cases H :=
  repeat (apply elem_of_cons in H; destruct H as [H | H]; [injection H as -> -> |]);
  [.. | by apply not_elem_of_nil in H].

Ltac plain_ops :=
  first [ apply null_ops_safe
        | eapply extract_op_safe; [eassumption | apply _ | cbn; unfold EARPHDR_LEN; lia] ].

Ltac plain_solve :=
  eapply plain_node_ok;
  [ apply _ | try done; by intros [? ?] | intros tb [= <-]; vm_compute; reflexivity | reflexivity
  | apply ptr_ok_b; vm_compute; reflexivity | plain_ops ].

Module SimpleHashSafe.
Import SimpleHash.

Definition cfg := prs_config xdp2_parser_simple_hash_ether.

(** No node is an encapsulation, so that the one frame suffices. *)
Lemma simple_encap_free : encap_free graph.
Proof.
  intros id n pd Hid. apply elem_of_list_to_map_2 in Hid. unfold nodes in Hid.
  elem_cases Hid; by intros [= <-].
Qed.

Lemma frames_fit fr :
  frame_ok graph cfg fr -> 0 <= fr /\ fr + lo_size S <= lo_size S.
Proof. intros (k & _ & _ & Hk & ->). rewrite Hk by apply simple_encap_free. done. Qed.

Lemma simple_graph_ok : graph_ok graph cfg 0 (meta_ok (lo_size S)).
Proof.
  pose proof frames_fit as Hfit. constructor; try done.
  intros id n Hid. apply elem_of_list_to_map_2 in Hid. unfold nodes in Hid.
  elem_cases Hid; plain_solve.
Qed.
End SimpleHashSafe.

Module BigSafe.
Import Big.

Lemma sack_1_lookup : g_tlvs graph !! tcp_opt_sack_1 =
  Some (XDP2_MAKE_TLV_PARSE_NODE xdp2_parse_tcp_option_sack_1
          (extract_op (XDP2_METADATA_TEMP_tcp_option_sack_1 S))).
Proof. reflexivity. Qed.
Lemma sack_2_lookup : g_tlvs graph !! tcp_opt_sack_2 =
  Some (XDP2_MAKE_TLV_PARSE_NODE xdp2_parse_tcp_option_sack_2
          (extract_op (XDP2_METADATA_TEMP_tcp_option_sack_2 S))).
Proof. reflexivity. Qed.
Lemma sack_3_lookup : g_tlvs graph !! tcp_opt_sack_3 =
  Some (XDP2_MAKE_TLV_PARSE_NODE xdp2_parse_tcp_option_sack_3
          (extract_op (XDP2_METADATA_TEMP_tcp_option_sack_3 S))).
Proof. reflexivity. Qed.
Lemma sack_4_lookup : g_tlvs graph !! tcp_opt_sack_4 =
  Some (XDP2_MAKE_TLV_PARSE_NODE xdp2_parse_tcp_option_sack_4
          (extract_op (XDP2_METADATA_TEMP_tcp_option_sack_4 S))).
Proof. reflexivity. Qed.

Section big.
Context (cfg : xdp2_parser_config) (N : Z).
Context (Hfit : forall fr, frame_ok graph cfg fr -> 0 <= fr /\ fr + lo_size S <= N).
Context (Hexit : cfg_okay_node cfg = None /\ cfg_fail_node cfg = None /\
                 cfg_atencap_node cfg = None).
Context (Hsizes : 0 <= cfg_max_frames cfg /\ 0 <= cfg_frame_size cfg /\ 0 <= cfg_max_encaps cfg).

(** A TLV node is only given TLVs as long as its own definition asks for,
    also when it is reached as an overlay: the SACK nodes are selected by
    length. *)
Lemma tlv_at_min t d tl :
  tlv_at graph t d tl -> 0 <= tl ->
  tlvd_overlay_type d = None /\
  (tlvd_min_len d <= tl -> forall tn d', g_tlvs graph !! t = Some tn ->
     tn_proto_tlv_def tn = Some d' -> tlvd_min_len d' <= tl).
Proof using.
  induction 1 as [t tn d tl Ht Hd | t tn d tl table v t' _ IH Ht Htab Hin Hv
                 | t tn d tl t' _ IH Ht Hw]; intros Htl.
  - split.
    + apply elem_of_list_to_map_2 in Ht. unfold tlvs in Ht.
      elem_cases Ht; by injection Hd as <-.
    + intros Hm tn' d' Ht' Hd'. congruence.
  - destruct (IH Htl) as [Hov Hmin]. split; [done |]. intros Hm tn' d' Ht' Hd'.
    specialize (Hv Hov). unfold s32, sext in Hv.
    pose proof (Z.mod_le tl (2 ^ 32) Htl ltac:(lia)).
    assert (v <= tl) by (destruct (tl mod 2 ^ 32 <? 2 ^ (32 - 1)); lia). clear Hv.
    apply elem_of_list_to_map_2 in Ht. unfold tlvs in Ht.
    elem_cases Ht; try discriminate. injection Htab as <-.
    unfold tcp_sack_tlv_table in Hin.
    repeat (apply elem_of_cons in Hin; destruct Hin as [Hin | Hin]; [injection Hin as -> -> |]);
      [.. | by apply not_elem_of_nil in Hin].
    1: rewrite sack_1_lookup in Ht'. 2: rewrite sack_2_lookup in Ht'.
    3: rewrite sack_3_lookup in Ht'. 4: rewrite sack_4_lookup in Ht'.
    all: injection Ht' as <-; injection Hd' as <-; simpl; lia.
  - apply elem_of_list_to_map_2 in Ht. unfold tlvs in Ht. elem_cases Ht; discriminate.
Qed.

Lemma big_tlv_node_ok id d t lb :
  g_tlvs graph !! id = Some (XDP2_MAKE_TLV_PARSE_NODE d (extract_op t)) ->
  tlvd_min_len d = lb -> 0 <= lb -> tlvd_overlay_type d = None -> tlvd_nested_offset d = None ->
  TemplateSafe S lb t ->
  tlv_node_ok graph cfg 0 (meta_ok N) id (XDP2_MAKE_TLV_PARSE_NODE d (extract_op t)).
Proof using Hfit.
  intros Hid Hlb H0 Ho Hn Ht. constructor; try done.
  - exists d. split; [done |]. constructor; [lia | |]; congruence.
  - eapply extract_op_safe; [eassumption | eassumption |].
    intros tl Htl (d' & Hat & Hm). destruct (tlv_at_min _ _ _ Hat Htl) as [_ Hmin].
    specialize (Hmin Hm _ _ Hid eq_refl). lia.
Qed.

Lemma gre_ops_elem L (table : list (Z * option (xdp2_parse_node_ops meta))) :
  Forall (fun e => match e.2 with Some ops => ops_safe graph cfg 0 (meta_ok N) L ops
                   | None => True end) table ->
  forall v ops, (v, Some ops) ∈ table -> ops_safe graph cfg 0 (meta_ok N) L ops.
Proof using. intros H v ops Hin. rewrite list.Forall_forall in H. exact (H _ Hin). Qed.

(** All flag-fields of GRE are four bytes long. *)
Lemma gre_fields_4 i f :
  ffs_fields gre_flag_fields !! i = Some f \/ ffs_fields pptp_gre_flag_fields !! i = Some f ->
  ff_size f = 4.
Proof using.
  intros [H | H]; do 5 (destruct i as [| i]; [by inversion H |]); done.
Qed.

Lemma gre_node_ok_core n pd d fn :
  pn_node_type n = XDP2_NODE_TYPE_FLAG_FIELDS ->
  pn_proto_def n = Some pd -> pn_ext n = PNFlagFields fn -> pd_ext pd = PDFlagFields d ->
  ProtoDefSafe pd -> FlagFieldsDefSafe pd d ->
  (ffd_flag_fields d = gre_flag_fields \/ ffd_flag_fields d = pptp_gre_flag_fields) ->
  Forall (fun e => match e.2 with Some ops => ops_safe graph cfg 0 (meta_ok N) (eq 4) ops
                   | None => True end) (ffn_flag_fields_proto_table fn) ->
  ops_safe graph cfg 0 (meta_ok N) (Z.le (pd_min_len pd)) (pn_ops n) ->
  op_next_proto_keyin (pd_ops pd) = None ->
  (is_Some (pn_wildcard_node n) -> pn_proto_table n = None) ->
  (forall tb, pn_proto_table n = Some tb -> table_ok (g_nodes graph) tb = true) ->
  node_ptr_ok graph (pn_wildcard_node n) ->
  node_ok graph cfg 0 (meta_ok N) n.
Proof using.
  intros Hty Hpd Hext Hpe Hsafe Hff Hfl Htab Hops Hkey Hwt Htb Hwild. constructor; [| | done].
  - exists pd. rewrite Hty. split_and!; try done.
    + intros _. exists fn, d. split_and!; try done. intros v ops f Hin Hf.
      rewrite (gre_fields_4 (Z.to_nat v) f) by (destruct Hfl as [E | E]; rewrite E in Hf; auto).
      eapply gre_ops_elem; eauto.
    + intros ? _. by apply Hwt.
    + rewrite Hkey. intros _ [? ?]. done.
  - intros tb v t Et Hin t' Et'. eapply table_ok_elem; eauto.
Qed.

Lemma ff_op_safe t : TemplateSafe S 4 t -> ops_safe graph cfg 0 (meta_ok N) (eq 4) (extract_op t).
Proof using Hfit. intros Ht. eapply extract_op_safe; [eassumption | exact Ht | lia]. Qed.

Ltac ff_table :=
  cbn [ffn_flag_fields_proto_table];
  unfold gre_v0_flag_fields_table, gre_v1_flag_fields_table;
  repeat (apply List.Forall_cons; [cbn [snd]; first [apply null_ops_safe | apply ff_op_safe, _] |]);
  apply List.Forall_nil.

Lemma gre_v0_node_ok :
  node_ok graph cfg 0 (meta_ok N)
    (XDP2_MAKE_FLAG_FIELDS_PARSE_NODE xdp2_parse_gre_v0 gre_v0_table
       gre_v0_flag_fields_table (extract_op (XDP2_METADATA_TEMP_gre S))).
Proof using Hfit.
  eapply (gre_node_ok_core _ xdp2_parse_gre_v0 gre_v0_ff_def); try reflexivity; try apply _.
  - by left.
  - ff_table.
  - plain_ops.
  - by intros [? ?].
  - intros tb [= <-]. vm_compute. reflexivity.
  - done.
Qed.

Lemma gre_v1_node_ok :
  node_ok graph cfg 0 (meta_ok N)
    (XDP2_MAKE_FLAG_FIELDS_AUTONEXT_PARSE_NODE xdp2_parse_gre_v1 ppp_node
       gre_v1_flag_fields_table (extract_op (XDP2_METADATA_TEMP_gre_pptp S))).
Proof using Hfit.
  eapply (gre_node_ok_core _ xdp2_parse_gre_v1 gre_v1_ff_def); try reflexivity; try apply _.
  - by right.
  - ff_table.
  - plain_ops.
  - done.
  - apply ptr_ok_b. vm_compute. reflexivity.
Qed.

Lemma tcp_node_ok :
  node_ok graph cfg 0 (meta_ok N)
    (XDP2_MAKE_LEAF_TLVS_PARSE_NODE xdp2_parse_tcp_tlvs tcp_tlv_table
       (extract_op (XDP2_METADATA_TEMP_ports_off S))).
Proof using Hfit.
  constructor; try done. exists xdp2_parse_tcp_tlvs. split_and!; try done; try apply _.
  - intros _. constructor. exists xdp2_parse_tcp_tlvs. do 2 eexists.
    split_and!; [reflexivity | reflexivity | reflexivity | apply _ | | done].
    intros tb v t [= <-] Hin t' Et. eapply table_ok_elem; [| exact Hin | exact Et].
    vm_compute. reflexivity.
  - by intros [? ?].
  - plain_ops.
Qed.

Lemma sack_node_ok :
  tlv_node_ok graph cfg 0 (meta_ok N) tcp_opt_sack_node
    (XDP2_MAKE_TLV_OVERLAY_PARSE_NODE xdp2_parse_tlv_null tcp_sack_tlv_table null_ops).
Proof using.
  constructor; try done.
  - exists xdp2_parse_tlv_null. split; [done |]. by constructor.
  - intros tb v t [= <-] Hin t' Et. eapply table_ok_elem; [| exact Hin | exact Et].
    vm_compute. reflexivity.
Qed.

Lemma big_graph_ok : graph_ok graph cfg 0 (meta_ok N).
Proof using Hfit Hexit Hsizes.
  destruct Hexit as (E1 & E2 & E3). constructor; try congruence.
  - intros id n Hid. apply elem_of_list_to_map_2 in Hid. unfold nodes in Hid.
    elem_cases Hid;
      lazymatch goal with
      | |- node_ok _ _ _ _ (XDP2_MAKE_LEAF_TLVS_PARSE_NODE _ _ _) => apply tcp_node_ok
      | |- node_ok _ _ _ _ (XDP2_MAKE_FLAG_FIELDS_PARSE_NODE _ _ _ _) => apply gre_v0_node_ok
      | |- node_ok _ _ _ _ (XDP2_MAKE_FLAG_FIELDS_AUTONEXT_PARSE_NODE _ _ _ _) =>
          apply gre_v1_node_ok
      | |- _ => plain_solve
      end.
  - intros id tn Hid. pose proof Hid as Hid'.
    apply elem_of_list_to_map_2 in Hid. unfold tlvs in Hid.
    elem_cases Hid; first [ apply sack_node_ok
      | eapply big_tlv_node_ok; [exact Hid' | reflexivity | simpl; lia | reflexivity | reflexivity | apply _] ].
Qed.
End big.

(** Overlay chains have length one: the SACK node, then one of its overlays. *)
Definition tlv_rank (t : tlvid) : nat := if decide (t = tcp_opt_sack_node) then 1 else 0.

Lemma big_tlv_terminating : tlv_terminating graph 1 tlv_rank.
Proof.
  constructor.
  - intros t. unfold tlv_rank. case_decide; lia.
  - intros t tn table v t' Ht Htab Hin.
    apply elem_of_list_to_map_2 in Ht. unfold tlvs in Ht. elem_cases Ht; try discriminate.
    injection Htab as <-. unfold tcp_sack_tlv_table in Hin.
    repeat (apply elem_of_cons in Hin; destruct Hin as [Hin | Hin]; [injection Hin as -> -> |]);
      [.. | by apply not_elem_of_nil in Hin]; vm_compute; lia.
  - intros t tn t' Ht Hw. apply elem_of_list_to_map_2 in Ht. unfold tlvs in Ht.
    elem_cases Ht; discriminate.
  - intros t tn d tl id Ht Hn. apply elem_of_list_to_map_2 in Ht. unfold tlvs in Ht.
    elem_cases Ht; discriminate.
  - intros id n tsn t tn d Hid Hext [w Hw]. apply elem_of_list_to_map_2 in Hid. unfold nodes in Hid.
    elem_cases Hid; try discriminate. injection Hext as <-. discriminate.
Qed.
End BigSafe.
