(* ===== verification/ParserProps.v ===== *)
(** * Properties of the parsers

    The theorems about [__xdp2_parse] on every well-formed graph, and about the
    parsers shipped with the library on every packet. *)

From stdpp Require Import base list gmap numbers.
From S2P Require Import Prelude FlagFields ParserTypes Parser ParserApi ParserSafe ParserMain.
From S2P Require Import ProtoDefs Metadata Parsers ParsersSafe.

(** ** Safety and termination of the generic parser *)

(** What the caller of [__xdp2_parse] has to provide. *)
Record parse_pre {M} (g : parse_graph M) (cfg : xdp2_parser_config) (nk : nat) (Im : M -> Prop)
    (root : nodeid) (hdr : ptr) (len : Z) (st : pstate M) : Prop := {
  pp_graph : graph_ok g cfg nk Im;
  pp_root : is_Some (g_nodes g !! root);
  pp_hdr : in_bounds hdr len;
  pp_len : len < 2 ^ 63;
  pp_st : st_ok nk Im st;
  pp_encaps : 0 <= encaps_of st <= cfg_max_encaps cfg }.

Lemma parse_pre_inv {M} (g : parse_graph M) cfg nk Im root hdr len st :
  parse_pre g cfg nk Im root hdr len st ->
  loop_inv g cfg nk Im root hdr len (cfg_metameta_size cfg) 0 st.
Proof.
  intros [Hg Hr Hh Hl Hs He]. constructor; try done.
  destruct (go_sizes _ _ _ _ Hg) as (? & ? & ?). split_and!; try done; lia.
Qed.

Lemma parse_wp {M} (g : parse_graph M) cfg nk Im s R rank root hdr len st fuel :
  parse_pre g cfg nk Im root hdr len st ->
  (s = true -> tlv_terminating g R rank) ->
  (s = true -> ((R + 3) * Z.to_nat len + 2 <= fuel)%nat) ->
  wp s (__xdp2_parse g fuel cfg root hdr len st) (fun r =>
    st_ok nk Im r.2 /\ 0 <= encaps_of r.2 <= cfg_max_encaps cfg + 1 /\
    is_Some (last_node_of r.2) /\
    (ret_code_of r.2 = s8 r.1 \/
     r.1 = XDP2_STOP_MAX_NODES /\ ret_code_of r.2 = ret_code_of st)).
Proof.
  intros Hpre Ht Hfu. eapply parse_loop_wp; eauto using parse_pre_inv. apply Hpre.
Qed.

(** C1: memory safety. On a well-formed graph, whatever bytes the packet holds
    and however the callbacks behave within their contracts, the generic parser
    performs no access outside the packet, no dereference of NULL, no cast to
    the wrong node structure and no callback on a header or frame it must not
    see. *)
Theorem parse_memory_safe {M} (g : parse_graph M) cfg nk Im root hdr len st fuel :
  parse_pre g cfg nk Im root hdr len st ->
  __xdp2_parse g fuel cfg root hdr len st <> Crash.
Proof.
  intros Hpre. eapply wp_not_crash, (parse_wp g cfg nk Im false 0 (fun _ => 0%nat)); done.
Qed.


(** ** The shipped parsers *)

Lemma xdp2_parse_generic {M} (g : parse_graph M) fuel prs hdr len st :
  prs_type prs = XDP2_GENERIC ->
  xdp2_parse g fuel prs hdr len st =
    __xdp2_parse g fuel (prs_config prs) (prs_root_node prs) hdr len st.
Proof. unfold xdp2_parse. by intros ->. Qed.

(** Control data without keys that counts at most as many encapsulations as the
    parser allows, such as [XDP2_CTRL_RESET_VAR_DATA] leaves it. *)
Definition usable_ctrl (cfg : xdp2_parser_config) (c : xdp2_ctrl_data) : Prop :=
  0 <= var_encaps (ctrl_var c) <= cfg_max_encaps cfg /\ is_u8 (var_tlv_levels (ctrl_var c)) /\ key_keys (ctrl_key c) = [].

Definition packet_ok (pkt : list Z) : Prop :=
  Forall is_u8 pkt /\ Z.of_nat (length pkt) < 2 ^ 63.

Lemma packet_in_bounds pkt : packet_ok pkt -> in_bounds (Ptr pkt 0) (Z.of_nat (length pkt)).
Proof. intros [Hb Hl]. unfold in_bounds; simpl. split_and!; try lia. done. Qed.

Lemma big_ether_pre pkt m c :
  packet_ok pkt -> meta_ok Big.metadata_size m -> usable_ctrl (prs_config Big.xdp2_parser_big_ether) c ->
  parse_pre Big.graph (prs_config Big.xdp2_parser_big_ether) 0 (meta_ok Big.metadata_size)
    Big.ether_node (Ptr pkt 0) (Z.of_nat (length pkt)) (PState m c).
Proof.
  intros Hp Hm (He & Ht & Hk). constructor.
  - apply BigSafe.big_graph_ok; [| done | done].
    intros fr (k & Hk1 & Hk2 & _ & ->). specialize (Hk2 ltac:(done)).
    unfold Big.metadata_size, Big.metadata_one_size, Big.XDP2_PARSER_BIG_NUM_FRAMES, Big.S in *.
    cbn in *. lia.
  - eexists. reflexivity.
  - by apply packet_in_bounds.
  - apply Hp.
  - split_and!; [done | simpl; by rewrite Hk | exact Ht].
  - exact He.
Qed.

(** ** A sample packet: UDP over IPv4 over Ethernet *)

Definition ctrl0 : xdp2_ctrl_data := XDP2_CTRL_INIT_KEY_DATA XDP2_PARSER_CONFIG_DEFAULTS 0.

Definition eth_hdr (hi lo : Z) : list Z := replicate 12 1 ++ [hi; lo].
Definition ipv4_hdr (vihl proto : Z) : list Z :=
  [vihl; 0; 0; 60; 0; 0; 0; 0; 64; proto; 0; 0; 10; 0; 0; 1; 10; 0; 0; 2].

Definition udp_packet : list Z := eth_hdr 8 0 ++ ipv4_hdr 0x45 IPPROTO_UDP ++ [0; 80; 0; 90].

Lemma udp_packet_ok : packet_ok udp_packet.
Proof. split; [| done]. vm_compute. repeat constructor; discriminate. Qed.

Lemma meta_zero_ok n : meta_ok (Z.of_nat n) (replicate n 0).
Proof. split; [by rewrite length_replicate |]. by apply Forall_replicate. Qed.

Lemma ctrl0_usable : usable_ctrl (prs_config Big.xdp2_parser_big_ether) ctrl0.
Proof. by vm_compute. Qed.

Definition big_meta0 : meta := replicate (Z.to_nat Big.metadata_size) 0.

Lemma udp_packet_pre :
  parse_pre Big.graph (prs_config Big.xdp2_parser_big_ether) 0 (meta_ok Big.metadata_size)
    Big.ether_node (Ptr udp_packet 0) (Z.of_nat (length udp_packet)) (PState big_meta0 ctrl0).
Proof.
  apply big_ether_pre; [apply udp_packet_ok | apply (meta_zero_ok (Z.to_nat Big.metadata_size)) |
                        apply ctrl0_usable].
Qed.

Lemma parse_memory_safe_witness :
  __xdp2_parse Big.graph 500 (prs_config Big.xdp2_parser_big_ether) Big.ether_node
    (Ptr udp_packet 0) (Z.of_nat (length udp_packet)) (PState big_meta0 ctrl0) <> Crash.
Proof. eapply parse_memory_safe, udp_packet_pre. Defined.


(** C29: the big parser for Ethernet, given the five frames of
    [struct xdp2_parser_big_metadata] and control data without keys that counts at
    most four encapsulations, returns on every packet without touching a byte
    outside the packet or the metadata, whose size it keeps. The function itself
    does not initialise its control data; with a count of 255 the parser leaves the
    frames ([big_parse_ether_stale_encaps] of ParserLimits.v). *)
Theorem big_parse_ether_total pkt m c fuel :
  packet_ok pkt -> meta_ok Big.metadata_size m -> usable_ctrl (prs_config Big.xdp2_parser_big_ether) c ->
  (4 * length pkt + 2 <= fuel)%nat ->
  exists ok m', Big.xdp2_parser_big_parse_ether fuel c (Ptr pkt 0) (Z.of_nat (length pkt)) m
                  = Done (ok, m') /\ meta_ok Big.metadata_size m'.
Proof.
  intros Hp Hm Hc Hfu.
  destruct (wp_strict_done _ _ (parse_wp _ _ _ _ true 1 BigSafe.tlv_rank _ _ _ _ fuel
    (big_ether_pre pkt m c Hp Hm Hc) (fun _ => BigSafe.big_tlv_terminating) ltac:(intros; lia)))
    as ([ret st'] & E & (Hm' & _) & _).
  exists (ret =? XDP2_STOP_OKAY), (st_meta st').
  unfold Big.xdp2_parser_big_parse_ether. rewrite xdp2_parse_generic by done.
  change (prs_root_node Big.xdp2_parser_big_ether) with Big.ether_node.
  rewrite E. by split.
Qed.

Lemma big_parse_ether_total_witness :
  exists ok m', Big.xdp2_parser_big_parse_ether 500 ctrl0 (Ptr udp_packet 0)
                  (Z.of_nat (length udp_packet)) big_meta0 = Done (ok, m') /\
                meta_ok Big.metadata_size m'.
Proof.
  apply big_parse_ether_total; [apply udp_packet_ok | | apply ctrl0_usable | vm_compute; lia].
  apply (meta_zero_ok (Z.to_nat Big.metadata_size)).
Defined.

(** ** Frames that do not fit *)

Lemma parse_loop_first_crash {M} (g : parse_graph M) nodes fuel cfg id hdr len frame fn st :
  parse_step g fuel cfg id hdr len frame fn st = Crash ->
  parse_loop g nodes fuel cfg (Some id) hdr len frame fn st = Crash.
Proof. intros E. destruct nodes; cbn [parse_loop]; orun; by rewrite E. Qed.

(** A definition without [len] operation has a fixed length. *)
Lemma proto_hlen_fixed pd hdr len :
  op_len (pd_ops pd) = None -> 0 <= pd_min_len pd <= len -> len < 2 ^ 64 ->
  proto_hlen pd hdr len = Done (inr (pd_min_len pd)).
Proof.
  intros E Hl Hlt. unfold proto_hlen. rewrite E. cbv zeta. rewrite u64_small by lia.
  destruct (Z.ltb_spec len (pd_min_len pd)); [lia | done].
Qed.

Lemma st16_out_of_range m a v : Z.of_nat (length m) <= a -> st16 m a v = Crash.
Proof.
  intros H. unfold st16, st8.
  destruct (Z.leb_spec 0 a), (Z.ltb_spec a (Z.of_nat (length m))); done || lia.
Qed.

Lemma ip_overlay_lookup :
  g_nodes Big.graph !! Big.ip_overlay_node =
    Some (XDP2_MAKE_PARSE_NODE xdp2_parse_ip Big.ip_table
            (extract_op (XDP2_METADATA_TEMP_ip_overlay Big.S))).
Proof. reflexivity. Qed.

(** [xdp2_parser_big_hash_ip] parses into one frame of 200 bytes, but the
    IP parser keeps the default 64 bytes of metameta data before its first
    frame. On every packet that begins with an IPv4 or IPv6 version number the
    very first node already stores behind the end of the metadata. *)
Theorem big_parse_ip_overflow b rest m c fuel :
  is_u8 b -> Z.shiftr b 4 = 4 \/ Z.shiftr b 4 = 6 ->
  Z.of_nat (length m) = Big.metadata_one_size -> Z.of_nat (length (b :: rest)) < 2 ^ 64 ->
  Big.xdp2_parser_big_parse_ip fuel c (Ptr (b :: rest) 0) (Z.of_nat (length (b :: rest))) m = Crash.
Proof.
  intros Hb Hv Hm Hlen. unfold Big.xdp2_parser_big_parse_ip.
  rewrite xdp2_parse_generic by done. unfold __xdp2_parse.
  rewrite parse_loop_first_crash; [done |].
  change (prs_root_node Big.xdp2_parser_big_ip) with Big.ip_overlay_node.
  unfold parse_step. rewrite (get_node_Some _ _ _ ip_overlay_lookup).
  set (len := Z.of_nat (length (b :: rest))) in *.
  assert (1 <= len) by (unfold len; simpl; lia).
  orun. cbn [pn_proto_def XDP2_MAKE_PARSE_NODE].
  rewrite proto_hlen_fixed by (done || simpl; lia).
  orun. unfold run_extract at 1. cbn -[st16 Z.shiftr Z.eqb parse_step].
  assert (forall v, st16 m (64 + 136 + 0) v = Crash) as Hst.
  { intros v. apply st16_out_of_range. rewrite Hm. done. }
  change (ld8 (Ptr (b :: rest) 0) 0) with (Done b). orun.
  destruct Hv as [-> | ->]; cbn -[st16]; by rewrite Hst.
Qed.

Lemma big_parse_ip_overflow_witness :
  Big.xdp2_parser_big_parse_ip 100 ctrl0 (Ptr (ipv4_hdr 0x45 IPPROTO_UDP) 0) 20
    (replicate (Z.to_nat Big.metadata_one_size) 0) = Crash.
Proof.
  apply (big_parse_ip_overflow 0x45 (tail (ipv4_hdr 0x45 IPPROTO_UDP)));
    [by vm_compute | by left | reflexivity | reflexivity].
Defined.
