(* ===== verification/SimpleHashSpec.v ===== *)
(** * What the simple hash parser extracts

    Functional correctness of [xdp2_parser_simple_hash_ether] on IPv4 packets:
    the walk Ethernet, IPv4 check, IPv4, ports is executed symbolically, for
    all header lengths, addresses and ports. *)

From stdpp Require Import base list gmap numbers.
From S2P Require Import Prelude FlagFields ParserTypes Parser ParserApi ParserSafe ParserMain.
From S2P Require Import ProtoDefs Metadata Parsers ParsersSafe ParserProps.

(** ** Stores as list updates *)

Lemma st8_eq (m : meta) (a : nat) v :
  (a < length m)%nat -> st8 m (Z.of_nat a) v = Done (list_inserts a [u8 v] m).
Proof.
  intros H. unfold st8.
  destruct (Z.leb_spec 0 (Z.of_nat a)), (Z.ltb_spec (Z.of_nat a) (Z.of_nat (length m))); try lia.
  simpl. by rewrite Nat2Z.id.
Qed.

Lemma memcpy_eq (bs : list Z) : forall (m : meta) (a : nat) p i,
  Forall is_u8 bs -> (a + length bs <= length m)%nat ->
  (forall k b, bs !! k = Some b -> ld8 p (i + Z.of_nat k) = Done b) ->
  memcpy (length bs) m (Z.of_nat a) p i = Done (list_inserts a bs m).
Proof.
  induction bs as [| b bs IH]; intros m a p i Hb Hl Hld; [done |].
  inversion Hb as [| ? ? Hb1 Hb2]; subst. cbn [length memcpy list_inserts] in *.
  pose proof (Hld 0%nat b eq_refl) as E. rewrite Z.add_0_r in E. rewrite E. orun.
  rewrite st8_eq by lia. orun. cbn [list_inserts].
  replace (Z.of_nat a + 1) with (Z.of_nat (S a)) by lia.
  rewrite IH; [| done | rewrite length_insert; lia |].
  - f_equal. rewrite (u8_small b) by done. by rewrite list_insert_inserts_lt by lia.
  - intros k b' Hk. rewrite <- (Hld (S k) b') by done. f_equal. lia.
Qed.

Lemma st16_eq (m : meta) (a : nat) b0 b1 :
  is_u8 b0 -> is_u8 b1 -> (a + 2 <= length m)%nat ->
  st16 m (Z.of_nat a) (b0 + 2 ^ 8 * b1) = Done (list_inserts a [b0; b1] m).
Proof.
  unfold is_u8. intros H0 H1 Hl. unfold st16. rewrite st8_eq by lia. orun.
  replace (Z.of_nat a + 1) with (Z.of_nat (S a)) by lia.
  rewrite st8_eq by (rewrite length_inserts; lia).
  rewrite Z.shiftr_div_pow2 by lia. cbn [list_inserts]. f_equal.
  rewrite list_insert_insert_ne by lia. do 2 f_equal.
  - unfold u8. rewrite Z.mul_comm, Z.mod_add, Z.mod_small; lia.
  - unfold u8. f_equal. rewrite Z.mul_comm, Z.div_add, Z.div_small, Z.mod_small; lia.
Qed.

Lemma st32_eq (m : meta) (a : nat) b0 b1 b2 b3 :
  is_u8 b0 -> is_u8 b1 -> is_u8 b2 -> is_u8 b3 -> (a + 4 <= length m)%nat ->
  st32 m (Z.of_nat a) ((b0 + 2 ^ 8 * b1) + 2 ^ 16 * (b2 + 2 ^ 8 * b3)) =
    Done (list_inserts a [b0; b1; b2; b3] m).
Proof.
  unfold is_u8. intros H0 H1 H2 H3 Hl. unfold st32.
  assert (forall x, st16 m (Z.of_nat a) (b0 + 2 ^ 8 * b1 + 2 ^ 16 * x) =
                    st16 m (Z.of_nat a) (b0 + 2 ^ 8 * b1)) as E16.
  { intros x. unfold st16. assert (u8 (b0 + 2 ^ 8 * b1 + 2 ^ 16 * x) = u8 (b0 + 2 ^ 8 * b1)) as E1.
    { unfold u8. replace (2 ^ 16 * x) with ((2 ^ 8 * x) * 2 ^ 8) by lia. by rewrite Z.mod_add. }
    unfold st8. rewrite E1. destruct (_ && _); [| done]. orun.
    assert (u8 (Z.shiftr (b0 + 2 ^ 8 * b1 + 2 ^ 16 * x) 8) =
            u8 (Z.shiftr (b0 + 2 ^ 8 * b1) 8)) as ->; [| done].
    rewrite !Z.shiftr_div_pow2 by lia.
    replace (b0 + 2 ^ 8 * b1 + 2 ^ 16 * x) with (b0 + 2 ^ 8 * b1 + (2 ^ 8 * x) * 2 ^ 8) by lia.
    rewrite Z.div_add by lia. unfold u8. rewrite (Z.mul_comm (2 ^ 8) x). by rewrite Z.mod_add. }
  rewrite E16, st16_eq by done || lia. orun.
  replace (Z.shiftr _ 16) with (b2 + 2 ^ 8 * b3).
  - replace (Z.of_nat a + 2) with (Z.of_nat (2 + a)) by lia.
    rewrite st16_eq by (done || rewrite length_inserts; lia).
    f_equal. by rewrite <- (list_inserts_app_l [b0; b1] [b2; b3]).
  - rewrite Z.shiftr_div_pow2 by lia. rewrite (Z.mul_comm (2 ^ 16)), Z.div_add by lia.
    rewrite Z.div_small; lia.
Qed.

(** ** One plain node *)

Lemma plain_step {M} (g : parse_graph M) fuel cfg id n pd hdr len hlen frame fn st st1 next :
  g_nodes g !! id = Some n -> pn_node_type n = XDP2_NODE_TYPE_PLAIN -> pn_proto_def n = Some pd ->
  handler (pn_ops n) = None -> post_handler (pn_ops n) = None ->
  pd_encap pd = false -> pn_flags n = 0 ->
  is_null (pn_proto_table n) && is_null (pn_wildcard_node n) = false ->
  proto_hlen pd hdr len = Done (inr hlen) ->
  run_extract (extract_metadata (pn_ops n)) (Some hdr) hlen frame
    (upd_var (var_set_last_node (Some id)) st) = Done st1 ->
  next_node n pd hdr (st_ctrl st1) = Done (inr next) ->
  parse_step g fuel cfg id hdr len frame fn st =
    Done (SNext next (if pd_overlay pd then hdr else padd hdr hlen)
            (if pd_overlay pd then len else u64 (len - hlen)) frame fn st1).
Proof.
  intros Hn Hty Hpd Hh Hp He Hfl Hnull Hhl Hext Hnext. unfold parse_step.
  rewrite (get_node_Some _ _ _ Hn). orun. rewrite Hpd. orun. cbv zeta. rewrite Hhl.
  rewrite Hext, Hh, Hp, He, Hfl. unfold process_ext. rewrite Hty. unfold run_handler. orun.
  cbn [negb Z.eqb XDP2_OKAY]. change (XDP2_OKAY =? XDP2_OKAY) with true. cbv iota beta.
  rewrite Hnull, Hnext. by destruct (pd_overlay pd); rewrite andb_false_r.
Qed.

Lemma plain_leaf_step {M} (g : parse_graph M) fuel cfg id n pd hdr len hlen frame fn st st1 :
  g_nodes g !! id = Some n -> pn_node_type n = XDP2_NODE_TYPE_PLAIN -> pn_proto_def n = Some pd ->
  handler (pn_ops n) = None -> post_handler (pn_ops n) = None ->
  pn_proto_table n = None -> pn_wildcard_node n = None ->
  proto_hlen pd hdr len = Done (inr hlen) ->
  run_extract (extract_metadata (pn_ops n)) (Some hdr) hlen frame
    (upd_var (var_set_last_node (Some id)) st) = Done st1 ->
  parse_step g fuel cfg id hdr len frame fn st = Done (SOut XDP2_STOP_OKAY frame st1).
Proof.
  intros Hn Hty Hpd Hh Hp Ht Hw Hhl Hext. unfold parse_step.
  rewrite (get_node_Some _ _ _ Hn). orun. rewrite Hpd. orun. cbv zeta. rewrite Hhl.
  rewrite Hext, Hh, Hp, Ht, Hw. unfold process_ext. rewrite Hty. done.
Qed.

(** ** The packets *)

(** An Ethernet frame with an IPv4 header of [ihl] words at offset 14 that is
    no later fragment, and a transport header with ports. *)
Record ipv4_ports_packet (pkt : list Z) (ihl proto : Z) : Prop := {
  ip_bytes : packet_ok pkt;
  ip_type0 : pkt !! 12%nat = Some 0x08;
  ip_type1 : pkt !! 13%nat = Some 0x00;
  ip_vihl : pkt !! 14%nat = Some (0x40 + ihl);
  ip_ihl : 5 <= ihl <= 15;
  ip_frag0 : exists f, pkt !! 20%nat = Some f /\ Z.land f 0x1f = 0;
  ip_frag1 : pkt !! 21%nat = Some 0;
  ip_proto23 : pkt !! 23%nat = Some proto;
  ip_ports : proto = IPPROTO_TCP \/ proto = IPPROTO_UDP \/ proto = IPPROTO_SCTP \/
             proto = IPPROTO_DCCP;
  ip_len : 14 + 4 * ihl + 4 <= Z.of_nat (length pkt) }.

Lemma ld8_lookup buf (off i : nat) b :
  buf !! (off + i)%nat = Some b -> ld8 (Ptr buf (Z.of_nat off)) (Z.of_nat i) = Done b.
Proof.
  intros E. unfold ld8. simpl. destruct (Z.ltb_spec (Z.of_nat off + Z.of_nat i) 0); [lia |].
  replace (Z.to_nat (Z.of_nat off + Z.of_nat i)) with (off + i)%nat by lia. by rewrite E.
Qed.

(** The [n] bytes at offset [off]. *)
Definition slice (off n : nat) (l : list Z) : list Z := take n (drop off l).

Lemma slice_lookup off n l k : (k < n)%nat -> slice off n l !! k = l !! (off + k)%nat.
Proof. intros H. unfold slice. rewrite lookup_take_lt by done. apply lookup_drop. Qed.

Lemma slice_length off n l : (off + n <= length l)%nat -> length (slice off n l) = n.
Proof. intros H. unfold slice. rewrite length_take, length_drop. lia. Qed.

Lemma slice_u8 off n l : Forall is_u8 l -> Forall is_u8 (slice off n l).
Proof. intros H. by apply Forall_take, Forall_drop. Qed.

Lemma ld8_slice buf off n i k b :
  slice (off + i) n buf !! k = Some b ->
  ld8 (Ptr buf (Z.of_nat off)) (Z.of_nat i + Z.of_nat k) = Done b.
Proof.
  intros E. rewrite <- Nat2Z.inj_add. apply ld8_lookup.
  assert (k < n)%nat as Hk.
  { apply lookup_lt_Some in E. unfold slice in E. rewrite length_take in E. lia. }
  rewrite slice_lookup in E by done. rewrite <- E. f_equal. lia.
Qed.

(** [memcpy] of a slice of the packet. *)
Lemma memcpy_slice (m : meta) (a : nat) buf off i n :
  Forall is_u8 buf -> (off + i + n <= length buf)%nat -> (a + n <= length m)%nat ->
  memcpy n m (Z.of_nat a) (Ptr buf (Z.of_nat off)) (Z.of_nat i) =
    Done (list_inserts a (slice (off + i) n buf) m).
Proof.
  intros Hb Hl Hm. rewrite <- (slice_length (off + i) n buf) at 1 by lia.
  apply memcpy_eq.
  - by apply slice_u8.
  - rewrite slice_length; lia.
  - intros k b. apply ld8_slice.
Qed.

Lemma run_template body p hlen fr m m' c :
  body p fr c m = Done m' ->
  run_extract (Some (template body)) (Some p) hlen fr (PState m c) = Done (PState m' c).
Proof. intros E. unfold run_extract, template. orun. cbn [st_meta st_ctrl].
  rewrite E. by destruct c. Qed.

(** The metadata an IPv4 packet leaves: protocol numbers, address type, both
    addresses and both ports; every other byte is the caller's. *)
Definition ipv4_meta (pkt : list Z) (ihl proto : Z) (m : meta) : meta :=
  list_inserts 16 (slice (Z.to_nat (14 + 4 * ihl)) 4 pkt)
    (list_inserts 20 (slice 26 8 pkt)
      (list_inserts 10 [proto]
        (list_inserts 0 [XDP2_ADDR_TYPE_IPV4]
          (list_inserts 8 [0x08; 0x00] m)))).

Section run.
Context (pkt : list Z) (ihl proto : Z) (Hp : ipv4_ports_packet pkt ihl proto).
Context (m : meta) (Hm : meta_ok (lo_size SimpleHash.S) m).
Local Abbreviation cfg := SimpleHashSafe.cfg.
Local Abbreviation len := (Z.of_nat (length pkt)).

Lemma len_bounds : 38 <= len < 2 ^ 63.
Proof using Hp. pose proof (ip_ihl _ _ _ Hp). pose proof (ip_len _ _ _ Hp).
  destruct (ip_bytes _ _ _ Hp). lia. Qed.

Lemma meta_len : length m = 56%nat.
Proof using Hm. destruct Hm as [Hl _]. change (lo_size SimpleHash.S) with 56 in Hl. lia. Qed.

Lemma ld8_pkt (off i : nat) b :
  pkt !! (off + i)%nat = Some b -> ld8 (Ptr pkt (Z.of_nat off)) (Z.of_nat i) = Done b.
Proof using. apply ld8_lookup. Qed.

Lemma ld16_pkt (off i : nat) b0 b1 :
  pkt !! (off + i)%nat = Some b0 -> pkt !! (off + S i)%nat = Some b1 ->
  ld16 (Ptr pkt (Z.of_nat off)) (Z.of_nat i) = Done (b0 + 2 ^ 8 * b1).
Proof using.
  intros E0 E1. unfold ld16. rewrite (ld8_pkt _ _ _ E0). orun.
  replace (Z.of_nat i + 1) with (Z.of_nat (S i)) by lia. by rewrite (ld8_pkt _ _ _ E1).
Qed.

(** Ethernet *)
Lemma ether_step fuel fn c :
  parse_step SimpleHash.graph fuel cfg SimpleHash.ether_node (Ptr pkt 0) len 0 fn (PState m c) =
    Done (SNext (Some SimpleHash.ipv4_check_node) (Ptr pkt 14) (len - 14) 0 fn
      (PState (list_inserts 8 [0x08; 0x00] m)
         (set_var (var_set_last_node (Some SimpleHash.ether_node) (ctrl_var c)) c))).
Proof using Hp Hm.
  pose proof len_bounds as Hl. pose proof meta_len as Hml.
  assert (ld16 (Ptr pkt 0) 12 = Done (0x08 + 2 ^ 8 * 0x00)) as E12.
  { apply (ld16_pkt 0 12); [apply (ip_type0 _ _ _ Hp) | apply (ip_type1 _ _ _ Hp)]. }
  erewrite plain_step with (hlen := 14); [| reflexivity .. | | |].
  - cbn [pd_overlay xdp2_parse_ether plain_def]. rewrite u64_small by lia. reflexivity.
  - apply proto_hlen_fixed; [done | simpl; lia | lia].
  - apply run_template. rewrite E12. orun. unfold put16. cbn -[st16 Z.add].
    apply (st16_eq m 8); [done | done |]. lia.
  - unfold next_node. cbn -[ld16]. unfold ether_proto. rewrite E12. reflexivity.
Qed.

(** IPv4 check: the header is looked at but not passed *)
Lemma ihl_nibble : Z.shiftr (0x40 + ihl) 4 = 4 /\ Z.land (0x40 + ihl) 0xf = ihl.
Proof using Hp.
  pose proof (ip_ihl _ _ _ Hp) as Hi.
  assert (ihl ∈ seqZ 5 11) as Hin by (apply elem_of_seqZ; lia).
  revert Hin. apply (list.Forall_forall (fun x => Z.shiftr (0x40 + x) 4 = 4 /\ Z.land (0x40 + x) 0xf = x)).
  vm_compute. repeat constructor.
Qed.

Lemma ipv4_hlen f pd n :
  (f = ipv4_length \/ f = ipv4_length_check) -> op_len (pd_ops pd) = Some f ->
  pd_min_len pd = 20 -> n = len - 14 ->
  proto_hlen pd (Ptr pkt 14) n = Done (inr (4 * ihl)).
Proof using Hp.
  intros Hf E Hmin ->. pose proof len_bounds as Hl. pose proof (ip_ihl _ _ _ Hp) as Hi.
  pose proof (ip_len _ _ _ Hp) as Hlen. pose proof ihl_nibble as [Hv Hn].
  assert (ld8 (Ptr pkt 14) 0 = Done (0x40 + ihl)) as E14
    by (apply (ld8_pkt 14 0), (ip_vihl _ _ _ Hp)).
  assert (f (Ptr pkt 14) (len - 14) = Done (4 * ihl)) as Ef.
  { destruct Hf as [-> | ->]; unfold ipv4_length, ipv4_length_check, ipv4_len; rewrite E14; orun.
    - rewrite Hn. f_equal. lia.
    - rewrite Hv. simpl negb. cbv iota. rewrite Hn. f_equal. lia. }
  unfold proto_hlen. rewrite E, Hmin. cbv zeta. rewrite u64_small by lia.
  destruct (Z.ltb_spec (len - 14) 20); [lia |]. rewrite Ef. orun.
  rewrite u64_small by lia. destruct (Z.ltb_spec (len - 14) (4 * ihl)); [lia |].
  destruct (Z.ltb_spec (4 * ihl) 20); [lia | done].
Qed.

Lemma ipv4_check_step fuel fn m1 c :
  parse_step SimpleHash.graph fuel cfg SimpleHash.ipv4_check_node (Ptr pkt 14) (len - 14) 0 fn
    (PState m1 c) =
    Done (SNext (Some SimpleHash.ipv4_node) (Ptr pkt 14) (len - 14) 0 fn
      (PState m1 (set_var (var_set_last_node (Some SimpleHash.ipv4_check_node) (ctrl_var c)) c))).
Proof using Hp.
  erewrite plain_step; [| reflexivity .. | | |].
  - reflexivity.
  - eapply ipv4_hlen; [by right | done | done | done].
  - reflexivity.
  - reflexivity.
Qed.

Lemma ipv4_next c :
  next_node (XDP2_MAKE_PARSE_NODE xdp2_parse_ipv4 SimpleHash.ipv4_table
               (extract_op (XDP2_METADATA_TEMP_ipv4_addrs SimpleHash.S)))
    xdp2_parse_ipv4 (Ptr pkt 14) c = Done (inr (Some SimpleHash.ports_node)).
Proof using Hp.
  destruct (ip_frag0 _ _ _ Hp) as (f & Ef & Hf).
  assert (ld16 (Ptr pkt 14) 6 = Done (f + 2 ^ 8 * 0)) as E6
    by (apply (ld16_pkt 14 6); [done | apply (ip_frag1 _ _ _ Hp)]).
  assert (Z.land (f + 2 ^ 8 * 0) (bswap16 IP_OFFSET) = 0) as Hoff.
  { rewrite Z.add_0_r. change (bswap16 IP_OFFSET) with (Z.lor 0x1f 0xff00).
    rewrite Z.land_lor_distr_r, Hf. change 0xff00 with (Z.shiftl 0xff 8).
    assert (is_u8 f) as [Hf0 Hf1].
    { destruct (ip_bytes _ _ _ Hp) as [Hb _]. by eapply Forall_lookup_1 in Hb. }
    rewrite <- (Z.mod_small f (2 ^ 8)), <- Z.land_ones by lia.
    rewrite <- Z.land_assoc. change (Z.land (Z.ones 8) (Z.shiftl 255 8)) with 0.
    by rewrite Z.land_0_r. }
  assert (ipv4_proto (Ptr pkt 14) = Done proto) as E.
  { unfold ipv4_proto, ip_is_fragment. rewrite E6. orun. rewrite Hoff, andb_false_r.
    apply (ld8_pkt 14 9), (ip_proto23 _ _ _ Hp). }
  unfold next_node. cbn [pn_proto_table XDP2_MAKE_PARSE_NODE pd_ops xdp2_parse_ipv4 plain_def
    op_next_proto_keyin op_next_proto]. rewrite E. orun.
  by destruct (ip_ports _ _ _ Hp) as [-> | [-> | [-> | ->]]].
Qed.

Lemma ipv4_step fuel fn m1 c :
  length m1 = 56%nat ->
  parse_step SimpleHash.graph fuel cfg SimpleHash.ipv4_node (Ptr pkt 14) (len - 14) 0 fn
    (PState m1 c) =
    Done (SNext (Some SimpleHash.ports_node) (Ptr pkt (14 + 4 * ihl)) (len - 14 - 4 * ihl) 0 fn
      (PState (list_inserts 20 (slice 26 8 pkt)
                 (list_inserts 10 [proto] (list_inserts 0 [XDP2_ADDR_TYPE_IPV4] m1)))
         (set_var (var_set_last_node (Some SimpleHash.ipv4_node) (ctrl_var c)) c))).
Proof using Hp.
  intros Hl1. pose proof len_bounds as Hl. pose proof (ip_len _ _ _ Hp) as Hlen.
  pose proof (ip_ihl _ _ _ Hp) as Hi. destruct (ip_bytes _ _ _ Hp) as [Hb _].
  erewrite plain_step with (hlen := 4 * ihl); [| reflexivity .. | | |].
  - cbn [pd_overlay xdp2_parse_ipv4 plain_def]. rewrite u64_small by lia. reflexivity.
  - eapply ipv4_hlen; [by left | done | done | done].
  - apply run_template. unfold put8, put_bytes. cbn -[st8 memcpy ld8 Z.add].
    rewrite (st8_eq m1 0) by lia. orun.
    assert (ld8 (Ptr pkt 14) 9 = Done proto) as ->
      by apply (ld8_pkt 14 9), (ip_proto23 _ _ _ Hp).
    orun. rewrite (st8_eq _ 10) by (rewrite length_inserts; lia). orun.
    rewrite (u8_small proto).
    + apply (memcpy_slice _ 20 pkt 14 12); rewrite ?length_inserts; auto; lia.
    + eapply Forall_lookup_1 in Hb; [done | apply (ip_proto23 _ _ _ Hp)].
  - apply ipv4_next.
Qed.

Lemma ports_step fuel fn m1 c :
  length m1 = 56%nat ->
  parse_step SimpleHash.graph fuel cfg SimpleHash.ports_node (Ptr pkt (14 + 4 * ihl))
    (len - 14 - 4 * ihl) 0 fn (PState m1 c) =
    Done (SOut XDP2_STOP_OKAY 0
      (PState (list_inserts 16 (slice (Z.to_nat (14 + 4 * ihl)) 4 pkt) m1)
         (set_var (var_set_last_node (Some SimpleHash.ports_node) (ctrl_var c)) c))).
Proof using Hp.
  intros Hl1. pose proof len_bounds as Hl. pose proof (ip_len _ _ _ Hp) as Hlen.
  pose proof (ip_ihl _ _ _ Hp) as Hi. destruct (ip_bytes _ _ _ Hp) as [Hb _].
  eapply plain_leaf_step; [reflexivity .. | |].
  - apply proto_hlen_fixed; [done | simpl; lia | lia].
  - apply run_template. unfold put32. cbn -[st32 ld32 Z.add Z.mul].
    set (off := Z.to_nat (14 + 4 * ihl)).
    replace (14 + 4 * ihl) with (Z.of_nat off) by lia.
    assert (exists b0 b1 b2 b3, slice off 4 pkt = [b0; b1; b2; b3]) as (b0 & b1 & b2 & b3 & E).
    { pose proof (slice_length off 4 pkt ltac:(lia)) as Hs.
      destruct (slice off 4 pkt) as [| b0 [| b1 [| b2 [| b3 [|]]]]]; try discriminate. eauto. }
    pose proof (slice_u8 off 4 pkt Hb) as Hu. rewrite E in *.
    assert (forall k b, [b0; b1; b2; b3] !! k = Some b ->
              ld8 (Ptr pkt (Z.of_nat off)) (Z.of_nat k) = Done b) as Hld.
    { intros k b Hk. rewrite <- E in Hk. apply (ld8_slice pkt off 4 0 k b).
      by rewrite Nat.add_0_r. }
    assert (ld32 (Ptr pkt (Z.of_nat off)) 0 =
            Done ((b0 + 2 ^ 8 * b1) + 2 ^ 16 * (b2 + 2 ^ 8 * b3))) as ->.
    { unfold ld32, ld16.
      pose proof (Hld 0%nat b0 eq_refl) as E0. pose proof (Hld 1%nat b1 eq_refl) as E1.
      pose proof (Hld 2%nat b2 eq_refl) as E2. pose proof (Hld 3%nat b3 eq_refl) as E3.
      change (Z.of_nat 0) with 0 in E0. change (Z.of_nat 1) with (0 + 1) in E1.
      change (Z.of_nat 2) with (0 + 2) in E2. change (Z.of_nat 3) with (0 + 2 + 1) in E3.
      rewrite E0, E1, E2, E3. done. }
    orun. inversion_clear Hu as [| ? ? H0 Hu1]. inversion_clear Hu1 as [| ? ? H1 Hu2].
    inversion_clear Hu2 as [| ? ? H2 Hu3]. inversion_clear Hu3 as [| ? ? H3 _].
    apply (st32_eq m1 16); auto. lia.
Qed.
End run.

Lemma simple_hash_ipv4_run pkt ihl proto m c fuel :
  ipv4_ports_packet pkt ihl proto -> meta_ok (lo_size SimpleHash.S) m ->
  exists c', xdp2_parse SimpleHash.graph fuel SimpleHash.xdp2_parser_simple_hash_ether
               (Ptr pkt 0) (Z.of_nat (length pkt)) (PState m c) =
             Done (XDP2_STOP_OKAY, PState (ipv4_meta pkt ihl proto m) c').
Proof.
  intros Hp Hm. pose proof (meta_len m Hm) as Hl.
  rewrite xdp2_parse_generic by done. unfold __xdp2_parse.
  change (Z.to_nat _) with (S (S (S 252%nat))).
  change (prs_config _) with SimpleHashSafe.cfg.
  change (cfg_metameta_size _) with 0. change (prs_root_node _) with SimpleHash.ether_node.
  cbn [parse_loop]. orun.
  rewrite (ether_step pkt ihl proto Hp m Hm). cbn [parse_loop]. orun.
  rewrite (ipv4_check_step pkt ihl proto Hp). cbn [parse_loop]. orun.
  rewrite (ipv4_step pkt ihl proto Hp) by (by rewrite length_inserts). cbn [parse_loop]. orun.
  rewrite (ports_step pkt ihl proto Hp) by (by rewrite !length_inserts).
  eexists. reflexivity.
Qed.

(** C22: on every Ethernet/IPv4 packet that is not a later fragment and carries
    TCP, UDP, SCTP or DCCP, with any header length and options, the simple hash
    parser stops with [XDP2_STOP_OKAY] and stores exactly the EtherType, the
    address type, the IP protocol, the two addresses and the two ports. *)
Theorem simple_hash_ipv4_extracts pkt ihl proto m c fuel :
  ipv4_ports_packet pkt ihl proto -> meta_ok (lo_size SimpleHash.S) m ->
  exists c', xdp2_parse SimpleHash.graph fuel SimpleHash.xdp2_parser_simple_hash_ether
               (Ptr pkt 0) (Z.of_nat (length pkt)) (PState m c) =
             Done (XDP2_STOP_OKAY, PState (ipv4_meta pkt ihl proto m) c').
Proof. apply simple_hash_ipv4_run. Qed.

Lemma simple_hash_ipv4_extracts_witness :
  exists c', xdp2_parse SimpleHash.graph 100 SimpleHash.xdp2_parser_simple_hash_ether
               (Ptr udp_packet 0) (Z.of_nat (length udp_packet)) (PState (replicate 56 0) ctrl0) =
             Done (XDP2_STOP_OKAY,
                   PState (ipv4_meta udp_packet 5 IPPROTO_UDP (replicate 56 0)) c').
Proof.
  apply simple_hash_ipv4_extracts; [| apply (meta_zero_ok 56)].
  constructor; try reflexivity; try lia; [apply udp_packet_ok | by exists 0].
Defined.
