(* ===== verification/TlvScan.v ===== *)
(** * TLV processing as a scan followed by a fold

    [xdp2_parse_tlvs] interleaves finding the next TLV with running the nodes
    for it. Finding TLVs does not depend on what the nodes do: [scan_tlvs]
    lists the TLVs of a header and how the list ends, [process_tlvs] runs the
    nodes over such a list, and the loop of the code is their composition. *)

From stdpp Require Import base list gmap numbers.
From S2P Require Import Prelude FlagFields ParserTypes Parser ParserSafe ParserApi ParserProps Metadata Parsers ParsersSafe ParserMain ProtoDefs.

(** ** More fuel never changes a result

    The fuel of the model has no counterpart in the code. Results are ordered by
    "out of fuel is below everything"; every recursive function of the parser is
    monotone in its fuel for that order, so that whenever some fuel gives a result
    it is the result of the code. *)

Definition ole {A} (m m' : outcome A) : Prop := m = NoFuel \/ m = m'.

#[global] Instance ole_preorder {A} : PreOrder (@ole A).
Proof.
  split; [by right |]. intros a b c [-> | ->]; [by left |]. intros [-> | ->]; [by left | by right].
Qed.

Lemma ole_done {A} (m m' : outcome A) a : ole m m' -> m = Done a -> m' = Done a.
Proof. intros [-> | ->]; done. Qed.

Lemma ole_bind {A B} (m m' : outcome A) (f f' : A -> outcome B) :
  ole m m' -> (forall a, ole (f a) (f' a)) -> ole (m ≫= f) (m' ≫= f').
Proof. intros [-> | ->] Hf; [by left |]. destruct m'; [apply Hf | by right | by right]. Qed.

#[export] Hint Resolve ole_bind : xdp2.

(** Walk two copies of the same code in step. *)
Ltac ole_step :=
  match goal with
  | |- ole ?x ?x => reflexivity
  | H : forall _, _ |- ole _ _ => solve [apply H; assumption | apply H]
  | |- ole (_ ≫= _) (_ ≫= _) => apply ole_bind; [| intros]
  | |- ole (match ?x with _ => _ end) _ => destruct x
  | |- ole (let '(_, _) := ?x in _) _ => destruct x
  end.

Section mono.
Context {M : Type} (g : parse_graph M).

Lemma tlv_mono fuel : forall fuel', (fuel <= fuel')%nat ->
  (forall tsn d t hdr frame tl st,
     ole (xdp2_parse_one_tlv g fuel tsn d t hdr frame tl st)
         (xdp2_parse_one_tlv g fuel' tsn d t hdr frame tl st)) /\
  (forall id hdr hlen frame st,
     ole (xdp2_parse_tlvs g fuel id hdr hlen frame st)
         (xdp2_parse_tlvs g fuel' id hdr hlen frame st)) /\
  (forall tsn d cnt cp hlen frame st,
     ole (tlvs_loop g fuel tsn d cnt cp hlen frame st)
         (tlvs_loop g fuel' tsn d cnt cp hlen frame st)).
Proof.
  induction fuel as [| fuel IH]; intros [| fuel'] Hle; try lia.
  1, 2: split_and!; intros; by left.
  destruct (IH fuel' ltac:(lia)) as (H1 & H2 & H3).
  split_and!; intros; cbn [xdp2_parse_one_tlv xdp2_parse_tlvs tlvs_loop];
    repeat (cbv zeta; ole_step).
Qed.

Lemma process_ext_mono fuel fuel' id n pd hdr hlen frame st :
  (fuel <= fuel')%nat ->
  ole (process_ext g fuel id n pd hdr hlen frame st)
      (process_ext g fuel' id n pd hdr hlen frame st).
Proof.
  intros Hle. destruct (tlv_mono fuel fuel' Hle) as (_ & H2 & _).
  unfold process_ext. repeat ole_step.
Qed.

Lemma parse_step_mono fuel fuel' cfg id hdr len frame fn st :
  (fuel <= fuel')%nat ->
  ole (parse_step g fuel cfg id hdr len frame fn st)
      (parse_step g fuel' cfg id hdr len frame fn st).
Proof.
  intros Hle. pose proof (process_ext_mono fuel fuel') as Hpe.
  unfold parse_step. repeat (cbv zeta; first [ole_step | apply Hpe; done]).
Qed.

Lemma parse_loop_mono nodes fuel fuel' cfg next hdr len frame fn st :
  (fuel <= fuel')%nat ->
  ole (parse_loop g nodes fuel cfg next hdr len frame fn st)
      (parse_loop g nodes fuel' cfg next hdr len frame fn st).
Proof.
  intros Hle. pose proof (fun i h l fr n s => parse_step_mono fuel fuel' cfg i h l fr n s Hle) as Hs.
  revert next hdr len frame fn st.
  induction nodes as [| nodes IH]; intros; cbn [parse_loop]; repeat ole_step.
Qed.
End mono.

(** The result of a parse does not depend on the fuel of the model: if some
    fuel produces a result, every larger fuel produces the same one. *)
Theorem parse_fuel_independent {M} (g : parse_graph M) cfg root hdr len st fuel fuel' r :
  (fuel <= fuel')%nat ->
  __xdp2_parse g fuel cfg root hdr len st = Done r ->
  __xdp2_parse g fuel' cfg root hdr len st = Done r.
Proof. intros Hle. apply ole_done, parse_loop_mono, Hle. Qed.

Lemma parse_fuel_independent_witness :
  exists r, __xdp2_parse Big.graph 500 (prs_config Big.xdp2_parser_big_ether) Big.ether_node
    (Ptr udp_packet 0) (Z.of_nat (length udp_packet)) (PState big_meta0 ctrl0) = Done r.
Proof.
  eexists. eapply (parse_fuel_independent _ _ _ _ _ _ 100); [lia |]. vm_compute. reflexivity.
Defined.

(** A TLV found in a header: where it starts, its length and its type. *)
Record tlv_item := TlvItem { ti_ptr : ptr; ti_len : Z; ti_type : Z }.

Fixpoint scan_tlvs (n : nat) (d : xdp2_proto_tlvs_def) (max_tlvs cnt : Z) (cp : ptr) (hlen : Z)
    : outcome (list tlv_item * Z) :=
  match n with
  | O => NoFuel
  | S n' =>
      if hlen =? 0 then mret ([], XDP2_OKAY) else
      pad1 ← (if tlvs_pad1_enable d
              then b ← ld8 cp 0; mret (b =? tlvs_pad1_val d) else mret false);
      if (pad1 : bool) then scan_tlvs n' d max_tlvs cnt (padd cp 1) (hlen - 1) else
      eol ← (if tlvs_eol_enable d
             then b ← ld8 cp 0; mret (b =? tlvs_eol_val d) else mret false);
      if (eol : bool) then mret ([], XDP2_OKAY) else
      let cnt := u32 (cnt + 1) in
      if negb (max_tlvs =? 0) && (max_tlvs <? cnt) then mret ([], XDP2_STOP_OPTION_LIMIT) else
      if hlen <? u64 (s64 (tlvs_min_len d)) then mret ([], XDP2_STOP_TLV_LENGTH) else
      l ← match tlvs_len d with
          | None => mret (Some (s64 (tlvs_min_len d)))
          | Some f => l ← f cp hlen; mret (if (l =? 0) || (hlen <? u64 l) then None else Some l)
          end;
      match l with
      | None => mret ([], XDP2_STOP_TLV_LENGTH)
      | Some l =>
          type ← tlvs_type d cp;
          '(items, final) ← scan_tlvs n' d max_tlvs cnt (padd cp l) (u64 (hlen - l));
          mret (TlvItem cp l type :: items, final)
      end
  end.

Section process.
Context {M : Type} (g : parse_graph M).

(** The node for a TLV type: the table, then the wildcard. *)
Definition tlv_node_for (tsn : xdp2_parse_tlvs_node) (type : Z) : option tlvid :=
  let found := match tsn_tlv_proto_table tsn with
               | Some table => lookup_tlv_node type table
               | None => None
               end in
  match found with Some _ => found | None => tsn_tlv_wildcard_node tsn end.

Definition process_tlv (fuel : nat) (tsn : xdp2_parse_tlvs_node) (it : tlv_item) (frame : Z)
    (st : pstate M) : outcome (Z * pstate M) :=
  match tlv_node_for tsn (ti_type it) with
  | Some tlv =>
      tn ← get_tlv g (Some tlv);
      xdp2_parse_one_tlv g fuel tsn (tn_proto_tlv_def tn) tlv (ti_ptr it) frame (ti_len it) st
  | None => mret (tsn_unknown_tlv_type_ret tsn, st)
  end.

Fixpoint process_tlvs (fuel : nat) (tsn : xdp2_parse_tlvs_node) (items : list tlv_item)
    (final frame : Z) (st : pstate M) : outcome (Z * pstate M) :=
  match items with
  | [] => mret (final, st)
  | it :: items' =>
      '(ret, st) ← process_tlv fuel tsn it frame st;
      if negb (ret =? XDP2_OKAY) then mret (ret, st)
      else process_tlvs fuel tsn items' final frame st
  end.

Lemma process_tlv_mono fuel fuel' tsn it frame st :
  (fuel <= fuel')%nat ->
  ole (process_tlv fuel tsn it frame st) (process_tlv fuel' tsn it frame st).
Proof.
  intros Hle. destruct (tlv_mono g fuel fuel' Hle) as (H1 & _).
  unfold process_tlv. repeat ole_step.
Qed.

Lemma tlvs_loop_scan n F : forall fuel tsn d cnt cp hlen items final frame st,
  (fuel <= F)%nat ->
  scan_tlvs n d (tsn_max_tlvs tsn) cnt cp hlen = Done (items, final) ->
  ole (tlvs_loop g fuel tsn d cnt cp hlen frame st) (process_tlvs F tsn items final frame st).
Proof.
  induction n as [| n IH]; intros fuel tsn d cnt cp hlen items final frame st Hle Hscan; [done |].
  destruct fuel as [| fuel]; [by left |]. cbn [tlvs_loop scan_tlvs] in *.
  destruct (hlen =? 0); [by injection Hscan as <- <-; right |].
  destruct (if tlvs_pad1_enable d then _ else _) as [[] | |]; [| | done | done].
  { eapply IH; [lia | exact Hscan]. }
  destruct (if tlvs_eol_enable d then _ else _) as [[] | |]; [| | done | done].
  { injection Hscan as <- <-. by right. }
  revert Hscan. orun. cbv zeta.
  destruct (negb _ && _); [by intros [= <- <-]; right |].
  destruct (hlen <? _); [by intros [= <- <-]; right |].
  destruct (match tlvs_len d with Some _ => _ | None => _ end) as [[l |] | |];
    [| by intros [= <- <-]; right | done | done].
  destruct (tlvs_type d cp) as [type | |]; [| done | done].
  destruct (scan_tlvs n d _ _ _ _) as [[items' final'] | |] eqn:Es; [| done | done].
  intros [= <- <-]. cbn [process_tlvs].
  apply (ole_bind _ _ (fun '(ret, st) => _) (fun '(ret, st) => _)).
  - apply (process_tlv_mono fuel F tsn (TlvItem cp l type) frame st). lia.
  - intros [ret st']. destruct (negb _); [by right |]. eapply IH; [lia | exact Es].
Qed.
End process.

(** Consecutive TLVs inside the [hlen] bytes at [cp]: in order, not empty, not
    overlapping. *)
Inductive tlvs_in : ptr -> Z -> list tlv_item -> Prop :=
| ti_nil cp hlen : 0 <= hlen -> tlvs_in cp hlen []
| ti_skip cp hlen k items : 0 <= k <= hlen -> tlvs_in (padd cp k) (hlen - k) items ->
    tlvs_in cp hlen items
| ti_cons cp hlen l type items : 1 <= l <= hlen -> tlvs_in (padd cp l) (hlen - l) items ->
    tlvs_in cp hlen (TlvItem cp l type :: items).

Section scan.
Context (d : xdp2_proto_tlvs_def) (lb : Z) (Hd : TlvsDefSafe d lb).

Lemma scan_tlvs_spec n max_tlvs : forall cnt cp hlen,
  in_bounds cp hlen -> hlen < 2 ^ 63 -> (Z.to_nat hlen < n)%nat ->
  wp true (scan_tlvs n d max_tlvs cnt cp hlen) (fun r =>
    tlvs_in cp hlen r.1 /\
    (0 <= cnt -> cnt + hlen < 2 ^ 32 -> max_tlvs <> 0 -> cnt <= max_tlvs ->
     cnt + Z.of_nat (length r.1) <= max_tlvs)).
Proof using Hd.
  induction n as [| n IH]; intros cnt cp hlen Hb Hlt Hn; [lia |]. cbn [scan_tlvs].
  pose proof Hb as (_ & H0 & _).
  assert (forall f, wp true (mret (A := list tlv_item * Z) ([], f)) (fun r =>
    tlvs_in cp hlen r.1 /\
    (0 <= cnt -> cnt + hlen < 2 ^ 32 -> max_tlvs <> 0 -> cnt <= max_tlvs ->
     cnt + Z.of_nat (length r.1) <= max_tlvs))) as Hend.
  { intros f. apply wp_ret. split; [by constructor | simpl; lia]. }
  destruct (Z.eqb_spec hlen 0); [apply Hend |].
  eapply wp_bind; [apply (marker_wp true _ _ _ hlen); [done | lia] |]. intros [] _.
  { eapply wp_mono; [apply IH; [apply in_bounds_padd; [done | lia] | lia | lia] |].
    intros [items f] [Hi Hc]. split; [apply (ti_skip _ _ 1); [lia | done] |]. simpl in *. lia. }
  eapply wp_bind; [apply (marker_wp true _ _ _ hlen); [done | lia] |]. intros [] _; [apply Hend |].
  cbv zeta. destruct (negb (max_tlvs =? 0) && _) eqn:Emax; [apply Hend |].
  pose proof (tds_min_len (d := d) (lb := lb)) as Hmin.
  unfold s64. rewrite sext_small by lia. rewrite u64_small by lia.
  destruct (Z.ltb_spec hlen (tlvs_min_len d)); [apply Hend |].
  eapply (wp_bind _ _ _ (fun o => forall l, o = Some l -> 1 <= l <= hlen)).
  { destruct (tlvs_len d) as [f |] eqn:Ef; [| apply wp_ret; intros l [= <-]; lia].
    eapply wp_bind; [eapply (tds_len (lb := lb) _ Ef); eauto; lia |]. intros l Hl. apply wp_ret.
    intros l'. by apply tlv_len_checked. }
  intros [l |] Hl; [| apply Hend]. specialize (Hl l eq_refl).
  eapply (wp_bind _ _ _ (fun _ => True)); [eapply (tds_type (lb := lb)); eauto; lia |].
  intros type _. rewrite u64_small by lia.
  eapply wp_bind; [apply IH; [apply in_bounds_padd; [done | lia] | lia | lia] |].
  intros [items f] [Hi Hc]. apply wp_ret. simpl in Hi, Hc |- *.
  split; [by constructor |]. intros Hc0 Hc1 Hm Hcm.
  assert (u32 (cnt + 1) = cnt + 1) as Eu by (unfold u32; apply Z.mod_small; lia).
  rewrite Eu in *. apply andb_false_iff in Emax as [E | E].
  - apply negb_false_iff, Z.eqb_eq in E. lia.
  - apply Z.ltb_ge in E. specialize (Hc ltac:(lia) ltac:(lia) Hm E). lia.
Qed.
End scan.

(** C3: for any TLVs definition that keeps its promises, the TLVs of a header
    form a list of consecutive, non-empty, non-overlapping ranges inside it, of
    at most [max_tlvs] entries when a limit is set (for headers below 4 GB), and
    whenever the loop of [xdp2_parse_tlvs] returns, it has run the nodes of
    exactly these TLVs in order up to the first that fails. *)
Theorem tlv_walk_refines {M} (g : parse_graph M) tsn d lb cp hlen :
  TlvsDefSafe d lb -> in_bounds cp hlen -> hlen < 2 ^ 63 ->
  exists items final,
    scan_tlvs (S (Z.to_nat hlen)) d (tsn_max_tlvs tsn) 0 cp hlen = Done (items, final) /\
    tlvs_in cp hlen items /\
    (hlen < 2 ^ 32 -> 0 < tsn_max_tlvs tsn -> Z.of_nat (length items) <= tsn_max_tlvs tsn) /\
    forall fuel frame st r,
      tlvs_loop g fuel tsn d 0 cp hlen frame st = Done r ->
      process_tlvs g fuel tsn items final frame st = Done r.
Proof.
  intros Hd Hb Hlt.
  destruct (wp_strict_done _ _ (scan_tlvs_spec d lb Hd (S (Z.to_nat hlen)) (tsn_max_tlvs tsn) 0 cp hlen
              Hb Hlt ltac:(lia))) as ([items final] & E & Hin & Hc).
  exists items, final. split_and!; [done | done | simpl in Hc; lia |].
  intros fuel frame st r. apply ole_done. by eapply tlvs_loop_scan.
Qed.

(** TCP options: a pad byte, a maximum segment size, the end of the list. *)
Lemma tlv_walk_refines_witness :
  exists items final,
    scan_tlvs 7 tcp_tlvs_def 0 0 (Ptr [1; 2; 4; 5; 180; 0] 0) 6 = Done (items, final) /\
    tlvs_in (Ptr [1; 2; 4; 5; 180; 0] 0) 6 items.
Proof.
  destruct (tlv_walk_refines (ParseGraph (M := unit) ∅ ∅) (ParseTlvsNode None 0 0 XDP2_OKAY None)
              tcp_tlvs_def 20 (Ptr [1; 2; 4; 5; 180; 0] 0) 6) as (items & final & E & Hin & _).
  - apply _.
  - split_and!; simpl; [lia | lia | lia | repeat constructor; unfold is_u8; lia].
  - lia.
  - exists items, final. split; [exact E | exact Hin].
Defined.
