(* ===== verification/FastParser.v ===== *)
(** * The fast parser

    [xdp2_parse_validate_fast] (what it establishes about the graph) and the
    relation between [__xdp2_parse_fast] and [__xdp2_parse]. *)

From stdpp Require Import base list gmap numbers.
From S2P Require Import Prelude FlagFields ParserTypes Parser ParserSafe ParserApi ProtoDefs Metadata.
From S2P Require Import Parsers ParsersSafe.

(** ** Validation *)

Section validate.
Context {M : Type} (g : parse_graph M).

(** [b] is an entry of the protocol table of [a]. *)
Definition table_edge (a b : nodeid) : Prop :=
  exists n table v, g_nodes g !! a = Some n /\ pn_proto_table n = Some table /\
                    (v, Some b) ∈ table.

(** Node [x] passes the checks and its table stays within [vis]. *)
Definition validated (vis : list nodeid) (x : nodeid) : Prop :=
  (exists n, g_nodes g !! x = Some n /\ fast_node_ok n = true) /\
  forall y, table_edge x y -> y ∈ vis.

(** What a successful visit adds to the array of nodes. *)
Record visit_post (vis vis' : list nodeid) : Prop := {
  vp_mono : vis ⊆ vis';
  vp_len : (length vis <= length vis')%nat;
  vp_max : (length vis' <= NUM_FAST_NODES)%nat;
  vp_new x : x ∈ vis' -> x ∉ vis -> validated vis' x }.

Lemma validated_mono vis vis' x : vis ⊆ vis' -> validated vis x -> validated vis' x.
Proof. intros Hs [Hn He]. split; [done |]. intros y Hy. by apply Hs, He. Qed.

Lemma visit_post_refl vis : (length vis <= NUM_FAST_NODES)%nat -> visit_post vis vis.
Proof. intros H. by constructor. Qed.

Lemma visit_post_trans v1 v2 v3 : visit_post v1 v2 -> visit_post v2 v3 -> visit_post v1 v3.
Proof.
  intros [M1 L1 X1 N1] [M2 L2 X2 N2]. constructor; [set_solver | lia | done |].
  intros x Hx Hn. destruct (decide (x ∈ v2)) as [Hin | Hin]; [| by apply N2].
  eapply validated_mono; [exact M2 | by apply N1].
Qed.

(** The loop over a protocol table. *)
Lemma entries_wp (visit : list nodeid -> nodeid -> outcome (option (list nodeid))) es vis :
  (length vis <= NUM_FAST_NODES)%nat ->
  (forall vis0 b, (length vis <= length vis0 <= NUM_FAST_NODES)%nat ->
     (exists v, (v, Some b) ∈ es) ->
     wp true (visit vis0 b) (fun r => forall v1, r = Some v1 -> visit_post vis0 v1 /\ b ∈ v1)) ->
  wp true ((fix entries_loop (es : list (Z * option nodeid)) (vis : list nodeid) :=
              match es with
              | [] => mret (Some vis)
              | (_, None) :: es' => entries_loop es' vis
              | (_, Some id') :: es' =>
                  r ← visit vis id';
                  match r with
                  | None => mret None
                  | Some vis' => entries_loop es' vis'
                  end
              end) es vis)
     (fun r => forall v1, r = Some v1 ->
        visit_post vis v1 /\ forall v b, (v, Some b) ∈ es -> b ∈ v1).
Proof.
  revert vis. induction es as [| [v [b |]] es IH]; intros vis Hmax Hv.
  - apply wp_ret. intros v1 [= <-]. split; [by apply visit_post_refl |].
    intros v b H. by apply not_elem_of_nil in H.
  - eapply wp_bind. { apply Hv; [lia |]. exists v. by left. }
    intros [v1 |] Hr; [| by apply wp_ret]. destruct (Hr v1 eq_refl) as [Hp Hb].
    eapply wp_mono; [apply IH |].
    + apply Hp.
    + intros vis0 b' Hl [w Hw]. apply Hv; [pose proof (vp_len _ _ Hp); lia |]. exists w. by right.
    + intros [v2 |] H2 v3 [= <-]. destruct (H2 v2 eq_refl) as [Hp2 Hall].
      split; [by eapply visit_post_trans |]. intros w c Hc.
      apply elem_of_cons in Hc as [[= -> ->] | Hc]; [by apply (vp_mono _ _ Hp2) | by eapply Hall].
  - eapply wp_mono; [apply IH; [done |] |].
    + intros vis0 b' Hl [w Hw]. apply Hv; [lia |]. exists w. by right.
    + intros r Hr v1 E. destruct (Hr v1 E) as [Hp Hall]. split; [done |].
      intros w c Hc. apply elem_of_cons in Hc as [? | Hc]; [done | by eapply Hall].
Qed.

Context (Hptr : forall a b, table_edge a b -> is_Some (g_nodes g !! b)).

Lemma validate_node_wp depth : forall vis id,
  is_Some (g_nodes g !! id) -> (length vis <= NUM_FAST_NODES)%nat ->
  (S NUM_FAST_NODES - length vis <= depth)%nat ->
  wp true (validate_parse_fast_node g depth vis id)
     (fun r => forall vis', r = Some vis' -> visit_post vis vis' /\ id ∈ vis').
Proof using Hptr.
  induction depth as [| depth IH]; intros vis id [n Hn] Hmax Hd;
    [unfold NUM_FAST_NODES in *; lia |].
  cbn [validate_parse_fast_node]. rewrite (get_node_Some _ _ _ Hn). orun.
  destruct (decide (id ∈ vis)) as [Hin | Hin].
  { apply wp_ret. intros v [= <-]. split; [by apply visit_post_refl | done]. }
  destruct (decide (NUM_FAST_NODES <= length vis)%nat) as [Hful | Hful]; [by apply wp_ret |].
  cbv zeta. destruct (negb (fast_node_ok n)) eqn:Eok; [by apply wp_ret |].
  apply negb_false_iff in Eok.
  assert (length (vis ++ [id]) = S (length vis)) as Hlen by (rewrite length_app; simpl; lia).
  assert (forall vis', visit_post (vis ++ [id]) vis' ->
            (forall b, table_edge id b -> b ∈ vis') -> visit_post vis vis' /\ id ∈ vis') as Hfin.
  { intros vis' [Hm Hl Hx Hnew] Hedge. split; [| set_solver].
    constructor; [set_solver | lia | done |]. intros x Hx' Hxn.
    destruct (decide (x = id)) as [-> | Hne]; [| apply Hnew; set_solver].
    split; [by exists n | done]. }
  destruct (pn_proto_table n) as [table |] eqn:Et.
  - eapply wp_mono; [apply (entries_wp (validate_parse_fast_node g depth)) |].
    + lia.
    + intros vis0 b Hl [v Hv]. apply IH; [| lia | lia].
      eapply (Hptr id). by exists n, table, v.
    + intros r Hr vis' E. destruct (Hr vis' E) as [Hp Hall]. apply Hfin; [done |].
      intros b (n' & table' & v & Hn' & Et' & Hv). simplify_eq. by eapply Hall.
  - apply wp_ret. intros vis' [= <-]. apply Hfin; [apply visit_post_refl; lia |].
    intros b (n' & table' & v & Hn' & Et' & _). simplify_eq.
Qed.
End validate.

(** C32: validation always returns, and when it accepts, the configuration has
    no exit nodes, counters or keys, and every node reachable from the root
    through protocol tables passes the checks of [validate_parse_fast_node]; at
    most 64 nodes are reachable. *)
Theorem validate_fast_sound {M} (g : parse_graph M) cfg root calloc_ok :
  (forall a b, table_edge g a b -> is_Some (g_nodes g !! b)) -> is_Some (g_nodes g !! root) ->
  exists ok, xdp2_parse_validate_fast g calloc_ok cfg root = Done ok /\
    (ok = true ->
       cfg_okay_node cfg = None /\ cfg_fail_node cfg = None /\ cfg_atencap_node cfg = None /\
       cfg_num_counters cfg = 0 /\ cfg_num_keys cfg = 0 /\
       exists vis, (length vis <= NUM_FAST_NODES)%nat /\
         forall x, rtc (table_edge g) root x ->
           x ∈ vis /\ exists n, g_nodes g !! x = Some n /\ fast_node_ok n = true).
Proof.
  intros Hptr Hroot. unfold xdp2_parse_validate_fast.
  destruct calloc_ok; simpl negb; cbv iota; [| by exists false].
  destruct (cfg_okay_node cfg), (cfg_fail_node cfg), (cfg_atencap_node cfg);
    try by exists false.
  destruct (Z.eqb_spec (cfg_num_counters cfg) 0), (Z.eqb_spec (cfg_num_keys cfg) 0);
    try by exists false.
  destruct (wp_strict_done _ _ (validate_node_wp g Hptr (S NUM_FAST_NODES) [] root Hroot
              ltac:(simpl; lia) ltac:(simpl; lia))) as ([vis |] & E & Hp);
    rewrite E; [| by exists false].
  exists true. split; [done |]. intros _. split_and!; try done.
  destruct (Hp vis eq_refl) as [[Hm Hl Hx Hnew] Hin]. exists vis. split; [done |].
  assert (forall x, rtc (table_edge g) root x -> x ∈ vis) as Hcl.
  { intros x. apply (rtc_ind_r (fun x => x ∈ vis)); [done |]. intros y z _ Hyz Hy.
    by apply (Hnew y Hy (not_elem_of_nil y)). }
  intros x Hrx. split; [by apply Hcl |].
  by apply (Hnew x (Hcl x Hrx) (not_elem_of_nil x)).
Qed.

Lemma graph_ok_edges {M} (g : parse_graph M) cfg nk Im :
  graph_ok g cfg nk Im -> forall a b, table_edge g a b -> is_Some (g_nodes g !! b).
Proof.
  intros Hg a b (n & table & v & Hn & Ht & Hv).
  exact (no_table _ _ _ _ _ (go_nodes _ _ _ _ Hg _ _ Hn) _ _ _ Ht Hv b eq_refl).
Qed.

(** The simple hash parser is accepted. *)
Lemma validate_fast_sound_witness :
  exists vis, (length vis <= NUM_FAST_NODES)%nat /\
    forall x, rtc (table_edge SimpleHash.graph) SimpleHash.ether_node x ->
      x ∈ vis /\ exists n, g_nodes SimpleHash.graph !! x = Some n /\ fast_node_ok n = true.
Proof.
  destruct (validate_fast_sound SimpleHash.graph
              (prs_config SimpleHash.xdp2_parser_simple_hash_ether) SimpleHash.ether_node true)
    as (ok & E & H).
  - eapply graph_ok_edges, SimpleHashSafe.simple_graph_ok.
  - eexists. reflexivity.
  - destruct ok; [| by vm_compute in E]. apply H. reflexivity.
Defined.
