(* ===== verification/FastEquiv.v ===== *)
(** * When the fast parser agrees with the generic one

    [__xdp2_parse_fast] does not record [last_node] and [ret_code] and leaves
    out a number of checks. On graphs where those checks cannot fire, and with
    callbacks that do not look at the two fields, both parsers leave the same state
    up to the two fields and return the same code, except for unknown protocols. *)

From stdpp Require Import base list gmap numbers.
From S2P Require Import Prelude FlagFields ParserTypes Parser ParserSafe ParserApi ProtoDefs Metadata.
From S2P Require Import Parsers ParserProps FastParser.

(** ** States up to the fields the fast parser does not maintain *)

Definition erase_var (v : xdp2_ctrl_var_data) : xdp2_ctrl_var_data :=
  var_set_last_node None (var_set_ret_code 0 v).
Definition erase_ctrl (c : xdp2_ctrl_data) : xdp2_ctrl_data := set_var (erase_var (ctrl_var c)) c.

Definition ctrl_eqv (c c' : xdp2_ctrl_data) : Prop := erase_ctrl c = erase_ctrl c'.
Definition st_eqv {M} (st st' : pstate M) : Prop :=
  st_meta st = st_meta st' /\ ctrl_eqv (st_ctrl st) (st_ctrl st').

#[global] Instance ctrl_eqv_equiv : Equivalence ctrl_eqv.
Proof. unfold ctrl_eqv. split; repeat intro; congruence. Qed.
#[global] Instance st_eqv_equiv {M} : Equivalence (@st_eqv M).
Proof.
  unfold st_eqv. split.
  - intros st. split; reflexivity.
  - intros a b [? ?]. split; by symmetry.
  - intros a b c [? ?] [? ?]. split; etrans; eauto.
Qed.

Lemma ctrl_eqv_inv c c' :
  ctrl_eqv c c' -> ctrl_pkt c = ctrl_pkt c' /\ ctrl_key c = ctrl_key c' /\
    var_encaps (ctrl_var c) = var_encaps (ctrl_var c').
Proof. destruct c as [[] ? ?], c' as [[] ? ?]. by intros [=]; subst. Qed.

(** Updates of the other fields, and of the erased ones on one side. *)
#[global] Instance upd_encaps_proper {M} f :
  Proper (st_eqv ==> st_eqv) (@upd_var M (fun v => var_set_encaps (f (var_encaps v)) v)).
Proof.
  intros [m [[] p k]] [m' [[] p' k']] [Hm Hc]. simpl in Hm. injection Hc as -> -> -> -> -> -> ->.
  by split.
Qed.
#[global] Instance upd_levels_proper {M} f :
  Proper (st_eqv ==> st_eqv) (@upd_var M (fun v => var_set_tlv_levels (f (var_tlv_levels v)) v)).
Proof.
  intros [m [[] p k]] [m' [[] p' k']] [Hm Hc]. simpl in Hm. injection Hc as -> -> -> -> -> -> ->.
  by split.
Qed.
Lemma upd_last_node_eqv {M} n (st st' : pstate M) :
  st_eqv st st' -> st_eqv (upd_var (var_set_last_node n) st) st'.
Proof.
  destruct st as [m [[] p k]], st' as [m' [[] p' k']]. intros [Hm Hc]. simpl in Hm.
  injection Hc as -> -> -> -> -> -> ->. by split.
Qed.
Lemma upd_ret_code_eqv {M} n (st st' : pstate M) :
  st_eqv st st' -> st_eqv (upd_var (var_set_ret_code n) st) st'.
Proof.
  destruct st as [m [[] p k]], st' as [m' [[] p' k']]. intros [Hm Hc]. simpl in Hm.
  injection Hc as -> -> -> -> -> -> ->. by split.
Qed.

(** ** Outcomes in lock step *)

Definition oeqv {A B} (R : A -> B -> Prop) (m : outcome A) (m' : outcome B) : Prop :=
  match m, m' with
  | Done a, Done b => R a b
  | Crash, Crash => True
  | NoFuel, NoFuel => True
  | _, _ => False
  end.

Lemma oeqv_bind {A B A' B'} (R : A -> B -> Prop) (R' : A' -> B' -> Prop) m m' f f' :
  oeqv R m m' -> (forall a b, R a b -> oeqv R' (f a) (f' b)) -> oeqv R' (m ≫= f) (m' ≫= f').
Proof. destruct m, m'; simpl; auto; done. Qed.

Lemma oeqv_same {A A' B'} (R' : A' -> B' -> Prop) (m : outcome A) f f' :
  (forall a, oeqv R' (f a) (f' a)) -> oeqv R' (m ≫= f) (m ≫= f').
Proof. destruct m; simpl; auto. Qed.

Definition ret_eqv {M} (r r' : Z * pstate M) : Prop := r.1 = r'.1 /\ st_eqv r.2 r'.2.

Section equiv.
Context {M : Type} (g : parse_graph M).

(** Callbacks that do not look at [last_node] and [ret_code]. *)
Definition blind {A} (f : option ptr -> Z -> M -> Z -> xdp2_ctrl_data -> A) : Prop :=
  forall hdr n m fr c c', ctrl_eqv c c' -> f hdr n m fr c = f hdr n m fr c'.

Record ops_blind (ops : xdp2_parse_node_ops M) : Prop := {
  ob_extract f : extract_metadata ops = Some f -> blind f;
  ob_handler f : handler ops = Some f -> blind f }.

Lemma run_extract_eqv ops hdr n fr st st' :
  ops_blind ops -> st_eqv st st' ->
  oeqv st_eqv (run_extract (extract_metadata ops) hdr n fr st)
              (run_extract (extract_metadata ops) hdr n fr st').
Proof.
  intros Ho [Hm Hc]. unfold run_extract. destruct (extract_metadata ops) as [f |] eqn:E.
  - rewrite Hm, (ob_extract _ Ho f E _ _ _ _ _ _ Hc). apply oeqv_same. intros [m k]. split; [done |].
    destruct (st_ctrl st) as [[] ? ?], (st_ctrl st') as [[] ? ?].
    unfold ctrl_eqv in *. simpl in *. injection Hc as ? ? ? ? ? ? ?. subst. done.
  - by split.
Qed.

Lemma run_handler_eqv ops hdr n fr st st' :
  ops_blind ops -> st_eqv st st' ->
  oeqv ret_eqv (run_handler (handler ops) hdr n fr st) (run_handler (handler ops) hdr n fr st').
Proof.
  intros Ho [Hm Hc]. unfold run_handler. destruct (handler ops) as [f |] eqn:E.
  - rewrite Hm, (ob_handler _ Ho f E _ _ _ _ _ _ Hc). apply oeqv_same. intros [[r m] k].
    split; [done |]. split; [done |].
    destruct (st_ctrl st) as [[] ? ?], (st_ctrl st') as [[] ? ?].
    unfold ctrl_eqv in *. simpl in *. injection Hc as ? ? ? ? ? ? ?. subst. done.
  - by repeat split.
Qed.

(** All callbacks of the graph are blind. *)
Record graph_blind : Prop := {
  gb_node id n : g_nodes g !! id = Some n -> ops_blind (pn_ops n);
  gb_tlv id tn : g_tlvs g !! id = Some tn -> ops_blind (tn_ops tn);
  gb_ff id n fn v ops : g_nodes g !! id = Some n -> pn_ext n = PNFlagFields fn ->
    (v, Some ops) ∈ ffn_flag_fields_proto_table fn -> ops_blind ops }.
Context (Hblind : graph_blind).

Lemma callbacks_eqv {A} ops hdr n fr st st' (k k' : Z -> pstate M -> outcome (Z * A)) R :
  ops_blind ops -> st_eqv st st' ->
  (forall ret st1 st2, st_eqv st1 st2 -> oeqv R (k ret st1) (k' ret st2)) ->
  oeqv R (st ← run_extract (extract_metadata ops) hdr n fr st;
          '(ret, st) ← run_handler (handler ops) hdr n fr st; k ret st)
         (st ← run_extract (extract_metadata ops) hdr n fr st';
          '(ret, st) ← run_handler (handler ops) hdr n fr st; k' ret st).
Proof.
  intros Ho Hst Hk. eapply oeqv_bind; [by apply run_extract_eqv |]. intros st1 st2 H12.
  eapply oeqv_bind; [by apply run_handler_eqv |]. intros [r1 s1] [r2 s2] [Hr Hs]. simpl in *. subst.
  by apply Hk.
Qed.

Lemma ret_eqv_ret r (st st' : pstate M) : st_eqv st st' -> oeqv ret_eqv (mret (r, st)) (mret (r, st')).
Proof. by split. Qed.

Lemma tlv_eqv fuel :
  (forall tsn d t hdr frame tl st st', st_eqv st st' ->
     oeqv ret_eqv (xdp2_parse_one_tlv g fuel tsn d t hdr frame tl st)
                  (xdp2_parse_one_tlv g fuel tsn d t hdr frame tl st')) /\
  (forall id hdr hlen frame st st', st_eqv st st' ->
     oeqv ret_eqv (xdp2_parse_tlvs g fuel id hdr hlen frame st)
                  (xdp2_parse_tlvs g fuel id hdr hlen frame st')) /\
  (forall tsn d cnt cp hlen frame st st', st_eqv st st' ->
     oeqv ret_eqv (tlvs_loop g fuel tsn d cnt cp hlen frame st)
                  (tlvs_loop g fuel tsn d cnt cp hlen frame st')).
Proof using Hblind.
  induction fuel as [| fuel (IH1 & IH2 & IH3)]; [done |].
  split_and!; intros; cbn [xdp2_parse_one_tlv xdp2_parse_tlvs tlvs_loop].
  - destruct (match d with Some _ => _ | None => _ end).
    { destruct (tsn_tlv_wildcard_node tsn); [by apply IH1 | by apply ret_eqv_ret]. }
    unfold get_tlv. orun. destruct (g_tlvs g !! t) as [tn |] eqn:Et; [| done].
    apply callbacks_eqv; [by eapply gb_tlv | done |]. intros ret s1 s2 H12.
    destruct (negb _); [by apply ret_eqv_ret |].
    apply (oeqv_bind ret_eqv).
    { destruct (tn_nested_node tn); [| by apply ret_eqv_ret].
      apply oeqv_same. intros d'. apply oeqv_same. intros off. cbv zeta.
      eapply oeqv_bind; [apply IH2; by apply (upd_levels_proper (fun l => u8 (l + 1))) |].
      intros [r3 s3] [r4 s4] [Hr Hs]. simpl in *. subst. split; [done |].
      by apply (upd_levels_proper (fun l => u8 (l - 1))). }
    intros [r3 s3] [r4 s4] [Hr Hs]. simpl in Hr, Hs. subst.
    destruct (negb _); [by apply ret_eqv_ret |].
    destruct (tn_overlay_table tn); [| by apply ret_eqv_ret].
    apply oeqv_same. intros d'. apply oeqv_same. intros type.
    destruct (lookup_tlv_node type l); [by apply IH1 |].
    destruct (tn_overlay_wildcard_node tn); [by apply IH1 | by apply ret_eqv_ret].
  - apply oeqv_same. intros n. apply oeqv_same. intros [tsn d]. apply oeqv_same. intros off.
    by apply IH3.
  - destruct (hlen =? 0); [by apply ret_eqv_ret |].
    apply oeqv_same. intros []; [by apply IH3 |].
    apply oeqv_same. intros []; [by apply ret_eqv_ret |]. cbv zeta.
    destruct (negb _ && _); [by apply ret_eqv_ret |].
    destruct (hlen <? _); [by apply ret_eqv_ret |].
    apply oeqv_same. intros [tl |]; [| by apply ret_eqv_ret].
    apply oeqv_same. intros type.
    apply (oeqv_bind ret_eqv).
    { destruct (match match tsn_tlv_proto_table tsn with Some _ => _ | None => _ end with
                | Some _ => _ | None => _ end); [| by apply ret_eqv_ret].
      apply oeqv_same. intros tn. by apply IH1. }
    intros [r3 s3] [r4 s4] [Hr Hs]. simpl in Hr, Hs. subst.
    destruct (negb _); [by apply ret_eqv_ret | by apply IH3].
Qed.

Lemma flag_fields_loop_eqv n : forall i table ffs flags hdr frame st st',
  (forall v ops, (v, Some ops) ∈ table -> ops_blind ops) -> st_eqv st st' ->
  oeqv st_eqv (flag_fields_loop (M := M) n i table ffs flags hdr frame st)
              (flag_fields_loop n i table ffs flags hdr frame st').
Proof using.
  induction n as [| n IH]; intros i table ffs flags hdr frame st st' Ht Hst;
    cbn [flag_fields_loop]; [done |].
  apply oeqv_same. intros off. apply (oeqv_bind st_eqv); [| intros; by apply IH].
  destruct (off <? 0); [done |].
  destruct (lookup_flag_field_node i table) as [ops |] eqn:El; [| done].
  unfold lookup_flag_field_node in El.
  destruct (assoc_first i table) as [[o |] |] eqn:Ea; try discriminate.
  injection El as ->. apply assoc_first_elem in Ea. specialize (Ht _ _ Ea).
  apply oeqv_same. intros f.
  eapply oeqv_bind; [by apply run_extract_eqv |]. intros st1 st2 H12.
  eapply oeqv_bind; [by apply run_handler_eqv |]. by intros [r1 s1] [r2 s2] [_ Hs].
Qed.

Lemma xdp2_parse_flag_fields_eqv id n hdr hlen frame st st' :
  g_nodes g !! id = Some n -> st_eqv st st' ->
  oeqv ret_eqv (xdp2_parse_flag_fields n hdr hlen frame st)
               (xdp2_parse_flag_fields n hdr hlen frame st').
Proof using Hblind.
  intros Hn Hst. unfold xdp2_parse_flag_fields. apply oeqv_same. intros pd.
  destruct (pn_ext n) as [| |fn |] eqn:Ee; try done. destruct (pd_ext pd); try done.
  apply oeqv_same. intros flags. apply oeqv_same. intros ioff. cbv zeta.
  eapply oeqv_bind; [apply flag_fields_loop_eqv; [intros v ops Hv; eapply gb_ff; eauto | done] |].
  intros s1 s2 H. by apply ret_eqv_ret.
Qed.

(** ** Graphs on which the omitted checks cannot fire *)

Record fast_agrees (n : xdp2_parse_node M) : Prop := {
  fa_ok : fast_node_ok n = true;
  fa_array : pn_node_type n <> XDP2_NODE_TYPE_ARRAY;
  fa_flags : Z.land (pn_flags n) 1 = 0;
  fa_pd pd : pn_proto_def n = Some pd ->
    0 <= pd_min_len pd < 2 ^ 16 /\
    (** a length operation never returns less than the minimum *)
    (forall f p len r, op_len (pd_ops pd) = Some f -> f p len = Done r ->
       - 2 ^ 63 <= r < 0 \/ pd_min_len pd <= r < 2 ^ 63) /\
    (** tables are searched with [next_proto] *)
    (is_Some (pn_proto_table n) -> is_Some (op_next_proto (pd_ops pd))) /\
    (** a leaf is no encapsulation *)
    (pn_proto_table n = None -> pn_wildcard_node n = None -> pd_encap pd = false) }.

Context (Hagree : forall id n, g_nodes g !! id = Some n -> fast_agrees n).
Context (cfg : xdp2_parser_config).
Context (Hcfg : cfg_okay_node cfg = None /\ cfg_fail_node cfg = None /\
                cfg_atencap_node cfg = None).

(** A protocol that is not in the table of a node: the generic parser returns the
    code of the node, the fast one always [XDP2_STOP_OKAY]. *)
Definition unknown_code (ret : Z) : Prop :=
  exists id n, g_nodes g !! id = Some n /\ is_Some (pn_proto_table n) /\ pn_wildcard_node n = None /\ ret = pn_unknown_ret n.
Definition code_eqv (ret ret' : Z) : Prop := ret = ret' \/ (unknown_code ret /\ ret' = XDP2_STOP_OKAY).

Definition step_eqv (r r' : step_result (M := M)) : Prop :=
  match r, r' with
  | SOut ret _ st, SOut ret' _ st' => code_eqv ret ret' /\ st_eqv st st'
  | SNext nx hdr len fr fn st, SNext nx' hdr' len' fr' fn' st' =>
      (nx = nx' \/ nx = None) /\ hdr = hdr' /\ len = len' /\ fr = fr' /\ fn = fn' /\ st_eqv st st' /\
      0 <= len < 2 ^ 63
  | _, _ => False
  end.

Lemma out_eqv ret fr s1 s2 : st_eqv s1 s2 -> oeqv step_eqv (mret (SOut ret fr s1)) (mret (SOut ret fr s2)).
Proof using. intros H. split; [by left | exact H]. Qed.

Lemma next_eqv nx nx' hdr len fr fn s1 s2 : nx = nx' \/ nx = None -> st_eqv s1 s2 -> 0 <= len < 2 ^ 63 ->
  oeqv step_eqv (mret (SNext nx hdr len fr fn s1)) (mret (SNext nx' hdr len fr fn s2)).
Proof using. intros Hn Hs Hl. split_and!; done || lia. Qed.

(** Both parsers compute the same header length, or stop. *)
Lemma hlen_eqv n pd hdr len (k k' : Z -> outcome (step_result (M := M))) s1 s2 fr :
  fast_agrees n -> pn_proto_def n = Some pd -> 0 <= len < 2 ^ 63 -> st_eqv s1 s2 ->
  (forall hlen, 0 <= hlen <= len -> oeqv step_eqv (k hlen) (k' hlen)) ->
  oeqv step_eqv
    (chk ← proto_hlen pd hdr len;
     match chk with inl ret => mret (SOut ret fr s1) | inr hlen => k hlen end)
    (if len <? u64 (pd_min_len pd) then mret (SOut XDP2_STOP_LENGTH fr s2) else
     hlen ← match op_len (pd_ops pd) with Some f => f hdr len | None => mret (pd_min_len pd) end;
     if len <? u64 hlen then mret (SOut XDP2_STOP_LENGTH fr s2) else k' hlen).
Proof using.
  intros Hfa Hpd Hl Hst Hk. destruct (fa_pd _ Hfa pd Hpd) as (H0 & Hlen & _).
  unfold proto_hlen. cbv zeta. rewrite (u64_small (pd_min_len pd)) by lia.
  destruct (Z.ltb_spec len (pd_min_len pd)); [by apply out_eqv |].
  destruct (op_len (pd_ops pd)) as [f |] eqn:Ef; orun.
  - destruct (f hdr len) as [r | |] eqn:Er; [| done | done].
    destruct (Z.ltb_spec len (u64 r)); [by apply out_eqv |].
    destruct (Hlen f hdr len r eq_refl Er) as [Hr | Hr]; [rewrite u64_neg in *; lia |].
    destruct (Z.ltb_spec r (pd_min_len pd)); [lia |]. apply Hk.
    rewrite u64_small in *; lia.
  - rewrite u64_small by lia. destruct (Z.ltb_spec len (pd_min_len pd)); [lia |]. apply Hk. lia.
Qed.

(** The rest of an iteration, after the header and its extensions. *)
Lemma tail_eqv id n pd hdr len hlen frame fn s1 s2 :
  g_nodes g !! id = Some n -> fast_agrees n -> pn_proto_def n = Some pd -> 0 <= hlen <= len -> len < 2 ^ 63 ->
  st_eqv s1 s2 ->
  oeqv step_eqv
    (if is_null (pn_proto_table n) && is_null (pn_wildcard_node n)
     then mret (SOut XDP2_STOP_OKAY frame s1) else
     '(enc, st) ← (if pd_encap pd then enter_encap g cfg frame fn s1
                   else mret (inr (frame, fn), s1));
     match enc with
     | inl ret => mret (SOut ret frame st)
     | inr (frame, fn) =>
         nxt ← next_node n pd hdr (st_ctrl st);
         match nxt with
         | inl ret => mret (SOut ret frame st)
         | inr next =>
             let '(hdr, len) := if pd_overlay pd then (hdr, len)
                                else (padd hdr hlen, u64 (len - hlen)) in
             if (len =? 0) && negb (Z.land (pn_flags n) 1 =? 0)
             then mret (SOut XDP2_STOP_OKAY frame st)
             else mret (SNext next hdr len frame fn st)
         end
     end)
    (let st' := if pd_encap pd
                then upd_var (fun v => var_set_encaps (u8 (var_encaps v + 1)) v) s2 else s2 in
     if pd_encap pd && (cfg_max_encaps cfg <? var_encaps (ctrl_var (st_ctrl st')))
     then mret (SOut XDP2_STOP_ENCAP_DEPTH frame st') else
     let '(frame, fn) := if pd_encap pd && (fn <? cfg_max_frames cfg)
                         then (frame + cfg_frame_size cfg, fn + 1) else (frame, fn) in
     nxt ← match pn_proto_table n with
           | None => mret (inr None)
           | Some table =>
               f ← deref (op_next_proto (pd_ops pd));
               type ← f hdr;
               mret (if type <? 0 then inl type else inr (lookup_node type table))
           end;
     match nxt with
     | inl ret => mret (SOut ret frame st')
     | inr next =>
         match (match next with Some _ => next | None => pn_wildcard_node n end) with
         | None => mret (SOut XDP2_STOP_OKAY frame st')
         | Some next =>
             let '(hdr, len) := if pd_overlay pd then (hdr, len)
                                else (padd hdr hlen, u64 (len - hlen)) in
             mret (SNext (Some next) hdr len frame fn st')
         end
     end).
Proof using Hcfg.
  intros Hn Hfa Hpd Hhl Hlt Hst. destruct (fa_pd _ Hfa pd Hpd) as (_ & _ & Htab & Hleaf).
  pose proof (fa_ok _ Hfa) as Hok. unfold fast_node_ok in Hok.
  destruct (post_handler _); [done |]. rewrite Hpd in Hok.
  destruct (op_next_proto_keyin (pd_ops pd)) eqn:Ekey; [done |].
  (* the choice of the next node *)
  assert (forall fr' fn' st st', st_eqv st st' ->
    is_null (pn_proto_table n) && is_null (pn_wildcard_node n) = false ->
    oeqv step_eqv
      (nxt ← next_node n pd hdr (st_ctrl st);
       match nxt with
       | inl ret => mret (SOut ret fr' st)
       | inr next =>
           let '(hdr, len) := if pd_overlay pd then (hdr, len)
                              else (padd hdr hlen, u64 (len - hlen)) in
           if (len =? 0) && negb (Z.land (pn_flags n) 1 =? 0)
           then mret (SOut XDP2_STOP_OKAY fr' st)
           else mret (SNext next hdr len fr' fn' st)
       end)
      (nxt ← match pn_proto_table n with
             | None => mret (inr None)
             | Some table =>
                 f ← deref (op_next_proto (pd_ops pd));
                 type ← f hdr;
                 mret (if type <? 0 then inl type else inr (lookup_node type table))
             end;
       match nxt with
       | inl ret => mret (SOut ret fr' st')
       | inr next =>
           match (match next with Some _ => next | None => pn_wildcard_node n end) with
           | None => mret (SOut XDP2_STOP_OKAY fr' st')
           | Some next =>
               let '(hdr, len) := if pd_overlay pd then (hdr, len)
                                  else (padd hdr hlen, u64 (len - hlen)) in
               mret (SNext (Some next) hdr len fr' fn' st')
           end
       end)) as Hnext.
  { intros fr' fn' st st' Hst' Hnl. unfold next_node. rewrite Ekey, (fa_flags _ Hfa). cbv zeta.
    destruct (pn_proto_table n) as [table |] eqn:Etab.
    - destruct (Htab ltac:(eauto)) as [f Ef]. rewrite Ef. orun.
      destruct (f hdr) as [type | |] eqn:Et; [| done | done].
      destruct (type <? 0) eqn:Eneg; [by apply out_eqv |]. destruct (lookup_node type table) eqn:El.
      { destruct (pd_overlay pd); rewrite andb_false_r; apply next_eqv; (by left) || done || (rewrite ?u64_small; lia). }
      destruct (pn_wildcard_node n) as [wn |] eqn:Ew; orun.
      + rewrite ?Eneg, ?El; orun.
        destruct (pd_overlay pd); rewrite andb_false_r; apply next_eqv; (by right) || done || (rewrite ?u64_small; lia).
      + split; [| done]. right. split; [| done]. exists id, n. split_and!; [done | by rewrite Etab | done | done].
    - simpl in Hnl. destruct (pn_wildcard_node n) as [w |]; [| done]. orun.
      destruct (op_next_proto (pd_ops pd)), (pd_overlay pd);
        rewrite andb_false_r; apply next_eqv; (by left) || done || (rewrite ?u64_small; lia). }
  destruct (is_null (pn_proto_table n) && is_null (pn_wildcard_node n)) eqn:Enull.
  { apply andb_true_iff in Enull as [E1 E2].
    destruct (pn_proto_table n); [done |]. destruct (pn_wildcard_node n); [done |].
    rewrite Hleaf by done. by apply out_eqv. }
  destruct (pd_encap pd) eqn:Ee; [| by apply Hnext].
  unfold enter_encap. destruct Hcfg as (_ & _ & ->). orun.
  change (negb (XDP2_OKAY =? XDP2_OKAY)) with false. cbv zeta iota. cbn [andb].
  pose proof (upd_encaps_proper (fun e => u8 (e + 1)) _ _ Hst) as Henc.
  destruct (ctrl_eqv_inv _ _ (proj2 Henc)) as (_ & _ & ->).
  destruct (_ <? _); [by apply out_eqv |].
  destruct (fn <? cfg_max_frames cfg); (apply Hnext; [exact Henc | done]).
Qed.

Lemma process_ext_eqv fuel id n pd hdr hlen frame s1 s2 :
  g_nodes g !! id = Some n -> fast_agrees n -> pn_proto_def n = Some pd -> st_eqv s1 s2 ->
  oeqv ret_eqv (process_ext g fuel id n pd hdr hlen frame s1)
    (match pn_node_type n with
     | XDP2_NODE_TYPE_TLVS => xdp2_parse_tlvs g fuel id hdr (u64 hlen) frame s2
     | XDP2_NODE_TYPE_FLAG_FIELDS => xdp2_parse_flag_fields n hdr (u64 hlen) frame s2
     | _ => mret (XDP2_OKAY, s2)
     end).
Proof using Hblind.
  intros Hn Hfa Hpd Hst. pose proof (fa_ok _ Hfa) as Hok. pose proof (fa_array _ Hfa) as Hna.
  unfold fast_node_ok in Hok. destruct (post_handler _); [done |]. rewrite Hpd in Hok.
  destruct (op_next_proto_keyin _); [done |]. unfold process_ext.
  destruct (pn_node_type n).
  - by apply ret_eqv_ret.
  - apply bool_decide_eq_true in Hok. rewrite decide_True by done. by apply tlv_eqv.
  - apply bool_decide_eq_true in Hok. rewrite decide_True by done.
    by eapply xdp2_parse_flag_fields_eqv.
  - done.
Qed.

Lemma step_eqv_fast fuel id hdr len frame fn s1 s2 :
  0 <= len < 2 ^ 63 -> st_eqv s1 s2 ->
  oeqv step_eqv (parse_step g fuel cfg id hdr len frame fn s1)
                (fast_step g fuel cfg id hdr len frame fn s2).
Proof using Hblind Hagree Hcfg.
  intros Hl Hst. unfold parse_step, fast_step, get_node. orun.
  destruct (g_nodes g !! id) as [n |] eqn:Hn; [| done].
  destruct (pn_proto_def n) as [pd |] eqn:Hpd; [| done]. cbv zeta.
  pose proof (Hagree _ _ Hn) as Hfa.
  pose proof (upd_last_node_eqv (Some id) _ _ Hst) as Hst1.
  eapply (hlen_eqv n pd hdr len); [done | done | done | done |]. intros hlen Hh.
  eapply oeqv_bind; [apply run_extract_eqv; [by eapply gb_node | done] |]. intros s3 s4 H34.
  eapply oeqv_bind; [apply run_handler_eqv; [by eapply gb_node | done] |].
  intros [r5 s5] [r6 s6] [_ H56].
  eapply oeqv_bind; [by apply process_ext_eqv |].
  intros [r7 s7] [r8 s8] [Hr H78]. simpl in Hr, H78. subst.
  destruct (negb _); [by apply out_eqv |].
  pose proof (fa_ok _ Hfa) as Hok. unfold fast_node_ok in Hok.
  destruct (post_handler (pn_ops n)) eqn:Ep; [done |]. unfold run_handler. orun.
  eapply tail_eqv; done || lia.
Qed.

Lemma loop_eqv nodes fuel : forall next hdr len frame fn s1 s2 ret st,
  0 <= len < 2 ^ 63 -> st_eqv s1 s2 ->
  parse_loop g nodes fuel cfg next hdr len frame fn s1 = Done (ret, st) ->
  ret <> XDP2_STOP_MAX_NODES ->
  exists ret' st', fast_loop g (S nodes) fuel cfg next hdr len frame fn s2 = Done (ret', st') /\
              code_eqv ret ret' /\ st_eqv st st'.
Proof using Hblind Hagree Hcfg.
  destruct Hcfg as (Hc1 & Hc2 & Hc3).
  assert (forall ret ret' fr s s' r, code_eqv ret ret' -> st_eqv s s' -> parse_out g cfg ret fr s = Done r ->
            exists r' st', mret (M := outcome) (ret', s') = Done (r', st') /\ code_eqv r.1 r' /\ st_eqv r.2 st') as Hout.
  { intros ret ret' fr s s' r Hr Hs. unfold parse_out. rewrite Hc1, Hc2.
    destruct (XDP2_CODE_IS_OKAY ret); intros [= <-]; exists ret', s';
      (split_and!; [done | done | by apply upd_ret_code_eqv]). }
  induction nodes as [| nodes IH]; intros next hdr len frame fn s1 s2 ret st Hl Hst E Hret;
    revert E; cbn [parse_loop fast_loop]; orun; (destruct next as [id |]; [| done]);
    pose proof (step_eqv_fast fuel id hdr len frame fn s1 s2 Hl Hst) as Hstep;
    destruct (parse_step _ _ _ _ _ _ _ _ _) as [r1 | |], (fast_step _ _ _ _ _ _ _ _ _) as [r2 | |];
    try done; destruct r1 as [ret1 fr1 t1 | nx1 h1 l1 f1 n1 t1],
                       r2 as [ret2 fr2 t2 | nx2 h2 l2 f2 n2 t2]; try done; simpl in Hstep.
  1, 3: destruct Hstep as [Hc Ht]; intros E; exact (Hout _ _ _ _ _ _ Hc Ht E).
  - by intros [= <- _].
  - destruct Hstep as (Hnx & <- & <- & <- & <- & Ht & Hl1). intros E. destruct Hnx as [<- | ->]; [by eapply IH |].
    destruct nodes; discriminate E.
Qed.
End equiv.

(** C4: refinement of the generic parser by the fast one. Consider a graph whose
    nodes pass the checks of the fast parser's validation, where no node is an array
    node, has the flag for empty payloads, or is a leaf that counts as an
    encapsulation, where tables come with [next_proto] and length operations return
    at least the minimum or a negative code ([fast_agrees]); callbacks do not look
    at [last_node] and [ret_code], and there are no okay, fail and at-encap nodes.
    Every parse of the generic parser that does not run out of nodes is reproduced
    by the fast parser, with the same metadata and control data up to [last_node]
    and [ret_code]. The code is the same too, except that the fast parser returns
    [XDP2_STOP_OKAY] where the generic one returns the [unknown_ret] of a node, for
    a protocol that is not in its table. *)
Theorem fast_refines_generic {M} (g : parse_graph M) cfg root hdr len st fuel ret st1 :
  graph_blind g -> (forall id n, g_nodes g !! id = Some n -> fast_agrees n) ->
  cfg_okay_node cfg = None /\ cfg_fail_node cfg = None /\ cfg_atencap_node cfg = None ->
  0 <= len < 2 ^ 63 ->
  __xdp2_parse g fuel cfg root hdr len st = Done (ret, st1) -> ret <> XDP2_STOP_MAX_NODES ->
  exists ret2 st2,
    __xdp2_parse_fast g (S (Z.to_nat (cfg_max_nodes cfg))) fuel cfg root hdr len st
      = Done (ret2, st2) /\ st_eqv st1 st2 /\
    (ret2 = ret \/ (unknown_code g ret /\ ret2 = XDP2_STOP_OKAY)).
Proof.
  intros Hb Ha Hc Hl E Hr.
  destruct (loop_eqv g Hb Ha cfg Hc (Z.to_nat (cfg_max_nodes cfg)) fuel _ _ _ _ _ _ st _ _ Hl ltac:(reflexivity) E Hr) as (r & s2 & E2 & Hcode & Hs).
  exists r, s2. split_and!; [exact E2 | exact Hs |]. destruct Hcode as [-> | ?]; [by left | by right].
Qed.

(** Ethernet followed by the first four bytes of IPv4 as a leaf. *)
Definition two_node_graph : parse_graph meta :=
  ParseGraph
    {[1%positive := XDP2_MAKE_PARSE_NODE xdp2_parse_ether [(bswap16 ETH_P_IP, Some 2%positive)]
        (extract_op (XDP2_METADATA_TEMP_ether_noaddrs SimpleHash.S));
      2%positive := XDP2_MAKE_LEAF_PARSE_NODE xdp2_parse_ports
        (extract_op (XDP2_METADATA_TEMP_ports SimpleHash.S))]} ∅.

Lemma extract_op_blind {M} (f : extract_metadata_t M) : blind f -> ops_blind (extract_op f).
Proof. intros H. constructor; intros f' [= <-]. done. Qed.

(** Templates see the control data only through the packet data. *)
Lemma template_blind (f : ptr -> Z -> xdp2_ctrl_data -> meta -> outcome meta) :
  (forall p fr c c' m, ctrl_pkt c = ctrl_pkt c' -> f p fr c m = f p fr c' m) -> blind (template f).
Proof.
  intros Hf hdr n m fr c c' Hc. apply ctrl_eqv_inv in Hc as (Hp & Hk & _). unfold template.
  destruct hdr as [p |]; [| done]. simpl. by rewrite (Hf p fr c c' m Hp), Hk.
Qed.

Lemma two_node_graph_cases id n :
  g_nodes two_node_graph !! id = Some n ->
  fast_agrees n /\ ops_blind (pn_ops n) /\ pn_ext n = PNPlain.
Proof.
  unfold two_node_graph. cbn [g_nodes]. intros [[<- <-] | [_ [<- <-]%lookup_singleton_Some]]%lookup_insert_Some; split_and!;
    try reflexivity; try (apply extract_op_blind, template_blind; done).
  all: constructor; [reflexivity | discriminate | reflexivity |]; intros pd [= <-]; split_and!; try done;
    intros [? [=]]; by eauto.
Qed.

Lemma fast_refines_generic_witness :
  exists ret2 st2,
    __xdp2_parse_fast two_node_graph 256 100 XDP2_PARSER_CONFIG_DEFAULTS 1%positive
      (Ptr udp_packet 0) 38 (PState (replicate 120 0) ctrl0) = Done (ret2, st2) /\
    (ret2 = XDP2_STOP_OKAY \/ (unknown_code two_node_graph XDP2_STOP_OKAY /\ ret2 = XDP2_STOP_OKAY)).
Proof.
  eassert (__xdp2_parse two_node_graph 100 XDP2_PARSER_CONFIG_DEFAULTS 1%positive
      (Ptr udp_packet 0) 38 (PState (replicate 120 0) ctrl0) = Done (XDP2_STOP_OKAY, _)) as E
    by (vm_compute; reflexivity).
  eapply fast_refines_generic in E as (ret2 & st2 & E2 & _ & Hret).
  - exists ret2, st2. split; [exact E2 | exact Hret].
  - constructor.
    + intros id n H. by apply two_node_graph_cases in H as (_ & ? & _).
    + intros id tn H. cbn [g_tlvs two_node_graph] in H. by rewrite lookup_empty in H.
    + intros id n fn v ops H Hx. apply two_node_graph_cases in H as (_ & _ & H). congruence.
  - intros id n H. by apply two_node_graph_cases in H as (? & _).
  - done.
  - lia.
  - done.
Defined.

(** An EtherType that is not in the table: the generic parser returns the code that
    [XDP2_MAKE_PARSE_NODE] sets, the fast one does not. *)
Definition other_packet : list Z := eth_hdr 0x12 0x34 ++ replicate 24 0.

Lemma fast_unknown_proto_okay :
  let st := PState (replicate 120 0) ctrl0 in
  fst <$> __xdp2_parse two_node_graph 100 XDP2_PARSER_CONFIG_DEFAULTS 1%positive (Ptr other_packet 0) 38 st = Done XDP2_STOP_UNKNOWN_PROTO /\
  fst <$> __xdp2_parse_fast two_node_graph 256 100 XDP2_PARSER_CONFIG_DEFAULTS 1%positive (Ptr other_packet 0) 38 st = Done XDP2_STOP_OKAY.
Proof. split; vm_compute; reflexivity. Qed.
