(* ===== verification/ParserLimits.v ===== *)
(** * Where the parser does not do what its interface says

    Behaviours of [parser.c] outside the conditions of the safety and
    termination theorems, each stated as the code has it. *)

From stdpp Require Import base list gmap numbers.
From S2P Require Import Prelude FlagFields ParserTypes Parser ParserApi ParserSafe ParserMain.
From S2P Require Import ProtoDefs Metadata Parsers ParserProps.

(** A node with a protocol table searched by [next_proto] and a wildcard
    node. When the next protocol is not in the table, the wildcard is chosen,
    the table is then searched a second time and its failure overwrites the
    choice; the loop goes on with NULL and dereferences it. *)
Theorem wildcard_with_table_crashes {M} (g : parse_graph M) fuel cfg nodes id n pd hdr len hlen
    frame fn st f type table w :
  g_nodes g !! id = Some n -> pn_proto_def n = Some pd ->
  pn_node_type n = XDP2_NODE_TYPE_PLAIN -> pn_ops n = null_ops -> pn_flags n = 0 ->
  pd_encap pd = false -> proto_hlen pd hdr len = Done (inr hlen) ->
  op_next_proto_keyin (pd_ops pd) = None -> op_next_proto (pd_ops pd) = Some f ->
  f hdr = Done type -> 0 <= type ->
  pn_proto_table n = Some table -> lookup_node type table = None ->
  pn_wildcard_node n = Some w ->
  parse_loop g (S nodes) fuel cfg (Some id) hdr len frame fn st = Crash.
Proof.
  intros Hn Hpd Hty Hops Hfl He Hhl Hk Hf Hft Ht Htab Hl Hw.
  cbn [parse_loop]. orun. unfold parse_step. rewrite (get_node_Some _ _ _ Hn). orun.
  rewrite Hpd. orun. cbv zeta. rewrite Hhl, Hops, He, Hfl. unfold process_ext, next_node.
  rewrite Hty, Htab, Hw, Hk, Hf, Hft. orun. change (XDP2_OKAY =? XDP2_OKAY) with true.
  destruct (Z.ltb_spec type 0); [lia |]. rewrite Hl. simpl negb.
  unfold null_ops, run_extract, run_handler. cbn [extract_metadata handler post_handler]. orun.
  cbn [negb Z.eqb XDP2_OKAY is_null andb].
  destruct (pd_overlay pd); rewrite andb_false_r; by destruct nodes.
Qed.

(** An AUTONEXT-style node with a table as well: Ethernet with an empty table
    and itself as wildcard. *)
Definition wildcard_graph : parse_graph unit :=
  ParseGraph {[1%positive := ParseNode XDP2_NODE_TYPE_PLAIN XDP2_STOP_UNKNOWN_PROTO 0 0
    (Some xdp2_parse_ether) null_ops (Some []) (Some 1%positive) PNPlain]} ∅.

Lemma wildcard_with_table_crashes_witness :
  parse_loop wildcard_graph 1 0 XDP2_PARSER_CONFIG_DEFAULTS (Some 1%positive) (Ptr (eth_hdr 8 0) 0)
    14 0 0 (PState tt ctrl0) = Crash.
Proof.
  eapply (wildcard_with_table_crashes wildcard_graph 0 _ 0 1%positive _ xdp2_parse_ether _ 14 14);
    try reflexivity. by vm_compute.
Defined.

(** A TLVs node with a wildcard whose table leads to a TLV definition that
    a TLV is too short for. The node is replaced by the wildcard but the
    definition is not, so the length test fails again, for ever: no amount of
    fuel makes the loop of [xdp2_parse_tlvs] return. *)
Theorem short_tlv_with_wildcard_diverges {M} (g : parse_graph M) fuel tsn d cnt cp hlen frame st
    w t tn td table tl type f :
  tsn_max_tlvs tsn = 0 -> 0 < hlen < 2 ^ 63 ->
  tlvs_pad1_enable d = false -> tlvs_eol_enable d = false ->
  1 <= tlvs_min_len d <= hlen ->
  tlvs_len d = Some f -> f cp hlen = Done tl -> 1 <= tl <= hlen -> tlvs_type d cp = Done type ->
  tsn_tlv_proto_table tsn = Some table -> lookup_tlv_node type table = Some t ->
  g_tlvs g !! t = Some tn -> tn_proto_tlv_def tn = Some td -> tl < tlvd_min_len td ->
  tsn_tlv_wildcard_node tsn = Some w ->
  tlvs_loop g fuel tsn d cnt cp hlen frame st = NoFuel.
Proof.
  intros Hmax Hh Hp He Hmin Hlf Hl Htl Hty Htab Hlk Ht Htd Hs Hw.
  destruct fuel as [| fuel]; [done |]. cbn [tlvs_loop].
  destruct (Z.eqb_spec hlen 0); [lia |]. rewrite Hp, He, Hmax. orun. simpl negb. cbn [andb]. cbv zeta.
  unfold s64. rewrite sext_small by lia. rewrite u64_small by lia.
  destruct (Z.ltb_spec hlen (tlvs_min_len d)); [lia |]. rewrite Hlf, Hl. orun.
  rewrite u64_small by lia. destruct (Z.eqb_spec tl 0), (Z.ltb_spec hlen tl); try lia. simpl orb. cbv iota.
  rewrite Hty, Htab, Hlk. rewrite (get_tlv_Some _ _ _ Ht), Htd.
  rewrite (one_tlv_short_diverges g fuel tsn td w); [done | | done].
  rewrite u64_small; lia.
Qed.

(** TLVs of a type byte and a length byte, one of which is defined with four
    bytes at least, and a wildcard that takes any TLV. *)
Definition short_tlvs_def : xdp2_proto_tlvs_def :=
  ProtoTlvsDef (Some (fun p _ => ld8 p 1)) (fun p => ld8 p 0) (fun _ => mret 0) 0 0 false false 2.
Definition short_tlvs_graph : parse_graph unit :=
  ParseGraph ∅ {[1%positive := ParseTlvNode (Some (ProtoTlvDef 4 None None)) null_ops None None None 0;
                 2%positive := ParseTlvNode (Some xdp2_parse_tlv_null) null_ops None None None 0]}.
Definition short_tlvs_node : xdp2_parse_tlvs_node :=
  ParseTlvsNode (Some [(7, Some 1%positive)]) 0 0 XDP2_OKAY (Some 2%positive).

Lemma short_tlv_with_wildcard_diverges_witness :
  tlvs_loop short_tlvs_graph 1000 short_tlvs_node short_tlvs_def 0 (Ptr [7; 2] 0) 2 0
    (PState tt ctrl0) = NoFuel.
Proof.
  eapply (short_tlv_with_wildcard_diverges short_tlvs_graph 1000 short_tlvs_node short_tlvs_def 0
            (Ptr [7; 2] 0) 2 0 _ 2%positive 1%positive); try reflexivity; by vm_compute.
Defined.

(** The code a length operation returns to stop a parse never reaches the
    caller. A negative result is converted to [size_t] in the comparison with
    the remaining length, so every such code is reported as
    [XDP2_STOP_LENGTH]; the test that would have returned it is dead. *)
Theorem negative_length_code_lost pd hdr len f r :
  0 <= pd_min_len pd <= len -> len < 2 ^ 63 ->
  op_len (pd_ops pd) = Some f -> f hdr len = Done r -> - 2 ^ 63 <= r < 0 ->
  proto_hlen pd hdr len = Done (inl XDP2_STOP_LENGTH).
Proof.
  intros Hl Hlt Hf Hr Hn. unfold proto_hlen. cbv zeta. rewrite u64_small by lia.
  destruct (Z.ltb_spec len (pd_min_len pd)); [lia |]. rewrite Hf, Hr. orun.
  rewrite u64_neg by lia. destruct (Z.ltb_spec len (2 ^ 64 + r)); [done | lia].
Qed.

(** The ARP length operation on a request for a protocol it does not handle. *)
Lemma negative_length_code_lost_witness :
  proto_hlen xdp2_parse_arp (Ptr (replicate 28 0) 0) 28 = Done (inl XDP2_STOP_LENGTH).
Proof.
  eapply (negative_length_code_lost xdp2_parse_arp (Ptr (replicate 28 0) 0) 28);
    [by vm_compute | by vm_compute | reflexivity | reflexivity | by vm_compute].
Defined.

(** ** Concrete packets and graphs *)

(** [xdp2_parser_big_hash_ether] parses into one frame, but the Ethernet
    parser is configured for five. On an IP-in-IP packet the second IPv4 header
    is stored in a second frame, behind the end of the metadata. *)
Theorem big_parse_ether_one_frame_overflow :
  let pkt := eth_hdr 8 0 ++ ipv4_hdr 0x45 IPPROTO_IPIP ++ ipv4_hdr 0x45 IPPROTO_UDP ++
             [0; 80; 0; 90] in
  Big.xdp2_parser_big_parse_ether 1000 ctrl0 (Ptr pkt 0) (Z.of_nat (length pkt))
    (replicate (Z.to_nat Big.metadata_one_size) 0) = Crash.
Proof. vm_compute. reflexivity. Qed.

(** [xdp2_parser_big_parse_ether] does not initialise its control data. When the
    count of encapsulations happens to be 255 it wraps around, five nested IPv4
    headers pass the limit of four, and the last of them goes to a sixth frame,
    behind the end of the metadata. *)
Definition stale_ctrl : xdp2_ctrl_data := set_var (var_set_encaps 255 zero_var) ctrl0.

Theorem big_parse_ether_stale_encaps :
  let pkt := eth_hdr 8 0 ++ mjoin (replicate 5 (ipv4_hdr 0x45 IPPROTO_IPIP)) ++ ipv4_hdr 0x45 IPPROTO_UDP ++ [0; 80; 0; 90] in
  Big.xdp2_parser_big_parse_ether 1000 stale_ctrl (Ptr pkt 0) (Z.of_nat (length pkt))
    (replicate (Z.to_nat Big.metadata_size) 0) = Crash.
Proof. vm_compute. reflexivity. Qed.

(** The flag-fields macros do not set [unknown_ret]. A GRE packet with an
    unknown protocol makes the big parser return [XDP2_OKAY], which is not a
    stop code, where every other node returns [XDP2_STOP_UNKNOWN_PROTO]. *)
Theorem gre_unknown_proto_returns_okay :
  let pkt := eth_hdr 8 0 ++ ipv4_hdr 0x45 IPPROTO_GRE ++ [0; 0; 0x12; 0x34; 0; 0; 0; 0] in
  fst <$> xdp2_parse Big.graph 1000 Big.xdp2_parser_big_ether (Ptr pkt 0)
    (Z.of_nat (length pkt)) (PState (replicate (Z.to_nat Big.metadata_size) 0) ctrl0)
  = Done XDP2_OKAY.
Proof. vm_compute. reflexivity. Qed.

(** The fast parser does not compare the computed header length with the
    minimum. An IPv4 header that announces no words at all is refused by the
    generic parser and accepted by the fast one, which takes the ports from the
    first bytes of the IP header itself. *)
Theorem fast_accepts_short_ipv4 :
  let pkt := eth_hdr 8 0 ++ ipv4_hdr 0x40 IPPROTO_UDP in
  let st := PState (replicate 56 0) ctrl0 in
  let prs := SimpleHash.xdp2_parser_simple_hash_ether in
  let run (r : outcome (Z * pstate meta)) :=
    '(ret, st) ← r; mret (ret, take 4 (drop 16 (st_meta st))) in
  run (xdp2_parse SimpleHash.graph 100 prs (Ptr pkt 0) 34 st) = Done (XDP2_STOP_LENGTH, [0; 0; 0; 0]) /\
  run (xdp2_parse_fast SimpleHash.graph 100 100 prs (Ptr pkt 0) 34 st) =
    Done (XDP2_STOP_OKAY, [0x40; 0; 0; 60]).
Proof. vm_compute. split; reflexivity. Qed.

(** ** Entry points *)

Lemma parse_empty_stops {M} (g : parse_graph M) nodes fuel cfg id n pd frame fn st :
  g_nodes g !! id = Some n -> pn_proto_def n = Some pd -> 0 < pd_min_len pd < 2 ^ 64 ->
  cfg_fail_node cfg = None ->
  exists st', parse_loop g nodes fuel cfg (Some id) null_ptr 0 frame fn st =
                Done (XDP2_STOP_LENGTH, st') /\ st_meta st' = st_meta st.
Proof.
  intros Hn Hpd Hm Hf.
  assert (parse_step g fuel cfg id null_ptr 0 frame fn st =
          Done (SOut XDP2_STOP_LENGTH frame (upd_var (var_set_last_node (Some id)) st))) as E.
  { unfold parse_step. rewrite (get_node_Some _ _ _ Hn). orun. rewrite Hpd. orun. cbv zeta.
    unfold proto_hlen. cbv zeta. rewrite u64_small by lia.
    destruct (Z.ltb_spec 0 (pd_min_len pd)); [done | lia]. }
  destruct nodes; cbn [parse_loop]; orun; rewrite E; unfold parse_out;
    change (XDP2_CODE_IS_OKAY XDP2_STOP_LENGTH) with false; cbv zeta iota; rewrite Hf;
    eexists; by split.
Qed.

Lemma l3_parser_roots prs :
  In (Some prs) (map snd Big.l3_parser_table) ->
  prs_type prs = XDP2_GENERIC /\ prs_config prs = XDP2_PARSER_CONFIG_DEFAULTS /\
  exists n pd, g_nodes Big.graph !! prs_root_node prs = Some n /\ pn_proto_def n = Some pd /\
    0 < pd_min_len pd < 2 ^ 64.
Proof.
  intros H. cbn [map snd Big.l3_parser_table In] in H.
  repeat (destruct H as [H | H]; [injection H as <-; split; [reflexivity |]; split; [reflexivity |];
    do 2 eexists; split; [reflexivity |]; split; [reflexivity |]; by vm_compute |]).
  destruct H.
Qed.

(** [xdp2_parser_big_parse_l3] never looks at the packet it is given:
    [xdp2_parse_from_table] runs the selected parser on a NULL header of length
    zero, so that the function returns false with the metadata untouched for
    every packet and protocol. *)
Theorem parse_l3_ignores_packet fuel c p len proto m :
  Big.xdp2_parser_big_parse_l3 fuel c p len proto m = Done (false, m).
Proof.
  unfold Big.xdp2_parser_big_parse_l3, xdp2_parse_from_table, xdp2_lookup_parser_table.
  destruct (assoc_first (A := option (xdp2_parser (M := meta))) proto Big.l3_parser_table)
    as [[prs |] |] eqn:E; [| reflexivity | reflexivity].
  apply assoc_first_elem in E. cbn [mjoin option_join].
  assert (In (Some prs) (map snd Big.l3_parser_table)) as Hin.
  { apply list_elem_of_In, list_elem_of_fmap. by exists (proto, Some prs). }
  destruct (l3_parser_roots prs Hin) as (Ht & Hc & n & pd & Hn & Hpd & Hm).
  rewrite xdp2_parse_generic by done. unfold __xdp2_parse. rewrite Hc.
  destruct (parse_empty_stops Big.graph (Z.to_nat (cfg_max_nodes XDP2_PARSER_CONFIG_DEFAULTS)) fuel
    XDP2_PARSER_CONFIG_DEFAULTS (prs_root_node prs) n pd
    (cfg_metameta_size XDP2_PARSER_CONFIG_DEFAULTS) 0
    (PState m (XDP2_CTRL_RESET_VAR_DATA c)) Hn Hpd Hm eq_refl) as (st' & -> & Hst).
  unfold Big.stopped_okay. orun. by rewrite Hst.
Qed.
