(* ===== verification/FlowHash.v ===== *)
(** * Flow hashes

    The hash over the metadata of a parse: [XDP2_HASH_CONSISTENTIFY] and the
    hash macros of [src/src/include/xdp2/parser_metadata.h] and [parser.h], the
    hash key of [src/src/lib/xdp2/parser.c], and the functions of
    [parsers/parser_big.h] and [parsers/parser_simple_hash.h] that parse a
    packet and hash what the parse left. *)

From stdpp Require Import base list gmap numbers.
From S2P Require Import Prelude FlagFields ParserTypes Parser ParserApi ProtoDefs Metadata Parsers.
From S2P Require Import Bytes Siphash.

(** [memcmp]: the difference of the first bytes that differ (only its sign is
    specified, and used). *)
Fixpoint memcmp (n : nat) (p q : ptr) (i : Z) : outcome Z :=
  match n with
  | O => mret 0
  | S n' =>
      a ← ld8 p i; b ← ld8 q i;
      if a =? b then memcmp n' p q (i + 1) else mret (a - b)
  end.

Section frame.
Context (S : layout).

(** [XDP2_SWAP] of two members of the frame *)
Definition swap16 (fr : Z) (f : field) (k l : Z) (m : meta) : outcome meta :=
  tmp ← get16 S fr f k m; b ← get16 S fr f l m;
  m ← put16 S fr f k b m; put16 S fr f l tmp m.

Definition swap32 (fr : Z) (f : field) (k l : Z) (m : meta) : outcome meta :=
  tmp ← get32 S fr f k m; b ← get32 S fr f l m;
  m ← put32 S fr f k b m; put32 S fr f l tmp m.

(** [for (i = 0; i < 4; i++) XDP2_SWAP(v6_addrs[0].s6_addr32[i], ...)] with
    [n] iterations left. *)
Fixpoint swap_addr_loop (n : nat) (fr i : Z) (m : meta) : outcome meta :=
  match n with
  | O => mret m
  | Datatypes.S n' =>
      m ← swap32 fr F_addrs (4 * i) (16 + 4 * i) m; swap_addr_loop n' fr (i + 1) m
  end.

(** [addr_diff < 0 || (addr_diff == 0 && port16[1] < port16[0])] *)
Definition must_swap (fr addr_diff : Z) (m : meta) : outcome bool :=
  if addr_diff <? 0 then mret true else
  if addr_diff =? 0 then
    p1 ← get16 S fr F_ports 2 m; p0 ← get16 S fr F_ports 0 m; mret (p1 <? p0)
  else mret false.

Definition XDP2_HASH_CONSISTENTIFY (fr : Z) (m : meta) : outcome meta :=
  t ← get8 S fr F_addr_type 0 m;
  if t =? XDP2_ADDR_TYPE_IPV4 then
    a1 ← get32 S fr F_addrs 4 m; a0 ← get32 S fr F_addrs 0 m;
    b ← must_swap fr (s32 (u32 (a1 - a0))) m;
    if (b : bool) then
      m ← swap32 fr F_addrs 0 4 m; swap16 fr F_ports 0 2 m
    else mret m
  else if t =? XDP2_ADDR_TYPE_IPV6 then
    a ← at_field S fr F_addrs 0;
    addr_diff ← memcmp 16 (Ptr m (a + 16)) (Ptr m a) 0;
    b ← must_swap fr addr_diff m;
    if (b : bool) then
      m ← swap_addr_loop 4 fr 0 m; swap16 fr F_ports 0 2 m
    else mret m
  else mret m.

(** [XDP2_HASH_LENGTH(FRAME, HASH_OFFSET)]; the [addrs] union has 32 bytes. *)
Definition XDP2_HASH_LENGTH (hash_offset fr : Z) (m : meta) : outcome Z :=
  let diff := hash_offset + 32 in
  t ← get8 S fr F_addr_type 0 m;
  let diff := if t =? XDP2_ADDR_TYPE_IPV4 then diff - 8
              else if t =? XDP2_ADDR_TYPE_IPV6 then diff - 32 else diff in
  mret (u64 (lo_size S - diff)).

(** [is_aligned] says whether the start of the hash is aligned to 64 bits,
    [key] is the global [__xdp2_hash_key]. *)
Context (is_aligned : bool) (key : siphash_key_t).

Definition xdp2_compute_hash (start : ptr) (len : Z) : outcome Z :=
  hash ← siphash is_aligned false start len key;
  let hash := u32 hash in
  mret (if hash =? 0 then 1 else hash).

(** [XDP2_COMMON_COMPUTE_HASH(METADATA, eth_proto)]; both users start at
    [eth_proto] ([XDP2_HASH_START_FIELD_ALL],
    [XDP2_SIMPLE_HASH_START_FIELD_HASH]). *)
Definition XDP2_COMMON_COMPUTE_HASH (fr : Z) (m : meta) : outcome Z :=
  start ← at_field S fr F_eth_proto 0;
  off ← deref (lo_off S F_eth_proto);
  olen ← XDP2_HASH_LENGTH off fr m;
  xdp2_compute_hash (Ptr m start) olen.

(** [XDP2_HASH_CONSISTENTIFY(frame)] and the hash of the frame; returns the
    changed frame as well. *)
Definition hash_frame (fr : Z) (m : meta) : outcome (Z * meta) :=
  m ← XDP2_HASH_CONSISTENTIFY fr m;
  hash ← XDP2_COMMON_COMPUTE_HASH fr m;
  mret (hash, m).
End frame.

(** [xdp2_hash_secret_init]: the key given, or sixteen bytes of [rand()]. *)
Definition xdp2_hash_secret_init (init_key : option siphash_key_t) (rand : nat -> Z)
    : siphash_key_t :=
  match init_key with
  | Some k => k
  | None =>
      let bytes := (fun i => u8 (rand i)) <$> seq 0 16 in
      SiphashKey (le_val (take 8 bytes)) (le_val (drop 8 bytes))
  end.

(** ** Functions of the shipped parsers

    [ctrl] (and, for the simple hash parser, [mdata]) are the contents of local
    variables the code does not initialise. *)

Section parsers.
Context (is_aligned : bool) (key : siphash_key_t).

Definition xdp2_parser_big_hash_frame : Z -> meta -> outcome (Z * meta) :=
  hash_frame Big.S is_aligned key.

(** The shared tail: hash the first frame if the parse succeeded. *)
Definition hash_if_okay (r : outcome (bool * meta)) : outcome Z :=
  '(ok, mdata) ← r;
  if (ok : bool) then fst <$> xdp2_parser_big_hash_frame 0 mdata else mret 0.

Definition zero_one : meta := replicate (Z.to_nat Big.metadata_one_size) 0.

Definition xdp2_parser_big_hash_ether (fuel : nat) (ctrl : xdp2_ctrl_data) (p : ptr) (len : Z)
    : outcome Z :=
  hash_if_okay (Big.xdp2_parser_big_parse_ether fuel ctrl p len zero_one).

Definition xdp2_parser_big_hash_l3 (fuel : nat) (ctrl : xdp2_ctrl_data) (p : ptr) (len proto : Z)
    : outcome Z :=
  mdata ← put16 Big.S 0 F_eth_proto 0 proto zero_one;
  hash_if_okay (Big.xdp2_parser_big_parse_l3 fuel ctrl p len proto mdata).

Definition xdp2_parser_big_hash_ip (fuel : nat) (ctrl : xdp2_ctrl_data) (p : ptr) (len : Z)
    : outcome Z :=
  hash_if_okay (Big.xdp2_parser_big_parse_ip fuel ctrl p len zero_one).

Definition xdp2_parser_hash_hash_ether (fuel : nat) (ctrl : xdp2_ctrl_data) (mdata : meta)
    (p : ptr) (len : Z) : outcome Z :=
  '(ret, st) ← xdp2_parse SimpleHash.graph fuel SimpleHash.xdp2_parser_simple_hash_ether p len
                 (PState mdata ctrl);
  if negb (ret =? XDP2_STOP_OKAY) then mret 0
  else fst <$> hash_frame SimpleHash.S is_aligned key 0 (st_meta st).
End parsers.
