(* ===== verification/FlowHashSpec.v ===== *)
(** * The flow hash does not depend on the direction

    [XDP2_HASH_CONSISTENTIFY] puts the two endpoints of a flow in a canonical
    order, so that the hash of a flow and of the reverse flow agree; for IPv4
    as long as the addresses, taken as little endian numbers, are not exactly
    2^31 apart. *)

From stdpp Require Import base list gmap numbers.
From S2P Require Import Prelude FlagFields ParserTypes Parser ParserApi ProtoDefs Metadata Parsers.
From S2P Require Import ParserProps SimpleHashSpec Bytes Siphash SiphashSpec FlowHash.

(** ** A range of bytes in the middle of the metadata *)

Lemma mid_ld8 (pre bs post : list Z) a i k b :
  a + i = Z.of_nat (length pre) + Z.of_nat k -> bs !! k = Some b ->
  ld8 (Ptr (pre ++ bs ++ post) a) i = Done b.
Proof.
  intros Ha Hk. unfold ld8; cbn [poff pbuf]. rewrite Ha.
  destruct (Z.ltb_spec (Z.of_nat (length pre) + Z.of_nat k) 0); [lia |].
  rewrite <- Nat2Z.inj_add, Nat2Z.id, lookup_app_r by lia.
  rewrite Nat.add_comm, Nat.add_sub, lookup_app_l; [by rewrite Hk |]. by apply lookup_lt_Some in Hk.
Qed.

Lemma mid_bytes_at (pre bs post : list Z) a :
  a = Z.of_nat (length pre) -> bytes_at (Ptr (pre ++ bs ++ post) a) bs.
Proof. intros -> k b Hk. by apply mid_ld8 with k. Qed.

Lemma ld16_le p bs : length bs = 2%nat -> bytes_at p bs -> ld16 p 0 = Done (le_val bs).
Proof.
  intros Hl Hat. destruct bs as [| b0 [| b1 [|]]]; try discriminate. unfold ld16.
  pose proof (Hat 0%nat b0 eq_refl) as E0. pose proof (Hat 1%nat b1 eq_refl) as E1.
  change (Z.of_nat 0) with 0 in E0. change (Z.of_nat 1) with (0 + 1) in E1.
  rewrite E0, E1. orun. f_equal. cbn [le_val]. lia.
Qed.

Lemma ld32_le p bs : length bs = 4%nat -> bytes_at p bs -> ld32 p 0 = Done (le_val bs).
Proof.
  intros Hl Hat. destruct bs as [| b0 [| b1 [| b2 [| b3 [|]]]]]; try discriminate.
  unfold ld32, ld16.
  pose proof (Hat 0%nat b0 eq_refl) as E0. pose proof (Hat 1%nat b1 eq_refl) as E1.
  pose proof (Hat 2%nat b2 eq_refl) as E2. pose proof (Hat 3%nat b3 eq_refl) as E3.
  change (Z.of_nat 0) with 0 in E0. change (Z.of_nat 1) with (0 + 1) in E1.
  change (Z.of_nat 2) with (0 + 2) in E2. change (Z.of_nat 3) with (0 + 2 + 1) in E3.
  rewrite E0, E1, E2, E3. orun. f_equal. cbn [le_val]. lia.
Qed.

Lemma list_inserts_mid {A} (pre bs bs' post : list A) :
  length bs' = length bs -> list_inserts (length pre) bs' (pre ++ bs ++ post) = pre ++ bs' ++ post.
Proof.
  intros Hl. rewrite <- (Nat.add_0_r (length pre)), list_inserts_app_r. f_equal.
  by apply list_inserts_0_r.
Qed.

Lemma mid_st16 (pre bs bs' post : list Z) a :
  a = Z.of_nat (length pre) -> length bs = 2%nat -> length bs' = 2%nat -> Forall is_u8 bs' ->
  st16 (pre ++ bs ++ post) a (le_val bs') = Done (pre ++ bs' ++ post).
Proof.
  intros -> Hl Hl' Hu. rewrite <- (list_inserts_mid pre bs bs' post) by congruence.
  destruct bs' as [| b0 [| b1 [|]]]; try discriminate. forall_inv Hu.
  rewrite <- (st16_eq _ _ b0 b1) by (done || rewrite !length_app; lia).
  f_equal. cbn [le_val]. lia.
Qed.

Lemma mid_st32 (pre bs bs' post : list Z) a :
  a = Z.of_nat (length pre) -> length bs = 4%nat -> length bs' = 4%nat -> Forall is_u8 bs' ->
  st32 (pre ++ bs ++ post) a (le_val bs') = Done (pre ++ bs' ++ post).
Proof.
  intros -> Hl Hl' Hu. rewrite <- (list_inserts_mid pre bs bs' post) by congruence.
  destruct bs' as [| b0 [| b1 [| b2 [| b3 [|]]]]]; try discriminate. forall_inv Hu.
  rewrite <- (st32_eq _ _ b0 b1 b2 b3) by (done || rewrite !length_app; lia).
  f_equal. cbn [le_val]. lia.
Qed.

(** Exchanging two ranges. *)
Lemma swap_mid (ld : meta -> Z -> outcome Z) (st : meta -> Z -> Z -> outcome meta) w
    (Hld : forall m a bs pre post, m = pre ++ bs ++ post -> a = Z.of_nat (length pre) ->
             length bs = w -> ld m a = Done (le_val bs))
    (Hst : forall pre bs bs' post a, a = Z.of_nat (length pre) -> length bs = w -> length bs' = w ->
             Forall is_u8 bs' -> st (pre ++ bs ++ post) a (le_val bs') = Done (pre ++ bs' ++ post))
    pre x mid y post a b :
  length x = w -> length y = w -> Forall is_u8 x -> Forall is_u8 y ->
  a = Z.of_nat (length pre) -> b = Z.of_nat (length (pre ++ x ++ mid)) ->
  (tmp ← ld (pre ++ x ++ mid ++ y ++ post) a; v ← ld (pre ++ x ++ mid ++ y ++ post) b;
   m ← st (pre ++ x ++ mid ++ y ++ post) a v; st m b tmp)
  = Done (pre ++ y ++ mid ++ x ++ post).
Proof.
  intros Hx Hy Hux Huy Ha Hb. rewrite (Hld _ a x pre (mid ++ y ++ post)) by done. orun.
  rewrite (Hld _ b y (pre ++ x ++ mid) post); [| by rewrite <- !app_assoc | done | done]. orun.
  rewrite Hst by done. orun.
  replace (pre ++ y ++ mid ++ y ++ post) with ((pre ++ y ++ mid) ++ y ++ post)
    by by rewrite <- !app_assoc.
  rewrite Hst; [by rewrite <- !app_assoc | | done ..].
  rewrite Hb, !length_app. lia.
Qed.

(** ** Comparison of endpoints *)

Fixpoint bytes_diff (a b : list Z) : Z :=
  match a, b with
  | x :: a, y :: b => if x =? y then bytes_diff a b else x - y
  | _, _ => 0
  end.

Lemma bytes_diff_opp a : forall b, bytes_diff a b = - bytes_diff b a.
Proof.
  induction a as [| x a IH]; intros [| y b]; try done. cbn [bytes_diff].
  rewrite (Z.eqb_sym y x). destruct (Z.eqb_spec x y); [apply IH | lia].
Qed.

Lemma bytes_diff_0 a : forall b, length a = length b -> bytes_diff a b = 0 -> a = b.
Proof.
  induction a as [| x a IH]; intros [| y b] Hl; try done. cbn [bytes_diff].
  destruct (Z.eqb_spec x y) as [-> |]; [| lia]. intros E. f_equal. apply IH; [| done].
  by injection Hl.
Qed.

Lemma memcmp_bytes a : forall b p q i,
  length a = length b ->
  (forall k x, a !! k = Some x -> ld8 p (i + Z.of_nat k) = Done x) ->
  (forall k x, b !! k = Some x -> ld8 q (i + Z.of_nat k) = Done x) ->
  memcmp (length a) p q i = Done (bytes_diff a b).
Proof.
  induction a as [| x a IH]; intros [| y b] p q i Hl Ha Hb; try done. cbn [length memcmp bytes_diff].
  pose proof (Ha 0%nat x eq_refl) as E. pose proof (Hb 0%nat y eq_refl) as E'.
  rewrite Z.add_0_r in E, E'. rewrite E, E'. orun.
  destruct (x =? y); [| done]. apply IH; [by injection Hl | |]; intros k z Hk.
  - rewrite <- (Ha (S k) z Hk). f_equal. lia.
  - rewrite <- (Hb (S k) z Hk). f_equal. lia.
Qed.

Lemma le_val_inj a : forall b,
  length a = length b -> Forall is_u8 a -> Forall is_u8 b -> le_val a = le_val b -> a = b.
Proof.
  induction a as [| x a IH]; intros [| y b] Hl Ha Hb; try done. cbn [le_val].
  inversion Ha; inversion Hb; subst. unfold is_u8 in *. intros E.
  assert (x = y) by lia. subst. f_equal. apply IH; [by injection Hl | done | done | lia].
Qed.

Lemma s32_diff_opp x y :
  (y - x) mod 2 ^ 32 <> 2 ^ 31 -> s32 (u32 (x - y)) = - s32 (u32 (y - x)).
Proof.
  intros H. unfold s32, sext, u32. rewrite !Z.mod_mod by done.
  replace (x - y) with (- (y - x)) by lia.
  destruct (decide ((y - x) mod 2 ^ 32 = 0)) as [E | E].
  - rewrite Z.mod_opp_l_z by lia. by rewrite E.
  - rewrite Z.mod_opp_l_nz by lia.
    pose proof (Z.mod_pos_bound (y - x) (2 ^ 32) ltac:(lia)).
    change (2 ^ (32 - 1)) with (2 ^ 31). repeat zcase; lia.
Qed.

(** ** The two endpoints of a frame *)

Lemma mid_mld16 m a bs pre post :
  m = pre ++ bs ++ post -> a = Z.of_nat (length pre) -> length bs = 2%nat ->
  mld16 m a = Done (le_val bs).
Proof. intros -> -> Hl. apply ld16_le; [done |]. by apply mid_bytes_at. Qed.

Lemma mid_mld32 m a bs pre post :
  m = pre ++ bs ++ post -> a = Z.of_nat (length pre) -> length bs = 4%nat ->
  mld32 m a = Done (le_val bs).
Proof. intros -> -> Hl. apply ld32_le; [done |]. by apply mid_bytes_at. Qed.

Lemma at_field_eq S f o fr k : lo_off S f = Some o -> at_field S fr f k = Done (fr + o + k).
Proof. intros E. unfold at_field. by rewrite E. Qed.

Definition addr_diff (t : Z) (a0 a1 : list Z) : Z :=
  if t =? XDP2_ADDR_TYPE_IPV4 then s32 (u32 (le_val a1 - le_val a0)) else bytes_diff a1 a0.

(** Whether the endpoints are exchanged. *)
Definition out_of_order (t : Z) (p0 p1 a0 a1 : list Z) : bool :=
  (addr_diff t a0 a1 <? 0) || ((addr_diff t a0 a1 =? 0) && (le_val p1 <? le_val p0)).

Section frames.
Context (S : layout) (ot op oa : nat).
Context (Ht : lo_off S F_addr_type = Some (Z.of_nat ot)).
Context (Hp : lo_off S F_ports = Some (Z.of_nat op)).
Context (Ha : lo_off S F_addrs = Some (Z.of_nat oa)).
Context (Hord : (ot < op)%nat /\ (op + 4 <= oa)%nat).

(** A frame at [fr] with address type [t], ports [p0], [p1] and addresses
    [a0], [a1], cut at its ports and addresses. *)
Record frame_parts (fr : nat) (t : Z) (pre p0 p1 mid a0 a1 post : list Z) : Prop := {
  fp_pre : length pre = (fr + op)%nat;
  fp_type : pre !! (fr + ot)%nat = Some t;
  fp_p0 : length p0 = 2%nat;
  fp_p1 : length p1 = 2%nat;
  fp_mid : length mid = (oa - op - 4)%nat;
  fp_addrs : t = XDP2_ADDR_TYPE_IPV4 /\ length a0 = 4%nat /\ length a1 = 4%nat \/
             t = XDP2_ADDR_TYPE_IPV6 /\ length a0 = 16%nat /\ length a1 = 16%nat;
  fp_u8 : Forall is_u8 (pre ++ p0 ++ p1 ++ mid ++ a0 ++ a1 ++ post) }.

Lemma frame_parts_reverse fr t pre p0 p1 mid a0 a1 post :
  frame_parts fr t pre p0 p1 mid a0 a1 post -> frame_parts fr t pre p1 p0 mid a1 a0 post.
Proof using.
  intros [? ? ? ? ? Hadr Hu]. split; [done .. | |].
  - clear -Hadr. tauto.
  - clear -Hu. rewrite !Forall_app in *. tauto.
Qed.

Lemma swap32_mid fr k l pre x mid y post :
  length x = 4%nat -> length y = 4%nat -> Forall is_u8 x -> Forall is_u8 y ->
  fr + Z.of_nat oa + k = Z.of_nat (length pre) ->
  fr + Z.of_nat oa + l = Z.of_nat (length (pre ++ x ++ mid)) ->
  swap32 S fr F_addrs k l (pre ++ x ++ mid ++ y ++ post) = Done (pre ++ y ++ mid ++ x ++ post).
Proof using Ha.
  clear Hord. intros. unfold swap32, get32, put32. rewrite !(at_field_eq S _ _ _ _ Ha). orun.
  by apply (swap_mid mld32 st32 4 mid_mld32 mid_st32).
Qed.

Lemma swap16_mid fr pre x y post :
  length x = 2%nat -> length y = 2%nat -> Forall is_u8 x -> Forall is_u8 y ->
  fr + Z.of_nat op = Z.of_nat (length pre) ->
  swap16 S fr F_ports 0 2 (pre ++ x ++ y ++ post) = Done (pre ++ y ++ x ++ post).
Proof using Hp.
  clear Hord. intros Hx Hy Hux Huy E. unfold swap16, get16, put16. rewrite !(at_field_eq S _ _ _ _ Hp). orun.
  apply (swap_mid mld16 st16 2 mid_mld16 mid_st16 pre x [] y post); try done.
  - lia.
  - rewrite !length_app, Hx. cbn [length]. lia.
Qed.

Lemma split_word (x : list Z) n :
  length x = (4 * Datatypes.S n)%nat ->
  exists x1 x2, x = x1 ++ x2 /\ length x1 = 4%nat /\ length x2 = (4 * n)%nat.
Proof using.
  clear Hord. intros Hx. exists (take 4 x), (drop 4 x). rewrite take_drop, length_take, length_drop.
  split_and!; [done | lia ..].
Qed.

(** The loop that exchanges IPv6 addresses word by word. *)
Lemma swap_addr_loop_mid n : forall fr i pre x mid y post,
  length x = (4 * n)%nat -> length y = (4 * n)%nat -> Forall is_u8 x -> Forall is_u8 y ->
  fr + Z.of_nat oa + 4 * i = Z.of_nat (length pre) ->
  fr + Z.of_nat oa + (16 + 4 * i) = Z.of_nat (length (pre ++ x ++ mid)) ->
  swap_addr_loop S n fr i (pre ++ x ++ mid ++ y ++ post) = Done (pre ++ y ++ mid ++ x ++ post).
Proof using Ha.
  clear Hord. induction n as [| n IH]; intros fr i pre x mid y post Hx Hy Hux Huy E1 E2.
  - destruct x; [| discriminate]. by destruct y.
  - destruct (split_word x n Hx) as (x1 & x2 & -> & L1 & L3).
    destruct (split_word y n Hy) as (y1 & y2 & -> & L2 & L4).
    rewrite Forall_app in Hux, Huy. destruct Hux as [Hx1 Hx2], Huy as [Hy1 Hy2].
    rewrite !length_app in *. cbn [swap_addr_loop].
    replace (pre ++ (x1 ++ x2) ++ mid ++ (y1 ++ y2) ++ post)
      with (pre ++ x1 ++ (x2 ++ mid) ++ y1 ++ (y2 ++ post)) by by rewrite <- !app_assoc.
    rewrite swap32_mid; [| done .. | rewrite !length_app; lia]. orun.
    replace (pre ++ y1 ++ (x2 ++ mid) ++ x1 ++ y2 ++ post)
      with ((pre ++ y1) ++ x2 ++ (mid ++ x1) ++ y2 ++ post) by by rewrite <- !app_assoc.
    rewrite IH; [by rewrite <- !app_assoc | lia | lia | done | done | |];
      rewrite ?length_app; lia.
Qed.

(** What the macro does to the bytes of the frame. *)
Lemma consistentify_spec fr t pre p0 p1 mid a0 a1 post :
  frame_parts fr t pre p0 p1 mid a0 a1 post ->
  XDP2_HASH_CONSISTENTIFY S (Z.of_nat fr) (pre ++ p0 ++ p1 ++ mid ++ a0 ++ a1 ++ post) =
    Done (if out_of_order t p0 p1 a0 a1 then pre ++ p1 ++ p0 ++ mid ++ a1 ++ a0 ++ post
          else pre ++ p0 ++ p1 ++ mid ++ a0 ++ a1 ++ post).
Proof using Ht Hp Ha Hord.
  intros [Hpre Hty Hp0 Hp1 Hmid Haddr Hu]. rewrite !Forall_app in Hu.
  destruct Hu as (_ & U0 & U1 & _ & V0 & V1 & _). unfold XDP2_HASH_CONSISTENTIFY, get8.
  rewrite (at_field_eq S _ _ _ _ Ht). orun. unfold mld8.
  set (m := pre ++ p0 ++ p1 ++ mid ++ a0 ++ a1 ++ post).
  assert (ld8 (Ptr m (Z.of_nat fr + Z.of_nat ot + 0)) 0 = Done t) as ->.
  { apply (mid_ld8 [] pre _ _ _ (fr + ot) t); [cbn [length]; lia | done]. }
  set (pa := pre ++ p0 ++ p1 ++ mid).
  assert (length pa = (fr + oa)%nat) as Hpa by (unfold pa; rewrite !length_app; lia).
  assert (m = pa ++ a0 ++ a1 ++ post) as Em by (unfold m, pa; by rewrite <- !app_assoc).
  assert (forall d, must_swap S (Z.of_nat fr) d m =
            Done ((d <? 0) || ((d =? 0) && (le_val p1 <? le_val p0)))) as Hms.
  { intros d. unfold must_swap, get16. rewrite !(at_field_eq S _ _ _ _ Hp). orun.
    rewrite (mid_mld16 m _ p1 (pre ++ p0) (mid ++ a0 ++ a1 ++ post));
      [| unfold m; by rewrite <- !app_assoc | rewrite length_app; lia | done].
    rewrite (mid_mld16 m _ p0 pre (p1 ++ mid ++ a0 ++ a1 ++ post)) by (done || lia).
    destruct (d <? 0); [done |]. by destruct (d =? 0). }
  assert (forall r, swap16 S (Z.of_nat fr) F_ports 0 2 (pa ++ r) = Done (pre ++ p1 ++ p0 ++ mid ++ r)) as Hsw.
  { intros r. replace (pa ++ r) with (pre ++ p0 ++ p1 ++ (mid ++ r)) by (unfold pa; by rewrite <- !app_assoc).
    apply swap16_mid; try done. lia. }
  unfold out_of_order, addr_diff. destruct Haddr as [(-> & L0 & L1) | (-> & L0 & L1)].
  - change (XDP2_ADDR_TYPE_IPV4 =? XDP2_ADDR_TYPE_IPV4) with true. cbv iota.
    unfold get32. rewrite !(at_field_eq S _ _ _ _ Ha). orun.
    rewrite (mid_mld32 m _ a1 (pa ++ a0) post), (mid_mld32 m _ a0 pa (a1 ++ post));
      [| done || rewrite ?length_app; lia || by rewrite Em, <- ?app_assoc ..].
    rewrite Hms. orun. destruct (_ || _); [| done].
    rewrite Em, (swap32_mid _ 0 4 pa a0 [] a1 post); [apply Hsw | try done ..];
      rewrite ?length_app; cbn [length]; lia.
  - change (XDP2_ADDR_TYPE_IPV6 =? XDP2_ADDR_TYPE_IPV4) with false.
    change (XDP2_ADDR_TYPE_IPV6 =? XDP2_ADDR_TYPE_IPV6) with true. cbv iota.
    rewrite (at_field_eq S _ _ _ _ Ha). orun. rewrite Em at 1 2.
    replace 16%nat with (length a1) by done.
    rewrite (memcmp_bytes a1 a0); [| congruence | |]; [| intros k x Hk; rewrite Z.add_0_l ..].
    + rewrite Hms. destruct (_ || _); [| done].
      rewrite Em, (swap_addr_loop_mid 4 _ 0 pa a0 [] a1 post); [apply Hsw | try done ..];
        rewrite ?length_app; cbn [length]; lia.
    + replace (pa ++ a0 ++ a1 ++ post) with ((pa ++ a0) ++ a1 ++ post) by by rewrite <- app_assoc.
      eapply mid_ld8; [| done]. rewrite length_app. lia.
    + eapply mid_ld8; [| done]. lia.
Qed.

(** Exchanging the endpoints of an ordered frame gives one that is out of
    order, unless the endpoints are the same. *)
Lemma out_of_order_reverse fr t pre p0 p1 mid a0 a1 post :
  frame_parts fr t pre p0 p1 mid a0 a1 post ->
  (t = XDP2_ADDR_TYPE_IPV4 -> (le_val a1 - le_val a0) mod 2 ^ 32 <> 2 ^ 31) ->
  out_of_order t p0 p1 a0 a1 = negb (out_of_order t p1 p0 a1 a0) \/ (p0 = p1 /\ a0 = a1).
Proof using.
  clear Hord. intros [_ _ Hp0 Hp1 _ Haddr Hu] Hdist. rewrite !Forall_app in Hu.
  destruct Hu as (_ & U0 & U1 & _ & V0 & V1 & _).
  assert (addr_diff t a1 a0 = - addr_diff t a0 a1 /\ (addr_diff t a0 a1 = 0 -> a0 = a1)) as [Ho He].
  { unfold addr_diff. destruct Haddr as [(-> & L0 & L1) | (-> & L0 & L1)]; cbn [Z.eqb].
    - change (XDP2_ADDR_TYPE_IPV4 =? XDP2_ADDR_TYPE_IPV4) with true. cbv iota. split.
      + apply s32_diff_opp. by apply Hdist.
      + intros E. apply le_val_inj; [congruence | done | done |].
        pose proof (le_val_range a0 V0) as R0. pose proof (le_val_range a1 V1) as R1.
        rewrite L0 in R0. rewrite L1 in R1. change (8 * Z.of_nat 4) with 32 in R0, R1.
        unfold s32, sext, u32 in E. rewrite Z.mod_mod in E by done.
        change (2 ^ (32 - 1)) with (2 ^ 31) in E. revert E.
        pose proof (Z.mod_pos_bound (le_val a1 - le_val a0) (2 ^ 32) ltac:(lia)).
        pose proof (Z.div_mod (le_val a1 - le_val a0) (2 ^ 32) ltac:(lia)). zcase; nia.
    - change (XDP2_ADDR_TYPE_IPV6 =? XDP2_ADDR_TYPE_IPV4) with false. cbv iota. split.
      + apply bytes_diff_opp.
      + intros E. symmetry. apply bytes_diff_0; [congruence | done]. }
  unfold out_of_order. rewrite Ho. set (d := addr_diff t a0 a1) in *.
  destruct (Z.ltb_spec d 0), (Z.ltb_spec (- d) 0); try lia; cbn [orb negb].
  destruct (Z.eqb_spec d 0) as [E |]; [| lia]. rewrite E. change (- 0 =? 0) with true. cbn [andb].
  destruct (Z.ltb_spec (le_val p1) (le_val p0)), (Z.ltb_spec (le_val p0) (le_val p1)); auto; [lia |].
  right. split; [| by apply He]. apply le_val_inj; try congruence. lia.
Qed.

Context (oe : nat) (Hoe : lo_off S F_eth_proto = Some (Z.of_nat oe)).
Context (Hsz : Z.of_nat oe + 32 <= lo_size S < 2 ^ 64).
Context (is_aligned : bool) (key : siphash_key_t).

(** Hashing a frame succeeds, and the hash is never zero. *)
Lemma compute_hash_frame fr t (m : meta) :
  m !! (fr + ot)%nat = Some t -> Forall is_u8 m ->
  t = XDP2_ADDR_TYPE_IPV4 \/ t = XDP2_ADDR_TYPE_IPV6 ->
  Z.of_nat fr + lo_size S <= Z.of_nat (length m) ->
  exists h, XDP2_COMMON_COMPUTE_HASH S is_aligned key (Z.of_nat fr) m = Done h /\ 1 <= h < 2 ^ 32.
Proof using Ht Hoe Hsz.
  clear Hord. intros Hty Hu Htc Hl. unfold XDP2_COMMON_COMPUTE_HASH, XDP2_HASH_LENGTH, get8, mld8.
  rewrite (at_field_eq S _ _ _ _ Hoe), (at_field_eq S _ _ _ _ Ht), Hoe. orun.
  assert (ld8 (Ptr m (Z.of_nat fr + Z.of_nat ot + 0)) 0 = Done t) as ->.
  { rewrite <- (app_nil_r m). apply (mid_ld8 [] m [] _ _ (fr + ot) t); [cbn [length]; lia | done]. }
  set (len := u64 _). assert (0 <= len <= lo_size S - Z.of_nat oe) as Hlen.
  { unfold len. destruct Htc as [-> | ->]; cbn [Z.eqb XDP2_ADDR_TYPE_IPV4 XDP2_ADDR_TYPE_IPV6];
      rewrite u64_small; unfold XDP2_ADDR_TYPE_IPV4, XDP2_ADDR_TYPE_IPV6; cbn; lia. }
  destruct (in_bounds_bytes_at (Ptr m (Z.of_nat fr + Z.of_nat oe + 0)) len) as (bs & Hbl & Hbu & Hat).
  { split_and!; cbn [poff pbuf]; [lia | lia | lia | done]. }
  unfold xdp2_compute_hash. rewrite <- Hbl, (siphash_ref_ok key _ bs Hbu Hat). orun.
  eexists. split; [done |]. pose proof (Z.mod_pos_bound (siphash_ref key bs) (2 ^ 32) ltac:(lia)).
  unfold u32. zcase; lia.
Qed.

Lemma hash_frame_symmetric fr t pre p0 p1 mid a0 a1 post :
  frame_parts fr t pre p0 p1 mid a0 a1 post ->
  Z.of_nat fr + lo_size S <= Z.of_nat (length (pre ++ p0 ++ p1 ++ mid ++ a0 ++ a1 ++ post)) ->
  (t = XDP2_ADDR_TYPE_IPV4 -> (le_val a1 - le_val a0) mod 2 ^ 32 <> 2 ^ 31) ->
  exists h m', 1 <= h < 2 ^ 32 /\
    hash_frame S is_aligned key (Z.of_nat fr) (pre ++ p0 ++ p1 ++ mid ++ a0 ++ a1 ++ post) = Done (h, m') /\
    hash_frame S is_aligned key (Z.of_nat fr) (pre ++ p1 ++ p0 ++ mid ++ a1 ++ a0 ++ post) = Done (h, m').
Proof using Ht Hp Ha Hord Hoe Hsz.
  intros Hf Hl Hdist. pose proof (frame_parts_reverse _ _ _ _ _ _ _ _ _ Hf) as Hr.
  assert (exists m', m' = (if out_of_order t p0 p1 a0 a1 then pre ++ p1 ++ p0 ++ mid ++ a1 ++ a0 ++ post
                           else pre ++ p0 ++ p1 ++ mid ++ a0 ++ a1 ++ post) /\
            m' = (if out_of_order t p1 p0 a1 a0 then pre ++ p0 ++ p1 ++ mid ++ a0 ++ a1 ++ post
                  else pre ++ p1 ++ p0 ++ mid ++ a1 ++ a0 ++ post)) as (m' & E1 & E2).
  { eexists. split; [done |].
    destruct (out_of_order_reverse _ _ _ _ _ _ _ _ _ Hf Hdist) as [-> | [-> ->]]; [| done].
    by destruct (out_of_order t p1 p0 a1 a0). }
  destruct (compute_hash_frame fr t m') as (h & Hh & Hb).
  - rewrite E1. pose proof (fp_type _ _ _ _ _ _ _ _ _ Hf) as Hty.
    destruct (out_of_order _ _ _ _ _); by apply lookup_app_l_Some.
  - rewrite E1. pose proof (fp_u8 _ _ _ _ _ _ _ _ _ Hf). pose proof (fp_u8 _ _ _ _ _ _ _ _ _ Hr).
    by destruct (out_of_order _ _ _ _ _).
  - pose proof (fp_addrs _ _ _ _ _ _ _ _ _ Hf). tauto.
  - rewrite E1. destruct (out_of_order _ _ _ _ _); [| done]. rewrite !length_app in *. lia.
  - exists h, m'. split; [done |]. unfold hash_frame.
    rewrite (consistentify_spec _ _ _ _ _ _ _ _ _ Hf), (consistentify_spec _ _ _ _ _ _ _ _ _ Hr).
    rewrite <- E1, <- E2. orun. by rewrite Hh.
Qed.
End frames.

(** ** Theorems *)

(** The structures the shipped parsers hash. *)
Definition flow_frame (S : layout) : nat -> Z -> list Z -> list Z -> list Z -> list Z ->
    list Z -> list Z -> list Z -> Prop :=
  match lo_off S F_ports, lo_off S F_addrs with
  | Some op, Some oa => frame_parts 0 (Z.to_nat op) (Z.to_nat oa)
  | _, _ => fun _ _ _ _ _ _ _ _ _ => False
  end.

(** The hash of a flow does not depend on its direction. For a frame of
    either metadata structure with IPv6 addresses, or with IPv4 addresses whose
    (little endian) difference is not 2^31, the hash succeeds, is not zero, and
    is the same with the two endpoints (addresses and ports) exchanged; so is
    the frame it leaves. *)
Theorem flow_hash_symmetric S is_aligned key fr t pre p0 p1 mid a0 a1 post :
  S = Big.S \/ S = SimpleHash.S ->
  flow_frame S fr t pre p0 p1 mid a0 a1 post ->
  Z.of_nat fr + lo_size S <= Z.of_nat (length (pre ++ p0 ++ p1 ++ mid ++ a0 ++ a1 ++ post)) ->
  (t = XDP2_ADDR_TYPE_IPV4 -> (le_val a1 - le_val a0) mod 2 ^ 32 <> 2 ^ 31) ->
  exists h m', 1 <= h < 2 ^ 32 /\
    hash_frame S is_aligned key (Z.of_nat fr) (pre ++ p0 ++ p1 ++ mid ++ a0 ++ a1 ++ post) = Done (h, m') /\
    hash_frame S is_aligned key (Z.of_nat fr) (pre ++ p1 ++ p0 ++ mid ++ a1 ++ a0 ++ post) = Done (h, m').
Proof.
  intros [-> | ->] Hf Hl Hd.
  - apply (hash_frame_symmetric Big.S 0 156 164 eq_refl eq_refl eq_refl ltac:(lia) 136 eq_refl)
      with (t := t); done.
  - apply (hash_frame_symmetric SimpleHash.S 0 16 20 eq_refl eq_refl eq_refl ltac:(lia) 8 eq_refl)
      with (t := t); done.
Qed.

(** Two packets with the endpoints exchanged. *)
Record reverse_packets (pkt pkt' : list Z) (ihl ihl' : Z) : Prop := {
  rev_addr0 : slice 26 4 pkt' = slice 30 4 pkt;
  rev_addr1 : slice 30 4 pkt' = slice 26 4 pkt;
  rev_port0 : slice (Z.to_nat (14 + 4 * ihl')) 2 pkt' = slice (Z.to_nat (16 + 4 * ihl)) 2 pkt;
  rev_port1 : slice (Z.to_nat (16 + 4 * ihl')) 2 pkt' = slice (Z.to_nat (14 + 4 * ihl)) 2 pkt }.

Lemma slice_app off a b l : slice off (a + b) l = slice off a l ++ slice (off + a) b l.
Proof. unfold slice. by rewrite <- drop_drop, take_take_drop. Qed.

Lemma list_inserts_cut {A} i (xs l : list A) :
  (i + length xs <= length l)%nat -> list_inserts i xs l = take i l ++ xs ++ drop (i + length xs) l.
Proof.
  intros Hl. rewrite <- (take_drop i l) at 1. rewrite <- (take_drop (length xs) (drop i l)) at 1.
  assert (length (take i l) = i) as Ei by (rewrite length_take; lia). rewrite <- Ei at 1.
  rewrite list_inserts_mid by (rewrite length_take, length_drop; lia). by rewrite drop_drop.
Qed.

(** What an IPv4 packet leaves outside its ports and addresses. *)
Definition proto_meta (proto : Z) (m : meta) : meta :=
  list_inserts 10 [proto] (list_inserts 0 [XDP2_ADDR_TYPE_IPV4] (list_inserts 8 [0x08; 0x00] m)).

(** The metadata of an IPv4 packet, cut at the ports and addresses. *)
Lemma ipv4_meta_cut pkt ihl proto m :
  ipv4_ports_packet pkt ihl proto -> meta_ok (lo_size SimpleHash.S) m ->
  let m0 := proto_meta proto m in
  ipv4_meta pkt ihl proto m =
    take 16 m0 ++ slice (Z.to_nat (14 + 4 * ihl)) 2 pkt ++ slice (Z.to_nat (16 + 4 * ihl)) 2 pkt ++
    [] ++ slice 26 4 pkt ++ slice 30 4 pkt ++ drop 28 m0.
Proof.
  intros Hp [Hl _] m0. change (lo_size SimpleHash.S) with 56 in Hl.
  pose proof (ip_len _ _ _ Hp) as Hlen. pose proof (ip_ihl _ _ _ Hp) as Hi.
  assert (length m0 = 56%nat) as L0 by (unfold m0, proto_meta; rewrite !length_inserts; lia).
  assert (length (slice 26 8 pkt) = 8%nat) as L8 by (apply slice_length; lia).
  assert (length (slice (Z.to_nat (14 + 4 * ihl)) 4 pkt) = 4%nat) as L4 by (apply slice_length; lia).
  assert (length (take 20 m0) = 20%nat) as L20 by (rewrite length_take; lia).
  unfold ipv4_meta. fold (proto_meta proto m). fold m0.
  rewrite (list_inserts_cut 20) by lia. rewrite L8.
  rewrite list_inserts_cut by (rewrite !length_app, length_drop; lia). rewrite L4.
  rewrite take_app_le, take_take, Nat.min_l by lia. f_equal.
  rewrite drop_app_length' by lia.
  change (slice (Z.to_nat (14 + 4 * ihl)) 4 pkt) with (slice (Z.to_nat (14 + 4 * ihl)) (2 + 2) pkt).
  change (slice 26 8 pkt) with (slice 26 (4 + 4) pkt). rewrite !slice_app, <- !app_assoc.
  by replace (Z.to_nat (14 + 4 * ihl) + 2)%nat with (Z.to_nat (16 + 4 * ihl)) by lia.
Qed.

Lemma ipv4_frame_parts pkt ihl proto m :
  ipv4_ports_packet pkt ihl proto -> meta_ok (lo_size SimpleHash.S) m ->
  frame_parts 0 16 20 0 XDP2_ADDR_TYPE_IPV4 (take 16 (proto_meta proto m))
    (slice (Z.to_nat (14 + 4 * ihl)) 2 pkt) (slice (Z.to_nat (16 + 4 * ihl)) 2 pkt) []
    (slice 26 4 pkt) (slice 30 4 pkt) (drop 28 (proto_meta proto m)).
Proof.
  intros Hp [Hl Hu]. change (lo_size SimpleHash.S) with 56 in Hl.
  pose proof (ip_len _ _ _ Hp) as Hlen. pose proof (ip_ihl _ _ _ Hp) as Hi.
  destruct (ip_bytes _ _ _ Hp) as [Hb _]. pose proof (ip_proto23 _ _ _ Hp) as Hpr.
  apply (Forall_lookup_1 _ _ _ _ Hb) in Hpr.
  assert (length (proto_meta proto m) = 56%nat) as L0 by (unfold proto_meta; rewrite !length_inserts; lia).
  assert (Forall is_u8 (proto_meta proto m)) as U0.
  { unfold proto_meta.
    repeat (apply Forall_inserts; [| repeat (apply Forall_cons_2; [done |]); apply Forall_nil_2]). done. }
  split; cbn [Nat.add]; [rewrite length_take; lia | | apply slice_length; lia .. | done | |].
  - rewrite lookup_take_lt by lia. unfold proto_meta.
    rewrite list_lookup_inserts_lt, list_lookup_inserts by (rewrite ?length_inserts; cbn [length]; lia). done.
  - left. split; [reflexivity | split; apply slice_length; lia].
  - rewrite !Forall_app. split_and!; try by apply slice_u8.
    + by apply Forall_take.
    + constructor.
    + by apply Forall_drop.
Qed.

(** C23: both directions of a connection have one hash. On two Ethernet/IPv4
    packets with the endpoints exchanged (any header lengths and payloads) between
    addresses that are not 2^31 apart, [xdp2_parser_hash_hash_ether] returns the
    same hash when both calls find the same bytes in their metadata, which the
    function does not initialise, whatever these bytes are. *)
Theorem simple_hash_both_directions is_aligned key pkt pkt' ihl ihl' proto m c c' fuel :
  ipv4_ports_packet pkt ihl proto -> ipv4_ports_packet pkt' ihl' proto ->
  reverse_packets pkt pkt' ihl ihl' -> meta_ok (lo_size SimpleHash.S) m ->
  (le_val (slice 30 4 pkt) - le_val (slice 26 4 pkt)) mod 2 ^ 32 <> 2 ^ 31 ->
  exists h, 1 <= h < 2 ^ 32 /\
    xdp2_parser_hash_hash_ether is_aligned key fuel c m (Ptr pkt 0) (Z.of_nat (length pkt)) = Done h /\
    xdp2_parser_hash_hash_ether is_aligned key fuel c' m (Ptr pkt' 0) (Z.of_nat (length pkt')) = Done h.
Proof.
  intros Hp Hp' [R0 R1 R2 R3] Hm Hd. unfold xdp2_parser_hash_hash_ether.
  destruct (simple_hash_ipv4_run pkt ihl proto m c fuel Hp Hm) as [c1 ->].
  destruct (simple_hash_ipv4_run pkt' ihl' proto m c' fuel Hp' Hm) as [c2 ->].
  orun. change (XDP2_STOP_OKAY =? XDP2_STOP_OKAY) with true. cbn [negb]. cbv iota. cbn [st_meta].
  rewrite (ipv4_meta_cut pkt ihl proto m Hp Hm), (ipv4_meta_cut pkt' ihl' proto m Hp' Hm).
  rewrite R0, R1, R2, R3.
  destruct (hash_frame_symmetric SimpleHash.S 0 16 20 eq_refl eq_refl eq_refl ltac:(lia) 8 eq_refl
              ltac:(cbn; lia) is_aligned key 0 _ _ _ _ _ _ _ _ (ipv4_frame_parts pkt ihl proto m Hp Hm))
    as (h & m' & Hh & E1 & E2); [| done |].
  - rewrite <- (ipv4_meta_cut pkt ihl proto m Hp Hm). unfold ipv4_meta. rewrite !length_inserts.
    destruct Hm as [-> _]. cbn; lia.
  - exists h. split; [done |]. change (Z.of_nat 0) with 0 in *. by rewrite E1, E2.
Qed.

(** A TCP packet from 10.0.0.1:4660 to 10.0.0.2:80, and the answer. *)
Definition tcp_packet (saddr daddr ports : list Z) : list Z :=
  [2; 0; 0; 0; 0; 1; 2; 0; 0; 0; 0; 2; 0x08; 0x00] ++
  [0x45; 0; 0; 24; 0; 0; 0; 0; 64; IPPROTO_TCP; 0; 0] ++ saddr ++ daddr ++ ports.

Definition tcp_there := tcp_packet [10; 0; 0; 1] [10; 0; 0; 2] [0x12; 0x34; 0; 80].
Definition tcp_back := tcp_packet [10; 0; 0; 2] [10; 0; 0; 1] [0; 80; 0x12; 0x34].

Ltac bytes_here := repeat (apply Forall_cons_2; [done |]); apply Forall_nil_2.

Ltac packet_here :=
  constructor; try reflexivity; try lia;
  [split; [bytes_here | by vm_compute] | by exists 0].

Lemma tcp_there_packet : ipv4_ports_packet tcp_there 5 IPPROTO_TCP.
Proof. packet_here. Qed.

Lemma tcp_back_packet : ipv4_ports_packet tcp_back 5 IPPROTO_TCP.
Proof. packet_here. Qed.

Lemma simple_hash_both_directions_witness :
  exists h, 1 <= h < 2 ^ 32 /\
    xdp2_parser_hash_hash_ether true sample_key 9 ctrl0 (replicate 56 0) (Ptr tcp_there 0) 38 = Done h /\
    xdp2_parser_hash_hash_ether true sample_key 9 ctrl0 (replicate 56 0) (Ptr tcp_back 0) 38 = Done h.
Proof.
  apply (simple_hash_both_directions true sample_key tcp_there tcp_back 5 5 IPPROTO_TCP
           (replicate 56 0) ctrl0 ctrl0 9); [apply tcp_there_packet | apply tcp_back_packet | | |].
  - by split.
  - apply (meta_zero_ok 56).
  - by vm_compute.
Defined.

(** A frame of the big parser with IPv6 addresses. *)
Lemma flow_hash_symmetric_witness :
  let pre := 2 :: replicate 155 0 in
  let a := replicate 15 0 ++ [1] in let b := replicate 15 0 ++ [2] in
  exists h m', 1 <= h < 2 ^ 32 /\
    hash_frame Big.S true sample_key 0 (pre ++ [0; 80] ++ [1; 2] ++ replicate 4 0 ++ a ++ b ++ replicate 4 0)
      = Done (h, m') /\
    hash_frame Big.S true sample_key 0 (pre ++ [1; 2] ++ [0; 80] ++ replicate 4 0 ++ b ++ a ++ replicate 4 0)
      = Done (h, m').
Proof.
  apply (flow_hash_symmetric Big.S true sample_key 0 XDP2_ADDR_TYPE_IPV6); [by left | | by vm_compute | done].
  split; try reflexivity; [by right | bytes_here].
Defined.

(** The exception is real. For the addresses 10.0.0.1 and 10.0.0.129 the
    difference overflows to the same negative number in both directions, both
    packets are exchanged, and the two directions get different hashes. *)
Theorem simple_hash_distance_2_31 :
  xdp2_parser_hash_hash_ether true sample_key 9 ctrl0 (replicate 56 0)
    (Ptr (tcp_packet [10; 0; 0; 1] [10; 0; 0; 129] [0x12; 0x34; 0; 80]) 0) 38 <>
  xdp2_parser_hash_hash_ether true sample_key 9 ctrl0 (replicate 56 0)
    (Ptr (tcp_packet [10; 0; 0; 129] [10; 0; 0; 1] [0; 80; 0x12; 0x34]) 0) 38.
Proof. by vm_compute. Qed.
