(* ===== verification/Checksum.v ===== *)
(** * Internet checksum

    The functions of [src/src/include/xdp2/checksum.h]: folding of a wide sum to
    sixteen bits, addition with end around carry at three widths, and the
    checksum of a buffer by 32-bit words. The reference is arithmetic on
    ones' complement sums: a sum modulo [2^16 - 1] in which zero stands only for
    the sum of nothing but zeros. *)

From stdpp Require Import base list numbers.
From S2P Require Import Prelude FlagFields Bytes.

(** ** The code *)

Definition __xdp2_checksum_fold32 (val : Z) : Z :=
  let val := u32 (Z.land val 0xffff + Z.shiftr val 16) in
  let val := u32 (val + Z.shiftr val 16) in
  Z.land val 0xffff.

Definition __xdp2_checksum_fold64 (val : Z) : Z :=
  let val := u64 (Z.land val 0xffffffff + Z.shiftr val 32) in
  let val := u64 (val + Z.shiftr val 32) in
  __xdp2_checksum_fold32 (u32 val).

(** [~0xffff] is an [int] that is converted to 64 bits. *)
Definition __xdp2_checksum_add16 (val1 val2 : Z) : Z :=
  let sum := u32 (Z.land val1 0xffff + val2) in
  let sum := u32 (sum + Z.shiftr sum 16) in
  Z.lor (Z.land val1 (u64 (Z.lnot 0xffff))) (Z.land sum 0xffff).

Definition __xdp2_checksum_add32 (val1 val2 : Z) : Z :=
  let sum := u64 (Z.land val1 0xffffffff + val2) in
  let sum := u64 (sum + Z.shiftr sum 32) in
  Z.lor (Z.land val1 (u64 (Z.lnot 0xffffffff))) (Z.land sum 0xffffffff).

Definition __xdp2_checksum_add64 (val1 val2 : Z) : Z :=
  let sum := u64 (Z.land val1 0xffffffff + Z.land val2 0xffffffff) in
  u64 (sum + (Z.shiftr val1 32 + Z.shiftr val2 32)).

(** [for (i = 0; i < len / sizeof(__u32); i++, src += sizeof(__u32))] with [n]
    iterations left; returns [sum] and [src]. *)
Fixpoint checksum_loop (n : nat) (src : ptr) (sum : Z) : outcome (Z * ptr) :=
  match n with
  | O => mret (sum, src)
  | S n' => w ← ld32 src 0; checksum_loop n' (padd src 4) (u64 (sum + w))
  end.

(** The assertion on the length ends the program. *)
Definition __xdp2_checksum_compute (src : ptr) (len : Z) : outcome Z :=
  if negb (len <? 2 ^ 32) then Crash else
  '(sum, src) ← checksum_loop (Z.to_nat (len / 4)) src 0;
  '(sum, src) ← (if Z.testbit len 1
                 then h ← ld16 src 0; mret (u64 (sum + h), padd src 2) else mret (sum, src));
  sum ← (if Z.testbit len 0 then b ← ld8 src 0; mret (u64 (sum + b)) else mret sum);
  mret (__xdp2_checksum_fold64 sum).

Definition xdp2_checksum_fold32 := __xdp2_checksum_fold32.
Definition xdp2_checksum_fold64 := __xdp2_checksum_fold64.
Definition xdp2_checksum_add16 := __xdp2_checksum_add16.
Definition xdp2_checksum_add32 := __xdp2_checksum_add32.
Definition xdp2_checksum_add64 := __xdp2_checksum_add64.
Definition xdp2_checksum_compute := __xdp2_checksum_compute.

(** ** Reference *)

(** The ones' complement representative of a sum, for the modulus
    [m = 2^w - 1]. *)
Definition norm (m x : Z) : Z := if x =? 0 then 0 else 1 + (x - 1) mod m.

(** Sum of the little endian 16-bit words of a buffer, the last one padded
    with a zero byte. *)
Fixpoint sum16 (bs : list Z) : Z :=
  match bs with
  | b0 :: b1 :: bs' => b0 + 2 ^ 8 * b1 + sum16 bs'
  | [b] => b
  | [] => 0
  end.

Definition checksum_ref (bs : list Z) : Z := norm 0xffff (sum16 bs).

(** ** Ones' complement arithmetic *)

Lemma norm_range m x : 0 < m -> 0 <= norm m x <= m.
Proof.
  intros Hm. unfold norm. zcase; [lia |]. pose proof (Z.mod_pos_bound (x - 1) m Hm). lia.
Qed.

Lemma norm_small m x : 0 <= x <= m -> norm m x = x.
Proof. intros Hx. unfold norm. zcase; [lia |]. rewrite Z.mod_small; lia. Qed.

Lemma norm_add_mul m x k : 0 < m -> 0 < x -> 0 < x + k * m -> norm m (x + k * m) = norm m x.
Proof.
  intros Hm Hx Hk. unfold norm. repeat zcase; try lia.
  replace (x + k * m - 1) with (x - 1 + k * m) by lia. by rewrite Z.mod_add by lia.
Qed.

(** Adding the parts above and below bit [w]. *)
Lemma norm_split w x :
  0 < w -> 0 <= x -> norm (2 ^ w - 1) (x mod 2 ^ w + x / 2 ^ w) = norm (2 ^ w - 1) x.
Proof.
  intros Hw Hx. assert (2 <= 2 ^ w) by (change 2 with (2 ^ 1) at 1; apply Z.pow_le_mono_r; lia).
  pose proof (Z.div_mod x (2 ^ w) ltac:(lia)) as E. pose proof (Z.mod_pos_bound x (2 ^ w) ltac:(lia)).
  pose proof (Z.div_pos x (2 ^ w) ltac:(lia) ltac:(lia)).
  destruct (decide (x = 0)) as [-> | Hne]; [by rewrite Z.mod_0_l, Z.div_0_l by lia |].
  set (q := x / 2 ^ w) in *. set (r := x mod 2 ^ w) in *.
  rewrite <- (norm_add_mul (2 ^ w - 1) (r + q) q) by nia. f_equal. lia.
Qed.

(** Two rounds of folding give the representative. *)
Lemma fold_twice w x :
  0 < w -> 0 <= x < 2 ^ (2 * w) ->
  let y := x mod 2 ^ w + x / 2 ^ w in (y + y / 2 ^ w) mod 2 ^ w = norm (2 ^ w - 1) x.
Proof.
  intros Hw Hx y. assert (2 <= 2 ^ w) by (change 2 with (2 ^ 1) at 1; apply Z.pow_le_mono_r; lia).
  assert (2 ^ (2 * w) = 2 ^ w * 2 ^ w) as E2.
  { replace (2 * w) with (w + w) by lia. by rewrite Z.pow_add_r by lia. }
  rewrite <- norm_split by lia. fold y.
  pose proof (Z.mod_pos_bound x (2 ^ w) ltac:(lia)).
  assert (0 <= x / 2 ^ w < 2 ^ w) by (split; [apply Z.div_pos; lia | apply Z.div_lt_upper_bound; lia]).
  assert (0 <= y <= 2 * (2 ^ w - 1)) as Hy by (unfold y; lia). clearbody y.
  destruct (decide (y < 2 ^ w)).
  - rewrite (Z.div_small y), Z.add_0_r, Z.mod_small, norm_small by lia. done.
  - assert (y / 2 ^ w = 1) as -> by (symmetry; apply (Z.div_unique _ _ _ (y - 2 ^ w)); lia).
    rewrite <- (norm_add_mul (2 ^ w - 1) y (-1)) by lia. rewrite norm_small by lia.
    rewrite <- (Z.mod_add _ (-1)) by lia. rewrite Z.mod_small; lia.
Qed.

Lemma norm_norm w v x :
  0 < v -> 0 < w -> 0 <= x -> (2 ^ v - 1 | 2 ^ w - 1) ->
  norm (2 ^ v - 1) (norm (2 ^ w - 1) x) = norm (2 ^ v - 1) x.
Proof.
  intros Hv Hw Hx [k Hk]. assert (2 <= 2 ^ w) by (change 2 with (2 ^ 1) at 1; apply Z.pow_le_mono_r; lia).
  assert (2 <= 2 ^ v) by (change 2 with (2 ^ 1) at 1; apply Z.pow_le_mono_r; lia).
  unfold norm at 2. zcase; [by subst |].
  pose proof (Z.mod_pos_bound (x - 1) (2 ^ w - 1) ltac:(lia)).
  pose proof (Z.div_mod (x - 1) (2 ^ w - 1) ltac:(lia)) as E.
  set (q := (x - 1) / (2 ^ w - 1)) in *. set (r := (x - 1) mod (2 ^ w - 1)) in *.
  rewrite <- (norm_add_mul (2 ^ v - 1) (1 + r) (q * k)); [f_equal; nia | lia | lia | nia].
Qed.

(** The representatives of two sums add up to that of their sum. *)
Lemma norm_add m x y :
  0 < m -> 0 <= x -> 0 <= y -> norm m (norm m x + norm m y) = norm m (x + y).
Proof.
  intros Hm Hx Hy. unfold norm at 2 3. destruct (Z.eqb_spec x 0) as [-> |], (Z.eqb_spec y 0) as [-> |].
  - done.
  - rewrite !Z.add_0_l. unfold norm. repeat zcase; try lia;
      pose proof (Z.mod_pos_bound (y - 1) m Hm); try lia.
    replace (1 + (y - 1) mod m - 1) with ((y - 1) mod m) by lia. by rewrite Z.mod_mod by lia.
  - rewrite !Z.add_0_r. unfold norm. repeat zcase; try lia;
      pose proof (Z.mod_pos_bound (x - 1) m Hm); try lia.
    replace (1 + (x - 1) mod m - 1) with ((x - 1) mod m) by lia. by rewrite Z.mod_mod by lia.
  - pose proof (Z.mod_pos_bound (x - 1) m Hm). pose proof (Z.mod_pos_bound (y - 1) m Hm).
    pose proof (Z.div_mod (x - 1) m ltac:(lia)) as E1. pose proof (Z.div_mod (y - 1) m ltac:(lia)) as E2.
    rewrite <- (norm_add_mul m (1 + (x - 1) mod m + (1 + (y - 1) mod m)) ((x - 1) / m + (y - 1) / m)) by lia.
    f_equal. lia.
Qed.

Lemma norm_cong m x y k : 0 < m -> 0 < x -> 0 < y -> x = y + k * m -> norm m x = norm m y.
Proof. intros Hm Hx Hy ->. apply norm_add_mul; lia. Qed.

(** ** Folding *)

Lemma land_ones_mod x w : 0 <= w -> Z.land x (Z.ones w) = x mod 2 ^ w.
Proof. apply Z.land_ones. Qed.

Lemma fold32_norm x : is_u32 x -> __xdp2_checksum_fold32 x = norm 0xffff x.
Proof.
  intros Hx. unfold is_u32 in Hx. unfold __xdp2_checksum_fold32.
  change 0xffff with (Z.ones 16). rewrite !land_ones_mod, !Z.shiftr_div_pow2 by lia.
  change (norm (Z.ones 16) x) with (norm (2 ^ 16 - 1) x). rewrite <- (fold_twice 16 x) by lia.
  pose proof (Z.mod_pos_bound x (2 ^ 16) ltac:(lia)).
  assert (0 <= x / 2 ^ 16 < 2 ^ 16) by (split; [apply Z.div_pos; lia | apply Z.div_lt_upper_bound; lia]).
  unfold u32. rewrite (Z.mod_small (x mod _ + _)) by lia.
  set (y := x mod 2 ^ 16 + x / 2 ^ 16) in *.
  assert (0 <= y / 2 ^ 16 < 2) by (split; [apply Z.div_pos; lia | apply Z.div_lt_upper_bound; lia]).
  by rewrite (Z.mod_small (y + _)) by lia.
Qed.

Lemma fold64_norm x : is_u64 x -> __xdp2_checksum_fold64 x = norm 0xffff x.
Proof.
  intros Hx. unfold is_u64 in Hx. unfold __xdp2_checksum_fold64.
  change 0xffffffff with (Z.ones 32). rewrite !land_ones_mod, !Z.shiftr_div_pow2 by lia.
  pose proof (Z.mod_pos_bound x (2 ^ 32) ltac:(lia)).
  assert (0 <= x / 2 ^ 32 < 2 ^ 32) by (split; [apply Z.div_pos; lia | apply Z.div_lt_upper_bound; lia]).
  unfold u64. rewrite (Z.mod_small (x mod _ + _)) by lia.
  set (y := x mod 2 ^ 32 + x / 2 ^ 32) in *.
  assert (0 <= y / 2 ^ 32 < 2) by (split; [apply Z.div_pos; lia | apply Z.div_lt_upper_bound; lia]).
  rewrite (Z.mod_small (y + _)) by lia. unfold u32. unfold y. rewrite (fold_twice 32 x) by lia.
  rewrite fold32_norm.
  - change 0xffff with (2 ^ 16 - 1). apply norm_norm; try lia. by exists 65537.
  - pose proof (norm_range (2 ^ 32 - 1) x ltac:(lia)). unfold is_u32. lia.
Qed.

(** ** Buffers *)

Lemma sum16_range bs : Forall is_u8 bs -> 0 <= sum16 bs <= 2 ^ 16 * Z.of_nat (length bs).
Proof.
  induction bs as [bs IH] using (induction_ltof1 _ (@length Z)). intros Hu.
  destruct bs as [| b0 [| b1 bs]]; [done | |]; forall_inv Hu; unfold is_u8 in *; cbn [sum16 length].
  - lia.
  - specialize (IH bs ltac:(unfold ltof; cbn [length]; lia) Hu). lia.
Qed.

(** The loop over 32-bit words adds a number that represents the sum of the
    16-bit words, and stops behind them. *)
Lemma checksum_loop_spec n : forall bs p sum,
  Forall is_u8 bs -> bytes_at p bs -> (4 * n <= length bs)%nat ->
  0 <= sum -> sum + 2 ^ 32 * Z.of_nat n < 2 ^ 64 ->
  exists k, 0 <= k /\
    checksum_loop n p sum = Done (sum + sum16 (take (4 * n) bs) + k * 0xffff, padd p (4 * Z.of_nat n)) /\
    sum16 (take (4 * n) bs) + k * 0xffff <= 2 ^ 32 * Z.of_nat n /\
    (sum16 (take (4 * n) bs) = 0 -> k = 0).
Proof.
  induction n as [| n IH]; intros bs p sum Hu Hat Hl Hs Hb.
  - exists 0. change (take (4 * 0) bs) with (@nil Z). change (4 * Z.of_nat 0) with 0. rewrite padd_0.
    cbn [checksum_loop sum16]. rewrite !Z.add_0_r. split_and!; done.
  - destruct bs as [| b0 [| b1 [| b2 [| b3 bs]]]]; cbn [length] in Hl; try lia.
    assert (ld32 p 0 = Done (le_val [b0; b1; b2; b3])) as Eld.
    { unfold ld32, ld16.
      pose proof (Hat 0%nat b0 eq_refl) as E0. pose proof (Hat 1%nat b1 eq_refl) as E1.
      pose proof (Hat 2%nat b2 eq_refl) as E2. pose proof (Hat 3%nat b3 eq_refl) as E3.
      change (Z.of_nat 0) with 0 in E0. change (Z.of_nat 1) with (0 + 1) in E1.
      change (Z.of_nat 2) with (0 + 2) in E2. change (Z.of_nat 3) with (0 + 2 + 1) in E3.
      rewrite E0, E1, E2, E3. orun. f_equal. cbn [le_val]. lia. }
    cbn [checksum_loop]. rewrite Eld. orun. forall_inv Hu. unfold is_u8 in Hb0, Hb1, Hb2, Hb3.
    set (w := le_val [b0; b1; b2; b3]).
    assert (0 <= w < 2 ^ 32) as Hw by (unfold w; cbn [le_val]; lia).
    rewrite (u64_small (sum + w)) by lia.
    replace (4 * S n)%nat with (4 + 4 * n)%nat by lia. cbn [Nat.add take].
    destruct (IH bs (padd p 4) (sum + w)) as (k & Hk & -> & Hle & Hz);
      [done | apply (bytes_at_app_r p [b0; b1; b2; b3] bs Hat) | lia | lia | lia |].
    exists (k + (b2 + 2 ^ 8 * b3)). rewrite padd_padd. cbn [sum16].
    assert (w = b0 + 2 ^ 8 * b1 + (b2 + 2 ^ 8 * b3) + (b2 + 2 ^ 8 * b3) * 0xffff) as Ew
      by (unfold w; cbn [le_val]; lia).
    pose proof (sum16_range (take (4 * n) bs) ltac:(by apply Forall_take)).
    split_and!; [lia | | lia | lia]. f_equal. f_equal; [lia | f_equal; lia].
Qed.

Lemma sum16_app a : forall b, Nat.Even (length a) -> sum16 (a ++ b) = sum16 a + sum16 b.
Proof.
  induction a as [a IH] using (induction_ltof1 _ (@length Z)). intros b He.
  destruct a as [| b0 [| b1 a]]; [done | destruct He as [k Hk]; cbn [length] in Hk; lia |].
  cbn [app sum16]. rewrite IH; [lia | unfold ltof; cbn [length]; lia |].
  destruct He as [k Hk]. cbn [length] in Hk. exists (k - 1)%nat. lia.
Qed.

(** The bits of the length that select the trailing loads. *)
Lemma testbit_low n r i : 0 <= i < 2 -> 0 <= r < 4 -> Z.testbit (4 * n + r) i = Z.testbit r i.
Proof.
  intros Hi Hr. rewrite <- (Z.mod_pow2_bits_low (4 * n + r) 2 i) by lia. f_equal.
  change (2 ^ 2) with 4. rewrite Z.add_comm, (Z.mul_comm 4), Z.mod_add by lia. apply Z.mod_small; lia.
Qed.

(** What is left behind the 32-bit words. *)
Definition checksum_tail (len : Z) (sum : Z) (src : ptr) : outcome Z :=
  '(sum, src) ← (if Z.testbit len 1
                 then h ← ld16 src 0; mret (u64 (sum + h), padd src 2) else mret (sum, src));
  (if Z.testbit len 0 then b ← ld8 src 0; mret (u64 (sum + b)) else mret sum).

Lemma checksum_tail_spec n tail p sum :
  Forall is_u8 tail -> bytes_at p tail -> (length tail < 4)%nat -> 0 <= sum < 2 ^ 63 ->
  checksum_tail (4 * n + Z.of_nat (length tail)) sum p = Done (sum + sum16 tail).
Proof.
  intros Hu Hat Hl Hs. unfold checksum_tail. rewrite !testbit_low by lia.
  destruct tail as [| b0 [| b1 [| b2 [| b3 tail]]]]; cbn [length] in *; try lia; forall_inv Hu;
    unfold is_u8 in *; cbn [sum16].
  - cbn. orun. f_equal. lia.
  - change (Z.testbit (Z.of_nat 1) 1) with false. change (Z.testbit (Z.of_nat 1) 0) with true. orun.
    pose proof (Hat 0%nat b0 eq_refl) as E0. change (Z.of_nat 0) with 0 in E0. rewrite E0.
    by rewrite u64_small by lia.
  - change (Z.testbit (Z.of_nat 2) 1) with true. change (Z.testbit (Z.of_nat 2) 0) with false. unfold ld16.
    pose proof (Hat 0%nat b0 eq_refl) as E0. change (Z.of_nat 0) with 0 in E0. rewrite E0.
    pose proof (Hat 1%nat b1 eq_refl) as E1. change (Z.of_nat 1) with (0 + 1) in E1. rewrite E1. orun.
    rewrite u64_small by lia. f_equal. lia.
  - change (Z.testbit (Z.of_nat 3) 1) with true. change (Z.testbit (Z.of_nat 3) 0) with true. unfold ld16.
    pose proof (Hat 0%nat b0 eq_refl) as E0. change (Z.of_nat 0) with 0 in E0. rewrite E0.
    pose proof (Hat 1%nat b1 eq_refl) as E1. change (Z.of_nat 1) with (0 + 1) in E1. rewrite E1. orun.
    rewrite ld8_padd. pose proof (Hat 2%nat b2 eq_refl) as E2. change (Z.of_nat 2) with (2 + 0) in E2.
    rewrite E2, (u64_small (sum + _)), u64_small by lia. f_equal. lia.
Qed.

Lemma checksum_compute_eq src len :
  len < 2 ^ 32 ->
  __xdp2_checksum_compute src len =
    ('(sum, src) ← checksum_loop (Z.to_nat (len / 4)) src 0;
     sum ← checksum_tail len sum src; mret (__xdp2_checksum_fold64 sum)).
Proof.
  intros Hl. unfold __xdp2_checksum_compute, checksum_tail. destruct (Z.ltb_spec len (2 ^ 32)); [| lia].
  cbn [negb]. destruct (checksum_loop _ _ _) as [[sum src'] | |]; [| done ..]. orun.
  destruct (Z.testbit len 1); [| by destruct (Z.testbit len 0)].
  destruct (ld16 src' 0); [| done ..]. by destruct (Z.testbit len 0).
Qed.

Lemma checksum_compute_norm src bs :
  Forall is_u8 bs -> bytes_at src bs -> Z.of_nat (length bs) < 2 ^ 32 ->
  __xdp2_checksum_compute src (Z.of_nat (length bs)) = Done (checksum_ref bs).
Proof.
  intros Hu Hat Hl. rewrite checksum_compute_eq by done.
  set (n := (length bs / 4)%nat). set (r := (length bs mod 4)%nat).
  pose proof (Nat.div_mod_eq (length bs) 4) as E. fold n r in E.
  pose proof (Nat.mod_upper_bound (length bs) 4 ltac:(lia)) as Hr. fold r in Hr.
  replace (Z.to_nat (Z.of_nat (length bs) / 4)) with n
    by (change 4 with (Z.of_nat 4); by rewrite <- Nat2Z.inj_div, Nat2Z.id).
  rewrite <- (take_drop (4 * n) bs) in Hat.
  set (w := take (4 * n) bs) in *. set (t := drop (4 * n) bs) in *.
  assert (length w = (4 * n)%nat) as Lw by (unfold w; rewrite length_take; lia).
  assert (length t = r) as Lt by (unfold t; rewrite length_drop; lia).
  assert (Forall is_u8 w) as Uw by by apply Forall_take.
  assert (Forall is_u8 t) as Ut by by apply Forall_drop.
  destruct (checksum_loop_spec n w src 0) as (k & Hk & Eloop & Hle & Hz);
    [done | by apply bytes_at_app_l with t | lia | lia | lia |].
  rewrite take_ge in * by lia. rewrite Eloop. orun.
  pose proof (sum16_range w Uw) as Rw. pose proof (sum16_range t Ut) as Rt.
  replace (Z.of_nat (length bs)) with (4 * Z.of_nat n + Z.of_nat (length t)) by lia.
  rewrite checksum_tail_spec;
    [| done | replace (4 * Z.of_nat n) with (Z.of_nat (length w)) by lia; by apply bytes_at_app_r
     | lia | lia].
  orun. rewrite fold64_norm by (unfold is_u64; lia). f_equal. unfold checksum_ref.
  rewrite <- (take_drop (4 * n) bs). fold w t. rewrite sum16_app by (exists (2 * n)%nat; lia).
  destruct (decide (sum16 w = 0)) as [E0 |].
  - by rewrite (Hz E0), E0.
  - apply (norm_cong _ _ _ k); lia.
Qed.

(** ** Addition with end around carry *)

Lemma u64_lnot w : 0 <= w < 64 -> u64 (Z.lnot (Z.ones w)) = 2 ^ 64 - 2 ^ w.
Proof.
  intros Hw. assert (0 < 2 ^ w < 2 ^ 64) by (split; [lia | apply Z.pow_lt_mono_r; lia]).
  assert (Z.lnot (Z.ones w) = - 2 ^ w) as -> by (rewrite Z.ones_equiv; unfold Z.lnot; lia).
  rewrite u64_neg; lia.
Qed.

(** The bits from [w] on. *)
Lemma land_high x w : 0 <= w < 64 -> is_u64 x -> Z.land x (u64 (Z.lnot (Z.ones w))) = x - x mod 2 ^ w.
Proof.
  intros Hw Hx. unfold is_u64 in Hx.
  assert (Z.land x (u64 (Z.lnot (Z.ones w))) = Z.ldiff x (Z.ones w)) as ->.
  { unfold u64. rewrite <- (Z.land_ones _ 64) by lia. rewrite Z.land_assoc, (Z.land_comm x), <- Z.land_assoc.
    rewrite Z.land_ones, Z.mod_small by lia. by rewrite Z.land_comm, Z.ldiff_land. }
  rewrite Z.ldiff_ones_r, Z.shiftl_mul_pow2, Z.shiftr_div_pow2 by lia.
  pose proof (Z.div_mod x (2 ^ w) ltac:(lia)). lia.
Qed.

Lemma lor_high h l w : 0 <= w -> 0 <= l < 2 ^ w -> (2 ^ w | h) -> Z.lor h l = h + l.
Proof.
  intros Hw Hl [q ->]. rewrite Z.lor_comm, <- Z.shiftl_mul_pow2, lor_shiftl by lia.
  rewrite Z.shiftl_mul_pow2; lia.
Qed.

(** One addition at width [w]: the low part with carry, the high part as it
    was. *)
Lemma add_carry w x y :
  0 < w < 64 -> is_u64 x -> 0 <= y < 2 ^ w ->
  let s := x mod 2 ^ w + y in
  exists k, 0 <= k <= 1 /\
    Z.lor (Z.land x (u64 (Z.lnot (Z.ones w)))) (Z.land (s + Z.shiftr s w) (Z.ones w)) =
      x + y - k * (2 ^ w - 1) /\ (k = 1 -> 2 ^ w <= x + y).
Proof.
  intros Hw Hx Hy s. rewrite land_high, Z.land_ones, Z.shiftr_div_pow2 by (done || lia).
  unfold is_u64 in Hx. pose proof (Z.mod_pos_bound x (2 ^ w) ltac:(lia)).
  pose proof (Z.div_mod x (2 ^ w) ltac:(lia)) as E. pose proof (Z.div_pos x (2 ^ w) ltac:(lia) ltac:(lia)).
  rewrite (lor_high _ _ w); [| lia | apply Z.mod_pos_bound; lia | exists (x / 2 ^ w); lia].
  assert (s = x mod 2 ^ w + y) as Es by done. clearbody s.
  assert (x mod 2 ^ w <= x) by (apply Z.mod_le; lia).
  destruct (decide (s < 2 ^ w)) as [Hlt | Hge].
  - exists 0. rewrite (Z.div_small s), Z.add_0_r, (Z.mod_small s) by lia. lia.
  - assert (s / 2 ^ w = 1) as -> by (symmetry; apply (Z.div_unique _ _ _ (s - 2 ^ w)); lia).
    exists 1. split; [lia |]. rewrite <- (Z.mod_add (s + 1) (-1)) by lia.
    rewrite (Z.mod_small (s + 1 + _)) by lia. lia.
Qed.

(** The representative after such an addition. *)
Lemma norm_after_carry w x y k :
  0 < w -> (0xffff | 2 ^ w - 1) -> is_u64 x -> 0 <= y -> x + y < 2 ^ 64 -> 0 <= k <= 1 ->
  (k = 1 -> 2 ^ w <= x + y) ->
  __xdp2_checksum_fold64 (x + y - k * (2 ^ w - 1)) = norm 0xffff (x + y).
Proof.
  intros Hw [j Hj] Hx Hy Hs Hk Hge. unfold is_u64 in Hx.
  assert (k = 0 \/ k = 1) as [-> | ->] by lia.
  - rewrite fold64_norm by (unfold is_u64; lia). f_equal. lia.
  - rewrite fold64_norm by (unfold is_u64; lia).
    apply (norm_cong _ _ _ (- j)); [done | lia | lia |]. rewrite Hj. lia.
Qed.

(** The code's low part does not wrap around. *)
Lemma carry_small w b s :
  0 < w < b - 1 -> 0 <= s < 2 ^ (w + 1) -> (s + Z.shiftr s w) mod 2 ^ b = s + Z.shiftr s w.
Proof.
  intros Hw Hs. rewrite Z.pow_add_r in Hs by lia.
  assert (2 ^ w * 4 <= 2 ^ b).
  { change 4 with (2 ^ 2). rewrite <- Z.pow_add_r by lia. apply Z.pow_le_mono_r; lia. }
  rewrite Z.shiftr_div_pow2 by lia.
  assert (0 <= s / 2 ^ w < 2) by (split; [apply Z.div_pos; lia | apply Z.div_lt_upper_bound; lia]).
  apply Z.mod_small. lia.
Qed.

Lemma add16_norm x y :
  is_u64 x -> 0 <= y < 2 ^ 16 -> x + y < 2 ^ 64 ->
  __xdp2_checksum_fold64 (__xdp2_checksum_add16 x y) = norm 0xffff (x + y).
Proof.
  intros Hx Hy Hs. destruct (add_carry 16 x y ltac:(lia) Hx Hy) as (k & Hk & E & Hge). cbv zeta in E.
  pose proof (Z.mod_pos_bound x (2 ^ 16) ltac:(lia)).
  assert (0xffff | 2 ^ 16 - 1) as Hd by by exists 1.
  rewrite <- (norm_after_carry 16 x y k) by (done || lia). rewrite <- E.
  unfold __xdp2_checksum_add16. change 0xffff with (Z.ones 16). rewrite (Z.land_ones x 16) by lia.
  unfold u32. rewrite (Z.mod_small (x mod 2 ^ 16 + y)) by lia.
  rewrite (carry_small 16 32 (x mod 2 ^ 16 + y)) by lia. done.
Qed.

Lemma add32_norm x y :
  is_u64 x -> 0 <= y < 2 ^ 32 -> x + y < 2 ^ 64 ->
  __xdp2_checksum_fold64 (__xdp2_checksum_add32 x y) = norm 0xffff (x + y).
Proof.
  intros Hx Hy Hs. destruct (add_carry 32 x y ltac:(lia) Hx Hy) as (k & Hk & E & Hge). cbv zeta in E.
  pose proof (Z.mod_pos_bound x (2 ^ 32) ltac:(lia)).
  assert (0xffff | 2 ^ 32 - 1) as Hd by by exists 65537.
  rewrite <- (norm_after_carry 32 x y k) by (done || lia). rewrite <- E.
  unfold __xdp2_checksum_add32. change 0xffffffff with (Z.ones 32). rewrite (Z.land_ones x 32) by lia.
  rewrite (u64_small (x mod 2 ^ 32 + y)) by lia. set (s := x mod 2 ^ 32 + y) in *.
  assert (u64 (s + Z.shiftr s 32) = s + Z.shiftr s 32) as -> by (apply (carry_small 32 64); lia). done.
Qed.

Lemma add64_norm x y :
  is_u64 x -> is_u64 y ->
  __xdp2_checksum_fold64 (__xdp2_checksum_add64 x y) = norm 0xffff (x + y).
Proof.
  unfold is_u64. intros Hx Hy. unfold __xdp2_checksum_add64. change 0xffffffff with (Z.ones 32).
  rewrite !Z.land_ones, !Z.shiftr_div_pow2 by lia.
  pose proof (Z.mod_pos_bound x (2 ^ 32) ltac:(lia)). pose proof (Z.mod_pos_bound y (2 ^ 32) ltac:(lia)).
  pose proof (Z.div_mod x (2 ^ 32) ltac:(lia)) as Ex. pose proof (Z.div_mod y (2 ^ 32) ltac:(lia)) as Ey.
  assert (0 <= x / 2 ^ 32 < 2 ^ 32) by (split; [apply Z.div_pos; lia | apply Z.div_lt_upper_bound; lia]).
  assert (0 <= y / 2 ^ 32 < 2 ^ 32) by (split; [apply Z.div_pos; lia | apply Z.div_lt_upper_bound; lia]).
  set (qx := x / 2 ^ 32) in *. set (qy := y / 2 ^ 32) in *.
  set (rx := x mod 2 ^ 32) in *. set (ry := y mod 2 ^ 32) in *. clearbody qx qy rx ry.
  rewrite (u64_small (rx + ry)), u64_small, fold64_norm by (unfold is_u64; lia).
  destruct (decide (x + y = 0)) as [E | E]; [f_equal; lia |].
  apply (norm_cong _ _ _ (- (65537 * (qx + qy)))); lia.
Qed.

(** ** Theorems *)

(** C24: the checksum of a buffer. For every buffer below 4 GB, of even or odd
    length and whatever its alignment, [xdp2_checksum_compute] reads exactly the
    buffer and returns the ones' complement sum of its 16-bit words. *)
Theorem checksum_compute_ref src bs :
  Forall is_u8 bs -> bytes_at src bs -> Z.of_nat (length bs) < 2 ^ 32 ->
  xdp2_checksum_compute src (Z.of_nat (length bs)) = Done (checksum_ref bs).
Proof. apply checksum_compute_norm. Qed.

Lemma checksum_compute_ref_witness :
  xdp2_checksum_compute (Ptr [0x45; 0; 0xff; 0xff; 7] 0) 5 = Done 0x4c.
Proof.
  apply (checksum_compute_ref (Ptr [0x45; 0; 0xff; 0xff; 7] 0) [0x45; 0; 0xff; 0xff; 7]);
    [repeat (apply Forall_cons_2; [done |]); apply Forall_nil_2 | apply bytes_at_self | done].
Defined.

(** Checksums of pieces. The checksum of a buffer is the folded sum of the
    checksum of a prefix of even length and the checksum of the rest, added at
    any of the three widths. *)
Theorem checksum_of_pieces a b pa pb pab :
  Forall is_u8 (a ++ b) -> Nat.Even (length a) -> Z.of_nat (length (a ++ b)) < 2 ^ 32 ->
  bytes_at pa a -> bytes_at pb b -> bytes_at pab (a ++ b) ->
  exists ca cb c,
    xdp2_checksum_compute pa (Z.of_nat (length a)) = Done ca /\
    xdp2_checksum_compute pb (Z.of_nat (length b)) = Done cb /\
    xdp2_checksum_compute pab (Z.of_nat (length (a ++ b))) = Done c /\
    xdp2_checksum_fold64 (xdp2_checksum_add16 ca cb) = c /\
    xdp2_checksum_fold64 (xdp2_checksum_add32 ca cb) = c /\
    xdp2_checksum_fold64 (xdp2_checksum_add64 ca cb) = c.
Proof.
  intros Hu He Hl Ha Hb Hab. pose proof Hu as [Ua Ub]%Forall_app. rewrite length_app in Hl.
  exists (checksum_ref a), (checksum_ref b), (checksum_ref (a ++ b)).
  pose proof (norm_range 0xffff (sum16 a) ltac:(done)) as Ra. fold (checksum_ref a) in Ra.
  pose proof (norm_range 0xffff (sum16 b) ltac:(done)) as Rb. fold (checksum_ref b) in Rb.
  split; [apply checksum_compute_norm; done || lia |]. split; [apply checksum_compute_norm; done || lia |].
  split; [apply checksum_compute_norm; rewrite ?length_app; done || lia |].
  assert (norm 0xffff (checksum_ref a + checksum_ref b) = checksum_ref (a ++ b)) as E.
  { unfold checksum_ref. rewrite sum16_app by done. apply norm_add; [done | by apply sum16_range ..]. }
  unfold xdp2_checksum_fold64, xdp2_checksum_add16, xdp2_checksum_add32, xdp2_checksum_add64.
  rewrite add16_norm, add32_norm, add64_norm by (unfold is_u64; lia). done.
Qed.

Lemma checksum_of_pieces_witness :
  exists ca cb c,
    xdp2_checksum_compute (Ptr [0xff; 0xff] 0) 2 = Done ca /\
    xdp2_checksum_compute (Ptr [1; 2; 3] 0) 3 = Done cb /\
    xdp2_checksum_compute (Ptr [0xff; 0xff; 1; 2; 3] 0) 5 = Done c /\
    xdp2_checksum_fold64 (xdp2_checksum_add16 ca cb) = c /\
    xdp2_checksum_fold64 (xdp2_checksum_add32 ca cb) = c /\
    xdp2_checksum_fold64 (xdp2_checksum_add64 ca cb) = c.
Proof.
  apply (checksum_of_pieces [0xff; 0xff] [1; 2; 3]);
    [repeat (apply Forall_cons_2; [done |]); apply Forall_nil_2 | by exists 1%nat | done
    | apply bytes_at_self ..].
Defined.
