(* ===== verification/BitmapWord.v ===== *)
(** * Bitmap words

    [include/xdp2/bitmap_word.h]: operations on the bits of one word of 8, 16,
    32 or 64 bits, and the base-two logarithm macros of
    [include/xdp2/utility.h] they use. A word is a [Z] in range; the width is
    the parameter [n] of every operation, as [N] is of the macros that make
    them. A shift by an amount outside the width of its operand is undefined
    in C and is a [Crash] here. *)

From stdpp Require Import base list numbers.
From S2P Require Import Prelude.

Definition trunc (n v : Z) : Z := v mod 2 ^ n.

Definition is_word (n v : Z) : Prop := 0 <= v < 2 ^ n.

(** The widths for which the operations are made. *)
Definition word_bits (n : Z) : Prop := n = 8 \/ n = 16 \/ n = 32 \/ n = 64.

(** ** Shifts *)

(** A shift of a value of [width] bits. *)
Definition c_shl (width v s : Z) : outcome Z :=
  if (0 <=? s) && (s <? width) then Done (trunc width (Z.shiftl v s)) else Crash.
Definition c_shr (width v s : Z) : outcome Z :=
  if (0 <=? s) && (s <? width) then Done (Z.shiftr v s) else Crash.

Definition XDP2_BIT (i : Z) : outcome Z := c_shl 64 1 i.

(** ** Bit access *)

Definition xdp2_bitmap_word_set (n v index : Z) : outcome Z :=
  b ← XDP2_BIT index; mret (trunc n (Z.lor v b)).

Definition xdp2_bitmap_word_unset (n v index : Z) : outcome Z :=
  b ← XDP2_BIT index; mret (trunc n (Z.land v (u64 (Z.lnot b)))).

Definition xdp2_bitmap_word_isset (v index : Z) : outcome bool :=
  b ← XDP2_BIT index; mret (negb (Z.land v b =? 0)).

(** ** Weight *)

(** [__builtin_popcount]: the number of ones among the low [k] bits. *)
Fixpoint popcount (k : nat) (v : Z) : Z :=
  match k with
  | O => 0
  | S k => popcount k v + Z.b2z (Z.testbit v (Z.of_nat k))
  end.

(** The operand of the builtin: [unsigned int] up to 32 bits. *)
Definition builtin_bits (n : Z) : Z := if n <=? 32 then 32 else 64.

Definition weight_popcount (n v : Z) : Z :=
  popcount (Z.to_nat (builtin_bits n)) (trunc (builtin_bits n) v).

Fixpoint weight_loop (k : nat) (v i w : Z) : outcome Z :=
  match k with
  | O => mret w
  | S k => b ← xdp2_bitmap_word_isset v i; weight_loop k v (i + 1) (u32 (w + Z.b2z b))
  end.

Definition weight_default (n v : Z) : outcome Z := weight_loop (Z.to_nat n) v 0 0.

Definition xdp2_bitmap_word_weight := weight_popcount.

(** ** Find *)

(** [ffs] and [ffsl] on a value of [k] bits, the first of which is bit [i]. *)
Fixpoint ffs_from (k : nat) (i v : Z) : Z :=
  match k with
  | O => 0
  | S k => if Z.testbit v i then i + 1 else ffs_from k (i + 1) v
  end.

Definition find_ffs (n v : Z) : Z :=
  let ret := ffs_from (Z.to_nat (builtin_bits n)) 0 (trunc (builtin_bits n) v) in
  if ret =? 0 then n else ret - 1.

Fixpoint word_find_loop (k : nat) (v i : Z) : outcome Z :=
  match k with
  | O => mret i
  | S k => b ← xdp2_bitmap_word_isset v i; if b : bool then mret i else word_find_loop k v (i + 1)
  end.

Definition find_default (n v : Z) : outcome Z := word_find_loop (Z.to_nat n) v 0.

Definition xdp2_bitmap_word_find := find_ffs.

Definition xdp2_bitmap_word_find_start (n v pos : Z) : outcome Z :=
  b ← XDP2_BIT pos;
  let mask := trunc n (Z.lnot (b - 1)) in
  mret (xdp2_bitmap_word_find n (trunc n (Z.land v mask))).

Definition xdp2_bitmap_word_find_zero (n v : Z) : Z :=
  xdp2_bitmap_word_find n (trunc n (Z.lnot v)).

Definition xdp2_bitmap_word_find_zero_start (n v pos : Z) : outcome Z :=
  xdp2_bitmap_word_find_start n (trunc n (Z.lnot v)) pos.

(** The mask is computed once before the bound on [pos] is tested. *)
Definition xdp2_bitmap_word_find_next (n v pos : Z) : outcome Z :=
  _ ← XDP2_BIT (u32 (pos + 1));
  if n - 1 <=? pos then mret n else
  b ← XDP2_BIT (u32 (pos + 1));
  let mask := trunc n (Z.lnot (b - 1)) in
  mret (xdp2_bitmap_word_find n (trunc n (Z.land v mask))).

Definition xdp2_bitmap_word_find_next_zero (n v pos : Z) : outcome Z :=
  xdp2_bitmap_word_find_next n (trunc n (Z.lnot v)) pos.

(** ** Reverse find *)

Fixpoint rev_find_loop (k : nat) (n v : Z) : outcome Z :=
  match k with
  | O => mret n
  | S k =>
    b ← xdp2_bitmap_word_isset v (Z.of_nat k);
    if b : bool then mret (Z.of_nat k) else rev_find_loop k n v
  end.

Definition rev_find_default (n v : Z) : outcome Z := rev_find_loop (Z.to_nat n) n v.

(** The logarithm macros. *)
Definition XDP2_LOG_1 (n : Z) : Z := if 2 <=? n then 1 else 0.
Definition XDP2_LOG_2 (n : Z) : Z :=
  if Z.shiftl 1 2 <=? n then 2 + XDP2_LOG_1 (Z.shiftr n 2) else XDP2_LOG_1 n.
Definition XDP2_LOG_4 (n : Z) : Z :=
  if Z.shiftl 1 4 <=? n then 4 + XDP2_LOG_2 (Z.shiftr n 4) else XDP2_LOG_2 n.
Definition XDP2_LOG_8 (n : Z) : Z :=
  if Z.shiftl 1 8 <=? n then 8 + XDP2_LOG_4 (Z.shiftr n 8) else XDP2_LOG_4 n.
Definition XDP2_LOG_16 (n : Z) : Z :=
  if Z.shiftl 1 16 <=? n then 16 + XDP2_LOG_8 (Z.shiftr n 16) else XDP2_LOG_8 n.
Definition XDP2_LOG_8BITS (n : Z) : Z :=
  if Z.shiftl 1 4 <=? n then 4 + XDP2_LOG_2 (Z.shiftr n 4) else XDP2_LOG_2 n.
Definition XDP2_LOG_16BITS (n : Z) : Z :=
  if Z.shiftl 1 8 <=? n then 8 + XDP2_LOG_4 (Z.shiftr n 8) else XDP2_LOG_4 n.
Definition XDP2_LOG_32BITS (n : Z) : Z :=
  if Z.shiftl 1 16 <=? n then 16 + XDP2_LOG_8 (Z.shiftr n 16) else XDP2_LOG_8 n.
Definition XDP2_LOG_64BITS (n : Z) : Z :=
  if Z.shiftl 1 32 <=? n then 32 + XDP2_LOG_16 (Z.shiftr n 32) else XDP2_LOG_16 n.

Definition XDP2_LOG_BITS (n v : Z) : Z :=
  if n =? 8 then XDP2_LOG_8BITS v
  else if n =? 16 then XDP2_LOG_16BITS v
  else if n =? 32 then XDP2_LOG_32BITS v
  else XDP2_LOG_64BITS v.

Definition rev_find_log (n v : Z) : Z := if v =? 0 then n else XDP2_LOG_BITS n v.

Definition xdp2_bitmap_word_rev_find := rev_find_log.

Definition xdp2_bitmap_word_rev_find_start (n v pos : Z) : outcome Z :=
  mask ← (if pos =? 63 then mret (trunc n (2 ^ 64 - 1))
          else b ← XDP2_BIT (u32 (pos + 1)); mret (trunc n (b - 1)));
  mret (xdp2_bitmap_word_rev_find n (Z.land v mask)).

Definition xdp2_bitmap_word_rev_find_zero_start (n v pos : Z) : outcome Z :=
  xdp2_bitmap_word_rev_find_start n (trunc n (Z.lnot v)) pos.

Definition xdp2_bitmap_word_rev_find_next (n v pos : Z) : outcome Z :=
  if pos =? 0 then mret n else
  b ← XDP2_BIT pos;
  mret (xdp2_bitmap_word_rev_find n (Z.land v (trunc n (b - 1)))).

Definition xdp2_bitmap_word_rev_find_next_zero (n v pos : Z) : outcome Z :=
  xdp2_bitmap_word_rev_find_next n (trunc n (Z.lnot v)) pos.

(** ** Comparison and copies *)

Definition xdp2_bitmap_word_cmp (n v1 v2 : Z) : Z := xdp2_bitmap_word_find n (Z.lxor v1 v2).

Definition xdp2_bitmap_word_cmp_start (n v1 v2 pos : Z) : outcome Z :=
  b ← XDP2_BIT pos;
  let mask := trunc n (Z.lnot (b - 1)) in
  mret (xdp2_bitmap_word_cmp n (Z.land v1 mask) (Z.land v2 mask)).

Definition xdp2_bitmap_word_rev_start (n v1 v2 pos : Z) : outcome Z :=
  b ← XDP2_BIT (u32 (pos + 1));
  let mask := trunc n (b - 1) in
  mret (xdp2_bitmap_word_cmp n (Z.land v1 mask) (Z.land v2 mask)).

Definition xdp2_bitmap_word_copy (v : Z) : Z := v.

Definition xdp2_bitmap_word_copy_start (n v pos : Z) : outcome Z :=
  b ← XDP2_BIT pos; mret (xdp2_bitmap_word_copy (trunc n (Z.land v (Z.lnot (b - 1))))).

Definition xdp2_bitmap_word_copy_rev_start (n v pos : Z) : outcome Z :=
  b ← XDP2_BIT pos; mret (xdp2_bitmap_word_copy (trunc n (Z.land v (Z.lnot (b - 1))))).

Definition xdp2_bitmap_word_not (n v : Z) : Z := trunc n (Z.lnot v).

Definition xdp2_bitmap_word_not_start (n v pos : Z) : outcome Z :=
  b ← XDP2_BIT pos; mret (xdp2_bitmap_word_not n (trunc n (Z.land v (Z.lnot (b - 1))))).

Definition xdp2_bitmap_word_not_rev_start (n v pos : Z) : outcome Z :=
  b ← XDP2_BIT pos; mret (xdp2_bitmap_word_not n (trunc n (Z.land v (b - 1)))).

(** ** Binary operations *)

Inductive binop := BAnd | BOr | BXor.

Definition binop_val (o : binop) : Z -> Z -> Z :=
  match o with BAnd => Z.land | BOr => Z.lor | BXor => Z.lxor end.

(** The logical negation [!], which is what the word operations use for their
    negated forms. *)
Definition logical_not (v : Z) : Z := if v =? 0 then 1 else 0.

Definition opt_not (b : bool) (f : Z -> Z) (v : Z) : Z := if b then f v else v.

(** [NOT ((S1_OP v1) OP (S2_OP v2))] with [S1_OP] always empty. *)
Definition xdp2_bitmap_word_op (n : Z) (o : binop) (nt s2 : bool) (v1 v2 : Z) : Z :=
  trunc n (opt_not nt logical_not (binop_val o v1 (opt_not s2 logical_not v2))).

Definition xdp2_bitmap_word_op_start (n : Z) (o : binop) (nt s2 : bool) (v1 v2 pos : Z) : outcome Z :=
  b ← XDP2_BIT pos;
  let mask := trunc n (Z.lnot (b - 1)) in
  mret (trunc n (Z.land (opt_not nt logical_not (binop_val o v1 (opt_not s2 logical_not v2))) mask)).

Definition xdp2_bitmap_word_op_rev_start (n : Z) (o : binop) (nt s2 : bool) (v1 v2 pos : Z) : outcome Z :=
  b ← XDP2_BIT (u32 (pos + 1));
  let mask := trunc n (b - 1) in
  mret (trunc n (Z.land (opt_not nt logical_not (binop_val o v1 (opt_not s2 logical_not v2))) mask)).

(** ** Expand and extract

    The bit that is moved is a [bool], promoted to a signed [int] before it is
    shifted; a shift that leaves the [int] is undefined. *)

Definition shl_bool (b : bool) (s : Z) : outcome Z :=
  if (0 <=? s) && (s <? 32)
  then let v := Z.shiftl (Z.b2z b) s in if v <? 2 ^ 31 then mret v else Crash
  else Crash.

Fixpoint expand_loop (k : nat) (v p shift pos ret : Z) : outcome Z :=
  if pos <? 64 then
    match k with
    | O => NoFuel
    | S k =>
      b ← xdp2_bitmap_word_isset v shift;
      x ← shl_bool b pos;
      pos' ← xdp2_bitmap_word_find_next 64 p pos;
      expand_loop k v p (shift + 1) pos' (Z.lor ret x)
    end
  else mret ret.

Definition xdp2_bitmap_word_expand (v p : Z) : outcome Z :=
  expand_loop 64 v p 0 (xdp2_bitmap_word_find 64 p) 0.

Fixpoint extract_loop (k : nat) (v p shift pos ret : Z) : outcome Z :=
  if pos <? 64 then
    match k with
    | O => NoFuel
    | S k =>
      b ← xdp2_bitmap_word_isset v pos;
      x ← shl_bool b shift;
      pos' ← xdp2_bitmap_word_find_next 64 p pos;
      extract_loop k v p (shift + 1) pos' (Z.lor ret x)
    end
  else mret ret.

Definition xdp2_bitmap_word_extract (v p : Z) : outcome Z :=
  extract_loop 64 v p 0 (xdp2_bitmap_word_find 64 p) 0.

(** ** Rotation *)

(** The operands narrower than [int] are promoted to it. *)
Definition promoted (n : Z) : Z := Z.max n 32.

(** A left shift that leaves the promoted [int] is undefined. *)
Definition p_shl (n v s : Z) : outcome Z :=
  a ← c_shl (promoted n) v s;
  if (n <? 32) && (2 ^ 31 <=? Z.shiftl v s) then Crash else mret a.

Definition xdp2_bitmap_word_rol_n (n v r : Z) : outcome Z :=
  a ← p_shl n v r; b ← c_shr (promoted n) v (u32 (n - r)); mret (trunc n (Z.lor a b)).

Definition xdp2_bitmap_word_ror_n (n v r : Z) : outcome Z :=
  a ← c_shr (promoted n) v r; b ← p_shl n v (u32 (n - r)); mret (trunc n (Z.lor a b)).

(** [XDP2_ERR] ends the program for another width; the modulo by zero traps. *)
Definition xdp2_bitmap_word_rol (v r nbits : Z) : outcome Z :=
  if nbits =? 0 then Crash else
  let r := r mod nbits in
  if (nbits =? 8) || (nbits =? 16) || (nbits =? 32) || (nbits =? 64)
  then xdp2_bitmap_word_rol_n nbits (trunc nbits v) r else Crash.

Definition xdp2_bitmap_word_ror (v r nbits : Z) : outcome Z :=
  if nbits =? 0 then Crash else
  let r := r mod nbits in
  if (nbits =? 8) || (nbits =? 16) || (nbits =? 32) || (nbits =? 64)
  then xdp2_bitmap_word_ror_n nbits (trunc nbits v) r else Crash.

(** ** Bits of words *)

Lemma word_bits_range n : word_bits n -> 8 <= n <= 64.
Proof. unfold word_bits. lia. Qed.

Lemma testbit_trunc n v i : 0 <= n -> Z.testbit (trunc n v) i = (i <? n) && Z.testbit v i.
Proof.
  intros Hn. unfold trunc. destruct (Z.ltb_spec i n) as [Hi | Hi]; simpl.
  - destruct (decide (0 <= i)).
    + by rewrite Z.mod_pow2_bits_low.
    + rewrite !Z.testbit_neg_r by lia. done.
  - by apply Z.mod_pow2_bits_high.
Qed.

Lemma trunc_word n v : 0 <= n -> is_word n (trunc n v).
Proof. intros Hn. apply Z.mod_pos_bound. lia. Qed.

Lemma trunc_small n v : is_word n v -> trunc n v = v.
Proof. intros Hv. by apply Z.mod_small. Qed.

Lemma word_testbit_high n v i : is_word n v -> 0 <= n <= i -> Z.testbit v i = false.
Proof.
  intros Hv Hi. rewrite <- (trunc_small n v Hv), testbit_trunc by lia.
  destruct (Z.ltb_spec i n); [lia | done].
Qed.

Lemma is_word_bits n v :
  0 <= n -> 0 <= v -> (forall i, n <= i -> Z.testbit v i = false) -> is_word n v.
Proof.
  intros Hn Hv H. assert (trunc n v = v) as <-; [| by apply trunc_word].
  apply Z.bits_inj'. intros i Hi. rewrite testbit_trunc by done.
  destruct (Z.ltb_spec i n); [done |]. by rewrite H by lia.
Qed.

Lemma word_eq n a b :
  is_word n a -> is_word n b -> (forall i, 0 <= i < n -> Z.testbit a i = Z.testbit b i) -> a = b.
Proof.
  intros Ha Hb H. apply Z.bits_inj'. intros i Hi.
  destruct (Z.ltb_spec i n) as [Hlt | Hge]; [by apply H |].
  assert (0 <= n \/ n < 0) as [Hn | Hn] by lia.
  - by rewrite !(word_testbit_high n) by (done || lia).
  - unfold is_word in *. rewrite Z.pow_neg_r in * by done. lia.
Qed.

Lemma is_word_land n a b : 0 <= n -> is_word n a -> 0 <= b -> is_word n (Z.land a b).
Proof.
  intros Hn Ha Hb. apply is_word_bits; [done | apply Z.land_nonneg; unfold is_word in *; lia |].
  intros i Hi. by rewrite Z.land_spec, (word_testbit_high n a i).
Qed.

Lemma is_word_lor n a b : 0 <= n -> is_word n a -> is_word n b -> is_word n (Z.lor a b).
Proof.
  intros Hn Ha Hb. apply is_word_bits; [done | apply Z.lor_nonneg; unfold is_word in *; lia |].
  intros i Hi. by rewrite Z.lor_spec, !(word_testbit_high n).
Qed.

Lemma is_word_lxor n a b : 0 <= n -> is_word n a -> is_word n b -> is_word n (Z.lxor a b).
Proof.
  intros Hn Ha Hb. apply is_word_bits; [done | apply Z.lxor_nonneg; unfold is_word in *; lia |].
  intros i Hi. by rewrite Z.lxor_spec, !(word_testbit_high n).
Qed.

#[export] Hint Resolve trunc_word is_word_land is_word_lor is_word_lxor : xdp2.

Lemma testbit_one_shift i j : 0 <= i -> Z.testbit (2 ^ i) j = (i =? j).
Proof. intros Hi. by rewrite Z.pow2_bits_eqb. Qed.

Lemma XDP2_BIT_ok i : 0 <= i < 64 -> XDP2_BIT i = Done (2 ^ i).
Proof.
  intros Hi. unfold XDP2_BIT, c_shl.
  destruct (Z.leb_spec 0 i), (Z.ltb_spec i 64); simpl; try lia.
  rewrite Z.shiftl_mul_pow2, Z.mul_1_l by lia. rewrite trunc_small; [done |].
  split; [lia |]. apply Z.pow_lt_mono_r; lia.
Qed.

Lemma land_pow2_eqb v i : 0 <= i -> negb (Z.land v (2 ^ i) =? 0) = Z.testbit v i.
Proof.
  intros Hi. destruct (Z.eqb_spec (Z.land v (2 ^ i)) 0) as [E | E]; simpl.
  - apply (f_equal (fun x => Z.testbit x i)) in E.
    rewrite Z.land_spec, testbit_one_shift, Z.eqb_refl, andb_true_r, Z.bits_0 in E by done. done.
  - destruct (Z.testbit v i) eqn:T; [done |]. exfalso. apply E. apply Z.bits_inj'. intros j Hj.
    rewrite Z.land_spec, testbit_one_shift, Z.bits_0 by done.
    destruct (Z.eqb_spec i j) as [<- | _]; [by rewrite T | by rewrite andb_false_r].
Qed.

Lemma isset_ok v i : 0 <= i < 64 -> xdp2_bitmap_word_isset v i = Done (Z.testbit v i).
Proof.
  intros Hi. unfold xdp2_bitmap_word_isset. rewrite XDP2_BIT_ok by done. orun.
  by rewrite land_pow2_eqb by lia.
Qed.

(** The mask of the bits from [i] on. *)
Lemma testbit_from_mask i j : 0 <= i -> 0 <= j -> Z.testbit (Z.lnot (2 ^ i - 1)) j = (i <=? j).
Proof.
  intros Hi Hj. rewrite Z.lnot_spec by done. rewrite Z.sub_1_r, <- Z.ones_equiv.
  rewrite Z.testbit_ones by done. by destruct (Z.leb_spec 0 j), (Z.ltb_spec j i), (Z.leb_spec i j); try lia.
Qed.

(** The mask of the bits below [i]. *)
Lemma testbit_below_mask i j : 0 <= i -> 0 <= j -> Z.testbit (2 ^ i - 1) j = (j <? i).
Proof.
  intros Hi Hj. rewrite Z.sub_1_r, <- Z.ones_equiv, Z.testbit_ones by done.
  by destruct (Z.leb_spec 0 j); [| lia].
Qed.

(** ** What a search returns

    [is_first f lo hi r]: [r] is the first position from [lo] on, below [hi],
    at which [f] holds, or [hi] when there is none. *)

Definition is_first (f : Z -> bool) (lo hi r : Z) : Prop :=
  (lo <= r < hi /\ f r = true /\ forall j, lo <= j < r -> f j = false) \/
  (r = hi /\ forall j, lo <= j < hi -> f j = false).

(** [is_last f lo hi r]: the last position in [lo, hi), or [none]. *)
Definition is_last (f : Z -> bool) (lo hi none r : Z) : Prop :=
  (lo <= r < hi /\ f r = true /\ forall j, r < j < hi -> f j = false) \/
  (r = none /\ forall j, lo <= j < hi -> f j = false).

Lemma is_first_unique f lo hi r r' : is_first f lo hi r -> is_first f lo hi r' -> r = r'.
Proof.
  intros [(Hr & Ft & Hb) | (-> & Hn)] [(Hr' & Ft' & Hb') | (-> & Hn')]; try done.
  - destruct (Z.lt_trichotomy r r') as [L | [E | L]]; [| done |].
    + rewrite Hb' in Ft by lia. done.
    + rewrite Hb in Ft' by lia. done.
  - rewrite Hn' in Ft by lia. done.
  - rewrite Hn in Ft' by lia. done.
Qed.

Lemma is_first_bounds f lo hi r : lo <= hi -> is_first f lo hi r -> lo <= r <= hi.
Proof. intros H [? | ?]; lia. Qed.

Lemma is_first_ext f g lo hi r :
  (forall j, lo <= j < hi -> f j = g j) -> is_first f lo hi r -> is_first g lo hi r.
Proof.
  intros E [(Hr & Ft & Hb) | (-> & Hn)].
  - left. split_and!; [lia | lia | by rewrite <- E by lia |]. intros j Hj. rewrite <- E by lia. auto.
  - right. split; [done |]. intros j Hj. rewrite <- E by lia. auto.
Qed.

(** A search of [lo, mid) that finds nothing continues in [mid, hi). *)
Lemma is_first_skip f lo mid hi r :
  lo <= mid -> (forall j, lo <= j < mid -> f j = false) -> is_first f mid hi r -> is_first f lo hi r.
Proof.
  intros Hm Hn [(Hr & Ft & Hb) | (-> & Hb)].
  - left. split_and!; [lia | lia | done |]. intros j Hj. destruct (decide (j < mid)); auto with lia.
  - right. split; [done |]. intros j Hj. destruct (decide (j < mid)); auto with lia.
Qed.

Lemma is_first_widen f lo mid hi r :
  mid <= hi -> is_first f lo mid r -> r < mid -> is_first f lo hi r.
Proof. intros Hm [(Hr & Ft & Hb) | (-> & Hb)] Hlt; [left | lia]. split_and!; auto with lia. Qed.

Lemma is_first_shift f lo hi d r :
  is_first (fun i => f (i + d)) lo hi r -> is_first f (lo + d) (hi + d) (r + d).
Proof.
  intros [(Hr & Ft & Hb) | (-> & Hb)]; [left | right].
  - split_and!; [lia | lia | done |]. intros j Hj. replace j with (j - d + d) by lia. apply Hb. lia.
  - split; [done |]. intros j Hj. replace j with (j - d + d) by lia. apply Hb. lia.
Qed.

(** ** The searches of a word *)

Lemma ffs_from_first k : forall i v,
  0 <= i ->
  let r := ffs_from k i v in
  (r = 0 /\ forall j, i <= j < i + Z.of_nat k -> Z.testbit v j = false) \/
  (i < r <= i + Z.of_nat k /\ Z.testbit v (r - 1) = true /\
   forall j, i <= j < r - 1 -> Z.testbit v j = false).
Proof.
  induction k as [| k IH]; intros i v Hi; cbn [ffs_from]; [left; split; [done | lia] |].
  destruct (Z.testbit v i) eqn:T.
  - right. replace (i + 1 - 1) with i by lia. split_and!; [lia | lia | done | lia].
  - destruct (IH (i + 1) v ltac:(lia)) as [(E & Hn) | (Hr & Ht & Hn)]; [left | right].
    + split; [done |]. intros j Hj. destruct (decide (j = i)) as [-> | ]; [done | apply Hn; lia].
    + split_and!; [lia | lia | done |]. intros j Hj.
      destruct (decide (j = i)) as [-> | ]; [done | apply Hn; lia].
Qed.

Lemma builtin_word n v :
  word_bits n -> is_word n v -> is_word (builtin_bits n) v /\ n <= builtin_bits n.
Proof. intros [-> | [-> | [-> | ->]]] Hv; unfold is_word, builtin_bits in *; simpl in *; lia. Qed.

Lemma find_ffs_first n v :
  word_bits n -> is_word n v -> is_first (Z.testbit v) 0 n (find_ffs n v).
Proof.
  intros Hw Hv. unfold find_ffs.
  destruct (builtin_word n v Hw Hv) as [Hv' Hn].
  rewrite (trunc_small _ _ Hv').
  destruct (ffs_from_first (Z.to_nat (builtin_bits n)) 0 v ltac:(lia)) as [(E & Hb) | (Hr & Ht & Hb)].
  - rewrite E; simpl. right. split; [done |]. intros j Hj. apply Hb. lia.
  - destruct (Z.eqb_spec (ffs_from (Z.to_nat (builtin_bits n)) 0 v) 0); [lia |].
    left. split_and!; [lia | | done | intros j Hj; apply Hb; lia].
    destruct (Z.ltb_spec (ffs_from (Z.to_nat (builtin_bits n)) 0 v - 1) n); [done |].
    rewrite (word_testbit_high n v) in Ht by (done || (destruct Hw; lia)). done.
Qed.

Lemma word_find_loop_first k : forall v i,
  0 <= i -> i + Z.of_nat k <= 64 ->
  exists r, word_find_loop k v i = Done r /\ is_first (Z.testbit v) i (i + Z.of_nat k) r.
Proof.
  induction k as [| k IH]; intros v i Hi Hk; cbn [word_find_loop].
  - exists i. split; [done |]. right. split; lia.
  - rewrite isset_ok by lia. orun. destruct (Z.testbit v i) eqn:T.
    + exists i. split; [done |]. left. split_and!; [lia | lia | done | lia].
    + destruct (IH v (i + 1) ltac:(lia) ltac:(lia)) as (r & E & Hr). exists r. split; [done |].
      apply is_first_skip with (i + 1); [lia | |].
      * intros j Hj. by replace j with i by lia.
      * by replace (i + Z.of_nat (S k)) with (i + 1 + Z.of_nat k) by lia.
Qed.

(** A search of the bits from [pos] on is a search of the masked word. *)
Lemma is_first_masked n v pos r :
  0 <= pos -> 0 <= n -> is_word n v ->
  is_first (Z.testbit (trunc n (Z.land v (trunc n (Z.lnot (2 ^ pos - 1)))))) 0 n r ->
  pos <= n -> is_first (Z.testbit v) pos n r.
Proof.
  intros Hp Hn Hv Hr Hpn.
  assert (forall j, 0 <= j < n ->
    Z.testbit (trunc n (Z.land v (trunc n (Z.lnot (2 ^ pos - 1))))) j = (pos <=? j) && Z.testbit v j) as E.
  { intros j Hj. rewrite testbit_trunc, Z.land_spec, testbit_trunc, testbit_from_mask by lia.
    destruct (Z.ltb_spec j n); [| lia]. simpl. by rewrite andb_comm. }
  destruct Hr as [(Hr & Ft & Hb) | (-> & Hb)].
  - rewrite E in Ft by lia. apply andb_true_iff in Ft as [Hle Ft]. apply Z.leb_le in Hle.
    left. split_and!; [lia | lia | done |]. intros j Hj. specialize (Hb j ltac:(lia)).
    rewrite E in Hb by lia. by destruct (Z.leb_spec pos j); [| lia].
  - right. split; [done |]. intros j Hj. specialize (Hb j ltac:(lia)). rewrite E in Hb by lia.
    by destruct (Z.leb_spec pos j); [| lia].
Qed.

Lemma find_start_first n v pos :
  word_bits n -> is_word n v -> 0 <= pos <= n -> pos < 64 ->
  exists r, xdp2_bitmap_word_find_start n v pos = Done r /\ is_first (Z.testbit v) pos n r.
Proof.
  intros Hw Hv Hp Hp'. pose proof (word_bits_range n Hw). unfold xdp2_bitmap_word_find_start.
  rewrite XDP2_BIT_ok by lia. orun. eexists; split; [done |].
  apply is_first_masked; [lia | lia | done | | lia].
  apply find_ffs_first; [done |]. apply trunc_word. lia.
Qed.

(** [find_next] from the last bit of a 64 bit word shifts by 64. *)
Lemma find_next_first n v pos :
  word_bits n -> is_word n v -> 0 <= pos < n -> pos < 63 ->
  exists r, xdp2_bitmap_word_find_next n v pos = Done r /\ is_first (Z.testbit v) (pos + 1) n r.
Proof.
  intros Hw Hv Hp Hp'. pose proof (word_bits_range n Hw). unfold xdp2_bitmap_word_find_next.
  assert (u32 (pos + 1) = pos + 1) as -> by (apply Z.mod_small; lia).
  rewrite XDP2_BIT_ok by lia. orun. destruct (Z.leb_spec (n - 1) pos).
  - exists n. split; [done |]. right. split; lia.
  - eexists; split; [done |]. apply is_first_masked; [lia | lia | done | | lia].
    apply find_ffs_first; [done |]. apply trunc_word. lia.
Qed.
