(* ===== verification/BitmapWordSpec.v ===== *)
(** * Bitmap words: equivalences and round trips

    The two implementations of each search and of the weight agree, a word
    rotated left and then right is unchanged, and [expand] and [extract] undo
    each other where their shifts are defined. *)

From stdpp Require Import base list numbers.
From S2P Require Import Prelude BitmapWord.

(** ** Weight *)

Lemma popcount_nonneg k v : 0 <= popcount k v <= Z.of_nat k.
Proof. induction k as [| k IH]; cbn [popcount]; [lia |]. destruct (Z.testbit v (Z.of_nat k)); simpl; lia. Qed.

Lemma popcount_ext k v v' :
  (forall i, 0 <= i < Z.of_nat k -> Z.testbit v i = Z.testbit v' i) -> popcount k v = popcount k v'.
Proof.
  induction k as [| k IH]; intros H; cbn [popcount]; [done |].
  rewrite H by lia. f_equal. apply IH. intros i Hi. apply H. lia.
Qed.

(** Bits above the word do not count. *)
Lemma popcount_high n m v : is_word (Z.of_nat n) v -> (n <= m)%nat -> popcount m v = popcount n v.
Proof.
  intros Hv Hm. induction m as [| m IH]; [by replace n with 0%nat by lia |].
  destruct (decide (n = S m)) as [-> | ]; [done |]. cbn [popcount].
  rewrite (word_testbit_high (Z.of_nat n) v (Z.of_nat m)) by (done || lia). simpl.
  rewrite IH by lia. lia.
Qed.

Lemma popcount_first_bit k i v :
  popcount (S k) (Z.shiftr v i) = Z.b2z (Z.testbit v i) + popcount k (Z.shiftr v (i + 1)).
Proof.
  induction k as [| k IH].
  - cbn [popcount]. change (Z.of_nat 0) with 0. rewrite Z.shiftr_spec by lia.
    rewrite !Z.add_0_l, Z.add_0_r. done.
  - change (popcount (S (S k)) (Z.shiftr v i)) with
      (popcount (S k) (Z.shiftr v i) + Z.b2z (Z.testbit (Z.shiftr v i) (Z.of_nat (S k)))).
    rewrite IH. cbn [popcount]. rewrite !Z.shiftr_spec by lia.
    replace (Z.of_nat k + (i + 1)) with (Z.of_nat (S k) + i) by lia. lia.
Qed.

Lemma weight_loop_ok k : forall v i w,
  0 <= i -> i + Z.of_nat k <= 64 -> 0 <= w -> w + Z.of_nat k < 2 ^ 32 ->
  weight_loop k v i w = Done (w + popcount k (Z.shiftr v i)).
Proof.
  induction k as [| k IH]; intros v i w Hi Hk Hw Hb; cbn [weight_loop]; [f_equal; simpl; lia |].
  rewrite isset_ok by lia. orun. rewrite popcount_first_bit.
  assert (0 <= Z.b2z (Z.testbit v i) <= 1) by (destruct (Z.testbit v i); simpl; lia).
  assert (u32 (w + Z.b2z (Z.testbit v i)) = w + Z.b2z (Z.testbit v i)) as -> by (apply Z.mod_small; lia).
  rewrite IH by lia. f_equal. lia.
Qed.

Lemma weight_popcount_val n v :
  word_bits n -> is_word n v -> weight_popcount n v = popcount (Z.to_nat n) v.
Proof.
  intros Hw Hv. unfold weight_popcount. destruct (builtin_word n v Hw Hv) as [Hv' Hn].
  pose proof (word_bits_range n Hw). rewrite (trunc_small _ _ Hv').
  apply popcount_high; [by rewrite Z2Nat.id by lia | lia].
Qed.

(** ** Reverse find *)

Lemma rev_find_loop_last k n v :
  Z.of_nat k <= 64 ->
  exists r, rev_find_loop k n v = Done r /\ is_last (Z.testbit v) 0 (Z.of_nat k) n r.
Proof.
  induction k as [| k IH]; intros Hk; cbn [rev_find_loop].
  - exists n. split; [done |]. right. split; lia.
  - rewrite isset_ok by lia. orun. destruct (Z.testbit v (Z.of_nat k)) eqn:T.
    + exists (Z.of_nat k). split; [done |]. left. split_and!; [lia | lia | done | lia].
    + destruct (IH ltac:(lia)) as (r & E & Hr). exists r. split; [done |].
      destruct Hr as [(Hr & Ft & Hb) | (-> & Hb)]; [left | right].
      * split_and!; [lia | lia | done |]. intros j Hj.
        destruct (decide (j = Z.of_nat k)) as [-> | ]; [done | apply Hb; lia].
      * split; [done |]. intros j Hj.
        destruct (decide (j = Z.of_nat k)) as [-> | ]; [done | apply Hb; lia].
Qed.

(** A comparison macro halves its argument. *)
Lemma log_step (f : Z -> Z) s v :
  0 < s -> 0 < v < 2 ^ (2 * s) -> (forall x, 0 < x < 2 ^ s -> f x = Z.log2 x) ->
  (if Z.shiftl 1 s <=? v then s + f (Z.shiftr v s) else f v) = Z.log2 v.
Proof.
  intros Hs Hv Hf. rewrite Z.shiftl_mul_pow2, Z.mul_1_l by lia.
  assert (2 ^ (2 * s) = 2 ^ s * 2 ^ s) as E by (rewrite <- Z.pow_add_r by lia; f_equal; lia).
  destruct (Z.leb_spec (2 ^ s) v) as [Hle | Hlt]; [| apply Hf; lia].
  rewrite Z.shiftr_div_pow2 by lia. rewrite Hf.
  - pose proof (Z.log2_shiftr v s ltac:(lia)) as L. rewrite Z.shiftr_div_pow2 in L by lia. rewrite L.
    assert (s <= Z.log2 v) by (apply Z.log2_le_pow2; lia). lia.
  - split; [apply Z.div_str_pos; lia |]. apply Z.div_lt_upper_bound; lia.
Qed.

Lemma LOG_1_ok v : 0 < v < 2 ^ 2 -> XDP2_LOG_1 v = Z.log2 v.
Proof.
  intros Hv. unfold XDP2_LOG_1. assert (v = 1 \/ v = 2 \/ v = 3) as [-> | [-> | ->]] by lia; done.
Qed.

Lemma LOG_2_ok v : 0 < v < 2 ^ 4 -> XDP2_LOG_2 v = Z.log2 v.
Proof. intros Hv. apply log_step; [lia | done | apply LOG_1_ok]. Qed.

Lemma LOG_4_ok v : 0 < v < 2 ^ 8 -> XDP2_LOG_4 v = Z.log2 v.
Proof. intros Hv. apply log_step; [lia | done | apply LOG_2_ok]. Qed.

Lemma LOG_8_ok v : 0 < v < 2 ^ 16 -> XDP2_LOG_8 v = Z.log2 v.
Proof. intros Hv. apply log_step; [lia | done | apply LOG_4_ok]. Qed.

Lemma LOG_16_ok v : 0 < v < 2 ^ 32 -> XDP2_LOG_16 v = Z.log2 v.
Proof. intros Hv. apply log_step; [lia | done | apply LOG_8_ok]. Qed.

Lemma LOG_BITS_ok n v : word_bits n -> 0 < v < 2 ^ n -> XDP2_LOG_BITS n v = Z.log2 v.
Proof.
  intros [-> | [-> | [-> | ->]]] Hv; unfold XDP2_LOG_BITS; simpl (_ =? _); cbv iota.
  - apply log_step; [lia | done | apply LOG_2_ok].
  - apply log_step; [lia | done | apply LOG_4_ok].
  - apply log_step; [lia | done | apply LOG_8_ok].
  - apply log_step; [lia | done | apply LOG_16_ok].
Qed.

Lemma rev_find_log_last n v :
  word_bits n -> is_word n v -> is_last (Z.testbit v) 0 n n (rev_find_log n v).
Proof.
  intros Hw Hv. pose proof (word_bits_range n Hw). unfold rev_find_log.
  destruct (Z.eqb_spec v 0) as [-> | Hne].
  - right. split; [done |]. intros j Hj. apply Z.bits_0.
  - assert (0 < v < 2 ^ n) as Hv' by (unfold is_word in Hv; lia).
    rewrite LOG_BITS_ok by done. left. split_and!.
    + apply Z.log2_nonneg.
    + apply Z.log2_lt_pow2; lia.
    + apply Z.bit_log2. lia.
    + intros j Hj. apply Z.bits_above_log2; lia.
Qed.

Lemma is_last_unique f hi none r r' :
  is_last f 0 hi none r -> is_last f 0 hi none r' -> r = r'.
Proof.
  intros [(Hr & Ft & Hb) | (-> & Hn)] [(Hr' & Ft' & Hb') | (-> & Hn')]; try done.
  - destruct (Z.lt_trichotomy r r') as [L | [E | L]]; [| done |].
    + rewrite Hb in Ft' by lia. done.
    + rewrite Hb' in Ft by lia. done.
  - rewrite Hn' in Ft by lia. done.
  - rewrite Hn in Ft' by lia. done.
Qed.

(** The portable loops and the variants the library selects (the popcount
    and find-first-set builtins and the comparison tree of the logarithm
    macros) compute the same function, for every word of every width. *)
Theorem word_variants_agree n v :
  word_bits n -> is_word n v ->
  weight_default n v = Done (xdp2_bitmap_word_weight n v) /\
  find_default n v = Done (xdp2_bitmap_word_find n v) /\
  rev_find_default n v = Done (xdp2_bitmap_word_rev_find n v).
Proof.
  intros Hw Hv. pose proof (word_bits_range n Hw). split_and!.
  - unfold weight_default, xdp2_bitmap_word_weight. rewrite weight_loop_ok by lia.
    rewrite weight_popcount_val by done. by rewrite Z.shiftr_0_r, Z.add_0_l.
  - destruct (word_find_loop_first (Z.to_nat n) v 0) as (r & E & Hr); [lia | lia |].
    unfold find_default. rewrite E. f_equal. rewrite Z.add_0_l, Z2Nat.id in Hr by lia.
    eapply is_first_unique; [done |]. by apply find_ffs_first.
  - destruct (rev_find_loop_last (Z.to_nat n) n v) as (r & E & Hr); [lia |].
    unfold rev_find_default. rewrite E. f_equal. rewrite Z2Nat.id in Hr by lia.
    eapply is_last_unique; [done |]. by apply rev_find_log_last.
Qed.

Lemma word_variants_agree_witness :
  weight_default 16 0x8421 = Done 4 /\ find_default 16 0x8420 = Done 5 /\
  rev_find_default 16 0x0421 = Done 10.
Proof.
  pose proof (word_variants_agree 16 0x8421 ltac:(right; left; reflexivity) ltac:(unfold is_word; lia)) as (E & _ & _).
  pose proof (word_variants_agree 16 0x8420 ltac:(right; left; reflexivity) ltac:(unfold is_word; lia)) as (_ & F & _).
  pose proof (word_variants_agree 16 0x0421 ltac:(right; left; reflexivity) ltac:(unfold is_word; lia)) as (_ & _ & G).
  split; [exact E | split; [exact F | exact G]].
Defined.

(** ** Expand and extract *)

(** The positions of the ones of [p] from [lo] on. *)
Definition ones (p lo : Z) : list Z := filter (fun i => Z.testbit p i = true) (seqZ lo (64 - lo)).

Lemma filter_false {A} (P : A -> Prop) `{forall x, Decision (P x)} (l : list A) :
  (forall x, x ∈ l -> ~ P x) -> filter P l = [].
Proof.
  induction l as [| x l IH]; intros Hl; [done |]. rewrite filter_cons_False by (apply Hl; left).
  apply IH. intros y Hy. apply Hl. by right.
Qed.

Lemma ones_step p lo r :
  0 <= lo <= 64 -> is_first (Z.testbit p) lo 64 r ->
  ones p lo = if r <? 64 then r :: ones p (r + 1) else [].
Proof.
  intros Hlo [(Hr & Ft & Hb) | (-> & Hb)]; unfold ones; simpl.
  - destruct (Z.ltb_spec r 64); [| lia].
    replace (64 - lo) with ((r - lo) + (1 + (64 - (r + 1)))) by lia.
    rewrite seqZ_app, list.filter_app by lia. rewrite filter_false.
    + rewrite seqZ_app by lia. replace (lo + (r - lo)) with r by lia. simpl.
      rewrite filter_cons_True by done. done.
    + intros j Hj%elem_of_seqZ. rewrite Hb by lia. done.
  - apply filter_false. intros j Hj%elem_of_seqZ. rewrite Hb by lia. done.
Qed.

(** Bit [s] of [v] goes to the first position, bit [s + 1] to the second ... *)
Fixpoint deposit (v s : Z) (ps : list Z) (acc : Z) : Z :=
  match ps with
  | [] => acc
  | q :: ps => deposit v (s + 1) ps (Z.lor acc (Z.shiftl (Z.b2z (Z.testbit v s)) q))
  end.

Fixpoint collect (v s : Z) (ps : list Z) (acc : Z) : Z :=
  match ps with
  | [] => acc
  | q :: ps => collect v (s + 1) ps (Z.lor acc (Z.shiftl (Z.b2z (Z.testbit v q)) s))
  end.

Lemma shl_bool_ok b s : 0 <= s < 31 -> shl_bool b s = Done (Z.shiftl (Z.b2z b) s).
Proof.
  intros Hs. unfold shl_bool. destruct (Z.leb_spec 0 s), (Z.ltb_spec s 32); simpl; try lia.
  assert (Z.shiftl (Z.b2z b) s < 2 ^ 31) as L.
  { rewrite Z.shiftl_mul_pow2 by lia. assert (2 ^ s < 2 ^ 31) by (apply Z.pow_lt_mono_r; lia).
    destruct b; simpl; lia. }
  destruct (Z.ltb_spec (Z.shiftl (Z.b2z b) s) (2 ^ 31)); [done | lia].
Qed.

Section Loops.
Context (p : Z) (Hlow : forall i, 31 <= i -> Z.testbit p i = false).

Lemma first_low lo pos : is_first (Z.testbit p) lo 64 pos -> pos < 64 -> pos < 31.
Proof.
  intros [(Hr & Ft & _) | (-> & _)] Hp; [| lia].
  destruct (Z.ltb_spec pos 31) as [| Hge]; [done |]. by rewrite Hlow in Ft by done.
Qed.

Lemma next_first lo pos :
  is_word 64 p -> 0 <= lo -> is_first (Z.testbit p) lo 64 pos -> pos < 64 ->
  exists pos', xdp2_bitmap_word_find_next 64 p pos = Done pos' /\
               is_first (Z.testbit p) (pos + 1) 64 pos'.
Proof.
  intros Hp Hlo Hf Hlt. pose proof (first_low lo pos Hf Hlt).
  assert (lo <= pos) by (destruct Hf; lia).
  apply find_next_first; [unfold word_bits; lia | done | lia | lia].
Qed.

Lemma expand_loop_ok k : forall v s lo pos acc,
  is_word 64 p -> 0 <= lo <= 64 -> 0 <= s -> is_first (Z.testbit p) lo 64 pos ->
  (length (ones p lo) <= k)%nat -> s + Z.of_nat (length (ones p lo)) <= 64 ->
  expand_loop k v p s pos acc = Done (deposit v s (ones p lo) acc).
Proof.
  induction k as [| k IH]; intros v s lo pos acc Hp Hlo Hs Hf Hk Hl;
    rewrite (ones_step p lo pos) in * by done; cbn [expand_loop];
    destruct (Z.ltb_spec pos 64) as [Hlt | ]; try done; cbn [length] in *; [lia |].
  pose proof (first_low lo pos Hf Hlt). assert (lo <= pos) by (destruct Hf; lia).
  rewrite isset_ok by lia. orun. rewrite shl_bool_ok by lia.
  destruct (next_first lo pos Hp ltac:(lia) Hf Hlt) as (pos' & -> & Hf').
  cbn [deposit]. apply IH; (done || lia).
Qed.

Lemma extract_loop_ok k : forall v s lo pos acc,
  is_word 64 p -> 0 <= lo <= 64 -> 0 <= s -> is_first (Z.testbit p) lo 64 pos ->
  (length (ones p lo) <= k)%nat -> s + Z.of_nat (length (ones p lo)) <= 31 ->
  extract_loop k v p s pos acc = Done (collect v s (ones p lo) acc).
Proof.
  induction k as [| k IH]; intros v s lo pos acc Hp Hlo Hs Hf Hk Hl;
    rewrite (ones_step p lo pos) in * by done; cbn [extract_loop];
    destruct (Z.ltb_spec pos 64) as [Hlt | ]; try done; cbn [length] in *; [lia |].
  pose proof (first_low lo pos Hf Hlt). assert (lo <= pos) by (destruct Hf; lia).
  rewrite isset_ok by lia. orun. rewrite shl_bool_ok by lia.
  destruct (next_first lo pos Hp ltac:(lia) Hf Hlt) as (pos' & -> & Hf').
  cbn [collect]. apply IH; (done || lia).
Qed.

Lemma ones_length_low : (length (ones p 0) <= 31)%nat.
Proof.
  unfold ones. change (64 - 0) with (31 + 33). rewrite seqZ_app, list.filter_app by lia.
  rewrite (filter_false _ (seqZ (0 + 31) 33)).
  - rewrite app_nil_r. etrans; [apply length_filter |]. by rewrite length_seqZ.
  - intros j Hj%elem_of_seqZ. rewrite Hlow by lia. done.
Qed.

End Loops.

Lemma testbit_b2z_shift b q i :
  0 <= q -> 0 <= i -> Z.testbit (Z.shiftl (Z.b2z b) q) i = (i =? q) && b.
Proof.
  intros Hq Hi. rewrite Z.shiftl_spec by done. destruct (Z.eqb_spec i q) as [-> | Hne]; simpl.
  - rewrite Z.sub_diag. by destruct b.
  - destruct (Z.ltb_spec (i - q) 0); [by apply Z.testbit_neg_r |].
    destruct b; [| apply Z.bits_0]. by apply (Z.pow2_bits_false 0); lia.
Qed.

Lemma deposit_out v ps : forall s acc i,
  0 <= i -> Forall (fun q => 0 <= q) ps -> i ∉ ps -> Z.testbit (deposit v s ps acc) i = Z.testbit acc i.
Proof.
  induction ps as [| q ps IH]; intros s acc i Hi Hp Hn; [done |]. cbn [deposit].
  apply Forall_cons_1 in Hp as [Hq Hp]. apply not_elem_of_cons in Hn as [Hne Hn].
  rewrite IH by done. rewrite Z.lor_spec, testbit_b2z_shift by done.
  destruct (Z.eqb_spec i q); [done |]. by rewrite orb_false_r.
Qed.

Lemma deposit_in v ps : forall s acc k i,
  NoDup ps -> Forall (fun q => 0 <= q) ps -> ps !! k = Some i ->
  Z.testbit (deposit v s ps acc) i = Z.testbit acc i || Z.testbit v (s + Z.of_nat k).
Proof.
  induction ps as [| q ps IH]; intros s acc k i Hd Hp Hk; [done |]. cbn [deposit].
  pose proof (NoDup_cons_1_1 _ _ Hd) as Hq. apply NoDup_cons_1_2 in Hd. apply Forall_cons_1 in Hp as [Hq0 Hp].
  destruct k as [| k]; simpl in Hk.
  - injection Hk as ->. rewrite deposit_out by done.
    rewrite Z.lor_spec, testbit_b2z_shift, Z.eqb_refl by done. simpl. by rewrite Z.add_0_r.
  - rewrite (IH _ _ _ _ Hd Hp Hk). rewrite Z.lor_spec, testbit_b2z_shift.
    + assert (i <> q) by (intros ->; apply Hq; by eapply list_elem_of_lookup_2).
      destruct (Z.eqb_spec i q); [done |]. rewrite orb_false_r.
      by replace (s + 1 + Z.of_nat k) with (s + Z.of_nat (S k)) by lia.
    + done.
    + eapply Forall_lookup_1 in Hk; [| done]. done.
Qed.

Lemma collect_bit v ps : forall s acc i,
  0 <= s -> 0 <= i ->
  Z.testbit (collect v s ps acc) i =
  Z.testbit acc i || ((s <=? i) && match ps !! Z.to_nat (i - s) with Some q => Z.testbit v q | None => false end).
Proof.
  induction ps as [| q ps IH]; intros s acc i Hs Hi; cbn [collect].
  - rewrite andb_false_r, orb_false_r. done.
  - rewrite IH by lia. rewrite Z.lor_spec, testbit_b2z_shift by done. rewrite <- orb_assoc. f_equal.
    destruct (Z.lt_trichotomy i s) as [L | [-> | L]].
    + destruct (Z.eqb_spec i s), (Z.leb_spec s i), (Z.leb_spec (s + 1) i); (done || lia).
    + rewrite Z.eqb_refl, Z.leb_refl, Z.sub_diag. destruct (Z.leb_spec (s + 1) s); [lia |].
      simpl. by rewrite orb_false_r.
    + destruct (Z.eqb_spec i s), (Z.leb_spec s i), (Z.leb_spec (s + 1) i); try lia. simpl.
      by replace (Z.to_nat (i - s)) with (S (Z.to_nat (i - (s + 1)))) by lia.
Qed.

Lemma popcount_ones k v :
  popcount k v = Z.of_nat (length (filter (fun i => Z.testbit v i = true) (seqZ 0 (Z.of_nat k)))).
Proof.
  induction k as [| k IH]; [done |]. cbn [popcount].
  replace (Z.of_nat (S k)) with (Z.of_nat k + 1) by lia.
  rewrite seqZ_app, list.filter_app, length_app, Nat2Z.inj_add, <- IH by lia. f_equal.
  rewrite Z.add_0_l. change (seqZ (Z.of_nat k) 1) with [0 + Z.of_nat k]. rewrite Z.add_0_l.
  destruct (Z.testbit v (Z.of_nat k)) eqn:T.
  - by rewrite filter_cons_True.
  - rewrite filter_cons_False; [done |]. by rewrite T.
Qed.

Lemma ones_spec p i : i ∈ ones p 0 <-> 0 <= i < 64 /\ Z.testbit p i = true.
Proof. unfold ones. rewrite list_elem_of_filter, elem_of_seqZ. intuition lia. Qed.

Lemma ones_NoDup p : NoDup (ones p 0).
Proof. apply list.NoDup_filter, NoDup_seqZ. Qed.

Lemma ones_nonneg p : Forall (fun q => 0 <= q) (ones p 0).
Proof. apply list.Forall_forall. intros q Hq%ones_spec. lia. Qed.

Lemma low_bits p : 0 <= p < 2 ^ 31 -> forall i, 31 <= i -> Z.testbit p i = false.
Proof. intros Hp i Hi. by apply (word_testbit_high 31 p i); [| lia]. Qed.

Lemma expand_val v p :
  0 <= p < 2 ^ 31 -> xdp2_bitmap_word_expand v p = Done (deposit v 0 (ones p 0) 0).
Proof.
  intros Hp. pose proof (ones_length_low p (low_bits p Hp)).
  apply expand_loop_ok; [by apply low_bits | unfold is_word; lia | lia | lia | | lia | lia].
  apply find_ffs_first; [unfold word_bits | unfold is_word]; lia.
Qed.

Lemma extract_val v p :
  0 <= p < 2 ^ 31 -> xdp2_bitmap_word_extract v p = Done (collect v 0 (ones p 0) 0).
Proof.
  intros Hp. pose proof (ones_length_low p (low_bits p Hp)).
  apply extract_loop_ok; [by apply low_bits | unfold is_word; lia | lia | lia | | lia | lia].
  apply find_ffs_first; [unfold word_bits | unfold is_word]; lia.
Qed.

Lemma collect_deposit v p :
  collect (deposit v 0 (ones p 0) 0) 0 (ones p 0) 0 = v mod 2 ^ Z.of_nat (length (ones p 0)).
Proof.
  apply Z.bits_inj'. intros i Hi. rewrite collect_bit, Z.bits_0, Z.sub_0_r by lia.
  destruct (Z.leb_spec 0 i); [| lia]. rewrite orb_false_l, andb_true_l.
  fold (trunc (Z.of_nat (length (ones p 0))) v). rewrite testbit_trunc by lia.
  destruct (ones p 0 !! Z.to_nat i) as [q |] eqn:E.
  - rewrite (deposit_in v (ones p 0) 0 0 _ q (ones_NoDup p) (ones_nonneg p) E), Z.bits_0.
    apply lookup_lt_Some in E. destruct (Z.ltb_spec i (Z.of_nat (length (ones p 0)))); [| lia].
    simpl. f_equal. lia.
  - apply lookup_ge_None in E. destruct (Z.ltb_spec i (Z.of_nat (length (ones p 0)))); [lia | done].
Qed.

Lemma deposit_collect v p : is_word 64 p -> deposit (collect v 0 (ones p 0) 0) 0 (ones p 0) 0 = Z.land v p.
Proof.
  intros Hp. apply Z.bits_inj'. intros i Hi. rewrite Z.land_spec.
  destruct (decide (i ∈ ones p 0)) as [Hin | Hout].
  - pose proof Hin as (_ & Ht)%ones_spec. rewrite Ht, andb_true_r.
    apply list_elem_of_lookup in Hin as [k Hk].
    rewrite (deposit_in _ (ones p 0) 0 0 k i (ones_NoDup p) (ones_nonneg p) Hk), Z.bits_0, orb_false_l.
    rewrite collect_bit, Z.bits_0 by lia. destruct (Z.leb_spec 0 (0 + Z.of_nat k)); [| lia].
    rewrite Z.sub_0_r, Z.add_0_l, Nat2Z.id, Hk. done.
  - rewrite deposit_out, Z.bits_0 by (done || apply ones_nonneg).
    destruct (Z.testbit p i) eqn:T; [| by rewrite andb_false_r].
    exfalso. apply Hout, ones_spec. split; [| done]. split; [done |].
    destruct (Z.ltb_spec i 64); [done |]. rewrite (word_testbit_high 64 p) in T by (done || lia). done.
Qed.

(** Expanding a value over the ones of a pattern and extracting it again
    gives back its low bits, as many as the pattern has ones; extracting and
    expanding again keeps exactly the bits under the pattern. The pattern lies
    in the low 31 bits: the bit that is moved is shifted as a signed [int]. *)
Theorem expand_extract_roundtrip v p :
  0 <= p < 2 ^ 31 ->
  (x ← xdp2_bitmap_word_expand v p; xdp2_bitmap_word_extract x p) =
    Done (v mod 2 ^ xdp2_bitmap_word_weight 64 p) /\
  (x ← xdp2_bitmap_word_extract v p; xdp2_bitmap_word_expand x p) = Done (Z.land v p).
Proof.
  intros Hp. assert (is_word 64 p) as Hw by (unfold is_word; lia).
  rewrite expand_val, extract_val by done. orun. rewrite expand_val, extract_val by done. split.
  - rewrite collect_deposit. unfold xdp2_bitmap_word_weight.
    rewrite weight_popcount_val by (done || (unfold word_bits; lia)). by rewrite popcount_ones.
  - by rewrite deposit_collect.
Qed.

Lemma expand_extract_roundtrip_witness :
  (x ← xdp2_bitmap_word_expand 0x16 0x5501; xdp2_bitmap_word_extract x 0x5501) = Done 0x16 /\
  (x ← xdp2_bitmap_word_extract 0x12345678 0xff00; xdp2_bitmap_word_expand x 0xff00) = Done 0x5600.
Proof.
  pose proof (expand_extract_roundtrip 0x16 0x5501 ltac:(lia)) as [E _].
  pose proof (expand_extract_roundtrip 0x12345678 0xff00 ltac:(lia)) as [_ F].
  split; [exact E | exact F].
Defined.

(** A pattern with bit 32 makes [expand] shift an [int] by 32. *)
Lemma expand_high_pattern : xdp2_bitmap_word_expand 1 (2 ^ 32) = Crash.
Proof. reflexivity. Qed.

(** Iterating over a word whose last bit is set shifts by 64. *)
Lemma find_next_last_bit v : xdp2_bitmap_word_find_next 64 v 63 = Crash.
Proof. reflexivity. Qed.

(** The negated word operations negate logically, not bit by bit. *)
Lemma word_nand_logical : xdp2_bitmap_word_op 8 BAnd true false 0xf0 0x0f = 1.
Proof. reflexivity. Qed.
