(* ===== verification/Bitmap.v ===== *)
(** * Bitmaps

    [include/xdp2/bitmap.h] and [include/xdp2/bitmap_helpers.h]. A bitmap is an
    array of words. The macros make every function for several word types; here
    the word size [w] ([NUM_WORD_BITS]), the byte order conversion [conv]
    ([CONV_FUNC]: none, or a byte swap) and, for reverse bitmaps, the number of
    words [nw] ([NUM_WORDS], zero for a forward bitmap) are parameters. An array
    access outside the words and an undefined shift are a [Crash]. The arrays of
    one call are distinct. *)

From stdpp Require Import base list numbers.
From S2P Require Import Prelude BitmapWord.

(** ** Byte order conversions *)

Definition bswap64 (v : Z) : Z :=
  Z.lor (Z.shiftl (bswap32 (Z.land v 0xffffffff)) 32)
        (bswap32 (Z.land (Z.shiftr v 32) 0xffffffff)).

(** ** Arrays of words *)

Definition bm_ld (bm : list Z) (i : Z) : outcome Z :=
  if i <? 0 then Crash else deref (bm !! Z.to_nat i).

Definition bm_st (bm : list Z) (i v : Z) : outcome (list Z) :=
  if (i <? 0) || (Z.of_nat (length bm) <=? i) then Crash else Done (<[Z.to_nat i := v]> bm).

(** [memset] of [k] words from index [base] on. *)
Fixpoint memset_words (k : nat) (bm : list Z) (base v : Z) : outcome (list Z) :=
  match k with
  | O => mret bm
  | S k => bm' ← bm_st bm base v; memset_words k bm' (base + 1) v
  end.

Inductive bm_test := TEST_NONE | TEST_WEIGHT | TEST_ANY_SET | TEST_ANY_ZERO.

(** What a one argument operation does with the words: fill them, or search or
    test them. *)
Inductive query := QFind | QTest (t : bm_test).
Inductive mode1 := Fill (ones : bool) | Query (q : query).

(** The function of a two or three argument operation,
    [NOT((S1_OP a) OP (S2_OP b))], or [S1_OP a] when the destination is not a
    source. *)
Record bm_fun := BmFun { f_destsrc : bool; f_op : binop; f_not : bool; f_s1 : bool; f_s2 : bool }.

Definition XDP2_BITMAP_VALUE2 (f : bm_fun) (a b : Z) : Z :=
  opt_not (f_not f) Z.lnot (binop_val (f_op f) (opt_not (f_s1 f) Z.lnot a) (opt_not (f_s2 f) Z.lnot b)).

Definition XDP2_BITMAP_VALUE (f : bm_fun) (a b : Z) : Z :=
  if f_destsrc f then XDP2_BITMAP_VALUE2 f a b else opt_not (f_s1 f) Z.lnot a.

Inductive mode2 := MWrite (t : bm_test) | MCompare.

Section Bitmap.
Context (w : Z) (conv : Z -> Z) (nw : Z).

(** ** Single bits *)

(** The shared body of the forward and the reverse functions, [off] being the
    index of the word. *)
Definition bit_set (map : list Z) (off index : Z) : outcome (list Z) :=
  v ← bm_ld map off; bm_st map off (Z.lor v (conv (trunc w (Z.shiftl 1 (index mod w))))).

Definition bit_unset (map : list Z) (off index : Z) : outcome (list Z) :=
  v ← bm_ld map off;
  bm_st map off (Z.land v (conv (trunc w (Z.lnot (Z.shiftl 1 (index mod w)))))).

Definition bit_set_val (map : list Z) (off index : Z) (val : bool) : outcome (list Z) :=
  v ← bm_ld map off;
  bm_st map off (Z.lor (Z.land v (conv (trunc w (Z.lnot (Z.shiftl 1 (index mod w))))))
                       (conv (trunc w (Z.shiftl (Z.b2z val) (index mod w))))).

Definition bit_isset (map : list Z) (off index : Z) : outcome bool :=
  v ← bm_ld map off; mret (negb (Z.land v (conv (trunc w (Z.shiftl 1 (index mod w)))) =? 0)).

Definition xdp2_bitmap_set map index := bit_set map (index / w) index.
Definition xdp2_bitmap_unset map index := bit_unset map (index / w) index.
Definition xdp2_bitmap_set_val map index val := bit_set_val map (index / w) index val.
Definition xdp2_bitmap_isset map index := bit_isset map (index / w) index.

Definition xdp2_rbitmap_set map index := bit_set map (nw - 1 - index / w) index.
Definition xdp2_rbitmap_unset map index := bit_unset map (nw - 1 - index / w) index.
Definition xdp2_rbitmap_set_val map index val := bit_set_val map (nw - 1 - index / w) index val.
Definition xdp2_rbitmap_isset map index := bit_isset map (nw - 1 - index / w) index.

(** ** Masks and helpers *)

Definition XDP2_BITMAP_1S : Z := 2 ^ w - 1.

Definition XDP2_BITMAP_HIGH_MASK (start : Z) : outcome Z := c_shl (promoted w) XDP2_BITMAP_1S start.

Definition XDP2_BITMAP_LOW_MASK (start : Z) : outcome Z :=
  c_shr (promoted w) XDP2_BITMAP_1S (u32 (w - start)).

Definition XDP2_BITMAP_MASK (start nbits : Z) : outcome Z :=
  h ← XDP2_BITMAP_HIGH_MASK start;
  l ← XDP2_BITMAP_LOW_MASK (start + nbits);
  mret (Z.land h l).

(** The word that holds the [div]-th group of [w] bits, and the way to the next. *)
Definition word_index (div : Z) : Z := if nw =? 0 then div else nw - 1 - div.
Definition dir : Z := if nw =? 0 then 1 else -1.

Definition XDP2_BITMAP_HANDLE_TEST (t : bm_test) (ret v mask : Z) : Z :=
  match t with
  | TEST_WEIGHT => u32 (ret + xdp2_bitmap_word_weight 64 v)
  | TEST_ANY_SET => if v =? 0 then ret else 1
  | TEST_ANY_ZERO => if Z.land (Z.lnot v) mask =? 0 then ret else 1
  | TEST_NONE => ret
  end.

Definition XDP2_BITMAP_DO_COMPARE (v adder : Z) : option Z :=
  if v =? 0 then None else Some (u32 (xdp2_bitmap_word_find w v + adder)).

(** ** One argument *)

(** The part of a word under [mask]. The last component says that a search has
    ended. *)
Definition part1 (md : mode1) (neg : bool) (bm : list Z) (idx mask adder ret : Z)
  : outcome (list Z * Z * bool) :=
  v ← bm_ld bm idx;
  match md with
  | Fill true => bm' ← bm_st bm idx (Z.lor v mask); mret (bm', ret, false)
  | Fill false => bm' ← bm_st bm idx (Z.land v (trunc w (Z.lnot mask))); mret (bm', ret, false)
  | Query q =>
    let res := Z.land (opt_not neg Z.lnot v) mask in
    match q with
    | QFind =>
      match XDP2_BITMAP_DO_COMPARE (conv res) adder with
      | Some r => mret (bm, r, true)
      | None => mret (bm, ret, false)
      end
    | QTest t => mret (bm, XDP2_BITMAP_HANDLE_TEST t ret res mask, false)
    end
  end.

(** The loop over whole words of a search or test. *)
Fixpoint whole_query (k : nat) (q : query) (neg : bool) (bm : list Z) (src i adder ret : Z)
  : outcome (Z * bool) :=
  match k with
  | O => mret (ret, false)
  | S k =>
    v ← bm_ld bm (src + dir * i);
    let res := trunc w (opt_not neg Z.lnot v) in
    match q with
    | QFind =>
      match XDP2_BITMAP_DO_COMPARE (conv res) (adder + i * w) with
      | Some r => mret (r, true)
      | None => whole_query k q neg bm src (i + 1) adder ret
      end
    | QTest t =>
      whole_query k q neg bm src (i + 1) adder (XDP2_BITMAP_HANDLE_TEST t ret res XDP2_BITMAP_1S)
    end
  end.

(** Whole words and the leftover, [n] bits from word [src] on, after [need]
    bits of a partial first word. *)
Definition bitmap_1arg_words (md : mode1) (neg : bool) (bm : list Z) (src pos nbits n need ret : Z)
  : outcome (list Z * Z) :=
  let cnt := n / w in
  '(bm, ret, found) ←
    match md with
    | Fill b =>
      bm' ← memset_words (Z.to_nat cnt) bm (src - (if nw =? 0 then 0 else 1) * (cnt - 1))
                         (if b then XDP2_BITMAP_1S else 0);
      mret (bm', ret, false)
    | Query q =>
      '(r, f) ← whole_query (Z.to_nat cnt) q neg bm src 0 (pos + need) ret; mret (bm, r, f)
    end;
  let n := if found : bool then 0 else n mod w in
  if n =? 0 then mret (bm, ret) else
  m ← XDP2_BITMAP_LOW_MASK n;
  '(bm, ret, _) ← part1 md neg bm (src + dir * cnt) (conv (trunc w m)) (nbits - n) ret;
  mret (bm, ret).

Definition XDP2_BITMAP_1ARG (md : mode1) (neg : bool) (bm : list Z) (pos nbits ret : Z)
  : outcome (list Z * Z) :=
  let md_ := pos mod w in
  let n := u32 (nbits - pos) in
  let src := word_index (pos / w) in
  if md_ =? 0 then bitmap_1arg_words md neg bm src pos nbits n 0 ret else
  let need := if nbits <=? w then n else Z.min (w - md_) n in
  m ← XDP2_BITMAP_MASK md_ need;
  '(bm, ret, found) ← part1 md neg bm src (conv (trunc w m)) (pos - md_) ret;
  if found : bool then mret (bm, ret) else
  let n := n - need in
  if n =? 0 then mret (bm, ret) else
  bitmap_1arg_words md neg bm (src + dir) pos nbits n need ret.

(** The functions made from it. [neg] is the operator [~] of the [zero]
    variants, [add] the [1] of the [next] variants. *)
Definition bitmap_find_funct (neg : bool) (add : Z) (roll : bool) (addr : list Z) (pos nbits : Z)
  : outcome Z :=
  '(_, r) ← XDP2_BITMAP_1ARG (Query QFind) neg addr (u32 (pos + add)) nbits nbits;
  if roll && (nbits <=? r) then
    '(_, r) ← XDP2_BITMAP_1ARG (Query QFind) neg addr 0 nbits (if nw =? 0 then nbits else r);
    mret r
  else mret r.

Definition xdp2_bitmap_find := bitmap_find_funct false 0 false.
Definition xdp2_bitmap_find_zero := bitmap_find_funct true 0 false.
Definition xdp2_bitmap_find_next := bitmap_find_funct false 1 false.
Definition xdp2_bitmap_find_next_zero := bitmap_find_funct true 1 false.
Definition xdp2_bitmap_find_roll := bitmap_find_funct false 0 true.
Definition xdp2_bitmap_find_roll_zero := bitmap_find_funct true 0 true.
Definition xdp2_bitmap_find_roll_next := bitmap_find_funct false 1 true.
Definition xdp2_bitmap_find_roll_next_zero := bitmap_find_funct true 1 true.

Definition xdp2_bitmap_test (addr : list Z) (pos nbits : Z) (t : bm_test) : outcome Z :=
  '(_, r) ← XDP2_BITMAP_1ARG (Query (QTest t)) false addr pos nbits 0; mret r.

Definition xdp2_bitmap_set_zeroes (addr : list Z) (pos nbits : Z) : outcome (list Z) :=
  '(bm, _) ← XDP2_BITMAP_1ARG (Fill false) false addr pos nbits 0; mret bm.

Definition xdp2_bitmap_set_ones (addr : list Z) (pos nbits : Z) : outcome (list Z) :=
  '(bm, _) ← XDP2_BITMAP_1ARG (Fill true) false addr pos nbits 0; mret bm.

(** The iterators: [body] runs at each position; it may change the bitmap, which
    is read again from the state for the next position. *)
Fixpoint foreach_loop {A} (k : nat) (neg : bool) (map : A -> list Z) (body : A -> Z -> outcome A)
  (st : A) (pos nbits : Z) : outcome (A * Z) :=
  if pos <? nbits then
    match k with
    | O => NoFuel
    | S k =>
      st ← body st pos;
      pos ← bitmap_find_funct neg 1 false (map st) pos nbits;
      foreach_loop k neg map body st pos nbits
    end
  else mret (st, pos).

Definition XDP2_MAKE_FOREACH {A} (neg : bool) (map : A -> list Z) (body : A -> Z -> outcome A)
  (st : A) (pos nbits : Z) : outcome (A * Z) :=
  p ← bitmap_find_funct neg 0 false (map st) pos nbits;
  foreach_loop (Z.to_nat nbits) neg map body st p nbits.

Definition xdp2_bitmap_foreach_bit {A} := @XDP2_MAKE_FOREACH A false.
Definition xdp2_bitmap_foreach_zero_bit {A} := @XDP2_MAKE_FOREACH A true.

(** ** Two arguments *)

Definition part2 (f : bm_fun) (md : mode2) (dest src : list Z) (didx sidx mask adder ret : Z)
  : outcome (list Z * Z * bool) :=
  s ← bm_ld src sidx;
  d ← bm_ld dest didx;
  let res := Z.land (trunc w (XDP2_BITMAP_VALUE f s d)) mask in
  match md with
  | MCompare =>
    match XDP2_BITMAP_DO_COMPARE (conv res) adder with
    | Some r => mret (dest, r, true)
    | None => mret (dest, ret, false)
    end
  | MWrite t =>
    dest' ← bm_st dest didx (Z.lor res (Z.land d (trunc w (Z.lnot mask))));
    mret (dest', XDP2_BITMAP_HANDLE_TEST t ret res mask, false)
  end.

Fixpoint whole2 (k : nat) (f : bm_fun) (md : mode2) (sdir : Z) (dest src : list Z)
  (di si i adder ret : Z) : outcome (list Z * Z * bool) :=
  match k with
  | O => mret (dest, ret, false)
  | S k =>
    s ← bm_ld src (si + sdir * i);
    d ← bm_ld dest (di + dir * i);
    let res := trunc w (XDP2_BITMAP_VALUE f s d) in
    match md with
    | MCompare =>
      match XDP2_BITMAP_DO_COMPARE (conv res) (adder + i * w) with
      | Some r => mret (dest, r, true)
      | None => whole2 k f md sdir dest src di si (i + 1) adder ret
      end
    | MWrite t =>
      dest' ← bm_st dest (di + dir * i) res;
      whole2 k f md sdir dest' src di si (i + 1) adder
             (XDP2_BITMAP_HANDLE_TEST t ret res XDP2_BITMAP_1S)
    end
  end.

Definition bitmap_2arg_words (f : bm_fun) (md : mode2) (sdir : Z) (dest src : list Z)
  (di si pos nbits n need ret : Z) : outcome (list Z * Z) :=
  let cnt := n / w in
  '(dest, ret, found) ← whole2 (Z.to_nat cnt) f md sdir dest src di si 0 (pos + need) ret;
  let n := if found : bool then 0 else n mod w in
  if n =? 0 then mret (dest, ret) else
  m ← XDP2_BITMAP_LOW_MASK n;
  '(dest, ret, _) ← part2 f md dest src (di + dir * cnt) (si + sdir * cnt) (conv (trunc w m))
                          (nbits - n) ret;
  mret (dest, ret).

(** [wsrc]: the source is a single word, used for every word of the
    destination. *)
Definition XDP2_BITMAP_2ARG (f : bm_fun) (md : mode2) (wsrc : bool) (dest src : list Z)
  (pos nbits ret : Z) : outcome (list Z * Z) :=
  let md_ := pos mod w in
  let sdir := if wsrc then 0 else dir in
  let n := u32 (nbits - pos) in
  let si := if wsrc then 0 else word_index (pos / w) in
  let di := word_index (pos / w) in
  if md_ =? 0 then bitmap_2arg_words f md sdir dest src di si pos nbits n 0 ret else
  let need := Z.min (w - md_) n in
  m ← XDP2_BITMAP_MASK md_ need;
  '(dest, ret, found) ← part2 f md dest src di si (conv (trunc w m)) (pos - md_) ret;
  if found : bool then mret (dest, ret) else
  let n := n - need in
  if n =? 0 then mret (dest, ret) else
  bitmap_2arg_words f md sdir dest src (di + dir) (si + sdir) pos nbits n need ret.

(** [copy], [not] and the [destsrc] operations, without and with a test; and the
    comparisons. [dest] of a comparison is [src1]. *)
Definition bitmap_2arg_funct (f : bm_fun) (wsrc : bool) (dest src : list Z) (pos nbits : Z)
  : outcome (list Z) :=
  '(d, _) ← XDP2_BITMAP_2ARG f (MWrite TEST_NONE) wsrc dest src pos nbits 0; mret d.

Definition bitmap_2arg_test_funct (f : bm_fun) (wsrc : bool) (dest src : list Z) (pos nbits : Z)
  (t : bm_test) : outcome (list Z * Z) :=
  XDP2_BITMAP_2ARG f (MWrite t) wsrc dest src pos nbits 0.

Definition bitmap_2arg_cmp_funct (o : binop) (nt : bool) (wsrc : bool) (src1 src2 : list Z)
  (pos nbits : Z) : outcome Z :=
  '(_, r) ← XDP2_BITMAP_2ARG (BmFun true o nt false false) MCompare wsrc src1 src2 pos nbits nbits;
  mret r.

Definition xdp2_bitmap_copy := bitmap_2arg_funct (BmFun false BAnd false false false).
Definition xdp2_bitmap_not := bitmap_2arg_funct (BmFun false BAnd false true false).
Definition xdp2_bitmap_cmp := bitmap_2arg_cmp_funct BXor false.
Definition xdp2_bitmap_first_and := bitmap_2arg_cmp_funct BAnd false.
Definition xdp2_bitmap_first_or := bitmap_2arg_cmp_funct BOr false.
Definition xdp2_bitmap_first_and_zero := bitmap_2arg_cmp_funct BOr true.
Definition xdp2_bitmap_first_or_zero := bitmap_2arg_cmp_funct BAnd true.

Definition destsrc_fun (o : binop) (nt s2 : bool) : bm_fun := BmFun true o nt false s2.
Definition xdp2_bitmap_destsrc_and := bitmap_2arg_funct (destsrc_fun BAnd false false).
Definition xdp2_bitmap_destsrc_or := bitmap_2arg_funct (destsrc_fun BOr false false).
Definition xdp2_bitmap_destsrc_xor := bitmap_2arg_funct (destsrc_fun BXor false false).
Definition xdp2_bitmap_destsrc_nand := bitmap_2arg_funct (destsrc_fun BAnd true false).
Definition xdp2_bitmap_destsrc_nor := bitmap_2arg_funct (destsrc_fun BOr true false).
Definition xdp2_bitmap_destsrc_nxor := bitmap_2arg_funct (destsrc_fun BXor true false).
Definition xdp2_bitmap_destsrc_and_not := bitmap_2arg_funct (destsrc_fun BAnd false true).
Definition xdp2_bitmap_destsrc_or_not := bitmap_2arg_funct (destsrc_fun BOr false true).
Definition xdp2_bitmap_destsrc_xor_not := bitmap_2arg_funct (destsrc_fun BXor false true).
Definition xdp2_bitmap_destsrc_nand_not := bitmap_2arg_funct (destsrc_fun BAnd true true).
Definition xdp2_bitmap_destsrc_nor_not := bitmap_2arg_funct (destsrc_fun BOr true true).
Definition xdp2_bitmap_destsrc_nxor_not := bitmap_2arg_funct (destsrc_fun BXor true true).

(** ** Three arguments *)

Definition part3 (f : bm_fun) (t : bm_test) (dest src1 src2 : list Z) (didx s1 s2 mask ret : Z)
  : outcome (list Z * Z) :=
  a ← bm_ld src1 s1;
  b ← bm_ld src2 s2;
  d ← bm_ld dest didx;
  let res := Z.land (trunc w (XDP2_BITMAP_VALUE2 f a b)) mask in
  dest' ← bm_st dest didx (Z.lor res (Z.land d (trunc w (Z.lnot mask))));
  mret (dest', XDP2_BITMAP_HANDLE_TEST t ret res mask).

Fixpoint whole3 (k : nat) (f : bm_fun) (t : bm_test) (sdir : Z) (dest src1 src2 : list Z)
  (di s1 s2 i ret : Z) : outcome (list Z * Z) :=
  match k with
  | O => mret (dest, ret)
  | S k =>
    a ← bm_ld src1 (s1 + sdir * i);
    b ← bm_ld src2 (s2 + dir * i);
    let res := trunc w (XDP2_BITMAP_VALUE2 f a b) in
    dest' ← bm_st dest (di + dir * i) res;
    whole3 k f t sdir dest' src1 src2 di s1 s2 (i + 1)
           (XDP2_BITMAP_HANDLE_TEST t ret res XDP2_BITMAP_1S)
  end.

Definition bitmap_3arg_words (f : bm_fun) (t : bm_test) (sdir : Z) (dest src1 src2 : list Z)
  (di s1 s2 n ret : Z) : outcome (list Z * Z) :=
  let cnt := n / w in
  '(dest, ret) ← whole3 (Z.to_nat cnt) f t sdir dest src1 src2 di s1 s2 0 ret;
  let n := n mod w in
  if n =? 0 then mret (dest, ret) else
  m ← XDP2_BITMAP_LOW_MASK n;
  part3 f t dest src1 src2 (di + dir * cnt) (s1 + sdir * cnt) (s2 + dir * cnt) (conv (trunc w m)) ret.

Definition XDP2_BITMAP_3ARG (f : bm_fun) (t : bm_test) (wsrc : bool) (dest src1 src2 : list Z)
  (pos nbits ret : Z) : outcome (list Z * Z) :=
  let md_ := pos mod w in
  let sdir := if wsrc then 0 else dir in
  let n := u32 (nbits - pos) in
  let s1 := if wsrc then 0 else word_index (pos / w) in
  let s2 := word_index (pos / w) in
  let di := word_index (pos / w) in
  if md_ =? 0 then bitmap_3arg_words f t sdir dest src1 src2 di s1 s2 n ret else
  let need := Z.min (w - md_) n in
  m ← XDP2_BITMAP_MASK md_ need;
  '(dest, ret) ← part3 f t dest src1 src2 di s1 s2 (conv (trunc w m)) ret;
  let n := n - need in
  if n =? 0 then mret (dest, ret) else
  bitmap_3arg_words f t sdir dest src1 src2 (di + dir) (s1 + sdir) (s2 + dir) n ret.

Definition bitmap_3arg_test_funct (f : bm_fun) (wsrc : bool) (dest src1 src2 : list Z)
  (pos nbits : Z) (t : bm_test) : outcome (list Z * Z) :=
  XDP2_BITMAP_3ARG f t wsrc dest src1 src2 pos nbits 0.

Definition bitmap_3arg_funct (f : bm_fun) (wsrc : bool) (dest src1 src2 : list Z) (pos nbits : Z)
  : outcome (list Z) :=
  '(d, _) ← XDP2_BITMAP_3ARG f TEST_NONE wsrc dest src1 src2 pos nbits 0; mret d.

Definition xdp2_bitmap_and := bitmap_3arg_funct (destsrc_fun BAnd false false).
Definition xdp2_bitmap_or := bitmap_3arg_funct (destsrc_fun BOr false false).
Definition xdp2_bitmap_xor := bitmap_3arg_funct (destsrc_fun BXor false false).
Definition xdp2_bitmap_nand := bitmap_3arg_funct (destsrc_fun BAnd true false).
Definition xdp2_bitmap_nor := bitmap_3arg_funct (destsrc_fun BOr true false).
Definition xdp2_bitmap_nxor := bitmap_3arg_funct (destsrc_fun BXor true false).
Definition xdp2_bitmap_and_not := bitmap_3arg_funct (destsrc_fun BAnd false true).
Definition xdp2_bitmap_or_not := bitmap_3arg_funct (destsrc_fun BOr false true).
Definition xdp2_bitmap_xor_not := bitmap_3arg_funct (destsrc_fun BXor false true).
Definition xdp2_bitmap_nand_not := bitmap_3arg_funct (destsrc_fun BAnd true true).
Definition xdp2_bitmap_nor_not := bitmap_3arg_funct (destsrc_fun BOr true true).
Definition xdp2_bitmap_nxor_not := bitmap_3arg_funct (destsrc_fun BXor true true).
End Bitmap.
