(* ===== verification/BitmapSpec.v ===== *)
(** * Bitmaps: the bits of a bitmap

    The logical view of a bitmap that the operations of [Bitmap] are related to:
    bit [i] of a bitmap of words of [w] bits, whatever the byte order of the
    words and their order in the array. The class [WordConv] is what the
    operations rely on of a byte order conversion, with the instances the
    library uses. *)

From stdpp Require Import base list numbers.
From S2P Require Import Prelude BitmapWord BitmapWordSpec Bitmap.

(** ** Byte order conversions *)

(** A conversion permutes the bits of a word, and undoes itself. *)
Class WordConv (w : Z) (conv : Z -> Z) := {
  conv_perm : Z -> Z;
  conv_word : forall v, is_word w v -> is_word w (conv v);
  conv_testbit : forall v i, is_word w v -> 0 <= i < w ->
    Z.testbit (conv v) i = Z.testbit v (conv_perm i);
  conv_perm_range : forall i, 0 <= i < w -> 0 <= conv_perm i < w;
  conv_perm_invol : forall i, 0 <= i < w -> conv_perm (conv_perm i) = i;
}.

#[export] Instance conv_none w : WordConv w (fun v => v).
Proof. apply (Build_WordConv w _ (fun i => i)); done. Defined.

(** The position a bit comes from under a swap of [w / 8] bytes. *)
Definition swap_pos (w i : Z) : Z := w - 8 - 8 * (i / 8) + i mod 8.

Lemma swap_pos_range w i : w mod 8 = 0 -> 0 <= i < w -> 0 <= swap_pos w i < w.
Proof. unfold swap_pos. intros. Z.to_euclidean_division_equations. lia. Qed.

Lemma swap_pos_invol w i : w mod 8 = 0 -> 0 <= i < w -> swap_pos w (swap_pos w i) = i.
Proof.
  intros Hw Hi. pose proof (Z.mod_pos_bound i 8 ltac:(lia)) as Hr.
  pose proof (Z.div_mod i 8 ltac:(lia)) as Di. pose proof (Z.div_mod w 8 ltac:(lia)) as Dw.
  assert (swap_pos w i / 8 = w / 8 - 1 - i / 8) as E1.
  { symmetry. apply Z.div_unique_pos with (i mod 8); [done | unfold swap_pos; lia]. }
  assert (swap_pos w i mod 8 = i mod 8) as E2.
  { symmetry. apply Z.mod_unique_pos with (w / 8 - 1 - i / 8); [done | unfold swap_pos; lia]. }
  unfold swap_pos at 1. rewrite E1, E2. lia.
Qed.

Lemma bswap16_range v : is_word 16 v -> is_word 16 (bswap16 v).
Proof.
  intros Hv. unfold bswap16. apply is_word_lor; [lia | |].
  - apply is_word_bits; [lia | apply Z.shiftl_nonneg, Z.land_nonneg; lia |]. intros i Hi.
    rewrite Z.shiftl_spec, Z.land_spec by lia. change 0xff with (Z.ones 8).
    rewrite Z.ones_spec_high by lia. apply andb_false_r.
  - apply is_word_bits; [lia | apply Z.land_nonneg; lia |]. intros i Hi.
    rewrite Z.land_spec. change 0xff with (Z.ones 8). rewrite Z.ones_spec_high by lia. apply andb_false_r.
Qed.

Lemma bswap16_testbit v i :
  0 <= i < 16 -> Z.testbit (bswap16 v) i = Z.testbit v (swap_pos 16 i).
Proof.
  intros Hi. unfold bswap16. change 0xff with (Z.ones 8). rewrite Z.lor_spec, Z.shiftl_spec by lia.
  rewrite !Z.land_spec, Z.shiftr_spec by lia. unfold swap_pos.
  destruct (Z.ltb_spec i 8) as [L | L].
  - rewrite (Z.testbit_neg_r v (i - 8)), andb_false_l, orb_false_l by lia.
    rewrite Z.ones_spec_low, andb_true_r by lia. rewrite Z.div_small, Z.mod_small by lia. f_equal. lia.
  - rewrite (Z.ones_spec_low 8 (i - 8)), (Z.ones_spec_high 8 i), andb_true_r, andb_false_r, orb_false_r by lia.
    f_equal. Z.to_euclidean_division_equations. lia.
Qed.

(** One step of doubling: swap the halves, each swapped. *)
Lemma double_swap_testbit (f : Z -> Z) h v i :
  0 < h -> h mod 8 = 0 ->
  (forall x, is_word h x -> is_word h (f x)) ->
  (forall x j, is_word h x -> 0 <= j < h -> Z.testbit (f x) j = Z.testbit x (swap_pos h j)) ->
  0 <= i < 2 * h ->
  Z.testbit (Z.lor (Z.shiftl (f (Z.land v (Z.ones h))) h) (f (Z.land (Z.shiftr v h) (Z.ones h)))) i =
  Z.testbit v (swap_pos (2 * h) i).
Proof.
  intros Hh H8 Hf Hb Hi.
  assert (forall x, is_word h (Z.land x (Z.ones h))) as Hlow.
  { intros x. rewrite Z.land_ones by lia. apply Z.mod_pos_bound. lia. }
  assert (forall x j, 0 <= j < h -> Z.testbit (f (Z.land x (Z.ones h))) j = Z.testbit x (swap_pos h j)) as E.
  { intros x j Hj. rewrite Hb by auto. rewrite Z.land_spec, Z.ones_spec_low; [apply andb_true_r |].
    by apply swap_pos_range. }
  rewrite Z.lor_spec, Z.shiftl_spec by lia. destruct (Z.ltb_spec i h) as [L | L].
  - rewrite (Z.testbit_neg_r _ (i - h)), orb_false_l by lia. rewrite E by lia.
    rewrite Z.shiftr_spec by (apply swap_pos_range; lia). f_equal. unfold swap_pos. lia.
  - rewrite (word_testbit_high h (f (Z.land (Z.shiftr v h) (Z.ones h)))), orb_false_r by (auto || lia).
    rewrite E by lia. f_equal. unfold swap_pos. Z.to_euclidean_division_equations. lia.
Qed.

Lemma double_swap_range (f : Z -> Z) h v :
  0 < h -> (forall x, is_word h x -> is_word h (f x)) ->
  is_word (2 * h) (Z.lor (Z.shiftl (f (Z.land v (Z.ones h))) h) (f (Z.land (Z.shiftr v h) (Z.ones h)))).
Proof.
  intros Hh Hf.
  assert (forall x, is_word h (f (Z.land x (Z.ones h)))) as Hlow.
  { intros x. apply Hf. rewrite Z.land_ones by lia. apply Z.mod_pos_bound. lia. }
  assert (forall x, 0 <= f (Z.land x (Z.ones h))) as H0 by (intros x; apply Hlow).
  apply is_word_bits; [lia | apply Z.lor_nonneg; split; [by apply Z.shiftl_nonneg | apply H0] |].
  intros i Hi. rewrite Z.lor_spec, Z.shiftl_spec by lia. by rewrite !(word_testbit_high h) by (auto || lia).
Qed.

#[export] Instance conv_bswap16 : WordConv 16 bswap16.
Proof.
  apply (Build_WordConv 16 _ (swap_pos 16)).
  - apply bswap16_range.
  - intros v i _ Hi. by apply bswap16_testbit.
  - intros i Hi. by apply swap_pos_range.
  - intros i Hi. by apply swap_pos_invol.
Defined.

Lemma bswap32_testbit v i : 0 <= i < 32 -> Z.testbit (bswap32 v) i = Z.testbit v (swap_pos 32 i).
Proof.
  intros Hi. unfold bswap32. change 0xffff with (Z.ones 16). change 32 with (2 * 16).
  apply (double_swap_testbit bswap16 16); [lia | done | apply bswap16_range | | lia].
  intros x j _ Hj. by apply bswap16_testbit.
Qed.

#[export] Instance conv_bswap32 : WordConv 32 bswap32.
Proof.
  apply (Build_WordConv 32 _ (swap_pos 32)).
  - intros v _. unfold bswap32. change 0xffff with (Z.ones 16). change 32 with (2 * 16).
    apply (double_swap_range bswap16 16); [lia | apply bswap16_range].
  - intros v i _ Hi. by apply bswap32_testbit.
  - intros i Hi. by apply swap_pos_range.
  - intros i Hi. by apply swap_pos_invol.
Defined.

#[export] Instance conv_bswap64 : WordConv 64 bswap64.
Proof.
  apply (Build_WordConv 64 _ (swap_pos 64)).
  - intros v _. unfold bswap64. change 0xffffffff with (Z.ones 32). change 64 with (2 * 32).
    apply (double_swap_range bswap32 32); [lia | apply conv_word].
  - intros v i _ Hi. unfold bswap64. change 0xffffffff with (Z.ones 32). change 64 with (2 * 32).
    apply (double_swap_testbit bswap32 32); [lia | done | apply conv_word | | lia].
    intros x j _ Hj. by apply bswap32_testbit.
  - intros i Hi. by apply swap_pos_range.
  - intros i Hi. by apply swap_pos_invol.
Defined.

(** ** The bits of a bitmap *)

Section View.
Context (w : Z) (conv : Z -> Z) (nw : Z).

(** The [k]-th group of [w] bits. *)
Definition bm_word (bm : list Z) (k : Z) : Z := default 0 (bm !! Z.to_nat (word_index nw k)).

(** Bit [i]. *)
Definition bm_bit (bm : list Z) (i : Z) : bool := Z.testbit (conv (bm_word bm (i / w))) (i mod w).

Definition bm_words (bm : list Z) : Z := Z.of_nat (length bm).

(** The words are in range, and a reverse bitmap is as long as it says. *)
Definition bm_ok (bm : list Z) : Prop := Forall (is_word w) bm /\ (nw = 0 \/ nw = bm_words bm).

(** [bm'] is [bm] with the bits [lo, hi) given by [g]. *)
Definition bm_upd (bm bm' : list Z) (lo hi : Z) (g : Z -> bool) : Prop :=
  bm_ok bm' /\ length bm' = length bm /\
  forall i, 0 <= i < w * bm_words bm -> bm_bit bm' i = if (lo <=? i) && (i <? hi) then g i else bm_bit bm i.

End View.

Section ViewLemmas.
Context {w : Z} {conv : Z -> Z} {CV : WordConv w conv} {nw : Z} (Hw : word_bits w).
Abbreviation word := (bm_word nw).
Abbreviation bit := (bm_bit w conv nw).
Abbreviation ok := (bm_ok w nw).
Abbreviation upd := (bm_upd w conv nw).

Lemma w_range : 8 <= w <= 64.
Proof using Hw. by apply word_bits_range. Qed.

Lemma w_pow : 2 ^ w - 1 >= 255.
Proof using Hw.
  pose proof w_range. assert (2 ^ 8 <= 2 ^ w) by (apply Z.pow_le_mono_r; lia). lia.
Qed.

(** A bit of the [k]-th group. *)
Lemma bit_group bm k j : 0 <= j < w -> bit bm (k * w + j) = Z.testbit (conv (word bm k)) j.
Proof using Hw.
  intros Hj. pose proof w_range. unfold bm_bit.
  rewrite Z.add_comm, Z.div_add, Z.mod_add, Z.div_small, Z.mod_small by lia. done.
Qed.

Lemma word_index_step k i : word_index nw k + dir nw * i = word_index nw (k + i).
Proof. unfold word_index, dir. destruct (nw =? 0); lia. Qed.

Lemma word_index_range bm k :
  ok bm -> 0 <= k < bm_words bm -> 0 <= word_index nw k < bm_words bm.
Proof. intros [_ [-> | ->]] Hk; unfold word_index; [simpl; lia |]. destruct (Z.eqb_spec (bm_words bm) 0); lia. Qed.

Lemma word_index_inj k j : word_index nw k = word_index nw j -> k = j.
Proof. unfold word_index. destruct (nw =? 0); lia. Qed.

Lemma bm_ld_word bm k :
  ok bm -> 0 <= k < bm_words bm ->
  bm_ld bm (word_index nw k) = Done (word bm k) /\ is_word w (word bm k).
Proof.
  intros Hok Hk. pose proof (word_index_range bm k Hok Hk) as Hi. destruct Hok as [Hf _].
  unfold bm_ld, bm_word. destruct (Z.ltb_spec (word_index nw k) 0); [lia |].
  destruct (lookup_lt_is_Some_2 bm (Z.to_nat (word_index nw k))) as [v E].
  { unfold bm_words in Hi. lia. }
  rewrite E. simpl. split; [done |]. by eapply Forall_lookup_1.
Qed.

Lemma st_word bm k v :
  ok bm -> 0 <= k < bm_words bm -> is_word w v ->
  exists bm', bm_st bm (word_index nw k) v = Done bm' /\ ok bm' /\ length bm' = length bm /\
    forall j, 0 <= j < bm_words bm -> word bm' j = if j =? k then v else word bm j.
Proof.
  intros Hok Hk Hv. pose proof (word_index_range bm k Hok Hk) as Hi.
  exists (<[Z.to_nat (word_index nw k) := v]> bm). unfold bm_st, bm_words in *.
  destruct (Z.ltb_spec (word_index nw k) 0), (Z.leb_spec (Z.of_nat (length bm)) (word_index nw k));
    simpl; try lia.
  split_and!; [done | | apply length_insert |].
  - destruct Hok as [Hf Hn]. split; [by apply Forall_insert |].
    unfold bm_words. rewrite length_insert. done.
  - intros j Hj. pose proof (word_index_range bm j Hok Hj) as Hij. unfold bm_words in Hij. unfold bm_word.
    destruct (Z.eqb_spec j k) as [-> | Hne].
    + rewrite list_lookup_insert_eq by lia. done.
    + rewrite list_lookup_insert_ne; [done |]. intros E. apply Hne, word_index_inj. lia.
Qed.

(** Storing a word updates the bits of its group. *)
Lemma st_upd bm k v a b g :
  ok bm -> 0 <= k < bm_words bm -> is_word w v -> 0 <= a -> b <= w ->
  (forall j, 0 <= j < w -> Z.testbit (conv v) j =
     if (a <=? j) && (j <? b) then g (k * w + j) else bit bm (k * w + j)) ->
  exists bm', bm_st bm (word_index nw k) v = Done bm' /\ upd bm bm' (k * w + a) (k * w + b) g.
Proof using CV Hw.
  intros Hok Hk Hv Ha Hb Hg. pose proof w_range as Hw8.
  destruct (st_word bm k v Hok Hk Hv) as (bm' & E & Hok' & Hl & Hwd).
  exists bm'. split; [done |]. split_and!; [done | done |]. intros i Hi.
  rewrite (Z.div_mod i w) by lia. rewrite (Z.mul_comm w). set (q := i / w). set (j := i mod w).
  assert (0 <= j < w) as Hj by (apply Z.mod_pos_bound; lia).
  assert (0 <= q < bm_words bm) as Hq by (unfold q; split; [apply Z.div_pos | apply Z.div_lt_upper_bound]; lia).
  rewrite !bit_group by done. rewrite Hwd by done. destruct (Z.eqb_spec q k) as [-> | Hne].
  - rewrite Hg by done. rewrite bit_group by done.
    destruct (Z.leb_spec a j), (Z.leb_spec (k * w + a) (k * w + j)), (Z.ltb_spec j b),
      (Z.ltb_spec (k * w + j) (k * w + b)); try lia; done.
  - destruct (Z.leb_spec (k * w + a) (q * w + j)), (Z.ltb_spec (q * w + j) (k * w + b)); simpl; try done.
    exfalso. destruct (Z.lt_trichotomy q k) as [L | [L | L]]; [nia | lia | nia].
Qed.

Lemma upd_refl bm p g : ok bm -> upd bm bm p p g.
Proof. intros Hok. split_and!; [done | done |]. intros i Hi. repeat zcase; (done || lia). Qed.

Lemma upd_trans bm bm1 bm2 lo mid hi g :
  lo <= mid <= hi -> upd bm bm1 lo mid g -> upd bm1 bm2 mid hi g -> upd bm bm2 lo hi g.
Proof.
  intros Hm (Hok1 & Hl1 & H1) (Hok2 & Hl2 & H2). split_and!; [done | congruence |].
  intros i Hi. rewrite H2 by (unfold bm_words in *; rewrite Hl1; done). rewrite H1 by done.
  destruct (Z.leb_spec mid i), (Z.ltb_spec i hi), (Z.leb_spec lo i), (Z.ltb_spec i mid); simpl; (done || lia).
Qed.

Lemma upd_trans_down bm bm1 bm2 lo mid hi g :
  lo <= mid <= hi -> upd bm bm1 mid hi g -> upd bm1 bm2 lo mid g -> upd bm bm2 lo hi g.
Proof.
  intros Hm (Hok1 & Hl1 & H1) (Hok2 & Hl2 & H2). split_and!; [done | congruence |].
  intros i Hi. rewrite H2 by (unfold bm_words in *; rewrite Hl1; done). rewrite H1 by done.
  destruct (Z.leb_spec mid i), (Z.ltb_spec i hi), (Z.leb_spec lo i), (Z.ltb_spec i mid); simpl; (done || lia).
Qed.

Lemma upd_ok bm bm' lo hi g : upd bm bm' lo hi g -> ok bm'.
Proof. by intros (? & _). Qed.

Lemma upd_words bm bm' lo hi g : upd bm bm' lo hi g -> bm_words bm' = bm_words bm.
Proof. intros (_ & E & _). unfold bm_words. by rewrite E. Qed.

(** Bits from [hi] on are those of the old bitmap. *)
Lemma upd_above bm bm' lo hi g i :
  upd bm bm' lo hi g -> hi <= i -> 0 <= i < w * bm_words bm -> bit bm' i = bit bm i.
Proof.
  intros (_ & _ & H) Hi Hr. rewrite H by done.
  destruct (Z.leb_spec lo i), (Z.ltb_spec i hi); simpl; (done || lia).
Qed.

Lemma upd_ext bm bm' lo hi g g' :
  (forall i, lo <= i < hi -> 0 <= i < w * bm_words bm -> g i = g' i) ->
  upd bm bm' lo hi g -> upd bm bm' lo hi g'.
Proof.
  intros E (Hok & Hl & H). split_and!; [done | done |]. intros i Hi. rewrite H by done.
  destruct (Z.leb_spec lo i), (Z.ltb_spec i hi); simpl; try done. apply E; lia.
Qed.

(** ** Stored words and masks *)

Lemma conv_bit v j : is_word w v -> 0 <= j < w -> Z.testbit (conv v) j = Z.testbit v (conv_perm j).
Proof. apply conv_testbit. Qed.

Lemma conv_land v u j :
  is_word w v -> is_word w u -> 0 <= j < w ->
  Z.testbit (conv (Z.land v u)) j = Z.testbit (conv v) j && Z.testbit (conv u) j.
Proof using CV Hw.
  intros Hv Hu Hj. pose proof w_range.
  rewrite !conv_bit, Z.land_spec by
    (done || (apply is_word_land; [lia | done | unfold is_word in Hu; lia])). done.
Qed.

Lemma conv_lor v u j :
  is_word w v -> is_word w u -> 0 <= j < w ->
  Z.testbit (conv (Z.lor v u)) j = Z.testbit (conv v) j || Z.testbit (conv u) j.
Proof using CV Hw.
  intros Hv Hu Hj. pose proof w_range.
  rewrite !conv_bit, Z.lor_spec by (done || (apply is_word_lor; (done || lia))). done.
Qed.

Lemma conv_lxor v u j :
  is_word w v -> is_word w u -> 0 <= j < w ->
  Z.testbit (conv (Z.lxor v u)) j = xorb (Z.testbit (conv v) j) (Z.testbit (conv u) j).
Proof using CV Hw.
  intros Hv Hu Hj. pose proof w_range.
  rewrite !conv_bit, Z.lxor_spec by (done || (apply is_word_lxor; (done || lia))). done.
Qed.

Lemma conv_conv v j : is_word w v -> 0 <= j < w -> Z.testbit (conv (conv v)) j = Z.testbit v j.
Proof using CV.
  intros Hv Hj. rewrite !conv_bit by (done || by apply conv_word || by apply conv_perm_range).
  by rewrite conv_perm_invol.
Qed.

(** Only the bits of a word matter under a mask. *)
Lemma land_trunc v u : is_word w u -> Z.land v u = Z.land (trunc w v) u.
Proof using Hw.
  intros Hu. pose proof w_range. apply Z.bits_inj'. intros i Hi. rewrite !Z.land_spec, testbit_trunc by lia.
  destruct (Z.ltb_spec i w); [done |]. by rewrite (word_testbit_high w u i), !andb_false_r by (done || lia).
Qed.

(** The negation of a whole stored word. *)
Lemma conv_not v j :
  is_word w v -> 0 <= j < w -> Z.testbit (conv (trunc w (Z.lnot v))) j = negb (Z.testbit (conv v) j).
Proof using CV Hw.
  intros Hv Hj. pose proof w_range. pose proof (conv_perm_range j Hj) as Hp.
  rewrite conv_bit, testbit_trunc, Z.lnot_spec, <- conv_bit by (done || lia || (apply trunc_word; lia)).
  destruct (Z.ltb_spec (conv_perm j) w); [done | lia].
Qed.
End ViewLemmas.
