(* ===== verification/BitmapOps.v ===== *)
(** * Bitmaps: searches, tests and fills

    What [XDP2_BITMAP_1ARG] computes, in each of its modes, for every word size,
    byte order and word order: the first bit of a range, the number of its ones,
    whether it has a one or a zero, and the bitmap with the range set or
    cleared. *)

From stdpp Require Import base list numbers.
From S2P Require Import Prelude BitmapWord BitmapWordSpec Bitmap BitmapSpec.

(** ** Tests of a range of bits *)

(** The number of positions of a list at which [f] holds. *)
Definition count_list (f : Z -> bool) (l : list Z) : Z := foldr (fun i s => Z.b2z (f i) + s) 0 l.

Definition count (f : Z -> bool) (lo hi : Z) : Z := count_list f (seqZ lo (hi - lo)).

(** A test of the bits [lo, hi), from [ret] on. *)
Definition test_ref (t : bm_test) (f : Z -> bool) (lo hi ret : Z) : Z :=
  match t with
  | TEST_NONE => ret
  | TEST_WEIGHT => u32 (ret + count f lo hi)
  | TEST_ANY_SET => if existsb f (seqZ lo (hi - lo)) then 1 else ret
  | TEST_ANY_ZERO => if existsb (fun i => negb (f i)) (seqZ lo (hi - lo)) then 1 else ret
  end.

Lemma count_list_app f l1 l2 : count_list f (l1 ++ l2) = count_list f l1 + count_list f l2.
Proof. induction l1 as [| x l1 IH]; simpl; [done |]. rewrite IH. lia. Qed.

Lemma count_list_ext f g l : (forall i, i ∈ l -> f i = g i) -> count_list f l = count_list g l.
Proof.
  induction l as [| x l IH]; intros E; simpl; [done |]. rewrite E by left. f_equal.
  apply IH. intros i Hi. apply E. by right.
Qed.

Lemma count_list_fmap f (h : Z -> Z) l : count_list f (h <$> l) = count_list (fun i => f (h i)) l.
Proof. induction l as [| x l IH]; csimpl; [done |]. by rewrite IH. Qed.

Lemma count_list_perm f l1 l2 : l1 ≡ₚ l2 -> count_list f l1 = count_list f l2.
Proof. induction 1; simpl; lia. Qed.

Lemma count_split f lo mid hi : lo <= mid <= hi -> count f lo hi = count f lo mid + count f mid hi.
Proof.
  intros Hm. unfold count. replace (hi - lo) with ((mid - lo) + (hi - mid)) by lia.
  rewrite seqZ_app by lia. rewrite count_list_app. by replace (lo + (mid - lo)) with mid by lia.
Qed.

Lemma count_ext f g lo hi : (forall i, lo <= i < hi -> f i = g i) -> count f lo hi = count g lo hi.
Proof. intros E. apply count_list_ext. intros i Hi%elem_of_seqZ. apply E. lia. Qed.

Lemma count_shift f lo hi d : count f (d + lo) (d + hi) = count (fun i => f (d + i)) lo hi.
Proof.
  unfold count. replace (d + hi - (d + lo)) with (hi - lo) by lia.
  rewrite <- fmap_add_seqZ. apply count_list_fmap.
Qed.

Lemma count_bounds f lo hi : lo <= hi -> 0 <= count f lo hi <= hi - lo.
Proof.
  intros H. unfold count. replace (hi - lo) with (Z.of_nat (length (seqZ lo (hi - lo)))) at 3 by
    (rewrite length_seqZ; lia).
  induction (seqZ lo (hi - lo)) as [| x l IH]; simpl; [lia |]. destruct (f x); simpl; lia.
Qed.

Lemma popcount_count k v : popcount k v = count (Z.testbit v) 0 (Z.of_nat k).
Proof.
  induction k as [| k IH]; [done |]. cbn [popcount].
  rewrite (count_split _ 0 (Z.of_nat k)) by lia. rewrite IH. f_equal. unfold count.
  replace (Z.of_nat (S k) - Z.of_nat k) with 1 by lia.
  rewrite seqZ_cons by lia. simpl. lia.
Qed.

Lemma existsb_seq f lo hi :
  existsb f (seqZ lo (hi - lo)) = true <-> exists i, lo <= i < hi /\ f i = true.
Proof.
  rewrite existsb_exists. split.
  - intros (i & Hi & E). apply list_elem_of_In, elem_of_seqZ in Hi. exists i. split; [lia | done].
  - intros (i & Hi & E). exists i. split; [| done]. apply list_elem_of_In, elem_of_seqZ. lia.
Qed.

Lemma existsb_ext {A} (f g : A -> bool) l : (forall x, f x = g x) -> existsb f l = existsb g l.
Proof. intros E. induction l as [| x l IH]; simpl; [done |]. by rewrite E, IH. Qed.

Lemma existsb_seq_split f lo mid hi :
  lo <= mid <= hi ->
  existsb f (seqZ lo (hi - lo)) = existsb f (seqZ lo (mid - lo)) || existsb f (seqZ mid (hi - mid)).
Proof.
  intros Hm. replace (hi - lo) with ((mid - lo) + (hi - mid)) by lia.
  rewrite seqZ_app by lia. rewrite existsb_app. by replace (lo + (mid - lo)) with mid by lia.
Qed.

Lemma u32_add_l a b : u32 (u32 a + b) = u32 (a + b).
Proof. apply Zplus_mod_idemp_l. Qed.

(** A test can be done piece by piece. *)
Lemma test_ref_split t f lo mid hi ret :
  lo <= mid <= hi -> test_ref t f mid hi (test_ref t f lo mid ret) = test_ref t f lo hi ret.
Proof.
  intros Hm. destruct t; simpl; [done | | |].
  - rewrite u32_add_l. f_equal. rewrite (count_split f lo mid hi) by done. lia.
  - rewrite (existsb_seq_split _ lo mid hi) by done. by destruct (existsb _ _), (existsb _ _).
  - rewrite (existsb_seq_split _ lo mid hi) by done. by destruct (existsb _ _), (existsb _ _).
Qed.

Lemma test_ref_nil t f lo ret : is_u32 ret -> test_ref t f lo lo ret = ret.
Proof.
  intros Hr. destruct t; simpl; rewrite ?Z.sub_diag; try done.
  unfold count. rewrite Z.sub_diag. simpl (count_list _ _). rewrite Z.add_0_r. by apply Z.mod_small.
Qed.

Lemma test_ref_u32 t f lo hi ret : is_u32 ret -> is_u32 (test_ref t f lo hi ret).
Proof.
  intros Hr. destruct t; simpl; [done | apply Z.mod_pos_bound; lia | |];
    destruct (existsb _ _); unfold is_u32 in *; lia.
Qed.

(** ** Masks *)

Section Ops.
Context {w : Z} {conv : Z -> Z} {CV : WordConv w conv} {nw : Z} (Hw : word_bits w).
Abbreviation word := (bm_word nw).
Abbreviation bit := (bm_bit w conv nw).
Abbreviation ok := (bm_ok w nw).
Abbreviation upd := (bm_upd w conv nw).

(** [m] has the bits [a, b) of a word. *)
Definition is_mask (m a b : Z) : Prop :=
  is_word w m /\ forall j, 0 <= j < w -> Z.testbit m j = (a <=? j) && (j <? b).

Lemma promoted_range : w <= promoted w <= 64.
Proof using Hw. unfold promoted. pose proof (w_range Hw). lia. Qed.

Lemma ones_eq : XDP2_BITMAP_1S w = Z.ones w.
Proof. unfold XDP2_BITMAP_1S. by rewrite Z.ones_equiv, Z.sub_1_r. Qed.

Lemma HIGH_MASK_ok a :
  0 <= a < w -> exists m, XDP2_BITMAP_HIGH_MASK w a = Done m /\
    forall j, 0 <= j < w -> Z.testbit m j = (a <=? j).
Proof using Hw.
  intros Ha. pose proof (w_range Hw). pose proof promoted_range. unfold XDP2_BITMAP_HIGH_MASK, c_shl.
  destruct (Z.leb_spec 0 a), (Z.ltb_spec a (promoted w)); simpl; try lia.
  eexists; split; [done |]. intros j Hj. rewrite testbit_trunc, Z.shiftl_spec, ones_eq by lia.
  destruct (Z.ltb_spec j (promoted w)); [| lia]. simpl.
  destruct (Z.leb_spec a j); [apply Z.ones_spec_low; lia |]. by rewrite Z.testbit_neg_r by lia.
Qed.

Lemma LOW_MASK_ok b :
  0 < b <= w -> exists m, XDP2_BITMAP_LOW_MASK w b = Done m /\ is_mask (trunc w m) 0 b.
Proof using Hw.
  intros Hb. pose proof (w_range Hw). pose proof promoted_range. unfold XDP2_BITMAP_LOW_MASK, c_shr.
  assert (u32 (w - b) = w - b) as -> by (apply Z.mod_small; lia).
  destruct (Z.leb_spec 0 (w - b)), (Z.ltb_spec (w - b) (promoted w)); simpl; try lia.
  eexists; split; [done |]. split; [apply trunc_word; lia |]. intros j Hj.
  rewrite testbit_trunc, Z.shiftr_spec, ones_eq by lia.
  destruct (Z.ltb_spec j w), (Z.leb_spec 0 j), (Z.ltb_spec j b); try lia; simpl.
  - apply Z.ones_spec_low. lia.
  - apply Z.ones_spec_high. lia.
Qed.

Lemma MASK_ok a n :
  0 < a < w -> 0 <= n -> a + n <= w ->
  exists m, XDP2_BITMAP_MASK w a n = Done m /\ is_mask (trunc w m) a (a + n).
Proof using Hw.
  intros Ha Hn Hs. pose proof (w_range Hw). unfold XDP2_BITMAP_MASK.
  destruct (HIGH_MASK_ok a ltac:(lia)) as (h & -> & Hh).
  destruct (LOW_MASK_ok (a + n) ltac:(lia)) as (l & -> & Hl1 & Hl2). orun.
  eexists; split; [done |]. split; [apply trunc_word; lia |]. intros j Hj.
  rewrite testbit_trunc, Z.land_spec, Hh by lia. specialize (Hl2 j Hj). rewrite testbit_trunc in Hl2 by lia.
  destruct (Z.ltb_spec j w); [| lia]. simpl in *. rewrite Hl2.
  destruct (Z.leb_spec 0 j); [| lia]. done.
Qed.

(** ** One word *)

(** A word is zero when its converted bits are. *)
Lemma conv_zero v : is_word w v -> (conv v =? 0) = false -> exists j, 0 <= j < w /\ Z.testbit (conv v) j = true.
Proof using CV Hw.
  intros Hv Hne. apply Z.eqb_neq in Hne. pose proof (conv_word v Hv) as Hc. pose proof (w_range Hw).
  destruct (find_ffs_first w (conv v) Hw Hc) as [(Hr & Ft & _) | (_ & Hn)]; [eauto |].
  exfalso. apply Hne. apply (word_eq w); [done | split; [done | lia] |].
  intros j Hj. by rewrite Hn, Z.bits_0.
Qed.

(** The comparison step on a stored word [res], part of the [k]-th group. *)
Lemma do_compare_first res k f :
  is_word w res -> 0 <= k -> k * w + w <= 2 ^ 32 ->
  (forall j, 0 <= j < w -> Z.testbit (conv res) j = f (k * w + j)) ->
  match XDP2_BITMAP_DO_COMPARE w (conv res) (k * w) with
  | Some r => k * w <= r < k * w + w /\ is_first f (k * w) (k * w + w) r
  | None => forall i, k * w <= i < k * w + w -> f i = false
  end.
Proof using CV Hw.
  intros Hres Hk Hb Hf. pose proof (w_range Hw). pose proof (conv_word res Hres) as Hc.
  unfold XDP2_BITMAP_DO_COMPARE, xdp2_bitmap_word_find.
  destruct (conv res =? 0) eqn:E.
  - apply Z.eqb_eq in E. intros i Hi. replace i with (k * w + (i - k * w)) by lia.
    rewrite <- Hf by lia. rewrite E. apply Z.bits_0.
  - destruct (conv_zero res Hres E) as (j0 & Hj0 & T0).
    pose proof (find_ffs_first w (conv res) Hw Hc) as F. set (r := find_ffs w (conv res)) in *.
    assert (r < w) as Hr. { destruct F as [? | [-> Hn]]; [lia |]. rewrite Hn in T0 by done. done. }
    assert (0 <= r) by (destruct F; lia).
    assert (u32 (r + k * w) = r + k * w) as -> by (apply Z.mod_small; lia).
    split; [lia |]. rewrite (Z.add_comm (k * w) w). rewrite <- (Z.add_0_l (k * w)) at 1.
    apply is_first_shift. eapply is_first_ext; [| done]. intros j Hj. rewrite Hf by done. f_equal. lia.
Qed.

(** The weight does not depend on the byte order. *)
Lemma perm_seq : conv_perm <$> seqZ 0 w ≡ₚ seqZ 0 w.
Proof using CV Hw.
  pose proof (w_range Hw).
  assert (NoDup (conv_perm <$> seqZ 0 w)) as Hnd.
  { apply NoDup_fmap_2_strong; [| apply NoDup_seqZ]. intros x y Hx%elem_of_seqZ Hy%elem_of_seqZ E.
    rewrite <- (conv_perm_invol x), <- (conv_perm_invol y) by lia. by rewrite E. }
  apply submseteq_length_Permutation.
  - apply NoDup_submseteq; [done |]. intros x (y & -> & Hy%elem_of_seqZ)%list_elem_of_fmap.
    apply elem_of_seqZ. pose proof (conv_perm_range y). lia.
  - by rewrite length_fmap.
Qed.

Lemma weight_conv v :
  is_word w v -> xdp2_bitmap_word_weight 64 v = count (Z.testbit (conv v)) 0 w.
Proof using CV Hw.
  intros Hv. pose proof (w_range Hw). unfold xdp2_bitmap_word_weight.
  assert (is_word 64 v) as Hv64.
  { unfold is_word in *. assert (2 ^ w <= 2 ^ 64) by (apply Z.pow_le_mono_r; lia). lia. }
  rewrite weight_popcount_val by (done || (unfold word_bits; lia)).
  rewrite (popcount_high (Z.to_nat w)) by (rewrite ?Z2Nat.id by lia; (done || lia)).
  rewrite popcount_count, Z2Nat.id by lia. unfold count. rewrite Z.sub_0_r.
  rewrite <- (count_list_perm _ _ _ perm_seq), count_list_fmap. apply count_list_ext.
  intros i Hi%elem_of_seqZ. by rewrite conv_testbit by (done || lia).
Qed.

Lemma is_word_zero_bits v : is_word w v -> (v =? 0) = (conv v =? 0).
Proof using CV Hw.
  intros Hv. pose proof (w_range Hw). pose proof (conv_word v Hv) as Hc.
  apply eq_true_iff_eq. rewrite !Z.eqb_eq. split; intros E.
  - apply (word_eq w); [done | split; [done | lia] |]. intros j Hj.
    rewrite conv_testbit by done. by rewrite E, !Z.bits_0.
  - apply (word_eq w); [done | split; [done | lia] |]. intros j Hj.
    rewrite <- (conv_perm_invol j) by done. rewrite <- conv_testbit by (done || by apply conv_perm_range).
    by rewrite E, !Z.bits_0.
Qed.

(** A mask as it is stored: its bits are [a, b). *)
Definition stored_mask (M a b : Z) : Prop :=
  is_word w M /\ forall j, 0 <= j < w -> Z.testbit (conv M) j = (a <=? j) && (j <? b).

Lemma conv_mask m a b : is_mask m a b -> stored_mask (conv m) a b.
Proof using CV.
  intros [Hm Hb]. split; [by apply conv_word |]. intros j Hj. by rewrite conv_conv, Hb.
Qed.

Lemma ones_mask : stored_mask (XDP2_BITMAP_1S w) 0 w.
Proof using CV Hw.
  pose proof (w_range Hw). pose proof (w_pow Hw).
  assert (is_word w (XDP2_BITMAP_1S w)) as Hw1 by (unfold is_word, XDP2_BITMAP_1S; lia).
  split; [done |]. intros j Hj. pose proof (conv_perm_range j Hj).
  rewrite conv_testbit, ones_eq, Z.ones_spec_low by done.
  destruct (Z.leb_spec 0 j), (Z.ltb_spec j w); (done || lia).
Qed.

(** The bits of a stored word [res] in the range [a, b) of the [k]-th group. *)
Definition in_group (res k a b : Z) (f : Z -> bool) : Prop :=
  is_word w res /\ 0 <= a /\ a <= b <= w /\
  forall j, 0 <= j < w -> Z.testbit (conv res) j = (a <=? j) && (j <? b) && f (k * w + j).

Lemma in_group_zero res k a b f :
  in_group res k a b f -> (res =? 0) = negb (existsb f (seqZ (k * w + a) (k * w + b - (k * w + a)))).
Proof using CV Hw.
  intros (Hres & Ha & Hb & Hf). pose proof (w_range Hw). rewrite is_word_zero_bits by done.
  destruct (conv res =? 0) eqn:E; symmetry; [apply negb_true_iff | apply negb_false_iff].
  - apply not_true_iff_false. rewrite existsb_seq. intros (i & Hi & T). apply Z.eqb_eq in E.
    specialize (Hf (i - k * w) ltac:(lia)). replace (k * w + (i - k * w)) with i in Hf by lia.
    rewrite E, Z.bits_0, T in Hf. repeat zcase_in Hf; simpl in Hf; (done || lia).
  - destruct (conv_zero res Hres E) as (j & Hj & T). rewrite Hf in T by done.
    apply existsb_seq. exists (k * w + j). apply andb_true_iff in T as [T1 T2].
    apply andb_true_iff in T1 as [?%Z.leb_le ?%Z.ltb_lt]. split; [lia | done].
Qed.

Lemma in_group_count res k a b f :
  in_group res k a b f -> xdp2_bitmap_word_weight 64 res = count f (k * w + a) (k * w + b).
Proof using CV Hw.
  intros (Hres & Ha & Hb & Hf). pose proof (w_range Hw). rewrite weight_conv by done.
  rewrite count_shift. rewrite (count_split _ 0 a w), (count_split _ a b w) by lia.
  assert (forall lo hi, 0 <= lo -> hi <= w -> (hi <= a \/ b <= lo) -> count (Z.testbit (conv res)) lo hi = 0) as Z0.
  { intros lo hi H1 H2 H3. rewrite (count_ext _ (fun _ => false)).
    - unfold count. induction (seqZ lo (hi - lo)); simpl; [done | lia].
    - intros j Hj. rewrite Hf by lia. repeat zcase; simpl; (done || lia). }
  rewrite (Z0 0 a), (Z0 b w) by lia. rewrite Z.add_0_r, Z.add_0_l. apply count_ext.
  intros j Hj. rewrite Hf by lia. repeat zcase; simpl; (done || lia).
Qed.

(** A test of the word is a test of those bits. *)
Lemma handle_test_group t ret res M k a b f :
  in_group res k a b f -> stored_mask M a b ->
  XDP2_BITMAP_HANDLE_TEST t ret res M = test_ref t f (k * w + a) (k * w + b) ret.
Proof using CV Hw.
  intros Hg [HM Hm]. destruct t; simpl; [done | | |].
  - by rewrite (in_group_count res k a b f).
  - rewrite (in_group_zero res k a b f) by done. by destruct (existsb _ _).
  - rewrite land_trunc by done. rewrite (in_group_zero _ k a b (fun i => negb (f i))).
    { by destruct (existsb _ _). }
    destruct Hg as (Hres & Ha & Hb & Hf). pose proof (w_range Hw). split_and!; try lia.
    + apply is_word_land; [lia | apply trunc_word; lia | unfold is_word in HM; lia].
    + intros j Hj. rewrite conv_land, conv_not, Hm, Hf by (done || (apply trunc_word; lia)).
      destruct (a <=? j), (j <? b), (f (k * w + j)); done.
Qed.

(** A search of the word is a search of those bits. *)
Lemma do_compare_group res k a b f :
  in_group res k a b f -> 0 <= k -> k * w + w <= 2 ^ 32 ->
  match XDP2_BITMAP_DO_COMPARE w (conv res) (k * w) with
  | Some r => k * w + a <= r < k * w + b /\ is_first f (k * w + a) (k * w + b) r
  | None => forall i, k * w + a <= i < k * w + b -> f i = false
  end.
Proof using CV Hw.
  intros (Hres & Ha & Hb & Hf) Hk Hkb.
  set (g := fun i => (k * w + a <=? i) && (i <? k * w + b) && f i).
  assert (forall j, 0 <= j < w -> Z.testbit (conv res) j = g (k * w + j)) as Hg.
  { intros j Hj. rewrite Hf by done. unfold g. repeat zcase; simpl; (done || lia). }
  pose proof (do_compare_first res k g Hres Hk Hkb Hg) as D.
  destruct (XDP2_BITMAP_DO_COMPARE w (conv res) (k * w)) as [r |].
  - destruct D as [Hr [(_ & Gt & Gb) | (-> & Gn)]]; [| lia]. unfold g in Gt.
    apply andb_true_iff in Gt as [Gr Ft]. apply andb_true_iff in Gr as [?%Z.leb_le ?%Z.ltb_lt].
    split; [lia |]. left. split_and!; [lia | lia | done |]. intros j Hj. specialize (Gb j ltac:(lia)).
    unfold g in Gb. repeat zcase_in Gb; simpl in Gb; (done || lia).
  - intros i Hi. specialize (D i ltac:(lia)). unfold g in D. repeat zcase_in D; simpl in D; (done || lia).
Qed.
End Ops.

(** ** Bitmaps: the one argument operations

    The theorems on [find], [test], [set_zeroes] and [set_ones] and on the
    iterators, from the lemmas on words of [BitmapOps]. *)

Section One.
Context {w : Z} {conv : Z -> Z} {CV : WordConv w conv} {nw : Z} (Hw : word_bits w).
Abbreviation word := (bm_word nw).
Abbreviation bit := (bm_bit w conv nw).
Abbreviation ok := (bm_ok w nw).
Abbreviation upd := (bm_upd w conv nw).

(** The bits a search looks for. *)
Definition seen (neg : bool) (bm : list Z) (i : Z) : bool := xorb neg (bit bm i).

Lemma conv_opt_not neg v j :
  is_word w v -> 0 <= j < w ->
  Z.testbit (conv (trunc w (opt_not neg Z.lnot v))) j = xorb neg (Z.testbit (conv v) j).
Proof using CV Hw.
  intros Hv Hj. destruct neg; simpl; [by apply conv_not | by rewrite trunc_small].
Qed.

Lemma masked_group neg bm k M a b :
  ok bm -> 0 <= k < bm_words bm -> stored_mask (w := w) (conv := conv) M a b -> 0 <= a -> a <= b <= w ->
  in_group (w := w) (conv := conv) (Z.land (opt_not neg Z.lnot (word bm k)) M) k a b (seen neg bm).
Proof using CV Hw.
  intros Hok Hk [HM Hm] Ha Hb. pose proof (w_range Hw). destruct (bm_ld_word bm k Hok Hk) as [_ Hv].
  rewrite land_trunc by done. assert (is_word w (trunc w (opt_not neg Z.lnot (word bm k)))) by (apply trunc_word; lia).
  split_and!; try lia.
  - apply is_word_land; [lia | done | unfold is_word in HM; lia].
  - intros j Hj. rewrite conv_land, conv_opt_not, Hm by done. unfold seen. rewrite bit_group by done.
    apply andb_comm.
Qed.

Lemma whole_group neg bm k :
  ok bm -> 0 <= k < bm_words bm ->
  in_group (w := w) (conv := conv) (trunc w (opt_not neg Z.lnot (word bm k))) k 0 w (seen neg bm).
Proof using CV Hw.
  intros Hok Hk. pose proof (w_range Hw). destruct (bm_ld_word bm k Hok Hk) as [_ Hv].
  split_and!; try lia; [apply trunc_word; lia |].
  intros j Hj. rewrite conv_opt_not by done. unfold seen. rewrite bit_group by done.
  repeat zcase; simpl; (done || lia).
Qed.

(** How a range of bits falls on the words: [n] bits from the start of group
    [k0] are [n / w] whole groups and a leftover. *)
Lemma split_words k0 n nbits :
  0 <= k0 -> 0 <= n -> k0 * w + n = nbits ->
  0 <= n / w /\ 0 <= n mod w < w /\ nbits = (k0 + n / w) * w + n mod w.
Proof using Hw.
  intros Hk Hn E. pose proof (w_range Hw). pose proof (Z.div_mod n w ltac:(lia)).
  pose proof (Z.mod_pos_bound n w ltac:(lia)). pose proof (Z.div_pos n w ltac:(lia) ltac:(lia)). nia.
Qed.

(** A partial first word. *)
Lemma split_head pos nbits :
  0 <= pos <= nbits -> pos mod w <> 0 ->
  let m := pos mod w in let k := pos / w in let need := Z.min (w - m) (nbits - pos) in
  0 < m < w /\ 0 <= k /\ pos = k * w + m /\ 0 <= need /\ m + need <= w /\ pos + need = k * w + (m + need) /\
  (nbits - pos - need <> 0 -> pos + need = (k + 1) * w).
Proof using Hw.
  intros Hp Hm m k need. pose proof (w_range Hw). pose proof (Z.div_mod pos w ltac:(lia)).
  pose proof (Z.mod_pos_bound pos w ltac:(lia)). pose proof (Z.div_pos pos w ltac:(lia) ltac:(lia)).
  unfold need, m, k. nia.
Qed.

(** The number of bits wanted in the first word, as the code computes it. *)
Lemma need_min pos nbits :
  0 <= pos <= nbits -> pos mod w <> 0 ->
  (if nbits <=? w then nbits - pos else Z.min (w - pos mod w) (nbits - pos)) =
  Z.min (w - pos mod w) (nbits - pos).
Proof using Hw.
  intros Hp Hm. destruct (Z.leb_spec nbits w) as [Hle | ]; [| done]. pose proof (w_range Hw).
  assert (pos < w) by (destruct (decide (pos = w)) as [-> | ]; [rewrite Z.mod_same in Hm |]; lia).
  rewrite Z.mod_small by lia. lia.
Qed.

Lemma group_lt_words bm k j nbits :
  nbits <= w * bm_words bm -> 0 <= k -> 0 <= j -> k * w + j < nbits -> 0 <= k < bm_words bm.
Proof using Hw. intros. pose proof (w_range Hw). nia. Qed.

(** ** Searches *)

(** The result of searching [lo, hi): found, or nothing there. *)
Definition searched (f : Z -> bool) (lo hi ret r : Z) (fnd : bool) : Prop :=
  if fnd then lo <= r < hi /\ is_first f lo hi r else r = ret /\ forall i, lo <= i < hi -> f i = false.

Lemma searched_skip f lo mid hi ret r fnd :
  lo <= mid <= hi -> (forall i, lo <= i < mid -> f i = false) ->
  searched f mid hi ret r fnd -> searched f lo hi ret r fnd.
Proof.
  intros Hm Hn. destruct fnd; simpl.
  - intros [Hr Hf]. split; [lia |]. eapply is_first_skip; [| exact Hn | exact Hf]. lia.
  - intros [-> Hn1]. split; [done |]. intros j Hj.
    destruct (decide (j < mid)); [apply Hn; lia | apply Hn1; lia].
Qed.

Lemma searched_first f lo hi r fnd : searched f lo hi hi r fnd -> is_first f lo hi r.
Proof. destruct fnd; simpl; [by intros [_ ?] |]. intros [-> Hn]. by right. Qed.

Lemma part1_find neg bm k M a b ret nbits :
  ok bm -> 0 <= k < bm_words bm -> stored_mask (w := w) (conv := conv) M a b -> 0 <= a -> a <= b <= w ->
  w * bm_words bm <= 2 ^ 32 -> nbits = k * w ->
  exists r fnd, part1 w conv (Query QFind) neg bm (word_index nw k) M nbits ret = Done (bm, r, fnd) /\
    searched (seen neg bm) (k * w + a) (k * w + b) ret r fnd.
Proof using CV Hw.
  intros Hok Hk HM Ha Hb Hlim ->. pose proof (w_range Hw). unfold part1.
  destruct (bm_ld_word bm k Hok Hk) as [-> Hv]. orun.
  pose proof (do_compare_group Hw _ _ _ _ _ (masked_group neg bm k M a b Hok Hk HM Ha Hb)
    ltac:(lia) ltac:(nia)) as D.
  destruct (XDP2_BITMAP_DO_COMPARE _ _ _) as [r |]; [exists r, true | exists ret, false]; split; done.
Qed.

Lemma whole_query_find neg bm k0 ret cnt : forall i,
  ok bm -> 0 <= k0 -> 0 <= i -> k0 + i + Z.of_nat cnt <= bm_words bm -> w * bm_words bm <= 2 ^ 32 ->
  exists r fnd,
    whole_query w conv nw cnt QFind neg bm (word_index nw k0) i (k0 * w) ret = Done (r, fnd) /\
    searched (seen neg bm) ((k0 + i) * w) ((k0 + i + Z.of_nat cnt) * w) ret r fnd.
Proof using CV Hw.
  pose proof (w_range Hw). induction cnt as [| cnt IH]; intros i Hok Hk Hi Hb Hlim; cbn [whole_query].
  { exists ret, false. split; [done |]. split; [done | lia]. }
  rewrite word_index_step. destruct (bm_ld_word bm (k0 + i) Hok ltac:(lia)) as [-> Hv]. orun.
  replace (k0 * w + i * w) with ((k0 + i) * w) by lia.
  pose proof (do_compare_group Hw _ _ _ _ _ (whole_group neg bm (k0 + i) Hok ltac:(lia))
    ltac:(lia) ltac:(nia)) as D.
  rewrite Z.add_0_r in D. destruct (XDP2_BITMAP_DO_COMPARE _ _ _) as [r |].
  - exists r, true. split; [done |]. destruct D as [Hr Hf]. split; [nia |].
    eapply is_first_widen; [| exact Hf | lia]. nia.
  - destruct (IH (i + 1) Hok Hk ltac:(lia) ltac:(lia) Hlim) as (r & fnd & E & Sr).
    exists r, fnd. split; [done |].
    replace (k0 + (i + 1) + Z.of_nat cnt) with (k0 + i + Z.of_nat (S cnt)) in Sr by lia.
    eapply (searched_skip _ ((k0 + i) * w) ((k0 + (i + 1)) * w)); [nia | | exact Sr].
    intros j Hj. apply D. nia.
Qed.

Lemma words_find neg bm k0 pos need n nbits :
  ok bm -> 0 <= k0 -> 0 <= n -> k0 * w + n = nbits -> nbits <= w * bm_words bm ->
  w * bm_words bm <= 2 ^ 32 -> pos + need = k0 * w ->
  exists r, bitmap_1arg_words w conv nw (Query QFind) neg bm (word_index nw k0) pos nbits n need nbits =
              Done (bm, r) /\ is_first (seen neg bm) (k0 * w) nbits r.
Proof using CV Hw.
  intros Hok Hk Hn E Hb Hlim Hpos. pose proof (w_range Hw).
  destruct (split_words k0 n nbits Hk Hn E) as (Hc & Hm & Es). unfold bitmap_1arg_words. rewrite Hpos.
  destruct (whole_query_find neg bm k0 nbits (Z.to_nat (n / w)) 0) as (r & fnd & -> & Sr); [done | done | lia | nia | done |].
  rewrite Z.add_0_r, Z2Nat.id in Sr by done. orun. destruct fnd; simpl in *.
  - exists r. split; [done |]. destruct Sr as [Hr Hf]. eapply is_first_widen; [| exact Hf | lia]. nia.
  - destruct Sr as [-> Hn0]. destruct (Z.eqb_spec (n mod w) 0) as [Ez | Enz].
    + exists nbits. split; [done |]. right. split; [done |]. intros j Hj. apply Hn0. nia.
    + destruct (LOW_MASK_ok Hw (n mod w)) as (m & -> & Hmask); [lia |]. orun. rewrite word_index_step.
      destruct (part1_find neg bm (k0 + n / w) (conv (trunc w m)) 0 (n mod w) nbits (nbits - n mod w))
        as (r & fnd & -> & Sr); [done | nia | by apply conv_mask | lia | lia | done | lia |].
      exists r. split; [done |]. rewrite Z.add_0_r, <- Es in Sr.
      apply (searched_skip _ (k0 * w)) in Sr; [| nia | exact Hn0]. by apply searched_first in Sr.
Qed.

Lemma XDP2_BITMAP_1ARG_find neg bm pos nbits :
  ok bm -> 0 <= pos <= nbits -> nbits <= w * bm_words bm -> w * bm_words bm <= 2 ^ 32 -> nbits < 2 ^ 32 ->
  exists r, XDP2_BITMAP_1ARG w conv nw (Query QFind) neg bm pos nbits nbits = Done (bm, r) /\
            is_first (seen neg bm) pos nbits r.
Proof using CV Hw.
  intros Hok Hp Hb Hlim Hn32. pose proof (w_range Hw). unfold XDP2_BITMAP_1ARG.
  assert (u32 (nbits - pos) = nbits - pos) as -> by (apply Z.mod_small; lia).
  destruct (Z.eqb_spec (pos mod w) 0) as [Ez | Enz].
  - pose proof (Z.div_mod pos w ltac:(lia)) as D. rewrite Ez in D.
    pose proof (Z.div_pos pos w ltac:(lia) ltac:(lia)).
    destruct (words_find neg bm (pos / w) pos 0 (nbits - pos) nbits) as (r & -> & Hr); [done | lia .. |].
    exists r. split; [done |]. by replace (pos / w * w) with pos in Hr by lia.
  - rewrite need_min by done.
    destruct (split_head pos nbits Hp Enz) as (Hm & Hk & Ep & Hn & Hmn & Epn & Hnext).
    set (m := pos mod w) in *. set (k := pos / w) in *. set (need := Z.min (w - m) (nbits - pos)) in *.
    destruct (MASK_ok Hw m need) as (M & -> & HM); [lia | lia | lia |]. orun.
    destruct (decide (nbits = pos)) as [-> | Hne].
    { (* nothing left of the range: the mask is empty *)
      assert (need = 0) as Hn0 by lia. assert (0 <= k < bm_words bm) as Hkb by nia.
      destruct (part1_find neg bm k (conv (trunc w M)) m (m + need) pos (pos - m)) as (r & fnd & -> & Sr);
        [done | done | by apply conv_mask | lia | lia | done | lia |].
      destruct fnd; simpl in Sr; [lia |]. destruct Sr as [-> _]. rewrite Z.sub_diag, Hn0. simpl.
      exists pos. split; [done |]. right. split; lia. }
    destruct (part1_find neg bm k (conv (trunc w M)) m (m + need) nbits (pos - m)) as (r & fnd & -> & Sr);
      [done | nia | by apply conv_mask | lia | lia | done | lia |].
    rewrite <- Ep, <- Epn in Sr. destruct fnd; simpl in Sr.
    + exists r. split; [done |]. destruct Sr as [Hr Hf]. eapply is_first_widen; [| exact Hf | lia]. lia.
    + destruct Sr as [-> Hn0]. destruct (Z.eqb_spec (nbits - pos - need) 0) as [E0 | En0].
      * exists nbits. split; [done |]. right. split; [done |]. intros j Hj. apply Hn0. lia.
      * specialize (Hnext En0).
        replace (word_index nw k + dir nw) with (word_index nw (k + 1)) by
          (rewrite <- word_index_step; lia).
        destruct (words_find neg bm (k + 1) pos need (nbits - pos - need) nbits) as (r & -> & Hr);
          [done | lia .. |].
        exists r. split; [done |]. rewrite <- Hnext in Hr. by eapply is_first_skip; [| exact Hn0 | exact Hr]; lia.
Qed.

(** A bitmap that can be searched up to [nbits]. *)
Definition holds_bits (bm : list Z) (nbits : Z) : Prop :=
  ok bm /\ 0 <= nbits <= w * bm_words bm /\ w * bm_words bm <= 2 ^ 32 /\ nbits < 2 ^ 32.

Lemma find_funct_first neg add bm pos nbits :
  holds_bits bm nbits -> 0 <= pos -> 0 <= add -> pos + add <= nbits ->
  exists r, bitmap_find_funct w conv nw neg add false bm pos nbits = Done r /\
            is_first (seen neg bm) (pos + add) nbits r.
Proof using CV Hw.
  intros (Hok & Hb & Hlim & Hn) Hp Ha Hpa. unfold bitmap_find_funct.
  assert (u32 (pos + add) = pos + add) as -> by (apply Z.mod_small; lia).
  destruct (XDP2_BITMAP_1ARG_find neg bm (pos + add) nbits) as (r & -> & Hr); [done | lia .. |].
  orun. by exists r.
Qed.

(** ** Iteration

    [Inv st lo] is kept by the body; [lo] is the position the iteration has
    reached. *)
Lemma foreach_loop_rule {A} neg (map : A -> list Z) body (Inv : A -> Z -> Prop) nbits :
  (forall st lo, Inv st lo -> holds_bits (map st) nbits) ->
  (forall st lo p, Inv st lo -> 0 <= lo <= p -> p < nbits -> is_first (seen neg (map st)) lo nbits p ->
     exists st', body st p = Done st' /\ Inv st' (p + 1)) ->
  forall k st lo p,
  Inv st lo -> 0 <= lo -> is_first (seen neg (map st)) lo nbits p -> nbits - p <= Z.of_nat k -> lo <= nbits ->
  exists st' lo', foreach_loop w conv nw k neg map body st p nbits = Done (st', nbits) /\
    Inv st' lo' /\ 0 <= lo' <= nbits /\ forall i, lo' <= i < nbits -> seen neg (map st') i = false.
Proof using CV Hw.
  intros Hmap Hbody. induction k as [| k IH]; intros st lo p HI Hlo Hf Hk Hln;
    pose proof (is_first_bounds _ _ _ _ Hln Hf) as Hp; cbn [foreach_loop].
  - destruct (Z.ltb_spec p nbits); [lia |]. assert (p = nbits) as -> by lia.
    exists st, lo. split_and!; [done | done | lia | lia |]. destruct Hf as [? | [_ Hn]]; [lia | done].
  - destruct (Z.ltb_spec p nbits) as [Hlt | ].
    + destruct (Hbody st lo p HI ltac:(lia) Hlt Hf) as (st1 & -> & HI1). orun.
      destruct (find_funct_first neg 1 (map st1) p nbits (Hmap _ _ HI1)) as (p' & -> & Hf'); [lia .. |].
      orun. apply (IH st1 (p + 1) p' HI1); [lia | done | | lia].
      assert (p + 1 <= p') by (destruct Hf'; lia). lia.
    + assert (p = nbits) as -> by lia. exists st, lo. split_and!; [done | done | lia | lia |].
      destruct Hf as [? | [_ Hn]]; [lia | done].
Qed.

Lemma foreach_rule {A} neg (map : A -> list Z) body (Inv : A -> Z -> Prop) nbits st pos :
  (forall st lo, Inv st lo -> holds_bits (map st) nbits) ->
  (forall st lo p, Inv st lo -> 0 <= lo <= p -> p < nbits -> is_first (seen neg (map st)) lo nbits p ->
     exists st', body st p = Done st' /\ Inv st' (p + 1)) ->
  Inv st pos -> 0 <= pos <= nbits ->
  exists st' lo', XDP2_MAKE_FOREACH w conv nw neg map body st pos nbits = Done (st', nbits) /\
    Inv st' lo' /\ 0 <= lo' <= nbits /\ forall i, lo' <= i < nbits -> seen neg (map st') i = false.
Proof using CV Hw.
  intros Hmap Hbody HI Hp. unfold XDP2_MAKE_FOREACH.
  destruct (find_funct_first neg 0 (map st) pos nbits (Hmap _ _ HI)) as (p & -> & Hf); [lia .. |].
  orun. rewrite Z.add_0_r in Hf. apply (foreach_loop_rule neg map body Inv nbits Hmap Hbody) with pos;
    [done | lia | done | | lia].
  assert (pos <= p) by (destruct Hf; lia). lia.
Qed.

(** The positions of [lo, hi) at which [f] holds, in order. *)
Definition positions (f : Z -> bool) (lo hi : Z) : list Z :=
  filter (fun i => f i = true) (seqZ lo (hi - lo)).

Lemma positions_step f lo hi p :
  lo <= p < hi -> is_first f lo hi p -> positions f lo (p + 1) = [p].
Proof.
  intros Hp [(_ & Ft & Hb) | [-> _]]; [| lia]. unfold positions.
  replace (p + 1 - lo) with ((p - lo) + 1) by lia. rewrite seqZ_app by lia.
  rewrite list.filter_app, filter_false by (intros j Hj%elem_of_seqZ; rewrite Hb by lia; done).
  rewrite seqZ_cons by lia. replace (lo + (p - lo)) with p by lia. simpl.
  by rewrite filter_cons_True.
Qed.

Lemma positions_app f lo mid hi :
  lo <= mid <= hi -> positions f lo hi = positions f lo mid ++ positions f mid hi.
Proof.
  intros Hm. unfold positions. replace (hi - lo) with ((mid - lo) + (hi - mid)) by lia.
  rewrite seqZ_app by lia. rewrite list.filter_app. by replace (lo + (mid - lo)) with mid by lia.
Qed.

Lemma positions_none f lo hi : (forall i, lo <= i < hi -> f i = false) -> positions f lo hi = [].
Proof. intros Hn. apply filter_false. intros j Hj%elem_of_seqZ. rewrite Hn by lia. done. Qed.

Lemma foreach_visits neg bm pos nbits :
  holds_bits bm nbits -> 0 <= pos <= nbits ->
  XDP2_MAKE_FOREACH w conv nw neg (fun _ => bm) (fun l p => Done (l ++ [p])) [] pos nbits =
  Done (positions (seen neg bm) pos nbits, nbits).
Proof using CV Hw.
  intros Hb Hp.
  destruct (foreach_rule neg (fun _ => bm) (fun l p => Done (l ++ [p]))
    (fun l lo => pos <= lo /\ l = positions (seen neg bm) pos lo) nbits [] pos) as
    (l & lo & -> & [Hlo ->] & Hl & Hn); [done | | | done |].
  - intros l lo p [Hlo ->] Hlp Hlt Hf. eexists; split; [done |]. split; [lia |].
    rewrite (positions_app _ pos lo (p + 1)) by lia.
    rewrite (positions_step _ lo nbits p) by (done || lia). done.
  - split; [lia |]. by rewrite positions_none by lia.
  - f_equal. f_equal. rewrite (positions_app _ pos lo nbits) by lia.
    by rewrite (positions_none _ lo nbits Hn), app_nil_r.
Qed.

(** ** Tests *)

Lemma part1_test t neg bm k M a b adder ret :
  ok bm -> 0 <= k < bm_words bm -> stored_mask (w := w) (conv := conv) M a b -> 0 <= a -> a <= b <= w ->
  part1 w conv (Query (QTest t)) neg bm (word_index nw k) M adder ret =
  Done (bm, test_ref t (seen neg bm) (k * w + a) (k * w + b) ret, false).
Proof using CV Hw.
  intros Hok Hk HM Ha Hb. unfold part1. destruct (bm_ld_word bm k Hok Hk) as [-> Hv]. orun.
  rewrite (handle_test_group Hw t ret _ M k a b (seen neg bm)); [done | | done].
  by apply masked_group.
Qed.

Lemma whole_query_test t neg bm k0 adder cnt : forall i ret,
  ok bm -> is_u32 ret -> 0 <= k0 -> 0 <= i -> k0 + i + Z.of_nat cnt <= bm_words bm ->
  whole_query w conv nw cnt (QTest t) neg bm (word_index nw k0) i adder ret =
  Done (test_ref t (seen neg bm) ((k0 + i) * w) ((k0 + i + Z.of_nat cnt) * w) ret, false).
Proof using CV Hw.
  pose proof (w_range Hw). induction cnt as [| cnt IH]; intros i ret Hok Hr Hk Hi Hb; cbn [whole_query].
  { replace (k0 + i + Z.of_nat 0) with (k0 + i) by lia. by rewrite test_ref_nil. }
  rewrite word_index_step. destruct (bm_ld_word bm (k0 + i) Hok ltac:(lia)) as [-> Hv]. orun.
  rewrite (handle_test_group Hw t ret _ _ _ _ _ _ (whole_group neg bm (k0 + i) Hok ltac:(lia)) (ones_mask Hw)).
  rewrite IH by (done || lia || by apply test_ref_u32). f_equal. f_equal.
  rewrite Z.add_0_r. replace ((k0 + i) * w + w) with ((k0 + (i + 1)) * w) by lia.
  replace (k0 + i + Z.of_nat (S cnt)) with (k0 + (i + 1) + Z.of_nat cnt) by lia.
  apply test_ref_split. nia.
Qed.

Lemma words_test t neg bm k0 pos need n nbits ret :
  ok bm -> is_u32 ret -> 0 <= k0 -> 0 <= n -> k0 * w + n = nbits -> nbits <= w * bm_words bm ->
  bitmap_1arg_words w conv nw (Query (QTest t)) neg bm (word_index nw k0) pos nbits n need ret =
  Done (bm, test_ref t (seen neg bm) (k0 * w) nbits ret).
Proof using CV Hw.
  intros Hok Hr Hk Hn E Hb. pose proof (w_range Hw).
  destruct (split_words k0 n nbits Hk Hn E) as (Hc & Hm & Es). unfold bitmap_1arg_words.
  rewrite whole_query_test by (done || nia). rewrite Z.add_0_r, Z2Nat.id by done. orun.
  destruct (Z.eqb_spec (n mod w) 0) as [Ez | Enz].
  - rewrite Es, Ez, Z.add_0_r. done.
  - destruct (LOW_MASK_ok Hw (n mod w)) as (m & -> & Hmask); [lia |]. orun. rewrite word_index_step.
    rewrite (part1_test t neg bm (k0 + n / w) (conv (trunc w m)) 0 (n mod w)) by
      (done || nia || lia || by apply conv_mask).
    rewrite Z.add_0_r, <- Es. f_equal. f_equal. apply test_ref_split. nia.
Qed.

Lemma XDP2_BITMAP_1ARG_test t neg bm pos nbits ret :
  holds_bits bm nbits -> 0 <= pos <= nbits -> is_u32 ret ->
  XDP2_BITMAP_1ARG w conv nw (Query (QTest t)) neg bm pos nbits ret =
  Done (bm, test_ref t (seen neg bm) pos nbits ret).
Proof using CV Hw.
  intros (Hok & Hb & Hlim & Hn32) Hp Hr. pose proof (w_range Hw). unfold XDP2_BITMAP_1ARG.
  assert (u32 (nbits - pos) = nbits - pos) as -> by (apply Z.mod_small; lia).
  destruct (Z.eqb_spec (pos mod w) 0) as [Ez | Enz].
  - pose proof (Z.div_mod pos w ltac:(lia)) as D. rewrite Ez in D.
    pose proof (Z.div_pos pos w ltac:(lia) ltac:(lia)).
    rewrite words_test by (done || lia). by replace (pos / w * w) with pos by lia.
  - rewrite need_min by done.
    destruct (split_head pos nbits Hp Enz) as (Hm & Hk & Ep & Hn & Hmn & Epn & Hnext).
    set (m := pos mod w) in *. set (k := pos / w) in *. set (need := Z.min (w - m) (nbits - pos)) in *.
    destruct (MASK_ok Hw m need) as (M & -> & HM); [lia | lia | lia |]. orun.
    rewrite (part1_test t neg bm k (conv (trunc w M)) m (m + need)) by
      (done || nia || lia || by apply conv_mask).
    rewrite <- Ep, <- Epn. destruct (Z.eqb_spec (nbits - pos - need) 0) as [E0 | En0].
    + by replace (pos + need) with nbits by lia.
    + specialize (Hnext En0). replace (word_index nw k + dir nw) with (word_index nw (k + 1)) by
        (rewrite <- word_index_step; lia).
      rewrite words_test by (done || lia || by apply test_ref_u32). rewrite <- Hnext.
      f_equal. f_equal. apply test_ref_split. lia.
Qed.

(** ** Fills *)

Lemma part1_fill b bm k M lo hi adder ret :
  ok bm -> 0 <= k < bm_words bm -> stored_mask (w := w) (conv := conv) M lo hi -> 0 <= lo -> lo <= hi <= w ->
  exists bm', part1 w conv (Fill b) false bm (word_index nw k) M adder ret = Done (bm', ret, false) /\
    upd bm bm' (k * w + lo) (k * w + hi) (fun _ => b).
Proof using CV Hw.
  intros Hok Hk [HM Hm] Hlo Hhi. pose proof (w_range Hw). unfold part1.
  destruct (bm_ld_word bm k Hok Hk) as [-> Hv]. orun.
  assert (is_word w (trunc w (Z.lnot M))) as Hnm by (apply trunc_word; lia).
  destruct b.
  - destruct (st_upd (nw := nw) Hw bm k (Z.lor (word bm k) M) lo hi (fun _ => true)) as (bm' & -> & U);
      [done | done | apply is_word_lor; (done || lia) | lia | lia | |].
    + intros j Hj. rewrite conv_lor, Hm, bit_group by done. repeat zcase; simpl; (done || lia || apply orb_true_r || apply orb_false_r).
    + orun. by exists bm'.
  - destruct (st_upd (nw := nw) Hw bm k (Z.land (word bm k) (trunc w (Z.lnot M))) lo hi (fun _ => false)) as (bm' & -> & U);
      [done | done | apply is_word_land; [lia | done | unfold is_word in Hnm; lia] | lia | lia | |].
    + intros j Hj. rewrite conv_land, conv_not, Hm, bit_group by done.
      repeat zcase; simpl; (done || lia || apply andb_true_r || apply andb_false_r).
    + orun. by exists bm'.
Qed.

(** A whole word of ones or zeroes. *)
Lemma st_fill b bm k :
  ok bm -> 0 <= k < bm_words bm ->
  exists bm', bm_st bm (word_index nw k) (if b : bool then XDP2_BITMAP_1S w else 0) = Done bm' /\
    upd bm bm' (k * w) ((k + 1) * w) (fun _ => b).
Proof using CV Hw.
  intros Hok Hk. pose proof (w_range Hw). pose proof (w_pow Hw). destruct (ones_mask (conv := conv) Hw) as [H1 Hm].
  assert (is_word w 0) as Hz by (unfold is_word; lia).
  destruct (st_upd (nw := nw) Hw bm k (if b : bool then XDP2_BITMAP_1S w else 0) 0 w (fun _ => b)) as (bm' & E & U);
    [done | done | by destruct b | lia | lia | |].
  - intros j Hj. pose proof (conv_perm_range j Hj). destruct b.
    + rewrite Hm by done. repeat zcase; simpl; (done || lia).
    + rewrite conv_testbit, Z.bits_0 by done. repeat zcase; simpl; (done || lia).
  - exists bm'. split; [done |]. replace ((k + 1) * w) with (k * w + w) by lia.
    by rewrite <- (Z.add_0_r (k * w)) at 1.
Qed.

(** The words of [cnt] groups lie in one block, in either word order. *)
Lemma memset_groups b cnt : forall bm k0,
  ok bm -> 0 <= k0 -> k0 + Z.of_nat cnt <= bm_words bm ->
  exists bm', memset_words cnt bm (word_index nw k0 - (if nw =? 0 then 0 else 1) * (Z.of_nat cnt - 1))
                           (if b : bool then XDP2_BITMAP_1S w else 0) = Done bm' /\
    upd bm bm' (k0 * w) ((k0 + Z.of_nat cnt) * w) (fun _ => b).
Proof using CV Hw.
  pose proof (w_range Hw). induction cnt as [| cnt IH]; intros bm k0 Hok Hk Hb; cbn [memset_words].
  { exists bm. split; [done |]. rewrite Z.add_0_r. by apply upd_refl. }
  destruct (Z.eqb_spec nw 0) as [Enw | Enw].
  - (* forward: the first group is the first word *)
    rewrite Z.mul_0_l, Z.sub_0_r.
    destruct (st_fill b bm k0 Hok ltac:(lia)) as (bm1 & -> & U1). orun.
    destruct (IH bm1 (k0 + 1)) as (bm' & E & U2);
      [by eapply upd_ok | lia | rewrite (upd_words _ _ _ _ _ U1); lia |].
    rewrite Z.mul_0_l, Z.sub_0_r in E.
    replace (word_index nw k0 + 1) with (word_index nw (k0 + 1)) by (unfold word_index; rewrite Enw; simpl; lia).
    exists bm'. split; [done |]. eapply upd_trans; [| exact U1 |]; [nia |].
    by replace (k0 + Z.of_nat (S cnt)) with (k0 + 1 + Z.of_nat cnt) by lia.
  - (* reverse: the last group is the first word *)
    replace (word_index nw k0 - 1 * (Z.of_nat (S cnt) - 1)) with (word_index nw (k0 + Z.of_nat cnt)) by
      (unfold word_index; destruct (Z.eqb_spec nw 0); lia).
    destruct (st_fill b bm (k0 + Z.of_nat cnt) Hok ltac:(lia)) as (bm1 & -> & U1). orun.
    destruct (IH bm1 k0) as (bm' & E & U2); [by eapply upd_ok | lia | rewrite (upd_words _ _ _ _ _ U1); lia |].
    replace (word_index nw k0 - 1 * (Z.of_nat cnt - 1)) with (word_index nw (k0 + Z.of_nat cnt) + 1) in E by
      (unfold word_index; destruct (Z.eqb_spec nw 0); lia).
    exists bm'. split; [done |]. eapply upd_trans_down; [| | exact U2]; [nia |].
    by replace (k0 + Z.of_nat (S cnt)) with (k0 + Z.of_nat cnt + 1) by lia.
Qed.

Lemma words_fill b bm k0 pos need n nbits ret :
  ok bm -> 0 <= k0 -> 0 <= n -> k0 * w + n = nbits -> nbits <= w * bm_words bm ->
  exists bm', bitmap_1arg_words w conv nw (Fill b) false bm (word_index nw k0) pos nbits n need ret =
                Done (bm', ret) /\ upd bm bm' (k0 * w) nbits (fun _ => b).
Proof using CV Hw.
  intros Hok Hk Hn E Hb. pose proof (w_range Hw).
  destruct (split_words k0 n nbits Hk Hn E) as (Hc & Hm & Es). unfold bitmap_1arg_words.
  destruct (memset_groups b (Z.to_nat (n / w)) bm k0 Hok Hk ltac:(nia)) as (bm1 & E1 & U1).
  rewrite Z2Nat.id in * by done. rewrite E1. orun.
  destruct (Z.eqb_spec (n mod w) 0) as [Ez | Enz].
  - exists bm1. split; [done |]. by rewrite Es, Ez, Z.add_0_r.
  - destruct (LOW_MASK_ok Hw (n mod w)) as (m & -> & Hmask); [lia |]. orun. rewrite word_index_step.
    destruct (part1_fill b bm1 (k0 + n / w) (conv (trunc w m)) 0 (n mod w) (nbits - n mod w) ret)
      as (bm2 & -> & U2); [by eapply upd_ok | rewrite (upd_words _ _ _ _ _ U1); nia | by apply conv_mask | lia | lia |].
    rewrite Z.add_0_r, <- Es in U2. exists bm2. split; [done |]. eapply upd_trans; [| done | done]. nia.
Qed.

Lemma XDP2_BITMAP_1ARG_fill b bm pos nbits ret :
  holds_bits bm nbits -> 0 <= pos <= nbits ->
  exists bm', XDP2_BITMAP_1ARG w conv nw (Fill b) false bm pos nbits ret = Done (bm', ret) /\
    upd bm bm' pos nbits (fun _ => b).
Proof using CV Hw.
  intros (Hok & Hb & Hlim & Hn32) Hp. pose proof (w_range Hw). unfold XDP2_BITMAP_1ARG.
  assert (u32 (nbits - pos) = nbits - pos) as -> by (apply Z.mod_small; lia).
  destruct (Z.eqb_spec (pos mod w) 0) as [Ez | Enz].
  - pose proof (Z.div_mod pos w ltac:(lia)) as D. rewrite Ez in D.
    pose proof (Z.div_pos pos w ltac:(lia) ltac:(lia)).
    destruct (words_fill b bm (pos / w) pos 0 (nbits - pos) nbits ret) as (bm' & -> & U); [done | lia .. |].
    exists bm'. split; [done |]. by replace (pos / w * w) with pos in U by lia.
  - rewrite need_min by done.
    destruct (split_head pos nbits Hp Enz) as (Hm & Hk & Ep & Hn & Hmn & Epn & Hnext).
    set (m := pos mod w) in *. set (k := pos / w) in *. set (need := Z.min (w - m) (nbits - pos)) in *.
    destruct (MASK_ok Hw m need) as (M & -> & HM); [lia | lia | lia |]. orun.
    destruct (part1_fill b bm k (conv (trunc w M)) m (m + need) (pos - m) ret) as (bm1 & -> & U1);
      [done | nia | by apply conv_mask | lia | lia |].
    rewrite <- Ep, <- Epn in U1. destruct (Z.eqb_spec (nbits - pos - need) 0) as [E0 | En0].
    + exists bm1. split; [done |]. by replace nbits with (pos + need) by lia.
    + specialize (Hnext En0). replace (word_index nw k + dir nw) with (word_index nw (k + 1)) by
        (rewrite <- word_index_step; lia).
      destruct (words_fill b bm1 (k + 1) pos need (nbits - pos - need) nbits ret) as (bm2 & -> & U2);
        [by eapply upd_ok | lia | lia | lia | rewrite (upd_words _ _ _ _ _ U1); lia |].
      exists bm2. split; [done |]. rewrite <- Hnext in U2. eapply upd_trans; [| done | done]. lia.
Qed.
End One.
