(* ===== verification/BitmapTwo.v ===== *)
(** * Bitmaps: the two and three argument operations

    What [XDP2_BITMAP_2ARG] and [XDP2_BITMAP_3ARG] compute: every bit of the
    range is the boolean function of the operation on the bits of the sources,
    the other bits of the destination are kept, and the test or the first
    position is that of the result. *)

From stdpp Require Import base list numbers.
From S2P Require Import Prelude BitmapWord BitmapWordSpec Bitmap BitmapSpec BitmapOps.

(** ** The function of an operation on bits *)

Definition binop_bit (o : binop) : bool -> bool -> bool :=
  match o with BAnd => andb | BOr => orb | BXor => xorb end.

Definition value2_bit (f : bm_fun) (a b : bool) : bool :=
  xorb (f_not f) (binop_bit (f_op f) (xorb (f_s1 f) a) (xorb (f_s2 f) b)).

Definition value_bit (f : bm_fun) (a b : bool) : bool :=
  if f_destsrc f then value2_bit f a b else xorb (f_s1 f) a.

Lemma testbit_opt_not neg v i : 0 <= i -> Z.testbit (opt_not neg Z.lnot v) i = xorb neg (Z.testbit v i).
Proof. intros Hi. destruct neg; simpl; [by rewrite Z.lnot_spec |]. by destruct (Z.testbit v i). Qed.

Lemma testbit_binop o a b i : Z.testbit (binop_val o a b) i = binop_bit o (Z.testbit a i) (Z.testbit b i).
Proof. destruct o; simpl; [apply Z.land_spec | apply Z.lor_spec | apply Z.lxor_spec]. Qed.

Lemma testbit_value2 f a b i :
  0 <= i -> Z.testbit (XDP2_BITMAP_VALUE2 f a b) i = value2_bit f (Z.testbit a i) (Z.testbit b i).
Proof.
  intros Hi. unfold XDP2_BITMAP_VALUE2, value2_bit. by rewrite testbit_opt_not, testbit_binop, !testbit_opt_not.
Qed.

Lemma testbit_value f a b i :
  0 <= i -> Z.testbit (XDP2_BITMAP_VALUE f a b) i = value_bit f (Z.testbit a i) (Z.testbit b i).
Proof.
  intros Hi. unfold XDP2_BITMAP_VALUE, value_bit. destruct (f_destsrc f);
    [by apply testbit_value2 | by apply testbit_opt_not].
Qed.

Section Two.
Context {w : Z} {conv : Z -> Z} {CV : WordConv w conv} {nw : Z} (Hw : word_bits w).
Abbreviation word := (bm_word nw).
Abbreviation bit := (bm_bit w conv nw).
Abbreviation ok := (bm_ok w nw).
Abbreviation upd := (bm_upd w conv nw).

(** The bits of a stored result. *)
Lemma conv_trunc x j : 0 <= j < w -> Z.testbit (conv (trunc w x)) j = Z.testbit x (conv_perm j).
Proof using CV Hw.
  intros Hj. pose proof (w_range Hw). pose proof (conv_perm_range j Hj).
  rewrite conv_testbit, testbit_trunc by (done || lia || (apply trunc_word; lia)).
  by destruct (Z.ltb_spec (conv_perm j) w); [| lia].
Qed.

Lemma conv_value f a b j :
  is_word w a -> is_word w b -> 0 <= j < w ->
  Z.testbit (conv (trunc w (XDP2_BITMAP_VALUE f a b))) j = value_bit f (Z.testbit (conv a) j) (Z.testbit (conv b) j).
Proof using CV Hw.
  intros Ha Hb Hj. pose proof (conv_perm_range j Hj).
  rewrite conv_trunc, testbit_value, !conv_testbit by (done || lia). done.
Qed.

Lemma conv_value2 f a b j :
  is_word w a -> is_word w b -> 0 <= j < w ->
  Z.testbit (conv (trunc w (XDP2_BITMAP_VALUE2 f a b))) j = value2_bit f (Z.testbit (conv a) j) (Z.testbit (conv b) j).
Proof using CV Hw.
  intros Ha Hb Hj. pose proof (conv_perm_range j Hj).
  rewrite conv_trunc, testbit_value2, !conv_testbit by (done || lia). done.
Qed.

(** ** Writing a result under a mask *)

(** [res] holds the wanted bits of the range; the others are kept. *)
Lemma st_masked bm k x M a b f :
  ok bm -> 0 <= k < bm_words bm -> stored_mask (w := w) (conv := conv) M a b -> 0 <= a -> a <= b <= w ->
  is_word w x -> (forall j, 0 <= j < w -> a <= j < b -> Z.testbit (conv x) j = f (k * w + j)) ->
  in_group (w := w) (conv := conv) (Z.land x M) k a b f /\
  exists bm', bm_st bm (word_index nw k)
      (Z.lor (Z.land x M) (Z.land (word bm k) (trunc w (Z.lnot M)))) = Done bm' /\
    upd bm bm' (k * w + a) (k * w + b) f.
Proof using CV Hw.
  intros Hok Hk [HM Hm] Ha Hb Hx Hf. pose proof (w_range Hw). destruct (bm_ld_word bm k Hok Hk) as [_ Hv].
  assert (is_word w (trunc w (Z.lnot M))) as Hnm by (apply trunc_word; lia).
  assert (is_word w (Z.land x M)) as Hxm by (apply is_word_land; [lia | done | unfold is_word in HM; lia]).
  assert (is_word w (Z.land (word bm k) (trunc w (Z.lnot M)))) as Hvm
    by (apply is_word_land; [lia | done | unfold is_word in Hnm; lia]).
  assert (forall j, 0 <= j < w -> Z.testbit (conv (Z.land x M)) j = (a <=? j) && (j <? b) && f (k * w + j)) as E.
  { intros j Hj. rewrite conv_land, Hm by done. destruct (Z.leb_spec a j), (Z.ltb_spec j b); simpl;
      rewrite ?andb_false_r; try done. rewrite andb_true_r. apply Hf; lia. }
  split; [split_and!; (done || lia) |].
  apply st_upd; [done | done | done | apply is_word_lor; (done || lia) | lia | lia |].
  intros j Hj. rewrite conv_lor, E, conv_land, conv_not, Hm, bit_group by done.
  destruct (Z.leb_spec a j), (Z.ltb_spec j b); simpl; rewrite ?andb_false_r, ?andb_true_r, ?orb_false_r; done.
Qed.

Lemma st_whole bm k x f :
  ok bm -> 0 <= k < bm_words bm -> is_word w x ->
  (forall j, 0 <= j < w -> Z.testbit (conv x) j = f (k * w + j)) ->
  in_group (w := w) (conv := conv) x k 0 w f /\
  exists bm', bm_st bm (word_index nw k) x = Done bm' /\ upd bm bm' (k * w) ((k + 1) * w) f.
Proof using CV Hw.
  intros Hok Hk Hx Hf. pose proof (w_range Hw). split.
  - split_and!; try (done || lia). intros j Hj. rewrite Hf by done. repeat zcase; simpl; (done || lia).
  - destruct (st_upd (nw := nw) Hw bm k x 0 w f) as (bm' & E & U); [done | done | done | lia | lia | |].
    + intros j Hj. rewrite Hf by done. repeat zcase; simpl; (done || lia).
    + exists bm'. split; [done |]. rewrite Z.add_0_r in U. by replace ((k + 1) * w) with (k * w + w) by lia.
Qed.

(** ** The source of a two argument operation *)

(** The words the source gives for the groups: those of a bitmap, or one word. *)
Definition src_ok (wsrc : bool) (src : list Z) (nbits : Z) : Prop :=
  if wsrc then exists v, src = [v] /\ is_word w v else ok src /\ nbits <= w * bm_words src.

Definition src_word (wsrc : bool) (src : list Z) (k : Z) : Z :=
  if wsrc then default 0 (src !! 0%nat) else word src k.

Definition src_index (wsrc : bool) (k : Z) : Z := if wsrc then 0 else word_index nw k.
Definition src_dir (wsrc : bool) : Z := if wsrc then 0 else dir nw.

(** Bit [i] of the source. *)
Definition src_bit (wsrc : bool) (src : list Z) (i : Z) : bool :=
  Z.testbit (conv (src_word wsrc src (i / w))) (i mod w).

Lemma src_index_step wsrc k i : src_index wsrc k + src_dir wsrc * i = src_index wsrc (k + i).
Proof. destruct wsrc; simpl; [lia |]. apply word_index_step. Qed.

Lemma src_ld wsrc src nbits k :
  src_ok wsrc src nbits -> 0 <= k -> k * w < nbits ->
  bm_ld src (src_index wsrc k) = Done (src_word wsrc src k) /\ is_word w (src_word wsrc src k).
Proof using Hw.
  pose proof (w_range Hw). destruct wsrc; simpl.
  - intros (v & -> & Hv) Hk Hn. by split.
  - intros [Hok Hn] Hk Hkn. apply bm_ld_word; [done |]. nia.
Qed.

Lemma src_bit_group wsrc src k j :
  0 <= j < w -> src_bit wsrc src (k * w + j) = Z.testbit (conv (src_word wsrc src k)) j.
Proof using Hw.
  intros Hj. pose proof (w_range Hw). unfold src_bit.
  rewrite Z.add_comm, Z.div_add, Z.mod_add, Z.div_small, Z.mod_small by lia. done.
Qed.

(** ** Two arguments: writing *)

Lemma part2_write f t wsrc d src nbits k M a b adder ret g :
  ok d -> 0 <= k < bm_words d -> src_ok wsrc src nbits -> k * w < nbits ->
  stored_mask (w := w) (conv := conv) M a b -> 0 <= a -> a <= b <= w ->
  (forall i, k * w + a <= i < k * w + b -> g i = value_bit f (src_bit wsrc src i) (bit d i)) ->
  exists d', part2 w conv f (MWrite t) d src (word_index nw k) (src_index wsrc k) M adder ret =
      Done (d', test_ref t g (k * w + a) (k * w + b) ret, false) /\
    upd d d' (k * w + a) (k * w + b) g.
Proof using CV Hw.
  intros Hok Hk Hsrc Hkn HM Ha Hb Hg. pose proof (w_range Hw). unfold part2.
  destruct (src_ld wsrc src nbits k Hsrc ltac:(lia) Hkn) as [-> Hs].
  destruct (bm_ld_word d k Hok Hk) as [-> Hd]. orun.
  destruct (st_masked d k (trunc w (XDP2_BITMAP_VALUE f (src_word wsrc src k) (word d k))) M a b g)
    as (Hgr & d' & -> & U); [done | done | done | lia | lia | apply trunc_word; lia | |].
  - intros j Hj Hab. rewrite conv_value by done. rewrite Hg by lia.
    by rewrite src_bit_group, bit_group by done.
  - orun. exists d'. split; [| done]. by rewrite (handle_test_group Hw t ret _ M k a b g).
Qed.

Lemma whole2_write f t wsrc src nbits k0 adder g cnt : forall d i ret,
  ok d -> src_ok wsrc src nbits -> is_u32 ret -> 0 <= k0 -> 0 <= i ->
  (k0 + i + Z.of_nat cnt) * w <= nbits -> nbits <= w * bm_words d ->
  (forall q, (k0 + i) * w <= q < (k0 + i + Z.of_nat cnt) * w -> g q = value_bit f (src_bit wsrc src q) (bit d q)) ->
  exists d', whole2 w conv nw cnt f (MWrite t) (src_dir wsrc) d src (word_index nw k0) (src_index wsrc k0) i adder ret =
      Done (d', test_ref t g ((k0 + i) * w) ((k0 + i + Z.of_nat cnt) * w) ret, false) /\
    upd d d' ((k0 + i) * w) ((k0 + i + Z.of_nat cnt) * w) g.
Proof using CV Hw.
  pose proof (w_range Hw). induction cnt as [| cnt IH]; intros d i ret Hok Hsrc Hr Hk Hi Hn Hb Hg; cbn [whole2].
  { replace (k0 + i + Z.of_nat 0) with (k0 + i) by lia. exists d. rewrite test_ref_nil by done.
    split; [done | by apply upd_refl]. }
  rewrite word_index_step, src_index_step.
  destruct (src_ld wsrc src nbits (k0 + i) Hsrc ltac:(lia) ltac:(nia)) as [-> Hs].
  assert (0 <= k0 + i < bm_words d) as Hkd by nia.
  destruct (bm_ld_word d (k0 + i) Hok Hkd) as [-> Hd]. orun.
  destruct (st_whole d (k0 + i) (trunc w (XDP2_BITMAP_VALUE f (src_word wsrc src (k0 + i)) (word d (k0 + i)))) g)
    as (Hgr & d1 & -> & U1); [done | done | apply trunc_word; lia | |].
  { intros j Hj. rewrite conv_value by done. rewrite Hg by nia. by rewrite src_bit_group, bit_group by done. }
  orun. rewrite (handle_test_group Hw t ret _ _ _ _ _ _ Hgr (ones_mask Hw)). rewrite Z.add_0_r.
  replace ((k0 + i) * w + w) with ((k0 + (i + 1)) * w) by lia.
  replace ((k0 + i + 1) * w) with ((k0 + (i + 1)) * w) in U1 by lia.
  replace (k0 + i + Z.of_nat (S cnt)) with (k0 + (i + 1) + Z.of_nat cnt) in * by lia.
  destruct (IH d1 (i + 1) (test_ref t g ((k0 + i) * w) ((k0 + (i + 1)) * w) ret)) as (d2 & E & U2);
    [by eapply upd_ok | done | by apply test_ref_u32 | lia | lia | lia | rewrite (upd_words _ _ _ _ _ U1); done | |].
  { intros q Hq. rewrite Hg by nia. f_equal. symmetry. eapply upd_above; [exact U1 | lia | nia]. }
  rewrite E. exists d2. rewrite test_ref_split by nia. split; [done |].
  eapply upd_trans; [| exact U1 | exact U2]. nia.
Qed.

Lemma words2_write f t wsrc d src k0 pos need n nbits ret g :
  ok d -> src_ok wsrc src nbits -> is_u32 ret -> 0 <= k0 -> 0 <= n -> k0 * w + n = nbits ->
  nbits <= w * bm_words d ->
  (forall q, k0 * w <= q < nbits -> g q = value_bit f (src_bit wsrc src q) (bit d q)) ->
  exists d', bitmap_2arg_words w conv nw f (MWrite t) (src_dir wsrc) d src (word_index nw k0) (src_index wsrc k0)
               pos nbits n need ret = Done (d', test_ref t g (k0 * w) nbits ret) /\
    upd d d' (k0 * w) nbits g.
Proof using CV Hw.
  intros Hok Hsrc Hr Hk Hn E Hb Hg. pose proof (w_range Hw).
  destruct (split_words Hw k0 n nbits Hk Hn E) as (Hc & Hm & Es). unfold bitmap_2arg_words.
  destruct (whole2_write f t wsrc src nbits k0 (pos + need) g (Z.to_nat (n / w)) d 0 ret) as (d1 & E1 & U1);
    [done | done | done | lia | lia | nia | done | intros q Hq; apply Hg; nia |].
  rewrite Z.add_0_r, Z2Nat.id in * by done. rewrite E1. orun.
  destruct (Z.eqb_spec (n mod w) 0) as [Ez | Enz].
  - exists d1. assert (nbits = (k0 + n / w) * w) as -> by lia. done.
  - destruct (LOW_MASK_ok Hw (n mod w)) as (m & -> & Hmask); [lia |]. orun.
    rewrite word_index_step, src_index_step.
    destruct (part2_write f t wsrc d1 src nbits (k0 + n / w) (conv (trunc w m)) 0 (n mod w) (nbits - n mod w)
      (test_ref t g (k0 * w) ((k0 + n / w) * w) ret) g) as (d2 & -> & U2);
      [by eapply upd_ok | rewrite (upd_words _ _ _ _ _ U1); nia | done | lia | by apply conv_mask | lia | lia | |].
    { intros q Hq. rewrite Hg by nia. f_equal. symmetry. eapply upd_above; [exact U1 | lia | nia]. }
    rewrite Z.add_0_r, <- Es in *. exists d2. rewrite test_ref_split by nia. split; [done |].
    eapply upd_trans; [| exact U1 | exact U2]. nia.
Qed.

Lemma XDP2_BITMAP_2ARG_write f t wsrc d src pos nbits ret :
  holds_bits (w := w) (nw := nw) d nbits -> src_ok wsrc src nbits -> 0 <= pos <= nbits -> is_u32 ret ->
  let g := fun i => value_bit f (src_bit wsrc src i) (bit d i) in
  exists d', XDP2_BITMAP_2ARG w conv nw f (MWrite t) wsrc d src pos nbits ret =
      Done (d', test_ref t g pos nbits ret) /\ upd d d' pos nbits g.
Proof using CV Hw.
  intros (Hok & Hb & Hlim & Hn32) Hsrc Hp Hr g. pose proof (w_range Hw). unfold XDP2_BITMAP_2ARG.
  fold (src_dir wsrc). fold (src_index wsrc (pos / w)).
  assert (u32 (nbits - pos) = nbits - pos) as -> by (apply Z.mod_small; lia).
  destruct (Z.eqb_spec (pos mod w) 0) as [Ez | Enz].
  - pose proof (Z.div_mod pos w ltac:(lia)) as D. rewrite Ez in D.
    pose proof (Z.div_pos pos w ltac:(lia) ltac:(lia)).
    destruct (words2_write f t wsrc d src (pos / w) pos 0 (nbits - pos) nbits ret g) as (d' & -> & U);
      [done | done | done | lia | lia | lia | lia | done |].
    exists d'. by replace (pos / w * w) with pos in * by lia.
  - destruct (split_head Hw pos nbits Hp Enz) as (Hm & Hk & Ep & Hn & Hmn & Epn & Hnext).
    set (m := pos mod w) in *. set (k := pos / w) in *. set (need := Z.min (w - m) (nbits - pos)) in *.
    destruct (MASK_ok Hw m need) as (M & -> & HM); [lia | lia | lia |]. orun.
    destruct (part2_write f t wsrc d src nbits k (conv (trunc w M)) m (m + need) (pos - m) ret g) as (d1 & -> & U1);
      [done | nia | done | lia | by apply conv_mask | lia | lia | done |].
    rewrite <- Ep, <- Epn in *. destruct (Z.eqb_spec (nbits - pos - need) 0) as [E0 | En0].
    + exists d1. by replace nbits with (pos + need) by lia.
    + specialize (Hnext En0). replace (word_index nw k + dir nw) with (word_index nw (k + 1)) by
        (rewrite <- word_index_step; lia).
      replace (src_index wsrc k + src_dir wsrc) with (src_index wsrc (k + 1)) by
        (rewrite <- src_index_step; lia).
      destruct (words2_write f t wsrc d1 src (k + 1) pos need (nbits - pos - need) nbits
        (test_ref t g pos (pos + need) ret) g) as (d2 & -> & U2);
        [by eapply upd_ok | done | by apply test_ref_u32 | lia | lia | lia | rewrite (upd_words _ _ _ _ _ U1); lia | |].
      { intros q Hq. unfold g. f_equal. symmetry. eapply upd_above; [exact U1 | lia | nia]. }
      rewrite <- Hnext in *. exists d2. rewrite test_ref_split by lia. split; [done |].
      eapply upd_trans; [| exact U1 | exact U2]. lia.
Qed.

(** ** Two arguments: comparing *)

Section Compare.
Context (f : bm_fun) (wsrc : bool) (d src : list Z).
Context (nbits : Z) (Hd : holds_bits (w := w) (nw := nw) d nbits) (Hsrc : src_ok wsrc src nbits).

(** The bit that is searched for. *)
Definition cmp_bit (i : Z) : bool := value_bit f (src_bit wsrc src i) (bit d i).

Lemma part2_cmp k M a b adder ret :
  0 <= k < bm_words d -> k * w < nbits ->
  stored_mask (w := w) (conv := conv) M a b -> 0 <= a -> a <= b <= w -> adder = k * w ->
  exists r fnd, part2 w conv f MCompare d src (word_index nw k) (src_index wsrc k) M adder ret = Done (d, r, fnd) /\
    searched cmp_bit (k * w + a) (k * w + b) ret r fnd.
Proof using CV Hw Hd Hsrc.
  intros Hk Hkn HM Ha Hb ->. pose proof (w_range Hw). destruct Hd as (Hok & Hb' & Hlim & Hn32). unfold part2.
  destruct (src_ld wsrc src nbits k Hsrc ltac:(lia) Hkn) as [-> Hs].
  destruct (bm_ld_word d k Hok Hk) as [-> Hv]. orun.
  destruct (st_masked d k (trunc w (XDP2_BITMAP_VALUE f (src_word wsrc src k) (word d k))) M a b cmp_bit)
    as (Hgr & _); [done | done | done | lia | lia | apply trunc_word; lia | |].
  { intros j Hj Hab. rewrite conv_value by done. unfold cmp_bit. by rewrite src_bit_group, bit_group by done. }
  pose proof (do_compare_group Hw _ _ _ _ _ Hgr ltac:(lia) ltac:(nia)) as D.
  destruct (XDP2_BITMAP_DO_COMPARE _ _ _) as [r |]; [exists r, true | exists ret, false]; split; done.
Qed.

Lemma whole2_cmp k0 ret cnt : forall i,
  0 <= k0 -> 0 <= i -> (k0 + i + Z.of_nat cnt) * w <= nbits ->
  exists r fnd,
    whole2 w conv nw cnt f MCompare (src_dir wsrc) d src (word_index nw k0) (src_index wsrc k0) i (k0 * w) ret =
      Done (d, r, fnd) /\
    searched cmp_bit ((k0 + i) * w) ((k0 + i + Z.of_nat cnt) * w) ret r fnd.
Proof using CV Hw Hd Hsrc.
  pose proof (w_range Hw). destruct Hd as (Hok & Hb' & Hlim & Hn32).
  induction cnt as [| cnt IH]; intros i Hk Hi Hn; cbn [whole2].
  { exists ret, false. split; [done |]. split; [done | lia]. }
  rewrite word_index_step, src_index_step.
  destruct (src_ld wsrc src nbits (k0 + i) Hsrc ltac:(lia) ltac:(nia)) as [-> Hs].
  assert (0 <= k0 + i < bm_words d) as Hkd by nia.
  destruct (bm_ld_word d (k0 + i) Hok Hkd) as [-> Hv]. orun.
  destruct (st_whole d (k0 + i) (trunc w (XDP2_BITMAP_VALUE f (src_word wsrc src (k0 + i)) (word d (k0 + i)))) cmp_bit)
    as (Hgr & _); [done | done | apply trunc_word; lia | |].
  { intros j Hj. rewrite conv_value by done. unfold cmp_bit. by rewrite src_bit_group, bit_group by done. }
  replace (k0 * w + i * w) with ((k0 + i) * w) by lia.
  pose proof (do_compare_group Hw _ _ _ _ _ Hgr ltac:(lia) ltac:(nia)) as D.
  rewrite Z.add_0_r in D. destruct (XDP2_BITMAP_DO_COMPARE _ _ _) as [r |].
  - exists r, true. split; [done |]. destruct D as [Hr Hf]. split; [nia |].
    eapply is_first_widen; [| exact Hf | lia]. nia.
  - destruct (IH (i + 1) Hk ltac:(lia) ltac:(lia)) as (r & fnd & E & Sr). exists r, fnd. split; [done |].
    replace (k0 + (i + 1) + Z.of_nat cnt) with (k0 + i + Z.of_nat (S cnt)) in Sr by lia.
    eapply (searched_skip _ ((k0 + i) * w) ((k0 + (i + 1)) * w)); [nia | | exact Sr].
    intros j Hj. apply D. nia.
Qed.

Lemma words2_cmp k0 pos need n :
  0 <= k0 -> 0 <= n -> k0 * w + n = nbits -> pos + need = k0 * w ->
  exists r, bitmap_2arg_words w conv nw f MCompare (src_dir wsrc) d src (word_index nw k0) (src_index wsrc k0)
               pos nbits n need nbits = Done (d, r) /\ is_first cmp_bit (k0 * w) nbits r.
Proof using CV Hw Hd Hsrc.
  intros Hk Hn E Hpos. pose proof (w_range Hw). pose proof Hd as (Hok & Hb' & Hlim & Hn32).
  destruct (split_words Hw k0 n nbits Hk Hn E) as (Hc & Hm & Es). unfold bitmap_2arg_words. rewrite Hpos.
  destruct (whole2_cmp k0 nbits (Z.to_nat (n / w)) 0) as (r & fnd & -> & Sr); [lia | lia | nia |].
  rewrite Z.add_0_r, Z2Nat.id in Sr by done. orun. destruct fnd; simpl in *.
  - exists r. split; [done |]. destruct Sr as [Hr Hf]. eapply is_first_widen; [| exact Hf | lia]. nia.
  - destruct Sr as [-> Hn0]. destruct (Z.eqb_spec (n mod w) 0) as [Ez | Enz].
    + exists nbits. split; [done |]. right. split; [done |]. intros j Hj. apply Hn0. nia.
    + destruct (LOW_MASK_ok Hw (n mod w)) as (m & -> & Hmask); [lia |]. orun.
      rewrite word_index_step, src_index_step.
      destruct (part2_cmp (k0 + n / w) (conv (trunc w m)) 0 (n mod w) (nbits - n mod w) nbits)
        as (r & fnd & -> & Sr); [nia | lia | by apply conv_mask | lia | lia | lia |].
      exists r. split; [done |]. rewrite Z.add_0_r, <- Es in Sr.
      apply (searched_skip _ (k0 * w)) in Sr; [| nia | exact Hn0].
      by apply searched_first in Sr.
Qed.

Lemma XDP2_BITMAP_2ARG_cmp pos :
  0 <= pos <= nbits ->
  exists r, XDP2_BITMAP_2ARG w conv nw f MCompare wsrc d src pos nbits nbits = Done (d, r) /\
            is_first cmp_bit pos nbits r.
Proof using CV Hw Hd Hsrc.
  intros Hp. pose proof (w_range Hw). pose proof Hd as (Hok & Hb' & Hlim & Hn32). unfold XDP2_BITMAP_2ARG.
  fold (src_dir wsrc). fold (src_index wsrc (pos / w)).
  assert (u32 (nbits - pos) = nbits - pos) as -> by (apply Z.mod_small; lia).
  destruct (Z.eqb_spec (pos mod w) 0) as [Ez | Enz].
  - pose proof (Z.div_mod pos w ltac:(lia)) as D. rewrite Ez in D.
    pose proof (Z.div_pos pos w ltac:(lia) ltac:(lia)).
    destruct (words2_cmp (pos / w) pos 0 (nbits - pos)) as (r & -> & Hr); [lia .. |].
    exists r. by replace (pos / w * w) with pos in Hr by lia.
  - destruct (split_head Hw pos nbits Hp Enz) as (Hm & Hk & Ep & Hn & Hmn & Epn & Hnext).
    set (m := pos mod w) in *. set (k := pos / w) in *. set (need := Z.min (w - m) (nbits - pos)) in *.
    destruct (MASK_ok Hw m need) as (M & -> & HM); [lia | lia | lia |]. orun.
    destruct (part2_cmp k (conv (trunc w M)) m (m + need) (pos - m) nbits) as (r & fnd & -> & Sr);
      [nia | lia | by apply conv_mask | lia | lia | lia |].
    rewrite <- Ep, <- Epn in Sr. destruct fnd; simpl in Sr.
    + exists r. split; [done |]. destruct Sr as [Hr Hf]. eapply is_first_widen; [| exact Hf | lia]. lia.
    + destruct Sr as [-> Hn0]. destruct (Z.eqb_spec (nbits - pos - need) 0) as [E0 | En0].
      * exists nbits. split; [done |]. right. split; [done |]. intros j Hj. apply Hn0. lia.
      * specialize (Hnext En0). replace (word_index nw k + dir nw) with (word_index nw (k + 1)) by
          (rewrite <- word_index_step; lia).
        replace (src_index wsrc k + src_dir wsrc) with (src_index wsrc (k + 1)) by
          (rewrite <- src_index_step; lia).
        destruct (words2_cmp (k + 1) pos need (nbits - pos - need)) as (r & -> & Hr); [lia .. |].
        exists r. split; [done |]. rewrite <- Hnext in Hr. by eapply is_first_skip; [| exact Hn0 | exact Hr]; lia.
Qed.
End Compare.
End Two.

(** ** Bitmaps: three arguments, and the theorems on bitmaps

    [XDP2_BITMAP_3ARG] on the bits, and the statements about the functions a
    program calls. *)

Section Three.
Context {w : Z} {conv : Z -> Z} {CV : WordConv w conv} {nw : Z} (Hw : word_bits w).
Abbreviation word := (bm_word nw).
Abbreviation bit := (bm_bit w conv nw).
Abbreviation ok := (bm_ok w nw).
Abbreviation upd := (bm_upd w conv nw).

Context (f : bm_fun) (t : bm_test) (wsrc : bool) (src1 src2 : list Z) (nbits : Z).
Context (Hs1 : src_ok (w := w) (nw := nw) wsrc src1 nbits).
Context (Hs2 : src_ok (w := w) (nw := nw) false src2 nbits).

(** Bit [i] of the result. *)
Definition res_bit (i : Z) : bool :=
  value2_bit f (src_bit (w := w) (conv := conv) (nw := nw) wsrc src1 i) (bit src2 i).

Lemma value3_bit k j :
  0 <= k -> k * w < nbits -> 0 <= j < w ->
  Z.testbit (conv (trunc w (XDP2_BITMAP_VALUE2 f (src_word (nw := nw) wsrc src1 k) (word src2 k)))) j =
  res_bit (k * w + j).
Proof using CV Hw Hs1 Hs2.
  intros Hk Hkn Hj. destruct (src_ld Hw wsrc src1 nbits k Hs1 Hk Hkn) as [_ Ha].
  destruct (src_ld Hw false src2 nbits k Hs2 Hk Hkn) as [_ Hb]. simpl in Hb.
  rewrite conv_value2 by done. unfold res_bit. by rewrite src_bit_group, bit_group by done.
Qed.

Lemma part3_ok d k M a b ret :
  ok d -> 0 <= k < bm_words d -> k * w < nbits ->
  stored_mask (w := w) (conv := conv) M a b -> 0 <= a -> a <= b <= w ->
  exists d', part3 w f t d src1 src2 (word_index nw k) (src_index (nw := nw) wsrc k) (word_index nw k) M ret =
      Done (d', test_ref t res_bit (k * w + a) (k * w + b) ret) /\
    upd d d' (k * w + a) (k * w + b) res_bit.
Proof using CV Hw Hs1 Hs2.
  intros Hok Hk Hkn HM Ha Hb. pose proof (w_range Hw). unfold part3.
  destruct (src_ld Hw wsrc src1 nbits k Hs1 ltac:(lia) Hkn) as [-> Hv1].
  destruct (src_ld Hw false src2 nbits k Hs2 ltac:(lia) Hkn) as [E2 Hv2]. simpl in E2, Hv2. rewrite E2.
  destruct (bm_ld_word d k Hok Hk) as [-> Hd]. orun.
  destruct (st_masked (nw := nw) Hw d k (trunc w (XDP2_BITMAP_VALUE2 f (src_word (nw := nw) wsrc src1 k) (word src2 k))) M a b res_bit)
    as (Hgr & d' & -> & U); [done | done | done | lia | lia | apply trunc_word; lia | |].
  - intros j Hj Hab. apply value3_bit; (done || lia).
  - orun. exists d'. split; [| done]. by rewrite (handle_test_group Hw t ret _ M k a b res_bit).
Qed.

Lemma whole3_ok k0 cnt : forall d i ret,
  ok d -> is_u32 ret -> 0 <= k0 -> 0 <= i -> (k0 + i + Z.of_nat cnt) * w <= nbits -> nbits <= w * bm_words d ->
  exists d', whole3 w nw cnt f t (src_dir (nw := nw) wsrc) d src1 src2 (word_index nw k0)
               (src_index (nw := nw) wsrc k0) (word_index nw k0) i ret =
      Done (d', test_ref t res_bit ((k0 + i) * w) ((k0 + i + Z.of_nat cnt) * w) ret) /\
    upd d d' ((k0 + i) * w) ((k0 + i + Z.of_nat cnt) * w) res_bit.
Proof using CV Hw Hs1 Hs2.
  pose proof (w_range Hw). induction cnt as [| cnt IH]; intros d i ret Hok Hr Hk Hi Hn Hb; cbn [whole3].
  { replace (k0 + i + Z.of_nat 0) with (k0 + i) by lia. exists d. rewrite test_ref_nil by done.
    split; [done | by apply upd_refl]. }
  rewrite !word_index_step, src_index_step.
  destruct (src_ld Hw wsrc src1 nbits (k0 + i) Hs1 ltac:(lia) ltac:(nia)) as [-> Hv1].
  destruct (src_ld Hw false src2 nbits (k0 + i) Hs2 ltac:(lia) ltac:(nia)) as [E2 Hv2].
  simpl in E2, Hv2. rewrite E2. orun.
  destruct (st_whole (nw := nw) Hw d (k0 + i)
    (trunc w (XDP2_BITMAP_VALUE2 f (src_word (nw := nw) wsrc src1 (k0 + i)) (word src2 (k0 + i)))) res_bit)
    as (Hgr & d1 & -> & U1); [done | nia | apply trunc_word; lia | |].
  { intros j Hj. apply value3_bit; (done || nia). }
  orun. rewrite (handle_test_group Hw t ret _ _ _ _ _ _ Hgr (ones_mask Hw)). rewrite Z.add_0_r.
  replace ((k0 + i) * w + w) with ((k0 + (i + 1)) * w) by lia.
  replace ((k0 + i + 1) * w) with ((k0 + (i + 1)) * w) in U1 by lia.
  replace (k0 + i + Z.of_nat (S cnt)) with (k0 + (i + 1) + Z.of_nat cnt) in * by lia.
  destruct (IH d1 (i + 1) (test_ref t res_bit ((k0 + i) * w) ((k0 + (i + 1)) * w) ret)) as (d2 & E & U2);
    [by eapply upd_ok | by apply test_ref_u32 | lia | lia | lia | rewrite (upd_words _ _ _ _ _ U1); done |].
  rewrite E. exists d2. rewrite test_ref_split by nia. split; [done |].
  eapply upd_trans; [| exact U1 | exact U2]. nia.
Qed.

Lemma words3_ok d k0 n ret :
  ok d -> is_u32 ret -> 0 <= k0 -> 0 <= n -> k0 * w + n = nbits -> nbits <= w * bm_words d ->
  exists d', bitmap_3arg_words w conv nw f t (src_dir (nw := nw) wsrc) d src1 src2 (word_index nw k0)
               (src_index (nw := nw) wsrc k0) (word_index nw k0) n ret =
      Done (d', test_ref t res_bit (k0 * w) nbits ret) /\ upd d d' (k0 * w) nbits res_bit.
Proof using CV Hw Hs1 Hs2.
  intros Hok Hr Hk Hn E Hb. pose proof (w_range Hw).
  destruct (split_words Hw k0 n nbits Hk Hn E) as (Hc & Hm & Es). unfold bitmap_3arg_words.
  destruct (whole3_ok k0 (Z.to_nat (n / w)) d 0 ret) as (d1 & E1 & U1);
    [done | done | lia | lia | nia | done |].
  rewrite Z.add_0_r, Z2Nat.id in * by done. rewrite E1. orun.
  destruct (Z.eqb_spec (n mod w) 0) as [Ez | Enz].
  - exists d1. assert (nbits = (k0 + n / w) * w) as -> by lia. done.
  - destruct (LOW_MASK_ok Hw (n mod w)) as (m & -> & Hmask); [lia |]. orun.
    rewrite !word_index_step, src_index_step.
    destruct (part3_ok d1 (k0 + n / w) (conv (trunc w m)) 0 (n mod w)
      (test_ref t res_bit (k0 * w) ((k0 + n / w) * w) ret)) as (d2 & -> & U2);
      [by eapply upd_ok | rewrite (upd_words _ _ _ _ _ U1); nia | lia | by apply conv_mask | lia | lia |].
    rewrite Z.add_0_r, <- Es in *. exists d2. rewrite test_ref_split by nia. split; [done |].
    eapply upd_trans; [| exact U1 | exact U2]. nia.
Qed.

Lemma XDP2_BITMAP_3ARG_ok d pos ret :
  holds_bits (w := w) (nw := nw) d nbits -> 0 <= pos <= nbits -> is_u32 ret ->
  exists d', XDP2_BITMAP_3ARG w conv nw f t wsrc d src1 src2 pos nbits ret =
      Done (d', test_ref t res_bit pos nbits ret) /\ upd d d' pos nbits res_bit.
Proof using CV Hw Hs1 Hs2.
  intros (Hok & Hb & Hlim & Hn32) Hp Hr. pose proof (w_range Hw). unfold XDP2_BITMAP_3ARG.
  fold (src_dir (nw := nw) wsrc). fold (src_index (nw := nw) wsrc (pos / w)).
  assert (u32 (nbits - pos) = nbits - pos) as -> by (apply Z.mod_small; lia).
  destruct (Z.eqb_spec (pos mod w) 0) as [Ez | Enz].
  - pose proof (Z.div_mod pos w ltac:(lia)) as D. rewrite Ez in D.
    pose proof (Z.div_pos pos w ltac:(lia) ltac:(lia)).
    destruct (words3_ok d (pos / w) (nbits - pos) ret) as (d' & -> & U); [done | done | lia .. |].
    exists d'. by replace (pos / w * w) with pos in * by lia.
  - destruct (split_head Hw pos nbits Hp Enz) as (Hm & Hk & Ep & Hn & Hmn & Epn & Hnext).
    set (m := pos mod w) in *. set (k := pos / w) in *. set (need := Z.min (w - m) (nbits - pos)) in *.
    destruct (MASK_ok Hw m need) as (M & -> & HM); [lia | lia | lia |]. orun.
    destruct (part3_ok d k (conv (trunc w M)) m (m + need) ret) as (d1 & -> & U1);
      [done | nia | lia | by apply conv_mask | lia | lia |].
    rewrite <- Ep, <- Epn in *. destruct (Z.eqb_spec (nbits - pos - need) 0) as [E0 | En0].
    + exists d1. by replace nbits with (pos + need) by lia.
    + specialize (Hnext En0). replace (word_index nw k + dir nw) with (word_index nw (k + 1)) by
        (rewrite <- word_index_step; lia).
      replace (src_index (nw := nw) wsrc k + src_dir (nw := nw) wsrc) with (src_index (nw := nw) wsrc (k + 1)) by
        (rewrite <- src_index_step; lia).
      destruct (words3_ok d1 (k + 1) (nbits - pos - need) (test_ref t res_bit pos (pos + need) ret)) as (d2 & -> & U2);
        [by eapply upd_ok | by apply test_ref_u32 | lia | lia | lia | rewrite (upd_words _ _ _ _ _ U1); lia |].
      rewrite <- Hnext in *. exists d2. rewrite test_ref_split by lia. split; [done |].
      eapply upd_trans; [| exact U1 | exact U2]. lia.
Qed.
End Three.
