(* ===== verification/BitmapShift.v ===== *)
(** * Bitmaps: shifts and rotations

    The shift and rotate functions of [include/xdp2/bitmap_helpers.h]. In the
    [destsrc] variants the destination is also the source; the flag [same] says that
    the two arrays are one, so that a load from the source sees earlier stores. *)

From stdpp Require Import base list numbers.
From S2P Require Import Prelude BitmapWord BitmapWordSpec Bitmap BitmapSpec BitmapOps BitmapTwo.

Section Code.
Context (w : Z) (conv : Z -> Z).

Definition ld_src (same : bool) (dest src : list Z) (i : Z) : outcome Z := bm_ld (if same then dest else src) i.

(** The result is cut to a word when it is stored or converted. *)
Definition XDP2_BITMAP_SHIFT_CONVERT (left : bool) (v s : Z) : outcome Z :=
  x ← (if left then c_shl (promoted w) (conv v) s else c_shr (promoted w) (conv v) s); mret (conv (trunc w x)).

(** The loops of both directions: [step] is the way to the next word, [di] and [si]
    are the pointers [_dest] and [_src]. *)
Fixpoint copy_words (k : nat) (same : bool) (dest src : list Z) (step di si : Z) : outcome (list Z * Z) :=
  match k with
  | O => mret (dest, di)
  | S k => v ← ld_src same dest src si; dest ← bm_st dest di v; copy_words k same dest src step (di + step) (si + step)
  end.
Fixpoint shift_words (k : nat) (left same : bool) (dest src : list Z) (step bits di si : Z) : outcome (list Z * Z * Z) :=
  match k with
  | O => mret (dest, di, si)
  | S k =>
    v ← ld_src same dest src si;
    x ← XDP2_BITMAP_SHIFT_CONVERT left v bits;
    u ← ld_src same dest src (si + step);
    y ← XDP2_BITMAP_SHIFT_CONVERT (negb left) u (w - bits);
    dest ← bm_st dest di (Z.lor x y);
    shift_words k left same dest src step bits (di + step) (si + step)
  end.
(** The final partial word. *)
Definition shift_last (left same : bool) (dest src : list Z) (step bits di si : Z) : outcome (list Z * Z) :=
  v ← ld_src same dest src si; x ← XDP2_BITMAP_SHIFT_CONVERT left v bits; dest ← bm_st dest di x; mret (dest, di + step).
Fixpoint zero_words (k : nat) (dest : list Z) (step di : Z) : outcome (list Z) :=
  match k with
  | O => mret dest
  | S k => dest ← bm_st dest di 0; zero_words k dest step (di + step)
  end.

(** The number of words comes as a number of bytes. *)
Definition shift_num_words (num_words : Z) : Z := u32 (8 * (if num_words =? 0 then 0 else u32 (num_words * w) / 8)) / w.

Definition XDP2_BITMAP_SHIFT_LEFT (same : bool) (dest src : list Z) (num_shift nbits nw : Z) : outcome (list Z) :=
  let bits := num_shift mod w in
  if nbits =? 0 then mret dest else
  let si := word_index nw (u32 ((nbits - 1) / w - num_shift / w)) in
  let di := word_index nw ((nbits - 1) / w) in
  let cnt := u32 (nbits - num_shift) / w in
  '(dest, di, i) ←
    (if bits =? 0 then
       '(dest, di) ← copy_words (Z.to_nat cnt) same dest src (- dir nw) di si; mret (dest, di, cnt)
     else
       '(dest, di, si) ← shift_words (Z.to_nat cnt) true same dest src (- dir nw) bits di si;
       '(dest, di) ← shift_last true same dest src (- dir nw) bits di si; mret (dest, di, cnt + 1));
  zero_words (Z.to_nat (nbits / w - i)) dest (- dir nw) di.

(** A bound that wraps around leaves the loop without end. *)
Definition XDP2_BITMAP_SHIFT_RIGHT (same : bool) (dest src : list Z) (num_shift nbits nw : Z) : outcome (list Z) :=
  let bits := num_shift mod w in
  if nbits =? 0 then mret dest else
  let si := word_index nw (u32 ((nbits - 1) / w - u32 (nbits - num_shift - 1) / w)) in
  let di := word_index nw 0 in
  let i := (nbits - 1) / w in
  '(dest, di, i) ←
    (if bits =? 0 then
       let lo := Z.quot (s32 num_shift) w in
       '(dest, di) ← copy_words (Z.to_nat (i + 1 - lo)) same dest src (dir nw) di si; mret (dest, di, Z.min i (lo - 1))
     else
       let lo := u32 (num_shift + w) / w in
       if lo =? 0 then Crash else
       '(dest, di, si) ← shift_words (Z.to_nat (i + 1 - lo)) false same dest src (dir nw) bits di si;
       '(dest, di) ← shift_last false same dest src (dir nw) bits di si; mret (dest, di, Z.min i (lo - 1) - 1));
  zero_words (Z.to_nat (i + 1)) dest (dir nw) di.

Definition xdp2_bitmap_shift_gen_left (same : bool) (dest src : list Z) (num_shift nbits num_words : Z) : outcome (list Z) :=
  if negb (nbits mod w =? 0) then Crash else XDP2_BITMAP_SHIFT_LEFT same dest src num_shift nbits (shift_num_words num_words).
Definition xdp2_bitmap_shift_gen_right (same : bool) (dest src : list Z) (num_shift nbits num_words : Z) : outcome (list Z) :=
  if negb (nbits mod w =? 0) then Crash else XDP2_BITMAP_SHIFT_RIGHT same dest src num_shift nbits (shift_num_words num_words).

Definition xdp2_bitmap_shift_left (dest src : list Z) (num_shift nbits : Z) : outcome (list Z) := xdp2_bitmap_shift_gen_left false dest src num_shift nbits 0.
Definition xdp2_bitmap_destsrc_shift_left (dest : list Z) (num_shift nbits : Z) : outcome (list Z) := xdp2_bitmap_shift_gen_left true dest dest num_shift nbits 0.
Definition xdp2_rbitmap_shift_left (dest src : list Z) (num_shift nbits num_words : Z) : outcome (list Z) := xdp2_bitmap_shift_gen_left false dest src num_shift nbits num_words.
Definition xdp2_rbitmap_destsrc_shift_left (dest : list Z) (num_shift nbits num_words : Z) : outcome (list Z) := xdp2_bitmap_shift_gen_left true dest dest num_shift nbits num_words.
Definition xdp2_bitmap_shift_right (dest src : list Z) (num_shift nbits : Z) : outcome (list Z) := xdp2_bitmap_shift_gen_right false dest src num_shift nbits 0.
Definition xdp2_bitmap_destsrc_shift_right (dest : list Z) (num_shift nbits : Z) : outcome (list Z) := xdp2_bitmap_shift_gen_right true dest dest num_shift nbits 0.
Definition xdp2_rbitmap_shift_right (dest src : list Z) (num_shift nbits num_words : Z) : outcome (list Z) := xdp2_bitmap_shift_gen_right false dest src num_shift nbits num_words.
Definition xdp2_rbitmap_destsrc_shift_right (dest : list Z) (num_shift nbits num_words : Z) : outcome (list Z) := xdp2_bitmap_shift_gen_right true dest dest num_shift nbits num_words.

(** ** Rotation *)

(** Replaces the bits under a mask. *)
Definition set_masked (dest : list Z) (i mask v : Z) : outcome (list Z) :=
  d ← bm_ld dest i; bm_st dest i (Z.lor (Z.land d (trunc w (Z.lnot mask))) v).

(** The first loop aligns the bits: [word] has been read from the source, [idest] and
    [si] are the pointers. *)
Fixpoint rotate_align (k : nat) (same : bool) (dest src : list Z) (step bits mask_low mask_high word idest si : Z) : outcome (list Z * Z * Z) :=
  match k with
  | O => mret (dest, word, idest)
  | S k =>
    x ← XDP2_BITMAP_SHIFT_CONVERT true word bits;
    dest ← set_masked dest idest mask_low x;
    word_next ← ld_src same dest src (si + step);
    y ← XDP2_BITMAP_SHIFT_CONVERT false word (w - bits);
    dest ← set_masked dest (idest + step) mask_high y;
    rotate_align k same dest src step bits mask_low mask_high word_next (idest + step) (si + step)
  end.
Definition rotate_bits (same : bool) (dest src : list Z) (bits n nw : Z) : outcome (list Z) :=
  l ← c_shl (promoted w) (XDP2_BITMAP_1S w) bits;
  h ← c_shr (promoted w) (XDP2_BITMAP_1S w) (w - bits);
  let mask_low := conv (trunc w l) in
  let mask_high := conv (trunc w h) in
  let first := word_index nw 0 in
  word ← ld_src same dest src first;
  '(dest, word, idest) ← rotate_align (Z.to_nat (n - 1)) same dest src (dir nw) bits mask_low mask_high word first first;
  x ← XDP2_BITMAP_SHIFT_CONVERT true word bits;
  dest ← set_masked dest idest mask_low x;
  y ← XDP2_BITMAP_SHIFT_CONVERT false word (w - bits);
  set_masked dest first mask_high y.

(** The second loop moves words along the rings of the rotation. *)
Fixpoint ring_loop (fuel : nat) (same : bool) (dest src : list Z) (rotate n nw base index word count : Z) : outcome (list Z * Z) :=
  match fuel with
  | O => NoFuel
  | S fuel =>
    let index := u32 (index + rotate) mod n in
    word_next ← ld_src same dest src (word_index nw index);
    dest ← bm_st dest (word_index nw index) word;
    let count := u32 (count - 1) in
    if index =? base then mret (dest, count) else ring_loop fuel same dest src rotate n nw base index word_next count
  end.
Fixpoint rotate_words (fuel : nat) (same : bool) (dest src : list Z) (rotate n nw base count : Z) : outcome (list Z) :=
  if count =? 0 then mret dest else
  match fuel with
  | O => NoFuel
  | S fuel =>
    word ← ld_src same dest src (word_index nw base);
    '(dest, count) ← ring_loop (Z.to_nat n) same dest src rotate n nw base base word count;
    rotate_words fuel same dest src rotate n nw (base + 1) count
  end.

Definition XDP2_BITMAP_MAKE_ROTATE (same : bool) (dest src : list Z) (num_rotate nbits nw : Z) : outcome (list Z) :=
  let words := num_rotate / w in
  let bits := num_rotate mod w in
  let n := nbits / w in
  if nbits =? 0 then mret dest else
  '(dest, same) ← (if bits =? 0 then mret (dest, same) else dest ← rotate_bits same dest src bits n nw; mret (dest, true));
  if words =? 0 then mret dest else rotate_words (Z.to_nat n) same dest src words n nw 0 n.

Definition xdp2_bitmap_rotate_gen_left (same : bool) (dest src : list Z) (num_rotate nbits num_words : Z) : outcome (list Z) :=
  if nbits =? 0 then mret dest else
  if negb (nbits mod w =? 0) then Crash else
  let num_rotate := num_rotate mod nbits in
  if num_rotate =? 0 then
    if same then mret dest else
    let first := if num_words =? 0 then 0 else u32 (num_words - nbits / w) in
    '(dest, _) ← copy_words (Z.to_nat (nbits / w)) false dest src 1 first first; mret dest
  else if nbits =? w then
    let i := word_index num_words 0 in
    v ← ld_src same dest src i; x ← xdp2_bitmap_word_rol_n w (conv v) num_rotate; bm_st dest i (conv x)
  else XDP2_BITMAP_MAKE_ROTATE same dest src num_rotate nbits num_words.

Definition xdp2_bitmap_rotate_left (dest src : list Z) (num_rotate nbits : Z) : outcome (list Z) := xdp2_bitmap_rotate_gen_left false dest src num_rotate nbits 0.
Definition xdp2_bitmap_destsrc_rotate_left (dest : list Z) (num_rotate nbits : Z) : outcome (list Z) := xdp2_bitmap_rotate_gen_left true dest dest num_rotate nbits 0.
Definition xdp2_bitmap_rotate_right (dest src : list Z) (num_rotate nbits : Z) : outcome (list Z) := xdp2_bitmap_rotate_left dest src (u32 (nbits - num_rotate)) nbits.
Definition xdp2_bitmap_destsrc_rotate_right (dest : list Z) (num_rotate nbits : Z) : outcome (list Z) := xdp2_bitmap_destsrc_rotate_left dest (u32 (nbits - num_rotate)) nbits.
Definition xdp2_rbitmap_rotate_left (dest src : list Z) (num_rotate nbits num_words : Z) : outcome (list Z) := xdp2_bitmap_rotate_gen_left false dest src num_rotate nbits num_words.
Definition xdp2_rbitmap_destsrc_rotate_left (dest : list Z) (num_rotate nbits num_words : Z) : outcome (list Z) := xdp2_bitmap_rotate_gen_left true dest dest num_rotate nbits num_words.
Definition xdp2_rbitmap_rotate_right (dest src : list Z) (num_rotate nbits num_words : Z) : outcome (list Z) := xdp2_rbitmap_rotate_left dest src (u32 (nbits - num_rotate)) nbits num_words.
Definition xdp2_rbitmap_destsrc_rotate_right (dest : list Z) (num_rotate nbits num_words : Z) : outcome (list Z) := xdp2_rbitmap_destsrc_rotate_left dest (u32 (nbits - num_rotate)) nbits num_words.
End Code.

Example ex_shift_left : xdp2_bitmap_destsrc_shift_left 8 (fun v => v) [0x81; 0xff; 0x03] 12 24 = Done [0; 0x10; 0xf8].
Proof. vm_compute. reflexivity. Qed.
Example ex_shift_right : xdp2_rbitmap_destsrc_shift_right 16 bswap16 [0; 0x3412; 0x7856] 4 32 3 = Done [0; 0x2301; 0x6745].
Proof. vm_compute. reflexivity. Qed.
Example ex_rotate : xdp2_bitmap_rotate_left 8 (fun v => v) [0; 0; 0; 0] [0x01; 0x23; 0x45; 0x67] 20 32 = Done [0x52; 0x74; 0x16; 0x30].
Proof. vm_compute. reflexivity. Qed.

(** ** One word *)

Lemma u32_small z : 0 <= z < 2 ^ 32 -> u32 z = z.
Proof. apply Z.mod_small. Qed.

Section Proofs.
Context {w : Z} {conv : Z -> Z} {CV : WordConv w conv} {nw : Z} (Hw : word_bits w).
Abbreviation word := (bm_word nw).
Abbreviation bit := (bm_bit w conv nw).
Abbreviation ok := (bm_ok w nw).
Abbreviation upd := (bm_upd w conv nw).

Lemma convert_left v s : is_word w v -> 0 <= s < w ->
  exists x, XDP2_BITMAP_SHIFT_CONVERT w conv true v s = Done x /\ is_word w x /\ forall j, 0 <= j < w -> Z.testbit (conv x) j = (s <=? j) && Z.testbit (conv v) (j - s).
Proof using CV Hw.
  intros Hv Hs. pose proof (w_range Hw). pose proof (promoted_range Hw). unfold XDP2_BITMAP_SHIFT_CONVERT, c_shl.
  destruct (Z.leb_spec 0 s), (Z.ltb_spec s (promoted w)); try lia. cbn [andb]. orun. eexists. split; [done |]. split; [apply conv_word, trunc_word; lia |].
  intros j Hj. rewrite conv_conv by (done || (apply trunc_word; lia)). rewrite !testbit_trunc, Z.shiftl_spec by lia.
  destruct (Z.ltb_spec j w), (Z.ltb_spec j (promoted w)), (Z.leb_spec s j); try lia; [done |]. by rewrite Z.testbit_neg_r by lia.
Qed.

Lemma convert_right v s : is_word w v -> 0 <= s < w ->
  exists x, XDP2_BITMAP_SHIFT_CONVERT w conv false v s = Done x /\ is_word w x /\ forall j, 0 <= j < w -> Z.testbit (conv x) j = (j + s <? w) && Z.testbit (conv v) (j + s).
Proof using CV Hw.
  intros Hv Hs. pose proof (w_range Hw). pose proof (promoted_range Hw). unfold XDP2_BITMAP_SHIFT_CONVERT, c_shr.
  destruct (Z.leb_spec 0 s), (Z.ltb_spec s (promoted w)); try lia. cbn [andb]. orun. eexists. split; [done |]. split; [apply conv_word, trunc_word; lia |].
  intros j Hj. rewrite conv_conv by (done || (apply trunc_word; lia)). rewrite testbit_trunc, Z.shiftr_spec by lia.
  destruct (Z.ltb_spec j w), (Z.ltb_spec (j + s) w); try lia; [done |]. apply (word_testbit_high w); [by apply conv_word | lia].
Qed.

(** The bits of a word that is made of two parts. *)
Lemma convert_lor x y j : is_word w x -> is_word w y -> 0 <= j < w -> Z.testbit (conv (Z.lor x y)) j = Z.testbit (conv x) j || Z.testbit (conv y) j.
Proof using CV Hw. apply conv_lor. done. Qed.

Section Loops.
Context (same : bool) (dest0 src : list Z) (nbits : Z) (Hnb : nbits <= w * bm_words dest0) (Hsrc : if same then True else ok src /\ nbits <= w * bm_words src).

(** The bits of the source before the operation. *)
Definition sbit (i : Z) : bool := bit (if same then dest0 else src) i.

Lemma group_words (bm : list Z) k : (k + 1) * w <= nbits -> nbits <= w * bm_words bm -> 0 <= k -> 0 <= k < bm_words bm.
Proof using Hw. clear - Hw. intros H1 H2 H3. pose proof (w_range Hw). split; [done |]. nia. Qed.

(** A word that has not been written yet. *)
Lemma ld_kept dest lo hi g k : upd dest0 dest lo hi g -> k * w + w <= lo \/ hi <= k * w -> 0 <= k -> (k + 1) * w <= nbits ->
  exists v, ld_src same dest src (word_index nw k) = Done v /\ is_word w v /\ forall j, 0 <= j < w -> Z.testbit (conv v) j = sbit (k * w + j).
Proof using CV Hw Hnb Hsrc.
  intros Hu Hlh H0 Hk. pose proof (w_range Hw). unfold ld_src, sbit. destruct same.
  - pose proof (upd_words _ _ _ _ _ Hu) as Hwd. pose proof Hu as (Hok & _ & Hb). destruct (bm_ld_word dest k Hok) as [-> Hv]; [apply group_words; [done | by rewrite Hwd | done] |].
    eexists. split; [done |]. split; [done |]. intros j Hj. rewrite <- (bit_group Hw dest k j Hj). rewrite Hb by nia.
    destruct (Z.leb_spec lo (k * w + j)), (Z.ltb_spec (k * w + j) hi); try done. lia.
  - destruct Hsrc as [Hok Hn]. destruct (bm_ld_word src k Hok) as [-> Hv]; [by apply group_words |]. eexists. split; [done |]. split; [done |]. intros j Hj. by rewrite (bit_group Hw src k j Hj).
Qed.

(** Writing the next word downwards and upwards. *)
Lemma st_down dest q x g : upd dest0 dest (q * w) nbits g -> 0 < q -> q * w <= nbits -> is_word w x -> (forall j, 0 <= j < w -> Z.testbit (conv x) j = g ((q - 1) * w + j)) ->
  exists dest', bm_st dest (word_index nw (q - 1)) x = Done dest' /\ upd dest0 dest' ((q - 1) * w) nbits g.
Proof using CV Hw Hnb.
  intros Hu H0 Hq Hx Hg. pose proof (upd_words _ _ _ _ _ Hu) as Hwd. pose proof (w_range Hw).
  destruct (st_whole (nw := nw) Hw dest (q - 1) x g (upd_ok _ _ _ _ _ Hu)) as (_ & dest' & E & U); [apply group_words; [lia | by rewrite Hwd | lia] | done | done |].
  exists dest'. split; [done |]. replace ((q - 1 + 1) * w) with (q * w) in U by lia. eapply upd_trans_down; [| exact Hu | exact U]. nia.
Qed.

Lemma st_up dest q x g : upd dest0 dest 0 (q * w) g -> 0 <= q -> (q + 1) * w <= nbits -> is_word w x -> (forall j, 0 <= j < w -> Z.testbit (conv x) j = g (q * w + j)) ->
  exists dest', bm_st dest (word_index nw q) x = Done dest' /\ upd dest0 dest' 0 ((q + 1) * w) g.
Proof using CV Hw Hnb.
  intros Hu H0 Hq Hx Hg. pose proof (upd_words _ _ _ _ _ Hu) as Hwd. pose proof (w_range Hw).
  destruct (st_whole (nw := nw) Hw dest q x g (upd_ok _ _ _ _ _ Hu)) as (_ & dest' & E & U); [apply group_words; [lia | by rewrite Hwd | lia] | done | done |].
  exists dest'. split; [done |]. eapply upd_trans; [| exact Hu | exact U]. nia.
Qed.

Lemma index_down k : word_index nw k + - dir nw = word_index nw (k - 1).
Proof. pose proof (word_index_step (nw := nw) k (-1)) as E. replace (k + -1) with (k - 1) in E by lia. rewrite <- E. lia. Qed.
Lemma index_up k : word_index nw k + dir nw = word_index nw (k + 1).
Proof. rewrite <- word_index_step. lia. Qed.

(** ** Shifts *)

Definition shl_bit (sh i : Z) : bool := (sh <=? i) && sbit (i - sh).
Definition shr_bit (sh i : Z) : bool := (i + sh <? nbits) && sbit (i + sh).

Lemma copy_down s k : forall dest q, 0 <= s -> Z.of_nat k <= q - s -> q * w <= nbits -> upd dest0 dest (q * w) nbits (shl_bit (s * w)) ->
  exists dest', copy_words k same dest src (- dir nw) (word_index nw (q - 1)) (word_index nw (q - 1 - s)) = Done (dest', word_index nw (q - Z.of_nat k - 1)) /\
    upd dest0 dest' ((q - Z.of_nat k) * w) nbits (shl_bit (s * w)).
Proof using CV Hw Hnb Hsrc.
  pose proof (w_range Hw). induction k as [| k IH]; intros dest q Hs Hk Hq Hu; cbn [copy_words]; [exists dest; by rewrite Z.sub_0_r |].
  destruct (ld_kept _ _ _ _ (q - 1 - s) Hu) as (v & -> & Hv & Hb); [left; nia | lia | nia |]. orun.
  destruct (st_down dest q v _ Hu) as (dest1 & -> & Hu1); [lia | done | done | |].
  { intros j Hj. rewrite Hb by done. unfold shl_bit. destruct (Z.leb_spec (s * w) ((q - 1) * w + j)); [| nia]. cbn [andb]. f_equal. lia. }
  orun. rewrite !index_down. destruct (IH dest1 (q - 1) Hs ltac:(lia) ltac:(lia) Hu1) as (dest' & E & Hu').
  exists dest'. replace (q - 1 - s - 1) with (q - 1 - 1 - s) by lia. replace (q - Z.of_nat (S k)) with (q - 1 - Z.of_nat k) by lia. done.
Qed.

(** The word at group [q - 1] of a shift that is not aligned. *)
Lemma shl_word s b q v x u y j : 0 < b < w -> 0 <= s < q - 1 -> 0 <= j < w ->
  (forall j, 0 <= j < w -> Z.testbit v j = sbit ((q - 1 - s) * w + j)) -> (forall j, 0 <= j < w -> x j = (b <=? j) && Z.testbit v (j - b)) ->
  (forall j, 0 <= j < w -> Z.testbit u j = sbit ((q - 2 - s) * w + j)) -> (forall j, 0 <= j < w -> y j = (j + (w - b) <? w) && Z.testbit u (j + (w - b))) ->
  x j || y j = shl_bit (s * w + b) ((q - 1) * w + j).
Proof.
  clear. intros Hb Hs Hj Hv Hx Hu Hy. rewrite Hx, Hy by done. unfold shl_bit. destruct (Z.leb_spec (s * w + b) ((q - 1) * w + j)); [| nia]. cbn [andb].
  destruct (Z.leb_spec b j), (Z.ltb_spec (j + (w - b)) w); try lia; cbn [andb orb].
  - rewrite orb_false_r, Hv by lia. f_equal. lia.
  - rewrite Hu by lia. f_equal. lia.
Qed.

Lemma shift_down s b k : 0 < b < w -> forall dest q, 0 <= s -> Z.of_nat k <= q - 1 - s -> q * w <= nbits -> upd dest0 dest (q * w) nbits (shl_bit (s * w + b)) ->
  exists dest', shift_words w conv k true same dest src (- dir nw) b (word_index nw (q - 1)) (word_index nw (q - 1 - s)) = Done (dest', word_index nw (q - Z.of_nat k - 1), word_index nw (q - Z.of_nat k - 1 - s)) /\
    upd dest0 dest' ((q - Z.of_nat k) * w) nbits (shl_bit (s * w + b)).
Proof using CV Hw Hnb Hsrc.
  intros Hbw. pose proof (w_range Hw). induction k as [| k IH]; intros dest q Hs Hk Hq Hu; cbn [shift_words negb]; [exists dest; by rewrite Z.sub_0_r |].
  destruct (ld_kept _ _ _ _ (q - 1 - s) Hu) as (v & -> & Hv & Hb); [left; nia | lia | nia |]. orun. destruct (convert_left v b Hv ltac:(lia)) as (x & -> & Hx & Hxb). orun. rewrite !index_down.
  destruct (ld_kept _ _ _ _ (q - 1 - s - 1) Hu) as (u & -> & Hu' & Hub); [left; nia | lia | nia |]. orun. destruct (convert_right u (w - b) Hu' ltac:(lia)) as (y & -> & Hy & Hyb). orun.
  destruct (st_down dest q (Z.lor x y) _ Hu) as (dest1 & -> & Hu1); [lia | done | apply is_word_lor; (done || lia) | |].
  { intros j Hj. rewrite convert_lor by done. eapply (shl_word s b q (conv v) _ (conv u) _ j); [done | lia | done | exact Hb | exact Hxb | | exact Hyb]. intros j' Hj'. rewrite Hub by done. f_equal. lia. }
  orun. destruct (IH dest1 (q - 1) Hs ltac:(lia) ltac:(lia) Hu1) as (dest' & E & Hd').
  exists dest'. replace (q - 1 - s - 1) with (q - 1 - 1 - s) by lia. replace (q - Z.of_nat (S k)) with (q - 1 - Z.of_nat k) by lia. done.
Qed.

Lemma shift_last_down s b dest : 0 < b < w -> 0 <= s -> (s + 1) * w <= nbits -> upd dest0 dest ((s + 1) * w) nbits (shl_bit (s * w + b)) ->
  exists dest', shift_last w conv true same dest src (- dir nw) b (word_index nw s) (word_index nw 0) = Done (dest', word_index nw (s - 1)) /\ upd dest0 dest' (s * w) nbits (shl_bit (s * w + b)).
Proof using CV Hw Hnb Hsrc.
  intros Hbw Hs Hq Hu. pose proof (w_range Hw). unfold shift_last. destruct (ld_kept _ _ _ _ 0 Hu) as (v & -> & Hv & Hb); [left; nia | lia | nia |]. orun.
  destruct (convert_left v b Hv ltac:(lia)) as (x & -> & Hx & Hxb). orun. destruct (st_down dest (s + 1) x _ Hu) as (dest1 & E & Hu1); [lia | done | done | |].
  { intros j Hj. rewrite Hxb by done. unfold shl_bit. replace ((s + 1 - 1) * w + j) with (s * w + j) by lia. destruct (Z.leb_spec b j), (Z.leb_spec (s * w + b) (s * w + j)); try lia. cbn [andb]. rewrite Hb by lia. f_equal. lia. }
  replace (s + 1 - 1) with s in E, Hu1 by lia. rewrite E. orun. rewrite index_down. by exists dest1.
Qed.

Lemma zero_down sh k : forall dest q, q = Z.of_nat k -> q * w <= sh -> q * w <= nbits -> upd dest0 dest (q * w) nbits (shl_bit sh) ->
  exists dest', zero_words k dest (- dir nw) (word_index nw (q - 1)) = Done dest' /\ upd dest0 dest' 0 nbits (shl_bit sh).
Proof using CV Hw Hnb.
  pose proof (w_range Hw). induction k as [| k IH]; intros dest q -> Hs Hq Hu; cbn [zero_words]; [by exists dest |].
  destruct (st_down dest _ 0 _ Hu) as (dest1 & -> & Hu1); [lia | done | split; [done | lia] | |].
  { intros j Hj. rewrite conv_bit, Z.bits_0 by first [done | split; [done | lia]]. unfold shl_bit. destruct (Z.leb_spec sh ((Z.of_nat (S k) - 1) * w + j)); [nia | done]. }
  orun. rewrite index_down. destruct (IH dest1 (Z.of_nat (S k) - 1)) as (dest' & E & Hu'); [lia | nia | nia | done |]. exists dest'. split; [| done]. rewrite <- E. f_equal.
Qed.

Lemma copy_up s k : forall dest q, 0 <= s -> 0 <= q -> (q + Z.of_nat k + s) * w <= nbits -> upd dest0 dest 0 (q * w) (shr_bit (s * w)) ->
  exists dest', copy_words k same dest src (dir nw) (word_index nw q) (word_index nw (q + s)) = Done (dest', word_index nw (q + Z.of_nat k)) /\
    upd dest0 dest' 0 ((q + Z.of_nat k) * w) (shr_bit (s * w)).
Proof using CV Hw Hnb Hsrc.
  pose proof (w_range Hw). induction k as [| k IH]; intros dest q Hs Hq0 Hq Hu; cbn [copy_words]; [exists dest; by rewrite Z.add_0_r |].
  destruct (ld_kept _ _ _ _ (q + s) Hu) as (v & -> & Hv & Hb); [right; nia | lia | nia |]. orun.
  destruct (st_up dest q v _ Hu) as (dest1 & -> & Hu1); [lia | nia | done | |].
  { intros j Hj. rewrite Hb by done. unfold shr_bit. destruct (Z.ltb_spec (q * w + j + s * w) nbits); [| nia]. cbn [andb]. f_equal. lia. }
  orun. rewrite !index_up. destruct (IH dest1 (q + 1) Hs ltac:(lia) ltac:(nia) Hu1) as (dest' & E & Hu').
  exists dest'. replace (q + s + 1) with (q + 1 + s) by lia. replace (q + Z.of_nat (S k)) with (q + 1 + Z.of_nat k) by lia. done.
Qed.

Lemma shr_word s b q v x u y j : 0 < b < w -> (q + s + 2) * w <= nbits -> 0 <= j < w ->
  (forall j, 0 <= j < w -> Z.testbit v j = sbit ((q + s) * w + j)) -> (forall j, 0 <= j < w -> x j = (j + b <? w) && Z.testbit v (j + b)) ->
  (forall j, 0 <= j < w -> Z.testbit u j = sbit ((q + s + 1) * w + j)) -> (forall j, 0 <= j < w -> y j = (w - b <=? j) && Z.testbit u (j - (w - b))) ->
  x j || y j = shr_bit (s * w + b) (q * w + j).
Proof.
  clear. intros Hb Hs Hj Hv Hx Hu Hy. rewrite Hx, Hy by done. unfold shr_bit. destruct (Z.ltb_spec (q * w + j + (s * w + b)) nbits); [| nia]. cbn [andb].
  destruct (Z.ltb_spec (j + b) w), (Z.leb_spec (w - b) j); try lia; cbn [andb orb].
  - rewrite orb_false_r, Hv by lia. f_equal. lia.
  - rewrite Hu by lia. f_equal. lia.
Qed.

Lemma shift_up s b k : 0 < b < w -> forall dest q, 0 <= s -> 0 <= q -> (q + Z.of_nat k + s + 1) * w <= nbits -> upd dest0 dest 0 (q * w) (shr_bit (s * w + b)) ->
  exists dest', shift_words w conv k false same dest src (dir nw) b (word_index nw q) (word_index nw (q + s)) = Done (dest', word_index nw (q + Z.of_nat k), word_index nw (q + Z.of_nat k + s)) /\
    upd dest0 dest' 0 ((q + Z.of_nat k) * w) (shr_bit (s * w + b)).
Proof using CV Hw Hnb Hsrc.
  intros Hbw. pose proof (w_range Hw). induction k as [| k IH]; intros dest q Hs Hq0 Hq Hu; cbn [shift_words negb]; [exists dest; by rewrite Z.add_0_r |].
  destruct (ld_kept _ _ _ _ (q + s) Hu) as (v & -> & Hv & Hb); [right; nia | lia | nia |]. orun. destruct (convert_right v b Hv ltac:(lia)) as (x & -> & Hx & Hxb). orun. rewrite !index_up.
  destruct (ld_kept _ _ _ _ (q + s + 1) Hu) as (u & -> & Hu' & Hub); [right; nia | lia | nia |]. orun. destruct (convert_left u (w - b) Hu' ltac:(lia)) as (y & -> & Hy & Hyb). orun.
  destruct (st_up dest q (Z.lor x y) _ Hu) as (dest1 & -> & Hu1); [lia | nia | apply is_word_lor; (done || lia) | |].
  { intros j Hj. rewrite convert_lor by done. eapply (shr_word s b q (conv v) _ (conv u) _ j); [done | nia | done | exact Hb | exact Hxb | exact Hub | exact Hyb]. }
  orun. destruct (IH dest1 (q + 1) Hs ltac:(lia) ltac:(nia) Hu1) as (dest' & E & Hd').
  exists dest'. replace (q + s + 1) with (q + 1 + s) by lia. replace (q + Z.of_nat (S k)) with (q + 1 + Z.of_nat k) by lia. done.
Qed.

Lemma shift_last_up s b q dest : 0 < b < w -> 0 <= s -> 0 <= q -> (q + s + 1) * w = nbits -> upd dest0 dest 0 (q * w) (shr_bit (s * w + b)) ->
  exists dest', shift_last w conv false same dest src (dir nw) b (word_index nw q) (word_index nw (q + s)) = Done (dest', word_index nw (q + 1)) /\ upd dest0 dest' 0 ((q + 1) * w) (shr_bit (s * w + b)).
Proof using CV Hw Hnb Hsrc.
  intros Hbw Hs Hq0 Hq Hu. pose proof (w_range Hw). unfold shift_last. destruct (ld_kept _ _ _ _ (q + s) Hu) as (v & -> & Hv & Hb); [right; nia | lia | lia |]. orun.
  destruct (convert_right v b Hv ltac:(lia)) as (x & -> & Hx & Hxb). orun. destruct (st_up dest q x _ Hu) as (dest1 & -> & Hu1); [lia | nia | done | |].
  { intros j Hj. rewrite Hxb by done. unfold shr_bit. destruct (Z.ltb_spec (j + b) w), (Z.ltb_spec (q * w + j + (s * w + b)) nbits); try lia. cbn [andb]. rewrite Hb by lia. f_equal. lia. }
  orun. rewrite index_up. by exists dest1.
Qed.

Lemma zero_up sh k : forall dest q, 0 <= q -> (q + Z.of_nat k) * w = nbits -> nbits <= q * w + sh -> upd dest0 dest 0 (q * w) (shr_bit sh) ->
  exists dest', zero_words k dest (dir nw) (word_index nw q) = Done dest' /\ upd dest0 dest' 0 nbits (shr_bit sh).
Proof using CV Hw Hnb.
  pose proof (w_range Hw). induction k as [| k IH]; intros dest q Hq0 Hq Hs Hu; cbn [zero_words]; [exists dest; split; [done |]; by replace nbits with (q * w) by lia |].
  destruct (st_up dest q 0 _ Hu) as (dest1 & -> & Hu1); [lia | nia | split; [done | lia] | |].
  { intros j Hj. rewrite conv_bit, Z.bits_0 by first [done | split; [done | lia]]. unfold shr_bit. destruct (Z.ltb_spec (q * w + j + sh) nbits); [lia | done]. }
  orun. rewrite index_up. apply IH; [lia | nia | nia | done].
Qed.

Context (n : Z) (Hn : nbits = n * w) (H32 : nbits < 2 ^ 32) (Hok : ok dest0).

Lemma top_word : 0 < n -> (nbits - 1) / w = n - 1.
Proof using Hw Hn. clear - Hw Hn. intros H0. pose proof (w_range Hw). symmetry. apply Z.div_unique_pos with (w - 1); [lia | nia]. Qed.

Lemma div_part a b : 0 <= b < w -> (a * w + b) / w = a.
Proof using Hw. clear - Hw. intros Hb. pose proof (w_range Hw). symmetry. apply Z.div_unique_pos with b; lia. Qed.

Lemma shift_left_ok sh : 0 <= n -> 0 <= sh <= nbits -> exists dest', XDP2_BITMAP_SHIFT_LEFT w conv same dest0 src sh nbits nw = Done dest' /\ upd dest0 dest' 0 nbits (shl_bit sh).
Proof using CV Hw Hnb Hsrc Hn H32 Hok.
  intros Hn0 Hsh. pose proof (w_range Hw) as Hw8. unfold XDP2_BITMAP_SHIFT_LEFT. destruct (Z.eqb_spec nbits 0) as [E0 | Hne]; [exists dest0; split; [done |]; rewrite E0; by apply upd_refl |].
  set (s := sh / w). set (b := sh mod w). assert (sh = s * w + b) as Esh by (unfold s, b; rewrite (Z.mul_comm s); apply Z.div_mod; lia). assert (0 <= b < w) as Hb by (apply Z.mod_pos_bound; lia).
  assert (0 < n) as Hnp by nia. rewrite top_word by done. assert (0 <= s) as Hs by (apply Z.div_pos; lia). assert (upd dest0 dest0 (n * w) nbits (shl_bit sh)) as Hu0 by (rewrite <- Hn; by apply upd_refl).
  assert (nbits / w = n) as -> by (rewrite Hn; apply Z.div_mul; lia). clearbody s b. rewrite (u32_small (nbits - sh)) by lia. destruct (Z.eqb_spec b 0) as [-> | Hb0].
  - rewrite Z.add_0_r in Esh. assert ((nbits - sh) / w = n - s) as -> by (rewrite Hn, Esh, <- Z.mul_sub_distr_r; apply Z.div_mul; lia). assert (s <= n) as Hsn by nia. subst sh.
    assert (exists dest', copy_words (Z.to_nat (n - s)) same dest0 src (- dir nw) (word_index nw (n - 1)) (word_index nw (u32 (n - 1 - s))) = Done (dest', word_index nw (s - 1)) /\ upd dest0 dest' (s * w) nbits (shl_bit (s * w))) as (dest' & -> & Hu).
    { destruct (Z.eq_dec s n) as [-> | Hsn']; [rewrite Z.sub_diag; by exists dest0 |]. rewrite (u32_small (n - 1 - s)) by nia.
      destruct (copy_down s (Z.to_nat (n - s)) dest0 n Hs ltac:(lia) ltac:(lia) Hu0) as (d & E & Hd). exists d. rewrite Z2Nat.id in E, Hd by lia. replace (n - (n - s)) with s in E, Hd by lia. done. }
    orun. replace (n - (n - s)) with s by lia. apply (zero_down (s * w)); [lia | lia | nia | done].
  - assert (s < n) as Hsn by nia. assert ((nbits - sh) / w = n - s - 1) as -> by (replace (nbits - sh) with ((n - s - 1) * w + (w - b)) by lia; apply div_part; lia).
    rewrite (u32_small (n - 1 - s)) by nia. destruct (shift_down s b (Z.to_nat (n - s - 1)) ltac:(lia) dest0 n Hs ltac:(lia) ltac:(lia)) as (d & E & Hd); [by rewrite <- Esh |].
    rewrite Z2Nat.id in E, Hd by lia. replace (n - (n - s - 1) - 1 - s) with 0 in E by lia. replace (n - (n - s - 1) - 1) with s in E by lia. replace (n - (n - s - 1)) with (s + 1) in Hd by lia. rewrite E. orun.
    destruct (shift_last_down s b d ltac:(lia) Hs ltac:(nia) Hd) as (d2 & -> & Hd2). orun. replace (n - (n - s - 1 + 1)) with s by lia. rewrite <- Esh in Hd2. apply (zero_down sh); [lia | lia | nia | done].
Qed.

Lemma shift_right_ok sh : 0 <= n -> 0 <= sh <= nbits -> nbits < 2 ^ 31 -> exists dest', XDP2_BITMAP_SHIFT_RIGHT w conv same dest0 src sh nbits nw = Done dest' /\ upd dest0 dest' 0 nbits (shr_bit sh).
Proof using CV Hw Hnb Hsrc Hn H32 Hok.
  intros Hn0 Hsh H31. pose proof (w_range Hw) as Hw8. unfold XDP2_BITMAP_SHIFT_RIGHT. destruct (Z.eqb_spec nbits 0) as [E0 | Hne]; [exists dest0; split; [done |]; rewrite E0; by apply upd_refl |].
  set (s := sh / w). set (b := sh mod w). assert (sh = s * w + b) as Esh by (unfold s, b; rewrite (Z.mul_comm s); apply Z.div_mod; lia). assert (0 <= b < w) as Hb by (apply Z.mod_pos_bound; lia).
  assert (0 < n) as Hnp by nia. rewrite top_word by done. assert (0 <= s) as Hs by (apply Z.div_pos; lia). assert (upd dest0 dest0 0 (0 * w) (shr_bit sh)) as Hu0 by (by apply upd_refl).
  assert (s32 sh = sh) as -> by (apply sext_small; lia). rewrite Z.quot_div_nonneg by lia. fold s. assert (sh / w = s) as Eds by done. clearbody s b. rewrite Z.sub_add. destruct (Z.eqb_spec b 0) as [-> | Hb0].
  - rewrite Z.add_0_r in Esh. assert (s <= n) as Hsn by nia. subst sh.
    assert (exists dest', copy_words (Z.to_nat (n - s)) same dest0 src (dir nw) (word_index nw 0) (word_index nw (u32 (n - 1 - u32 (nbits - s * w - 1) / w))) = Done (dest', word_index nw (n - s)) /\ upd dest0 dest' 0 ((n - s) * w) (shr_bit (s * w))) as (dest' & -> & Hu).
    { destruct (Z.eq_dec s n) as [-> | Hsn']; [rewrite Z.sub_diag; by exists dest0 |]. rewrite (u32_small (nbits - s * w - 1)) by nia. replace (nbits - s * w - 1) with ((n - s - 1) * w + (w - 1)) by lia. rewrite div_part by lia.
      replace (n - 1 - (n - s - 1)) with (0 + s) by lia. rewrite (u32_small (0 + s)) by nia. destruct (copy_up s (Z.to_nat (n - s)) dest0 0 Hs ltac:(lia) ltac:(nia) Hu0) as (d & E & Hd). exists d. rewrite Z2Nat.id, Z.add_0_l in E, Hd by lia. done. }
    orun. replace (Z.min (n - 1) (s - 1) + 1) with s by lia. apply (zero_up (s * w)); [lia | nia | nia | done].
  - assert (s < n) as Hsn by nia. rewrite (u32_small (sh + w)) by nia. assert ((sh + w) / w = s + 1) as -> by (replace (sh + w) with ((s + 1) * w + b) by lia; apply div_part; lia). destruct (Z.eqb_spec (s + 1) 0); [lia |].
    rewrite (u32_small (nbits - sh - 1)) by nia. replace (nbits - sh - 1) with ((n - s - 1) * w + (w - b - 1)) by lia. rewrite div_part by lia. replace (n - 1 - (n - s - 1)) with (0 + s) by lia. rewrite (u32_small (0 + s)) by nia.
    destruct (shift_up s b (Z.to_nat (n - (s + 1))) ltac:(lia) dest0 0 Hs ltac:(lia) ltac:(nia)) as (d & E & Hd); [by rewrite <- Esh |]. rewrite Z2Nat.id in E, Hd by lia. rewrite E. orun. rewrite Z.add_0_l in Hd. rewrite !Z.add_0_l.
    destruct (shift_last_up s b (n - (s + 1)) d ltac:(lia) Hs ltac:(lia) ltac:(lia) Hd) as (d2 & -> & Hd2). orun. replace (Z.min (n - 1) (s + 1 - 1) - 1 + 1) with s by lia. rewrite <- Esh in Hd2. apply (zero_up sh); [lia | nia | nia | done].
Qed.

(** ** Rotations: aligning the bits *)

Definition rot_bit (r i : Z) : bool := sbit ((i - r) mod nbits).

Lemma set_masked_ok dest k M a b v g : ok dest -> 0 <= k < bm_words dest -> stored_mask (w := w) (conv := conv) M a b -> 0 <= a -> a <= b <= w -> is_word w v ->
  (forall j, 0 <= j < w -> Z.testbit (conv v) j = (a <=? j) && (j <? b) && g (k * w + j)) ->
  exists dest', set_masked w dest (word_index nw k) M v = Done dest' /\ upd dest dest' (k * w + a) (k * w + b) g.
Proof using CV Hw.
  clear - CV Hw. intros Hd Hk [HM Hm] Ha Hb Hv Hg. pose proof (w_range Hw). unfold set_masked. destruct (bm_ld_word dest k Hd Hk) as [-> Hx]. orun.
  assert (is_word w (trunc w (Z.lnot M))) as Hnm by (apply trunc_word; lia).
  assert (is_word w (Z.land (word dest k) (trunc w (Z.lnot M)))) as Hl by (apply is_word_land; [lia | done | unfold is_word in Hnm; lia]).
  apply st_upd; [done | done | done | apply is_word_lor; (done || lia) | done | lia |]. intros j Hj. rewrite conv_lor, conv_land, conv_not, Hm, Hg, (bit_group Hw dest k j Hj) by done.
  destruct (Z.leb_spec a j), (Z.ltb_spec j b); cbn [andb negb]; by rewrite ?andb_false_r, ?andb_true_r, ?orb_false_r.
Qed.

Section Align.
Context (b : Z) (Hb : 0 < b < w) (mlow mhigh : Z).
Context (Hlow : stored_mask (w := w) (conv := conv) mlow b w) (Hhigh : stored_mask (w := w) (conv := conv) mhigh 0 b).

(** The two halves of the word of group [i], at their places. *)
Lemma put_low dest i wd lo : 0 <= i < n -> upd dest0 dest lo (i * w + b) (rot_bit b) -> lo <= i * w + b -> is_word w wd -> (forall j, 0 <= j < w -> Z.testbit (conv wd) j = sbit (i * w + j)) ->
  exists x dest', XDP2_BITMAP_SHIFT_CONVERT w conv true wd b = Done x /\ set_masked w dest (word_index nw i) mlow x = Done dest' /\ upd dest0 dest' lo ((i + 1) * w) (rot_bit b).
Proof using CV Hw Hnb Hn Hb Hlow.
  clear H32. intros Hi Hu Hlo Hwd Hbits. pose proof (w_range Hw). pose proof (upd_words _ _ _ _ _ Hu) as Hws. destruct (convert_left wd b Hwd ltac:(lia)) as (x & E & Hx & Hxb). exists x.
  destruct (set_masked_ok dest i mlow b w x (rot_bit b) (upd_ok _ _ _ _ _ Hu)) as (dest' & E' & U); [nia | done | lia | lia | done | |].
  { intros j Hj. rewrite Hxb by done. destruct (Z.leb_spec b j), (Z.ltb_spec j w); try lia; cbn [andb]. rewrite Hbits by lia. unfold rot_bit. rewrite Z.mod_small by nia. f_equal. lia. }
  exists dest'. split_and!; [done | done |]. replace ((i + 1) * w) with (i * w + w) by lia. eapply upd_trans; [| exact Hu | exact U]. lia.
Qed.

Lemma put_high dest i k wd : 0 <= i < n -> 0 <= k < n -> k = (i + 1) mod n -> ok dest -> bm_words dest = bm_words dest0 -> is_word w wd -> (forall j, 0 <= j < w -> Z.testbit (conv wd) j = sbit (i * w + j)) ->
  exists x dest', XDP2_BITMAP_SHIFT_CONVERT w conv false wd (w - b) = Done x /\ set_masked w dest (word_index nw k) mhigh x = Done dest' /\ upd dest dest' (k * w) (k * w + b) (rot_bit b).
Proof using CV Hw Hnb Hn Hb Hhigh.
  clear H32. intros Hi Hk Ek Hd Hws Hwd Hbits. pose proof (w_range Hw). destruct (convert_right wd (w - b) Hwd ltac:(lia)) as (x & E & Hx & Hxb). exists x.
  destruct (set_masked_ok dest k mhigh 0 b x (rot_bit b) Hd) as (dest' & E' & U); [nia | done | lia | lia | done | |].
  { intros j Hj. rewrite Hxb by done. destruct (Z.ltb_spec (j + (w - b)) w), (Z.leb_spec 0 j), (Z.ltb_spec j b); try lia; cbn [andb]. rewrite Hbits by lia. unfold rot_bit. f_equal.
    destruct (Z.eq_dec (i + 1) n) as [En | En].
    - rewrite En, Z_mod_same_full in Ek. subst k. apply Z.mod_unique_pos with (-1); nia.
    - rewrite Z.mod_small in Ek by lia. subst k. rewrite Z.mod_small by nia. lia. }
  exists dest'. rewrite Z.add_0_r in U. done.
Qed.

Lemma align_ok k : forall i dest wd, 0 <= i -> i + Z.of_nat k = n - 1 -> upd dest0 dest b (i * w + b) (rot_bit b) -> is_word w wd -> (forall j, 0 <= j < w -> Z.testbit (conv wd) j = sbit (i * w + j)) ->
  exists dest' wd', rotate_align w conv k same dest src (dir nw) b mlow mhigh wd (word_index nw i) (word_index nw i) = Done (dest', wd', word_index nw (n - 1)) /\
    upd dest0 dest' b ((n - 1) * w + b) (rot_bit b) /\ is_word w wd' /\ forall j, 0 <= j < w -> Z.testbit (conv wd') j = sbit ((n - 1) * w + j).
Proof using CV Hw Hnb Hsrc Hn Hb Hlow Hhigh.
  clear H32. pose proof (w_range Hw). induction k as [| k IH]; intros i dest wd Hi Hk Hu Hwd Hbits; cbn [rotate_align]; [exists dest, wd; replace (n - 1) with i by lia; done |].
  destruct (put_low dest i wd b ltac:(lia) Hu ltac:(nia) Hwd Hbits) as (x & d1 & Ex & Ed & Hu1). rewrite Ex. orun. rewrite Ed. orun. rewrite !index_up.
  destruct (ld_kept _ _ _ _ (i + 1) Hu1) as (v & -> & Hv & Hvb); [right; lia | lia | nia |]. orun.
  destruct (put_high d1 i (i + 1) wd ltac:(lia) ltac:(lia)) as (y & d2 & Ey & Ed2 & U); [symmetry; apply Z.mod_small; lia | exact (upd_ok _ _ _ _ _ Hu1) | exact (upd_words _ _ _ _ _ Hu1) | done | done |]. rewrite Ey. orun. rewrite Ed2. orun.
  apply IH; [lia | lia | | done | done]. eapply upd_trans; [| exact Hu1 | exact U]. nia.
Qed.
End Align.

Lemma rotate_bits_ok b : 0 < b < w -> 0 < n -> exists dest', rotate_bits w conv same dest0 src b n nw = Done dest' /\ upd dest0 dest' 0 nbits (rot_bit b).
Proof using CV Hw Hnb Hsrc Hn Hok.
  clear H32. intros Hb Hn0. pose proof (w_range Hw). unfold rotate_bits.
  destruct (HIGH_MASK_ok Hw b ltac:(lia)) as (l & E1 & Hl). unfold XDP2_BITMAP_HIGH_MASK in E1. rewrite E1. orun.
  destruct (LOW_MASK_ok Hw b ltac:(lia)) as (h & E2 & Hh). unfold XDP2_BITMAP_LOW_MASK in E2. rewrite u32_small in E2 by lia. rewrite E2. orun.
  assert (stored_mask (w := w) (conv := conv) (conv (trunc w l)) b w) as Hlow.
  { apply conv_mask. split; [apply trunc_word; lia |]. intros j Hj. rewrite testbit_trunc, Hl by lia. destruct (Z.ltb_spec j w); [by rewrite andb_comm | lia]. }
  pose proof (conv_mask _ _ _ Hh) as Hhigh. assert (upd dest0 dest0 b (0 * w + b) (rot_bit b)) as Hu0 by (apply (upd_refl dest0 b); done).
  destruct (ld_kept dest0 0 0 (rot_bit b) 0) as (v & -> & Hv & Hvb); [by apply upd_refl | right; lia | lia | nia |]. orun.
  destruct (align_ok b Hb _ _ Hlow Hhigh (Z.to_nat (n - 1)) 0 dest0 v) as (d & wd & -> & Hu & Hwd & Hwb); [lia | lia | done | done | done |]. orun.
  destruct (put_low b Hb _ Hlow d (n - 1) wd b ltac:(lia) Hu ltac:(nia) Hwd Hwb) as (x & d1 & Ex & Ed & Hu1). rewrite Ex. orun. rewrite Ed. orun.
  destruct (put_high b Hb _ Hhigh d1 (n - 1) 0 wd ltac:(lia) ltac:(lia)) as (y & d2 & Ey & Ed2 & U); [by rewrite Z.sub_add, Z_mod_same_full | exact (upd_ok _ _ _ _ _ Hu1) | exact (upd_words _ _ _ _ _ Hu1) | done | done |]. rewrite Ey. orun. rewrite Ed2.
  exists d2. split; [done |]. replace ((n - 1 + 1) * w) with nbits in Hu1 by lia. eapply upd_trans_down; [| exact Hu1 | exact U]. nia.
Qed.
End Loops.
End Proofs.

(** ** Rings of a rotation

    The indices [base], [base + r], ... modulo [n] form a ring; there are [gcd n r]
    rings, one for each remainder. *)

Section Ring.
Context (n r : Z) (Hn : 0 < n) (Hr : 0 <= r).
Let g := Z.gcd n r.
Let m := n / g.

Definition ring_index (base t : Z) : Z := (base + t * r) mod n.

Lemma ring_facts : 0 < g /\ n = m * g /\ 0 < m /\ exists r', r = r' * g /\ Z.gcd m r' = 1.
Proof using Hn.
  assert (0 < g) as Hg by (pose proof (Z.gcd_nonneg n r); pose proof (Z.gcd_eq_0_l n r); unfold g; lia).
  assert ((g | n)) as [a Ha] by apply Z.gcd_divide_l. assert ((g | r)) as [c Hc] by apply Z.gcd_divide_r.
  assert (m = a) as Em by (unfold m; rewrite Ha; apply Z.div_mul; lia). rewrite Em. split_and!; [done | done | nia |].
  exists c. split; [done |]. pose proof (Z.gcd_div_gcd n r g ltac:(lia) eq_refl) as E. rewrite Ha, Hc, !Z.div_mul in E by lia. done.
Qed.

Lemma ring_index_range base t : 0 <= ring_index base t < n.
Proof using Hn. by apply Z.mod_pos_bound. Qed.

Lemma ring_step base t : (ring_index base t + r) mod n = ring_index base (t + 1).
Proof using Hn. unfold ring_index. rewrite Zplus_mod_idemp_l. f_equal. lia. Qed.

Lemma ring_prev base t : (ring_index base (t + 1) - r) mod n = ring_index base t.
Proof using Hn. unfold ring_index. rewrite Zminus_mod_idemp_l. f_equal. lia. Qed.

Lemma ring_close base : 0 <= base < n -> ring_index base 0 = base /\ ring_index base m = base.
Proof using Hn.
  intros Hb. destruct ring_facts as (Hg & En & Hm & r' & Er & _). unfold ring_index. split; [rewrite Z.add_0_r; by apply Z.mod_small |].
  replace (m * r) with (r' * n) by (rewrite En, Er at 1; ring). rewrite Z.mod_add by lia. by apply Z.mod_small.
Qed.

(** No index comes twice in a ring. *)
Lemma ring_distinct base s t : 0 <= s < t -> t <= m -> ring_index base s = ring_index base t -> s = 0 /\ t = m.
Proof using Hn.
  intros Hs Ht E. destruct ring_facts as (Hg & En & Hm & r' & Er & Hgcd). unfold ring_index in E.
  assert ((n | (t - s) * r)) as [c Hc].
  { apply Z.mod_divide; [lia |]. replace ((t - s) * r) with ((base + t * r) - (base + s * r)) by ring. rewrite Zminus_mod, E, Z.sub_diag. by apply Z.mod_0_l; lia. }
  assert ((m | (t - s) * r')) as Hd by (exists c; rewrite Er in Hc; rewrite En in Hc; nia).
  rewrite Z.mul_comm in Hd. apply Z.gauss in Hd; [| done]. apply Z.divide_pos_le in Hd; lia.
Qed.

Lemma ring_residue base t : ring_index base t mod g = base mod g.
Proof using Hn.
  destruct ring_facts as (Hg & En & Hm & r' & Er & _). unfold ring_index. rewrite (Z.mod_eq (base + t * r) n) by lia. rewrite En at 1. rewrite Er at 1.
  replace (base + t * (r' * g) - m * g * ((base + t * r) / n)) with (base + (t * r' - m * ((base + t * r) / n)) * g) by ring. apply Z.mod_add. lia.
Qed.

(** Every index with the remainder of [base] is in its ring. *)
Lemma ring_covers base x : 0 <= x < n -> x mod g = base mod g -> exists t, 1 <= t <= m /\ x = ring_index base t.
Proof using Hn Hr.
  intros Hx Ex. destruct ring_facts as (Hg & En & Hm & r' & Er & _).
  destruct (Z.gcd_bezout n r g eq_refl) as (a & c & Hbz).
  assert (exists q, x - base = q * g) as [q Hq] by (exists (x / g - base / g); rewrite (Z.div_mod x g), (Z.div_mod base g) at 1 by lia; rewrite Ex; ring).
  set (t := (q * c - 1) mod m + 1). pose proof (Z.mod_pos_bound (q * c - 1) m Hm). exists t. split; [unfold t; lia |]. unfold ring_index.
  assert (exists k, t = q * c + k * m) as [k ->].
  { exists (- ((q * c - 1) / m)). unfold t. pose proof (Z.div_mod (q * c - 1) m ltac:(lia)). nia. }
  rewrite <- (Z.mod_small x n) by done. replace (base + (q * c + k * m) * r) with (x + (k * r' - q * a) * n); [by rewrite Z.mod_add by lia |].
  replace x with (base + q * g) by lia. rewrite <- Hbz. replace ((q * c + k * m) * r) with (q * c * r + k * (r' * n)) by (replace (r' * n) with (m * r) by (rewrite En, Er at 1; ring); ring). ring.
Qed.
End Ring.

Section Rotate.
Context {w : Z} {conv : Z -> Z} {CV : WordConv w conv} {nw : Z} (Hw : word_bits w).
Abbreviation word := (bm_word nw).
Abbreviation bit := (bm_bit w conv nw).
Abbreviation ok := (bm_ok w nw).
Abbreviation upd := (bm_upd w conv nw).

Section Words.
Context (same : bool) (dest0 src : list Z) (n r : Z) (Hn : 0 < n < 2 ^ 31) (Hr : 0 < r < n) (Hok : ok dest0) (Hd : n <= bm_words dest0) (Hsrc : if same then True else ok src /\ n <= bm_words src).
Let g := Z.gcd n r.
Let m := n / g.

(** The words of the source before the operation. *)
Definition sword (x : Z) : Z := word (if same then dest0 else src) x.

(** The words at the indices in [D] have their new values. *)
Record moved (dest : list Z) (D : Z -> Prop) : Prop := {
  mv_ok : ok dest;
  mv_length : length dest = length dest0;
  mv_new : forall x, 0 <= x < n -> D x -> word dest x = sword ((x - r) mod n);
  mv_old : forall x, 0 <= x < bm_words dest0 -> (0 <= x < n -> D x -> False) -> word dest x = word dest0 x }.

Lemma moved_ext dest (D D' : Z -> Prop) : (forall x, 0 <= x < n -> D x <-> D' x) -> moved dest D -> moved dest D'.
Proof. intros E [H1 H2 H3 H4]. constructor; [done | done | intros x Hx HD; apply H3; [done | by apply E] |]. intros x Hx HD. apply H4; [done |]. intros Hx' HD'. apply HD; [done | by apply E]. Qed.

Lemma ld_unmoved dest D x : moved dest D -> 0 <= x < n -> ~ D x -> ld_src same dest src (word_index nw x) = Done (sword x) /\ is_word w (sword x).
Proof using Hd Hsrc.
  clear Hn Hr. intros [Hdk Hl _ Hold] Hx HD. unfold ld_src, sword. destruct same; [| destruct Hsrc as [Hs Hns]; destruct (bm_ld_word src x Hs) as [-> ?]; [lia | done]].
  destruct (bm_ld_word dest x Hdk) as [-> Hv]; [unfold bm_words in *; rewrite Hl; lia |]. rewrite Hold in Hv |- *; [done | lia | tauto | lia | tauto].
Qed.

Lemma st_moved dest D x : moved dest D -> 0 <= x < n -> is_word w (sword ((x - r) mod n)) ->
  exists dest', bm_st dest (word_index nw x) (sword ((x - r) mod n)) = Done dest' /\ moved dest' (fun y => D y \/ y = x).
Proof using Hd.
  clear Hn Hr. intros [Hdk Hl Hnew Hold] Hx Hv. destruct (st_word dest x _ Hdk ltac:(unfold bm_words in *; rewrite Hl; lia) Hv) as (dest' & E & Hk' & Hl' & Hwd). assert (bm_words dest = bm_words dest0) as Hws by (unfold bm_words; by rewrite Hl).
  exists dest'. split; [done |]. constructor; [done | congruence | |].
  - intros y Hy HD. rewrite Hwd by lia. destruct (Z.eqb_spec y x) as [-> | Hne]; [done |]. destruct HD as [HD | ?]; [by apply Hnew | done].
  - intros y Hy HD. rewrite Hwd by lia. destruct (Z.eqb_spec y x) as [-> | Hne]; [exfalso; apply HD; [lia | by right] |]. apply Hold; [done |]. intros H1 H2. apply HD; [done | by left].
Qed.

Definition visited (base t x : Z) : Prop := exists t', 1 <= t' <= t /\ x = ring_index n r base t'.

Lemma sword_ok x : 0 <= x < n -> is_word w (sword x).
Proof using Hok Hd Hsrc. clear m g Hn Hr r. intros Hx. unfold sword. destruct same; [apply (bm_ld_word dest0 x Hok); lia |]. destruct Hsrc as [Hs Hns]. apply (bm_ld_word src x Hs). lia. Qed.

Lemma ring_loop_ok base (D0 : Z -> Prop) : 0 <= base < g -> (forall x, D0 x <-> x mod g < base) -> forall fuel t dest count, 0 <= t < m -> m - t <= Z.of_nat fuel -> m - t <= count < 2 ^ 32 -> moved dest (fun x => D0 x \/ visited base t x) ->
  exists dest', ring_loop fuel same dest src r n nw base (ring_index n r base t) (sword (ring_index n r base t)) count = Done (dest', count - (m - t)) /\ moved dest' (fun x => D0 x \/ visited base m x).
Proof using Hn Hr Hok Hd Hsrc.
  intros Hbase HD0. pose proof (ring_facts n r ltac:(lia)) as (Hg & En & Hm & _). fold g m in Hg, En, Hm. assert (g <= n) as Hgn by nia. assert (base mod g = base) as Hbg by (apply Z.mod_small; lia).
  pose proof (ring_close n r ltac:(lia) base ltac:(lia)) as [Hc0 Hcm]. fold g m in Hcm.
  induction fuel as [| fuel IH]; intros t dest count Ht Hf Hcnt Hmv; [lia |]. cbn [ring_loop].
  pose proof (ring_index_range n r ltac:(lia) base t) as Hrt. rewrite u32_small by lia. rewrite ring_step by lia. set (x := ring_index n r base (t + 1)). pose proof (ring_index_range n r ltac:(lia) base (t + 1)) as Hxr. fold x in Hxr.
  assert (~ (D0 x \/ visited base t x)) as Hnew.
  { intros [HD | (t' & Ht' & Ex)]; [apply HD0 in HD; pose proof (ring_residue n r ltac:(lia) base (t + 1)) as Hres; fold g x in Hres; lia |].
    destruct (ring_distinct n r ltac:(lia) base t' (t + 1)) as [? _]; [lia | fold g m; lia | by rewrite <- Ex | lia]. }
  destruct (ld_unmoved dest _ x Hmv Hxr Hnew) as [-> Hxw]. orun. assert (ring_index n r base t = (x - r) mod n) as Ep by (symmetry; apply ring_prev; lia). rewrite Ep.
  destruct (st_moved dest _ x Hmv Hxr) as (dest1 & -> & Hmv1); [apply sword_ok, Z.mod_pos_bound; lia |]. orun. rewrite u32_small by lia.
  assert (moved dest1 (fun y => D0 y \/ visited base (t + 1) y)) as Hmv2.
  { eapply moved_ext; [| exact Hmv1]. intros y _. split.
    - intros [[? | (t' & ? & ?)] | ->]; [by left | right; exists t'; split; [lia | done] | right; exists (t + 1); split; [lia | done]].
    - intros [? | (t' & ? & ->)]; [left; by left |]. destruct (Z.eq_dec t' (t + 1)) as [-> | ?]; [by right |]. left. right. exists t'. split; [lia | done]. }
  destruct (Z.eqb_spec x base) as [Ex | Ex].
  - assert (t + 1 = m) as Etm. { destruct (ring_distinct n r ltac:(lia) base 0 (t + 1)) as [_ E]; [lia | fold g m; lia | fold x; congruence | exact E]. }
    exists dest1. rewrite <- Etm. split; [do 2 f_equal; lia | done].
  - assert (t + 1 < m) as Htm. { destruct (Z.eq_dec (t + 1) m) as [E | ?]; [| lia]. exfalso. apply Ex. unfold x. rewrite E. exact Hcm. }
    destruct (IH (t + 1) dest1 (count - 1)) as (dest' & E & Hm'); [lia | lia | lia | done |]. exists dest'. split; [| done]. fold x in E. rewrite E. do 2 f_equal. lia.
Qed.

Lemma rotate_words_ok fuel : forall base dest, 0 <= base <= g -> g - base <= Z.of_nat fuel -> moved dest (fun x => x mod g < base) ->
  exists dest', rotate_words fuel same dest src r n nw base (n - base * m) = Done dest' /\ moved dest' (fun _ => True).
Proof using Hn Hr Hok Hd Hsrc.
  pose proof (ring_facts n r ltac:(lia)) as (Hg & En & Hm & _). fold g m in Hg, En, Hm. assert (g <= n /\ m <= n) as [Hgn Hmn] by nia.
  induction fuel as [| fuel IH]; intros base dest Hbase Hf Hmv; cbn [rotate_words].
  - assert (base = g) as -> by lia. destruct (Z.eqb_spec (n - g * m) 0); [| nia]. exists dest. split; [done |]. eapply moved_ext; [| exact Hmv]. intros x _. pose proof (Z.mod_pos_bound x g). split; [done | intros _; lia].
  - destruct (Z.eq_dec base g) as [-> | Hbg]; [destruct (Z.eqb_spec (n - g * m) 0); [| nia]; exists dest; split; [done |]; eapply moved_ext; [| exact Hmv]; intros x _; pose proof (Z.mod_pos_bound x g); split; [done | intros _; lia] |].
    destruct (Z.eqb_spec (n - base * m) 0); [nia |]. assert (base mod g = base) as Ebg by (apply Z.mod_small; lia).
    destruct (ld_unmoved dest _ base Hmv ltac:(lia)) as [-> Hbw]; [lia |]. orun. pose proof (ring_close n r ltac:(lia) base ltac:(lia)) as [Hc0 _].
    destruct (ring_loop_ok base (fun x => x mod g < base) ltac:(lia) ltac:(done) (Z.to_nat n) 0 dest (n - base * m)) as (dest1 & E & Hmv1); [lia | lia | nia | |].
    { eapply moved_ext; [| exact Hmv]. intros x _. split; [by left | intros [? | (t' & ? & _)]; [done | lia]]. }
    rewrite Hc0, Z.sub_0_r in E. rewrite E. orun. replace (n - base * m - m) with (n - (base + 1) * m) by lia. apply IH; [lia | lia |]. eapply moved_ext; [| exact Hmv1]. intros x Hx. split.
    + intros [? | (t' & ? & ->)]; [lia |]. pose proof (ring_residue n r ltac:(lia) base t') as Hres. fold g in Hres. lia.
    + intros H. destruct (Z_lt_ge_dec (x mod g) base) as [? | ?]; [by left |]. right. destruct (ring_covers n r ltac:(lia) ltac:(lia) base x Hx) as (t & Ht & ->); [fold g; lia |]. exists t. split; [exact Ht | done].
Qed.
End Words.

Lemma mod_group a n j : 0 < n -> 0 <= j < w -> (a mod n) * w + j = (a * w + j) mod (n * w).
Proof using Hw.
  intros Hn Hj. pose proof (w_range Hw). pose proof (Z.mod_pos_bound a n Hn). pose proof (Z.div_mod a n ltac:(lia)) as Ea. apply Z.mod_unique_pos with (a / n); [nia |]. rewrite Ea at 1. ring.
Qed.

(** The words that have moved, as bits. *)
Lemma moved_bits same dest0 src n r dest' : 0 < n -> ok dest0 -> n <= bm_words dest0 -> moved same dest0 src n r dest' (fun _ => True) ->
  upd dest0 dest' 0 (n * w) (fun i => bit (if same then dest0 else src) ((i - r * w) mod (n * w))).
Proof using Hw.
  intros Hn Hok Hd [H1 H2 H3 H4]. pose proof (w_range Hw). split_and!; [done | done |]. intros i Hi. set (x := i / w). set (j := i mod w).
  assert (i = x * w + j) as Ei by (unfold x, j; rewrite (Z.mul_comm (i / w)); apply Z.div_mod; lia). assert (0 <= j < w) as Hj by (apply Z.mod_pos_bound; lia). clearbody x j. subst i. assert (0 <= x < bm_words dest0) as Hx by nia.
  destruct (Z.leb_spec 0 (x * w + j)), (Z.ltb_spec (x * w + j) (n * w)); try lia; cbn [andb]; rewrite !(bit_group Hw) by done.
  - replace (x * w + j - r * w) with ((x - r) * w + j) by lia. rewrite <- mod_group, bit_group, H3 by (done || nia). done.
  - rewrite H4; [done | done |]. nia.
Qed.

Lemma upd_over (d0 d1 d2 : list Z) hi g1 g2 : upd d0 d1 0 hi g1 -> upd d1 d2 0 hi g2 -> upd d0 d2 0 hi g2.
Proof.
  intros (Hok1 & Hl1 & H1) (Hok2 & Hl2 & H2). split_and!; [done | congruence |]. intros i Hi. rewrite H2 by (unfold bm_words in *; rewrite Hl1; done). rewrite H1 by done. by destruct ((0 <=? i) && (i <? hi)).
Qed.

Section Whole.
Context (same : bool) (dest0 src : list Z) (nbits n : Z) (Hn : nbits = n * w) (H31 : w * bm_words dest0 < 2 ^ 31) (Hok : ok dest0) (Hnb : nbits <= w * bm_words dest0) (Hsrc : if same then True else ok src /\ nbits <= w * bm_words src).
Abbreviation rbit := (rot_bit (w := w) (conv := conv) (nw := nw) same dest0 src nbits).

Lemma make_rotate_ok rot : 0 < rot < nbits -> exists dest', XDP2_BITMAP_MAKE_ROTATE w conv same dest0 src rot nbits nw = Done dest' /\ upd dest0 dest' 0 nbits (rbit rot).
Proof using CV Hw Hn H31 Hok Hnb Hsrc.
  intros Hrot. pose proof (w_range Hw). unfold XDP2_BITMAP_MAKE_ROTATE. destruct (Z.eqb_spec nbits 0); [lia |]. assert (nbits / w = n) as -> by (rewrite Hn; apply Z.div_mul; lia). assert (0 < n) as Hn0 by nia.
  set (r := rot / w). set (b := rot mod w). assert (rot = r * w + b) as Er by (unfold r, b; rewrite (Z.mul_comm r); apply Z.div_mod; lia). assert (0 <= b < w) as Hb by (apply Z.mod_pos_bound; lia). assert (0 <= r) as Hr0 by (apply Z.div_pos; lia). clearbody r b.
  assert (r < n) as Hrn by nia. assert (n <= bm_words dest0) as Hnd by nia. assert (n < 2 ^ 31) as Hn31 by nia. destruct (Z.eqb_spec b 0) as [-> | Hb0]; orun.
  - destruct (Z.eqb_spec r 0); [lia |]. pose proof (ring_facts n r Hn0) as (Hg & En & Hm & _).
    destruct (rotate_words_ok same dest0 src n r ltac:(lia) ltac:(lia) Hok Hnd) with (fuel := Z.to_nat n) (base := 0) (dest := dest0) as (dest' & E & Hmv); [destruct same; [done | destruct Hsrc; split; [done | nia]] | lia | nia | |].
    { constructor; [done | done | | done]. intros x Hx HD. pose proof (Z.mod_pos_bound x (Z.gcd n r) Hg). lia. }
    rewrite Z.mul_0_l, Z.sub_0_r in E. exists dest'. split; [done |]. rewrite Hn. eapply upd_ext; [| exact (moved_bits _ _ _ _ _ _ Hn0 Hok Hnd Hmv)]. intros i _ _. unfold rot_bit, sbit. by rewrite Er, Z.add_0_r.
  - destruct (rotate_bits_ok Hw same dest0 src nbits Hnb Hsrc n Hn Hok b ltac:(lia) Hn0) as (d1 & -> & Hu1). orun. destruct (Z.eqb_spec r 0) as [-> | Hr]; [exists d1; by replace rot with b by lia |].
    pose proof (upd_words _ _ _ _ _ Hu1) as Hws. pose proof (upd_ok _ _ _ _ _ Hu1) as Hok1. pose proof (ring_facts n r Hn0) as (Hg & En & Hm & _).
    destruct (rotate_words_ok true d1 src n r ltac:(lia) ltac:(lia) Hok1 ltac:(lia) ltac:(done)) with (fuel := Z.to_nat n) (base := 0) (dest := d1) as (dest' & E & Hmv); [lia | nia | |].
    { constructor; [done | done | | done]. intros x Hx HD. pose proof (Z.mod_pos_bound x (Z.gcd n r) Hg). lia. }
    rewrite Z.mul_0_l, Z.sub_0_r in E. exists dest'. split; [done |]. pose proof (moved_bits true d1 src n r dest' Hn0 Hok1 ltac:(lia) Hmv) as Hu2. rewrite <- Hn in Hu2. eapply upd_ext; [| exact (upd_over _ _ _ _ _ _ Hu1 Hu2)].
    intros i Hi _. pose proof (Z.mod_pos_bound (i - r * w) nbits ltac:(lia)) as Hx. destruct Hu1 as (_ & _ & Hb1). cbn beta iota. rewrite Hb1 by lia.
    destruct (Z.leb_spec 0 ((i - r * w) mod nbits)), (Z.ltb_spec ((i - r * w) mod nbits) nbits); try lia. cbn [andb]. unfold rot_bit. f_equal. rewrite Zminus_mod_idemp_l. f_equal. lia.
Qed.

Lemma rol_bits v r : is_word w v -> 0 < r < w -> exists x, xdp2_bitmap_word_rol_n w v r = Done x /\ is_word w x /\ forall j, 0 <= j < w -> Z.testbit x j = Z.testbit v ((j - r) mod w).
Proof using Hw.
  clear - Hw. intros Hv Hr. pose proof (w_range Hw). pose proof (promoted_range Hw). unfold xdp2_bitmap_word_rol_n, p_shl, c_shl, c_shr. rewrite u32_small by lia.
  destruct (Z.leb_spec 0 r), (Z.ltb_spec r (promoted w)), (Z.leb_spec 0 (w - r)), (Z.ltb_spec (w - r) (promoted w)); try lia. cbn [andb]. orun.
  assert ((w <? 32) && (2 ^ 31 <=? Z.shiftl v r) = false) as ->.
  { destruct (Z.ltb_spec w 32); [| done]. apply Z.leb_gt. rewrite Z.shiftl_mul_pow2 by lia. assert (w = 8 \/ w = 16) as Hw16 by (unfold word_bits in Hw; lia). assert (2 ^ r <= 2 ^ 15) by (apply Z.pow_le_mono_r; lia). assert (v < 2 ^ 16) by (unfold is_word in Hv; destruct Hw16 as [-> | ->]; lia). unfold is_word in Hv. nia. }
  orun. eexists. split; [done |]. split; [apply trunc_word; lia |]. intros j Hj. rewrite testbit_trunc, Z.lor_spec, testbit_trunc, Z.shiftl_spec, Z.shiftr_spec by lia.
  destruct (Z.ltb_spec j w), (Z.ltb_spec j (promoted w)); try lia. cbn [andb]. destruct (Z.leb_spec r j).
  - rewrite (word_testbit_high w v (j + (w - r))), orb_false_r by (done || lia). by rewrite (Z.mod_small (j - r)) by lia.
  - rewrite (Z.testbit_neg_r v (j - r)), orb_false_l by lia. f_equal. apply Z.mod_unique_pos with (-1); lia.
Qed.

Lemma rotate_left_ok rot : 0 <= n -> 0 <= rot -> nw = 0 \/ nw = bm_words dest0 -> exists dest', xdp2_bitmap_rotate_gen_left w conv same dest0 src rot nbits nw = Done dest' /\ upd dest0 dest' 0 nbits (rbit rot).
Proof using CV Hw Hn H31 Hok Hnb Hsrc.
  intros Hn0 Hrot Hnw. pose proof (w_range Hw). unfold xdp2_bitmap_rotate_gen_left. destruct (Z.eqb_spec nbits 0) as [-> | Hne]; [exists dest0; split; [done | by apply upd_refl] |].
  assert (nbits mod w = 0) as -> by (rewrite Hn; apply Z.mod_mul; lia). cbn [negb Z.eqb]. assert (nbits / w = n) as -> by (rewrite Hn; apply Z.div_mul; lia). assert (0 < n) as Hnp by nia.
  set (r := rot mod nbits). assert (0 <= r < nbits) as Hr by (apply Z.mod_pos_bound; lia).
  assert (forall i, rbit r i = rbit rot i) as Hrr by (intros i; unfold rot_bit, r; by rewrite Zminus_mod_idemp_r).
  assert (forall dest', upd dest0 dest' 0 nbits (rbit r) -> upd dest0 dest' 0 nbits (rbit rot)) as Hext by (intros dest'; apply upd_ext; done).
  clearbody r. destruct (Z.eqb_spec r 0) as [-> | Hr0]; [| destruct (Z.eqb_spec nbits w) as [Ew | Hnew]].
  - destruct same eqn:Es; [exists dest0; split; [done |]; apply Hext; split_and!; [done | done |]; intros i Hi; destruct (Z.leb_spec 0 i), (Z.ltb_spec i nbits); try done; cbn [andb]; unfold rot_bit, sbit; by rewrite Z.sub_0_r, Z.mod_small by lia |].
    assert (exists dest', copy_words (Z.to_nat n) false dest0 src 1 (if nw =? 0 then 0 else u32 (nw - n)) (if nw =? 0 then 0 else u32 (nw - n)) = Done dest' /\ upd dest0 dest'.1 0 nbits (rot_bit (w := w) (conv := conv) (nw := nw) false dest0 src nbits 0)) as (dest' & -> & Hu).
    { destruct (Z.eqb_spec nw 0) as [E0 | E0].
      - destruct (copy_up Hw false dest0 src nbits Hnb Hsrc 0 (Z.to_nat n) dest0 0) as (d & E & Hd); [lia | lia | nia | by apply upd_refl |]. unfold word_index, dir in E. rewrite E0 in E. cbn in E. eexists. split; [exact E |]. cbn [fst].
        rewrite Z2Nat.id in Hd by lia. rewrite Hn. eapply upd_ext; [| exact Hd]. intros i Hi _. unfold shr_bit, rot_bit. rewrite Z.mul_0_l, Z.add_0_r, Z.sub_0_r, Hn, Z.mod_small by lia. destruct (Z.ltb_spec i (n * w)); [done | lia].
      - destruct Hnw as [? | Hnw]; [done |]. destruct (copy_down Hw false dest0 src nbits Hnb Hsrc 0 (Z.to_nat n) dest0 n) as (d & E & Hd); [lia | lia | lia | rewrite <- Hn; by apply upd_refl |].
        unfold word_index, dir in E. destruct (Z.eqb_spec nw 0); [done |]. rewrite u32_small by nia. replace (nw - 1 - (n - 1)) with (nw - n) in E by lia. replace (nw - 1 - (n - 1 - 0)) with (nw - n) in E by lia. change (- -1) with 1 in E. eexists. split; [exact E |]. cbn [fst].
        rewrite Z2Nat.id, Z.sub_diag in Hd by lia. eapply upd_ext; [| exact Hd]. intros i Hi _. unfold shl_bit, rot_bit. rewrite Z.mul_0_l, Z.sub_0_r, Z.mod_small by lia. destruct (Z.leb_spec 0 i); [done | lia]. }
    destruct dest' as [d di]. orun. exists d. split; [done | by apply Hext].
  - assert (n = 1) as -> by nia. destruct (ld_kept Hw same dest0 src nbits Hnb Hsrc dest0 0 0 (rbit r) 0) as (v & -> & Hv & Hvb); [by apply upd_refl | right; lia | lia | lia |]. orun.
    destruct (rol_bits (conv v) r (conv_word _ Hv) ltac:(lia)) as (x & -> & Hx & Hxb). orun. destruct (st_up (nw := nw) Hw dest0 nbits Hnb dest0 0 (conv x) (rbit r)) as (dest' & -> & Hu); [by apply upd_refl | lia | lia | by apply conv_word | |].
    { intros j Hj. rewrite conv_conv, Hxb by done. rewrite Hvb by (apply Z.mod_pos_bound; lia). unfold rot_bit. rewrite Ew. done. }
    exists dest'. split; [done |]. apply Hext. by replace ((0 + 1) * w) with nbits in Hu by lia.
  - destruct (make_rotate_ok r ltac:(lia)) as (dest' & E & Hu). exists dest'. split; [done | by apply Hext].
Qed.
End Whole.
End Rotate.

(** ** The functions *)

(** C28: shifts and rotations move the bits. For every word size, byte order and
    word order, a size that is a multiple of the word size, and whether or not the
    destination is the source, the shift functions store every bit [amount]
    positions higher or lower and zeroes where no bit comes from, for amounts up to
    the size; the rotate functions store it [amount] positions higher, for every
    amount, or lower, for amounts up to the size, modulo the size; bits above the
    size are not changed and no access is outside of the arrays. *)
Theorem bitmap_shift_rotate w conv {CV : WordConv w conv} nw (same : bool) dest src amount nbits :
  word_bits w -> bm_ok w nw dest -> w * bm_words dest < 2 ^ 31 -> nbits <= w * bm_words dest -> (if same then src = dest else bm_ok w nw src /\ nbits <= w * bm_words src) ->
  0 <= nbits -> nbits mod w = 0 -> 0 <= amount ->
  (amount <= nbits -> exists d, xdp2_bitmap_shift_gen_left w conv same dest src amount nbits nw = Done d /\
     bm_upd w conv nw dest d 0 nbits (fun i => (amount <=? i) && bm_bit w conv nw src (i - amount))) /\
  (amount <= nbits -> exists d, xdp2_bitmap_shift_gen_right w conv same dest src amount nbits nw = Done d /\
     bm_upd w conv nw dest d 0 nbits (fun i => (i + amount <? nbits) && bm_bit w conv nw src (i + amount))) /\
  (exists d, xdp2_bitmap_rotate_gen_left w conv same dest src amount nbits nw = Done d /\
     bm_upd w conv nw dest d 0 nbits (fun i => bm_bit w conv nw src ((i - amount) mod nbits))) /\
  (amount <= nbits -> exists d, xdp2_bitmap_rotate_gen_left w conv same dest src (u32 (nbits - amount)) nbits nw = Done d /\
     bm_upd w conv nw dest d 0 nbits (fun i => bm_bit w conv nw src ((i + amount) mod nbits))).
Proof.
  intros Hw Hok H31 Hnb Hsrc Hnb0 Hmod Hamt. pose proof (w_range Hw). pose proof (proj2 Hok) as Hnw. set (n := nbits / w). assert (nbits = n * w) as Hn by (unfold n; rewrite Z.mul_comm; apply Z.div_exact; lia). assert (0 <= n) as Hn0 by (apply Z.div_pos; lia).
  assert (if same then True else bm_ok w nw src /\ nbits <= w * bm_words src) as Hsrc' by (by destruct same). assert ((if same then dest else src) = src) as Esrc by (by destruct same).
  assert (shift_num_words w nw = nw) as Enw.
  { unfold shift_num_words. destruct (Z.eqb_spec nw 0) as [-> | ?]; [done |]. destruct Hnw as [? | ->]; [done |]. assert (exists a, w = 8 * a) as [a Ea] by (destruct Hw as [-> | [-> | [-> | ->]]]; [by exists 1 | by exists 2 | by exists 4 | by exists 8]).
    assert (0 <= bm_words dest) by (unfold bm_words; lia). rewrite (u32_small (bm_words dest * w)) by lia. replace (bm_words dest * w) with (bm_words dest * a * 8) by lia. rewrite Z.div_mul by lia. rewrite u32_small by nia. replace (8 * (bm_words dest * a)) with (bm_words dest * w) by lia. apply Z.div_mul. lia. }
  unfold xdp2_bitmap_shift_gen_left, xdp2_bitmap_shift_gen_right. rewrite Hmod, Enw. cbn [negb Z.eqb]. split_and!.
  - intros Ha. destruct (shift_left_ok Hw same dest src nbits Hnb Hsrc' n Hn ltac:(lia) Hok amount Hn0 ltac:(lia)) as (d & E & Hu). exists d. split; [done |]. unfold shl_bit, sbit in Hu. by rewrite Esrc in Hu.
  - intros Ha. destruct (shift_right_ok Hw same dest src nbits Hnb Hsrc' n Hn ltac:(lia) Hok amount Hn0 ltac:(lia) ltac:(lia)) as (d & E & Hu). exists d. split; [done |]. unfold shr_bit, sbit in Hu. by rewrite Esrc in Hu.
  - destruct (rotate_left_ok Hw same dest src nbits n Hn H31 Hok Hnb Hsrc' amount Hn0 Hamt Hnw) as (d & E & Hu). exists d. split; [done |]. unfold rot_bit, sbit in Hu. by rewrite Esrc in Hu.
  - intros Ha. rewrite u32_small by lia. destruct (rotate_left_ok Hw same dest src nbits n Hn H31 Hok Hnb Hsrc' (nbits - amount) Hn0 ltac:(lia) Hnw) as (d & E & Hu). exists d. split; [done |]. unfold rot_bit, sbit in Hu. rewrite Esrc in Hu.
    eapply upd_ext; [| exact Hu]. intros i Hi _. cbn beta. f_equal. replace (i - (nbits - amount)) with (i + amount + (-1) * nbits) by lia. apply Z.mod_add. lia.
Qed.

(** Five 16-bit words in network order, rotated by two words and three bits in place. *)
Lemma bitmap_shift_rotate_witness : exists d, xdp2_bitmap_rotate_gen_left 16 bswap16 true [0x0100; 0x0200; 0x0300; 0x0400; 0x0500] [0x0100; 0x0200; 0x0300; 0x0400; 0x0500] 35 80 0 = Done d /\
  bm_upd 16 bswap16 0 [0x0100; 0x0200; 0x0300; 0x0400; 0x0500] d 0 80 (fun i => bm_bit 16 bswap16 0 [0x0100; 0x0200; 0x0300; 0x0400; 0x0500] ((i - 35) mod 80)).
Proof.
  apply (bitmap_shift_rotate 16 bswap16 0 true [0x0100; 0x0200; 0x0300; 0x0400; 0x0500] [0x0100; 0x0200; 0x0300; 0x0400; 0x0500] 35 80).
  - right. left. reflexivity.
  - split; [| by left]. repeat (constructor; [unfold is_word; lia |]). constructor.
  - reflexivity.
  - unfold bm_words. simpl. lia.
  - reflexivity.
  - lia.
  - reflexivity.
  - lia.
Defined.

(** A rotation to the right by more than the size is a rotation by another amount when
    the size is not a power of two. *)
Example rotate_right_wraps : xdp2_bitmap_destsrc_rotate_right 32 (fun v => v) [1; 0; 0] 97 96 = Done [0; 2 ^ 31; 0].
Proof. vm_compute. reflexivity. Qed.
