(* ===== verification/BitmapGen.v ===== *)
(** * Bitmaps: operations with a position per argument

    The [_gen] functions of [include/xdp2/bitmap_helpers.h], made from
    [__XDP2_BITMAP_2ARG_GEN] and [__XDP2_BITMAP_3ARG_GEN]: every argument has its own
    start position, so that words of the sources are put together from two words. *)

From stdpp Require Import base list numbers.
From S2P Require Import Prelude BitmapWord BitmapWordSpec Bitmap BitmapSpec BitmapOps BitmapTwo BitmapShift.

(** A source during the loop over whole words: the pointer [_src], the shift
    [_left_shift], the mask [_mask_left_src] and the bits [_v_src_left] that are left
    of the previous word. *)
Record gen_src := GenSrc { gs_src : Z; gs_shift : Z; gs_mask : Z; gs_left : Z }.

Section Code.
Context (w : Z) (conv : Z -> Z) (nw : Z).
Abbreviation convert := (XDP2_BITMAP_SHIFT_CONVERT w conv).

(** The value for a first partial word of the destination, with the source pointer and
    position after it. *)
Definition XDP2_BITMAP_HANDLE_DEST_MOD (need dmod : Z) (sdir : Z) (src : list Z) (si smod : Z) : outcome (Z * Z * Z) :=
  if dmod =? smod then
    v ← bm_ld src si; mret (v, si + sdir, 0)
  else if smod <? dmod then
    v ← bm_ld src si; x ← convert true v (dmod - smod); mret (x, si, smod + need)
  else
    let need_left := Z.min (w - smod) need in
    v ← bm_ld src si; x ← convert false v (smod - dmod);
    u ← bm_ld src (si + sdir); y ← convert true u (dmod + need_left);
    mret (Z.lor x y, si + sdir, need - need_left).

(** Before the loop, [n] bits being left. *)
Definition gen_start (sdir : Z) (src : list Z) (si smod n : Z) : outcome gen_src :=
  if smod =? 0 then v ← bm_ld src si; mret (GenSrc si 0 0 v) else
  m ← XDP2_BITMAP_HIGH_MASK w smod;
  let mask := conv (trunc w m) in
  v ← bm_ld src si; x ← convert false (Z.land v mask) smod;
  mret (GenSrc (if w <? n + smod then si + sdir else si) smod mask x).

(** [_val] of the [i]-th word, and what is kept for the next one. *)
Definition gen_value (sdir : Z) (src : list Z) (g : gen_src) (i : Z) : outcome Z :=
  v ← bm_ld src (gs_src g + sdir * i);
  let right_shift := w - gs_shift g in
  x ← (if right_shift <? w then convert true (Z.land v (trunc w (Z.lnot (gs_mask g)))) right_shift else mret v);
  mret (Z.lor (gs_left g) x).
Definition gen_next (sdir : Z) (src : list Z) (g : gen_src) (i : Z) : outcome gen_src :=
  v ← bm_ld src (gs_src g + sdir * i);
  x ← convert false (Z.land v (gs_mask g)) (gs_shift g);
  mret (GenSrc (gs_src g) (gs_shift g) (gs_mask g) x).

(** What both macros do with a word of the destination: [result] gives [_res] from it. *)
Definition gen_put (md : mode2) (dest : list Z) (didx : Z) (result : Z -> outcome Z) (mask adder ret : Z) : outcome (list Z * Z * bool) :=
  d ← bm_ld dest didx;
  x ← result d;
  let res := Z.land (trunc w x) mask in
  match md with
  | MCompare =>
    match XDP2_BITMAP_DO_COMPARE w (conv res) adder with
    | Some r => mret (dest, r, true)
    | None => mret (dest, ret, false)
    end
  | MWrite t =>
    dest' ← bm_st dest didx (Z.lor res (Z.land d (trunc w (Z.lnot mask))));
    mret (dest', XDP2_BITMAP_HANDLE_TEST t ret res mask, false)
  end.

(** The loop over whole words and the leftover, on the state [S] of the sources. *)
Section Loop.
Context {S : Type} (result : S -> Z -> Z -> outcome Z) (next : S -> Z -> outcome S).

Fixpoint gen_whole (k : nat) (md : mode2) (dest : list Z) (st : S) (di i adder ret : Z) : outcome (list Z * S * Z * bool) :=
  match k with
  | O => mret (dest, st, ret, false)
  | Datatypes.S k =>
    d ← bm_ld dest (di + dir nw * i);
    x ← result st i d;
    let res := trunc w x in
    match md with
    | MCompare =>
      match XDP2_BITMAP_DO_COMPARE w (conv res) (adder + i * w) with
      | Some r => mret (dest, st, r, true)
      | None => st ← next st i; gen_whole k md dest st di (i + 1) adder ret
      end
    | MWrite t =>
      dest ← bm_st dest (di + dir nw * i) res;
      st ← next st i;
      gen_whole k md dest st di (i + 1) adder (XDP2_BITMAP_HANDLE_TEST t ret res (XDP2_BITMAP_1S w))
    end
  end.

Definition gen_words (md : mode2) (dest : list Z) (st : S) (di adder nbits n ret : Z) : outcome (list Z * Z) :=
  let cnt := n / w in
  '(dest, st, ret, found) ← gen_whole (Z.to_nat cnt) md dest st di 0 adder ret;
  let n := if found : bool then 0 else n mod w in
  if n =? 0 then mret (dest, ret) else
  m ← XDP2_BITMAP_LOW_MASK w n;
  '(dest, ret, _) ← gen_put md dest (di + dir nw * cnt) (result st cnt) (conv (trunc w m)) (nbits - n) ret;
  mret (dest, ret).
End Loop.

(** ** Two arguments *)

Definition gen_words2 (f : bm_fun) (md : mode2) (sdir : Z) (dest src : list Z) (di si smod adder nbits n ret : Z) : outcome (list Z * Z) :=
  g ← gen_start sdir src si smod n;
  gen_words (fun g i d => v ← gen_value sdir src g i; mret (XDP2_BITMAP_VALUE f v d)) (gen_next sdir src) md dest g di adder nbits n ret.

Definition XDP2_BITMAP_2ARG_GEN (f : bm_fun) (md : mode2) (wsrc : bool) (dest : list Z) (dest_pos : Z) (src : list Z) (src_pos nbits ret : Z) : outcome (list Z * Z) :=
  let dmod := dest_pos mod w in
  let smod := src_pos mod w in
  let sdir := if wsrc then 0 else dir nw in
  let n := u32 (nbits - dest_pos) in
  let si := if wsrc then 0 else word_index nw (src_pos / w) in
  let di := word_index nw (dest_pos / w) in
  if dmod =? 0 then gen_words2 f md sdir dest src di si smod dest_pos nbits n ret else
  let need := Z.min (w - dmod) n in
  '(v, si, smod) ← XDP2_BITMAP_HANDLE_DEST_MOD need dmod sdir src si smod;
  m ← XDP2_BITMAP_MASK w dmod need;
  '(dest, ret, found) ← gen_put md dest di (fun d => mret (XDP2_BITMAP_VALUE f v d)) (conv (trunc w m)) (dest_pos - dmod) ret;
  if found : bool then mret (dest, ret) else
  let n := n - need in
  if n =? 0 then mret (dest, ret) else
  gen_words2 f md sdir dest src (di + dir nw) si smod (dest_pos + need) nbits n ret.

Definition bitmap_2arg_gen_funct (f : bm_fun) (wsrc : bool) (dest : list Z) (dest_pos : Z) (src : list Z) (src_pos nbits : Z) : outcome (list Z) :=
  '(d, _) ← XDP2_BITMAP_2ARG_GEN f (MWrite TEST_NONE) wsrc dest dest_pos src src_pos nbits 0; mret d.
Definition bitmap_2arg_gen_test_funct (f : bm_fun) (wsrc : bool) (dest : list Z) (dest_pos : Z) (src : list Z) (src_pos nbits : Z) (t : bm_test) : outcome (list Z * Z) :=
  XDP2_BITMAP_2ARG_GEN f (MWrite t) wsrc dest dest_pos src src_pos nbits 0.
Definition bitmap_2arg_cmp_gen_funct (o : binop) (nt : bool) (src1 : list Z) (src1_pos : Z) (src2 : list Z) (src2_pos nbits : Z) : outcome Z :=
  '(_, r) ← XDP2_BITMAP_2ARG_GEN (BmFun true o nt false false) MCompare false src1 src1_pos src2 src2_pos nbits nbits; mret r.

(** ** Three arguments *)

Definition gen_words3 (f : bm_fun) (t : bm_test) (sdir : Z) (dest src1 src2 : list Z) (di s1 s2 smod1 smod2 nbits n ret : Z) : outcome (list Z * Z) :=
  g1 ← gen_start sdir src1 s1 smod1 n;
  g2 ← gen_start (dir nw) src2 s2 smod2 n;
  gen_words (fun '(g1, g2) i _ => a ← gen_value sdir src1 g1 i; b ← gen_value (dir nw) src2 g2 i; mret (XDP2_BITMAP_VALUE2 f a b))
    (fun '(g1, g2) i => g1 ← gen_next sdir src1 g1 i; g2 ← gen_next (dir nw) src2 g2 i; mret (g1, g2)) (MWrite t) dest (g1, g2) di 0 nbits n ret.

Definition XDP2_BITMAP_3ARG_GEN (f : bm_fun) (t : bm_test) (wsrc : bool) (dest : list Z) (dest_pos : Z) (src1 : list Z) (src1_pos : Z) (src2 : list Z) (src2_pos nbits ret : Z) : outcome (list Z * Z) :=
  let dmod := dest_pos mod w in
  let smod1 := src1_pos mod w in
  let smod2 := src2_pos mod w in
  let sdir := if wsrc then 0 else dir nw in
  let n := u32 (nbits - dest_pos) in
  let s1 := if wsrc then 0 else word_index nw (src1_pos / w) in
  let s2 := word_index nw (src2_pos / w) in
  let di := word_index nw (dest_pos / w) in
  if dmod =? 0 then gen_words3 f t sdir dest src1 src2 di s1 s2 smod1 smod2 nbits n ret else
  let need := Z.min (w - dmod) n in
  '(a, s1, smod1) ← XDP2_BITMAP_HANDLE_DEST_MOD need dmod sdir src1 s1 smod1;
  '(b, s2, smod2) ← XDP2_BITMAP_HANDLE_DEST_MOD need dmod (dir nw) src2 s2 smod2;
  m ← XDP2_BITMAP_MASK w dmod need;
  '(dest, ret, _) ← gen_put (MWrite t) dest di (fun _ => mret (XDP2_BITMAP_VALUE2 f a b)) (conv (trunc w m)) 0 ret;
  let n := n - need in
  if n =? 0 then mret (dest, ret) else
  gen_words3 f t sdir dest src1 src2 (di + dir nw) s1 s2 smod1 smod2 nbits n ret.

Definition bitmap_3arg_gen_funct (f : bm_fun) (wsrc : bool) (dest : list Z) (dest_pos : Z) (src1 : list Z) (src1_pos : Z) (src2 : list Z) (src2_pos nbits : Z) : outcome (list Z) :=
  '(d, _) ← XDP2_BITMAP_3ARG_GEN f TEST_NONE wsrc dest dest_pos src1 src1_pos src2 src2_pos nbits 0; mret d.
Definition bitmap_3arg_test_gen_funct (f : bm_fun) (wsrc : bool) (dest : list Z) (dest_pos : Z) (src1 : list Z) (src1_pos : Z) (src2 : list Z) (src2_pos nbits : Z) (t : bm_test) : outcome (list Z * Z) :=
  XDP2_BITMAP_3ARG_GEN f t wsrc dest dest_pos src1 src1_pos src2 src2_pos nbits 0.

(** The functions of [bitmap.h] made from them. *)
Definition xdp2_bitmap_copy_gen := bitmap_2arg_gen_funct (BmFun false BAnd false false false).
Definition xdp2_bitmap_not_gen := bitmap_2arg_gen_funct (BmFun false BAnd false true false).
Definition xdp2_bitmap_cmp_gen := bitmap_2arg_cmp_gen_funct BXor false.
Definition xdp2_bitmap_first_and_gen := bitmap_2arg_cmp_gen_funct BAnd false.
Definition xdp2_bitmap_first_or_gen := bitmap_2arg_cmp_gen_funct BOr false.
Definition xdp2_bitmap_first_and_zero_gen := bitmap_2arg_cmp_gen_funct BOr true.
Definition xdp2_bitmap_first_or_zero_gen := bitmap_2arg_cmp_gen_funct BAnd true.
(** The twelve boolean operations, named by [destsrc_fun]. *)
Definition xdp2_bitmap_destsrc_gen (o : binop) (nt s2 : bool) := bitmap_2arg_gen_funct (destsrc_fun o nt s2).
Definition xdp2_bitmap_destsrc_test_gen (o : binop) (nt s2 : bool) := bitmap_2arg_gen_test_funct (destsrc_fun o nt s2).
Definition xdp2_bitmap_op_gen (o : binop) (nt s2 : bool) := bitmap_3arg_gen_funct (destsrc_fun o nt s2).
Definition xdp2_bitmap_op_test_gen (o : binop) (nt s2 : bool) := bitmap_3arg_test_gen_funct (destsrc_fun o nt s2).
End Code.

Example ex_copy_gen : xdp2_bitmap_copy_gen 8 (fun v => v) 0 false [0xff; 0xff; 0xff] 4 [0x21; 0x43; 0x65; 0] 8 20 = Done [0x3f; 0x54; 0xf6].
Proof. vm_compute. reflexivity. Qed.
Example ex_cmp_gen : xdp2_bitmap_cmp_gen 8 (fun v => v) 0 [0x10; 0x32; 0x54] 4 [0x21; 0x53; 0] 0 20 = Done 16.
Proof. vm_compute. reflexivity. Qed.

(** ** The source *)

Section Source.
Context {w : Z} {conv : Z -> Z} {CV : WordConv w conv} {nw : Z} (Hw : word_bits w).
Context (wsrc : bool) (src : list Z).
Abbreviation sbit := (src_bit (w := w) (conv := conv) (nw := nw) wsrc src).
Abbreviation readable := (src_ok (w := w) (nw := nw) wsrc src).
Abbreviation sword := (src_word (nw := nw) wsrc src).
Abbreviation sidx := (src_index (nw := nw) wsrc).
Abbreviation sdir := (src_dir (nw := nw) wsrc).

Lemma src_bit_split p : 0 <= p -> sbit p = Z.testbit (conv (sword (p / w))) (p mod w).
Proof using Type. done. Qed.

(** A bit [j] behind position [p], in its word or in the next one. *)
Lemma src_bit_near p j : 0 <= p -> 0 <= p mod w + j < 2 * w ->
  sbit (p + j) = if p mod w + j <? w then Z.testbit (conv (sword (p / w))) (p mod w + j) else Z.testbit (conv (sword (p / w + 1))) (p mod w + j - w).
Proof using Hw.
  intros Hp Hj. pose proof (w_range Hw). pose proof (Z.div_mod p w ltac:(lia)) as D. destruct (Z.ltb_spec (p mod w + j) w).
  - rewrite <- src_bit_group by (done || lia). f_equal. lia.
  - rewrite <- src_bit_group by (done || lia). f_equal. lia.
Qed.

Lemma sidx_next k : sidx k + sdir = sidx (k + 1).
Proof using Type. rewrite <- src_index_step. lia. Qed.

Lemma readable_le a b : readable b -> a <= b -> readable a.
Proof using Type. destruct wsrc; simpl; [done |]. intros [Hok Hb] Ha. split; [done | lia]. Qed.

(** How far the source is read for [n] bits from [p] on: one word more unless the
    positions agree in their words. *)
Definition reach (dmod p n : Z) : Z := p + Z.max 1 n + (if p mod w =? dmod then 0 else w).

Lemma mod_shift p q : 0 <= q < w -> (p + (q - p mod w)) mod w = q.
Proof using Hw.
  intros Hq. pose proof (w_range Hw). rewrite (Z.div_mod p w) at 1 by lia. replace (w * (p / w) + p mod w + (q - p mod w)) with (q + p / w * w) by lia.
  rewrite Z.mod_add by lia. by apply Z.mod_small.
Qed.
Lemma div_shift p q : 0 <= q < w -> (p + (q - p mod w)) / w = p / w.
Proof using Hw.
  intros Hq. pose proof (w_range Hw). rewrite (Z.div_mod p w) at 1 by lia. replace (w * (p / w) + p mod w + (q - p mod w)) with (q + p / w * w) by lia.
  rewrite Z.div_add by lia. rewrite Z.div_small by done. lia.
Qed.

Lemma handle_dest_mod_ok dmod p n : 0 <= p -> 0 < dmod < w -> 0 <= n -> readable (reach dmod p n) ->
  let need := Z.min (w - dmod) n in
  exists v si smod, XDP2_BITMAP_HANDLE_DEST_MOD w conv need dmod sdir src (sidx (p / w)) (p mod w) = Done (v, si, smod) /\ is_word w v /\
    (forall j, dmod <= j < dmod + need -> Z.testbit (conv v) j = sbit (p + (j - dmod))) /\
    (need < n -> si = sidx ((p + need) / w) /\ smod = (p + need) mod w).
Proof using CV Hw.
  intros Hp Hd Hn Hr need. pose proof (w_range Hw). pose proof (Z.mod_pos_bound p w ltac:(lia)) as Hm. pose proof (Z.div_mod p w ltac:(lia)) as D. pose proof (Z.div_pos p w ltac:(lia) ltac:(lia)).
  unfold XDP2_BITMAP_HANDLE_DEST_MOD. unfold reach in Hr.
  destruct (src_ld Hw wsrc src _ (p / w) Hr) as [Ev Hv]; [lia | destruct (_ =? _); lia |]. rewrite Ev. rewrite sidx_next.
  destruct (Z.eqb_spec dmod (p mod w)) as [Em | Em].
  { orun. do 3 eexists. split; [done |]. split; [done |]. split.
    - intros j Hj. rewrite src_bit_near by lia. destruct (Z.ltb_spec (p mod w + (j - dmod)) w); [| lia]. f_equal. lia.
    - intros Hlt. replace (p + need) with ((p / w + 1) * w) by lia. by rewrite Z.div_mul, Z.mod_mul by lia. }
  destruct (Z.ltb_spec (p mod w) dmod).
  - orun. destruct (convert_left Hw (sword (p / w)) (dmod - p mod w) Hv ltac:(lia)) as (x & -> & Hx & Hb). orun. do 3 eexists. split; [done |]. split; [done |]. split.
    + intros j Hj. rewrite Hb by lia. rewrite src_bit_near by lia. destruct (Z.leb_spec (dmod - p mod w) j), (Z.ltb_spec (p mod w + (j - dmod)) w); try lia. cbn [andb]. f_equal. lia.
    + intros Hlt. pose proof (mod_shift p (p mod w + need) ltac:(lia)) as E1. pose proof (div_shift p (p mod w + need) ltac:(lia)) as E2. replace (p + (p mod w + need - p mod w)) with (p + need) in E1, E2 by lia. by rewrite E1, E2.
  - orun. destruct (convert_right Hw (sword (p / w)) (p mod w - dmod) Hv ltac:(lia)) as (x & -> & Hx & Hxb). orun.
    destruct (src_ld Hw wsrc src _ (p / w + 1) Hr) as [-> Hu]; [lia | destruct (Z.eqb_spec (p mod w) dmod); lia |]. orun. set (nl := Z.min (w - p mod w) need).
    destruct (convert_left Hw (sword (p / w + 1)) (dmod + nl) Hu ltac:(lia)) as (y & -> & Hy & Hyb). orun. do 3 eexists. split; [done |]. split; [by apply is_word_lor; first [lia | done] |]. split.
    + intros j Hj. rewrite convert_lor by first [done | lia]. rewrite Hxb, Hyb by lia. rewrite src_bit_near by lia.
      destruct (Z.ltb_spec (j + (p mod w - dmod)) w), (Z.leb_spec (dmod + nl) j), (Z.ltb_spec (p mod w + (j - dmod)) w); try lia; cbn [andb orb]; rewrite ?orb_false_r; f_equal; lia.
    + intros Hlt. assert (nl = w - p mod w) as -> by lia. replace (p + need) with (need - (w - p mod w) + (p / w + 1) * w) by lia. rewrite Z.div_add, Z.mod_add by lia. rewrite (Z.div_small (need - (w - p mod w))), (Z.mod_small (need - (w - p mod w))) by lia. done.
Qed.

(** The state of the source before the [i]-th word of the [n] bits from [p] on. The
    pointer does not move when the first word holds all of them. *)
Definition gen_inv (p n : Z) (g : gen_src) (i : Z) : Prop :=
  let m := p mod w in
  gs_shift g = m /\ is_word w (gs_mask g) /\ is_word w (gs_left g) /\
  (m = 0 -> gs_src g = sidx (p / w) /\ gs_mask g = 0 /\ gs_left g = (if i =? 0 then sword (p / w) else 0)) /\
  (0 < m -> gs_src g = sidx (p / w + (if w <? n + m then 1 else 0)) /\ (forall j, 0 <= j < w -> Z.testbit (conv (gs_mask g)) j = (m <=? j)) /\
     forall j, 0 <= j < w -> Z.testbit (conv (gs_left g)) j = (j + m <? w) && Z.testbit (conv (sword (p / w + i))) (j + m)).

(** The part of a word at and above the position, moved down. *)
Lemma high_part v mask m : is_word w v -> is_word w mask -> 0 <= m < w -> (forall j, 0 <= j < w -> Z.testbit (conv mask) j = (m <=? j)) ->
  exists x, XDP2_BITMAP_SHIFT_CONVERT w conv false (Z.land v mask) m = Done x /\ is_word w x /\ forall j, 0 <= j < w -> Z.testbit (conv x) j = (j + m <? w) && Z.testbit (conv v) (j + m).
Proof using CV Hw.
  intros Hv Hmk Hm Hb. pose proof (w_range Hw). assert (is_word w (Z.land v mask)) as Hl by (apply is_word_land; [lia | done | unfold is_word in Hmk; lia]).
  destruct (convert_right Hw _ m Hl Hm) as (x & E & Hx & Hxb). exists x. split_and!; [done | done |]. intros j Hj. rewrite Hxb by done. destruct (Z.ltb_spec (j + m) w); [| done]. cbn [andb]. rewrite conv_land, Hb by first [done | lia].
  destruct (Z.leb_spec m (j + m)); [apply andb_true_r | lia].
Qed.

Lemma gen_start_ok p n : 0 <= p -> 0 <= n -> readable (p + Z.max 1 n) -> exists g, gen_start w conv sdir src (sidx (p / w)) (p mod w) n = Done g /\ gen_inv p n g 0.
Proof using CV Hw.
  intros Hp Hn Hr. pose proof (w_range Hw). pose proof (Z.mod_pos_bound p w ltac:(lia)) as Hm. pose proof (Z.div_mod p w ltac:(lia)) as D. pose proof (Z.div_pos p w ltac:(lia) ltac:(lia)).
  destruct (src_ld Hw wsrc src _ (p / w) Hr) as [Ev Hv]; [lia | lia |]. unfold gen_start. rewrite Ev. destruct (Z.eqb_spec (p mod w) 0) as [E0 | E0].
  - orun. eexists. split; [done |]. unfold gen_inv. cbn. rewrite E0. split_and!; [done | split; lia | done | done | lia].
  - destruct (HIGH_MASK_ok Hw (p mod w) ltac:(lia)) as (mk & -> & Hmk). orun. assert (is_word w (trunc w mk)) as Ht by (apply trunc_word; lia).
    assert (forall j, 0 <= j < w -> Z.testbit (conv (conv (trunc w mk))) j = (p mod w <=? j)) as Hmb.
    { intros j Hj. rewrite conv_conv by done. rewrite testbit_trunc by lia. destruct (Z.ltb_spec j w); [| lia]. by apply Hmk. }
    destruct (high_part (sword (p / w)) (conv (trunc w mk)) (p mod w) Hv ltac:(by apply conv_word) ltac:(lia) Hmb) as (x & -> & Hx & Hxb). orun. eexists. split; [done |]. unfold gen_inv. cbn.
    split_and!; [done | by apply conv_word | done | lia |]. intros _. split_and!; [| done | by rewrite Z.add_0_r]. destruct (_ <? _); [apply sidx_next | by rewrite Z.add_0_r].
Qed.

Lemma gen_value_ok p n g i : 0 <= p -> 0 <= i -> i * w < n -> readable (reach 0 p n) -> gen_inv p n g i ->
  exists v, gen_value w conv sdir src g i = Done v /\ is_word w v /\ forall j, 0 <= j < w -> i * w + j < n -> Z.testbit (conv v) j = sbit (p + (i * w + j)).
Proof using CV Hw.
  intros Hp Hi Hin Hr (Es & Hmk & Hl & H0 & H1). pose proof (w_range Hw). pose proof (Z.mod_pos_bound p w ltac:(lia)) as Hm. pose proof (Z.div_mod p w ltac:(lia)) as D. pose proof (Z.div_pos p w ltac:(lia) ltac:(lia)).
  unfold gen_value, reach in *. rewrite Es in *. destruct (Z.eqb_spec (p mod w) 0) as [E0 | E0].
  - destruct (H0 E0) as (-> & _ & El). rewrite src_index_step, E0. destruct (src_ld Hw wsrc src _ (p / w + i) Hr) as [-> Hv]; [lia | nia |]. orun. destruct (Z.ltb_spec (w - 0) w); [lia |]. orun.
    eexists. split; [done |]. split; [apply is_word_lor; first [lia | done] |]. intros j Hj Hjn. replace (p + (i * w + j)) with ((p / w + i) * w + j) by lia. rewrite (src_bit_group Hw) by done. rewrite convert_lor by first [done | lia].
    rewrite El. destruct (Z.eqb_spec i 0) as [-> | ?]; [rewrite Z.add_0_r; apply orb_diag |]. rewrite conv_bit, Z.bits_0 by first [done | split; lia]. done.
  - destruct (H1 ltac:(lia)) as (Esr & Hmb & Hlb). rewrite Esr, src_index_step. set (adv := if w <? n + p mod w then 1 else 0).
    assert (0 <= adv <= 1 /\ (adv = 0 -> n + p mod w <= w) /\ (adv = 1 -> w < n + p mod w)) as (Ha & Ha0 & Ha1) by (unfold adv; destruct (Z.ltb_spec w (n + p mod w)); lia).
    destruct (src_ld Hw wsrc src _ (p / w + adv + i) Hr) as [-> Hv]; [lia | nia |]. orun. destruct (Z.ltb_spec (w - p mod w) w); [| lia]. set (v := sword (p / w + adv + i)) in *. set (nm := trunc w (Z.lnot (gs_mask g))).
    assert (is_word w nm) as Hnm by (apply trunc_word; lia). assert (is_word w (Z.land v nm)) as Hvm by (apply is_word_land; [lia | done | unfold is_word in Hnm; lia]).
    destruct (convert_left Hw _ (w - p mod w) Hvm ltac:(lia)) as (x & -> & Hx & Hxb). orun. eexists. split; [done |]. split; [apply is_word_lor; first [lia | done] |]. intros j Hj Hjn. rewrite convert_lor, Hlb, Hxb by first [done | lia].
    replace (p + (i * w + j)) with (p + i * w + j) by lia. rewrite src_bit_near by (rewrite ?Z.mod_add by lia; nia). rewrite Z.mod_add, Z.div_add by lia. rewrite (Z.add_comm (p mod w) j).
    destruct (Z.ltb_spec (j + p mod w) w), (Z.leb_spec (w - p mod w) j); try lia; cbn [andb orb].
    + apply orb_false_r.
    + assert (adv = 1) as Ea by nia. unfold nm. rewrite conv_land, conv_not, Hmb by first [done | lia]. destruct (Z.leb_spec (p mod w) (j - (w - p mod w))); [lia |]. cbn [negb]. rewrite andb_true_r. unfold v. rewrite Ea. f_equal; [f_equal; f_equal; lia | lia].
Qed.

Lemma gen_next_ok p n g i : 0 <= p -> 0 <= i -> (i + 1) * w <= n -> readable (reach 0 p n) -> gen_inv p n g i ->
  exists g', gen_next w conv sdir src g i = Done g' /\ gen_inv p n g' (i + 1).
Proof using CV Hw.
  intros Hp Hi Hin Hr (Es & Hmk & Hl & H0 & H1). pose proof (w_range Hw). pose proof (Z.mod_pos_bound p w ltac:(lia)) as Hm. pose proof (Z.div_mod p w ltac:(lia)) as D. pose proof (Z.div_pos p w ltac:(lia) ltac:(lia)).
  unfold gen_next, reach in *. rewrite Es. destruct (Z.eqb_spec (p mod w) 0) as [E0 | E0].
  - destruct (H0 E0) as (-> & -> & El). rewrite src_index_step, E0. destruct (src_ld Hw wsrc src _ (p / w + i) Hr) as [-> Hv]; [lia | nia |]. orun. rewrite Z.land_0_r.
    destruct (convert_right Hw 0 0 ltac:(split; lia) ltac:(lia)) as (x & -> & Hx & Hxb). orun. eexists. split; [done |]. unfold gen_inv. cbn. rewrite E0. split_and!; [done | split; lia | done | | lia].
    intros _. split_and!; [done | done |]. destruct (Z.eqb_spec (i + 1) 0); [lia |]. apply Z.eqb_eq. rewrite (is_word_zero_bits Hw) by done. destruct (conv x =? 0) eqn:Ez; [done |]. exfalso. destruct (conv_zero Hw x Hx Ez) as (j & Hj & Hbj). rewrite Hxb, conv_bit, Z.bits_0, andb_false_r in Hbj by first [lia | done | split; lia]. done.
  - destruct (H1 ltac:(lia)) as (Esr & Hmb & Hlb). destruct (Z.ltb_spec w (n + p mod w)); [| nia]. rewrite Esr, src_index_step. destruct (src_ld Hw wsrc src _ (p / w + 1 + i) Hr) as [-> Hv]; [lia | nia |]. orun.
    destruct (high_part _ _ (p mod w) Hv Hmk ltac:(lia) Hmb) as (x & -> & Hx & Hxb). orun. eexists. split; [done |]. unfold gen_inv. cbn. split_and!; [done | done | done | lia |]. intros _. split_and!; [| done |].
    + by destruct (Z.ltb_spec w (n + p mod w)); [| lia].
    + intros j Hj. rewrite Hxb by done. by replace (p / w + (i + 1)) with (p / w + 1 + i) by lia.
Qed.
End Source.

(** ** The destination *)

Section Dest.
Context {w : Z} {conv : Z -> Z} {CV : WordConv w conv} {nw : Z} (Hw : word_bits w).
Abbreviation bit := (bm_bit w conv nw).
Abbreviation ok := (bm_ok w nw).
Abbreviation upd := (bm_upd w conv nw).
Context (G : Z -> bool -> bool).

(** [x] has, at the positions [a, b) of the [k]-th word, the bits [G] makes from those
    of [d]. *)
Definition makes (k a b : Z) (d x : Z) : Prop := forall j, 0 <= j < w -> a <= j < b -> Z.testbit (conv (trunc w x)) j = G (k * w + j) (Z.testbit (conv d) j).

Lemma gen_put_write t d0 d k M a b adder ret r : ok d -> 0 <= k < bm_words d -> stored_mask (w := w) (conv := conv) M a b -> 0 <= a -> a <= b <= w ->
  (forall j, 0 <= j < w -> bit d (k * w + j) = bit d0 (k * w + j)) -> (forall v, is_word w v -> exists x, r v = Done x /\ makes k a b v x) ->
  let g := fun i => G i (bit d0 i) in
  exists d', gen_put w conv (MWrite t) d (word_index nw k) r M adder ret = Done (d', test_ref t g (k * w + a) (k * w + b) ret, false) /\ upd d d' (k * w + a) (k * w + b) g.
Proof using CV Hw.
  intros Hok Hk HM Ha Hb Hd Hr g. pose proof (w_range Hw). unfold gen_put. destruct (bm_ld_word d k Hok Hk) as [-> Hv]. orun. destruct (Hr _ Hv) as (x & -> & Hx). orun.
  destruct (st_masked (nw := nw) Hw d k (trunc w x) M a b g) as (Hgr & d' & -> & U); [done | done | done | lia | lia | apply trunc_word; lia | |].
  - intros j Hj Hab. rewrite Hx by done. unfold g. by rewrite <- Hd, bit_group by done.
  - orun. exists d'. split; [| done]. by rewrite (handle_test_group Hw t ret _ M k a b g).
Qed.

Lemma gen_put_cmp d k M a b ret r : ok d -> 0 <= k < bm_words d -> w * bm_words d <= 2 ^ 32 -> stored_mask (w := w) (conv := conv) M a b -> 0 <= a -> a <= b <= w ->
  (forall v, is_word w v -> exists x, r v = Done x /\ makes k a b v x) ->
  exists q fnd, gen_put w conv MCompare d (word_index nw k) r M (k * w) ret = Done (d, q, fnd) /\ searched (fun i => G i (bit d i)) (k * w + a) (k * w + b) ret q fnd.
Proof using CV Hw.
  intros Hok Hk Hlim HM Ha Hb Hr. pose proof (w_range Hw). unfold gen_put. destruct (bm_ld_word d k Hok Hk) as [-> Hv]. orun. destruct (Hr _ Hv) as (x & -> & Hx). orun.
  destruct (st_masked (nw := nw) Hw d k (trunc w x) M a b (fun i => G i (bit d i))) as (Hgr & _); [done | done | done | lia | lia | apply trunc_word; lia | |].
  { intros j Hj Hab. rewrite Hx by done. by rewrite bit_group by done. }
  pose proof (do_compare_group Hw _ _ _ _ _ Hgr ltac:(lia) ltac:(nia)) as D. destruct (XDP2_BITMAP_DO_COMPARE _ _ _) as [q |]; [exists q, true | exists ret, false]; split; done.
Qed.

(** The loop, for sources whose state satisfies [Inv] before every word. *)
Section Loop.
Context {S : Type} (result : S -> Z -> Z -> outcome Z) (next : S -> Z -> outcome S) (Inv : S -> Z -> Prop) (k0 n : Z) (Hk0 : 0 <= k0) (Hn : 0 <= n).
Context (Hres : forall st i v, Inv st i -> 0 <= i -> i * w < n -> is_word w v -> exists x, result st i v = Done x /\ makes (k0 + i) 0 (Z.min w (n - i * w)) v x).
Context (Hnext : forall st i, Inv st i -> 0 <= i -> (i + 1) * w <= n -> exists st', next st i = Done st' /\ Inv st' (i + 1)).

Lemma gen_whole_write t d0 adder cnt : forall d st i ret, ok d -> is_u32 ret -> Inv st i -> 0 <= i -> (i + Z.of_nat cnt) * w <= n -> k0 * w + n <= w * bm_words d ->
  (forall p, (k0 + i) * w <= p < w * bm_words d -> bit d p = bit d0 p) -> let g := fun p => G p (bit d0 p) in
  exists d' st', gen_whole w conv nw result next cnt (MWrite t) d st (word_index nw k0) i adder ret =
      Done (d', st', test_ref t g ((k0 + i) * w) ((k0 + i + Z.of_nat cnt) * w) ret, false) /\ Inv st' (i + Z.of_nat cnt) /\
    upd d d' ((k0 + i) * w) ((k0 + i + Z.of_nat cnt) * w) g.
Proof using CV Hw Hk0 Hn Hres Hnext.
  pose proof (w_range Hw). induction cnt as [| cnt IH]; intros d st i ret Hok Hu HI Hi Hle Hb Hd g; cbn [gen_whole].
  { replace (k0 + i + Z.of_nat 0) with (k0 + i) by lia. exists d, st. rewrite test_ref_nil, Z.add_0_r by done. split; [done |]. split; [done | by apply upd_refl]. }
  rewrite word_index_step. assert (0 <= k0 + i < bm_words d) as Hkd by nia. destruct (bm_ld_word d (k0 + i) Hok Hkd) as [-> Hv]. orun. destruct (Hres st i _ HI Hi ltac:(nia) Hv) as (x & -> & Hx). orun.
  destruct (st_whole (nw := nw) Hw d (k0 + i) (trunc w x) g) as (Hgr & d1 & -> & U1); [done | done | apply trunc_word; lia | |].
  { intros j Hj. rewrite Hx by nia. unfold g. by rewrite <- Hd, bit_group by first [done | nia]. }
  orun. destruct (Hnext st i HI Hi ltac:(nia)) as (st1 & -> & HI1). orun. rewrite (handle_test_group Hw t ret _ _ _ _ _ _ Hgr (ones_mask Hw)), Z.add_0_r.
  replace ((k0 + i) * w + w) with ((k0 + (i + 1)) * w) by lia. replace ((k0 + i + 1) * w) with ((k0 + (i + 1)) * w) in U1 by lia.
  destruct (IH d1 st1 (i + 1) (test_ref t g ((k0 + i) * w) ((k0 + (i + 1)) * w) ret)) as (d2 & st2 & E & HI2 & U2);
    [by eapply upd_ok | by apply test_ref_u32 | done | lia | lia | by rewrite (upd_words _ _ _ _ _ U1) | |].
  { intros p Hp. rewrite (upd_words _ _ _ _ _ U1) in Hp. rewrite <- Hd by nia. eapply upd_above; [exact U1 | lia | nia]. }
  fold g in E, U2. replace (k0 + i + Z.of_nat (Datatypes.S cnt)) with (k0 + (i + 1) + Z.of_nat cnt) by lia. replace (i + Z.of_nat (Datatypes.S cnt)) with (i + 1 + Z.of_nat cnt) by lia.
  rewrite E. exists d2, st2. rewrite test_ref_split by nia. split; [done |]. split; [done |]. eapply upd_trans; [| exact U1 | exact U2]. nia.
Qed.

Lemma gen_whole_cmp d ret cnt : ok d -> w * bm_words d <= 2 ^ 32 -> k0 * w + n <= w * bm_words d -> forall st i, Inv st i -> 0 <= i -> (i + Z.of_nat cnt) * w <= n ->
  exists st' q fnd, gen_whole w conv nw result next cnt MCompare d st (word_index nw k0) i (k0 * w) ret = Done (d, st', q, fnd) /\
    (fnd = false -> Inv st' (i + Z.of_nat cnt)) /\ searched (fun p => G p (bit d p)) ((k0 + i) * w) ((k0 + i + Z.of_nat cnt) * w) ret q fnd.
Proof using CV Hw Hk0 Hn Hres Hnext.
  pose proof (w_range Hw). intros Hok Hlim Hb. induction cnt as [| cnt IH]; intros st i HI Hi Hle; cbn [gen_whole].
  { exists st, ret, false. split; [done |]. split; [by rewrite Z.add_0_r | split; [done | lia]]. }
  rewrite word_index_step. assert (0 <= k0 + i < bm_words d) as Hkd by nia. destruct (bm_ld_word d (k0 + i) Hok Hkd) as [-> Hv]. orun. destruct (Hres st i _ HI Hi ltac:(nia) Hv) as (x & -> & Hx). orun.
  destruct (st_whole (nw := nw) Hw d (k0 + i) (trunc w x) (fun p => G p (bit d p))) as (Hgr & _); [done | done | apply trunc_word; lia | |].
  { intros j Hj. rewrite Hx by nia. by rewrite bit_group by done. }
  replace (k0 * w + i * w) with ((k0 + i) * w) by lia. pose proof (do_compare_group Hw _ _ _ _ _ Hgr ltac:(lia) ltac:(nia)) as D. rewrite Z.add_0_r in D. destruct (XDP2_BITMAP_DO_COMPARE _ _ _) as [q |].
  - exists st, q, true. split; [done |]. split; [done |]. destruct D as [Hr Hf]. split; [nia |]. eapply is_first_widen; [| exact Hf | lia]. nia.
  - destruct (Hnext st i HI Hi ltac:(nia)) as (st1 & -> & HI1). orun. destruct (IH st1 (i + 1) HI1 ltac:(lia) ltac:(lia)) as (st2 & q & fnd & E & HI2 & Sr). exists st2, q, fnd. split; [done |].
    replace (k0 + (i + 1) + Z.of_nat cnt) with (k0 + i + Z.of_nat (Datatypes.S cnt)) in Sr by lia. split; [intros F; replace (i + Z.of_nat (Datatypes.S cnt)) with (i + 1 + Z.of_nat cnt) by lia; by apply HI2 |].
    eapply (searched_skip _ ((k0 + i) * w) ((k0 + (i + 1)) * w)); [nia | | exact Sr]. intros j Hj. apply D. nia.
Qed.

Lemma gen_words_write t d0 adder d st nbits ret : ok d -> is_u32 ret -> Inv st 0 -> k0 * w + n = nbits -> nbits <= w * bm_words d ->
  (forall p, k0 * w <= p < w * bm_words d -> bit d p = bit d0 p) -> let g := fun p => G p (bit d0 p) in
  exists d', gen_words w conv nw result next (MWrite t) d st (word_index nw k0) adder nbits n ret = Done (d', test_ref t g (k0 * w) nbits ret) /\ upd d d' (k0 * w) nbits g.
Proof using CV Hw Hk0 Hn Hres Hnext.
  intros Hok Hr HI E Hb Hd g. pose proof (w_range Hw). destruct (split_words Hw k0 n nbits Hk0 Hn E) as (Hc & Hm & Es). unfold gen_words.
  destruct (gen_whole_write t d0 adder (Z.to_nat (n / w)) d st 0 ret) as (d1 & st1 & E1 & HI1 & U1); [done | done | done | lia | nia | lia | rewrite Z.add_0_r; done |]. fold g in E1, U1.
  rewrite Z.add_0_r, Z2Nat.id in * by done. rewrite Z.add_0_l in HI1. rewrite E1. orun. destruct (Z.eqb_spec (n mod w) 0) as [Ez | Enz].
  - exists d1. assert (nbits = (k0 + n / w) * w) as -> by lia. done.
  - destruct (LOW_MASK_ok Hw (n mod w)) as (m & -> & Hmask); [lia |]. orun. rewrite word_index_step.
    destruct (gen_put_write t d0 d1 (k0 + n / w) (conv (trunc w m)) 0 (n mod w) (nbits - n mod w) (test_ref t g (k0 * w) ((k0 + n / w) * w) ret) (result st1 (n / w))) as (d2 & -> & U2);
      [by eapply upd_ok | rewrite (upd_words _ _ _ _ _ U1); nia | by apply conv_mask | lia | lia | | |].
    { intros j Hj. assert (k0 + n / w + 1 <= bm_words d) by nia. assert ((k0 + n / w + 1) * w <= w * bm_words d) by nia. rewrite <- Hd by nia. eapply upd_above; [exact U1 | lia | nia]. }
    { intros v Hv. destruct (Hres st1 (n / w) v HI1 Hc ltac:(nia) Hv) as (x & Ex & Hx). exists x. split; [done |]. intros j Hj Hab. apply Hx; [done |]. nia. }
    fold g in U2 |- *. rewrite Z.add_0_r, <- Es in *. exists d2. rewrite test_ref_split by nia. split; [done |]. eapply upd_trans; [| exact U1 | exact U2]. nia.
Qed.

Lemma gen_words_cmp d st nbits : ok d -> w * bm_words d <= 2 ^ 32 -> Inv st 0 -> k0 * w + n = nbits -> nbits <= w * bm_words d ->
  exists q, gen_words w conv nw result next MCompare d st (word_index nw k0) (k0 * w) nbits n nbits = Done (d, q) /\ is_first (fun p => G p (bit d p)) (k0 * w) nbits q.
Proof using CV Hw Hk0 Hn Hres Hnext.
  intros Hok Hlim HI E Hb. pose proof (w_range Hw). destruct (split_words Hw k0 n nbits Hk0 Hn E) as (Hc & Hm & Es). unfold gen_words.
  destruct (gen_whole_cmp d nbits (Z.to_nat (n / w)) Hok Hlim ltac:(lia) st 0 HI ltac:(lia) ltac:(nia)) as (st1 & q & fnd & -> & HI1 & Sr). rewrite Z.add_0_r, Z2Nat.id in * by done. rewrite Z.add_0_l in HI1. orun. destruct fnd; cbn [searched] in Sr.
  - exists q. split; [done |]. destruct Sr as [Hr Hf]. eapply is_first_widen; [| exact Hf | lia]. nia.
  - destruct Sr as [-> Hn0]. destruct (Z.eqb_spec (n mod w) 0) as [Ez | Enz].
    + exists nbits. split; [done |]. right. split; [done |]. intros j Hj. apply Hn0. nia.
    + destruct (LOW_MASK_ok Hw (n mod w)) as (m & -> & Hmask); [lia |]. orun. rewrite word_index_step.
      destruct (gen_put_cmp d (k0 + n / w) (conv (trunc w m)) 0 (n mod w) nbits (result st1 (n / w))) as (q & fnd & Eq & Sr); [done | nia | done | by apply conv_mask | lia | lia | |].
      { intros v Hv. destruct (Hres st1 (n / w) v (HI1 eq_refl) Hc ltac:(nia) Hv) as (x & Ex & Hx). exists x. split; [done |]. intros j Hj Hab. apply Hx; [done |]. nia. }
      replace (nbits - n mod w) with ((k0 + n / w) * w) by lia. rewrite Eq. orun. exists q. split; [done |]. rewrite Z.add_0_r, <- Es in Sr. apply (searched_skip _ (k0 * w)) in Sr; [| nia | exact Hn0]. by apply searched_first in Sr.
Qed.
End Loop.
End Dest.

(** ** The functions *)

Section Functions.
Context {w : Z} {conv : Z -> Z} {CV : WordConv w conv} {nw : Z} (Hw : word_bits w).
Abbreviation bit := (bm_bit w conv nw).
Abbreviation ok := (bm_ok w nw).
Abbreviation upd := (bm_upd w conv nw).
Abbreviation sbit := (src_bit (w := w) (conv := conv) (nw := nw)).
Abbreviation readable := (src_ok (w := w) (nw := nw)).

(** What is left to read after a partial first word. *)
Lemma reach_rest wsrc src dpos p n : 0 <= p -> dpos mod w <> 0 -> w - dpos mod w < n -> readable wsrc src (reach (w := w) (dpos mod w) p n) ->
  readable wsrc src (reach (w := w) 0 (p + (w - dpos mod w)) (n - (w - dpos mod w))).
Proof using Hw.
  intros Hp Hd Hn Hr. pose proof (w_range Hw). pose proof (Z.mod_pos_bound dpos w ltac:(lia)). eapply readable_le; [exact Hr |]. unfold reach.
  destruct (Z.eqb_spec (p mod w) (dpos mod w)) as [E |]; [| destruct (_ =? 0); lia]. assert ((p + (w - dpos mod w)) mod w = 0) as ->; [| cbn; lia].
  rewrite <- E. rewrite (Z.div_mod p w) at 1 by lia. replace (w * (p / w) + p mod w + (w - p mod w)) with ((p / w + 1) * w) by lia. apply Z.mod_mul. lia.
Qed.

Lemma start_readable wsrc src p n : readable wsrc src (reach (w := w) 0 p n) -> readable wsrc src (p + Z.max 1 n).
Proof using Hw. pose proof (w_range Hw). intros Hr. eapply readable_le; [exact Hr |]. unfold reach. destruct (_ =? 0); lia. Qed.

Section Two.
Context (f : bm_fun) (wsrc : bool) (src : list Z) (dpos spos : Z).
Abbreviation sdir := (src_dir (nw := nw) wsrc).

(** The bit at position [i] of the destination, [b] before. *)
Definition gen_bit (i : Z) (b : bool) : bool := value_bit f (sbit wsrc src (i - dpos + spos)) b.

Lemma result2_makes p n k0 g i v : 0 <= p -> k0 * w - dpos + spos = p -> readable wsrc src (reach (w := w) 0 p n) -> gen_inv (w := w) (conv := conv) (nw := nw) wsrc src p n g i -> 0 <= i -> i * w < n -> is_word w v ->
  exists x, (u ← gen_value w conv sdir src g i; mret (XDP2_BITMAP_VALUE f u v)) = Done x /\ makes (w := w) (conv := conv) gen_bit (k0 + i) 0 (Z.min w (n - i * w)) v x.
Proof using CV Hw.
  intros Hp Ep Hr HI Hi Hin Hv. destruct (gen_value_ok Hw wsrc src p n g i Hp Hi Hin Hr HI) as (u & -> & Hu & Hb). orun. eexists. split; [done |]. intros j Hj Hab. rewrite (conv_value Hw) by done. rewrite Hb by lia. unfold gen_bit. do 2 f_equal. lia.
Qed.

Lemma gen_words2_write t d0 d k0 p n nbits adder ret : ok d -> is_u32 ret -> 0 <= k0 -> 0 <= p -> 0 <= n -> k0 * w - dpos + spos = p -> k0 * w + n = nbits -> nbits <= w * bm_words d -> readable wsrc src (reach (w := w) 0 p n) ->
  (forall q, k0 * w <= q < w * bm_words d -> bit d q = bit d0 q) -> let g := fun q => gen_bit q (bit d0 q) in
  exists d', gen_words2 w conv nw f (MWrite t) sdir d src (word_index nw k0) (src_index (nw := nw) wsrc (p / w)) (p mod w) adder nbits n ret = Done (d', test_ref t g (k0 * w) nbits ret) /\ upd d d' (k0 * w) nbits g.
Proof using CV Hw.
  intros Hok Hu Hk Hp Hn Ep E Hb Hr Hd g. unfold gen_words2. destruct (gen_start_ok Hw wsrc src p n Hp Hn (start_readable _ _ _ _ Hr)) as (s & -> & HI). orun.
  apply (gen_words_write Hw gen_bit _ _ (gen_inv (w := w) (conv := conv) (nw := nw) wsrc src p n) k0 n Hk Hn); try done.
  - intros st i v HI1 Hi Hin Hv. by apply (result2_makes p n).
  - intros st i HI1 Hi Hin. by apply gen_next_ok.
Qed.

Lemma gen_words2_cmp d k0 p n nbits : ok d -> w * bm_words d <= 2 ^ 32 -> 0 <= k0 -> 0 <= p -> 0 <= n -> k0 * w - dpos + spos = p -> k0 * w + n = nbits -> nbits <= w * bm_words d -> readable wsrc src (reach (w := w) 0 p n) ->
  exists q, gen_words2 w conv nw f MCompare sdir d src (word_index nw k0) (src_index (nw := nw) wsrc (p / w)) (p mod w) (k0 * w) nbits n nbits = Done (d, q) /\ is_first (fun i => gen_bit i (bit d i)) (k0 * w) nbits q.
Proof using CV Hw.
  intros Hok Hlim Hk Hp Hn Ep E Hb Hr. unfold gen_words2. destruct (gen_start_ok Hw wsrc src p n Hp Hn (start_readable _ _ _ _ Hr)) as (s & -> & HI). orun.
  apply (gen_words_cmp Hw gen_bit _ _ (gen_inv (w := w) (conv := conv) (nw := nw) wsrc src p n) k0 n Hk Hn); try done.
  - intros st i v HI1 Hi Hin Hv. by apply (result2_makes p n).
  - intros st i HI1 Hi Hin. by apply gen_next_ok.
Qed.

Lemma head2_makes n v x k : 0 <= dpos -> dpos = k * w + dpos mod w -> is_word w v -> is_word w x -> let need := Z.min (w - dpos mod w) n in
  (forall j, dpos mod w <= j < dpos mod w + need -> Z.testbit (conv x) j = sbit wsrc src (spos + (j - dpos mod w))) ->
  makes (w := w) (conv := conv) gen_bit k (dpos mod w) (dpos mod w + need) v (XDP2_BITMAP_VALUE f x v).
Proof using CV Hw. intros Hd Ek Hv Hx need Hb j Hj Hab. rewrite (conv_value Hw) by done. rewrite Hb by lia. unfold gen_bit. do 2 f_equal. lia. Qed.

Lemma XDP2_BITMAP_2ARG_GEN_write t d nbits ret : holds_bits (w := w) (nw := nw) d nbits -> 0 <= dpos <= nbits -> 0 <= spos -> readable wsrc src (reach (w := w) (dpos mod w) spos (nbits - dpos)) -> is_u32 ret ->
  let g := fun i => gen_bit i (bit d i) in
  exists d', XDP2_BITMAP_2ARG_GEN w conv nw f (MWrite t) wsrc d dpos src spos nbits ret = Done (d', test_ref t g dpos nbits ret) /\ upd d d' dpos nbits g.
Proof using CV Hw.
  intros (Hok & Hb & Hlim & Hn32) Hdp Hsp Hr Hu g. pose proof (w_range Hw). unfold XDP2_BITMAP_2ARG_GEN. fold (src_dir (nw := nw) wsrc) (src_index (nw := nw) wsrc (spos / w)). rewrite (u32_small (nbits - dpos)) by lia.
  pose proof (Z.div_mod dpos w ltac:(lia)) as D. pose proof (Z.div_pos dpos w ltac:(lia) ltac:(lia)). destruct (Z.eqb_spec (dpos mod w) 0) as [Ez | Enz].
  - rewrite Ez in *. destruct (gen_words2_write t d d (dpos / w) spos (nbits - dpos) nbits dpos ret) as (d' & -> & U); try (done || lia). exists d'. by replace (dpos / w * w) with dpos in * by lia.
  - destruct (split_head Hw dpos nbits Hdp Enz) as (Hm & Hk & Ep & Hn & Hmn & Epn & Hnext).
    destruct (handle_dest_mod_ok Hw wsrc src (dpos mod w) spos (nbits - dpos) Hsp Hm ltac:(lia) Hr) as (v & si & smod & -> & Hv & Hvb & Hrest). orun.
    destruct (MASK_ok Hw (dpos mod w) (Z.min (w - dpos mod w) (nbits - dpos))) as (M & -> & HM); [lia | lia | lia |]. orun.
    destruct (gen_put_write (nw := nw) Hw gen_bit t d d (dpos / w) (conv (trunc w M)) (dpos mod w) (dpos mod w + Z.min (w - dpos mod w) (nbits - dpos)) (dpos - dpos mod w) ret (fun d => Done (XDP2_BITMAP_VALUE f v d))) as (d1 & -> & U1);
      [done | nia | by apply conv_mask | lia | lia | done | intros z Hz; eexists; split; [done |]; by apply head2_makes; first [done | lia] |].
    orun. fold g in U1 |- *. set (need := Z.min (w - dpos mod w) (nbits - dpos)) in *. rewrite <- Ep, <- Epn in *. destruct (Z.eqb_spec (nbits - dpos - need) 0) as [E0 | En0].
    + exists d1. by replace nbits with (dpos + need) by lia.
    + specialize (Hnext En0). destruct (Hrest ltac:(lia)) as (-> & ->). assert (need = w - dpos mod w) as En by lia. replace (word_index nw (dpos / w) + dir nw) with (word_index nw (dpos / w + 1)) by (rewrite <- word_index_step; lia).
      destruct (gen_words2_write t d d1 (dpos / w + 1) (spos + need) (nbits - dpos - need) nbits (dpos + need) (test_ref t g dpos (dpos + need) ret)) as (d2 & -> & U2);
        [by eapply upd_ok | by apply test_ref_u32 | lia | lia | lia | lia | lia | rewrite (upd_words _ _ _ _ _ U1); lia | rewrite En; apply reach_rest; (done || lia) | |].
      { intros q Hq. rewrite (upd_words _ _ _ _ _ U1) in Hq. eapply upd_above; [exact U1 | lia | lia]. }
      fold g in U2 |- *. rewrite <- Hnext in *. exists d2. rewrite test_ref_split by lia. split; [done |]. eapply upd_trans; [| exact U1 | exact U2]. lia.
Qed.

Lemma XDP2_BITMAP_2ARG_GEN_cmp d nbits : holds_bits (w := w) (nw := nw) d nbits -> 0 <= dpos <= nbits -> 0 <= spos -> readable wsrc src (reach (w := w) (dpos mod w) spos (nbits - dpos)) ->
  exists q, XDP2_BITMAP_2ARG_GEN w conv nw f MCompare wsrc d dpos src spos nbits nbits = Done (d, q) /\ is_first (fun i => gen_bit i (bit d i)) dpos nbits q.
Proof using CV Hw.
  intros (Hok & Hb & Hlim & Hn32) Hdp Hsp Hr. pose proof (w_range Hw). unfold XDP2_BITMAP_2ARG_GEN. fold (src_dir (nw := nw) wsrc) (src_index (nw := nw) wsrc (spos / w)). rewrite (u32_small (nbits - dpos)) by lia.
  pose proof (Z.div_mod dpos w ltac:(lia)) as D. pose proof (Z.div_pos dpos w ltac:(lia) ltac:(lia)). destruct (Z.eqb_spec (dpos mod w) 0) as [Ez | Enz].
  - rewrite Ez in *. destruct (gen_words2_cmp d (dpos / w) spos (nbits - dpos) nbits) as (q & E & Hq); try (done || lia). replace (dpos / w * w) with dpos in * by lia. rewrite E. by exists q.
  - destruct (split_head Hw dpos nbits Hdp Enz) as (Hm & Hk & Ep & Hn & Hmn & Epn & Hnext).
    destruct (handle_dest_mod_ok Hw wsrc src (dpos mod w) spos (nbits - dpos) Hsp Hm ltac:(lia) Hr) as (v & si & smod & -> & Hv & Hvb & Hrest). orun.
    destruct (MASK_ok Hw (dpos mod w) (Z.min (w - dpos mod w) (nbits - dpos))) as (M & -> & HM); [lia | lia | lia |]. orun. replace (dpos - dpos mod w) with (dpos / w * w) by lia.
    destruct (gen_put_cmp (nw := nw) Hw gen_bit d (dpos / w) (conv (trunc w M)) (dpos mod w) (dpos mod w + Z.min (w - dpos mod w) (nbits - dpos)) nbits (fun d => Done (XDP2_BITMAP_VALUE f v d))) as (q & fnd & -> & Sr);
      [done | nia | done | by apply conv_mask | lia | lia | intros z Hz; eexists; split; [done |]; by apply head2_makes; first [done | lia] |].
    orun. set (need := Z.min (w - dpos mod w) (nbits - dpos)) in *. rewrite <- Ep, <- Epn in *. destruct fnd; cbn [searched] in Sr.
    + exists q. split; [done |]. destruct Sr as [Hq Hf]. eapply is_first_widen; [| exact Hf | lia]. lia.
    + destruct Sr as [-> Hn0]. destruct (Z.eqb_spec (nbits - dpos - need) 0) as [E0 | En0].
      * exists nbits. split; [done |]. right. split; [done |]. intros j Hj. apply Hn0. lia.
      * specialize (Hnext En0). destruct (Hrest ltac:(lia)) as (-> & ->). assert (need = w - dpos mod w) as En by lia. replace (word_index nw (dpos / w) + dir nw) with (word_index nw (dpos / w + 1)) by (rewrite <- word_index_step; lia).
        destruct (gen_words2_cmp d (dpos / w + 1) (spos + need) (nbits - dpos - need) nbits) as (q & E & Hq); [done | done | lia | lia | lia | lia | lia | lia | rewrite En; apply reach_rest; (done || lia) |].
        rewrite <- Hnext in *. rewrite E. exists q. split; [done |]. by eapply is_first_skip; [| exact Hn0 | exact Hq]; lia.
Qed.
End Two.

Section Three.
Context (f : bm_fun) (t : bm_test) (wsrc : bool) (src1 src2 : list Z) (dpos pos1 pos2 : Z).
Abbreviation sdir := (src_dir (nw := nw) wsrc).
Abbreviation inv := (gen_inv (w := w) (conv := conv) (nw := nw)).

Definition gen3_bit (i : Z) (_ : bool) : bool := value2_bit f (sbit wsrc src1 (i - dpos + pos1)) (sbit false src2 (i - dpos + pos2)).

Lemma gen_words3_write d0 d k0 p1 p2 n nbits ret : ok d -> is_u32 ret -> 0 <= k0 -> 0 <= p1 -> 0 <= p2 -> 0 <= n -> k0 * w - dpos + pos1 = p1 -> k0 * w - dpos + pos2 = p2 -> k0 * w + n = nbits -> nbits <= w * bm_words d ->
  readable wsrc src1 (reach (w := w) 0 p1 n) -> readable false src2 (reach (w := w) 0 p2 n) -> (forall q, k0 * w <= q < w * bm_words d -> bit d q = bit d0 q) -> let g := fun q => gen3_bit q (bit d0 q) in
  exists d', gen_words3 w conv nw f t sdir d src1 src2 (word_index nw k0) (src_index (nw := nw) wsrc (p1 / w)) (word_index nw (p2 / w)) (p1 mod w) (p2 mod w) nbits n ret = Done (d', test_ref t g (k0 * w) nbits ret) /\ upd d d' (k0 * w) nbits g.
Proof using CV Hw.
  intros Hok Hu Hk Hp1 Hp2 Hn E1 E2 E Hb Hr1 Hr2 Hd g. unfold gen_words3. destruct (gen_start_ok Hw wsrc src1 p1 n Hp1 Hn (start_readable _ _ _ _ Hr1)) as (s1 & -> & HI1). orun.
  destruct (gen_start_ok Hw false src2 p2 n Hp2 Hn (start_readable _ _ _ _ Hr2)) as (s2 & Es2 & HI2). cbn [src_dir src_index] in Es2. rewrite Es2. orun.
  apply (gen_words_write Hw gen3_bit _ _ (fun '(g1, g2) i => inv wsrc src1 p1 n g1 i /\ inv false src2 p2 n g2 i) k0 n Hk Hn); try done.
  - intros [g1 g2] i v [I1 I2] Hi Hin Hv. destruct (gen_value_ok Hw wsrc src1 p1 n g1 i Hp1 Hi Hin Hr1 I1) as (a & -> & Ha & Hab). destruct (gen_value_ok Hw false src2 p2 n g2 i Hp2 Hi Hin Hr2 I2) as (b & Eb & Hbw & Hbb). cbn [src_dir] in Eb. orun. rewrite Eb.
    eexists. split; [done |]. intros j Hj Hjn. rewrite (conv_value2 Hw) by done. rewrite Hab, Hbb by lia. unfold gen3_bit. do 2 f_equal; lia.
  - intros [g1 g2] i [I1 I2] Hi Hin. destruct (gen_next_ok Hw wsrc src1 p1 n g1 i Hp1 Hi Hin Hr1 I1) as (a & -> & Ia). destruct (gen_next_ok Hw false src2 p2 n g2 i Hp2 Hi Hin Hr2 I2) as (b & Eb & Ib). cbn [src_dir] in Eb. orun. rewrite Eb. by eexists.
Qed.

Lemma XDP2_BITMAP_3ARG_GEN_ok d nbits ret : holds_bits (w := w) (nw := nw) d nbits -> 0 <= dpos <= nbits -> 0 <= pos1 -> 0 <= pos2 -> is_u32 ret ->
  readable wsrc src1 (reach (w := w) (dpos mod w) pos1 (nbits - dpos)) -> readable false src2 (reach (w := w) (dpos mod w) pos2 (nbits - dpos)) -> let g := fun i => gen3_bit i (bit d i) in
  exists d', XDP2_BITMAP_3ARG_GEN w conv nw f t wsrc d dpos src1 pos1 src2 pos2 nbits ret = Done (d', test_ref t g dpos nbits ret) /\ upd d d' dpos nbits g.
Proof using CV Hw.
  intros (Hok & Hb & Hlim & Hn32) Hdp Hs1 Hs2 Hu Hr1 Hr2 g. pose proof (w_range Hw). unfold XDP2_BITMAP_3ARG_GEN. fold (src_dir (nw := nw) wsrc) (src_index (nw := nw) wsrc (pos1 / w)). rewrite (u32_small (nbits - dpos)) by lia.
  pose proof (Z.div_mod dpos w ltac:(lia)) as D. pose proof (Z.div_pos dpos w ltac:(lia) ltac:(lia)). destruct (Z.eqb_spec (dpos mod w) 0) as [Ez | Enz].
  - rewrite Ez in *. destruct (gen_words3_write d d (dpos / w) pos1 pos2 (nbits - dpos) nbits ret) as (d' & -> & U); try (done || lia). exists d'. by replace (dpos / w * w) with dpos in * by lia.
  - destruct (split_head Hw dpos nbits Hdp Enz) as (Hm & Hk & Ep & Hn & Hmn & Epn & Hnext).
    destruct (handle_dest_mod_ok Hw wsrc src1 (dpos mod w) pos1 (nbits - dpos) Hs1 Hm ltac:(lia) Hr1) as (a & si1 & smod1 & -> & Ha & Hab & Hrest1). orun.
    destruct (handle_dest_mod_ok Hw false src2 (dpos mod w) pos2 (nbits - dpos) Hs2 Hm ltac:(lia) Hr2) as (b & si2 & smod2 & Eb & Hbw & Hbb & Hrest2). cbn [src_dir src_index] in Eb, Hrest2. rewrite Eb. orun.
    destruct (MASK_ok Hw (dpos mod w) (Z.min (w - dpos mod w) (nbits - dpos))) as (M & -> & HM); [lia | lia | lia |]. orun.
    destruct (gen_put_write (nw := nw) Hw gen3_bit t d d (dpos / w) (conv (trunc w M)) (dpos mod w) (dpos mod w + Z.min (w - dpos mod w) (nbits - dpos)) 0 ret (fun _ => Done (XDP2_BITMAP_VALUE2 f a b))) as (d1 & -> & U1);
      [done | nia | by apply conv_mask | lia | lia | done | |].
    { intros z Hz. eexists. split; [done |]. intros j Hj Hjn. rewrite (conv_value2 Hw) by done. rewrite Hab, Hbb by lia. unfold gen3_bit. do 2 f_equal; lia. }
    orun. fold g in U1 |- *. set (need := Z.min (w - dpos mod w) (nbits - dpos)) in *. rewrite <- Ep, <- Epn in *. destruct (Z.eqb_spec (nbits - dpos - need) 0) as [E0 | En0].
    + exists d1. by replace nbits with (dpos + need) by lia.
    + specialize (Hnext En0). destruct (Hrest1 ltac:(lia)) as (-> & ->). destruct (Hrest2 ltac:(lia)) as (-> & ->). assert (need = w - dpos mod w) as En by lia. replace (word_index nw (dpos / w) + dir nw) with (word_index nw (dpos / w + 1)) by (rewrite <- word_index_step; lia).
      destruct (gen_words3_write d d1 (dpos / w + 1) (pos1 + need) (pos2 + need) (nbits - dpos - need) nbits (test_ref t g dpos (dpos + need) ret)) as (d2 & -> & U2);
        [by eapply upd_ok | by apply test_ref_u32 | lia | lia | lia | lia | lia | lia | lia | rewrite (upd_words _ _ _ _ _ U1); lia | rewrite En; apply reach_rest; (done || lia) | rewrite En; apply reach_rest; (done || lia) | |].
      { intros q Hq. rewrite (upd_words _ _ _ _ _ U1) in Hq. eapply upd_above; [exact U1 | lia | lia]. }
      fold g in U2 |- *. rewrite <- Hnext in *. exists d2. rewrite test_ref_split by lia. split; [done |]. eapply upd_trans; [| exact U1 | exact U2]. lia.
Qed.
End Three.
End Functions.

(** C21: operations with a position per argument. For every word size, byte order and
    word order, for bitmaps and for one word as source, the bits from [dest_pos] to
    [nbits] of the destination become the boolean function of the bits at the same
    distance from the positions of the sources, the other bits are kept, the test value
    is that of the new bits, and a comparison gives the first position where the
    function holds, or [nbits]. The sources have to be readable up to [reach]: one
    word behind the last bit, unless the positions agree within their words. *)
Theorem bitmap_gen_pointwise w conv {CV : WordConv w conv} nw f o nt t wsrc dest dest_pos src1 pos1 src2 pos2 nbits :
  word_bits w -> holds_bits (w := w) (nw := nw) dest nbits -> 0 <= dest_pos <= nbits -> 0 <= pos1 -> 0 <= pos2 ->
  src_ok (w := w) (nw := nw) wsrc src1 (reach (w := w) (dest_pos mod w) pos1 (nbits - dest_pos)) ->
  src_ok (w := w) (nw := nw) false src2 (reach (w := w) (dest_pos mod w) pos2 (nbits - dest_pos)) ->
  let bit1 i := src_bit (w := w) (conv := conv) (nw := nw) wsrc src1 (i - dest_pos + pos1) in
  let bit2 i := bm_bit w conv nw src2 (i - dest_pos + pos2) in
  let bitd := bm_bit w conv nw dest in
  let g2 i := value_bit f (bit1 i) (bitd i) in
  let g3 i := value2_bit f (bit1 i) (bit2 i) in
  (exists d, bitmap_2arg_gen_test_funct w conv nw f wsrc dest dest_pos src1 pos1 nbits t = Done (d, test_ref t g2 dest_pos nbits 0) /\ bm_upd w conv nw dest d dest_pos nbits g2) /\
  (exists q, bitmap_2arg_cmp_gen_funct w conv nw o nt dest dest_pos src2 pos2 nbits = Done q /\
     is_first (fun i => xorb nt (binop_bit o (bit2 i) (bitd i))) dest_pos nbits q) /\
  (exists d, bitmap_3arg_test_gen_funct w conv nw f wsrc dest dest_pos src1 pos1 src2 pos2 nbits t = Done (d, test_ref t g3 dest_pos nbits 0) /\ bm_upd w conv nw dest d dest_pos nbits g3).
Proof.
  intros Hw Hd Hp H1 H2 Hr1 Hr2 bit1 bit2 bitd g2 g3. split_and!.
  - by apply (XDP2_BITMAP_2ARG_GEN_write Hw f wsrc src1 dest_pos pos1 t dest nbits 0).
  - destruct (XDP2_BITMAP_2ARG_GEN_cmp Hw (BmFun true o nt false false) false src2 dest_pos pos2 dest nbits Hd Hp H2 Hr2) as (q & E & Hq). exists q. unfold bitmap_2arg_cmp_gen_funct. rewrite E. split; [done |].
    eapply is_first_ext; [| exact Hq]. intros i Hi. unfold gen_bit, value_bit, value2_bit. cbn [f_destsrc f_not f_op f_s1 f_s2]. by rewrite !xorb_false_l.
  - by apply (XDP2_BITMAP_3ARG_GEN_ok Hw f t wsrc src1 src2 dest_pos pos1 pos2 dest nbits 0).
Qed.

(** The bits 4 to 20 of three bytes become the exclusive or of bits 8 to 24 and 3 to 19
    of two arrays; eleven of them are set. *)
Lemma bitmap_gen_pointwise_witness : exists d,
  bitmap_3arg_test_gen_funct 8 (fun v => v) 0 (destsrc_fun BXor false false) false [0xff; 0xff; 0xff] 4 [0; 0xf0; 0x3c; 0] 8 [0x18; 0x12; 0x07; 0] 3 20 TEST_WEIGHT = Done (d, 11) /\
  bm_upd 8 (fun v => v) 0 [0xff; 0xff; 0xff] d 4 20 (fun i => xorb (bm_bit 8 (fun v => v) 0 [0; 0xf0; 0x3c; 0] (i + 4)) (bm_bit 8 (fun v => v) 0 [0x18; 0x12; 0x07; 0] (i - 1))).
Proof.
  destruct (bitmap_gen_pointwise 8 (fun v => v) 0 (destsrc_fun BXor false false) BAnd false TEST_WEIGHT false [0xff; 0xff; 0xff] 4 [0; 0xf0; 0x3c; 0] 8 [0x18; 0x12; 0x07; 0] 3 20) as (_ & _ & d & E & U).
  - by left.
  - split_and!; [split; [repeat (constructor; [unfold is_word; lia |]); constructor | by left] | lia | unfold bm_words; simpl; lia | unfold bm_words; simpl; lia | lia].
  - lia.
  - lia.
  - lia.
  - split; [split; [repeat (constructor; [unfold is_word; lia |]); constructor | by left] | vm_compute; discriminate].
  - split; [split; [repeat (constructor; [unfold is_word; lia |]); constructor | by left] | vm_compute; discriminate].
  - exists d. split; [exact E |]. destruct U as (Hok & Hl & Hb). split_and!; [exact Hok | exact Hl |]. intros i Hi. rewrite (Hb i Hi). destruct ((4 <=? i) && (i <? 20)); [| reflexivity].
    unfold value2_bit, src_bit, bm_bit. cbn [destsrc_fun f_not f_op f_s1 f_s2 binop_bit src_word]. rewrite !xorb_false_l. replace (i - 4 + 8) with (i + 4) by lia. replace (i - 4 + 3) with (i - 1) by lia. reflexivity.
Defined.

(** Copying the last 16 bits of an array to an unaligned position reads the word behind
    the array. *)
Example copy_gen_reads_past : xdp2_bitmap_copy_gen 8 (fun v => v) 0 false [0xff; 0xff; 0xff] 4 [0x21; 0x43; 0x65] 8 20 = Crash.
Proof. vm_compute. reflexivity. Qed.
(** So does copying four bits that lie within one word, from a higher position. *)
Example dest_mod_reads_past : xdp2_bitmap_copy_gen 8 (fun v => v) 0 false [0] 1 [0xf0] 4 5 = Crash.
Proof. vm_compute. reflexivity. Qed.
