(* ===== verification/BitmapProps.v ===== *)
(** * Bitmaps: the theorems

    The statements about the bitmap functions a program calls, for every word
    size, byte order and word order, and the single bit operations. *)

From stdpp Require Import base list numbers.
From S2P Require Import Prelude BitmapWord BitmapWordSpec Bitmap BitmapSpec BitmapOps BitmapTwo.
From S2P Require Import BitmapTwo.

(** ** Single bits *)

Section Bits.
Context {w : Z} {conv : Z -> Z} {CV : WordConv w conv} {nw : Z} (Hw : word_bits w).
Abbreviation bit := (bm_bit w conv nw).
Abbreviation ok := (bm_ok w nw).
Abbreviation upd := (bm_upd w conv nw).

Lemma one_mask i : 0 <= i -> stored_mask (w := w) (conv := conv) (conv (trunc w (Z.shiftl 1 (i mod w)))) (i mod w) (i mod w + 1).
Proof using CV Hw.
  intros Hi. pose proof (w_range Hw). pose proof (Z.mod_pos_bound i w ltac:(lia)).
  apply conv_mask. split; [apply trunc_word; lia |]. intros j Hj.
  rewrite testbit_trunc, Z.shiftl_mul_pow2, Z.mul_1_l, testbit_one_shift by lia.
  repeat zcase; simpl; (done || lia).
Qed.

Lemma not_one_conv i :
  0 <= i -> conv (trunc w (Z.lnot (Z.shiftl 1 (i mod w)))) =
  trunc w (Z.lnot (conv (trunc w (Z.shiftl 1 (i mod w))))).
Proof using CV Hw.
  intros Hi. pose proof (w_range Hw). pose proof (Z.mod_pos_bound i w ltac:(lia)).
  assert (forall x, is_word w (trunc w x)) as Ht by (intros x; apply trunc_word; lia).
  apply (word_eq w); [by apply conv_word | done |]. intros j Hj. pose proof (conv_perm_range j Hj).
  rewrite (conv_trunc Hw), testbit_trunc, !Z.lnot_spec, (conv_trunc Hw) by (done || lia).
  destruct (Z.ltb_spec j w); (done || lia).
Qed.

Lemma bit_set_upd bm i :
  ok bm -> 0 <= i < w * bm_words bm ->
  exists bm', bit_set w conv bm (word_index nw (i / w)) i = Done bm' /\ upd bm bm' i (i + 1) (fun _ => true).
Proof using CV Hw.
  intros Hok Hi. pose proof (w_range Hw). pose proof (Z.div_mod i w ltac:(lia)).
  pose proof (Z.mod_pos_bound i w ltac:(lia)).
  assert (0 <= i / w < bm_words bm) by (split; [apply Z.div_pos | apply Z.div_lt_upper_bound]; lia).
  destruct (part1_fill Hw true bm (i / w) _ (i mod w) (i mod w + 1) 0 0 Hok ltac:(done) (one_mask i ltac:(lia)))
    as (bm' & E & U); [lia | lia |].
  exists bm'. split.
  - unfold part1 in E. unfold bit_set. destruct (bm_ld _ _); try discriminate. revert E. orun.
    destruct (bm_st _ _ _); try discriminate. by intros [= ->].
  - replace (i / w * w + i mod w) with i in U by lia.
    by replace (i / w * w + (i mod w + 1)) with (i + 1) in U by lia.
Qed.

Lemma bit_unset_upd bm i :
  ok bm -> 0 <= i < w * bm_words bm ->
  exists bm', bit_unset w conv bm (word_index nw (i / w)) i = Done bm' /\ upd bm bm' i (i + 1) (fun _ => false).
Proof using CV Hw.
  intros Hok Hi. pose proof (w_range Hw). pose proof (Z.div_mod i w ltac:(lia)).
  pose proof (Z.mod_pos_bound i w ltac:(lia)).
  assert (0 <= i / w < bm_words bm) by (split; [apply Z.div_pos | apply Z.div_lt_upper_bound]; lia).
  destruct (part1_fill Hw false bm (i / w) _ (i mod w) (i mod w + 1) 0 0 Hok ltac:(done) (one_mask i ltac:(lia)))
    as (bm' & E & U); [lia | lia |].
  exists bm'. split.
  - unfold part1 in E. unfold bit_unset. rewrite not_one_conv by lia. destruct (bm_ld _ _); try discriminate.
    revert E. orun. destruct (bm_st _ _ _); try discriminate. by intros [= ->].
  - replace (i / w * w + i mod w) with i in U by lia.
    by replace (i / w * w + (i mod w + 1)) with (i + 1) in U by lia.
Qed.

Lemma bit_isset_ok bm i :
  ok bm -> 0 <= i < w * bm_words bm ->
  bit_isset w conv bm (word_index nw (i / w)) i = Done (bit bm i).
Proof using CV Hw.
  intros Hok Hi. pose proof (w_range Hw). pose proof (Z.div_mod i w ltac:(lia)).
  pose proof (Z.mod_pos_bound i w ltac:(lia)).
  assert (0 <= i / w < bm_words bm) as Hk by (split; [apply Z.div_pos | apply Z.div_lt_upper_bound]; lia).
  unfold bit_isset. destruct (bm_ld_word bm (i / w) Hok Hk) as [-> Hv]. orun. f_equal.
  pose proof (masked_group Hw false bm (i / w) _ (i mod w) (i mod w + 1) Hok Hk (one_mask i ltac:(lia))
    ltac:(lia) ltac:(lia)) as G. simpl in G.
  rewrite (in_group_zero Hw _ _ _ _ _ G), negb_involutive. unfold seen.
  replace (i / w * w + i mod w) with i by lia.
  replace (i / w * w + (i mod w + 1) - i) with 1 by lia. rewrite seqZ_cons by lia. simpl.
  rewrite orb_false_r. by destruct (bit bm i).
Qed.
End Bits.

(** A concrete bitmap that holds its bits. *)
Ltac holds_bits :=
  split; [split; [repeat (apply Forall_cons_2; [unfold is_word; lia |]); apply Forall_nil_2 |
                  first [left; reflexivity | right; reflexivity]] |
          unfold bm_words; cbn [length]; lia].

(** ** Searches *)

(** A search returns the first position from its start on, below the number
    of bits, at which the bit is set (clear, for the [zero] variants), or the
    number of bits when there is none; the [next] variants start one position
    later, and the [roll] variants start again from bit zero when they find
    nothing. For every word size, byte order and word order. *)
Theorem bitmap_find_first w conv nw {CV : WordConv w conv} neg add roll bm pos nbits :
  word_bits w -> holds_bits (w := w) (nw := nw) bm nbits -> 0 <= pos -> 0 <= add -> pos + add <= nbits ->
  exists r, bitmap_find_funct w conv nw neg add roll bm pos nbits = Done r /\
    let f := fun i => xorb neg (bm_bit w conv nw bm i) in
    (is_first f (pos + add) nbits r /\ (r < nbits \/ roll = false)) \/
    (roll = true /\ (forall i, pos + add <= i < nbits -> f i = false) /\ is_first f 0 nbits r).
Proof.
  intros Hw (Hok & Hb & Hlim & Hn) Hp Ha Hpa. unfold bitmap_find_funct.
  assert (u32 (pos + add) = pos + add) as -> by (apply Z.mod_small; lia).
  destruct (XDP2_BITMAP_1ARG_find (nw := nw) Hw neg bm (pos + add) nbits) as (r & -> & Hr); [done | lia .. |]. orun.
  destruct roll; simpl; [| exists r; eauto].
  destruct (Z.leb_spec nbits r) as [Hle | Hlt]; [| exists r; eauto].
  assert (r = nbits) as -> by (destruct Hr as [? | [-> _]]; lia).
  assert ((if nw =? 0 then nbits else nbits) = nbits) as -> by (by destruct (nw =? 0)).
  destruct (XDP2_BITMAP_1ARG_find (nw := nw) Hw neg bm 0 nbits) as (r & -> & Hr0); [done | lia .. |]. orun.
  exists r. split; [done |]. right. split_and!; [done | | done].
  destruct Hr as [? | [_ Hn0]]; [lia | done].
Qed.

(** The bytes [0x10; 0x00; 0x12] as a reverse bitmap: bits 1, 4 and 20. *)
Lemma bitmap_find_first_witness :
  exists r, bitmap_find_funct 8 (fun v => v) 3 false 1 true [0x10; 0x00; 0x12] 20 24 = Done r /\
    let f := fun i => xorb false (bm_bit 8 (fun v => v) 3 [0x10; 0x00; 0x12] i) in
    (is_first f (20 + 1) 24 r /\ (r < 24 \/ true = false)) \/
    (true = true /\ (forall i, 20 + 1 <= i < 24 -> f i = false) /\ is_first f 0 24 r).
Proof.
  apply (bitmap_find_first 8 (fun v => v) 3 false 1 true [0x10; 0x00; 0x12] 20 24);
    [left; reflexivity | | lia | lia | lia].
  holds_bits.
Defined.

(** C25: the iterators run their body at exactly the positions of the range whose
    bit is set (clear, for the [zero] variants), in increasing order, and stop. *)
Theorem bitmap_foreach_visits w conv nw {CV : WordConv w conv} neg bm pos nbits :
  word_bits w -> holds_bits (w := w) (nw := nw) bm nbits -> 0 <= pos <= nbits ->
  XDP2_MAKE_FOREACH w conv nw neg (fun _ => bm) (fun visited p => Done (visited ++ [p])) [] pos nbits =
  Done (filter (fun i => xorb neg (bm_bit w conv nw bm i) = true) (seqZ pos (nbits - pos)), nbits).
Proof. intros Hw Hb Hp. by apply (foreach_visits (nw := nw) Hw). Qed.

Lemma bitmap_foreach_visits_witness :
  XDP2_MAKE_FOREACH 16 bswap16 0 false (fun _ => [0x0300; 0x0080]) (fun visited p => Done (visited ++ [p])) [] 1 32 =
  Done ([1; 31], 32).
Proof.
  rewrite (bitmap_foreach_visits 16 bswap16 0 false [0x0300; 0x0080] 1 32);
    [reflexivity | right; left; reflexivity | | lia].
  holds_bits.
Defined.

(** ** Tests and fills *)

(** [test] returns the number of ones of the range, or whether it has a one,
    or a zero; [set_ones] and [set_zeroes] set or clear the bits of the range and
    no other, in bitmaps of every word size, byte order and word order. *)
Theorem bitmap_range_ops w conv nw {CV : WordConv w conv} bm pos nbits :
  word_bits w -> holds_bits (w := w) (nw := nw) bm nbits -> 0 <= pos <= nbits ->
  let bit := bm_bit w conv nw bm in
  xdp2_bitmap_test w conv nw bm pos nbits TEST_WEIGHT = Done (count bit pos nbits) /\
  xdp2_bitmap_test w conv nw bm pos nbits TEST_ANY_SET =
    Done (Z.b2z (existsb bit (seqZ pos (nbits - pos)))) /\
  xdp2_bitmap_test w conv nw bm pos nbits TEST_ANY_ZERO =
    Done (Z.b2z (existsb (fun i => negb (bit i)) (seqZ pos (nbits - pos)))) /\
  (exists bm', xdp2_bitmap_set_ones w conv nw bm pos nbits = Done bm' /\
     bm_upd w conv nw bm bm' pos nbits (fun _ => true)) /\
  (exists bm', xdp2_bitmap_set_zeroes w conv nw bm pos nbits = Done bm' /\
     bm_upd w conv nw bm bm' pos nbits (fun _ => false)).
Proof.
  intros Hw Hb Hp bit.
  assert (forall t, xdp2_bitmap_test w conv nw bm pos nbits t =
                    Done (test_ref t (seen (w := w) (conv := conv) (nw := nw) false bm) pos nbits 0)) as T.
  { intros t. unfold xdp2_bitmap_test. rewrite XDP2_BITMAP_1ARG_test by (done || (unfold is_u32; lia)). done. }
  assert (forall i, seen (w := w) (conv := conv) (nw := nw) false bm i = bit i) as E
    by (intros i; unfold seen, bit; by destruct (bm_bit _ _ _ _ _)).
  split_and!.
  - rewrite T. simpl. rewrite (count_ext _ bit) by (intros; apply E).
    pose proof (count_bounds bit pos nbits ltac:(lia)). f_equal. destruct Hb as (_ & _ & _ & Hn).
    apply Z.mod_small. lia.
  - rewrite T. simpl. rewrite (existsb_ext _ bit) by (intros; apply E). by destruct (existsb _ _).
  - rewrite T. simpl. rewrite (existsb_ext _ (fun i => negb (bit i))) by (intros; f_equal; apply E).
    by destruct (existsb _ _).
  - unfold xdp2_bitmap_set_ones. destruct (XDP2_BITMAP_1ARG_fill (nw := nw) Hw true bm pos nbits 0 Hb Hp) as (bm' & -> & U).
    orun. by exists bm'.
  - unfold xdp2_bitmap_set_zeroes. destruct (XDP2_BITMAP_1ARG_fill (nw := nw) Hw false bm pos nbits 0 Hb Hp) as (bm' & -> & U).
    orun. by exists bm'.
Qed.

Lemma bitmap_range_ops_witness :
  xdp2_bitmap_test 32 bswap32 2 [0x0000f000; 0xff] 4 60 TEST_WEIGHT = Done 12 /\
  (exists bm', xdp2_bitmap_set_ones 32 bswap32 2 [0x0000f000; 0xff] 4 60 = Done bm' /\
     bm_upd 32 bswap32 2 [0x0000f000; 0xff] bm' 4 60 (fun _ => true)).
Proof.
  destruct (bitmap_range_ops 32 bswap32 2 [0x0000f000; 0xff] 4 60) as (A & _ & _ & B & _);
    [right; right; left; reflexivity | | lia |].
  - holds_bits.
  - split; [exact A | exact B].
Defined.

(** ** Operations on two and three bitmaps *)

(** C20: an operation on bitmaps gives each bit of the range the value of its
    boolean function on the bits of the sources at the same position and keeps
    the other bits of the destination; its test is the test of the bits it wrote.
    A comparison returns the first position of the range at which its function is
    true. The first source may be a single word, used for every word. *)
Theorem bitmap_pointwise w conv nw {CV : WordConv w conv} f t wsrc dest src src2 pos nbits :
  word_bits w -> holds_bits (w := w) (nw := nw) dest nbits -> 0 <= pos <= nbits ->
  src_ok (w := w) (nw := nw) wsrc src nbits -> src_ok (w := w) (nw := nw) false src2 nbits ->
  let a := src_bit (w := w) (conv := conv) (nw := nw) wsrc src in
  let d := bm_bit w conv nw dest in
  let b := bm_bit w conv nw src2 in
  let g2 := fun i => value_bit f (a i) (d i) in
  let g3 := fun i => value2_bit f (a i) (b i) in
  (exists d', bitmap_2arg_test_funct w conv nw f wsrc dest src pos nbits t =
                Done (d', test_ref t g2 pos nbits 0) /\ bm_upd w conv nw dest d' pos nbits g2) /\
  (exists d', bitmap_3arg_test_funct w conv nw f wsrc dest src src2 pos nbits t =
                Done (d', test_ref t g3 pos nbits 0) /\ bm_upd w conv nw dest d' pos nbits g3) /\
  (forall o nt, exists r, bitmap_2arg_cmp_funct w conv nw o nt false dest src2 pos nbits = Done r /\
     is_first (fun i => xorb nt (binop_bit o (b i) (d i))) pos nbits r).
Proof.
  intros Hw Hd Hp Hs Hs2 a d b g2 g3. assert (is_u32 0) as H0 by (unfold is_u32; lia). split_and!.
  - by apply (XDP2_BITMAP_2ARG_write (nw := nw) Hw).
  - by apply (XDP2_BITMAP_3ARG_ok (nw := nw) Hw).
  - intros o nt. unfold bitmap_2arg_cmp_funct.
    destruct (XDP2_BITMAP_2ARG_cmp (nw := nw) Hw (BmFun true o nt false false) false dest src2 nbits Hd Hs2 pos Hp)
      as (r & -> & Hr). orun. exists r. split; [done |]. eapply is_first_ext; [| exact Hr].
    intros i Hi. unfold cmp_bit, value_bit, value2_bit, src_bit, src_word, b, d; simpl.
    fold (bm_bit w conv nw src2 i). by destruct (bm_bit w conv nw src2 i), (bm_bit w conv nw dest i).
Qed.

Lemma bitmap_pointwise_witness :
  exists d', bitmap_3arg_test_funct 64 (fun v => v) 0 (destsrc_fun BAnd false true) false
               [0; 0] [0xff; 0xff] [0x0f; 0] 2 70 TEST_WEIGHT = Done (d', 10) /\
    bm_upd 64 (fun v => v) 0 [0; 0] d' 2 70
      (fun i => value2_bit (destsrc_fun BAnd false true)
                  (src_bit (w := 64) (conv := fun v => v) (nw := 0) false [0xff; 0xff] i)
                  (bm_bit 64 (fun v => v) 0 [0x0f; 0] i)).
Proof.
  assert (forall x y, is_word 64 x -> is_word 64 y -> src_ok (w := 64) (nw := 0) false [x; y] 70) as Hs.
  { intros x y Hx Hy. split; [| unfold bm_words; cbn [length]; lia].
    split; [by repeat apply Forall_cons_2 | left; reflexivity]. }
  destruct (bitmap_pointwise 64 (fun v => v) 0 (destsrc_fun BAnd false true) TEST_WEIGHT false
    [0; 0] [0xff; 0xff] [0x0f; 0] 2 70) as (_ & B & _);
    [right; right; right; reflexivity | | lia | apply Hs; unfold is_word; lia | apply Hs; unfold is_word; lia | exact B].
  holds_bits.
Defined.

(** The comparisons with a word as first operand take the word for a bitmap: over
    more than one word they read past it. *)
Lemma wsrc_cmp_reads_past_word : xdp2_bitmap_cmp 8 (fun v => v) 0 true [0x0f] [0x0f; 0x0f] 0 16 = Crash.
Proof. reflexivity. Qed.
