(* ===== verification/Timer.v ===== *)
(** * Timers

    [lib/xdp2/timer.c] and [include/xdp2/timer.h]: a wheel of slots, each a
    circular queue of timers, with a bitmap of the slots in use.

    A timer structure belongs to the caller and is known by an identifier (its
    address). The queue of a slot is the list of identifiers from its head. The
    state also holds what is outside the wheel: the clock that [get_current_time]
    reads, and a log of the calls the wheel makes (expired timers and requests
    for the next pop). The mutex serializes the operations; while it is released
    for a batch of callbacks the callbacks and other threads may operate on the
    wheel, which is the parameter [env]. An assertion that fails is a [Crash].
    The value that the iteration reads through the list head at its end is not
    used and not modelled. *)

From stdpp Require Import base list gmap numbers.
From S2P Require Import Prelude BitmapWord Bitmap.

(** ** Sequence number comparisons ([utility.h], [unsigned long]) *)

Definition xdp2_seqno_ul_diff (x y : Z) : Z := u64 (x - y).
Definition xdp2_seqno_ul_lt (x y : Z) : bool := 2 ^ 63 <? xdp2_seqno_ul_diff x y.
Definition xdp2_seqno_ul_gte (x y : Z) : bool := negb (xdp2_seqno_ul_lt x y).
Definition xdp2_seqno_ul_gt (x y : Z) : bool := 2 ^ 63 <? xdp2_seqno_ul_diff y x.
Definition xdp2_seqno_ul_lte (x y : Z) : bool := negb (xdp2_seqno_ul_gt x y).

(** ** Data *)

Record xdp2_timer := Timer {
  callback : Z; arg : Z;
  timer_set : bool; gen : Z; index : Z }.

Inductive stat :=
| add_timers | add_already_running | remove_timers | change_timers | timer_expires
| run_timer_wheel | slot_retries | timer_thread_signaled | run_timer_wheel_retries
| spurious_run_timer_wheel | remove_wheel_running
| timer_wheel_same_gen | timer_wheel_next_gen | timer_wheel_skip_gens.
#[global] Instance stat_eq_dec : EqDecision stat.
Proof. solve_decision. Defined.

(** The calls out of the wheel. *)
Inductive event :=
| Fire (callback arg : Z)
| NextPop (expire_time : Z)
| Signal.

Record xdp2_timer_wheel := Wheel {
  (* set when the wheel is created *)
  num_slots : Z; has_set_next_timer_pop : bool; time_units : Z; time_div : Z;
  slot_bitmap : list Z;
  next_expire_time : Z; last_runtime : Z; timer_count : Z;
  running : bool; run_again : bool;
  stats : stat -> Z;
  slots : list (list Z);
  (* outside *)
  timers : gmap Z xdp2_timer; clock : Z; log : list event }.

Definition set_slot_bitmap bm w := Wheel (num_slots w) (has_set_next_timer_pop w) (time_units w) (time_div w)
  bm (next_expire_time w) (last_runtime w) (timer_count w) (running w) (run_again w) (stats w) (slots w)
  (timers w) (clock w) (log w).
Definition set_next_expire_time t w := Wheel (num_slots w) (has_set_next_timer_pop w) (time_units w) (time_div w)
  (slot_bitmap w) t (last_runtime w) (timer_count w) (running w) (run_again w) (stats w) (slots w)
  (timers w) (clock w) (log w).
Definition set_last_runtime t w := Wheel (num_slots w) (has_set_next_timer_pop w) (time_units w) (time_div w)
  (slot_bitmap w) (next_expire_time w) t (timer_count w) (running w) (run_again w) (stats w) (slots w)
  (timers w) (clock w) (log w).
Definition set_timer_count c w := Wheel (num_slots w) (has_set_next_timer_pop w) (time_units w) (time_div w)
  (slot_bitmap w) (next_expire_time w) (last_runtime w) c (running w) (run_again w) (stats w) (slots w)
  (timers w) (clock w) (log w).
Definition set_running b w := Wheel (num_slots w) (has_set_next_timer_pop w) (time_units w) (time_div w)
  (slot_bitmap w) (next_expire_time w) (last_runtime w) (timer_count w) b (run_again w) (stats w) (slots w)
  (timers w) (clock w) (log w).
Definition set_run_again b w := Wheel (num_slots w) (has_set_next_timer_pop w) (time_units w) (time_div w)
  (slot_bitmap w) (next_expire_time w) (last_runtime w) (timer_count w) (running w) b (stats w) (slots w)
  (timers w) (clock w) (log w).
Definition set_stats s w := Wheel (num_slots w) (has_set_next_timer_pop w) (time_units w) (time_div w)
  (slot_bitmap w) (next_expire_time w) (last_runtime w) (timer_count w) (running w) (run_again w) s (slots w)
  (timers w) (clock w) (log w).
Definition set_slots s w := Wheel (num_slots w) (has_set_next_timer_pop w) (time_units w) (time_div w)
  (slot_bitmap w) (next_expire_time w) (last_runtime w) (timer_count w) (running w) (run_again w) (stats w) s
  (timers w) (clock w) (log w).
Definition set_timers t w := Wheel (num_slots w) (has_set_next_timer_pop w) (time_units w) (time_div w)
  (slot_bitmap w) (next_expire_time w) (last_runtime w) (timer_count w) (running w) (run_again w) (stats w) (slots w)
  t (clock w) (log w).
Definition set_clock t w := Wheel (num_slots w) (has_set_next_timer_pop w) (time_units w) (time_div w)
  (slot_bitmap w) (next_expire_time w) (last_runtime w) (timer_count w) (running w) (run_again w) (stats w) (slots w)
  (timers w) t (log w).
Definition add_log e w := Wheel (num_slots w) (has_set_next_timer_pop w) (time_units w) (time_div w)
  (slot_bitmap w) (next_expire_time w) (last_runtime w) (timer_count w) (running w) (run_again w) (stats w) (slots w)
  (timers w) (clock w) (log w ++ [e]).

Definition TIMER_ADD_STAT (s : stat) (n : Z) (w : xdp2_timer_wheel) : xdp2_timer_wheel :=
  set_stats (fun s' => if decide (s' = s) then u64 (stats w s + n) else stats w s') w.
Definition TIMER_BUMP_STAT (s : stat) (w : xdp2_timer_wheel) : xdp2_timer_wheel := TIMER_ADD_STAT s 1 w.

(** The bitmap functions the wheel uses: words of type [unsigned long]. *)
Definition bm_set := xdp2_bitmap_set 64 (fun v => v).
Definition bm_unset := xdp2_bitmap_unset 64 (fun v => v).
Definition bm_find := xdp2_bitmap_find 64 (fun v => v) 0.

(** ** Time conversions *)

Record timespec := Timespec { tv_sec : Z; tv_nsec : Z }.

(** The division of the [long] is by an [unsigned int]. *)
Definition ts_to_time_units (w : xdp2_timer_wheel) (ts : timespec) : Z :=
  u64 (u64 (tv_sec ts * time_div w) + tv_nsec ts / time_units w).

(** Division by a zero [time_div] traps. *)
Definition time_units_to_ts (w : xdp2_timer_wheel) (tim : Z) : outcome timespec :=
  if time_div w =? 0 then Crash else
  mret (Timespec (tim / time_div w) (u64 ((tim mod time_div w) * time_units w))).

(** [ts] is what [clock_gettime] gives. *)
Definition future_ts (w : xdp2_timer_wheel) (ts : timespec) (delay : Z) : outcome timespec :=
  if time_div w =? 0 then Crash else
  let nsecs := u64 (u64 ((delay mod time_div w) * time_units w) + tv_nsec ts) in
  mret (Timespec (u64 (tv_sec ts + delay / time_div w + nsecs / 1000000000)) (nsecs mod 1000000000)).

(** ** Operations *)

Definition get_current_time (w : xdp2_timer_wheel) : Z := clock w.

Definition set_next_timer_pop (w : xdp2_timer_wheel) : xdp2_timer_wheel :=
  if has_set_next_timer_pop w then add_log (NextPop (next_expire_time w)) w else add_log Signal w.

(** The queue of a slot. *)
Definition get_slot (w : xdp2_timer_wheel) (i : Z) : outcome (list Z) :=
  if i <? 0 then Crash else deref (slots w !! Z.to_nat i).
Definition put_slot (i : Z) (l : list Z) (w : xdp2_timer_wheel) : xdp2_timer_wheel :=
  set_slots (<[Z.to_nat i := l]> (slots w)) w.

(** [CIRCLEQ_REMOVE]: the entry is unlinked from its neighbours, which is only
    meaningful when it is in the queue. *)
Definition cq_remove (id : Z) (l : list Z) : outcome (list Z) :=
  if decide (id ∈ l) then mret (filter (fun x => x <> id) l) else Crash.

Definition put_timer (id : Z) (t : xdp2_timer) (w : xdp2_timer_wheel) : xdp2_timer_wheel :=
  set_timers (<[id := t]> (timers w)) w.
Definition clear_set (t : xdp2_timer) : xdp2_timer :=
  Timer (callback t) (arg t) false (gen t) (index t).

Definition timer_remove_locked (w : xdp2_timer_wheel) (id : Z) : outcome xdp2_timer_wheel :=
  t ← deref (timers w !! id);
  _ ← XDP2_ASSERT (timer_set t);
  l ← get_slot w (index t);
  l' ← cq_remove id l;
  let w := put_slot (index t) l' w in
  bm ← (if decide (l' = []) then bm_unset (slot_bitmap w) (index t) else mret (slot_bitmap w));
  let w := set_slot_bitmap bm w in
  let w := put_timer id (clear_set t) w in
  mret (set_timer_count (s32 (timer_count w - 1)) w).

Definition xdp2_timer_remove (w : xdp2_timer_wheel) (id : Z) : outcome (xdp2_timer_wheel * bool) :=
  let ret := running w in
  let w := if ret then TIMER_BUMP_STAT remove_wheel_running w else w in
  t ← deref (timers w !! id);
  if negb (timer_set t) then mret (w, ret) else
  w ← timer_remove_locked w id;
  mret (TIMER_BUMP_STAT remove_timers w, ret).

(** The end of [__xdp2_timer_add]: the new timer may be the next to expire. *)
Definition timer_arm (w : xdp2_timer_wheel) (current_time expire_time : Z) : outcome xdp2_timer_wheel :=
  if xdp2_seqno_ul_lt expire_time (next_expire_time w) || (next_expire_time w =? last_runtime w) then
    let w := if next_expire_time w =? last_runtime w then set_last_runtime current_time w else w in
    let w := set_next_expire_time expire_time w in
    _ ← XDP2_ASSERT (xdp2_seqno_ul_gt (next_expire_time w) (last_runtime w));
    mret (set_next_timer_pop w)
  else mret w.

(** The part of [__xdp2_timer_add] after an old setting of the timer was
    removed. *)
Definition timer_insert (w : xdp2_timer_wheel) (id current_time expire_time : Z) : outcome xdp2_timer_wheel :=
  t ← deref (timers w !! id);
  let g := expire_time / num_slots w in
  let i := expire_time mod num_slots w in
  l ← get_slot w i;
  let w := put_slot i (id :: l) w in
  bm ← bm_set (slot_bitmap w) i;
  let w := set_slot_bitmap bm w in
  let w := put_timer id (Timer (callback t) (arg t) true g i) w in
  let w := set_timer_count (s32 (timer_count w + 1)) w in
  w ← timer_arm w current_time expire_time;
  mret (TIMER_BUMP_STAT add_timers w).

Definition __xdp2_timer_add (w : xdp2_timer_wheel) (id delay : Z) (not_running : bool)
  : outcome xdp2_timer_wheel :=
  let delay := if delay =? 0 then 1 else delay in
  let current_time := get_current_time w in
  let expire_time := u64 (current_time + delay) in
  _ ← XDP2_ASSERT (xdp2_seqno_ul_gt expire_time current_time);
  t ← deref (timers w !! id);
  if timer_set t then
    if not_running then mret (TIMER_BUMP_STAT add_already_running w) else
    w ← timer_remove_locked (TIMER_BUMP_STAT change_timers w) id;
    timer_insert w id current_time expire_time
  else timer_insert w id current_time expire_time.

Definition xdp2_timer_add w id delay := __xdp2_timer_add w id delay false.
Definition xdp2_timer_add_not_running w id delay := __xdp2_timer_add w id delay true.

(** ** Running the wheel *)

Section Run.
(** What happens while the mutex is released to invoke a batch of callbacks. *)
Context (env : list (Z * Z) -> xdp2_timer_wheel -> outcome xdp2_timer_wheel).

(** One pass over a slot, up to a full batch of eight callbacks. *)
Fixpoint scan_slot (l : list Z) (w : xdp2_timer_wheel) (i gen_mx old_gen_mx : Z)
  (cbs : list (Z * Z)) (count : Z) : outcome (xdp2_timer_wheel * list (Z * Z) * Z * bool) :=
  match l with
  | [] => mret (w, cbs, count, false)
  | id :: l =>
    t ← deref (timers w !! id);
    let t_gen_mx := u64 (gen t * num_slots w) in
    _ ← XDP2_ASSERT (xdp2_seqno_ul_gte t_gen_mx old_gen_mx);
    if xdp2_seqno_ul_gt t_gen_mx gen_mx then scan_slot l w i gen_mx old_gen_mx cbs count else
    q ← get_slot w i;
    q' ← cq_remove id q;
    let w := put_slot i q' w in
    let w := put_timer id (clear_set t) w in
    let w := set_timer_count (s32 (timer_count w - 1)) w in
    let cbs := cbs ++ [(callback t, arg t)] in
    if (8 <=? length cbs)%nat then mret (w, cbs, count + 1, true)
    else scan_slot l w i gen_mx old_gen_mx cbs (count + 1)
  end.

(** [fuel] bounds the number of passes over the slot. *)
Fixpoint run_slot (fuel : nat) (w : xdp2_timer_wheel) (i g old_gen : Z)
  : outcome (xdp2_timer_wheel * Z) :=
  match fuel with
  | O => NoFuel
  | S fuel =>
    let old_gen_mx := u64 (old_gen * num_slots w) in
    let gen_mx := u64 (g * num_slots w) in
    l ← get_slot w i;
    '(w, cbs, count, full) ← scan_slot l w i gen_mx old_gen_mx [] 0;
    if full : bool then
      w ← env cbs w;
      run_slot fuel (TIMER_BUMP_STAT slot_retries w) i g old_gen
    else
      q ← get_slot w i;
      bm ← (if decide (q = []) then bm_unset (slot_bitmap w) i else mret (slot_bitmap w));
      let w := set_slot_bitmap bm w in
      w ← (if decide (cbs = []) then mret w else env cbs w);
      mret (w, count)
  end.

(** [xdp2_bitmap_foreach_bit] with [count += run_slot(...)] as its body. *)
Definition run_slots (fuel : nat) (w : xdp2_timer_wheel) (count i nbits g old_gen : Z)
  : outcome (xdp2_timer_wheel * Z) :=
  '(st, _) ← xdp2_bitmap_foreach_bit 64 (fun v => v) 0 (fun st => slot_bitmap (fst st))
       (fun st p => '(w, c) ← run_slot fuel (fst st) p g old_gen; mret (w, u32 (snd st + c)))
       (w, count) i nbits;
  mret st.

(** The search for the next expiration after a run. *)
Definition find_next_pop (w : xdp2_timer_wheel) (new_gen last_index : Z) : outcome xdp2_timer_wheel :=
  i ← bm_find (slot_bitmap w) last_index (num_slots w);
  if i <? num_slots w then
    mret (set_next_timer_pop (set_next_expire_time (u64 (new_gen * num_slots w + i)) w))
  else
    i ← bm_find (slot_bitmap w) 0 last_index;
    if i <? last_index then
      mret (set_next_timer_pop (set_next_expire_time (u64 ((new_gen + 1) * num_slots w + i)) w))
    else mret w.

(** The slots of the generations that have passed, and the index to go on
    from. *)
Definition run_old_gens (fuel : nat) (w : xdp2_timer_wheel) (old_gen new_gen i : Z)
  : outcome (xdp2_timer_wheel * Z * Z) :=
  if old_gen =? new_gen then mret (TIMER_BUMP_STAT timer_wheel_same_gen w, 0, i)
  else if u64 (old_gen + 1) =? new_gen then
    '(w, count) ← run_slots fuel w 0 i (num_slots w) (u64 (new_gen - 1)) old_gen;
    mret (TIMER_BUMP_STAT timer_wheel_next_gen w, count, 0)
  else
    '(w, count) ← run_slots fuel w 0 0 (num_slots w) (u64 (new_gen - 1)) old_gen;
    mret (TIMER_BUMP_STAT timer_wheel_skip_gens w, count, 0).

(** One run; the second component asks for another. *)
Definition run_once (fuel : nat) (w : xdp2_timer_wheel) : outcome (xdp2_timer_wheel * bool) :=
  let current_time := get_current_time w in
  if running w then mret (set_run_again true w, false) else
  let w := TIMER_BUMP_STAT run_timer_wheel (set_running true w) in
  let old_gen := last_runtime w / num_slots w in
  let new_gen := u64 (current_time + 1) / num_slots w in
  _ ← XDP2_ASSERT (xdp2_seqno_ul_lte (last_runtime w) current_time);
  let i := last_runtime w mod num_slots w in
  '(w, count, i) ← run_old_gens fuel w old_gen new_gen i;
  let last_index := u64 (current_time + 1) mod num_slots w in
  '(w, count) ← run_slots fuel w count i last_index new_gen old_gen;
  let w := set_last_runtime current_time w in
  let w := TIMER_ADD_STAT timer_expires count w in
  w ← find_next_pop w new_gen last_index;
  let w := if count =? 0 then TIMER_BUMP_STAT spurious_run_timer_wheel w else w in
  if run_again w then
    mret (TIMER_BUMP_STAT run_timer_wheel_retries (set_running false (set_run_again false w)), true)
  else mret (set_running false w, false).

(** [runs] bounds the number of times the run is repeated because another
    thread asked for it. *)
Fixpoint __xdp2_run_timer_wheel_locked (runs fuel : nat) (w : xdp2_timer_wheel)
  : outcome xdp2_timer_wheel :=
  match runs with
  | O => NoFuel
  | S runs =>
    '(w, again) ← run_once fuel w;
    if again : bool then __xdp2_run_timer_wheel_locked runs fuel w else mret w
  end.

Definition xdp2_run_timer_wheel := __xdp2_run_timer_wheel_locked.

(** ** The timer thread *)

Definition timer_thread_init (w : xdp2_timer_wheel) : xdp2_timer_wheel :=
  let w := set_last_runtime (get_current_time w) w in
  set_next_expire_time (u64 (last_runtime w + 1)) w.

(** What [pthread_cond_timedwait] returns: zero, [ETIMEDOUT], another error. *)
Inductive wait_result := WSignaled | WTimedOut | WError.

(** One turn of the loop; [wait] is the wait until a time, during which the
    mutex is released, and [now] the time of [clock_gettime]. *)
Definition timer_thread_turn (runs fuel : nat)
  (wait : timespec -> xdp2_timer_wheel -> outcome (xdp2_timer_wheel * wait_result))
  (now : xdp2_timer_wheel -> timespec) (w : xdp2_timer_wheel) : outcome xdp2_timer_wheel :=
  ts ← time_units_to_ts w (next_expire_time w);
  _ ← XDP2_ASSERT (xdp2_seqno_ul_gt (next_expire_time w) (last_runtime w));
  '(w, r) ← wait ts w;
  match r with
  | WSignaled => mret (TIMER_BUMP_STAT timer_thread_signaled w)
  | WError => Crash
  | WTimedOut =>
    ts ← future_ts w (now w) (10 * 1000000000 / time_units w);
    let w := set_next_expire_time (ts_to_time_units w ts) w in
    __xdp2_run_timer_wheel_locked runs fuel w
  end.
End Run.

(** ** Creating a wheel

    [junk] stands for what [malloc] returns: the fields that are not set keep
    its contents. *)
Definition __xdp2_timer_create_wheel (num_slots_order : Z) (has_pop : bool) (units : Z)
  (junk : xdp2_timer_wheel) : option xdp2_timer_wheel :=
  if units =? 0 then None else
  let n := Z.shiftl 1 num_slots_order in
  Some (Wheel n has_pop units (1000000000 / units)
          (slot_bitmap junk) (next_expire_time junk) (last_runtime junk) (timer_count junk)
          (running junk) (run_again junk) (stats junk) (replicate (Z.to_nat n) [])
          (timers junk) (clock junk) (log junk)).

(** [set_next_timer_pop] must be given. *)
Definition xdp2_timer_create_wheel (num_slots_order : Z) (has_pop : bool) (units : Z)
  (junk : xdp2_timer_wheel) : option xdp2_timer_wheel :=
  if negb has_pop then None else __xdp2_timer_create_wheel num_slots_order has_pop units junk.

(** With a timer thread; [now] is the time of [clock_gettime]. The thread
    primitives succeed. *)
Definition xdp2_timer_create_wheel_with_timer_thread (num_slots_order units : Z)
  (junk : xdp2_timer_wheel) (now : timespec) : outcome (option xdp2_timer_wheel) :=
  match __xdp2_timer_create_wheel num_slots_order false units junk with
  | None => mret None
  | Some w =>
    ts ← future_ts w now (10 * 1000000000 / time_units w);
    mret (Some (set_next_expire_time (ts_to_time_units w ts) w))
  end.

(** ** Showing timers *)

(** The expiration time a listing prints, and the listing of all slots. *)
Definition show_expire (w : xdp2_timer_wheel) (t : xdp2_timer) : Z :=
  u64 (u64 (gen t * num_slots w) + index t).

Definition show_slot (w : xdp2_timer_wheel) (i : Z) : outcome (list (Z * Z * Z)) :=
  l ← get_slot w i;
  foldr (fun id acc => t ← deref (timers w !! id); r ← acc; mret ((gen t, index t, show_expire w t) :: r))
        (mret []) l.

Definition show_timers (w : xdp2_timer_wheel) : outcome (list (Z * list (Z * Z * Z))) :=
  '(out, _) ← xdp2_bitmap_foreach_bit 64 (fun v => v) 0 (fun _ => slot_bitmap w)
     (fun out p => s ← show_slot w p; mret (out ++ [(p, s)])) [] 0 (num_slots w);
  mret out.
