(* ===== verification/TimerSpec.v ===== *)
(** * Timers: the invariant of the wheel

    What holds of a wheel between operations, and that adding and removing
    timers return and keep it. *)

From stdpp Require Import base list gmap numbers.
From S2P Require Import Prelude BitmapWord Bitmap BitmapSpec BitmapOps BitmapProps Timer.

(** ** The invariant *)

Definition slot_at (sl : list (list Z)) (i : Z) : list Z := default [] (sl !! Z.to_nat i).
Definition slot (w : xdp2_timer_wheel) (i : Z) : list Z := slot_at (slots w) i.

(** The time a timer expires at. *)
Definition expires (n : Z) (t : xdp2_timer) : Z := gen t * n + index t.

Definition is_set (kt : Z * xdp2_timer) : Prop := timer_set kt.2 = true.
#[global] Instance is_set_dec kt : Decision (is_set kt).
Proof. unfold is_set. apply _. Defined.

(** The timers in the wheel. *)
Definition set_timers_of (tm : gmap Z xdp2_timer) : gmap Z xdp2_timer := filter is_set tm.

Definition slot_bit (bm : list Z) (i : Z) : bool := bm_bit 64 (fun v => v) 0 bm i.

(** The invariant on the parts of a wheel: [n] slots, their bitmap, the last run,
    the clock, the next expiration, the number of timers, the slots and the timer
    structures. Times stay below [2^63], so that the comparison of sequence
    numbers is the comparison of times. *)
Definition parts_inv (n : Z) (bm : list Z) (last clk next cnt : Z) (sl : list (list Z))
  (tm : gmap Z xdp2_timer) : Prop :=
  0 < n < 2 ^ 31 /\ Z.of_nat (length sl) = n /\ holds_bits (w := 64) (nw := 0) bm n /\
  (0 <= last <= clk /\ clk + 2 ^ 32 < 2 ^ 63 /\ 0 <= next < 2 ^ 63) /\
  (forall i, 0 <= i < n -> slot_at sl i <> [] -> slot_bit bm i = true) /\
  (forall i, 0 <= i < n -> NoDup (slot_at sl i)) /\
  (forall i id, 0 <= i < n ->
     id ∈ slot_at sl i <-> exists t, tm !! id = Some t /\ timer_set t = true /\ index t = i) /\
  (forall id t, tm !! id = Some t -> timer_set t = true ->
     0 <= index t < n /\ 0 <= gen t /\ last < expires n t < 2 ^ 63) /\
  (cnt = Z.of_nat (size (set_timers_of tm)) /\ Z.of_nat (size tm) < 2 ^ 31).

Definition wheel_inv (w : xdp2_timer_wheel) : Prop :=
  parts_inv (num_slots w) (slot_bitmap w) (last_runtime w) (clock w) (next_expire_time w)
            (timer_count w) (slots w) (timers w).

(** A timer that is in the wheel. *)
Definition pending (w : xdp2_timer_wheel) (id : Z) (t : xdp2_timer) : Prop :=
  timers w !! id = Some t /\ timer_set t = true.

(** ** Sequence numbers below [2^63] *)

Lemma seqno_gt x y : 0 <= x < 2 ^ 63 -> 0 <= y < 2 ^ 63 -> xdp2_seqno_ul_gt x y = (y <? x).
Proof.
  intros Hx Hy. unfold xdp2_seqno_ul_gt, xdp2_seqno_ul_diff.
  destruct (Z.ltb_spec y x).
  - rewrite u64_neg by lia. apply Z.ltb_lt. lia.
  - rewrite u64_small by lia. apply Z.ltb_ge. lia.
Qed.

Lemma seqno_lt x y : 0 <= x < 2 ^ 63 -> 0 <= y < 2 ^ 63 -> xdp2_seqno_ul_lt x y = (x <? y).
Proof. intros Hx Hy. by apply seqno_gt. Qed.

Lemma seqno_gte x y : 0 <= x < 2 ^ 63 -> 0 <= y < 2 ^ 63 -> xdp2_seqno_ul_gte x y = (y <=? x).
Proof.
  intros Hx Hy. unfold xdp2_seqno_ul_gte. rewrite seqno_lt by done.
  destruct (Z.ltb_spec x y), (Z.leb_spec y x); (done || lia).
Qed.

Lemma seqno_lte x y : 0 <= x < 2 ^ 63 -> 0 <= y < 2 ^ 63 -> xdp2_seqno_ul_lte x y = (x <=? y).
Proof.
  intros Hx Hy. unfold xdp2_seqno_ul_lte. rewrite seqno_gt by done.
  destruct (Z.ltb_spec y x), (Z.leb_spec x y); (done || lia).
Qed.

(** ** Slots and the count of timers *)

Lemma slot_at_insert sl i j l :
  0 <= i < Z.of_nat (length sl) -> 0 <= j -> slot_at (<[Z.to_nat i := l]> sl) j = if j =? i then l else slot_at sl j.
Proof.
  intros Hi Hj. unfold slot_at. destruct (Z.eqb_spec j i) as [-> | Hne].
  - by rewrite list_lookup_insert_eq by lia.
  - rewrite list_lookup_insert_ne; [done |]. lia.
Qed.

Lemma get_slot_ok w i :
  0 <= i < Z.of_nat (length (slots w)) -> get_slot w i = Done (slot w i).
Proof.
  intros Hi. unfold get_slot, slot, slot_at. destruct (Z.ltb_spec i 0); [lia |].
  destruct (lookup_lt_is_Some_2 (slots w) (Z.to_nat i)) as [l ->]; [lia |]. done.
Qed.

Lemma cq_remove_ok id l : id ∈ l -> cq_remove id l = Done (filter (fun x => x <> id) l).
Proof. intros H. unfold cq_remove. by rewrite decide_True. Qed.

Lemma set_count_clear tm id t :
  tm !! id = Some t -> timer_set t = true ->
  Z.of_nat (size (set_timers_of (<[id := clear_set t]> tm))) = Z.of_nat (size (set_timers_of tm)) - 1.
Proof.
  intros Ht Hs. unfold set_timers_of. rewrite map_filter_insert_False by done.
  rewrite map_filter_delete. rewrite map_size_delete_Some.
  - assert (filter is_set tm !! id = Some t) as E by (apply map_lookup_filter_Some; done).
    assert (size (filter is_set tm) <> 0%nat); [| lia].
    intros E0%map_size_empty_inv. rewrite E0 in E. by rewrite lookup_empty in E.
  - exists t. by apply map_lookup_filter_Some.
Qed.

Lemma set_count_set tm id t t' :
  tm !! id = Some t -> timer_set t = false -> timer_set t' = true ->
  Z.of_nat (size (set_timers_of (<[id := t']> tm))) = Z.of_nat (size (set_timers_of tm)) + 1.
Proof.
  intros Ht Hs Hs'. unfold set_timers_of. rewrite map_filter_insert_True by done.
  rewrite map_size_insert_None; [lia |]. apply map_lookup_filter_None. right.
  intros x Hx. rewrite Ht in Hx. injection Hx as <-. unfold is_set. simpl. by rewrite Hs.
Qed.

Lemma set_count_le tm : Z.of_nat (size (set_timers_of tm)) <= Z.of_nat (size tm).
Proof. apply Nat2Z.inj_le, map_subseteq_size, map_filter_subseteq. Qed.

Lemma size_insert_same {A} (tm : gmap Z A) id t t' : tm !! id = Some t -> size (<[id := t']> tm) = size tm.
Proof. intros H. rewrite map_size_insert_Some; [done |]. eauto. Qed.

(** ** Changing the parts *)

(** A timer leaves its slot. *)
Lemma parts_remove n bm last clk next cnt sl tm id t :
  parts_inv n bm last clk next cnt sl tm -> tm !! id = Some t -> timer_set t = true ->
  parts_inv n bm last clk next (s32 (cnt - 1))
    (<[Z.to_nat (index t) := filter (fun x => x <> id) (slot_at sl (index t))]> sl)
    (<[id := clear_set t]> tm).
Proof.
  intros (Hn & Hl & Hb & Hc & Hbit & Hnd & Hin & Htm & Hcnt & Hsz) Ht Hs.
  destruct (Htm id t Ht Hs) as (Hi & Hg & He).
  split; [done |]. split; [by rewrite length_insert |]. split; [done |]. split; [done |]. split_and!.
  - intros i Hr Hne. apply Hbit; [done |]. rewrite slot_at_insert in Hne by lia.
    destruct (Z.eqb_spec i (index t)) as [-> | ]; [| done]. intros E. apply Hne. by rewrite E.
  - intros i Hr. rewrite slot_at_insert by lia. destruct (Z.eqb_spec i (index t)); [| by apply Hnd].
    apply list.NoDup_filter. by apply Hnd.
  - intros i id' Hr. rewrite slot_at_insert by lia.
    destruct (decide (id' = id)) as [-> | Hne].
    + rewrite lookup_insert_eq. split.
      * destruct (Z.eqb_spec i (index t)) as [-> | Hii].
        { intros [? _]%list_elem_of_filter. done. }
        intros (t' & E & _ & <-)%Hin; [| done]. rewrite Ht in E. by injection E as <-.
      * intros (t' & [= <-] & E & _). done.
    + rewrite lookup_insert_ne by done. rewrite <- Hin by done.
      destruct (Z.eqb_spec i (index t)) as [-> | Hii]; [| done].
      rewrite list_elem_of_filter. intuition.
  - intros id' t' E S. apply (Htm id'); [| done]. destruct (decide (id' = id)) as [-> | Hne].
    + rewrite lookup_insert_eq in E. injection E as <-. done.
    + by rewrite lookup_insert_ne in E.
  - rewrite (set_count_clear tm id t Ht Hs), Hcnt.
    pose proof (set_count_le tm). apply sext_small; lia.
  - by rewrite (size_insert_same tm id t).
Qed.

Lemma holds_bits_upd bm bm' lo hi g n :
  bm_upd 64 (fun v => v) 0 bm bm' lo hi g -> holds_bits (w := 64) (nw := 0) bm n ->
  holds_bits (w := 64) (nw := 0) bm' n.
Proof. intros U (_ & H). pose proof (upd_words _ _ _ _ _ U) as E. split; [by eapply upd_ok | by rewrite E]. Qed.

(** The bit of an empty slot is cleared. *)
Lemma parts_unset n bm last clk next cnt sl tm i :
  parts_inv n bm last clk next cnt sl tm -> 0 <= i < n -> slot_at sl i = [] ->
  exists bm', bm_unset bm i = Done bm' /\ parts_inv n bm' last clk next cnt sl tm.
Proof.
  intros (Hn & Hl & Hb & Hc & Hbit & Hrest) Hi He. pose proof Hb as (Hok & Hw & Hlim & H32).
  destruct (bit_unset_upd (w := 64) (conv := fun v => v) (nw := 0) ltac:(unfold word_bits; lia) bm i Hok ltac:(lia))
    as (bm' & E & U). pose proof U as (_ & _ & Hbits).
  exists bm'. split; [exact E |].
  split; [done |]. split; [done |]. split; [by eapply holds_bits_upd |]. split; [done |]. split; [| done].
  intros j Hj Hne. unfold slot_bit. rewrite Hbits by lia.
    destruct (Z.leb_spec i j), (Z.ltb_spec j (i + 1)); simpl; try (by apply Hbit).
    replace j with i in Hne by lia. done.
Qed.

(** A timer that is not set enters a slot. *)
Lemma parts_insert n bm last clk next cnt sl tm id t t' :
  parts_inv n bm last clk next cnt sl tm -> tm !! id = Some t -> timer_set t = false ->
  timer_set t' = true -> 0 <= index t' < n -> 0 <= gen t' -> last < expires n t' < 2 ^ 63 ->
  exists bm', bm_set bm (index t') = Done bm' /\
    parts_inv n bm' last clk next (s32 (cnt + 1))
      (<[Z.to_nat (index t') := id :: slot_at sl (index t')]> sl) (<[id := t']> tm).
Proof.
  intros (Hn & Hl & Hb & Hc & Hbit & Hnd & Hin & Htm & Hcnt & Hsz) Ht Hs Hs' Hi Hg He.
  pose proof Hb as (Hok & Hw & Hlim & H32).
  destruct (bit_set_upd (w := 64) (conv := fun v => v) (nw := 0) ltac:(unfold word_bits; lia) bm (index t') Hok ltac:(lia))
    as (bm' & E & U). pose proof U as (_ & _ & Hbits). pose proof (holds_bits_upd _ _ _ _ _ _ U Hb) as Hb'.
  assert (forall i, 0 <= i < n -> id ∉ slot_at sl i) as Hnot.
  { intros i Hr (t0 & E0 & S0 & _)%Hin; [| done]. rewrite Ht in E0. injection E0 as <-. congruence. }
  exists bm'. split; [exact E |].
  split; [done |]. split; [by rewrite length_insert |]. split; [done |]. split; [done |]. split_and!.
  - intros j Hj Hne. unfold slot_bit. rewrite Hbits by lia. rewrite slot_at_insert in Hne by lia.
    destruct (Z.leb_spec (index t') j), (Z.ltb_spec j (index t' + 1)); simpl; try done;
      (apply Hbit; [done |]; destruct (Z.eqb_spec j (index t')); [lia | done]).
  - intros i Hr. rewrite slot_at_insert by lia. destruct (Z.eqb_spec i (index t')) as [-> | ]; [| by apply Hnd].
    apply NoDup_cons_2; [by apply Hnot | by apply Hnd].
  - intros i id' Hr. rewrite slot_at_insert by lia. destruct (decide (id' = id)) as [-> | Hne].
    + rewrite lookup_insert_eq. split.
      * destruct (Z.eqb_spec i (index t')) as [-> | Hii]; [by eauto |]. by intros ?%Hnot.
      * intros (t0 & [= <-] & _ & <-). rewrite Z.eqb_refl. by left.
    + rewrite lookup_insert_ne by done. rewrite <- Hin by done.
      destruct (Z.eqb_spec i (index t')) as [-> | Hii]; [| done].
      rewrite elem_of_cons. intuition.
  - intros id' t0 E0 S0. destruct (decide (id' = id)) as [-> | Hne].
    + rewrite lookup_insert_eq in E0. injection E0 as <-. done.
    + rewrite lookup_insert_ne in E0 by done. by apply (Htm id').
  - rewrite (set_count_set tm id t t' Ht Hs Hs'), Hcnt. apply sext_small; [lia |].
    pose proof (set_count_le (<[id := t']> tm)) as L. rewrite (set_count_set tm id t t' Ht Hs Hs') in L.
    rewrite (size_insert_same tm id t) in L by done. lia.
  - by rewrite (size_insert_same tm id t).
Qed.

(** ** Operations *)

Lemma pending_index w id t :
  wheel_inv w -> pending w id t ->
  0 <= index t < num_slots w /\ 0 <= gen t /\ last_runtime w < expires (num_slots w) t < 2 ^ 63 /\
  id ∈ slot w (index t).
Proof.
  intros (Hn & Hl & Hb & Hc & Hbit & Hnd & Hin & Htm & Hcnt & Hsz) [Ht Hs].
  destruct (Htm id t Ht Hs) as (Hi & Hg & He). split_and!; try done; try lia.
  apply Hin; [done |]. eauto.
Qed.

(** What an operation leaves as it is. *)
Definition same_setup (w w' : xdp2_timer_wheel) : Prop :=
  num_slots w' = num_slots w /\ has_set_next_timer_pop w' = has_set_next_timer_pop w /\
  time_units w' = time_units w /\ time_div w' = time_div w.

Lemma timer_remove_locked_ok w id t :
  wheel_inv w -> pending w id t ->
  exists w', timer_remove_locked w id = Done w' /\ wheel_inv w' /\
    timers w' = <[id := clear_set t]> (timers w) /\ same_setup w w' /\
    next_expire_time w' = next_expire_time w /\ last_runtime w' = last_runtime w /\ clock w' = clock w /\
    log w' = log w /\ running w' = running w /\ run_again w' = run_again w.
Proof.
  intros Hinv Hp. destruct (pending_index w id t Hinv Hp) as (Hi & Hg & He & Hin). destruct Hp as [Ht Hs].
  assert (Z.of_nat (length (slots w)) = num_slots w) as Hlen by apply Hinv.
  unfold timer_remove_locked. rewrite Ht. orun. rewrite Hs. simpl.
  rewrite get_slot_ok by lia. rewrite cq_remove_ok by done.
  pose proof (parts_remove _ _ _ _ _ _ _ _ id t Hinv Ht Hs) as Hinv'.
  case_decide as E.
  - destruct (parts_unset _ _ _ _ _ _ _ _ (index t) Hinv') as (bm' & Eb & Hinv2); [done | |].
    { rewrite slot_at_insert by lia. rewrite Z.eqb_refl. exact E. }
    change (slot_bitmap (put_slot ?i ?l w)) with (slot_bitmap w). rewrite Eb. orun. eexists. split; [done |].
    split; [exact Hinv2 | done].
  - eexists. split; [done |]. split; [exact Hinv' | done].
Qed.

(** ** Pops

    The wheel asks to be run again by calling [set_next_timer_pop]. It is armed
    when it has asked for a time that is not after any expiration; a
    [next_expire_time] equal to [last_runtime] says that it has not asked. *)

Definition last_pop (l : list event) : option Z :=
  foldl (fun p e => match e with NextPop t => Some t | _ => p end) None l.

Lemma last_pop_snoc l e : last_pop (l ++ [e]) = match e with NextPop t => Some t | _ => last_pop l end.
Proof. unfold last_pop. by rewrite foldl_snoc. Qed.

Definition none_pending (w : xdp2_timer_wheel) : Prop := forall id t, ~ pending w id t.

(** What holds of the times of every wheel; [armed] may fail after a late run. *)
Definition idle_ok (w : xdp2_timer_wheel) : Prop := next_expire_time w = last_runtime w -> none_pending w.

Definition armed (w : xdp2_timer_wheel) : Prop :=
  (next_expire_time w = last_runtime w /\ none_pending w) \/
  (last_runtime w < next_expire_time w /\
   (forall id t, pending w id t -> next_expire_time w <= expires (num_slots w) t) /\
   (has_set_next_timer_pop w = true -> last_pop (log w) = Some (next_expire_time w))).

Lemma armed_idle w : armed w -> idle_ok w.
Proof. intros [[_ Hn] | [H _]] E; [done | lia]. Qed.

Lemma armed_next w id t : armed w -> pending w id t -> last_runtime w < next_expire_time w.
Proof. intros [[_ Hn] | [H _]] Hp; [by destruct (Hn id t) | done]. Qed.

(** What the environment of the wheel sees: the flags and the clock. *)
Definition same_env (w w' : xdp2_timer_wheel) : Prop :=
  same_setup w w' /\ clock w' = clock w /\ running w' = running w /\ run_again w' = run_again w.

(** New times for the last run and the next expiration. *)
Lemma parts_times n bm last clk next cnt sl tm last' next' :
  parts_inv n bm last clk next cnt sl tm -> 0 <= last' <= clk -> 0 <= next' < 2 ^ 63 ->
  (forall id t, tm !! id = Some t -> timer_set t = true -> last' < expires n t) ->
  parts_inv n bm last' clk next' cnt sl tm.
Proof.
  intros (P1 & P2 & P3 & (P4 & P4' & P4'') & P5 & P6 & P7 & P8 & P9) Hl Hn Ht.
  split; [done |]. split; [done |]. split; [done |]. split; [done |]. split; [done |]. split; [done |].
  split; [done |]. split; [| done]. intros id t E S. destruct (P8 id t E S) as (? & ? & ?).
  specialize (Ht id t E S). lia.
Qed.

Lemma wheel_inv_pop w : wheel_inv w -> wheel_inv (set_next_timer_pop w).
Proof. unfold set_next_timer_pop. by destruct (has_set_next_timer_pop w). Qed.

Lemma wheel_inv_stat s n w : wheel_inv w -> wheel_inv (TIMER_ADD_STAT s n w).
Proof. exact (fun H => H). Qed.

(** How arming changes the times. *)
Definition arm_result (w w' : xdp2_timer_wheel) (e : Z) : Prop :=
  (last_runtime w' = last_runtime w /\ next_expire_time w' = next_expire_time w /\
   log w' = log w /\ next_expire_time w <= e /\ next_expire_time w <> last_runtime w) \/
  (last_runtime w' < e /\ next_expire_time w' = e /\
   (next_expire_time w <> last_runtime w -> last_runtime w' = last_runtime w /\ e < next_expire_time w) /\
   (has_set_next_timer_pop w = true -> log w' = log w ++ [NextPop e])).

Lemma timer_arm_ok w e :
  wheel_inv w -> clock w < e < 2 ^ 63 ->
  (next_expire_time w = last_runtime w -> forall id t, pending w id t -> clock w < expires (num_slots w) t) ->
  exists w', timer_arm w (clock w) e = Done w' /\ wheel_inv w' /\ same_env w w' /\
    timers w' = timers w /\ arm_result w w' e.
Proof.
  intros Hinv He Hnone. pose proof Hinv as (_ & _ & _ & (Hlast & Hclk & Hnx) & _).
  unfold timer_arm. rewrite seqno_lt by lia.
  destruct (Z.eqb_spec (next_expire_time w) (last_runtime w)) as [Enl | Enl].
  - rewrite orb_true_r. cbn [next_expire_time last_runtime set_next_expire_time set_last_runtime].
    rewrite seqno_gt by lia. destruct (Z.ltb_spec (clock w) e); [| lia]. cbn [XDP2_ASSERT]. orun.
    eexists. split; [done |]. split.
    { apply wheel_inv_pop. eapply parts_times; [exact Hinv | cbn; lia | cbn; lia |].
      intros id t E S. by apply (Hnone Enl id). }
    unfold set_next_timer_pop, arm_result. cbn. destruct (has_set_next_timer_pop w) eqn:Ep; cbn;
      (split_and!; try done; right; split_and!; (done || lia)).
  - rewrite orb_false_r. destruct (Z.ltb_spec e (next_expire_time w)) as [Hlt | Hge].
    + cbn [next_expire_time last_runtime set_next_expire_time].
      rewrite seqno_gt by lia. destruct (Z.ltb_spec (last_runtime w) e); [| lia]. cbn [XDP2_ASSERT]. orun.
      eexists. split; [done |]. split.
      { apply wheel_inv_pop. eapply parts_times; [exact Hinv | cbn; lia | cbn; lia |].
        intros id t E S. by apply (pending_index w id t Hinv). }
      unfold set_next_timer_pop, arm_result. cbn. destruct (has_set_next_timer_pop w) eqn:Ep; cbn;
        (split_and!; try done; right; split_and!; (done || lia)).
    + exists w. split; [done |]. split; [done |]. split_and!; try done. left. split_and!; (done || lia).
Qed.

Lemma timer_insert_ok w id t e :
  wheel_inv w -> timers w !! id = Some t -> timer_set t = false ->
  clock w < e <= clock w + 2 ^ 32 ->
  idle_ok w ->
  exists w' t', timer_insert w id (clock w) e = Done w' /\ wheel_inv w' /\ same_env w w' /\
    timers w' = <[id := t']> (timers w) /\ timer_set t' = true /\ expires (num_slots w) t' = e /\
    callback t' = callback t /\ arg t' = arg t /\ arm_result w w' e.
Proof.
  intros Hinv Ht Hs He Hnone. pose proof Hinv as (Hn & Hlen & _ & (Hlast & Hclk & Hnx) & _).
  set (n := num_slots w) in *. set (t' := Timer (callback t) (arg t) true (e / n) (e mod n)).
  pose proof (Z.mod_pos_bound e n ltac:(lia)) as Hm. pose proof (Z.div_mod e n ltac:(lia)) as Dm.
  pose proof (Z.div_pos e n ltac:(lia) ltac:(lia)) as Dp.
  assert (expires n t' = e) as Ee by (unfold expires; simpl; lia).
  destruct (parts_insert _ _ _ _ _ _ _ _ id t t' Hinv Ht Hs) as (bm' & Eb & Hinv'); [done | simpl; lia | done | fold n; lia |].
  unfold timer_insert. rewrite Ht. orun. fold n. rewrite get_slot_ok by lia.
  change (slot_bitmap (put_slot ?i ?l w)) with (slot_bitmap w).
  change (index t') with (e mod n) in Eb. rewrite Eb. orun.
  set (w1 := set_timer_count _ _) in *.
  destruct (timer_arm_ok w1 e Hinv') as (w2 & E2 & Hinv2 & Henv & Etm & Harm);
    [change (clock w1) with (clock w); lia | |].
  { intros Enl id' t0 [E0 S0]. change (timers w1) with (<[id := t']> (timers w)) in E0.
    destruct (decide (id' = id)) as [-> | Hne].
    - rewrite lookup_insert_eq in E0. injection E0 as <-. change (clock w1) with (clock w).
      change (num_slots w1) with n. lia.
    - rewrite lookup_insert_ne in E0 by done. by destruct (Hnone Enl id' t0). }
  change (clock w1) with (clock w) in E2. rewrite E2. eexists _, t'. split; [done |].
  split_and!; try done. all: try apply Henv.
Qed.

(** ** Steps of the users of a wheel

    What callbacks and other threads do to a wheel: add, change and remove
    timers, ask for a run while one is in progress, let time pass, provide a new
    timer structure; and the invocation of a callback itself. *)
Inductive api_step : xdp2_timer_wheel -> xdp2_timer_wheel -> Prop :=
| api_add w id delay nr w' :
    is_Some (timers w !! id) -> 0 <= delay < 2 ^ 32 ->
    __xdp2_timer_add w id delay nr = Done w' -> api_step w w'
| api_remove w id w' r :
    is_Some (timers w !! id) -> xdp2_timer_remove w id = Done (w', r) -> api_step w w'
| api_request w : running w = true -> api_step w (set_run_again true w)
| api_tick w t : clock w <= t -> t + 2 ^ 32 < 2 ^ 63 -> api_step w (set_clock t w)
| api_new w id t :
    timers w !! id = None -> timer_set t = false -> Z.of_nat (size (timers w)) + 1 < 2 ^ 31 ->
    api_step w (put_timer id t w)
| api_fire w cb a : api_step w (add_log (Fire cb a) w).

(** The timers of [w'] are timers of [w] or expire after [cur]. *)
Definition only_future (cur : Z) (w w' : xdp2_timer_wheel) : Prop :=
  forall id t, pending w' id t -> pending w id t \/ cur < expires (num_slots w') t.

Lemma only_future_refl cur w : only_future cur w w.
Proof. intros id t H. by left. Qed.

Lemma only_future_trans cur w1 w2 w3 :
  num_slots w3 = num_slots w2 -> only_future cur w1 w2 -> only_future cur w2 w3 -> only_future cur w1 w3.
Proof.
  intros E H1 H2 id t H. destruct (H2 id t H) as [H' | H']; [| by right].
  destruct (H1 id t H') as [? | ?]; [by left | right; by rewrite E].
Qed.

Lemma pending_clear w w' id t :
  timers w' = <[id := clear_set t]> (timers w) ->
  forall i x, pending w' i x <-> i <> id /\ pending w i x.
Proof.
  intros E i x. unfold pending. rewrite E. destruct (decide (i = id)) as [-> | Hne].
  - rewrite lookup_insert_eq. split; [intros [[= <-] S]; done | by intros []].
  - rewrite lookup_insert_ne by done. intuition.
Qed.

Lemma pending_insert w w' id t :
  timers w' = <[id := t]> (timers w) -> timer_set t = true ->
  forall i x, pending w' i x <-> (i = id /\ x = t) \/ (i <> id /\ pending w i x).
Proof.
  intros E S i x. unfold pending. rewrite E. destruct (decide (i = id)) as [-> | Hne].
  - rewrite lookup_insert_eq. split; [intros [[= <-] _]; by left |]. intros [[_ ->] | []]; done.
  - rewrite lookup_insert_ne by done. intuition.
Qed.

(** Arming with the new timer keeps the wheel armed. *)
Lemma armed_arm w w' id t e :
  armed w -> same_setup w w' -> arm_result w w' e -> expires (num_slots w) t = e ->
  (forall i x, pending w' i x -> (i = id /\ x = t) \/ pending w i x) -> armed w'.
Proof.
  intros Ha (En & Ep & _) Harm Ee Hp. right. destruct Harm as [(E1 & E2 & E3 & Hle & Hne) | (Hlt & E2 & Hne & Hlog)].
  - destruct Ha as [[? _] | (Hln & Hall & Hpop)]; [done |].
    split_and!; [lia | | rewrite Ep, E3, E2; done].
    intros i x Hx. rewrite E2, En. destruct (Hp i x Hx) as [[-> ->] | Hx']; [lia | eauto].
  - split_and!; [lia | | rewrite Ep, E2; intros Hh; rewrite (Hlog Hh), last_pop_snoc; done].
    intros i x Hx. rewrite E2, En. destruct (Hp i x Hx) as [[-> ->] | Hx']; [lia |].
    destruct Ha as [[_ Hnone] | (Hln & Hall & _)]; [by destruct (Hnone i x) |].
    specialize (Hall i x Hx'). specialize (Hne ltac:(lia)). lia.
Qed.

Lemma armed_shrink w w' :
  armed w -> same_setup w w' -> next_expire_time w' = next_expire_time w -> last_runtime w' = last_runtime w ->
  last_pop (log w') = last_pop (log w) -> (forall i x, pending w' i x -> pending w i x) -> armed w'.
Proof.
  intros Ha (En & Ep & _) E1 E2 E3 Hp. unfold armed. rewrite En, Ep, E1, E2, E3.
  destruct Ha as [[E Hn] | (Hl & Hall & Hpop)]; [left | right].
  - split; [done |]. intros i x Hx. by apply (Hn i x), Hp.
  - split_and!; try done. intros i x Hx. eauto.
Qed.

Lemma xdp2_timer_remove_ok w id :
  wheel_inv w -> is_Some (timers w !! id) ->
  exists w', xdp2_timer_remove w id = Done (w', running w) /\ wheel_inv w' /\ same_env w w' /\
    next_expire_time w' = next_expire_time w /\ last_runtime w' = last_runtime w /\ log w' = log w /\
    forall i x, pending w' i x <-> i <> id /\ pending w i x.
Proof.
  intros Hinv [t Ht]. unfold xdp2_timer_remove. set (w1 := if running w then _ else w).
  assert (wheel_inv w1 /\ timers w1 = timers w /\ same_env w w1 /\ next_expire_time w1 = next_expire_time w /\
    last_runtime w1 = last_runtime w /\ log w1 = log w) as (Hinv1 & Et & Henv & E1 & E2 & E3).
  { unfold w1. destruct (running w); split_and!; (exact Hinv || done). }
  clearbody w1. rewrite Et, Ht. orun. destruct (timer_set t) eqn:Hs; simpl.
  - destruct (timer_remove_locked_ok w1 id t Hinv1) as (w2 & -> & Hinv2 & Et2 & Hs2 & N2 & L2 & C2 & G2 & R2 & A2).
    { split; [by rewrite Et | done]. }
    orun. eexists. split; [done |]. split; [exact Hinv2 |].
    destruct Henv as ((? & ? & ? & ?) & ? & ? & ?). destruct Hs2 as (? & ? & ? & ?).
    split; [unfold same_env, same_setup; split_and!; cbn; congruence |]. split_and!; try (cbn; congruence).
    rewrite Et in Et2. exact (pending_clear w w2 id t Et2).
  - exists w1. split; [done |]. split_and!; try done; try apply Henv.
    intros i x. unfold pending. rewrite Et. split; [| by intros []]. intros [E S]. split; [| done].
    intros ->. rewrite Ht in E. injection E as <-. congruence.
Qed.

Lemma __xdp2_timer_add_ok w id delay nr :
  wheel_inv w -> is_Some (timers w !! id) -> 0 <= delay < 2 ^ 32 ->
  idle_ok w ->
  exists w', __xdp2_timer_add w id delay nr = Done w' /\ wheel_inv w' /\ same_env w w' /\
    ((exists t, pending w id t /\ nr = true /\ timers w' = timers w /\ next_expire_time w' = next_expire_time w /\
       last_runtime w' = last_runtime w /\ log w' = log w) \/
     (exists t, (nr = true -> forall t0, ~ pending w id t0) /\ timer_set t = true /\
       expires (num_slots w) t = clock w + Z.max 1 delay /\
       (forall i x, pending w' i x <-> (i = id /\ x = t) \/ (i <> id /\ pending w i x)) /\
       arm_result w w' (clock w + Z.max 1 delay))).
Proof.
  intros Hinv [t Ht] Hd Hnone. pose proof Hinv as (_ & _ & _ & (Hlast & Hclk & Hnx) & _).
  unfold __xdp2_timer_add, get_current_time.
  assert ((if delay =? 0 then 1 else delay) = Z.max 1 delay) as -> by (destruct (Z.eqb_spec delay 0); lia).
  assert (u64 (clock w + Z.max 1 delay) = clock w + Z.max 1 delay) as -> by (apply u64_small; lia).
  set (e := clock w + Z.max 1 delay). rewrite seqno_gt by lia. destruct (Z.ltb_spec (clock w) e); [| lia].
  cbn [XDP2_ASSERT]. orun. rewrite Ht. destruct (timer_set t) eqn:Hs.
  - destruct nr.
    + eexists. split; [done |]. split; [exact Hinv |]. split; [done |]. left. by exists t.
    + destruct (timer_remove_locked_ok (TIMER_BUMP_STAT change_timers w) id t Hinv) as
        (w2 & -> & Hinv2 & Et2 & Hs2 & N2 & L2 & C2 & G2 & R2 & A2); [done |].
      orun. cbn in Et2, N2, L2, C2, G2, R2, A2.
      destruct (timer_insert_ok w2 id (clear_set t) e) as (w3 & t3 & E3 & Hinv3 & Henv3 & Et3 & S3 & X3 & _ & _ & Arm);
        [done | by rewrite Et2, lookup_insert_eq | done | lia | |].
      { unfold idle_ok. rewrite N2, L2. intros E i x Hx. apply (Hnone E i x).
        by apply (proj1 (pending_clear w w2 id t Et2 i x)) in Hx as [_ ?]. }
      rewrite C2 in E3. rewrite E3. exists w3. split; [done |]. split; [done |].
      destruct Henv3 as ((? & ? & ? & ?) & ? & ? & ?). destruct Hs2 as (S1 & S2 & S4 & S5). cbn in S1, S2, S4, S5.
      split; [unfold same_env, same_setup; split_and!; congruence |]. right. exists t3. rewrite <- S1. split_and!; [done | done | done | |].
      * intros i x. rewrite (pending_insert w2 w3 id t3 Et3 S3 i x), (pending_clear w w2 id t Et2 i x). intuition.
      * unfold arm_result in *. rewrite N2, L2, G2, S2 in Arm. done.
  - destruct (timer_insert_ok w id t e) as (w3 & t3 & -> & Hinv3 & Henv3 & Et3 & S3 & X3 & _ & _ & Arm);
      [done | done | done | lia | done |].
    exists w3. split; [done |]. split; [done |]. split; [done |]. right. exists t3. split_and!; try done.
    + intros _ t0 [E0 S0]. rewrite Ht in E0. injection E0 as <-. congruence.
    + by apply pending_insert.
Qed.

(** ** Steps keep the invariant *)

(** A new timer structure, not yet set. *)
Lemma wheel_inv_new w id t :
  wheel_inv w -> timers w !! id = None -> timer_set t = false -> Z.of_nat (size (timers w)) + 1 < 2 ^ 31 ->
  wheel_inv (put_timer id t w).
Proof.
  intros (P1 & P2 & P3 & P4 & P5 & P6 & P7 & P8 & P9 & P10) Hn Hs Hsz.
  split; [done |]. split; [done |]. split; [done |]. split; [done |]. split; [done |]. split; [done |]. split_and!.
  - intros i id' Hi. rewrite P7 by done. cbn. destruct (decide (id' = id)) as [-> | Hne].
    + rewrite lookup_insert_eq, Hn. split; intros (t' & E & S & _); [done |]. injection E as <-. congruence.
    + by rewrite lookup_insert_ne.
  - intros id' t' E S. cbn in E. destruct (decide (id' = id)) as [-> | Hne].
    + rewrite lookup_insert_eq in E. injection E as <-. congruence.
    + rewrite lookup_insert_ne in E by done. by apply (P8 id').
  - cbn. rewrite P9. unfold set_timers_of. rewrite map_filter_insert_False by (unfold is_set; simpl; by rewrite Hs).
    by rewrite delete_id.
  - cbn. rewrite map_size_insert_None by done. lia.
Qed.

Lemma api_step_ok w w' :
  wheel_inv w -> idle_ok w -> api_step w w' ->
  wheel_inv w' /\ same_setup w w' /\ running w' = running w /\ clock w <= clock w' /\
  only_future (clock w) w w' /\
  (next_expire_time w <> last_runtime w -> last_runtime w' = last_runtime w /\ next_expire_time w' <> last_runtime w' /\
     (next_expire_time w <= clock w -> next_expire_time w' = next_expire_time w)) /\
  idle_ok w' /\ (armed w -> armed w').
Proof.
  intros Hinv Hnone Hst. destruct Hst as
    [w id delay nr w' Hid Hd E | w id w' r Hid E | w Hr | w t Hle Hlim | w id t Ht Hs Hsz | w cb a].
  - destruct (__xdp2_timer_add_ok w id delay nr Hinv Hid Hd Hnone) as (w2 & E2 & Hinv2 & (Hset & Hc & Hr & Ha) & Hcase).
    rewrite E2 in E. injection E as <-.
    split_and!; [done | done | done | lia | | | |]; destruct Hcase as
      [(t & Hp & -> & Et & En & El & Eg) | (t & _ & Hs & He & Hp & Harm)].
    + intros i x [Hx Sx]. left. rewrite Et in Hx. done.
    + intros i x Hx. apply Hp in Hx as [[-> ->] | [_ Hx]]; [right | by left].
      destruct Hset as (-> & _). lia.
    + rewrite En, El. done.
    + destruct Harm as [(E1 & E3 & _ & Hle & _) | (Hlt & E3 & Hne & _)]; intros Hnl; [lia |].
      specialize (Hne ltac:(lia)). split_and!; lia.
    + unfold idle_ok. rewrite En, El. intros E1 i x [Hx Sx]. rewrite Et in Hx. by apply (Hnone E1 i x).
    + destruct Harm as [(E1 & E3 & _ & _ & Hne) | (Hlt & E3 & _)]; intros Hnl; lia.
    + intros Harm. eapply armed_shrink; [done | done | done | done | by rewrite Eg |].
      intros i x [Hx Sx]. rewrite Et in Hx. done.
    + intros Harm'. eapply (armed_arm w w2 id t); [done | done | done | done |].
      intros i x Hx. apply Hp in Hx as [? | [_ ?]]; [by left | by right].
  - destruct (xdp2_timer_remove_ok w id Hinv Hid) as (w2 & E2 & Hinv2 & (Hset & Hc & Hr & Ha) & En & El & Eg & Hp).
    rewrite E2 in E. injection E as <- _. split_and!; [done | done | done | lia | | lia | |].
    + intros i x Hx. left. by apply Hp in Hx as [_ ?].
    + unfold idle_ok. rewrite En, El. intros E1 i x Hx. apply Hp in Hx as [_ Hx]. by apply (Hnone E1 i x).
    + intros Harm. eapply armed_shrink; [done | done | done | done | by rewrite Eg |].
      intros i x Hx. by apply Hp in Hx as [_ ?].
  - split_and!; try (exact Hinv || done). intros i x Hx. by left.
  - split_and!; try done.
    + destruct Hinv as (P1 & P2 & P3 & (P4 & P4' & P4'') & P5). split; [exact P1 |]. split; [exact P2 |].
      split; [exact P3 |]. split; [cbn; lia | exact P5].
    + intros i x Hx. by left.
  - assert (forall i x, pending (put_timer id t w) i x -> pending w i x) as Hp.
    { intros i x [Hx Sx]. cbn in Hx. destruct (decide (i = id)) as [-> | Hne].
      - rewrite lookup_insert_eq in Hx. injection Hx as <-. congruence.
      - by rewrite lookup_insert_ne in Hx. }
    split_and!; try done.
    + by apply wheel_inv_new.
    + intros i x Hx. left. by apply Hp.
    + intros E1 i x Hx. by apply (Hnone E1 i x), Hp.
    + intros Harm. by eapply armed_shrink.
  - split_and!; try (exact Hinv || done); [intros i x Hx; by left |].
    intros Harm. eapply armed_shrink; try done. cbn. by rewrite last_pop_snoc.
Qed.

Lemma api_steps_ok w w' :
  rtc api_step w w' -> wheel_inv w -> idle_ok w ->
  wheel_inv w' /\ same_setup w w' /\ running w' = running w /\ clock w <= clock w' /\
  only_future (clock w) w w' /\
  (next_expire_time w <> last_runtime w -> last_runtime w' = last_runtime w /\ next_expire_time w' <> last_runtime w' /\
     (next_expire_time w <= clock w -> next_expire_time w' = next_expire_time w)) /\
  idle_ok w' /\ (armed w -> armed w').
Proof.
  induction 1 as [w | w w1 w2 Hs Hrtc IH]; intros Hinv Hid.
  - split_and!; try (done || lia). apply only_future_refl.
  - destruct (api_step_ok w w1 Hinv Hid Hs) as (Hinv1 & (N1 & ? & ? & ?) & Hr1 & Hc1 & Hf1 & Hl1 & Hid1 & Ha1).
    destruct (IH Hinv1 Hid1) as (Hinv2 & (N2 & ? & ? & ?) & Hr2 & Hc2 & Hf2 & Hl2 & Hid2 & Ha2).
    split; [done |]. split; [unfold same_setup; split_and!; congruence |]. split_and!; try (lia || congruence).
    + eapply only_future_trans; [exact N2 | exact Hf1 |]. intros id t Hp.
      destruct (Hf2 id t Hp); [by left | right; lia].
    + done.
    + auto.
Qed.
