(* ===== verification/TimerRun.v ===== *)
(** * Timers: running the wheel

    A run of the wheel returns whatever the callbacks and other threads do to
    the wheel in between, and leaves no timer that has expired. *)

From stdpp Require Import base list gmap numbers.
From S2P Require Import Prelude BitmapWord Bitmap BitmapSpec BitmapOps BitmapProps Timer.
From S2P Require Import TimerSpec.

Section Run.
Context (env : list (Z * Z) -> xdp2_timer_wheel -> outcome xdp2_timer_wheel).

(** Callbacks and other threads use the interface of the wheel. *)
Context (Henv : forall cbs w, wheel_inv w -> running w = true ->
  exists w', env cbs w = Done w' /\ rtc api_step w w').

(** The run: [w0] at its start, when the clock shows [cur]. *)
Context (w0 : xdp2_timer_wheel) (cur : Z).
Abbreviation n := (num_slots w0).
Abbreviation L := (last_runtime w0).

(** Nobody else asks for a run. *)
Definition solo : Prop := forall cbs w w', env cbs w = Done w' -> run_again w' = run_again w.

(** What holds throughout the run. *)
Definition in_run (w : xdp2_timer_wheel) : Prop :=
  wheel_inv w /\ same_setup w0 w /\ running w = true /\ last_runtime w = L /\ cur <= clock w /\
  (next_expire_time w <> L \/ none_pending w) /\
  (next_expire_time w0 = cur -> next_expire_time w = cur) /\
  (solo -> run_again w = run_again w0).

Lemma in_run_slots w : in_run w -> num_slots w = n.
Proof. by intros (_ & (? & _) & _). Qed.

Lemma in_run_len w : in_run w -> Z.of_nat (length (slots w)) = n.
Proof. intros H. rewrite <- (in_run_slots w H). apply H. Qed.

(** ** What a run fires

    In a quiet run callbacks do not use the wheel and no one else does. *)

Definition log_fires (cbs : list (Z * Z)) (w : xdp2_timer_wheel) : xdp2_timer_wheel :=
  foldl (fun w c => add_log (Fire c.1 c.2) w) w cbs.

Definition quiet : Prop := forall cbs w, env cbs w = Done (log_fires cbs w).

Definition fires (cbs : list (Z * Z)) : list event := map (fun c => Fire c.1 c.2) cbs.

(** The callback of a timer of [w0]. *)
Definition callback_of (id : Z) : Z * Z :=
  match timers w0 !! id with Some t => (callback t, arg t) | None => (0, 0) end.

(** The timers [ids] have been taken out of the wheel, none of them early; the
    callbacks [cbs] of the last of them are still to be invoked. *)
Definition fired_ids (w : xdp2_timer_wheel) (cbs : list (Z * Z)) (ids : list Z) : Prop :=
  NoDup ids /\ (forall id, id ∈ ids -> exists t, pending w0 id t /\ expires n t <= cur) /\
  log w ++ fires cbs = log w0 ++ fires (map callback_of ids) /\ clock w = clock w0 /\
  forall id t, pending w id t <-> pending w0 id t /\ id ∉ ids.

Definition fired (w : xdp2_timer_wheel) (cbs : list (Z * Z)) : Prop := exists ids, fired_ids w cbs ids.

Lemma fires_app l1 l2 : fires (l1 ++ l2) = fires l1 ++ fires l2.
Proof. apply map_app. Qed.

Lemma log_fires_log cbs : forall w, log (log_fires cbs w) = log w ++ fires cbs.
Proof.
  induction cbs as [| c cbs IH]; intros w; [by rewrite app_nil_r |]. cbn. unfold log_fires in IH. rewrite IH. cbn.
  by rewrite <- app_assoc.
Qed.

Lemma log_fires_same cbs : forall w,
  timers (log_fires cbs w) = timers w /\ run_again (log_fires cbs w) = run_again w /\
  clock (log_fires cbs w) = clock w.
Proof.
  induction cbs as [| c cbs IH]; intros w; [done |]. unfold log_fires in *. cbn.
  destruct (IH (add_log (Fire c.1 c.2) w)) as (-> & -> & ->). done.
Qed.

Lemma quiet_solo : quiet -> solo.
Proof. intros H cbs w w' E. rewrite H in E. injection E as <-. apply log_fires_same. Qed.

(** Invoking the callbacks. *)
Lemma fired_invoke w w' cbs : quiet -> env cbs w = Done w' -> fired w cbs -> fired w' [].
Proof.
  intros Q E (ids & H1 & H2 & H3 & H5 & H4). rewrite Q in E. injection E as <-. exists ids.
  split_and!; try done; [by rewrite log_fires_log, H3, app_nil_r | by rewrite (proj2 (proj2 (log_fires_same cbs w))) |].
  intros id t. rewrite <- H4. unfold pending. by rewrite (proj1 (log_fires_same cbs w)).
Qed.

(** Taking one more timer. *)
Lemma fired_take w w' cbs id t :
  fired w cbs -> pending w id t -> expires n t <= cur -> timers w' = <[id := clear_set t]> (timers w) ->
  log w' = log w -> clock w' = clock w -> fired w' (cbs ++ [(callback t, arg t)]).
Proof.
  intros (ids & H1 & H2 & H3 & H5 & H4) Hp He Et El Ek. pose proof (proj1 (H4 id t) Hp) as [Hp0 Hnot]. exists (ids ++ [id]).
  split_and!.
  - apply list.NoDup_app. split_and!; [done | | apply NoDup_singleton].
    intros x Hx ->%list_elem_of_singleton. done.
  - intros x [Hx | ->%list_elem_of_singleton]%elem_of_app; [by apply H2 | by exists t].
  - rewrite El, map_app, !fires_app, !app_assoc, H3. f_equal. cbn. unfold callback_of.
    by rewrite (proj1 Hp0).
  - by rewrite Ek.
  - intros x y. rewrite (pending_clear w w' id t Et x y), H4, elem_of_app, list_elem_of_singleton. tauto.
Qed.

Section Slot.
(** The slot that is run, for the timers of the generations up to [g]. *)
Context (i g : Z) (Hi : 0 <= i < n) (Hg : 0 <= g /\ g * n < 2 ^ 63).
Context (Hfut : forall t, index t = i -> cur < expires n t -> g < gen t).

(** The timers of the slot that are due. *)
Definition is_due (kt : Z * xdp2_timer) : Prop := timer_set kt.2 = true /\ index kt.2 = i /\ gen kt.2 <= g.
#[local] Instance is_due_dec kt : Decision (is_due kt).
Proof. unfold is_due. apply _. Defined.

Definition due (w : xdp2_timer_wheel) : gmap Z xdp2_timer := filter is_due (timers w).

Lemma due_future w w' :
  num_slots w' = n -> only_future cur w w' -> due w' ⊆ due w.
Proof using Hfut.
  intros En Hf. apply map_subseteq_spec. intros id t [E (S & Ei & Hle)]%map_lookup_filter_Some. cbn in *.
  destruct (Hf id t (conj E S)) as [[E' _] | Hlt]; [by apply map_lookup_filter_Some |].
  rewrite En in Hlt. specialize (Hfut t Ei Hlt). lia.
Qed.

(** ** One pass *)

(** A pass changes the queue of the slot and the timers it takes out of it. *)
Definition pass_frame (w w' : xdp2_timer_wheel) : Prop :=
  same_env w w' /\ next_expire_time w' = next_expire_time w /\ last_runtime w' = last_runtime w /\
  log w' = log w /\ forall id t, pending w' id t -> pending w id t.

Lemma pass_frame_refl w : pass_frame w w.
Proof. unfold pass_frame, same_env, same_setup. split_and!; auto. Qed.

Lemma pass_frame_trans w1 w2 w3 : pass_frame w1 w2 -> pass_frame w2 w3 -> pass_frame w1 w3.
Proof.
  intros (((? & ? & ? & ?) & ? & ? & ?) & ? & ? & ? & Hp1) (((? & ? & ? & ?) & ? & ? & ?) & ? & ? & ? & Hp2).
  unfold pass_frame, same_env, same_setup. split_and!; try congruence. intros id t Hp. by apply Hp1, Hp2.
Qed.

Lemma in_run_pass w w' : in_run w -> wheel_inv w' -> pass_frame w w' -> in_run w'.
Proof.
  intros (_ & (? & ? & ? & ?) & ? & ? & ? & Hn & Ho & Hso) Hinv (((? & ? & ? & ?) & ? & ? & ?) & ? & ? & ? & Hp).
  unfold in_run, same_setup. split; [done |]. split; [split_and!; congruence |]. split_and!; try (congruence || lia).
  - destruct Hn as [Hn | Hn]; [left; lia | right]. intros id t Hx. by apply (Hn id t), Hp.
  - intros S. rewrite <- (Hso S). done.
Qed.

(** Taking a due timer out of the slot. *)
Lemma take_due w id t :
  in_run w -> pending w id t -> index t = i -> gen t <= g ->
  let w' := set_timer_count (s32 (timer_count w - 1))
              (put_timer id (clear_set t) (put_slot i (filter (fun x => x <> id) (slot w i)) w)) in
  wheel_inv w' /\ pass_frame w w' /\ (S (size (due w')) = size (due w))%nat.
Proof using Hi.
  intros Hr [Ht Hs] Ei Hle w'. pose proof Hr as (Hinv & _).
  assert (wheel_inv w') as Hinv'.
  { pose proof (parts_remove _ _ _ _ _ _ _ _ id t Hinv Ht Hs) as H. rewrite Ei in H. exact H. }
  split; [done |]. split.
  - unfold pass_frame. split_and!; try done. intros id' t' Hp.
    by apply (pending_clear w w' id t eq_refl id' t') in Hp as [_ ?].
  - assert (due w !! id = Some t) as Ed by (apply map_lookup_filter_Some; done).
    assert (due w' = delete id (due w)) as ->.
    { unfold due. cbn. rewrite map_filter_insert_False by (unfold is_due; cbn; intros [? _]; done).
      by rewrite map_filter_delete. }
    rewrite map_size_delete_Some by eauto.
    assert (size (due w) <> 0%nat); [| lia]. intros E0%map_size_empty_inv. by rewrite E0, lookup_empty in Ed.
Qed.

Lemma slot_pending w id : in_run w -> id ∈ slot w i -> exists t, pending w id t /\ index t = i.
Proof using Hi.
  intros Hr Hin. pose proof Hr as ((_ & _ & _ & _ & _ & _ & P7 & _) & _).
  destruct (P7 i id) as [H _]; [rewrite (in_run_slots w Hr); done |].
  destruct (H Hin) as (t & E & S & Ei). by exists t.
Qed.

(** A timer that stays in the slot is in the slot of the wheel after it. *)
Lemma slot_filter w id l :
  in_run w -> slot (set_timer_count (s32 (timer_count w - 1))
    (put_timer id l (put_slot i (filter (fun x => x <> id) (slot w i)) w))) i = filter (fun x => x <> id) (slot w i).
Proof using Hi.
  intros Hr. unfold slot at 1. cbn. rewrite slot_at_insert by (rewrite ?(in_run_len w Hr); lia).
  by rewrite Z.eqb_refl.
Qed.

Lemma scan_slot_ok old_gen l : forall w cbs count,
  in_run w -> 0 <= old_gen -> old_gen * n <= L ->
  NoDup l -> (forall id, id ∈ l -> id ∈ slot w i) -> (length cbs < 8)%nat ->
  exists w' cbs' count' full,
    scan_slot l w i (u64 (g * n)) (u64 (old_gen * n)) cbs count = Done (w', cbs', count', full) /\
    wheel_inv w' /\ pass_frame w w' /\
    (size (due w') + length cbs' = size (due w) + length cbs)%nat /\
    (length cbs <= length cbs')%nat /\
    (full = true -> length cbs' = 8%nat) /\ (fired w cbs -> fired w' cbs') /\
    (full = false -> forall id t, id ∈ l -> pending w' id t -> g < gen t).
Proof using Hi Hg Hfut.
  induction l as [| id l IH]; intros w cbs count Hr Ho HoL Hnd Hsub Hlen; cbn [scan_slot].
  { eexists w, cbs, count, false. split; [done |]. split; [apply Hr |]. split; [apply pass_frame_refl |].
    split_and!; try (done || lia). intros _ id t Hin. by apply not_elem_of_nil in Hin. }
  pose proof (in_run_slots w Hr) as En.
  destruct (slot_pending w id Hr) as (t & [Ht Hs] & Ei); [apply Hsub; by left |].
  pose proof Hr as (Hinv & _ & _ & EL & _). pose proof Hinv as (Hn' & _).
  destruct (pending_index w id t Hinv (conj Ht Hs)) as (Hix & Hg0 & He & Hin).
  rewrite En in Hn', Hix, He. rewrite EL in He. unfold expires in He.
  assert (0 <= gen t * n < 2 ^ 63) as Bt by nia. assert (0 <= old_gen * n < 2 ^ 63) as Bo by nia.
  assert (0 <= g * n < 2 ^ 63) as Bg by nia.
  rewrite Ht. orun. rewrite En. rewrite !u64_small by lia.
  rewrite seqno_gte by lia. destruct (Z.leb_spec (old_gen * n) (gen t * n)) as [_ | Hbad].
  2:{ exfalso. assert (gen t <= old_gen - 1) as Hgo by nia.
      apply (Z.mul_le_mono_nonneg_r _ _ n) in Hgo; lia. }
  cbn [XDP2_ASSERT]. orun. rewrite seqno_gt by lia.
  pose proof (NoDup_cons_1_1 _ _ Hnd) as Hnot. apply NoDup_cons_1_2 in Hnd.
  destruct (Z.ltb_spec (g * n) (gen t * n)) as [Hlt | Hge].
  - (* still in the future *)
    destruct (IH w cbs count Hr Ho HoL Hnd) as (w' & cbs' & count' & full & E & Hinv' & Hfr & Hsz & Hl' & Hfull & Hfd & Hdone);
      [intros id' Hid'; apply Hsub; by right | done |].
    rewrite !u64_small in E by lia. rewrite E. eexists w', cbs', count', full. split; [done |].
    split_and!; try done. intros Hf id' t' Hid' Hp'. apply elem_of_cons in Hid' as [-> | Hid'].
    + destruct Hfr as (_ & _ & _ & _ & Hp). apply Hp in Hp' as [E' _]. rewrite Ht in E'. injection E' as <-. nia.
    + by apply (Hdone Hf id').
  - (* due *)
    assert (gen t <= g) as Hle by nia.
    rewrite get_slot_ok by (rewrite (in_run_len w Hr); lia). rewrite Ei in Hin. rewrite cq_remove_ok by done.
    destruct (take_due w id t Hr (conj Ht Hs) Ei Hle) as (Hinv1 & Hfr1 & Hsz1).
    set (w1 := set_timer_count _ _) in *.
    pose proof (in_run_pass w w1 Hr Hinv1 Hfr1) as Hr1.
    assert (fired w cbs -> fired w1 (cbs ++ [(callback t, arg t)])) as Hfd1.
    { intros Hf. apply (fired_take w w1 cbs id t); try done.
      destruct (Z.le_gt_cases (expires n t) cur) as [? | Hgt]; [done |]. specialize (Hfut t Ei ltac:(lia)). lia. }
    destruct (Nat.leb_spec 8 (length (cbs ++ [(callback t, arg t)]))) as [H8 | H8]; rewrite length_app in H8; cbn in H8.
    + eexists w1, _, _, true. split; [done |]. rewrite length_app. cbn [length].
      split_and!; try (done || lia).
    + destruct (IH w1 (cbs ++ [(callback t, arg t)]) (count + 1) Hr1 Ho HoL Hnd) as
        (w' & cbs' & count' & full & E & Hinv' & Hfr & Hsz & Hl' & Hfull & Hfd & Hdone).
      { intros id' Hid'. unfold w1. rewrite slot_filter by done. apply list_elem_of_filter.
        split; [intros ->; done | apply Hsub; by right]. }
      { rewrite length_app. cbn. lia. }
      rewrite !u64_small in E by lia. rewrite E. rewrite length_app in Hsz, Hl'. cbn in Hsz, Hl'.
      eexists w', cbs', count', full. split; [done |]. split_and!; try (done || lia).
      * by eapply pass_frame_trans.
      * auto.
      * intros Hf id' t' Hid' Hp'. apply elem_of_cons in Hid' as [-> | Hid']; [| by apply (Hdone Hf id')].
        destruct Hfr as (_ & _ & _ & _ & Hp). apply Hp in Hp'.
        by apply (pending_clear w w1 id t eq_refl id t') in Hp' as [? _].
Qed.
(** ** Releasing the mutex *)

Lemma only_future_pass w w' : pass_frame w w' -> only_future cur w w'.
Proof. intros (_ & _ & _ & _ & Hp) id t H. left. by apply Hp. Qed.

Lemma in_run_env w w' cbs :
  in_run w -> next_expire_time w <> L -> env cbs w = Done w' -> rtc api_step w w' -> in_run w' /\ only_future cur w w'.
Proof.
  intros (Hinv & (? & ? & ? & ?) & Hr & HL & Hc & _ & Ho & Hso) Hn E Hs.
  destruct (api_steps_ok w w' Hs Hinv ltac:(unfold idle_ok; lia)) as (Hinv' & (? & ? & ? & ?) & Hr' & Hc' & Hf & Hl & _).
  destruct (Hl ltac:(lia)) as (HL' & Hn' & Hk).
  split.
  - split; [done |]. split; [unfold same_setup; split_and!; congruence |]. split_and!; try (congruence || lia); auto.
    intros S. rewrite <- (Hso S). by apply (S cbs).
  - intros id t Hp. destruct (Hf id t Hp); [by left | right; lia].
Qed.

(** A batch is only handed out after a due timer was found, so the wheel has
    asked for a pop. *)
Lemma env_ok w w1 cbs :
  in_run w -> wheel_inv w1 -> pass_frame w w1 -> (exists id t, pending w id t) ->
  exists w2, env cbs w1 = Done w2 /\ in_run w2 /\ only_future cur w1 w2 /\ (quiet -> fired w1 cbs -> fired w2 []).
Proof using Henv.
  intros Hr Hinv1 Hfr (id & t & Hp). pose proof (in_run_pass w w1 Hr Hinv1 Hfr) as Hr1.
  assert (next_expire_time w1 <> L) as Hlt.
  { destruct Hr as (_ & _ & _ & _ & _ & [Hn | Hn] & _); [| by destruct (Hn id t)].
    destruct Hfr as (_ & En & _). lia. }
  destruct (Henv cbs w1 Hinv1) as (w2 & E & Hs); [apply Hr1 |].
  destruct (in_run_env w1 w2 cbs Hr1 Hlt E Hs). exists w2. split_and!; try done.
  intros Q. by apply (fired_invoke w1 w2 cbs).
Qed.

Lemma in_run_future w1 w2 w3 :
  in_run w2 -> in_run w3 -> only_future cur w1 w2 -> only_future cur w2 w3 -> only_future cur w1 w3.
Proof. intros H2 H3. apply only_future_trans. by rewrite (in_run_slots w3 H3), (in_run_slots w2 H2). Qed.

Lemma due_pending w : (size (due w) <> 0)%nat -> exists id t, pending w id t.
Proof.
  intros Hs. destruct (map_choose (due w)) as (id & t & E).
  { intros E0. rewrite E0 in Hs. by rewrite map_size_empty in Hs. }
  apply map_lookup_filter_Some in E as [E (S & _)]. by exists id, t.
Qed.

Lemma in_run_stat s k w : in_run w -> in_run (TIMER_ADD_STAT s k w).
Proof. intros (H & H2). split; [by apply wheel_inv_stat | exact H2]. Qed.

(** The bit of the slot is cleared when its queue is empty. *)
Lemma unset_ok w :
  in_run w -> exists bm, (if decide (slot w i = []) then bm_unset (slot_bitmap w) i else Done (slot_bitmap w)) = Done bm /\
    wheel_inv (set_slot_bitmap bm w).
Proof using Hi.
  intros Hr. pose proof Hr as (Hinv & _). case_decide as E.
  - destruct (parts_unset _ _ _ _ _ _ _ _ i Hinv) as (bm & Eb & Hinv'); [by rewrite (in_run_slots w Hr) | exact E |].
    by exists bm.
  - by exists (slot_bitmap w).
Qed.

(** What is left in the slot: nothing that is due. *)
Definition slot_done (w : xdp2_timer_wheel) : Prop := forall id t, pending w id t -> index t = i -> g < gen t.

Lemma slot_done_future w w' : in_run w' -> only_future cur w w' -> slot_done w -> slot_done w'.
Proof using Hfut.
  intros Hr Hf Hd id t Hp Ei. destruct (Hf id t Hp) as [Hp' | Hlt]; [by apply (Hd id) |].
  rewrite (in_run_slots w' Hr) in Hlt. auto.
Qed.

Lemma run_slot_ok old_gen fuel : forall w,
  in_run w -> 0 <= old_gen -> old_gen * n <= L -> (size (due w) < fuel)%nat ->
  exists w' c, run_slot env fuel w i g old_gen = Done (w', c) /\ in_run w' /\ only_future cur w w' /\ slot_done w' /\
    (quiet -> fired w [] -> fired w' []).
Proof using Hi Hg Hfut Henv.
  induction fuel as [| fuel IH]; intros w Hr Ho HoL Hsz; [lia |]. cbn [run_slot].
  pose proof (in_run_slots w Hr) as En. rewrite get_slot_ok by (rewrite (in_run_len w Hr); lia). orun. rewrite En.
  pose proof Hr as (Hinv & _). pose proof Hinv as (_ & _ & _ & _ & _ & Hnd & _). rewrite En in Hnd.
  destruct (scan_slot_ok old_gen (slot w i) w [] 0 Hr Ho HoL (Hnd i Hi)) as
    (w1 & cbs & count & full & E & Hinv1 & Hfr & Hsz1 & _ & Hfull & Hfd & Hdone); [done | cbn; lia |].
  rewrite E. orun. pose proof (in_run_pass w w1 Hr Hinv1 Hfr) as Hr1. cbn in Hsz1.
  pose proof (only_future_pass w w1 Hfr) as Hf1. destruct full.
  - (* a full batch: the slot is run again *)
    specialize (Hfull eq_refl).
    destruct (env_ok w w1 cbs Hr Hinv1 Hfr) as (w2 & -> & Hr2 & Hf2 & Hi2); [apply due_pending; lia |]. orun.
    destruct (IH (TIMER_BUMP_STAT slot_retries w2)) as (w' & c & -> & Hr' & Hf' & Hs' & Hi'); [by apply in_run_stat | done | done | |].
    { pose proof (map_subseteq_size _ _ (due_future w1 w2 (in_run_slots w2 Hr2) Hf2)).
      change (due (TIMER_BUMP_STAT slot_retries w2)) with (due w2). lia. }
    exists w', c. split_and!; try done; [| by auto].
    apply (in_run_future w w1 w'); try done. by apply (in_run_future w1 w2 w').
  - rewrite get_slot_ok by (rewrite (in_run_len w1 Hr1); lia). orun.
    destruct (unset_ok w1 Hr1) as (bm & -> & Hinv2). orun. set (w2 := set_slot_bitmap bm w1) in *.
    assert (pass_frame w w2) as Hfr2 by exact Hfr. pose proof (in_run_pass w w2 Hr Hinv2 Hfr2) as Hr2.
    assert (slot_done w2) as Hs2.
    { intros id t Hp Ei. apply (Hdone eq_refl id t); [| exact Hp].
      destruct Hfr as (_ & _ & _ & _ & Hpp). rewrite <- Ei.
      by apply (pending_index w id t Hinv), Hpp. }
    case_decide as Ec.
    + exists w2, count. split_and!; try done. intros _ H. apply Hfd in H. by rewrite Ec in H.
    + destruct (env_ok w w2 cbs Hr Hinv2 Hfr2) as (w3 & -> & Hr3 & Hf3 & Hi3).
      { apply due_pending. destruct cbs; [done |]. cbn in Hsz1. lia. }
      exists w3, count. split_and!; try done; 
        [by apply (in_run_future w w2 w3) | by eapply slot_done_future | auto].
Qed.
End Slot.

(** ** The slots of a range *)

Lemma holds_bits_le bm a b : holds_bits (w := 64) (nw := 0) bm b -> 0 <= a <= b -> holds_bits (w := 64) (nw := 0) bm a.
Proof. intros (? & ? & ? & ?) ?. split_and!; (done || lia). Qed.

(** A slot whose bit is clear has no timer. *)
Lemma bit_clear w id t : wheel_inv w -> pending w id t -> slot_bit (slot_bitmap w) (index t) = true.
Proof.
  intros Hinv Hp. destruct (pending_index w id t Hinv Hp) as (Hi & _ & _ & Hin).
  pose proof Hinv as (_ & _ & _ & _ & Hb & _). apply Hb; [done |]. intros E. unfold slot in Hin.
  rewrite E in Hin. by apply not_elem_of_nil in Hin.
Qed.

Section Range.
Context (lo hi g old_gen : Z) (Hlo : 0 <= lo <= hi) (Hhi : hi <= n) (Hg : 0 <= g /\ g * n < 2 ^ 63).
Context (Hfut : forall t, lo <= index t < hi -> cur < expires n t -> g < gen t).
Context (Ho : 0 <= old_gen) (HoL : old_gen * n <= L).
Context (fuel : nat) (Hinv0 : wheel_inv w0) (Hfuel : timer_count w0 < Z.of_nat fuel).

Lemma due_small w i : in_run w -> only_future cur w0 w -> lo <= i < hi -> (size (due i g w) < fuel)%nat.
Proof using Hfut Hinv0 Hfuel.
  intros Hr Hf Hi. pose proof (in_run_slots w Hr) as En.
  assert (due i g w ⊆ due i g w0) as Hsub by (apply due_future; [intros t <-; by apply Hfut | done | done]).
  apply map_subseteq_size in Hsub.
  assert (due i g w0 ⊆ set_timers_of (timers w0)) as H0.
  { apply map_subseteq_spec. intros id t [E (S & _)]%map_lookup_filter_Some. by apply map_lookup_filter_Some. }
  apply map_subseteq_size in H0. destruct Hinv0 as (_ & _ & _ & _ & _ & _ & _ & _ & Hc & _). lia.
Qed.

(** The slots before [p] are done. *)
Definition range_inv (w1 : xdp2_timer_wheel) (st : xdp2_timer_wheel * Z) (p : Z) : Prop :=
  lo <= p /\ in_run st.1 /\ only_future cur w0 st.1 /\ only_future cur w1 st.1 /\ (quiet -> fired w1 [] -> fired st.1 []) /\
  forall id t, pending st.1 id t -> lo <= index t < p -> g < gen t.

Lemma range_step w q p st :
  range_inv w st q -> q <= p < hi -> (forall j, q <= j < p -> slot_bit (slot_bitmap st.1) j = false) ->
  exists st', (r ← run_slot env fuel st.1 p g old_gen; mret (r.1, u32 (st.2 + r.2))) = Done st' /\
    range_inv w st' (p + 1).
Proof using All.
  intros (Hq & Hr1 & Hf0 & Hf1 & Hq1 & Hd) Hp Hclear. destruct st as [w1 c1]. cbn [fst snd] in *.
  destruct (run_slot_ok p g ltac:(lia) Hg ltac:(intros t <-; apply Hfut; lia) old_gen fuel w1 Hr1 Ho HoL)
    as (w2 & c & -> & Hr2 & Hf2 & Hd2 & Hq2); [apply due_small; (done || lia) |].
  orun. eexists. split; [done |]. split; [lia |]. cbn [fst]. split; [done |].
  split; [by apply (in_run_future w0 w1 w2) |]. split; [by apply (in_run_future w w1 w2) |]. split; [by auto |].
  intros id t Hpd Hi. destruct (decide (index t = p)) as [Ei | Hne]; [by apply (Hd2 id t) |].
  destruct (Hf2 id t Hpd) as [Hpd1 | Hlt].
  - destruct (Z.lt_ge_cases (index t) q); [apply (Hd id); [done | lia] |].
    specialize (Hclear (index t) ltac:(lia)). rewrite (bit_clear w1 id t) in Hclear; [done | apply Hr1 | done].
  - rewrite (in_run_slots w2 Hr2) in Hlt. apply Hfut; [lia | done].
Qed.

Lemma run_slots_ok w c :
  in_run w -> only_future cur w0 w ->
  exists w' c', run_slots env fuel w c lo hi g old_gen = Done (w', c') /\
    in_run w' /\ only_future cur w0 w' /\ only_future cur w w' /\ (quiet -> fired w [] -> fired w' []) /\
    forall id t, pending w' id t -> lo <= index t < hi -> g < gen t.
Proof using All.
  intros Hr Hf. unfold run_slots, xdp2_bitmap_foreach_bit.
  destruct (foreach_rule (w := 64) (conv := fun v => v) (nw := 0) ltac:(unfold word_bits; lia) false
    (fun st : xdp2_timer_wheel * Z => slot_bitmap (fst st))
    (fun st p => '(w, c) ← run_slot env fuel (fst st) p g old_gen; mret (w, u32 (snd st + c)))
    (range_inv w) hi (w, c) lo) as ([w' c'] & p' & -> & (Hlp & Hr' & Hf0 & Hf1 & Hq1 & Hd) & Hp' & Hclear).
  - intros [w1 c1] p (_ & Hr1 & _). destruct Hr1 as (Hinv1 & (En & _) & _).
    destruct Hinv1 as (_ & _ & Hb & _). rewrite En in Hb. by eapply holds_bits_le; [exact Hb | lia].
  - intros st q p Hst Hqp Hph Hfirst. destruct (range_step w q p st Hst) as (st' & E & Hst'); [lia | |].
    + intros j Hj. destruct Hfirst as [(_ & _ & Hb) | [-> _]]; [| lia]. exact (Hb j Hj).
    + exists st'. split; [| done]. rewrite <- E. by destruct (run_slot _ _ _ _ _ _) as [[] | |].
  - split_and!; try (done || lia). apply only_future_refl.
  - done.
  - exists w', c'. orun. cbn [fst] in *. split_and!; try done. intros id t Hp Hi.
    destruct (Z.lt_ge_cases (index t) p'); [apply (Hd id); [done | lia] |].
    specialize (Hclear (index t) ltac:(lia)).
    pose proof (bit_clear w' id t ltac:(apply Hr') Hp) as Hb. change (slot_bit (slot_bitmap w') (index t) = false) in Hclear.
    congruence.
Qed.
End Range.
End Run.
