(* ===== verification/TimerWheel.v ===== *)
(** * Timers: a run of the wheel and the pops it asks for

    The generations a run covers, the next pop, runs at the requested times and
    the expiration of every timer at its time. *)

From stdpp Require Import base list gmap numbers.
From S2P Require Import Prelude BitmapWord Bitmap BitmapSpec BitmapOps BitmapProps Timer.
From S2P Require Import TimerSpec TimerRun.

Section Generations.
Context (env : list (Z * Z) -> xdp2_timer_wheel -> outcome xdp2_timer_wheel).
Context (Henv : forall cbs w, wheel_inv w -> running w = true ->
  exists w', env cbs w = Done w' /\ rtc api_step w w').
Context (w0 : xdp2_timer_wheel) (cur : Z).
Context (Hinv0 : wheel_inv w0).
Abbreviation n := (num_slots w0).
Abbreviation L := (last_runtime w0).
Context (Hcur : L <= cur).
Abbreviation in_run := (in_run env w0 cur).

Definition old_gen : Z := L / n.
Definition new_gen : Z := (cur + 1) / n.
Definition last_index : Z := (cur + 1) mod n.

Lemma gens :
  0 < n /\ 0 <= L /\ L = old_gen * n + L mod n /\ 0 <= L mod n < n /\
  cur + 1 = new_gen * n + last_index /\ 0 <= last_index < n /\ 0 <= old_gen <= new_gen.
Proof using Hinv0 Hcur.
  pose proof Hinv0 as (Hn & _ & _ & (HL & _) & _). unfold old_gen, new_gen, last_index.
  pose proof (Z.div_mod L n ltac:(lia)). pose proof (Z.div_mod (cur + 1) n ltac:(lia)).
  pose proof (Z.mod_pos_bound L n ltac:(lia)). pose proof (Z.mod_pos_bound (cur + 1) n ltac:(lia)).
  pose proof (Z.div_pos L n ltac:(lia) ltac:(lia)). pose proof (Z.div_le_mono L (cur + 1) n ltac:(lia) ltac:(lia)).
  split_and!; lia.
Qed.

(** A generation and an index compare like the times they stand for. *)
Lemma future_gen t : 0 <= index t < n -> cur < expires n t -> new_gen <= gen t.
Proof using Hinv0 Hcur. intros Hi He. pose proof gens. unfold expires in He. nia. Qed.

Lemma future_new_gen t : 0 <= index t < last_index -> cur < expires n t -> new_gen < gen t.
Proof using Hinv0 Hcur. intros Hi He. pose proof gens. unfold expires in He. nia. Qed.

Lemma new_gen_future t :
  0 <= index t < n -> new_gen <= gen t -> new_gen < gen t \/ last_index <= index t -> cur < expires n t.
Proof using Hinv0 Hcur. intros Hi Hg Ho. pose proof gens. unfold expires. nia. Qed.

Lemma in_run_index w id t : in_run w -> pending w id t -> 0 <= index t < n /\ 0 <= gen t /\ L < expires n t.
Proof.
  intros Hr Hp. pose proof Hr as (Hinv & (En & _) & _ & EL & _).
  destruct (pending_index w id t Hinv Hp) as (? & ? & ? & _). rewrite En, EL in *. lia.
Qed.

Context (fuel : nat) (Hfuel : timer_count w0 < Z.of_nat fuel) (Hmax : cur + 1 < 2 ^ 63).

(** After the old generations: what is left is of the new one or later, and the
    slots of the new one that are still to be run start at [i]. *)
Definition old_done (i : Z) (w : xdp2_timer_wheel) : Prop :=
  forall id t, pending w id t -> new_gen <= gen t /\ (gen t = new_gen -> i <= index t).

Lemma run_old_gens_ok :
  in_run w0 ->
  exists w c i, run_old_gens env fuel w0 old_gen new_gen (L mod n) = Done (w, c, i) /\
    in_run w /\ only_future cur w0 w /\ (quiet env -> fired w0 cur w0 [] -> fired w0 cur w []) /\
    0 <= i <= last_index /\ old_done i w.
Proof using All.
  intros Hr. pose proof gens as (Hn & HL & EL & Hm & Ec & Hli & Hg). unfold run_old_gens.
  pose proof (only_future_refl cur w0) as Hf0.
  destruct (Z.eqb_spec old_gen new_gen) as [Eg | Hne].
  - (* same generation *)
    eexists _, _, _. split; [done |]. split; [by apply in_run_stat |]. split_and!; try (done || lia || nia).
    intros id t Hp. destruct (in_run_index w0 id t Hr Hp) as (Hi & Hg0 & He). unfold expires in He. nia.
  - rewrite !u64_small by nia.
    assert (forall lo t, lo <= index t < n -> 0 <= lo -> cur < expires n t -> new_gen - 1 < gen t) as Hfut.
    { intros lo t Hi Hlo He. pose proof (future_gen t ltac:(lia) He). lia. }
    destruct (Z.eqb_spec (old_gen + 1) new_gen) as [E1 | Hne1].
    + destruct (run_slots_ok env Henv w0 cur (L mod n) n (new_gen - 1) old_gen ltac:(lia) ltac:(lia) ltac:(nia)
        ltac:(intros t Hi; apply (Hfut (L mod n)); lia) ltac:(lia) ltac:(nia) fuel Hinv0 Hfuel w0 0 Hr Hf0)
        as (w & c & -> & Hr1 & Hf1 & _ & Hq & Hd).
      orun. eexists _, _, _. split; [done |]. split; [by apply in_run_stat |]. split_and!; try (done || lia).
      intros id t Hp. destruct (in_run_index w id t Hr1 Hp) as (Hi & Hg0 & He). unfold expires in He.
      destruct (Z.lt_ge_cases (index t) (L mod n)); [nia |]. specialize (Hd id t Hp ltac:(lia)). lia.
    + destruct (run_slots_ok env Henv w0 cur 0 n (new_gen - 1) old_gen ltac:(lia) ltac:(lia) ltac:(nia)
        ltac:(intros t Hi; apply (Hfut 0); lia) ltac:(lia) ltac:(nia) fuel Hinv0 Hfuel w0 0 Hr Hf0)
        as (w & c & -> & Hr1 & Hf1 & _ & Hq & Hd).
      orun. eexists _, _, _. split; [done |]. split; [by apply in_run_stat |]. split_and!; try (done || lia).
      intros id t Hp. destruct (in_run_index w id t Hr1 Hp) as (Hi & Hg0 & He).
      specialize (Hd id t Hp ltac:(lia)). lia.
Qed.

(** After the new generation: what is left is in the future. *)
Lemma run_new_gen_ok w c i :
  in_run w -> only_future cur w0 w -> 0 <= i <= last_index -> old_done i w ->
  exists w' c', run_slots env fuel w c i last_index new_gen old_gen = Done (w', c') /\
    in_run w' /\ only_future cur w0 w' /\ (quiet env -> fired w0 cur w [] -> fired w0 cur w' []) /\
    forall id t, pending w' id t -> cur < expires n t.
Proof using All.
  intros Hr Hf Hi Hod. pose proof gens as (Hn & HL & EL & Hm & Ec & Hli & Hg).
  destruct (run_slots_ok env Henv w0 cur i last_index new_gen old_gen ltac:(lia) ltac:(lia) ltac:(nia)
    ltac:(intros t Hit; apply future_new_gen; lia) ltac:(lia) ltac:(nia) fuel Hinv0 Hfuel w c Hr Hf)
    as (w' & c' & -> & Hr' & Hf' & Hfw & Hq & Hd).
  exists w', c'. split_and!; try done. intros id t Hp.
  destruct (Hfw id t Hp) as [Hpw | Hlt]; [| by rewrite (in_run_slots _ _ _ _ Hr') in Hlt].
  destruct (in_run_index w id t Hr Hpw) as (Hit & _). destruct (Hod id t Hpw) as [Hgt Hge].
  apply new_gen_future; [done | done |].
  destruct (Z.lt_ge_cases (index t) i); [left; lia |].
  destruct (Z.lt_ge_cases (index t) last_index); [left | right; lia]. apply (Hd id); [done | lia].
Qed.
End Generations.

(** ** The next pop *)

(** No callback is invoked from [w] to [w']. *)
Definition pop_log (w w' : xdp2_timer_wheel) : Prop :=
  exists pops, log w' = log w ++ pops /\ forall c a, Fire c a ∉ pops.

Lemma pop_log_refl w : pop_log w w.
Proof. exists []. split; [by rewrite app_nil_r |]. intros c a. apply not_elem_of_nil. Qed.

Lemma pop_log_one w w' e : log w' = log w ++ [e] -> (forall c a, Fire c a <> e) -> pop_log w w'.
Proof. intros E H. exists [e]. split; [done |]. intros c a ?%list_elem_of_singleton. by apply (H c a). Qed.

Lemma pop_ok w e :
  wheel_inv w -> last_runtime w < e < 2 ^ 63 -> (forall id t, pending w id t -> e <= expires (num_slots w) t) ->
  let w' := set_next_timer_pop (set_next_expire_time e w) in
  wheel_inv w' /\ same_env w w' /\ timers w' = timers w /\ last_runtime w' = last_runtime w /\ pop_log w w' /\ armed w'.
Proof.
  intros Hinv He Hall w'. pose proof Hinv as (_ & _ & _ & (HL & Hc & _) & _).
  assert (wheel_inv w') as Hinv'.
  { apply wheel_inv_pop. eapply parts_times; [exact Hinv | cbn; lia | cbn; lia |].
    intros id t E S. by apply (pending_index w id t Hinv). }
  split; [done |]. unfold w', set_next_timer_pop, armed, same_env, same_setup, pending. cbn.
  destruct (has_set_next_timer_pop w) eqn:Ep; cbn.
  - split_and!; try done; [by eapply pop_log_one |]. right. split_and!; [lia | done |]. intros _. by rewrite last_pop_snoc.
  - split_and!; try done; [by eapply pop_log_one |]. right. split_and!; [lia | done | congruence].
Qed.

Lemma bm_find_ok w lo hi :
  wheel_inv w -> 0 <= lo <= hi -> hi <= num_slots w ->
  exists r, bm_find (slot_bitmap w) lo hi = Done r /\ is_first (slot_bit (slot_bitmap w)) lo hi r.
Proof.
  intros Hinv Hlo Hhi. pose proof Hinv as (_ & _ & Hb & _).
  destruct (find_funct_first (w := 64) (conv := fun v => v) (nw := 0) ltac:(unfold word_bits; lia) false 0
    (slot_bitmap w) lo hi) as (r & E & Hf); [by eapply holds_bits_le; [exact Hb | lia] | lia .. |].
  exists r. split; [exact E |]. rewrite Z.add_0_r in Hf. exact Hf.
Qed.

Lemma find_next_pop_ok w :
  wheel_inv w -> let n := num_slots w in let cur := last_runtime w in
  exists w', find_next_pop w ((cur + 1) / n) ((cur + 1) mod n) = Done w' /\
    wheel_inv w' /\ same_env w w' /\ timers w' = timers w /\ last_runtime w' = last_runtime w /\ pop_log w w' /\
    (armed w' \/ (none_pending w /\ w' = w)).
Proof.
  intros Hinv n cur. pose proof (gens w cur Hinv ltac:(lia)) as (Hn & HL & _ & _ & Ec & Hli & _ & Hg).
  fold n in Hn, Hli, Ec. pose proof Hinv as (Hn' & _ & _ & (Hc1 & Hc2 & _) & _). fold n cur in Hn', Hc1.
  unfold new_gen, last_index in *. fold n in Ec, Hli, Hg. set (ng := (cur + 1) / n) in *. set (li := (cur + 1) mod n) in *.
  assert (forall id t, pending w id t -> 0 <= index t < n /\ ng <= gen t /\ (index t < li -> ng < gen t) /\
    slot_bit (slot_bitmap w) (index t) = true) as Hp.
  { intros id t Hp. destruct (pending_index w id t Hinv Hp) as (Hi & _ & (He & _) & _).
    split; [done |]. split_and!; [by apply (future_gen w cur Hinv ltac:(lia)) | | by apply (bit_clear w id t)].
    intros Hlt. apply (future_new_gen w cur Hinv ltac:(lia)); [unfold last_index; fold n li; lia | done]. }
  unfold find_next_pop. fold n. destruct (bm_find_ok w li n Hinv ltac:(lia) ltac:(lia)) as (r & -> & Hr). orun.
  destruct Hr as [(Hr & _ & Hb) | [-> Hb]].
  - destruct (Z.ltb_spec r n); [| lia]. eexists. split; [done |]. rewrite u64_small by nia.
    destruct (pop_ok w (ng * n + r) Hinv) as (H1 & H2 & H3 & H4 & H5 & H6); [fold cur; nia | | split_and!; auto].
    intros id t Hpd. destruct (Hp id t Hpd) as (Hi & H1 & H2 & H3). unfold expires. fold n.
    destruct (Z.lt_ge_cases (index t) li); [specialize (H2 ltac:(lia)); nia |].
    destruct (Z.lt_ge_cases (index t) r); [| nia]. rewrite Hb in H3 by lia. done.
  - rewrite Z.ltb_irrefl. destruct (bm_find_ok w 0 li Hinv ltac:(lia) ltac:(lia)) as (r & -> & Hr). orun.
    assert (forall id t, pending w id t -> index t < li) as Hli2.
    { intros id t Hpd. destruct (Hp id t Hpd) as (Hi & _ & _ & H3).
      destruct (Z.lt_ge_cases (index t) li); [done |]. rewrite Hb in H3 by lia. done. }
    destruct Hr as [(Hr & _ & Hb2) | [-> Hb2]].
    + destruct (Z.ltb_spec r li); [| lia]. eexists. split; [done |]. rewrite u64_small by nia.
      destruct (pop_ok w ((ng + 1) * n + r) Hinv) as (H1 & H2 & H3 & H4 & H5 & H6); [fold cur; nia | | split_and!; auto].
      intros id t Hpd. destruct (Hp id t Hpd) as (Hi & H1 & H2 & H3). specialize (Hli2 id t Hpd). unfold expires. fold n.
      specialize (H2 Hli2). destruct (Z.lt_ge_cases (index t) r); [| nia]. rewrite Hb2 in H3 by lia. done.
    + rewrite Z.ltb_irrefl. exists w. split; [done |]. unfold same_env, same_setup. split_and!; auto using pop_log_refl.
      right. split; [| done]. intros id t Hpd. destruct (Hp id t Hpd) as (Hi & _ & _ & H3). specialize (Hli2 id t Hpd).
      rewrite Hb2 in H3 by lia. done.
Qed.

(** ** One run *)

(** What a quiet run does: the callbacks of the timers that have expired are
    invoked, each once; the other timers stay. *)
Definition fires_exactly (w w' : xdp2_timer_wheel) : Prop :=
  exists ids pops, NoDup ids /\
    (forall id, id ∈ ids <-> exists t, pending w id t /\ expires (num_slots w) t <= clock w) /\
    log w' = log w ++ fires (map (callback_of w) ids) ++ pops /\ (forall c a, Fire c a ∉ pops) /\
    clock w' = clock w /\
    forall id t, pending w' id t <-> pending w id t /\ clock w < expires (num_slots w) t.

Section Once.
Context (env : list (Z * Z) -> xdp2_timer_wheel -> outcome xdp2_timer_wheel).
Context (Henv : forall cbs w, wheel_inv w -> running w = true ->
  exists w', env cbs w = Done w' /\ rtc api_step w w').
Context (w : xdp2_timer_wheel).
Context (Hinv : wheel_inv w) (Hidle : idle_ok w) (Hrun : running w = false).
Abbreviation cur := (clock w).

(** The wheel when the run starts. *)
Abbreviation w0 := (TIMER_BUMP_STAT run_timer_wheel (set_running true w)).

Lemma in_run_start : in_run env w0 cur w0.
Proof using Hinv Hidle.
  unfold in_run, same_setup. split; [exact Hinv |]. split_and!; try done.
  destruct (decide (next_expire_time w = last_runtime w)); [right; by apply Hidle | by left].
Qed.

Lemma fired_start : fired w0 cur w0 [].
Proof.
  exists []. split_and!; try done; [apply NoDup_nil_2 | intros id H; by apply not_elem_of_nil in H | ].
  intros id t. split; [| by intros []]. intros H. split; [done |]. apply not_elem_of_nil.
Qed.

(** What holds of the wheel after the run. *)
Definition run_result (w' : xdp2_timer_wheel) : Prop :=
  wheel_inv w' /\ idle_ok w' /\ same_setup w w' /\ running w' = false /\ run_again w' = false /\
  last_runtime w' = cur /\ cur <= clock w' /\ only_future cur w w' /\
  (forall id t, pending w' id t -> cur < expires (num_slots w) t) /\
  (armed w' \/ (none_pending w' /\ next_expire_time w <> cur)) /\
  (quiet env -> fires_exactly w w').

(** The timers fired, with the calls that follow. *)
Lemma fired_exactly w1 w' pops :
  fired w0 cur w1 [] -> (forall id t, pending w1 id t -> cur < expires (num_slots w) t) ->
  log w' = log w1 ++ pops -> (forall c a, Fire c a ∉ pops) -> clock w' = clock w1 ->
  (forall id t, pending w' id t <-> pending w1 id t) -> fires_exactly w w'.
Proof.
  intros (ids & Hnd & Hexp & Hlog & Hck & Hpd) Hall El Hpops Ec Hp'. exists ids, pops.
  cbn in Hlog. rewrite app_nil_r in Hlog.
  assert (forall id t, pending w id t -> id ∈ ids <-> expires (num_slots w) t <= cur) as Hids.
  { intros id t Hp. split.
    - intros Hin. destruct (Hexp id Hin) as (t' & [Ht' _] & He). destruct Hp as [Ht _]. cbn in Ht', He. by simplify_eq.
    - intros He. destruct (decide (id ∈ ids)) as [? | Hnot]; [done |].
      specialize (Hall id t (proj2 (Hpd id t) (conj Hp Hnot))). lia. }
  split_and!; [done | | | done | by rewrite Ec, Hck |].
  - intros id. split; [apply Hexp |]. intros (t & Hp & He). by apply (Hids id t).
  - by rewrite El, Hlog, <- app_assoc.
  - intros id t. rewrite Hp', Hpd. split; intros [Hp H]; (split; [done |]); rewrite (Hids id t) in * by done; lia.
Qed.

(** The end of the run. *)
Lemma run_end w1 c :
  in_run env w0 cur w1 -> only_future cur w0 w1 -> (quiet env -> fired w0 cur w1 []) ->
  (forall id t, pending w1 id t -> cur < expires (num_slots w) t) ->
  exists w', find_next_pop (TIMER_ADD_STAT timer_expires c (set_last_runtime cur w1))
      ((cur + 1) / num_slots w) ((cur + 1) mod num_slots w) = Done w' /\
    run_again w' = run_again w1 /\ run_result (set_running false (set_run_again false w')).
Proof using Hinv.
  intros Hr Hf Hq Hall. pose proof Hr as (Hinv1 & (En & ? & ? & ?) & Hrun1 & HL & Hc & Hnx & Ho & _).
  change (num_slots w0) with (num_slots w) in En. pose proof Hinv as (_ & _ & _ & (HL0 & _) & _).
  set (w2 := TIMER_ADD_STAT timer_expires c (set_last_runtime cur w1)).
  assert (wheel_inv w2) as Hinv2.
  { pose proof Hinv1 as (_ & _ & _ & (? & ? & ?) & _).
    eapply parts_times; [exact Hinv1 | cbn; lia | cbn; lia |].
    intros id t E S. cbn. rewrite En. by apply (Hall id). }
  destruct (find_next_pop_ok w2 Hinv2) as (w' & E & Hinv' & ((E1 & E2 & E3 & E4) & Ek & _ & Ea) & Et & El & Hlog & Harm).
  change (num_slots w2) with (num_slots w1) in E. change (last_runtime w2) with cur in E. rewrite En in E.
  exists w'. split; [exact E |]. split; [exact Ea |].
  assert (forall id t, pending w' id t <-> pending w1 id t) as Hpd by (intros id t; unfold pending; by rewrite Et).
  assert (armed w' \/ (none_pending w' /\ next_expire_time w <> cur)) as Harm'.
  { destruct Harm as [Harm | [Hnone ->]]; [by left |].
    destruct (decide (next_expire_time w = cur)) as [Eq | Hne]; [left; left | by right].
    split; [exact (Ho Eq) | exact Hnone]. }
  unfold run_result. split; [exact Hinv' |]. split.
  { destruct Harm' as [Harm' | [Hnone _]]; [exact (armed_idle w' Harm') | by intros _]. }
  split; [unfold same_setup in *; cbn in *; split_and!; congruence |]. split_and!; try done.
  - cbn. rewrite Ek. exact Hc.
  - intros id t Hp. apply Hpd in Hp. destruct (Hf id t Hp) as [? | Hlt]; [by left | right].
    cbn. rewrite E1. exact Hlt.
  - intros id t Hp. by apply (Hall id), Hpd.
  - intros Q. destruct Hlog as (pops & El2 & Hpops). by eapply (fired_exactly w1); [auto | | exact El2 | | |].
Qed.

Lemma run_tail w3 c :
  run_result (set_running false (set_run_again false w3)) ->
  exists w' again,
    (let w4 := if c =? 0 then TIMER_BUMP_STAT spurious_run_timer_wheel w3 else w3 in
     if run_again w4 then Done (TIMER_BUMP_STAT run_timer_wheel_retries (set_running false (set_run_again false w4)), true)
     else Done (set_running false w4, false)) = Done (w', again) /\ run_result w' /\ again = run_again w3.
Proof.
  intros Hres. set (w4 := if c =? 0 then _ else _). cbn zeta.
  assert (run_result (set_running false (set_run_again false w4)) /\ run_again w4 = run_again w3) as [Hres4 <-].
  { unfold w4. by destruct (c =? 0). }
  destruct (run_again w4) eqn:Ea; eexists _, _; (split; [done |]); split; [exact Hres4 | done | | done].
  assert (set_run_again false w4 = w4) as <- by (rewrite <- Ea; by destruct w4). exact Hres4.
Qed.

Context (fuel : nat) (Hfuel : timer_count w < Z.of_nat fuel).

(** One run of the wheel returns. *)
Lemma run_once_ok :
  exists w' again, run_once env fuel w = Done (w', again) /\ run_result w' /\
    (solo env -> run_again w = false -> again = false).
Proof using All.
  pose proof Hinv as (_ & _ & _ & (HL & Hck & _) & _). unfold run_once, get_current_time. rewrite Hrun.
  rewrite (u64_small (cur + 1)) by lia. change (last_runtime w0) with (last_runtime w).
  rewrite seqno_lte by lia. destruct (Z.leb_spec (last_runtime w) cur); [| lia]. cbn [XDP2_ASSERT]. orun.
  destruct (run_old_gens_ok env Henv w0 cur Hinv ltac:(cbn; lia) fuel Hfuel ltac:(lia) in_run_start)
    as (w1 & c1 & i & E1 & Hr1 & Hf1 & Hq1 & Hi & Hod).
  unfold old_gen, new_gen, last_index in *. change (last_runtime w0) with (last_runtime w) in *.
  change (num_slots w0) with (num_slots w) in *. rewrite E1. orun.
  pose proof (in_run_slots _ _ _ _ Hr1) as En. change (num_slots w0) with (num_slots w) in En. rewrite En.
  destruct (run_new_gen_ok env Henv w0 cur Hinv ltac:(cbn; lia) fuel Hfuel ltac:(lia) w1 c1 i Hr1 Hf1 Hi Hod)
    as (w2 & c2 & E2 & Hr2 & Hf2 & Hq2 & Hall).
  unfold old_gen, new_gen, last_index in E2. change (last_runtime w0) with (last_runtime w) in E2.
  change (num_slots w0) with (num_slots w) in *. rewrite E2. orun.
  destruct (run_end w2 c2 Hr2 Hf2) as (w3 & -> & Ea & Hres); [intros Q; auto using fired_start | exact Hall |]. orun.
  destruct (run_tail w3 c2 Hres) as (w' & again & E3 & Hres' & Hag). cbn zeta in E3. rewrite E3. exists w', again. split_and!; [done | done |].
  intros S E0. rewrite Hag, Ea. destruct Hr2 as (_ & _ & _ & _ & _ & _ & _ & Hso). by rewrite (Hso S).
Qed.
End Once.
