(* ===== verification/TimerProps.v ===== *)
(** * Timers: properties

    Adding and removing timers, running the wheel, and the expiration of a timer
    at its time. *)

From stdpp Require Import base list gmap numbers.
From S2P Require Import Prelude BitmapWord Bitmap BitmapSpec BitmapOps BitmapProps Timer.
From S2P Require Import TimerSpec TimerRun TimerWheel.

(** Callbacks that do not use the wheel. *)
Definition quiet_env (cbs : list (Z * Z)) (w : xdp2_timer_wheel) : outcome xdp2_timer_wheel :=
  mret (log_fires cbs w).

Lemma quiet_env_quiet : quiet quiet_env.
Proof. done. Qed.

Lemma log_fires_steps cbs : forall w, rtc api_step w (log_fires cbs w).
Proof. induction cbs as [| c cbs IH]; intros w; [done |]. eapply rtc_l; [apply (api_fire w c.1 c.2) | apply IH]. Qed.

Lemma quiet_env_steps cbs w :
  wheel_inv w -> running w = true -> exists w', quiet_env cbs w = Done w' /\ rtc api_step w w'.
Proof. intros _ _. eexists. split; [done |]. apply log_fires_steps. Qed.

(** A run that nobody else asks to repeat. *)
Lemma run_quiet runs fuel w :
  wheel_inv w -> idle_ok w -> running w = false -> run_again w = false -> timer_count w < Z.of_nat fuel ->
  exists w', xdp2_run_timer_wheel quiet_env (S runs) fuel w = Done w' /\ run_result quiet_env w w'.
Proof.
  intros Hinv Hid Hr Ha Hf.
  destruct (run_once_ok quiet_env quiet_env_steps w Hinv Hid Hr fuel Hf) as (w' & again & E & Hres & Hag).
  rewrite (Hag (quiet_solo _ quiet_env_quiet) Ha) in E.
  exists w'. unfold xdp2_run_timer_wheel. cbn [__xdp2_run_timer_wheel_locked]. rewrite E. by orun.
Qed.

(** ** Runs at the requested times *)

(** The wheel is run [k] times, each time when the clock shows the time it has
    asked for. *)
Fixpoint serve (k fuel : nat) (w : xdp2_timer_wheel) : outcome xdp2_timer_wheel :=
  match k with
  | O => mret w
  | S k =>
    w ← xdp2_run_timer_wheel quiet_env 1 fuel (set_clock (next_expire_time w) w);
    serve k fuel w
  end.

(** A wheel between pops. *)
Definition on_time (fuel : nat) (w : xdp2_timer_wheel) : Prop :=
  wheel_inv w /\ armed w /\ running w = false /\ run_again w = false /\ timer_count w < Z.of_nat fuel /\
  clock w <= next_expire_time w.

Lemma count_shrink w w' :
  wheel_inv w -> wheel_inv w' -> (forall id t, pending w' id t -> pending w id t) -> timer_count w' <= timer_count w.
Proof.
  intros (_ & _ & _ & _ & _ & _ & _ & _ & -> & _) (_ & _ & _ & _ & _ & _ & _ & _ & -> & _) Hp.
  apply Nat2Z.inj_le, map_subseteq_size, map_subseteq_spec. intros id t [E S]%map_lookup_filter_Some.
  destruct (Hp id t (conj E S)). by apply map_lookup_filter_Some.
Qed.

(** One pop: a timer that expires then is fired, a later one stays. *)
Lemma serve_one fuel w id t :
  on_time fuel w -> pending w id t -> expires (num_slots w) t + 2 ^ 32 < 2 ^ 63 ->
  exists w', xdp2_run_timer_wheel quiet_env 1 fuel (set_clock (next_expire_time w) w) = Done w' /\
    clock w' = next_expire_time w /\ num_slots w' = num_slots w /\
    ((next_expire_time w = expires (num_slots w) t /\ Fire (callback t) (arg t) ∈ log w' /\ ~ pending w' id t) \/
     (next_expire_time w < expires (num_slots w) t /\ pending w' id t /\ on_time fuel w' /\
      last_runtime w < last_runtime w')).
Proof.
  intros (Hinv & Harm & Hrun & Hag & Hcnt & Hck) Hp Hmax. set (w1 := set_clock (next_expire_time w) w).
  pose proof (armed_next w id t Harm Hp) as Hnx.
  assert (next_expire_time w <= expires (num_slots w) t) as Hle by (destruct Harm as [[_ Hn] | (_ & H & _)]; [by destruct (Hn id t) | eauto]).
  assert (wheel_inv w1) as Hinv1.
  { destruct Hinv as (P1 & P2 & P3 & P4 & P5). split; [exact P1 |]. split; [exact P2 |]. split; [exact P3 |].
    split; [cbn; lia | exact P5]. }
  assert (idle_ok w1) as Hid1 by exact (armed_idle w Harm).
  destruct (run_quiet 0 fuel w1 Hinv1 Hid1 Hrun Hag Hcnt) as
    (w' & -> & Hinv' & _ & (En & _) & Hr' & Ha' & El & _ & _ & Hall & Harm' & Hex).
  destruct (Hex quiet_env_quiet) as (ids & pops & Hnd & Hids & Hlog & _ & Hck' & Hpd).
  exists w'. split; [done |]. split; [exact Hck' |]. split; [exact En |].
  destruct (Z.eq_dec (next_expire_time w) (expires (num_slots w) t)) as [He | Hne].
  - left. split; [done |]. split.
    + rewrite Hlog, !elem_of_app. right. left. unfold fires. rewrite map_map. apply list_elem_of_fmap.
      exists id. split; [unfold callback_of; cbn; by rewrite (proj1 Hp) |]. apply Hids. exists t. cbn. split; [done | lia].
    + rewrite Hpd. cbn. lia.
  - right. assert (pending w' id t) as Hp' by (apply Hpd; cbn; split; [done | lia]).
    split; [lia |]. split; [done |]. rewrite El. cbn. split; [| lia].
    assert (armed w') as Ha by (destruct Harm' as [? | [Hn _]]; [done | by destruct (Hn id t)]).
    pose proof (armed_next w' id t Ha Hp') as Hnx'. cbn in El, Hck'.
    assert (timer_count w' <= timer_count w1) by (apply count_shrink; try done; intros i x ?%Hpd; tauto).
    unfold on_time. split_and!; try done; [cbn in *; lia | lia].
Qed.

(** ** Properties *)

(** C19: [xdp2_timer_add] and [xdp2_timer_add_not_running] return on every wheel,
    whether a run is in progress or not: a timer that is set and must not be
    changed stays; otherwise exactly this timer is set, to expire after the delay
    (at least one unit) and the others stay. The wheel keeps its invariant and a
    request for a pop no later than the first expiration. [xdp2_timer_remove]
    then takes out exactly this timer and returns whether a run is in progress. *)
Theorem timer_add_remove w id t delay nr :
  wheel_inv w -> armed w -> timers w !! id = Some t -> 0 <= delay < 2 ^ 32 ->
  exists w', __xdp2_timer_add w id delay nr = Done w' /\ wheel_inv w' /\ armed w' /\
    (forall i x, i <> id -> pending w' i x <-> pending w i x) /\
    (exists t', pending w' id t' /\
       if nr && timer_set t then t' = t
       else expires (num_slots w) t' = clock w + Z.max 1 delay) /\
  exists w'', xdp2_timer_remove w' id = Done (w'', running w) /\ wheel_inv w'' /\ armed w'' /\
    forall i x, pending w'' i x <-> i <> id /\ pending w i x.
Proof.
  intros Hinv Harm Ht Hd. pose proof (armed_idle w Harm) as Hid.
  destruct (__xdp2_timer_add_ok w id delay nr Hinv ltac:(by exists t) Hd Hid) as (w' & E & Hinv' & (Hset & Hck & Hrn & _) & Hcase).
  pose proof (api_step_ok w w' Hinv Hid (api_add w id delay nr w' ltac:(by exists t) Hd E)) as (_ & _ & _ & _ & _ & _ & Hid' & Ha').
  specialize (Ha' Harm). exists w'. split; [done |]. split; [done |]. split; [done |].
  assert ((forall i x, i <> id -> pending w' i x <-> pending w i x) /\
    (exists t', pending w' id t' /\ if nr && timer_set t then t' = t
       else expires (num_slots w) t' = clock w + Z.max 1 delay)) as [H1 H2].
  { destruct Hcase as [(t1 & [Ht1 Hs1] & -> & Et & _) | (t1 & Hnr & Hs1 & He & Hp & _)].
    - split; [intros i x _; unfold pending; by rewrite Et |]. exists t1. unfold pending. rewrite Et.
      rewrite Ht in Ht1. injection Ht1 as <-. by rewrite Hs1.
    - split; [intros i x Hne; rewrite Hp; tauto |]. exists t1. split; [apply Hp; by left |].
      destruct nr, (timer_set t) eqn:Hs; try done. by destruct (Hnr eq_refl t). }
  split; [done |]. split; [done |].
  destruct H2 as (t' & [Ht' _] & _).
  destruct (xdp2_timer_remove_ok w' id Hinv' ltac:(by exists t')) as (w2 & E2 & Hinv2 & _ & _ & _ & _ & Hp2).
  rewrite Hrn in E2. exists w2. split; [done |]. split; [done |]. split.
  - pose proof (api_step_ok w' w2 Hinv' Hid' (api_remove w' id w2 _ ltac:(by exists t') E2)) as (_ & _ & _ & _ & _ & _ & _ & Ha2).
    auto.
  - intros i x. rewrite Hp2. split; intros [Hne Hp]; (split; [done |]); by apply H1.
Qed.

(** After a run: nothing is left that expired before it, and the next pop is
    requested. *)
Definition ran (w' : xdp2_timer_wheel) : Prop :=
  wheel_inv w' /\ idle_ok w' /\ running w' = false /\ run_again w' = false /\
  (forall id t, pending w' id t -> last_runtime w' < expires (num_slots w') t) /\
  (armed w' \/ none_pending w').

Lemma run_result_ran env w w' : run_result env w w' -> ran w' /\ last_runtime w' = clock w /\ clock w <= clock w'.
Proof.
  intros (Hinv' & Hid' & (En & _) & Hr' & Ha' & El & Hc & _ & Hall & Harm & _). unfold ran. rewrite El, En.
  split_and!; try done. destruct Harm as [? | [? _]]; [by left | by right].
Qed.

Lemma timer_count_bound w : wheel_inv w -> timer_count w < 2 ^ 31.
Proof.
  intros (_ & _ & _ & _ & _ & _ & _ & _ & -> & Hs). pose proof (set_count_le (timers w)). lia.
Qed.

(** Turns that are repeated on request. *)
Lemma run_turns env fuel runs : (forall cbs w, wheel_inv w -> running w = true -> exists w', env cbs w = Done w' /\ rtc api_step w w') ->
  2 ^ 31 <= Z.of_nat fuel -> forall w, wheel_inv w -> idle_ok w -> running w = false ->
  xdp2_run_timer_wheel env runs fuel w = NoFuel \/
  exists w', xdp2_run_timer_wheel env runs fuel w = Done w' /\ ran w' /\ clock w <= last_runtime w'.
Proof.
  intros Henv Hf. unfold xdp2_run_timer_wheel. induction runs as [| runs IH]; intros w Hinv Hid Hr; [by left |].
  pose proof (timer_count_bound w Hinv). destruct (run_once_ok env Henv w Hinv Hid Hr fuel ltac:(lia)) as (w1 & again & E & Hres & _).
  destruct (run_result_ran _ _ _ Hres) as (Hran & El & Hc). cbn [__xdp2_run_timer_wheel_locked]. rewrite E. orun. destruct again.
  - destruct (IH w1) as [-> | (w' & -> & Hran' & Hc')]; [apply Hran .. | by left |]. right. exists w'. split_and!; [done | done | lia].
  - right. exists w1. split_and!; [done | done | lia].
Qed.

(** C18: a turn of a run of the wheel returns whatever the callbacks and other
    threads do with the wheel while the mutex is released: no assertion fails, no
    queue or bitmap access is out of bounds and the passes over a slot end. The
    invariant holds afterwards, the flags are reset, no timer is left that expired
    before the turn, and timers that appeared expire after it; either a pop is
    requested or the wheel is empty. When nobody asks for another run the whole
    function returns after one turn. Requests repeat it: then it never fails, and
    when it returns the same holds, but requests made in every turn keep it running
    ([timer_run_repeated]). *)
Theorem timer_run_returns env w fuel :
  (forall cbs w, wheel_inv w -> running w = true -> exists w', env cbs w = Done w' /\ rtc api_step w w') ->
  wheel_inv w -> idle_ok w -> running w = false -> timer_count w < Z.of_nat fuel ->
  (exists w' again, run_once env fuel w = Done (w', again) /\ ran w' /\ last_runtime w' = clock w) /\
  (forall runs, solo env -> run_again w = false ->
     exists w', xdp2_run_timer_wheel env (S runs) fuel w = Done w' /\ ran w' /\ last_runtime w' = clock w) /\
  (forall runs, 2 ^ 31 <= Z.of_nat fuel ->
     xdp2_run_timer_wheel env runs fuel w = NoFuel \/
     exists w', xdp2_run_timer_wheel env runs fuel w = Done w' /\ ran w' /\ clock w <= last_runtime w').
Proof.
  intros Henv Hinv Hid Hrun Hf.
  destruct (run_once_ok env Henv w Hinv Hid Hrun fuel Hf) as (w' & again & E & Hres & Hag).
  destruct (run_result_ran _ _ _ Hres) as (Hran & El & _). split_and!.
  - by exists w', again.
  - intros runs Hs Ha. exists w'. split_and!; [| done | done]. rewrite (Hag Hs Ha) in E.
    unfold xdp2_run_timer_wheel. cbn [__xdp2_run_timer_wheel_locked]. rewrite E. by orun.
  - intros runs Hf2. by apply run_turns.
Qed.

(** When callbacks do not use the wheel, a run invokes the callbacks of
    exactly the timers whose time has come, each once, and leaves the others set;
    a run at the time that was asked for leaves the next request in place. *)
Theorem timer_run_fires_expired runs fuel w :
  wheel_inv w -> idle_ok w -> running w = false -> run_again w = false -> timer_count w < Z.of_nat fuel ->
  exists w', xdp2_run_timer_wheel quiet_env (S runs) fuel w = Done w' /\
    wheel_inv w' /\ fires_exactly w w' /\ (next_expire_time w = clock w -> armed w').
Proof.
  intros Hinv Hid Hr Ha Hf. destruct (run_quiet runs fuel w Hinv Hid Hr Ha Hf) as
    (w' & E & Hinv' & _ & _ & _ & _ & _ & _ & _ & _ & Harm & Hex).
  exists w'. split_and!; try done; [by apply Hex |]. intros En. by destruct Harm as [? | [_ ?]].
Qed.

(** C17: a timer that is set is fired at its time: when the wheel is run at the
    times it asks for, the timer stays set while its time has not come, and after
    finitely many runs the clock shows exactly its time, its callback has been
    invoked and it is no longer set. *)
Theorem timer_fires_on_time fuel w id t :
  on_time fuel w -> pending w id t -> expires (num_slots w) t + 2 ^ 32 < 2 ^ 63 ->
  exists k w', serve (S k) fuel w = Done w' /\ clock w' = expires (num_slots w) t /\
    Fire (callback t) (arg t) ∈ log w' /\ ~ pending w' id t /\
    forall j, (j <= k)%nat -> exists wj, serve j fuel w = Done wj /\ pending wj id t /\ clock wj <= expires (num_slots w) t.
Proof.
  remember (Z.to_nat (expires (num_slots w) t - last_runtime w)) as m eqn:Em. revert w Em.
  induction m as [m IH] using lt_wf_ind. intros w Em Hon Hp Hmax.
  assert (clock w <= expires (num_slots w) t) as Hclk.
  { destruct Hon as (_ & [[_ Hn] | (_ & Hle & _)] & _ & _ & _ & Hc); [by destruct (Hn id t) |].
    specialize (Hle id t Hp). lia. }
  destruct (serve_one fuel w id t Hon Hp Hmax) as (w1 & E1 & Hck & En & [(He & Hin & Hnp) | (Hlt & Hp1 & Hon1 & Hl)]).
  - exists 0%nat, w1. cbn [serve]. rewrite E1. orun. rewrite Hck. split_and!; try done.
    intros j Hj. assert (j = 0%nat) as -> by lia. by exists w.
  - destruct (pending_index w1 id t ltac:(apply Hon1) Hp1) as (_ & _ & Hex & _). rewrite En in Hex.
    destruct (IH (Z.to_nat (expires (num_slots w) t - last_runtime w1)) ltac:(lia) w1) as
      (k & w' & E & Hc & Hin & Hnp & Hj); [by rewrite En | done | done | by rewrite En |]. rewrite En in *.
    exists (S k), w'. split; [cbn [serve]; rewrite E1; exact E |]. split_and!; try done.
    intros [| j] Hle; [by exists w |]. destruct (Hj j ltac:(lia)) as (wj & Ej & ?). exists wj.
    split; [cbn [serve]; rewrite E1; exact Ej | done].
Qed.

(** ** A wheel to try them on *)

(** Creation relies on memory that is zero: with it the wheel is usable. *)
Lemma create_ok order has_pop units junk w :
  0 <= order <= 30 -> __xdp2_timer_create_wheel order has_pop units junk = Some w ->
  holds_bits (w := 64) (nw := 0) (slot_bitmap junk) (2 ^ order) ->
  next_expire_time junk = 0 -> last_runtime junk = 0 -> timer_count junk = 0 ->
  0 <= clock junk -> clock junk + 2 ^ 32 < 2 ^ 63 -> timers junk = ∅ ->
  wheel_inv w /\ armed w.
Proof.
  intros Ho E Hb Hn Hl Hc Hk1 Hk2 Ht. unfold __xdp2_timer_create_wheel in E. destruct (units =? 0); [done |].
  injection E as <-. rewrite Z.shiftl_1_l.
  pose proof (Z.pow_pos_nonneg 2 order ltac:(lia) ltac:(lia)).
  assert (2 ^ order <= 2 ^ 30) by (apply Z.pow_le_mono_r; lia).
  assert (forall i, slot_at (replicate (Z.to_nat (2 ^ order)) []) i = []) as Hs.
  { intros i. unfold slot_at. destruct (_ !! _) eqn:E; [| done]. apply lookup_replicate in E as [-> _]. done. }
  unfold wheel_inv, parts_inv, armed, none_pending, pending. cbn. rewrite Ht, Hn, Hl, Hc. split.
  - split; [lia |]. split; [rewrite length_replicate; lia |]. split; [done |]. split; [lia |]. split_and!.
    + intros i _. by rewrite Hs.
    + intros i _. rewrite Hs. apply NoDup_nil_2.
    + intros i id _. rewrite Hs, lookup_empty. split; [by intros ?%not_elem_of_nil | by intros (? & ? & _)].
    + intros id t. by rewrite lookup_empty.
    + done.
    + done.
  - left. split; [done |]. intros id t. rewrite lookup_empty. by intros [].
Qed.

(** Four slots, two timer structures, the clock at 6. *)
Definition zeroed : xdp2_timer_wheel :=
  Wheel 0 false 0 0 [0] 0 0 0 false false (fun _ => 0) [] ∅ 6 [].
Definition empty_wheel : xdp2_timer_wheel :=
  default zeroed (xdp2_timer_create_wheel 2 true 1000 zeroed).
Definition two_timers : xdp2_timer_wheel :=
  put_timer 2 (Timer 200 201 false 0 0) (put_timer 1 (Timer 100 101 false 0 0) empty_wheel).

Lemma empty_wheel_ok : wheel_inv empty_wheel /\ armed empty_wheel.
Proof.
  apply (create_ok 2 true 1000 zeroed); try done.
  change (slot_bitmap zeroed) with [0]. holds_bits.
Qed.

Lemma two_timers_ok : wheel_inv two_timers /\ armed two_timers.
Proof.
  destruct empty_wheel_ok as [Hinv Harm].
  destruct (api_steps_ok empty_wheel two_timers) as (H & _ & _ & _ & _ & _ & _ & Ha); [| done | by apply armed_idle | auto].
  eapply rtc_l; [apply (api_new empty_wheel 1 (Timer 100 101 false 0 0)); by vm_compute |].
  eapply rtc_l; [apply (api_new _ 2 (Timer 200 201 false 0 0)); by vm_compute | done].
Qed.

Lemma timer_add_remove_witness :
  exists w', __xdp2_timer_add two_timers 1 5 false = Done w' /\ wheel_inv w' /\ armed w' /\
    (forall i x, i <> 1 -> pending w' i x <-> pending two_timers i x) /\
    (exists t', pending w' 1 t' /\ expires 4 t' = 11) /\
  exists w'', xdp2_timer_remove w' 1 = Done (w'', false) /\ wheel_inv w'' /\ armed w'' /\
    forall i x, pending w'' i x <-> i <> 1 /\ pending two_timers i x.
Proof.
  exact (timer_add_remove two_timers 1 (Timer 100 101 false 0 0) 5 false (proj1 two_timers_ok) (proj2 two_timers_ok)
    eq_refl ltac:(lia)).
Defined.

(** Both timers set: one of them expires at 8, the other at 15. *)
Definition sample : xdp2_timer_wheel :=
  match (w ← xdp2_timer_add two_timers 1 2; xdp2_timer_add w 2 9) with Done w => w | _ => two_timers end.

Lemma sample_on_time : on_time 3 sample.
Proof.
  destruct two_timers_ok as [Hinv Harm].
  destruct (api_steps_ok two_timers sample) as (H & _ & _ & _ & _ & _ & _ & Ha); [| done | by apply armed_idle |].
  - eapply rtc_l; [apply (api_add two_timers 1 2 false); [by eexists | lia | by vm_compute] |].
    eapply rtc_l; [| done]. apply (api_add _ 2 9 false); [by eexists | lia | by vm_compute].
  - split; [exact H |]. split; [auto |]. by vm_compute.
Qed.

Lemma timer_run_returns_witness :
  (exists w' again, run_once quiet_env 3 sample = Done (w', again) /\ ran w' /\ last_runtime w' = 6) /\
  exists w', xdp2_run_timer_wheel quiet_env 1 3 sample = Done w' /\ ran w' /\ last_runtime w' = 6.
Proof.
  destruct sample_on_time as (Hinv & Harm & Hr & Ha & Hc & _).
  destruct (timer_run_returns quiet_env sample 3 quiet_env_steps Hinv (armed_idle _ Harm) Hr Hc) as (H1 & H2 & _).
  split; [exact H1 |]. exact (H2 0%nat (quiet_solo _ quiet_env_quiet) Ha).
Defined.

(** A callback that sets its timer again and asks for a run, while time passes. *)
Definition busy_env (cbs : list (Z * Z)) (w : xdp2_timer_wheel) : outcome xdp2_timer_wheel :=
  w ← xdp2_timer_add w 1 1; mret (set_run_again true (set_clock (clock w + 2) w)).

Lemma busy_env_steps cbs w :
  wheel_inv w -> idle_ok w -> running w = true -> is_Some (timers w !! 1) -> clock w + 2 + 2 ^ 32 < 2 ^ 63 ->
  exists w', busy_env cbs w = Done w' /\ rtc api_step w w'.
Proof.
  intros Hinv Hid Hr Ht Hc. destruct (__xdp2_timer_add_ok w 1 1 false Hinv Ht ltac:(lia) Hid) as (w1 & E & _ & (_ & Ec & Er & _) & _).
  unfold busy_env, xdp2_timer_add. rewrite E. orun. eexists. split; [done |].
  eapply rtc_l; [by apply (api_add w 1 1 false w1) |]. eapply rtc_l; [apply (api_tick w1 (clock w1 + 2)); lia |].
  eapply rtc_l; [| done]. apply (api_request (set_clock _ w1)). cbn. by rewrite Er.
Qed.

(** The run is repeated for as long as it is asked for. *)
Lemma timer_run_repeated : xdp2_run_timer_wheel busy_env 100 50 (set_clock 8 sample) = NoFuel.
Proof. vm_compute. reflexivity. Qed.

(** The clock at the time that was asked for. *)
Lemma sample_due : wheel_inv (set_clock 8 sample) /\ armed (set_clock 8 sample).
Proof.
  destruct sample_on_time as (Hinv & Harm & _).
  assert (api_step sample (set_clock 8 sample)) as Hs.
  { apply (api_tick sample 8).
    - by vm_compute.
    - by vm_compute. }
  pose proof (api_step_ok sample _ Hinv (armed_idle _ Harm) Hs) as Hok.
  destruct Hok as (H & _ & _ & _ & _ & _ & _ & Ha).
  split.
  - exact H.
  - exact (Ha Harm).
Qed.

Lemma timer_run_fires_expired_witness :
  exists w', xdp2_run_timer_wheel quiet_env 1 3 (set_clock 8 sample) = Done w' /\
    wheel_inv w' /\ fires_exactly (set_clock 8 sample) w' /\ (8 = 8 -> armed w').
Proof.
  destruct sample_due as [Hinv Harm].
  exact (timer_run_fires_expired 0 3 (set_clock 8 sample) Hinv (armed_idle _ Harm) eq_refl eq_refl eq_refl).
Defined.

Lemma timer_fires_on_time_witness :
  exists k w', serve (S k) 3 sample = Done w' /\ clock w' = 15 /\
    Fire 200 201 ∈ log w' /\ ~ pending w' 2 (Timer 200 201 true 3 3) /\
    forall j, (j <= k)%nat -> exists wj, serve j 3 sample = Done wj /\ pending wj 2 (Timer 200 201 true 3 3) /\ clock wj <= 15.
Proof.
  apply (timer_fires_on_time 3 sample 2 (Timer 200 201 true 3 3)); [apply sample_on_time | by vm_compute | by vm_compute].
Defined.

Example sample_served : (w ← serve 3 3 sample; mret (log w, clock w, timer_count w)) =
  Done ([NextPop 8; Fire 100 101; NextPop 11; NextPop 15; Fire 200 201], 15, 0).
Proof. by vm_compute. Qed.

(** ** A late run *)

(** A run that is later than the time asked for and empties the wheel keeps
    the old time in [next_expire_time], which is neither the last run nor in the
    future; a timer that is added afterwards is set but no pop is requested for
    it. *)
Theorem timer_late_run_loses_pop :
  (w1 ← xdp2_run_timer_wheel quiet_env 1 3 (set_clock 30 sample);
   w2 ← xdp2_timer_add w1 1 5;
   mret (log w1, log w2, timers w2 !! 1, next_expire_time w2, last_runtime w2)) =
  Done ([NextPop 8; Fire 100 101; Fire 200 201], [NextPop 8; Fire 100 101; Fire 200 201],
        Some (Timer 100 101 true 8 3), 8, 30).
Proof. by vm_compute. Qed.

(** ** Times *)

Lemma div_add_exact a b c : 0 < c -> (a * c + b) / c = a + b / c.
Proof. intros Hc. rewrite Z.add_comm, Z.div_add by lia. lia. Qed.

Lemma div_le_self a c : 0 <= a -> 0 < c -> 0 <= a / c <= a.
Proof. intros Ha Hc. split; [by apply Z.div_pos; lia |]. apply Z.div_le_upper_bound; nia. Qed.

(** A time in units of the wheel becomes a [timespec] with less than a second
    of nanoseconds and back; and the time [future_ts] gives lies the delay after
    the current time when the unit divides a second. *)
Theorem timer_time_conversions w tim now delay :
  0 < time_units w -> time_div w = 1000000000 / time_units w -> 0 < time_div w -> 0 <= tim < 2 ^ 63 ->
  0 <= tv_nsec now < 1000000000 -> 0 <= tv_sec now -> 0 <= delay ->
  (tv_sec now + delay + 2) * time_div w < 2 ^ 63 ->
  (exists ts, time_units_to_ts w tim = Done ts /\ 0 <= tv_nsec ts < 1000000000 /\ ts_to_time_units w ts = tim) /\
  (time_units w * time_div w = 1000000000 ->
   exists ts, future_ts w now delay = Done ts /\ 0 <= tv_nsec ts < 1000000000 /\
     ts_to_time_units w ts = ts_to_time_units w now + delay).
Proof.
  destruct now as [s ns]. cbn [tv_sec tv_nsec]. intros Hu Ed Hd Ht Hns Hs Hdl Hmax. set (u := time_units w) in *. set (d := time_div w) in *.
  assert (d * u <= 1000000000) as Hdu.
  { rewrite Ed, Z.mul_comm. apply Z.mul_div_le. lia. }
  unfold time_units_to_ts, future_ts, ts_to_time_units. cbn [tv_sec tv_nsec]. fold u d. destruct (Z.eqb_spec d 0); [lia |]. split.
  - pose proof (Z.mod_pos_bound tim d ltac:(lia)) as Hm. pose proof (Z.div_mod tim d ltac:(lia)) as Dm.
    assert (0 <= tim mod d * u < 1000000000) as Hr by nia.
    assert (0 <= tim / d) by (apply Z.div_pos; lia). eexists. split; [done |]. cbn [tv_sec tv_nsec].
    rewrite (u64_small (tim mod d * u)) by lia. split; [lia |]. rewrite Z.div_mul by lia.
    rewrite (u64_small (tim / d * d)) by nia. rewrite u64_small by lia. lia.
  - intros Eq. pose proof (Z.mod_pos_bound delay d ltac:(lia)) as Hm. pose proof (Z.div_mod delay d ltac:(lia)) as Dm.
    assert (0 <= delay / d) as Hq by (apply Z.div_pos; lia). set (r := delay mod d) in *. set (q := delay / d) in *.
    assert (0 <= r * u < 1000000000) by nia. rewrite (u64_small (r * u)) by lia. rewrite (u64_small (r * u + ns)) by lia.
    set (N := r * u + ns) in *. pose proof (Z.mod_pos_bound N 1000000000 ltac:(lia)) as Hm'.
    pose proof (Z.div_mod N 1000000000 ltac:(lia)) as DN.
    assert (0 <= N / 1000000000 <= 1) as Hk by (split; [apply Z.div_pos; lia | apply Z.lt_succ_r, Z.div_lt_upper_bound; lia]).
    set (k := N / 1000000000) in *. set (m := N mod 1000000000) in *.
    assert (N / u = k * d + m / u) as E1.
    { rewrite DN. replace (1000000000 * k) with (k * d * u) by nia. apply div_add_exact. lia. }
    assert (N / u = r + ns / u) as E2 by (apply div_add_exact; lia).
    pose proof (div_le_self m u ltac:(lia) Hu) as B6. pose proof (div_le_self ns u ltac:(lia) Hu) as B7.
    eexists. split; [done |]. cbn [tv_sec tv_nsec]. split; [lia |].
    assert (q <= delay) as Hqd by (apply div_le_self; lia).
    assert ((s + q + k) * d <= (s + delay + 1) * d) as B1 by (apply Z.mul_le_mono_nonneg_r; lia).
    assert (s * d <= (s + delay + 1) * d) as B2 by (apply Z.mul_le_mono_nonneg_r; lia).
    assert (1 * delay <= d * delay) as B3 by (apply Z.mul_le_mono_nonneg_r; lia).
    assert (0 <= s * d) as B0 by (apply Z.mul_nonneg_nonneg; lia).
    assert (0 <= (s + q + k) * d) as B4 by (apply Z.mul_nonneg_nonneg; lia).
    assert (1 * (s + q + k) <= d * (s + q + k)) as B5 by (apply Z.mul_le_mono_nonneg_r; lia).
    rewrite (u64_small (s + q + k)) by lia. rewrite !(u64_small (_ * d)) by lia. rewrite !u64_small by lia. lia.
Qed.

Lemma timer_time_conversions_witness :
  (exists ts, time_units_to_ts empty_wheel 1234567890 = Done ts /\ 0 <= tv_nsec ts < 1000000000 /\
     ts_to_time_units empty_wheel ts = 1234567890) /\
  (1000 * 1000000 = 1000000000 ->
   exists ts, future_ts empty_wheel (Timespec 7 999999500) 10000000 = Done ts /\ 0 <= tv_nsec ts < 1000000000 /\
     ts_to_time_units empty_wheel ts = ts_to_time_units empty_wheel (Timespec 7 999999500) + 10000000).
Proof. apply (timer_time_conversions empty_wheel); by vm_compute. Defined.
