(* ===== verification/Memory.v ===== *)
(** * Memory by address

    For the components that compute with addresses as integers: a byte memory,
    with little endian loads and stores that fail outside the mapped bytes. *)

From stdpp Require Import base list gmap numbers.
From S2P Require Import Prelude.

Abbreviation memory := (gmap Z Z).

Fixpoint mem_ld (k : nat) (m : memory) (a : Z) : outcome Z :=
  match k with
  | O => mret 0
  | S k => b ← deref (m !! a); r ← mem_ld k m (a + 1); mret (b + 2 ^ 8 * r)
  end.

Fixpoint mem_st (k : nat) (m : memory) (a v : Z) : outcome memory :=
  match k with
  | O => mret m
  | S k => _ ← deref (m !! a); mem_st k (<[a := v mod 2 ^ 8]> m) (a + 1) (v / 2 ^ 8)
  end.

(** Pointers in memory. *)
Definition ld_ptr := mem_ld 8.
Definition st_ptr := mem_st 8.

(** Bytes of a range, and [memcpy] of a list of bytes. *)
Fixpoint mem_bytes (k : nat) (m : memory) (a : Z) : outcome (list Z) :=
  match k with
  | O => mret []
  | S k => b ← deref (m !! a); l ← mem_bytes k m (a + 1); mret (b :: l)
  end.

Fixpoint mem_write (l : list Z) (m : memory) (a : Z) : outcome memory :=
  match l with
  | [] => mret m
  | b :: l => _ ← deref (m !! a); mem_write l (<[a := b]> m) (a + 1)
  end.

Definition mapped (m : memory) (a n : Z) : Prop := forall i, a <= i < a + n -> is_Some (m !! i).

(** The bytes outside [a, a + n) are the same. *)
Definition same_outside (m m' : memory) (a n : Z) : Prop := forall i, i < a \/ a + n <= i -> m' !! i = m !! i.

Lemma mapped_sub m a n b k : mapped m a n -> a <= b -> b + k <= a + n -> mapped m b k.
Proof. intros H Hb Hk i Hi. apply H. lia. Qed.

Lemma same_outside_mapped m m' a n b k :
  same_outside m m' a n -> mapped m' a n -> mapped m b k -> mapped m' b k.
Proof.
  intros Hs Ha Hb i Hi. destruct (decide (a <= i < a + n)); [by apply Ha |].
  rewrite Hs by lia. by apply Hb.
Qed.

Lemma mem_ld_ext k : forall m m' a,
  (forall i, a <= i < a + Z.of_nat k -> m' !! i = m !! i) -> mem_ld k m' a = mem_ld k m a.
Proof.
  induction k as [| k IH]; intros m m' a H; [done |]. cbn [mem_ld]. rewrite (H a) by lia.
  rewrite (IH m m' (a + 1)); [done |]. intros i Hi. apply H. lia.
Qed.

Lemma mem_st_ok k : forall m a v,
  mapped m a (Z.of_nat k) ->
  exists m', mem_st k m a v = Done m' /\ same_outside m m' a (Z.of_nat k) /\ mapped m' a (Z.of_nat k) /\
    mem_ld k m' a = Done (v mod 2 ^ (8 * Z.of_nat k)).
Proof.
  induction k as [| k IH]; intros m a v Hm; cbn [mem_st].
  - exists m. split_and!; try done. by rewrite Z.mod_1_r.
  - destruct (Hm a) as [b Eb]; [lia |]. rewrite Eb. orun.
    destruct (IH (<[a := v mod 2 ^ 8]> m) (a + 1) (v / 2 ^ 8)) as (m' & E & Hs & Hm' & Hl).
    { intros i Hi. rewrite lookup_insert_ne by lia. apply Hm. lia. }
    assert (m' !! a = Some (v mod 2 ^ 8)) as Ea by (rewrite Hs by lia; apply lookup_insert_eq).
    exists m'. split; [exact E |]. split_and!.
    + intros i Hi. rewrite Hs by lia. apply lookup_insert_ne. lia.
    + intros i Hi. destruct (decide (i = a)) as [-> | Hne]; [by rewrite Ea | apply Hm'; lia].
    + cbn [mem_ld]. rewrite Ea. orun. rewrite Hl. f_equal.
      replace (8 * Z.of_nat (S k)) with (8 + 8 * Z.of_nat k) by lia. rewrite Z.pow_add_r by lia.
      rewrite Z.rem_mul_r by (try apply Z.pow_nonzero; lia). done.
Qed.

Lemma st_ptr_ok m a v :
  mapped m a 8 -> 0 <= v < 2 ^ 64 ->
  exists m', st_ptr m a v = Done m' /\ same_outside m m' a 8 /\ mapped m' a 8 /\ ld_ptr m' a = Done v.
Proof.
  intros Hm Hv. destruct (mem_st_ok 8 m a v Hm) as (m' & E & Hs & Hm' & Hl).
  exists m'. split_and!; try done. unfold ld_ptr. rewrite Hl. f_equal. by apply Z.mod_small.
Qed.

Lemma ld_ptr_outside m m' a n b :
  same_outside m m' a n -> b + 8 <= a \/ a + n <= b -> ld_ptr m' b = ld_ptr m b.
Proof. intros Hs Hb. apply mem_ld_ext. intros i Hi. apply Hs. lia. Qed.
