(* ===== verification/ObjAlloc.v ===== *)
(** * Address translation and object allocator

    [lib/xdp2/obj_allocator.c] and [include/xdp2/obj_allocator.h], as compiled
    without [XDP2_OBJ_ALLOC_DEBUG]. Addresses are integers; a free object holds the
    relative address of the next one in its first eight bytes. The mutex
    serializes the operations. The list a corrupted allocator holds may be
    circular, so its walks take fuel. *)

From stdpp Require Import base list numbers gmap.
From S2P Require Import Prelude Memory.

(** ** Address translation

    [lib/xdp2/addr_xlat.c] and [include/xdp2/addr_xlat.h]: structures in shared
    memory hold relative addresses, which a translator makes absolute. *)

(** [get_base] is what the function of the translator returns, if it has one. *)
Record xdp2_addr_xlat := AddrXlat { xl_base : Z; xl_get_base : option Z }.

Definition XDP2_ADDR_XLAT_MAX_TRANSLATORS : Z := 10.
Definition XDP2_ADDR_XLAT_NO_XLAT : Z := -1.

Definition xlat_base (x : xdp2_addr_xlat) : Z :=
  let fbase := default 0 (xl_get_base x) in
  if fbase =? 0 then xl_base x else fbase.

Definition xdp2_addr_xlat_translate (xl : list xdp2_addr_xlat) (num addr : Z) : outcome Z :=
  if (num <? 0) || (addr =? 0) then mret addr else
  _ ← XDP2_ASSERT (num <? XDP2_ADDR_XLAT_MAX_TRANSLATORS);
  x ← deref (xl !! Z.to_nat num);
  mret (u64 (xlat_base x + addr)).

(** The entry is read before the assertion. *)
Definition xdp2_addr_xlat_reverse_translate (xl : list xdp2_addr_xlat) (num addr : Z) : outcome Z :=
  if (num <? 0) || (addr =? 0) then mret addr else
  x ← deref (xl !! Z.to_nat num);
  _ ← XDP2_ASSERT (num <? XDP2_ADDR_XLAT_MAX_TRANSLATORS);
  mret (u64 (addr - xlat_base x)).

Definition xdp2_addr_xlat_set_base (xl : list xdp2_addr_xlat) (num base : Z) : outcome (list xdp2_addr_xlat) :=
  _ ← XDP2_ASSERT (num <? XDP2_ADDR_XLAT_MAX_TRANSLATORS);
  x ← deref (xl !! Z.to_nat num);
  mret (<[Z.to_nat num := AddrXlat base (xl_get_base x)]> xl).

Definition xdp2_addr_xlat_set_base_func (xl : list xdp2_addr_xlat) (num : Z) (f : option Z)
  : outcome (list xdp2_addr_xlat) :=
  _ ← XDP2_ASSERT (num <? XDP2_ADDR_XLAT_MAX_TRANSLATORS);
  x ← deref (xl !! Z.to_nat num);
  mret (<[Z.to_nat num := AddrXlat (xl_base x) f]> xl).

(** ** Translation and its inverse *)

Section Xlat.
(** The translator [xnum] adds [fb]. *)
Context (xl : list xdp2_addr_xlat) (xnum fb : Z).

Definition xlat_ok : Prop :=
  (xnum < 0 /\ fb = 0) \/
  (0 <= xnum < XDP2_ADDR_XLAT_MAX_TRANSLATORS /\ 0 <= fb < 2 ^ 64 /\
   exists x, xl !! Z.to_nat xnum = Some x /\ xlat_base x = fb).

Definition xlat_rel (o : Z) : Z := u64 (o - fb).

Context (Hx : xlat_ok).

Lemma xlat_fb_range : 0 <= fb < 2 ^ 64.
Proof using Hx. destruct Hx as [[_ ->] | (_ & H & _)]; [lia | done]. Qed.

Lemma xlat_rel_nonzero o : 0 < o < 2 ^ 64 -> o <> fb -> xlat_rel o <> 0.
Proof using Hx.
  intros Ho Hne. pose proof xlat_fb_range. unfold xlat_rel. destruct (Z.lt_ge_cases o fb).
  - rewrite u64_neg by lia. lia.
  - rewrite u64_small by lia. lia.
Qed.

Lemma xlat_rev o : 0 < o < 2 ^ 64 -> xdp2_addr_xlat_reverse_translate xl xnum o = Done (xlat_rel o).
Proof using Hx.
  intros Ho. unfold xdp2_addr_xlat_reverse_translate, xlat_rel. destruct (Z.eqb_spec o 0); [lia |].
  destruct Hx as [[H ->] | (H & Hfb & x & E & Ex)].
  - destruct (Z.ltb_spec xnum 0); [| lia]. cbn. by rewrite Z.sub_0_r, u64_small by lia.
  - destruct (Z.ltb_spec xnum 0); [lia |]. cbn. rewrite E. orun.
    destruct (Z.ltb_spec xnum XDP2_ADDR_XLAT_MAX_TRANSLATORS); [| lia]. cbn. by rewrite Ex.
Qed.

Lemma xlat_fwd o : 0 < o < 2 ^ 64 -> o <> fb -> xdp2_addr_xlat_translate xl xnum (xlat_rel o) = Done o.
Proof using Hx.
  intros Ho Hne. pose proof (xlat_rel_nonzero o Ho Hne) as Hr. unfold xdp2_addr_xlat_translate.
  destruct (Z.eqb_spec (xlat_rel o) 0); [done |]. pose proof xlat_fb_range as Hfb0.
  destruct Hx as [[H E0] | (H & Hfb & x & E & Ex)].
  - destruct (Z.ltb_spec xnum 0); [| lia]. cbn. unfold xlat_rel. rewrite E0, Z.sub_0_r, u64_small by lia. done.
  - destruct (Z.ltb_spec xnum 0); [lia |]. cbn.
    destruct (Z.ltb_spec xnum XDP2_ADDR_XLAT_MAX_TRANSLATORS); [| lia]. cbn. rewrite E. orun. rewrite Ex.
    unfold xlat_rel, u64. rewrite Zplus_mod_idemp_r. f_equal. rewrite Zmod_small; lia.
Qed.
End Xlat.

(** ** Allocators *)

Definition XDP2_OBJ_ALLOC_MAGIC_NUM : Z := 0x43b3c9ef64bba98c.
Definition XDP2_OBJ_ALLOC_NAME_LEN : nat := 31.
Definition XDP2_OBJ_ALLOC_BASE_INDEX : Z := 1.

Record xdp2_obj_allocator_free_list := FreeList {
  free_list : Z; num_free : Z; allocs : Z; alloc_fails : Z }.

Record xdp2_obj_allocator := ObjAllocator {
  magic_num : Z; name : list Z; max_objs : Z; obj_size : Z; base_index : Z;
  addr_xlat_num : Z; base : Z; alloc_free_list : xdp2_obj_allocator_free_list }.

Definition set_free_list (f : xdp2_obj_allocator_free_list) (a : xdp2_obj_allocator) : xdp2_obj_allocator :=
  ObjAllocator (magic_num a) (name a) (max_objs a) (obj_size a) (base_index a) (addr_xlat_num a) (base a) f.

Definition XDP2_OBJ_ALLOC_CHECK_MAGIC (a : xdp2_obj_allocator) : outcome unit :=
  XDP2_ASSERT (magic_num a =? XDP2_OBJ_ALLOC_MAGIC_NUM).

Section Alloc.
(** The global translators. *)
Context (xl : list xdp2_addr_xlat).
Abbreviation XDP2_ADDR_XLAT := (xdp2_addr_xlat_translate xl).
Abbreviation XDP2_ADDR_REV_XLAT := (xdp2_addr_xlat_reverse_translate xl).

(** ** Initialization *)

(** [calloc_ret] is the address [calloc] returns, zero when it fails. *)
Definition alloc_objects (num_objs size calloc_ret : Z) : Z :=
  if (size <? 8) || (num_objs =? 0) then 0 else calloc_ret.

Definition __xdp2_obj_alloc_common_init (a : xdp2_obj_allocator) (num_objs size bs : Z) (nm : list Z)
  (bindex xnum : Z) : outcome xdp2_obj_allocator :=
  rel ← XDP2_ADDR_REV_XLAT xnum bs;
  mret (ObjAllocator XDP2_OBJ_ALLOC_MAGIC_NUM (take XDP2_OBJ_ALLOC_NAME_LEN nm) num_objs size bindex xnum rel
          (alloc_free_list a)).

(** The loop that links [k] objects, and the object it ends at. *)
Fixpoint link_objs (k : nat) (m : memory) (obj size xnum : Z) : outcome (memory * Z) :=
  match k with
  | O => mret (m, obj)
  | S k =>
    rel ← XDP2_ADDR_REV_XLAT xnum (u64 (obj + size));
    m ← st_ptr m obj rel;
    link_objs k m (u64 (obj + size)) size xnum
  end.

(** The counter of the loop is an [int]. *)
Definition __xdp2_obj_alloc_free_list_init (a : xdp2_obj_allocator) (m : memory) (num_objs size bs : Z)
  (nm : list Z) (bindex xnum : Z) : outcome (xdp2_obj_allocator * memory) :=
  if 2 ^ 31 <=? u32 (num_objs - 1) then Crash else
  '(m, obj) ← link_objs (Z.to_nat (u32 (num_objs - 1))) m bs size xnum;
  m ← st_ptr m obj 0;
  a ← __xdp2_obj_alloc_common_init a num_objs size bs nm bindex xnum;
  rel ← XDP2_ADDR_REV_XLAT xnum bs;
  let f := alloc_free_list a in
  mret (set_free_list (FreeList rel num_objs (allocs f) (alloc_fails f)) a, m).

(** [alloc] gives the address [calloc] returns and the memory with the new
    objects in it. *)
Definition xdp2_obj_alloc_free_list_init (a : xdp2_obj_allocator) (m : memory) (num_objs size : Z)
  (nm : list Z) (xnum : Z) (alloc : Z * memory) : outcome (xdp2_obj_allocator * memory * bool) :=
  let bs := alloc_objects num_objs size (fst alloc) in
  if bs =? 0 then mret (a, m, false) else
  '(a, m) ← __xdp2_obj_alloc_free_list_init a (snd alloc) num_objs size bs nm XDP2_OBJ_ALLOC_BASE_INDEX xnum;
  mret (a, m, true).

Definition __xdp2_obj_alloc_init a m num_objs size bs nm xnum :=
  __xdp2_obj_alloc_free_list_init a m num_objs size bs nm XDP2_OBJ_ALLOC_BASE_INDEX xnum.
Definition __xdp2_obj_alloc_init_base_index := __xdp2_obj_alloc_free_list_init.
Definition xdp2_obj_alloc_init := xdp2_obj_alloc_free_list_init.

(** ** Checks *)

Fixpoint count_free (fuel : nat) (m : memory) (obj count : Z) : outcome Z :=
  if obj =? 0 then mret count else
  match fuel with
  | O => NoFuel
  | S fuel => next ← ld_ptr m obj; count_free fuel m next (u32 (count + 1))
  end.

(** The walk uses the relative addresses. *)
Definition __xdp2_obj_alloc_validate (fuel : nat) (a : xdp2_obj_allocator) (m : memory) : outcome unit :=
  _ ← XDP2_OBJ_ALLOC_CHECK_MAGIC a;
  count ← count_free fuel m (free_list (alloc_free_list a)) 0;
  _ ← XDP2_ASSERT (count <=? max_objs a);
  XDP2_ASSERT (count =? num_free (alloc_free_list a)).

Fixpoint check_freed_loop (fuel : nat) (m : memory) (xnum obj cobj : Z) : outcome unit :=
  if obj =? 0 then mret tt else
  match fuel with
  | O => NoFuel
  | S fuel =>
    _ ← XDP2_ASSERT (negb (obj =? cobj));
    next ← ld_ptr m obj;
    obj ← XDP2_ADDR_XLAT xnum next;
    check_freed_loop fuel m xnum obj cobj
  end.

Definition __xdp2_obj_alloc_check_freed (fuel : nat) (a : xdp2_obj_allocator) (m : memory) (cobj : Z)
  : outcome unit :=
  _ ← XDP2_OBJ_ALLOC_CHECK_MAGIC a;
  obj ← XDP2_ADDR_XLAT (addr_xlat_num a) (free_list (alloc_free_list a));
  check_freed_loop fuel m (addr_xlat_num a) obj cobj.

(** ** Objects and indices *)

Definition xdp2_obj_alloc_index_to_offset (a : xdp2_obj_allocator) (index : Z) : Z :=
  u64 (u32 (index - base_index a) * obj_size a).

Definition xdp2_obj_alloc_index_to_obj (a : xdp2_obj_allocator) (index : Z) : outcome Z :=
  _ ← XDP2_OBJ_ALLOC_CHECK_MAGIC a;
  _ ← XDP2_ASSERT ((base_index a <=? index) && (index <? u32 (max_objs a + base_index a)));
  b ← XDP2_ADDR_XLAT (addr_xlat_num a) (base a);
  mret (u64 (b + xdp2_obj_alloc_index_to_offset a index)).

Definition xdp2_obj_alloc_obj_to_index (a : xdp2_obj_allocator) (obj : Z) : outcome Z :=
  _ ← XDP2_OBJ_ALLOC_CHECK_MAGIC a;
  b ← XDP2_ADDR_XLAT (addr_xlat_num a) (base a);
  if obj_size a =? 0 then Crash else
  mret (u32 (u64 (obj - b) / obj_size a + base_index a)).

Definition XDP2_OBJ_ALLOC_CHECK (a : xdp2_obj_allocator) (obj : Z) : outcome unit :=
  index ← xdp2_obj_alloc_obj_to_index a obj;
  _ ← XDP2_ASSERT (negb (index =? 0));
  XDP2_ASSERT (index <=? max_objs a).

(** ** Allocation *)

(** The object and its index, or NULL. *)
Definition __xdp2_obj_alloc_free_list_alloc (a : xdp2_obj_allocator) (m : memory)
  : outcome (xdp2_obj_allocator * option (Z * Z)) :=
  let f := alloc_free_list a in
  _ ← XDP2_OBJ_ALLOC_CHECK_MAGIC a;
  if num_free f =? 0 then
    mret (set_free_list (FreeList (free_list f) (num_free f) (allocs f) (u64 (alloc_fails f + 1))) a, None)
  else
    obj ← XDP2_ADDR_XLAT (addr_xlat_num a) (free_list f);
    _ ← (if obj =? 0 then XDP2_ASSERT (num_free f =? 0) else mret tt);
    next ← ld_ptr m obj;
    let a := set_free_list (FreeList next (u32 (num_free f - 1)) (u64 (allocs f + 1)) (alloc_fails f)) a in
    num ← xdp2_obj_alloc_obj_to_index a obj;
    mret (a, Some (obj, num)).

Definition __xdp2_obj_alloc_free_list_free (a : xdp2_obj_allocator) (m : memory) (obj : Z)
  : outcome (xdp2_obj_allocator * memory) :=
  let f := alloc_free_list a in
  _ ← XDP2_OBJ_ALLOC_CHECK_MAGIC a;
  m ← st_ptr m obj (free_list f);
  rel ← XDP2_ADDR_REV_XLAT (addr_xlat_num a) obj;
  mret (set_free_list (FreeList rel (u32 (num_free f + 1)) (allocs f) (alloc_fails f)) a, m).

Definition __xdp2_obj_alloc_alloc (a : xdp2_obj_allocator) (m : memory)
  : outcome (xdp2_obj_allocator * option (Z * Z)) :=
  '(a, r) ← __xdp2_obj_alloc_free_list_alloc a m;
  match r with
  | None => mret (a, None)
  | Some (obj, num) =>
    if obj =? 0 then mret (a, None) else
    _ ← XDP2_OBJ_ALLOC_CHECK a obj;
    index ← xdp2_obj_alloc_obj_to_index a obj;
    _ ← XDP2_ASSERT (index =? num);
    mret (a, Some (obj, num))
  end.

Definition xdp2_obj_alloc_free (a : xdp2_obj_allocator) (m : memory) (obj : Z)
  : outcome (xdp2_obj_allocator * memory) :=
  _ ← XDP2_OBJ_ALLOC_CHECK a obj;
  __xdp2_obj_alloc_free_list_free a m obj.

Definition xdp2_obj_alloc_free_by_index (a : xdp2_obj_allocator) (m : memory) (index : Z)
  : outcome (xdp2_obj_allocator * memory) :=
  obj ← xdp2_obj_alloc_index_to_obj a index;
  __xdp2_obj_alloc_free_list_free a m obj.

Definition xdp2_obj_alloc_get_base (a : xdp2_obj_allocator) : Z := base a.
End Alloc.
