(* ===== verification/ObjAllocSpec.v ===== *)
(** * Object allocator: invariant and contract

    The free list is a chain through the free objects; with the objects that are
    handed out it makes up all objects of the allocator. *)

From stdpp Require Import base list gmap sets numbers.
From S2P Require Import Prelude Memory ObjAlloc.

Section Spec.
Context (xl : list xdp2_addr_xlat).

(** An allocator of [n] objects of [sz] bytes at the address [bs], seen through
    the translator [xnum], which adds [fb]. No object lies at [fb]: its relative
    address would be NULL. *)
Context (n sz bs xnum fb : Z).

Definition obj_at (k : Z) : Z := bs + k * sz.

Definition config_ok : Prop :=
  xlat_ok xl xnum fb /\ 8 <= sz /\ 0 < n < 2 ^ 31 /\ 0 < bs /\ bs + n * sz < 2 ^ 64 /\
  forall k, 0 <= k < n -> obj_at k <> fb.

Definition objs : list Z := obj_at <$> seqZ 0 n.

Abbreviation rel := (xlat_rel fb).

(** [r] is the relative address of the first of the objects [l], each of which
    holds the relative address of the next. *)
Fixpoint chain (m : memory) (r : Z) (l : list Z) : Prop :=
  match l with
  | [] => r = 0
  | o :: l => r = rel o /\ exists r', ld_ptr m o = Done r' /\ chain m r' l
  end.

Definition fields_ok (a : xdp2_obj_allocator) : Prop :=
  magic_num a = XDP2_OBJ_ALLOC_MAGIC_NUM /\ max_objs a = n /\ obj_size a = sz /\ base_index a = 1 /\
  addr_xlat_num a = xnum /\ base a = rel bs.

(** [fl] are the free objects, [out] the objects handed out. *)
Definition alloc_inv (a : xdp2_obj_allocator) (m : memory) (fl out : list Z) : Prop :=
  fields_ok a /\ num_free (alloc_free_list a) = Z.of_nat (length fl) /\
  chain m (free_list (alloc_free_list a)) fl /\ fl ++ out ≡ₚ objs /\ mapped m bs (n * sz).

Context (Hcfg : config_ok).

(** ** Objects *)

Lemma elem_of_objs o : o ∈ objs <-> exists k, 0 <= k < n /\ o = obj_at k.
Proof.
  unfold objs. rewrite list_elem_of_fmap. split.
  - intros (k & -> & Hk%elem_of_seqZ). exists k. split; [lia | done].
  - intros (k & Hk & ->). exists k. split; [done |]. apply elem_of_seqZ. lia.
Qed.

Lemma obj_range k : 0 <= k < n -> bs <= obj_at k /\ obj_at k + sz <= bs + n * sz.
Proof using Hcfg. intros Hk. destruct Hcfg as (_ & Hsz & _). unfold obj_at. nia. Qed.

Lemma objs_range o : o ∈ objs -> 0 < o /\ bs <= o /\ o + sz <= bs + n * sz /\ bs + n * sz < 2 ^ 64 /\ o <> fb.
Proof using Hcfg.
  intros (k & Hk & ->)%elem_of_objs. pose proof (obj_range k Hk). destruct Hcfg as (_ & _ & _ & H1 & H2 & H3).
  specialize (H3 k Hk). lia.
Qed.

(** Different objects do not overlap. *)
Lemma objs_disjoint o o' : o ∈ objs -> o' ∈ objs -> o <> o' -> o + sz <= o' \/ o' + sz <= o.
Proof using Hcfg.
  intros (k & Hk & ->)%elem_of_objs (k' & Hk' & ->)%elem_of_objs Hne. destruct Hcfg as (_ & Hsz & _).
  unfold obj_at in *. destruct (Z.lt_trichotomy k k') as [Hlt | [-> | Hlt]]; [left; nia | done | right; nia].
Qed.

Lemma objs_nodup : NoDup objs.
Proof using Hcfg.
  unfold objs. apply NoDup_fmap_2_strong; [| apply NoDup_seqZ].
  intros k k' _ _ E. destruct Hcfg as (_ & Hsz & _). unfold obj_at in E. nia.
Qed.

Lemma objs_length : Z.of_nat (length objs) = n.
Proof using Hcfg. unfold objs. rewrite length_fmap, length_seqZ. destruct Hcfg as (_ & _ & ? & _). lia. Qed.

(** ** Translation *)

Lemma rev_xlat o : 0 < o < 2 ^ 64 -> xdp2_addr_xlat_reverse_translate xl xnum o = Done (rel o).
Proof using Hcfg. apply xlat_rev, Hcfg. Qed.

Lemma fwd_xlat o : 0 < o < 2 ^ 64 -> o <> fb -> xdp2_addr_xlat_translate xl xnum (rel o) = Done o.
Proof using Hcfg. apply xlat_fwd, Hcfg. Qed.

Lemma base_xlat a : fields_ok a -> xdp2_addr_xlat_translate xl (addr_xlat_num a) (base a) = Done bs.
Proof using Hcfg.
  intros (_ & _ & _ & _ & -> & ->). destruct Hcfg as (_ & Hsz & Hn & Hb & Hlim & Hne).
  apply fwd_xlat; [nia |]. specialize (Hne 0 ltac:(lia)). unfold obj_at in Hne. lia.
Qed.

Lemma magic_ok a : fields_ok a -> XDP2_OBJ_ALLOC_CHECK_MAGIC a = Done tt.
Proof. intros (E & _). unfold XDP2_OBJ_ALLOC_CHECK_MAGIC. by rewrite E, Z.eqb_refl. Qed.

(** ** Indices *)

Lemma obj_to_index_ok a k :
  fields_ok a -> 0 <= k < n -> xdp2_obj_alloc_obj_to_index xl a (obj_at k) = Done (k + 1).
Proof using Hcfg.
  intros Hf Hk. unfold xdp2_obj_alloc_obj_to_index. rewrite magic_ok, base_xlat by done. orun.
  pose proof (obj_range k Hk). destruct Hcfg as (_ & Hsz & Hn & Hb & Hlim & _).
  destruct Hf as (_ & _ & -> & -> & _). destruct (Z.eqb_spec sz 0); [lia |].
  rewrite u64_small by lia. unfold obj_at. replace (bs + k * sz - bs) with (k * sz) by lia.
  rewrite Z.div_mul by lia. unfold u32. by rewrite Z.mod_small by lia.
Qed.

Lemma index_to_obj_ok a k :
  fields_ok a -> 0 <= k < n -> xdp2_obj_alloc_index_to_obj xl a (k + 1) = Done (obj_at k).
Proof using Hcfg.
  intros Hf Hk. unfold xdp2_obj_alloc_index_to_obj, xdp2_obj_alloc_index_to_offset.
  rewrite magic_ok by done. rewrite base_xlat by done. destruct Hf as (_ & -> & -> & -> & _).
  destruct Hcfg as (_ & Hsz & Hn & Hb & Hlim & _). unfold u32.
  rewrite (Z.mod_small (n + 1)) by lia. rewrite (Z.mod_small (k + 1 - 1)) by lia.
  destruct (Z.leb_spec 1 (k + 1)); [| lia]. destruct (Z.ltb_spec (k + 1) (n + 1)); [| lia]. cbn.
  rewrite (u64_small ((k + 1 - 1) * sz)) by nia. rewrite u64_small by nia. unfold obj_at. f_equal. lia.
Qed.

Lemma check_ok a o : fields_ok a -> o ∈ objs -> XDP2_OBJ_ALLOC_CHECK xl a o = Done tt.
Proof using Hcfg.
  intros Hf (k & Hk & ->)%elem_of_objs. unfold XDP2_OBJ_ALLOC_CHECK. rewrite obj_to_index_ok by done. orun.
  destruct Hf as (_ & -> & _). destruct (Z.eqb_spec (k + 1) 0); [lia |]. cbn.
  destruct (Z.leb_spec (k + 1) n); [done | lia].
Qed.

(** ** The chain of free objects *)

Lemma chain_frame m m' o k : forall l r,
  same_outside m m' o k -> (forall x, x ∈ l -> x + 8 <= o \/ o + k <= x) -> chain m r l -> chain m' r l.
Proof.
  induction l as [| x l IH]; intros r Hs Hd H; [done |]. destruct H as (-> & r' & E & H). split; [done |].
  exists r'. split.
  - rewrite (ld_ptr_outside m m' o k x Hs); [done |]. apply Hd. by left.
  - apply IH; [done | | done]. intros y Hy. apply Hd. by right.
Qed.

Lemma inv_elem a m fl out o : alloc_inv a m fl out -> o ∈ fl \/ o ∈ out -> o ∈ objs.
Proof. intros (_ & _ & _ & P & _) H. rewrite <- P, elem_of_app. done. Qed.

Lemma inv_disjoint a m fl out x o :
  alloc_inv a m fl out -> x ∈ fl -> o ∈ out -> x + sz <= o \/ o + sz <= x.
Proof using Hcfg.
  intros Hinv Hx Ho. apply objs_disjoint; [eapply inv_elem; eauto .. |]. intros ->.
  destruct Hinv as (_ & _ & _ & P & _). pose proof objs_nodup as Hnd. rewrite <- P in Hnd.
  apply list.NoDup_app in Hnd as (_ & Hnd & _). by apply (Hnd o).
Qed.

Lemma inv_len a m fl out : alloc_inv a m fl out -> Z.of_nat (length fl) + Z.of_nat (length out) = n.
Proof using Hcfg.
  intros (_ & _ & _ & P & _). rewrite <- Nat2Z.inj_add, <- length_app, P. apply objs_length.
Qed.

(** ** Operations *)

Lemma alloc_ok a m fl out :
  alloc_inv a m fl out ->
  exists a', match fl with
  | [] => __xdp2_obj_alloc_alloc xl a m = Done (a', None) /\ alloc_inv a' m [] out
  | o :: fl' => exists i, __xdp2_obj_alloc_alloc xl a m = Done (a', Some (o, i)) /\
      xdp2_obj_alloc_obj_to_index xl a' o = Done i /\ alloc_inv a' m fl' (o :: out)
  end.
Proof using Hcfg.
  intros Hinv. pose proof (inv_len a m fl out Hinv) as Hlen. pose proof Hinv as (Hf & Hnf & Hch & P & Hm).
  unfold __xdp2_obj_alloc_alloc, __xdp2_obj_alloc_free_list_alloc. rewrite magic_ok by done. orun. rewrite Hnf.
  destruct fl as [| o fl].
  - eexists. split; [done |]. split; [exact Hf |]. done.
  - destruct (Z.eqb_spec (Z.of_nat (length (o :: fl))) 0) as [E | _]; [cbn in E; lia |].
    destruct Hch as (Er & r' & El & Hch). rewrite Er. pose proof Hf as (_ & _ & _ & _ & Ex & _). rewrite Ex.
    assert (o ∈ objs) as Ho by (eapply inv_elem; [done | left; by left]).
    pose proof (objs_range o Ho) as (H1 & H2 & H3 & H4 & H5). destruct Hcfg as (_ & Hsz & Hn & _).
    rewrite fwd_xlat by lia. destruct (Z.eqb_spec o 0); [lia |]. rewrite El.
    set (a' := set_free_list _ a). assert (fields_ok a') as Hf' by exact Hf.
    pose proof Ho as (k & Hk & Ek)%elem_of_objs. pose proof (obj_to_index_ok a' k Hf' Hk) as Ei. rewrite <- Ek in Ei.
    exists a', (k + 1). rewrite Ei. orun. destruct (Z.eqb_spec o 0); [lia |]. rewrite check_ok by done. orun.
    rewrite Ei. orun. rewrite Z.eqb_refl. cbn [XDP2_ASSERT].
    split; [done |]. split; [done |]. split; [done |]. split; [| split; [exact Hch |]; split; [| done]].
    + cbn [alloc_free_list num_free a' set_free_list]. cbn [length] in *. unfold u32. rewrite Z.mod_small; lia.
    + rewrite <- P. symmetry. apply Permutation_middle.
Qed.

Lemma free_list_free_ok a m fl out o :
  alloc_inv a m fl (o :: out) ->
  exists a' m', __xdp2_obj_alloc_free_list_free xl a m o = Done (a', m') /\ alloc_inv a' m' (o :: fl) out /\
    same_outside m m' o 8.
Proof using Hcfg.
  intros Hinv. pose proof (inv_len _ _ _ _ Hinv) as Hlen. pose proof Hinv as (Hf & Hnf & Hch & P & Hm).
  assert (o ∈ objs) as Ho by (eapply inv_elem; [done | right; by left]).
  pose proof (objs_range o Ho) as (H1 & H2 & H3 & H4 & H5). pose proof Hcfg as (_ & Hsz & Hn & _).
  unfold __xdp2_obj_alloc_free_list_free. rewrite magic_ok by done. orun.
  assert (0 <= free_list (alloc_free_list a) < 2 ^ 64) as Hr.
  { destruct fl; [rewrite Hch; lia |]. destruct Hch as [-> _]. apply u64_range. }
  destruct (st_ptr_ok m o (free_list (alloc_free_list a))) as (m' & -> & Hs & Hm' & El);
    [by eapply mapped_sub; [exact Hm | lia | lia] | done |].
  pose proof Hf as (_ & _ & _ & _ & -> & _). rewrite rev_xlat by lia. orun.
  eexists _, m'. split; [done |]. split; [| done].
  split; [exact Hf |]. split.
  { cbn. rewrite Hnf. cbn [length] in Hlen. unfold u32. rewrite Z.mod_small; lia. }
  split; [| split].
  - split; [done |]. exists (free_list (alloc_free_list a)). split; [done |].
    apply (chain_frame m m' o 8); [done | | done]. intros x Hx.
    pose proof (inv_disjoint _ _ _ _ x o Hinv Hx ltac:(by left)). lia.
  - rewrite <- P. apply Permutation_middle.
  - by eapply same_outside_mapped.
Qed.

Lemma free_ok a m fl out o :
  alloc_inv a m fl (o :: out) ->
  xdp2_obj_alloc_free xl a m o = __xdp2_obj_alloc_free_list_free xl a m o.
Proof using Hcfg.
  intros Hinv. unfold xdp2_obj_alloc_free. rewrite check_ok; [done | apply Hinv |].
  eapply inv_elem; [done | right; by left].
Qed.

Lemma free_by_index_ok a m fl out o i :
  alloc_inv a m fl (o :: out) -> xdp2_obj_alloc_obj_to_index xl a o = Done i ->
  xdp2_obj_alloc_free_by_index xl a m i = __xdp2_obj_alloc_free_list_free xl a m o.
Proof using Hcfg.
  intros Hinv Ei. assert (o ∈ objs) as (k & Hk & ->)%elem_of_objs by (eapply inv_elem; [done | right; by left]).
  rewrite obj_to_index_ok in Ei by (done || apply Hinv). injection Ei as <-.
  unfold xdp2_obj_alloc_free_by_index. rewrite index_to_obj_ok; [done | apply Hinv | done].
Qed.

(** The owner of an object writes to it. *)
Lemma write_ok a m m' fl out o :
  alloc_inv a m fl out -> o ∈ out -> same_outside m m' o sz -> mapped m' o sz -> alloc_inv a m' fl out.
Proof using Hcfg.
  intros Hinv Ho Hs Hm'. pose proof Hinv as (Hf & Hnf & Hch & P & Hm). pose proof Hcfg as (_ & Hsz & _).
  split; [done |]. split; [done |]. split; [| split; [done | by eapply same_outside_mapped]].
  apply (chain_frame m m' o sz); [done | | done]. intros x Hx.
  pose proof (inv_disjoint _ _ _ _ x o Hinv Hx Ho). lia.
Qed.

(** ** Initialization *)

Lemma link_objs_ok k : forall m j,
  0 <= j -> j + Z.of_nat k < n -> mapped m bs (n * sz) ->
  exists m', link_objs xl k m (obj_at j) sz xnum = Done (m', obj_at (j + Z.of_nat k)) /\
    mapped m' bs (n * sz) /\ (forall x, x < obj_at j -> m' !! x = m !! x) /\
    forall i, j <= i < j + Z.of_nat k -> ld_ptr m' (obj_at i) = Done (rel (obj_at (i + 1))).
Proof using Hcfg.
  induction k as [| k IH]; intros m j Hj Hk Hm; cbn [link_objs].
  - exists m. rewrite Z.add_0_r. split_and!; try (done || lia).
  - pose proof (obj_range j ltac:(lia)) as R1. pose proof (obj_range (j + 1) ltac:(lia)) as R2.
    pose proof Hcfg as (_ & Hsz & Hn & Hb & Hlim & _).
    assert (u64 (obj_at j + sz) = obj_at (j + 1)) as En by (rewrite u64_small by lia; unfold obj_at; lia).
    rewrite En, rev_xlat by lia. orun.
    destruct (st_ptr_ok m (obj_at j) (rel (obj_at (j + 1)))) as (m1 & -> & Hs & Hm1 & El);
      [by eapply mapped_sub; [exact Hm | lia | lia] | apply u64_range |].
    destruct (IH m1 (j + 1)) as (m' & -> & Hm' & Hlow & Hld); [lia | lia | by eapply same_outside_mapped |].
    assert (obj_at j + sz = obj_at (j + 1)) as Ej by (unfold obj_at; lia).
    exists m'. split; [do 3 f_equal; lia |]. split; [done |]. split.
    + intros x Hx. rewrite Hlow by lia. apply Hs. lia.
    + intros i Hi. destruct (decide (i = j)) as [-> | Hne]; [| apply Hld; lia].
      rewrite <- El. apply mem_ld_ext. intros x Hx. apply Hlow. lia.
Qed.

Lemma chain_from m k : forall j,
  0 <= j -> j + Z.of_nat k + 1 = n ->
  (forall i, j <= i < n - 1 -> ld_ptr m (obj_at i) = Done (rel (obj_at (i + 1)))) ->
  ld_ptr m (obj_at (n - 1)) = Done 0 ->
  chain m (rel (obj_at j)) (obj_at <$> seqZ j (Z.of_nat k + 1)).
Proof.
  induction k as [| k IH]; intros j Hj Hn Hl H0; rewrite seqZ_cons by lia; cbn [fmap list_fmap chain]; (split; [done |]).
  - exists 0. replace j with (n - 1) by lia. split; [done |]. by rewrite seqZ_nil by lia.
  - exists (rel (obj_at (j + 1))). split; [apply Hl; lia |].
    replace (Z.pred (Z.of_nat (S k) + 1)) with (Z.of_nat k + 1) by lia. rewrite <- Z.add_1_r.
    apply IH; [lia | lia | | done]. intros i Hi. apply Hl. lia.
Qed.

Lemma init_ok a m nm :
  mapped m bs (n * sz) ->
  exists a' m', __xdp2_obj_alloc_init xl a m n sz bs nm xnum = Done (a', m') /\ alloc_inv a' m' objs [].
Proof using Hcfg.
  intros Hm. pose proof Hcfg as (_ & Hsz & Hn & Hb & Hlim & _).
  unfold __xdp2_obj_alloc_init, __xdp2_obj_alloc_free_list_init.
  assert (u32 (n - 1) = n - 1) as -> by (apply Z.mod_small; lia).
  destruct (Z.leb_spec (2 ^ 31) (n - 1)); [lia |].
  pose proof (link_objs_ok (Z.to_nat (n - 1)) m 0 ltac:(lia) ltac:(lia) Hm) as (m1 & E & Hm1 & _ & Hl).
  replace (obj_at 0) with bs in E by (unfold obj_at; lia). rewrite E. orun.
  replace (0 + Z.of_nat (Z.to_nat (n - 1))) with (n - 1) in * by lia.
  pose proof (obj_range (n - 1) ltac:(lia)).
  destruct (st_ptr_ok m1 (obj_at (n - 1)) 0) as (m2 & -> & Hs & Hm2 & El);
    [by eapply mapped_sub; [exact Hm1 | lia | lia] | lia |].
  unfold __xdp2_obj_alloc_common_init. rewrite !rev_xlat by nia. orun.
  eexists _, m2. split; [done |]. split; [done |]. split; [by rewrite objs_length |]. split; [| split].
  - cbn. unfold objs. replace (rel bs) with (rel (obj_at 0)) by (f_equal; unfold obj_at; lia).
    replace n with (Z.of_nat (Z.to_nat (n - 1)) + 1) at 1 by lia. apply chain_from; [lia | lia | | done].
    intros i Hi. rewrite (ld_ptr_outside m1 m2 (obj_at (n - 1)) 8 _ Hs); [apply Hl; lia |].
    left. unfold obj_at. nia.
  - by rewrite app_nil_r.
  - by eapply same_outside_mapped.
Qed.

(** ** Use of an allocator

    The allocator, the memory and the objects handed out, after any sequence of
    allocations, frees of objects handed out, and writes of their owners. *)
Inductive trace : xdp2_obj_allocator -> memory -> gset Z -> Prop :=
| trace_init a m nm a' m' :
    mapped m bs (n * sz) -> __xdp2_obj_alloc_init xl a m n sz bs nm xnum = Done (a', m') -> trace a' m' ∅
| trace_alloc a m S a' o i :
    trace a m S -> __xdp2_obj_alloc_alloc xl a m = Done (a', Some (o, i)) -> trace a' m ({[o]} ∪ S)
| trace_fail a m S a' :
    trace a m S -> __xdp2_obj_alloc_alloc xl a m = Done (a', None) -> trace a' m S
| trace_free a m S o a' m' :
    trace a m S -> o ∈ S -> xdp2_obj_alloc_free xl a m o = Done (a', m') -> trace a' m' (S ∖ {[o]})
| trace_free_index a m S o i a' m' :
    trace a m S -> o ∈ S -> xdp2_obj_alloc_obj_to_index xl a o = Done i ->
    xdp2_obj_alloc_free_by_index xl a m i = Done (a', m') -> trace a' m' (S ∖ {[o]})
| trace_write a m m' S o :
    trace a m S -> o ∈ S -> same_outside m m' o sz -> mapped m' o sz -> trace a m' S.

(** [S] are the objects of [out]. *)
Definition handed_out (a : xdp2_obj_allocator) (m : memory) (S : gset Z) (fl out : list Z) : Prop :=
  alloc_inv a m fl out /\ S = list_to_set out.

Lemma inv_out_nodup a m fl out : alloc_inv a m fl out -> NoDup out.
Proof using Hcfg.
  intros (_ & _ & _ & P & _). pose proof objs_nodup as Hnd. rewrite <- P in Hnd. by apply list.NoDup_app in Hnd as (_ & _ & ?).
Qed.

(** An object handed out can be brought to the front. *)
Lemma handed_out_front a m S fl out o :
  handed_out a m S fl out -> o ∈ S ->
  exists out', alloc_inv a m fl (o :: out') /\ S ∖ {[o]} = list_to_set out'.
Proof using Hcfg.
  intros [Hinv ->] Ho%elem_of_list_to_set. apply list_elem_of_split in Ho as (l1 & l2 & ->).
  exists (l1 ++ l2). split.
  - destruct Hinv as (H1 & H2 & H3 & P & H4). split_and!; try done. rewrite <- P. f_equiv. apply Permutation_middle.
  - pose proof (inv_out_nodup _ _ _ _ Hinv) as Hnd. rewrite <- Permutation_middle in Hnd.
    apply NoDup_cons_1_1 in Hnd. rewrite !list_to_set_app_L, list_to_set_cons.
    apply leibniz_equiv. intros x. set_solver.
Qed.

Lemma trace_inv a m S : trace a m S -> exists fl out, handed_out a m S fl out.
Proof using Hcfg.
  induction 1 as [a m nm a' m' Hm E | a m S a' o i _ (fl & out & Hho) E | a m S a' _ (fl & out & Hho) E
    | a m S o a' m' _ (fl & out & Hho) Ho E | a m S o i a' m' _ (fl & out & Hho) Ho Ei E
    | a m m' S o _ (fl & out & Hho) Ho Hs Hm].
  - destruct (init_ok a m nm Hm) as (a2 & m2 & E2 & Hinv). rewrite E in E2. injection E2 as <- <-. by exists objs, [].
  - destruct Hho as [Hinv ->]. destruct (alloc_ok a m fl out Hinv) as [a2 H]. destruct fl as [| o' fl].
    + destruct H as [E2 _]. congruence.
    + destruct H as (i' & E2 & _ & Hinv'). rewrite E in E2. injection E2 as <- <- <-. by exists fl, (o :: out).
  - destruct Hho as [Hinv ->]. destruct (alloc_ok a m fl out Hinv) as [a2 H]. destruct fl as [| o' fl].
    + destruct H as [E2 Hinv']. rewrite E in E2. injection E2 as <-. by exists [], out.
    + destruct H as (i' & E2 & _). congruence.
  - destruct (handed_out_front a m S fl out o Hho Ho) as (out' & Hinv & ES).
    destruct (free_list_free_ok a m fl out' o Hinv) as (a2 & m2 & E2 & Hinv2 & _).
    rewrite (free_ok a m fl out' o Hinv), E2 in E. injection E as <- <-. by exists (o :: fl), out'.
  - destruct (handed_out_front a m S fl out o Hho Ho) as (out' & Hinv & ES).
    destruct (free_list_free_ok a m fl out' o Hinv) as (a2 & m2 & E2 & Hinv2 & _).
    rewrite (free_by_index_ok a m fl out' o i Hinv Ei), E2 in E. injection E as <- <-. by exists (o :: fl), out'.
  - destruct Hho as [Hinv ->]. exists fl, out. split; [| done]. apply (write_ok a m m' fl out o); try done.
    by apply elem_of_list_to_set in Ho.
Qed.

Lemma handed_out_size a m S fl out : handed_out a m S fl out -> Z.of_nat (length fl) + Z.of_nat (size S) = n.
Proof using Hcfg.
  intros [Hinv ->]. rewrite size_list_to_set by (by eapply inv_out_nodup). by apply (inv_len a m).
Qed.

(** ** Detection of double frees *)

Lemma check_freed_loop_ok m cobj : forall l r fuel,
  (length l < fuel)%nat -> (forall o, o ∈ l -> o ∈ objs) -> chain m r l ->
  (obj ← xdp2_addr_xlat_translate xl xnum r; check_freed_loop xl fuel m xnum obj cobj) =
  if decide (cobj ∈ l) then Crash else Done tt.
Proof using Hcfg.
  induction l as [| o l IH]; intros r fuel Hf Hl Hch.
  - cbn in Hch. subst r. unfold xdp2_addr_xlat_translate. rewrite orb_true_r. orun. destruct fuel; [cbn in Hf; lia |].
    by rewrite decide_False by apply not_elem_of_nil.
  - destruct Hch as (-> & r' & E & Hch). destruct fuel as [| fuel]; [cbn in Hf; lia |].
    pose proof (objs_range o (Hl o ltac:(by left))) as (H1 & H2 & H3 & H4 & H5). pose proof Hcfg as (_ & Hsz & _).
    rewrite fwd_xlat by lia. orun. cbn [check_freed_loop]. destruct (Z.eqb_spec o 0); [lia |].
    destruct (Z.eqb_spec o cobj) as [-> | Hne]; [by rewrite decide_True by left |]. cbn [negb XDP2_ASSERT]. orun.
    rewrite E. specialize (IH r' fuel ltac:(cbn in Hf; lia) ltac:(intros x Hx; apply Hl; by right) Hch).
    unfold mbind, outcome_bind in IH. rewrite IH. repeat case_decide; try done; set_solver.
Qed.
End Spec.

(** ** Properties *)

(** C39: after any sequence of allocations, frees of objects handed out and writes
    of their owners, whatever address translator the allocator uses: an
    allocation returns; it returns NULL exactly when all objects are handed out,
    and otherwise an object of the allocator that is not handed out, with an index
    that leads back to it. Freeing an object handed out, by address or by index,
    returns and leaves the contents of the other objects alone. *)
Theorem obj_alloc_contract xl n sz bs xnum fb a m S :
  config_ok xl n sz bs xnum fb -> trace xl n sz bs xnum a m S ->
  (exists a' r, __xdp2_obj_alloc_alloc xl a m = Done (a', r) /\
     match r with
     | None => Z.of_nat (size S) = n
     | Some (o, i) => o ∈ objs n sz bs /\ ~ (o ∈ S) /\ xdp2_obj_alloc_index_to_obj xl a' i = Done o
     end) /\
  (forall o, o ∈ S -> exists a' m' i,
     xdp2_obj_alloc_free xl a m o = Done (a', m') /\
     xdp2_obj_alloc_obj_to_index xl a o = Done i /\ xdp2_obj_alloc_free_by_index xl a m i = Done (a', m') /\
     forall o' j, o' ∈ S -> o' <> o -> o' <= j < o' + sz -> m' !! j = m !! j).
Proof.
  intros Hcfg Htr. destruct (trace_inv xl n sz bs xnum fb Hcfg a m S Htr) as (fl & out & Hho). split.
  - pose proof (handed_out_size xl n sz bs xnum fb Hcfg _ _ _ _ _ Hho) as Hsz. destruct Hho as [Hinv ->].
    destruct (alloc_ok xl n sz bs xnum fb Hcfg a m fl out Hinv) as [a' H]. destruct fl as [| o fl].
    + destruct H as [E _]. exists a', None. split; [done |]. cbn in Hsz. lia.
    + destruct H as (i & E & Ei & Hinv'). exists a', (Some (o, i)). split; [done |].
      assert (o ∈ objs n sz bs) as Ho by (eapply inv_elem; [exact Hinv | left; by left]).
      split; [done |]. split.
      * intros Hin%elem_of_list_to_set. pose proof (inv_out_nodup xl n sz bs xnum fb Hcfg _ _ _ _ Hinv') as Hnd.
        by apply NoDup_cons_1_1 in Hnd.
      * apply elem_of_objs in Ho as (k & Hk & ->).
        rewrite (obj_to_index_ok xl n sz bs xnum fb Hcfg) in Ei by (done || apply Hinv'). injection Ei as <-.
        apply (index_to_obj_ok xl n sz bs xnum fb Hcfg); [apply Hinv' | done].
  - intros o Ho. destruct (handed_out_front xl n sz bs xnum fb Hcfg _ _ _ _ _ _ Hho Ho) as (out' & Hinv & ES).
    destruct (free_list_free_ok xl n sz bs xnum fb Hcfg _ _ _ _ _ Hinv) as (a' & m' & E & _ & Hs).
    assert (forall x, x ∈ S -> x ∈ objs n sz bs) as HS.
    { destruct Hho as [Hinv0 ->]. intros x Hx%elem_of_list_to_set. eapply inv_elem; [exact Hinv0 | by right]. }
    pose proof (HS o Ho) as (k & Hk & Ek)%elem_of_objs.
    assert (xdp2_obj_alloc_obj_to_index xl a o = Done (k + 1)) as Ei.
    { rewrite Ek. apply (obj_to_index_ok xl n sz bs xnum fb Hcfg); [apply Hinv | done]. }
    exists a', m', (k + 1). split; [by rewrite (free_ok xl n sz bs xnum fb Hcfg _ _ _ _ _ Hinv) |]. split; [done |].
    split; [by rewrite (free_by_index_ok xl n sz bs xnum fb Hcfg _ _ _ _ _ _ Hinv Ei) |].
    intros o' j Ho' Hne Hj. apply Hs.
    pose proof (objs_disjoint xl n sz bs xnum fb Hcfg o' o (HS o' Ho') (HS o Ho) Hne).
    destruct Hcfg as (_ & ? & _). lia.
Qed.

(** The debugging check of a free passes for an object handed out and ends
    the program for an object that is already free. *)
Theorem double_free_detected xl n sz bs xnum fb a m S fuel o :
  config_ok xl n sz bs xnum fb -> trace xl n sz bs xnum a m S -> n < Z.of_nat fuel -> o ∈ objs n sz bs ->
  __xdp2_obj_alloc_check_freed xl fuel a m o = if decide (o ∈ S) then Done tt else Crash.
Proof.
  intros Hcfg Htr Hf Ho. destruct (trace_inv xl n sz bs xnum fb Hcfg a m S Htr) as (fl & out & Hho).
  pose proof (handed_out_size xl n sz bs xnum fb Hcfg _ _ _ _ _ Hho) as Hsz. destruct Hho as [Hinv ->].
  unfold __xdp2_obj_alloc_check_freed. rewrite (magic_ok n sz bs xnum fb) by apply Hinv.
  pose proof Hinv as ((_ & _ & _ & _ & -> & _) & _ & Hch & P & _). orun.
  pose proof (check_freed_loop_ok xl n sz bs xnum fb Hcfg m o fl _ fuel ltac:(lia)
    ltac:(intros x Hx; eapply inv_elem; [exact Hinv | by left]) Hch) as E.
  unfold mbind, outcome_bind in E. rewrite E. rewrite <- P, elem_of_app in Ho.
  pose proof (objs_nodup xl n sz bs xnum fb Hcfg) as Hnd. rewrite <- P in Hnd. apply list.NoDup_app in Hnd as (_ & Hnd & _).
  repeat case_decide; try done.
  - exfalso. apply (Hnd o); [done | by apply (elem_of_list_to_set (C := gset Z))].
  - rewrite elem_of_list_to_set in *. tauto.
Qed.

(** Translating an address and translating it back, and going from an object
    to its index and back, give the same address, and the indices of an allocator
    are the numbers from one to the number of its objects. *)
Theorem obj_index_roundtrip xl n sz bs xnum fb a m S o :
  config_ok xl n sz bs xnum fb -> trace xl n sz bs xnum a m S -> o ∈ objs n sz bs ->
  (r ← xdp2_addr_xlat_reverse_translate xl xnum o; xdp2_addr_xlat_translate xl xnum r) = Done o /\
  (exists i, xdp2_obj_alloc_obj_to_index xl a o = Done i /\ 1 <= i <= n /\ xdp2_obj_alloc_index_to_obj xl a i = Done o) /\
  (forall i, 1 <= i <= n -> exists o', xdp2_obj_alloc_index_to_obj xl a i = Done o' /\ o' ∈ objs n sz bs /\
     xdp2_obj_alloc_obj_to_index xl a o' = Done i).
Proof.
  intros Hcfg Htr Ho. destruct (trace_inv xl n sz bs xnum fb Hcfg a m S Htr) as (fl & out & [Hinv _]).
  pose proof (objs_range xl n sz bs xnum fb Hcfg o Ho) as (H1 & H2 & H3 & H4 & H5). split.
  { assert (8 <= sz) by apply Hcfg. rewrite (rev_xlat xl n sz bs xnum fb Hcfg) by lia. orun.
    apply (fwd_xlat xl n sz bs xnum fb Hcfg); lia. }
  assert (fields_ok n sz bs xnum fb a) as Hf by apply Hinv. split.
  - apply elem_of_objs in Ho as (k & Hk & ->). exists (k + 1). split_and!; try lia.
    + by apply (obj_to_index_ok xl n sz bs xnum fb Hcfg).
    + by apply (index_to_obj_ok xl n sz bs xnum fb Hcfg).
  - intros i Hi. assert (exists k, i = k + 1 /\ 0 <= k < n) as (k & -> & Hk) by (exists (i - 1); lia).
    exists (obj_at sz bs k). split_and!.
    + by apply (index_to_obj_ok xl n sz bs xnum fb Hcfg).
    + apply elem_of_objs. by exists k.
    + by apply (obj_to_index_ok xl n sz bs xnum fb Hcfg).
Qed.

(** ** An allocator to try them on *)

(** Three objects of 16 bytes at 8192, in a segment that starts at 4096. *)
Definition sample_xlat : list xdp2_addr_xlat :=
  replicate 3 (AddrXlat 0 None) ++ [AddrXlat 0 (Some 4096)] ++ replicate 6 (AddrXlat 0 None).
Definition sample_memory : memory := list_to_map ((fun i => (i, 0)) <$> seqZ 8192 48).
Definition no_allocator : xdp2_obj_allocator := ObjAllocator 0 [] 0 0 0 0 0 (FreeList 0 0 0 0).

Lemma sample_config : config_ok sample_xlat 3 16 8192 3 4096.
Proof.
  split_and!; try lia.
  - right. split_and!; try (done || lia). by exists (AddrXlat 0 (Some 4096)).
  - intros k Hk. unfold obj_at. lia.
Qed.

Definition result {A} (d : A) (o : outcome A) : A := match o with Done x => x | _ => d end.

Definition sample_init : xdp2_obj_allocator * memory :=
  result (no_allocator, ∅) (__xdp2_obj_alloc_init sample_xlat no_allocator sample_memory 3 16 8192 [120] 3).
Definition sample_one : xdp2_obj_allocator :=
  fst (result (no_allocator, None) (__xdp2_obj_alloc_alloc sample_xlat (fst sample_init) (snd sample_init))).
Definition sample_two : xdp2_obj_allocator :=
  fst (result (no_allocator, None) (__xdp2_obj_alloc_alloc sample_xlat sample_one (snd sample_init))).

(** After two allocations and a free of the first object. *)
Definition sample_used : xdp2_obj_allocator * memory :=
  result (no_allocator, ∅) (xdp2_obj_alloc_free sample_xlat sample_two (snd sample_init) 8192).

Lemma sample_trace : trace sample_xlat 3 16 8192 3 (fst sample_used) (snd sample_used) {[8208]}.
Proof.
  assert (mapped sample_memory 8192 (3 * 16)) as Hm.
  { intros i Hi. unfold sample_memory. exists 0. apply elem_of_list_to_map_1.
    - rewrite <- list_fmap_compose. apply NoDup_fmap_2_strong; [by intros | apply NoDup_seqZ].
    - apply list_elem_of_fmap. exists i. split; [done |]. apply elem_of_seqZ. lia. }
  assert (trace sample_xlat 3 16 8192 3 (fst sample_init) (snd sample_init) ∅) as H0.
  { apply (trace_init _ _ _ _ _ no_allocator sample_memory [120]); [done |]. by vm_compute. }
  assert (trace sample_xlat 3 16 8192 3 sample_one (snd sample_init) ({[8192]} ∪ ∅)) as H1.
  { apply (trace_alloc _ _ _ _ _ (fst sample_init) _ _ _ 8192 1 H0). by vm_compute. }
  assert (trace sample_xlat 3 16 8192 3 sample_two (snd sample_init) ({[8208]} ∪ ({[8192]} ∪ ∅))) as H2.
  { apply (trace_alloc _ _ _ _ _ sample_one _ _ _ 8208 2 H1). by vm_compute. }
  assert ({[8208]} = ({[8208]} ∪ ({[8192]} ∪ ∅)) ∖ {[8192]} :> gset Z) as -> by (by vm_compute).
  apply (trace_free _ _ _ _ _ sample_two (snd sample_init) _ 8192); [exact H2 | set_solver | by vm_compute].
Qed.

Definition sample_out : gset Z := {[8208]}.

Lemma obj_alloc_contract_witness :
  (exists a' r, __xdp2_obj_alloc_alloc sample_xlat (fst sample_used) (snd sample_used) = Done (a', r) /\
     match r with
     | None => Z.of_nat (size sample_out) = 3
     | Some (o, i) => o ∈ objs 3 16 8192 /\ ~ (o ∈ sample_out) /\ xdp2_obj_alloc_index_to_obj sample_xlat a' i = Done o
     end) /\
  (forall o, o ∈ sample_out -> exists a' m' i,
     xdp2_obj_alloc_free sample_xlat (fst sample_used) (snd sample_used) o = Done (a', m') /\
     xdp2_obj_alloc_obj_to_index sample_xlat (fst sample_used) o = Done i /\
     xdp2_obj_alloc_free_by_index sample_xlat (fst sample_used) (snd sample_used) i = Done (a', m') /\
     forall o' j, o' ∈ sample_out -> o' <> o -> o' <= j < o' + 16 -> m' !! j = snd sample_used !! j).
Proof.
  exact (obj_alloc_contract sample_xlat 3 16 8192 3 4096 (fst sample_used) (snd sample_used) sample_out sample_config sample_trace).
Defined.

Lemma double_free_detected_witness :
  __xdp2_obj_alloc_check_freed sample_xlat 4 (fst sample_used) (snd sample_used) 8192 = Crash.
Proof.
  rewrite (double_free_detected sample_xlat 3 16 8192 3 4096 _ _ {[8208]} 4 8192 sample_config sample_trace);
    [by rewrite decide_False by set_solver | lia | apply elem_of_objs; exists 0; split; [lia | done]].
Defined.

Lemma obj_index_roundtrip_witness :
  (r ← xdp2_addr_xlat_reverse_translate sample_xlat 3 8208; xdp2_addr_xlat_translate sample_xlat 3 r) = Done 8208 /\
  (exists i, xdp2_obj_alloc_obj_to_index sample_xlat (fst sample_used) 8208 = Done i /\ 1 <= i <= 3 /\
     xdp2_obj_alloc_index_to_obj sample_xlat (fst sample_used) i = Done 8208) /\
  (forall i, 1 <= i <= 3 -> exists o', xdp2_obj_alloc_index_to_obj sample_xlat (fst sample_used) i = Done o' /\
     o' ∈ objs 3 16 8192 /\ xdp2_obj_alloc_obj_to_index sample_xlat (fst sample_used) o' = Done i).
Proof.
  apply (obj_index_roundtrip sample_xlat 3 16 8192 3 4096 _ (snd sample_used) {[8208]} 8208 sample_config sample_trace).
  apply elem_of_objs. exists 1. split; [lia | done].
Defined.

(** ** Outside the contract *)

(** An allocator whose indices do not start at one fails the check of its own
    allocations. *)
Lemma base_index_unusable :
  ('(a, m) ← __xdp2_obj_alloc_init_base_index [] no_allocator sample_memory 3 16 8192 [120] 5 (-1);
   __xdp2_obj_alloc_alloc [] a m) = Crash.
Proof. by vm_compute. Qed.

(** The validation follows relative addresses as if they were absolute. *)
Lemma validate_untranslated :
  __xdp2_obj_alloc_validate 4 (fst sample_init) (snd sample_init) = Crash.
Proof. by vm_compute. Qed.
