(* ===== verification/Conc.v ===== *)
(** * Programs of several threads

    A thread is a sequence of sections. A section runs without interference: it
    is the code between taking and releasing a mutex, or one access to shared
    memory outside the mutexes. Between sections other threads run. A thread
    waits on a condition variable in a loop that tests its condition again
    whenever it is woken. *)

From stdpp Require Import base list relations numbers.
From S2P Require Import Prelude.

(** ** Programs *)

Section Prog.
Context {world : Type}.

(** [Wait c f k] is the loop [while (1) { COND_WAIT(c); f }]: [f] runs when the
    thread has been woken; with [None] the thread waits again. *)
Inductive prog (A : Type) : Type :=
| Ret (a : A)
| Atomic {B : Type} (f : world -> outcome (world * B)) (k : B -> prog A)
| Signal (c : Z) (k : prog A)
| Wait {B : Type} (c : Z) (f : world -> outcome (world * option B)) (k : B -> prog A).

Fixpoint prog_bind {A C} (g : A -> prog C) (p : prog A) : prog C :=
  match p with
  | Ret _ a => g a
  | Atomic _ f k => Atomic C f (fun b => prog_bind g (k b))
  | Signal _ c k => Signal C c (prog_bind g k)
  | Wait _ c f k => Wait C c f (fun b => prog_bind g (k b))
  end.

(** One section of a program; [None] for the waiting loop repeats it. *)
Definition section {A} (w : world) (p : prog A) : outcome (world * prog A) :=
  match p with
  | Ret _ _ => mret (w, p)
  | Atomic _ f k => '(w, b) ← f w; mret (w, k b)
  | Signal _ _ k => mret (w, k)
  | Wait _ _ f k => '(w, r) ← f w; mret (w, match r with Some b => k b | None => p end)
  end.

Definition has_section {A} (p : prog A) : bool :=
  match p with Atomic _ _ _ | Wait _ _ _ _ => true | _ => false end.

Definition signals {A} (p : prog A) : option Z :=
  match p with Signal _ c _ => Some c | _ => None end.

Definition returned {A} (p : prog A) : option A :=
  match p with Ret _ a => Some a | _ => None end.

(** ** Threads

    The boolean of a thread says that it was woken. *)
Abbreviation thread A := (bool * prog A)%type.
Abbreviation config A := (world * list (thread A))%type.

Definition blocked_on {A} (t : thread A) : option Z :=
  match t with (false, Wait _ c _ _) => Some c | _ => None end.

(** A step of thread [i]. [spurious] allows a thread to be woken without a
    signal. *)
Inductive step {A} (spurious : bool) (i : nat) : config A -> config A -> Prop :=
| step_section w ts t w' p' :
    ts !! i = Some t -> has_section (snd t) = true -> blocked_on t = None ->
    section w (snd t) = Done (w', p') ->
    step spurious i (w, ts) (w', <[i := (false, p')]> ts)
| step_signal w ts t c w' p' j u :
    ts !! i = Some t -> signals (snd t) = Some c -> section w (snd t) = Done (w', p') ->
    ts !! j = Some u -> blocked_on u = Some c ->
    step spurious i (w, ts) (w', <[j := (true, snd u)]> (<[i := (false, p')]> ts))
| step_signal_none w ts t c w' p' :
    ts !! i = Some t -> signals (snd t) = Some c -> section w (snd t) = Done (w', p') ->
    Forall (fun u => blocked_on u <> Some c) ts ->
    step spurious i (w, ts) (w', <[i := (false, p')]> ts)
| step_spurious w ts u c :
    spurious = true -> ts !! i = Some u -> blocked_on u = Some c ->
    step spurious i (w, ts) (w, <[i := (true, snd u)]> ts).

(** An execution, with the thread of every step. *)
Inductive execs {A} (spurious : bool) : list nat -> config A -> config A -> Prop :=
| execs_nil c : execs spurious [] c c
| execs_cons i l c c' c'' : step spurious i c c' -> execs spurious l c' c'' -> execs spurious (i :: l) c c''.

(** The threads start with their programs. *)
Definition start {A} (w : world) (ps : list (prog A)) : config A := (w, (fun p => (false, p)) <$> ps).

(** ** Running concrete interleavings *)

(** The first thread that is blocked on [c]. *)
Definition first_blocked {A} (c : Z) (ts : list (thread A)) : option nat :=
  fst <$> list_find (fun u => blocked_on u = Some c) ts.

(** A step of thread [i]; a signal wakes the first thread that waits for it. *)
Definition run_step {A} (i : nat) (c : config A) : option (config A) :=
  let '(w, ts) := c in
  t ← ts !! i;
  match section w (snd t) with
  | Done (w, p) =>
    match signals (snd t) with
    | Some c =>
      match first_blocked c ts with
      | Some j => u ← ts !! j; Some (w, <[j := (true, snd u)]> (<[i := (false, p)]> ts))
      | None => Some (w, <[i := (false, p)]> ts)
      end
    | None =>
      if has_section (snd t) && is_null (blocked_on t) then Some (w, <[i := (false, p)]> ts) else None
    end
  | _ => None
  end.

Fixpoint run_threads {A} (l : list nat) (c : config A) : option (config A) :=
  match l with
  | [] => Some c
  | i :: l => c ← run_step i c; run_threads l c
  end.

Lemma run_step_ok {A} sp i (c c' : config A) : run_step i c = Some c' -> step sp i c c'.
Proof.
  destruct c as [w ts]. cbn. intros H. destruct (ts !! i) as [t |] eqn:E; [| done]. cbn in H.
  destruct (section w (snd t)) as [[w' p'] | |] eqn:Es; [| done ..]. destruct (signals (snd t)) as [c |] eqn:Ec.
  - unfold first_blocked in H. destruct (list_find _ ts) as [[j u] |] eqn:Ef; cbn in H.
    + apply list_find_Some in Ef as (Eu & Hb & _). rewrite Eu in H. cbn in H. simplify_eq. by eapply step_signal.
    + apply list_find_None in Ef. simplify_eq. by eapply step_signal_none.
  - destruct (has_section (snd t)) eqn:Eh; [| done]. destruct (blocked_on t) eqn:Eb; [done |]. cbn in H. simplify_eq.
    by eapply step_section.
Qed.

Lemma run_threads_execs {A} sp l : forall c c' : config A, run_threads l c = Some c' -> execs sp l c c'.
Proof.
  induction l as [| i l IH]; cbn; intros c c' H; [simplify_eq; constructor |].
  destruct (run_step i c) as [c1 |] eqn:E; [| done]. econstructor; [by eapply run_step_ok | by apply IH].
Qed.

(** An interleaving whose end passes a test. *)
Lemma run_threads_reaches {A} sp l (c : config A) (P : config A -> bool) :
  match run_threads l c with Some c' => P c' | None => false end = true ->
  exists c', execs sp l c c' /\ P c' = true.
Proof.
  destruct (run_threads l c) as [c' |] eqn:E; [| done]. intros H. exists c'. split; [by eapply run_threads_execs | done].
Qed.

(** ** Reasoning about one thread at a time

    Every thread has a token that records its part in the invariant [Inv] of the
    shared state and an abstract state. [wpc i p Q t]: whatever others do between
    the sections of [p], run by thread [i] with token [t], no section crashes,
    each keeps the invariant and changes the abstract state as [R i] allows, and
    the result satisfies [Q] with the last token. *)

Section Logic.
Context {T G : Type} (Inv : world -> list T -> G -> Prop) (R : nat -> list T * G -> list T * G -> Prop).

Fixpoint wpc {A} (i : nat) (p : prog A) (Q : A -> T -> Prop) (t : T) : Prop :=
  match p with
  | Ret _ a => Q a t
  | Signal _ _ k => wpc i k Q t
  | Atomic _ f k => forall w ts g, Inv w ts g -> ts !! i = Some t ->
      exists w' b t' g', f w = Done (w', b) /\ Inv w' (<[i := t']> ts) g' /\ R i (ts, g) (<[i := t']> ts, g') /\
        wpc i (k b) Q t'
  | Wait _ _ f k => forall w ts g, Inv w ts g -> ts !! i = Some t ->
      exists w' r t' g', f w = Done (w', r) /\ Inv w' (<[i := t']> ts) g' /\ R i (ts, g) (<[i := t']> ts, g') /\
        match r with None => t' = t | Some b => wpc i (k b) Q t' end
  end.

Lemma wpc_bind {A C} i (p : prog A) (g : A -> prog C) (Q : A -> T -> Prop) R' : forall t,
  wpc i p Q t -> (forall a t', Q a t' -> wpc i (g a) R' t') -> wpc i (prog_bind g p) R' t.
Proof.
  induction p as [a | B f k IH | c k IH | B c f k IH]; cbn; intros t H HQ.
  - by apply HQ.
  - intros w ts h Hi Ht. destruct (H w ts h Hi Ht) as (w' & b & t' & h' & E & Hi' & Hr & Hk).
    exists w', b, t', h'. split_and!; [done .. |]. by apply IH.
  - by apply IH.
  - intros w ts h Hi Ht. destruct (H w ts h Hi Ht) as (w' & r & t' & h' & E & Hi' & Hr & Hk).
    exists w', r, t', h'. split_and!; [done .. |]. destruct r as [b |]; [by apply IH | done].
Qed.

Lemma prog_bind_ret {A} i (p : prog A) Q : forall t, wpc i (prog_bind (Ret A) p) Q t -> wpc i p Q t.
Proof.
  induction p as [a | B f k IH | c k IH | B c f k IH]; cbn; intros t H.
  - done.
  - intros w ts h Hi Ht. destruct (H w ts h Hi Ht) as (w' & b & t' & h' & E & Hi' & Hr & Hk).
    exists w', b, t', h'. split_and!; [done .. |]. by apply IH.
  - by apply IH.
  - intros w ts h Hi Ht. destruct (H w ts h Hi Ht) as (w' & r & t' & h' & E & Hi' & Hr & Hk).
    exists w', r, t', h'. split_and!; [done .. |]. destruct r as [b |]; [by apply IH | done].
Qed.

Lemma wpc_mono {A} i (p : prog A) (Q Q' : A -> T -> Prop) t :
  wpc i p Q t -> (forall a t', Q a t' -> Q' a t') -> wpc i p Q' t.
Proof. intros H HQ. apply prog_bind_ret. eapply wpc_bind; [exact H | exact HQ]. Qed.

(** The invariant of the whole program, with the tokens and the abstract state. *)
Definition config_inv {A} (Q : nat -> A -> T -> Prop) (c : config A) (toks : list T) (g : G) : Prop :=
  Inv (fst c) toks g /\ length toks = length (snd c) /\
  forall i b p t, snd c !! i = Some (b, p) -> toks !! i = Some t -> wpc i p (Q i) t.

(** Replacing the program and the token of thread [i]. *)
Lemma config_inv_set {A} (Q : nat -> A -> T -> Prop) w w' (ts : list (thread A)) toks g g' i u b p t :
  config_inv Q (w, ts) toks g -> ts !! i = Some u -> Inv w' (<[i := t]> toks) g' -> wpc i p (Q i) t ->
  config_inv Q (w', <[i := (b, p)]> ts) (<[i := t]> toks) g'.
Proof.
  intros (_ & Hl & Hw) Eu Hi' Hp. cbn [fst snd] in *. split_and!; [done | cbn [snd]; by rewrite !length_insert |]. cbn [snd].
  apply lookup_lt_Some in Eu as Hlt. intros j b' q s Ej Es. destruct (decide (i = j)) as [<- | Hne].
  - rewrite list_lookup_insert_eq in Ej by done. rewrite list_lookup_insert_eq in Es by lia. by simplify_eq.
  - rewrite list_lookup_insert_ne in Ej by done. rewrite list_lookup_insert_ne in Es by done. by eapply Hw.
Qed.

(** The same with its old token. *)
Lemma config_inv_keep {A} (Q : nat -> A -> T -> Prop) w (ts : list (thread A)) toks g i u b p :
  config_inv Q (w, ts) toks g -> ts !! i = Some u ->
  (forall t, toks !! i = Some t -> wpc i (snd u) (Q i) t -> wpc i p (Q i) t) ->
  config_inv Q (w, <[i := (b, p)]> ts) toks g.
Proof.
  intros Hc Eu H. pose proof Hc as (Hi & Hl & Hw). cbn [fst snd] in *.
  destruct (toks !! i) as [t |] eqn:Et; [| apply lookup_ge_None in Et; apply lookup_lt_Some in Eu; lia].
  rewrite <- (list_insert_id toks i t Et). destruct u as [bu q]. eapply config_inv_set; [exact Hc | exact Eu | |].
  - by rewrite list_insert_id.
  - apply H; [done |]. by eapply Hw.
Qed.

Lemma config_inv_step {A} (Q : nat -> A -> T -> Prop) sp i c c' toks g :
  (forall j x, R j x x) -> config_inv Q c toks g -> step sp i c c' ->
  exists toks' g', config_inv Q c' toks' g' /\ R i (toks, g) (toks', g').
Proof.
  intros Hrefl Hc Hs. destruct Hs as [w ts t w' p' Et Hh Hb Hsec | w ts t c w' p' j u Et Hg Hsec Eu Hu
                               | w ts t c w' p' Et Hg Hsec _ | w ts u c _ Eu Hu].
  - destruct t as [b p]. cbn [snd] in *. pose proof Hc as (Hi & Hl & Hw). cbn [fst snd] in *.
    destruct (toks !! i) as [t |] eqn:Etok; [| apply lookup_ge_None in Etok; apply lookup_lt_Some in Et; lia].
    pose proof (Hw i b p t Et Etok) as Hp.
    assert (exists t' g', Inv w' (<[i := t']> toks) g' /\ R i (toks, g) (<[i := t']> toks, g') /\ wpc i p' (Q i) t')
      as (t' & g' & Hi' & Hr & Hp').
    { destruct p as [a | B f k | c k | B c f k]; try done; cbn in Hp, Hsec;
        destruct (Hp w toks g Hi Etok) as (w1 & r & t' & g' & E & Hi' & Hr & Hk); rewrite E in Hsec;
        injection Hsec as <- <-; exists t', g'; split_and!; try done.
      destruct r as [r |]; [done |]. by subst. }
    exists (<[i := t']> toks), g'. split; [| done]. by eapply config_inv_set.
  - destruct t as [b p], u as [bu q]. cbn [snd] in *. destruct p as [| | c' k |]; simplify_eq. injection Hsec as <- <-.
    assert (i <> j) as Hne by (intros ->; rewrite Et in Eu; injection Eu as -> <-; by destruct bu).
    exists toks, g. split; [| done]. eapply (config_inv_keep _ _ _ _ _ j (bu, q)).
    + eapply (config_inv_keep _ _ _ _ _ i); [exact Hc | exact Et | by intros t _].
    + by rewrite list_lookup_insert_ne.
    + by intros t _.
  - destruct t as [b p]. cbn [snd] in *. destruct p as [| | c' k |]; simplify_eq. injection Hsec as <- <-.
    exists toks, g. split; [| done]. eapply config_inv_keep; [exact Hc | exact Et | by intros t _].
  - exists toks, g. split; [| done]. destruct u as [bu q]. eapply config_inv_keep; [exact Hc | exact Eu | by intros t _].
Qed.

(** Abstract steps in the order of the concrete ones, each of the same thread. *)
Inductive lockstep {S} (K : nat -> S -> S -> Prop) : list nat -> S -> S -> Prop :=
| lockstep_nil x : lockstep K [] x x
| lockstep_cons i l x y z : K i x y -> lockstep K l y z -> lockstep K (i :: l) x z.

Lemma config_inv_execs {A} (Q : nat -> A -> T -> Prop) sp l c c' :
  (forall j x, R j x x) -> execs sp l c c' -> forall toks g, config_inv Q c toks g ->
  exists toks' g', config_inv Q c' toks' g' /\ lockstep R l (toks, g) (toks', g').
Proof.
  intros Hrefl Hs. induction Hs as [c | i l c1 c2 c3 H1 _ IH]; intros toks g Hc.
  - exists toks, g. split; [done | constructor].
  - destruct (config_inv_step Q sp i c1 c2 toks g Hrefl Hc H1) as (toks1 & g1 & Hc1 & Hr).
    destruct (IH toks1 g1 Hc1) as (toks' & g' & Hc' & Hl). exists toks', g'. split; [done |].
    by eapply lockstep_cons.
Qed.

(** No thread crashes in its next section. *)
Lemma config_inv_safe {A} (Q : nat -> A -> T -> Prop) w (ts : list (thread A)) toks g i t :
  config_inv Q (w, ts) toks g -> ts !! i = Some t -> exists w' p', section w (snd t) = Done (w', p').
Proof.
  intros (Hi & Hl & Hw) Et. cbn [fst snd] in Hi, Hl, Hw. destruct t as [b p]. cbn [snd].
  destruct (toks !! i) as [t |] eqn:Etok; [| apply lookup_ge_None in Etok; apply lookup_lt_Some in Et; lia].
  pose proof (Hw i b p t Et Etok) as Hp.
  destruct p as [a | B f k | c k | B c f k]; cbn in *; [by eexists _, _ | | by eexists _, _ |];
    destruct (Hp w toks g Hi Etok) as (w1 & r & t' & g' & -> & _); by eexists _, _.
Qed.

(** What is known of a thread that has returned. *)
Lemma config_inv_returned {A} (Q : nat -> A -> T -> Prop) c toks g i b (p : prog A) a :
  config_inv Q c toks g -> snd c !! i = Some (b, p) -> returned p = Some a ->
  exists t, toks !! i = Some t /\ Q i a t.
Proof.
  intros (_ & Hl & Hw) Et Er. destruct (toks !! i) as [t |] eqn:Etok.
  - exists t. split; [done |]. pose proof (Hw i b p t Et Etok) as Hp. destruct p; cbn in Er; simplify_eq. done.
  - apply lookup_ge_None in Etok. apply lookup_lt_Some in Et. lia.
Qed.

Lemma config_inv_start {A} (Q : nat -> A -> T -> Prop) w ps toks g :
  Inv w toks g -> length toks = length ps ->
  (forall i p t, ps !! i = Some p -> toks !! i = Some t -> wpc i p (Q i) t) -> config_inv Q (start w ps) toks g.
Proof.
  intros Hi Hl Hw. unfold start. split_and!; [done | cbn; by rewrite length_fmap |]. cbn [snd]. intros i b p t Ep Et.
  rewrite list_lookup_fmap in Ep. destruct (ps !! i) as [p' |] eqn:E; [| done]. cbn in Ep. simplify_eq. by eapply Hw.
Qed.
End Logic.
End Prog.

Arguments prog : clear implicits.
Abbreviation config world A := (world * list (bool * prog world A))%type.
Arguments Ret {world A} a.
Arguments Atomic {world A B} f k.
Arguments Signal {world A} c k.
Arguments Wait {world A B} c f k.

#[global] Instance prog_ret_inst {world} : MRet (prog world) := fun A a => Ret a.
#[global] Instance prog_bind_inst {world} : MBind (prog world) := fun A C g p => prog_bind g p.

(** A section as a program. *)
Definition sect {world B} (f : world -> outcome (world * B)) : prog world B := Atomic f Ret.
Definition signal {world} (c : Z) : prog world unit := Signal c (Ret tt).
Definition wait_loop {world B} (c : Z) (f : world -> outcome (world * option B)) : prog world B := Wait c f Ret.

Lemma lockstep_map {S S'} (K : nat -> S -> S -> Prop) (K' : nat -> S' -> S' -> Prop) (h : S -> S') l x y :
  (forall i a b, K i a b -> K' i (h a) (h b)) -> lockstep K l x y -> lockstep K' l (h x) (h y).
Proof. intros H Hl. induction Hl; [constructor | econstructor; eauto]. Qed.

(** One thread alone, its signals ignored: the state and the result. *)
Fixpoint run_alone {world A} (fuel : nat) (w : world) (p : prog world A) : option (world * A) :=
  match fuel, p with
  | _, Ret a => Some (w, a)
  | O, _ => None
  | S fuel, p => match section w p with Done (w, p) => run_alone fuel w p | _ => None end
  end.
