(* ===== verification/Fifo.v ===== *)
(** * FIFOs and poll groups

    [include/xdp2/fifo.h]: bounded queues between threads, with poll groups that
    tell a thread which of its queues are readable or writable. Every function is
    a program of sections ([Conc]): the code under a mutex is one section, and
    so is an access to a shared field outside the mutexes. The mutexes themselves
    are not represented. Fields that are constant after initialization (sizes,
    magic numbers) are read with the next section. *)

From stdpp Require Import base list gmap numbers.
From S2P Require Import Prelude ObjAlloc BitmapWord Bitmap Conc.

(** ** Structures *)

Inductive prod_counter :=
| P_requests | P_fails | P_waits | P_spurious_wakeups_poll | P_blocked | P_queue_full
| P_spurious_wakeups | P_after_wait | P_saw_empty | P_max_enqueued.
Inductive cons_counter :=
| C_requests | C_fails | C_waits | C_spurious_wakeups_poll | C_blocked | C_spurious_wakeups
| C_after_wait | C_unblocked | C_min_enqueued.
Inductive poll_counter :=
| G_num_wait_polls | G_num_no_wait_polls | G_num_ret_rd_fifo | G_num_ret_wr_fifo | G_num_ret_no_fifo
| G_spurious_write_polls.

#[global] Instance prod_counter_eq : EqDecision prod_counter.
Proof. solve_decision. Defined.
#[global] Instance cons_counter_eq : EqDecision cons_counter.
Proof. solve_decision. Defined.
#[global] Instance poll_counter_eq : EqDecision poll_counter.
Proof. solve_decision. Defined.

(** The counters of a statistics structure, by name. *)
Definition xdp2_fifo_prod_stats := prod_counter -> Z.
Definition xdp2_fifo_cons_stats := cons_counter -> Z.
Record xdp2_fifo_poll_group_stats := GroupStats { gst : poll_counter -> Z }.
Record xdp2_fifo_stats := FifoStats { st_consumer : xdp2_fifo_cons_stats; st_producer : xdp2_fifo_prod_stats }.

Definition upd_counter {C} {E : EqDecision C} (c : C) (g : Z -> Z) (s : C -> Z) : C -> Z :=
  fun d => if decide (d = c) then g (s d) else s d.

Definition XDP2_FIFO_MAGIG_NUM : Z := 0xbd35f9a1c9434dd8.
Definition XDP2_POLL_GROUP_MAGIC_NUM : Z := 0x3b8c93de8fa0b237.
Definition XDP2_POLL_GROUP_MAX_FIFOS : Z := 128.
Definition XDP2_POLL_GROUP_NUM_FIFOS_WORDS : nat := 2.

(** The fields of [struct xdp2_fifo], grouped: configuration, ring, poll
    information and counters. Pointers are addresses, NULL is zero. *)
Record fifo_config := FifoConfig {
  num_ents : Z; low_water_mark : Z; ent_size : Z; initted : bool; fifo_xlat_num : Z; fifo_magic : Z;
  fifo_stats : Z }.
Record fifo_ring := FifoRing { producer : Z; consumer : Z; queue_full : bool; queue : list Z }.
Record poll_info := PollInfo { poll_xlat_num : Z; poll_group : Z; poll_num : Z }.
Record fifo_counts := FifoCounts { num_enqueued : Z; num_dequeued : Z; num_enqueue_waiters : Z }.
Record xdp2_fifo := Fifo {
  conf : fifo_config; ring : fifo_ring; consumer_cond : Z; producer_cond : Z;
  read_poll : poll_info; write_poll : poll_info; counts : fifo_counts }.

Definition set_ring (r : fifo_ring) (f : xdp2_fifo) : xdp2_fifo :=
  Fifo (conf f) r (consumer_cond f) (producer_cond f) (read_poll f) (write_poll f) (counts f).
Definition set_consumer_cond (c : Z) (f : xdp2_fifo) : xdp2_fifo :=
  Fifo (conf f) (ring f) c (producer_cond f) (read_poll f) (write_poll f) (counts f).
Definition set_producer_cond (c : Z) (f : xdp2_fifo) : xdp2_fifo :=
  Fifo (conf f) (ring f) (consumer_cond f) c (read_poll f) (write_poll f) (counts f).
Definition set_read_poll (p : poll_info) (f : xdp2_fifo) : xdp2_fifo :=
  Fifo (conf f) (ring f) (consumer_cond f) (producer_cond f) p (write_poll f) (counts f).
Definition set_write_poll (p : poll_info) (f : xdp2_fifo) : xdp2_fifo :=
  Fifo (conf f) (ring f) (consumer_cond f) (producer_cond f) (read_poll f) p (counts f).
Definition set_counts (c : fifo_counts) (f : xdp2_fifo) : xdp2_fifo :=
  Fifo (conf f) (ring f) (consumer_cond f) (producer_cond f) (read_poll f) (write_poll f) c.

(** [struct xdp2_fifo_poll_group], likewise. *)
Record group_config := GroupConfig {
  group_xlat_num : Z; group_magic : Z; fifo_no_poll : bool; group_cond : Z; group_stats : Z }.
Record group_table := GroupTable { fifos_addr_xlat : list Z; fifos : list Z }.
Record xdp2_fifo_poll_group := PollGroup {
  gconf : group_config; active : bool; table : group_table; fifos_ready : list Z; fifos_mask : list Z;
  start_pos : Z }.

Definition set_gconf (c : group_config) (g : xdp2_fifo_poll_group) : xdp2_fifo_poll_group :=
  PollGroup c (active g) (table g) (fifos_ready g) (fifos_mask g) (start_pos g).
Definition set_active (b : bool) (g : xdp2_fifo_poll_group) : xdp2_fifo_poll_group :=
  PollGroup (gconf g) b (table g) (fifos_ready g) (fifos_mask g) (start_pos g).
Definition set_table (t : group_table) (g : xdp2_fifo_poll_group) : xdp2_fifo_poll_group :=
  PollGroup (gconf g) (active g) t (fifos_ready g) (fifos_mask g) (start_pos g).
Definition set_fifos_ready (r : list Z) (g : xdp2_fifo_poll_group) : xdp2_fifo_poll_group :=
  PollGroup (gconf g) (active g) (table g) r (fifos_mask g) (start_pos g).
Definition set_fifos_mask (m : list Z) (g : xdp2_fifo_poll_group) : xdp2_fifo_poll_group :=
  PollGroup (gconf g) (active g) (table g) (fifos_ready g) m (start_pos g).
Definition set_start_pos (p : Z) (g : xdp2_fifo_poll_group) : xdp2_fifo_poll_group :=
  PollGroup (gconf g) (active g) (table g) (fifos_ready g) (fifos_mask g) p.

(** Shared memory: the structures by address. *)
Record fworld := World {
  w_fifos : gmap Z xdp2_fifo; w_groups : gmap Z xdp2_fifo_poll_group;
  w_stats : gmap Z xdp2_fifo_stats; w_gstats : gmap Z xdp2_fifo_poll_group_stats }.

Definition put_fifo (a : Z) (f : xdp2_fifo) (w : fworld) : fworld :=
  World (<[a := f]> (w_fifos w)) (w_groups w) (w_stats w) (w_gstats w).
Definition put_group (a : Z) (g : xdp2_fifo_poll_group) (w : fworld) : fworld :=
  World (w_fifos w) (<[a := g]> (w_groups w)) (w_stats w) (w_gstats w).
Definition put_stats (a : Z) (s : xdp2_fifo_stats) (w : fworld) : fworld :=
  World (w_fifos w) (w_groups w) (<[a := s]> (w_stats w)) (w_gstats w).
Definition put_gstats (a : Z) (s : xdp2_fifo_poll_group_stats) (w : fworld) : fworld :=
  World (w_fifos w) (w_groups w) (w_stats w) (<[a := s]> (w_gstats w)).

Definition get_fifo (w : fworld) (a : Z) : outcome xdp2_fifo := deref (w_fifos w !! a).
Definition get_group (w : fworld) (a : Z) : outcome xdp2_fifo_poll_group := deref (w_groups w !! a).

(** ** Rings *)

Definition umod (a n : Z) : outcome Z := if n =? 0 then Crash else mret (a mod n).

Definition xdp2_fifo_sw_num_in_queue (f : xdp2_fifo) : outcome Z :=
  let r := ring f in
  if (producer r =? consumer r) && queue_full r then mret (num_ents (conf f)) else
  umod (u32 (producer r - consumer r + num_ents (conf f))) (num_ents (conf f)).
Definition xdp2_fifo_num_in_queue := xdp2_fifo_sw_num_in_queue.

Definition xdp2_fifo_sw_avail_in_queue (f : xdp2_fifo) : outcome Z :=
  n ← xdp2_fifo_sw_num_in_queue f; mret (u32 (num_ents (conf f) - n)).
Definition xdp2_fifo_avail_in_queue := xdp2_fifo_sw_avail_in_queue.

Definition xdp2_fifo_sw_is_empty (f : xdp2_fifo) : bool :=
  (consumer (ring f) =? producer (ring f)) && negb (queue_full (ring f)).
Definition xdp2_fifo_is_empty := xdp2_fifo_sw_is_empty.

Definition xdp2_fifo_sw_is_full (f : xdp2_fifo) : bool :=
  (consumer (ring f) =? producer (ring f)) && queue_full (ring f).
Definition xdp2_fifo_is_full := xdp2_fifo_sw_is_full.

Definition xdp2_fifo_is_error (f : xdp2_fifo) : bool := false.

(** [memcpy] of whole words into and out of the queue, at an index. *)
Definition words_put (i : Z) (ws q : list Z) : outcome (list Z) :=
  if (0 <=? i) && (i + Z.of_nat (length ws) <=? Z.of_nat (length q))
  then mret (take (Z.to_nat i) q ++ ws ++ drop (Z.to_nat i + length ws) q) else Crash.

Definition words_get (i n : Z) (q : list Z) : outcome (list Z) :=
  if (0 <=? i) && (0 <=? n) && (i + n <=? Z.of_nat (length q))
  then mret (take (Z.to_nat n) (drop (Z.to_nat i) q)) else Crash.

Section Fifo.
(** The global address translators. *)
Context (xl : list xdp2_addr_xlat).
Abbreviation XDP2_ADDR_XLAT := (xdp2_addr_xlat_translate xl).
Abbreviation XDP2_ADDR_REV_XLAT := (xdp2_addr_xlat_reverse_translate xl).
Abbreviation prog := (Conc.prog fworld).

Definition XDP2_FIFO_CHECK_MAGIC (f : xdp2_fifo) : outcome unit :=
  XDP2_ASSERT (fifo_magic (conf f) =? XDP2_FIFO_MAGIG_NUM).
Definition XDP2_POLL_GROUP_CHECK_MAGIC (g : xdp2_fifo_poll_group) : outcome unit :=
  XDP2_ASSERT (group_magic (gconf g) =? XDP2_POLL_GROUP_MAGIC_NUM).

(** A FIFO or poll group whose magic number is checked. *)
Definition the_fifo (w : fworld) (a : Z) : outcome xdp2_fifo :=
  f ← get_fifo w a; _ ← XDP2_FIFO_CHECK_MAGIC f; mret f.
Definition the_group (w : fworld) (a : Z) : outcome xdp2_fifo_poll_group :=
  g ← get_group w a; _ ← XDP2_POLL_GROUP_CHECK_MAGIC g; mret g.

(** ** Statistics *)

Definition upd_stats (a : Z) (h : xdp2_fifo_stats -> xdp2_fifo_stats) (w : fworld) : outcome fworld :=
  f ← get_fifo w a;
  if fifo_stats (conf f) =? 0 then mret w else
  sa ← XDP2_ADDR_XLAT (fifo_xlat_num (conf f)) (fifo_stats (conf f));
  s ← deref (w_stats w !! sa);
  mret (put_stats sa (h s) w).

Definition __XDP2_FIFO_BUMP_PROD_COUNT (a : Z) (c : prod_counter) : fworld -> outcome fworld :=
  upd_stats a (fun s => FifoStats (st_consumer s) (upd_counter c (fun n => u64 (n + 1)) (st_producer s))).
Definition __XDP2_FIFO_BUMP_CONS_COUNT (a : Z) (c : cons_counter) : fworld -> outcome fworld :=
  upd_stats a (fun s => FifoStats (upd_counter c (fun n => u64 (n + 1)) (st_consumer s)) (st_producer s)).

Definition upd_counts (a : Z) (h : fifo_counts -> fifo_counts) (w : fworld) : outcome fworld :=
  f ← get_fifo w a; mret (put_fifo a (set_counts (h (counts f)) f) w).
Definition __XDP2_FIFO_BUMP_NUM_ENQUEUED (a : Z) := upd_counts a (fun c =>
  FifoCounts (u64 (num_enqueued c + 1)) (num_dequeued c) (num_enqueue_waiters c)).
Definition __XDP2_FIFO_BUMP_NUM_DEQUEUED (a : Z) := upd_counts a (fun c =>
  FifoCounts (num_enqueued c) (u64 (num_dequeued c + 1)) (num_enqueue_waiters c)).
Definition __XDP2_FIFO_BUMP_INC_NUM_WAITERS (a : Z) := upd_counts a (fun c =>
  FifoCounts (num_enqueued c) (num_dequeued c) (u32 (num_enqueue_waiters c + 1))).
Definition __XDP2_FIFO_BUMP_DEC_NUM_WAITERS (a : Z) := upd_counts a (fun c =>
  FifoCounts (num_enqueued c) (num_dequeued c) (u32 (num_enqueue_waiters c - 1))).

Definition __XDP2_FIFO_POLL_GROUP_BUMP_COUNT (ga : Z) (c : poll_counter) (w : fworld) : outcome fworld :=
  g ← get_group w ga;
  if group_stats (gconf g) =? 0 then mret w else
  sa ← XDP2_ADDR_XLAT (group_xlat_num (gconf g)) (group_stats (gconf g));
  s ← deref (w_gstats w !! sa);
  mret (put_gstats sa (GroupStats (upd_counter c (fun n => u64 (n + 1)) (gst s))) w).

(** ** Sections *)

(** A section that only changes the state, and one that only reads it. *)
Definition modify (h : fworld -> outcome fworld) : prog unit := sect (fun w => w ← h w; mret (w, tt)).
Definition read {B} (h : fworld -> outcome B) : prog B := sect (fun w => b ← h w; mret (w, b)).

(** [XDP2_LOCKS_COND_SIGNAL] of a condition variable that is read here. *)
Definition cond_signal (h : fworld -> outcome Z) : prog unit :=
  c ← read (fun w => c ← h w; if c =? 0 then Crash else mret c); signal c.

(** A section under the mutex of a poll group. *)
Definition on_group {B} (ga : Z) (h : xdp2_fifo_poll_group -> outcome (xdp2_fifo_poll_group * B)) : prog B :=
  sect (fun w => g ← get_group w ga; '(g, b) ← h g; mret (put_group ga g w, b)).

Definition bitmap64_set := xdp2_bitmap_set 64 (fun v => v).
Definition bitmap64_unset := xdp2_bitmap_unset 64 (fun v => v).
Definition bitmap64_isset := xdp2_bitmap_isset 64 (fun v => v).
Definition bitmap64_find := xdp2_bitmap_find 64 (fun v => v) 0.
Definition bitmap64_find_roll := xdp2_bitmap_find_roll 64 (fun v => v) 0.
Definition bitmap64_destsrc_and := xdp2_bitmap_destsrc_and 64 (fun v => v) 0 false.

Definition set_ready (num : Z) (g : xdp2_fifo_poll_group) : outcome xdp2_fifo_poll_group :=
  m ← bitmap64_set (fifos_ready g) num; mret (set_fifos_ready m g).
Definition unset_ready (num : Z) (g : xdp2_fifo_poll_group) : outcome xdp2_fifo_poll_group :=
  m ← bitmap64_unset (fifos_ready g) num; mret (set_fifos_ready m g).
Definition set_mask (num : Z) (g : xdp2_fifo_poll_group) : outcome xdp2_fifo_poll_group :=
  m ← bitmap64_set (fifos_mask g) num; mret (set_fifos_mask m g).
Definition unset_mask (num : Z) (g : xdp2_fifo_poll_group) : outcome xdp2_fifo_poll_group :=
  m ← bitmap64_unset (fifos_mask g) num; mret (set_fifos_mask m g).

(** A step on a poll group that has no result. *)
Definition group_do (h : xdp2_fifo_poll_group -> outcome xdp2_fifo_poll_group) :=
  fun g => g ← h g; mret (g, tt).

(** The absolute address of a poll group and the poll number, NULL included. *)
Definition poll_ref (p : poll_info) : outcome (Z * Z) :=
  ga ← XDP2_ADDR_XLAT (poll_xlat_num p) (poll_group p); mret (ga, poll_num p).

(** ** Readiness *)

(** A FIFO that is enabled becomes ready; the result says so. *)
Definition ready_if_enabled (num : Z) (g : xdp2_fifo_poll_group) : outcome (xdp2_fifo_poll_group * bool) :=
  _ ← XDP2_POLL_GROUP_CHECK_MAGIC g;
  b ← bitmap64_isset (fifos_mask g) num;
  if (b : bool) then g ← set_ready num g; mret (g, true) else mret (g, false).

(** The tail of [xdp2_fifo_make_readable] and [xdp2_fifo_make_writable]. *)
Definition make_ready (a : Z) (sel : xdp2_fifo -> poll_info) : prog unit :=
  r ← read (fun w => f ← get_fifo w a;
               if poll_group (sel f) =? 0 then mret None else r ← poll_ref (sel f); mret (Some r));
  match r with
  | None => mret tt
  | Some (ga, num) =>
    do_signal ← on_group ga (ready_if_enabled num);
    if (do_signal : bool) then cond_signal (fun w => g ← get_group w ga; mret (group_cond (gconf g))) else mret tt
  end.

Definition xdp2_fifo_make_readable (a : Z) : prog unit :=
  c ← read (fun w => f ← the_fifo w a; mret (consumer_cond f));
  _ ← (if c =? 0 then mret tt else cond_signal (fun w => f ← get_fifo w a; mret (consumer_cond f)));
  make_ready a read_poll.

Definition xdp2_fifo_make_writable (a : Z) : prog unit :=
  c ← read (fun w => f ← the_fifo w a; mret (producer_cond f));
  _ ← (if c =? 0 then mret tt else cond_signal (fun w => f ← get_fifo w a; mret (producer_cond f)));
  make_ready a write_poll.

(** The tail of the two functions that clear readiness. *)
Definition mark_non_ready (a : Z) (sel : xdp2_fifo -> poll_info) : prog unit :=
  r ← read (fun w => f ← the_fifo w a;
               if poll_group (sel f) =? 0 then mret None else r ← poll_ref (sel f); mret (Some r));
  match r with
  | None => mret tt
  | Some (ga, num) =>
    on_group ga (fun g => _ ← XDP2_POLL_GROUP_CHECK_MAGIC g; group_do (unset_ready num) g)
  end.

(** The translation that initializes the variable is done without the mutex. *)
Definition xdp2_fifo_mark_non_readable (a : Z) : prog unit :=
  _ ← read (fun w => f ← get_fifo w a; poll_ref (read_poll f));
  mark_non_ready a read_poll.
Definition xdp2_fifo_mark_non_writable (a : Z) : prog unit := mark_non_ready a write_poll.

Definition xdp2_fifo_clear_readable (ga num : Z) : prog unit := on_group ga (group_do (unset_ready num)).

(** ** Poll groups *)

Definition zero_group : xdp2_fifo_poll_group :=
  PollGroup (GroupConfig 0 0 false 0 0) false (GroupTable (replicate 128 0) (replicate 128 0))
    (replicate XDP2_POLL_GROUP_NUM_FIFOS_WORDS 0) (replicate XDP2_POLL_GROUP_NUM_FIFOS_WORDS 0) 0.

Definition xdp2_fifo_init_poll_group_mem (ga : Z) : prog unit :=
  modify (fun w => _ ← get_group w ga;
    mret (put_group ga (set_gconf (GroupConfig 0 XDP2_POLL_GROUP_MAGIC_NUM false 0 0) zero_group) w)).

(** The groups of an array are at the addresses [gas]. *)
Fixpoint xdp2_init_poll_groups_mem (gas : list Z) : prog unit :=
  match gas with
  | [] => mret tt
  | ga :: gas => _ ← xdp2_fifo_init_poll_group_mem ga; xdp2_init_poll_groups_mem gas
  end.

(** The warning of [report_check] is output only. *)
Definition ___xdp2_fifo_init_poll_group (ga cond stats xnum : Z) (no_poll : bool) : prog bool :=
  on_group ga (fun g =>
    if negb (group_cond (gconf g) =? 0) then mret (g, false) else
    rel ← XDP2_ADDR_REV_XLAT xnum stats;
    mret (set_gconf (GroupConfig xnum (group_magic (gconf g)) no_poll cond rel) g, true)).
Definition __xdp2_fifo_init_poll_group := ___xdp2_fifo_init_poll_group.
Definition __xdp2_fifo_init_poll_nowarn := ___xdp2_fifo_init_poll_group.
Definition xdp2_fifo_init_poll_group (ga cond stats : Z) : prog unit :=
  _ ← __xdp2_fifo_init_poll_group ga cond stats XDP2_ADDR_XLAT_NO_XLAT false; mret tt.

Definition xdp2_fifo_uninit_poll_group (ga cond : Z) : prog unit :=
  on_group ga (fun g =>
    if cond =? group_cond (gconf g)
    then mret (set_gconf (GroupConfig 0 (group_magic (gconf g)) false 0 0) g, tt) else mret (g, tt)).

(** Store into an array of the poll group. *)
Definition arr_set (i v : Z) (l : list Z) : outcome (list Z) :=
  _ ← deref (if i <? 0 then None else l !! Z.to_nat i); mret (<[Z.to_nat i := v]> l).

Definition __xdp2_fifo_finish_bind_fifo_to_poll (a : Z) (f : xdp2_fifo) (num : Z) (g : xdp2_fifo_poll_group)
  : outcome xdp2_fifo_poll_group :=
  xs ← arr_set num (fifo_xlat_num (conf f)) (fifos_addr_xlat (table g));
  rel ← XDP2_ADDR_REV_XLAT (fifo_xlat_num (conf f)) a;
  fs ← arr_set num rel (fifos (table g));
  g ← unset_mask num (set_table (GroupTable xs fs) g);
  unset_ready num g.

(** Both mutexes are held. *)
Definition bind_fifo (ga a num : Z) (upd : poll_info -> xdp2_fifo -> xdp2_fifo) : prog unit :=
  modify (fun w =>
    f ← the_fifo w a; g ← the_group w ga;
    rel ← XDP2_ADDR_REV_XLAT (group_xlat_num (gconf g)) ga;
    let f := upd (PollInfo (group_xlat_num (gconf g)) rel num) f in
    g ← __xdp2_fifo_finish_bind_fifo_to_poll a f num g;
    mret (put_group ga g (put_fifo a f w))).

Definition xdp2_fifo_bind_fifo_to_read_poll (ga a num : Z) : prog unit := bind_fifo ga a num set_read_poll.
Definition xdp2_fifo_bind_fifo_to_write_poll (ga a num : Z) : prog unit := bind_fifo ga a num set_write_poll.

(** The poll group of a FIFO, read without its mutex: NULL is tested first. *)
Definition poll_of (a : Z) (sel : xdp2_fifo -> poll_info) : prog (option Z) :=
  p ← read (fun w => f ← the_fifo w a; mret (poll_group (sel f)));
  if p =? 0 then mret None else
  r ← read (fun w => f ← get_fifo w a; r ← poll_ref (sel f); mret (fst r)); mret (Some r).

(** The number of a FIFO is read while the group is locked. *)
Definition mask_fifo (a ga : Z) (sel : xdp2_fifo -> poll_info)
  (h : Z -> xdp2_fifo_poll_group -> outcome xdp2_fifo_poll_group) : prog unit :=
  modify (fun w => g ← get_group w ga; f ← get_fifo w a; g ← h (poll_num (sel f)) g; mret (put_group ga g w)).

Definition xdp2_fifo_enable_read_poll (a : Z) : prog unit :=
  r ← poll_of a read_poll;
  match r with
  | None => mret tt
  | Some ga =>
    _ ← mask_fifo a ga read_poll set_mask;
    make_readable ← read (fun w => f ← get_fifo w a; n ← xdp2_fifo_sw_num_in_queue f; mret (negb (n =? 0)));
    if (make_readable : bool) then xdp2_fifo_make_readable a else mret tt
  end.

Definition xdp2_fifo_enable_write_poll (a : Z) : prog unit :=
  r ← poll_of a write_poll;
  match r with
  | None => mret tt
  | Some ga =>
    _ ← mask_fifo a ga write_poll set_mask;
    make_writable ← read (fun w => f ← get_fifo w a; n ← xdp2_fifo_sw_avail_in_queue f; mret (negb (n =? 0)));
    if (make_writable : bool) then xdp2_fifo_make_writable a else mret tt
  end.

Definition disable_poll (a : Z) (sel : xdp2_fifo -> poll_info) : prog unit :=
  r ← poll_of a sel;
  match r with
  | None => mret tt
  | Some ga => mask_fifo a ga sel unset_mask
  end.
Definition xdp2_fifo_disable_read_poll (a : Z) : prog unit := disable_poll a read_poll.
Definition xdp2_fifo_disable_write_poll (a : Z) : prog unit := disable_poll a write_poll.

Definition nonfifo_poll (ga : Z) (h : xdp2_fifo_poll_group -> outcome xdp2_fifo_poll_group) : prog unit :=
  on_group ga (fun g => _ ← XDP2_POLL_GROUP_CHECK_MAGIC g; group_do h g).
Definition xdp2_fifo_enable_nonfifo_read_poll (ga num : Z) : prog unit := nonfifo_poll ga (set_mask num).
Definition xdp2_fifo_disable_nonfifo_read_poll (ga num : Z) : prog unit := nonfifo_poll ga (unset_mask num).
Definition xdp2_fifo_enable_nonfifo_write_poll (ga num : Z) : prog unit := nonfifo_poll ga (set_mask num).
Definition xdp2_fifo_disable_nonfifo_write_poll (ga num : Z) : prog unit := nonfifo_poll ga (unset_mask num).

Definition __xdp2_fifo_finish_unbind_fifo_from_poll (num : Z) (g : xdp2_fifo_poll_group)
  : outcome xdp2_fifo_poll_group :=
  g ← unset_ready num g;
  g ← unset_mask num g;
  xs ← arr_set num 0 (fifos_addr_xlat (table g));
  fs ← arr_set num 0 (fifos (table g));
  mret (set_table (GroupTable xs fs) g).

Definition unbind_fifo (a : Z) (sel : xdp2_fifo -> poll_info) (upd : poll_info -> xdp2_fifo -> xdp2_fifo) : prog unit :=
  r ← poll_of a sel;
  match r with
  | None => mret tt
  | Some ga =>
    modify (fun w =>
      g ← the_group w ga; f ← get_fifo w a;
      g ← __xdp2_fifo_finish_unbind_fifo_from_poll (poll_num (sel f)) g;
      mret (put_group ga g (put_fifo a (upd (PollInfo (poll_xlat_num (sel f)) 0 (u32 (-1))) f) w)))
  end.
Definition xdp2_fifo_unbind_fifo_from_read_poll (a : Z) : prog unit := unbind_fifo a read_poll set_read_poll.
Definition xdp2_fifo_unbind_fifo_from_write_poll (a : Z) : prog unit := unbind_fifo a write_poll set_write_poll.

(** ** Signals to poll groups *)

Definition __xdp2_poll_group_signal (ga num : Z) : prog unit :=
  wakeup ← on_group ga (fun g =>
    _ ← XDP2_POLL_GROUP_CHECK_MAGIC g;
    b ← bitmap64_isset (fifos_ready g) num;
    if (b : bool) then mret (g, false) else g ← set_ready num g; mret (g, true));
  if (wakeup : bool) then cond_signal (fun w => g ← get_group w ga; mret (group_cond (gconf g))) else mret tt.
Definition xdp2_poll_group_signal_readable := __xdp2_poll_group_signal.
Definition xdp2_poll_group_signal_writable := __xdp2_poll_group_signal.

Definition __xdp2_poll_group_unsignal (ga num : Z) : prog unit :=
  on_group ga (fun g => _ ← XDP2_POLL_GROUP_CHECK_MAGIC g; group_do (unset_ready num) g).
Definition xdp2_poll_group_unsignal_readable := __xdp2_poll_group_unsignal.
Definition xdp2_poll_group_unsignal_writable := __xdp2_poll_group_unsignal.

(** ** Polling *)

Definition xdp2_fifo_sw_get_ready (ga num : Z) : prog Z :=
  read (fun w => g ← the_group w ga; bm_ld (fifos_ready g) num).

(** The first FIFO that is ready and enabled, from [start_pos] on. *)
Definition poll_find (g : xdp2_fifo_poll_group) : outcome Z :=
  m ← bitmap64_destsrc_and (fifos_ready g) (fifos_mask g) 0 XDP2_POLL_GROUP_MAX_FIFOS;
  bitmap64_find_roll m (start_pos g) XDP2_POLL_GROUP_MAX_FIFOS.

(** The result, or the condition variable to wait on. *)
Definition try_poll (wait : bool) (g : xdp2_fifo_poll_group) : outcome (xdp2_fifo_poll_group * (Z + Z)) :=
  _ ← XDP2_POLL_GROUP_CHECK_MAGIC g;
  v ← poll_find g;
  if v <? XDP2_POLL_GROUP_MAX_FIFOS then
    mret (set_start_pos ((v + 1) mod XDP2_POLL_GROUP_MAX_FIFOS) g, inl v)
  else if negb wait then mret (g, inl XDP2_POLL_GROUP_MAX_FIFOS)
  else if group_cond (gconf g) =? 0 then Crash
  else mret (g, inr (group_cond (gconf g))).

Definition __xdp2_fifo_sw_poll (ga : Z) (wait : bool) : prog Z :=
  r ← on_group ga (try_poll wait);
  match r with
  | inl v => mret v
  | inr c =>
    wait_loop c (fun w => g ← get_group w ga; v ← poll_find g;
      mret (w, if XDP2_POLL_GROUP_MAX_FIFOS <=? v then None else Some v))
  end.

(** No mutex is taken: the words of the mask are read one after the other, again
    for the second search of [find_roll], and [start_pos] is read and written on its
    own. *)
Definition mask_word (ga : Z) (i : nat) : prog Z := read (fun w => g ← get_group w ga; deref (fifos_mask g !! i)).

Definition find_unlocked (ga pos : Z) : prog Z :=
  m0 ← mask_word ga 0;
  m1 ← mask_word ga 1;
  read (fun _ => bitmap64_find [m0; m1] pos XDP2_POLL_GROUP_MAX_FIFOS).

Definition xdp2_fifo_poll_no_poll (ga : Z) : prog Z :=
  pos ← read (fun w => g ← get_group w ga; mret (start_pos g));
  v ← find_unlocked ga pos;
  v ← (if XDP2_POLL_GROUP_MAX_FIFOS <=? v then find_unlocked ga 0 else mret v);
  _ ← (if v <? XDP2_POLL_GROUP_MAX_FIFOS
       then on_group ga (fun g => mret (set_start_pos ((v + 1) mod XDP2_POLL_GROUP_MAX_FIFOS) g, tt)) else mret tt);
  mret v.

Definition __xdp2_fifo_poll (ga : Z) (wait : bool) : prog Z :=
  _ ← modify (__XDP2_FIFO_POLL_GROUP_BUMP_COUNT ga (if wait then G_num_wait_polls else G_num_no_wait_polls));
  no_poll ← read (fun w => g ← get_group w ga; mret (fifo_no_poll (gconf g)));
  v ← (if (no_poll : bool) then xdp2_fifo_poll_no_poll ga else __xdp2_fifo_sw_poll ga wait);
  _ ← modify (__XDP2_FIFO_POLL_GROUP_BUMP_COUNT ga
        (if v <? XDP2_POLL_GROUP_MAX_FIFOS / 2 then G_num_ret_rd_fifo
         else if v <? XDP2_POLL_GROUP_MAX_FIFOS then G_num_ret_wr_fifo else G_num_ret_no_fifo));
  _ ← (if v <? XDP2_POLL_GROUP_MAX_FIFOS then on_group ga (fun g => mret (set_active true g, tt)) else mret tt);
  mret v.
Definition xdp2_fifo_poll := __xdp2_fifo_poll.

(** ** Enqueueing *)

(** The work of queueing under the mutex: was the queue empty, is it full now.
    [max_enqueued] is updated before [queue_full]. *)
Definition enqueue_work (a num : Z) (msg : list Z) (w : fworld) : outcome (fworld * (bool * bool)) :=
  f ← get_fifo w a;
  let c := conf f in
  let was_empty := producer (ring f) =? consumer (ring f) in
  w ← (if was_empty then __XDP2_FIFO_BUMP_PROD_COUNT a P_saw_empty w else mret w);
  if Z.of_nat (length msg) <? num then Crash else
  q ← words_put (u32 (producer (ring f) * ent_size c)) (take (Z.to_nat num) msg) (queue (ring f));
  p ← umod (u32 (producer (ring f) + 1)) (num_ents c);
  let f := set_ring (FifoRing p (consumer (ring f)) (queue_full (ring f)) q) f in
  n ← xdp2_fifo_sw_num_in_queue f;
  w ← upd_stats a (fun s => FifoStats (st_consumer s)
        (upd_counter P_max_enqueued (fun m => if m <? n then n else m) (st_producer s))) w;
  if consumer (ring f) =? producer (ring f) then
    w ← __XDP2_FIFO_BUMP_PROD_COUNT a P_queue_full w;
    mret (put_fifo a (set_ring (FifoRing p (consumer (ring f)) true q) f) w, (was_empty, true))
  else mret (put_fifo a f w, (was_empty, false)).

Inductive attempt A := AFail | AWait (c : Z) | ADone (x : A).
Arguments AFail {A}. Arguments AWait {A} c. Arguments ADone {A} x.

Definition try_enqueue (a num : Z) (msg : list Z) (wait : bool) (w : fworld)
  : outcome (fworld * attempt (bool * bool)) :=
  f ← the_fifo w a;
  _ ← XDP2_ASSERT (num <=? ent_size (conf f));
  if xdp2_fifo_sw_is_full f then
    w ← __XDP2_FIFO_BUMP_PROD_COUNT a P_blocked w;
    if negb wait then mret (w, AFail) else
    _ ← XDP2_ASSERT (negb (producer_cond f =? 0));
    w ← __XDP2_FIFO_BUMP_PROD_COUNT a P_waits w;
    w ← __XDP2_FIFO_BUMP_INC_NUM_WAITERS a w;
    mret (w, AWait (producer_cond f))
  else '(w, r) ← enqueue_work a num msg w; mret (w, ADone r).

(** After [COND_WAIT]. *)
Definition retry_enqueue (a num : Z) (msg : list Z) (w : fworld) : outcome (fworld * option (bool * bool)) :=
  f ← get_fifo w a;
  if xdp2_fifo_sw_is_full f then w ← __XDP2_FIFO_BUMP_PROD_COUNT a P_spurious_wakeups w; mret (w, None) else
  w ← __XDP2_FIFO_BUMP_PROD_COUNT a P_after_wait w;
  w ← __XDP2_FIFO_BUMP_DEC_NUM_WAITERS a w;
  '(w, r) ← enqueue_work a num msg w; mret (w, Some r).

(** What follows when the queue has become full: between the two mutexes a
    consumer may have made room. *)
Definition after_full (a : Z) : prog unit :=
  _ ← xdp2_fifo_mark_non_writable a;
  below ← read (fun w => f ← get_fifo w a; n ← xdp2_fifo_sw_num_in_queue f; mret (n <? low_water_mark (conf f)));
  if (below : bool) then xdp2_fifo_make_writable a else mret tt.

Definition after_enqueue (a : Z) (r : bool * bool) : prog bool :=
  _ ← (if snd r then after_full a else mret tt);
  _ ← (if fst r then xdp2_fifo_make_readable a else mret tt);
  mret true.

Definition ___xdp2_fifo_sw_enqueue (a num : Z) (msg : list Z) (wait : bool) : prog bool :=
  r ← sect (try_enqueue a num msg wait);
  match r with
  | AFail => mret false
  | AWait c => r ← wait_loop c (retry_enqueue a num msg); after_enqueue a r
  | ADone r => after_enqueue a r
  end.

Definition ___xdp2_fifo_enqueue (a num : Z) (msg : list Z) (wait : bool) : prog bool :=
  _ ← modify (__XDP2_FIFO_BUMP_PROD_COUNT a P_requests);
  ret ← ___xdp2_fifo_sw_enqueue a num msg wait;
  _ ← modify (if (ret : bool) then __XDP2_FIFO_BUMP_NUM_ENQUEUED a else __XDP2_FIFO_BUMP_PROD_COUNT a P_fails);
  mret ret.

Definition xdp2_fifo_enqueue (a v : Z) (wait : bool) : prog bool := ___xdp2_fifo_enqueue a 1 [v] wait.

Definition ___xdp2_fifo_enqueue_nocheck (a num : Z) (msg : list Z) : prog unit :=
  _ ← modify (__XDP2_FIFO_BUMP_PROD_COUNT a P_requests);
  ret ← ___xdp2_fifo_sw_enqueue a num msg false;
  _ ← read (fun w => XDP2_ASSERT ret);
  modify (__XDP2_FIFO_BUMP_NUM_ENQUEUED a).

Definition xdp2_fifo_enqueue_nocheck (a v : Z) : prog unit := ___xdp2_fifo_enqueue_nocheck a 1 [v].

(** ** Dequeueing *)

Definition xdp2_fifo_make_non_readable_after_dequeue (a : Z) : prog unit :=
  _ ← xdp2_fifo_mark_non_readable a;
  e ← read (fun w => f ← get_fifo w a; mret (xdp2_fifo_sw_is_empty f));
  if (e : bool) then mret tt else xdp2_fifo_make_readable a.

(** The work under the mutex: the message, is the queue empty now, is the
    producer to be unblocked. *)
Definition dequeue_work (a num : Z) (w : fworld) : outcome (fworld * (list Z * bool * bool)) :=
  f ← get_fifo w a;
  let c := conf f in
  msg ← words_get (u32 (consumer (ring f) * ent_size c)) num (queue (ring f));
  cn ← umod (u32 (consumer (ring f) + 1)) (num_ents c);
  w ← __XDP2_FIFO_BUMP_CONS_COUNT a C_requests w;
  let p := producer (ring f) in
  n ← umod (u32 (p - cn + num_ents c)) (num_ents c);
  w ← upd_stats a (fun s => FifoStats
        (upd_counter C_min_enqueued (fun m => if n <? m then n else m) (st_consumer s)) (st_producer s)) w;
  let unblock := queue_full (ring f) && (n <? low_water_mark c) in
  w ← (if unblock then __XDP2_FIFO_BUMP_CONS_COUNT a C_unblocked w else mret w);
  mret (put_fifo a (set_ring (FifoRing p cn (if unblock then false else queue_full (ring f)) (queue (ring f))) f) w,
        (msg, p =? cn, unblock)).

Definition try_dequeue (a num : Z) (wait : bool) (w : fworld)
  : outcome (fworld * attempt (list Z * bool * bool)) :=
  f ← the_fifo w a;
  _ ← XDP2_ASSERT (num <=? ent_size (conf f));
  if xdp2_fifo_sw_is_empty f then
    if negb wait then mret (w, AFail) else
    _ ← XDP2_ASSERT (negb (consumer_cond f =? 0));
    w ← __XDP2_FIFO_BUMP_CONS_COUNT a C_waits w;
    mret (w, AWait (consumer_cond f))
  else '(w, r) ← dequeue_work a num w; mret (w, ADone r).

Definition retry_dequeue (a num : Z) (w : fworld) : outcome (fworld * option (list Z * bool * bool)) :=
  f ← get_fifo w a;
  if xdp2_fifo_sw_is_empty f then w ← __XDP2_FIFO_BUMP_CONS_COUNT a C_spurious_wakeups w; mret (w, None) else
  w ← __XDP2_FIFO_BUMP_CONS_COUNT a C_after_wait w;
  '(w, r) ← dequeue_work a num w; mret (w, Some r).

Definition after_dequeue (a : Z) (r : list Z * bool * bool) : prog (option (list Z)) :=
  let '(msg, non_readable, unblock) := r in
  _ ← (if unblock then xdp2_fifo_make_writable a else mret tt);
  _ ← (if non_readable then xdp2_fifo_make_non_readable_after_dequeue a else mret tt);
  _ ← (if unblock then
         c ← read (fun w => f ← get_fifo w a; mret (producer_cond f));
         if c =? 0 then mret tt else cond_signal (fun w => f ← get_fifo w a; mret (producer_cond f))
       else mret tt);
  mret (Some msg).

(** [None] is the return value false. *)
Definition ___xdp2_fifo_sw_dequeue (a num : Z) (wait : bool) : prog (option (list Z)) :=
  r ← sect (try_dequeue a num wait);
  match r with
  | AFail => _ ← xdp2_fifo_make_non_readable_after_dequeue a; mret None
  | AWait c => r ← wait_loop c (retry_dequeue a num); after_dequeue a r
  | ADone r => after_dequeue a r
  end.

Definition ___xdp2_fifo_dequeue (a num : Z) (wait : bool) : prog (option (list Z)) :=
  ret ← ___xdp2_fifo_sw_dequeue a num wait;
  _ ← modify (if is_null ret then __XDP2_FIFO_BUMP_CONS_COUNT a C_fails else __XDP2_FIFO_BUMP_NUM_DEQUEUED a);
  mret ret.

Definition xdp2_fifo_dequeue (a : Z) (wait : bool) : prog (option (list Z)) := ___xdp2_fifo_dequeue a 1 wait.

(** ** Initialization *)

Definition zero_stats : xdp2_fifo_stats := FifoStats (fun _ => 0) (fun _ => 0).

(** [ent_size] is kept in eight bits. The queue itself is not cleared. *)
Definition __xdp2_fifo_init (a n es lwm stats xnum : Z) : prog unit :=
  modify (fun w =>
    f ← get_fifo w a;
    '(w, rel) ← (if stats =? 0 then mret (w, 0) else
       _ ← deref (w_stats w !! stats);
       rel ← XDP2_ADDR_REV_XLAT xnum stats; mret (put_stats stats zero_stats w, rel));
    mret (put_fifo a
      (Fifo (FifoConfig n lwm (u8 es) true xnum XDP2_FIFO_MAGIG_NUM rel)
         (FifoRing 0 0 false (queue (ring f))) 0 0 (PollInfo 0 0 0) (PollInfo 0 0 0) (FifoCounts 0 0 0)) w)).

Definition xdp2_fifo_init (a n lwm stats : Z) : prog unit :=
  __xdp2_fifo_init a n 1 lwm stats XDP2_ADDR_XLAT_NO_XLAT.

(** [sz] is [sizeof(struct xdp2_fifo)]. *)
Definition xdp2_fifo_size (sz n es : Z) : Z := u64 (sz + u32 (n * es) * 8).

(** [stats] of each FIFO: NULL or the address of its element of the array. *)
Fixpoint xdp2_fifo_init_fifos (sz a : Z) (stats : list Z) (es limit lwm xnum : Z) : prog unit :=
  match stats with
  | [] => mret tt
  | s :: stats =>
    _ ← __xdp2_fifo_init a limit es lwm s xnum;
    xdp2_fifo_init_fifos sz (u64 (a + xdp2_fifo_size sz limit es)) stats es limit lwm xnum
  end.

(** [calloc_ret] is the address [calloc] returns, zero when it fails. The new
    memory is zero. *)
Definition __xdp2_fifo_create (calloc_ret n es lwm stats xnum : Z) : prog Z :=
  if calloc_ret =? 0 then mret 0 else
  _ ← modify (fun w => mret (put_fifo calloc_ret
        (Fifo (FifoConfig 0 0 0 false 0 0 0) (FifoRing 0 0 false (replicate (Z.to_nat (u32 (n * es))) 0))
           0 0 (PollInfo 0 0 0) (PollInfo 0 0 0) (FifoCounts 0 0 0)) w));
  _ ← __xdp2_fifo_init calloc_ret n es lwm stats xnum;
  mret calloc_ret.

Definition xdp2_fifo_create (calloc_ret n lwm stats : Z) : prog Z :=
  __xdp2_fifo_create calloc_ret n 1 lwm stats XDP2_ADDR_XLAT_NO_XLAT.

(** [true]: this side of the FIFO was initialized. *)
Definition init_side (a c : Z) (get : xdp2_fifo -> Z) (upd : Z -> xdp2_fifo -> xdp2_fifo) : prog bool :=
  sect (fun w =>
    f ← the_fifo w a; _ ← XDP2_ASSERT (initted (conf f));
    if negb (get f =? 0) then mret (w, false) else mret (put_fifo a (upd c f) w, true)).
Definition uninit_side (a c : Z) (get : xdp2_fifo -> Z) (upd : Z -> xdp2_fifo -> xdp2_fifo) : prog unit :=
  modify (fun w =>
    f ← the_fifo w a; _ ← XDP2_ASSERT (initted (conf f));
    if c =? get f then mret (put_fifo a (upd 0 f) w) else mret w).

Definition __xdp2_fifo_init_producer (a c : Z) : prog bool := init_side a c producer_cond set_producer_cond.
Definition xdp2_fifo_init_producer := __xdp2_fifo_init_producer.
Definition xdp2_fifo_init_producer_nowarn := __xdp2_fifo_init_producer.
Definition xdp2_fifo_uninit_producer (a c : Z) : prog unit := uninit_side a c producer_cond set_producer_cond.
Definition __xdp2_fifo_init_consumer (a c : Z) : prog bool := init_side a c consumer_cond set_consumer_cond.
Definition xdp2_fifo_init_consumer := __xdp2_fifo_init_consumer.
Definition xdp2_fifo_init_consumer_nowarn := __xdp2_fifo_init_consumer.
Definition xdp2_fifo_uninit_consumer (a c : Z) : prog unit := uninit_side a c consumer_cond set_consumer_cond.
End Fifo.
Arguments AFail {A}.
Arguments AWait {A} c.
Arguments ADone {A} x.
