(* ===== verification/FifoSpec.v ===== *)
(** * FIFOs shared by threads: the abstract queues and the invariant

    Threads run scripts of FIFO operations. In the abstract machine an operation
    is one step on a bounded queue of messages. The invariant relates the shared
    memory to the abstract machine, and says which thread is responsible for a
    FIFO that should be ready for its poll group and is not marked so. *)

From stdpp Require Import base list gmap numbers relations.
From S2P Require Import Prelude Fifo ObjAlloc BitmapSpec Conc.

(** ** The ring of a FIFO as a bounded queue

    Between the consumer and the producer index the ring holds the messages of a
    queue, oldest first. *)

(** The first words of an entry are those of a message. *)
Definition holds (q : list Z) (i : Z) (m : list Z) : Prop :=
  take (length m) (drop (Z.to_nat i) q) = m.

Lemma holds_lookup q i m :
  0 <= i -> holds q i m <-> forall x v, m !! x = Some v -> q !! (Z.to_nat i + x)%nat = Some v.
Proof.
  intros Hi. unfold holds. split.
  - intros E x v Hx. rewrite <- E in Hx. apply lookup_take_Some in Hx as [Hx _]. by rewrite lookup_drop in Hx.
  - intros H. apply list_eq. intros x. destruct (decide (x < length m)%nat) as [Hx | Hx].
    + rewrite lookup_take_lt by done. rewrite lookup_drop. destruct (lookup_lt_is_Some_2 m x Hx) as [v E].
      rewrite E. by apply H.
    + rewrite lookup_take_ge by lia. symmetry. apply lookup_ge_None. lia.
Qed.

Lemma words_put_ok i ws q :
  0 <= i -> i + Z.of_nat (length ws) <= Z.of_nat (length q) ->
  exists q', words_put i ws q = Done q' /\ length q' = length q /\ holds q' i ws /\
    forall j m, 0 <= j -> j + Z.of_nat (length m) <= i \/ i + Z.of_nat (length ws) <= j -> holds q j m -> holds q' j m.
Proof.
  intros Hi Hl. unfold words_put. destruct (Z.leb_spec 0 i); [| lia].
  destruct (Z.leb_spec (i + Z.of_nat (length ws)) (Z.of_nat (length q))); [| lia]. cbn [andb].
  eexists. split; [done |]. split_and!.
  - rewrite !length_app, length_take, length_drop. lia.
  - apply holds_lookup; [lia |]. intros x v Hx. rewrite lookup_app_r; rewrite length_take_le by lia; [| lia].
    rewrite lookup_app_l by (apply lookup_lt_Some in Hx; lia). by replace (Z.to_nat i + x - Z.to_nat i)%nat with x by lia.
  - intros j m Hj Hd Hh. apply holds_lookup; [lia |]. intros x v Hx. rewrite holds_lookup in Hh by lia.
    specialize (Hh x v Hx). apply lookup_lt_Some in Hx as Hx'. destruct Hd as [Hd | Hd].
    + rewrite lookup_app_l by (rewrite length_take_le; lia). by rewrite lookup_take_lt by lia.
    + rewrite lookup_app_r; rewrite length_take_le by lia; [| lia]. rewrite lookup_app_r by lia.
      rewrite lookup_drop. rewrite <- Hh. f_equal. lia.
Qed.

Lemma words_get_ok i n q m :
  0 <= i -> 0 <= n -> i + n <= Z.of_nat (length q) -> holds q i m ->
  exists d, words_get i n q = Done d /\ Z.of_nat (length d) = n /\ take (length m) d = take (Z.to_nat n) m.
Proof.
  intros Hi Hn Hl Hh. unfold words_get. destruct (Z.leb_spec 0 i), (Z.leb_spec 0 n); try lia.
  destruct (Z.leb_spec (i + n) (Z.of_nat (length q))); [| lia]. cbn [andb]. eexists. split; [done |]. split.
  - rewrite length_take, length_drop. lia.
  - rewrite take_take, Nat.min_comm, <- take_take. unfold holds in Hh. by rewrite Hh.
Qed.

(** ** Rings *)

(** Numbers that are less than [n] apart and equal modulo [n] are equal. *)
Lemma mod_apart n c i j : 0 < n -> - n < i - j < n -> (c + i) mod n = (c + j) mod n -> i = j.
Proof.
  intros Hn Hd E. pose proof (Z.div_mod (c + i) n ltac:(lia)) as H1. pose proof (Z.div_mod (c + j) n ltac:(lia)) as H2.
  rewrite E in H1. assert (i - j = n * ((c + i) / n - (c + j) / n)) as H3 by lia.
  assert ((c + i) / n - (c + j) / n = 0) as H4 by nia. nia.
Qed.

Definition config_fits (c : fifo_config) : Prop :=
  0 < num_ents c <= 2 ^ 31 /\ 0 <= ent_size c < 2 ^ 8 /\ num_ents c * ent_size c < 2 ^ 32 /\ 0 < low_water_mark c.

(** The entry [j] positions after the consumer. *)
Definition slot (c : fifo_config) (r : fifo_ring) (j : Z) : Z := (consumer r + j) mod num_ents c.

Definition ring_ok (c : fifo_config) (r : fifo_ring) (q : list (list Z)) : Prop :=
  let n := num_ents c in let k := Z.of_nat (length q) in
  0 <= consumer r < n /\ k <= n /\ producer r = slot c r k /\
  (k = n -> queue_full r = true) /\ (k = 0 -> queue_full r = false) /\
  Z.of_nat (length (queue r)) = n * ent_size c /\
  forall j m, q !! j = Some m ->
    Z.of_nat (length m) <= ent_size c /\ holds (queue r) (slot c r (Z.of_nat j) * ent_size c) m.

Section Ring.
Context (f : xdp2_fifo) (q : list (list Z)).
Context (Hfit : config_fits (conf f)) (Hr : ring_ok (conf f) (ring f) q).
Abbreviation n := (num_ents (conf f)).
Abbreviation es := (ent_size (conf f)).
Abbreviation k := (Z.of_nat (length q)).

Lemma slot_range c r j : config_fits c -> 0 <= slot c r j < num_ents c.
Proof. intros (H & _). apply Z.mod_pos_bound. lia. Qed.

Lemma slot_inj c r i j :
  config_fits c -> 0 <= i < num_ents c -> 0 <= j < num_ents c -> slot c r i = slot c r j -> i = j.
Proof.
  intros (Hn & _) Hi Hj E. unfold slot in E. eapply mod_apart; [| | exact E]; lia.
Qed.

Lemma producer_eq : producer (ring f) = consumer (ring f) <-> k = 0 \/ k = n.
Proof using Hfit Hr.
  destruct Hr as (Hc & Hk & -> & _). pose proof Hfit as (Hn & _). unfold slot. split.
  - intros E. destruct (decide (k = n)) as [-> | Hne]; [by right | left].
    apply (mod_apart n (consumer (ring f))); [lia | lia |]. rewrite E, Z.add_0_r. symmetry. by apply Z.mod_small.
  - intros [-> | ->].
    + rewrite Z.add_0_r. by apply Z.mod_small.
    + rewrite <- (Z.mul_1_l n) at 1. rewrite Z.mod_add by lia. by apply Z.mod_small.
Qed.

Lemma is_full_ok : xdp2_fifo_sw_is_full f = (k =? n).
Proof using Hfit Hr.
  unfold xdp2_fifo_sw_is_full. pose proof producer_eq as E. destruct Hr as (_ & Hk & _ & Hf & He & _).
  pose proof Hfit as (Hn & _).
  destruct (Z.eqb_spec (consumer (ring f)) (producer (ring f))) as [E' | E'], (Z.eqb_spec k n) as [Hkn | Hkn]; cbn.
  - by apply Hf.
  - destruct (proj1 E (eq_sym E')) as [H0 | H0]; [by apply He | done].
  - exfalso. apply E'. symmetry. apply E. by right.
  - done.
Qed.

Lemma is_empty_ok : xdp2_fifo_sw_is_empty f = (k =? 0).
Proof using Hfit Hr.
  unfold xdp2_fifo_sw_is_empty. pose proof producer_eq as E. destruct Hr as (_ & Hk & _ & Hf & He & _).
  pose proof Hfit as (Hn & _).
  destruct (Z.eqb_spec (consumer (ring f)) (producer (ring f))) as [E' | E'], (Z.eqb_spec k 0) as [Hk0 | Hk0]; cbn.
  - by rewrite He.
  - destruct (proj1 E (eq_sym E')) as [H0 | H0]; [done | by rewrite Hf].
  - exfalso. apply E'. symmetry. apply E. by left.
  - done.
Qed.

(** The difference of the indices, computed without sign. *)
Lemma ring_diff c p i m :
  config_fits c -> 0 <= i < num_ents c -> 0 <= m < num_ents c -> p = (i + m) mod num_ents c ->
  umod (u32 (p - i + num_ents c)) (num_ents c) = Done m.
Proof.
  intros (Hn & _) Hi Hm ->. unfold umod. destruct (Z.eqb_spec (num_ents c) 0); [lia |].
  pose proof (Z.mod_pos_bound (i + m) (num_ents c) ltac:(lia)).
  assert (u32 ((i + m) mod num_ents c - i + num_ents c) = (i + m) mod num_ents c - i + num_ents c) as ->
    by (apply Z.mod_small; lia).
  orun. f_equal. replace ((i + m) mod num_ents c - i + num_ents c) with ((i + m) mod num_ents c + (num_ents c - i)) by lia.
  rewrite Zplus_mod_idemp_l. replace (i + m + (num_ents c - i)) with (m + 1 * num_ents c) by lia.
  rewrite Z.mod_add by lia. by apply Z.mod_small.
Qed.

Lemma num_in_queue_ok : xdp2_fifo_sw_num_in_queue f = Done k.
Proof using Hfit Hr.
  unfold xdp2_fifo_sw_num_in_queue. pose proof is_full_ok as Ef. unfold xdp2_fifo_sw_is_full in Ef.
  rewrite Z.eqb_sym in Ef. rewrite Ef. destruct Hr as (Hc & Hk & Ep & _). destruct (Z.eqb_spec k n) as [-> | Hne]; [done |].
  apply ring_diff; [done | done | lia | exact Ep].
Qed.

Lemma avail_in_queue_ok : xdp2_fifo_sw_avail_in_queue f = Done (n - k).
Proof using Hfit Hr.
  unfold xdp2_fifo_sw_avail_in_queue. rewrite num_in_queue_ok. orun. f_equal. destruct Hr as (_ & Hk & _).
  pose proof Hfit as (Hn & _). apply Z.mod_small. lia.
Qed.

Lemma next_index i : 0 <= i < n -> umod (u32 (i + 1)) n = Done ((i + 1) mod n).
Proof using Hfit.
  intros Hi. pose proof Hfit as (Hn & _). unfold umod. destruct (Z.eqb_spec n 0); [lia |].
  assert (u32 (i + 1) = i + 1) as -> by (apply Z.mod_small; lia). done.
Qed.

Lemma entry_index j : u32 (slot (conf f) (ring f) j * es) = slot (conf f) (ring f) j * es.
Proof using Hfit.
  pose proof (slot_range (conf f) (ring f) j Hfit). pose proof Hfit as (Hn & He & Hl & _). apply Z.mod_small. nia.
Qed.

Lemma entries_apart i j a b :
  0 <= i < n -> 0 <= j < n -> i <> j -> a <= es -> b <= es ->
  slot (conf f) (ring f) i * es + a <= slot (conf f) (ring f) j * es \/
  slot (conf f) (ring f) j * es + b <= slot (conf f) (ring f) i * es.
Proof using Hfit.
  intros Hi Hj Hne Ha Hb. assert (slot (conf f) (ring f) i <> slot (conf f) (ring f) j) as H.
  { intros E. apply Hne. by eapply slot_inj. }
  pose proof (slot_range (conf f) (ring f) i Hfit). pose proof (slot_range (conf f) (ring f) j Hfit).
  destruct Hfit as (_ & He & _). destruct (Z.lt_ge_cases (slot (conf f) (ring f) i) (slot (conf f) (ring f) j));
    [left; nia | right; nia].
Qed.

(** The ring after a message is stored at the producer index. *)
Lemma ring_put m :
  k < n -> Z.of_nat (length m) <= es ->
  exists ws, words_put (u32 (producer (ring f) * es)) m (queue (ring f)) = Done ws /\
    umod (u32 (producer (ring f) + 1)) n = Done (slot (conf f) (ring f) (k + 1)) /\
    forall full, (k + 1 = n -> full = true) ->
      ring_ok (conf f) (FifoRing (slot (conf f) (ring f) (k + 1)) (consumer (ring f)) full ws) (q ++ [m]).
Proof using Hfit Hr.
  intros Hk Hm. pose proof Hr as (Hc & _ & Ep & Hf & He & Hl & Hq). pose proof Hfit as (Hn & Hes & Hw & _).
  pose proof (slot_range (conf f) (ring f) k Hfit) as Hs. rewrite Ep, entry_index.
  destruct (words_put_ok (slot (conf f) (ring f) k * es) m (queue (ring f))) as (ws & E & Hlw & Hh & Ho); [nia | nia |].
  exists ws. split; [exact E |]. split.
  { rewrite next_index by done. f_equal. unfold slot. rewrite Zplus_mod_idemp_l. f_equal. lia. }
  intros full Hfull. unfold ring_ok. cbn [producer consumer queue_full queue]. rewrite length_app. cbn [length].
  replace (Z.of_nat (length q + 1)) with (k + 1) by lia. split_and!; try lia; try done.
  intros j m' Hj. change (slot (conf f) _ (Z.of_nat j)) with (slot (conf f) (ring f) (Z.of_nat j)).
  apply lookup_app_Some in Hj as [Hj | [Hj E']].
  - destruct (Hq j m' Hj) as [Hm' Hh']. split; [done |]. apply lookup_lt_Some in Hj. apply Ho; [| | exact Hh'].
    + pose proof (slot_range (conf f) (ring f) (Z.of_nat j) Hfit). nia.
    + apply entries_apart; lia.
  - apply list_lookup_singleton_Some in E' as [E' <-]. split; [done |].
    by replace (Z.of_nat j) with k by lia.
Qed.

(** The ring after the entry at the consumer index is taken. *)
Lemma ring_get m q' num :
  q = m :: q' -> 0 <= num <= es ->
  exists d, words_get (u32 (consumer (ring f) * es)) num (queue (ring f)) = Done d /\
    Z.of_nat (length d) = num /\ take (length m) d = take (Z.to_nat num) m /\
    umod (u32 (consumer (ring f) + 1)) n = Done (slot (conf f) (ring f) 1) /\
    umod (u32 (producer (ring f) - slot (conf f) (ring f) 1 + n)) n = Done (Z.of_nat (length q')) /\
    (producer (ring f) =? slot (conf f) (ring f) 1) = (Z.of_nat (length q') =? 0) /\
    forall full, (Z.of_nat (length q') = 0 -> full = false) ->
      ring_ok (conf f) (FifoRing (producer (ring f)) (slot (conf f) (ring f) 1) full (queue (ring f))) q'.
Proof using Hfit Hr.
  intros Eq Hnum. pose proof Hr as (Hc & Hk & Ep & Hf & He & Hl & Hq). pose proof Hfit as (Hn & Hes & Hw & _).
  assert (k = Z.of_nat (length q') + 1) as Ek by (rewrite Eq; cbn; lia).
  assert (slot (conf f) (ring f) 0 = consumer (ring f)) as E0 by (unfold slot; rewrite Z.add_0_r; by apply Z.mod_small).
  pose proof (entry_index 0) as Ei. rewrite E0 in Ei. rewrite Ei.
  destruct (Hq 0%nat m) as [Hlm Hh]; [by rewrite Eq |]. change (Z.of_nat 0) with 0 in Hh. rewrite E0 in Hh.
  destruct (words_get_ok (consumer (ring f) * es) num (queue (ring f)) m) as (d & E & Hd & Ht); [nia | lia | nia | done |].
  assert (forall j, slot (conf f) (ring f) (1 + j) = (slot (conf f) (ring f) 1 + j) mod n) as Eslot.
  { intros j. unfold slot. rewrite Zplus_mod_idemp_l. f_equal. lia. }
  pose proof (slot_range (conf f) (ring f) 1 Hfit) as Hs1.
  assert (producer (ring f) = (slot (conf f) (ring f) 1 + Z.of_nat (length q')) mod n) as Ep'.
  { rewrite Ep, <- Eslot. f_equal. lia. }
  exists d. split_and!; try done.
  - by apply next_index.
  - apply ring_diff; [done | done | lia | exact Ep'].
  - rewrite Ep'. destruct (Z.eqb_spec (Z.of_nat (length q')) 0) as [-> | Hne].
    + rewrite Z.add_0_r, Z.mod_small by done. by rewrite Z.eqb_refl.
    + apply Z.eqb_neq. intros E'. apply Hne. apply (mod_apart n (slot (conf f) (ring f) 1)); [lia | lia |].
      rewrite E', Z.add_0_r. symmetry. by apply Z.mod_small.
  - intros full Hfull. unfold ring_ok. cbn [producer consumer queue_full queue]. split_and!; try lia; try done.
    intros j m' Hj. destruct (Hq (S j) m') as [Hlm' Hh']; [by rewrite Eq |]. split; [done |].
    unfold slot in Hh' |- *. cbn [consumer]. replace (Z.of_nat (S j)) with (1 + Z.of_nat j) in Hh' by lia.
    pose proof (Eslot (Z.of_nat j)) as Es. unfold slot in Es. by rewrite <- Es.
Qed.
End Ring.

Inductive side := Rd | Wr.
#[global] Instance side_eq : EqDecision side.
Proof. solve_decision. Defined.

Definition sel (s : side) : xdp2_fifo -> poll_info := match s with Rd => read_poll | Wr => write_poll end.

(** ** Scripts *)

Inductive op :=
| OEnq (a num : Z) (msg : list Z) (wait : bool)
| ODeq (a num : Z) (wait : bool)
| OEnable (s : side) (a : Z)
| ODisable (s : side) (a : Z)
| OPoll (ga : Z) (wait : bool).

Inductive res := REnq (b : bool) | RDeq (m : option (list Z)) | RPoll (v : Z) | RUnit.

Definition op_prog (xl : list xdp2_addr_xlat) (o : op) : prog fworld res :=
  match o with
  | OEnq a num msg wait => b ← ___xdp2_fifo_enqueue xl a num msg wait; mret (REnq b)
  | ODeq a num wait => m ← ___xdp2_fifo_dequeue xl a num wait; mret (RDeq m)
  | OEnable Rd a => _ ← xdp2_fifo_enable_read_poll xl a; mret RUnit
  | OEnable Wr a => _ ← xdp2_fifo_enable_write_poll xl a; mret RUnit
  | ODisable Rd a => _ ← xdp2_fifo_disable_read_poll xl a; mret RUnit
  | ODisable Wr a => _ ← xdp2_fifo_disable_write_poll xl a; mret RUnit
  | OPoll ga wait => v ← xdp2_fifo_poll xl ga wait; mret (RPoll v)
  end.

(** A thread returns the results of its operations. *)
Fixpoint script (xl : list xdp2_addr_xlat) (ops : list op) (acc : list res) : prog fworld (list res) :=
  match ops with
  | [] => mret acc
  | o :: ops => r ← op_prog xl o; script xl ops (acc ++ [r])
  end.

(** ** The abstract machine *)

Abbreviation queues := (gmap Z (list (list Z))).

(** [cap a] is the capacity of the queue [a]. A message that is shorter than the
    words asked for determines only its own words. *)
Inductive abs_op (cap : Z -> Z) (qs : queues) : op -> res -> queues -> Prop :=
| abs_enq a num msg wait q :
    qs !! a = Some q -> Z.of_nat (length q) < cap a ->
    abs_op cap qs (OEnq a num msg wait) (REnq true) (<[a := q ++ [take (Z.to_nat num) msg]]> qs)
| abs_enq_full a num msg q :
    qs !! a = Some q -> Z.of_nat (length q) = cap a -> abs_op cap qs (OEnq a num msg false) (REnq false) qs
| abs_deq a num wait m q d :
    qs !! a = Some (m :: q) -> Z.of_nat (length d) = num -> take (length m) d = take (Z.to_nat num) m ->
    abs_op cap qs (ODeq a num wait) (RDeq (Some d)) (<[a := q]> qs)
| abs_deq_empty a num : qs !! a = Some [] -> abs_op cap qs (ODeq a num false) (RDeq None) qs
| abs_enable s a : abs_op cap qs (OEnable s a) RUnit qs
| abs_disable s a : abs_op cap qs (ODisable s a) RUnit qs
| abs_poll ga wait v : abs_op cap qs (OPoll ga wait) (RPoll v) qs.

(** A thread: the results it has, and what is left of its script. *)
Abbreviation abs_thread := (list res * list op)%type.

Abbreviation abs_state := (queues * list abs_thread)%type.

(** A step of thread [i]. *)
Inductive abs_step (cap : Z -> Z) (i : nat) : abs_state -> abs_state -> Prop :=
| abs_step_op qs ts d o ops r qs' :
    ts !! i = Some (d, o :: ops) -> abs_op cap qs o r qs' ->
    abs_step cap i (qs, ts) (qs', <[i := (d ++ [r], ops)]> ts).

(** ** The invariant *)

(** The token of a thread: its state in the abstract machine; the FIFO it will
    mark readable ([t_rd]) or writable ([t_wr]), or look at again; the FIFO it
    has filled and not looked at since. *)
Record tok := Tok { t_abs : abs_thread; t_rd : option Z; t_wr : option Z; t_full : option Z }.

Definition pend (s : side) (t : tok) : option Z := match s with Rd => t_rd t | Wr => t_wr t end.
Definition set_pend (s : side) (o : option Z) (t : tok) : tok :=
  match s with Rd => Tok (t_abs t) o (t_wr t) (t_full t) | Wr => Tok (t_abs t) (t_rd t) o (t_full t) end.
Definition set_full (o : option Z) (t : tok) : tok := Tok (t_abs t) (t_rd t) (t_wr t) o.
Definition advance (r : res) (t : tok) : tok :=
  Tok (fst (t_abs t) ++ [r], tail (snd (t_abs t))) (t_rd t) (t_wr t) (t_full t).

Definition idle (x : abs_thread) : tok := Tok x None None None.

Definition gbit (m : list Z) (i : Z) : bool := bm_bit 64 (fun v => v) 0 m i.
Definition words_ok (m : list Z) : Prop := bm_ok 64 0 m /\ length m = 2%nat.

Definition group_fits (g : xdp2_fifo_poll_group) : Prop :=
  words_ok (fifos_ready g) /\ words_ok (fifos_mask g) /\ 0 <= start_pos g < 128.

Section Spec.
Context (xl : list xdp2_addr_xlat) (w0 : fworld) (qs0 : queues) (scripts : list (list op)).

(** The FIFO [a] is bound for this side to the number [num] of the group [ga]. *)
Definition bound (s : side) (a ga num : Z) : Prop :=
  exists f, w_fifos w0 !! a = Some f /\ poll_group (sel s f) <> 0 /\ poll_ref xl (sel s f) = Done (ga, num).

Definition rings (w : fworld) (qs : queues) : Prop :=
  forall a f, w_fifos w !! a = Some f -> exists q, qs !! a = Some q /\ ring_ok (conf f) (ring f) q.

(** What initialization and binding establish: valid pointers, distinct numbers. *)
Record world_ok : Prop := {
  wo_fifo a f : w_fifos w0 !! a = Some f ->
    config_fits (conf f) /\ fifo_magic (conf f) = XDP2_FIFO_MAGIG_NUM /\
    (fifo_stats (conf f) = 0 \/ exists sa,
       xdp2_addr_xlat_translate xl (fifo_xlat_num (conf f)) (fifo_stats (conf f)) = Done sa /\ is_Some (w_stats w0 !! sa));
  wo_poll s a f : w_fifos w0 !! a = Some f -> poll_group (sel s f) <> 0 ->
    exists ga g, poll_ref xl (sel s f) = Done (ga, poll_num (sel s f)) /\ w_groups w0 !! ga = Some g /\
      0 <= poll_num (sel s f) < 128;
  wo_group ga g : w_groups w0 !! ga = Some g ->
    group_magic (gconf g) = XDP2_POLL_GROUP_MAGIC_NUM /\ group_cond (gconf g) <> 0 /\ group_fits g /\
    (group_stats (gconf g) = 0 \/ exists sa,
       xdp2_addr_xlat_translate xl (group_xlat_num (gconf g)) (group_stats (gconf g)) = Done sa /\
       is_Some (w_gstats w0 !! sa));
  wo_unique s a s' a' ga num : bound s a ga num -> bound s' a' ga num -> s = s' /\ a = a';
  wo_rings : rings w0 qs0 }.

Definition skel (f : xdp2_fifo) := (conf f, consumer_cond f, producer_cond f, read_poll f, write_poll f).

Record static (w : fworld) : Prop := {
  sta_fifo a : skel <$> w_fifos w !! a = skel <$> w_fifos w0 !! a;
  sta_group ga : gconf <$> w_groups w !! ga = gconf <$> w_groups w0 !! ga;
  sta_stats sa : is_Some (w_stats w0 !! sa) -> is_Some (w_stats w !! sa);
  sta_gstats sa : is_Some (w_gstats w0 !! sa) -> is_Some (w_gstats w !! sa) }.

Definition groups_ok (w : fworld) : Prop := forall ga g, w_groups w !! ga = Some g -> group_fits g.

Definition cap (a : Z) : Z := match w_fifos w0 !! a with Some f => num_ents (conf f) | None => 0 end.

(** Thread [i] enqueues to [a]; at most one thread does. *)
Definition enqs (i : nat) (a : Z) : Prop :=
  exists ops num msg wait, scripts !! i = Some ops /\ OEnq a num msg wait ∈ ops.
Definition single (a : Z) : Prop := forall i j, enqs i a -> enqs j a -> i = j.

(** A FIFO should be ready to read when it is not empty, and ready to write when
    it has not been full since it was below its low water mark. *)
Definition want (s : side) (f : xdp2_fifo) : bool :=
  match s with Rd => negb (xdp2_fifo_sw_is_empty f) | Wr => negb (queue_full (ring f)) end.

(** Write readiness is kept for FIFOs with one producer only. *)
Definition tracked (s : side) (a : Z) : Prop := match s with Rd => True | Wr => single a end.

Definition pending (s : side) (toks : list tok) (a : Z) : Prop :=
  exists i t, toks !! i = Some t /\ pend s t = Some a.

Definition ready_inv (w : fworld) (toks : list tok) : Prop :=
  forall s a f ga g num,
    tracked s a -> w_fifos w !! a = Some f -> bound s a ga num -> w_groups w !! ga = Some g ->
    gbit (fifos_mask g) num = true -> want s f = true -> gbit (fifos_ready g) num = true \/ pending s toks a.

Definition low (f : xdp2_fifo) : Prop :=
  exists n, xdp2_fifo_sw_num_in_queue f = Done n /\ n < low_water_mark (conf f).

Definition full_inv (w : fworld) (toks : list tok) : Prop :=
  forall i t a, toks !! i = Some t -> t_full t = Some a ->
    enqs i a /\ forall f, single a -> w_fifos w !! a = Some f -> queue_full (ring f) = true \/ low f.

(** The invariant, in the middle of a section of thread [fst base] that began in
    the abstract state [snd base]. *)
Record inv_at (base : nat * abs_state) (w : fworld) (toks : list tok) (qs : queues) : Prop := {
  inv_static : static w;
  inv_groups : groups_ok w;
  inv_rings : rings w qs;
  inv_abs : rtc (abs_step cap (fst base)) (snd base) (qs, t_abs <$> toks);
  inv_ready : ready_inv w toks;
  inv_full : full_inv w toks }.

(** Between sections. *)
Definition Inv (w : fworld) (toks : list tok) (qs : queues) : Prop := inv_at (O, (qs, t_abs <$> toks)) w toks qs.

(** What a section of thread [i] does in the abstract machine. *)
Definition abs_rel (i : nat) (x y : list tok * queues) : Prop :=
  rtc (abs_step cap i) (snd x, t_abs <$> fst x) (snd y, t_abs <$> fst y).

Lemma inv_begin i w toks qs : Inv w toks qs -> inv_at (i, (qs, t_abs <$> toks)) w toks qs.
Proof. intros [Hs Hg Hr _ Hrdy Hf]. split; try done; apply rtc_refl. Qed.

Lemma inv_end i toks qs w' toks' qs' :
  inv_at (i, (qs, t_abs <$> toks)) w' toks' qs' -> Inv w' toks' qs' /\ abs_rel i (toks, qs) (toks', qs').
Proof. intros [Hs Hg Hr Ha Hrdy Hf]. split; [| exact Ha]. split; try done; apply rtc_refl. Qed.

(** ** Lookups through the invariant *)

Context (Hw0 : world_ok).

Lemma static_fifo w a f :
  static w -> w_fifos w !! a = Some f -> exists f0, w_fifos w0 !! a = Some f0 /\ skel f = skel f0.
Proof.
  intros Hs E. pose proof (sta_fifo w Hs a) as H. rewrite E in H. cbn in H.
  destruct (w_fifos w0 !! a) as [f0 |]; [| done]. exists f0. split; [done |]. by apply (inj Some).
Qed.

Lemma static_fifo_inv w a f0 :
  static w -> w_fifos w0 !! a = Some f0 -> exists f, w_fifos w !! a = Some f /\ skel f = skel f0.
Proof.
  intros Hs E. pose proof (sta_fifo w Hs a) as H. rewrite E in H. cbn in H.
  destruct (w_fifos w !! a) as [f |]; [| done]. exists f. split; [done |]. by apply (inj Some).
Qed.

Lemma static_group w ga g0 :
  static w -> w_groups w0 !! ga = Some g0 -> exists g, w_groups w !! ga = Some g /\ gconf g = gconf g0.
Proof.
  intros Hs E. pose proof (sta_group w Hs ga) as H. rewrite E in H. cbn in H.
  destruct (w_groups w !! ga) as [g |]; [| done]. exists g. split; [done |]. by apply (inj Some).
Qed.

Lemma skel_fields f f0 : skel f = skel f0 ->
  conf f = conf f0 /\ consumer_cond f = consumer_cond f0 /\ producer_cond f = producer_cond f0 /\
  read_poll f = read_poll f0 /\ write_poll f = write_poll f0.
Proof. unfold skel. by intros [= -> -> -> -> ->]. Qed.

Lemma skel_sel f f0 s : skel f = skel f0 -> sel s f = sel s f0.
Proof. intros (_ & _ & _ & Hr & Hw)%skel_fields. by destruct s. Qed.

Lemma fifo_fits w a f : static w -> w_fifos w !! a = Some f -> config_fits (conf f).
Proof using Hw0.
  intros Hs E. destruct (static_fifo w a f Hs E) as (f0 & E0 & (-> & _)%skel_fields). by eapply wo_fifo.
Qed.

Lemma fifo_cap w a f : static w -> w_fifos w !! a = Some f -> cap a = num_ents (conf f).
Proof. intros Hs E. destruct (static_fifo w a f Hs E) as (f0 & E0 & (-> & _)%skel_fields). unfold cap. by rewrite E0. Qed.

Lemma the_fifo_ok w a f : static w -> w_fifos w !! a = Some f -> the_fifo w a = Done f.
Proof using Hw0.
  intros Hs E. destruct (static_fifo w a f Hs E) as (f0 & E0 & (Ec & _)%skel_fields).
  destruct (wo_fifo Hw0 a f0 E0) as (_ & Em & _). unfold the_fifo, get_fifo, XDP2_FIFO_CHECK_MAGIC. rewrite E. orun.
  rewrite Ec, Em. done.
Qed.

Lemma get_fifo_ok w a f : w_fifos w !! a = Some f -> get_fifo w a = Done f.
Proof. intros E. unfold get_fifo. by rewrite E. Qed.

Lemma bound_fun s a ga num ga' num' : bound s a ga num -> bound s a ga' num' -> ga = ga' /\ num = num'.
Proof. intros (f & E & _ & H) (f' & E' & _ & H'). rewrite E in E'. injection E' as <-. rewrite H in H'. by injection H'. Qed.

(** The poll information of a FIFO: unbound, or bound to a group that is there. *)
Lemma fifo_poll w a f s :
  static w -> w_fifos w !! a = Some f ->
  (poll_group (sel s f) = 0 /\ forall ga num, ~ bound s a ga num) \/
  (poll_group (sel s f) <> 0 /\ exists ga g, poll_ref xl (sel s f) = Done (ga, poll_num (sel s f)) /\
     bound s a ga (poll_num (sel s f)) /\ w_groups w !! ga = Some g /\ 0 <= poll_num (sel s f) < 128 /\
     group_magic (gconf g) = XDP2_POLL_GROUP_MAGIC_NUM /\ group_cond (gconf g) <> 0).
Proof using Hw0.
  intros Hs E. destruct (static_fifo w a f Hs E) as (f0 & E0 & Hk). rewrite (skel_sel _ _ s Hk).
  destruct (decide (poll_group (sel s f0) = 0)) as [H0 | H0]; [left | right]; (split; [done |]).
  - intros ga num (f1 & E1 & H1 & _). rewrite E0 in E1. injection E1 as <-. done.
  - destruct (wo_poll Hw0 s a f0 E0 H0) as (ga & g0 & Er & Eg0 & Hn).
    destruct (static_group w ga g0 Hs Eg0) as (g & Eg & Ec). destruct (wo_group Hw0 ga g0 Eg0) as (Hm & Hc & _).
    exists ga, g. rewrite Ec. split_and!; try done; try lia. by exists f0.
Qed.

(** ** Tokens *)

Lemma pending_upd s toks a i t t' :
  toks !! i = Some t -> (pend s t = Some a -> pend s t' = Some a) -> pending s toks a -> pending s (<[i := t']> toks) a.
Proof.
  intros Hi H (j & u & Hj & Hu). destruct (decide (i = j)) as [<- | Hne].
  - exists i, t'. rewrite list_lookup_insert_eq by (by eapply lookup_lt_Some). split; [done |]. apply H. congruence.
  - exists j, u. by rewrite list_lookup_insert_ne.
Qed.

Lemma lookup_insert_tok (toks : list tok) i t t' j u :
  toks !! i = Some t -> <[i := t']> toks !! j = Some u -> (j = i /\ u = t') \/ (j <> i /\ toks !! j = Some u).
Proof.
  intros Hi Hj. destruct (decide (i = j)) as [<- | Hne].
  - rewrite list_lookup_insert_eq in Hj by (by eapply lookup_lt_Some). injection Hj as <-. by left.
  - rewrite list_lookup_insert_ne in Hj by done. right. split; [congruence | done].
Qed.

(** The FIFO needs no thread for this side. *)
Definition settled (w : fworld) (s : side) (a : Z) : Prop :=
  tracked s a -> forall f ga g num, w_fifos w !! a = Some f -> bound s a ga num -> w_groups w !! ga = Some g ->
    gbit (fifos_mask g) num = true -> want s f = true -> gbit (fifos_ready g) num = true.

(** A change of the token of a thread. *)
Lemma inv_token bs w toks qs i t t' :
  inv_at bs w toks qs -> toks !! i = Some t -> t_abs t' = t_abs t ->
  (forall s a, pend s t = Some a -> pend s t' = Some a \/ settled w s a) ->
  (forall a, t_full t' = Some a -> t_full t = Some a \/
     (enqs i a /\ forall f, single a -> w_fifos w !! a = Some f -> queue_full (ring f) = true \/ low f)) ->
  inv_at bs w (<[i := t']> toks) qs.
Proof.
  intros [Hs Hg Hr Ha Hrdy Hf] Hi Eabs Hp Hfull. split; try done.
  - rewrite list_fmap_insert, Eabs, list_insert_id; [done |]. rewrite list_lookup_fmap, Hi. done.
  - intros s a f ga g num Ht Ef Hb Eg Hm Hwant. destruct (Hrdy s a f ga g num Ht Ef Hb Eg Hm Hwant) as [H | H]; [by left |].
    destruct (decide (pend s t = Some a)) as [Hpa | Hpa].
    + destruct (Hp s a Hpa) as [Hp' | Hset]; [right; by eapply pending_upd | left; by eapply Hset].
    + right. by eapply pending_upd.
  - intros j u a Hj Hu. destruct (lookup_insert_tok toks i t t' j u Hi Hj) as [[-> ->] | [Hne Hj']]; [| by eapply Hf].
    destruct (Hfull a Hu) as [H | H]; [by eapply Hf | done].
Qed.

(** A change of a poll group. *)
Lemma inv_group bs w toks qs ga g g' :
  inv_at bs w toks qs -> w_groups w !! ga = Some g -> gconf g' = gconf g -> group_fits g' ->
  (forall s a f num, tracked s a -> w_fifos w !! a = Some f -> bound s a ga num -> gbit (fifos_mask g') num = true ->
     want s f = true -> (gbit (fifos_mask g) num = true -> gbit (fifos_ready g) num = true \/ pending s toks a) ->
     gbit (fifos_ready g') num = true \/ pending s toks a) ->
  inv_at bs (put_group ga g' w) toks qs.
Proof.
  intros [Hs Hg Hr Ha Hrdy Hf] Eg Ec Hfit H. split; try done.
  - destruct Hs as [H1 H2 H3 H4]. split; try done. intros ga'. cbn. destruct (decide (ga = ga')) as [<- | Hne].
    + rewrite lookup_insert_eq, <- H2, Eg. cbn. by rewrite Ec.
    + by rewrite lookup_insert_ne.
  - intros ga' g1. cbn. destruct (decide (ga = ga')) as [<- | Hne].
    + rewrite lookup_insert_eq. by intros [= <-].
    + rewrite lookup_insert_ne by done. apply Hg.
  - intros s a f ga' g1 num Ht Ef Hb Eg1 Hm Hwant. cbn in Ef, Eg1. destruct (decide (ga = ga')) as [<- | Hne].
    + rewrite lookup_insert_eq in Eg1. injection Eg1 as <-. eapply H; try done. intros Hm'. by eapply Hrdy.
    + rewrite lookup_insert_ne in Eg1 by done. by eapply Hrdy.
Qed.

(** Only counters and statistics have changed. *)
Definition fifo_same (f f' : xdp2_fifo) : Prop := skel f' = skel f /\ ring f' = ring f.

Lemma fifo_same_num f f' : fifo_same f f' -> xdp2_fifo_sw_num_in_queue f' = xdp2_fifo_sw_num_in_queue f.
Proof. intros [(Ec & _)%skel_fields Er]. unfold xdp2_fifo_sw_num_in_queue. by rewrite Ec, Er. Qed.

Lemma fifo_same_want f f' s : fifo_same f f' -> want s f' = want s f.
Proof. intros [_ Er]. unfold want, xdp2_fifo_sw_is_empty. by rewrite Er. Qed.

Definition world_same (w w' : fworld) : Prop :=
  (forall a, option_Forall2 fifo_same (w_fifos w !! a) (w_fifos w' !! a)) /\ w_groups w' = w_groups w /\
  (forall sa, is_Some (w_stats w !! sa) -> is_Some (w_stats w' !! sa)) /\
  (forall sa, is_Some (w_gstats w !! sa) -> is_Some (w_gstats w' !! sa)).

Lemma world_same_fifo w w' a f' :
  world_same w w' -> w_fifos w' !! a = Some f' -> exists f, w_fifos w !! a = Some f /\ fifo_same f f'.
Proof. intros [H _] E. specialize (H a). rewrite E in H. inversion H as [x y Hxy E1 E2 |]; subst. by exists x. Qed.

Lemma inv_same bs w w' toks qs : inv_at bs w toks qs -> world_same w w' -> inv_at bs w' toks qs.
Proof.
  intros [Hs Hg Hr Ha Hrdy Hf] Hw. pose proof Hw as (Hfs & Egs & Hst & Hgs). split; try done.
  - destruct Hs as [H1 H2 H3 H4]. split; [| by rewrite Egs | intros sa H; by apply Hst, H3 | intros sa H; by apply Hgs, H4].
    intros a. rewrite <- H1. destruct (Hfs a) as [f f' [Hk _] |]; [| done]. cbn. by rewrite Hk.
  - intros ga g. rewrite Egs. apply Hg.
  - intros a f' E'. destruct (world_same_fifo w w' a f' Hw E') as (f & E & (Hc & _)%skel_fields & Er).
    destruct (Hr a f E) as (q & Eq & Hq). exists q. by rewrite Hc, Er.
  - intros s a f' ga g num Ht E' Hb Eg Hm Hwant. destruct (world_same_fifo w w' a f' Hw E') as (f & E & Hsame).
    rewrite (fifo_same_want f f' s Hsame) in Hwant. rewrite Egs in Eg. by eapply Hrdy.
  - intros i t a Hi Hfull. destruct (Hf i t a Hi Hfull) as [He H]. split; [done |]. intros f' Hsg E'.
    destruct (world_same_fifo w w' a f' Hw E') as (f & E & Hsame). destruct (H f Hsg E) as [H' | (n & Hn & Hl)].
    + left. destruct Hsame as [_ ->]. done.
    + right. exists n. rewrite (fifo_same_num f f' Hsame). destruct Hsame as [(-> & _)%skel_fields _]. done.
Qed.

(** An operation that the abstract machine does on its queues, at [a] the same
    one as the ring. *)
Lemma inv_ring b w toks qs i t a f r q q' o ops rs :
  inv_at (i, b) w toks qs -> toks !! i = Some t -> w_fifos w !! a = Some f -> qs !! a = Some q ->
  ring_ok (conf f) r q' -> snd (t_abs t) = o :: ops -> abs_op cap qs o rs (<[a := q']> qs) ->
  (forall s, tracked s a -> want s (set_ring r f) = true -> want s f = true \/ pending s toks a) ->
  (forall j u, toks !! j = Some u -> t_full u = Some a -> single a -> queue_full r = true \/ low (set_ring r f)) ->
  inv_at (i, b) (put_fifo a (set_ring r f) w) (<[i := advance rs t]> toks) (<[a := q']> qs).
Proof.
  intros [Hs Hg Hr Ha Hrdy Hf] Hi Ef Eq Hr' Et Habs Hwant Hfull. split; try done.
  - destruct Hs as [H1 H2 H3 H4]. split; try done. intros a'. cbn. destruct (decide (a = a')) as [<- | Hne].
    + rewrite lookup_insert_eq, <- H1, Ef. done.
    + by rewrite lookup_insert_ne.
  - intros a' f'. cbn. destruct (decide (a = a')) as [<- | Hne].
    + rewrite lookup_insert_eq. intros [= <-]. exists q'. rewrite lookup_insert_eq. done.
    + rewrite lookup_insert_ne by done. intros E'. destruct (Hr a' f' E') as (q1 & E1 & H1). exists q1.
      by rewrite lookup_insert_ne.
  - eapply rtc_r; [exact Ha |]. rewrite list_fmap_insert. unfold advance. cbn [t_abs]. destruct (t_abs t) as [d os] eqn:Ed.
    cbn [fst snd] in *. subst os. eapply abs_step_op; [| exact Habs]. rewrite list_lookup_fmap, Hi. cbn. by rewrite Ed.
  - assert (forall s a', pending s toks a' -> pending s (<[i := advance rs t]> toks) a') as Hpend.
    { intros s a' Hb. eapply pending_upd; [exact Hi | | exact Hb]. by destruct s. }
    intros s a' f' ga g num Ht E' Hb Eg Hm Hw. cbn in E', Eg. destruct (decide (a = a')) as [<- | Hne].
    + rewrite lookup_insert_eq in E'. injection E' as <-. destruct (Hwant s Ht Hw) as [H | H]; [| right; by apply Hpend].
      destruct (Hrdy s a f ga g num Ht Ef Hb Eg Hm H) as [H' | H']; [by left | right; by apply Hpend].
    + rewrite lookup_insert_ne in E' by done.
      destruct (Hrdy s a' f' ga g num Ht E' Hb Eg Hm Hw) as [H' | H']; [by left | right; by apply Hpend].
  - intros j u a' Hj Hu.
    assert (exists u0, toks !! j = Some u0 /\ t_full u0 = Some a') as (u0 & Hj0 & Hu0).
    { destruct (lookup_insert_tok toks i t _ j u Hi Hj) as [[-> ->] | [_ Hj']]; by eexists. }
    destruct (Hf j u0 a' Hj0 Hu0) as [He H]. split; [done |]. intros f' Hsg E'. cbn in E'.
    destruct (decide (a = a')) as [<- | Hne].
    + rewrite lookup_insert_eq in E'. injection E' as <-. by eapply Hfull.
    + rewrite lookup_insert_ne in E' by done. by apply H.
Qed.

(** An operation that leaves the abstract queues alone. *)
Lemma inv_abs_only b w toks qs i t o ops rs :
  inv_at (i, b) w toks qs -> toks !! i = Some t -> snd (t_abs t) = o :: ops -> abs_op cap qs o rs qs ->
  inv_at (i, b) w (<[i := advance rs t]> toks) qs.
Proof.
  intros [Hs Hg Hr Ha Hrdy Hf] Hi Et Habs. split; try done.
  - eapply rtc_r; [exact Ha |]. rewrite list_fmap_insert. unfold advance. cbn [t_abs]. destruct (t_abs t) as [d os] eqn:Ed.
    cbn [fst snd] in *. subst os. eapply abs_step_op; [| exact Habs]. rewrite list_lookup_fmap, Hi. cbn. by rewrite Ed.
  - intros s a f ga g num Ht Ef Hb Eg Hm Hw. destruct (Hrdy s a f ga g num Ht Ef Hb Eg Hm Hw) as [H | H]; [by left |].
    right. eapply pending_upd; [exact Hi | | exact H]. by destruct s.
  - intros j u a Hj Hu. destruct (lookup_insert_tok toks i t _ j u Hi Hj) as [[-> ->] | [_ Hj']]; by eapply Hf.
Qed.
End Spec.
