(* ===== verification/FifoInv.v ===== *)
(** * FIFOs: every section keeps the invariant

    Rules for sections, then the readiness functions of [fifo.h], run by one
    thread between arbitrary sections of others. *)

From stdpp Require Import base list gmap relations numbers.
From S2P Require Import Prelude ObjAlloc BitmapWord Bitmap BitmapSpec BitmapOps BitmapTwo BitmapProps Conc Fifo FifoSpec.

(** ** Bits of poll groups *)

Lemma word64 : word_bits 64.
Proof. unfold word_bits. lia. Qed.

Lemma words_bits m : words_ok m -> 64 * bm_words m = 128.
Proof. intros [_ E]. unfold bm_words. rewrite E. done. Qed.

Lemma bitmap64_set_ok m i :
  words_ok m -> 0 <= i < 128 ->
  exists m', bitmap64_set m i = Done m' /\ words_ok m' /\
    forall j, 0 <= j < 128 -> gbit m' j = if j =? i then true else gbit m j.
Proof.
  intros Hm Hi. pose proof (words_bits m Hm) as Hb. pose proof Hm as [Hok Hl].
  destruct (bit_set_upd (w := 64) (conv := fun v => v) (nw := 0) word64 m i Hok ltac:(lia)) as (m' & E & Hok' & Hl' & Hu).
  exists m'. split; [exact E |]. split; [split; [done | congruence] |]. intros j Hj. unfold gbit. rewrite Hu by lia.
  destruct (Z.eqb_spec j i), (Z.leb_spec i j), (Z.ltb_spec j (i + 1)); cbn; (done || lia).
Qed.

Lemma bitmap64_unset_ok m i :
  words_ok m -> 0 <= i < 128 ->
  exists m', bitmap64_unset m i = Done m' /\ words_ok m' /\
    forall j, 0 <= j < 128 -> gbit m' j = if j =? i then false else gbit m j.
Proof.
  intros Hm Hi. pose proof (words_bits m Hm) as Hb. pose proof Hm as [Hok Hl].
  destruct (bit_unset_upd (w := 64) (conv := fun v => v) (nw := 0) word64 m i Hok ltac:(lia)) as (m' & E & Hok' & Hl' & Hu).
  exists m'. split; [exact E |]. split; [split; [done | congruence] |]. intros j Hj. unfold gbit. rewrite Hu by lia.
  destruct (Z.eqb_spec j i), (Z.leb_spec i j), (Z.ltb_spec j (i + 1)); cbn; (done || lia).
Qed.

Lemma bitmap64_isset_ok m i : words_ok m -> 0 <= i < 128 -> bitmap64_isset m i = Done (gbit m i).
Proof.
  intros Hm Hi. pose proof (words_bits m Hm) as Hb. pose proof Hm as [Hok Hl].
  apply (bit_isset_ok (w := 64) (conv := fun v => v) (nw := 0) word64 m i Hok). lia.
Qed.

Section Inv.
Context (xl : list xdp2_addr_xlat) (w0 : fworld) (qs0 : queues) (scripts : list (list op)).
Context (Hw0 : world_ok xl w0 qs0).
Abbreviation inv_at := (inv_at xl w0 scripts).
Abbreviation wp := (wpc (Inv xl w0 scripts) (abs_rel w0)).
Abbreviation bound := (bound xl w0).
Abbreviation settled := (settled xl w0 scripts).
Abbreviation pending := FifoSpec.pending.

(** ** Rules *)

Lemma wp_seq {B C} i (p : prog fworld B) (k : B -> prog fworld C) Q R t :
  wp i p Q t -> (forall b t', Q b t' -> wp i (k b) R t') -> wp i (p ≫= k) R t.
Proof. apply wpc_bind. Qed.

Lemma wp_unit {B C} i (p : prog fworld B) (k : B -> prog fworld C) R t t' :
  wp i p (fun _ u => u = t') t -> (forall b, wp i (k b) R t') -> wp i (p ≫= k) R t.
Proof. intros H1 H2. eapply wp_seq; [exact H1 |]. cbn. by intros b u ->. Qed.

Lemma wp_sect {B} i (f : fworld -> outcome (fworld * B)) Q t :
  (forall bs w toks qs, inv_at (i, bs) w toks qs -> toks !! i = Some t ->
     exists w' b t' qs', f w = Done (w', b) /\ inv_at (i, bs) w' (<[i := t']> toks) qs' /\ Q b t') ->
  wp i (sect f) Q t.
Proof.
  intros H w toks qs Hi Ht. destruct (H _ w toks qs (inv_begin _ _ _ i _ _ _ Hi) Ht) as (w' & b & t' & qs' & E & Hi' & HQ).
  exists w', b, t', qs'. split; [done |]. apply inv_end in Hi' as [? ?]. done.
Qed.

Lemma wp_wait {B} i c (f : fworld -> outcome (fworld * option B)) Q t :
  (forall bs w toks qs, inv_at (i, bs) w toks qs -> toks !! i = Some t ->
     exists w' r t' qs', f w = Done (w', r) /\ inv_at (i, bs) w' (<[i := t']> toks) qs' /\
       match r with None => t' = t | Some b => Q b t' end) ->
  wp i (wait_loop c f) Q t.
Proof.
  intros H w toks qs Hi Ht. destruct (H _ w toks qs (inv_begin _ _ _ i _ _ _ Hi) Ht) as (w' & r & t' & qs' & E & Hi' & HQ).
  exists w', r, t', qs'. split; [done |]. apply inv_end in Hi' as [? ?]. done.
Qed.

(** The thread keeps its token. *)
Lemma wp_sect_same {B} i (f : fworld -> outcome (fworld * B)) Q t :
  (forall bs w toks qs, inv_at (i, bs) w toks qs -> toks !! i = Some t ->
     exists w' b, f w = Done (w', b) /\ inv_at (i, bs) w' toks qs /\ Q b t) ->
  wp i (sect f) Q t.
Proof.
  intros H. apply wp_sect. intros bs w toks qs Hi Ht. destruct (H bs w toks qs Hi Ht) as (w' & b & E & Hi' & HQ).
  exists w', b, t, qs. by rewrite list_insert_id.
Qed.

Lemma wp_read {B} i (h : fworld -> outcome B) Q t :
  (forall bs w toks qs, inv_at (i, bs) w toks qs -> toks !! i = Some t ->
     exists b t', h w = Done b /\ inv_at (i, bs) w (<[i := t']> toks) qs /\ Q b t') ->
  wp i (read h) Q t.
Proof.
  intros H. apply wp_sect. intros bs w toks qs Hi Ht. destruct (H bs w toks qs Hi Ht) as (b & t' & E & Hi' & HQ).
  exists w, b, t', qs. by rewrite E.
Qed.

Lemma wp_read_same {B} i (h : fworld -> outcome B) Q t :
  (forall bs w toks qs, inv_at (i, bs) w toks qs -> toks !! i = Some t -> exists b, h w = Done b /\ Q b t) -> wp i (read h) Q t.
Proof.
  intros H. apply wp_read. intros bs w toks qs Hi Ht. destruct (H bs w toks qs Hi Ht) as (b & E & HQ).
  exists b, t. by rewrite list_insert_id.
Qed.

Lemma wp_modify_same i (h : fworld -> outcome fworld) t :
  (forall bs w toks qs, inv_at (i, bs) w toks qs -> toks !! i = Some t -> exists w', h w = Done w' /\ inv_at (i, bs) w' toks qs) ->
  wp i (modify h) (fun _ u => u = t) t.
Proof.
  intros H. apply wp_sect_same. intros bs w toks qs Hi Ht. destruct (H bs w toks qs Hi Ht) as (w' & E & Hi').
  exists w', tt. by rewrite E.
Qed.

Lemma wp_signal i c t : wp i (signal c) (fun _ u => u = t) t.
Proof. done. Qed.

(** Condition variables are there. *)
Lemma wp_cond_signal i h t :
  (forall bs w toks qs, inv_at (i, bs) w toks qs -> exists c, h w = Done c /\ c <> 0) ->
  wp i (cond_signal h) (fun _ u => u = t) t.
Proof.
  intros H. unfold cond_signal. eapply wp_unit; [| intros c; apply wp_signal].
  apply wp_read_same. intros bs w toks qs Hi Ht. destruct (H bs w toks qs Hi) as (c & -> & Hc). exists c. orun.
  destruct (Z.eqb_spec c 0); done.
Qed.

(** ** Statistics *)

Lemma fifo_there {bs} w toks qs a : inv_at bs w toks qs -> is_Some (w_fifos w0 !! a) -> exists f, w_fifos w !! a = Some f.
Proof.
  intros Hi [f0 E0]. destruct (static_fifo_inv w0 w a f0 (inv_static _ _ _ _ _ _ _ Hi) E0) as (f & E & _). by exists f.
Qed.

Lemma upd_stats_ok {bs} w toks qs a f h :
  inv_at bs w toks qs -> w_fifos w !! a = Some f ->
  exists w', upd_stats xl a h w = Done w' /\ inv_at bs w' toks qs /\ w_fifos w' = w_fifos w /\ w_groups w' = w_groups w.
Proof using Hw0.
  intros Hi E. pose proof (inv_static _ _ _ _ _ _ _ Hi) as Hs. destruct (static_fifo w0 w a f Hs E) as (f0 & E0 & (Ec & _)%skel_fields).
  destruct (wo_fifo _ _ _ Hw0 a f0 E0) as (_ & _ & Hst). rewrite <- Ec in Hst. unfold upd_stats. rewrite (get_fifo_ok _ _ _ E). orun.
  destruct (Z.eqb_spec (fifo_stats (conf f)) 0) as [Hz | Hz]; [by exists w |].
  destruct Hst as [Hst | (sa & Ex & Hsa)]; [done |]. rewrite Ex. orun.
  destruct (sta_stats _ _ Hs sa Hsa) as [st Est]. rewrite Est. eexists. split; [done |]. split; [| done].
  eapply inv_same; [exact Hi |]. split; [| split; [done | split; [| done]]].
  - intros b. cbn. destruct (w_fifos w !! b); constructor. done.
  - intros sb Hb. cbn. destruct (decide (sa = sb)) as [<- | Hne]; [by rewrite lookup_insert_eq | by rewrite lookup_insert_ne].
Qed.

Lemma bump_prod_ok {bs} w toks qs a f c :
  inv_at bs w toks qs -> w_fifos w !! a = Some f ->
  exists w', __XDP2_FIFO_BUMP_PROD_COUNT xl a c w = Done w' /\ inv_at bs w' toks qs /\ w_fifos w' = w_fifos w.
Proof using Hw0.
  intros Hi E. edestruct (upd_stats_ok (bs := bs) w toks qs a f) as (w' & E' & ? & ? & _); [done | done |].
  exists w'. split; [exact E' | done].
Qed.

Lemma bump_cons_ok {bs} w toks qs a f c :
  inv_at bs w toks qs -> w_fifos w !! a = Some f ->
  exists w', __XDP2_FIFO_BUMP_CONS_COUNT xl a c w = Done w' /\ inv_at bs w' toks qs /\ w_fifos w' = w_fifos w.
Proof using Hw0.
  intros Hi E. edestruct (upd_stats_ok (bs := bs) w toks qs a f) as (w' & E' & ? & ? & _); [done | done |].
  exists w'. split; [exact E' | done].
Qed.

Lemma upd_counts_ok {bs} w toks qs a f h :
  inv_at bs w toks qs -> w_fifos w !! a = Some f ->
  exists w' f', upd_counts a h w = Done w' /\ inv_at bs w' toks qs /\ w_fifos w' !! a = Some f' /\ fifo_same f f'.
Proof.
  intros Hi E. unfold upd_counts. rewrite (get_fifo_ok _ _ _ E). orun. eexists _, _. split; [done |].
  split_and!; [| by apply lookup_insert_eq | done]. eapply inv_same; [exact Hi |]. split; [| done].
  intros b. cbn. destruct (decide (a = b)) as [<- | Hne].
  - rewrite lookup_insert_eq, E. by constructor.
  - rewrite lookup_insert_ne by done. destruct (w_fifos w !! b); by constructor.
Qed.

Lemma bump_group_ok {bs} w toks qs ga g c :
  inv_at bs w toks qs -> w_groups w !! ga = Some g ->
  exists w', __XDP2_FIFO_POLL_GROUP_BUMP_COUNT xl ga c w = Done w' /\ inv_at bs w' toks qs.
Proof using Hw0.
  intros Hi E. pose proof (inv_static _ _ _ _ _ _ _ Hi) as Hs. pose proof (sta_group _ _ Hs ga) as Hg. rewrite E in Hg. cbn in Hg.
  destruct (w_groups w0 !! ga) as [g0 |] eqn:E0; [| done]. apply (inj Some) in Hg.
  destruct (wo_group _ _ _ Hw0 ga g0 E0) as (_ & _ & _ & Hst). rewrite <- Hg in Hst.
  unfold __XDP2_FIFO_POLL_GROUP_BUMP_COUNT, get_group. rewrite E. orun.
  destruct (Z.eqb_spec (group_stats (gconf g)) 0) as [Hz | Hz]; [by exists w |].
  destruct Hst as [Hst | (sa & Ex & Hsa)]; [done |]. rewrite Ex. orun.
  destruct (sta_gstats _ _ Hs sa Hsa) as [st Est]. rewrite Est. eexists. split; [done |].
  eapply inv_same; [exact Hi |]. split; [| split; [done | split; [done |]]].
  - intros b. cbn. destruct (w_fifos w !! b); constructor. done.
  - intros sb Hb. cbn. destruct (decide (sa = sb)) as [<- | Hne]; [by rewrite lookup_insert_eq | by rewrite lookup_insert_ne].
Qed.

Lemma wp_upd_stats i a h t :
  is_Some (w_fifos w0 !! a) -> wp i (modify (upd_stats xl a h)) (fun _ u => u = t) t.
Proof using Hw0.
  intros Ha. apply wp_modify_same. intros bs w toks qs Hi _. destruct (fifo_there w toks qs a Hi Ha) as [f E].
  destruct (upd_stats_ok w toks qs a f h Hi E) as (w' & E' & Hi' & _). by exists w'.
Qed.

Lemma wp_upd_counts i a h t : is_Some (w_fifos w0 !! a) -> wp i (modify (upd_counts a h)) (fun _ u => u = t) t.
Proof.
  intros Ha. apply wp_modify_same. intros bs w toks qs Hi _. destruct (fifo_there w toks qs a Hi Ha) as [f E].
  destruct (upd_counts_ok w toks qs a f h Hi E) as (w' & f' & E' & Hi' & _). by exists w'.
Qed.

(** ** Tokens in one section *)

Lemma pend_set s s' o t : pend s (set_pend s' o t) = if decide (s = s') then o else pend s t.
Proof. by destruct s, s'. Qed.

(** Taking responsibility for a FIFO is always possible. *)
Lemma take_pend {bs} w toks qs i t s a :
  inv_at bs w toks qs -> toks !! i = Some t -> pend s t = None \/ pend s t = Some a ->
  inv_at bs w (<[i := set_pend s (Some a) t]> toks) qs.
Proof.
  intros Hi Ht Hp. eapply inv_token; [exact Hi | exact Ht | by destruct s | | by destruct s; left].
  intros s' b Hb. left. rewrite pend_set. case_decide; [subst; destruct Hp; congruence | done].
Qed.

(** It ends when the FIFO is settled. *)
Lemma drop_pend {bs} w toks qs i t s a :
  inv_at bs w toks qs -> toks !! i = Some t -> pend s t = None \/ pend s t = Some a -> settled w s a ->
  inv_at bs w (<[i := set_pend s None t]> toks) qs.
Proof.
  intros Hi Ht Hp Hset. eapply inv_token; [exact Hi | exact Ht | by destruct s | | by destruct s; left].
  intros s' b Hb. rewrite pend_set. case_decide; [subst; right; destruct Hp; [congruence |] | by left].
  assert (a = b) as <- by congruence. done.
Qed.

(** ** Readiness functions *)

Lemma set_pend_id s o t : pend s t = o -> set_pend s o t = t.
Proof. destruct t, s; cbn; by intros <-. Qed.

(** The group a FIFO is bound to. *)
Lemma bound_group {bs} w toks qs s a ga num :
  inv_at bs w toks qs -> bound s a ga num ->
  exists g, w_groups w !! ga = Some g /\ 0 <= num < 128 /\ group_magic (gconf g) = XDP2_POLL_GROUP_MAGIC_NUM /\
    group_cond (gconf g) <> 0 /\ group_fits g.
Proof using Hw0.
  intros Hi Hb. pose proof Hb as (f0 & E0 & Hp & Er). destruct (fifo_there w toks qs a Hi ltac:(by eexists)) as [f E].
  destruct (fifo_poll xl w0 qs0 Hw0 w a f s (inv_static _ _ _ _ _ _ _ Hi) E)
    as [[_ Hnb] | (_ & ga' & g & _ & Hb' & Eg & Hn & Hm & Hc)]; [by apply Hnb in Hb |].
  destruct (bound_fun xl w0 s a ga num ga' _ Hb Hb') as [<- ->]. exists g.
  pose proof (inv_groups _ _ _ _ _ _ _ Hi ga g Eg). done.
Qed.

Lemma check_magic g : group_magic (gconf g) = XDP2_POLL_GROUP_MAGIC_NUM -> XDP2_POLL_GROUP_CHECK_MAGIC g = Done tt.
Proof. intros E. unfold XDP2_POLL_GROUP_CHECK_MAGIC. by rewrite E. Qed.

(** Changes of one bit of a group. [others]: FIFOs bound to other numbers. *)
Lemma inv_set_ready {bs} w toks qs ga g num m' :
  inv_at bs w toks qs -> w_groups w !! ga = Some g -> words_ok m' ->
  (forall j, 0 <= j < 128 -> gbit m' j = if j =? num then true else gbit (fifos_ready g) j) ->
  inv_at bs (put_group ga (set_fifos_ready m' g) w) toks qs.
Proof using Hw0.
  intros Hi Eg Hm' Hbits. pose proof (inv_groups _ _ _ _ _ _ _ Hi ga g Eg) as (Hrw & Hmw & Hsp).
  eapply inv_group; [exact Hi | exact Eg | done | done |]. intros s a f j Ht Ef Hb Hmask Hwant Hold.
  cbn [fifos_mask fifos_ready set_fifos_ready] in *. destruct (Hold Hmask) as [H | H]; [left | by right].
  destruct (bound_group w toks qs s a ga j Hi Hb) as (_ & _ & Hj & _). rewrite Hbits by done. by destruct (_ =? _).
Qed.

Lemma inv_unset_ready {bs} w toks qs s a ga g num m' :
  inv_at bs w toks qs -> w_groups w !! ga = Some g -> words_ok m' -> bound s a ga num -> pending s toks a ->
  (forall j, 0 <= j < 128 -> gbit m' j = if j =? num then false else gbit (fifos_ready g) j) ->
  inv_at bs (put_group ga (set_fifos_ready m' g) w) toks qs.
Proof using Hw0.
  intros Hi Eg Hm' Hb Hp Hbits. pose proof (inv_groups _ _ _ _ _ _ _ Hi ga g Eg) as (Hrw & Hmw & Hsp).
  eapply inv_group; [exact Hi | exact Eg | done | done |]. intros s' a' f j Ht Ef Hb' Hmask Hwant Hold.
  cbn [fifos_mask fifos_ready set_fifos_ready] in *. destruct (Hold Hmask) as [H | H]; [| by right].
  destruct (bound_group w toks qs s' a' ga j Hi Hb') as (_ & _ & Hj & _). rewrite Hbits by done.
  destruct (Z.eqb_spec j num) as [-> | Hne]; [right | by left].
  by destruct (wo_unique _ _ _ Hw0 s' a' s a ga num Hb' Hb) as [-> ->].
Qed.

Lemma inv_set_mask {bs} w toks qs s a ga g num m' :
  inv_at bs w toks qs -> w_groups w !! ga = Some g -> words_ok m' -> bound s a ga num -> pending s toks a ->
  (forall j, 0 <= j < 128 -> gbit m' j = if j =? num then true else gbit (fifos_mask g) j) ->
  inv_at bs (put_group ga (set_fifos_mask m' g) w) toks qs.
Proof using Hw0.
  intros Hi Eg Hm' Hb Hp Hbits. pose proof (inv_groups _ _ _ _ _ _ _ Hi ga g Eg) as (Hrw & Hmw & Hsp).
  eapply inv_group; [exact Hi | exact Eg | done | done |]. intros s' a' f j Ht Ef Hb' Hmask Hwant Hold.
  cbn [fifos_mask fifos_ready set_fifos_mask] in *.
  destruct (bound_group w toks qs s' a' ga j Hi Hb') as (_ & _ & Hj & _). rewrite Hbits in Hmask by done.
  destruct (Z.eqb_spec j num) as [-> | Hne]; [right | by apply Hold].
  by destruct (wo_unique _ _ _ Hw0 s' a' s a ga num Hb' Hb) as [-> ->].
Qed.

Lemma inv_unset_mask {bs} w toks qs ga g num m' :
  inv_at bs w toks qs -> w_groups w !! ga = Some g -> words_ok m' ->
  (forall j, 0 <= j < 128 -> gbit m' j = if j =? num then false else gbit (fifos_mask g) j) ->
  inv_at bs (put_group ga (set_fifos_mask m' g) w) toks qs.
Proof using Hw0.
  intros Hi Eg Hm' Hbits. pose proof (inv_groups _ _ _ _ _ _ _ Hi ga g Eg) as (Hrw & Hmw & Hsp).
  eapply inv_group; [exact Hi | exact Eg | done | done |]. intros s a f j Ht Ef Hb Hmask Hwant Hold.
  cbn [fifos_mask fifos_ready set_fifos_mask] in *.
  destruct (bound_group w toks qs s a ga j Hi Hb) as (_ & _ & Hj & _). rewrite Hbits in Hmask by done.
  apply Hold. by destruct (_ =? _).
Qed.

(** The part of a group that readiness does not depend on. *)
Lemma inv_group_same {bs} w toks qs ga g g' :
  inv_at bs w toks qs -> w_groups w !! ga = Some g -> gconf g' = gconf g -> fifos_ready g' = fifos_ready g ->
  fifos_mask g' = fifos_mask g -> 0 <= start_pos g' < 128 -> inv_at bs (put_group ga g' w) toks qs.
Proof.
  intros Hi Eg Ec Er Em Hp. pose proof (inv_groups _ _ _ _ _ _ _ Hi ga g Eg) as (Hrw & Hmw & Hsp).
  eapply inv_group; [exact Hi | exact Eg | done | unfold group_fits; by rewrite Er, Em |].
  intros s a f j Ht Ef Hb Hmask Hwant Hold. rewrite Er. rewrite Em in Hmask. by apply Hold.
Qed.

(** The first section of the functions below: the group a FIFO is bound to. *)
Definition ref_of (s : side) (a : Z) (t t' : tok) (r : option (Z * Z)) (u : tok) : Prop :=
  match r with None => u = t' | Some (ga, num) => u = t /\ bound s a ga num end.

Lemma ready_section {bs} w toks qs i t s a ga num :
  inv_at bs w toks qs -> toks !! i = Some t -> pend s t = None \/ pend s t = Some a -> bound s a ga num ->
  exists g g' b, w_groups w !! ga = Some g /\ ready_if_enabled num g = Done (g', b) /\
    inv_at bs (put_group ga g' w) (<[i := set_pend s None t]> toks) qs.
Proof using Hw0.
  intros Hi Ht Hp Hb. destruct (bound_group w toks qs s a ga num Hi Hb) as (g & Eg & Hn & Hm & _ & Hrw & Hmw & Hsp).
  exists g. unfold ready_if_enabled. rewrite check_magic by done. orun. rewrite bitmap64_isset_ok by done. orun.
  destruct (gbit (fifos_mask g) num) eqn:Emask.
  - unfold set_ready. destruct (bitmap64_set_ok (fifos_ready g) num Hrw Hn) as (m' & Em' & Hw' & Hbits). rewrite Em'. orun.
    exists (set_fifos_ready m' g), true. split_and!; [done .. |].
    eapply drop_pend; [by eapply inv_set_ready | exact Ht | exact Hp |]. intros _ f' ga' g' num' _ Hb1 Eg' _ _.
    destruct (bound_fun xl w0 s a _ _ _ _ Hb Hb1) as [<- <-]. cbn in Eg'. rewrite lookup_insert_eq in Eg'.
    injection Eg' as <-. cbn. rewrite Hbits by done. by rewrite Z.eqb_refl.
  - exists g, false. split_and!; [done .. |].
    eapply drop_pend; [by eapply inv_group_same | exact Ht | exact Hp |]. intros _ f' ga' g' num' _ Hb1 Eg' Hmask _.
    destruct (bound_fun xl w0 s a _ _ _ _ Hb Hb1) as [<- <-]. cbn in Eg'. rewrite lookup_insert_eq in Eg'.
    injection Eg' as <-. congruence.
Qed.

Lemma unbound_settled w s a : (forall ga num, ~ bound s a ga num) -> settled w s a.
Proof. intros Hn _ f ga g num _ Hb. by apply Hn in Hb. Qed.

Lemma make_ready_ok i s a t :
  is_Some (w_fifos w0 !! a) -> pend s t = None \/ pend s t = Some a ->
  wp i (make_ready xl a (sel s)) (fun _ u => u = set_pend s None t) t.
Proof using Hw0.
  intros Ha Hp. unfold make_ready. eapply wp_seq with (Q := ref_of s a t (set_pend s None t)).
  { apply wp_read. intros bs w toks qs Hi Ht. destruct (fifo_there w toks qs a Hi Ha) as [f E].
    rewrite (get_fifo_ok _ _ _ E). orun.
    destruct (fifo_poll xl w0 qs0 Hw0 w a f s (inv_static _ _ _ _ _ _ _ Hi) E)
      as [[H0 Hnb] | (H0 & ga & g & Er & Hb & Eg & Hn & _)].
    - rewrite H0. exists None, (set_pend s None t). split_and!; [done | | done].
      eapply drop_pend; [exact Hi | exact Ht | exact Hp |]. by apply unbound_settled.
    - destruct (Z.eqb_spec (poll_group (sel s f)) 0); [done |]. rewrite Er. orun.
      exists (Some (ga, poll_num (sel s f))), t. split; [done |]. split; [by rewrite list_insert_id | done]. }
  intros [[ga num] |] u; [| done]. intros (-> & Hb). eapply wp_unit.
  - apply wp_sect with (Q := fun _ u => u = set_pend s None t). intros bs w toks qs Hi Ht.
    destruct (ready_section w toks qs i t s a ga num Hi Ht Hp Hb) as (g & g' & b & Eg & Er & Hi').
    unfold get_group. rewrite Eg. orun. rewrite Er. by eexists _, b, _, qs.
  - intros [|]; [| done]. apply wp_cond_signal. intros bs w toks qs Hi.
    destruct (bound_group w toks qs s a ga num Hi Hb) as (g & Eg & _ & _ & Hc & _). unfold get_group. rewrite Eg. by eexists.
Qed.

(** [xdp2_fifo_make_readable] and [xdp2_fifo_make_writable]. *)
Definition make_side (s : side) (a : Z) : prog fworld unit :=
  match s with Rd => xdp2_fifo_make_readable xl a | Wr => xdp2_fifo_make_writable xl a end.

Lemma wp_fifo_field {B} i a (h : xdp2_fifo -> B) t :
  is_Some (w_fifos w0 !! a) -> wp i (read (fun w => f ← get_fifo w a; mret (h f))) (fun _ u => u = t) t.
Proof.
  intros Ha. apply wp_read_same. intros bs w toks qs Hi Ht. destruct (fifo_there w toks qs a Hi Ha) as [f E].
  rewrite (get_fifo_ok _ _ _ E). by eexists.
Qed.

(** A condition variable of a FIFO that is signalled if there is one. *)
Lemma wp_signal_if i a c0 (h : xdp2_fifo -> Z) t :
  is_Some (w_fifos w0 !! a) -> (forall f f0, skel f = skel f0 -> h f = h f0) ->
  (exists f0, w_fifos w0 !! a = Some f0 /\ c0 = h f0) ->
  wp i (if c0 =? 0 then mret tt else cond_signal (fun w => f ← get_fifo w a; mret (h f))) (fun _ u => u = t) t.
Proof.
  intros Ha Hh (f0 & E0 & ->). destruct (Z.eqb_spec (h f0) 0); [done |]. apply wp_cond_signal. intros bs w toks qs Hi.
  destruct (fifo_there w toks qs a Hi Ha) as [f E].
  destruct (static_fifo w0 w a f (inv_static _ _ _ _ _ _ _ Hi) E) as (f1 & E1 & Hk). rewrite E0 in E1. injection E1 as <-.
  rewrite (get_fifo_ok _ _ _ E). exists (h f). split; [done |]. by rewrite (Hh _ _ Hk).
Qed.

Lemma wp_read_cond i a (get : fworld -> Z -> outcome xdp2_fifo) (h : xdp2_fifo -> Z) t :
  (forall w f, static w0 w -> w_fifos w !! a = Some f -> get w a = Done f) ->
  is_Some (w_fifos w0 !! a) -> (forall f f0, skel f = skel f0 -> h f = h f0) ->
  wp i (read (fun w => f ← get w a; mret (h f))) (fun c u => u = t /\ exists f0, w_fifos w0 !! a = Some f0 /\ c = h f0) t.
Proof.
  intros Hget Ha Hh. apply wp_read_same. intros bs w toks qs Hi Ht. destruct (fifo_there w toks qs a Hi Ha) as [f E].
  pose proof (inv_static _ _ _ _ _ _ _ Hi) as Hs. rewrite (Hget w f Hs E). exists (h f). split_and!; [done .. |].
  destruct (static_fifo w0 w a f Hs E) as (f0 & E0 & Hk). exists f0. split; [done |]. by apply Hh.
Qed.

Lemma skel_consumer_cond f f0 : skel f = skel f0 -> consumer_cond f = consumer_cond f0.
Proof. by intros (_ & H & _)%skel_fields. Qed.
Lemma skel_producer_cond f f0 : skel f = skel f0 -> producer_cond f = producer_cond f0.
Proof. by intros (_ & _ & H & _)%skel_fields. Qed.

Lemma make_side_ok i s a t :
  is_Some (w_fifos w0 !! a) -> pend s t = None \/ pend s t = Some a ->
  wp i (make_side s a) (fun _ u => u = set_pend s None t) t.
Proof using Hw0.
  intros Ha Hp. destruct s; cbn [make_side].
  - eapply wp_seq; [apply wp_read_cond; [intros w f; apply (the_fifo_ok _ _ _ Hw0) | done | apply skel_consumer_cond] |].
    intros c u [-> Hc]. eapply wp_unit; [apply wp_signal_if; [done | apply skel_consumer_cond | done] |].
    intros _. by apply (make_ready_ok i Rd).
  - eapply wp_seq; [apply wp_read_cond; [intros w f; apply (the_fifo_ok _ _ _ Hw0) | done | apply skel_producer_cond] |].
    intros c u [-> Hc]. eapply wp_unit; [apply wp_signal_if; [done | apply skel_producer_cond | done] |].
    intros _. by apply (make_ready_ok i Wr).
Qed.

(** Clearing readiness makes the thread responsible for the FIFO. *)
Lemma mark_non_ready_ok i s a t :
  is_Some (w_fifos w0 !! a) -> pend s t = None \/ pend s t = Some a ->
  wp i (mark_non_ready xl a (sel s)) (fun _ u => u = set_pend s (Some a) t) t.
Proof using Hw0.
  intros Ha Hp. unfold mark_non_ready.
  eapply wp_seq with (Q := ref_of s a (set_pend s (Some a) t) (set_pend s (Some a) t)).
  { apply wp_read. intros bs w toks qs Hi Ht. destruct (fifo_there w toks qs a Hi Ha) as [f E].
    rewrite (the_fifo_ok _ _ _ Hw0 w a f (inv_static _ _ _ _ _ _ _ Hi) E). orun.
    pose proof (take_pend w toks qs i t s a Hi Ht Hp) as Hi'.
    destruct (fifo_poll xl w0 qs0 Hw0 w a f s (inv_static _ _ _ _ _ _ _ Hi) E)
      as [[H0 Hnb] | (H0 & ga & g & Er & Hb & _)].
    - rewrite H0. by exists None, (set_pend s (Some a) t).
    - destruct (Z.eqb_spec (poll_group (sel s f)) 0); [done |]. rewrite Er. orun.
      by exists (Some (ga, poll_num (sel s f))), (set_pend s (Some a) t). }
  intros [[ga num] |] u; [| done]. intros (-> & Hb). apply wp_sect_same. intros bs w toks qs Hi Ht.
  destruct (bound_group w toks qs s a ga num Hi Hb) as (g & Eg & Hn & Hm & _ & Hrw & Hmw & Hsp).
  unfold get_group, group_do, unset_ready. rewrite Eg. orun. rewrite check_magic by done. orun.
  destruct (bitmap64_unset_ok (fifos_ready g) num Hrw Hn) as (m' & -> & Hw' & Hbits). orun.
  eexists _, tt. split; [done |]. split; [| done]. eapply inv_unset_ready; try done.
  exists i, (set_pend s (Some a) t). split; [done |]. rewrite pend_set. by rewrite decide_True.
Qed.

Lemma mark_non_readable_ok i a t :
  is_Some (w_fifos w0 !! a) -> t_rd t = None \/ t_rd t = Some a ->
  wp i (xdp2_fifo_mark_non_readable xl a) (fun _ u => u = set_pend Rd (Some a) t) t.
Proof using Hw0.
  intros Ha Hp. unfold xdp2_fifo_mark_non_readable. eapply wp_unit; [| intros _; by apply (mark_non_ready_ok i Rd)].
  apply wp_read_same. intros bs w toks qs Hi Ht. destruct (fifo_there w toks qs a Hi Ha) as [f E].
  rewrite (get_fifo_ok _ _ _ E). orun.
  destruct (fifo_poll xl w0 qs0 Hw0 w a f Rd (inv_static _ _ _ _ _ _ _ Hi) E) as [[H0 _] | (_ & ga & g & Er & _)].
  - unfold poll_ref, xdp2_addr_xlat_translate. cbn [sel] in H0. rewrite H0, orb_true_r. by eexists.
  - cbn [sel] in Er. rewrite Er. by eexists.
Qed.

(** Looking again: the thread stays responsible only if the FIFO should be ready. *)
Lemma wp_recheck {B} i s a (h : xdp2_fifo -> outcome B) (Q : B -> tok -> Prop) t :
  is_Some (w_fifos w0 !! a) -> pend s t = None \/ pend s t = Some a ->
  (forall bs w toks qs f q, inv_at (i, bs) w toks qs -> toks !! i = Some t -> w_fifos w !! a = Some f ->
     config_fits (conf f) -> ring_ok (conf f) (ring f) q ->
     exists b, h f = Done b /\ (Q b t \/ ((tracked scripts s a -> want s f = false) /\ Q b (set_pend s None t)))) ->
  wp i (read (fun w => f ← get_fifo w a; h f)) Q t.
Proof using Hw0.
  intros Ha Hp H. apply wp_read. intros bs w toks qs Hi Ht. destruct (fifo_there w toks qs a Hi Ha) as [f E].
  destruct (inv_rings _ _ _ _ _ _ _ Hi a f E) as (q & _ & Hq).
  pose proof (fifo_fits _ _ _ Hw0 w a f (inv_static _ _ _ _ _ _ _ Hi) E) as Hfit.
  rewrite (get_fifo_ok _ _ _ E). orun. destruct (H bs w toks qs f q Hi Ht E Hfit Hq) as (b & Eb & [HQ | [Hw HQ]]); rewrite Eb.
  - exists b, t. by rewrite list_insert_id.
  - exists b, (set_pend s None t). split_and!; [done | | done]. eapply drop_pend; [exact Hi | exact Ht | exact Hp |].
    intros Htr f' ga g num E' _ _ _ Hwant. rewrite E in E'. injection E' as <-. rewrite Hw in Hwant; done.
Qed.

(** [xdp2_fifo_make_non_readable_after_dequeue]: whatever enqueues happen in
    between, the FIFO is settled or another thread is responsible. *)
Lemma non_readable_after_dequeue_ok i a t :
  is_Some (w_fifos w0 !! a) -> t_rd t = None ->
  wp i (xdp2_fifo_make_non_readable_after_dequeue xl a) (fun _ u => u = t) t.
Proof using Hw0.
  intros Ha Hp. unfold xdp2_fifo_make_non_readable_after_dequeue.
  eapply wp_unit; [apply mark_non_readable_ok; [done | by left] |]. intros _.
  assert (set_pend Rd None (set_pend Rd (Some a) t) = t) as Et by (destruct t; cbn in *; by subst).
  eapply wp_seq with (Q := fun (e : bool) u => u = if e then t else set_pend Rd (Some a) t).
  - eapply (wp_recheck i Rd); [done | by right |]. intros bs w toks qs f q Hi Ht E Hfit Hq.
    exists (xdp2_fifo_sw_is_empty f). split; [done |]. destruct (xdp2_fifo_sw_is_empty f) eqn:Ee; [right | by left].
    split; [| by rewrite Et]. intros _. unfold want. by rewrite Ee.
  - intros [|] u ->; [done |]. eapply wpc_mono; [apply (make_side_ok i Rd); [done | by right] |]. by intros [] u ->.
Qed.

(** After an enqueue has filled a FIFO. *)
Lemma after_full_ok i a t :
  is_Some (w_fifos w0 !! a) -> t_wr t = None -> t_full t = Some a ->
  wp i (after_full xl a) (fun _ u => u = set_full None t) t.
Proof using Hw0.
  intros Ha Hp Hf. unfold after_full. eapply wp_unit; [apply (mark_non_ready_ok i Wr); [done | by left] |]. intros _.
  set (t1 := set_pend Wr (Some a) t).
  eapply wp_seq with (Q := fun (b : bool) u => u = if b then set_full None t1 else set_full None t).
  - apply wp_read. intros bs w toks qs Hi Ht. destruct (fifo_there w toks qs a Hi Ha) as [f E].
    destruct (inv_rings _ _ _ _ _ _ _ Hi a f E) as (q & _ & Hq).
    pose proof (fifo_fits _ _ _ Hw0 w a f (inv_static _ _ _ _ _ _ _ Hi) E) as Hfit.
    rewrite (get_fifo_ok _ _ _ E). orun. rewrite (num_in_queue_ok f q Hfit Hq). orun.
    set (k := Z.of_nat (length q)). exists (k <? low_water_mark (conf f)). eexists. split; [done |]. split; [| done].
    destruct (Z.ltb_spec k (low_water_mark (conf f))) as [Hk | Hk].
    + eapply inv_token; [exact Hi | exact Ht | done | by left | done].
    + eapply inv_token; [exact Hi | exact Ht | done | | done]. intros s b Hb. destruct s; [by left |]. right.
      cbn in Hb. injection Hb as <-. intros Hsg f' ga g num E' _ _ _ Hwant. rewrite E in E'. injection E' as <-.
      destruct (inv_full _ _ _ _ _ _ _ Hi i t1 a Ht Hf) as [_ H]. destruct (H f Hsg E) as [H' | (n & Hn & Hl)].
      * cbn in Hwant. by rewrite H' in Hwant.
      * rewrite (num_in_queue_ok f q Hfit Hq) in Hn. injection Hn as <-. unfold k in Hk. lia.
  - intros [|] u ->; [| done]. eapply wpc_mono; [apply (make_side_ok i Wr); [done | by right] |].
    intros [] u ->. destruct t. cbn in *. by subst.
Qed.
End Inv.
