(* ===== verification/FifoOps.v ===== *)
(** * FIFOs: the operations of a script keep the invariant

    Enqueueing and dequeueing take effect in one section, on the ring and on the
    abstract queue. *)

From stdpp Require Import base list gmap relations numbers.
From S2P Require Import Prelude ObjAlloc BitmapWord Bitmap BitmapSpec BitmapOps BitmapTwo BitmapProps Conc Fifo FifoSpec FifoInv.

Section Ops.
Context (xl : list xdp2_addr_xlat) (w0 : fworld) (qs0 : queues) (scripts : list (list op)).
Context (Hw0 : world_ok xl w0 qs0).
Abbreviation inv_at := (inv_at xl w0 scripts).
Abbreviation wp := (wpc (Inv xl w0 scripts) (abs_rel w0)).
Abbreviation cap := (cap w0).

Lemma umod_total a n : n <> 0 -> exists m, umod a n = Done m.
Proof. intros Hn. unfold umod. destruct (Z.eqb_spec n 0); [done | by eexists]. Qed.

Lemma num_total f : num_ents (conf f) <> 0 -> exists m, xdp2_fifo_sw_num_in_queue f = Done m.
Proof. intros Hn. unfold xdp2_fifo_sw_num_in_queue. destruct (_ && _); [by eexists | by apply umod_total]. Qed.

(** Statistics that are updated or not. *)
Lemma opt_bump_ok {bs} (b : bool) w toks qs a f c :
  inv_at bs w toks qs -> w_fifos w !! a = Some f ->
  exists w', (if b then __XDP2_FIFO_BUMP_PROD_COUNT xl a c w else Done w) = Done w' /\ inv_at bs w' toks qs /\
    w_fifos w' = w_fifos w.
Proof using Hw0. intros Hi E. destruct b; [by eapply bump_prod_ok | by exists w]. Qed.

Lemma opt_bump_cons_ok {bs} (b : bool) w toks qs a f c :
  inv_at bs w toks qs -> w_fifos w !! a = Some f ->
  exists w', (if b then __XDP2_FIFO_BUMP_CONS_COUNT xl a c w else Done w) = Done w' /\ inv_at bs w' toks qs /\
    w_fifos w' = w_fifos w.
Proof using Hw0. intros Hi E. destruct b; [by eapply bump_cons_ok | by exists w]. Qed.

(** ** Enqueueing *)

(** The token after the work: pending if the queue was empty, filled if it is full. *)
Definition enq_tok (a : Z) (r : bool * bool) (t : tok) : tok :=
  Tok (t_abs t) (if fst r then Some a else None) None (if snd r then Some a else None).

Definition quiet (t : tok) : Prop := t_rd t = None /\ t_wr t = None /\ t_full t = None.

(** The ring with one more message, and the abstract step. *)
Lemma inv_enqueue {bs} w toks qs i t a f q r num msg wait ops (full : bool) :
  inv_at (i, bs) w toks qs -> toks !! i = Some t -> quiet t -> enqs scripts i a ->
  w_fifos w !! a = Some f -> qs !! a = Some q -> Z.of_nat (length q) < num_ents (conf f) ->
  snd (t_abs t) = OEnq a num msg wait :: ops ->
  ring_ok (conf f) r (q ++ [take (Z.to_nat num) msg]) -> queue_full r = (if full then true else queue_full (ring f)) ->
  exists qs', inv_at (i, bs) (put_fifo a (set_ring r f) w)
    (<[i := enq_tok a (Z.of_nat (length q) =? 0, full) (advance (REnq true) t)]> toks) qs'.
Proof using Hw0.
  intros Hi Ht (Hq1 & Hq2 & Hq3) Henq E Eq Hk Et Hr Hfull.
  pose proof (inv_static _ _ _ _ _ _ _ Hi) as Hs. pose proof (fifo_fits _ _ _ Hw0 w a f Hs E) as Hfit.
  assert (ring_ok (conf f) (ring f) q) as Hrq.
  { destruct (inv_rings _ _ _ _ _ _ _ Hi a f E) as (q1 & E1 & H1). rewrite Eq in E1. by injection E1 as <-. }
  set (we := Z.of_nat (length q) =? 0). set (t1 := if we then set_pend Rd (Some a) t else t).
  assert (inv_at (i, bs) w (<[i := t1]> toks) qs) as Hi1.
  { unfold t1. destruct we; [apply take_pend; [done | done | by left] | by rewrite list_insert_id]. }
  assert (t_abs t1 = t_abs t /\ t_wr t1 = None /\ t_full t1 = None /\ t_rd t1 = if we then Some a else None)
    as (Ea & Ew & Ef & Er) by (unfold t1; by destruct we).
  assert (<[i := t1]> toks !! i = Some t1) as Ht1 by (apply list_lookup_insert_eq; by eapply lookup_lt_Some).
  assert (inv_at (i, bs) (put_fifo a (set_ring r f) w) (<[i := advance (REnq true) t1]> toks)
            (<[a := q ++ [take (Z.to_nat num) msg]]> qs)) as Hi2.
  { rewrite <- (list_insert_insert_eq toks i (advance (REnq true) t1) t1).
    eapply inv_ring; [exact Hi1 | exact Ht1 | exact E | exact Eq | exact Hr | rewrite Ea; exact Et | | |].
    - apply abs_enq; [done |]. by rewrite (fifo_cap w0 w a f Hs E).
    - intros [|] _ Hwant.
      + destruct we eqn:Ewe; [right; exists i, t1; by rewrite Ht1 | left]. unfold want.
        rewrite (is_empty_ok f q Hfit Hrq). unfold we in Ewe. by rewrite Ewe.
      + left. cbn [want ring set_ring] in *. rewrite Hfull in Hwant. by destruct full.
    - intros j u Hj Hu Hsg. destruct (inv_full _ _ _ _ _ _ _ Hi1 j u a Hj Hu) as [He _].
      pose proof (Hsg i j Henq He) as <-. congruence. }
  eexists. rewrite <- (list_insert_insert_eq toks i _ (advance (REnq true) t1)).
  eapply inv_token; [exact Hi2 | by apply list_lookup_insert_eq; eapply lookup_lt_Some | cbn; by rewrite Ea | |].
  - intros s b Hb. left. destruct s; cbn in *; [by rewrite Er in Hb | congruence].
  - intros b Hb. cbn in Hb. right. destruct full; [| done]. injection Hb as <-. split; [done |]. intros f' _ E'.
    cbn in E'. rewrite lookup_insert_eq in E'. injection E' as <-. by left.
Qed.

Lemma enqueue_work_ok {bs} w toks qs i t a f q num msg wait ops :
  inv_at (i, bs) w toks qs -> toks !! i = Some t -> quiet t -> enqs scripts i a ->
  w_fifos w !! a = Some f -> qs !! a = Some q -> Z.of_nat (length q) < num_ents (conf f) ->
  snd (t_abs t) = OEnq a num msg wait :: ops -> 0 <= num <= ent_size (conf f) -> num <= Z.of_nat (length msg) ->
  exists w' r qs', enqueue_work xl a num msg w = Done (w', r) /\
    inv_at (i, bs) w' (<[i := enq_tok a r (advance (REnq true) t)]> toks) qs'.
Proof using Hw0.
  intros Hi Ht Hq Henq E Eq Hk Et Hnum Hlen.
  pose proof (inv_static _ _ _ _ _ _ _ Hi) as Hs. pose proof (fifo_fits _ _ _ Hw0 w a f Hs E) as Hfit.
  assert (ring_ok (conf f) (ring f) q) as Hrq.
  { destruct (inv_rings _ _ _ _ _ _ _ Hi a f E) as (q1 & E1 & H1). rewrite Eq in E1. by injection E1 as <-. }
  pose proof Hfit as (Hn & _). unfold enqueue_work. rewrite (get_fifo_ok _ _ _ E). orun.
  assert ((producer (ring f) =? consumer (ring f)) = (Z.of_nat (length q) =? 0)) as ->.
  { pose proof (producer_eq f q Hfit Hrq) as Hpe. destruct (Z.eqb_spec (Z.of_nat (length q)) 0); [| apply Z.eqb_neq; intros H; apply Hpe in H; lia].
    apply Z.eqb_eq, Hpe. by left. }
  destruct (opt_bump_ok (Z.of_nat (length q) =? 0) w toks qs a f P_saw_empty Hi E) as (w1 & -> & Hi1 & Ef1). orun. destruct (Z.ltb_spec (Z.of_nat (length msg)) num); [lia |].
  destruct (ring_put f q Hfit Hrq (take (Z.to_nat num) msg) Hk) as (ws & Ews & Ep & Hring); [rewrite length_take; lia |].
  rewrite Ews. orun. rewrite Ep. orun. edestruct num_total as [m Em]; [| rewrite Em]; [cbn; lia |]. orun.
  edestruct (upd_stats_ok xl w0 qs0 scripts Hw0 (bs := (i, bs)) w1) as (w2 & E2 & Hi2 & Ef2 & _); [exact Hi1 | rewrite Ef1; exact E | rewrite E2; clear E2].
  orun. cbn [ring set_ring consumer producer].
  assert (w_fifos w2 !! a = Some f) as Ew2 by (by rewrite Ef2, Ef1).
  destruct (Z.eqb_spec (consumer (ring f)) (slot (conf f) (ring f) (Z.of_nat (length q) + 1))) as [Hc | Hc].
  - destruct (bump_prod_ok xl w0 qs0 scripts Hw0 w2 toks qs a f P_queue_full Hi2 Ew2) as (w3 & -> & Hi3 & Ef3). orun.
    destruct (inv_enqueue w3 toks qs i t a f q _ num msg wait ops true Hi3 Ht Hq Henq ltac:(by rewrite Ef3) Eq Hk Et
      (Hring true ltac:(done)) ltac:(done)) as [qs' Hi'].
    eexists _, _, qs'. split; [reflexivity |]. exact Hi'.
  - assert (Z.of_nat (length q) + 1 = num_ents (conf f) -> queue_full (ring f) = true) as Hkn.
    { intros Hkn. exfalso. apply Hc. unfold slot. rewrite Hkn. destruct Hrq as (Hcr & _).
      rewrite <- (Z.mul_1_l (num_ents (conf f))) at 1. rewrite Z.mod_add by lia. symmetry. by apply Z.mod_small. }
    destruct (inv_enqueue w2 toks qs i t a f q _ num msg wait ops false Hi2 Ht Hq Henq Ew2 Eq Hk Et
      (Hring _ Hkn) ltac:(done)) as [qs' Hi'].
    eexists _, _, qs'. split; [reflexivity |]. exact Hi'.
Qed.

(** What an operation of a script needs: its FIFO or group is there, messages fit
    into an entry, and the condition variable it waits on is set. *)
Definition op_ok (o : op) : Prop :=
  match o with
  | OEnq a num msg wait => exists f, w_fifos w0 !! a = Some f /\ 0 <= num <= ent_size (conf f) /\
      num <= Z.of_nat (length msg) /\ (wait = true -> producer_cond f <> 0)
  | ODeq a num wait => exists f, w_fifos w0 !! a = Some f /\ 0 <= num <= ent_size (conf f) /\
      (wait = true -> consumer_cond f <> 0)
  | OEnable _ a | ODisable _ a => is_Some (w_fifos w0 !! a)
  | OPoll ga _ => is_Some (w_groups w0 !! ga)
  end.

(** A FIFO of the initial state, now. *)
Lemma fifo_now {bs} w toks qs a f0 :
  inv_at bs w toks qs -> w_fifos w0 !! a = Some f0 ->
  exists f q, w_fifos w !! a = Some f /\ skel f = skel f0 /\ conf f = conf f0 /\ config_fits (conf f) /\
    qs !! a = Some q /\ ring_ok (conf f) (ring f) q.
Proof using Hw0.
  intros Hi E0. pose proof (inv_static _ _ _ _ _ _ _ Hi) as Hs. destruct (static_fifo_inv w0 w a f0 Hs E0) as (f & E & Hk).
  destruct (inv_rings _ _ _ _ _ _ _ Hi a f E) as (q & Eq & Hq). exists f, q. split_and!; try done.
  - by apply skel_fields in Hk as (-> & _).
  - by eapply fifo_fits.
Qed.

Definition enq_post (a : Z) (t : tok) (r : attempt (bool * bool)) (u : tok) : Prop :=
  match r with
  | AFail => u = advance (REnq false) t
  | AWait _ => u = t
  | ADone r => u = enq_tok a r (advance (REnq true) t)
  end.

Lemma try_enqueue_ok i t a num msg wait ops :
  op_ok (OEnq a num msg wait) -> enqs scripts i a -> quiet t -> snd (t_abs t) = OEnq a num msg wait :: ops ->
  wp i (sect (try_enqueue xl a num msg wait)) (enq_post a t) t.
Proof using Hw0.
  intros (f0 & E0 & Hnum & Hlen & Hcond) Henq Hq Et. apply wp_sect. intros bs w toks qs Hi Ht.
  destruct (fifo_now w toks qs a f0 Hi E0) as (f & q & E & Hk & Ec & Hfit & Eq & Hrq).
  pose proof (inv_static _ _ _ _ _ _ _ Hi) as Hs. unfold try_enqueue. rewrite (the_fifo_ok _ _ _ Hw0 w a f Hs E). orun.
  rewrite Ec. destruct (Z.leb_spec num (ent_size (conf f0))); [| lia]. cbn [XDP2_ASSERT]. orun.
  rewrite (is_full_ok f q Hfit Hrq). destruct (Z.eqb_spec (Z.of_nat (length q)) (num_ents (conf f))) as [Hn | Hn].
  - destruct (bump_prod_ok xl w0 qs0 scripts Hw0 w toks qs a f P_blocked Hi E) as (w1 & -> & Hi1 & Ef1). orun.
    rewrite <- Ef1 in E. destruct wait; cbn [negb].
    + destruct (Z.eqb_spec (producer_cond f) 0) as [Hz | _].
      { rewrite (skel_producer_cond f f0 Hk) in Hz. by destruct (Hcond eq_refl). }
      cbn [XDP2_ASSERT negb]. orun.
      destruct (bump_prod_ok xl w0 qs0 scripts Hw0 w1 toks qs a f P_waits Hi1 E) as (w2 & -> & Hi2 & Ef2). orun.
      rewrite <- Ef2 in E.
      edestruct (upd_counts_ok xl w0 scripts (bs := (i, bs)) w2) as (w3 & f3 & E3 & Hi3 & _); [exact Hi2 | exact E |].
      unfold __XDP2_FIFO_BUMP_INC_NUM_WAITERS. rewrite E3. clear E3. orun. eexists _, _, t, qs. split; [reflexivity |].
      by rewrite list_insert_id.
    + eexists _, _, _, qs. split; [reflexivity |]. split; [| reflexivity].
      eapply inv_abs_only; [exact Hi1 | exact Ht | exact Et |]. eapply abs_enq_full; [exact Eq |].
      rewrite Ef1 in E. by rewrite (fifo_cap w0 w a f Hs E).
  - assert (Z.of_nat (length q) < num_ents (conf f)) as Hlt by (destruct Hrq as (_ & Hle & _); lia).
    rewrite <- Ec in Hnum. destruct (enqueue_work_ok w toks qs i t a f q num msg wait ops Hi Ht Hq Henq E Eq Hlt Et Hnum Hlen)
      as (w' & r & qs' & -> & Hi'). orun. by eexists _, _, _, qs'.
Qed.

Lemma retry_enqueue_ok i t a num msg wait ops c :
  op_ok (OEnq a num msg wait) -> enqs scripts i a -> quiet t -> snd (t_abs t) = OEnq a num msg wait :: ops ->
  wp i (wait_loop c (retry_enqueue xl a num msg)) (fun r u => u = enq_tok a r (advance (REnq true) t)) t.
Proof using Hw0.
  intros (f0 & E0 & Hnum & Hlen & _) Henq Hq Et. apply wp_wait. intros bs w toks qs Hi Ht.
  destruct (fifo_now w toks qs a f0 Hi E0) as (f & q & E & Hk & Ec & Hfit & Eq & Hrq).
  unfold retry_enqueue. rewrite (get_fifo_ok _ _ _ E). orun. rewrite (is_full_ok f q Hfit Hrq).
  destruct (Z.eqb_spec (Z.of_nat (length q)) (num_ents (conf f))) as [Hn | Hn].
  - destruct (bump_prod_ok xl w0 qs0 scripts Hw0 w toks qs a f P_spurious_wakeups Hi E) as (w1 & -> & Hi1 & _). orun.
    eexists _, None, t, qs. split; [reflexivity |]. by rewrite list_insert_id.
  - destruct (bump_prod_ok xl w0 qs0 scripts Hw0 w toks qs a f P_after_wait Hi E) as (w1 & -> & Hi1 & Ef1). orun.
    edestruct (upd_counts_ok xl w0 scripts (bs := (i, bs)) w1) as (w2 & f2 & E2 & Hi2 & Ef2 & Hsame); [exact Hi1 | rewrite Ef1; exact E |].
    unfold __XDP2_FIFO_BUMP_DEC_NUM_WAITERS. rewrite E2. clear E2. orun.
    assert (conf f2 = conf f) as Ec2 by (by destruct Hsame as [(-> & _)%skel_fields _]).
    assert (Z.of_nat (length q) < num_ents (conf f2)) as Hlt by (rewrite Ec2; destruct Hrq as (_ & Hle & _); lia).
    assert (0 <= num <= ent_size (conf f2)) as Hnum2 by (by rewrite Ec2, Ec).
    destruct (enqueue_work_ok w2 toks qs i t a f2 q num msg wait ops Hi2 Ht Hq Henq Ef2 Eq Hlt Et Hnum2 Hlen)
      as (w' & r & qs' & -> & Hi'). orun. by eexists _, (Some r), _, qs'.
Qed.

Lemma after_enqueue_ok i t a r :
  is_Some (w_fifos w0 !! a) -> quiet t -> wp i (after_enqueue xl a r) (fun b u => b = true /\ u = t) (enq_tok a r t).
Proof using Hw0.
  intros Ha (Hq1 & Hq2 & Hq3). unfold after_enqueue. destruct r as [we full]. cbn [fst snd].
  eapply wp_unit with (t' := enq_tok a (we, false) t).
  - destruct full; [| done]. eapply wpc_mono; [by eapply after_full_ok |]. by intros [] u ->.
  - intros _. eapply wp_unit with (t' := t); [| done]. destruct t. cbn in *. subst. destruct we; [| done].
    eapply wpc_mono; [apply (make_side_ok xl w0 qs0 scripts Hw0 i Rd); [done | by right] |]. by intros [] u ->.
Qed.

Lemma enqueue_ok i t a num msg wait ops :
  op_ok (OEnq a num msg wait) -> enqs scripts i a -> quiet t -> snd (t_abs t) = OEnq a num msg wait :: ops ->
  wp i (___xdp2_fifo_enqueue xl a num msg wait) (fun b u => u = advance (REnq b) t) t.
Proof using Hw0.
  intros Hok Henq Hq Et. assert (is_Some (w_fifos w0 !! a)) as Ha by (destruct Hok as (f & E & _); by exists f).
  unfold ___xdp2_fifo_enqueue. eapply wp_unit; [by eapply wp_upd_stats |]. intros _.
  eapply wp_seq with (Q := fun b u => u = advance (REnq b) t).
  - unfold ___xdp2_fifo_sw_enqueue. eapply wp_seq; [by eapply try_enqueue_ok |].
    assert (forall r, wp i (after_enqueue xl a r) (fun b u => u = advance (REnq b) t) (enq_tok a r (advance (REnq true) t))) as Hafter.
    { intros r. eapply wpc_mono; [by eapply after_enqueue_ok |]. by intros b u [-> ->]. }
    intros [| c | r] u Hu; cbn in Hu; subst u; [done | | by apply Hafter].
    eapply wp_seq; [by eapply retry_enqueue_ok |]. cbn. intros r u ->. apply Hafter.
  - intros b u ->. eapply wp_unit; [| done]. destruct b; [by eapply wp_upd_counts | by eapply wp_upd_stats].
Qed.

(** ** Dequeueing *)

Definition deq_tok (a : Z) (unblock : bool) (t : tok) : tok :=
  Tok (t_abs t) (t_rd t) (if unblock then Some a else t_wr t) (t_full t).

(** The ring with one message less, and the abstract step. *)
Lemma inv_dequeue {bs} w toks qs i t a f m q r d num wait ops (unblock : bool) :
  inv_at (i, bs) w toks qs -> toks !! i = Some t -> quiet t ->
  w_fifos w !! a = Some f -> qs !! a = Some (m :: q) -> snd (t_abs t) = ODeq a num wait :: ops ->
  Z.of_nat (length d) = num -> take (length m) d = take (Z.to_nat num) m ->
  ring_ok (conf f) r q -> queue_full r = (if unblock then false else queue_full (ring f)) ->
  unblock = queue_full (ring f) && (Z.of_nat (length q) <? low_water_mark (conf f)) ->
  exists qs', inv_at (i, bs) (put_fifo a (set_ring r f) w) (<[i := deq_tok a unblock (advance (RDeq (Some d)) t)]> toks) qs'.
Proof using Hw0.
  intros Hi Ht (Hq1 & Hq2 & Hq3) E Eq Et Hd Hdm Hr Hfull Hub.
  pose proof (inv_static _ _ _ _ _ _ _ Hi) as Hs. pose proof (fifo_fits _ _ _ Hw0 w a f Hs E) as Hfit.
  assert (ring_ok (conf f) (ring f) (m :: q)) as Hrq.
  { destruct (inv_rings _ _ _ _ _ _ _ Hi a f E) as (q1 & E1 & H1). rewrite Eq in E1. by injection E1 as <-. }
  set (t1 := if unblock then set_pend Wr (Some a) t else t).
  assert (inv_at (i, bs) w (<[i := t1]> toks) qs) as Hi1.
  { unfold t1. destruct unblock; [apply take_pend; [done | done | by left] | by rewrite list_insert_id]. }
  assert (<[i := t1]> toks !! i = Some t1) as Ht1 by (apply list_lookup_insert_eq; by eapply lookup_lt_Some).
  assert (t_abs t1 = t_abs t) as Ea by (unfold t1; by destruct unblock).
  exists (<[a := q]> qs).
  assert (deq_tok a unblock (advance (RDeq (Some d)) t) = advance (RDeq (Some d)) t1) as -> by (unfold t1; by destruct unblock).
  rewrite <- (list_insert_insert_eq toks i (advance (RDeq (Some d)) t1) t1).
  assert (Z.of_nat (length q) < low_water_mark (conf f) -> low (set_ring r f)) as Hlow.
  { intros Hl. exists (Z.of_nat (length q)). split; [| done]. by apply num_in_queue_ok. }
  eapply inv_ring; [exact Hi1 | exact Ht1 | exact E | exact Eq | exact Hr | rewrite Ea; exact Et | | |].
  - by eapply abs_deq.
  - intros [|] _ Hwant.
    + left. unfold want. by rewrite (is_empty_ok f (m :: q) Hfit Hrq).
    + cbn [want ring set_ring] in *. rewrite Hfull in Hwant. unfold t1 in Ht1 |- *. destruct unblock; [right | by left].
      exists i, (set_pend Wr (Some a) t). by rewrite Ht1.
  - intros j u Hj Hu Hsg. destruct (inv_full _ _ _ _ _ _ _ Hi1 j u a Hj Hu) as [_ H].
    destruct (H f Hsg E) as [Hf | (n & Hn & Hl)].
    + rewrite Hfull. destruct unblock; [right | by left]. apply Hlow. rewrite Hf in Hub.
      by apply Z.ltb_lt, eq_sym.
    + right. apply Hlow. rewrite (num_in_queue_ok f (m :: q) Hfit Hrq) in Hn. injection Hn as <-. cbn in Hl. lia.
Qed.

Lemma dequeue_work_ok {bs} w toks qs i t a f m q num wait ops :
  inv_at (i, bs) w toks qs -> toks !! i = Some t -> quiet t ->
  w_fifos w !! a = Some f -> qs !! a = Some (m :: q) -> snd (t_abs t) = ODeq a num wait :: ops ->
  0 <= num <= ent_size (conf f) ->
  exists w' d nr ub qs', dequeue_work xl a num w = Done (w', (d, nr, ub)) /\
    inv_at (i, bs) w' (<[i := deq_tok a ub (advance (RDeq (Some d)) t)]> toks) qs'.
Proof using Hw0.
  intros Hi Ht Hq E Eq Et Hnum.
  pose proof (inv_static _ _ _ _ _ _ _ Hi) as Hs. pose proof (fifo_fits _ _ _ Hw0 w a f Hs E) as Hfit.
  assert (ring_ok (conf f) (ring f) (m :: q)) as Hrq.
  { destruct (inv_rings _ _ _ _ _ _ _ Hi a f E) as (q1 & E1 & H1). rewrite Eq in E1. by injection E1 as <-. }
  unfold dequeue_work. rewrite (get_fifo_ok _ _ _ E). orun.
  destruct (ring_get f (m :: q) Hfit Hrq m q num eq_refl Hnum) as (d & Ed & Hd & Hdm & Ec & En & _ & Hring).
  rewrite Ed. orun. rewrite Ec. orun.
  destruct (bump_cons_ok xl w0 qs0 scripts Hw0 w toks qs a f C_requests Hi E) as (w1 & -> & Hi1 & Ef1). orun. rewrite En. orun.
  edestruct (upd_stats_ok xl w0 qs0 scripts Hw0 (bs := (i, bs)) w1) as (w2 & E2 & Hi2 & Ef2 & _); [exact Hi1 | rewrite Ef1; exact E | rewrite E2; clear E2].
  orun. set (ub := queue_full (ring f) && (Z.of_nat (length q) <? low_water_mark (conf f))).
  assert (w_fifos w2 !! a = Some f) as Ew2 by (by rewrite Ef2, Ef1).
  destruct (opt_bump_cons_ok ub w2 toks qs a f C_unblocked Hi2 Ew2) as (w3 & -> & Hi3 & Ef3). orun.
  rewrite <- Ef3 in Ew2. assert (Z.of_nat (length q) = 0 -> (if ub then false else queue_full (ring f)) = false) as Hz.
  { intros Hz. unfold ub. destruct Hfit as (_ & _ & _ & Hl). rewrite Hz.
    destruct (Z.ltb_spec 0 (low_water_mark (conf f))); [| lia]. by destruct (queue_full (ring f)). }
  destruct (inv_dequeue w3 toks qs i t a f m q _ d num wait ops ub Hi3 Ht Hq Ew2 Eq Et Hd Hdm (Hring _ Hz) eq_refl eq_refl)
    as [qs' Hi'].
  eexists _, d, _, ub, qs'. split; [reflexivity | exact Hi'].
Qed.

Definition deq_post (a : Z) (t : tok) (r : attempt (list Z * bool * bool)) (u : tok) : Prop :=
  match r with
  | AFail => u = advance (RDeq None) t
  | AWait _ => u = t
  | ADone (d, _, ub) => u = deq_tok a ub (advance (RDeq (Some d)) t)
  end.

Lemma try_dequeue_ok i t a num wait ops :
  op_ok (ODeq a num wait) -> quiet t -> snd (t_abs t) = ODeq a num wait :: ops ->
  wp i (sect (try_dequeue xl a num wait)) (deq_post a t) t.
Proof using Hw0.
  intros (f0 & E0 & Hnum & Hcond) Hq Et. apply wp_sect. intros bs w toks qs Hi Ht.
  destruct (fifo_now w toks qs a f0 Hi E0) as (f & q & E & Hk & Ec & Hfit & Eq & Hrq).
  pose proof (inv_static _ _ _ _ _ _ _ Hi) as Hs. unfold try_dequeue. rewrite (the_fifo_ok _ _ _ Hw0 w a f Hs E). orun.
  rewrite Ec. destruct (Z.leb_spec num (ent_size (conf f0))); [| lia]. cbn [XDP2_ASSERT]. orun.
  rewrite (is_empty_ok f q Hfit Hrq). destruct q as [| m q]; cbn [length].
  - destruct wait; cbn [negb Z.of_nat Z.eqb].
    + destruct (Z.eqb_spec (consumer_cond f) 0) as [Hz | _].
      { rewrite (skel_consumer_cond f f0 Hk) in Hz. by destruct (Hcond eq_refl). }
      cbn [XDP2_ASSERT negb]. orun.
      destruct (bump_cons_ok xl w0 qs0 scripts Hw0 w toks qs a f C_waits Hi E) as (w1 & -> & Hi1 & _). orun.
      eexists _, _, t, qs. split; [reflexivity |]. by rewrite list_insert_id.
    + eexists _, _, _, qs. split; [reflexivity |]. split; [| reflexivity].
      eapply inv_abs_only; [exact Hi | exact Ht | exact Et |]. by apply abs_deq_empty.
  - destruct (Z.eqb_spec (Z.of_nat (S (length q))) 0); [lia |]. rewrite <- Ec in Hnum.
    destruct (dequeue_work_ok w toks qs i t a f m q num wait ops Hi Ht Hq E Eq Et Hnum) as (w' & d & nr & ub & qs' & -> & Hi').
    orun. eexists _, _, _, qs'. split; [reflexivity |]. split; [exact Hi' | done].
Qed.

Lemma retry_dequeue_ok i t a num wait ops c :
  op_ok (ODeq a num wait) -> quiet t -> snd (t_abs t) = ODeq a num wait :: ops ->
  wp i (wait_loop c (retry_dequeue xl a num)) (fun r u => deq_post a t (ADone r) u) t.
Proof using Hw0.
  intros (f0 & E0 & Hnum & _) Hq Et. apply wp_wait. intros bs w toks qs Hi Ht.
  destruct (fifo_now w toks qs a f0 Hi E0) as (f & q & E & Hk & Ec & Hfit & Eq & Hrq).
  unfold retry_dequeue. rewrite (get_fifo_ok _ _ _ E). orun. rewrite (is_empty_ok f q Hfit Hrq).
  destruct q as [| m q]; cbn [length].
  - cbn [Z.of_nat Z.eqb].
    destruct (bump_cons_ok xl w0 qs0 scripts Hw0 w toks qs a f C_spurious_wakeups Hi E) as (w1 & -> & Hi1 & _). orun.
    eexists _, None, t, qs. split; [reflexivity |]. by rewrite list_insert_id.
  - destruct (Z.eqb_spec (Z.of_nat (S (length q))) 0); [lia |].
    destruct (bump_cons_ok xl w0 qs0 scripts Hw0 w toks qs a f C_after_wait Hi E) as (w1 & -> & Hi1 & Ef1). orun.
    rewrite <- Ef1 in E. rewrite <- Ec in Hnum.
    destruct (dequeue_work_ok w1 toks qs i t a f m q num wait ops Hi1 Ht Hq E Eq Et Hnum) as (w' & d & nr & ub & qs' & -> & Hi').
    orun. eexists _, (Some _), _, qs'. split; [reflexivity |]. split; [exact Hi' | done].
Qed.

Lemma after_dequeue_ok i t a d nr ub :
  is_Some (w_fifos w0 !! a) -> quiet t ->
  wp i (after_dequeue xl a (d, nr, ub)) (fun b u => b = Some d /\ u = t) (deq_tok a ub t).
Proof using Hw0.
  intros Ha Hq. pose proof Hq as (Hq1 & Hq2 & Hq3). unfold after_dequeue. eapply wp_unit with (t' := t).
  - destruct t. cbn in *. subst. destruct ub; [| done].
    eapply wpc_mono; [apply (make_side_ok xl w0 qs0 scripts Hw0 i Wr); [done | by right] |]. by intros [] u ->.
  - intros _. eapply wp_unit with (t' := t); [destruct nr; [by eapply non_readable_after_dequeue_ok | done] |].
    intros _. eapply wp_unit with (t' := t); [| done]. destruct ub; [| done].
    eapply wp_seq; [apply wp_read_cond; [intros w f _; apply get_fifo_ok | done | apply skel_producer_cond] |].
    intros c u [-> Hc]. apply wp_signal_if; [done | apply skel_producer_cond | done].
Qed.

Lemma dequeue_ok i t a num wait ops :
  op_ok (ODeq a num wait) -> quiet t -> snd (t_abs t) = ODeq a num wait :: ops ->
  wp i (___xdp2_fifo_dequeue xl a num wait) (fun m u => u = advance (RDeq m) t) t.
Proof using Hw0.
  intros Hok Hq Et. assert (is_Some (w_fifos w0 !! a)) as Ha by (destruct Hok as (f & E & _); by exists f).
  unfold ___xdp2_fifo_dequeue. eapply wp_seq with (Q := fun m u => u = advance (RDeq m) t).
  - unfold ___xdp2_fifo_sw_dequeue. eapply wp_seq; [by eapply try_dequeue_ok |].
    assert (forall d nr ub, wp i (after_dequeue xl a (d, nr, ub)) (fun m u => u = advance (RDeq m) t)
              (deq_tok a ub (advance (RDeq (Some d)) t))) as Hafter.
    { intros d nr ub. eapply wpc_mono; [by eapply after_dequeue_ok |]. by intros b u [-> ->]. }
    intros [| c | [[d nr] ub]] u Hu; cbn in Hu; subst u.
    + eapply wp_unit; [eapply non_readable_after_dequeue_ok; [done | done | by destruct Hq] |]. done.
    + eapply wp_seq; [by eapply retry_dequeue_ok |]. intros [[d nr] ub] u Hu. cbn in Hu. subst u. apply Hafter.
    + apply Hafter.
  - intros m u ->. eapply wp_unit; [| done]. destruct m; [by eapply wp_upd_counts | by eapply wp_upd_stats].
Qed.
End Ops.
