(* ===== verification/FifoScript.v ===== *)
(** * FIFOs: polling, enabling, and whole scripts *)

From stdpp Require Import base list gmap relations numbers.
From S2P Require Import Prelude ObjAlloc BitmapWord Bitmap BitmapSpec BitmapOps BitmapTwo BitmapProps Conc Fifo FifoSpec FifoInv FifoOps.

(** ** What a poll finds *)

(** A number that is ready and enabled. *)
Definition hit (g : xdp2_fifo_poll_group) (v : Z) : bool := gbit (fifos_ready g) v && gbit (fifos_mask g) v.

(** The first hit from [start_pos] on, around the end. *)
Definition next_hit (g : xdp2_fifo_poll_group) (v : Z) : Prop :=
  (0 <= v < 128 /\ hit g v = true /\
   forall j, 0 <= j < 128 -> hit g j = true -> (v - start_pos g) mod 128 <= (j - start_pos g) mod 128) \/
  (v = 128 /\ forall j, 0 <= j < 128 -> hit g j = false).

Lemma dist_up p v : 0 <= p < 128 -> 0 <= v < 128 -> (v - p) mod 128 = if p <=? v then v - p else v - p + 128.
Proof.
  intros Hp Hv. destruct (Z.leb_spec p v); [by apply Z.mod_small; lia |].
  rewrite <- (Z.mod_add (v - p) 1) by lia. apply Z.mod_small. lia.
Qed.

Lemma find_roll_hit m p :
  words_ok m -> 0 <= p < 128 ->
  exists v, bitmap64_find_roll m p 128 = Done v /\
    ((0 <= v < 128 /\ gbit m v = true /\
      forall j, 0 <= j < 128 -> gbit m j = true -> (v - p) mod 128 <= (j - p) mod 128) \/
     (v = 128 /\ forall j, 0 <= j < 128 -> gbit m j = false)).
Proof.
  intros Hm Hp. pose proof (words_bits m Hm) as Hb. pose proof Hm as [Hok _].
  unfold bitmap64_find_roll, xdp2_bitmap_find_roll, bitmap_find_funct. rewrite Z.add_0_r.
  assert (u32 p = p) as -> by (apply Z.mod_small; lia).
  destruct (XDP2_BITMAP_1ARG_find (w := 64) (conv := fun v => v) (nw := 0) word64 false m p 128) as (r & -> & Hr); [done | lia .. |].
  orun. destruct (Z.leb_spec 128 r) as [Hle | Hlt]; cbn [andb].
  - destruct (XDP2_BITMAP_1ARG_find (w := 64) (conv := fun v => v) (nw := 0) word64 false m 0 128) as (v & E & Hv); [done | lia .. |].
    change (if 0 =? 0 then 128 else r) with 128. rewrite E. exists v. split; [done |].
    destruct Hr as [? | [_ Hno]]; [lia |]. destruct Hv as [(Hv & Hset & Hfirst) | [-> Hno']]; [left | right].
    + split_and!; [lia | lia | exact Hset |]. intros j Hj Hgj. rewrite !dist_up by lia.
      assert (v <= j) by (destruct (Z.lt_ge_cases j v); [specialize (Hfirst j ltac:(lia)); cbn in Hfirst; unfold gbit in Hgj; congruence | lia]).
      assert (j < p) by (destruct (Z.lt_ge_cases j p); [lia | specialize (Hno j ltac:(lia)); cbn in Hno; unfold gbit in Hgj; congruence]).
      destruct (Z.leb_spec p v), (Z.leb_spec p j); lia.
    + split; [done |]. intros j Hj. by apply (Hno' j).
  - exists r. split; [done |]. left. destruct Hr as [(Hv & Hset & Hfirst) | [-> _]]; [| lia].
    split_and!; [lia | lia | exact Hset |]. intros j Hj Hgj. rewrite !dist_up by lia.
    destruct (Z.leb_spec p r); [| lia]. destruct (Z.leb_spec p j) as [Hpj | Hpj]; [| lia].
    destruct (Z.lt_ge_cases j r); [specialize (Hfirst j ltac:(lia)); cbn in Hfirst; unfold gbit in Hgj; congruence | lia].
Qed.

Lemma poll_find_ok g : group_fits g -> exists v, poll_find g = Done v /\ next_hit g v.
Proof.
  intros (Hr & Hm & Hp). pose proof (words_bits _ Hr) as Hbr. pose proof (words_bits _ Hm) as Hbm.
  unfold poll_find, bitmap64_destsrc_and, xdp2_bitmap_destsrc_and, bitmap_2arg_funct.
  destruct (XDP2_BITMAP_2ARG_write (w := 64) (conv := fun v => v) (nw := 0) word64 (destsrc_fun BAnd false false) TEST_NONE false
    (fifos_ready g) (fifos_mask g) 0 128 0) as (m & E & Hok & Hl & Hbits).
  { split; [apply Hr | lia]. } { split; [apply Hm | lia]. } { lia. } { unfold is_u32. lia. }
  unfold XDP2_POLL_GROUP_MAX_FIFOS. rewrite E. orun.
  assert (words_ok m) as Hwm by (split; [done | rewrite Hl; apply Hr]).
  assert (forall j, 0 <= j < 128 -> gbit m j = hit g j) as Hhit.
  { intros j Hj. unfold gbit at 1. rewrite Hbits by lia. destruct (Z.leb_spec 0 j), (Z.ltb_spec j 128); try lia. cbn [andb].
    unfold hit. rewrite andb_comm. done. }
  destruct (find_roll_hit m (start_pos g) Hwm Hp) as (v & Ev & Hv). exists v. split; [exact Ev |].
  destruct Hv as [(Hv & Hset & Hmin) | [-> Hno]]; [left | right].
  - split_and!; [lia | lia | by rewrite <- Hhit |]. intros j Hj Hh. apply Hmin; [done |]. by rewrite Hhit.
  - split; [done |]. intros j Hj. rewrite <- Hhit by done. by apply Hno.
Qed.

Section Script.
Context (xl : list xdp2_addr_xlat) (w0 : fworld) (qs0 : queues) (scripts : list (list op)).
Context (Hw0 : world_ok xl w0 qs0).
Abbreviation inv_at := (inv_at xl w0 scripts).
Abbreviation wp := (wpc (Inv xl w0 scripts) (abs_rel w0)).
Abbreviation bound := (bound xl w0).

(** ** Enabling *)

(** The group of a FIFO; the abstract machine does its step here. *)
Lemma poll_of_ok i t s a o ops :
  is_Some (w_fifos w0 !! a) -> snd (t_abs t) = o :: ops -> (forall qs, abs_op (cap w0) qs o RUnit qs) ->
  wp i (poll_of xl a (sel s)) (fun r u => u = advance RUnit t /\ forall ga, r = Some ga -> exists num, bound s a ga num) t.
Proof using Hw0.
  intros Ha Et Habs. unfold poll_of.
  eapply wp_seq with (Q := fun p u => u = advance RUnit t /\ (p <> 0 -> exists ga num, bound s a ga num)).
  { apply wp_read. intros bs w toks qs Hi Ht. destruct (fifo_there xl w0 scripts w toks qs a Hi Ha) as [f E].
    pose proof (inv_static _ _ _ _ _ _ _ Hi) as Hs. rewrite (the_fifo_ok _ _ _ Hw0 w a f Hs E). orun.
    eexists _, _. split; [reflexivity |]. split; [by eapply inv_abs_only |]. split; [done |]. intros Hp.
    destruct (fifo_poll xl w0 qs0 Hw0 w a f s Hs E) as [[H0 _] | (_ & ga & g & _ & Hb & _)]; [done | by eexists _, _]. }
  intros p u [-> Hp]. destruct (Z.eqb_spec p 0) as [-> | Hne]; [by split |]. destruct (Hp Hne) as (ga & num & Hb).
  eapply wp_seq with (Q := fun r u => u = advance RUnit t /\ r = ga); [| intros r u [-> ->]; split; [done | intros ? [= <-]; by exists num]].
  apply wp_read_same. intros bs w toks qs Hi Ht. destruct (fifo_there xl w0 scripts w toks qs a Hi Ha) as [f E].
  rewrite (get_fifo_ok _ _ _ E). orun.
  destruct (fifo_poll xl w0 qs0 Hw0 w a f s (inv_static _ _ _ _ _ _ _ Hi) E) as [[_ Hnb] | (_ & ga' & g & Er & Hb' & _)];
    [by apply Hnb in Hb |]. rewrite Er. orun. destruct (bound_fun xl w0 s a _ _ _ _ Hb Hb') as [<- _]. by exists ga.
Qed.

Lemma set_mask_ok i t s a ga num :
  bound s a ga num -> pend s t = None \/ pend s t = Some a ->
  wp i (mask_fifo a ga (sel s) set_mask) (fun _ u => u = set_pend s (Some a) t) t.
Proof using Hw0.
  intros Hb Hp. apply wp_sect. intros bs w toks qs Hi Ht.
  destruct (bound_group xl w0 qs0 scripts Hw0 w toks qs s a ga num Hi Hb) as (g & Eg & Hn & _ & _ & Hrw & Hmw & Hsp).
  pose proof Hb as (f0 & E0 & _). destruct (fifo_there xl w0 scripts w toks qs a Hi ltac:(by eexists)) as [f E].
  destruct (fifo_poll xl w0 qs0 Hw0 w a f s (inv_static _ _ _ _ _ _ _ Hi) E) as [[_ Hnb] | (_ & ga' & g' & _ & Hb' & _)];
    [by apply Hnb in Hb |]. destruct (bound_fun xl w0 s a _ _ _ _ Hb Hb') as [<- En].
  unfold get_group. rewrite Eg. orun. rewrite (get_fifo_ok _ _ _ E). orun. rewrite <- En. unfold set_mask.
  destruct (bitmap64_set_ok (fifos_mask g) num Hmw Hn) as (m' & -> & Hw' & Hbits). orun.
  pose proof (take_pend xl w0 scripts w toks qs i t s a Hi Ht Hp) as Hi'.
  eexists _, tt, _, qs. split; [reflexivity |]. split; [| done].
  eapply inv_set_mask; [exact Hw0 | exact Hi' | exact Eg | done | exact Hb | | exact Hbits]. exists i, (set_pend s (Some a) t). rewrite list_lookup_insert_eq by (by eapply lookup_lt_Some). split; [done |].
  rewrite pend_set. by rewrite decide_True.
Qed.

Lemma unset_mask_ok i t s a ga num :
  bound s a ga num -> wp i (mask_fifo a ga (sel s) unset_mask) (fun _ u => u = t) t.
Proof using Hw0.
  intros Hb. apply wp_sect_same. intros bs w toks qs Hi Ht.
  destruct (bound_group xl w0 qs0 scripts Hw0 w toks qs s a ga num Hi Hb) as (g & Eg & Hn & _ & _ & Hrw & Hmw & Hsp).
  pose proof Hb as (f0 & E0 & _). destruct (fifo_there xl w0 scripts w toks qs a Hi ltac:(by eexists)) as [f E].
  destruct (fifo_poll xl w0 qs0 Hw0 w a f s (inv_static _ _ _ _ _ _ _ Hi) E) as [[_ Hnb] | (_ & ga' & g' & _ & Hb' & _)];
    [by apply Hnb in Hb |]. destruct (bound_fun xl w0 s a _ _ _ _ Hb Hb') as [<- En].
  unfold get_group. rewrite Eg. orun. rewrite (get_fifo_ok _ _ _ E). orun. rewrite <- En. unfold unset_mask.
  destruct (bitmap64_unset_ok (fifos_mask g) num Hmw Hn) as (m' & -> & Hw' & Hbits). orun.
  eexists _, tt. split; [reflexivity |]. split; [| done]. by eapply inv_unset_mask.
Qed.

Definition enable_side (s : side) (a : Z) : prog fworld unit :=
  match s with Rd => xdp2_fifo_enable_read_poll xl a | Wr => xdp2_fifo_enable_write_poll xl a end.

(** The count that is tested when polling is enabled. *)
Definition side_count (s : side) (f : xdp2_fifo) : outcome Z :=
  match s with Rd => xdp2_fifo_sw_num_in_queue f | Wr => xdp2_fifo_sw_avail_in_queue f end.

Lemma side_count_ok s f q :
  config_fits (conf f) -> ring_ok (conf f) (ring f) q ->
  exists n, side_count s f = Done n /\ (n = 0 -> want s f = false).
Proof.
  intros Hfit Hq. destruct s; cbn [side_count want].
  - rewrite (num_in_queue_ok f q Hfit Hq). eexists. split; [done |]. intros Hz. by rewrite (is_empty_ok f q Hfit Hq), Hz.
  - rewrite (avail_in_queue_ok f q Hfit Hq). eexists. split; [done |]. intros Hz. destruct Hq as (_ & _ & _ & Hf & _).
    rewrite Hf; [done | lia].
Qed.

Lemma enable_tail_ok i t s a ga num :
  bound s a ga num -> pend s t = None ->
  wp i (_ ← mask_fifo a ga (sel s) set_mask;
        b ← read (fun w => f ← get_fifo w a; n ← side_count s f; mret (negb (n =? 0)));
        if (b : bool) then make_side xl s a else mret tt) (fun _ u => u = t) t.
Proof using Hw0.
  intros Hb Hp. assert (is_Some (w_fifos w0 !! a)) as Ha by (destruct Hb as (f & E & _); by exists f).
  eapply wp_unit; [apply (set_mask_ok i t s a ga num); [done | by left] |]. intros _. set (t1 := set_pend s (Some a) t).
  assert (pend s t1 = Some a) as Hp1 by (unfold t1; rewrite pend_set; by rewrite decide_True).
  assert (set_pend s None t1 = t) as Et by (unfold t1; destruct s, t; cbn in *; by subst).
  eapply wp_seq with (Q := fun (b : bool) u => u = if b then t1 else t).
  - apply (wp_recheck xl w0 qs0 scripts Hw0 i s a (fun f => n ← side_count s f; mret (negb (n =? 0)))); [done | by right |].
    intros bs w toks qs f q Hi Ht E Hfit Hq. destruct (side_count_ok s f q Hfit Hq) as (n & -> & Hn). orun.
    eexists. split; [reflexivity |]. destruct (Z.eqb_spec n 0) as [Hz | Hz]; [right | by left]. cbn [negb].
    split; [intros _; by apply Hn | by rewrite Et].
  - intros [|] u ->; [| done]. eapply wpc_mono; [eapply make_side_ok; [done | done | by right] |]. by intros [] u ->.
Qed.

Lemma enable_ok i t s a ops :
  is_Some (w_fifos w0 !! a) -> quiet t -> snd (t_abs t) = OEnable s a :: ops ->
  wp i (enable_side s a) (fun _ u => u = advance RUnit t) t.
Proof using Hw0.
  intros Ha (Hq1 & Hq2 & _) Et.
  assert (pend s (advance RUnit t) = None) as Hp by (by destruct s).
  assert (forall (r : option Z) u, u = advance RUnit t /\ (forall ga, r = Some ga -> exists num, bound s a ga num) ->
    wp i (match r with
          | None => mret tt
          | Some ga => _ ← mask_fifo a ga (sel s) set_mask;
              b ← read (fun w => f ← get_fifo w a; n ← side_count s f; mret (negb (n =? 0)));
              if (b : bool) then make_side xl s a else mret tt
          end) (fun _ u => u = advance RUnit t) u) as Htail.
  { intros [ga |] u [-> Hb]; [| done]. destruct (Hb ga eq_refl) as [num Hb']. by eapply enable_tail_ok. }
  destruct s.
  - eapply wp_seq; [apply (poll_of_ok i t Rd a _ _ Ha Et); constructor | exact Htail].
  - eapply wp_seq; [apply (poll_of_ok i t Wr a _ _ Ha Et); constructor | exact Htail].
Qed.

Lemma disable_ok i t s a ops :
  is_Some (w_fifos w0 !! a) -> snd (t_abs t) = ODisable s a :: ops ->
  wp i (disable_poll xl a (sel s)) (fun _ u => u = advance RUnit t) t.
Proof using Hw0.
  intros Ha Et. unfold disable_poll. eapply wp_seq; [eapply (poll_of_ok i t); [done | exact Et | intros qs; constructor] |].
  intros [ga |] u [-> Hb]; [| done]. destruct (Hb ga eq_refl) as [num Hb']. by eapply unset_mask_ok.
Qed.

(** ** Polling *)

Lemma group_now {bs} w toks qs ga :
  inv_at bs w toks qs -> is_Some (w_groups w0 !! ga) ->
  exists g, w_groups w !! ga = Some g /\ group_magic (gconf g) = XDP2_POLL_GROUP_MAGIC_NUM /\
    group_cond (gconf g) <> 0 /\ group_fits g.
Proof using Hw0.
  intros Hi [g0 E0]. destruct (static_group w0 w ga g0 (inv_static _ _ _ _ _ _ _ Hi) E0) as (g & Eg & Ec).
  destruct (wo_group _ _ _ Hw0 ga g0 E0) as (Hm & Hc & _). exists g. rewrite Ec. split_and!; try done.
  apply (inv_groups _ _ _ _ _ _ _ Hi ga g Eg).
Qed.

Lemma start_next g v : group_fits g -> next_hit g v -> (v <? 128) = true -> 0 <= (v + 1) mod 128 < 128.
Proof. intros _ _ _. apply Z.mod_pos_bound. lia. Qed.

Lemma sw_poll_ok i t ga wait :
  is_Some (w_groups w0 !! ga) -> wp i (__xdp2_fifo_sw_poll ga wait) (fun _ u => u = t) t.
Proof using Hw0.
  intros Hg. unfold __xdp2_fifo_sw_poll. eapply wp_unit with (t' := t).
  - apply wp_sect_same. intros bs w toks qs Hi Ht. destruct (group_now w toks qs ga Hi Hg) as (g & Eg & Hm & Hc & Hfit).
    unfold get_group, try_poll. rewrite Eg. orun. rewrite check_magic by done. orun.
    destruct (poll_find_ok g Hfit) as (v & -> & Hv). orun. unfold XDP2_POLL_GROUP_MAX_FIFOS.
    destruct (v <? 128); [| destruct wait; cbn [negb]; [destruct (Z.eqb_spec (group_cond (gconf g)) 0); [done |] |]];
      (eexists _, _; split; [reflexivity |]; split; [| done]); eapply inv_group_same; try done; try apply Hfit.
    apply Z.mod_pos_bound. lia.
  - intros [v | c]; [done |]. apply wp_wait. intros bs w toks qs Hi Ht. destruct (group_now w toks qs ga Hi Hg) as (g & Eg & Hm & Hc & Hfit).
    unfold get_group. rewrite Eg. orun. destruct (poll_find_ok g Hfit) as (v & -> & Hv). orun.
    eexists _, _, t, qs. split; [reflexivity |]. rewrite list_insert_id by done. split; [done |]. by destruct (_ <=? _).
Qed.

Lemma mask_word_ok i t ga k :
  is_Some (w_groups w0 !! ga) -> (k < 2)%nat -> wp i (mask_word ga k) (fun m u => u = t /\ 0 <= m < 2 ^ 64) t.
Proof using Hw0.
  intros Hg Hk. apply wp_read_same. intros bs w toks qs Hi Ht. destruct (group_now w toks qs ga Hi Hg) as (g & Eg & _ & _ & _ & [Hok Hl] & _).
  unfold get_group. rewrite Eg. orun. destruct (lookup_lt_is_Some_2 (fifos_mask g) k) as [m E]; [lia |]. rewrite E.
  exists m. split_and!; [reflexivity | reflexivity |..]; apply (Forall_lookup_1 _ _ _ _ (proj1 Hok) E).
Qed.

(** Any two words can be searched, whenever they were read. *)
Lemma find_unlocked_ok i t ga pos :
  is_Some (w_groups w0 !! ga) -> 0 <= pos < 128 -> wp i (find_unlocked ga pos) (fun _ u => u = t) t.
Proof using Hw0.
  intros Hg Hpos. eapply wp_seq; [apply (mask_word_ok i t ga 0 Hg); lia |]. intros m0 u [-> H0].
  eapply wp_seq; [apply (mask_word_ok i t ga 1 Hg); lia |]. intros m1 u [-> H1].
  apply wp_read_same. intros bs w toks qs Hi Ht. unfold bitmap64_find, xdp2_bitmap_find, bitmap_find_funct. rewrite Z.add_0_r.
  assert (u32 pos = pos) as -> by (apply Z.mod_small; lia).
  destruct (XDP2_BITMAP_1ARG_find (w := 64) (conv := fun v => v) (nw := 0) word64 false [m0; m1] pos 128) as (r & E & _);
    [split; [apply Forall_cons_2; [done |]; apply Forall_cons_2; [done | apply Forall_nil_2] | by left] | unfold bm_words; cbn; lia .. |].
  unfold XDP2_POLL_GROUP_MAX_FIFOS. rewrite E. by eexists.
Qed.

Lemma no_poll_ok i t ga : is_Some (w_groups w0 !! ga) -> wp i (xdp2_fifo_poll_no_poll ga) (fun _ u => u = t) t.
Proof using Hw0.
  intros Hg. eapply wp_seq with (Q := fun pos u => u = t /\ 0 <= pos < 128).
  { apply wp_read_same. intros bs w toks qs Hi Ht. destruct (group_now w toks qs ga Hi Hg) as (g & Eg & _ & _ & _ & _ & Hsp).
    unfold get_group. rewrite Eg. by eexists. }
  intros pos u [-> Hpos]. eapply wp_unit; [by apply find_unlocked_ok |]. intros v.
  eapply wp_unit with (t' := t); [destruct (_ <=? v); [by apply find_unlocked_ok | done] |]. clear v. intros v.
  eapply wp_unit with (t' := t); [| done]. destruct (_ <? _); [| done].
  apply wp_sect_same. intros bs w toks qs Hi Ht. destruct (group_now w toks qs ga Hi Hg) as (g & Eg & _ & _ & Hfit).
  unfold get_group. rewrite Eg. orun. eexists _, _. split; [reflexivity |]. split; [| done].
  eapply inv_group_same; try done; try apply Hfit. apply Z.mod_pos_bound. lia.
Qed.

Lemma poll_ok i t ga wait ops :
  is_Some (w_groups w0 !! ga) -> snd (t_abs t) = OPoll ga wait :: ops ->
  wp i (xdp2_fifo_poll xl ga wait) (fun v u => u = advance (RPoll v) t) t.
Proof using Hw0.
  intros Hg Et. unfold xdp2_fifo_poll, __xdp2_fifo_poll. eapply wp_unit with (t' := t).
  { apply wp_modify_same. intros bs w toks qs Hi Ht. destruct (group_now w toks qs ga Hi Hg) as (g & Eg & _).
    by eapply bump_group_ok. }
  intros _. eapply wp_unit with (t' := t).
  { apply wp_read_same. intros bs w toks qs Hi Ht. destruct (group_now w toks qs ga Hi Hg) as (g & Eg & _).
    unfold get_group. rewrite Eg. by eexists. }
  intros no_poll. eapply wp_unit with (t' := t); [destruct no_poll; [by apply no_poll_ok | by apply sw_poll_ok] |]. intros v.
  eapply wp_unit with (t' := advance (RPoll v) t).
  { apply wp_sect. intros bs w toks qs Hi Ht. destruct (group_now w toks qs ga Hi Hg) as (g & Eg & _).
    edestruct (bump_group_ok xl w0 qs0 scripts Hw0 (bs := (i, bs)) w) as (w' & E & Hi'); [exact Hi | exact Eg | rewrite E].
    eexists _, _, _, qs. split; [reflexivity |]. split; [| done]. eapply inv_abs_only; [exact Hi' | exact Ht | exact Et | constructor]. }
  intros _. eapply wp_unit with (t' := advance (RPoll v) t); [| done]. destruct (_ <? _); [| done].
  apply wp_sect_same. intros bs w toks qs Hi Ht. destruct (group_now w toks qs ga Hi Hg) as (g & Eg & _ & _ & Hfit).
  unfold get_group. rewrite Eg. orun. eexists _, _. split; [reflexivity |]. split; [| done].
  eapply inv_group_same; try done. apply Hfit.
Qed.

(** ** Scripts *)

Lemma op_prog_ok i o t ops sc :
  scripts !! i = Some sc -> o ∈ sc -> op_ok w0 o -> quiet t -> snd (t_abs t) = o :: ops ->
  wp i (op_prog xl o) (fun r u => u = advance r t) t.
Proof using Hw0.
  intros Hsc Ho Hok Hq Et. destruct o as [a num msg wait | a num wait | s a | s a | ga wait]; cbn [op_prog].
  - eapply wp_seq; [eapply enqueue_ok; try done; by eexists _, _, _, _ |]. by intros b u ->.
  - eapply wp_seq; [by eapply dequeue_ok |]. by intros b u ->.
  - destruct s; (eapply wp_unit; [exact (enable_ok i t _ a ops Hok Hq Et) | done]).
  - destruct s; (eapply wp_unit; [exact (disable_ok i t _ a ops Hok Et) | done]).
  - eapply wp_seq; [by eapply poll_ok |]. by intros v u ->.
Qed.

Lemma script_ok i sc : scripts !! i = Some sc -> forall ops acc,
  (forall o, o ∈ ops -> o ∈ sc /\ op_ok w0 o) ->
  wp i (script xl ops acc) (fun r u => u = idle (r, [])) (idle (acc, ops)).
Proof using Hw0.
  intros Hsc. induction ops as [| o ops IH]; intros acc Hops; [done |]. cbn [script].
  destruct (Hops o ltac:(by left)) as [Ho Hok].
  eapply wp_seq; [by eapply op_prog_ok |]. intros r u ->. apply IH. intros o' Ho'. apply Hops. by right.
Qed.
End Script.
