(* ===== verification/FifoProps.v ===== *)
(** * FIFOs: properties

    Any number of threads, any interleaving of their sections, condition
    variables that may wake a thread without a signal. *)

From stdpp Require Import base list gmap relations numbers.
From S2P Require Import Prelude ObjAlloc BitmapWord Bitmap BitmapSpec Conc Fifo FifoSpec FifoInv FifoOps FifoScript.

(** The setting: FIFOs and poll groups that have been initialized and bound, no
    polling enabled yet, scripts whose operations have what they need. *)
Definition shared_ok (xl : list xdp2_addr_xlat) (w0 : fworld) (qs0 : queues) (scripts : list (list op)) : Prop :=
  world_ok xl w0 qs0 /\
  (forall ga g j, w_groups w0 !! ga = Some g -> 0 <= j < 128 -> gbit (fifos_mask g) j = false) /\
  (forall i ops o, scripts !! i = Some ops -> o ∈ ops -> op_ok w0 o).

Definition start_scripts (xl : list xdp2_addr_xlat) (w0 : fworld) (scripts : list (list op)) : config fworld (list res) :=
  start w0 ((fun ops => script xl ops []) <$> scripts).

Definition abs_start (scripts : list (list op)) : list abs_thread := (fun ops => ([], ops)) <$> scripts.

(** Every thread has returned. *)
Definition all_returned {A} (c : config fworld A) : Prop :=
  forall i t, snd c !! i = Some t -> is_Some (returned (snd t)).

Section Props.
Context (xl : list xdp2_addr_xlat) (w0 : fworld) (qs0 : queues) (scripts : list (list op)).
Context (Hok : shared_ok xl w0 qs0 scripts).

Abbreviation cinv := (config_inv (Inv xl w0 scripts) (abs_rel w0) (fun _ (r : list res) u => u = idle (r, []))).

Lemma abs_of_idle : t_abs <$> (idle <$> abs_start scripts) = abs_start scripts.
Proof. rewrite <- list_fmap_compose. apply list_fmap_id. Qed.

Lemma inv_start : cinv (start_scripts xl w0 scripts) (idle <$> abs_start scripts) qs0.
Proof using Hok.
  destruct Hok as (Hw0 & Hmask & Hops). apply config_inv_start.
  - split.
    + by split.
    + intros ga g Eg. by eapply wo_group.
    + by eapply wo_rings.
    + apply rtc_refl.
    + intros s a f ga g num _ _ (f0 & E0 & Hp & Er) Eg Hm _.
      destruct (wo_poll _ _ _ Hw0 s a f0 E0 Hp) as (ga' & g' & Er' & _ & Hn). rewrite Er in Er'. injection Er' as -> ->.
      rewrite (Hmask _ _ _ Eg Hn) in Hm. done.
    + intros i t a Ht Hf. rewrite list_lookup_fmap in Ht. destruct (abs_start scripts !! i); [| done]. cbn in Ht. by simplify_eq.
  - unfold abs_start. by rewrite !length_fmap.
  - intros i p t Ep Et. unfold abs_start in Et. rewrite !list_lookup_fmap in Et. rewrite list_lookup_fmap in Ep.
    destruct (scripts !! i) as [ops |] eqn:E; [| done]. cbn in Ep, Et. simplify_eq.
    eapply script_ok; [exact Hw0 | exact E |]. intros o Ho. split; [done | by eapply Hops].
Qed.

Lemma inv_reached sp l c :
  execs sp l (start_scripts xl w0 scripts) c ->
  exists toks qs, cinv c toks qs /\ lockstep (abs_rel w0) l (idle <$> abs_start scripts, qs0) (toks, qs).
Proof using Hok.
  intros Hl. eapply config_inv_execs; [| exact Hl | exact inv_start]. intros j x. apply rtc_refl.
Qed.

(** Tokens of threads that have returned are idle. *)
Lemma returned_idle c toks qs s a : cinv c toks qs -> all_returned c -> ~ pending s toks a.
Proof.
  intros Hc Hr (i & t & Et & Hp). pose proof Hc as (_ & Hl & _).
  destruct (snd c !! i) as [[b p] |] eqn:E; [| apply lookup_ge_None in E; apply lookup_lt_Some in Et; lia].
  destruct (Hr i _ E) as [r Er]. destruct (config_inv_returned _ _ _ _ _ _ _ _ _ _ Hc E Er) as (t' & Et' & ->).
  rewrite Et in Et'. injection Et' as ->. by destruct s.
Qed.
End Props.

(** C5: the threads run scripts of enqueues, dequeues, enabling, disabling and
    polling on FIFOs and poll groups that are initialised, bound to poll numbers of
    their own or unbound, and not yet enabled when they start, with messages that
    fit the entries and condition variables where they wait ([shared_ok]); binding
    and unbinding are no operations of the scripts ([fifo_unbind_race_crashes]
    shows why). In every execution, no thread crashes in its next section; and
    there is an execution of the abstract machine, whose operations are single
    steps on bounded queues of messages, in which every thread moves only when it
    moves in the given one, the queues are those in the rings, and every thread
    that has returned has got the same results. *)
Theorem fifo_linearizable xl w0 qs0 scripts sp l c :
  shared_ok xl w0 qs0 scripts -> execs sp l (start_scripts xl w0 scripts) c ->
  (forall i t, snd c !! i = Some t -> exists w' p', section (fst c) (snd t) = Done (w', p')) /\
  exists qs ts,
    lockstep (fun i => rtc (abs_step (cap w0) i)) l (qs0, abs_start scripts) (qs, ts) /\
    rings (fst c) qs /\
    forall i b p r, snd c !! i = Some (b, p) -> returned p = Some r -> ts !! i = Some (r, []).
Proof.
  intros Hok Hl. destruct (inv_reached xl w0 qs0 scripts Hok sp l c Hl) as (toks & qs & Hc & Hlock). split.
  - intros i t Et. destruct c as [w ts]. by eapply config_inv_safe.
  - exists qs, (t_abs <$> toks). split_and!.
    + apply (lockstep_map _ (fun i => rtc (abs_step (cap w0) i)) (fun x => (snd x, t_abs <$> fst x))) in Hlock; [| done].
      cbn in Hlock. by rewrite abs_of_idle in Hlock.
    + destruct Hc as (Hi & _). apply Hi.
    + intros i b p r E Er. destruct (config_inv_returned _ _ _ _ _ _ _ _ _ _ Hc E Er) as (t & Et & ->).
      by rewrite list_lookup_fmap, Et.
Qed.

(** C6: when all threads have returned, a FIFO that is enabled in its poll group is
    marked ready to read if it holds a message; if only one thread enqueues to
    it, it is marked ready to write if it has not been full since it last fell
    below its low water mark. A poll of the group then finds a FIFO. *)
Theorem fifo_readiness_not_lost xl w0 qs0 scripts sp l c s a f ga g num :
  shared_ok xl w0 qs0 scripts -> execs sp l (start_scripts xl w0 scripts) c -> all_returned c ->
  bound xl w0 s a ga num -> w_fifos (fst c) !! a = Some f -> w_groups (fst c) !! ga = Some g ->
  gbit (fifos_mask g) num = true -> want s f = true -> (s = Wr -> single scripts a) ->
  gbit (fifos_ready g) num = true /\ exists v, poll_find g = Done v /\ 0 <= v < 128 /\ hit g v = true.
Proof.
  intros Hok Hl Hret Hb Ef Eg Hm Hw Hs. destruct (inv_reached xl w0 qs0 scripts Hok sp l c Hl) as (toks & qs & Hc & _).
  pose proof Hc as (Hi & _). assert (gbit (fifos_ready g) num = true) as Hr.
  { destruct (inv_ready _ _ _ _ _ _ _ Hi s a f ga g num) as [H | H]; try done.
    - destruct s; [done | by apply Hs].
    - exfalso. eapply returned_idle; [exact Hc | done | exact H]. }
  split; [done |]. destruct (poll_find_ok g) as (v & E & Hv); [by eapply inv_groups |]. exists v. split; [done |].
  destruct Hv as [(Hv & Hh & _) | [_ Hno]]; [done |]. exfalso. pose proof Hb as (f0 & E0 & Hp & Er).
  destruct (wo_poll _ _ _ (proj1 Hok) s a f0 E0 Hp) as (ga' & g' & Er' & _ & Hn). rewrite Er in Er'. injection Er' as -> ->.
  specialize (Hno _ Hn). unfold hit in Hno. by rewrite Hr, Hm in Hno.
Qed.

(** ** Round robin *)

(** The results of [n] polls that do not wait, one after the other. *)
Fixpoint polls (n : nat) (g : xdp2_fifo_poll_group) : outcome (list Z) :=
  match n with
  | O => mret []
  | S n =>
    '(g, r) ← try_poll false g;
    l ← polls n g;
    mret (match r with inl v => v :: l | inr _ => l end)
  end.

Section Polls.
Context (j : Z) (Hj : 0 <= j < 128).

(** The group a poll leaves behind. *)
Lemma try_poll_hit g :
  group_fits g -> group_magic (gconf g) = XDP2_POLL_GROUP_MAGIC_NUM -> hit g j = true ->
  exists v g', try_poll false g = Done (g', inl v) /\ g' = set_start_pos ((v + 1) mod 128) g /\ group_fits g' /\
    0 <= v < 128 /\ hit g v = true /\ (v - start_pos g) mod 128 <= (j - start_pos g) mod 128.
Proof using Hj.
  intros Hfit Hm Hh. unfold try_poll. rewrite check_magic by done. orun.
  destruct (poll_find_ok g Hfit) as (v & -> & Hv). orun. destruct Hv as [(Hv & Hhv & Hmin) | [_ Hno]]; [| by rewrite Hno in Hh].
  unfold XDP2_POLL_GROUP_MAX_FIFOS. destruct (Z.ltb_spec v 128); [| lia]. pose proof Hfit as (Hrw & Hmw & Hsp).
  exists v. eexists. split; [done |]. split; [done |]. split; [split_and!; try done; apply Z.mod_pos_bound; lia |].
  split; [done |]. split; [done |]. by apply Hmin.
Qed.

Lemma polls_total n : forall g,
  group_fits g -> group_magic (gconf g) = XDP2_POLL_GROUP_MAGIC_NUM -> hit g j = true ->
  exists l, polls n g = Done l /\ length l = n /\ Forall (fun v => 0 <= v < 128 /\ hit g v = true) l.
Proof using Hj.
  induction n as [| n IH]; intros g Hfit Hm Hh; [by exists [] |]. cbn [polls].
  destruct (try_poll_hit g Hfit Hm Hh) as (v & g' & -> & -> & Hfit' & Hv & Hhv & _). orun.
  destruct (IH _ Hfit' Hm Hh) as (l & -> & Hl & Hall). orun. eexists. split; [done |]. split; [cbn; by rewrite Hl |].
  by constructor.
Qed.

Lemma polls_reach n : forall g,
  group_fits g -> group_magic (gconf g) = XDP2_POLL_GROUP_MAGIC_NUM -> hit g j = true ->
  (j - start_pos g) mod 128 < Z.of_nat n -> exists l, polls n g = Done l /\ j ∈ l.
Proof using Hj.
  induction n as [| n IH]; intros g Hfit Hm Hh Hd; [pose proof (Z.mod_pos_bound (j - start_pos g) 128 ltac:(lia)); lia |].
  cbn [polls]. destruct (try_poll_hit g Hfit Hm Hh) as (v & g' & -> & -> & Hfit' & Hv & Hhv & Hle). orun.
  destruct (decide (v = j)) as [-> | Hne].
  - destruct (polls_total n _ Hfit' Hm Hh) as (l & -> & _). orun. eexists. split; [done |]. by left.
  - destruct (IH (set_start_pos ((v + 1) mod 128) g) Hfit' Hm Hh) as (l & -> & Hin).
    + pose proof Hfit as (_ & _ & Hsp). cbn [start_pos set_start_pos].
      assert ((v + 1) mod 128 = if v =? 127 then 0 else v + 1) as ->.
      { destruct (Z.eqb_spec v 127) as [-> |]; [done | apply Z.mod_small; lia]. }
      rewrite !dist_up in * by (repeat zcase; lia). repeat zcase; repeat zcase_in Hle; repeat zcase_in Hd; lia.
    + orun. eexists. split; [done |]. by right.
Qed.
End Polls.

(** A number that stays ready and enabled is returned by one of any 128
    consecutive polls of its group, and polls return only such numbers. *)
Theorem fifo_poll_round_robin g j :
  group_fits g -> group_magic (gconf g) = XDP2_POLL_GROUP_MAGIC_NUM -> 0 <= j < 128 -> hit g j = true ->
  exists l, polls 128 g = Done l /\ j ∈ l /\ Forall (fun v => 0 <= v < 128 /\ hit g v = true) l.
Proof.
  intros Hfit Hm Hj Hh. pose proof (Z.mod_pos_bound (j - start_pos g) 128 ltac:(lia)).
  destruct (polls_reach j Hj 128 g Hfit Hm Hh ltac:(lia)) as (l & E & Hin).
  destruct (polls_total j Hj 128 g Hfit Hm Hh) as (l' & E' & _ & Hall). rewrite E in E'. injection E' as <-. by exists l.
Qed.

(** ** A FIFO of two entries, bound for reading and for writing *)

Definition setup : prog fworld unit :=
  _ ← xdp2_fifo_create [] 100 2 1 0;
  _ ← xdp2_fifo_init_producer 100 11;
  _ ← xdp2_fifo_init_consumer 100 12;
  _ ← xdp2_fifo_init_poll_group_mem 200;
  _ ← xdp2_fifo_init_poll_group [] 200 20 0;
  _ ← xdp2_fifo_bind_fifo_to_read_poll [] 200 100 0;
  xdp2_fifo_bind_fifo_to_write_poll [] 200 100 64.

Definition raw_world : fworld := World ∅ {[200 := zero_group]} ∅ ∅.

Definition sample_fifo : xdp2_fifo :=
  Fifo (FifoConfig 2 1 1 true (-1) XDP2_FIFO_MAGIG_NUM 0) (FifoRing 0 0 false [0; 0]) 12 11
    (PollInfo (-1) 200 0) (PollInfo (-1) 200 64) (FifoCounts 0 0 0).
Definition sample_group : xdp2_fifo_poll_group :=
  PollGroup (GroupConfig (-1) XDP2_POLL_GROUP_MAGIC_NUM false 20 0) false
    (GroupTable (<[64%nat := -1]> (<[0%nat := -1]> (replicate 128 0))) (<[64%nat := 100]> (<[0%nat := 100]> (replicate 128 0))))
    [0; 0] [0; 0] 0.
Definition sample_fworld : fworld := World {[100 := sample_fifo]} {[200 := sample_group]} ∅ ∅.

Lemma setup_sample : run_alone 20 raw_world setup = Some (sample_fworld, tt).
Proof. by vm_compute. Qed.

Definition no_messages : queues := {[100 := []]}.

Lemma sample_world_ok : world_ok [] sample_fworld no_messages.
Proof.
  split.
  - intros a f Ef. cbn in Ef. apply lookup_singleton_Some in Ef as [<- <-]. unfold config_fits. cbn. split_and!; try lia; try done; by left.
  - intros s a f Ef _. cbn in Ef. apply lookup_singleton_Some in Ef as [<- <-]. exists 200, sample_group.
    split_and!; [by destruct s | done | by destruct s | by destruct s].
  - intros ga g Eg. cbn in Eg. apply lookup_singleton_Some in Eg as [<- <-].
    assert (words_ok [0; 0]) as Hw.
    { split; [| done]. split; [| by left]. repeat (apply Forall_cons_2; [unfold is_word; lia |]). apply Forall_nil_2. }
    split_and!; try done; by left.
  - intros s a s' a' ga num (f & Ef & _ & Er) (f' & Ef' & _ & Er'). cbn in Ef, Ef'.
    apply lookup_singleton_Some in Ef as [<- <-]. apply lookup_singleton_Some in Ef' as [<- <-]. split; [| done].
    destruct s, s'; vm_compute in Er, Er'; congruence.
  - intros a f Ef. cbn in Ef. apply lookup_singleton_Some in Ef as [<- <-]. exists []. split; [done |].
    unfold ring_ok. cbn. split_and!; done.
Qed.

Lemma sample_shared scripts :
  Forall (Forall (op_ok sample_fworld)) scripts -> shared_ok [] sample_fworld no_messages scripts.
Proof.
  intros H. split_and!; [exact sample_world_ok | |].
  - intros ga g j Eg Hj. cbn in Eg. apply lookup_singleton_Some in Eg as [<- <-]. unfold gbit, bm_bit, bm_word. cbn [fifos_mask sample_group].
    destruct (Z.to_nat (word_index 0 (j / 64))) as [| [| k]]; cbn; apply Z.testbit_0_l.
  - intros i ops o Ei Ho. eapply Forall_lookup_1 in H; [| exact Ei]. rewrite Forall_forall in H. by apply H, list_elem_of_In.
Qed.

(** Operations on the sample that do not wait, or find their condition variable. *)
Ltac sample_ops :=
  repeat (apply Forall_cons_2; [repeat (apply Forall_cons_2; [| try apply Forall_nil_2]) |]); try apply Forall_nil_2; cbn;
  first [by eexists | eexists; split; [reflexivity | cbn; repeat split; try lia; done]].

(** Where an interleaving ends. *)
Definition run_end (scripts : list (list op)) (l : list nat) : config fworld (list res) :=
  default (start_scripts [] sample_fworld scripts) (run_threads l (start_scripts [] sample_fworld scripts)).

Lemma run_end_execs sp scripts l :
  is_null (run_threads l (start_scripts [] sample_fworld scripts)) = false ->
  execs sp l (start_scripts [] sample_fworld scripts) (run_end scripts l).
Proof.
  unfold run_end. destruct (run_threads l _) as [c |] eqn:E; [| done]. intros _. by eapply run_threads_execs.
Qed.

Lemma all_returned_test {A} (c : config fworld A) :
  forallb (fun t => negb (is_null (returned (snd t)))) (snd c) = true -> all_returned c.
Proof.
  rewrite forallb_forall. intros H i t Et. specialize (H t ltac:(by eapply list_elem_of_In, list_elem_of_lookup_2)).
  by destruct (returned (snd t)).
Qed.

(** A producer that enables polling, and a consumer that polls. *)
Definition two_scripts : list (list op) :=
  [[OEnable Rd 100; OEnq 100 1 [1] false; OEnq 100 1 [2] false]; [ODeq 100 1 false; OPoll 200 false]].
Definition two_order : list nat := (replicate 6 0 ++ [1; 0; 1; 0; 1; 0; 1] ++ replicate 15 0 ++ replicate 14 1)%nat.

Lemma two_shared : shared_ok [] sample_fworld no_messages two_scripts.
Proof. apply sample_shared. sample_ops. Qed.

Lemma two_execs : execs true two_order (start_scripts [] sample_fworld two_scripts) (run_end two_scripts two_order).
Proof. apply run_end_execs. by vm_compute. Qed.

Lemma fifo_linearizable_witness :
  (exists qs ts,
     lockstep (fun i => rtc (abs_step (cap sample_fworld) i)) two_order (no_messages, abs_start two_scripts) (qs, ts) /\
     ts = [([RUnit; REnq true; REnq true], []); ([RDeq (Some [1]); RPoll 0], [])]).
Proof.
  destruct (fifo_linearizable [] sample_fworld no_messages two_scripts true two_order (run_end two_scripts two_order)
    two_shared two_execs) as (_ & qs & ts & Hlock & _ & Hres).
  exists qs, ts. split; [exact Hlock |].
  assert (length ts = 2%nat) as Hlen.
  { clear Hres. remember (no_messages, abs_start two_scripts) as x eqn:Ex. remember (qs, ts) as y eqn:Ey.
    assert (length (snd y) = length (snd x)) as H.
    { clear Ex Ey. induction Hlock as [x | i l x y z Hr _ IH]; [done |]. rewrite IH.
      clear -Hr. induction Hr as [x | x y z [] _ IH]; [done |]. rewrite IH. cbn. apply length_insert. }
    subst. done. }
  destruct ts as [| t0 [| t1 [|]]]; try done.
  pose proof (Hres 0%nat false (Ret [RUnit; REnq true; REnq true]) _ ltac:(vm_compute; reflexivity) eq_refl) as H0.
  pose proof (Hres 1%nat false (Ret [RDeq (Some [1]); RPoll 0]) _ ltac:(vm_compute; reflexivity) eq_refl) as H1.
  cbn in H0, H1. by simplify_eq.
Defined.

Definition two_end_fifo : xdp2_fifo := default sample_fifo (w_fifos (fst (run_end two_scripts two_order)) !! 100).
Definition two_end_group : xdp2_fifo_poll_group := default sample_group (w_groups (fst (run_end two_scripts two_order)) !! 200).

Lemma bound_sample s : bound [] sample_fworld s 100 200 (match s with Rd => 0 | Wr => 64 end).
Proof. exists sample_fifo. split_and!; by destruct s. Qed.

Lemma fifo_readiness_not_lost_witness :
  gbit (fifos_ready two_end_group) 0 = true /\
  exists v, poll_find two_end_group = Done v /\ 0 <= v < 128 /\ hit two_end_group v = true.
Proof.
  apply (fifo_readiness_not_lost [] sample_fworld no_messages two_scripts true two_order (run_end two_scripts two_order)
    Rd 100 two_end_fifo 200 two_end_group 0 two_shared two_execs).
  - apply all_returned_test. by vm_compute.
  - apply (bound_sample Rd).
  - by vm_compute.
  - by vm_compute.
  - by vm_compute.
  - by vm_compute.
  - done.
Defined.

Definition ready_group : xdp2_fifo_poll_group := set_fifos_ready [9; 0] (set_fifos_mask [9; 0] (set_start_pos 2 sample_group)).

Lemma fifo_poll_round_robin_witness :
  exists l, polls 128 ready_group = Done l /\ 0 ∈ l /\ Forall (fun v => 0 <= v < 128 /\ hit ready_group v = true) l.
Proof.
  apply (fifo_poll_round_robin ready_group 0); [| done | lia | by vm_compute].
  assert (words_ok [9; 0]) as Hw.
  { split; [| done]. split; [| by left]. repeat (apply Forall_cons_2; [unfold is_word; lia |]). apply Forall_nil_2. }
  split_and!; done.
Defined.

(** ** What is lost *)

(** Two producers and a consumer. *)
Definition race_scripts : list (list op) :=
  [[OEnable Wr 100; OEnq 100 1 [1] false; OEnq 100 1 [2] false];
   [ODeq 100 1 false; ODeq 100 1 false; ODeq 100 1 false]; [OEnq 100 1 [3] false]].
Definition race_order : list nat :=
  (replicate 21 0 ++ replicate 16 1 ++ replicate 8 2 ++ replicate 4 0 ++ replicate 8 1)%nat.

(** With two producers the readiness to write can be lost: the first producer
    fills the FIFO; before it marks it not writable the consumer empties it and
    marks it writable, and the second producer enqueues one message; then the
    first producer clears the mark, sees a message count that is not below the
    low water mark and leaves. All threads return, the FIFO is empty and enabled,
    and not marked writable. *)
Theorem fifo_two_producers_lose_writable :
  shared_ok [] sample_fworld no_messages race_scripts /\
  exists c f g, execs false race_order (start_scripts [] sample_fworld race_scripts) c /\ all_returned c /\
    w_fifos (fst c) !! 100 = Some f /\ w_groups (fst c) !! 200 = Some g /\ bound [] sample_fworld Wr 100 200 64 /\
    xdp2_fifo_sw_is_empty f = true /\ gbit (fifos_mask g) 64 = true /\ gbit (fifos_ready g) 64 = false.
Proof.
  split; [apply sample_shared; sample_ops |].
  exists (run_end race_scripts race_order),
    (default sample_fifo (w_fifos (fst (run_end race_scripts race_order)) !! 100)),
    (default sample_group (w_groups (fst (run_end race_scripts race_order)) !! 200)).
  split; [apply run_end_execs; by vm_compute |]. split; [apply all_returned_test; by vm_compute |].
  split; [by vm_compute |]. split; [by vm_compute |]. split; [apply (bound_sample Wr) |].
  split; [by vm_compute |]. split; by vm_compute.
Qed.

(** Two consumers that wait, and a producer. *)
Definition wake_scripts : list (list op) :=
  [[ODeq 100 1 true]; [ODeq 100 1 true]; [OEnq 100 1 [1] false; OEnq 100 1 [2] false]].
Definition wake_order : list nat := ([0; 1] ++ replicate 14 2 ++ [0; 0])%nat.

(** With two consumers a wakeup can be lost: both wait, two messages are
    enqueued before the first consumer runs, the second enqueue does not see an
    empty queue and signals nobody. In the end the second consumer waits, nobody
    is left to signal it, and a message is in the queue. *)
Theorem fifo_two_consumers_lose_wakeup :
  shared_ok [] sample_fworld no_messages wake_scripts /\
  exists c f, execs false wake_order (start_scripts [] sample_fworld wake_scripts) c /\
    w_fifos (fst c) !! 100 = Some f /\ xdp2_fifo_sw_num_in_queue f = Done 1 /\
    (fun t => (returned (snd t), blocked_on t)) <$> snd c =
      [(Some [RDeq (Some [1])], None); (None, Some 12); (Some [REnq true; REnq true], None)].
Proof.
  split; [apply sample_shared; sample_ops |].
  exists (run_end wake_scripts wake_order), (default sample_fifo (w_fifos (fst (run_end wake_scripts wake_order)) !! 100)).
  split; [apply run_end_execs; by vm_compute |]. split; [by vm_compute |]. split; by vm_compute.
Qed.

(** Poll groups are not thread safe against unbinding: while a thread enables the
    FIFO for reading, another unbinds it. The first thread has tested and read the
    poll group; the number it then reads under the mutex of the group is that of an
    unbound FIFO, -1, and the bit it sets is outside the mask. *)
Definition unbind_race : option (config fworld unit) :=
  run_threads [0; 0; 1; 1; 1]%nat (start sample_fworld [xdp2_fifo_enable_read_poll [] 100; xdp2_fifo_unbind_fifo_from_read_poll [] 100]).

Lemma fifo_unbind_race_crashes :
  match unbind_race with
  | Some (w, t0 :: t1 :: _) => section w (snd t0) = Crash /\ returned (snd t1) = Some tt
  | _ => False
  end.
Proof. vm_compute. split; reflexivity. Qed.
