(* ===== verification/Paddr.v ===== *)
(** * Packet addresses

    [include/xdp2/pvbuf.h]: a paddr is a 64-bit word with the bit fields of
    [struct xdp2_paddr]. The low order field comes first. The sizes of the fields
    are the defaults: 20 bits of pbuf length, 24 bits of pvbuf index, 44 bits of
    short address offset. *)

From stdpp Require Import base list numbers.
From S2P Require Import Prelude BitmapWord.

(** ** Bit fields *)

(** A bit field: its first bit and its width. *)
Record field := Field { f_lo : Z; f_width : Z }.

Definition bf_get (f : field) (p : Z) : Z := Z.land (Z.shiftr p (f_lo f)) (Z.ones (f_width f)).
Definition bf_set (f : field) (v p : Z) : Z :=
  Z.lor (Z.land p (Z.lnot (Z.shiftl (Z.ones (f_width f)) (f_lo f))))
    (Z.shiftl (Z.land v (Z.ones (f_width f))) (f_lo f)).

Definition paddr_tag := Field 60 4.
Definition pvbuf_data_length := Field 0 32.
Definition pvbuf_index := Field 32 24.
Definition pvbuf_pvbuf_size := Field 56 4.
Definition pbuf_data_length := Field 0 20.
Definition pbuf_offset := Field 20 36.
Definition pbuf_buffer_tag := Field 56 4.
Definition short_data_length := Field 0 18.
Definition short_offset := Field 18 44.
Definition short_paddr_tag := Field 62 2.
Definition long_data_length := Field 0 32.
Definition long_high_offset := Field 32 16.
Definition long_memory_region := Field 48 6.
Definition long_word_num := Field 58 1.
Definition long_one_bit := Field 59 1.
Definition long2_low_offset := Field 0 48.

(** ** Tags *)

Definition XDP2_PADDR_TAG_LONG_ADDR : Z := 0.
Definition XDP2_PADDR_TAG_PVBUF : Z := 1.
Definition XDP2_PADDR_TAG_PBUF : Z := 2.
Definition XDP2_PADDR_TAG_PBUF_1REF : Z := 3.
Definition XDP2_PADDR_NULL : Z := 0.

Definition XDP2_PBUF_MAX_SIZE_SHIFT : Z := 20.
Definition XDP2_PBUF_BASE_SIZE_SHIFT : Z := 6.
Definition XDP2_PBUF_NUM_SIZE_SHIFTS : Z := 15.
Definition XDP2_PVBUF_NUM_SIZES : Z := 16.
Definition XDP2_PVBUF_MAX_LEN : Z := 2 ^ 32.
Definition XDP2_PADDR_SHORT_ADDR_MAX_DATA_LENGTH : Z := 2 ^ 18.
Definition XDP2_PADDR_SHORT_ADDR_MAX_OFFSET : Z := 2 ^ 44.
Definition XDP2_PADDR_LONG_ADDR_MAX_MEM_REGION : Z := 2 ^ 7.
Definition XDP2_PVBUF_MAX_IOVECS : Z := 64.

Definition XDP2_PADDR_TAG_IS_PBUF (t : Z) : bool := (t =? XDP2_PADDR_TAG_PBUF) || (t =? XDP2_PADDR_TAG_PBUF_1REF).
Definition XDP2_PADDR_TAG_IS_PVBUF (t : Z) : bool := t =? XDP2_PADDR_TAG_PVBUF.
Definition XDP2_PADDR_TAG_IS_SHORT_ADDR (t : Z) : bool := negb (Z.land t 0xc =? 0).
Definition XDP2_PADDR_TAG_IS_LONG_ADDR (t : Z) : bool := t =? XDP2_PADDR_TAG_LONG_ADDR.

Definition xdp2_paddr_get_paddr_tag_from_paddr (p : Z) : Z := bf_get paddr_tag p.

Definition XDP2_PADDR_IS_PBUF (p : Z) : bool := XDP2_PADDR_TAG_IS_PBUF (xdp2_paddr_get_paddr_tag_from_paddr p).
Definition XDP2_PADDR_IS_PVBUF (p : Z) : bool := XDP2_PADDR_TAG_IS_PVBUF (xdp2_paddr_get_paddr_tag_from_paddr p).
Definition XDP2_PADDR_IS_SHORT_ADDR (p : Z) : bool := XDP2_PADDR_TAG_IS_SHORT_ADDR (xdp2_paddr_get_paddr_tag_from_paddr p).
Definition XDP2_PADDR_IS_LONG_ADDR (p : Z) : bool := XDP2_PADDR_TAG_IS_LONG_ADDR (xdp2_paddr_get_paddr_tag_from_paddr p).

(** The cases of the switch statements on the tag. Four bits leave no other. *)
Inductive paddr_type := TPvbuf | TPbuf | TPbuf1ref | TShort | TLong.
#[global] Instance paddr_type_eq_dec : EqDecision paddr_type.
Proof. solve_decision. Defined.

Definition ptype (p : Z) : paddr_type :=
  let t := xdp2_paddr_get_paddr_tag_from_paddr p in
  if t =? XDP2_PADDR_TAG_PVBUF then TPvbuf
  else if t =? XDP2_PADDR_TAG_PBUF then TPbuf
  else if t =? XDP2_PADDR_TAG_PBUF_1REF then TPbuf1ref
  else if t =? XDP2_PADDR_TAG_LONG_ADDR then TLong
  else TShort.

(** ** pvbuf addresses *)

(** [((size + 1) * 64 - sizeof(struct xdp2_pvbuf)) / sizeof(struct xdp2_iovec)]. *)
Definition pvbuf_words (size : Z) : Z := ((size + 1) * 64 - 8) / 8.
Definition XDP2_PVBUF_NUM_IOVECS (size : Z) : Z := Z.min (pvbuf_words size) XDP2_PVBUF_MAX_IOVECS.

Definition __xdp2_pvbuf_check_paddr (p : Z) : outcome unit := XDP2_ASSERT (XDP2_PADDR_IS_PVBUF p).
Definition xdp2_pvbuf_get_data_len_from_paddr (p : Z) : outcome Z :=
  _ ← __xdp2_pvbuf_check_paddr p; mret (bf_get pvbuf_data_length p).
Definition xdp2_pvbuf_index_from_paddr (p : Z) : outcome Z :=
  _ ← __xdp2_pvbuf_check_paddr p; mret (bf_get pvbuf_index p).
Definition xdp2_pvbuf_get_size_from_paddr (p : Z) : outcome Z :=
  _ ← __xdp2_pvbuf_check_paddr p; mret (bf_get pvbuf_pvbuf_size p).
Definition XDP2_PVBUF_NUM_IOVECS_FROM_PADDR (p : Z) : outcome Z :=
  size ← xdp2_pvbuf_get_size_from_paddr p; mret (XDP2_PVBUF_NUM_IOVECS size).

Definition xdp2_pvbuf_make_paddr (size zindex : Z) : outcome Z :=
  _ ← XDP2_ASSERT (zindex <? 2 ^ 24);
  _ ← XDP2_ASSERT (size <? XDP2_PVBUF_NUM_SIZES);
  mret (bf_set pvbuf_pvbuf_size size (bf_set pvbuf_index zindex (bf_set paddr_tag XDP2_PADDR_TAG_PVBUF 0))).

(** The word that [xdp2_pvbuf_set_pvbuf_iovec] stores. *)
Definition xdp2_pvbuf_set_pvbuf_iovec (p len : Z) : outcome Z :=
  _ ← __xdp2_pvbuf_check_paddr p;
  _ ← XDP2_ASSERT (len <? XDP2_PVBUF_MAX_LEN);
  mret (bf_set pvbuf_data_length len p).

(** ** pbuf addresses *)

Definition __xdp2_pbuf_check_paddr (p : Z) : outcome unit := XDP2_ASSERT (XDP2_PADDR_IS_PBUF p).

(** One for the buffer tag of a length of 1 << 20. *)
Definition tag_15 (p : Z) : Z := Z.b2z (bf_get pbuf_buffer_tag p =? XDP2_PBUF_NUM_SIZE_SHIFTS).

Definition xdp2_pbuf_get_data_len_from_paddr (p : Z) : outcome Z :=
  _ ← __xdp2_pbuf_check_paddr p; mret (bf_get pbuf_data_length p + tag_15 p).
Definition xdp2_pbuf_get_offset_from_paddr (p : Z) : outcome Z :=
  _ ← __xdp2_pbuf_check_paddr p; mret (bf_get pbuf_offset p).
Definition xdp2_pbuf_buffer_tag_to_size_shift (btag : Z) : Z :=
  (if btag =? XDP2_PBUF_NUM_SIZE_SHIFTS then u32 (btag - 1) else btag) + XDP2_PBUF_BASE_SIZE_SHIFT.
Definition xdp2_pbuf_size_shift_to_buffer_tag (shift : Z) : Z := u32 (shift - XDP2_PBUF_BASE_SIZE_SHIFT).
Definition xdp2_pbuf_size_shift_to_size (shift : Z) : Z := u64 (Z.shiftl 1 shift).
Definition xdp2_pbuf_buffer_tag_to_size (btag : Z) : Z :=
  xdp2_pbuf_size_shift_to_size (xdp2_pbuf_buffer_tag_to_size_shift btag).
Definition xdp2_pbuf_buffer_tag_from_paddr (p : Z) : outcome Z :=
  _ ← __xdp2_pbuf_check_paddr p; mret (bf_get pbuf_buffer_tag p).
Definition xdp2_pbuf_size_from_paddr (p : Z) : outcome Z :=
  t ← xdp2_pbuf_buffer_tag_from_paddr p; mret (xdp2_pbuf_buffer_tag_to_size t).

(** [btag -= (btag == 15)]. *)
Definition owner_tag (btag : Z) : Z := btag - Z.b2z (btag =? XDP2_PBUF_NUM_SIZE_SHIFTS).

(** The base of all callers is NULL. *)
Definition xdp2_pbuf_make_paddr (one_ref : bool) (shift zindex offset length : Z) : outcome Z :=
  _ ← XDP2_ASSERT ((shift <=? XDP2_PBUF_MAX_SIZE_SHIFT) && (XDP2_PBUF_BASE_SIZE_SHIFT <=? shift));
  _ ← XDP2_ASSERT (zindex <? 2 ^ (36 - shift));
  _ ← XDP2_ASSERT (u64 (offset + length) <=? xdp2_pbuf_size_shift_to_size shift);
  let btag := if (shift =? XDP2_PBUF_MAX_SIZE_SHIFT) && (length =? xdp2_pbuf_size_shift_to_size XDP2_PBUF_MAX_SIZE_SHIFT)
              then XDP2_PBUF_NUM_SIZE_SHIFTS else xdp2_pbuf_size_shift_to_buffer_tag shift in
  mret (bf_set pbuf_offset (Z.lor (u64 (Z.shiftl zindex shift)) offset)
          (bf_set paddr_tag (if one_ref then XDP2_PADDR_TAG_PBUF_1REF else XDP2_PADDR_TAG_PBUF)
             (bf_set pbuf_buffer_tag btag 0))).

Definition xdp2_pbuf_set_iovec (p len : Z) : outcome Z :=
  _ ← __xdp2_pbuf_check_paddr p; mret (bf_set pbuf_data_length (u64 (len - tag_15 p)) p).

(** ** Short addresses *)

Definition __xdp2_paddr_short_addr_check (p : Z) : outcome unit := XDP2_ASSERT (XDP2_PADDR_IS_SHORT_ADDR p).
Definition xdp2_paddr_short_addr_get_data_len_from_paddr (p : Z) : outcome Z :=
  _ ← __xdp2_paddr_short_addr_check p; mret (bf_get short_data_length p + 1).
Definition xdp2_paddr_short_addr_get_offset_from_paddr (p : Z) : outcome Z :=
  _ ← __xdp2_paddr_short_addr_check p; mret (bf_get short_offset p).
Definition xdp2_paddr_short_addr_get_mem_region_from_paddr (p : Z) : outcome Z :=
  _ ← __xdp2_paddr_short_addr_check p; mret (bf_get short_paddr_tag p).

Definition xdp2_paddr_short_addr_make_paddr (short_tag offset : Z) : outcome Z :=
  _ ← XDP2_ASSERT ((short_tag =? 1) || (short_tag =? 2) || (short_tag =? 3));
  _ ← XDP2_ASSERT (offset <? XDP2_PADDR_SHORT_ADDR_MAX_OFFSET);
  mret (bf_set short_offset offset (bf_set short_paddr_tag short_tag 0)).

Definition xdp2_paddr_short_addr_set_iovec (p len : Z) : outcome Z :=
  _ ← __xdp2_paddr_short_addr_check p;
  _ ← XDP2_ASSERT (negb (len =? 0));
  _ ← XDP2_ASSERT (len <=? XDP2_PADDR_SHORT_ADDR_MAX_DATA_LENGTH);
  mret (bf_set short_data_length (len - 1) p).

(** ** Long addresses *)

Definition __xdp2_paddr_long_addr_check (p1 p2 : Z) : outcome unit :=
  _ ← XDP2_ASSERT (negb (p1 =? 0));
  _ ← XDP2_ASSERT (XDP2_PADDR_IS_LONG_ADDR p1);
  _ ← XDP2_ASSERT ((bf_get long_word_num p1 =? 0) && negb (bf_get long_one_bit p1 =? 0));
  _ ← XDP2_ASSERT (XDP2_PADDR_IS_LONG_ADDR p2);
  XDP2_ASSERT ((bf_get long_word_num p2 =? 1) && negb (bf_get long_one_bit p2 =? 0)).

Definition xdp2_paddr_long_addr_get_data_len_from_paddr (p1 p2 : Z) : outcome Z :=
  _ ← __xdp2_paddr_long_addr_check p1 p2; mret (bf_get long_data_length p1).
Definition xdp2_paddr_long_addr_get_offset_from_paddr (p1 p2 : Z) : outcome Z :=
  _ ← __xdp2_paddr_long_addr_check p1 p2;
  mret (Z.lor (Z.shiftl (bf_get long_high_offset p1) 48) (bf_get long2_low_offset p2)).
Definition xdp2_paddr_long_addr_set_offset_from_paddr (p1 p2 offset : Z) : outcome (Z * Z) :=
  _ ← __xdp2_paddr_long_addr_check p1 p2;
  mret (bf_set long_high_offset (Z.shiftr offset 48) p1, bf_set long2_low_offset (Z.land offset (Z.ones 48)) p2).
Definition xdp2_paddr_long_addr_get_mem_region_from_paddr (p1 p2 : Z) : outcome Z :=
  _ ← __xdp2_paddr_long_addr_check p1 p2; mret (bf_get long_memory_region p1).

(** The mask of the low offset is [(1 >> 48) - 1], all ones; the field keeps 48
    bits of it. *)
Definition xdp2_paddr_long_addr_make_paddr (mem_region offset : Z) : outcome (Z * Z) :=
  _ ← XDP2_ASSERT (mem_region <? XDP2_PADDR_LONG_ADDR_MAX_MEM_REGION);
  let p1 := bf_set long_word_num 0 (bf_set long_one_bit 1 (bf_set paddr_tag XDP2_PADDR_TAG_LONG_ADDR 0)) in
  let p1 := bf_set long_high_offset (Z.shiftr offset 48) (bf_set long_memory_region mem_region p1) in
  let p2 := bf_set long_word_num 1 (bf_set long_one_bit 1 (bf_set paddr_tag XDP2_PADDR_TAG_LONG_ADDR 0)) in
  mret (p1, bf_set long2_low_offset (Z.land offset (u64 (Z.shiftr 1 48 - 1))) p2).

Definition xdp2_paddr_long_addr_set_iovec (p1 p2 len : Z) : outcome (Z * Z) :=
  _ ← __xdp2_paddr_long_addr_check p1 p2;
  _ ← XDP2_ASSERT (len <? 2 ^ 32);
  let p1 := bf_set long_data_length len p1 in
  _ ← __xdp2_paddr_long_addr_check p1 p2;
  mret (p1, p2).

(** ** Offsets of any address *)

Definition __xdp2_paddr_add_to_offset (p1 p2 n : Z) : outcome (Z * Z) :=
  match ptype p1 with
  | TPbuf | TPbuf1ref => mret (bf_set pbuf_offset (bf_get pbuf_offset p1 + n) p1, p2)
  | TShort => mret (bf_set short_offset (bf_get short_offset p1 + n) p1, p2)
  | TLong =>
    _ ← XDP2_ASSERT (negb (p1 =? 0));
    o ← xdp2_paddr_long_addr_get_offset_from_paddr p1 p2;
    '(p1, p2) ← xdp2_paddr_long_addr_set_offset_from_paddr p1 p2 (u64 (o + n));
    _ ← xdp2_paddr_long_addr_get_offset_from_paddr p1 p2;
    mret (p1, p2)
  | TPvbuf => Crash
  end.

(** ** Packet addresses: what is stored is read back

    Bit fields that do not overlap are independent, so the functions that make and
    change addresses set the fields they are for and keep the others. *)

(** ** Bit fields *)

Definition valid_field (f : field) : Prop := 0 <= f_lo f /\ 0 <= f_width f.
Definition disjoint_fields (f g : field) : Prop := f_lo f + f_width f <= f_lo g \/ f_lo g + f_width g <= f_lo f.

Lemma bf_get_testbit f p i :
  valid_field f -> 0 <= i -> Z.testbit (bf_get f p) i = (i <? f_width f) && Z.testbit p (i + f_lo f).
Proof.
  intros [Hl Hw] Hi. unfold bf_get. rewrite Z.land_spec, Z.shiftr_spec, Z.testbit_ones_nonneg by lia. apply andb_comm.
Qed.

Lemma bf_get_nonneg f p : valid_field f -> 0 <= bf_get f p.
Proof. intros [_ Hw]. unfold bf_get. apply Z.land_nonneg. right. rewrite Z.ones_equiv. pose proof (Z.pow_pos_nonneg 2 (f_width f)). lia. Qed.

Lemma bf_get_range f p : valid_field f -> 0 <= bf_get f p < 2 ^ f_width f.
Proof.
  intros Hf. split; [by apply bf_get_nonneg |]. unfold bf_get. rewrite Z.land_ones by apply Hf.
  apply Z.mod_pos_bound, Z.pow_pos_nonneg; [lia | apply Hf].
Qed.

Lemma bf_set_testbit f v p i :
  valid_field f -> 0 <= i ->
  Z.testbit (bf_set f v p) i =
    if (f_lo f <=? i) && (i <? f_lo f + f_width f) then Z.testbit v (i - f_lo f) else Z.testbit p i.
Proof.
  intros [Hl Hw] Hi. unfold bf_set. rewrite Z.lor_spec, Z.land_spec, Z.lnot_spec, !Z.shiftl_spec by lia.
  destruct (Z.leb_spec (f_lo f) i) as [H1 | H1].
  - rewrite Z.land_spec, Z.testbit_ones_nonneg by lia.
    destruct (Z.ltb_spec (i - f_lo f) (f_width f)), (Z.ltb_spec i (f_lo f + f_width f)); try lia; cbn;
      by rewrite ?andb_true_r, ?andb_false_r, ?orb_false_r.
  - rewrite !(Z.testbit_neg_r _ (i - f_lo f)) by lia. cbn. by rewrite andb_true_r, orb_false_r.
Qed.

Lemma bf_get_set_same f v p : valid_field f -> bf_get f (bf_set f v p) = v mod 2 ^ f_width f.
Proof.
  intros Hf. pose proof Hf as [Hl Hw]. apply Z.bits_inj'. intros i Hi. rewrite bf_get_testbit, bf_set_testbit by (done || lia).
  destruct (Z.ltb_spec i (f_width f)).
  - rewrite Z.mod_pow2_bits_low by lia. destruct (Z.leb_spec (f_lo f) (i + f_lo f)); [| lia].
    destruct (Z.ltb_spec (i + f_lo f) (f_lo f + f_width f)); [| lia]. cbn. f_equal. lia.
  - by rewrite Z.mod_pow2_bits_high by lia.
Qed.

Lemma bf_get_set_small f v p : valid_field f -> 0 <= v < 2 ^ f_width f -> bf_get f (bf_set f v p) = v.
Proof. intros Hf Hv. rewrite bf_get_set_same by done. by apply Z.mod_small. Qed.

Lemma bf_get_set_other f g v p : valid_field f -> valid_field g -> disjoint_fields f g -> bf_get g (bf_set f v p) = bf_get g p.
Proof.
  intros Hf Hg Hd. apply Z.bits_inj'. intros i Hi. rewrite !bf_get_testbit by (done || lia).
  destruct Hf as [Hl Hw], Hg as [Hl' Hw']. destruct (Z.ltb_spec i (f_width g)); [| done]. cbn.
  rewrite bf_set_testbit by (done || lia). destruct Hd as [Hd | Hd];
    destruct (Z.leb_spec (f_lo f) (i + f_lo g)), (Z.ltb_spec (i + f_lo g) (f_lo f + f_width f)); (lia || done).
Qed.

Lemma bf_set_nonneg f v p : valid_field f -> 0 <= p -> 0 <= bf_set f v p.
Proof.
  intros [Hl Hw] Hp. unfold bf_set. apply Z.lor_nonneg. split; [apply Z.land_nonneg; by left |].
  apply Z.shiftl_nonneg, Z.land_nonneg. right. rewrite Z.ones_equiv. pose proof (Z.pow_pos_nonneg 2 (f_width f)). lia.
Qed.

(** The fields of the model are valid; which of them overlap is a computation. *)
Ltac field_side := first [split; cbn; lia | left; cbn; lia | right; cbn; lia].
Ltac bf_simpl :=
  repeat first [rewrite bf_get_set_other by field_side | rewrite bf_get_set_same by field_side
               | rewrite bf_get_set_other in * by field_side].

(** A paddr with a field different from zero is not NULL. *)
Lemma bf_get_0 f : bf_get f 0 = 0.
Proof. unfold bf_get. by rewrite Z.shiftr_0_l, Z.land_0_l. Qed.

Lemma nonzero_of f p : bf_get f p <> 0 -> p <> 0.
Proof. intros H ->. by rewrite bf_get_0 in H. Qed.

(** ** Types *)

Lemma ptype_tag p q : bf_get paddr_tag p = bf_get paddr_tag q -> ptype p = ptype q.
Proof. unfold ptype, xdp2_paddr_get_paddr_tag_from_paddr. by intros ->. Qed.

(** The test macros and the switch agree. *)
Lemma is_pvbuf_ptype p : XDP2_PADDR_IS_PVBUF p = bool_decide (ptype p = TPvbuf).
Proof.
  unfold XDP2_PADDR_IS_PVBUF, XDP2_PADDR_TAG_IS_PVBUF, ptype. set (t := xdp2_paddr_get_paddr_tag_from_paddr p).
  destruct (t =? XDP2_PADDR_TAG_PVBUF); [done |]. repeat case_match; done.
Qed.

Lemma is_long_ptype p : XDP2_PADDR_IS_LONG_ADDR p = bool_decide (ptype p = TLong).
Proof.
  unfold XDP2_PADDR_IS_LONG_ADDR, XDP2_PADDR_TAG_IS_LONG_ADDR, ptype. set (t := xdp2_paddr_get_paddr_tag_from_paddr p).
  unfold XDP2_PADDR_TAG_PVBUF, XDP2_PADDR_TAG_PBUF, XDP2_PADDR_TAG_PBUF_1REF, XDP2_PADDR_TAG_LONG_ADDR.
  destruct (Z.eqb_spec t 1), (Z.eqb_spec t 2), (Z.eqb_spec t 3), (Z.eqb_spec t 0); first [lia | done].
Qed.

Lemma is_pbuf_ptype p : XDP2_PADDR_IS_PBUF p = bool_decide (ptype p = TPbuf) || bool_decide (ptype p = TPbuf1ref).
Proof.
  unfold XDP2_PADDR_IS_PBUF, XDP2_PADDR_TAG_IS_PBUF, ptype. set (t := xdp2_paddr_get_paddr_tag_from_paddr p).
  unfold XDP2_PADDR_TAG_PVBUF, XDP2_PADDR_TAG_PBUF, XDP2_PADDR_TAG_PBUF_1REF, XDP2_PADDR_TAG_LONG_ADDR.
  destruct (Z.eqb_spec t 1), (Z.eqb_spec t 2), (Z.eqb_spec t 3), (Z.eqb_spec t 0); first [lia | done].
Qed.

Lemma tag_range p : 0 <= xdp2_paddr_get_paddr_tag_from_paddr p < 16.
Proof. by apply (bf_get_range paddr_tag). Qed.

Lemma land_c t : 0 <= t < 16 -> (Z.land t 0xc =? 0) = (t <? 4).
Proof.
  intros H. assert (forallb (fun t => eqb (Z.land t 0xc =? 0) (t <? 4)) (seqZ 0 16) = true) as E by done.
  rewrite forallb_forall in E. apply eqb_prop, E, list_elem_of_In, elem_of_seqZ. lia.
Qed.

Lemma is_short_ptype p : XDP2_PADDR_IS_SHORT_ADDR p = bool_decide (ptype p = TShort).
Proof.
  unfold XDP2_PADDR_IS_SHORT_ADDR, XDP2_PADDR_TAG_IS_SHORT_ADDR, ptype. pose proof (tag_range p) as Ht.
  set (t := xdp2_paddr_get_paddr_tag_from_paddr p) in *. rewrite land_c by done.
  unfold XDP2_PADDR_TAG_PVBUF, XDP2_PADDR_TAG_PBUF, XDP2_PADDR_TAG_PBUF_1REF, XDP2_PADDR_TAG_LONG_ADDR.
  destruct (Z.eqb_spec t 1), (Z.eqb_spec t 2), (Z.eqb_spec t 3), (Z.eqb_spec t 0), (Z.ltb_spec t 4); first [lia | done].
Qed.

(** Only a long address can be NULL. *)
Lemma ptype_nonzero p : ptype p <> TLong -> p <> 0.
Proof. intros H ->. done. Qed.

(** The upper two bits of the tag of a short address are its region. *)
Lemma short_region p : ptype p = TShort <-> bf_get short_paddr_tag p <> 0.
Proof.
  assert (XDP2_PADDR_IS_SHORT_ADDR p = true <-> bf_get short_paddr_tag p <> 0) as H.
  - unfold XDP2_PADDR_IS_SHORT_ADDR, XDP2_PADDR_TAG_IS_SHORT_ADDR. rewrite land_c by apply tag_range.
    unfold xdp2_paddr_get_paddr_tag_from_paddr, bf_get. rewrite !Z.land_ones, !Z.shiftr_div_pow2 by (cbn; lia).
    cbn [f_lo f_width short_paddr_tag paddr_tag]. change (2 ^ 62) with (2 ^ 60 * 4). rewrite <- Z.div_div by lia.
    set (x := p / 2 ^ 60). change (2 ^ 4) with 16. change (2 ^ 2) with 4. clearbody x.
    rewrite negb_true_iff, Z.ltb_ge. Z.to_euclidean_division_equations. lia.
  - rewrite <- H, is_short_ptype. symmetry. apply bool_decide_eq_true.
Qed.
