(* ===== verification/Pvbuf.v ===== *)
(** * Packet vectors

    [include/xdp2/pvbuf.h] and [lib/xdp2/pvbuf.c]. A pvbuf is an array of
    iovecs and a bitmap of the iovecs in use; an iovec is a paddr with a length,
    of a buffer with data or of another pvbuf. A [struct xdp2_pvbuf *] is the size
    and the index of its object, an iovec pointer adds the position in the array.
    The model keeps the pvbufs that are allocated in a heap; using one that has
    been freed is a crash. Data of all buffers is in one byte memory. *)

From stdpp Require Import base list gmap numbers.
From S2P Require Import Prelude BitmapWord Memory Checksum Paddr.

(** ** State *)

Record xdp2_pvbuf := Pvbuf { iovec_map : Z; iovec : list Z }.

(** The pvbuf size and the index from zero. *)
Abbreviation pvptr := (Z * Z)%type.

(** An object allocator: the number of its objects and the indices (from zero)
    in its free list. *)
Record oalloc := OAlloc { oa_num : Z; oa_free : list Z }.

(** [None] is NULL. *)
Record pvbuf_allocator_entry := PvEntry { pv_allocator : option oalloc; smaller_size : Z }.

(** Allocators of pbufs are named by their position in the table that owns them. *)
Record pbuf_allocator_entry := PbEntry {
  alloc_size : Z; pb_smaller_size : Z; alloc_size_shift : Z; smaller_size_shift : Z;
  pbuf_base : Z; offset_mask : Z; pallocator : option Z; smaller_pallocator : option Z }.
Record xdp2_pbuf_allocator := PAlloc { pa_allocator : oalloc; refcnt : list Z }.

(** Calls of the operations of short and long addresses, with both words. *)
Inductive ext_call := ExtFree (p1 p2 : Z) | ExtBump (p1 p2 : Z).

(** Of the operations of a memory region: whether [free] and [bump_refcnt] are set. *)
Record mgr_conf := MgrConf {
  random_pvbuf_size : bool; alloc_one_ref : bool; default_pvbuf_size : Z;
  pbuf_allocator_table : list pbuf_allocator_entry;
  short_addr_base : list Z; long_addr_base : list Z;
  short_addr_ops : list (bool * bool); long_addr_ops : list (bool * bool) }.

(** [pv_random]: how often [random()] was called. *)
Record pvside := PvSide { pv_heap : gmap pvptr xdp2_pvbuf; pvbuf_allocator_table : list pvbuf_allocator_entry; pv_random : nat }.
Record mgr_stats := MgrStats { allocs : Z; allocs_1ref : Z; conversions : Z; frees : Z; frees_1ref : Z }.
Record pbside := PbSide { pb_allocators : gmap Z xdp2_pbuf_allocator; pb_mem : memory; pb_calls : list ext_call; pb_stats : mgr_stats }.
Record xdp2_pvbuf_mgr := Mgr { mconf : mgr_conf; mpv : pvside; mpb : pbside }.

Definition set_mpv (v : pvside) (s : xdp2_pvbuf_mgr) : xdp2_pvbuf_mgr := Mgr (mconf s) v (mpb s).
Definition set_mpb (b : pbside) (s : xdp2_pvbuf_mgr) : xdp2_pvbuf_mgr := Mgr (mconf s) (mpv s) b.

(** ** Computations on the state *)

Definition pvm (A : Type) : Type := xdp2_pvbuf_mgr -> outcome (xdp2_pvbuf_mgr * A).
#[global] Instance pvm_ret : MRet pvm := fun A x s => Done (s, x).
#[global] Instance pvm_bind : MBind pvm := fun A B f m s =>
  match m s with Done (s, x) => f x s | Crash => Crash | NoFuel => NoFuel end.

Definition lift {A} (o : outcome A) : pvm A := fun s => match o with Done x => Done (s, x) | Crash => Crash | NoFuel => NoFuel end.
Definition crash {A} : pvm A := fun _ => Crash.
Definition nofuel {A} : pvm A := fun _ => NoFuel.
Definition gets {A} (f : xdp2_pvbuf_mgr -> A) : pvm A := fun s => Done (s, f s).
Definition modify (f : xdp2_pvbuf_mgr -> xdp2_pvbuf_mgr) : pvm unit := fun s => Done (f s, tt).
Definition massert (b : bool) : pvm unit := lift (XDP2_ASSERT b).

(** ** Access to pvbufs *)

Definition ld_pvbuf (k : pvptr) : pvm xdp2_pvbuf := fun s => match pv_heap (mpv s) !! k with Some v => Done (s, v) | None => Crash end.
Definition put_heap (h : gmap pvptr xdp2_pvbuf) (s : xdp2_pvbuf_mgr) : xdp2_pvbuf_mgr :=
  set_mpv (PvSide h (pvbuf_allocator_table (mpv s)) (pv_random (mpv s))) s.
Definition st_pvbuf (k : pvptr) (v : xdp2_pvbuf) : pvm unit := modify (fun s => put_heap (<[k := v]> (pv_heap (mpv s))) s).

Definition in_array (i : Z) (l : list Z) : bool := (0 <=? i) && (i <? Z.of_nat (length l)).

(** [pvbuf->iovec[i].paddr]. *)
Definition ld_iovec (k : pvptr) (i : Z) : pvm Z :=
  v ← ld_pvbuf k; if in_array i (iovec v) then lift (deref (iovec v !! Z.to_nat i)) else crash.
Definition st_iovec (k : pvptr) (i p : Z) : pvm unit :=
  v ← ld_pvbuf k;
  if in_array i (iovec v) then st_pvbuf k (Pvbuf (iovec_map v) (<[Z.to_nat i := p]> (iovec v))) else crash.

Definition map_update (f : Z -> outcome Z) (k : pvptr) (i : Z) : pvm unit :=
  _ ← massert (i <? 64); v ← ld_pvbuf k; m ← lift (f (iovec_map v)); st_pvbuf k (Pvbuf m (iovec v)).
Definition xdp2_pvbuf_iovec_map_set (k : pvptr) (i : Z) : pvm unit := map_update (fun m => xdp2_bitmap_word_set 64 m i) k i.
Definition xdp2_pvbuf_iovec_map_unset (k : pvptr) (i : Z) : pvm unit := map_update (fun m => xdp2_bitmap_word_unset 64 m i) k i.
Definition xdp2_pvbuf_iovec_map_isset (k : pvptr) (i : Z) : pvm bool :=
  _ ← massert (i <? 64); v ← ld_pvbuf k; lift (xdp2_bitmap_word_isset (iovec_map v) i).
Definition xdp2_pvbuf_iovec_map_find (k : pvptr) : pvm Z := v ← ld_pvbuf k; mret (xdp2_bitmap_word_find 64 (iovec_map v)).
Definition xdp2_pvbuf_iovec_map_rev_find (k : pvptr) : pvm Z := v ← ld_pvbuf k; mret (xdp2_bitmap_word_rev_find 64 (iovec_map v)).
Definition xdp2_pvbuf_iovec_map_find_next (k : pvptr) (pos : Z) : pvm Z := v ← ld_pvbuf k; lift (xdp2_bitmap_word_find_next 64 (iovec_map v) pos).
Definition xdp2_pvbuf_iovec_map_weight (k : pvptr) : pvm Z := v ← ld_pvbuf k; mret (xdp2_bitmap_word_weight 64 (iovec_map v)).

(** The result of the body of a loop: leave the loop, or go on after position
    [i] (a long address moves it by one). *)
Inductive ctl (A : Type) := Break (x : A) | Next (i : Z) (x : A).
Arguments Break {A} x.
Arguments Next {A} i x.

(** The loop from position [pos] on; the map is read again at every turn. *)
Fixpoint foreach_from {A} (fuel : nat) (next : Z -> pvm Z) (body : Z -> A -> pvm (ctl A)) (pos : Z) (x : A) : pvm A :=
  if 64 <=? pos then mret x else
  match fuel with
  | O => nofuel
  | S fuel =>
    r ← body pos x;
    match r with
    | Break x => mret x
    | Next i x => pos ← next i; foreach_from fuel next body pos x
    end
  end.

(** A position increases at every turn, so 64 turns are enough. *)
Definition xdp2_pvbuf_iovec_map_foreach {A} (k : pvptr) (body : Z -> A -> pvm (ctl A)) (x : A) : pvm A :=
  v ← ld_pvbuf k;
  pos ← lift (xdp2_bitmap_word_find_start 64 (iovec_map v) 0);
  foreach_from 64 (xdp2_pvbuf_iovec_map_find_next k) body pos x.

Definition xdp2_pvbuf_iovec_map_rev_foreach {A} (k : pvptr) (start : Z) (body : Z -> A -> pvm (ctl A)) (x : A) : pvm A :=
  v ← ld_pvbuf k;
  pos ← lift (xdp2_bitmap_word_rev_find_start 64 (iovec_map v) start);
  foreach_from 64 (fun pos => v ← ld_pvbuf k; lift (xdp2_bitmap_word_rev_find_next 64 (iovec_map v) pos)) body pos x.

(** ** Setting iovecs *)

Definition __xdp2_pvbuf_iovec_check_empty (k : pvptr) (i : Z) : pvm unit :=
  p ← ld_iovec k i; _ ← massert (p =? 0);
  b ← xdp2_pvbuf_iovec_map_isset k i; massert (negb b).

(** Store the word a setter computes and set the bit of the map. *)
Definition set_ent (k : pvptr) (i : Z) (w : outcome Z) : pvm unit :=
  _ ← __xdp2_pvbuf_iovec_check_empty k i;
  p ← lift w; _ ← st_iovec k i p; xdp2_pvbuf_iovec_map_set k i.
Definition xdp2_pvbuf_iovec_set_pvbuf_ent (k : pvptr) (i p len : Z) : pvm unit := set_ent k i (xdp2_pvbuf_set_pvbuf_iovec p len).
Definition xdp2_pvbuf_iovec_set_pbuf_ent (k : pvptr) (i p len : Z) : pvm unit := set_ent k i (xdp2_pbuf_set_iovec p len).
Definition xdp2_pvbuf_iovec_set_short_addr_ent (k : pvptr) (i p len : Z) : pvm unit := set_ent k i (xdp2_paddr_short_addr_set_iovec p len).
Definition xdp2_pvbuf_iovec_set_long_addr_ent (k : pvptr) (i p1 p2 len : Z) : pvm unit :=
  _ ← __xdp2_pvbuf_iovec_check_empty k i;
  _ ← __xdp2_pvbuf_iovec_check_empty k (i + 1);
  '(p1, p2) ← lift (xdp2_paddr_long_addr_set_iovec p1 p2 len);
  _ ← st_iovec k i p1; _ ← st_iovec k (i + 1) p2;
  _ ← xdp2_pvbuf_iovec_map_set k i; xdp2_pvbuf_iovec_map_set k (i + 1).

Definition xdp2_pvbuf_iovec_set_paddr_ent (k : pvptr) (i p1 p2 len : Z) : pvm unit :=
  match ptype p1 with
  | TPvbuf => xdp2_pvbuf_iovec_set_pvbuf_ent k i p1 len
  | TPbuf | TPbuf1ref => xdp2_pvbuf_iovec_set_pbuf_ent k i p1 len
  | TShort => xdp2_pvbuf_iovec_set_short_addr_ent k i p1 len
  | TLong => xdp2_pvbuf_iovec_set_long_addr_ent k i p1 p2 len
  end.

Definition xdp2_pvbuf_iovec_clear_ent (k : pvptr) (i : Z) : pvm unit :=
  _ ← st_iovec k i 0; xdp2_pvbuf_iovec_map_unset k i.

Definition xdp2_pvbuf_iovec_move_ent (k : pvptr) (old new : Z) : pvm unit :=
  if old =? new then mret tt else
  pn ← ld_iovec k new; _ ← massert (pn =? 0);
  bn ← xdp2_pvbuf_iovec_map_isset k new; _ ← massert (negb bn);
  po ← ld_iovec k old; _ ← massert (negb (po =? 0));
  bo ← xdp2_pvbuf_iovec_map_isset k old; _ ← massert bo;
  _ ← st_iovec k new po;
  _ ← xdp2_pvbuf_iovec_clear_ent k old;
  xdp2_pvbuf_iovec_map_set k new.

Definition xdp2_pvbuf_iovec_unset_ent (k : pvptr) (i : Z) : pvm unit :=
  p ← ld_iovec k i; _ ← massert (negb (p =? 0));
  b ← xdp2_pvbuf_iovec_map_isset k i; _ ← massert b;
  xdp2_pvbuf_iovec_clear_ent k i.

(** ** Sizes *)

(** [while ((x >>= 1)) ret++]. *)
Fixpoint log_loop (k : nat) (x ret : Z) : Z :=
  match k with
  | O => ret
  | S k => let x := Z.shiftr x 1 in if x =? 0 then ret else log_loop k x (ret + 1)
  end.
Definition xdp2_get_log (x : Z) : Z := log_loop 64 x 0.
Definition xdp2_get_log_round_up (x : Z) : Z :=
  let ret := log_loop 64 x 0 in if x mod 2 ^ ret =? 0 then ret else ret + 1.

Section Random.
(** The values of [random()]. *)
Context (random : nat -> Z).

Definition __xdp2_pvbuf_get_size : pvm Z := fun s =>
  if random_pvbuf_size (mconf s) then
    Done (set_mpv (PvSide (pv_heap (mpv s)) (pvbuf_allocator_table (mpv s)) (S (pv_random (mpv s)))) s,
          random (pv_random (mpv s)) mod XDP2_PVBUF_NUM_SIZES)
  else Done (s, default_pvbuf_size (mconf s)).

(** ** Allocation of pvbufs *)

Definition tget {A} (i : Z) (l : list A) : outcome A := if i <? 0 then Crash else deref (l !! Z.to_nat i).

Definition put_table (t : list pvbuf_allocator_entry) (s : xdp2_pvbuf_mgr) : xdp2_pvbuf_mgr :=
  set_mpv (PvSide (pv_heap (mpv s)) t (pv_random (mpv s))) s.

Definition pv_entry (size : Z) : pvm pvbuf_allocator_entry := fun s => lift (tget size (pvbuf_allocator_table (mpv s))) s.

(** [XDP2_PVBUF_GET_ALLOCATOR]. *)
Definition XDP2_PVBUF_GET_ALLOCATOR (size : Z) : pvm (option oalloc) := e ← pv_entry size; mret (pv_allocator e).
Definition XDP2_PVBUF_GET_SMALLER_ALLOCATOR_SIZE (size : Z) : pvm Z := e ← pv_entry size; mret (smaller_size e).

Definition put_oalloc (size : Z) (a : oalloc) : pvm unit :=
  e ← pv_entry size;
  modify (fun s => put_table (<[Z.to_nat size := PvEntry (Some a) (smaller_size e)]> (pvbuf_allocator_table (mpv s))) s).

(** [xdp2_obj_alloc_alloc] on a pvbuf allocator. *)
Definition pv_obj_alloc (size : Z) (a : oalloc) : pvm (option Z) :=
  match oa_free a with
  | [] => mret None
  | i :: r => _ ← put_oalloc size (OAlloc (oa_num a) r); mret (Some i)
  end.

(** The loop over the smaller sizes, when the caller does not ask for the size.
    The sizes decrease down to zero, so that the turns after the sixteenth
    repeat. *)
Fixpoint smaller_loop (fuel : nat) (size : Z) : pvm (option (Z * Z)) :=
  size ← XDP2_PVBUF_GET_SMALLER_ALLOCATOR_SIZE size;
  allocator ← XDP2_PVBUF_GET_ALLOCATOR size;
  match allocator with
  | None => mret None
  | Some a =>
    r ← pv_obj_alloc size a;
    match r with
    | Some i => mret (Some (size, i))
    | None => match fuel with O => nofuel | S fuel => smaller_loop fuel size end
    end
  end.

Definition zero_pvbuf (size : Z) : xdp2_pvbuf := Pvbuf 0 (replicate (Z.to_nat (pvbuf_words size)) 0).

(** [told]: the caller passes [smaller_pvbuf_size]. The result is the paddr and
    the pvbuf. *)
Definition ___xdp2_pvbuf_alloc (size : Z) (told : bool) : pvm (option (Z * pvptr)) :=
  _ ← massert (size <? XDP2_PVBUF_NUM_SIZES);
  allocator ← XDP2_PVBUF_GET_ALLOCATOR size;
  r ← match allocator with None => mret None | Some a => i ← pv_obj_alloc size a; mret ((fun i => (size, i)) <$> i) end;
  r ← match r with
      | Some _ => mret r
      | None => if told then mret None else smaller_loop 16 size
      end;
  match r with
  | None => mret None
  | Some k =>
    _ ← st_pvbuf k (zero_pvbuf (fst k));
    p ← lift (xdp2_pvbuf_make_paddr (fst k) (snd k));
    mret (Some (p, k))
  end.

Definition __xdp2_pvbuf_alloc_empty (size : Z) : pvm (option (Z * pvptr)) := ___xdp2_pvbuf_alloc size false.

(** The object of a paddr: the index is checked against the allocator. *)
Definition __xdp2_pvbuf_paddr_to_addr (p : Z) : pvm pvptr :=
  size ← lift (xdp2_pvbuf_get_size_from_paddr p);
  index ← lift (xdp2_pvbuf_index_from_paddr p);
  allocator ← XDP2_PVBUF_GET_ALLOCATOR size;
  a ← lift (deref allocator);
  _ ← massert (index <? oa_num a);
  mret (size, index).

(** [xdp2_obj_alloc_free] of a pvbuf. *)
Definition pv_obj_free (size : Z) (k : pvptr) : pvm unit :=
  allocator ← XDP2_PVBUF_GET_ALLOCATOR size;
  a ← lift (deref allocator);
  _ ← massert (snd k <? oa_num a);
  _ ← ld_pvbuf k;
  _ ← modify (fun s => put_heap (delete k (pv_heap (mpv s))) s);
  put_oalloc size (OAlloc (oa_num a) (snd k :: oa_free a)).

(** An iovec with a single address replaces its pvbuf. *)
Definition __xdp2_pvbuf_check_single (k : pvptr) (i : Z) : pvm unit :=
  p ← ld_iovec k i;
  num_iovecs ← lift (XDP2_PVBUF_NUM_IOVECS_FROM_PADDR p);
  _ ← massert (XDP2_PADDR_IS_PVBUF p);
  k1 ← __xdp2_pvbuf_paddr_to_addr p;
  weight ← xdp2_pvbuf_iovec_map_weight k1;
  if negb (weight =? 1) then mret tt else
  pvbuf_size ← lift (xdp2_pvbuf_get_size_from_paddr p);
  index ← xdp2_pvbuf_iovec_map_find k1;
  _ ← massert (index <? num_iovecs);
  q ← ld_iovec k1 index;
  _ ← st_iovec k i q;
  pv_obj_free pvbuf_size k1.

(** ** pbufs *)

Definition put_pb (b : pbside) : pvm unit := modify (set_mpb b).
Definition set_pallocs (m : gmap Z xdp2_pbuf_allocator) (b : pbside) : pbside := PbSide m (pb_mem b) (pb_calls b) (pb_stats b).
Definition set_mem (m : memory) (b : pbside) : pbside := PbSide (pb_allocators b) m (pb_calls b) (pb_stats b).
Definition add_call (c : ext_call) (b : pbside) : pbside := PbSide (pb_allocators b) (pb_mem b) (c :: pb_calls b) (pb_stats b).
Definition set_stats (f : mgr_stats -> mgr_stats) (b : pbside) : pbside := PbSide (pb_allocators b) (pb_mem b) (pb_calls b) (f (pb_stats b)).

Definition bump_allocs (t : mgr_stats) := MgrStats (u64 (allocs t + 1)) (allocs_1ref t) (conversions t) (frees t) (frees_1ref t).
Definition bump_allocs_1ref (t : mgr_stats) := MgrStats (allocs t) (u64 (allocs_1ref t + 1)) (conversions t) (frees t) (frees_1ref t).
Definition bump_conversions (t : mgr_stats) := MgrStats (allocs t) (allocs_1ref t) (u64 (conversions t + 1)) (frees t) (frees_1ref t).
Definition bump_frees (t : mgr_stats) := MgrStats (allocs t) (allocs_1ref t) (conversions t) (u64 (frees t + 1)) (frees_1ref t).
Definition bump_frees_1ref (t : mgr_stats) := MgrStats (allocs t) (allocs_1ref t) (conversions t) (frees t) (u64 (frees_1ref t + 1)).

Definition pb_entry (btag : Z) : pvm pbuf_allocator_entry := fun s => lift (tget btag (pbuf_allocator_table (mconf s))) s.
Definition the_pallocator (id : Z) : pvm xdp2_pbuf_allocator := fun s => lift (deref (pb_allocators (mpb s) !! id)) s.
Definition put_pallocator (id : Z) (a : xdp2_pbuf_allocator) : pvm unit :=
  modify (fun s => set_mpb (set_pallocs (<[id := a]> (pb_allocators (mpb s))) (mpb s)) s).
Definition modify_pb (f : pbside -> pbside) : pvm unit := modify (fun s => set_mpb (f (mpb s)) s).

(** The address of object [i] of the allocator [id]. *)
Definition pb_obj_addr (e : pbuf_allocator_entry) (id i : Z) : Z := u64 (pbuf_base e + i * xdp2_pbuf_buffer_tag_to_size id).

(** The address and the index of a new pbuf. *)
Definition ___xdp2_pbuf_alloc (id : Z) (one_ref : bool) : pvm (option (Z * Z)) :=
  a ← the_pallocator id;
  match oa_free (pa_allocator a) with
  | [] => mret None
  | i :: r =>
    _ ← (if one_ref then _ ← put_pallocator id (PAlloc (OAlloc (oa_num (pa_allocator a)) r) (refcnt a)); modify_pb (set_stats bump_allocs_1ref)
         else if in_array i (refcnt a)
         then put_pallocator id (PAlloc (OAlloc (oa_num (pa_allocator a)) r) (<[Z.to_nat i := 1]> (refcnt a))) else crash);
    _ ← modify_pb (set_stats bump_allocs);
    e ← pb_entry id;
    mret (Some (pb_obj_addr e id i, i))
  end.

(** The size shift of a request, limited to the supported range. *)
Definition req_shift (size : Z) : Z :=
  let sh := xdp2_get_log_round_up size in
  if XDP2_PBUF_MAX_SIZE_SHIFT <? sh then XDP2_PBUF_MAX_SIZE_SHIFT
  else if sh <? XDP2_PBUF_BASE_SIZE_SHIFT then XDP2_PBUF_BASE_SIZE_SHIFT else sh.

(** The paddr and the address of the data. *)
Definition __xdp2_pbuf_alloc (size : Z) (tail_alloc : bool) : pvm (option (Z * Z)) :=
  one_ref ← gets (fun s => alloc_one_ref (mconf s));
  e ← pb_entry (xdp2_pbuf_size_shift_to_buffer_tag (req_shift size));
  if alloc_size e <? size then mret None else
  id ← lift (deref (pallocator e));
  r ← ___xdp2_pbuf_alloc id one_ref;
  match r with
  | None => mret None
  | Some (addr, zindex) =>
    let offset := if tail_alloc then u32 (alloc_size e - size) else 0 in
    p ← lift (xdp2_pbuf_make_paddr one_ref (alloc_size_shift e) zindex offset size);
    mret (Some (p, u64 (addr + offset)))
  end.

Definition __xdp2_pbuf_paddr_to_addr (p : Z) : pvm Z :=
  btag ← lift (xdp2_pbuf_buffer_tag_from_paddr p);
  offset ← lift (xdp2_pbuf_get_offset_from_paddr p);
  e ← pb_entry (owner_tag btag);
  mret (u64 (pbuf_base e + offset)).

Definition __xdp2_pbuf_paddr_to_pbuf_offset (p : Z) : pvm Z :=
  btag ← lift (xdp2_pbuf_buffer_tag_from_paddr p);
  offset ← lift (xdp2_pbuf_get_offset_from_paddr p);
  e ← pb_entry (owner_tag btag);
  mret (Z.land (offset_mask e) offset).

Definition __xdp2_pbuf_get_headroom_from_paddr (p : Z) : pvm Z :=
  _ ← massert (XDP2_PADDR_IS_PBUF p); __xdp2_pbuf_paddr_to_pbuf_offset p.

Definition __xdp2_pbuf_get_tailroom_from_paddr (p : Z) : pvm Z :=
  size ← lift (xdp2_pbuf_size_from_paddr p);
  off ← __xdp2_pbuf_paddr_to_pbuf_offset p;
  len ← lift (xdp2_pbuf_get_data_len_from_paddr p);
  _ ← massert (off + len <=? size);
  _ ← massert (XDP2_PADDR_IS_PBUF p);
  mret (size - (off + len)).

(** The allocator and the index of a pbuf. *)
Definition __xdp2_pbuf_get_avals (p : Z) : pvm (Z * Z) :=
  btag ← lift (xdp2_pbuf_buffer_tag_from_paddr p);
  offset ← lift (xdp2_pbuf_get_offset_from_paddr p);
  let btag := owner_tag btag in
  e ← pb_entry btag;
  id ← lift (deref (pallocator e));
  _ ← the_pallocator id;
  mret (id, u32 (Z.shiftr offset (xdp2_pbuf_buffer_tag_to_size_shift btag))).

Definition ld_refcnt (id i : Z) : pvm Z := a ← the_pallocator id; lift (tget i (refcnt a)).
Definition st_refcnt (id i v : Z) : pvm unit :=
  a ← the_pallocator id;
  if in_array i (refcnt a) then put_pallocator id (PAlloc (pa_allocator a) (<[Z.to_nat i := v]> (refcnt a))) else crash.

Definition xdp2_pbuf_get_refcnt (p : Z) : pvm Z :=
  _ ← massert (XDP2_PADDR_IS_PBUF p);
  '(id, zindex) ← __xdp2_pbuf_get_avals p; ld_refcnt id zindex.

Definition __xdp2_pbuf_bump_refcnt (p : Z) : pvm unit :=
  _ ← massert (xdp2_paddr_get_paddr_tag_from_paddr p =? XDP2_PADDR_TAG_PBUF);
  '(id, zindex) ← __xdp2_pbuf_get_avals p;
  c ← ld_refcnt id zindex; st_refcnt id zindex (u32 (c + 1)).

(** [xdp2_obj_alloc_free_by_index]: the object is linked into the free list
    through its first eight bytes. *)
Definition pb_obj_free (id i : Z) : pvm unit :=
  a ← the_pallocator id;
  let o := pa_allocator a in
  _ ← massert (i <? oa_num o);
  e ← pb_entry id;
  let link := match oa_free o with [] => 0 | j :: _ => pb_obj_addr e id j end in
  m ← gets (fun s => pb_mem (mpb s));
  m ← lift (st_ptr m (pb_obj_addr e id i) link);
  _ ← modify_pb (set_mem m);
  put_pallocator id (PAlloc (OAlloc (oa_num o) (i :: oa_free o)) (refcnt a)).

Definition __xdp2_pbuf_free (p : Z) : pvm unit :=
  '(id, zindex) ← __xdp2_pbuf_get_avals p;
  last ← (if xdp2_paddr_get_paddr_tag_from_paddr p =? XDP2_PADDR_TAG_PBUF_1REF then
            c ← xdp2_pbuf_get_refcnt p; _ ← massert (c =? 0);
            _ ← modify_pb (set_stats bump_frees_1ref); mret true
          else c ← ld_refcnt id zindex; _ ← st_refcnt id zindex (u32 (c - 1)); mret (c =? 1));
  if (last : bool) then _ ← pb_obj_free id zindex; modify_pb (set_stats bump_frees) else mret tt.

(** ** Short and long addresses *)

Definition ext_op (ops : list (bool * bool)) (sel : bool * bool -> bool) (region : Z) (c : ext_call) : pvm unit :=
  o ← lift (tget region ops);
  if sel o then modify_pb (add_call c) else crash.

Definition __xdp2_paddr_short_addr_free (p : Z) : pvm unit :=
  _ ← lift (__xdp2_paddr_short_addr_check p);
  ops ← gets (fun s => short_addr_ops (mconf s)); ext_op ops fst (bf_get short_paddr_tag p) (ExtFree p 0).
Definition __xdp2_paddr_short_addr_bump_refcnt (p : Z) : pvm unit :=
  _ ← lift (__xdp2_paddr_short_addr_check p);
  ops ← gets (fun s => short_addr_ops (mconf s)); ext_op ops snd (bf_get short_paddr_tag p) (ExtBump p 0).
Definition __xdp2_paddr_long_addr_free (p1 p2 : Z) : pvm unit :=
  _ ← lift (__xdp2_paddr_long_addr_check p1 p2);
  ops ← gets (fun s => long_addr_ops (mconf s)); ext_op ops fst (bf_get long_memory_region p1) (ExtFree p1 p2).
Definition __xdp2_paddr_long_addr_bump_refcnt (p1 p2 : Z) : pvm unit :=
  _ ← lift (__xdp2_paddr_long_addr_check p1 p2);
  ops ← gets (fun s => long_addr_ops (mconf s)); ext_op ops snd (bf_get long_memory_region p1) (ExtBump p1 p2).

Definition __xdp2_paddr_short_addr_paddr_to_addr (p : Z) : pvm Z :=
  b ← gets (fun s => short_addr_base (mconf s));
  base ← lift (tget (bf_get short_paddr_tag p) b); mret (u64 (base + bf_get short_offset p)).
Definition __xdp2_paddr_long_addr_to_addr (p1 p2 : Z) : pvm Z :=
  b ← gets (fun s => long_addr_base (mconf s));
  base ← lift (tget (bf_get long_memory_region p1) b);
  o ← lift (xdp2_paddr_long_addr_get_offset_from_paddr p1 p2); mret (u64 (base + o)).

(** ** Any kind of address *)

(** No case for a pbuf with a single reference. *)
Definition __xdp2_pvbuf_paddr_bump_refcnt (p1 p2 : Z) : pvm unit :=
  match ptype p1 with
  | TPbuf => __xdp2_pbuf_bump_refcnt p1
  | TShort => __xdp2_paddr_short_addr_bump_refcnt p1
  | TLong => __xdp2_paddr_long_addr_bump_refcnt p1 p2
  | TPvbuf | TPbuf1ref => crash
  end.

Definition __xdp2_paddr_free (p1 p2 : Z) : pvm unit :=
  match ptype p1 with
  | TPbuf => __xdp2_pbuf_free p1
  | TShort => __xdp2_paddr_short_addr_free p1
  | TLong => __xdp2_paddr_long_addr_free p1 p2
  | TPvbuf | TPbuf1ref => crash
  end.

Definition xdp2_pvbuf_iovec_set_paddr_ent_and_bump_refcnt (k : pvptr) (i p1 p2 len : Z) : pvm unit :=
  match ptype p1 with
  | TPbuf => _ ← xdp2_pvbuf_iovec_set_pbuf_ent k i p1 len; __xdp2_pbuf_bump_refcnt p1
  | TShort => _ ← xdp2_pvbuf_iovec_set_short_addr_ent k i p1 len; __xdp2_paddr_short_addr_bump_refcnt p1
  | TLong => _ ← xdp2_pvbuf_iovec_set_long_addr_ent k i p1 p2 len; __xdp2_paddr_long_addr_bump_refcnt p1 p2
  | TPvbuf | TPbuf1ref => crash
  end.

(** The address and the length of the data. *)
Definition __xdp2_paddr_get_addr_len (p1 p2 : Z) : pvm (Z * Z) :=
  match ptype p1 with
  | TPbuf | TPbuf1ref => a ← __xdp2_pbuf_paddr_to_addr p1; n ← lift (xdp2_pbuf_get_data_len_from_paddr p1); mret (a, n)
  | TShort => a ← __xdp2_paddr_short_addr_paddr_to_addr p1; n ← lift (xdp2_paddr_short_addr_get_data_len_from_paddr p1); mret (a, n)
  | TLong =>
    _ ← massert (negb (p1 =? 0));
    a ← __xdp2_paddr_long_addr_to_addr p1 p2; n ← lift (xdp2_paddr_long_addr_get_data_len_from_paddr p1 p2); mret (a, n)
  | TPvbuf => crash
  end.

(** The next iovec is read for every kind of address, also where the address is
    in the last iovec of the pvbuf. *)
Definition __xdp2_pvbuf_get_ptr_len_from_iovec (k : pvptr) (i : Z) (last_iovec : bool) : pvm (Z * Z) :=
  p ← ld_iovec k i;
  match ptype p with
  | TLong =>
    _ ← massert (negb (p =? 0));
    let i := if last_iovec then i - 1 else i in
    p1 ← ld_iovec k i; p2 ← ld_iovec k (i + 1); __xdp2_paddr_get_addr_len p1 p2
  | TPbuf | TPbuf1ref | TShort => p2 ← ld_iovec k (i + 1); __xdp2_paddr_get_addr_len p p2
  | TPvbuf => crash
  end.

(** The length of the data of an iovec, as in the switches of the code. *)
Definition iovec_data_len (k : pvptr) (i : Z) : pvm Z :=
  p ← ld_iovec k i;
  match ptype p with
  | TPbuf | TPbuf1ref => lift (xdp2_pbuf_get_data_len_from_paddr p)
  | TShort => lift (xdp2_paddr_short_addr_get_data_len_from_paddr p)
  | TLong => p2 ← ld_iovec k (i + 1); lift (xdp2_paddr_long_addr_get_data_len_from_paddr p p2)
  | TPvbuf => crash
  end.

(** The length of a pvbuf; [fuel] bounds the depth. *)
Fixpoint __xdp2_pvbuf_calc_length (fuel : nat) (p : Z) (deep_dig : bool) : pvm Z :=
  match fuel with
  | O => nofuel
  | S fuel =>
    k ← __xdp2_pvbuf_paddr_to_addr p;
    xdp2_pvbuf_iovec_map_foreach k (fun i size =>
      q ← ld_iovec k i;
      match ptype q with
      | TPvbuf =>
        let dl := bf_get pvbuf_data_length q in
        if negb (dl =? 0) && negb deep_dig then mret (Next i (u64 (size + dl))) else
        len ← __xdp2_pvbuf_calc_length fuel q deep_dig;
        _ ← (if dl =? 0 then mret tt else massert (dl =? len));
        mret (Next i (u64 (size + len)))
      | TLong => n ← iovec_data_len k i; mret (Next (i + 1) (u64 (size + n)))
      | _ => n ← iovec_data_len k i; mret (Next i (u64 (size + n)))
      end) 0
  end.

Definition xdp2_pvbuf_validate_length (fuel : nat) (p : Z) : pvm Z :=
  len ← __xdp2_pvbuf_calc_length fuel p false;
  d ← __xdp2_pvbuf_calc_length fuel p true;
  _ ← massert (len =? d); mret len.
End Random.
