(* ===== verification/PvbufEdit.v ===== *)
(** * Packet vectors: freeing, prepending and appending

    The part of [lib/xdp2/pvbuf.c] that changes the iovecs of a pvbuf. Functions
    that call each other recursively take the depth as fuel. *)

From stdpp Require Import base list gmap numbers.
From S2P Require Import Prelude BitmapWord Memory Paddr Pvbuf.

(** ** Freeing *)

(** Free the buffer in an iovec; the result is the position of its last slot. *)
Definition free_iovec (pvbuf_free : Z -> pvm unit) (k : pvptr) (i : Z) : pvm Z :=
  p ← ld_iovec k i;
  _ ← massert (negb (p =? 0));
  match ptype p with
  | TPvbuf => _ ← pvbuf_free p; mret i
  | TPbuf | TPbuf1ref => _ ← __xdp2_pbuf_free p; mret i
  | TShort => _ ← __xdp2_paddr_short_addr_free p; mret i
  | TLong =>
    p2 ← ld_iovec k (i + 1);
    _ ← __xdp2_paddr_long_addr_free p p2;
    _ ← xdp2_pvbuf_iovec_unset_ent k i;
    b ← xdp2_pvbuf_iovec_map_isset k (i + 1); _ ← massert b; mret (i + 1)
  end.

Fixpoint __xdp2_pvbuf_free (fuel : nat) (p : Z) : pvm unit :=
  match fuel with
  | O => nofuel
  | S fuel =>
    size ← lift (xdp2_pvbuf_get_size_from_paddr p);
    k ← __xdp2_pvbuf_paddr_to_addr p;
    _ ← xdp2_pvbuf_iovec_map_foreach k (fun i (_ : unit) =>
          i ← free_iovec (__xdp2_pvbuf_free fuel) k i;
          _ ← xdp2_pvbuf_iovec_unset_ent k i; mret (Next i tt)) tt;
    pv_obj_free size k
  end.

(** ** Shifting iovecs *)

Definition __xdp2_pvbuf_shift_pvbuf_iovecs_to_tail (k : pvptr) (num_iovecs : Z) : pvm unit :=
  _ ← xdp2_pvbuf_iovec_map_rev_foreach k (num_iovecs - 1) (fun i j =>
        _ ← xdp2_pvbuf_iovec_move_ent k i j; mret (Next i (u32 (j - 1)))) (num_iovecs - 1);
  mret tt.

Definition __xdp2_pvbuf_shift_pvbuf_iovecs_to_head (k : pvptr) : pvm unit :=
  _ ← xdp2_pvbuf_iovec_map_foreach k (fun i j => _ ← xdp2_pvbuf_iovec_move_ent k i j; mret (Next i (j + 1))) 0;
  mret tt.

(** No slot: [-1U]. *)
Definition NO_SLOT : Z := 2 ^ 32 - 1.

Definition __xdp2_pvbuf_find_prepend_slot_compress (k : pvptr) (num_iovecs : Z) : pvm Z :=
  w ← xdp2_pvbuf_iovec_map_weight k;
  if w =? num_iovecs then mret NO_SLOT else
  _ ← __xdp2_pvbuf_shift_pvbuf_iovecs_to_tail k num_iovecs;
  index ← xdp2_pvbuf_iovec_map_find k;
  _ ← massert (negb (index =? 0));
  b ← xdp2_pvbuf_iovec_map_isset k (index - 1); _ ← massert (negb b);
  mret (index - 1).

Definition __xdp2_pvbuf_find_prepend_slot (k : pvptr) (p : Z) (compress : bool) : pvm Z :=
  num_iovecs ← lift (XDP2_PVBUF_NUM_IOVECS_FROM_PADDR p);
  i ← xdp2_pvbuf_iovec_map_find k;
  if negb (i =? 0) then mret (if i <? num_iovecs then i - 1 else num_iovecs - 1) else
  if compress then __xdp2_pvbuf_find_prepend_slot_compress k num_iovecs else mret NO_SLOT.

Definition __xdp2_pvbuf_find_append_slot_compress (k : pvptr) (num_iovecs : Z) : pvm Z :=
  w ← xdp2_pvbuf_iovec_map_weight k;
  if num_iovecs - 1 <=? w then mret NO_SLOT else
  _ ← __xdp2_pvbuf_shift_pvbuf_iovecs_to_head k;
  index ← xdp2_pvbuf_iovec_map_rev_find k;
  _ ← massert (index <? num_iovecs - 1);
  b ← xdp2_pvbuf_iovec_map_isset k (index + 1); _ ← massert (negb b);
  mret (index + 1).

Definition __xdp2_pvbuf_find_append_slot (k : pvptr) (p : Z) (compress : bool) : pvm Z :=
  num_iovecs ← lift (XDP2_PVBUF_NUM_IOVECS_FROM_PADDR p);
  i ← xdp2_pvbuf_iovec_map_rev_find k;
  if negb (i =? num_iovecs - 1) then mret (if i <? num_iovecs then i + 1 else 0) else
  if compress then __xdp2_pvbuf_find_append_slot_compress k num_iovecs else mret NO_SLOT.

(** Add [length] to the length of the pvbuf in an iovec, when it is known. *)
Definition adjust_length (k : pvptr) (i length : Z) : pvm unit :=
  p ← ld_iovec k i;
  let dl := bf_get pvbuf_data_length p in
  if dl =? 0 then mret tt else
  st_iovec k i (bf_set pvbuf_data_length
    (if negb (length =? 0) && (u64 (dl + length) <? XDP2_PVBUF_MAX_LEN) then dl + length else 0) p).

(** The length of a new pvbuf that holds [iovlen] and [length] bytes. *)
Definition joined_length (iovlen length : Z) : Z :=
  if negb (length =? 0) && (u64 (iovlen + length) <? XDP2_PVBUF_MAX_LEN) then u64 (iovlen + length) else 0.

(** [XDP2_PVBUF_MAX_LEN] stands for an unknown length. *)
Definition move_len (k : pvptr) (i : Z) : pvm Z :=
  p ← ld_iovec k i;
  match ptype p with
  | TPvbuf => let dl := bf_get pvbuf_data_length p in mret (if dl =? 0 then XDP2_PVBUF_MAX_LEN else dl)
  | _ => iovec_data_len k i
  end.

(** [k->iovec[i] = p] and its bit. *)
Definition raw_set (k : pvptr) (i p : Z) : pvm unit := _ ← st_iovec k i p; xdp2_pvbuf_iovec_map_set k i.

Section Random.
Context (random : nat -> Z).

(** ** Prepending *)

Definition __xdp2_pvbuf_prepend_paddr_into_iovec_new_pvbuf (k : pvptr) (index p1 p2 length : Z) : pvm bool :=
  pvbuf_size ← __xdp2_pvbuf_get_size random;
  r ← ___xdp2_pvbuf_alloc pvbuf_size true;
  match r with
  | None => mret false
  | Some (np, nk) =>
    let pos := XDP2_PVBUF_NUM_IOVECS pvbuf_size - 1 in
    _ ← massert (4 <=? pos);
    p ← ld_iovec k index;
    _ ← massert (negb (p =? 0));
    iovlen ← move_len k index;
    let is_long := bool_decide (ptype p = TLong) in
    pos ← (if is_long then p' ← ld_iovec k (index + 1); _ ← raw_set nk pos p'; mret (pos - 1) else mret pos);
    _ ← raw_set nk pos p;
    let pos := pos - 1 in
    let pos := if XDP2_PADDR_IS_LONG_ADDR p1 then pos - 1 else pos in
    _ ← xdp2_pvbuf_iovec_set_paddr_ent nk pos p1 p2 length;
    index ← (if is_long then _ ← xdp2_pvbuf_iovec_clear_ent k index; mret (index + 1) else mret index);
    b ← xdp2_pvbuf_iovec_map_isset k index; _ ← massert b;
    w ← lift (xdp2_pvbuf_set_pvbuf_iovec np (joined_length iovlen length));
    _ ← st_iovec k index w;
    mret true
  end.

(** The recursive call is a parameter. *)
Definition ___xdp2_pvbuf_prepend_paddr_into_iovec (prepend_paddr : Z -> pvm bool)
    (k : pvptr) (index p1 p2 length : Z) : pvm bool :=
  p ← ld_iovec k index;
  _ ← massert (negb (p =? 0));
  match ptype p with
  | TPvbuf =>
    ret ← prepend_paddr p;
    if negb ret then mret false else _ ← adjust_length k index length; mret true
  | _ => __xdp2_pvbuf_prepend_paddr_into_iovec_new_pvbuf k index p1 p2 length
  end.

Fixpoint __xdp2_pvbuf_prepend_paddr (fuel : nat) (pvbuf_paddr p1 p2 length : Z) (compress : bool) : pvm bool :=
  match fuel with
  | O => nofuel
  | S fuel =>
    num_iovecs ← lift (XDP2_PVBUF_NUM_IOVECS_FROM_PADDR pvbuf_paddr);
    k ← __xdp2_pvbuf_paddr_to_addr pvbuf_paddr;
    let is_long := XDP2_PADDR_IS_LONG_ADDR p1 in
    index ← __xdp2_pvbuf_find_prepend_slot k pvbuf_paddr compress;
    if (index <? num_iovecs) && ((0 <? index) || negb is_long) then
      _ ← xdp2_pvbuf_iovec_set_paddr_ent k (index - Z.b2z is_long) p1 p2 length; mret true
    else
    index ← (if negb (index =? 0) then mret 0 else b ← xdp2_pvbuf_iovec_map_isset k index; mret (if (b : bool) then 0 else 1));
    ___xdp2_pvbuf_prepend_paddr_into_iovec (fun p => __xdp2_pvbuf_prepend_paddr fuel p p1 p2 length compress)
      k index p1 p2 length
  end.

(** [weight] is the value of [weight <= 1], never zero where this is called. *)
Definition __xdp2_pvbuf_prepend_pvbuf_compress (prepend_paddr : Z -> Z -> pvm bool) (prepend_pvbuf : Z -> pvm bool)
    (hdrs_paddr length weight : Z) : pvm bool :=
  pvbuf_size ← lift (xdp2_pvbuf_get_size_from_paddr hdrs_paddr);
  kh ← __xdp2_pvbuf_paddr_to_addr hdrs_paddr;
  ret ← (if weight =? 0 then mret true else
         i ← xdp2_pvbuf_iovec_map_find kh;
         p ← ld_iovec kh i;
         match ptype p with
         | TPbuf | TPbuf1ref | TShort => n ← iovec_data_len kh i; prepend_paddr p n
         | TPvbuf => prepend_pvbuf p
         | TLong => crash
         end);
  _ ← (if (ret : bool) then pv_obj_free pvbuf_size kh else mret tt);
  mret ret.

Definition __xdp2_pvbuf_prepend_pvbuf_into_iovec (prepend_pvbuf : Z -> pvm bool)
    (k : pvptr) (index pvbuf_paddr length : Z) (compress : bool) : pvm bool :=
  p ← ld_iovec k index;
  _ ← massert (negb (p =? 0));
  match ptype p with
  | TPvbuf =>
    ret ← prepend_pvbuf p;
    if negb ret then mret false else
    _ ← adjust_length k index length;
    _ ← (if compress then __xdp2_pvbuf_check_single k index else mret tt);
    mret true
  | _ => __xdp2_pvbuf_prepend_paddr_into_iovec_new_pvbuf k index pvbuf_paddr 0 length
  end.

Definition ___xdp2_pvbuf_prepend_pvbuf (prepend_pvbuf : Z -> pvm bool)
    (pvbuf_paddr pvbuf_paddr_in length : Z) (compress : bool) : pvm bool :=
  k ← __xdp2_pvbuf_paddr_to_addr pvbuf_paddr;
  num_iovecs ← lift (XDP2_PVBUF_NUM_IOVECS_FROM_PADDR pvbuf_paddr);
  i ← __xdp2_pvbuf_find_prepend_slot k pvbuf_paddr compress;
  if i <? num_iovecs then _ ← xdp2_pvbuf_iovec_set_pvbuf_ent k i pvbuf_paddr_in length; mret true else
  __xdp2_pvbuf_prepend_pvbuf_into_iovec prepend_pvbuf k 0 pvbuf_paddr_in length compress.

Fixpoint __xdp2_pvbuf_prepend_pvbuf (fuel : nat) (pvbuf_paddr hdrs_paddr length : Z) (compress : bool) : pvm bool :=
  match fuel with
  | O => nofuel
  | S fuel =>
    k ← __xdp2_pvbuf_paddr_to_addr pvbuf_paddr;
    kh ← __xdp2_pvbuf_paddr_to_addr hdrs_paddr;
    w ← xdp2_pvbuf_iovec_map_weight kh;
    if compress && (w <=? 1) then
      __xdp2_pvbuf_prepend_pvbuf_compress (fun p n => __xdp2_pvbuf_prepend_paddr (S fuel) pvbuf_paddr p 0 n true)
        (fun p => __xdp2_pvbuf_prepend_pvbuf fuel pvbuf_paddr p length true) hdrs_paddr length (Z.b2z (w <=? 1))
    else
    i ← xdp2_pvbuf_iovec_map_find k;
    if 0 <? i then
      num_iovecs ← lift (XDP2_PVBUF_NUM_IOVECS_FROM_PADDR pvbuf_paddr);
      _ ← xdp2_pvbuf_iovec_set_pvbuf_ent k (Z.min i num_iovecs - 1) hdrs_paddr length; mret true
    else
    ___xdp2_pvbuf_prepend_pvbuf (fun p => __xdp2_pvbuf_prepend_pvbuf fuel p hdrs_paddr length compress)
      pvbuf_paddr hdrs_paddr length compress
  end.

Definition xdp2_pvbuf_prepend_pvbuf (fuel : nat) (p hdrs_paddr length : Z) (compress : bool) : pvm bool :=
  __xdp2_pvbuf_prepend_pvbuf fuel p hdrs_paddr (if length <? XDP2_PVBUF_MAX_LEN then length else 0) compress.

(** ** Appending *)

(** The iovec that is moved into the new pvbuf: its position, its length and
    the next position there. *)
Definition move_last (k : pvptr) (index : Z) (nk : pvptr) : pvm (Z * Z * Z) :=
  p ← ld_iovec k index;
  _ ← massert (negb (p =? 0));
  match ptype p with
  | TLong =>
    let index := if bf_get long_word_num p =? 0 then index else index - 1 in
    p1 ← ld_iovec k index; p2 ← ld_iovec k (index + 1);
    _ ← lift (__xdp2_paddr_long_addr_check p1 p2);
    iovlen ← lift (xdp2_paddr_long_addr_get_data_len_from_paddr p1 p2);
    _ ← raw_set nk 0 p1; _ ← raw_set nk 1 p2; mret (index, iovlen, 2)
  | _ => iovlen ← move_len k index; _ ← raw_set nk 0 p; mret (index, iovlen, 1)
  end.

Definition __xdp2_pvbuf_append_paddr_into_iovec_new_pvbuf (k : pvptr) (index p1 p2 length : Z) (index_set : bool) : pvm bool :=
  pvbuf_size ← __xdp2_pvbuf_get_size random;
  r ← ___xdp2_pvbuf_alloc pvbuf_size true;
  match r with
  | None => mret false
  | Some (np, nk) =>
    _ ← massert (4 <=? XDP2_PVBUF_NUM_IOVECS pvbuf_size);
    '(index, iovlen, pos) ← (if negb index_set then _ ← xdp2_pvbuf_iovec_map_set k index; mret (index, 0, 0)
                             else move_last k index nk);
    _ ← xdp2_pvbuf_iovec_set_paddr_ent nk pos p1 p2 length;
    p ← ld_iovec k index;
    index ← (if index_set && XDP2_PADDR_IS_LONG_ADDR p then _ ← xdp2_pvbuf_iovec_clear_ent k index; mret (index + 1) else mret index);
    _ ← (if index_set then b ← xdp2_pvbuf_iovec_map_isset k index; massert b else mret tt);
    w ← lift (xdp2_pvbuf_set_pvbuf_iovec np (joined_length iovlen length));
    _ ← st_iovec k index w;
    mret true
  end.

Definition ___xdp2_pvbuf_append_paddr_into_iovec (append_paddr : Z -> pvm bool)
    (k : pvptr) (index p1 p2 length : Z) (index_set : bool) : pvm bool :=
  p ← ld_iovec k index;
  if index_set && XDP2_PADDR_IS_PVBUF p then
    ret ← append_paddr p;
    if negb ret then mret false else _ ← adjust_length k index length; mret true
  else __xdp2_pvbuf_append_paddr_into_iovec_new_pvbuf k index p1 p2 length index_set.

Fixpoint __xdp2_pvbuf_append_paddr (fuel : nat) (pvbuf_paddr p1 p2 length : Z) (compress : bool) : pvm bool :=
  match fuel with
  | O => nofuel
  | S fuel =>
    k ← __xdp2_pvbuf_paddr_to_addr pvbuf_paddr;
    num_iovecs ← lift (XDP2_PVBUF_NUM_IOVECS_FROM_PADDR pvbuf_paddr);
    let is_long := XDP2_PADDR_IS_LONG_ADDR p1 in
    i ← __xdp2_pvbuf_find_append_slot k pvbuf_paddr compress;
    if (i <? num_iovecs) && (negb (i =? num_iovecs - 1) || negb is_long) then
      _ ← xdp2_pvbuf_iovec_set_paddr_ent k i p1 p2 length; mret true
    else
    last_set ← xdp2_pvbuf_iovec_map_isset k (num_iovecs - 1);
    ___xdp2_pvbuf_append_paddr_into_iovec (fun p => __xdp2_pvbuf_append_paddr fuel p p1 p2 length compress)
      k (num_iovecs - 1) p1 p2 length last_set
  end.

(** The backend function of the same name repeats it. *)
Definition ___xdp2_pvbuf_append_paddr := __xdp2_pvbuf_append_paddr.

Definition __xdp2_pvbuf_append_pvbuf_compress (append_paddr : Z -> Z -> pvm bool) (append_pvbuf : Z -> pvm bool)
    (trls_paddr length weight : Z) : pvm bool :=
  pvbuf_size ← lift (xdp2_pvbuf_get_size_from_paddr trls_paddr);
  kt ← __xdp2_pvbuf_paddr_to_addr trls_paddr;
  ret ← (if weight =? 0 then mret true else
         i ← xdp2_pvbuf_iovec_map_find kt;
         p ← ld_iovec kt i;
         match ptype p with
         | TPbuf | TPbuf1ref | TShort => n ← iovec_data_len kt i; append_paddr p n
         | TPvbuf => append_pvbuf p
         | TLong => crash
         end);
  _ ← (if (ret : bool) then pv_obj_free pvbuf_size kt else mret tt);
  mret ret.

Definition __xdp2_pvbuf_append_pvbuf_into_iovec (append_pvbuf : Z -> pvm bool)
    (k : pvptr) (index p length : Z) (index_set : bool) : pvm bool :=
  _ ← massert (XDP2_PADDR_IS_PVBUF p);
  if negb index_set then _ ← xdp2_pvbuf_iovec_set_pvbuf_ent k index p length; mret true else
  q ← ld_iovec k index;
  if XDP2_PADDR_IS_PVBUF q then
    ret ← append_pvbuf q;
    if negb ret then mret false else _ ← adjust_length k index length; mret true
  else __xdp2_pvbuf_append_paddr_into_iovec_new_pvbuf k index p 0 length index_set.

Definition ___xdp2_pvbuf_append_pvbuf (append_pvbuf : Z -> pvm bool)
    (pvbuf_paddr p length : Z) (compress : bool) : pvm bool :=
  k ← __xdp2_pvbuf_paddr_to_addr pvbuf_paddr;
  num_iovecs ← lift (XDP2_PVBUF_NUM_IOVECS_FROM_PADDR pvbuf_paddr);
  _ ← massert (XDP2_PADDR_IS_PVBUF p);
  index ← __xdp2_pvbuf_find_append_slot k pvbuf_paddr compress;
  if index <? num_iovecs then _ ← xdp2_pvbuf_iovec_set_pvbuf_ent k index p length; mret true else
  last_set ← xdp2_pvbuf_iovec_map_isset k (num_iovecs - 1);
  __xdp2_pvbuf_append_pvbuf_into_iovec append_pvbuf k (num_iovecs - 1) p length last_set.

Fixpoint __xdp2_pvbuf_append_pvbuf (fuel : nat) (pvbuf_paddr trls_paddr length : Z) (compress : bool) : pvm bool :=
  match fuel with
  | O => nofuel
  | S fuel =>
    k ← __xdp2_pvbuf_paddr_to_addr pvbuf_paddr;
    kt ← __xdp2_pvbuf_paddr_to_addr trls_paddr;
    w ← xdp2_pvbuf_iovec_map_weight kt;
    if compress && (w <=? 1) then
      __xdp2_pvbuf_append_pvbuf_compress (fun p n => __xdp2_pvbuf_append_paddr (S fuel) pvbuf_paddr p 0 n true)
        (fun p => __xdp2_pvbuf_append_pvbuf fuel pvbuf_paddr p length true) trls_paddr length (Z.b2z (w <=? 1))
    else
    i ← xdp2_pvbuf_iovec_map_rev_find k;
    num_iovecs ← lift (XDP2_PVBUF_NUM_IOVECS_FROM_PADDR pvbuf_paddr);
    if i <? num_iovecs - 1 then
      _ ← xdp2_pvbuf_iovec_set_pvbuf_ent k (i + 1) trls_paddr length; mret true
    else
    ___xdp2_pvbuf_append_pvbuf (fun p => __xdp2_pvbuf_append_pvbuf fuel p trls_paddr length compress)
      pvbuf_paddr trls_paddr length compress
  end.

Definition xdp2_pvbuf_append_pvbuf (fuel : nat) (p trls_paddr length : Z) (compress : bool) : pvm bool :=
  __xdp2_pvbuf_append_pvbuf fuel p trls_paddr (if length <? XDP2_PVBUF_MAX_LEN then length else 0) compress.
End Random.
