(* ===== verification/PvbufPop.v ===== *)
(** * Packet vectors: removing data and pulling it together

    The pop functions of [lib/xdp2/pvbuf.c] and the pull functions of
    [include/xdp2/pvbuf.h]. Data that is removed can be copied to a buffer: the
    pointer to it is an argument and a result. *)

From stdpp Require Import base list gmap numbers.
From S2P Require Import Prelude BitmapWord Memory Paddr Pvbuf PvbufEdit.

(** [memcpy] between places of the byte memory. *)
Definition pb_memcpy (dst src n : Z) : pvm unit :=
  m ← gets (fun s => pb_mem (mpb s));
  l ← lift (mem_bytes (Z.to_nat n) m src);
  m ← lift (mem_write l m dst);
  modify_pb (set_mem m).

(** [memcpy( *copyptr, src, n); *copyptr += n], unless [copyptr] is NULL. *)
Definition copy_up (copyptr : option Z) (src n : Z) : pvm (option Z) :=
  match copyptr with
  | None => mret None
  | Some c => _ ← pb_memcpy c src n; mret (Some (u64 (c + n)))
  end.
(** [ *copyptr -= n; memcpy( *copyptr, src, n)]. *)
Definition copy_down (copyptr : option Z) (src n : Z) : pvm (option Z) :=
  match copyptr with
  | None => mret None
  | Some c => let c := u64 (c - n) in _ ← pb_memcpy c src n; mret (Some c)
  end.

Definition __xdp2_pvbuf_paddr_free_iovec (k : pvptr) (i : Z) : pvm unit :=
  p ← ld_iovec k i;
  _ ← massert (negb (p =? 0));
  _ ← match ptype p with
      | TPbuf | TPbuf1ref => __xdp2_pbuf_free p
      | TShort => __xdp2_paddr_short_addr_free p
      | TLong => p2 ← ld_iovec k (i + 1); _ ← __xdp2_paddr_long_addr_free p p2; xdp2_pvbuf_iovec_unset_ent k (i + 1)
      | TPvbuf => crash
      end;
  xdp2_pvbuf_iovec_unset_ent k i.

(** Take [n] bytes from the length of an iovec. *)
Definition shorten (n p : Z) : Z :=
  match ptype p with
  | TPbuf | TPbuf1ref => bf_set pbuf_data_length (bf_get pbuf_data_length p - n) p
  | TShort => bf_set short_data_length (bf_get short_data_length p - n) p
  | TLong | TPvbuf => bf_set long_data_length (bf_get long_data_length p - n) p
  end.

(** ** Headers *)

Definition __xdp2_pvbuf_pop_from_paddr_iovec (k : pvptr) (i n : Z) (copyptr : option Z) : pvm (Z * option Z) :=
  '(data_ptr, data_len) ← __xdp2_pvbuf_get_ptr_len_from_iovec k i false;
  if data_len <=? n then
    c ← copy_up copyptr data_ptr data_len;
    _ ← __xdp2_pvbuf_paddr_free_iovec k i;
    mret (n - data_len, c)
  else
    c ← copy_up copyptr data_ptr n;
    p ← ld_iovec k i;
    _ ← massert (negb (p =? 0));
    _ ← match ptype p with
        | TPbuf | TPbuf1ref => st_iovec k i (shorten n (bf_set pbuf_offset (bf_get pbuf_offset p + n) p))
        | TShort => st_iovec k i (shorten n (bf_set short_offset (bf_get short_offset p + n) p))
        | TLong =>
          p2 ← ld_iovec k (i + 1);
          o ← lift (xdp2_paddr_long_addr_get_offset_from_paddr p p2);
          '(q1, q2) ← lift (xdp2_paddr_long_addr_set_offset_from_paddr p p2 (u64 (o + n)));
          _ ← st_iovec k i (shorten n q1); st_iovec k (i + 1) q2
        | TPvbuf => crash
        end;
    mret (0, c).

(** A pvbuf that holds a single pvbuf takes over its iovecs. *)
Definition __xdp2_pvbuf_try_iovec_uplevel (k : pvptr) (num_iovecs : Z) : pvm unit :=
  w ← xdp2_pvbuf_iovec_map_weight k;
  if negb (w =? 1) then mret tt else
  i ← xdp2_pvbuf_iovec_map_find k;
  _ ← massert (i <? num_iovecs);
  p ← ld_iovec k i;
  if negb (XDP2_PADDR_IS_PVBUF p) then mret tt else
  old_num_iovecs ← lift (XDP2_PVBUF_NUM_IOVECS_FROM_PADDR p);
  if num_iovecs <? old_num_iovecs then mret tt else
  ok ← __xdp2_pvbuf_paddr_to_addr p;
  pvbuf_size ← lift (xdp2_pvbuf_get_size_from_paddr p);
  _ ← xdp2_pvbuf_iovec_clear_ent k i;
  _ ← xdp2_pvbuf_iovec_map_foreach ok (fun i j =>
        q ← ld_iovec ok i;
        _ ← raw_set k j q;
        _ ← xdp2_pvbuf_iovec_clear_ent ok i; mret (Next i (j + 1))) 0;
  pv_obj_free pvbuf_size ok.

(** The pvbuf in an iovec; [pop] is the recursive call, [fuel] that of freeing.
    Headers and trailers differ in the order of two calls. *)
Definition pop_pvbuf_iovec (fuel : nat) (pop : Z -> Z -> option Z -> pvm (Z * option Z)) (unset_first : bool)
    (k : pvptr) (i n : Z) (compress : bool) (copyptr : option Z) : pvm (Z * option Z) :=
  p ← ld_iovec k i;
  k1 ← __xdp2_pvbuf_paddr_to_addr p;
  num_iovecs ← lift (XDP2_PVBUF_NUM_IOVECS_FROM_PADDR p);
  dl ← lift (xdp2_pvbuf_get_data_len_from_paddr p);
  if negb (dl =? 0) then
    if dl <=? n then
      c ← match copyptr with
          | None => mret None
          | Some _ => '(dropped, c) ← pop p n copyptr; _ ← massert (dropped =? dl); mret c
          end;
      _ ← __xdp2_pvbuf_free fuel p;
      _ ← xdp2_pvbuf_iovec_unset_ent k i;
      mret (n - dl, c)
    else
      '(dropped, c) ← pop p n copyptr;
      _ ← massert (dropped =? n);
      q ← ld_iovec k i;
      _ ← st_iovec k i (bf_set pvbuf_data_length (bf_get pvbuf_data_length q - dropped) q);
      _ ← (if compress then __xdp2_pvbuf_check_single k i else mret tt);
      mret (n - dropped, c)
  else
    '(dropped, c) ← pop p n copyptr;
    _ ← (if dropped <? n then _ ← xdp2_pvbuf_iovec_unset_ent k i; __xdp2_pvbuf_free fuel p else
         _ ← massert (dropped =? n);
         j ← xdp2_pvbuf_iovec_map_find k1;
         if num_iovecs <=? j then
           if unset_first then _ ← xdp2_pvbuf_iovec_unset_ent k i; __xdp2_pvbuf_free fuel p
           else _ ← __xdp2_pvbuf_free fuel p; xdp2_pvbuf_iovec_unset_ent k i
         else mret tt);
    mret (n - dropped, c).

Definition __xdp2_pvbuf_pop_from_pvbuf_iovec (fuel : nat) (pop : Z -> Z -> option Z -> pvm (Z * option Z)) :=
  pop_pvbuf_iovec fuel pop true.

(** The number of bytes dropped. *)
Fixpoint __xdp2_pvbuf_pop_hdrs (fuel : nat) (p n : Z) (compress : bool) (copyptr : option Z) : pvm (Z * option Z) :=
  match fuel with
  | O => nofuel
  | S fuel =>
    k ← __xdp2_pvbuf_paddr_to_addr p;
    num_iovecs ← lift (XDP2_PVBUF_NUM_IOVECS_FROM_PADDR p);
    if n =? 0 then mret (0, copyptr) else
    '(rest, c) ← xdp2_pvbuf_iovec_map_foreach k (fun i '(rest, c) =>
      q ← ld_iovec k i;
      _ ← massert (negb (q =? 0));
      '(i, (rest, c)) ←
        match ptype q with
        | TPvbuf =>
          r ← __xdp2_pvbuf_pop_from_pvbuf_iovec fuel (fun p n c => __xdp2_pvbuf_pop_hdrs fuel p n compress c) k i rest compress c;
          q ← ld_iovec k i;
          _ ← (if compress && XDP2_PADDR_IS_PVBUF q then __xdp2_pvbuf_check_single k i else mret tt);
          mret (i, r)
        | TLong => r ← __xdp2_pvbuf_pop_from_paddr_iovec k i rest c; mret (i + 1, r)
        | _ => r ← __xdp2_pvbuf_pop_from_paddr_iovec k i rest c; mret (i, r)
        end;
      mret (if rest =? 0 then Break (rest, c) else Next i (rest, c))) (n, copyptr);
    _ ← (if compress then __xdp2_pvbuf_try_iovec_uplevel k num_iovecs else mret tt);
    mret (n - rest, c)
  end.

(** ** Trailers *)

Definition __xdp2_pvbuf_pop_trailers_from_paddr_iovec (k : pvptr) (i n : Z) (copyptr : option Z) : pvm (Z * option Z) :=
  '(data_ptr, data_len) ← __xdp2_pvbuf_get_ptr_len_from_iovec k i false;
  if data_len <=? n then
    c ← copy_down copyptr data_ptr data_len;
    _ ← __xdp2_pvbuf_paddr_free_iovec k i;
    mret (n - data_len, c)
  else
    c ← copy_down copyptr (u64 (data_ptr + data_len - n)) n;
    p ← ld_iovec k i;
    _ ← massert (negb (p =? 0));
    _ ← match ptype p with TPvbuf => crash | _ => st_iovec k i (shorten n p) end;
    mret (0, c).

Definition __xdp2_pvbuf_pop_trailers_from_pvbuf_iovec (fuel : nat) (pop : Z -> Z -> option Z -> pvm (Z * option Z)) :=
  pop_pvbuf_iovec fuel pop false.

Fixpoint __xdp2_pvbuf_pop_trailers (fuel : nat) (p n : Z) (compress : bool) (copyptr : option Z) : pvm (Z * option Z) :=
  match fuel with
  | O => nofuel
  | S fuel =>
    k ← __xdp2_pvbuf_paddr_to_addr p;
    num_iovecs ← lift (XDP2_PVBUF_NUM_IOVECS_FROM_PADDR p);
    if n =? 0 then mret (0, copyptr) else
    '(rest, c) ← xdp2_pvbuf_iovec_map_rev_foreach k (num_iovecs - 1) (fun i '(rest, c) =>
      q ← ld_iovec k i;
      _ ← massert (negb (q =? 0));
      '(i, (rest, c)) ←
        match ptype q with
        | TPvbuf =>
          r ← __xdp2_pvbuf_pop_trailers_from_pvbuf_iovec fuel (fun p n c => __xdp2_pvbuf_pop_trailers fuel p n compress c) k i rest compress c;
          mret (i, r)
        | TLong => r ← __xdp2_pvbuf_pop_trailers_from_paddr_iovec k (i - 1) rest c; mret (i - 1, r)
        | _ => r ← __xdp2_pvbuf_pop_trailers_from_paddr_iovec k i rest c; mret (i, r)
        end;
      mret (if rest =? 0 then Break (rest, c) else Next i (rest, c))) (n, copyptr);
    _ ← (if compress then __xdp2_pvbuf_try_iovec_uplevel k num_iovecs else mret tt);
    mret (n - rest, c)
  end.

Definition xdp2_pvbuf_pop_hdrs (fuel : nat) (p n : Z) (compress : bool) : pvm Z :=
  r ← __xdp2_pvbuf_pop_hdrs fuel p n compress None; mret (fst r).
Definition xdp2_pvbuf_pop_trailers (fuel : nat) (p n : Z) (compress : bool) : pvm Z :=
  r ← __xdp2_pvbuf_pop_trailers fuel p n compress None; mret (fst r).

Section Random.
Context (random : nat -> Z).

(** ** Pullup *)

Definition __xdp2_pvbuf_prepend_pbuf_pullup (fuel : nat) (pvbuf_paddr p length : Z) (compress : bool) : pvm bool :=
  k ← __xdp2_pvbuf_paddr_to_addr pvbuf_paddr;
  num_iovecs ← lift (XDP2_PVBUF_NUM_IOVECS_FROM_PADDR pvbuf_paddr);
  _ ← massert (XDP2_PADDR_IS_PBUF p);
  index ← __xdp2_pvbuf_find_prepend_slot k pvbuf_paddr compress;
  if index <? num_iovecs then _ ← xdp2_pvbuf_iovec_set_pbuf_ent k index p length; mret true else
  q ← ld_iovec k 0;
  b1 ← xdp2_pvbuf_iovec_map_isset k 1;
  b0 ← xdp2_pvbuf_iovec_map_isset k 0;
  ret ← (if negb b1 then
           _ ← massert (negb (XDP2_PADDR_IS_LONG_ADDR q));
           _ ← st_iovec k 1 q; _ ← xdp2_pvbuf_iovec_clear_ent k 0; _ ← xdp2_pvbuf_iovec_map_set k 1;
           _ ← st_iovec k 0 0; mret true
         else if XDP2_PADDR_IS_PVBUF q then
           __xdp2_pvbuf_prepend_pvbuf_into_iovec random
             (fun r => __xdp2_pvbuf_prepend_pvbuf random fuel r q (bf_get pvbuf_data_length q) compress)
             k 1 q (bf_get pvbuf_data_length q) compress
         else if (b0 : bool) then
           '(_, data_len) ← __xdp2_pvbuf_get_ptr_len_from_iovec k 0 false;
           if XDP2_PADDR_IS_LONG_ADDR q then
             q2 ← ld_iovec k 1;
             ret ← ___xdp2_pvbuf_prepend_paddr_into_iovec random
                     (fun r => __xdp2_pvbuf_prepend_paddr random fuel r q q2 data_len compress) k 2 q q2 data_len;
             _ ← xdp2_pvbuf_iovec_clear_ent k 1; mret ret
           else ___xdp2_pvbuf_prepend_paddr_into_iovec random
                  (fun r => __xdp2_pvbuf_prepend_paddr random fuel r q 0 data_len compress) k 1 q 0 data_len
         else mret true);
  _ ← (if (ret : bool) then w ← lift (xdp2_pbuf_set_iovec p length); raw_set k 0 w else mret tt);
  mret ret.

(** The address of the data and the number of bytes pulled up; [None] is NULL. *)
Definition __xdp2_pvbuf_pullup (fuel : nat) (pvbuf_paddr length : Z) (compress : bool) : pvm (option Z * Z) :=
  num_iovecs ← lift (XDP2_PVBUF_NUM_IOVECS_FROM_PADDR pvbuf_paddr);
  k ← __xdp2_pvbuf_paddr_to_addr pvbuf_paddr;
  index ← xdp2_pvbuf_iovec_map_find k;
  if num_iovecs <=? index then mret (None, length) else
  p ← ld_iovec k index;
  let doit data_ptr p start_length :=
    let copy_length := u64 (length - start_length) in
    '(dropped, c) ← __xdp2_pvbuf_pop_hdrs fuel pvbuf_paddr copy_length compress (Some (u64 (data_ptr + start_length)));
    c ← lift (deref c);
    _ ← massert (copy_length =? u64 (c - data_ptr - start_length));
    ret ← __xdp2_pvbuf_prepend_pbuf_pullup fuel pvbuf_paddr p (dropped + start_length) compress;
    if (ret : bool) then mret (Some data_ptr, dropped + start_length)
    else _ ← __xdp2_pbuf_free p; mret (None, 0) in
  let alloc :=
    r ← __xdp2_pbuf_alloc length false;
    match r with
    | None => mret (None, 0)
    | Some (p, data_ptr) => doit data_ptr p 0
    end in
  if XDP2_PADDR_IS_PVBUF p then alloc else
  '(data_ptr, data_len) ← __xdp2_pvbuf_get_ptr_len_from_iovec k index false;
  if length <=? data_len then mret (Some data_ptr, data_len) else
  room ← (if XDP2_PADDR_IS_PBUF p && compress then
            c ← xdp2_pbuf_get_refcnt p;
            if c =? 1 then t ← __xdp2_pbuf_get_tailroom_from_paddr p; mret (length <=? t) else mret false
          else mret false);
  if (room : bool) then _ ← xdp2_pvbuf_iovec_unset_ent k index; doit data_ptr p data_len else alloc.

Definition xdp2_pvbuf_pullup (fuel : nat) (p length : Z) (compress : bool) : pvm (option Z) :=
  '(ret, n) ← __xdp2_pvbuf_pullup fuel p length compress;
  mret (if negb (is_null ret) && (n <? length) then None else ret).

(** ** Pulltail *)

Definition __xdp2_pvbuf_append_pbuf_pulltail (fuel : nat) (pvbuf_paddr p length : Z) : pvm bool :=
  k ← __xdp2_pvbuf_paddr_to_addr pvbuf_paddr;
  num_iovecs ← lift (XDP2_PVBUF_NUM_IOVECS_FROM_PADDR pvbuf_paddr);
  _ ← massert (XDP2_PADDR_IS_PBUF p);
  i ← __xdp2_pvbuf_find_append_slot k pvbuf_paddr false;
  if i <? num_iovecs then _ ← xdp2_pvbuf_iovec_set_pbuf_ent k i p length; mret true else
  last_set ← xdp2_pvbuf_iovec_map_isset k (num_iovecs - 2);
  b ← xdp2_pvbuf_iovec_map_isset k (num_iovecs - 1);
  q ← ld_iovec k (num_iovecs - 1);
  let not_set (ret : bool) :=
    _ ← (if ret then w ← lift (xdp2_pbuf_set_iovec p length); raw_set k (num_iovecs - 1) w else mret tt); mret ret in
  if negb b then not_set true else
  if XDP2_PADDR_IS_PVBUF q then
    let iovlen := bf_get pvbuf_data_length q in
    ret ← __xdp2_pvbuf_append_pvbuf_into_iovec random
            (fun r => __xdp2_pvbuf_append_pvbuf random fuel r q iovlen false) k (num_iovecs - 2) q iovlen last_set;
    not_set ret
  else
    _ ← __xdp2_pvbuf_get_ptr_len_from_iovec k (num_iovecs - 1) false;
    __xdp2_pvbuf_append_paddr_into_iovec_new_pvbuf random k (num_iovecs - 2) p 0 length last_set.

(** The last iovec that is not a pvbuf, of the last pvbuf. *)
Fixpoint xdp2_pvbuf_find_last_iovec (fuel : nat) (p : Z) : pvm (option (pvptr * Z)) :=
  match fuel with
  | O => nofuel
  | S fuel =>
    k ← __xdp2_pvbuf_paddr_to_addr p;
    num_iovecs ← lift (XDP2_PVBUF_NUM_IOVECS_FROM_PADDR p);
    xdp2_pvbuf_iovec_map_rev_foreach k (num_iovecs - 1) (fun i _ =>
      q ← ld_iovec k i;
      _ ← massert (negb (q =? 0));
      if negb (XDP2_PADDR_IS_PVBUF q) then mret (Break (Some (k, i))) else
      r ← xdp2_pvbuf_find_last_iovec fuel q; mret (Break r)) None
  end.

Definition __xdp2_pvbuf_pulltail (fuel : nat) (pvbuf_paddr length : Z) : pvm (option Z * Z) :=
  last ← xdp2_pvbuf_find_last_iovec fuel pvbuf_paddr;
  found ← match last with
          | None => mret None
          | Some (k, i) =>
            '(data_ptr, data_len) ← __xdp2_pvbuf_get_ptr_len_from_iovec k i true;
            mret (if length <=? data_len then Some (u64 (data_ptr + data_len - length), data_len) else None)
          end;
  match found with
  | Some (ret, data_len) => mret (Some ret, data_len)
  | None =>
    r ← __xdp2_pbuf_alloc length false;
    match r with
    | None => mret (None, 0)
    | Some (p, pbuf) =>
      let orig := u64 (pbuf + length) in
      '(dropped, c) ← __xdp2_pvbuf_pop_trailers fuel pvbuf_paddr length false (Some orig);
      c ← lift (deref c);
      _ ← massert (length =? u64 (orig - c));
      ret ← __xdp2_pvbuf_append_pbuf_pulltail fuel pvbuf_paddr p dropped;
      if (ret : bool) then mret (Some c, dropped) else _ ← __xdp2_pbuf_free p; mret (None, 0)
    end
  end.

Definition xdp2_pvbuf_pulltail (fuel : nat) (p length : Z) : pvm (option Z) :=
  '(ret, n) ← __xdp2_pvbuf_pulltail fuel p length;
  mret (if negb (is_null ret) && (n <? length) then None else ret).
End Random.
