(* ===== verification/PvbufIter.v ===== *)
(** * Packet vectors: iteration, cloning, allocation

    Iterators and what is done with them (copies, checksum, lists of segments,
    clones), allocation of pvbufs with data, initialization and checks. *)

From stdpp Require Import base list gmap numbers.
From S2P Require Import Prelude BitmapWord Memory Checksum Paddr Pvbuf PvbufEdit PvbufPop.

(** ** Iterators *)

(** [func] gets the address and the length of the data of every buffer; it says
    whether to go on. [A] is what [priv] points to. *)
Fixpoint __xdp2_pvbuf_iterate {A} (fuel : nat) (p : Z) (func : A -> Z -> Z -> pvm (A * bool)) (priv : A) : pvm (A * bool) :=
  match fuel with
  | O => nofuel
  | S fuel =>
    k ← __xdp2_pvbuf_paddr_to_addr p;
    xdp2_pvbuf_iovec_map_foreach k (fun i '(priv, _) =>
      q ← ld_iovec k i;
      '(i, (priv, cont)) ←
        (if XDP2_PADDR_IS_PVBUF q then r ← __xdp2_pvbuf_iterate fuel q func priv; mret (i, r) else
         '(data_ptr, data_len) ← __xdp2_pvbuf_get_ptr_len_from_iovec k i false;
         r ← func priv data_ptr data_len;
         if XDP2_PADDR_IS_LONG_ADDR q
         then b ← xdp2_pvbuf_iovec_map_isset k (i + 1); _ ← massert b; mret (i + 1, r)
         else mret (i, r));
      mret (if (cont : bool) then Next i (priv, cont) else Break (priv, cont))) (priv, true)
  end.

(** [func] gets the iovec, which it can change. *)
Fixpoint __xdp2_pvbuf_iterate_iovec {A} (fuel : nat) (p : Z) (func : A -> pvptr -> Z -> pvm (A * bool)) (priv : A) : pvm (A * bool) :=
  match fuel with
  | O => nofuel
  | S fuel =>
    k ← __xdp2_pvbuf_paddr_to_addr p;
    xdp2_pvbuf_iovec_map_foreach k (fun i '(priv, _) =>
      q ← ld_iovec k i;
      _ ← massert (negb (q =? 0));
      '(i, (priv, cont)) ←
        match ptype q with
        | TPvbuf => r ← __xdp2_pvbuf_iterate_iovec fuel q func priv; mret (i, r)
        | TLong => r ← func priv k i; b ← xdp2_pvbuf_iovec_map_isset k (i + 1); _ ← massert b; mret (i + 1, r)
        | _ => r ← func priv k i; mret (i, r)
        end;
      mret (if (cont : bool) then Next i (priv, cont) else Break (priv, cont))) (priv, true)
  end.

(** ** Copies *)

Record iter_copy := IterCopy { ic_data : Z; ic_len : Z; ic_offset : Z }.

(** The part of a buffer after the offset that is still to be skipped. *)
Definition skip_offset (offset data len : Z) : option (Z * Z) * Z :=
  if offset =? 0 then (Some (data, len), 0)
  else if len <=? offset then (None, offset - len)
  else (Some (u64 (data + offset), len - offset), 0).

(** A length of zero means no limit. *)
Definition cap_len (limit len : Z) : Z := if limit =? 0 then len else Z.min limit len.

Definition iterate_copy (cp : Z -> Z -> Z -> pvm unit) (ist : iter_copy) (data len : Z) : pvm (iter_copy * bool) :=
  match skip_offset (ic_offset ist) data len with
  | (None, o) => mret (IterCopy (ic_data ist) (ic_len ist) o, true)
  | (Some (data, len), o) =>
    let len := cap_len (ic_len ist) len in
    _ ← cp data (ic_data ist) len;
    let d := u64 (ic_data ist + len) in
    mret (if ic_len ist =? 0 then (IterCopy d 0 o, true)
          else (IterCopy d (ic_len ist - len) o, negb (ic_len ist - len =? 0)))
  end.
Definition __xdp2_pvbuf_iterate_copy_to_pvbuf := iterate_copy (fun data d len => pb_memcpy data d len).
Definition __xdp2_pvbuf_iterate_copy_to_data := iterate_copy (fun data d len => pb_memcpy d data len).

Definition __xdp2_pvbuf_copy_data_to_pvbuf (fuel : nat) (p data len offset : Z) : pvm Z :=
  r ← __xdp2_pvbuf_iterate fuel p __xdp2_pvbuf_iterate_copy_to_pvbuf (IterCopy data len offset);
  mret (u64 (len - ic_len (fst r))).
Definition __xdp2_pvbuf_copy_pvbuf_to_data (fuel : nat) (p data len offset : Z) : pvm Z :=
  r ← __xdp2_pvbuf_iterate fuel p __xdp2_pvbuf_iterate_copy_to_data (IterCopy data len offset);
  mret (u64 (len - ic_len (fst r))).

(** ** Checksum *)

Record iter_checksum := IterChecksum { ick_len : Z; ick_offset : Z; csum_total : Z; odd_byte : bool }.

(** The buffer as a pointer for the checksum functions. *)
Definition buf_at (data len : Z) : pvm ptr :=
  m ← gets (fun s => pb_mem (mpb s)); l ← lift (mem_bytes (Z.to_nat len) m data); mret (Ptr l 0).

Definition __xdp2_pvbuf_iterate_checksum (ist : iter_checksum) (data len : Z) : pvm (iter_checksum * bool) :=
  match skip_offset (ick_offset ist) data len with
  | (None, o) => mret (IterChecksum (ick_len ist) o (csum_total ist) (odd_byte ist), true)
  | (Some (data, len), o) =>
    let len := cap_len (ick_len ist) len in
    b ← buf_at data len;
    '(total, len, b, odd) ←
      (if odd_byte ist && negb (len =? 0) then
         x ← lift (ld8 b 0);
         mret (xdp2_checksum_add16 (csum_total ist) (u16 (Z.shiftl x 8)), len - 1, padd b 1, false)
       else mret (csum_total ist, len, b, odd_byte ist));
    csum ← lift (__xdp2_checksum_compute b len);
    let total := xdp2_checksum_add16 total csum in
    let odd := if Z.odd len then true else odd in
    mret (if ick_len ist =? 0 then (IterChecksum 0 o total odd, true)
          else (IterChecksum (ick_len ist - len) o total odd, negb (ick_len ist - len =? 0)))
  end.

Definition __xdp2_pvbuf_checksum (fuel : nat) (p len offset : Z) : pvm Z :=
  r ← __xdp2_pvbuf_iterate fuel p __xdp2_pvbuf_iterate_checksum (IterChecksum len offset 0 false);
  mret (__xdp2_checksum_fold64 (csum_total (fst r))).

(** ** Segments *)

(** The array of [struct iovec] is the list of the entries written so far. *)
Record iter_make_iovecs := IterMake { im_iovecs : list (Z * Z); im_num : Z; im_max : Z; im_len : Z; im_offset : Z }.

Definition __xdp2_pvbuf_iterate_make_iovecs (ist : iter_make_iovecs) (data len : Z) : pvm (iter_make_iovecs * bool) :=
  if im_max ist <=? im_num ist then
    mret (IterMake (im_iovecs ist) (u32 (im_num ist + 1)) (im_max ist) (im_len ist) (im_offset ist), false)
  else
  match skip_offset (im_offset ist) data len with
  | (None, o) => mret (IterMake (im_iovecs ist) (im_num ist) (im_max ist) (im_len ist) o, true)
  | (Some (data, len), o) =>
    let len := cap_len (im_len ist) len in
    let l := im_iovecs ist ++ [(data, len)] in
    let n := u32 (im_num ist + 1) in
    mret (if im_len ist =? 0 then
            let rest := u64 (im_len ist - len) in (IterMake l n (im_max ist) rest o, negb (rest =? 0))
          else (IterMake l n (im_max ist) (im_len ist) o, true))
  end.

(** The entries and their number, -1 when there are too many. *)
Definition __xdp2_pvbuf_make_iovecs (fuel : nat) (p max_vecs len offset : Z) : pvm (list (Z * Z) * Z) :=
  r ← __xdp2_pvbuf_iterate fuel p __xdp2_pvbuf_iterate_make_iovecs (IterMake [] 0 max_vecs len offset);
  mret (im_iovecs (fst r), if im_num (fst r) <=? max_vecs then im_num (fst r) else -1).

(** ** Checks *)

Fixpoint check_loop (n : nat) (i : Z) (body : Z -> pvm unit) : pvm unit :=
  match n with
  | O => mret tt
  | S n => _ ← body i; check_loop n (i + 1) body
  end.

Fixpoint __xdp2_pvbuf_check (fuel : nat) (p : Z) : pvm unit :=
  match fuel with
  | O => nofuel
  | S fuel =>
    k ← __xdp2_pvbuf_paddr_to_addr p;
    num_iovecs ← lift (XDP2_PVBUF_NUM_IOVECS_FROM_PADDR p);
    check_loop (Z.to_nat num_iovecs) 0 (fun i =>
      q ← ld_iovec k i;
      b ← xdp2_pvbuf_iovec_map_isset k i;
      if q =? 0 then massert (negb b) else
      _ ← massert b;
      if XDP2_PADDR_IS_PVBUF q then __xdp2_pvbuf_check fuel q else mret tt)
  end.

Definition __xdp2_pvbuf_check_empty (p : Z) : pvm unit :=
  k ← __xdp2_pvbuf_paddr_to_addr p;
  num_iovecs ← lift (XDP2_PVBUF_NUM_IOVECS_FROM_PADDR p);
  check_loop (Z.to_nat num_iovecs) 0 (fun i =>
    q ← ld_iovec k i; _ ← massert (q =? 0);
    b ← xdp2_pvbuf_iovec_map_isset k i; massert (negb b)).

Section Random.
Context (random : nat -> Z).

(** ** Clone *)

Record iter_clone := IterClone { ct_length : Z; ct_offset : Z; ct_num_iovecs : Z; ct_pvbuf : pvptr; ct_index : Z; ct_error : Z }.

Definition ENOMEM : Z := 12.

Definition __xdp2_check_clone_add_iovec (ist : iter_clone) (set_length : bool) (pvbuf_size : Z) : pvm (iter_clone * bool) :=
  r ← ___xdp2_pvbuf_alloc pvbuf_size true;
  match r with
  | None => mret (IterClone (ct_length ist) (ct_offset ist) (ct_num_iovecs ist) (ct_pvbuf ist) (ct_index ist) (- ENOMEM), false)
  | Some (np, nk) =>
    let len := if set_length && (ct_length ist <? XDP2_PVBUF_MAX_LEN) then ct_length ist else 0 in
    _ ← xdp2_pvbuf_iovec_set_pvbuf_ent (ct_pvbuf ist) (ct_num_iovecs ist - 1) np len;
    mret (IterClone (ct_length ist) (ct_offset ist) (XDP2_PVBUF_NUM_IOVECS pvbuf_size) nk 0 (ct_error ist), true)
  end.

(** What the clone iterators do first with an iovec. *)
Inductive common := Skip (cont : bool) | Take (p1 p2 data_len num_slots : Z).

Definition __xdp2_pvbuf_iterate_iovec_clone_common (ist : iter_clone) (k : pvptr) (i : Z) : pvm (iter_clone * common) :=
  if ct_length ist =? 0 then mret (ist, Skip false) else
  p ← ld_iovec k i;
  _ ← massert (negb (p =? 0));
  data_len ← iovec_data_len k i;
  '(p2, num_slots) ← (if XDP2_PADDR_IS_LONG_ADDR p then p2 ← ld_iovec k (i + 1); mret (p2, 2) else mret (0, 1));
  if data_len =? 0 then mret (ist, Skip true) else
  let set_offset o := IterClone (ct_length ist) o (ct_num_iovecs ist) (ct_pvbuf ist) (ct_index ist) (ct_error ist) in
  if negb (ct_offset ist =? 0) && (data_len <=? ct_offset ist) then mret (set_offset (ct_offset ist - data_len), Skip true) else
  _ ← (if xdp2_paddr_get_paddr_tag_from_paddr p =? XDP2_PADDR_TAG_PBUF_1REF then
         c ← xdp2_pbuf_get_refcnt p; _ ← massert (c =? 0);
         let p := bf_set paddr_tag XDP2_PADDR_TAG_PBUF p in
         _ ← st_iovec k i p;
         _ ← __xdp2_pbuf_bump_refcnt p;
         modify_pb (set_stats bump_conversions)
       else mret tt);
  p1 ← ld_iovec k i;
  '(ist, p1, p2, data_len) ←
    (if ct_offset ist =? 0 then mret (ist, p1, p2, data_len) else
     '(p1, p2) ← lift (__xdp2_paddr_add_to_offset p1 p2 (ct_offset ist));
     mret (set_offset 0, p1, p2, data_len - ct_offset ist));
  mret (ist, Take p1 p2 (Z.min (ct_length ist) data_len) num_slots).

(** A failed allocation returns -1, which is true. *)
Definition __xdp2_pvbuf_iterate_clone_pvbuf (ist : iter_clone) (k : pvptr) (i : Z) : pvm (iter_clone * bool) :=
  '(ist, r) ← __xdp2_pvbuf_iterate_iovec_clone_common ist k i;
  match r with
  | Skip cont => mret (ist, cont)
  | Take p1 p2 data_len num_slots =>
    let is_long := XDP2_PADDR_IS_LONG_ADDR p1 in
    let max_index := u32 (ct_num_iovecs ist - num_slots) in
    '(ist, ok) ←
      (if (max_index <? ct_index ist) || ((ct_index ist =? max_index) && negb (data_len =? ct_length ist)) then
         size ← __xdp2_pvbuf_get_size random; __xdp2_check_clone_add_iovec ist true size
       else mret (ist, true));
    if negb ok then mret (ist, true) else
    _ ← xdp2_pvbuf_iovec_set_paddr_ent_and_bump_refcnt (ct_pvbuf ist) (ct_index ist) p1 p2 data_len;
    mret (IterClone (ct_length ist - data_len) (ct_offset ist) (ct_num_iovecs ist) (ct_pvbuf ist)
            (ct_index ist + 1 + Z.b2z is_long) (ct_error ist), true)
  end.

(** A pvbuf falls through to the case of a pbuf. *)
Fixpoint __xdp2_pvbuf_fixup_iovec_length (fuel : nat) (p : Z) : pvm Z :=
  match fuel with
  | O => nofuel
  | S fuel =>
    k ← __xdp2_pvbuf_paddr_to_addr p;
    xdp2_pvbuf_iovec_map_foreach k (fun i len =>
      q ← ld_iovec k i;
      _ ← massert (negb (q =? 0));
      match ptype q with
      | TPvbuf =>
        rlen ← __xdp2_pvbuf_fixup_iovec_length fuel q;
        let len := u64 (len + rlen) in
        w ← lift (xdp2_pbuf_set_iovec p (if rlen <? XDP2_PVBUF_MAX_LEN then rlen else 0));
        _ ← st_iovec k i w;
        n ← lift (xdp2_pbuf_get_data_len_from_paddr w); mret (Next i (u64 (len + n)))
      | _ => n ← iovec_data_len k i; mret (Next i (u64 (len + n)))
      end) 0
  end.

(** The clone and the number of bytes cloned. *)
Definition __xdp2_pvbuf_clone (fuel : nat) (pvbuf_paddr offset length : Z) : pvm (option Z * Z) :=
  pvbuf_size ← __xdp2_pvbuf_get_size random;
  r ← ___xdp2_pvbuf_alloc pvbuf_size true;
  match r with
  | None => mret (None, 0)
  | Some (p, k) =>
    '(ist, _) ← __xdp2_pvbuf_iterate_iovec fuel pvbuf_paddr __xdp2_pvbuf_iterate_clone_pvbuf
                  (IterClone length offset (XDP2_PVBUF_NUM_IOVECS pvbuf_size) k 0 0);
    if negb (ct_error ist =? 0) then _ ← __xdp2_pvbuf_free fuel p; mret (None, 0) else
    _ ← (if ct_length ist =? 0 then mret 0 else __xdp2_pvbuf_fixup_iovec_length fuel p);
    mret (Some p, length - ct_length ist)
  end.

(** ** Allocation with data *)

Definition __xdp2_pbuf_size_limit (fact input : Z) : Z := Z.shiftr (u64 (fact * input)) 16.

(** The allocator, the size and the shift for what is left of a request. *)
Definition choose_pbuf (fact size : Z) : pvm (Z * Z * Z) :=
  e ← pb_entry (xdp2_pbuf_size_shift_to_buffer_tag (req_shift size));
  _ ← massert (negb (is_null (pallocator e)) || negb (is_null (smaller_pallocator e)));
  if negb (is_null (pallocator e)) &&
     ((__xdp2_pbuf_size_limit fact (alloc_size e) <? size) || is_null (smaller_pallocator e)) then
    id ← lift (deref (pallocator e)); mret (id, alloc_size e, alloc_size_shift e)
  else id ← lift (deref (smaller_pallocator e)); mret (id, pb_smaller_size e, smaller_size_shift e).

(** [true] when the whole size was allocated. Every turn allocates a pbuf: the
    fuel is the number of turns. *)
Fixpoint alloc_loop (fuel : nat) (fact pvbuf_size size : Z) (k : pvptr) (off num_iovecs : Z) : pvm bool :=
  if size <=? 0 then mret true else
  match fuel with
  | O => nofuel
  | S fuel =>
    '(id, asize, shift) ← choose_pbuf fact size;
    one_ref ← gets (fun s => alloc_one_ref (mconf s));
    r ← ___xdp2_pbuf_alloc id one_ref;
    match r with
    | None => mret false
    | Some (_, zindex) =>
      let len := Z.min asize size in
      p ← lift (xdp2_pbuf_make_paddr one_ref shift zindex 0 len);
      _ ← xdp2_pvbuf_iovec_set_pbuf_ent k off p len;
      let size := size - asize in
      let off := off + 1 in
      if (u32 (num_iovecs - 2) <=? off) && (0 <? size) then
        r ← ___xdp2_pvbuf_alloc pvbuf_size false;
        match r with
        | None => mret false
        | Some (np, nk) =>
          _ ← xdp2_pvbuf_iovec_set_pvbuf_ent k off np (if size <? XDP2_PVBUF_MAX_LEN then size else 0);
          num_iovecs ← lift (XDP2_PVBUF_NUM_IOVECS_FROM_PADDR np);
          alloc_loop fuel fact pvbuf_size size nk 0 num_iovecs
        end
      else alloc_loop fuel fact pvbuf_size size k off num_iovecs
    end
  end.

Definition __xdp2_pvbuf_alloc_params (fuel : nat) (size fact pvbuf_off : Z) : pvm (option (Z * pvptr)) :=
  pvbuf_size ← __xdp2_pvbuf_get_size random;
  r ← ___xdp2_pvbuf_alloc pvbuf_size true;
  match r with
  | None => mret None
  | Some (p, k) =>
    k' ← __xdp2_pvbuf_paddr_to_addr p;
    _ ← massert (bool_decide (k = k'));
    num_iovecs ← lift (XDP2_PVBUF_NUM_IOVECS_FROM_PADDR p);
    _ ← massert (pvbuf_off <? num_iovecs - 1);
    ok ← alloc_loop fuel fact pvbuf_size (s64 size) k pvbuf_off num_iovecs;
    if (ok : bool) then mret (Some (p, k)) else _ ← __xdp2_pvbuf_free fuel p; mret None
  end.

Definition XDP2_PVBUF_DEFAULT_FRACT : Z := 32768.
Definition XDP2_PVBUF_DEFAULT_PVBUF_OFF : Z := 2.
Definition __xdp2_pvbuf_alloc (fuel : nat) (size : Z) : pvm (option (Z * pvptr)) :=
  __xdp2_pvbuf_alloc_params fuel size XDP2_PVBUF_DEFAULT_FRACT XDP2_PVBUF_DEFAULT_PVBUF_OFF.
End Random.
