(* ===== verification/PvbufMap.v ===== *)
(** * Packet vectors: iovecs and their bitmap

    A pvbuf in which a bit of the map is set exactly when the iovec is not NULL
    is determined by its iovecs. This file has the total correctness triple of
    computations on the manager, the effect of the access functions on such
    pvbufs and the rules of the loops over the map. *)

From stdpp Require Import base list gmap numbers.
From S2P Require Import Prelude BitmapWord BitmapWordSpec Memory Paddr Pvbuf PvbufEdit.

(** ** Triples *)

(** The computation returns, and its result satisfies [Q]. *)
Definition wps {A} (m : pvm A) (s : xdp2_pvbuf_mgr) (Q : A -> xdp2_pvbuf_mgr -> Prop) : Prop :=
  match m s with Done (s, x) => Q x s | _ => False end.

Lemma wps_ret {A} (x : A) s Q : Q x s -> wps (mret x) s Q.
Proof. done. Qed.

Lemma wps_bind {A B} (m : pvm A) (f : A -> pvm B) s Q :
  wps m s (fun x s => wps (f x) s Q) -> wps (m ≫= f) s Q.
Proof. unfold wps, mbind, pvm_bind. by destruct (m s) as [[s' x] | |]. Qed.

Lemma wps_mono {A} (m : pvm A) s (Q R : A -> xdp2_pvbuf_mgr -> Prop) :
  wps m s Q -> (forall x s, Q x s -> R x s) -> wps m s R.
Proof. unfold wps. destruct (m s) as [[s' x] | |]; auto. Qed.

Lemma wps_run {A} (m : pvm A) s s' x Q : m s = Done (s', x) -> Q x s' -> wps m s Q.
Proof. unfold wps. by intros ->. Qed.

(** The next step of a computation has a known result. *)
Lemma wps_step {A B} (m : pvm A) (f : A -> pvm B) s s' x Q :
  m s = Done (s', x) -> wps (f x) s' Q -> wps (m ≫= f) s Q.
Proof. intros E H. apply wps_bind. by eapply wps_run. Qed.

Lemma wps_lift {A B} (o : outcome A) (f : A -> pvm B) s x Q :
  o = Done x -> wps (f x) s Q -> wps (lift o ≫= f) s Q.
Proof. intros -> H. by eapply wps_step. Qed.

Lemma wps_assert {B} (b : bool) (f : unit -> pvm B) s Q : b = true -> wps (f tt) s Q -> wps (massert b ≫= f) s Q.
Proof. intros -> H. by eapply wps_step. Qed.

Lemma wps_done {A} (m : pvm A) s Q : wps m s Q -> exists s' x, m s = Done (s', x) /\ Q x s'.
Proof. unfold wps. destruct (m s) as [[s' x] | |]; [eauto | done | done]. Qed.

Lemma wps_proj {A} (m : pvm A) s (Q R : A -> xdp2_pvbuf_mgr -> Prop) : wps m s (fun x s => Q x s /\ R x s) -> wps m s Q.
Proof. intros H. eapply wps_mono; [exact H |]. by intros x s' [? _]. Qed.

(** ** The map of a list of iovecs *)

Fixpoint map_of (ws : list Z) : Z :=
  match ws with [] => 0 | w :: ws => Z.b2z (negb (w =? 0)) + 2 * map_of ws end.

Definition mk (ws : list Z) : xdp2_pvbuf := Pvbuf (map_of ws) ws.

(** Is iovec [i] in use? *)
Definition nn (ws : list Z) (i : Z) : bool :=
  if i <? 0 then false else match ws !! Z.to_nat i with Some w => negb (w =? 0) | None => false end.

Lemma map_of_nonneg ws : 0 <= map_of ws.
Proof. induction ws as [| w ws IH]; cbn [map_of]; [lia |]. destruct (negb (w =? 0)); cbn [Z.b2z]; lia. Qed.

Lemma map_of_testbit ws i : Z.testbit (map_of ws) i = nn ws i.
Proof.
  revert i. induction ws as [| w ws IH]; intros i; cbn [map_of]; unfold nn in *.
  - rewrite Z.bits_0. by destruct (i <? 0).
  - destruct (Z.ltb_spec i 0); [by apply Z.testbit_neg_r |]. destruct (decide (i = 0)) as [-> | Hi].
    + rewrite Z.add_comm, Z.testbit_0_r. done.
    + replace i with (Z.succ (i - 1)) at 1 by lia. rewrite Z.add_comm, Z.testbit_succ_r by lia. rewrite IH.
      destruct (Z.ltb_spec (i - 1) 0); [lia |]. by replace (Z.to_nat i) with (S (Z.to_nat (i - 1))) by lia.
Qed.

Lemma nn_bound ws i : nn ws i = true -> 0 <= i < Z.of_nat (length ws).
Proof.
  unfold nn. destruct (Z.ltb_spec i 0); [done |]. destruct (ws !! Z.to_nat i) eqn:E; [| done].
  apply lookup_lt_Some in E. lia.
Qed.

Lemma map_of_word ws : (length ws <= 64)%nat -> is_word 64 (map_of ws).
Proof.
  intros Hl. apply is_word_bits; [lia | apply map_of_nonneg |]. intros i Hi. rewrite map_of_testbit.
  destruct (nn ws i) eqn:E; [| done]. apply nn_bound in E. lia.
Qed.

(** A word with the right bits is the map. *)
Lemma map_of_unique ws m : (length ws <= 64)%nat -> is_word 64 m -> (forall i, 0 <= i < 64 -> Z.testbit m i = nn ws i) -> m = map_of ws.
Proof.
  intros Hl Hm H. apply (word_eq 64); [done | by apply map_of_word |]. intros i Hi. by rewrite H, map_of_testbit.
Qed.

Lemma nn_insert ws i p j :
  0 <= i < Z.of_nat (length ws) -> nn (<[Z.to_nat i := p]> ws) j = if j =? i then negb (p =? 0) else nn ws j.
Proof.
  intros Hi. unfold nn. destruct (Z.ltb_spec j 0), (Z.eqb_spec j i); try lia; try done.
  - subst. by rewrite list_lookup_insert_eq by lia.
  - by rewrite list_lookup_insert_ne by lia.
Qed.

Lemma bit_set m i : is_word 64 m -> 0 <= i < 64 ->
  exists m', xdp2_bitmap_word_set 64 m i = Done m' /\ is_word 64 m' /\
    forall j, 0 <= j < 64 -> Z.testbit m' j = (j =? i) || Z.testbit m j.
Proof.
  intros Hm Hi. unfold xdp2_bitmap_word_set. rewrite XDP2_BIT_ok by done. orun. eexists. split; [done |].
  split; [by apply trunc_word |]. intros j Hj. rewrite testbit_trunc, Z.lor_spec, testbit_one_shift by lia.
  rewrite (Z.eqb_sym i j). destruct (Z.ltb_spec j 64); [| lia]. cbn. apply orb_comm.
Qed.

Lemma bit_unset m i : is_word 64 m -> 0 <= i < 64 ->
  exists m', xdp2_bitmap_word_unset 64 m i = Done m' /\ is_word 64 m' /\
    forall j, 0 <= j < 64 -> Z.testbit m' j = negb (j =? i) && Z.testbit m j.
Proof.
  intros Hm Hi. unfold xdp2_bitmap_word_unset. rewrite XDP2_BIT_ok by done. orun. eexists. split; [done |].
  split; [by apply trunc_word |]. intros j Hj. unfold u64. rewrite testbit_trunc, Z.land_spec by lia.
  rewrite Z.mod_pow2_bits_low, Z.lnot_spec, testbit_one_shift by lia.
  rewrite (Z.eqb_sym i j). destruct (Z.ltb_spec j 64); [| lia]. cbn. apply andb_comm.
Qed.

Lemma map_of_set ws i p :
  (length ws <= 64)%nat -> 0 <= i < Z.of_nat (length ws) -> p <> 0 ->
  xdp2_bitmap_word_set 64 (map_of ws) i = Done (map_of (<[Z.to_nat i := p]> ws)).
Proof.
  intros Hl Hi Hp. destruct (bit_set (map_of ws) i) as (m & -> & Hm & Hb); [by apply map_of_word | lia |]. f_equal.
  apply map_of_unique; [by rewrite length_insert | done |]. intros j Hj. rewrite Hb, map_of_testbit, nn_insert by done.
  destruct (j =? i); [| done]. cbn. by destruct (Z.eqb_spec p 0).
Qed.

Lemma map_of_unset ws i :
  (length ws <= 64)%nat -> 0 <= i < Z.of_nat (length ws) ->
  xdp2_bitmap_word_unset 64 (map_of ws) i = Done (map_of (<[Z.to_nat i := 0]> ws)).
Proof.
  intros Hl Hi. destruct (bit_unset (map_of ws) i) as (m & -> & Hm & Hb); [by apply map_of_word | lia |]. f_equal.
  apply map_of_unique; [by rewrite length_insert | done |]. intros j Hj. rewrite Hb, map_of_testbit, nn_insert by done.
  by destruct (j =? i).
Qed.

(** ** Access to the heap *)

Definition heap (s : xdp2_pvbuf_mgr) : gmap pvptr xdp2_pvbuf := pv_heap (mpv s).

(** The state with the pvbuf [k] replaced. *)
Definition upd (k : pvptr) (ws : list Z) (s : xdp2_pvbuf_mgr) : xdp2_pvbuf_mgr := put_heap (<[k := mk ws]> (heap s)) s.

Lemma heap_upd k ws s : heap (upd k ws s) = <[k := mk ws]> (heap s).
Proof. done. Qed.

Lemma upd_upd k ws ws' s : upd k ws' (upd k ws s) = upd k ws' s.
Proof. unfold upd, put_heap, set_mpv. cbn. f_equal. f_equal. apply insert_insert_eq. Qed.

Lemma upd_same k ws s : heap s !! k = Some (mk ws) -> upd k ws s = s.
Proof. intros E. unfold upd, put_heap, set_mpv. rewrite insert_id by done. by destruct s as [? [] ?]. Qed.

Section Access.
Context (s : xdp2_pvbuf_mgr) (k : pvptr) (ws : list Z).
Context (Hk : heap s !! k = Some (mk ws)) (Hlen : (length ws <= 64)%nat).

Lemma ld_pvbuf_ok : ld_pvbuf k s = Done (s, mk ws).
Proof using Hk. unfold ld_pvbuf. unfold heap in Hk. by rewrite Hk. Qed.

Lemma ld_iovec_ok i w : 0 <= i -> ws !! Z.to_nat i = Some w -> ld_iovec k i s = Done (s, w).
Proof using Hk Hlen.
  intros Hi E. unfold ld_iovec, mbind, pvm_bind. rewrite ld_pvbuf_ok. cbn [iovec mk]. unfold in_array.
  pose proof (lookup_lt_Some _ _ _ E). destruct (Z.leb_spec 0 i), (Z.ltb_spec i (Z.of_nat (length ws))); try lia. cbn. by rewrite E.
Qed.

Lemma st_iovec_map i p m :
  heap s !! k = Some (Pvbuf m ws) -> 0 <= i < Z.of_nat (length ws) ->
  st_iovec k i p s = Done (put_heap (<[k := Pvbuf m (<[Z.to_nat i := p]> ws)]> (heap s)) s, tt).
Proof.
  intros E Hi. unfold st_iovec, mbind, pvm_bind, ld_pvbuf. unfold heap in E. rewrite E. cbn [iovec iovec_map]. unfold in_array.
  destruct (Z.leb_spec 0 i), (Z.ltb_spec i (Z.of_nat (length ws))); try lia. done.
Qed.

(** An iovec in use is replaced by another address. *)
Lemma st_iovec_ok i w p :
  0 <= i -> ws !! Z.to_nat i = Some w -> (w =? 0) = (p =? 0) -> st_iovec k i p s = Done (upd k (<[Z.to_nat i := p]> ws) s, tt).
Proof using Hk Hlen.
  intros Hi E Hz. pose proof (lookup_lt_Some _ _ _ E). rewrite (st_iovec_map i p (map_of ws)) by (done || lia). unfold upd, mk.
  do 5 f_equal. apply map_of_unique; [by rewrite length_insert | by apply map_of_word |]. intros j Hj.
  rewrite map_of_testbit, nn_insert by lia. destruct (Z.eqb_spec j i) as [-> |]; [| done].
  unfold nn. destruct (Z.ltb_spec i 0); [lia |]. rewrite E. by rewrite Hz.
Qed.

Lemma raw_set_ok i p :
  0 <= i < Z.of_nat (length ws) -> p <> 0 -> raw_set k i p s = Done (upd k (<[Z.to_nat i := p]> ws) s, tt).
Proof using Hk Hlen.
  intros Hi Hp. unfold raw_set, mbind, pvm_bind. rewrite (st_iovec_map i p (map_of ws)) by done.
  unfold xdp2_pvbuf_iovec_map_set, map_update, mbind, pvm_bind, massert, lift, XDP2_ASSERT.
  destruct (Z.ltb_spec i 64); [| lia]. cbn [mret outcome_ret]. unfold ld_pvbuf. cbn. rewrite lookup_insert_eq. cbn.
  rewrite (map_of_set ws i p) by done. unfold st_pvbuf, modify, upd. cbn. do 2 f_equal. unfold put_heap, set_mpv. cbn.
  by rewrite insert_insert_eq.
Qed.

Lemma clear_ent_ok i :
  0 <= i < Z.of_nat (length ws) -> xdp2_pvbuf_iovec_clear_ent k i s = Done (upd k (<[Z.to_nat i := 0]> ws) s, tt).
Proof using Hk Hlen.
  intros Hi. unfold xdp2_pvbuf_iovec_clear_ent, mbind, pvm_bind. rewrite (st_iovec_map i 0 (map_of ws)) by done.
  unfold xdp2_pvbuf_iovec_map_unset, map_update, mbind, pvm_bind, massert, lift, XDP2_ASSERT.
  destruct (Z.ltb_spec i 64); [| lia]. cbn [mret outcome_ret]. unfold ld_pvbuf. cbn. rewrite lookup_insert_eq. cbn.
  rewrite (map_of_unset ws i) by done. unfold st_pvbuf, modify, upd. cbn. do 2 f_equal. unfold put_heap, set_mpv. cbn.
  by rewrite insert_insert_eq.
Qed.

Lemma isset_map i : 0 <= i < 64 -> xdp2_pvbuf_iovec_map_isset k i s = Done (s, nn ws i).
Proof using Hk Hlen.
  intros Hi. unfold xdp2_pvbuf_iovec_map_isset, mbind, pvm_bind, massert, lift, XDP2_ASSERT.
  destruct (Z.ltb_spec i 64); [| lia]. cbn [mret outcome_ret]. rewrite ld_pvbuf_ok. cbn [iovec_map mk].
  by rewrite isset_ok, map_of_testbit.
Qed.

Lemma check_empty_ok i :
  0 <= i -> ws !! Z.to_nat i = Some 0 -> __xdp2_pvbuf_iovec_check_empty k i s = Done (s, tt).
Proof using Hk Hlen.
  intros Hi E. pose proof (lookup_lt_Some _ _ _ E). unfold __xdp2_pvbuf_iovec_check_empty, mbind, pvm_bind.
  rewrite (ld_iovec_ok i 0) by done. cbn [Z.eqb massert lift XDP2_ASSERT mret outcome_ret]. rewrite isset_map by lia.
  unfold nn. destruct (Z.ltb_spec i 0); [lia |]. by rewrite E.
Qed.

Lemma unset_ent_ok i w :
  0 <= i -> ws !! Z.to_nat i = Some w -> w <> 0 -> xdp2_pvbuf_iovec_unset_ent k i s = Done (upd k (<[Z.to_nat i := 0]> ws) s, tt).
Proof using Hk Hlen.
  intros Hi E Hw. pose proof (lookup_lt_Some _ _ _ E). unfold xdp2_pvbuf_iovec_unset_ent, mbind, pvm_bind.
  rewrite (ld_iovec_ok i w) by done. destruct (Z.eqb_spec w 0); [done |]. cbn [negb massert lift XDP2_ASSERT mret outcome_ret].
  rewrite isset_map by lia. unfold nn. destruct (Z.ltb_spec i 0); [lia |]. rewrite E. destruct (Z.eqb_spec w 0); [done |].
  cbn [negb massert lift XDP2_ASSERT mret outcome_ret]. apply clear_ent_ok. lia.
Qed.

Lemma set_ent_ok i o p :
  0 <= i -> ws !! Z.to_nat i = Some 0 -> o = Done p -> p <> 0 -> set_ent k i o s = Done (upd k (<[Z.to_nat i := p]> ws) s, tt).
Proof using Hk Hlen.
  intros Hi E -> Hp. pose proof (lookup_lt_Some _ _ _ E). unfold set_ent, mbind, pvm_bind.
  rewrite check_empty_ok by done. cbn [lift]. apply raw_set_ok; [lia | done].
Qed.

(** ** Searches *)

Lemma find_ok : exists r, xdp2_pvbuf_iovec_map_find k s = Done (s, r) /\ is_first (nn ws) 0 64 r.
Proof using Hk Hlen.
  eexists. unfold xdp2_pvbuf_iovec_map_find, mbind, pvm_bind. rewrite ld_pvbuf_ok. split; [done |]. cbn [iovec_map mk].
  eapply is_first_ext; [| apply find_ffs_first; [unfold word_bits; lia | by apply map_of_word]].
  intros j Hj. apply map_of_testbit.
Qed.

Lemma rev_find_ok : exists r, xdp2_pvbuf_iovec_map_rev_find k s = Done (s, r) /\ is_last (nn ws) 0 64 64 r.
Proof using Hk Hlen.
  eexists. unfold xdp2_pvbuf_iovec_map_rev_find, mbind, pvm_bind. rewrite ld_pvbuf_ok. split; [done |]. cbn [iovec_map mk].
  unfold xdp2_bitmap_word_rev_find. destruct (rev_find_log_last 64 (map_of ws)) as [(Hr & Ht & Hn) | [E Hn]];
    [unfold word_bits; lia | by apply map_of_word | left | right].
  - rewrite map_of_testbit in Ht. split_and!; [lia | lia | done |]. intros j Hj. rewrite <- map_of_testbit. by apply Hn.
  - split; [done |]. intros j Hj. rewrite <- map_of_testbit. by apply Hn.
Qed.

Lemma find_next_ok pos :
  0 <= pos < 63 -> exists r, xdp2_pvbuf_iovec_map_find_next k pos s = Done (s, r) /\ is_first (nn ws) (pos + 1) 64 r.
Proof using Hk Hlen.
  intros Hp. unfold xdp2_pvbuf_iovec_map_find_next, mbind, pvm_bind. rewrite ld_pvbuf_ok. cbn [iovec_map mk].
  destruct (find_next_first 64 (map_of ws) pos) as (r & -> & Hr); [unfold word_bits; lia | by apply map_of_word | lia | lia |].
  exists r. split; [done |]. eapply is_first_ext; [| exact Hr]. intros j Hj. apply map_of_testbit.
Qed.

(** The number of iovecs in use. *)
Definition used (l : list Z) : Z := Z.of_nat (length (filter (fun w => w <> 0) l)).

Lemma weight_ok : xdp2_pvbuf_iovec_map_weight k s = Done (s, used ws).
Proof using Hk Hlen.
  unfold xdp2_pvbuf_iovec_map_weight, mbind, pvm_bind. rewrite ld_pvbuf_ok. cbn [iovec_map mk].
  unfold xdp2_bitmap_word_weight. rewrite weight_popcount_val by ((unfold word_bits; lia) || by apply map_of_word).
  unfold mret, pvm_ret. do 2 f_equal. clear Hk. unfold used. change (Z.to_nat 64) with 64%nat.
  rewrite <- (Z.shiftr_0_r (map_of ws)). revert Hlen. generalize 64%nat as n. induction ws as [| w l IH]; intros n Hn.
  - clear. cbn. rewrite Z.shiftr_0_l. induction n as [| n IH]; [done |]. cbn [popcount]. rewrite IH, Z.bits_0. done.
  - cbn [length] in Hn. destruct n as [| n]; [lia |]. rewrite popcount_first_bit. rewrite map_of_testbit.
    assert (Z.shiftr (map_of (w :: l)) (0 + 1) = Z.shiftr (map_of l) 0) as ->.
    { rewrite Z.shiftr_0_r. cbn [map_of]. rewrite Z.shiftr_div_pow2 by lia. change (2 ^ (0 + 1)) with 2.
      rewrite (Z.mul_comm 2), Z.div_add by lia. destruct (negb (w =? 0)); reflexivity. }
    rewrite IH by lia. rewrite filter_cons. unfold nn. change (Z.to_nat 0) with 0%nat. cbn [Z.ltb Z.compare lookup list_lookup].
    destruct (Z.eqb_spec w 0) as [-> | Hw]; cbn [negb Z.b2z].
    + rewrite decide_False by auto. lia.
    + rewrite decide_True by done. cbn [length]. lia.
Qed.
End Access.

(** A search splits the list at the first iovec in use. *)
Lemma first_split ws lo r :
  (length ws <= 63)%nat -> 0 <= lo <= Z.of_nat (length ws) -> is_first (nn ws) lo 64 r ->
  (r = 64 /\ Forall (eq 0) (drop (Z.to_nat lo) ws)) \/
  (exists w rest, drop (Z.to_nat lo) ws = replicate (Z.to_nat (r - lo)) 0 ++ w :: rest /\ w <> 0 /\
     lo <= r < Z.of_nat (length ws) /\ ws !! Z.to_nat r = Some w /\ drop (S (Z.to_nat r)) ws = rest).
Proof.
  intros Hl Hlo [(Hr & Ht & Hn) | [-> Hn]]; [right | left; split; [done |]].
  - pose proof (nn_bound _ _ Ht) as Hb. unfold nn in Ht. destruct (Z.ltb_spec r 0); [done |].
    destruct (ws !! Z.to_nat r) as [w |] eqn:E; [| done]. apply negb_true_iff, Z.eqb_neq in Ht.
    exists w, (drop (S (Z.to_nat r)) ws). split_and!; try done; try lia.
    assert (length (replicate (Z.to_nat (r - lo)) 0) = Z.to_nat (r - lo)) as Hrep by apply length_replicate.
    apply list_eq. intros j. rewrite lookup_drop. destruct (decide (j < Z.to_nat (r - lo))%nat) as [Hj | Hj].
    + rewrite lookup_app_l by lia. rewrite lookup_replicate_2 by lia.
      assert (nn ws (Z.of_nat (Z.to_nat lo + j)) = false) as Hz by (apply Hn; lia). unfold nn in Hz.
      destruct (Z.ltb_spec (Z.of_nat (Z.to_nat lo + j)) 0); [lia |]. rewrite Nat2Z.id in Hz.
      destruct (lookup_lt_is_Some_2 ws (Z.to_nat lo + j)%nat) as [z Ez]; [lia |]. rewrite Ez in Hz |- *.
      apply negb_false_iff, Z.eqb_eq in Hz. by subst.
    + rewrite lookup_app_r by lia. rewrite Hrep. destruct (decide (j = Z.to_nat (r - lo))) as [-> | Hne].
      * rewrite Nat.sub_diag. cbn. by replace (Z.to_nat lo + Z.to_nat (r - lo))%nat with (Z.to_nat r) by lia.
      * replace (j - Z.to_nat (r - lo))%nat with (S (j - Z.to_nat (r - lo) - 1)) by lia.
        change (ws !! (Z.to_nat lo + j)%nat = drop (S (Z.to_nat r)) ws !! (j - Z.to_nat (r - lo) - 1)%nat).
        rewrite lookup_drop. f_equal. lia.
  - apply Forall_lookup. intros j z Ez. rewrite lookup_drop in Ez. pose proof (lookup_lt_Some _ _ _ Ez).
    assert (nn ws (Z.of_nat (Z.to_nat lo + j)) = false) as Hz by (apply Hn; lia). unfold nn in Hz.
    destruct (Z.ltb_spec (Z.of_nat (Z.to_nat lo + j)) 0); [lia |]. rewrite Nat2Z.id, Ez in Hz.
    apply negb_false_iff, Z.eqb_eq in Hz. done.
Qed.

Lemma last_split ws hi r :
  (length ws <= 63)%nat -> 0 <= hi <= Z.of_nat (length ws) -> is_last (nn ws) 0 hi 64 r ->
  (r = 64 /\ Forall (eq 0) (take (Z.to_nat hi) ws)) \/
  (exists w, take (Z.to_nat hi) ws = take (Z.to_nat r) ws ++ w :: replicate (Z.to_nat (hi - r - 1)) 0 /\ w <> 0 /\
     0 <= r < hi /\ ws !! Z.to_nat r = Some w).
Proof.
  intros Hl Hhi [(Hr & Ht & Hn) | [-> Hn]]; [right | left; split; [done |]].
  - pose proof (nn_bound _ _ Ht) as Hb. unfold nn in Ht. destruct (Z.ltb_spec r 0); [done |].
    destruct (ws !! Z.to_nat r) as [w |] eqn:E; [| done]. apply negb_true_iff, Z.eqb_neq in Ht.
    exists w. split_and!; try done; try lia.
    assert (length (take (Z.to_nat r) ws) = Z.to_nat r) as Htk by (rewrite length_take; lia).
    apply list_eq. intros j. destruct (decide (j < Z.to_nat hi)%nat) as [Hj | Hj].
    + rewrite lookup_take_lt by done. destruct (decide (j < Z.to_nat r)%nat) as [Hj' | Hj'].
      * rewrite lookup_app_l by lia. by rewrite lookup_take_lt.
      * rewrite lookup_app_r by lia. rewrite Htk. destruct (decide (j = Z.to_nat r)) as [-> | Hne].
        -- by rewrite Nat.sub_diag.
        -- replace (j - Z.to_nat r)%nat with (S (j - Z.to_nat r - 1)) by lia.
           change (ws !! j = replicate (Z.to_nat (hi - r - 1)) 0 !! (j - Z.to_nat r - 1)%nat). rewrite lookup_replicate_2 by lia.
           assert (nn ws (Z.of_nat j) = false) as Hz by (apply Hn; lia). unfold nn in Hz.
           destruct (Z.ltb_spec (Z.of_nat j) 0); [lia |]. rewrite Nat2Z.id in Hz.
           destruct (lookup_lt_is_Some_2 ws j) as [z Ez]; [lia |]. rewrite Ez in Hz |- *.
           apply negb_false_iff, Z.eqb_eq in Hz. by subst.
    + rewrite (lookup_ge_None_2 (take _ ws)) by (rewrite length_take; lia). symmetry. apply lookup_ge_None_2.
      rewrite length_app, Htk. cbn [length]. rewrite length_replicate. lia.
  - apply Forall_lookup. intros j z Ez. pose proof (lookup_lt_Some _ _ _ Ez) as Hj. rewrite length_take in Hj.
    rewrite lookup_take_lt in Ez by lia.
    assert (nn ws (Z.of_nat j) = false) as Hz by (apply Hn; lia). unfold nn in Hz.
    destruct (Z.ltb_spec (Z.of_nat j) 0); [lia |]. rewrite Nat2Z.id, Ez in Hz.
    apply negb_false_iff, Z.eqb_eq in Hz. done.
Qed.

(** ** Searches towards the head *)

Lemma masked_last ws pos :
  (length ws <= 64)%nat -> 0 <= pos <= 64 -> is_last (nn ws) 0 pos 64 (rev_find_log 64 (Z.land (map_of ws) (2 ^ pos - 1))).
Proof.
  intros Hl Hp. assert (forall j, 0 <= j < 64 -> Z.testbit (Z.land (map_of ws) (2 ^ pos - 1)) j = nn ws j && (j <? pos)) as E.
  { intros j Hj. rewrite Z.land_spec, map_of_testbit. f_equal. apply testbit_below_mask; lia. }
  destruct (rev_find_log_last 64 (Z.land (map_of ws) (2 ^ pos - 1))) as [(Hr & Ht & Hn) | [-> Hn]].
  - unfold word_bits; lia.
  - apply is_word_bits; [lia | apply Z.land_nonneg; left; apply map_of_nonneg |]. intros i Hi.
    rewrite Z.land_spec, (word_testbit_high 64) by (lia || by apply map_of_word). done.
  - rewrite E in Ht by lia. apply andb_true_iff in Ht as [Ht Hlt]. apply Z.ltb_lt in Hlt.
    left. split_and!; [lia | lia | done |]. intros j Hj. specialize (Hn j ltac:(lia)). rewrite E in Hn by lia.
    destruct (Z.ltb_spec j pos); [| lia]. by rewrite andb_true_r in Hn.
  - right. split; [done |]. intros j Hj. specialize (Hn j ltac:(lia)). rewrite E in Hn by lia.
    destruct (Z.ltb_spec j pos); [| lia]. by rewrite andb_true_r in Hn.
Qed.

Lemma rev_find_start_last ws pos :
  (length ws <= 64)%nat -> 0 <= pos < 63 ->
  exists r, xdp2_bitmap_word_rev_find_start 64 (map_of ws) pos = Done r /\ is_last (nn ws) 0 (pos + 1) 64 r.
Proof.
  intros Hl Hp. unfold xdp2_bitmap_word_rev_find_start. destruct (Z.eqb_spec pos 63); [lia |].
  assert (u32 (pos + 1) = pos + 1) as -> by (apply Z.mod_small; lia). rewrite XDP2_BIT_ok by lia. orun.
  eexists. split; [done |]. pose proof (Z.pow_lt_mono_r 2 (pos + 1) 64 ltac:(lia) ltac:(lia) ltac:(lia)).
  rewrite (trunc_small 64) by (split; lia). apply masked_last; [done | lia].
Qed.

Lemma rev_find_next_last ws pos :
  (length ws <= 64)%nat -> 0 <= pos < 64 ->
  exists r, xdp2_bitmap_word_rev_find_next 64 (map_of ws) pos = Done r /\ is_last (nn ws) 0 pos 64 r.
Proof.
  intros Hl Hp. unfold xdp2_bitmap_word_rev_find_next. destruct (Z.eqb_spec pos 0) as [-> |].
  - exists 64. split; [done |]. right. split; [done | lia].
  - rewrite XDP2_BIT_ok by lia. orun. eexists. split; [done |].
    pose proof (Z.pow_lt_mono_r 2 pos 64 ltac:(lia) ltac:(lia) ltac:(lia)). pose proof (Z.pow_pos_nonneg 2 pos ltac:(lia) ltac:(lia)).
    rewrite (trunc_small 64) by (split; lia). apply masked_last; [done | lia].
Qed.

(** ** Loops over the map *)

Lemma zeros_replicate l : Forall (eq 0) l -> l = replicate (length l) 0.
Proof. induction 1 as [| x l <- _ IH]; [done |]. cbn. by f_equal. Qed.

(** The iovecs of [k] from position [i] on are [rest]. *)
Definition at_pos (k : pvptr) (i : Z) (rest : list Z) (s : xdp2_pvbuf_mgr) : Prop :=
  exists ws, heap s !! k = Some (mk ws) /\ (length ws <= 63)%nat /\ 0 <= i <= Z.of_nat (length ws) /\ drop (Z.to_nat i) ws = rest.

(** The iovecs of [k] before position [i] are [pre]. *)
Definition upto_pos (k : pvptr) (i : Z) (pre : list Z) (s : xdp2_pvbuf_mgr) : Prop :=
  exists ws, heap s !! k = Some (mk ws) /\ (length ws <= 63)%nat /\ 0 <= i <= Z.of_nat (length ws) /\ take (Z.to_nat i) ws = pre.

Section Foreach.
Context {A : Type} (k : pvptr) (body : Z -> A -> pvm (ctl A)) (Q : A -> xdp2_pvbuf_mgr -> Prop).

Section Forward.
Context (I : Z -> list Z -> A -> xdp2_pvbuf_mgr -> Prop).
Context (I_at : forall i rest x s, I i rest x s -> at_pos k i rest s).
Context (I_skip : forall i rest x s, I i (0 :: rest) x s -> I (i + 1) rest x s).
Context (I_end : forall i x s, I i [] x s -> Q x s).
Context (I_body : forall i w rest x s, w <> 0 -> I i (w :: rest) x s ->
  wps (body i x) s (fun r s' => match r with Break y => Q y s' | Next j y => i <= j /\ exists rest', I (j + 1) rest' y s' end)).

Lemma I_skips n : forall i rest x s, I i (replicate n 0 ++ rest) x s -> I (i + Z.of_nat n) rest x s.
Proof using I_skip.
  induction n as [| n IH]; intros i rest x s H; [by rewrite Z.add_0_r |].
  replace (i + Z.of_nat (S n)) with (i + 1 + Z.of_nat n) by lia. apply IH. by apply I_skip.
Qed.

Lemma I_zeros i rest x s : Forall (eq 0) rest -> I i rest x s -> Q x s.
Proof using I_skip I_end.
  intros Hz H. rewrite (zeros_replicate _ Hz) in H. rewrite <- (app_nil_r (replicate _ _)) in H. apply I_skips in H. by eapply I_end.
Qed.

Lemma foreach_from_ok fuel : forall i rest x s pos,
  I i rest x s -> is_first (fun j => match heap s !! k with Some v => nn (iovec v) j | None => false end) i 64 pos ->
  64 <= i + Z.of_nat fuel -> wps (foreach_from fuel (xdp2_pvbuf_iovec_map_find_next k) body pos x) s Q.
Proof using I_at I_skip I_end I_body.
  induction fuel as [| fuel IH]; intros i rest x s pos H Hf Hfu; destruct (I_at _ _ _ _ H) as (ws & Hk & Hl & Hi & <-).
  { lia. }
  rewrite Hk in Hf. cbn [iovec mk] in Hf. cbn [foreach_from].
  destruct (first_split ws i pos Hl Hi Hf) as [[-> Hz] | (w & rest & E & Hw & Hpos & Hlk & Hd)].
  - apply wps_ret. by eapply I_zeros.
  - destruct (Z.leb_spec 64 pos); [lia |]. rewrite E in H. apply I_skips in H.
    replace (i + Z.of_nat (Z.to_nat (pos - i))) with pos in H by lia.
    apply wps_bind. eapply wps_mono; [by apply (I_body pos w rest) |]. intros [y | j y] s'; [by intros Hq; apply wps_ret |].
    intros (Hj & rest' & H'). pose proof (I_at _ _ _ _ H') as (ws' & Hk' & Hl' & Hi' & Hd').
    destruct (find_next_ok s' k ws' Hk' ltac:(lia) j) as (r & Er & Hr); [lia |].
    eapply wps_step; [exact Er |]. eapply (IH (j + 1)); [done | | lia]. by rewrite Hk'.
Qed.

Lemma wps_foreach x s ws :
  heap s !! k = Some (mk ws) -> (length ws <= 63)%nat -> I 0 ws x s -> wps (xdp2_pvbuf_iovec_map_foreach k body x) s Q.
Proof using I_at I_skip I_end I_body.
  intros Hk Hl H. unfold xdp2_pvbuf_iovec_map_foreach. eapply wps_step; [by apply ld_pvbuf_ok |]. cbn [iovec_map mk].
  destruct (find_start_first 64 (map_of ws) 0) as (r & E & Hr); [unfold word_bits; lia | apply map_of_word; lia | lia | lia |].
  eapply wps_lift; [exact E |]. eapply (foreach_from_ok 64 0); [done | | lia]. rewrite Hk. cbn [iovec mk].
  eapply is_first_ext; [| exact Hr]. intros j Hj. apply map_of_testbit.
Qed.
End Forward.

Section Backward.
Context (I : Z -> list Z -> A -> xdp2_pvbuf_mgr -> Prop).
Context (I_at : forall i pre x s, I i pre x s -> upto_pos k i pre s).
Context (I_skip : forall i pre x s, I i (pre ++ [0]) x s -> I (i - 1) pre x s).
Context (I_end : forall i x s, I i [] x s -> Q x s).
Context (I_body : forall i w pre x s, w <> 0 -> I (i + 1) (pre ++ [w]) x s ->
  wps (body i x) s (fun r s' => match r with Break y => Q y s' | Next j y => j <= i /\ exists pre', I j pre' y s' end)).

Lemma I_rskips n : forall i pre x s, I i (pre ++ replicate n 0) x s -> I (i - Z.of_nat n) pre x s.
Proof using I_skip.
  induction n as [| n IH]; intros i pre x s H; [by rewrite Z.sub_0_r; rewrite app_nil_r in H |].
  replace (i - Z.of_nat (S n)) with (i - 1 - Z.of_nat n) by lia. apply IH. apply I_skip.
  rewrite <- app_assoc. by rewrite <- replicate_S_end.
Qed.

Lemma I_rzeros i pre x s : Forall (eq 0) pre -> I i pre x s -> Q x s.
Proof using I_skip I_end.
  intros Hz H. rewrite (zeros_replicate _ Hz) in H. apply (I_rskips (length pre) i []) in H. by eapply I_end.
Qed.

Lemma rev_foreach_from_ok fuel : forall i pre x s pos,
  I i pre x s -> is_last (fun j => match heap s !! k with Some v => nn (iovec v) j | None => false end) 0 i 64 pos ->
  i <= Z.of_nat fuel ->
  wps (foreach_from fuel (fun pos => v ← ld_pvbuf k; lift (xdp2_bitmap_word_rev_find_next 64 (iovec_map v) pos)) body pos x) s Q.
Proof using I_at I_skip I_end I_body.
  induction fuel as [| fuel IH]; intros i pre x s pos H Hf Hfu; destruct (I_at _ _ _ _ H) as (ws & Hk & Hl & Hi & <-).
  { destruct Hf as [(? & _) | [-> _]]; [lia |]. apply wps_ret. replace i with 0 in H by lia. by eapply I_end. }
  rewrite Hk in Hf. cbn [iovec mk] in Hf. cbn [foreach_from].
  destruct (last_split ws i pos Hl Hi Hf) as [[-> Hz] | (w & E & Hw & Hpos & Hlk)].
  - apply wps_ret. by eapply I_rzeros.
  - destruct (Z.leb_spec 64 pos); [lia |].
    replace (take (Z.to_nat pos) ws ++ w :: replicate (Z.to_nat (i - pos - 1)) 0)
      with ((take (Z.to_nat pos) ws ++ [w]) ++ replicate (Z.to_nat (i - pos - 1)) 0) in E by by rewrite <- app_assoc.
    rewrite E in H. apply I_rskips in H. replace (i - Z.of_nat (Z.to_nat (i - pos - 1))) with (pos + 1) in H by lia.
    apply wps_bind. eapply wps_mono; [by apply (I_body pos w (take (Z.to_nat pos) ws)) |].
    intros [y | j y] s'; [by intros Hq; apply wps_ret |].
    intros (Hj & pre' & H'). destruct (I_at _ _ _ _ H') as (ws' & Hk' & Hl' & Hi' & Hd').
    apply wps_bind. eapply wps_step; [by apply ld_pvbuf_ok |]. cbn [iovec_map mk].
    destruct (rev_find_next_last ws' j) as (r & Er & Hr); [lia | lia |]. rewrite Er. eapply wps_run; [done |].
    eapply (IH j); [done | | lia]. by rewrite Hk'.
Qed.

Lemma wps_rev_foreach x s ws :
  heap s !! k = Some (mk ws) -> (0 < length ws <= 63)%nat -> I (Z.of_nat (length ws)) ws x s ->
  wps (xdp2_pvbuf_iovec_map_rev_foreach k (Z.of_nat (length ws) - 1) body x) s Q.
Proof using I_at I_skip I_end I_body.
  intros Hk Hl H. unfold xdp2_pvbuf_iovec_map_rev_foreach. eapply wps_step; [by apply ld_pvbuf_ok |]. cbn [iovec_map mk].
  destruct (rev_find_start_last ws (Z.of_nat (length ws) - 1)) as (r & E & Hr); [lia | lia |].
  eapply wps_lift; [exact E |]. eapply (rev_foreach_from_ok 64 (Z.of_nat (length ws))); [done | | lia]. rewrite Hk. cbn [iovec mk].
  by replace (Z.of_nat (length ws) - 1 + 1) with (Z.of_nat (length ws)) in Hr by lia.
Qed.
End Backward.
End Foreach.
