(* ===== verification/PvbufRep.v ===== *)
(** * Packet vectors: what a pvbuf represents

    A pvbuf stands for the list of the buffers reached through it, in order.
    [segs] relates iovecs to the buffers and to the set of pvbufs below them;
    those are the nodes of a tree, so that an operation on one packet leaves the
    others alone. *)

From stdpp Require Import base list gmap numbers.
From S2P Require Import Prelude BitmapWord BitmapWordSpec Memory Paddr Pvbuf PvbufEdit PvbufMap.

(** ** Buffers *)

(** The words of a buffer; the second is zero unless the address is long. *)
Abbreviation leaf := (Z * Z)%type.

Definition leaf_ok (l : leaf) : Prop :=
  match ptype (fst l) with
  | TPbuf | TPbuf1ref | TShort => snd l = 0
  | TLong => __xdp2_paddr_long_addr_check (fst l) (snd l) = Done tt
  | TPvbuf => False
  end.

Definition leaf_len (l : leaf) : Z :=
  match ptype (fst l) with
  | TPbuf | TPbuf1ref => bf_get pbuf_data_length (fst l) + tag_15 (fst l)
  | TShort => bf_get short_data_length (fst l) + 1
  | TLong => bf_get long_data_length (fst l)
  | TPvbuf => 0
  end.

Definition words_of (l : leaf) : list Z := if decide (ptype (fst l) = TLong) then [fst l; snd l] else [fst l].

Fixpoint total (ls : list leaf) : Z := match ls with [] => 0 | l :: ls => leaf_len l + total ls end.

Lemma total_app l1 l2 : total (l1 ++ l2) = total l1 + total l2.
Proof. induction l1 as [| l l1 IH]; cbn; lia. Qed.

Lemma leaf_len_nonneg l : 0 <= leaf_len l.
Proof.
  unfold leaf_len, tag_15. destruct (ptype (fst l)); try lia;
    pose proof (bf_get_nonneg pbuf_data_length (fst l) ltac:(field_side));
    pose proof (bf_get_nonneg short_data_length (fst l) ltac:(field_side));
    pose proof (bf_get_nonneg long_data_length (fst l) ltac:(field_side)); try lia.
  all: destruct (_ =? _); cbn; lia.
Qed.

(** A buffer is below 4 GB. *)
Lemma leaf_len_u32 l : leaf_len l < 2 ^ 32.
Proof.
  unfold leaf_len, tag_15. pose proof (bf_get_range pbuf_data_length (fst l) ltac:(field_side)) as H1.
  pose proof (bf_get_range short_data_length (fst l) ltac:(field_side)) as H2.
  pose proof (bf_get_range long_data_length (fst l) ltac:(field_side)) as H3. cbn [f_width pbuf_data_length short_data_length long_data_length] in *.
  destruct (ptype (fst l)); try lia; destruct (_ =? _); cbn; lia.
Qed.

Lemma total_nonneg ls : 0 <= total ls.
Proof. induction ls as [| l ls IH]; cbn; [lia |]. pose proof (leaf_len_nonneg l). lia. Qed.

(** A check of a long address that succeeds. *)
Lemma long_check p1 p2 : __xdp2_paddr_long_addr_check p1 p2 = Done tt <->
  p1 <> 0 /\ ptype p1 = TLong /\ bf_get long_word_num p1 = 0 /\ bf_get long_one_bit p1 <> 0 /\
  ptype p2 = TLong /\ bf_get long_word_num p2 = 1 /\ bf_get long_one_bit p2 <> 0.
Proof.
  unfold __xdp2_paddr_long_addr_check, XDP2_ASSERT. rewrite !is_long_ptype.
  destruct (Z.eqb_spec p1 0), (decide (ptype p1 = TLong)), (Z.eqb_spec (bf_get long_word_num p1) 0),
    (Z.eqb_spec (bf_get long_one_bit p1) 0), (decide (ptype p2 = TLong)), (Z.eqb_spec (bf_get long_word_num p2) 1),
    (Z.eqb_spec (bf_get long_one_bit p2) 0); repeat first [rewrite bool_decide_true by done | rewrite bool_decide_false by done];
    cbn; split; intros; first [done | tauto].
Qed.

(** ** Iovecs *)

Definition key_of (p : Z) : pvptr := (bf_get pvbuf_pvbuf_size p, bf_get pvbuf_index p).

(** Goals about sets of pvbufs do not depend on what the keys are. *)
Ltac key_solver :=
  repeat match goal with
  | |- context [key_of ?x] => let k := fresh "key" in generalize dependent (key_of x); intros k
  | H : context [key_of ?x] |- _ => let k := fresh "key" in generalize dependent (key_of x); intros k
  end; set_solver.

(** The length of a pvbuf in its iovec is zero when it is not known. *)
Definition dlen_ok (w : Z) (ls : list leaf) : Prop := bf_get pvbuf_data_length w = 0 \/ bf_get pvbuf_data_length w = total ls.

Definition is_buf (w : Z) : Prop := ptype w = TPbuf \/ ptype w = TPbuf1ref \/ ptype w = TShort.

(** [segs H d ws ls ks]: the iovecs [ws] hold the buffers [ls] through the
    pvbufs [ks], in at most [d] levels. *)
Inductive segs (H : gmap pvptr xdp2_pvbuf) : nat -> list Z -> list leaf -> gset pvptr -> Prop :=
| segs_nil d : segs H d [] [] ∅
| segs_null d ws ls ks : segs H d ws ls ks -> segs H d (0 :: ws) ls ks
| segs_buf d w ws ls ks : is_buf w -> segs H d ws ls ks -> segs H d (w :: ws) ((w, 0) :: ls) ks
| segs_long d w1 w2 ws ls ks :
    __xdp2_paddr_long_addr_check w1 w2 = Done tt -> segs H d ws ls ks -> segs H d (w1 :: w2 :: ws) ((w1, w2) :: ls) ks
| segs_sub d w ws sub ls1 ls ks1 ks :
    ptype w = TPvbuf -> H !! key_of w = Some (mk sub) -> segs H d sub ls1 ks1 -> dlen_ok w ls1 ->
    segs H (S d) ws ls ks -> key_of w ∉ ks1 -> ({[key_of w]} ∪ ks1) ## ks ->
    segs H (S d) (w :: ws) (ls1 ++ ls) ({[key_of w]} ∪ ks1 ∪ ks).

(** The packet with the address [p] is [ls]. *)
Definition rep (H : gmap pvptr xdp2_pvbuf) (d : nat) (p : Z) (ls : list leaf) (ks : gset pvptr) : Prop :=
  ptype p = TPvbuf /\ exists ws ks1, H !! key_of p = Some (mk ws) /\ segs H d ws ls ks1 /\ key_of p ∉ ks1 /\ ks = {[key_of p]} ∪ ks1.

Lemma segs_frame H H' d ws ls ks : segs H d ws ls ks -> (forall k, k ∈ ks -> H' !! k = H !! k) -> segs H' d ws ls ks.
Proof.
  induction 1 as [| | | | d w ws sub ls1 ls ks1 ks Hw Hs Hsub IH1 Hd Hws IH2 Hn Hdj]; intros Hf; try (econstructor; eauto; fail).
  apply segs_sub with sub; try done.
  - rewrite Hf by set_solver. done.
  - apply IH1. intros k Hk. apply Hf. set_solver.
  - apply IH2. intros k Hk. apply Hf. set_solver.
Qed.

Lemma rep_frame H H' d p ls ks : rep H d p ls ks -> (forall k, k ∈ ks -> H' !! k = H !! k) -> rep H' d p ls ks.
Proof.
  intros (Hp & ws & ks1 & Hk & Hs & Hn & ->) Hf. split; [done |]. exists ws, ks1. split_and!; try done.
  - rewrite Hf by set_solver. done.
  - eapply segs_frame; [done |]. intros k Hin. apply Hf. set_solver.
Qed.

Lemma segs_dom H d ws ls ks : segs H d ws ls ks -> forall k, k ∈ ks -> is_Some (H !! k).
Proof. induction 1; intros k' Hk'; set_unfold; naive_solver. Qed.

Lemma rep_dom H d p ls ks : rep H d p ls ks -> forall k, k ∈ ks -> is_Some (H !! k).
Proof. intros (_ & ws & ks1 & Hk & Hs & _ & ->) k Hin. pose proof (segs_dom _ _ _ _ _ Hs k). set_unfold; naive_solver. Qed.

Lemma segs_deeper H d d' ws ls ks : segs H d ws ls ks -> (d <= d')%nat -> segs H d' ws ls ks.
Proof.
  intros Hs. revert d'. induction Hs; intros d' Hd; try (econstructor; eauto; fail).
  destruct d' as [| d']; [lia |]. eapply segs_sub; eauto. apply IHHs1. lia.
Qed.

Lemma rep_deeper H d d' p ls ks : rep H d p ls ks -> (d <= d')%nat -> rep H d' p ls ks.
Proof. intros (Hp & ws & ks1 & Hk & Hs & Hn & ->) Hd. split; [done |]. exists ws, ks1. split_and!; try done. by eapply segs_deeper. Qed.

Lemma segs_app H d ws1 ls1 ks1 ws2 ls2 ks2 :
  segs H d ws1 ls1 ks1 -> segs H d ws2 ls2 ks2 -> ks1 ## ks2 -> segs H d (ws1 ++ ws2) (ls1 ++ ls2) (ks1 ∪ ks2).
Proof.
  induction 1 as [d | | | | d w ws sub lsa ls ksa ks Hw Hs Hsub IH1 Hd Hws IH2 Hn Hdj]; intros H2 Hdis; cbn.
  - by rewrite (left_id_L ∅ (∪)).
  - apply segs_null. auto.
  - apply segs_buf; auto.
  - apply segs_long; auto.
  - rewrite <- app_assoc, <- (assoc_L (∪)). eapply segs_sub; eauto; [apply IH2; [done | set_solver] | set_solver].
Qed.

Lemma segs_zeros H d n ws ls ks : segs H d ws ls ks -> segs H d (replicate n 0 ++ ws) ls ks.
Proof. intros Hs. induction n as [| n IH]; [done |]. by apply segs_null. Qed.

Lemma segs_zeros_end H d n ws ls ks : segs H d ws ls ks -> segs H d (ws ++ replicate n 0) ls ks.
Proof.
  intros Hs. rewrite <- (app_nil_r ls), <- (right_id_L ∅ (∪) ks). apply segs_app; [done | | set_solver].
  rewrite <- (app_nil_r (replicate n 0)). apply segs_zeros. apply segs_nil.
Qed.

(** A sub pvbuf and what follows it. *)
Lemma segs_rep H d w ws ls1 ls ks1 ks :
  rep H d w ls1 ks1 -> dlen_ok w ls1 -> segs H (S d) ws ls ks -> ks1 ## ks -> segs H (S d) (w :: ws) (ls1 ++ ls) (ks1 ∪ ks).
Proof. intros (Hw & sub & ks' & Hk & Hs & Hn & ->) Hd Hws Hdis. by eapply segs_sub. Qed.

(** ** Inversion *)

Lemma not_buf_0 : ~ is_buf 0.
Proof. unfold is_buf. by intros [|[|]]. Qed.

Lemma segs_null_inv H d ws ls ks : segs H d (0 :: ws) ls ks -> segs H d ws ls ks.
Proof.
  inversion 1; subst; try done; first [by destruct not_buf_0 |
    match goal with E : __xdp2_paddr_long_addr_check _ _ = _ |- _ => by apply long_check in E as [[] _] end].
Qed.

Lemma segs_zeros_inv H d n ws ls ks : segs H d (replicate n 0 ++ ws) ls ks -> segs H d ws ls ks.
Proof. induction n as [| n IH]; [done |]. intros Hs. by apply IH, segs_null_inv. Qed.

(** What the first iovec in use is. *)
Inductive first_view (H : gmap pvptr xdp2_pvbuf) (d : nat) (w : Z) (ws : list Z) (ls : list leaf) (ks : gset pvptr) : Prop :=
| FvBuf ls' : is_buf w -> ls = (w, 0) :: ls' -> segs H d ws ls' ks -> first_view H d w ws ls ks
| FvLong w2 ws' ls' : __xdp2_paddr_long_addr_check w w2 = Done tt -> ws = w2 :: ws' -> ls = (w, w2) :: ls' -> segs H d ws' ls' ks ->
    first_view H d w ws ls ks
| FvSub d' ls1 ls' ks1 ks' : d = S d' -> rep H d' w ls1 ks1 -> dlen_ok w ls1 -> segs H d ws ls' ks' -> ks1 ## ks' ->
    ls = ls1 ++ ls' -> ks = ks1 ∪ ks' -> first_view H d w ws ls ks.

Lemma segs_first H d w ws ls ks : w <> 0 -> segs H d (w :: ws) ls ks -> first_view H d w ws ls ks.
Proof.
  intros Hw Hs. inversion Hs; subst; [done | by eapply FvBuf | by eapply FvLong |].
  eapply FvSub; try done. split; [done |]. naive_solver.
Qed.

(** What the last iovec in use is. *)
Inductive last_view (H : gmap pvptr xdp2_pvbuf) (d : nat) (ws : list Z) (w : Z) (ls : list leaf) (ks : gset pvptr) : Prop :=
| LvBuf ls' : is_buf w -> ls = ls' ++ [(w, 0)] -> segs H d ws ls' ks -> last_view H d ws w ls ks
| LvLong w1 ws' ls' : __xdp2_paddr_long_addr_check w1 w = Done tt -> ws = ws' ++ [w1] -> ls = ls' ++ [(w1, w)] -> segs H d ws' ls' ks ->
    last_view H d ws w ls ks
| LvSub d' ls1 ls' ks1 ks' : d = S d' -> rep H d' w ls1 ks1 -> dlen_ok w ls1 -> segs H d ws ls' ks' -> ks1 ## ks' ->
    ls = ls' ++ ls1 -> ks = ks' ∪ ks1 -> last_view H d ws w ls ks.

Lemma segs_last H d ws w ls ks : w <> 0 -> segs H d (ws ++ [w]) ls ks -> last_view H d ws w ls ks.
Proof.
  intros Hw Hs. remember (ws ++ [w]) as l eqn:E. revert ws E.
  induction Hs as [| d l ls ks Hs IH | d v l ls ks Hv Hs IH | d v v2 l ls ks Hv Hs IH
                   | d v l sub ls1 ls ks1 ks Hv Hk Hsub _ Hd Hs IH Hn Hdj]; intros ws E.
  - by destruct ws.
  - destruct ws as [| x ws]; [naive_solver |]. injection E as <- ->.
    destruct (IH ws eq_refl) as [ls' | w1 ws' ls' | d' lsa ls' ksa ks'].
    + eapply LvBuf; [done.. |]. by apply segs_null.
    + subst. eapply (LvLong _ _ _ _ _ _ w1 (0 :: ws')); [done.. |]. by apply segs_null.
    + eapply LvSub; [done.. | | done | done | done]. by apply segs_null.
  - destruct ws as [| x ws].
    + injection E as -> ->. inversion Hs; subst. by eapply (LvBuf _ _ _ _ _ _ []); [| | apply segs_nil].
    + injection E as <- ->. destruct (IH ws eq_refl) as [ls' | w1 ws' ls' | d' lsa ls' ksa ks']; subst.
      * eapply (LvBuf _ _ _ _ _ _ (_ :: ls')); [done.. |]. by apply segs_buf.
      * eapply (LvLong _ _ _ _ _ _ w1 (_ :: ws') (_ :: ls')); [done.. |]. by apply segs_buf.
      * eapply (LvSub _ _ _ _ _ _ d' lsa (_ :: ls')); [done.. | by apply segs_buf | done | done | done].
  - destruct ws as [| x [| y ws]]; [done | |].
    + injection E as -> -> ->. inversion Hs; subst. by eapply (LvLong _ _ _ _ _ _ _ [] []); [| | | apply segs_nil].
    + injection E as <- <- ->. destruct (IH ws eq_refl) as [ls' | w1 ws' ls' | d' lsa ls' ksa ks']; subst.
      * eapply (LvBuf _ _ _ _ _ _ (_ :: ls')); [done.. |]. by apply segs_long.
      * eapply (LvLong _ _ _ _ _ _ w1 (_ :: _ :: ws') (_ :: ls')); [done.. |]. by apply segs_long.
      * eapply (LvSub _ _ _ _ _ _ d' lsa (_ :: ls')); [done.. | by apply segs_long | done | done | done].
  - destruct ws as [| x ws].
    + injection E as -> ->. inversion Hs; subst. rewrite (right_id_L ∅ (∪)), app_nil_r.
      eapply (LvSub _ _ _ _ _ _ d ls1 [] ({[key_of w]} ∪ ks1) ∅); try done.
      * split; [done |]. naive_solver.
      * by rewrite (left_id_L ∅ (∪)).
    + injection E as <- ->. destruct (IH ws eq_refl) as [ls' | w1 ws' ls' | d' lsa ls' ksa ks']; subst.
      * eapply (LvBuf _ _ _ _ _ _ (ls1 ++ ls')); [done | by rewrite app_assoc |]. by eapply segs_sub.
      * eapply (LvLong _ _ _ _ _ _ w1 (_ :: ws') (ls1 ++ ls')); [done.. | by rewrite app_assoc |]. by eapply segs_sub.
      * eapply (LvSub _ _ _ _ _ _ d' lsa (ls1 ++ ls') ksa ({[key_of v]} ∪ ks1 ∪ ks')); [done.. | | set_solver | by rewrite app_assoc | set_solver].
        eapply segs_sub; try done. set_solver.
Qed.

Lemma segs_zeros_end_inv H d n ws ls ks : segs H d (ws ++ replicate n 0) ls ks -> segs H d ws ls ks.
Proof.
  intros Hs. remember (ws ++ replicate n 0) as l eqn:E. revert n ws E.
  induction Hs as [| d l ls ks Hs IH | d v l ls ks Hv Hs IH | d v v2 l ls ks Hv Hs IH
                   | d v l sub ls1 ls ks1 ks Hv Hk Hsub _ Hd Hs IH Hn Hdj]; intros n ws E.
  - symmetry in E. apply app_eq_nil in E as [-> _]. apply segs_nil.
  - destruct ws as [| x ws]; [destruct n; [done |]; injection E as ->; by apply (IH n []) |]. injection E as <- E. apply segs_null. by apply (IH n).
  - destruct ws as [| x ws]; [destruct n; [done |]; injection E as -> _; by destruct not_buf_0 |]. injection E as <- E. apply segs_buf; [done |]. by apply (IH n).
  - pose proof (proj1 (long_check _ _) Hv) as (H1 & _ & _ & _ & _ & _ & H2). apply nonzero_of in H2.
    destruct ws as [| x [| y ws]]; [destruct n; [done |]; by injection E as -> | destruct n; [done |]; by injection E as _ -> |].
    injection E as <- <- E. apply segs_long; [done |]. by apply (IH n).
  - destruct ws as [| x ws]; [destruct n; [done |]; by injection E as -> |]. injection E as <- E. eapply segs_sub; eauto.
Qed.
