(* ===== verification/PvbufInv.v ===== *)
(** * Packet vectors: the invariant of the manager

    The allocators own the pvbufs that are not in use, every pvbuf in use is
    canonical and has the length of its size. Allocating and freeing a pvbuf keeps
    this. [pv_step] says what an operation on one packet does to the heap. *)

From stdpp Require Import base list gmap numbers.
From S2P Require Import Prelude BitmapWord BitmapWordSpec Memory Paddr Pvbuf PvbufEdit PvbufMap PvbufRep.

(** ** Invariant *)

Abbreviation ptable s := (pvbuf_allocator_table (mpv s)).

(** The allocator [a] for the size [i]: what is free is what is not in the heap.

    The sizes are 0 to 7, pvbufs of at most 63 iovecs: the sizes 8 to 15, which the
    manager can be set up with as well, have 64 iovecs, and a search behind the last
    of them shifts by the width of the map ([iovec_63_crashes] of PvbufProps.v). *)
Record pool_ok (H : gmap pvptr xdp2_pvbuf) (i : nat) (a : oalloc) : Prop := PoolOk {
  pool_size : (i <= 7)%nat;
  pool_num : oa_num a <= 2 ^ 24;
  pool_nodup : NoDup (oa_free a);
  pool_free : forall j, j ∈ oa_free a <-> 0 <= j < oa_num a /\ H !! (Z.of_nat i, j) = None }.

Record pv_inv (s : xdp2_pvbuf_mgr) : Prop := PvInv {
  inv_table : length (ptable s) = 16%nat;
  inv_default : 0 <= default_pvbuf_size (mconf s) < XDP2_PVBUF_NUM_SIZES;
  inv_pool : forall i e a, ptable s !! i = Some e -> pv_allocator e = Some a -> pool_ok (heap s) i a;
  inv_heap : forall k v, heap s !! k = Some v ->
    (exists ws, v = mk ws /\ Z.of_nat (length ws) = pvbuf_words (fst k)) /\
    exists e a, 0 <= fst k /\ ptable s !! Z.to_nat (fst k) = Some e /\ pv_allocator e = Some a /\ 0 <= snd k < oa_num a }.

Lemma tget_ok {A} i (l : list A) x : 0 <= i -> l !! Z.to_nat i = Some x -> tget i l = Done x.
Proof. intros Hi E. unfold tget. destruct (Z.ltb_spec i 0); [lia |]. by rewrite E. Qed.

Section Inv.
Context (s : xdp2_pvbuf_mgr) (Hinv : pv_inv s).

Lemma inv_length k ws : heap s !! k = Some (mk ws) -> Z.of_nat (length ws) = pvbuf_words (fst k) /\ 0 <= fst k <= 7.
Proof using Hinv.
  intros E. destruct (inv_heap _ Hinv _ _ E) as ((ws' & Hm & Hl) & e & a & Hk & He & Ha & Hi). injection Hm as _ ->.
  split; [done |]. pose proof (pool_size _ _ _ (inv_pool _ Hinv _ _ _ He Ha)). lia.
Qed.

Lemma inv_bounds k ws : heap s !! k = Some (mk ws) -> (7 <= length ws <= 63)%nat.
Proof using Hinv.
  intros E. destruct (inv_length _ _ E) as [Hl Hk]. unfold pvbuf_words in Hl.
  assert (((fst k + 1) * 64 - 8) / 8 = 8 * fst k + 7) as Hd.
  { replace ((fst k + 1) * 64 - 8) with ((8 * fst k + 7) * 8) by lia. by apply Z.div_mul. }
  lia.
Qed.

Lemma num_iovecs_ok p ws :
  ptype p = TPvbuf -> heap s !! key_of p = Some (mk ws) -> XDP2_PVBUF_NUM_IOVECS_FROM_PADDR p = Done (Z.of_nat (length ws)).
Proof using Hinv.
  intros Hp E. destruct (inv_length _ _ E) as [Hl Hk]. pose proof (inv_bounds _ _ E).
  unfold XDP2_PVBUF_NUM_IOVECS_FROM_PADDR, xdp2_pvbuf_get_size_from_paddr, __xdp2_pvbuf_check_paddr.
  rewrite is_pvbuf_ptype, bool_decide_true by done. orun. unfold XDP2_PVBUF_NUM_IOVECS, XDP2_PVBUF_MAX_IOVECS.
  unfold key_of in Hl, Hk. cbn [fst] in Hl, Hk. f_equal. rewrite Hl. lia.
Qed.

Lemma size_ok p : ptype p = TPvbuf -> xdp2_pvbuf_get_size_from_paddr p = Done (fst (key_of p)).
Proof using. intros Hp. unfold xdp2_pvbuf_get_size_from_paddr, __xdp2_pvbuf_check_paddr. by rewrite is_pvbuf_ptype, bool_decide_true. Qed.

Lemma paddr_to_addr_ok p v :
  ptype p = TPvbuf -> heap s !! key_of p = Some v -> __xdp2_pvbuf_paddr_to_addr p s = Done (s, key_of p).
Proof using Hinv.
  intros Hp E. destruct (inv_heap _ Hinv _ _ E) as (_ & e & a & Hk & He & Ha & Hi). cbn [key_of fst snd] in Hk, He, Hi.
  unfold __xdp2_pvbuf_paddr_to_addr, mbind, pvm_bind. rewrite size_ok by done. cbn [lift].
  unfold xdp2_pvbuf_index_from_paddr, __xdp2_pvbuf_check_paddr. rewrite is_pvbuf_ptype, bool_decide_true by done.
  cbn [XDP2_ASSERT mbind outcome_bind mret outcome_ret lift].
  unfold XDP2_PVBUF_GET_ALLOCATOR, pv_entry, mbind, pvm_bind. cbn [key_of fst]. rewrite (tget_ok _ _ e) by done.
  cbn. rewrite Ha. cbn. destruct (Z.ltb_spec (bf_get pvbuf_index p) (oa_num a)); [done | lia].
Qed.

(** Changing the iovecs of a pvbuf. *)
Lemma inv_upd k ws ws' : heap s !! k = Some (mk ws) -> length ws' = length ws -> pv_inv (upd k ws' s).
Proof using Hinv.
  intros E Hl. destruct Hinv as [Ht Hd Hp Hh]. split; [done | done | |].
  - intros i e a He Ha. destruct (Hp i e a He Ha) as [H1 H2 H3 H4]. split; [done | done | done |].
    intros j. rewrite H4, heap_upd. destruct (decide (k = (Z.of_nat i, j))) as [-> |]; [| by rewrite lookup_insert_ne].
    rewrite lookup_insert_eq, E. naive_solver.
  - intros k' v. rewrite heap_upd. destruct (decide (k = k')) as [<- |].
    + rewrite lookup_insert_eq. intros [= <-]. destruct (Hh _ _ E) as [(w & [= _ <-] & Hw) He]. split; [| done].
      exists ws'. split; [done |]. by rewrite Hl.
    + rewrite lookup_insert_ne by done. apply Hh.
Qed.
End Inv.

Lemma pv_inv_same s s' : mconf s' = mconf s -> mpv s' = mpv s -> pv_inv s -> pv_inv s'.
Proof. intros Ec Ev [H1 H2 H3 H4]. unfold heap in *. split; unfold heap; rewrite ?Ec, ?Ev; done. Qed.

(** ** Steps *)

Lemma not_elem_disjoint (x : pvptr) (X Y : gset pvptr) : X ## Y -> x ∈ X -> x ∉ Y.
Proof. intros Hd Hx Hy. by apply (Hd x). Qed.

(** From [s] to [s'] the packet with the pvbufs [ks] becomes one with [ks']: the
    others are as before, and nothing else is allocated. *)
Record pv_step (s s' : xdp2_pvbuf_mgr) (ks ks' : gset pvptr) : Prop := PvStep {
  step_conf : mconf s' = mconf s;
  step_out : forall k, k ∉ ks' -> heap s' !! k = if decide (k ∈ ks) then None else heap s !! k;
  step_fresh : forall k, k ∈ ks' -> k ∈ ks \/ heap s !! k = None }.

Lemma pv_step_refl s ks : pv_step s s ks ks.
Proof. split; [done | | auto]. intros k Hk. by rewrite decide_False. Qed.

Lemma pv_step_trans s1 s2 s3 k1 k2 k3 : pv_step s1 s2 k1 k2 -> pv_step s2 s3 k2 k3 -> pv_step s1 s3 k1 k3.
Proof.
  intros [C1 O1 F1] [C2 O2 F2]. split; [by rewrite C2 | |].
  - intros k Hk. rewrite O2 by done. destruct (decide (k ∈ k2)) as [H2 | H2]; [| by apply O1].
    destruct (decide (k ∈ k1)) as [| H1]; [done |]. destruct (F1 k H2); [done |]. done.
  - intros k Hk. destruct (F2 k Hk) as [H2 | H2]; [by apply F1 |]. destruct (decide (k ∈ k2)) as [Hin | Hin]; [by apply F1 |].
    rewrite O1 in H2 by done. destruct (decide (k ∈ k1)); auto.
Qed.

(** A packet that is not involved. *)
Lemma pv_step_disjoint s s' ks ks' kf :
  pv_step s s' ks ks' -> kf ## ks -> (forall k, k ∈ kf -> is_Some (heap s !! k)) -> kf ## ks'.
Proof.
  intros [_ _ F] Hd Hs k Hk Hk'. destruct (F k Hk') as [| E]; [by apply (Hd k) |]. destruct (Hs k Hk). congruence.
Qed.

Lemma pv_step_same s s' ks ks' kf :
  pv_step s s' ks ks' -> kf ## ks -> (forall k, k ∈ kf -> is_Some (heap s !! k)) -> forall k, k ∈ kf -> heap s' !! k = heap s !! k.
Proof.
  intros Hst Hd Hs k Hk. assert (k ∉ ks') as Hk' by (intros ?; by eapply (pv_step_disjoint s s' ks ks' kf)).
  rewrite (step_out _ _ _ _ Hst) by done. rewrite decide_False; [done |]. set_solver.
Qed.

Lemma pv_step_frame s s' ks ks' kf : pv_step s s' ks ks' -> pv_step s s' (ks ∪ kf) (ks' ∪ kf).
Proof.
  intros [C O F]. split; [done | |].
  - intros k Hk. rewrite O by set_solver. destruct (decide (k ∈ ks)); [by rewrite decide_True by set_solver |].
    rewrite decide_False by set_solver. done.
  - intros k Hk. set_unfold. naive_solver.
Qed.

Lemma segs_step s s' ks ks' d ws ls kf :
  pv_step s s' ks ks' -> segs (heap s) d ws ls kf -> kf ## ks -> segs (heap s') d ws ls kf.
Proof. intros Hst Hs Hd. eapply segs_frame; [done |]. eapply pv_step_same; [done.. |]. by eapply segs_dom. Qed.

Lemma rep_step s s' ks ks' d p ls kf :
  pv_step s s' ks ks' -> rep (heap s) d p ls kf -> kf ## ks -> rep (heap s') d p ls kf.
Proof. intros Hst Hs Hd. eapply rep_frame; [done |]. eapply pv_step_same; [done.. |]. by eapply rep_dom. Qed.

Lemma pv_step_upd s k ws ks : k ∈ ks -> pv_step s (upd k ws s) ks ks.
Proof.
  intros Hk. split; [done | | auto]. intros k' Hk'. rewrite heap_upd, lookup_insert_ne by set_solver. by rewrite decide_False.
Qed.

(** ** Allocation *)

(** The state in which the pool [i] has the object [j] out or in. *)
Lemma inv_insert s i e a j r ws :
  pv_inv s -> ptable s !! i = Some e -> pv_allocator e = Some a -> oa_free a = j :: r ->
  Z.of_nat (length ws) = pvbuf_words (Z.of_nat i) ->
  pv_inv (put_heap (<[(Z.of_nat i, j) := mk ws]> (heap s))
            (put_table (<[i := PvEntry (Some (OAlloc (oa_num a) r)) (smaller_size e)]> (ptable s)) s)) /\
  0 <= j < 2 ^ 24 /\ (i <= 7)%nat /\ heap s !! (Z.of_nat i, j) = None.
Proof.
  intros [Ht Hd Hp Hh] He Ha Hf Hl. destruct (Hp i e a He Ha) as [P1 P2 P3 P4]. rewrite Hf in P3, P4. pose proof (NoDup_cons_1_1 _ _ P3) as Hj. apply NoDup_cons_1_2 in P3.
  destruct (P4 j) as [Hin _]. destruct Hin as [Hr Hn]; [by left |]. split_and!; [| lia | lia | done | done].
  split; cbn; [by rewrite length_insert | done | |].
  - intros i' e' a' He' Ha'. destruct (decide (i' = i)) as [-> | Hne].
    + rewrite list_lookup_insert_eq in He' by (eapply lookup_lt_Some; eauto). simplify_eq. cbn in Ha'. simplify_eq.
      split; [done | done | done |]. intros j'. cbn. destruct (decide (j' = j)) as [-> | Hj'].
      * rewrite lookup_insert_eq. split; [done | naive_solver].
      * rewrite lookup_insert_ne by congruence. rewrite <- P4. set_solver.
    + rewrite list_lookup_insert_ne in He' by done. destruct (Hp i' e' a' He' Ha') as [Q1 Q2 Q3 Q4]. split; [done.. |].
      intros j'. rewrite lookup_insert_ne by (intros [=]; lia). apply Q4.
  - intros k v. destruct (decide ((Z.of_nat i, j) = k)) as [<- | Hk].
    + rewrite lookup_insert_eq. intros [= <-]. split; [by exists ws |]. cbn. rewrite Nat2Z.id.
      rewrite list_lookup_insert_eq by (eapply lookup_lt_Some; eauto). eexists _, _. split_and!; [lia | done | done | lia | cbn; lia].
    + rewrite lookup_insert_ne by done. intros E. destruct (Hh k v E) as (Hw & e' & a' & K1 & K2 & K3 & K4). split; [done |].
      destruct (decide (Z.to_nat (fst k) = i)) as [Hi | Hi].
      * rewrite Hi in *. simplify_eq. rewrite list_lookup_insert_eq by (eapply lookup_lt_Some; eauto).
        eexists _, _. split_and!; [done | done | done | apply K4 | apply K4].
      * rewrite list_lookup_insert_ne by done. by exists e', a'.
Qed.

Lemma map_of_zeros n : map_of (replicate n 0) = 0.
Proof. induction n as [| n IH]; [done |]. cbn. by rewrite IH. Qed.

Lemma zero_mk size : zero_pvbuf size = mk (replicate (Z.to_nat (pvbuf_words size)) 0).
Proof. unfold zero_pvbuf, mk. by rewrite map_of_zeros. Qed.

Lemma make_paddr_ok size j :
  0 <= size < 16 -> 0 <= j < 2 ^ 24 ->
  exists p, xdp2_pvbuf_make_paddr size j = Done p /\ ptype p = TPvbuf /\ key_of p = (size, j) /\ bf_get pvbuf_data_length p = 0.
Proof.
  intros Hs Hj. unfold xdp2_pvbuf_make_paddr, XDP2_ASSERT, XDP2_PVBUF_NUM_SIZES. destruct (Z.ltb_spec j (2 ^ 24)); [| lia].
  destruct (Z.ltb_spec size 16); [| lia]. orun. eexists. split; [done |]. split_and!.
  - unfold ptype, xdp2_paddr_get_paddr_tag_from_paddr. by rewrite !bf_get_set_other, bf_get_set_small by (field_side || done).
  - unfold key_of. rewrite (bf_get_set_small pvbuf_pvbuf_size) by (field_side || done).
    rewrite bf_get_set_other, bf_get_set_small by (field_side || done). done.
  - rewrite !bf_get_set_other by field_side. apply bf_get_0.
Qed.

(** A pvbuf of the size is allocated, or there is none. *)
Lemma pvbuf_alloc_ok size s :
  pv_inv s -> 0 <= size < 16 ->
  wps (___xdp2_pvbuf_alloc size true) s (fun r s' =>
    match r with
    | None => s' = s
    | Some (p, k) => pv_inv s' /\ pv_step s s' ∅ {[k]} /\ mpb s' = mpb s /\ heap s' = <[k := zero_pvbuf size]> (heap s) /\
        heap s !! k = None /\ fst k = size /\ size <= 7 /\ ptype p = TPvbuf /\ key_of p = k /\ bf_get pvbuf_data_length p = 0
    end).
Proof.
  intros Hinv Hs. pose proof Hinv as [Ht Hd Hp Hh].
  destruct (lookup_lt_is_Some_2 (ptable s) (Z.to_nat size)) as [e He]; [lia |].
  assert (pv_entry size s = Done (s, e)) as Hpe by (unfold pv_entry; by rewrite (tget_ok _ _ e) by (done || lia)).
  unfold ___xdp2_pvbuf_alloc. apply wps_assert; [unfold XDP2_PVBUF_NUM_SIZES; lia |].
  eapply wps_step. { unfold XDP2_PVBUF_GET_ALLOCATOR, mbind, pvm_bind. rewrite Hpe. done. }
  destruct (pv_allocator e) as [a |] eqn:Ha; [| by cbn].
  destruct (oa_free a) as [| j r] eqn:Hf.
  { unfold pv_obj_alloc. rewrite Hf. by cbn. }
  assert (size = Z.of_nat (Z.to_nat size)) as Hsz by lia.
  destruct (inv_insert s (Z.to_nat size) e a j r (replicate (Z.to_nat (pvbuf_words size)) 0)) as (Hi & Hj & Hi7 & Hn); try done.
  { rewrite length_replicate, <- Hsz. rewrite Z2Nat.id; [done |]. unfold pvbuf_words. apply Z.div_pos; lia. }
  rewrite <- Hsz in Hi, Hn. rewrite <- zero_mk in Hi.
  destruct (make_paddr_ok size j) as (p & Ep & Hpt & Hkey & Hdl); [lia | lia |].
  eapply wps_step.
  { unfold pv_obj_alloc. rewrite Hf. unfold put_oalloc, mbind, pvm_bind. rewrite Hpe. done. }
  eapply wps_step; [done |]. eapply wps_step; [done |]. eapply wps_lift; [exact Ep |]. apply wps_ret.
  split_and!; try done; [| lia].
  split; [done | |].
  - intros k Hk. cbn. rewrite lookup_insert_ne by set_solver. by rewrite decide_False by set_solver.
  - intros k Hk. right. set_solver.
Qed.

Lemma get_size_ok random s :
  pv_inv s -> wps (__xdp2_pvbuf_get_size random) s (fun n s' => 0 <= n < 16 /\ pv_inv s' /\ heap s' = heap s /\ mconf s' = mconf s /\ mpb s' = mpb s).
Proof.
  intros Hinv. pose proof Hinv as [Ht Hd Hp Hh]. unfold wps, __xdp2_pvbuf_get_size, XDP2_PVBUF_NUM_SIZES in *.
  destruct (random_pvbuf_size (mconf s)); [| done]. split_and!; try done; try (apply Z.mod_pos_bound; lia).
Qed.

(** ** Freeing *)

Lemma inv_delete s k e a v :
  pv_inv s -> heap s !! k = Some v -> ptable s !! Z.to_nat (fst k) = Some e -> pv_allocator e = Some a ->
  pv_inv (put_table (<[Z.to_nat (fst k) := PvEntry (Some (OAlloc (oa_num a) (snd k :: oa_free a))) (smaller_size e)]> (ptable s))
            (put_heap (delete k (heap s)) s)).
Proof.
  intros [Ht Hd Hp Hh] Hv He Ha. destruct (Hp _ e a He Ha) as [P1 P2 P3 P4].
  destruct (Hh k v Hv) as (_ & e0 & a0 & K1 & K2 & K3 & K4). simplify_eq.
  assert (Z.of_nat (Z.to_nat (fst k)) = fst k) as Hfk by lia.
  split; cbn; [by rewrite length_insert | done | |].
  - intros i' e' a' He' Ha'. destruct (decide (i' = Z.to_nat (fst k))) as [-> | Hne].
    + rewrite list_lookup_insert_eq in He' by (eapply lookup_lt_Some; eauto). simplify_eq. cbn in Ha'. simplify_eq.
      split; [done | done | |].
      * cbn. apply NoDup_cons_2; [| done]. intros Hin. apply P4 in Hin as [_ Hin]. rewrite Hfk in Hin. destruct k. cbn in *. congruence.
      * intros j'. cbn. rewrite Hfk. destruct (decide (j' = snd k)) as [-> | Hj'].
        -- destruct k as [k1 k2]. cbn in *. rewrite lookup_delete_eq. split; [by intros; split | by left].
        -- rewrite lookup_delete_ne by (destruct k; cbn in *; congruence). rewrite <- Hfk, <- P4. set_solver.
    + rewrite list_lookup_insert_ne in He' by done. destruct (Hp i' e' a' He' Ha') as [Q1 Q2 Q3 Q4]. split; [done.. |].
      intros j'. rewrite lookup_delete_ne; [apply Q4 |]. intros ->. cbn in Hne. lia.
  - intros k' v' E. apply lookup_delete_Some in E as [Hne E]. destruct (Hh k' v' E) as (Hw & e' & a' & L1 & L2 & L3 & L4). split; [done |].
    destruct (decide (Z.to_nat (fst k') = Z.to_nat (fst k))) as [Hi | Hi].
    + rewrite Hi in *. simplify_eq. rewrite list_lookup_insert_eq by (eapply lookup_lt_Some; eauto). eexists _, _. split_and!; [done | done | done | apply L4 | apply L4].
    + rewrite list_lookup_insert_ne by done. by exists e', a'.
Qed.

Lemma pv_obj_free_ok k v s :
  pv_inv s -> heap s !! k = Some v ->
  wps (pv_obj_free (fst k) k) s (fun _ s' => pv_inv s' /\ pv_step s s' {[k]} ∅ /\ mpb s' = mpb s /\ heap s' = delete k (heap s)).
Proof.
  intros Hinv Hv. destruct (inv_heap _ Hinv k v Hv) as (_ & e & a & K1 & K2 & K3 & K4).
  pose proof (inv_delete s k e a v Hinv Hv K2 K3) as Hi.
  assert (pv_entry (fst k) s = Done (s, e)) as Hpe by (unfold pv_entry; by rewrite (tget_ok _ _ e) by done).
  unfold pv_obj_free. eapply wps_step. { unfold XDP2_PVBUF_GET_ALLOCATOR, mbind, pvm_bind. rewrite Hpe. done. }
  rewrite K3. eapply wps_lift; [done |]. apply wps_assert; [lia |].
  eapply wps_step. { unfold ld_pvbuf. unfold heap in Hv. by rewrite Hv. }
  eapply wps_step; [done |].
  eapply wps_run. { unfold put_oalloc, mbind, pvm_bind, pv_entry. cbn. rewrite (tget_ok _ _ e) by done. done. }
  split_and!; [done | | done | done]. split; [done | | set_solver]. intros k' Hk'. cbn.
  destruct (decide (k' ∈ ({[k]} : gset pvptr))) as [Hin | Hin].
  - apply elem_of_singleton in Hin as ->. by rewrite lookup_delete_eq.
  - rewrite lookup_delete_ne by set_solver. done.
Qed.
