(* ===== verification/PvbufRead.v ===== *)
(** * Packet vectors: length and iteration

    Functions that walk over a packet see the buffers it stands for, in order. *)

From stdpp Require Import base list gmap numbers.
From S2P Require Import Prelude BitmapWord BitmapWordSpec Memory Paddr Pvbuf PvbufEdit PvbufPop PvbufIter PvbufMap PvbufRep PvbufInv.

(** ** Positions *)

Lemma at_pos_next k i w rest s : at_pos k i (w :: rest) s -> at_pos k (i + 1) rest s.
Proof.
  intros (ws & Hk & Hl & Hi & Hd). exists ws.
  assert (Z.to_nat i < length ws)%nat by (apply (f_equal length) in Hd; rewrite length_drop in Hd; cbn in Hd; lia).
  split_and!; [done | done | lia | lia |].
  replace (Z.to_nat (i + 1)) with (Z.to_nat i + 1)%nat by lia. by rewrite <- drop_drop, Hd.
Qed.

Lemma at_pos_lookup k i w rest s : at_pos k i (w :: rest) s -> ld_iovec k i s = Done (s, w).
Proof.
  intros (ws & Hk & Hl & Hi & Hd). apply (ld_iovec_ok s k ws Hk ltac:(lia)); [lia |].
  rewrite <- (Nat.add_0_r (Z.to_nat i)), <- lookup_drop, Hd. done.
Qed.

Lemma at_pos_isset k i w rest s : at_pos k i (w :: rest) s -> w <> 0 -> xdp2_pvbuf_iovec_map_isset k i s = Done (s, true).
Proof.
  intros (ws & Hk & Hl & Hi & Hd) Hw.
  assert (ws !! Z.to_nat i = Some w) as E by (rewrite <- (Nat.add_0_r (Z.to_nat i)), <- lookup_drop, Hd; done).
  pose proof (lookup_lt_Some _ _ _ E).
  rewrite (isset_map s k ws Hk) by lia. unfold nn. destruct (Z.ltb_spec i 0); [lia |]. rewrite E. by destruct (Z.eqb_spec w 0).
Qed.

Lemma at_pos_0 k ws s : heap s !! k = Some (mk ws) -> (length ws <= 63)%nat -> at_pos k 0 ws s.
Proof. intros Hk Hl. exists ws. split_and!; [done | done | lia | lia | done]. Qed.

(** ** Buffers in iovecs *)

Lemma is_buf_cases w (P : Prop) : is_buf w -> (ptype w = TPbuf -> P) -> (ptype w = TPbuf1ref -> P) -> (ptype w = TShort -> P) -> P.
Proof. intros [H | [H | H]]; auto. Qed.

Lemma is_buf_not_pvbuf w : is_buf w -> XDP2_PADDR_IS_PVBUF w = false /\ XDP2_PADDR_IS_LONG_ADDR w = false.
Proof. intros Hb. rewrite is_pvbuf_ptype, is_long_ptype. by destruct Hb as [E | [E | E]]; rewrite E. Qed.

Lemma pbuf_len_ok w : ptype w = TPbuf \/ ptype w = TPbuf1ref -> xdp2_pbuf_get_data_len_from_paddr w = Done (leaf_len (w, 0)).
Proof.
  intros H. unfold xdp2_pbuf_get_data_len_from_paddr, __xdp2_pbuf_check_paddr, leaf_len. rewrite is_pbuf_ptype. by destruct H as [E | E]; cbn [fst]; rewrite E.
Qed.
Lemma short_len_ok w : ptype w = TShort -> xdp2_paddr_short_addr_get_data_len_from_paddr w = Done (leaf_len (w, 0)).
Proof.
  intros E. unfold xdp2_paddr_short_addr_get_data_len_from_paddr, __xdp2_paddr_short_addr_check, leaf_len.
  rewrite is_short_ptype. cbn [fst]. by rewrite E.
Qed.
Lemma long_len_ok w1 w2 : __xdp2_paddr_long_addr_check w1 w2 = Done tt -> xdp2_paddr_long_addr_get_data_len_from_paddr w1 w2 = Done (leaf_len (w1, w2)).
Proof.
  intros E. unfold xdp2_paddr_long_addr_get_data_len_from_paddr, leaf_len. rewrite E. cbn [fst].
  apply long_check in E as (_ & -> & _). done.
Qed.

Lemma buf_data_len k i w rest s :
  at_pos k i (w :: rest) s -> is_buf w -> iovec_data_len k i s = Done (s, leaf_len (w, 0)).
Proof.
  intros Hat Hb. unfold iovec_data_len, mbind, pvm_bind. rewrite (at_pos_lookup _ _ _ _ _ Hat).
  destruct Hb as [E | [E | E]]; rewrite E; rewrite ?pbuf_len_ok, ?short_len_ok by auto; done.
Qed.

Lemma long_data_len k i w1 w2 rest s :
  at_pos k i (w1 :: w2 :: rest) s -> __xdp2_paddr_long_addr_check w1 w2 = Done tt ->
  iovec_data_len k i s = Done (s, leaf_len (w1, w2)).
Proof.
  intros Hat Hc. unfold iovec_data_len, mbind, pvm_bind. rewrite (at_pos_lookup _ _ _ _ _ Hat).
  pose proof (proj1 (long_check _ _) Hc) as (_ & -> & _). rewrite (at_pos_lookup _ _ _ _ _ (at_pos_next _ _ _ _ _ Hat)).
  by rewrite long_len_ok.
Qed.

(** ** Length *)

Lemma u64_add_l a b : u64 (u64 a + b) = u64 (a + b).
Proof. unfold u64. by rewrite Zplus_mod_idemp_l. Qed.
Lemma u64_add_r a b : u64 (a + u64 b) = u64 (a + b).
Proof. unfold u64. by rewrite Zplus_mod_idemp_r. Qed.

(** [n] is the length of what comes before position [i]. *)
Definition len_inv (k : pvptr) (s : xdp2_pvbuf_mgr) (d : nat) (all : Z) (i : Z) (rest : list Z) (n : Z) (s' : xdp2_pvbuf_mgr) : Prop :=
  s' = s /\ at_pos k i rest s /\ exists ls ks, segs (heap s) d rest ls ks /\ u64 (n + total ls) = all /\ n = u64 n.

Lemma len_next k s d all i j rest ls ks x n Q :
  at_pos k (j + 1) rest s -> segs (heap s) d rest ls ks -> i <= j -> u64 (x + (n + total ls)) = all ->
  wps (mret (Next j (u64 (x + n)))) s (fun r s' =>
    match r with Break y => Q y s' | Next j y => i <= j /\ exists rest', len_inv k s d all (j + 1) rest' y s' end).
Proof.
  intros Hat Hs Hij E. apply wps_ret. split; [done |]. exists rest. split_and!; [done | done |]. exists ls, ks.
  split_and!; [done | | unfold u64; by rewrite Zmod_mod]. rewrite u64_add_l, <- E. f_equal. lia.
Qed.

Lemma calc_length_wps fuel : forall d p ls ks s deep,
  pv_inv s -> rep (heap s) d p ls ks -> (d < fuel)%nat ->
  wps (__xdp2_pvbuf_calc_length fuel p deep) s (fun n s' => s' = s /\ n = u64 (total ls)).
Proof.
  induction fuel as [| fuel IH]; intros d p ls ks s deep Hinv (Hp & ws & ks1 & Hk & Hs & _ & _) Hd; [lia |].
  cbn [__xdp2_pvbuf_calc_length]. eapply wps_step; [by eapply paddr_to_addr_ok |].
  pose proof (inv_bounds _ Hinv _ _ Hk) as Hb.
  apply (wps_foreach _ _ _ (len_inv (key_of p) s d (u64 (total ls)))) with (ws := ws); [| | | | done | lia |].
  - by intros i rest x s' (-> & H & _).
  - intros i rest x s' (-> & H & ls' & ks' & Hr & E). split_and!; [done | by eapply at_pos_next |].
    exists ls', ks'. split; [by apply segs_null_inv | done].
  - intros i x s' (-> & _ & ls' & ks' & Hr & E & E'). inversion Hr; subst. cbn in E. rewrite Z.add_0_r in E. split; [done |]. by rewrite E'.
  - intros i w rest x s' Hw (-> & Hat & ls' & ks' & Hr & E & _).
    eapply wps_step; [by eapply at_pos_lookup |]. pose proof (at_pos_next _ _ _ _ _ Hat) as Hat'.
    destruct (segs_first _ _ _ _ _ _ Hw Hr) as [lr Hb' -> Hr' | w2 ws' lr Hc -> -> Hr' | d' l1 lr kk1 kk -> Hrep Hdl Hr' _ -> _].
    + pose proof (buf_data_len _ _ _ _ _ Hat Hb').
      destruct Hb' as [T | [T | T]]; rewrite T; (eapply wps_step; [done |]); by eapply len_next.
    + pose proof (proj1 (long_check _ _) Hc) as (_ & -> & _). eapply wps_step; [by eapply long_data_len |].
      eapply len_next; [by eapply at_pos_next | done | lia | done].
    + pose proof Hrep as [Hpt _]. rewrite Hpt. rewrite total_app in E.
      assert (u64 (x + (u64 (total l1) + total lr)) = u64 (total ls)) as E1 by (rewrite <- E, <- (u64_add_r x (u64 _ + _)), u64_add_l, u64_add_r; done).
      assert (bf_get pvbuf_data_length w <> 0 -> bf_get pvbuf_data_length w = u64 (total l1)) as Hdl'.
      { intros Hne. destruct Hdl as [? | Hdl]; [done |]. rewrite <- Hdl. pose proof (bf_get_range pvbuf_data_length w ltac:(field_side)) as Hrg.
        cbn [f_width pvbuf_data_length] in Hrg. unfold u64. rewrite Z.mod_small; lia. }
      assert (wps (__xdp2_pvbuf_calc_length fuel w deep) s (fun n s' => s' = s /\ n = u64 (total l1))) as Hsub by (apply (IH d' w l1 kk1); [done | done | lia]).
      destruct (Z.eqb_spec (bf_get pvbuf_data_length w) 0) as [E0 | E0]; cbn [negb andb].
      * apply wps_bind. eapply wps_mono; [exact Hsub |]. intros n s' [-> ->]. eapply wps_step; [done |]. by eapply len_next.
      * destruct deep; cbn [negb].
        -- apply wps_bind. eapply wps_mono; [exact Hsub |]. intros n s' [-> ->]. apply wps_assert; [rewrite Hdl' by done; lia |]. by eapply len_next.
        -- rewrite Hdl' by done. by eapply len_next.
  - split_and!; [done | apply at_pos_0; [done | lia] |]. exists ls, ks1. done.
Qed.

(** ** Addresses of buffers *)

Definition table_get {A} (i : Z) (l : list A) : option A := if i <? 0 then None else l !! Z.to_nat i.

(** The address of the data of a buffer. *)
Definition leaf_addr (c : mgr_conf) (l : leaf) : option Z :=
  let p := fst l in
  match ptype p with
  | TPbuf | TPbuf1ref =>
    e ← table_get (owner_tag (bf_get pbuf_buffer_tag p)) (pbuf_allocator_table c);
    Some (u64 (pbuf_base e + bf_get pbuf_offset p))
  | TShort => b ← table_get (bf_get short_paddr_tag p) (short_addr_base c); Some (u64 (b + bf_get short_offset p))
  | TLong =>
    b ← table_get (bf_get long_memory_region p) (long_addr_base c);
    Some (u64 (b + Z.lor (Z.shiftl (bf_get long_high_offset p) 48) (bf_get long2_low_offset (snd l))))
  | TPvbuf => None
  end.

Lemma table_get_done {A} i (l : list A) x : table_get i l = Some x -> tget i l = Done x.
Proof. unfold table_get, tget. destruct (i <? 0); [done |]. by intros ->. Qed.

Lemma pbuf_fields w : ptype w = TPbuf \/ ptype w = TPbuf1ref ->
  xdp2_pbuf_buffer_tag_from_paddr w = Done (bf_get pbuf_buffer_tag w) /\ xdp2_pbuf_get_offset_from_paddr w = Done (bf_get pbuf_offset w).
Proof.
  intros H. unfold xdp2_pbuf_buffer_tag_from_paddr, xdp2_pbuf_get_offset_from_paddr, __xdp2_pbuf_check_paddr. rewrite is_pbuf_ptype.
  by destruct H as [-> | ->].
Qed.

Lemma buf_addr_len c w p2 a s :
  mconf s = c -> is_buf w -> leaf_addr c (w, 0) = Some a -> __xdp2_paddr_get_addr_len w p2 s = Done (s, (a, leaf_len (w, 0))).
Proof.
  intros <- Hb Ha. unfold leaf_addr in Ha. cbn [fst snd] in Ha. unfold __xdp2_paddr_get_addr_len. destruct Hb as [E | [E | E]];
    rewrite E in Ha |- *; apply bind_Some in Ha as (e & Ht & [= <-]); apply table_get_done in Ht.
  3: { unfold __xdp2_paddr_short_addr_paddr_to_addr, mbind, pvm_bind, gets. rewrite Ht. cbn [lift]. by rewrite short_len_ok. }
  all: destruct (pbuf_fields w) as [E1 E2]; [by auto |]; unfold __xdp2_pbuf_paddr_to_addr, mbind, pvm_bind, pb_entry;
    rewrite E1; cbn [lift]; rewrite E2; cbn [lift]; rewrite Ht; cbn [lift]; by rewrite pbuf_len_ok by auto.
Qed.

Lemma long_addr_len c w1 w2 a s :
  mconf s = c -> __xdp2_paddr_long_addr_check w1 w2 = Done tt -> leaf_addr c (w1, w2) = Some a ->
  __xdp2_paddr_get_addr_len w1 w2 s = Done (s, (a, leaf_len (w1, w2))).
Proof.
  intros <- Hc Ha. pose proof (proj1 (long_check _ _) Hc) as (Hw & Hp & _). unfold leaf_addr in Ha. cbn [fst snd] in Ha. rewrite Hp in Ha.
  unfold __xdp2_paddr_get_addr_len. rewrite Hp. apply bind_Some in Ha as (e & Ht & [= <-]). apply table_get_done in Ht.
  unfold mbind, pvm_bind. destruct (Z.eqb_spec w1 0); [done |]. cbn [negb massert lift XDP2_ASSERT mret outcome_ret].
  unfold __xdp2_paddr_long_addr_to_addr, mbind, pvm_bind, gets. rewrite Ht. cbn [lift].
  unfold xdp2_paddr_long_addr_get_offset_from_paddr. rewrite Hc. cbn. by rewrite long_len_ok.
Qed.

(** The code reads the iovec behind the one of a buffer: no pvbuf of a packet has
    a buffer of one word (a pbuf or a short address) in its last iovec. *)
Definition last_ok (ws : list Z) : Prop := forall a w, ws = a ++ [w] -> ~ is_buf w.
Definition lasts_ok (H : gmap pvptr xdp2_pvbuf) (ks : gset pvptr) : Prop := forall k ws, k ∈ ks -> H !! k = Some (mk ws) -> last_ok ws.

Lemma lasts_ok_sub H ks ks' : lasts_ok H ks -> ks' ⊆ ks -> lasts_ok H ks'.
Proof. intros Hl Hs k ws Hk. apply Hl. by apply Hs. Qed.

Lemma last_ok_next a w rest : last_ok (a ++ w :: rest) -> is_buf w -> rest <> [].
Proof. intros Hl Hb ->. by apply (Hl a w). Qed.

Lemma at_pos_more k i w rest s ks : at_pos k i (w :: rest) s -> lasts_ok (heap s) ks -> k ∈ ks -> is_buf w -> rest <> [].
Proof.
  intros (ws & Hk & Hl & Hi & Hd) Hls Hin Hb. apply (last_ok_next (take (Z.to_nat i) ws) w); [| exact Hb].
  rewrite <- Hd, take_drop. exact (Hls _ _ Hin Hk).
Qed.

Lemma get_ptr_len_buf k i w rest a s :
  at_pos k i (w :: rest) s -> is_buf w -> rest <> [] -> leaf_addr (mconf s) (w, 0) = Some a ->
  __xdp2_pvbuf_get_ptr_len_from_iovec k i false s = Done (s, (a, leaf_len (w, 0))).
Proof.
  intros Hat Hb Hr Ha. unfold __xdp2_pvbuf_get_ptr_len_from_iovec, mbind, pvm_bind. rewrite (at_pos_lookup _ _ _ _ _ Hat).
  destruct rest as [| w2 rest]; [done |]. pose proof (buf_addr_len _ w w2 a s eq_refl Hb Ha) as E.
  destruct Hb as [T | [T | T]]; rewrite T, (at_pos_lookup _ _ _ _ _ (at_pos_next _ _ _ _ _ Hat)); exact E.
Qed.

Lemma get_ptr_len_long k i w1 w2 rest a s :
  at_pos k i (w1 :: w2 :: rest) s -> __xdp2_paddr_long_addr_check w1 w2 = Done tt -> leaf_addr (mconf s) (w1, w2) = Some a ->
  __xdp2_pvbuf_get_ptr_len_from_iovec k i false s = Done (s, (a, leaf_len (w1, w2))).
Proof.
  intros Hat Hc Ha. unfold __xdp2_pvbuf_get_ptr_len_from_iovec, mbind, pvm_bind. rewrite (at_pos_lookup _ _ _ _ _ Hat).
  pose proof (proj1 (long_check _ _) Hc) as (Hw & -> & _). destruct (Z.eqb_spec w1 0); [done |].
  cbn [negb massert lift XDP2_ASSERT mret outcome_ret].
  rewrite (at_pos_lookup _ _ _ _ _ Hat), (at_pos_lookup _ _ _ _ _ (at_pos_next _ _ _ _ _ Hat)). by eapply long_addr_len.
Qed.

(** ** Iteration *)

Section Iterate.
Context {A : Type} (func : A -> Z -> Z -> pvm (A * bool)).
(** [J ls x s]: the buffers still to be seen are [ls]; [Q] holds when the function stops early. *)
Context (J : list leaf -> A -> xdp2_pvbuf_mgr -> Prop) (Q : A -> xdp2_pvbuf_mgr -> Prop) (c : mgr_conf) (v : pvside).
Context (J_state : forall ls x s, J ls x s -> mconf s = c /\ mpv s = v).
Context (J_func : forall l ls x s a, leaf_addr c l = Some a -> J (l :: ls) x s ->
  wps (func x a (leaf_len l)) s (fun '(y, cont) s' => mpv s' = v /\ if (cont : bool) then J ls y s' else Q y s')).

Definition it_post (tl : list leaf) (r : A * bool) (s : xdp2_pvbuf_mgr) : Prop :=
  mpv s = v /\ if snd r then J tl (fst r) s else Q (fst r) s.

Definition it_inv (k : pvptr) (d : nat) (tl : list leaf) (i : Z) (rest : list Z) (r : A * bool) (s : xdp2_pvbuf_mgr) : Prop :=
  at_pos k i rest s /\ snd r = true /\
  exists ls ks, segs (pv_heap v) d rest ls ks /\ lasts_ok (pv_heap v) ({[k]} ∪ ks) /\ Forall (fun l => is_Some (leaf_addr c l)) ls /\ J (ls ++ tl) (fst r) s.

Lemma at_pos_same k i rest s s' : mpv s' = mpv s -> at_pos k i rest s -> at_pos k i rest s'.
Proof using. intros E. unfold at_pos, heap. by rewrite E. Qed.

(** What the loop does with the result of a buffer. *)
Lemma it_next k d tl i j rest ls ks r s s0 :
  at_pos k (j + 1) rest s0 -> mpv s0 = v -> segs (pv_heap v) d rest ls ks -> lasts_ok (pv_heap v) ({[k]} ∪ ks) -> Forall (fun l => is_Some (leaf_addr c l)) ls -> i <= j ->
  it_post (ls ++ tl) r s ->
  wps (let '(y, cont) := r in mret (if (cont : bool) then Next j (y, cont) else Break (y, cont))) s (fun r s' =>
    match r with Break y => it_post tl y s' | Next j y => i <= j /\ exists rest', it_inv k d tl (j + 1) rest' y s' end).
Proof using.
  destruct r as [y [|]]; intros Hat Hv0 Hs Hlo Hf Hij H; apply wps_ret; [| exact H]. split; [done |]. exists rest. split_and!; [| done |].
  - eapply at_pos_same; [| exact Hat]. rewrite Hv0. apply H.
  - exists ls, ks. split_and!; [done | done | done | apply H].
Qed.

Lemma iterate_wps fuel : forall d p ls ks tl x s,
  pv_inv s -> rep (pv_heap v) d p ls ks -> (d < fuel)%nat -> lasts_ok (pv_heap v) ks -> Forall (fun l => is_Some (leaf_addr c l)) ls -> J (ls ++ tl) x s ->
  wps (__xdp2_pvbuf_iterate fuel p func x) s (it_post tl).
Proof using J_state J_func.
  induction fuel as [| fuel IH]; intros d p ls ks tl x s Hinv (Hp & ws & ks1 & Hk & Hs & _ & Eks) Hd Hlast Hf HJ; [lia |].
  destruct (J_state _ _ _ HJ) as [Hc Hv]. assert (heap s !! key_of p = Some (mk ws)) as Hk' by (unfold heap; by rewrite Hv).
  cbn [__xdp2_pvbuf_iterate]. eapply wps_step; [by eapply paddr_to_addr_ok |]. pose proof (inv_bounds _ Hinv _ _ Hk') as Hb.
  apply (wps_foreach _ _ _ (it_inv (key_of p) d tl)) with (ws := ws); [| | | | done | lia |].
  - by intros i rest y s' [H _].
  - intros i rest y s' (H & Hr & ls' & ks' & Hs' & HJ'). split_and!; [by eapply at_pos_next | done |].
    exists ls', ks'. split; [by apply segs_null_inv | done].
  - intros i [y b] s' (_ & Hr & ls' & ks' & Hs' & _ & _ & HJ'). cbn in Hr. subst b. inversion Hs'; subst. split; [| done]. by destruct (J_state _ _ _ HJ').
  - intros i w rest [y b] s' Hw (Hat & _ & ls' & ks' & Hr & Hlo & Hf' & HJ'). cbn [fst] in HJ'. clear b.
    destruct (J_state _ _ _ HJ') as [Hc' Hv']. pose proof (at_pos_next _ _ _ _ _ Hat) as Hat'.
    eapply wps_step; [by eapply at_pos_lookup |].
    destruct (segs_first _ _ _ _ _ _ Hw Hr) as [lr Hb' -> Hr' | w2 ws' lr Hlc -> -> Hr' | d' l1 lr kk1 kk -> Hrep Hdl Hr' _ -> ->].
    + apply Forall_cons_1 in Hf' as [[a Ha] Hf']. destruct (is_buf_not_pvbuf w Hb') as [-> ->].
      rewrite <- Hc' in Ha. apply wps_bind, wps_bind. eapply wps_run; [eapply get_ptr_len_buf; [exact Hat | exact Hb' | | exact Ha] |].
      { apply (at_pos_more _ _ _ _ _ ({[key_of p]} ∪ ks') Hat); [unfold heap; rewrite Hv'; exact Hlo | clear; set_solver | exact Hb']. }
      cbn beta iota.
      rewrite Hc' in Ha. apply wps_bind. eapply wps_mono; [by apply (J_func (w, 0) (lr ++ tl) y s' a) |].
      intros [y' b'] s'' Hr''. apply wps_ret. eapply (it_next _ _ _ _ _ _ _ _ (y', b')); [done | done | done | done | done | lia | done].
    + apply Forall_cons_1 in Hf' as [[a Ha] Hf']. pose proof (proj1 (long_check _ _) Hlc) as (_ & Ht & _ & _ & _ & _ & Hob).
      rewrite is_pvbuf_ptype, is_long_ptype, Ht. cbn [bool_decide decide]. rewrite <- Hc' in Ha.
      apply wps_bind, wps_bind. eapply wps_run; [by eapply get_ptr_len_long |]. cbn beta iota.
      rewrite Hc' in Ha. apply wps_bind. eapply wps_mono; [by apply (J_func (w, w2) (lr ++ tl) y s' a) |].
      intros [y' b'] s'' Hr''. assert (at_pos (key_of p) (i + 1) (w2 :: ws') s'') as Hat''.
      { eapply at_pos_same; [| exact Hat']. destruct Hr'' as [-> _]. done. }
      eapply wps_step; [eapply at_pos_isset; [done | by eapply nonzero_of] |]. apply wps_assert; [done |]. apply wps_ret.
      eapply (it_next _ _ _ _ _ _ _ _ (y', b')); [by eapply at_pos_next | apply Hr'' | done | done | done | lia | done].
    + pose proof Hrep as [Hpt _]. rewrite is_pvbuf_ptype, bool_decide_true by done. apply Forall_app in Hf' as [Hf1 Hf2].
      apply wps_bind, wps_bind. eapply wps_mono.
      { eapply (IH d' w l1 kk1 (lr ++ tl)); [| done | lia | eapply lasts_ok_sub; [exact Hlo | clear; set_solver] | done | by rewrite app_assoc]. eapply pv_inv_same; [| | exact Hinv]; congruence. }
      intros [y' b'] s'' Hr''. apply wps_ret. eapply (it_next _ _ _ _ _ _ _ _ (y', b')); [done | done | done | eapply lasts_ok_sub; [exact Hlo | clear; set_solver] | done | lia | done].
  - split_and!; [apply at_pos_0; [done | lia] | done |]. exists ls, ks1. subst ks. done.
Qed.

End Iterate.
