(* ===== verification/PvbufCopy.v ===== *)
(** * Packet vectors: the data of a packet

    The checksum and the copies work on the bytes of the buffers of a packet, one
    buffer after the other. *)

From stdpp Require Import base list gmap numbers.
From S2P Require Import Prelude BitmapWord BitmapWordSpec Memory Bytes Checksum Paddr Pvbuf PvbufEdit PvbufPop PvbufIter PvbufMap PvbufRep PvbufInv PvbufRead.

(** ** Data *)

Definition leaf_data (c : mgr_conf) (m : memory) (l : leaf) : option (list Z) :=
  a ← leaf_addr c l;
  if a + leaf_len l <=? 2 ^ 64 then match mem_bytes (Z.to_nat (leaf_len l)) m a with Done b => Some b | _ => None end else None.

Fixpoint pkt_data (c : mgr_conf) (m : memory) (ls : list leaf) : option (list Z) :=
  match ls with
  | [] => Some []
  | l :: ls => b ← leaf_data c m l; r ← pkt_data c m ls; Some (b ++ r)
  end.

Lemma pkt_data_cons c m l ls bs :
  pkt_data c m (l :: ls) = Some bs <-> exists b r, leaf_data c m l = Some b /\ pkt_data c m ls = Some r /\ bs = b ++ r.
Proof.
  cbn [pkt_data]. split.
  - intros H. apply bind_Some in H as (b & Hb & H). apply bind_Some in H as (r & Hr & [= <-]). eauto.
  - intros (b & r & -> & -> & ->). done.
Qed.

Lemma pkt_data_addr c m ls bs : pkt_data c m ls = Some bs -> Forall (fun l => is_Some (leaf_addr c l)) ls.
Proof.
  revert bs. induction ls as [| l ls IH]; intros bs H; [constructor |]. apply pkt_data_cons in H as (b & r & Hb & Hr & _).
  constructor; [| by eapply IH]. unfold leaf_data in Hb. apply bind_Some in Hb as (a & -> & _). eauto.
Qed.

Lemma mem_bytes_length n : forall m a b, mem_bytes n m a = Done b -> length b = n.
Proof.
  induction n as [| n IH]; intros m a b H; cbn in H; [by injection H as <- |]. destruct (m !! a); [| done]. cbn in H.
  destruct (mem_bytes n m (a + 1)) as [r | |] eqn:E; cbn in H; try done; injection H as <-. cbn. f_equal. by eapply IH.
Qed.

Lemma mem_bytes_drop n k : forall m a b, mem_bytes n m a = Done b -> (k <= n)%nat -> mem_bytes (n - k) m (a + Z.of_nat k) = Done (drop k b).
Proof.
  revert n. induction k as [| k IH]; intros n m a b H Hk; [by rewrite Nat.sub_0_r, Z.add_0_r |].
  destruct n as [| n]; [lia |]. cbn in H. destruct (m !! a); [| done]. cbn in H.
  destruct (mem_bytes n m (a + 1)) as [r | |] eqn:E; cbn in H; try done; injection H as <-. cbn [drop Nat.sub].
  replace (a + Z.of_nat (S k)) with (a + 1 + Z.of_nat k) by lia. apply IH; [done | lia].
Qed.

Lemma mem_bytes_take n k : forall m a b, mem_bytes n m a = Done b -> (k <= n)%nat -> mem_bytes k m a = Done (take k b).
Proof.
  revert n. induction k as [| k IH]; intros n m a b H Hk; [done |].
  destruct n as [| n]; [lia |]. cbn in H. destruct (m !! a) as [z |] eqn:Ez; [| done]. cbn in H.
  destruct (mem_bytes n m (a + 1)) as [r | |] eqn:E; cbn in H; try done; injection H as <-. cbn. rewrite Ez. cbn. rewrite (IH n m (a + 1) r) by (done || lia). done.
Qed.

Lemma leaf_data_inv c m l b a :
  leaf_data c m l = Some b -> leaf_addr c l = Some a ->
  mem_bytes (Z.to_nat (leaf_len l)) m a = Done b /\ Z.of_nat (length b) = leaf_len l /\ a + leaf_len l <= 2 ^ 64 /\ 0 <= a.
Proof.
  unfold leaf_data. intros H Ha. rewrite Ha in H. cbn in H. destruct (Z.leb_spec (a + leaf_len l) (2 ^ 64)); [| done].
  destruct (mem_bytes _ m a) as [b' | |] eqn:E; simplify_eq. split_and!; [done | | done |].
  - apply mem_bytes_length in E. pose proof (leaf_len_nonneg l). lia.
  - unfold leaf_addr in Ha. destruct (ptype (fst l)); [done | | | |]; apply bind_Some in Ha as (x & _ & [= <-]); apply Z.mod_pos_bound; lia.
Qed.

(** What is left of a buffer after skipping. *)
Lemma skip_offset_ok n m a b o :
  mem_bytes n m a = Done b -> 0 <= o -> 0 <= a -> a + Z.of_nat n <= 2 ^ 64 ->
  match skip_offset o a (Z.of_nat n) with
  | (None, o') => drop (Z.to_nat o) b = [] /\ o' = o - Z.of_nat n /\ 0 <= o' /\ 0 < o
  | (Some (a', n'), o') => o' = 0 /\ o <= Z.of_nat n /\ n' = Z.of_nat (length (drop (Z.to_nat o) b)) /\ 0 <= n' /\
      mem_bytes (Z.to_nat n') m a' = Done (drop (Z.to_nat o) b) /\ a' = a + o
  end.
Proof.
  intros H Ho Ha Hn. pose proof (mem_bytes_length _ _ _ _ H) as Hl. unfold skip_offset. destruct (Z.eqb_spec o 0) as [-> |].
  - change (Z.to_nat 0) with 0%nat. rewrite drop_0, Nat2Z.id. split_and!; (done || lia).
  - destruct (Z.leb_spec (Z.of_nat n) o).
    + split_and!; [| lia | lia | lia]. apply drop_ge. lia.
    + rewrite length_drop. unfold u64. rewrite Z.mod_small by lia. split_and!; try lia.
      rewrite <- (mem_bytes_drop n (Z.to_nat o) m a b) by (done || lia). f_equal; lia.
Qed.

(** ** Checksum *)

(** Ones' complement addition of two 16-bit values. *)
Lemma add16_small x y : 0 <= x <= 0xffff -> 0 <= y <= 0xffff -> xdp2_checksum_add16 x y = norm 0xffff (x + y).
Proof.
  intros Hx Hy. unfold xdp2_checksum_add16, __xdp2_checksum_add16. change 0xffff with (Z.ones 16).
  rewrite !Z.land_ones, (Z.mod_small x) by lia. unfold u32. rewrite (Z.mod_small (x + y)) by lia.
  rewrite Z.shiftr_div_pow2, land_high by (try done; unfold is_u64; lia).
  rewrite (Z.mod_small x) by lia. rewrite Z.sub_diag, Z.lor_0_l.
  change (Z.ones 16) with 65535. change (2 ^ 16) with 65536. change (2 ^ 32) with 4294967296. unfold norm.
  destruct (Z.eqb_spec (x + y) 0) as [-> |]; [done |]. destruct (Z_lt_ge_dec (x + y) 65536) as [Hc | Hc].
  - rewrite (Z.div_small (x + y)), Z.add_0_r by lia. rewrite (Z.mod_small (x + y) 4294967296), (Z.mod_small (x + y)), (Z.mod_small (x + y - 1)); lia.
  - assert ((x + y) / 65536 = 1) as -> by (symmetry; apply Z.div_unique with (x + y - 65536); lia).
    rewrite (Z.mod_small (x + y + 1)) by lia. rewrite <- (Z.mod_unique (x + y + 1) 65536 1 (x + y - 65535)) by lia.
    rewrite <- (Z.mod_unique (x + y - 1) 65535 1 (x + y - 65536)) by lia. lia.
Qed.

Lemma sum16_odd_snoc a x : Nat.Odd (length a) -> sum16 (a ++ [x]) = sum16 a + 2 ^ 8 * x.
Proof.
  induction a as [a IH] using (induction_ltof1 _ (@length Z)). intros [n Hn].
  destruct a as [| b0 [| b1 a]]; [cbn in Hn; lia | cbn; lia |]. cbn [app sum16].
  rewrite IH; [lia | unfold ltof; cbn; lia |]. exists (n - 1)%nat. cbn in Hn. lia.
Qed.

(** The sum of the bytes seen so far, and whether their number is odd. *)
Definition sum_state (done : list Z) (total : Z) (odd : bool) : Prop := total = checksum_ref done /\ odd = Nat.odd (length done).

(** The checksum of another buffer is added to the sum. *)
Definition add_buffer (total : Z) (odd : bool) (b : ptr) (len : Z) : outcome (Z * bool) :=
  '(total, len, b, odd) ←
    (if odd && negb (len =? 0) then
       x ← ld8 b 0; mret (xdp2_checksum_add16 total (u16 (Z.shiftl x 8)), len - 1, padd b 1, false)
     else mret (total, len, b, odd));
  csum ← __xdp2_checksum_compute b len;
  mret (xdp2_checksum_add16 total csum, if Z.odd len then true else odd).

Lemma checksum_ref_range bs : 0 <= checksum_ref bs <= 0xffff.
Proof. by apply norm_range. Qed.

Lemma checksum_ref_even a b :
  Forall is_u8 (a ++ b) -> Nat.Even (length a) -> xdp2_checksum_add16 (checksum_ref a) (checksum_ref b) = checksum_ref (a ++ b).
Proof.
  intros [Ha Hb]%Forall_app He. rewrite add16_small by apply checksum_ref_range. unfold checksum_ref.
  rewrite sum16_app by done. apply norm_add; [done | by apply sum16_range ..].
Qed.

Lemma checksum_ref_byte a x :
  Forall is_u8 (a ++ [x]) -> Nat.Odd (length a) -> xdp2_checksum_add16 (checksum_ref a) (u16 (Z.shiftl x 8)) = checksum_ref (a ++ [x]).
Proof.
  intros [Ha Hx]%Forall_app Ho. apply Forall_cons_1 in Hx as [Hx _]. unfold is_u8 in Hx. rewrite Z.shiftl_mul_pow2 by lia. unfold u16. rewrite Z.mod_small by lia.
  rewrite add16_small by (apply checksum_ref_range || lia). unfold checksum_ref. rewrite sum16_odd_snoc by done.
  rewrite <- (norm_small 0xffff (x * 2 ^ 8)) by lia. rewrite norm_add by (done || lia || by apply sum16_range). f_equal. lia.
Qed.

Lemma Z_odd_nat n : Z.odd (Z.of_nat n) = Nat.odd n.
Proof.
  induction n as [| n IH]; [done |]. rewrite Nat2Z.inj_succ, Z.odd_succ, Nat.odd_succ, <- Z.negb_odd, <- Nat.negb_odd. by rewrite IH.
Qed.

Lemma odd_app (a b : list Z) : Nat.odd (length (a ++ b)) = xorb (Nat.odd (length a)) (Nat.odd (length b)).
Proof. by rewrite length_app, Nat.odd_add. Qed.

Lemma add_buffer_ok d bs total odd :
  sum_state d total odd -> Forall is_u8 (d ++ bs) -> Z.of_nat (length bs) < 2 ^ 32 ->
  exists total' odd', add_buffer total odd (Ptr bs 0) (Z.of_nat (length bs)) = Done (total', odd') /\ sum_state (d ++ bs) total' odd'.
Proof.
  intros [-> ->] Hu Hl. unfold add_buffer, sum_state. pose proof Hu as [Hd Hb]%Forall_app.
  destruct (Nat.odd (length d)) eqn:Ho; cbn [andb].
  2: { cbn [mbind outcome_bind mret outcome_ret]. rewrite checksum_compute_norm by (done || apply bytes_at_self). eexists _, _. split; [done |]. split.
       - apply checksum_ref_even; [done |]. apply Nat.even_spec. by rewrite <- Nat.negb_odd, Ho.
       - rewrite Z_odd_nat, odd_app, Ho. by destruct (Nat.odd (length bs)). }
  destruct bs as [| x bs].
  { cbn [length Z.of_nat Z.eqb negb mbind outcome_bind mret outcome_ret].
    rewrite app_nil_r. eexists _, _. split; [done |].
    split; [| by rewrite Ho].
    change (__xdp2_checksum_fold64 0) with 0. rewrite add16_small by (apply checksum_ref_range || lia).
    rewrite Z.add_0_r. apply norm_small, checksum_ref_range. }
  destruct (Z.eqb_spec (Z.of_nat (length (x :: bs))) 0) as [E | _]; [cbn in E; lia |]. cbn [negb].
  rewrite (bytes_at_ld8 _ (x :: bs) 0 x) by (done || apply bytes_at_self). cbn [mbind outcome_bind mret outcome_ret].
  replace (Z.of_nat (length (x :: bs)) - 1) with (Z.of_nat (length bs)) by (cbn [length]; lia).
  apply Nat.odd_spec in Ho. rewrite cons_middle, app_assoc in Hu |- *. pose proof Hu as [Hu1 _]%Forall_app.
  rewrite checksum_compute_norm; [| by apply Forall_cons_1 in Hb as [_ Hb] | apply (bytes_at_cons _ x), bytes_at_self | cbn [length] in Hl; lia].
  eexists _, _. split; [done |]. rewrite checksum_ref_byte by done. split.
  - apply checksum_ref_even; [done |]. rewrite length_app. destruct Ho as [n Hn]. exists (n + 1)%nat. cbn. lia.
  - rewrite Z_odd_nat, !odd_app. apply Nat.odd_spec in Ho. rewrite Ho. cbn. by destruct (Nat.odd (length bs)).
Qed.

Lemma iterate_checksum_eq ist data len bs s :
  match skip_offset (ick_offset ist) data len with
  | (Some (a, n), _) => ick_len ist = 0 -> 0 <= n -> mem_bytes (Z.to_nat n) (pb_mem (mpb s)) a = Done bs ->
      __xdp2_pvbuf_iterate_checksum ist data len s =
        match add_buffer (csum_total ist) (odd_byte ist) (Ptr bs 0) n with
        | Done (t, odd) => Done (s, (IterChecksum 0 0 t odd, true))
        | Crash => Crash
        | NoFuel => NoFuel
        end
  | (None, o) => __xdp2_pvbuf_iterate_checksum ist data len s = Done (s, (IterChecksum (ick_len ist) o (csum_total ist) (odd_byte ist), true))
  end.
Proof.
  unfold __xdp2_pvbuf_iterate_checksum. assert (forall a n o, skip_offset (ick_offset ist) data len = (Some (a, n), o) -> o = 0) as Ho.
  { unfold skip_offset. intros a n o. repeat case_match; naive_solver. }
  destruct (skip_offset (ick_offset ist) data len) as [[[a n] |] o] eqn:E; [| done]. rewrite (Ho a n o eq_refl). intros -> Hn Hb.
  unfold cap_len, buf_at, mbind, pvm_bind, gets. cbn [Z.eqb]. rewrite Hb. cbn [lift]. unfold add_buffer, mret, pvm_ret.
  destruct (odd_byte ist && negb (n =? 0)).
  - destruct (ld8 (Ptr bs 0) 0); [| done..]. cbn. destruct (__xdp2_checksum_compute _ _); done.
  - cbn. destruct (__xdp2_checksum_compute _ _); done.
Qed.

Lemma drop_app_split o (b r : list Z) :
  0 <= o -> drop (Z.to_nat o) (b ++ r) = drop (Z.to_nat o) b ++ drop (Z.to_nat (o - Z.of_nat (length b))) r.
Proof. intros Ho. rewrite drop_app. do 2 f_equal. lia. Qed.

(** The buffers [l] are left; the bytes seen and those left are [all]. *)
Definition csum_inv (c : mgr_conf) (m : memory) (all : list Z) (l : list leaf) (ist : iter_checksum) : Prop :=
  ick_len ist = 0 /\ 0 <= ick_offset ist /\
  exists seen r, pkt_data c m l = Some r /\ all = seen ++ drop (Z.to_nat (ick_offset ist)) r /\
    (0 < ick_offset ist -> seen = []) /\ sum_state seen (csum_total ist) (odd_byte ist).

Lemma csum_step all l ls ist a s :
  Forall is_u8 all -> leaf_addr (mconf s) l = Some a -> csum_inv (mconf s) (pb_mem (mpb s)) all (l :: ls) ist ->
  wps (__xdp2_pvbuf_iterate_checksum ist a (leaf_len l)) s (fun r s' =>
    s' = s /\ snd r = true /\ csum_inv (mconf s) (pb_mem (mpb s)) all ls (fst r)).
Proof.
  intros Hu Ha (Hz & Hoff & seen & r & Hr & Hg & Hn & Hst).
  apply pkt_data_cons in Hr as (b & r' & Hb & Hr' & ->). destruct (leaf_data_inv _ _ _ _ _ Hb Ha) as (Hm & Hl & Hsp & Ha0).
  pose proof (skip_offset_ok _ _ _ _ (ick_offset ist) Hm Hoff Ha0 ltac:(lia)) as Hsk.
  pose proof (iterate_checksum_eq ist a (leaf_len l) (drop (Z.to_nat (ick_offset ist)) b) s) as Hev.
  rewrite Z2Nat.id in Hsk by apply leaf_len_nonneg. rewrite drop_app_split in Hg by done. set (x := drop (Z.to_nat (ick_offset ist)) b) in *.
  destruct (skip_offset (ick_offset ist) a (leaf_len l)) as [[[a' n'] |] o'].
  - destruct Hsk as (-> & Hle & Hn' & Hn0 & Hmb & _). replace (Z.to_nat (ick_offset ist - Z.of_nat (length b))) with 0%nat in Hg by lia.
    rewrite drop_0, app_assoc in Hg. rewrite Hg in Hu. apply Forall_app in Hu as [Hu _].
    assert (Z.of_nat (length x) < 2 ^ 32) as Hx by (pose proof (leaf_len_u32 l); unfold x; rewrite length_drop; lia).
    destruct (add_buffer_ok seen x (csum_total ist) (odd_byte ist) Hst Hu Hx) as (t & o & Et & Hst').
    rewrite <- Hn' in Et. rewrite Et in Hev. eapply wps_run; [by apply Hev |]. split_and!; [done | done |].
    split_and!; [done | done |]. exists (seen ++ x), r'. split_and!; [done | done | | done]. cbn. lia.
  - destruct Hsk as (Hd0 & -> & Hpos & Ho). eapply wps_run; [apply Hev |]. split_and!; [done | done |].
    split_and!; [done | done |]. exists seen, r'. split_and!; [done | | by intros; apply Hn | done].
    cbn [ick_offset]. by rewrite Hg, Hd0, Hl.
Qed.

(** C11: the checksum of a packet. In a manager whose pvbufs have the sizes 0 to 7,
    so that they have at most 63 iovecs ([pool_ok]), when no pvbuf of a packet has
    a pbuf or a short address in its last iovec ([lasts_ok]) and its buffers hold
    the bytes [bs], [__xdp2_pvbuf_checksum] without a limit is the checksum of the
    bytes from the offset on, however the packet is divided into buffers of even
    and odd lengths. *)
Theorem pvbuf_checksum_ref fuel d p ls ks offset bs s :
  pv_inv s -> rep (heap s) d p ls ks -> (d < fuel)%nat -> lasts_ok (heap s) ks -> 0 <= offset ->
  pkt_data (mconf s) (pb_mem (mpb s)) ls = Some bs -> Forall is_u8 bs ->
  __xdp2_pvbuf_checksum fuel p 0 offset s = Done (s, checksum_ref (drop (Z.to_nat offset) bs)).
Proof.
  intros Hinv Hrep Hd Hlo Ho Hdata Hu. set (all := drop (Z.to_nat offset) bs).
  assert (Forall is_u8 all) as Hua by by apply Forall_drop.
  set (J := fun l ist s' => s' = s /\ csum_inv (mconf s) (pb_mem (mpb s)) all l ist).
  assert (wps (__xdp2_pvbuf_iterate fuel p __xdp2_pvbuf_iterate_checksum (IterChecksum 0 offset 0 false)) s
            (it_post J (fun _ _ => False) (mpv s) [])) as Hit.
  { apply (iterate_wps _ _ _ (mconf s) (mpv s)) with (d := d) (ls := ls) (ks := ks); try done.
    - by intros l x s' [-> _].
    - intros l l' ist s' a Ha [-> HJ]. eapply wps_mono; [by apply (csum_step all l l') |].
      by intros [y cont] s' (-> & [= ->] & HJ').
    - by eapply pkt_data_addr.
    - rewrite app_nil_r. split; [done |]. split_and!; [done | done |]. exists [], bs. by split_and!. }
  unfold __xdp2_pvbuf_checksum. apply wps_done in Hit as (s' & [ist b] & E & Hv & HQ). cbn [fst snd] in HQ.
  destruct b; [| done]. destruct HQ as (-> & _ & _ & seen & r & [= <-] & Hg & _ & [Ht _]).
  unfold mbind, pvm_bind. rewrite E. unfold mret, pvm_ret. cbn [fst]. rewrite drop_nil, app_nil_r in Hg. rewrite Ht, <- Hg. do 2 f_equal.
  pose proof (checksum_ref_range all). rewrite fold64_norm by (unfold is_u64; lia). by apply norm_small.
Qed.

(** ** Copying the data out *)

Lemma mem_write_app l1 l2 : forall m a m',
  mem_write (l1 ++ l2) m a = Done m' -> exists m1, mem_write l1 m a = Done m1 /\ mem_write l2 m1 (a + Z.of_nat (length l1)) = Done m'.
Proof.
  induction l1 as [| b l1 IH]; intros m a m' H; [exists m; by rewrite Z.add_0_r |]. cbn in H |- *. destruct (m !! a); [| done]. cbn in H |- *.
  destruct (IH _ _ _ H) as (m1 & H1 & H2). exists m1. split; [done |]. replace (a + Z.of_nat (S (length l1))) with (a + 1 + Z.of_nat (length l1)) by lia. done.
Qed.

Lemma mem_write_outside l : forall m a m', mem_write l m a = Done m' -> same_outside m m' a (Z.of_nat (length l)).
Proof.
  induction l as [| b l IH]; intros m a m' H; cbn in H; [by injection H as <- |]. destruct (m !! a); [| done]. cbn in H.
  intros i Hi. cbn [length] in Hi. rewrite (IH _ _ _ H) by lia. apply lookup_insert_ne. lia.
Qed.

Lemma mem_bytes_ext n : forall m m' a, (forall i, a <= i < a + Z.of_nat n -> m' !! i = m !! i) -> mem_bytes n m' a = mem_bytes n m a.
Proof.
  induction n as [| n IH]; intros m m' a H; [done |]. cbn. rewrite (H a) by lia. rewrite (IH m m'); [done |]. intros i Hi. apply H. lia.
Qed.

(** No limit, or the first [n] bytes. *)
Definition cap (n : Z) (l : list Z) : list Z := if n =? 0 then l else take (Z.to_nat n) l.

Lemma cap_app n x r :
  0 <= n -> cap n (x ++ r) = cap n x ++ (if n =? 0 then r else take (Z.to_nat (n - Z.of_nat (length x))) r).
Proof. intros Hn. unfold cap. destruct (n =? 0); [done |]. rewrite take_app. do 2 f_equal. lia. Qed.

Lemma cap_len_length n (x : list Z) : 0 <= n -> cap_len n (Z.of_nat (length x)) = Z.of_nat (length (cap n x)).
Proof. intros Hn. unfold cap_len, cap. destruct (n =? 0); [done |]. rewrite length_take. lia. Qed.

Lemma cap_prefix n x : take (length (cap n x)) x = cap n x.
Proof.
  unfold cap. destruct (n =? 0); [by apply take_ge |]. rewrite length_take. destruct (Nat.le_gt_cases (Z.to_nat n) (length x)).
  - by rewrite Nat.min_l.
  - by rewrite Nat.min_r, !take_ge by lia.
Qed.

Lemma cap_nil n : cap n [] = [].
Proof. unfold cap. by destruct (n =? 0); rewrite ?take_nil. Qed.

Section CopyOut.
Context (s0 : xdp2_pvbuf_mgr) (D len : Z) (all : list Z) (m' : memory).
Context (HD : 0 <= D) (Hend : D + Z.of_nat (length all) < 2 ^ 64) (Hlen : 0 <= len < 2 ^ 64).
Context (Hw : mem_write all (pb_mem (mpb s0)) D = Done m').

(** The state after [seen] was copied. *)
Definition copied (seen : list Z) (s : xdp2_pvbuf_mgr) : Prop :=
  exists m, mem_write seen (pb_mem (mpb s0)) D = Done m /\ s = set_mpb (set_mem m (mpb s0)) s0.

Definition copy_inv (l : list leaf) (ist : iter_copy) (s : xdp2_pvbuf_mgr) : Prop :=
  exists seen r, copied seen s /\ pkt_data (mconf s0) (pb_mem (mpb s0)) l = Some r /\ 0 <= ic_offset ist /\
    all = seen ++ cap (ic_len ist) (drop (Z.to_nat (ic_offset ist)) r) /\ ic_data ist = D + Z.of_nat (length seen) /\
    (if len =? 0 then ic_len ist = 0 else 0 < ic_len ist /\ ic_len ist = len - Z.of_nat (length seen)).

(** The buffer does not overlap with where the data goes. *)
Definition apart (l : leaf) : Prop := forall a, leaf_addr (mconf s0) l = Some a -> a + leaf_len l <= D \/ D + Z.of_nat (length all) <= a.

(** Copying the next part of the data. *)
Lemma copied_more seen x rest a n m0 s :
  m0 = pb_mem (mpb s0) -> copied seen s -> all = (seen ++ x) ++ rest -> n = Z.of_nat (length x) -> mem_bytes (length x) m0 a = Done x ->
  (a + n <= D \/ D + Z.of_nat (length all) <= a) ->
  exists s', pb_memcpy (D + Z.of_nat (length seen)) a n s = Done (s', tt) /\ copied (seen ++ x) s'.
Proof using Hw.
  intros -> (m & Hm & ->) Hall -> Hb Hap. rewrite Hall, <- app_assoc in Hw. destruct (mem_write_app _ _ _ _ _ Hw) as (m1 & Hm1 & Hw1).
  rewrite Hm in Hm1. injection Hm1 as <-. destruct (mem_write_app _ _ _ _ _ Hw1) as (m2 & Hm2 & _).
  exists (set_mpb (set_mem m2 (mpb s0)) s0). split.
  - unfold pb_memcpy, mbind, pvm_bind, gets. cbn [mpb set_mpb pb_mem set_mem]. rewrite Nat2Z.id.
    rewrite (mem_bytes_ext _ (pb_mem (mpb s0)) m), Hb.
    + cbn [lift]. rewrite Hm2. done.
    + intros i Hi. apply (mem_write_outside _ _ _ _ Hm). rewrite Hall, !length_app in Hap. lia.
  - exists m2. split; [| done]. clear - Hm Hm2. revert Hm Hm2. generalize (pb_mem (mpb s0)) D.
    induction seen as [| b seen IH]; intros m0 a Hm Hm2; cbn in Hm |- *.
    + injection Hm as ->. by rewrite Z.add_0_r in Hm2.
    + destruct (m0 !! a); [| done]. cbn in Hm |- *. apply IH; [done |]. cbn in Hm2. by replace (a + 1 + Z.of_nat (length seen)) with (a + Z.of_nat (S (length seen))) by lia.
Qed.

Lemma copy_step l ls ist a s :
  leaf_addr (mconf s0) l = Some a -> apart l -> copy_inv (l :: ls) ist s ->
  wps (__xdp2_pvbuf_iterate_copy_to_data ist a (leaf_len l)) s (fun r s' =>
    mpv s' = mpv s0 /\ if snd r then copy_inv ls (fst r) s' else copied all s' /\ ic_len (fst r) = 0 /\ len <> 0 /\ Z.of_nat (length all) = len).
Proof using HD Hend Hlen Hw.
  intros Ha Hap (seen & r & Hc & Hr & Hoff & Hall & Hdat & Hl).
  apply pkt_data_cons in Hr as (b & r' & Hb & Hr' & ->). destruct (leaf_data_inv _ _ _ _ _ Hb Ha) as (Hm & Hbl & Hsp & Ha0).
  pose proof (skip_offset_ok _ _ _ _ (ic_offset ist) Hm Hoff Ha0 ltac:(lia)) as Hsk.
  rewrite Z2Nat.id in Hsk by apply leaf_len_nonneg. rewrite drop_app_split in Hall by done.
  unfold __xdp2_pvbuf_iterate_copy_to_data, iterate_copy. set (x := drop (Z.to_nat (ic_offset ist)) b) in *.
  assert (0 <= ic_len ist) as Hil by (destruct (len =? 0); lia).
  destruct (skip_offset (ic_offset ist) a (leaf_len l)) as [[[a' n'] |] o'] eqn:Esk.
  - destruct Hsk as (-> & Hle & Hn' & Hn0 & Hmb & Ha'). replace (Z.to_nat (ic_offset ist - Z.of_nat (length b))) with 0%nat in Hall by lia.
    rewrite drop_0, cap_app, app_assoc in Hall by done. rewrite Hn', cap_len_length by done. rewrite Hdat.
    set (y := cap (ic_len ist) x) in *.
    assert (length y <= length x)%nat as Hyx by (unfold y, cap; destruct (_ =? 0); rewrite ?length_take; lia).
    assert (mem_bytes (length y) (pb_mem (mpb s0)) a' = Done y) as Hy.
    { rewrite Hn', Nat2Z.id in Hmb. pose proof (mem_bytes_take _ (length y) _ _ _ Hmb Hyx) as ->. f_equal.
      apply cap_prefix. }
    destruct (copied_more seen y _ a' _ _ s eq_refl Hc Hall eq_refl Hy) as (s' & Ecp & Hc').
    { destruct (Hap a Ha); [left | right]; unfold x in *; rewrite ?length_drop in *; lia. }
    eapply wps_step; [exact Ecp |]. apply wps_ret. 
    assert (Z.of_nat (length seen + length y) <= Z.of_nat (length all)) as Hsy by (rewrite Hall, !length_app; lia).
    unfold u64. rewrite (Z.mod_small (D + _ + _)) by lia.
    assert (mpv s' = mpv s0) as Hv by (by destruct Hc' as (m & _ & ->)).
    destruct (Z.eqb_spec (ic_len ist) 0) as [E0 | E0]; cbn [fst snd].
    + split; [done |]. exists (seen ++ y), r'. rewrite length_app. split_and!; try done; cbn; [lia |]. by destruct (len =? 0); [| lia].
    + assert (length y = Nat.min (Z.to_nat (ic_len ist)) (length x)) as Hly by (unfold y, cap; destruct (Z.eqb_spec (ic_len ist) 0); [done |]; apply length_take).
      split; [done |]. destruct (Z.eqb_spec len 0) as [| Hlz]; [lia |]. destruct (Z.eqb_spec (ic_len ist - Z.of_nat (length y)) 0) as [E1 | E1]; cbn [negb].
      * replace (Z.to_nat (ic_len ist - Z.of_nat (length x))) with 0%nat in Hall by lia. rewrite take_0, app_nil_r in Hall. rewrite <- Hall in Hc'.
        split_and!; [done | done | done |]. rewrite Hall, length_app. lia.
      * exists (seen ++ y), r'. rewrite length_app. split_and!; try done; cbn; [| lia |].
        -- rewrite Hall. f_equal. unfold cap. destruct (Z.eqb_spec (ic_len ist - Z.of_nat (length y)) 0); [done |]. f_equal. lia.
        -- destruct (Z.eqb_spec len 0); lia.
  - destruct Hsk as (Hd0 & -> & Hpos & Ho). apply wps_ret. cbn [fst snd]. split; [by destruct Hc as (m & _ & ->) |].
    exists seen, r'. split_and!; try done. cbn. by rewrite Hall, Hd0, Hbl.
Qed.

End CopyOut.

(** C12: copying a packet out. In a manager whose pvbufs have the sizes 0 to 7, so
    that they have at most 63 iovecs ([pool_ok]), when no pvbuf of a packet has a
    pbuf or a short address in its last iovec ([lasts_ok]),
    [__xdp2_pvbuf_copy_pvbuf_to_data] writes the bytes of the packet from the
    offset on, at most [len] of them unless [len] is zero, to memory apart from the
    buffers and changes nothing else. It returns how many it wrote when there is a
    limit, and 0 when [len] is zero. *)
Theorem copy_pvbuf_to_data_ok fuel d p ls ks D len offset bs m' s :
  pv_inv s -> rep (heap s) d p ls ks -> (d < fuel)%nat -> lasts_ok (heap s) ks -> 0 <= offset -> 0 <= len < 2 ^ 64 ->
  pkt_data (mconf s) (pb_mem (mpb s)) ls = Some bs ->
  0 <= D -> D + Z.of_nat (length (cap len (drop (Z.to_nat offset) bs))) < 2 ^ 64 ->
  Forall (apart s D (cap len (drop (Z.to_nat offset) bs))) ls ->
  mem_write (cap len (drop (Z.to_nat offset) bs)) (pb_mem (mpb s)) D = Done m' ->
  __xdp2_pvbuf_copy_pvbuf_to_data fuel p D len offset s =
    Done (set_mpb (set_mem m' (mpb s)) s, if len =? 0 then 0 else Z.of_nat (length (cap len (drop (Z.to_nat offset) bs)))).
Proof.
  set (all := cap len (drop (Z.to_nat offset) bs)). intros Hinv Hrep Hd Hlo Ho Hlen Hdata HD Hend Hap Hw.
  set (J := fun l ist s' => Forall (apart s D all) l /\ copy_inv s D len all l ist s').
  assert (wps (__xdp2_pvbuf_iterate fuel p __xdp2_pvbuf_iterate_copy_to_data (IterCopy D len offset)) s
            (it_post J (fun ist s' => copied s D all s' /\ ic_len ist = 0 /\ len <> 0 /\ Z.of_nat (length all) = len) (mpv s) [])) as Hit.
  { apply (iterate_wps _ _ _ (mconf s) (mpv s)) with (d := d) (ls := ls) (ks := ks); try done.
    - by intros l x s' (_ & seen & r & (m & _ & ->) & _).
    - intros l l' ist s' a Ha [Hap' HJ]. apply Forall_cons_1 in Hap' as [Hl Hl'].
      eapply wps_mono; [by apply (copy_step s D len all m' HD Hend Hlen Hw l l') |].
      intros [y [|]] s'' [Hv H]; cbn [fst snd] in *; [| done]. done.
    - by eapply pkt_data_addr.
    - rewrite app_nil_r. split; [done |]. exists [], bs. split_and!; try done; cbn.
      + exists (pb_mem (mpb s)). split; [done |]. by destruct s as [? ? []].
      + lia.
      + destruct (Z.eqb_spec len 0); lia. }
  unfold __xdp2_pvbuf_copy_pvbuf_to_data. apply wps_done in Hit as (s' & [ist b] & E & Hv & HQ). cbn [fst snd] in HQ.
  unfold mbind, pvm_bind. rewrite E. unfold mret, pvm_ret. cbn [fst]. unfold u64.
  destruct b.
  - destruct HQ as (_ & seen & r & (m & Hm & ->) & [= <-] & _ & Hall & _ & Hl).
    rewrite drop_nil, cap_nil, app_nil_r in Hall. rewrite <- Hall in *.
    rewrite Hw in Hm. injection Hm as <-. do 2 f_equal. destruct (Z.eqb_spec len 0) as [Hl0 | Hl0].
    + by rewrite Hl0, Hl.
    + rewrite Z.mod_small; lia.
  - destruct HQ as ((m & Hm & ->) & Hi & Hl0 & Hle). rewrite Hw in Hm. injection Hm as <-. do 2 f_equal.
    destruct (Z.eqb_spec len 0); [done |]. rewrite Hi, Z.mod_small; lia.
Qed.
