(* ===== verification/PvbufSlots.v ===== *)
(** * Packet vectors: free slots

    Moving iovecs together keeps the buffers of a pvbuf. A slot that is found is
    before the first or behind the last iovec in use. *)

From stdpp Require Import base list gmap numbers.
From S2P Require Import Prelude BitmapWord BitmapWordSpec Memory Paddr Pvbuf PvbufEdit PvbufMap PvbufRep PvbufInv PvbufRead.

(** ** Moving an iovec *)

Lemma map_update_ok f k i m m' l s :
  heap s !! k = Some (Pvbuf m l) -> i < 64 -> f m = Done m' ->
  map_update f k i s = Done (put_heap (<[k := Pvbuf m' l]> (heap s)) s, tt).
Proof.
  intros Hk Hi Hf. unfold map_update, mbind, pvm_bind, massert, lift, XDP2_ASSERT, ld_pvbuf. destruct (Z.ltb_spec i 64); [| lia].
  cbn [mret outcome_ret]. unfold heap in Hk. rewrite Hk. cbn [iovec_map iovec]. by rewrite Hf.
Qed.

Lemma put_put_heap h h' s : put_heap h' (put_heap h s) = put_heap h' s.
Proof. done. Qed.

Lemma insert_middle (pre : list Z) x y post : <[length pre := y]> (pre ++ x :: post) = pre ++ y :: post.
Proof. induction pre as [| z pre IH]; [done |]. cbn. by f_equal. Qed.

Lemma move_ent_ok k ws old new w s :
  heap s !! k = Some (mk ws) -> (length ws <= 64)%nat -> 0 <= old -> 0 <= new -> old <> new ->
  ws !! Z.to_nat old = Some w -> w <> 0 -> ws !! Z.to_nat new = Some 0 ->
  xdp2_pvbuf_iovec_move_ent k old new s = Done (upd k (<[Z.to_nat new := w]> (<[Z.to_nat old := 0]> ws)) s, tt).
Proof.
  intros Hk Hl Ho Hn Hne Eo Hw En. pose proof (lookup_lt_Some _ _ _ Eo). pose proof (lookup_lt_Some _ _ _ En).
  unfold xdp2_pvbuf_iovec_move_ent. destruct (Z.eqb_spec old new); [done |]. unfold mbind, pvm_bind.
  rewrite (ld_iovec_ok s k ws Hk Hl new 0) by done. cbn [Z.eqb massert lift XDP2_ASSERT mret outcome_ret].
  rewrite (isset_map s k ws Hk Hl) by lia. unfold nn at 1. destruct (Z.ltb_spec new 0); [lia |]. rewrite En. cbn [Z.eqb negb massert lift XDP2_ASSERT mret outcome_ret].
  rewrite (ld_iovec_ok s k ws Hk Hl old w) by done. destruct (Z.eqb_spec w 0) as [| Hw']; [done |]. cbn [negb massert lift XDP2_ASSERT mret outcome_ret].
  rewrite (isset_map s k ws Hk Hl) by lia. unfold nn. destruct (Z.ltb_spec old 0); [lia |]. rewrite Eo.
  destruct (Z.eqb_spec w 0); [done |]. cbn [negb massert lift XDP2_ASSERT mret outcome_ret].
  rewrite (st_iovec_map s k ws Hl new w (map_of ws)) by (done || lia). unfold xdp2_pvbuf_iovec_clear_ent, mbind, pvm_bind.
  rewrite (st_iovec_map _ k (<[Z.to_nat new := w]> ws) ltac:(by rewrite length_insert) old 0 (map_of ws)); [| apply lookup_insert_eq | rewrite length_insert; lia].
  unfold xdp2_pvbuf_iovec_map_unset. erewrite map_update_ok; [| apply lookup_insert_eq | lia | by apply map_of_unset; [| lia]].
  unfold xdp2_pvbuf_iovec_map_set. erewrite map_update_ok; [| apply lookup_insert_eq | lia | apply map_of_set; rewrite ?length_insert; [done | lia | done]].
  unfold upd, heap. cbn. rewrite !put_put_heap, !insert_insert_eq. do 4 f_equal. unfold mk. f_equal. apply list_insert_insert_ne. lia.
Qed.

(** ** Moving all iovecs *)

Abbreviation nz := (filter (fun w : Z => w <> 0)).

Lemma used_nz ws : used ws = Z.of_nat (length (nz ws)).
Proof. done. Qed.

Lemma nz_length ws : (length (nz ws) <= length ws)%nat.
Proof. apply length_filter. Qed.

Lemma nz_app a b : nz (a ++ b) = nz a ++ nz b.
Proof. apply list.filter_app. Qed.

Lemma nz_zeros n : nz (replicate n 0) = [].
Proof. induction n as [| n IH]; [done |]. rewrite replicate_S, filter_cons_False by auto. exact IH. Qed.

Lemma segs_nz H d ws ls ks : segs H d ws ls ks -> segs H d (nz ws) ls ks.
Proof.
  induction 1 as [| d ws ls ks Hs IH | d w ws ls ks Hw Hs IH | d w1 w2 ws ls ks Hc Hs IH
                  | d w ws sub ls1 ls ks1 ks Hv Hk Hsub _ Hd Hs IH Hn Hdj].
  - apply segs_nil.
  - by rewrite filter_cons_False by auto.
  - rewrite filter_cons_True by (intros ->; by destruct not_buf_0). by apply segs_buf.
  - pose proof (proj1 (long_check _ _) Hc) as (H1 & _ & _ & _ & _ & _ & H2). apply nonzero_of in H2.
    rewrite !filter_cons_True by done. by apply segs_long.
  - rewrite filter_cons_True by (intros ->; done). by eapply segs_sub.
Qed.

Lemma replicate_end n : replicate n 0 ++ [0] = 0 :: replicate n 0.
Proof. by rewrite <- replicate_S_end. Qed.

(** The iovecs in use at the end, in their order. *)
Definition to_tail (ws : list Z) : list Z := replicate (length ws - length (nz ws)) 0 ++ nz ws.
Definition to_head (ws : list Z) : list Z := nz ws ++ replicate (length ws - length (nz ws)) 0.

Lemma to_tail_length ws : length (to_tail ws) = length ws.
Proof. unfold to_tail. rewrite length_app, length_replicate. pose proof (nz_length ws). lia. Qed.
Lemma to_head_length ws : length (to_head ws) = length ws.
Proof. unfold to_head. rewrite length_app, length_replicate. pose proof (nz_length ws). lia. Qed.

Lemma segs_to_tail H d ws ls ks : segs H d ws ls ks -> segs H d (to_tail ws) ls ks.
Proof. intros Hs. by apply segs_zeros, segs_nz. Qed.
Lemma segs_to_head H d ws ls ks : segs H d ws ls ks -> segs H d (to_head ws) ls ks.
Proof. intros Hs. by apply segs_zeros_end, segs_nz. Qed.

(** A move within zeros. *)
Lemma move_to_tail (pre sfx : list Z) w n :
  <[(length pre + S n)%nat := w]> (<[length pre := 0]> (pre ++ w :: replicate (S n) 0 ++ sfx)) = pre ++ replicate (S n) 0 ++ w :: sfx.
Proof.
  rewrite insert_middle. replace (length pre + S n)%nat with (length (pre ++ replicate (S n) 0)) by (rewrite length_app, length_replicate; done).
  replace (pre ++ 0 :: replicate (S n) 0 ++ sfx) with ((pre ++ replicate (S n) 0) ++ 0 :: sfx).
  - rewrite insert_middle. by rewrite <- app_assoc.
  - rewrite <- app_assoc. f_equal. rewrite (cons_middle 0 _ sfx), app_assoc, replicate_end. done.
Qed.

Lemma shift_to_tail_ok k ws s :
  heap s !! k = Some (mk ws) -> (0 < length ws <= 63)%nat ->
  wps (__xdp2_pvbuf_shift_pvbuf_iovecs_to_tail k (Z.of_nat (length ws))) s (fun _ s' => s' = upd k (to_tail ws) s).
Proof.
  intros Hk Hl. unfold __xdp2_pvbuf_shift_pvbuf_iovecs_to_tail. apply wps_bind.
  apply (wps_rev_foreach _ _ _ (fun (i : Z) (pre : list Z) (j : Z) s' => exists (n : nat) (sfx : list Z), 0 <= i /\ pre = take (Z.to_nat i) ws /\ sfx = nz (drop (Z.to_nat i) ws) /\
    s' = upd k (pre ++ replicate n 0 ++ sfx) s /\ length (pre ++ replicate n 0 ++ sfx) = length ws /\
    j = u32 (Z.of_nat (length pre + n) - 1) /\ i = Z.of_nat (length pre))); [| | | | done | done |].
  - intros i pre j s' (n & sfx & Hi & Hp & Hsf & -> & Hlen & Hj & Hip). exists (pre ++ replicate n 0 ++ sfx).
    rewrite heap_upd, lookup_insert_eq, Hlen. split_and!; [done | lia | lia | |].
    + rewrite <- Hlen, length_app. lia.
    + rewrite Hip, Nat2Z.id. apply take_app_length.
  - intros i pre j s' (n & sfx & Hi & Hp & Hsf & -> & Hlen & Hj & Hip). exists (S n), sfx. rewrite length_app in Hip. cbn [length] in Hip.
    assert (ws !! length pre = Some 0) as E0.
    { assert ((pre ++ [0]) !! length pre = Some 0) as E by by rewrite list_lookup_middle. rewrite Hp in E. by apply lookup_take_Some in E as [E _]. }
    assert (take (Z.to_nat (i - 1)) ws = pre) as Htk.
    { replace (Z.to_nat (i - 1)) with (length pre) by lia. rewrite <- (take_app_length pre [0]) at 2. rewrite Hp, take_take. f_equal. lia. }
    split_and!; [lia | done | | | | | lia].
    + rewrite Hsf. replace (Z.to_nat (i - 1)) with (length pre) by lia. rewrite (drop_S ws 0 (length pre)) by done.
      rewrite filter_cons_False by auto. do 2 f_equal. lia.
    + by rewrite <- app_assoc.
    + rewrite <- Hlen, !length_app. cbn. lia.
    + rewrite Hj, length_app. f_equal. cbn. lia.
  - intros i j s' (n & sfx & Hi & Hp & Hsf & -> & Hlen & Hj & Hip). apply wps_ret. cbn [length] in Hip. subst i. cbn [app] in *.
    rewrite drop_0 in Hsf. subst sfx. rewrite length_app, length_replicate in Hlen. unfold to_tail. do 3 f_equal. lia.
  - intros i w pre j s' Hw (n & sfx & Hi & Hp & Hsf & -> & Hlen & Hj & Hip).
    rewrite length_app in Hip, Hj. cbn [length] in Hip, Hj.
    assert (ws !! length pre = Some w) as E0.
    { assert ((pre ++ [w]) !! length pre = Some w) as E by by rewrite list_lookup_middle. rewrite Hp in E. by apply lookup_take_Some in E as [E _]. }
    assert (take (Z.to_nat i) ws = pre) as Htk.
    { replace (Z.to_nat i) with (length pre) by lia. rewrite <- (take_app_length pre [w]) at 2. rewrite Hp, take_take. f_equal. lia. }
    assert (w :: sfx = nz (drop (Z.to_nat i) ws)) as Hsf'.
    { replace (Z.to_nat i) with (length pre) by lia. rewrite (drop_S ws w (length pre)) by done. rewrite filter_cons_True, Hsf by done. do 3 f_equal. lia. }
    assert (length (pre ++ replicate n 0 ++ w :: sfx) = length ws) as Hlen' by (rewrite <- Hlen, !length_app; cbn; lia).
    assert (j = Z.of_nat (length pre + n)) as Hj' by (rewrite Hj; unfold u32; rewrite Z.mod_small; rewrite <- Hlen, ?length_app, ?length_replicate in Hl; cbn in Hl; lia).
    assert (xdp2_pvbuf_iovec_move_ent k i j (upd k ((pre ++ [w]) ++ replicate n 0 ++ sfx) s) = Done (upd k (pre ++ replicate n 0 ++ w :: sfx) s, tt)) as Em.
    { rewrite <- app_assoc in Hlen |- *. cbn [app] in Hlen |- *. destruct n as [| n].
      - unfold xdp2_pvbuf_iovec_move_ent. destruct (Z.eqb_spec i j); [done | lia].
      - erewrite move_ent_ok; [| apply lookup_insert_eq | lia | lia | lia | lia | | done |].
        + rewrite upd_upd. do 3 f_equal. rewrite <- move_to_tail. f_equal; [lia |]. f_equal. lia.
        + replace (Z.to_nat i) with (length pre) by lia. apply list_lookup_middle. done.
        + replace (Z.to_nat j) with (length pre + S n)%nat by lia. rewrite lookup_app_r by lia.
          replace (length pre + S n - length pre)%nat with (S n) by lia. change ((replicate (S n) 0 ++ sfx) !! n = Some 0).
          rewrite lookup_app_l by (rewrite length_replicate; lia). apply lookup_replicate_2. lia. }
    eapply wps_step; [exact Em |]. apply wps_ret. split; [lia |]. exists pre, n, (w :: sfx). split_and!; try done; try lia. f_equal. lia.
  - exists 0%nat, []. rewrite Nat2Z.id, firstn_all, drop_ge by done. cbn. rewrite app_nil_r, upd_same by done.
    split_and!; try done; try lia. unfold u32. rewrite Nat.add_0_r, Z.mod_small; lia.
Qed.

Lemma move_to_head (pre rest : list Z) w n :
  <[length pre := w]> (<[(length pre + S n)%nat := 0]> (pre ++ replicate (S n) 0 ++ w :: rest)) = pre ++ w :: replicate (S n) 0 ++ rest.
Proof.
  replace (length pre + S n)%nat with (length (pre ++ replicate (S n) 0)) by (rewrite length_app, length_replicate; done).
  rewrite app_assoc, insert_middle, <- app_assoc. cbn [replicate app]. rewrite insert_middle. do 2 f_equal.
  by rewrite (cons_middle 0 _ rest), app_assoc, replicate_end.
Qed.

Lemma shift_to_head_ok k ws s :
  heap s !! k = Some (mk ws) -> (length ws <= 63)%nat ->
  wps (__xdp2_pvbuf_shift_pvbuf_iovecs_to_head k) s (fun _ s' => s' = upd k (to_head ws) s).
Proof.
  intros Hk Hl. unfold __xdp2_pvbuf_shift_pvbuf_iovecs_to_head. apply wps_bind.
  apply (wps_foreach _ _ _ (fun (i : Z) (rest : list Z) (j : Z) s' => exists (pre : list Z) (n : nat), 0 <= i /\ rest = drop (Z.to_nat i) ws /\
    pre = nz (take (Z.to_nat i) ws) /\ s' = upd k (pre ++ replicate n 0 ++ rest) s /\ length (pre ++ replicate n 0 ++ rest) = length ws /\
    j = Z.of_nat (length pre) /\ i = Z.of_nat (length pre + n))) with (ws := ws); [| | | | done | done |].
  - intros i rest j s' (pre & n & Hi & Hr & Hp & -> & Hlen & Hj & Hip). exists (pre ++ replicate n 0 ++ rest).
    rewrite heap_upd, lookup_insert_eq, Hlen. split_and!; [done | lia | lia | |].
    + rewrite <- Hlen, !length_app, length_replicate. lia.
    + rewrite Hip, Nat2Z.id, app_assoc. apply drop_app_length'. by rewrite length_app, length_replicate.
  - intros i rest j s' (pre & n & Hi & Hr & Hp & -> & Hlen & Hj & Hip). exists pre, (S n).
    assert (ws !! Z.to_nat i = Some 0) as E0 by (rewrite <- (Nat.add_0_r (Z.to_nat i)), <- lookup_drop, <- Hr; done).
    replace (Z.to_nat (i + 1)) with (S (Z.to_nat i)) by lia. rewrite (drop_S ws 0) in Hr by done. injection Hr as Hr.
    rewrite (take_S_r ws _ 0) by done. rewrite nz_app, <- Hp. rewrite app_nil_r.
    rewrite (cons_middle 0 _ rest), (app_assoc (replicate n 0)), replicate_end in Hlen |- *. split_and!; (done || lia).
  - intros i j s' (pre & n & Hi & Hr & Hp & -> & Hlen & Hj & Hip). apply wps_ret.
    assert (take (Z.to_nat i) ws = ws) as Htk. { apply take_ge. apply (f_equal length) in Hr. rewrite length_drop in Hr. cbn in Hr. lia. }
    rewrite Htk in Hp. rewrite app_nil_r, length_app, length_replicate in Hlen. unfold to_head. rewrite <- Hp, app_nil_r. do 3 f_equal. lia.
  - intros i w rest j s' Hw (pre & n & Hi & Hr & Hp & -> & Hlen & Hj & Hip).
    assert (ws !! Z.to_nat i = Some w) as E0 by (rewrite <- (Nat.add_0_r (Z.to_nat i)), <- lookup_drop, <- Hr; done).
    assert (rest = drop (Z.to_nat (i + 1)) ws) as Hr'.
    { replace (Z.to_nat (i + 1)) with (S (Z.to_nat i)) by lia. rewrite (drop_S ws w) in Hr by done. by injection Hr. }
    assert (pre ++ [w] = nz (take (Z.to_nat (i + 1)) ws)) as Hp'.
    { replace (Z.to_nat (i + 1)) with (S (Z.to_nat i)) by lia. rewrite (take_S_r ws _ w), nz_app, <- Hp by done. by rewrite filter_cons_True by done. }
    assert (xdp2_pvbuf_iovec_move_ent k i j (upd k (pre ++ replicate n 0 ++ w :: rest) s) = Done (upd k ((pre ++ [w]) ++ replicate n 0 ++ rest) s, tt)) as Em.
    { rewrite <- app_assoc. cbn [app]. destruct n as [| n].
      - unfold xdp2_pvbuf_iovec_move_ent. destruct (Z.eqb_spec i j); [done | lia].
      - erewrite move_ent_ok; [| apply lookup_insert_eq | lia | lia | lia | lia | | done |].
        + rewrite upd_upd. do 3 f_equal. rewrite <- move_to_head. f_equal; [lia |]. f_equal. lia.
        + replace (Z.to_nat i) with (length (pre ++ replicate (S n) 0)) by (rewrite length_app, length_replicate; lia). rewrite app_assoc. by apply list_lookup_middle.
        + replace (Z.to_nat j) with (length pre) by lia. by apply list_lookup_middle. }
    eapply wps_step; [exact Em |]. apply wps_ret. split; [lia |]. exists rest, (pre ++ [w]), n. rewrite !length_app in Hlen |- *. cbn [length] in *.
    split_and!; try done; try lia. rewrite length_app. lia.
  - exists [], 0%nat. cbn. rewrite upd_same by done. by split_and!.
Qed.

(** ** Slots *)

(** The search for a slot: the iovecs may have moved, [ws'] are the new ones. *)
Definition moved (ws ws' : list Z) : Prop :=
  length ws' = length ws /\ forall H d ls ks, segs H d ws ls ks -> segs H d ws' ls ks.

Lemma moved_refl ws : moved ws ws.
Proof. done. Qed.

Definition starts (l : list Z) : Prop := match l with [] => True | w :: _ => w <> 0 end.

(** Slot [i] is the last before the iovecs in use, or there is none. *)
Definition prepend_slot (ws : list Z) (i : Z) : Prop :=
  (exists n rest, ws = replicate (S n) 0 ++ rest /\ starts rest /\ i = Z.of_nat n) \/
  (i = NO_SLOT /\ exists w rest, ws = w :: rest /\ w <> 0).

Lemma find_split k ws s :
  heap s !! k = Some (mk ws) -> (length ws <= 63)%nat ->
  exists r n rest, xdp2_pvbuf_iovec_map_find k s = Done (s, r) /\ ws = replicate n 0 ++ rest /\ starts rest /\
    (rest = [] /\ r = 64 /\ n = length ws \/ rest <> [] /\ r = Z.of_nat n /\ (n < length ws)%nat).
Proof.
  intros Hk Hl. destruct (find_ok s k ws Hk ltac:(lia)) as (r & Er & Hr).
  destruct (first_split ws 0 r Hl ltac:(lia) Hr) as [[-> Hz] | (w & rest & E & Hw & Hrr & _)]; change (Z.to_nat 0) with 0%nat in *; rewrite drop_0 in *.
  - exists 64, (length ws), []. split_and!; try done; [| by left]. rewrite app_nil_r. by apply zeros_replicate.
  - exists r, (Z.to_nat r), (w :: rest). rewrite Z.sub_0_r in E. split_and!; try done. right. split_and!; [done | lia | lia].
Qed.

Lemma split_unique n n' (rest rest' : list Z) :
  replicate n 0 ++ rest = replicate n' 0 ++ rest' -> starts rest -> starts rest' -> rest <> [] -> rest' <> [] -> n = n' /\ rest = rest'.
Proof.
  revert n'. induction n as [| n IH]; intros [| n'] E Hs Hs' Hn Hn'; cbn in E.
  - done.
  - subst rest. done.
  - subst rest'. done.
  - injection E as E. destruct (IH n' E Hs Hs' Hn Hn') as [-> ->]. done.
Qed.

(** After the iovecs were moved to the end. *)
Lemma prepend_compressed k ws s :
  heap s !! k = Some (mk ws) -> (length ws <= 63)%nat -> starts (nz ws) -> nz ws <> [] -> (length (nz ws) < length ws)%nat ->
  wps (index ← xdp2_pvbuf_iovec_map_find k; _ ← massert (negb (index =? 0));
       b ← xdp2_pvbuf_iovec_map_isset k (index - 1); _ ← massert (negb b); mret (index - 1)) (upd k (to_tail ws) s)
    (fun i s' => exists ws', s' = upd k ws' s /\ moved ws ws' /\ prepend_slot ws' i).
Proof.
  intros Hk Hl Hst Hne Hlt. set (n := (length ws - length (nz ws))%nat).
  assert (heap (upd k (to_tail ws) s) !! k = Some (mk (to_tail ws))) as Hk' by apply lookup_insert_eq.
  pose proof (to_tail_length ws) as Htl. destruct (find_split _ _ _ Hk' ltac:(lia)) as (r & n' & rest & Er & E & Hst' & Hc).
  eapply wps_step; [exact Er |]. destruct Hc as [(-> & _ & ->) | (Hne' & -> & Hn')].
  { exfalso. rewrite app_nil_r in E. destruct (nz ws) as [| x l] eqn:En; [done |].
    assert (x ∈ replicate (length (to_tail ws)) 0) as Hx by (rewrite <- E; unfold to_tail; rewrite En; set_solver).
    apply elem_of_replicate in Hx as [-> _]. done. }
  destruct (split_unique n n' (nz ws) rest E) as [<- <-]; try done.
  assert (0 < n)%nat as Hn by lia. apply wps_assert; [destruct (Z.eqb_spec (Z.of_nat n) 0); [lia | done] |].
  assert (nn (to_tail ws) (Z.of_nat n - 1) = false) as Hnn.
  { unfold nn. destruct (Z.ltb_spec (Z.of_nat n - 1) 0); [done |]. unfold to_tail. rewrite lookup_app_l by (rewrite length_replicate; lia).
    by rewrite lookup_replicate_2 by lia. }
  eapply wps_step; [apply (isset_map _ _ _ Hk'); lia |]. rewrite Hnn. apply wps_assert; [done |]. apply wps_ret.
  exists (to_tail ws). split_and!; [done | split; [done | intros; by apply segs_to_tail] |]. left. exists (n - 1)%nat, (nz ws). split_and!; [| done | lia].
  unfold to_tail. fold n. do 2 f_equal. lia.
Qed.

Lemma find_prepend_slot_ok k p ws compress s :
  pv_inv s -> ptype p = TPvbuf -> k = key_of p -> heap s !! k = Some (mk ws) ->
  wps (__xdp2_pvbuf_find_prepend_slot k p compress) s (fun i s' =>
    exists ws', s' = upd k ws' s /\ moved ws ws' /\ prepend_slot ws' i).
Proof.
  intros Hinv Hp -> Hk. pose proof (inv_bounds _ Hinv _ _ Hk) as Hb. unfold __xdp2_pvbuf_find_prepend_slot.
  eapply wps_lift; [by eapply num_iovecs_ok |]. destruct (find_split _ _ _ Hk ltac:(lia)) as (r & n & rest & Er & Hws & Hst & Hc).
  eapply wps_step; [exact Er |]. destruct (Z.eqb_spec r 0) as [-> | Hr]; cbn [negb].
  2: { apply wps_ret. exists ws. rewrite upd_same by done. split_and!; [done | apply moved_refl |]. left.
       destruct n as [| n]; [destruct Hc as [(_ & _ & E) | (_ & E & _)]; cbn in *; lia |]. exists n, rest. split_and!; [done | done |].
       destruct Hc as [(_ & -> & E) | (_ & -> & E)];
         [destruct (Z.ltb_spec 64 (Z.of_nat (length ws))) | destruct (Z.ltb_spec (Z.of_nat (S n)) (Z.of_nat (length ws)))]; lia. }
  destruct Hc as [(_ & E & _) | (Hne & E & _)]; [lia |]. assert (n = 0%nat) as -> by lia. cbn [replicate app] in Hws. subst rest.
  destruct ws as [| w ws]; [done |]. cbn in Hst.
  destruct compress.
  2: { apply wps_ret. exists (w :: ws). rewrite upd_same by done. split_and!; [done | apply moved_refl |]. right. eauto. }
  unfold __xdp2_pvbuf_find_prepend_slot_compress. eapply wps_step; [eapply weight_ok; [done | lia] |]. rewrite used_nz.
  destruct (Z.eqb_spec (Z.of_nat (length (nz (w :: ws)))) (Z.of_nat (length (w :: ws)))) as [Ef | Ef].
  { apply wps_ret. exists (w :: ws). rewrite upd_same by done. split_and!; [done | apply moved_refl |]. right. eauto. }
  apply wps_bind. eapply wps_mono; [apply shift_to_tail_ok; [done | lia] |]. intros _ s' ->.
  apply prepend_compressed; [done | lia | by rewrite filter_cons_True by done | by rewrite filter_cons_True by done | pose proof (nz_length (w :: ws)); lia].
Qed.

(** Slot [i] is the first behind the iovecs in use, or there is none. *)
Definition ends (l : list Z) : Prop := l = [] \/ exists pre w, l = pre ++ [w] /\ w <> 0.

Definition append_slot (ws : list Z) (i : Z) : Prop :=
  (exists n rest, ws = rest ++ replicate (S n) 0 /\ ends rest /\ i = Z.of_nat (length rest)) \/
  (i = NO_SLOT /\ exists rest w, ws = rest ++ [w] /\ w <> 0).

Lemma rev_find_split k ws s :
  heap s !! k = Some (mk ws) -> (length ws <= 63)%nat ->
  exists r n rest, xdp2_pvbuf_iovec_map_rev_find k s = Done (s, r) /\ ws = rest ++ replicate n 0 /\
    (rest = [] /\ r = 64 \/ exists pre w, rest = pre ++ [w] /\ w <> 0 /\ r = Z.of_nat (length pre)).
Proof.
  intros Hk Hl. destruct (rev_find_ok s k ws Hk ltac:(lia)) as (r & Er & Hr).
  assert (is_last (nn ws) 0 (Z.of_nat (length ws)) 64 r) as Hr'.
  { destruct Hr as [(H1 & H2 & H3) | (-> & H)]; [left | right].
    - pose proof (nn_bound _ _ H2). split_and!; [lia | lia | done |]. intros j Hj. apply H3. lia.
    - split; [done |]. intros j Hj. apply H. lia. }
  destruct (last_split ws (Z.of_nat (length ws)) r Hl ltac:(lia) Hr') as [[-> Hz] | (w & E & Hw & Hrr & _)]; rewrite Nat2Z.id, firstn_all in *.
  - exists 64, (length ws), []. split_and!; [done | by apply zeros_replicate | by left].
  - exists r, (Z.to_nat (Z.of_nat (length ws) - r - 1)), (take (Z.to_nat r) ws ++ [w]). split_and!; [done | by rewrite <- app_assoc |].
    right. exists (take (Z.to_nat r) ws), w. split_and!; [done | done |]. rewrite length_take. lia.
Qed.

Lemma ends_unique n n' (rest rest' : list Z) :
  rest ++ replicate n 0 = rest' ++ replicate n' 0 -> ends rest -> ends rest' -> rest <> [] -> rest' <> [] -> n = n' /\ rest = rest'.
Proof.
  intros E Hs Hs' Hn Hn'. apply (f_equal (@rev Z)) in E. rewrite !rev_app_distr in E.
  assert (forall m, rev (replicate m 0) = replicate m 0) as Hrev.
  { intros m. induction m as [| m IH]; [done |]. cbn [replicate rev]. rewrite IH. apply replicate_end. }
  rewrite !Hrev in E.
  assert (forall l, ends l -> l <> [] -> starts (rev l) /\ rev l <> []) as Hse.
  { intros l [-> | (pre & w & -> & Hw)] Hl; [done |]. rewrite rev_app_distr. done. }
  destruct (Hse rest) as [? ?]; [done.. |]. destruct (Hse rest') as [? ?]; [done.. |].
  destruct (split_unique n n' (rev rest) (rev rest') E) as [-> Er]; [done.. |]. split; [done |].
  by rewrite <- (rev_involutive rest), Er, rev_involutive.
Qed.

(** After the iovecs were moved to the front. *)
Lemma append_compressed k ws s :
  heap s !! k = Some (mk ws) -> (length ws <= 63)%nat -> ends (nz ws) -> nz ws <> [] -> (length (nz ws) < length ws - 1)%nat ->
  wps (index ← xdp2_pvbuf_iovec_map_rev_find k; _ ← massert (index <? Z.of_nat (length ws) - 1);
       b ← xdp2_pvbuf_iovec_map_isset k (index + 1); _ ← massert (negb b); mret (index + 1)) (upd k (to_head ws) s)
    (fun i s' => exists ws', s' = upd k ws' s /\ moved ws ws' /\ append_slot ws' i).
Proof.
  intros Hk Hl Hst Hne Hlt. set (n := (length ws - length (nz ws))%nat).
  assert (heap (upd k (to_head ws) s) !! k = Some (mk (to_head ws))) as Hk' by apply lookup_insert_eq.
  pose proof (to_head_length ws) as Htl. destruct (rev_find_split _ _ _ Hk' ltac:(lia)) as (r & n' & rest & Er & E & Hc).
  eapply wps_step; [exact Er |]. destruct Hc as [(-> & _) | (pre & w & -> & Hw & ->)].
  { exfalso. cbn in E. destruct (nz ws) as [| x l] eqn:En; [done |].
    assert (x ∈ replicate n' 0) as Hx by (rewrite <- E; unfold to_head; rewrite En; set_solver).
    apply elem_of_replicate in Hx as [-> _]. assert (0 ∈ nz ws) as H0 by (rewrite En; set_solver). by apply list_elem_of_filter in H0 as [H0 _]. }
  destruct (ends_unique n n' (nz ws) (pre ++ [w]) E) as [<- En]; try done; [right; eauto | by destruct pre |].
  assert (length (nz ws) = S (length pre)) as Hlp by (rewrite En, length_app; cbn; lia).
  apply wps_assert; [lia |].
  assert (nn (to_head ws) (Z.of_nat (length pre) + 1) = false) as Hnn.
  { unfold nn. destruct (Z.ltb_spec (Z.of_nat (length pre) + 1) 0); [done |]. unfold to_head. rewrite lookup_app_r by lia.
    by rewrite lookup_replicate_2 by lia. }
  eapply wps_step; [apply (isset_map _ _ _ Hk'); lia |]. rewrite Hnn. apply wps_assert; [done |]. apply wps_ret.
  exists (to_head ws). split_and!; [done | split; [done | intros; by apply segs_to_head] |]. left. exists (n - 1)%nat, (nz ws). split_and!; [| done | lia].
  unfold to_head. fold n. do 2 f_equal. lia.
Qed.

Lemma find_append_slot_ok k p ws compress s :
  pv_inv s -> ptype p = TPvbuf -> k = key_of p -> heap s !! k = Some (mk ws) ->
  wps (__xdp2_pvbuf_find_append_slot k p compress) s (fun i s' =>
    exists ws', s' = upd k ws' s /\ moved ws ws' /\ append_slot ws' i).
Proof.
  intros Hinv Hp -> Hk. pose proof (inv_bounds _ Hinv _ _ Hk) as Hb. unfold __xdp2_pvbuf_find_append_slot.
  eapply wps_lift; [by eapply num_iovecs_ok |]. destruct (rev_find_split _ _ _ Hk ltac:(lia)) as (r & n & rest & Er & Hws & Hc).
  pose proof (f_equal length Hws) as Hlen. rewrite length_app, length_replicate in Hlen.
  eapply wps_step; [exact Er |]. destruct (Z.eqb_spec r (Z.of_nat (length ws) - 1)) as [-> | Hr]; cbn [negb].
  2: { apply wps_ret. exists ws. rewrite upd_same by done. split_and!; [done | apply moved_refl |]. left. destruct Hc as [(-> & ->) | (pre & w & -> & Hw & ->)].
       - destruct (Z.ltb_spec 64 (Z.of_nat (length ws))); [lia |]. cbn in Hlen. exists (n - 1)%nat, []. split_and!; [| by left | done].
         replace (S (n - 1)) with n by lia. done.
       - rewrite length_app in Hlen. cbn in Hlen. destruct (Z.ltb_spec (Z.of_nat (length pre)) (Z.of_nat (length ws))); [| lia].
         exists (n - 1)%nat, (pre ++ [w]). split_and!; [replace (S (n - 1)) with n by lia; done | right; eauto | rewrite length_app; cbn; lia]. }
  destruct Hc as [(_ & E) | (pre & w & -> & Hw & E)]; [lia |]. rewrite length_app in Hlen. cbn in Hlen. assert (n = 0%nat) as -> by lia. rewrite app_nil_r in Hws.
  assert (wps (mret NO_SLOT) s (fun i s' => exists ws', s' = upd (key_of p) ws' s /\ moved ws ws' /\ append_slot ws' i)) as Hno.
  { apply wps_ret. exists ws. rewrite upd_same by done. split_and!; [done | apply moved_refl |]. right. eauto. }
  destruct compress; [| exact Hno].
  unfold __xdp2_pvbuf_find_append_slot_compress. eapply wps_step; [eapply weight_ok; [done | lia] |]. rewrite used_nz.
  destruct (Z.leb_spec (Z.of_nat (length ws) - 1) (Z.of_nat (length (nz ws)))) as [Ef | Ef]; [exact Hno |].
  apply wps_bind. eapply wps_mono; [apply shift_to_head_ok; [done | lia] |]. intros _ s' ->.
  assert (nz ws = nz pre ++ [w]) as Hnz by (rewrite Hws, nz_app; by rewrite (filter_cons_True _ w) by done).
  apply append_compressed; [done | lia | rewrite Hnz; right; eauto | rewrite Hnz; by destruct (nz pre) | lia].
Qed.
