(* ===== verification/PvbufInsert.v ===== *)
(** * Packet vectors: prepending and appending an address

    Adding an address to a packet puts its buffers before or behind those of the
    packet, at whatever level of the tree there is room, or leaves the packet as it
    is when no pvbuf can be allocated. *)

From stdpp Require Import base list gmap numbers.
From S2P Require Import Prelude BitmapWord BitmapWordSpec Memory Paddr Pvbuf PvbufEdit PvbufMap PvbufRep PvbufInv PvbufRead PvbufSlots.

(** ** Packet vectors: storing an address

    The words that the functions which set an iovec store, and a new pvbuf that
    takes the place of an iovec together with an address added to it. *)

(** ** The words of an address with its length *)

Definition stamp (p1 p2 len : Z) : outcome leaf :=
  match ptype p1 with
  | TPvbuf => q ← xdp2_pvbuf_set_pvbuf_iovec p1 len; mret (q, 0)
  | TPbuf | TPbuf1ref => q ← xdp2_pbuf_set_iovec p1 len; mret (q, 0)
  | TShort => q ← xdp2_paddr_short_addr_set_iovec p1 len; mret (q, 0)
  | TLong => xdp2_paddr_long_addr_set_iovec p1 p2 len
  end.

Lemma bf_set_tag f v p : valid_field f -> f_lo f + f_width f <= 60 -> ptype (bf_set f v p) = ptype p.
Proof. intros Hf Hd. apply ptype_tag. apply bf_get_set_other; [done | field_side | left; cbn; lia]. Qed.

Lemma outcome_bind_done {A B} (m : outcome A) (f : A -> outcome B) y : m ≫= f = Done y -> exists x, m = Done x /\ f x = Done y.
Proof. destruct m; cbn; [eauto | done | done]. Qed.

(** The type is kept, the words are not NULL. *)
Lemma stamp_inv p1 p2 len q :
  stamp p1 p2 len = Done q ->
  ptype (fst q) = ptype p1 /\ fst q <> 0 /\ (ptype p1 <> TLong -> snd q = 0) /\
  (ptype p1 = TLong -> snd q <> 0 /\ __xdp2_paddr_long_addr_check (fst q) (snd q) = Done tt).
Proof.
  unfold stamp. destruct (ptype p1) eqn:E; intros H.
  5: { unfold xdp2_paddr_long_addr_set_iovec in H. apply outcome_bind_done in H as ([] & _ & H). apply outcome_bind_done in H as ([] & _ & H).
       apply outcome_bind_done in H as ([] & Hc & [= <-]). cbn [fst snd].
       pose proof (proj1 (long_check _ _) Hc) as (H1 & H2 & _ & _ & _ & _ & H3). split_and!; [done | done | done |].
       intros _. split; [by eapply nonzero_of | done]. }
  all: apply outcome_bind_done in H as (q' & Hq & [= <-]); cbn [fst snd];
    assert (ptype q' = ptype p1) as Hp;
    [| rewrite E in Hp; split_and!; [done | apply ptype_nonzero; by rewrite Hp | done | done]].
  - unfold xdp2_pvbuf_set_pvbuf_iovec in Hq. apply outcome_bind_done in Hq as ([] & _ & Hq). apply outcome_bind_done in Hq as ([] & _ & [= <-]).
    apply bf_set_tag; [field_side | done].
  - unfold xdp2_pbuf_set_iovec in Hq. apply outcome_bind_done in Hq as ([] & _ & [= <-]). apply bf_set_tag; [field_side | done].
  - unfold xdp2_pbuf_set_iovec in Hq. apply outcome_bind_done in Hq as ([] & _ & [= <-]). apply bf_set_tag; [field_side | done].
  - unfold xdp2_paddr_short_addr_set_iovec in Hq. apply outcome_bind_done in Hq as ([] & _ & Hq). apply outcome_bind_done in Hq as ([] & _ & Hq).
    apply outcome_bind_done in Hq as ([] & _ & [= <-]). apply bf_set_tag; [field_side | done].
Qed.

Lemma words_length q : length (words_of q) = if decide (ptype (fst q) = TLong) then 2%nat else 1%nat.
Proof. unfold words_of. by destruct (decide _). Qed.

(** The free iovecs it needs. *)
Definition room (q : leaf) : list Z := replicate (length (words_of q)) 0.

(** Storing an address into free iovecs. *)
Lemma set_paddr_ent_ok k a b p1 p2 len q s :
  heap s !! k = Some (mk (a ++ room q ++ b)) -> (length (a ++ room q ++ b) <= 64)%nat ->
  stamp p1 p2 len = Done q ->
  xdp2_pvbuf_iovec_set_paddr_ent k (Z.of_nat (length a)) p1 p2 len s = Done (upd k (a ++ words_of q ++ b) s, tt).
Proof.
  intros Hk Hl Hq. pose proof (stamp_inv _ _ _ _ Hq) as (Hp & Hn & Hs2 & Hlg). unfold room in Hk, Hl. rewrite words_length, Hp in Hk, Hl.
  unfold xdp2_pvbuf_iovec_set_paddr_ent, stamp in *. unfold words_of. rewrite Hp.
  destruct (ptype p1) eqn:E; cbn [decide paddr_type_eq_dec] in *.
  5: { rewrite decide_True in Hk, Hl by done. rewrite decide_True by done. destruct (Hlg eq_refl) as [Hn2 _]. destruct q as [q1 q2]. cbn [fst snd] in *.
       cbn [replicate app] in Hk, Hl. rewrite length_app in Hl. cbn [length] in Hl.
       unfold xdp2_pvbuf_iovec_set_long_addr_ent, mbind, pvm_bind. replace (Z.of_nat (length a) + 1) with (Z.of_nat (length (a ++ [0]))) by (rewrite length_app; cbn; lia).
       set (l := a ++ 0 :: 0 :: b) in *. assert (length l = (length a + 2 + length b)%nat) as Hll by (unfold l; rewrite length_app; cbn; lia).
       assert (l !! length a = Some 0) as E1 by by apply list_lookup_middle.
       assert (l !! length (a ++ [0]) = Some 0) as E2 by (unfold l; rewrite (cons_middle 0 a (0 :: b)), app_assoc; by apply list_lookup_middle).
       rewrite (check_empty_ok s k l Hk ltac:(lia) (Z.of_nat (length a))) by (rewrite ?Nat2Z.id; done || lia).
       rewrite (check_empty_ok s k l Hk ltac:(lia)) by (rewrite ?Nat2Z.id; done || lia). rewrite Hq. cbn [lift].
       rewrite length_app. cbn [length].
       rewrite (st_iovec_map s k l ltac:(lia) _ _ (map_of l)) by (done || lia).
       rewrite (st_iovec_map _ k (<[Z.to_nat (Z.of_nat (length a)) := q1]> l) ltac:(rewrite length_insert; lia) _ _ (map_of l)); [| apply lookup_insert_eq | rewrite length_insert; lia].
       unfold xdp2_pvbuf_iovec_map_set. erewrite map_update_ok; [| apply lookup_insert_eq | lia | apply (map_of_set l _ q1); [lia | lia | done]].
       erewrite map_update_ok; [| apply lookup_insert_eq | lia | apply (map_of_set _ _ q2); rewrite ?length_insert; [lia | lia | done]].
       unfold upd, heap. cbn. rewrite !put_put_heap, !insert_insert_eq. do 4 f_equal. unfold mk. rewrite !Nat2Z.id. f_equal; [f_equal |];
         unfold l; rewrite insert_middle, (cons_middle q1), app_assoc; rewrite <- (length_app a [q1]) || replace (length a + 1)%nat with (length (a ++ [q1])) by (rewrite length_app; done);
         rewrite insert_middle, <- app_assoc; done. }
  all: rewrite decide_False in Hk, Hl by done; rewrite decide_False by done; apply outcome_bind_done in Hq as (q' & Hq & [= <-]); cbn [fst snd replicate app] in *;
    unfold xdp2_pvbuf_iovec_set_pvbuf_ent, xdp2_pvbuf_iovec_set_pbuf_ent, xdp2_pvbuf_iovec_set_short_addr_ent;
    erewrite set_ent_ok; [rewrite Nat2Z.id, insert_middle; done | exact Hk | done | lia | rewrite Nat2Z.id; by apply list_lookup_middle | done | done].
Qed.

(** ** The unit in an iovec *)

(** One address: the words of a buffer or of a pvbuf. *)
Definition unit_ok (v : leaf) : Prop :=
  fst v <> 0 /\ if decide (ptype (fst v) = TLong) then __xdp2_paddr_long_addr_check (fst v) (snd v) = Done tt else snd v = 0.

Lemma stamp_unit p1 p2 len q : stamp p1 p2 len = Done q -> unit_ok q.
Proof.
  intros Hq. destruct (stamp_inv _ _ _ _ Hq) as (Hp & Hn & Hs & Hl). split; [done |]. rewrite Hp. destruct (decide _) as [E | E]; [by apply Hl | by apply Hs].
Qed.

(** The first unit of a list of iovecs. *)
Lemma first_unit H d w ws ls ks :
  w <> 0 -> segs H d (w :: ws) ls ks ->
  exists v rest lv lr kv kr, w :: ws = words_of v ++ rest /\ fst v = w /\ unit_ok v /\ segs H d (words_of v) lv kv /\
    segs H d rest lr kr /\ kv ## kr /\ ls = lv ++ lr /\ ks = kv ∪ kr.
Proof.
  intros Hw Hs. destruct (segs_first _ _ _ _ _ _ Hw Hs) as [lr Hb -> Hr | w2 ws' lr Hc -> -> Hr | d' l1 lr kk1 kk -> Hrep Hdl Hr Hdj -> ->].
  - exists (w, 0), ws, [(w, 0)], lr, ∅, ks. unfold words_of, unit_ok. cbn [fst]. assert (ptype w <> TLong) as Ht by (by destruct Hb as [-> | [-> | ->]]).
    rewrite !decide_False by done. split_and!; try done; try set_solver; apply segs_buf; [done | apply segs_nil].
  - pose proof (proj1 (long_check _ _) Hc) as (_ & Ht & _). exists (w, w2), ws', [(w, w2)], lr, ∅, ks. unfold words_of, unit_ok. cbn [fst snd].
    rewrite !decide_True by done. split_and!; try done; try set_solver; apply segs_long; [done | apply segs_nil].
  - exists (w, 0), ws, l1, lr, kk1, kk. unfold words_of, unit_ok. cbn [fst]. pose proof Hrep as [Ht _].
    rewrite !decide_False by (by rewrite Ht). split_and!; try done.
    rewrite <- (app_nil_r l1), <- (right_id_L ∅ (∪) kk1). eapply segs_rep; [done | done | apply segs_nil | set_solver].
Qed.

(** The last one. *)
Lemma last_unit H d ws w ls ks :
  w <> 0 -> segs H d (ws ++ [w]) ls ks ->
  exists v rest lv lr kv kr, ws ++ [w] = rest ++ words_of v /\ (ptype w <> TLong -> fst v = w) /\ (ptype w = TLong -> ptype (fst v) = TLong /\ bf_get long_word_num w = 1) /\
    unit_ok v /\ segs H d (words_of v) lv kv /\ segs H d rest lr kr /\ kv ## kr /\ ls = lr ++ lv /\ ks = kr ∪ kv.
Proof.
  intros Hw Hs. destruct (segs_last _ _ _ _ _ _ Hw Hs) as [lr Hb -> Hr | w1 ws' lr Hc -> -> Hr | d' l1 lr kk1 kk -> Hrep Hdl Hr Hdj -> ->].
  - exists (w, 0), ws, [(w, 0)], lr, ∅, ks. unfold words_of, unit_ok. cbn [fst]. assert (ptype w <> TLong) as Ht by (by destruct Hb as [-> | [-> | ->]]).
    rewrite !decide_False by done. split_and!; try done; try set_solver; apply segs_buf; [done | apply segs_nil].
  - pose proof (proj1 (long_check _ _) Hc) as (? & Ht & _ & _ & Ht2 & Hn & _). exists (w1, w), ws', [(w1, w)], lr, ∅, ks. unfold words_of, unit_ok. cbn [fst snd].
    rewrite !decide_True by done. split_and!; try done; try set_solver; [by rewrite <- app_assoc | apply segs_long; [done | apply segs_nil]].
  - exists (w, 0), ws, l1, lr, kk1, kk. unfold words_of, unit_ok. cbn [fst]. pose proof Hrep as [Ht _].
    rewrite !decide_False by (by rewrite Ht). split_and!; try done; [by rewrite Ht |].
    rewrite <- (app_nil_r l1), <- (right_id_L ∅ (∪) kk1). eapply segs_rep; [done | done | apply segs_nil | set_solver].
Qed.

(** The length that is taken over. *)
Lemma move_len_ok k i v rest d lv kv s :
  at_pos k i (words_of v ++ rest) s -> unit_ok v -> segs (heap s) d (words_of v) lv kv ->
  exists n, move_len k i s = Done (s, n) /\ (n = XDP2_PVBUF_MAX_LEN \/ n = total lv /\ 0 <= n < 2 ^ 32).
Proof.
  intros Hat [Hw Hl] Hs. unfold move_len, mbind, pvm_bind. unfold words_of in Hat, Hs. destruct (decide (ptype (fst v) = TLong)) as [E | E].
  - rewrite (at_pos_lookup _ _ _ _ _ Hat), E. rewrite (long_data_len _ _ _ _ _ _ Hat Hl). eexists. split; [done |]. right.
    destruct (segs_first _ _ _ _ _ _ Hw Hs) as [lr Hb -> Hr | w2 ws' lr Hc [= <- <-] -> Hr | d' l1 lr kk1 kk -> Hrep Hdl Hr Hdj -> ->].
    + by destruct Hb as [E' | [E' | E']]; rewrite E' in E.
    + inversion Hr; subst. cbn [total]. pose proof (leaf_len_nonneg (fst v, snd v)). pose proof (leaf_len_u32 (fst v, snd v)). lia.
    + by destruct Hrep as [E' _]; rewrite E' in E.
  - rewrite (at_pos_lookup _ _ _ _ _ Hat).
    destruct (segs_first _ _ _ _ _ _ Hw Hs) as [lr Hb -> Hr | w2 ws' lr Hc [=] -> Hr | d' l1 lr kk1 kk -> Hrep Hdl Hr Hdj -> ->].
    + pose proof (buf_data_len _ _ _ _ _ Hat Hb) as En. exists (leaf_len (fst v, 0)). split; [by destruct Hb as [E' | [E' | E']]; rewrite E' |].
      right. inversion Hr; subst. cbn [total]. pose proof (leaf_len_nonneg (fst v, 0)). pose proof (leaf_len_u32 (fst v, 0)). lia.
    + pose proof Hrep as [-> _]. inversion Hr; subst. rewrite app_nil_r. eexists. split; [done |].
      destruct (Z.eqb_spec (bf_get pvbuf_data_length (fst v)) 0); [by left | right]. destruct Hdl as [| Hdl]; [done |].
      split; [done |]. apply (bf_get_range pvbuf_data_length). field_side.
Qed.

(** ** A new pvbuf in place of an iovec *)

Lemma raw_set_mid k a b p s :
  heap s !! k = Some (mk (a ++ 0 :: b)) -> (length a + S (length b) <= 64)%nat -> p <> 0 ->
  raw_set k (Z.of_nat (length a)) p s = Done (upd k (a ++ p :: b) s, tt).
Proof.
  intros Hk Hl Hp. rewrite (raw_set_ok s k _ Hk ltac:(rewrite length_app; done)) by (rewrite ?length_app; cbn [length]; lia || done). by rewrite Nat2Z.id, insert_middle.
Qed.

Lemma st_iovec_mid k a b w p s :
  heap s !! k = Some (mk (a ++ w :: b)) -> (length a + S (length b) <= 64)%nat -> w <> 0 -> p <> 0 ->
  st_iovec k (Z.of_nat (length a)) p s = Done (upd k (a ++ p :: b) s, tt).
Proof.
  intros Hk Hl Hw Hp. rewrite (st_iovec_ok s k _ Hk ltac:(rewrite length_app; done) _ w); [| lia | rewrite Nat2Z.id; by apply list_lookup_middle |].
  - by rewrite Nat2Z.id, insert_middle.
  - destruct (Z.eqb_spec w 0), (Z.eqb_spec p 0); done.
Qed.

Lemma clear_ent_mid k a b w s :
  heap s !! k = Some (mk (a ++ w :: b)) -> (length a + S (length b) <= 64)%nat ->
  xdp2_pvbuf_iovec_clear_ent k (Z.of_nat (length a)) s = Done (upd k (a ++ 0 :: b) s, tt).
Proof.
  intros Hk Hl. rewrite (clear_ent_ok s k _ Hk ltac:(rewrite length_app; done)) by (rewrite ?length_app; cbn [length]; lia). by rewrite Nat2Z.id, insert_middle.
Qed.

Lemma isset_mid k a b w s :
  heap s !! k = Some (mk (a ++ w :: b)) -> (length a + S (length b) <= 64)%nat -> w <> 0 ->
  xdp2_pvbuf_iovec_map_isset k (Z.of_nat (length a)) s = Done (s, true).
Proof.
  intros Hk Hl Hw. rewrite (isset_map s k _ Hk ltac:(rewrite length_app; done)) by lia. unfold nn. destruct (Z.ltb_spec (Z.of_nat (length a)) 0); [lia |].
  rewrite Nat2Z.id, list_lookup_middle by done. by destruct (Z.eqb_spec w 0).
Qed.

Lemma ld_iovec_mid k a b w s :
  heap s !! k = Some (mk (a ++ w :: b)) -> (length a + S (length b) <= 64)%nat -> ld_iovec k (Z.of_nat (length a)) s = Done (s, w).
Proof. intros Hk Hl. apply (ld_iovec_ok s k _ Hk ltac:(rewrite length_app; done)); [lia |]. rewrite Nat2Z.id. by apply list_lookup_middle. Qed.

Lemma joined_length_ok iovlen len lv li :
  (iovlen = XDP2_PVBUF_MAX_LEN \/ iovlen = total lv /\ 0 <= iovlen < 2 ^ 32) -> 0 <= len < 2 ^ 32 -> (len = 0 \/ len = total li) ->
  0 <= joined_length iovlen len < 2 ^ 32 /\ (joined_length iovlen len = 0 \/ joined_length iovlen len = total li + total lv).
Proof.
  intros Hi Hl Ht. unfold joined_length, XDP2_PVBUF_MAX_LEN in *. destruct (Z.eqb_spec len 0) as [-> | Hz]; cbn [negb andb]; [lia |].
  assert (u64 (iovlen + len) = iovlen + len) as -> by (unfold u64; rewrite Z.mod_small; lia).
  destruct (Z.ltb_spec (iovlen + len) (2 ^ 32)); lia.
Qed.

(** The word with the length: same pvbuf. *)
Lemma set_pvbuf_iovec_ok p len :
  ptype p = TPvbuf -> 0 <= len < 2 ^ 32 ->
  exists w, xdp2_pvbuf_set_pvbuf_iovec p len = Done w /\ ptype w = TPvbuf /\ key_of w = key_of p /\ bf_get pvbuf_data_length w = len /\ w <> 0.
Proof.
  intros Hp Hl. unfold xdp2_pvbuf_set_pvbuf_iovec, __xdp2_pvbuf_check_paddr, XDP2_PVBUF_MAX_LEN. rewrite is_pvbuf_ptype, bool_decide_true by done.
  destruct (Z.ltb_spec len (2 ^ 32)); [| lia]. orun. eexists. split; [done |].
  assert (ptype (bf_set pvbuf_data_length len p) = TPvbuf) as Ht by (rewrite bf_set_tag; [done | field_side | done]).
  split_and!; [done | | | apply ptype_nonzero; by rewrite Ht].
  - unfold key_of. by rewrite !bf_get_set_other by field_side.
  - apply bf_get_set_small; [field_side | done].
Qed.

Section Random.
Context (random : nat -> Z).

(** An address to be added: its words [words_of q] hold the buffers [li]. *)
Record item (s : xdp2_pvbuf_mgr) (p1 p2 len : Z) (q : leaf) (d : nat) (li : list leaf) (kI : gset pvptr) : Prop := Item {
  item_stamp : stamp p1 p2 len = Done q;
  item_segs : segs (heap s) d (words_of q) li kI;
  item_range : 0 <= len < 2 ^ 32;
  item_len : len = 0 \/ len = total li }.

(** The result of putting a new pvbuf in the place of the iovecs [u]. *)
Definition new_post (s : xdp2_pvbuf_mgr) (k : pvptr) (a b u : list Z) (d : nat) (ls : list leaf) (ks : gset pvptr) (r : bool) (s' : xdp2_pvbuf_mgr) : Prop :=
  pv_inv s' /\ mpb s' = mpb s /\ mconf s' = mconf s /\
  if r then exists w nk, heap s !! nk = None /\ w <> 0 /\ heap s' !! k = Some (mk (a ++ replicate (length u - 1) 0 ++ w :: b)) /\
         segs (heap s') d [w] ls ({[nk]} ∪ ks) /\ (forall k', k' <> k -> k' <> nk -> heap s' !! k' = heap s !! k')
  else heap s' = heap s.

Lemma num_words size : 0 <= size <= 7 -> XDP2_PVBUF_NUM_IOVECS size = pvbuf_words size /\ 7 <= pvbuf_words size <= 63.
Proof.
  intros H. unfold XDP2_PVBUF_NUM_IOVECS, XDP2_PVBUF_MAX_IOVECS.
  assert (pvbuf_words size = 8 * size + 7) as -> by (unfold pvbuf_words; replace ((size + 1) * 64 - 8) with ((8 * size + 7) * 8) by lia; by apply Z.div_mul).
  lia.
Qed.

Lemma new_post_intro s s1 k nk a b u c w l0 d lc kc :
  pv_inv s1 -> mpb s1 = mpb s -> mconf s1 = mconf s -> heap s !! nk = None -> nk <> k ->
  (forall k', k' <> nk -> k' <> k -> heap s1 !! k' = heap s !! k') -> heap s1 !! nk = Some (mk c) -> heap s1 !! k = Some (mk l0) ->
  length (a ++ replicate (length u - 1) 0 ++ w :: b) = length l0 -> ptype w = TPvbuf -> key_of w = nk -> dlen_ok w lc ->
  segs (heap s) d c lc kc -> k ∉ kc ->
  new_post s k a b u (S d) lc kc true (upd k (a ++ replicate (length u - 1) 0 ++ w :: b) s1).
Proof.
  intros Hinv Hpb Hcf Hfr Hne Hoth Hnk Hk Hl Hw Hkey Hdl Hs Hkc.
  split_and!; [by eapply inv_upd | done | done |].
  exists w, nk. split_and!; [done | by apply ptype_nonzero; rewrite Hw | apply lookup_insert_eq | |].
  - rewrite <- (app_nil_r lc), <- Hkey, <- (right_id_L ∅ (∪) (_ ∪ kc)).
    eapply segs_sub; [done | rewrite heap_upd, lookup_insert_ne by (rewrite Hkey; auto); by rewrite Hkey | | done | apply segs_nil | | apply disjoint_empty_r].
    + eapply segs_frame; [exact Hs |]. intros k' Hk'. assert (k' <> k) by (by intros ->). rewrite heap_upd, lookup_insert_ne by auto.
      apply Hoth; [| done]. intros ->. destruct (segs_dom _ _ _ _ _ Hs nk Hk'). congruence.
    + rewrite Hkey. intros Hin. destruct (segs_dom _ _ _ _ _ Hs nk Hin). congruence.
  - intros k' H1 H2. rewrite heap_upd, lookup_insert_ne by auto. by apply Hoth.
Qed.

(** The end of both functions: the new pvbuf with the iovecs [c] replaces the
    unit [v]. *)
Lemma new_pvbuf_tail s s1 k nk np a b v c jl d lc kc :
  pv_inv s1 -> mpb s1 = mpb s -> mconf s1 = mconf s -> heap s !! nk = None -> nk <> k ->
  (forall k', k' <> nk -> heap s1 !! k' = heap s !! k') -> heap s1 !! nk = Some (mk c) ->
  heap s !! k = Some (mk (a ++ words_of v ++ b)) -> unit_ok v -> ptype np = TPvbuf -> key_of np = nk ->
  segs (heap s) d c lc kc -> k ∉ kc -> 0 <= jl < 2 ^ 32 -> (jl = 0 \/ jl = total lc) ->
  exists s2 idx w s3,
    (if bool_decide (ptype (fst v) = TLong) then _ ← xdp2_pvbuf_iovec_clear_ent k (Z.of_nat (length a)); mret (Z.of_nat (length a) + 1)
     else mret (Z.of_nat (length a))) s1 = Done (s2, idx) /\
    xdp2_pvbuf_iovec_map_isset k idx s2 = Done (s2, true) /\ xdp2_pvbuf_set_pvbuf_iovec np jl = Done w /\
    st_iovec k idx w s2 = Done (s3, tt) /\ new_post s k a b (words_of v) (S d) lc kc true s3.
Proof.
  intros Hinv Hpb Hcf Hfr Hne Hoth Hnk Hk Hv Hnp Hkey Hs Hkc Hjr Hj.
  assert (heap s1 !! k = Some (mk (a ++ words_of v ++ b))) as Hk1 by (rewrite Hoth; auto).
  pose proof (inv_bounds _ Hinv _ _ Hk1) as Hb. rewrite !length_app, words_length in Hb.
  destruct (set_pvbuf_iovec_ok np jl Hnp Hjr) as (w & Ew & Hwt & Hwk & Hwl & Hw0).
  assert (forall l, l = a ++ replicate (length (words_of v) - 1) 0 ++ w :: b -> new_post s k a b (words_of v) (S d) lc kc true (upd k l s1)) as Hend.
  { intros l ->. eapply (new_post_intro s s1 k nk a b (words_of v) c w); try done; [auto | | congruence | unfold dlen_ok; by rewrite Hwl].
    rewrite !length_app, length_replicate, words_length. cbn. destruct (decide _); lia. }
  destruct Hv as [Hv0 Hvl]. unfold words_of in *. destruct (decide (ptype (fst v) = TLong)) as [E | E].
  - rewrite bool_decide_true by done. apply long_check in Hvl as (_ & _ & _ & _ & _ & _ & Hv2). apply nonzero_of in Hv2. cbn [app] in *.
    set (s2 := upd k (a ++ 0 :: snd v :: b) s1). exists s2, (Z.of_nat (length a) + 1), w, (upd k (a ++ 0 :: w :: b) s1).
    replace (Z.of_nat (length a) + 1) with (Z.of_nat (length (a ++ [0]))) by (rewrite length_app; cbn; lia).
    assert (heap s2 !! k = Some (mk ((a ++ [0]) ++ snd v :: b))) as Hk2 by (unfold s2; rewrite heap_upd, lookup_insert_eq, <- app_assoc; done).
    split_and!; [| | done | | by apply Hend].
    + unfold mbind, pvm_bind. rewrite (clear_ent_mid k a _ _ s1 Hk1) by (cbn [length]; lia). done.
    + apply (isset_mid k (a ++ [0]) b (snd v) s2 Hk2); [rewrite length_app; cbn; lia | done].
    + rewrite (st_iovec_mid k (a ++ [0]) b (snd v) w s2 Hk2); [| rewrite length_app; cbn; lia | done | done].
      unfold s2. rewrite upd_upd, <- app_assoc. done.
  - rewrite bool_decide_false by done. cbn [app] in *. exists s1, (Z.of_nat (length a)), w, (upd k (a ++ w :: b) s1). split_and!; [done | | done | | by apply Hend].
    + apply (isset_mid k a b (fst v) s1 Hk1); [cbn; lia | done].
    + apply (st_iovec_mid k a b (fst v) w s1 Hk1); [cbn; lia | done | done].
Qed.

Lemma words_cons v : exists r, words_of v = fst v :: r /\ (ptype (fst v) = TLong /\ r = [snd v] \/ ptype (fst v) <> TLong /\ r = []).
Proof. unfold words_of. destruct (decide _); eauto. Qed.

Lemma replicate_split n m : (m <= n)%nat -> replicate n 0 = replicate (n - m) 0 ++ replicate m 0.
Proof. intros H. rewrite <- replicate_add. f_equal. lia. Qed.

(** The words of the unit [v] go to the end of the new pvbuf. *)
Lemma move_to_new s1 k nk a b v n x :
  pv_inv s1 -> heap s1 !! k = Some (mk (a ++ words_of v ++ b)) -> heap s1 !! nk = Some (mk (replicate n 0)) -> (7 <= n <= 63)%nat -> nk <> k -> unit_ok v ->
  forall (B : Type) (f : Z -> pvm B) Q,
  x = Z.of_nat n - 1 ->
  wps (f (Z.of_nat (n - length (words_of v)) - 1)) (upd nk (replicate (n - length (words_of v)) 0 ++ words_of v) s1) Q ->
  wps (pos ← (if bool_decide (ptype (fst v) = TLong) then p' ← ld_iovec k (Z.of_nat (length a) + 1); _ ← raw_set nk x p'; mret (x - 1) else mret x);
       _ ← raw_set nk pos (fst v); f (pos - 1)) s1 Q.
Proof.
  intros Hinv Hk Hnk Hn Hne [Hv0 Hvl] B f Q -> HQ. pose proof (inv_bounds _ Hinv _ _ Hk) as Hb. unfold words_of in *.
  destruct (decide (ptype (fst v) = TLong)) as [E | E].
  - rewrite bool_decide_true by done. apply long_check in Hvl as (_ & _ & _ & _ & _ & _ & Hv2). apply nonzero_of in Hv2. cbn [app length] in *.
    replace (Z.of_nat (length a) + 1) with (Z.of_nat (length (a ++ [fst v]))) by (rewrite length_app; cbn; lia).
    rewrite length_app in Hb. cbn [length] in Hb.
    apply wps_bind. eapply wps_step; [apply (ld_iovec_mid k (a ++ [fst v]) b (snd v)); [by rewrite <- app_assoc | rewrite length_app; cbn; lia] |].
    rewrite (replicate_split n 2) in Hnk by lia. cbn [replicate] in Hnk. rewrite (cons_middle 0), app_assoc in Hnk.
    assert (length (replicate (n - 2) 0 ++ [0]) = (n - 1)%nat) as Hl1 by (rewrite length_app, length_replicate; cbn; lia).
    replace (Z.of_nat n - 1) with (Z.of_nat (length (replicate (n - 2) 0 ++ [0]))) by lia.
    eapply wps_step; [apply (raw_set_mid nk _ [] _ s1 Hnk); [cbn; lia | done] |]. apply wps_ret.
    replace (Z.of_nat (length (replicate (n - 2) 0 ++ [0])) - 1) with (Z.of_nat (length (replicate (n - 2) 0))) by (rewrite Hl1, length_replicate; lia).
    eapply wps_step; [apply (raw_set_mid nk _ [snd v]); [rewrite heap_upd, lookup_insert_eq, <- app_assoc; done | rewrite length_replicate; cbn; lia | done] |].
    rewrite upd_upd, length_replicate. done.
  - rewrite bool_decide_false by done. cbn [length] in *. eapply wps_step; [done |].
    rewrite (replicate_split n 1) in Hnk by lia. cbn [replicate] in Hnk.
    replace (Z.of_nat n - 1) with (Z.of_nat (length (replicate (n - 1) 0))) by (rewrite length_replicate; lia).
    eapply wps_step; [apply (raw_set_mid nk _ [] _ s1 Hnk); [rewrite length_replicate; cbn; lia | done] |]. rewrite length_replicate. done.
Qed.

Lemma prepend_new_ok s k a b v p1 p2 len q dI li kI dV lv kV :
  pv_inv s -> heap s !! k = Some (mk (a ++ words_of v ++ b)) -> unit_ok v -> segs (heap s) dV (words_of v) lv kV ->
  item s p1 p2 len q dI li kI -> kI ## kV -> k ∉ kI ∪ kV ->
  wps (__xdp2_pvbuf_prepend_paddr_into_iovec_new_pvbuf random k (Z.of_nat (length a)) p1 p2 len) s
    (new_post s k a b (words_of v) (S (max dI dV)) (li ++ lv) (kI ∪ kV)).
Proof.
  intros Hinv Hk Hv HV [Hst HI Hlr Hlt] Hdj Hkk. unfold __xdp2_pvbuf_prepend_paddr_into_iovec_new_pvbuf.
  apply wps_bind. eapply wps_mono; [by apply get_size_ok |]. intros size s0 (Hsz & Hinv0 & Hh0 & Hc0 & Hp0).
  apply wps_bind. eapply wps_mono; [by apply pvbuf_alloc_ok |]. intros [[np nk] |] s1; [| intros ->; apply wps_ret; by split_and!].
  intros (Hinv1 & Hstep & Hp1 & Hh1 & Hnn & Hsn & Hs7 & Hnp & Hkey & _). rewrite Hh0 in Hh1, Hnn. rewrite zero_mk in Hh1.
  destruct (num_words size) as [Hnw Hnr]; [lia |]. rewrite Hnw. set (n := Z.to_nat (pvbuf_words size)) in *.
  assert (nk <> k) as Hne by (intros ->; congruence).
  assert (heap s1 !! k = Some (mk (a ++ words_of v ++ b))) as Hk1 by (rewrite Hh1, lookup_insert_ne by done; done).
  assert (heap s1 !! nk = Some (mk (replicate n 0))) as Hnk1 by (rewrite Hh1; apply lookup_insert_eq).
  apply wps_assert; [lia |]. pose proof (inv_bounds _ Hinv1 _ _ Hk1) as Hb.
  destruct (words_cons v) as (r & Er & Hr). rewrite Er in Hk1, Hb. rewrite length_app in Hb. cbn [app length] in Hk1, Hb. pose proof Hv as [Hv0 _].
  eapply wps_step; [apply (ld_iovec_mid k a _ _ _ Hk1); lia |]. apply wps_assert; [by destruct (Z.eqb_spec (fst v) 0) |].
  assert (at_pos k (Z.of_nat (length a)) (words_of v ++ b) s1) as Hat.
  { exists (a ++ fst v :: r ++ b). split_and!; [done | rewrite length_app; cbn; lia | lia | rewrite length_app; lia |]. rewrite Nat2Z.id, Er. apply drop_app_length. }
  assert (segs (heap s1) dV (words_of v) lv kV) as HV1.
  { eapply segs_frame; [exact HV |]. intros k' Hk'. rewrite Hh1. apply lookup_insert_ne. intros <-. destruct (segs_dom _ _ _ _ _ HV nk Hk'). congruence. }
  destruct (move_len_ok _ _ _ _ _ _ _ _ Hat Hv HV1) as (iovlen & Em & Hio). eapply wps_step; [exact Em |].
  destruct (joined_length_ok iovlen len lv li Hio Hlr Hlt) as [Hjr Hj].
  change (fst v :: r ++ b) with ((fst v :: r) ++ b) in Hk1. rewrite <- Er in Hk1.
  apply (move_to_new s1 k nk a b v n (pvbuf_words size - 1) Hinv1 Hk1 Hnk1 ltac:(lia) Hne Hv bool (fun pos =>
    let pos := if XDP2_PADDR_IS_LONG_ADDR p1 then pos - 1 else pos in
    _ ← xdp2_pvbuf_iovec_set_paddr_ent nk pos p1 p2 len;
    index ← (if bool_decide (ptype (fst v) = TLong) then _ ← xdp2_pvbuf_iovec_clear_ent k (Z.of_nat (length a)); mret (Z.of_nat (length a) + 1)
             else mret (Z.of_nat (length a)));
    b ← xdp2_pvbuf_iovec_map_isset k index; _ ← massert b;
    w ← lift (xdp2_pvbuf_set_pvbuf_iovec np (joined_length iovlen len)); _ ← st_iovec k index w; mret true)); [lia |].
  pose proof (words_length q) as Hwq. pose proof (words_length v) as Hwv. destruct (stamp_inv _ _ _ _ Hst) as (Hqt & _).
  set (m := (n - length (words_of v) - length (words_of q))%nat).
  assert (length (words_of v) <= 2 /\ length (words_of q) <= 2)%nat as [Hv2 Hq2] by (rewrite Hwq, Hwv; destruct (decide _), (decide _); lia).
  set (s2 := upd nk (replicate (n - length (words_of v)) 0 ++ words_of v) s1).
  assert (heap s2 !! nk = Some (mk (replicate m 0 ++ room q ++ words_of v))) as Hnk2.
  { unfold s2. rewrite heap_upd, lookup_insert_eq. rewrite (replicate_split _ (length (words_of q))) by lia. by rewrite <- app_assoc. }
  eapply wps_step.
  { replace (if XDP2_PADDR_IS_LONG_ADDR p1 then _ else _) with (Z.of_nat (length (replicate m 0))).
    - apply (set_paddr_ent_ok nk _ _ p1 p2 len q s2 Hnk2); [| done]. rewrite !length_app. unfold room. rewrite !length_replicate. lia.
    - rewrite is_long_ptype, <- Hqt, length_replicate. unfold m. rewrite Hwq. case_bool_decide as Eb;
        [rewrite decide_True by done | rewrite decide_False by done]; lia. }
  unfold s2. rewrite upd_upd.
  set (c := replicate m 0 ++ words_of q ++ words_of v).
  destruct (new_pvbuf_tail s (upd nk c s1) k nk np a b v c (joined_length iovlen len) (max dI dV) (li ++ lv) (kI ∪ kV))
    as (s3 & idx & w & s4 & E1 & E2 & E3 & E4 & Hpost);
    [| | | done | done | | apply lookup_insert_eq | done | done | done | done | | done | done | by rewrite total_app |].
  - eapply inv_upd; [done | exact Hnk1 |]. unfold c. rewrite !length_app, !length_replicate. lia.
  - rewrite <- Hp0, <- Hp1. done.
  - rewrite <- Hc0. by apply (step_conf _ _ _ _ Hstep).
  - intros k' Hk'. rewrite heap_upd, lookup_insert_ne by auto. by rewrite Hh1, lookup_insert_ne by auto.
  - apply segs_zeros, segs_app; [| | done]; eapply segs_deeper; [done | lia | done | lia].
  - eapply wps_step; [exact E1 |]. eapply wps_step; [exact E2 |]. apply wps_assert; [done |]. eapply wps_lift; [exact E3 |].
    eapply wps_step; [exact E4 |]. by apply wps_ret.
Qed.

(** ** The length of a changed pvbuf *)

Lemma adjust_length_ok k a b w len l1 li s :
  heap s !! k = Some (mk (a ++ w :: b)) -> (length a + S (length b) <= 64)%nat -> ptype w = TPvbuf -> dlen_ok w l1 ->
  0 <= len < 2 ^ 32 -> (len = 0 \/ len = total li) ->
  exists w', adjust_length k (Z.of_nat (length a)) len s = Done (upd k (a ++ w' :: b) s, tt) /\ ptype w' = TPvbuf /\ key_of w' = key_of w /\
    forall l, total l = total li + total l1 -> dlen_ok w' l.
Proof.
  intros Hk Hl Hw Hd Hr Hlen. unfold adjust_length, mbind, pvm_bind. rewrite (ld_iovec_mid k a b w s Hk Hl).
  pose proof (bf_get_range pvbuf_data_length w ltac:(field_side)) as Hdl. cbn [f_width pvbuf_data_length] in Hdl.
  destruct (Z.eqb_spec (bf_get pvbuf_data_length w) 0) as [E | E].
  { exists w. rewrite upd_same by done. split_and!; try done. intros l _. by left. }
  destruct Hd as [| Hd]; [done |].
  set (x := if negb (len =? 0) && _ then _ else 0).
  assert (0 <= x < 2 ^ 32 /\ (x = 0 \/ x = total li + total l1)) as [Hx Hx'].
  { unfold x, XDP2_PVBUF_MAX_LEN, u64. destruct (Z.eqb_spec len 0); cbn [negb andb]; [lia |]. rewrite Z.mod_small by lia.
    destruct (Z.ltb_spec (bf_get pvbuf_data_length w + len) (2 ^ 32)); lia. }
  assert (ptype (bf_set pvbuf_data_length x w) = TPvbuf) as Ht by (rewrite bf_set_tag; [done | field_side | done]).
  exists (bf_set pvbuf_data_length x w). rewrite (st_iovec_mid k a b w); try done; [| apply ptype_nonzero; by rewrite Hw | apply ptype_nonzero; by rewrite Ht].
  split_and!; try done.
  - unfold key_of. by rewrite !bf_get_set_other by field_side.
  - intros l Hl'. unfold dlen_ok. rewrite bf_get_set_small, Hl' by (field_side || done). done.
Qed.

Lemma item_frame s s' p1 p2 len q d li kI :
  item s p1 p2 len q d li kI -> (forall k, k ∈ kI -> heap s' !! k = heap s !! k) -> item s' p1 p2 len q d li kI.
Proof. intros [H1 H2 H3 H4] Hf. split; [done | | done | done]. by eapply segs_frame. Qed.

(** ** Prepending *)

(** The result of adding the buffers [li]: [new] are the buffers then. *)
Definition ins_post (s : xdp2_pvbuf_mgr) (p : Z) (d dI : nat) (ls new : list leaf) (ks kI : gset pvptr) (b : bool) (s' : xdp2_pvbuf_mgr) : Prop :=
  pv_inv s' /\ mpb s' = mpb s /\ exists ks',
  if b then pv_step s s' (ks ∪ kI) ks' /\ rep (heap s') (S d + dI) p new ks' else pv_step s s' ks ks' /\ rep (heap s') d p ls ks'.

(** The iovecs were moved first. *)
Lemma ins_post_moved s p d dI ls new ks kI ws b s' :
  key_of p ∈ ks -> ins_post (upd (key_of p) ws s) p d dI ls new ks kI b s' -> ins_post s p d dI ls new ks kI b s'.
Proof.
  intros Hk (Hi & Hp & ks' & H). split_and!; [done | done |]. exists ks'. destruct b; destruct H as [Hst Hr]; (split; [| done]);
    (eapply pv_step_trans; [| exact Hst]); apply pv_step_upd; [by apply elem_of_union_l | done].
Qed.

Lemma moved_state s p ws0 ws d ls ks p1 p2 len q dI li kI :
  pv_inv s -> heap s !! key_of p = Some (mk ws0) -> segs (heap s) d ws0 ls ks -> key_of p ∉ ks -> item s p1 p2 len q dI li kI -> kI ## {[key_of p]} ∪ ks ->
  moved ws0 ws ->
  pv_inv (upd (key_of p) ws s) /\ item (upd (key_of p) ws s) p1 p2 len q dI li kI /\ segs (heap (upd (key_of p) ws s)) d ws ls ks /\
  heap (upd (key_of p) ws s) !! key_of p = Some (mk ws) /\ length ws0 = length ws.
Proof.
  intros Hinv Hk Hs Hn Hit HI [Hlen Hmv]. split_and!; [by eapply inv_upd | | | apply lookup_insert_eq | done].
  - eapply item_frame; [done |]. intros k Hk'. rewrite heap_upd, lookup_insert_ne; [done |]. intros <-. apply (HI _ Hk'). apply elem_of_union_l, elem_of_singleton. done.
  - eapply segs_frame; [by apply Hmv |]. intros k Hk'. rewrite heap_upd, lookup_insert_ne; [done |]. by intros <-.
Qed.

(** Stored in the pvbuf itself. *)
Lemma ins_post_stored s p ws d dI ls new ks kI ws' :
  pv_inv s -> ptype p = TPvbuf -> heap s !! key_of p = Some (mk ws) -> length ws' = length ws -> key_of p ∉ ks ∪ kI ->
  segs (heap s) (S d + dI) ws' new (ks ∪ kI) ->
  ins_post s p d dI ls new ({[key_of p]} ∪ ks) kI true (upd (key_of p) ws' s).
Proof.
  intros Hinv Hp Hk Hl Hn Hs. split_and!; [by eapply inv_upd | done |]. exists ({[key_of p]} ∪ (ks ∪ kI)). split.
  - rewrite (assoc_L (∪)). apply pv_step_upd. apply elem_of_union_l, elem_of_union_l, elem_of_singleton. done.
  - split; [done |]. exists ws', (ks ∪ kI). split_and!; [apply lookup_insert_eq | | done | done].
    eapply segs_frame; [exact Hs |]. intros k Hk'. rewrite heap_upd, lookup_insert_ne; [done |]. intros <-. done.
Qed.

Lemma notin_around (k : pvptr) (A V B X : gset pvptr) : k ∉ A ∪ V ∪ B -> {[k]} ∪ (A ∪ B) ## X -> k ∉ A ∪ (X ∪ B).
Proof.
  intros Hk Hd. pose proof (not_elem_disjoint k _ _ Hd ltac:(apply elem_of_union_l, elem_of_singleton; done)) as Hn.
  rewrite !not_elem_of_union in *. tauto.
Qed.

(** *** Replacing one unit of a pvbuf

    The iovecs are [a], those of the unit [u], and [b]. *)

Section Replace.
Context (s : xdp2_pvbuf_mgr) (p : Z) (d dI : nat) (a b u : list Z) (la lv lb : list leaf) (ka kv kb kI : gset pvptr).
Context (Hinv : pv_inv s) (Hp : ptype p = TPvbuf) (Hk : heap s !! key_of p = Some (mk (a ++ u ++ b))).
Context (Ha : segs (heap s) d a la ka) (Hv : segs (heap s) d (u) lv kv) (Hb : segs (heap s) d b lb kb).
Context (Hdav : ka ## kv) (Hdab : ka ## kb) (Hdvb : kv ## kb) (Hpk : key_of p ∉ ka ∪ kv ∪ kb).
Context (HI : kI ## {[key_of p]} ∪ (ka ∪ kv ∪ kb)) (HIdom : forall k, k ∈ kI -> is_Some (heap s !! k)).

Abbreviation all := ({[key_of p]} ∪ (ka ∪ kv ∪ kb)).

Lemma before_rep : rep (heap s) d p (la ++ lv ++ lb) all.
Proof using Hp Hk Ha Hv Hb Hdav Hdab Hdvb Hpk.
  split; [done |]. exists (a ++ u ++ b), (ka ∪ kv ∪ kb). split_and!; [done | | done | done].
  rewrite <- (assoc_L (∪)). apply segs_app; [done | by apply segs_app |]. clear - Hdav Hdab. set_solver.
Qed.

(** All of them are in the heap. *)
Lemma all_dom k : k ∈ all ∪ kI -> is_Some (heap s !! k).
Proof using Hp Hk Ha Hv Hb Hdav Hdab Hdvb Hpk HIdom.
  intros [H | H]%elem_of_union; [| by apply HIdom]. by apply (rep_dom _ _ _ _ _ before_rep).
Qed.

Lemma ins_post_new dd lu' r s' :
  new_post s (key_of p) a b u dd lu' (kI ∪ kv) r s' -> (dd <= S d + dI)%nat ->
  ins_post s p d dI (la ++ lv ++ lb) (la ++ lu' ++ lb) all kI r s'.
Proof using Hp Hk Ha Hv Hb Hdav Hdab Hdvb Hpk HI HIdom.
  intros (Hinv' & Hpb & Hcf & Hr) Hdd. split_and!; [done | done |]. destruct r.
  2: { exists all. rewrite Hr. split; [| apply before_rep]. split; [done | | by left]. intros k Hk'. rewrite Hr. by rewrite decide_False. }
  destruct Hr as (w & nk & Hnn & Hw & Hk' & Hs & Hoth).
  assert (nk ∉ all ∪ kI) as Hnk by (intros Hin; destruct (all_dom nk Hin); congruence).
  assert (forall k', k' ∈ ka ∪ kb -> heap s' !! k' = heap s !! k') as Hfr.
  { intros k' Hk1. apply Hoth; intros ->; [apply Hpk | apply Hnk]; clear - Hk1; set_solver. }
  exists ({[key_of p]} ∪ (ka ∪ ({[nk]} ∪ (kI ∪ kv)) ∪ kb)). split.
  - split; [done | |].
    + intros k' Hk1. rewrite decide_False by (clear - Hk1; set_solver). apply Hoth; intros ->; apply Hk1; clear; set_solver.
    + intros k' Hk1. destruct (decide (k' = nk)) as [-> | Hne]; [by right | left]. clear - Hk1 Hne. set_solver.
  - split; [done |]. exists (a ++ replicate (length (u) - 1) 0 ++ w :: b), (ka ∪ ({[nk]} ∪ (kI ∪ kv)) ∪ kb). split_and!; [done | | | done].
    + rewrite <- (assoc_L (∪) ka). apply segs_app.
      * apply (segs_deeper _ d); [| lia]. eapply segs_frame; [exact Ha |]. intros k' Hk1. apply Hfr. clear - Hk1. set_solver.
      * apply segs_zeros. apply (segs_app _ _ [w] lu'); [by apply (segs_deeper _ dd) | |].
        -- apply (segs_deeper _ d); [| lia]. eapply segs_frame; [exact Hb |]. intros k' Hk1. apply Hfr. clear - Hk1. set_solver.
        -- clear - HI Hdvb Hnk. set_solver.
      * clear - HI Hdav Hdab Hnk. set_solver.
    + clear - HI Hpk Hnk. set_solver.
Qed.

(** The iovec is a pvbuf that was changed. *)
Lemma ins_post_sub w d' lv' r s2 len li :
  u = [w] -> d = S d' -> rep (heap s) d' w lv kv -> dlen_ok w lv -> ins_post s w d' dI lv lv' kv kI r s2 ->
  0 <= len < 2 ^ 32 -> (len = 0 \/ len = total li) -> total lv' = total li + total lv ->
  wps (if negb r then mret false else _ ← adjust_length (key_of p) (Z.of_nat (length a)) len; mret true) s2 (fun r s' =>
    ins_post s p d dI (la ++ lv ++ lb) (la ++ lv' ++ lb) all kI r s' /\
    (r = true -> exists w', ptype w' = TPvbuf /\ heap s' !! key_of p = Some (mk (a ++ w' :: b)))).
Proof using Hp Hk Ha Hv Hb Hdav Hdab Hdvb Hpk HI HIdom.
  pose proof all_dom as Had. intros -> -> Hrep Hdl (Hinv2 & Hpb & ks' & Hr) Hlr Hlen Htot.
  assert (ptype w = TPvbuf) as Hw by apply Hrep. pose proof (ptype_nonzero w ltac:(by rewrite Hw)) as Hw0.
  cbn [app] in Hk.
  set (kf := {[key_of p]} ∪ (ka ∪ kb)).
  assert (exists kin, pv_step s s2 kin ks' /\ kf ## kin /\ all = kv ∪ kf /\ kin = (if r then kv ∪ kI else kv)) as (kin & Hst & Hkf & Hall & Hkin).
  { destruct r; destruct Hr as [Hst _]; eexists; (split; [exact Hst |]); unfold kf; clear - HI Hdav Hdvb Hpk; split_and!; set_solver. }
  assert (forall k, k ∈ kf -> is_Some (heap s !! k)) as Hkd.
  { intros k Hin. apply Had. rewrite Hall. clear - Hin. set_solver. }
  pose proof (pv_step_disjoint _ _ _ _ _ Hst Hkf Hkd) as Hdj. pose proof (pv_step_same _ _ _ _ _ Hst Hkf Hkd) as Hsame.
  assert (heap s2 !! key_of p = Some (mk (a ++ w :: b))) as Hk2 by (rewrite Hsame by (unfold kf; clear; key_solver); done).
  assert (segs (heap s2) (S d') a la ka) as Ha2 by (eapply segs_frame; [exact Ha |]; intros k Hin; apply Hsame; unfold kf; clear - Hin; key_solver).
  assert (segs (heap s2) (S d') b lb kb) as Hb2 by (eapply segs_frame; [exact Hb |]; intros k Hin; apply Hsame; unfold kf; clear - Hin; key_solver).
  pose proof (inv_bounds _ Hinv2 _ _ Hk2) as Hbd. rewrite length_app in Hbd. cbn [length] in Hbd.
  destruct r; cbn [negb]; destruct Hr as [_ Hr].
  - destruct (adjust_length_ok (key_of p) a b w len lv li s2 Hk2 ltac:(lia) Hw Hdl Hlr Hlen) as (w' & Ea & Hw' & Hkw & Hdl').
    eapply wps_step; [exact Ea |]. apply wps_ret. split; [| intros _; exists w'; split; [done | apply lookup_insert_eq]]. split_and!; [eapply inv_upd; [done | done |]; rewrite !length_app; done | done |].
    exists (ks' ∪ kf). split.
    + eapply pv_step_trans; [| apply pv_step_upd; unfold kf; clear; key_solver].
      replace (all ∪ kI) with (kin ∪ kf) by (rewrite Hall, Hkin; clear; key_solver). by apply pv_step_frame.
    + assert ({[key_of p]} ∪ (ka ∪ kb) ## ks') as Hdj' by exact Hdj. destruct Hr as (_ & sub & ks2 & Hsub & Hss & Hn2 & ->). rewrite <- Hkw in *.
      split; [done |]. exists (a ++ w' :: b), (ka ∪ (({[key_of w']} ∪ ks2) ∪ kb)).
      assert (key_of p ∉ ka ∪ ({[key_of w']} ∪ ks2 ∪ kb)) as Hnp by by apply (notin_around _ _ kv).
      split_and!; [apply lookup_insert_eq | | done | unfold kf; clear; key_solver].
      assert (forall k, k ∈ ka ∪ ({[key_of w']} ∪ ks2 ∪ kb) -> heap (upd (key_of p) (a ++ w' :: b) s2) !! k = heap s2 !! k) as Hu.
      { intros k Hin. rewrite heap_upd, lookup_insert_ne; [done |]. by intros <-. }
      apply (segs_frame (heap s2)); [| exact Hu]. apply segs_app; [by apply (segs_deeper _ (S d')); [| lia] | | clear - Hdj' Hdab; key_solver].
      replace (S (S d') + dI)%nat with (S (S d' + dI)) by lia. eapply segs_sub; [done | exact Hsub | exact Hss | by apply Hdl' | | done | clear - Hdj'; key_solver].
      apply (segs_deeper _ (S d')); [done | lia].
  - apply wps_ret. split; [| done]. split_and!; [done | done |]. exists (ks' ∪ kf). split.
    + rewrite Hall, <- Hkin. by apply pv_step_frame.
    + assert ({[key_of p]} ∪ (ka ∪ kb) ## ks') as Hdj' by exact Hdj. split; [done |]. exists (a ++ w :: b), (ka ∪ (ks' ∪ kb)).
      split_and!; [done | | by apply (notin_around _ _ kv) | unfold kf; clear; key_solver].
      apply segs_app; [done | | clear - Hdj' Hdab; key_solver]. eapply segs_rep; [done | done | done | clear - Hdj'; key_solver].
Qed.
End Replace.

(** *** The address is put in front of the first unit [v]. *)

Lemma prepend_into_ok (prepend_paddr : Z -> pvm bool) s p d dI n b v lv lb kv kb p1 p2 len q li kI :
  pv_inv s -> ptype p = TPvbuf -> heap s !! key_of p = Some (mk (replicate n 0 ++ words_of v ++ b)) -> unit_ok v ->
  segs (heap s) d (words_of v) lv kv -> segs (heap s) d b lb kb -> kv ## kb -> key_of p ∉ kv ∪ kb ->
  item s p1 p2 len q dI li kI -> kI ## {[key_of p]} ∪ (kv ∪ kb) ->
  (forall d' w, d = S d' -> v = (w, 0) -> rep (heap s) d' w lv kv -> wps (prepend_paddr w) s (ins_post s w d' dI lv (li ++ lv) kv kI)) ->
  wps (___xdp2_pvbuf_prepend_paddr_into_iovec random prepend_paddr (key_of p) (Z.of_nat n) p1 p2 len) s
    (ins_post s p d dI (lv ++ lb) (li ++ lv ++ lb) ({[key_of p]} ∪ (kv ∪ kb)) kI).
Proof.
  intros Hinv Hp Hk Hv Hs Hb Hdj Hn Hit HI Hrec. set (a := replicate n 0). fold a in Hk.
  assert (Z.of_nat n = Z.of_nat (length a)) as -> by (unfold a; by rewrite length_replicate).
  assert (segs (heap s) d a [] ∅) as Ha by (rewrite <- (app_nil_r a); apply segs_zeros, segs_nil).
  assert (kv ∪ kb = ∅ ∪ kv ∪ kb) as Eu by (by rewrite (left_id_L ∅ (∪))). rewrite Eu in *.
  pose proof (inv_bounds _ Hinv _ _ Hk) as Hbd. destruct (words_cons v) as (r & Er & Hr). pose proof Hv as [Hv0 _].
  assert (forall k, k ∈ kI -> is_Some (heap s !! k)) as HId by (apply (segs_dom _ _ _ _ _ (item_segs _ _ _ _ _ _ _ _ Hit))).
  unfold ___xdp2_pvbuf_prepend_paddr_into_iovec. eapply wps_step.
  { apply (ld_iovec_mid _ a (r ++ b) (fst v)); [by rewrite Hk, Er |]. rewrite Er, !length_app in Hbd. cbn [length] in Hbd. rewrite length_app. lia. }
  apply wps_assert; [by destruct (Z.eqb_spec (fst v) 0) |].
  assert (ptype (fst v) <> TPvbuf -> wps (__xdp2_pvbuf_prepend_paddr_into_iovec_new_pvbuf random (key_of p) (Z.of_nat (length a)) p1 p2 len) s
    (ins_post s p d dI (lv ++ lb) (li ++ lv ++ lb) ({[key_of p]} ∪ (∅ ∪ kv ∪ kb)) kI)) as Hnew.
  { intros _. eapply wps_mono; [apply (prepend_new_ok s _ a b v p1 p2 len q dI li kI d lv kv); try done; clear - Hn HI; key_solver |].
    intros x s' Hx. rewrite (app_assoc li). apply (ins_post_new s p d dI a b (words_of v) [] lv lb ∅ kv kb kI) with (dd := S (Nat.max dI d)); try done; try lia; apply disjoint_empty_l. }
  destruct (ptype (fst v)) eqn:Et; [| by apply Hnew..].
  destruct (segs_first _ _ _ _ _ _ Hv0 ltac:(by rewrite Er in Hs)) as [lr Hbf -> _ | w2 ws' lr Hc -> -> _ | d' l1 lr kk1 kk -> Hrep Hdl Hr' Hdj' El Ek].
  { by destruct Hbf as [E | [E | E]]; rewrite E in Et. }
  { apply long_check in Hc as (_ & E & _). by rewrite E in Et. }
  destruct Hr as [[E _] | [_ ->]]; [by rewrite E in Et |]. inversion Hr'; subst lr kk. rewrite app_nil_r in El. rewrite (right_id_L ∅ (∪)) in Ek. subst l1 kk1.
  assert (v = (fst v, 0)) as Ev by (destruct Hv as [_ Hv2]; rewrite Et, decide_False in Hv2 by done; destruct v; cbn in *; by subst).
  apply wps_bind. eapply wps_mono; [by apply (Hrec d' (fst v)) |]. intros x s2 Hx. rewrite (app_assoc li).
  eapply wps_proj, (ins_post_sub s p (S d') dI a b (words_of v) [] lv lb ∅ kv kb kI) with (w := fst v) (d' := d') (lv' := li ++ lv) (li := li); try done; try apply disjoint_empty_l;
    [apply Hit | apply Hit | apply total_app].
Qed.

Lemma prepend_store_ok s p n rest d dI ls ks p1 p2 len q li kI i :
  pv_inv s -> ptype p = TPvbuf -> heap s !! key_of p = Some (mk (replicate n 0 ++ rest)) -> segs (heap s) d rest ls ks -> key_of p ∉ ks ->
  item s p1 p2 len q dI li kI -> kI ## {[key_of p]} ∪ ks -> (length (words_of q) <= n)%nat -> i = Z.of_nat (n - length (words_of q)) ->
  wps (_ ← xdp2_pvbuf_iovec_set_paddr_ent (key_of p) i p1 p2 len; mret true) s (ins_post s p d dI ls (li ++ ls) ({[key_of p]} ∪ ks) kI).
Proof.
  intros Hinv Hp Hk Hs Hn [Hst HIs Hlr Hlt] HI Hm ->. pose proof (inv_bounds _ Hinv _ _ Hk) as Hbd. set (m := (n - length (words_of q))%nat).
  rewrite (replicate_split n (length (words_of q))), <- app_assoc in Hk by done. fold m in Hk. fold (room q) in Hk.
  replace (Z.of_nat m) with (Z.of_nat (length (replicate m 0))) by (by rewrite length_replicate). rewrite length_app, length_replicate in Hbd.
  eapply wps_step; [apply (set_paddr_ent_ok _ _ _ p1 p2 len q s Hk); [rewrite !length_app; unfold room; rewrite !length_replicate; lia | done] |].
  apply wps_ret. eapply ins_post_stored; [done | done | exact Hk | rewrite !length_app; unfold room; rewrite !length_replicate; lia | |].
  - clear - Hn HI. key_solver.
  - rewrite (comm_L (∪) ks). apply segs_zeros, segs_app; [apply (segs_deeper _ dI); [done | lia] | apply (segs_deeper _ d); [done | lia] | clear - HI; key_solver].
Qed.

Lemma prepend_paddr_wps fuel : forall d p ls ks p1 p2 len q dI li kI compress s,
  pv_inv s -> rep (heap s) d p ls ks -> (d < fuel)%nat -> item s p1 p2 len q dI li kI -> kI ## ks ->
  wps (__xdp2_pvbuf_prepend_paddr random fuel p p1 p2 len compress) s (ins_post s p d dI ls (li ++ ls) ks kI).
Proof.
  induction fuel as [| fuel IH]; intros d p ls ks p1 p2 len q dI li kI compress s Hinv (Hp & ws0 & ks1 & Hk0 & Hs0 & Hn & ->) Hd Hit HI; [lia |].
  cbn [__xdp2_pvbuf_prepend_paddr]. eapply wps_lift; [by eapply num_iovecs_ok |]. eapply wps_step; [by eapply paddr_to_addr_ok |].
  apply wps_bind. eapply wps_mono; [by apply (find_prepend_slot_ok _ _ ws0) |]. intros i s1 (ws & -> & Hmv & Hslot).
  apply (wps_mono _ _ (ins_post (upd (key_of p) ws s) p d dI ls (li ++ ls) ({[key_of p]} ∪ ks1) kI));
    [| intros r s' Hr; eapply ins_post_moved; [apply elem_of_union_l, elem_of_singleton; done | exact Hr]].
  pose proof (inv_bounds _ Hinv _ _ Hk0) as Hbd.
  destruct (moved_state s p ws0 ws d ls ks1 p1 p2 len q dI li kI Hinv Hk0 Hs0 Hn Hit HI Hmv) as (Hinv1 & Hit1 & Hs & Hk & Hlen).
  rewrite Hlen in Hbd |- *. revert Hinv1 Hit1 Hs Hk. generalize (upd (key_of p) ws s) as s1. clear Hinv Hk0 Hs0 Hit Hmv ws0 Hlen s.
  intros s Hinv Hit Hs Hk. destruct (stamp_inv _ _ _ _ (item_stamp _ _ _ _ _ _ _ _ Hit)) as (Hqt & _). pose proof (words_length q) as Hwq. rewrite Hqt in Hwq.
  assert (forall n w rest, ws = replicate n 0 ++ w :: rest -> w <> 0 ->
    wps (___xdp2_pvbuf_prepend_paddr_into_iovec random (fun p0 => __xdp2_pvbuf_prepend_paddr random fuel p0 p1 p2 len compress) (key_of p) (Z.of_nat n) p1 p2 len) s
      (ins_post s p d dI ls (li ++ ls) ({[key_of p]} ∪ ks1) kI)) as Hinto.
  { intros n w rest -> Hw. apply segs_zeros_inv in Hs. destruct (first_unit _ _ _ _ _ _ Hw Hs) as (v & b & lv & lb & kv & kb & Ev & _ & Hv & Hsv & Hsb & Hvb & -> & ->).
    rewrite Ev in Hk. apply (prepend_into_ok _ s p d dI n b v lv lb kv kb p1 p2 len q li kI); try done.
    intros d' w' -> -> Hrep'. apply (IH d' w' lv kv p1 p2 len q dI li kI); try done; [lia | clear - HI; key_solver]. }
  rewrite is_long_ptype. destruct Hslot as [(n & rest & Ews & Hst & ->) | (-> & w & rest & Ews & Hw)].
  - pose proof Hbd as Hbd'. rewrite Ews, length_app, length_replicate in Hbd'. destruct (Z.ltb_spec (Z.of_nat n) (Z.of_nat (length ws))); [cbn [andb] | rewrite Ews, length_app, length_replicate in *; lia].
    case_bool_decide as El; [rewrite decide_True in Hwq by done | rewrite decide_False in Hwq by done]; cbn [negb Z.b2z]; rewrite ?orb_false_r, ?orb_true_r.
    2: { rewrite Ews in Hk, Hs. apply segs_zeros_inv in Hs. eapply prepend_store_ok; try done; lia. }
    destruct (Z.ltb_spec 0 (Z.of_nat n)).
    { rewrite Ews in Hk, Hs. apply segs_zeros_inv in Hs. eapply prepend_store_ok; try done; lia. }
    assert (n = 0%nat) as -> by lia. destruct rest as [| w rest]; [cbn in Hbd'; lia |]. cbn in Hst. cbn [Z.of_nat Z.eqb negb].
    assert (xdp2_pvbuf_iovec_map_isset (key_of p) 0 s = Done (s, false)) as Ei by (rewrite (isset_map s _ ws Hk) by lia; by rewrite Ews).
    eapply wps_bind. eapply wps_step; [exact Ei |]. apply wps_ret. by apply (Hinto 1%nat w rest).
  - unfold NO_SLOT. destruct (Z.ltb_spec (2 ^ 32 - 1) (Z.of_nat (length ws))); [lia |]. cbn [andb]. eapply wps_step; [done |]. by apply (Hinto 0%nat w rest).
Qed.
End Random.
