(* ===== verification/PvbufAppend.v ===== *)
(** * Packet vectors: appending an address *)

From stdpp Require Import base list gmap numbers.
From S2P Require Import Prelude BitmapWord BitmapWordSpec Memory Paddr Pvbuf PvbufEdit PvbufMap PvbufRep PvbufInv PvbufRead PvbufSlots PvbufInsert.

Section Random.
Context (random : nat -> Z).

(** The words of the last unit go to the front of the new pvbuf. *)
Lemma move_last_ok s1 k nk a v n d lv kv :
  pv_inv s1 -> heap s1 !! k = Some (mk (a ++ words_of v)) -> heap s1 !! nk = Some (mk (replicate n 0)) -> (7 <= n <= 63)%nat -> nk <> k ->
  unit_ok v -> segs (heap s1) d (words_of v) lv kv ->
  exists iovlen, move_last k (Z.of_nat (length (a ++ words_of v)) - 1) nk s1 =
      Done (upd nk (words_of v ++ replicate (n - length (words_of v)) 0) s1, (Z.of_nat (length a), iovlen, Z.of_nat (length (words_of v)))) /\
    (iovlen = XDP2_PVBUF_MAX_LEN \/ iovlen = total lv /\ 0 <= iovlen < 2 ^ 32).
Proof.
  intros Hinv Hk Hnk Hn Hne Hv Hs. pose proof (inv_bounds _ Hinv _ _ Hk) as Hb.
  assert (at_pos k (Z.of_nat (length a)) (words_of v ++ []) s1) as Hat.
  { exists (a ++ words_of v). split_and!; [done | lia | lia | rewrite length_app; lia |]. rewrite Nat2Z.id, app_nil_r. apply drop_app_length. }
  destruct (move_len_ok _ _ _ _ _ _ _ _ Hat Hv Hs) as (iovlen & Em & Hio). destruct Hv as [Hv0 Hvl].
  unfold words_of in *. destruct (decide (ptype (fst v) = TLong)) as [E | E]; rewrite length_app in Hb |- *; cbn [length] in *.
  - pose proof (proj1 (long_check _ _) Hvl) as (_ & _ & _ & _ & Et2 & Hw1 & Hv2). apply nonzero_of in Hv2.
    exists (leaf_len (fst v, snd v)). split.
    2: { right. destruct (segs_first _ _ _ _ _ _ Hv0 Hs) as [lr Hbf -> _ | w2 ws' lr Hc [= <- <-] -> Hr | d' l1 lr kk1 kk -> Hrep _ _ _ _ _].
         - by destruct Hbf as [E' | [E' | E']]; rewrite E' in E.
         - inversion Hr; subst. cbn [total]. pose proof (leaf_len_nonneg (fst v, snd v)). pose proof (leaf_len_u32 (fst v, snd v)). lia.
         - by destruct Hrep as [E' _]; rewrite E' in E. }
    unfold move_last, mbind, pvm_bind. replace (Z.of_nat (length a + 2) - 1) with (Z.of_nat (length (a ++ [fst v]))) by (rewrite length_app; cbn; lia).
    rewrite (ld_iovec_mid k (a ++ [fst v]) [] (snd v)) by (rewrite <- ?app_assoc, ?length_app; cbn; done || lia).
    destruct (Z.eqb_spec (snd v) 0); [done |]. cbn [negb massert lift XDP2_ASSERT mret outcome_ret]. rewrite Et2, Hw1. cbn [Z.eqb Pos.eqb].
    replace (Z.of_nat (length (a ++ [fst v])) - 1) with (Z.of_nat (length a)) by (rewrite length_app; cbn; lia).
    rewrite (ld_iovec_mid k a [snd v] (fst v)) by (cbn; done || lia).
    replace (Z.of_nat (length a) + 1) with (Z.of_nat (length (a ++ [fst v]))) by (rewrite length_app; cbn; lia).
    rewrite (ld_iovec_mid k (a ++ [fst v]) [] (snd v)) by (rewrite <- ?app_assoc, ?length_app; cbn; done || lia).
    rewrite Hvl. cbn [lift]. rewrite long_len_ok by done. cbn [lift].
    replace (replicate n 0) with (0 :: 0 :: replicate (n - 2) 0) in Hnk by (destruct n as [| [| n]]; [lia | lia |]; cbn; do 3 f_equal; lia).
    change (raw_set nk 0) with (raw_set nk (Z.of_nat (length (@nil Z)))).
    rewrite (raw_set_mid nk [] _ (fst v) s1 Hnk) by (cbn; rewrite ?length_replicate; done || lia).
    change (raw_set nk 1) with (raw_set nk (Z.of_nat (length [fst v]))).
    rewrite (raw_set_mid nk [fst v] (replicate (n - 2) 0) (snd v) (upd nk _ s1)); [| apply lookup_insert_eq | cbn; rewrite ?length_replicate; lia | done].
    rewrite upd_upd. done.
  - exists iovlen. split; [| done]. unfold move_last, mbind, pvm_bind. replace (Z.of_nat (length a + 1) - 1) with (Z.of_nat (length a)) by lia.
    rewrite (ld_iovec_mid k a [] (fst v)) by (cbn; done || lia). destruct (Z.eqb_spec (fst v) 0); [done |]. cbn [negb massert lift XDP2_ASSERT mret outcome_ret].
    replace (replicate n 0) with (0 :: replicate (n - 1) 0) in Hnk by (destruct n as [| n]; [lia |]; cbn; do 2 f_equal; lia).
    destruct (ptype (fst v)) eqn:Et; try done;
      rewrite Em; change (raw_set nk 0) with (raw_set nk (Z.of_nat (length (@nil Z)))); rewrite (raw_set_mid nk [] _ (fst v) s1 Hnk) by (cbn; rewrite ?length_replicate; done || lia); done.
Qed.

Lemma append_new_ok s k a v p1 p2 len q dI li kI dV lv kV :
  pv_inv s -> heap s !! k = Some (mk (a ++ words_of v)) -> unit_ok v -> segs (heap s) dV (words_of v) lv kV ->
  item s p1 p2 len q dI li kI -> kI ## kV -> k ∉ kI ∪ kV ->
  wps (__xdp2_pvbuf_append_paddr_into_iovec_new_pvbuf random k (Z.of_nat (length (a ++ words_of v)) - 1) p1 p2 len true) s
    (new_post s k a [] (words_of v) (S (max dI dV)) (lv ++ li) (kI ∪ kV)).
Proof.
  intros Hinv Hk Hv HV [Hst HI Hlr Hlt] Hdj Hkk. unfold __xdp2_pvbuf_append_paddr_into_iovec_new_pvbuf.
  apply wps_bind. eapply wps_mono; [by apply get_size_ok |]. intros size s0 (Hsz & Hinv0 & Hh0 & Hc0 & Hp0).
  apply wps_bind. eapply wps_mono; [by apply pvbuf_alloc_ok |]. intros [[np nk] |] s1; [| intros ->; apply wps_ret; by split_and!].
  intros (Hinv1 & Hstep & Hp1 & Hh1 & Hnn & Hsn & Hs7 & Hnp & Hkey & _). rewrite Hh0 in Hh1, Hnn. rewrite zero_mk in Hh1.
  destruct (num_words size) as [Hnw Hnr]; [lia |]. rewrite Hnw. set (n := Z.to_nat (pvbuf_words size)) in *.
  assert (nk <> k) as Hne by (intros ->; congruence).
  assert (heap s1 !! k = Some (mk (a ++ words_of v))) as Hk1 by (rewrite Hh1, lookup_insert_ne by done; done).
  assert (heap s1 !! nk = Some (mk (replicate n 0))) as Hnk1 by (rewrite Hh1; apply lookup_insert_eq).
  apply wps_assert; [lia |]. pose proof (inv_bounds _ Hinv1 _ _ Hk1) as Hb. pose proof Hv as [Hv0 _].
  assert (segs (heap s1) dV (words_of v) lv kV) as HV1.
  { eapply segs_frame; [exact HV |]. intros k' Hk'. rewrite Hh1. apply lookup_insert_ne. intros <-. destruct (segs_dom _ _ _ _ _ HV nk Hk'). congruence. }
  destruct (move_last_ok s1 k nk a v n dV lv kV Hinv1 Hk1 Hnk1 ltac:(lia) Hne Hv HV1) as (iovlen & Em & Hio). cbn [negb].
  eapply wps_step; [exact Em |]. cbn beta iota.
  destruct (joined_length_ok iovlen len lv li Hio Hlr Hlt) as [Hjr Hj].
  pose proof (words_length q) as Hwq. pose proof (words_length v) as Hwv.
  assert (length (words_of v) <= 2 /\ length (words_of q) <= 2)%nat as [Hv2 Hq2] by (rewrite Hwq, Hwv; destruct (decide _), (decide _); lia).
  set (m := (n - length (words_of v) - length (words_of q))%nat). set (s2 := upd nk (words_of v ++ replicate (n - length (words_of v)) 0) s1).
  assert (heap s2 !! nk = Some (mk (words_of v ++ room q ++ replicate m 0))) as Hnk2.
  { unfold s2. rewrite heap_upd, lookup_insert_eq. unfold room. rewrite <- replicate_add. do 4 f_equal. unfold m. lia. }
  eapply wps_step; [apply (set_paddr_ent_ok nk _ _ p1 p2 len q s2 Hnk2); [unfold room; rewrite !length_app, !length_replicate; lia | done] |].
  unfold s2. rewrite upd_upd. set (c := words_of v ++ words_of q ++ replicate m 0).
  destruct (new_pvbuf_tail s (upd nk c s1) k nk np a [] v c (joined_length iovlen len) (max dI dV) (lv ++ li) (kI ∪ kV))
    as (s3 & idx & w & s4 & E1 & E2 & E3 & E4 & Hpost);
    [| | | done | done | | apply lookup_insert_eq | by rewrite app_nil_r | done | done | done | | done | done | rewrite total_app; lia |].
  - eapply inv_upd; [done | exact Hnk1 |]. unfold c. rewrite !length_app, !length_replicate. lia.
  - rewrite <- Hp0, <- Hp1. done.
  - rewrite <- Hc0. by apply (step_conf _ _ _ _ Hstep).
  - intros k' Hk'. rewrite heap_upd, lookup_insert_ne by auto. by rewrite Hh1, lookup_insert_ne by auto.
  - unfold c. rewrite (app_assoc (words_of v)), (comm_L (∪) kI). apply segs_zeros_end, segs_app; [| | done]; eapply segs_deeper; [done | lia | done | lia].
  - destruct (words_cons v) as (r & Er & _).
    eapply wps_step.
    { apply (ld_iovec_mid k a r (fst v)); [rewrite heap_upd, lookup_insert_ne, Hk1, Er by done; done |]. rewrite Er, length_app in Hb. cbn [length] in Hb. lia. }
    rewrite is_long_ptype. eapply wps_step; [exact E1 |]. apply wps_bind. eapply wps_step; [exact E2 |]. eapply wps_run; [done |].
    eapply wps_lift; [exact E3 |]. eapply wps_step; [exact E4 |]. by apply wps_ret.
Qed.

(** The last iovec is not in use: the new pvbuf holds the address alone. *)
Lemma append_new_unset s p a d dI ls ks p1 p2 len q li kI :
  pv_inv s -> ptype p = TPvbuf -> heap s !! key_of p = Some (mk (a ++ [0])) -> segs (heap s) d a ls ks -> key_of p ∉ ks ->
  item s p1 p2 len q dI li kI -> kI ## {[key_of p]} ∪ ks ->
  wps (__xdp2_pvbuf_append_paddr_into_iovec_new_pvbuf random (key_of p) (Z.of_nat (length a)) p1 p2 len false) s
    (ins_post s p d dI ls (ls ++ li) ({[key_of p]} ∪ ks) kI).
Proof.
  intros Hinv Hp Hk Hs Hn [Hst HIs Hlr Hlt] HI. unfold __xdp2_pvbuf_append_paddr_into_iovec_new_pvbuf.
  apply wps_bind. eapply wps_mono; [by apply get_size_ok |]. intros size s0 (Hsz & Hinv0 & Hh0 & Hc0 & Hp0).
  assert (rep (heap s) d p ls ({[key_of p]} ∪ ks)) as Hrep.
  { split; [done |]. exists (a ++ [0]), ks. split_and!; try done. by apply (segs_zeros_end _ _ 1). }
  apply wps_bind. eapply wps_mono; [by apply pvbuf_alloc_ok |]. intros [[np nk] |] s1.
  2: { intros ->. apply wps_ret. split_and!; [done | done |]. exists ({[key_of p]} ∪ ks). rewrite Hh0. split; [| done].
       split; [done | | by left]. intros k' Hk'. rewrite Hh0. by rewrite decide_False. }
  intros (Hinv1 & Hstep & Hp1 & Hh1 & Hnn & Hsn & Hs7 & Hnp & Hkey & _). rewrite Hh0 in Hh1, Hnn. rewrite zero_mk in Hh1.
  destruct (num_words size) as [Hnw Hnr]; [lia |]. rewrite Hnw. set (n := Z.to_nat (pvbuf_words size)) in *.
  assert (nk <> key_of p) as Hne by (intros ->; congruence).
  assert (heap s1 !! key_of p = Some (mk (a ++ [0]))) as Hk1 by (rewrite Hh1, lookup_insert_ne by done; done).
  pose proof (inv_bounds _ Hinv1 _ _ Hk1) as Hb. rewrite length_app in Hb. cbn [length] in Hb.
  apply wps_assert; [lia |]. cbn [negb].
  destruct (joined_length_ok 0 len [] li ltac:(right; cbn; lia) Hlr Hlt) as [Hjr Hj]. rewrite Z.add_0_r in Hj.
  destruct (set_pvbuf_iovec_ok np _ Hnp Hjr) as (w & Ew & Hwt & Hwk & Hwl & Hw0).
  set (mp := map_of (a ++ [w])). set (s2 := put_heap (<[key_of p := Pvbuf mp (a ++ [0])]> (heap s1)) s1).
  assert (xdp2_pvbuf_iovec_map_set (key_of p) (Z.of_nat (length a)) s1 = Done (s2, tt)) as Ems.
  { unfold xdp2_pvbuf_iovec_map_set, s2, mp. erewrite map_update_ok; [done | exact Hk1 | lia |].
    rewrite (map_of_set (a ++ [0]) _ w) by (rewrite ?length_app; cbn [length]; done || lia). by rewrite Nat2Z.id, insert_middle. }
  apply wps_bind. eapply wps_step; [exact Ems |]. apply wps_ret. cbn beta iota.
  pose proof (words_length q) as Hwq. assert (length (words_of q) <= 2)%nat as Hq2 by (rewrite Hwq; destruct (decide _); lia).
  set (m := (n - length (words_of q))%nat).
  assert (heap s2 !! nk = Some (mk ([] ++ room q ++ replicate m 0))) as Hnk2.
  { unfold s2. cbn. rewrite lookup_insert_ne, Hh1, lookup_insert_eq by done. unfold room. rewrite <- replicate_add. do 3 f_equal. unfold m. lia. }
  eapply wps_step; [apply (set_paddr_ent_ok nk [] _ p1 p2 len q s2 Hnk2); [unfold room; rewrite !length_app, !length_replicate; cbn; lia | done] |]. cbn [app].
  set (c := words_of q ++ replicate m 0). set (s3 := upd nk c s2).
  assert (heap s3 !! key_of p = Some (Pvbuf mp (a ++ [0]))) as Hk3 by (unfold s3; rewrite heap_upd, lookup_insert_ne by done; apply lookup_insert_eq).
  eapply wps_step.
  { unfold ld_iovec, mbind, pvm_bind, ld_pvbuf. unfold heap in Hk3. rewrite Hk3. cbn [iovec]. unfold in_array. rewrite length_app. cbn [length].
    destruct (Z.leb_spec 0 (Z.of_nat (length a))), (Z.ltb_spec (Z.of_nat (length a)) (Z.of_nat (length a + 1))); try lia. cbn [andb].
    rewrite Nat2Z.id, list_lookup_middle by done. done. }
  cbn [andb]. eapply wps_step; [done |]. eapply wps_step; [done |]. eapply wps_lift; [exact Ew |].
  eapply wps_step; [apply (st_iovec_map s3 (key_of p) (a ++ [0]) ltac:(rewrite length_app; cbn; lia) _ w mp Hk3); rewrite length_app; cbn; lia |].
  rewrite Nat2Z.id, insert_middle. fold (mk (a ++ [w])). apply wps_ret.
  assert (put_heap (<[key_of p := Pvbuf mp (a ++ [w])]> (heap s3)) s3 = upd (key_of p) (a ++ [w]) (upd nk c s1)) as ->.
  { unfold s3, s2, upd. cbn. rewrite !put_put_heap. f_equal. rewrite (insert_insert_ne (heap s1) nk) by done. by rewrite insert_insert_eq. }
  assert (forall k, k ∈ kI -> is_Some (heap s !! k)) as HId by by apply (segs_dom _ _ _ _ _ HIs).
  assert (({[key_of p]} : gset pvptr) ∪ ks = {[key_of p]} ∪ (ks ∪ ∅ ∪ ∅)) as Eks by (by rewrite !(right_id_L ∅ (∪))). rewrite Eks in HI |- *.
  rewrite <- (app_nil_r ls) at 1. rewrite <- (app_nil_r li). change (ls ++ []) with (ls ++ [] ++ []).
  apply (ins_post_new s p d dI a [] [0] ls [] [] ks ∅ ∅ kI) with (dd := S dI); try done; try apply disjoint_empty_r; try apply segs_nil; try lia.
  - apply segs_null, segs_nil.
  - by rewrite !(right_id_L ∅ (∪)).
  - rewrite (right_id_L ∅ (∪)). apply (new_post_intro s (upd nk c s1) (key_of p) nk a [] [0] c w (a ++ [0])); try done.
    + eapply inv_upd; [done | by rewrite Hh1; apply lookup_insert_eq |]. unfold c. rewrite !length_app, !length_replicate. lia.
    + rewrite <- Hp0, <- Hp1. done.
    + rewrite <- Hc0. by apply (step_conf _ _ _ _ Hstep).
    + intros k' H1 H2. rewrite heap_upd, lookup_insert_ne by auto. by rewrite Hh1, lookup_insert_ne by auto.
    + apply lookup_insert_eq.
    + by rewrite heap_upd, lookup_insert_ne.
    + rewrite !length_app. done.
    + congruence.
    + unfold dlen_ok. rewrite Hwl. done.
    + by apply segs_zeros_end.
    + clear - HI. key_solver.
Qed.

(** The address is put behind the last unit. *)
Lemma append_into_ok (append_paddr : Z -> pvm bool) s p d dI ws w ls ks p1 p2 len q li kI :
  pv_inv s -> ptype p = TPvbuf -> heap s !! key_of p = Some (mk (ws ++ [w])) -> w <> 0 ->
  segs (heap s) d (ws ++ [w]) ls ks -> key_of p ∉ ks -> item s p1 p2 len q dI li kI -> kI ## {[key_of p]} ∪ ks ->
  (forall d' l1 k1, d = S d' -> rep (heap s) d' w l1 k1 -> k1 ⊆ ks -> wps (append_paddr w) s (ins_post s w d' dI l1 (l1 ++ li) k1 kI)) ->
  wps (___xdp2_pvbuf_append_paddr_into_iovec random append_paddr (key_of p) (Z.of_nat (length (ws ++ [w])) - 1) p1 p2 len true) s
    (ins_post s p d dI ls (ls ++ li) ({[key_of p]} ∪ ks) kI).
Proof.
  intros Hinv Hp Hk Hw Hs Hn Hit HI Hrec. pose proof (inv_bounds _ Hinv _ _ Hk) as Hbd.
  assert (forall k, k ∈ kI -> is_Some (heap s !! k)) as HId by (apply (segs_dom _ _ _ _ _ (item_segs _ _ _ _ _ _ _ _ Hit))).
  unfold ___xdp2_pvbuf_append_paddr_into_iovec. rewrite length_app in Hbd. cbn [length] in Hbd.
  assert (Z.of_nat (length (ws ++ [w])) - 1 = Z.of_nat (length ws)) as El by (rewrite length_app; cbn; lia).
  eapply wps_step. { rewrite El. apply (ld_iovec_mid _ ws [] w); [done | cbn; lia]. }
  cbn [andb]. rewrite is_pvbuf_ptype. case_bool_decide as Et.
  - destruct (segs_last _ _ _ _ _ _ Hw Hs) as [lr Hb _ _ | w1 ws' lr Hc _ _ _ | d' l1 la kv ka -> Hrep Hdl Ha Hdj -> ->].
    { by destruct Hb as [E | [E | E]]; rewrite E in Et. }
    { apply long_check in Hc as (_ & _ & _ & _ & E & _). by rewrite E in Et. }
    apply wps_bind. eapply wps_mono; [apply (Hrec d' l1 kv eq_refl Hrep); clear; set_solver |]. intros x s2 Hx. rewrite El.
    assert (ka ∪ kv = ka ∪ kv ∪ ∅) as Eu by (by rewrite (right_id_L ∅ (∪))). rewrite Eu in *.
    replace (la ++ l1) with (la ++ l1 ++ []) by (by rewrite app_nil_r). replace ((la ++ l1 ++ []) ++ li) with (la ++ (l1 ++ li) ++ []) by (by rewrite !app_nil_r, app_assoc).
    eapply wps_proj, (ins_post_sub s p (S d') dI ws [] [w] la l1 [] ka kv ∅ kI) with (w := w) (d' := d') (lv' := l1 ++ li) (li := li); try done;
      try apply disjoint_empty_r; try apply segs_nil; [| apply Hit | apply Hit | rewrite total_app; lia].
    rewrite <- (app_nil_r l1), <- (right_id_L ∅ (∪) kv). eapply segs_rep; [done | done | apply segs_nil | apply disjoint_empty_r].
  - destruct (last_unit _ _ _ _ _ _ Hw Hs) as (v & a & lv & la & kv & ka & Ev & _ & _ & Hv & Hsv & Hsa & Hdj & -> & ->). rewrite Ev in Hk |- *.
    assert (ka ∪ kv = ka ∪ kv ∪ ∅) as Eu by (by rewrite (right_id_L ∅ (∪))). rewrite Eu in *.
    eapply wps_mono; [apply (append_new_ok s _ a v p1 p2 len q dI li kI d lv kv); try done; clear - Hn HI; key_solver |].
    intros x s' Hx. replace (la ++ lv) with (la ++ lv ++ []) by (by rewrite app_nil_r). replace ((la ++ lv ++ []) ++ li) with (la ++ (lv ++ li) ++ []) by (by rewrite !app_nil_r, app_assoc).
    apply (ins_post_new s p d dI a [] (words_of v) la lv [] ka kv ∅ kI) with (dd := S (Nat.max dI d)); try done;
      try apply disjoint_empty_r; try apply segs_nil; [by rewrite app_nil_r | lia].
Qed.

Lemma append_store_ok s p n rest d dI ls ks p1 p2 len q li kI :
  pv_inv s -> ptype p = TPvbuf -> heap s !! key_of p = Some (mk (rest ++ replicate n 0)) -> segs (heap s) d rest ls ks -> key_of p ∉ ks ->
  item s p1 p2 len q dI li kI -> kI ## {[key_of p]} ∪ ks -> (length (words_of q) <= n)%nat ->
  wps (_ ← xdp2_pvbuf_iovec_set_paddr_ent (key_of p) (Z.of_nat (length rest)) p1 p2 len; mret true) s (ins_post s p d dI ls (ls ++ li) ({[key_of p]} ∪ ks) kI).
Proof.
  intros Hinv Hp Hk Hs Hn [Hst HIs Hlr Hlt] HI Hm. pose proof (inv_bounds _ Hinv _ _ Hk) as Hbd. set (m := (n - length (words_of q))%nat).
  replace n with (length (words_of q) + m)%nat in Hk by lia. rewrite replicate_add in Hk. fold (room q) in Hk. rewrite length_app, length_replicate in Hbd.
  eapply wps_step; [apply (set_paddr_ent_ok _ _ _ p1 p2 len q s Hk); [unfold room; rewrite !length_app, !length_replicate; lia | done] |].
  apply wps_ret. eapply ins_post_stored; [done | done | exact Hk | unfold room; rewrite !length_app, !length_replicate; lia | |].
  - clear - Hn HI. key_solver.
  - rewrite (app_assoc rest). apply segs_zeros_end, segs_app; [apply (segs_deeper _ d); [done | lia] | apply (segs_deeper _ dI); [done | lia] | clear - HI; key_solver].
Qed.

Lemma append_paddr_wps fuel : forall d p ls ks p1 p2 len q dI li kI compress s,
  pv_inv s -> rep (heap s) d p ls ks -> (d < fuel)%nat -> item s p1 p2 len q dI li kI -> kI ## ks ->
  wps (__xdp2_pvbuf_append_paddr random fuel p p1 p2 len compress) s (ins_post s p d dI ls (ls ++ li) ks kI).
Proof.
  induction fuel as [| fuel IH]; intros d p ls ks p1 p2 len q dI li kI compress s Hinv (Hp & ws0 & ks1 & Hk0 & Hs0 & Hn & ->) Hd Hit HI; [lia |].
  cbn [__xdp2_pvbuf_append_paddr]. eapply wps_step; [by eapply paddr_to_addr_ok |]. eapply wps_lift; [by eapply num_iovecs_ok |].
  apply wps_bind. eapply wps_mono; [by apply (find_append_slot_ok _ _ ws0) |]. intros i s1 (ws & -> & Hmv & Hslot).
  apply (wps_mono _ _ (ins_post (upd (key_of p) ws s) p d dI ls (ls ++ li) ({[key_of p]} ∪ ks1) kI));
    [| intros r s' Hr; eapply ins_post_moved; [apply elem_of_union_l, elem_of_singleton; done | exact Hr]].
  pose proof (inv_bounds _ Hinv _ _ Hk0) as Hbd.
  destruct (moved_state s p ws0 ws d ls ks1 p1 p2 len q dI li kI Hinv Hk0 Hs0 Hn Hit HI Hmv) as (Hinv1 & Hit1 & Hs & Hk & Hlen).
  rewrite Hlen in Hbd |- *. revert Hinv1 Hit1 Hs Hk. generalize (upd (key_of p) ws s) as s1. clear Hinv Hk0 Hs0 Hit Hmv ws0 Hlen s.
  intros s Hinv Hit Hs Hk. destruct (stamp_inv _ _ _ _ (item_stamp _ _ _ _ _ _ _ _ Hit)) as (Hqt & _). pose proof (words_length q) as Hwq. rewrite Hqt in Hwq.
  rewrite is_long_ptype. destruct Hslot as [(n & rest & Ews & Hst & ->) | (-> & rest & w & Ews & Hw)].
  - pose proof Hbd as Hbd'. rewrite Ews, length_app, length_replicate in Hbd'.
    assert (segs (heap s) d rest ls ks1) as Hsr by (rewrite Ews in Hs; by apply segs_zeros_end_inv in Hs).
    destruct (Z.ltb_spec (Z.of_nat (length rest)) (Z.of_nat (length ws))); [cbn [andb] | rewrite Ews, length_app, length_replicate in *; lia].
    assert (Z.of_nat (length ws) = Z.of_nat (length rest + S n)) as Elw by (by rewrite Ews, length_app, length_replicate).
    case_bool_decide as El; [rewrite decide_True in Hwq by done | rewrite decide_False in Hwq by done]; cbn [negb]; rewrite ?orb_false_r, ?orb_true_r.
    2: { rewrite Ews in Hk. eapply append_store_ok; try done; lia. }
    destruct (Z.eqb_spec (Z.of_nat (length rest)) (Z.of_nat (length ws) - 1)) as [En | En]; cbn [negb].
    2: { rewrite Ews in Hk. eapply append_store_ok; try done; lia. }
    assert (n = 0%nat) as -> by lia. cbn [replicate] in Ews. rewrite <- En.
    assert (xdp2_pvbuf_iovec_map_isset (key_of p) (Z.of_nat (length rest)) s = Done (s, false)) as Ei.
    { rewrite (isset_map s _ ws Hk) by lia. unfold nn. destruct (Z.ltb_spec (Z.of_nat (length rest)) 0); [lia |]. by rewrite Ews, Nat2Z.id, list_lookup_middle. }
    eapply wps_step; [exact Ei |]. unfold ___xdp2_pvbuf_append_paddr_into_iovec. rewrite Ews in Hk.
    eapply wps_step; [apply (ld_iovec_mid _ rest [] 0 s Hk); cbn; lia |]. cbn [andb]. by eapply append_new_unset.
  - unfold NO_SLOT. destruct (Z.ltb_spec (2 ^ 32 - 1) (Z.of_nat (length ws))); [lia |]. cbn [andb]. subst ws.
    assert (Z.of_nat (length (rest ++ [w])) - 1 = Z.of_nat (length rest)) as El by (rewrite length_app; cbn; lia).
    eapply wps_step. { rewrite El. apply (isset_mid _ rest [] w s Hk); [rewrite length_app in Hbd; cbn in *; lia | done]. }
    apply append_into_ok with (q := q); try done. intros d' l1 k1 -> Hrep Hsub. apply (IH d' w l1 k1 p1 p2 len q dI li kI); try done; [lia | clear - HI Hsub; key_solver].
Qed.
End Random.
