(* ===== verification/PvbufJoin.v ===== *)
(** * Packet vectors: joining and freeing packets

    Prepending or appending one packet to another concatenates their buffers.
    The first pvbuf of the packet that is added is freed when it holds a single
    address. Freeing a packet visits its buffers in order. *)

From stdpp Require Import base list gmap numbers.
From S2P Require Import Prelude BitmapWord BitmapWordSpec Memory Paddr Pvbuf PvbufEdit PvbufMap PvbufRep PvbufInv PvbufRead PvbufSlots PvbufInsert PvbufAppend PvbufPop.

(** ** A pvbuf in the middle *)

Definition sub_view (H : gmap pvptr xdp2_pvbuf) (d : nat) (a : list Z) (w : Z) (b : list Z) (ls : list leaf) (ks : gset pvptr)  : Prop :=
  exists d' la l1 lb ka k1 kb, d = S d' /\ segs H d a la ka /\ rep H d' w l1 k1 /\ dlen_ok w l1 /\ segs H d b lb kb /\
    ka ## k1 /\ ka ## kb /\ k1 ## kb /\ ls = la ++ l1 ++ lb /\ ks = ka ∪ k1 ∪ kb.

Lemma segs_sub_view H d a w b ls ks : ptype w = TPvbuf -> segs H d (a ++ w :: b) ls ks -> sub_view H d a w b ls ks.
Proof.
  intros Hw Hs. remember (a ++ w :: b) as l eqn:E. revert a E.
  induction Hs as [| d l ls ks Hs IH | d v l ls ks Hv Hs IH | d v v2 l ls ks Hv Hs IH
                   | d v l sub ls1 ls ks1 ks Hv Hk Hsub _ Hd Hs IH Hn Hdj]; intros a E.
  - by destruct a.
  - destruct a as [| x a]; [by injection E as <- |]. injection E as <- ->.
    destruct (IH a eq_refl) as (d' & la & l1 & lb & ka & k1 & kb & ? & ? & ?). exists d', la, l1, lb, ka, k1, kb. split; [done |]. split; [by apply segs_null | done].
  - destruct a as [| x a]; [injection E as <-; by destruct Hv as [Hv | [Hv | Hv]]; rewrite Hv in Hw |]. injection E as <- ->.
    destruct (IH a eq_refl) as (d' & la & l1 & lb & ka & k1 & kb & ? & ? & ? & ? & ? & ? & ? & ? & -> & ->). exists d', ((v, 0) :: la), l1, lb, ka, k1, kb.
    split_and!; try done. by apply segs_buf.
  - pose proof (proj1 (long_check _ _) Hv) as (_ & H1 & _ & _ & H2 & _).
    destruct a as [| x [| y a]]; [injection E as <-; by rewrite H1 in Hw | injection E as _ <-; by rewrite H2 in Hw |]. injection E as <- <- ->.
    destruct (IH a eq_refl) as (d' & la & l1 & lb & ka & k1 & kb & ? & ? & ? & ? & ? & ? & ? & ? & -> & ->). exists d', ((v, v2) :: la), l1, lb, ka, k1, kb.
    split_and!; try done. by apply segs_long.
  - destruct a as [| x a].
    + injection E as -> ->. exists d, [], ls1, ls, ∅, ({[key_of w]} ∪ ks1), ks. rewrite (left_id_L ∅ (∪)).
      split_and!; try done; try apply disjoint_empty_l; [apply segs_nil |]. split; [done |]. naive_solver.
    + injection E as <- ->. destruct (IH a eq_refl) as (d' & la & l1 & lb & ka & k1 & kb & ? & ? & ? & ? & ? & D1 & D2 & D3 & -> & ->).
      assert ({[key_of v]} ∪ ks1 ## ka /\ {[key_of v]} ∪ ks1 ## k1 /\ {[key_of v]} ∪ ks1 ## kb) as (E1 & E2 & E3)
        by (rewrite !disjoint_union_r in Hdj; tauto).
      exists d', (ls1 ++ la), l1, lb, ({[key_of v]} ∪ ks1 ∪ ka), k1, kb.
      split_and!; try done; [by eapply segs_sub | by apply disjoint_union_l | by apply disjoint_union_l | by rewrite <- app_assoc |].
      by rewrite !(assoc_L (∪)).
Qed.

(** ** A pvbuf with a single address *)

Lemma check_single_ok s p d a w b ls ks :
  pv_inv s -> rep (heap s) d p ls ks -> heap s !! key_of p = Some (mk (a ++ w :: b)) -> ptype w = TPvbuf ->
  wps (__xdp2_pvbuf_check_single (key_of p) (Z.of_nat (length a))) s (fun _ s' =>
    pv_inv s' /\ mpb s' = mpb s /\ exists ks', pv_step s s' ks ks' /\ rep (heap s') d p ls ks').
Proof.
  intros Hinv Hrep Hk Hw. pose proof Hrep as (Hp & ws & ks1 & Hk' & Hs & Hn & Eks). rewrite Hk in Hk'. injection Hk' as _ <-.
  pose proof (inv_bounds _ Hinv _ _ Hk) as Hb. rewrite length_app in Hb. cbn [length] in Hb. pose proof (ptype_nonzero w ltac:(by rewrite Hw)) as Hw0.
  destruct (segs_sub_view _ _ _ _ _ _ _ Hw Hs) as (d' & la & l1 & lb & ka & k1 & kb & -> & Ha & Hrw & Hdl & Hsb & D1 & D2 & D3 & -> & ->).
  pose proof Hrw as (_ & sub & k1' & Hsk & Hsub & Hn1 & Ek1). pose proof (inv_bounds _ Hinv _ _ Hsk) as Hb1.
  unfold __xdp2_pvbuf_check_single. eapply wps_step; [apply (ld_iovec_mid _ a b w s Hk); lia |].
  eapply wps_lift; [exact (num_iovecs_ok s Hinv w sub Hw Hsk) |]. apply wps_assert; [by rewrite is_pvbuf_ptype, bool_decide_true |].
  eapply wps_step; [exact (paddr_to_addr_ok s Hinv w (mk sub) Hw Hsk) |]. eapply wps_step; [apply (weight_ok s _ sub Hsk); lia |]. rewrite used_nz.
  destruct (Z.eqb_spec (Z.of_nat (length (nz sub))) 1) as [E1 | E1]; cbn [negb].
  2: { apply wps_ret. split_and!; [done | done |]. exists ks. split; [apply pv_step_refl | done]. }
  destruct (nz sub) as [| x [| ? ?]] eqn:Enz; [cbn in E1; lia | | cbn in E1; lia].
  assert (segs (heap s) d' [x] l1 k1') as Hx by (rewrite <- Enz; by apply segs_nz).
  destruct (find_split _ _ _ Hsk ltac:(lia)) as (r & n & rest & Er & Esub & Hst & [(-> & _ & _) | (Hne & -> & Hnl)]).
  { exfalso. by rewrite Esub, app_nil_r, nz_zeros in Enz. }
  destruct rest as [| x' rest]; [by exfalso |]. cbn in Hst.
  assert (x' = x) as ->.
  { rewrite Esub, nz_app, nz_zeros, filter_cons_True in Enz by done. by injection Enz. }
  eapply wps_lift; [by apply size_ok |]. eapply wps_step; [exact Er |]. apply wps_assert; [lia |].
  eapply wps_step. { rewrite <- (length_replicate n 0) at 1. apply (ld_iovec_mid _ (replicate n 0) rest x); [by rewrite Hsk, Esub |]. rewrite Esub, length_app, length_replicate in *. cbn in *. lia. }
  eapply wps_step; [apply (st_iovec_mid _ a b w x s Hk); [lia | done | done] |].
  set (s1 := upd (key_of p) (a ++ x :: b) s).
  assert (pv_inv s1) as Hinv1 by (eapply inv_upd; [done | done |]; rewrite !length_app; done).
  assert (key_of w ∈ ka ∪ k1 ∪ kb) as Hkw by (rewrite Ek1; clear; key_solver).
  assert (heap s1 !! key_of w = Some (mk sub)) as Hsk1 by (unfold s1; rewrite heap_upd, lookup_insert_ne; [done |]; intros E; rewrite E in Hn; done).
  eapply wps_mono; [by apply (pv_obj_free_ok (key_of w) (mk sub)) |]. intros _ s2 (Hinv2 & Hst2 & Hpb2 & Hh2).
  assert (key_of w ∉ ka /\ key_of w ∉ kb) as [Hwa Hwb].
  { rewrite Ek1 in D1, D3. split; intros Hin; [apply (D1 _ Hin) | apply (D3 (key_of w)); [| done]]; apply elem_of_union_l, elem_of_singleton; done. }
  split_and!; [done | done |]. exists ({[key_of p]} ∪ (ka ∪ k1' ∪ kb)). split.
  - eapply (pv_step_trans s s1); [apply pv_step_upd; rewrite Eks; apply elem_of_union_l, elem_of_singleton; done |].
    replace ks with ({[key_of w]} ∪ ({[key_of p]} ∪ (ka ∪ k1' ∪ kb))) by (rewrite Eks, Ek1; clear; key_solver).
    rewrite <- (left_id_L ∅ (∪) ({[key_of p]} ∪ _)) at 2. by apply pv_step_frame.
  - split; [done |]. exists (a ++ x :: b), (ka ∪ k1' ∪ kb).
    assert (key_of p <> key_of w) as Hpw by (intros E; rewrite E in Hn; done).
    assert (key_of p ∉ ka ∪ k1' ∪ kb) as Hnp by (rewrite Ek1 in Hn; clear - Hn; rewrite !not_elem_of_union in *; tauto).
    split_and!; [rewrite Hh2, lookup_delete_ne by auto; apply lookup_insert_eq | | done | done].
    apply (segs_frame (heap s)).
    + rewrite <- (assoc_L (∪)). apply segs_app; [done | | clear - D1 D2 Ek1; subst; rewrite !disjoint_union_r in *; tauto].
      apply (segs_app _ _ [x]); [apply (segs_deeper _ d'); [done | lia] | done | clear - D3 Ek1; subst; rewrite !disjoint_union_l in *; tauto].
    + intros k Hin. rewrite Hh2, lookup_delete_ne; [unfold s1; rewrite heap_upd, lookup_insert_ne; [done |]; by intros <- |].
      intros <-. clear - Hin Hwa Hwb Hn1. rewrite !elem_of_union in Hin. tauto.
Qed.

(** ** Addresses to be added *)

Lemma bf_set_get f p : valid_field f -> bf_set f (bf_get f p) p = p.
Proof.
  intros Hf. apply Z.bits_inj'. intros i Hi. rewrite bf_set_testbit by done. pose proof Hf as [Hl Hw].
  destruct (Z.leb_spec (f_lo f) i), (Z.ltb_spec i (f_lo f + f_width f)); try done. cbn [andb].
  rewrite bf_get_testbit by (done || lia). destruct (Z.ltb_spec (i - f_lo f) (f_width f)); [| lia]. cbn. f_equal. lia.
Qed.

(** A buffer taken from an iovec keeps its word. *)
Lemma buf_item s w : is_buf w -> item s w 0 (leaf_len (w, 0)) (w, 0) 0 [(w, 0)] ∅.
Proof.
  intros Hb. pose proof (leaf_len_nonneg (w, 0)) as H0. pose proof (leaf_len_u32 (w, 0)) as H1. split.
  - unfold stamp. assert (forall f, valid_field f -> bf_set f (bf_get f w) w = w) as Hs by (intros; by apply bf_set_get). unfold leaf_len in *. cbn [fst] in *.
    destruct Hb as [E | [E | E]]; rewrite E in *.
    3: { unfold xdp2_paddr_short_addr_set_iovec, __xdp2_paddr_short_addr_check, XDP2_PADDR_SHORT_ADDR_MAX_DATA_LENGTH. rewrite is_short_ptype, bool_decide_true by done.
         pose proof (bf_get_range short_data_length w ltac:(field_side)) as Hr. cbn [f_width short_data_length] in Hr.
         destruct (Z.eqb_spec (bf_get short_data_length w + 1) 0); [lia |]. destruct (Z.leb_spec (bf_get short_data_length w + 1) (2 ^ 18)); [| lia].
         cbn. rewrite Z.add_simpl_r, Hs by field_side. done. }
    all: unfold xdp2_pbuf_set_iovec, __xdp2_pbuf_check_paddr; rewrite is_pbuf_ptype, E; cbn [bool_decide decide orb XDP2_ASSERT mbind outcome_bind mret outcome_ret];
      rewrite Z.add_simpl_r; pose proof (bf_get_range pbuf_data_length w ltac:(field_side)) as Hr; cbn [f_width pbuf_data_length] in Hr;
      unfold u64; rewrite Z.mod_small by lia; by rewrite Hs by field_side.
  - unfold words_of. cbn [fst]. rewrite decide_False by (by destruct Hb as [E | [E | E]]; rewrite E). apply segs_buf; [done | apply segs_nil].
  - lia.
  - right. cbn. lia.
Qed.

Lemma pvbuf_item s h len d li kI :
  rep (heap s) d h li kI -> 0 <= len < 2 ^ 32 -> (len = 0 \/ len = total li) ->
  exists w, item s h 0 len (w, 0) (S d) li kI /\ xdp2_pvbuf_set_pvbuf_iovec h len = Done w /\ ptype w = TPvbuf.
Proof.
  intros (Hh & sub & k1 & Hk & Hs & Hn & ->) Hr Hl. destruct (set_pvbuf_iovec_ok h len Hh Hr) as (w & Ew & Hw & Hkw & Hwl & Hw0).
  exists w. split_and!; [| done | done]. split; [unfold stamp; by rewrite Hh, Ew | | done | done].
  unfold words_of. cbn [fst]. rewrite decide_False by (by rewrite Hw). rewrite <- (app_nil_r li), <- (right_id_L ∅ (∪) (_ ∪ k1)), <- Hkw.
  eapply segs_sub; [done | by rewrite Hkw | done | unfold dlen_ok; by rewrite Hwl | apply segs_nil | by rewrite Hkw | apply disjoint_empty_r].
Qed.

(** ** Freeing the pvbuf around what was added *)

Lemma free_shell s s' p d dI dI' ls new ks kI h v :
  ins_post s p d dI ls new ks kI true s' -> heap s !! h = Some v -> h ∉ ks ∪ kI -> (dI <= dI')%nat ->
  wps (pv_obj_free (fst h) h) s' (fun _ s2 => ins_post s p d dI' ls new ks ({[h]} ∪ kI) true s2).
Proof.
  intros (Hinv & Hpb & ks' & Hst & Hr) Hv Hn Hd.
  assert (heap s' !! h = Some v /\ h ∉ ks') as [Hv' Hn'].
  { assert (({[h]} : gset pvptr) ## ks ∪ kI) as Hdj by (intros x Hx; apply elem_of_singleton in Hx as ->; done).
    assert (forall k, k ∈ ({[h]} : gset pvptr) -> is_Some (heap s !! k)) as Hdm by (intros k Hk; apply elem_of_singleton in Hk as ->; eauto).
    split; [rewrite (pv_step_same _ _ _ _ _ Hst Hdj Hdm); [done | by apply elem_of_singleton] |].
    apply (not_elem_disjoint h {[h]}); [| by apply elem_of_singleton]. by eapply pv_step_disjoint. }
  eapply wps_mono; [by apply (pv_obj_free_ok h v) |]. intros _ s2 (Hinv2 & Hst2 & Hpb2 & Hh2). split_and!; [done | congruence |]. exists ks'. split.
  - apply (pv_step_frame _ _ _ _ {[h]}) in Hst. replace (ks ∪ ({[h]} ∪ kI)) with (ks ∪ kI ∪ {[h]}) by (clear; set_solver).
    eapply pv_step_trans; [exact Hst |]. apply (pv_step_frame _ _ _ _ ks') in Hst2. rewrite (left_id_L ∅ (∪)) in Hst2. by rewrite (comm_L (∪) ks').
  - eapply rep_deeper; [| instantiate (1 := (S d + dI)%nat); lia]. eapply rep_frame; [exact Hr |]. intros k Hk. rewrite Hh2, lookup_delete_ne; [done |]. by intros <-.
Qed.

(** The single address of a pvbuf. *)
Lemma single_view s h d ls ks :
  pv_inv s -> rep (heap s) d h ls ks -> ls <> [] ->
  exists sub w k1, heap s !! key_of h = Some (mk sub) /\ ks = {[key_of h]} ∪ k1 /\ key_of h ∉ k1 /\
    (used sub <= 1 -> exists i, xdp2_pvbuf_iovec_map_find (key_of h) s = Done (s, i) /\ ld_iovec (key_of h) i s = Done (s, w) /\
       iovec_data_len (key_of h) i s = (if bool_decide (ptype w = TPvbuf) then Crash else Done (s, leaf_len (w, 0))) /\
       (is_buf w /\ ls = [(w, 0)] /\ k1 = ∅ \/ exists d', d = S d' /\ ptype w = TPvbuf /\ rep (heap s) d' w ls k1)).
Proof.
  intros Hinv (Hh & sub & k1 & Hk & Hs & Hn & ->) Hne. pose proof (inv_bounds _ Hinv _ _ Hk) as Hb.
  destruct (find_split _ _ _ Hk ltac:(lia)) as (r & n & rest & Er & Esub & Hst & [(-> & _ & _) | (Hne' & -> & Hnl)]).
  { exfalso. rewrite Esub in Hs. apply segs_zeros_inv in Hs. by inversion Hs. }
  destruct rest as [| w rest]; [done |]. cbn in Hst. exists sub, w, k1. split_and!; try done. rewrite used_nz. intros Hu. exists (Z.of_nat n).
  assert (at_pos (key_of h) (Z.of_nat n) (w :: rest) s) as Hat.
  { exists sub. split_and!; [done | lia | lia | lia |]. rewrite Nat2Z.id, Esub. apply drop_app_length'. by rewrite length_replicate. }
  split_and!; [done | by eapply at_pos_lookup | |].
  - case_bool_decide as E; [unfold iovec_data_len, mbind, pvm_bind; by rewrite (at_pos_lookup _ _ _ _ _ Hat), E |].
    rewrite Esub in Hs. apply segs_zeros_inv in Hs. destruct (segs_first _ _ _ _ _ _ Hst Hs) as [lr Hbf _ _ | w2 ws' lr Hc -> _ _ | d' l1 lr kk1 kk -> [E' _] _ _ _ _ _]; [by eapply buf_data_len | | done].
    exfalso. apply long_check in Hc as (_ & _ & _ & _ & _ & _ & H2). apply nonzero_of in H2. rewrite Esub, nz_app, nz_zeros, !filter_cons_True in Hu by done. cbn in Hu. lia.
  - assert (nz sub = [w]) as Enz. { rewrite Esub, nz_app, nz_zeros, filter_cons_True in Hu |- * by done. cbn [app length] in Hu |- *. f_equal. apply nil_length_inv. lia. }
    apply segs_nz in Hs. rewrite Enz in Hs. destruct (segs_first _ _ _ _ _ _ Hst Hs) as [lr Hbf -> Hr | w2 ws' lr Hc [=] _ _ | d' l1 lr kk1 kk -> Hrep _ Hr _ -> ->]; inversion Hr; subst.
    + left. done.
    + right. exists d'. rewrite app_nil_r, (right_id_L ∅ (∪)). split_and!; [done | apply Hrep | done].
Qed.

Section Random.
Context (random : nat -> Z).

Lemma set_pvbuf_ent_eq k i h len : ptype h = TPvbuf -> xdp2_pvbuf_iovec_set_pvbuf_ent k i h len = xdp2_pvbuf_iovec_set_paddr_ent k i h 0 len.
Proof. intros E. unfold xdp2_pvbuf_iovec_set_paddr_ent. by rewrite E. Qed.

(** A step that keeps what the packet stands for after one that succeeded. *)
Lemma wps_after (r : bool) (A : pvm unit) (X : pvm unit) s (Q R : bool -> xdp2_pvbuf_mgr -> Prop) :
  wps (if negb r then mret false else _ ← A; mret true) s Q ->
  (forall s', Q true s' -> wps X s' (fun _ => R true)) -> (forall s', Q false s' -> R false s') ->
  wps (if negb r then mret false else _ ← A; _ ← X; mret true) s R.
Proof.
  intros H HX HF. destruct r; cbn [negb] in *; [| by apply HF]. apply wps_bind.
  assert (wps A s (fun _ => Q true)) as HA by (revert H; unfold wps, mbind, pvm_bind; by destruct (A s) as [[? ?] | |]).
  eapply wps_mono; [exact HA |]. intros u s' Hs. apply wps_bind. by apply HX.
Qed.

(** [check_single] after a successful change. *)
Lemma ins_post_single s p d dI ls new ks kI a b s' :
  ins_post s p d dI ls new ks kI true s' /\ (true = true -> exists w', ptype w' = TPvbuf /\ heap s' !! key_of p = Some (mk (a ++ w' :: b))) ->
  forall compress : bool, wps (if compress then __xdp2_pvbuf_check_single (key_of p) (Z.of_nat (length a)) else mret tt) s' (fun _ => ins_post s p d dI ls new ks kI true).
Proof.
  intros [(Hinv & Hpb & ks' & Hst & Hr) Hw] compress. destruct (Hw eq_refl) as (w' & Hw' & Hk). destruct compress.
  - eapply wps_mono; [by eapply check_single_ok |]. intros _ s2 (Hinv2 & Hpb2 & ks2 & Hst2 & Hr2). split_and!; [done | congruence |].
    exists ks2. split; [by eapply pv_step_trans | done].
  - apply wps_ret. split_and!; [done | done |]. by exists ks'.
Qed.

(** ** Prepending *)

Lemma prepend_pvbuf_into_ok (rec : Z -> pvm bool) s p d dI w rest ls ks h len q li kI compress :
  pv_inv s -> ptype p = TPvbuf -> heap s !! key_of p = Some (mk (w :: rest)) -> w <> 0 -> segs (heap s) d (w :: rest) ls ks -> key_of p ∉ ks ->
  item s h 0 len q dI li kI -> kI ## {[key_of p]} ∪ ks ->
  (forall d' l1 k1, d = S d' -> rep (heap s) d' w l1 k1 -> k1 ⊆ ks -> wps (rec w) s (ins_post s w d' dI l1 (li ++ l1) k1 kI)) ->
  wps (__xdp2_pvbuf_prepend_pvbuf_into_iovec random rec (key_of p) 0 h len compress) s (ins_post s p d dI ls (li ++ ls) ({[key_of p]} ∪ ks) kI).
Proof.
  intros Hinv Hp Hk Hw Hs Hn Hit HI Hrec. pose proof (inv_bounds _ Hinv _ _ Hk) as Hbd.
  assert (forall k, k ∈ kI -> is_Some (heap s !! k)) as HId by (apply (segs_dom _ _ _ _ _ (item_segs _ _ _ _ _ _ _ _ Hit))).
  unfold __xdp2_pvbuf_prepend_pvbuf_into_iovec. cbn [length] in Hbd.
  eapply wps_step; [apply (ld_iovec_mid _ [] rest w s Hk); cbn; lia |]. apply wps_assert; [by destruct (Z.eqb_spec w 0) |].
  assert (ptype w <> TPvbuf -> wps (__xdp2_pvbuf_prepend_paddr_into_iovec_new_pvbuf random (key_of p) 0 h 0 len) s
    (ins_post s p d dI ls (li ++ ls) ({[key_of p]} ∪ ks) kI)) as Hnew.
  { intros Ht. destruct (first_unit _ _ _ _ _ _ Hw Hs) as (v & b & lv & lb & kv & kb & Ev & Hfv & Hv & Hsv & Hsb & Hvb & -> & ->). rewrite Ev in Hk.
    assert (kv ∪ kb = ∅ ∪ kv ∪ kb) as Eu by (by rewrite (left_id_L ∅ (∪))). rewrite Eu in *.
    eapply wps_mono; [apply (prepend_new_ok random s _ [] b v h 0 len q dI li kI d lv kv); try done; clear - Hn HI; key_solver |].
    intros x s' Hx. rewrite (app_assoc li). apply (ins_post_new s p d dI [] b (words_of v) [] lv lb ∅ kv kb kI) with (dd := S (Nat.max dI d)); try done;
      try apply disjoint_empty_l; try apply segs_nil; lia. }
  destruct (ptype w) eqn:Et; [| by apply Hnew..]. clear Hnew.
  destruct (segs_first _ _ _ _ _ _ Hw Hs) as [lr Hbf _ _ | w2 ws' lr Hc _ _ _ | d' lv lb kv kb -> Hrep Hdl Hsb Hvb -> ->].
  { exfalso. by destruct Hbf as [E | [E | E]]; rewrite E in Et. }
  { exfalso. apply long_check in Hc as (_ & E & _). by rewrite E in Et. }
  apply wps_bind. eapply wps_mono; [apply (Hrec d' lv kv eq_refl Hrep); clear; set_solver |]. intros x s2 Hx. rewrite (app_assoc li).
  assert (kv ∪ kb = ∅ ∪ kv ∪ kb) as Eu by (by rewrite (left_id_L ∅ (∪))). rewrite Eu in *.
  eapply wps_after; [apply (ins_post_sub s p (S d') dI [] rest [w] [] lv lb ∅ kv kb kI) with (w := w) (d' := d') (lv' := li ++ lv) (li := li); try done;
    try apply disjoint_empty_l; try apply segs_nil | |].
  - rewrite <- (app_nil_r lv), <- (right_id_L ∅ (∪) kv). eapply segs_rep; [done | done | apply segs_nil | apply disjoint_empty_r].
  - apply Hit.
  - apply Hit.
  - apply total_app.
  - intros s' Hs'. by apply (ins_post_single _ _ _ _ _ _ _ _ [] rest).
  - by intros s' [Hs' _].
Qed.

(** A pvbuf with a single address: the address is added and the pvbuf freed. *)
Lemma compress_ok (rp : Z -> Z -> pvm bool) (rv : Z -> pvm bool) s p h len d dh ls lh new ks kh sub :
  pv_inv s -> rep (heap s) dh h lh kh -> kh ## ks -> lh <> [] -> heap s !! key_of h = Some (mk sub) -> used sub <= 1 ->
  (forall w, is_buf w -> lh = [(w, 0)] -> wps (rp w (leaf_len (w, 0))) s (ins_post s p d 0 ls new ks ∅)) ->
  (forall w d' k1, dh = S d' -> rep (heap s) d' w lh k1 -> k1 ⊆ kh -> wps (rv w) s (ins_post s p d (S d') ls new ks k1)) ->
  wps (__xdp2_pvbuf_prepend_pvbuf_compress rp rv h len 1) s (ins_post s p d (S dh) ls new ks kh).
Proof.
  intros Hinv Hrep Hdj Hne Hk Hu Hrp Hrv. pose proof Hrep as [Hh _].
  destruct (single_view _ _ _ _ _ Hinv Hrep Hne) as (sub' & w & k1 & Hk' & -> & Hn & Hview). rewrite Hk in Hk'. injection Hk' as _ <-.
  destruct (Hview Hu) as (i & Ei & Ew & El & Hw).
  assert (forall (r : bool) s', (if r then exists dI kI, {[key_of h]} ∪ k1 = {[key_of h]} ∪ kI /\ kI ⊆ k1 /\ (dI <= S dh)%nat /\ ins_post s p d dI ls new ks kI true s'
                        else ins_post s p d (S dh) ls new ks ({[key_of h]} ∪ k1) false s') ->
    wps (_ ← (if (r : bool) then pv_obj_free (fst (key_of h)) (key_of h) else mret tt); mret r) s' (ins_post s p d (S dh) ls new ks ({[key_of h]} ∪ k1))) as Hend.
  { intros [|] s'.
    - intros (dI & kI & EkI & HkI & HdI & Hpost). apply wps_bind. eapply wps_mono; [eapply free_shell; [exact Hpost | exact Hk | | exact HdI] | intros u s2; rewrite EkI; done].
      intros [Hin | Hin]%elem_of_union; [apply (Hdj (key_of h)); [apply elem_of_union_l, elem_of_singleton | ]; done |]. apply Hn. by apply HkI.
    - intros Hpost. by eapply wps_step. }
  unfold __xdp2_pvbuf_prepend_pvbuf_compress. eapply wps_lift; [by apply size_ok |]. eapply wps_step; [exact (paddr_to_addr_ok s Hinv h (mk sub) Hh Hk) |].
  change (1 =? 0) with false. cbn iota. apply wps_bind. eapply wps_step; [exact Ei |]. eapply wps_step; [exact Ew |].
  destruct Hw as [(Hb & -> & ->) | (d' & -> & Hw & Hr)].
  - destruct (is_buf_not_pvbuf w Hb) as [Hnp _]. rewrite is_pvbuf_ptype in Hnp. rewrite Hnp in El.
    assert (wps (rp w (leaf_len (w, 0))) s (fun r s' => wps (_ ← (if (r : bool) then pv_obj_free (fst (key_of h)) (key_of h) else mret tt); mret r) s'
      (ins_post s p d (S dh) ls new ks ({[key_of h]} ∪ ∅)))) as Hgo.
    { eapply wps_mono; [by apply Hrp |]. intros r s' Hr. apply Hend. destruct r; [exists 0%nat, ∅; split_and!; (done || lia) |]. done. }
    destruct Hb as [E | [E | E]]; rewrite E; (eapply wps_step; [exact El |]); exact Hgo.
  - rewrite Hw. eapply wps_mono; [apply (Hrv w d' k1); [done | done | clear; set_solver] |]. intros r s' Hr'. apply Hend.
    destruct r; [exists (S d'), k1; split_and!; (done || lia) |]. done.
Qed.

Lemma prepend_pvbuf_wps fuel : forall d p ls ks h dh lh kh len compress s,
  pv_inv s -> rep (heap s) d p ls ks -> rep (heap s) dh h lh kh -> kh ## ks -> (d + dh < fuel)%nat ->
  0 <= len < 2 ^ 32 -> (len = 0 \/ len = total lh) -> (compress = true -> lh <> []) ->
  wps (__xdp2_pvbuf_prepend_pvbuf random fuel p h len compress) s (ins_post s p d (S dh) ls (lh ++ ls) ks kh).
Proof.
  induction fuel as [| fuel IH]; intros d p ls ks h dh lh kh len compress s Hinv Hrep Hreph Hdj Hd Hlr Hlen Hne; [lia |].
  pose proof Hrep as (Hp & ws & ks1 & Hk & Hs & Hn & ->). pose proof Hreph as (Hh & sub & kh1 & Hkh & Hsh & Hnh & Ekh).
  cbn [__xdp2_pvbuf_prepend_pvbuf]. eapply wps_step; [exact (paddr_to_addr_ok s Hinv p (mk ws) Hp Hk) |].
  eapply wps_step; [exact (paddr_to_addr_ok s Hinv h (mk sub) Hh Hkh) |].
  pose proof (inv_bounds _ Hinv _ _ Hk) as Hb. pose proof (inv_bounds _ Hinv _ _ Hkh) as Hbh.
  eapply wps_step; [apply (weight_ok s _ sub Hkh); lia |].
  destruct (compress && (used sub <=? 1)) eqn:Ec.
  { apply andb_true_iff in Ec as [-> Hu]. rewrite Hu. apply Z.leb_le in Hu. apply (compress_ok _ _ s p h len d dh ls lh (lh ++ ls) _ kh sub); [done | done | done | by apply Hne | done | done | |].
    - intros w Hw ->. apply (prepend_paddr_wps random (S fuel) d p ls ({[key_of p]} ∪ ks1) w 0 (leaf_len (w, 0)) (w, 0) 0 [(w, 0)] ∅); [done | done | lia | by apply buf_item | apply disjoint_empty_l].
    - intros w d' k1 -> Hr Hsub. apply (IH d p ls _ w d' lh k1 len true); [done | done | done | clear - Hdj Hsub; set_solver | lia | done | done | done]. }
  clear Ec. destruct (pvbuf_item s h len dh lh kh Hreph Hlr Hlen) as (wh & Hit & _ & Hwh).
  assert (length (words_of (wh, 0)) = 1%nat) as Hw1 by (rewrite words_length; cbn [fst]; by rewrite decide_False by (by rewrite Hwh)).
  destruct (find_split _ _ _ Hk ltac:(lia)) as (r & n & rest & Er & Ews & Hst & Hc). eapply wps_step; [exact Er |].
  destruct (Z.ltb_spec 0 r) as [Hr | Hr].
  { eapply wps_lift; [exact (num_iovecs_ok s Hinv p ws Hp Hk) |]. rewrite set_pvbuf_ent_eq by done. rewrite Ews in Hs. apply segs_zeros_inv in Hs.
    apply (prepend_store_ok s p n rest) with (q := (wh, 0)); try done; [by rewrite <- Ews | |]; rewrite Hw1; destruct Hc as [(_ & -> & E) | (_ & -> & E)]; lia. }
  unfold ___xdp2_pvbuf_prepend_pvbuf. eapply wps_step; [exact (paddr_to_addr_ok s Hinv p (mk ws) Hp Hk) |].
  eapply wps_lift; [exact (num_iovecs_ok s Hinv p ws Hp Hk) |].
  apply wps_bind. eapply wps_mono; [by apply (find_prepend_slot_ok _ _ ws) |]. intros i s1 (ws' & -> & Hmv & Hslot).
  apply (wps_mono _ _ (ins_post (upd (key_of p) ws' s) p d (S dh) ls (lh ++ ls) ({[key_of p]} ∪ ks1) kh));
    [| intros x s' Hx; eapply ins_post_moved; [apply elem_of_union_l, elem_of_singleton; done | exact Hx]].
  destruct (moved_state s p ws ws' d ls ks1 h 0 len (wh, 0) (S dh) lh kh Hinv Hk Hs Hn Hit Hdj Hmv) as (Hinv1 & Hit1 & Hs1 & Hk1 & Hlen1).
  assert (rep (heap (upd (key_of p) ws' s)) dh h lh kh) as Hreph1.
  { eapply rep_frame; [done |]. intros k Hin. rewrite heap_upd, lookup_insert_ne; [done |]. intros <-. apply (Hdj _ Hin), elem_of_union_l, elem_of_singleton. done. }
  rewrite Hlen1. set (s1 := upd (key_of p) ws' s) in *. clearbody s1. destruct Hslot as [(n' & rest' & Ews' & Hst' & ->) | (-> & w & rest' & Ews' & Hw)].
  - destruct (Z.ltb_spec (Z.of_nat n') (Z.of_nat (length ws'))); [| rewrite Ews', length_app, length_replicate in *; lia].
    rewrite set_pvbuf_ent_eq by done. rewrite Ews' in Hs1, Hk1. apply segs_zeros_inv in Hs1.
    apply (prepend_store_ok _ p (S n') rest') with (q := (wh, 0)); try done; rewrite ?Hw1; lia.
  - unfold NO_SLOT. destruct (Z.ltb_spec (2 ^ 32 - 1) (Z.of_nat (length ws'))); [lia |]. rewrite Ews' in Hs1, Hk1.
    apply (prepend_pvbuf_into_ok _ _ p d (S dh) w rest') with (q := (wh, 0)); [done.. |].
    intros d' l1 k1 -> Hr1 Hsub. apply (IH d' w l1 k1 h dh lh kh len compress); [done | done | done | clear - Hdj Hsub; key_solver | lia | done | done | done].
Qed.

(** ** Appending *)

Lemma append_pvbuf_into_ok (rec : Z -> pvm bool) s p d dI ws w ls ks h len q li kI :
  pv_inv s -> ptype p = TPvbuf -> heap s !! key_of p = Some (mk (ws ++ [w])) -> w <> 0 -> segs (heap s) d (ws ++ [w]) ls ks -> key_of p ∉ ks ->
  ptype h = TPvbuf -> item s h 0 len q dI li kI -> kI ## {[key_of p]} ∪ ks ->
  (forall d' l1 k1, d = S d' -> rep (heap s) d' w l1 k1 -> k1 ⊆ ks -> wps (rec w) s (ins_post s w d' dI l1 (l1 ++ li) k1 kI)) ->
  wps (__xdp2_pvbuf_append_pvbuf_into_iovec random rec (key_of p) (Z.of_nat (length (ws ++ [w])) - 1) h len true) s
    (ins_post s p d dI ls (ls ++ li) ({[key_of p]} ∪ ks) kI).
Proof.
  intros Hinv Hp Hk Hw Hs Hn Hh Hit HI Hrec. unfold __xdp2_pvbuf_append_pvbuf_into_iovec. apply wps_assert; [by rewrite is_pvbuf_ptype, bool_decide_true |].
  cbn [negb]. exact (append_into_ok random rec s p d dI ws w ls ks h 0 len q li kI Hinv Hp Hk Hw Hs Hn Hit HI Hrec).
Qed.

Lemma append_pvbuf_wps fuel : forall d p ls ks h dh lh kh len compress s,
  pv_inv s -> rep (heap s) d p ls ks -> rep (heap s) dh h lh kh -> kh ## ks -> (d + dh < fuel)%nat ->
  0 <= len < 2 ^ 32 -> (len = 0 \/ len = total lh) -> (compress = true -> lh <> []) ->
  wps (__xdp2_pvbuf_append_pvbuf random fuel p h len compress) s (ins_post s p d (S dh) ls (ls ++ lh) ks kh).
Proof.
  induction fuel as [| fuel IH]; intros d p ls ks h dh lh kh len compress s Hinv Hrep Hreph Hdj Hd Hlr Hlen Hne; [lia |].
  pose proof Hrep as (Hp & ws & ks1 & Hk & Hs & Hn & ->). pose proof Hreph as (Hh & sub & kh1 & Hkh & Hsh & Hnh & Ekh).
  cbn [__xdp2_pvbuf_append_pvbuf]. eapply wps_step; [exact (paddr_to_addr_ok s Hinv p (mk ws) Hp Hk) |].
  eapply wps_step; [exact (paddr_to_addr_ok s Hinv h (mk sub) Hh Hkh) |].
  pose proof (inv_bounds _ Hinv _ _ Hk) as Hb. pose proof (inv_bounds _ Hinv _ _ Hkh) as Hbh.
  eapply wps_step; [apply (weight_ok s _ sub Hkh); lia |].
  destruct (compress && (used sub <=? 1)) eqn:Ec.
  { apply andb_true_iff in Ec as [-> Hu]. rewrite Hu. apply Z.leb_le in Hu. apply (compress_ok _ _ s p h len d dh ls lh (ls ++ lh) _ kh sub); [done | done | done | by apply Hne | done | done | |].
    - intros w Hw ->. apply (append_paddr_wps random (S fuel) d p ls ({[key_of p]} ∪ ks1) w 0 (leaf_len (w, 0)) (w, 0) 0 [(w, 0)] ∅); [done | done | lia | by apply buf_item | apply disjoint_empty_l].
    - intros w d' k1 -> Hr Hsub. apply (IH d p ls _ w d' lh k1 len true); [done | done | done | clear - Hdj Hsub; set_solver | lia | done | done | done]. }
  clear Ec. destruct (pvbuf_item s h len dh lh kh Hreph Hlr Hlen) as (wh & Hit & _ & Hwh).
  assert (length (words_of (wh, 0)) = 1%nat) as Hw1 by (rewrite words_length; cbn [fst]; by rewrite decide_False by (by rewrite Hwh)).
  destruct (rev_find_split _ _ _ Hk ltac:(lia)) as (r & n & rest & Er & Ews & Hc). eapply wps_step; [exact Er |].
  eapply wps_lift; [exact (num_iovecs_ok s Hinv p ws Hp Hk) |]. pose proof (f_equal length Ews) as Hlw. rewrite length_app, length_replicate in Hlw.
  destruct (Z.ltb_spec r (Z.of_nat (length ws) - 1)) as [Hr | Hr].
  { rewrite set_pvbuf_ent_eq by done. destruct Hc as [(_ & ->) | (pre & w & -> & Hw & ->)]; [lia |]. rewrite Ews in Hs. apply segs_zeros_end_inv in Hs. rewrite length_app in Hlw. cbn [length] in Hlw.
    replace (Z.of_nat (length pre) + 1) with (Z.of_nat (length (pre ++ [w]))) by (rewrite length_app; cbn; lia).
    apply (append_store_ok s p n (pre ++ [w])) with (q := (wh, 0)); try done; [by rewrite <- Ews |]. rewrite Hw1. lia. }
  unfold ___xdp2_pvbuf_append_pvbuf. eapply wps_step; [exact (paddr_to_addr_ok s Hinv p (mk ws) Hp Hk) |].
  eapply wps_lift; [exact (num_iovecs_ok s Hinv p ws Hp Hk) |]. apply wps_assert; [by rewrite is_pvbuf_ptype, bool_decide_true |].
  apply wps_bind. eapply wps_mono; [by apply (find_append_slot_ok _ _ ws) |]. intros i s1 (ws' & -> & Hmv & Hslot).
  apply (wps_mono _ _ (ins_post (upd (key_of p) ws' s) p d (S dh) ls (ls ++ lh) ({[key_of p]} ∪ ks1) kh));
    [| intros x s' Hx; eapply ins_post_moved; [apply elem_of_union_l, elem_of_singleton; done | exact Hx]].
  destruct (moved_state s p ws ws' d ls ks1 h 0 len (wh, 0) (S dh) lh kh Hinv Hk Hs Hn Hit Hdj Hmv) as (Hinv1 & Hit1 & Hs1 & Hk1 & Hlen1).
  assert (rep (heap (upd (key_of p) ws' s)) dh h lh kh) as Hreph1.
  { eapply rep_frame; [done |]. intros k Hin. rewrite heap_upd, lookup_insert_ne; [done |]. intros <-. apply (Hdj _ Hin), elem_of_union_l, elem_of_singleton. done. }
  rewrite Hlen1. set (s1 := upd (key_of p) ws' s) in *. clearbody s1. destruct Hslot as [(n' & rest' & Ews' & Hst' & ->) | (-> & rest' & w & Ews' & Hw)].
  - destruct (Z.ltb_spec (Z.of_nat (length rest')) (Z.of_nat (length ws'))); [| rewrite Ews', length_app, length_replicate in *; lia].
    rewrite set_pvbuf_ent_eq by done. rewrite Ews' in Hs1, Hk1. apply segs_zeros_end_inv in Hs1.
    apply (append_store_ok _ p (S n') rest') with (q := (wh, 0)); try done. rewrite Hw1; lia.
  - unfold NO_SLOT. destruct (Z.ltb_spec (2 ^ 32 - 1) (Z.of_nat (length ws'))); [lia |]. subst ws'.
    assert (Z.of_nat (length (rest' ++ [w])) - 1 = Z.of_nat (length rest')) as El by (rewrite length_app; cbn; lia).
    eapply wps_step. { rewrite El. apply (isset_mid _ rest' [] w s1 Hk1); [rewrite length_app in Hlen1; cbn in *; lia | done]. }
    apply (append_pvbuf_into_ok _ _ p d (S dh) rest' w) with (q := (wh, 0)); [done.. |].
    intros d' l1 k1 -> Hr1 Hsub. apply (IH d' w l1 k1 h dh lh kh len compress); [done | done | done | clear - Hdj Hsub; key_solver | lia | done | done | done].
Qed.
End Random.

(** ** Packet vectors: freeing a packet

    Freeing a packet frees each of its buffers once, in order, and returns all its
    pvbufs to their allocators. *)

(** ** Computations on the buffers only *)

(** [m] neither reads nor writes the pvbufs, and does not change the
    configuration. *)
Definition pb_only {A} (m : pvm A) : Prop :=
  forall s, match m s with
            | Done (s', x) => mconf s' = mconf s /\ mpv s' = mpv s /\ forall v, m (set_mpv v s) = Done (set_mpv v s', x)
            | Crash => forall v, m (set_mpv v s) = Crash
            | NoFuel => forall v, m (set_mpv v s) = NoFuel
            end.

Lemma pb_only_ret {A} (x : A) : pb_only (mret x).
Proof. done. Qed.
Lemma pb_only_bind {A B} (m : pvm A) (f : A -> pvm B) : pb_only m -> (forall x, pb_only (f x)) -> pb_only (m ≫= f).
Proof.
  intros Hm Hf s. unfold mbind, pvm_bind. pose proof (Hm s) as H. destruct (m s) as [[s1 x] | |]; [| intros v; by rewrite H..].
  destruct H as (Hc & Hv & E). pose proof (Hf x s1) as H. destruct (f x s1) as [[s2 y] | |]; [| intros v; rewrite E; by apply H..].
  destruct H as (Hc2 & Hv2 & E2). split_and!; [congruence | congruence |]. intros v. rewrite E. apply E2.
Qed.
Lemma pb_only_lift {A} (o : outcome A) : pb_only (lift o).
Proof. intros s. unfold lift. destruct o; done. Qed.
Lemma pb_only_crash {A} : pb_only (@crash A).
Proof. done. Qed.
Lemma pb_only_modify f : pb_only (modify_pb f).
Proof. done. Qed.
Lemma pb_only_put id a : pb_only (put_pallocator id a).
Proof. done. Qed.
Lemma pb_only_conf {A} (f : mgr_conf -> outcome A) : pb_only (fun s => lift (f (mconf s)) s).
Proof. intros s. cbn. unfold lift. by destruct (f (mconf s)). Qed.
Lemma pb_only_get {A} (f : pbside -> outcome A) : pb_only (fun s => lift (f (mpb s)) s).
Proof. intros s. cbn. unfold lift. by destruct (f (mpb s)). Qed.

Create HintDb pbonly.
#[export] Hint Resolve pb_only_ret pb_only_lift pb_only_crash pb_only_modify pb_only_put : pbonly.
Ltac pb_only_tac :=
  repeat first [ solve [eauto with pbonly] | apply pb_only_bind; [| intros ?] | match goal with |- pb_only (match ?x with _ => _ end) => destruct x end
               | match goal with |- pb_only (if ?x then _ else _) => destruct x end ].

Lemma pb_only_entry i : pb_only (pb_entry i).
Proof. apply (pb_only_conf (fun c => tget i (pbuf_allocator_table c))). Qed.
Lemma pb_only_pallocator i : pb_only (the_pallocator i).
Proof. apply (pb_only_get (fun b => deref (pb_allocators b !! i))). Qed.
Lemma pb_only_mem : pb_only (gets (fun s => pb_mem (mpb s))).
Proof. apply (pb_only_get (fun b => Done (pb_mem b))). Qed.
Lemma pb_only_gconf {A} (f : mgr_conf -> A) : pb_only (gets (fun s => f (mconf s))).
Proof. apply (pb_only_conf (fun c => Done (f c))). Qed.
#[export] Hint Resolve pb_only_entry pb_only_pallocator pb_only_mem : pbonly.

Lemma pb_only_massert b : pb_only (massert b).
Proof. apply pb_only_lift. Qed.
#[export] Hint Resolve pb_only_massert : pbonly.

Lemma pb_only_avals p : pb_only (__xdp2_pbuf_get_avals p).
Proof. unfold __xdp2_pbuf_get_avals. pb_only_tac. Qed.
Lemma pb_only_ld_refcnt id i : pb_only (ld_refcnt id i).
Proof. unfold ld_refcnt. pb_only_tac. Qed.
Lemma pb_only_st_refcnt id i v : pb_only (st_refcnt id i v).
Proof. unfold st_refcnt. pb_only_tac. Qed.
#[export] Hint Resolve pb_only_avals pb_only_ld_refcnt pb_only_st_refcnt : pbonly.
Lemma pb_only_obj_free id i : pb_only (pb_obj_free id i).
Proof. unfold pb_obj_free. pb_only_tac. Qed.
Lemma pb_only_get_refcnt p : pb_only (xdp2_pbuf_get_refcnt p).
Proof. unfold xdp2_pbuf_get_refcnt. pb_only_tac. Qed.
#[export] Hint Resolve pb_only_obj_free pb_only_get_refcnt : pbonly.
Lemma pb_only_pbuf_free p : pb_only (__xdp2_pbuf_free p).
Proof. unfold __xdp2_pbuf_free. pb_only_tac. Qed.
Lemma pb_only_ext ops sel r c : pb_only (ext_op ops sel r c).
Proof. unfold ext_op. pb_only_tac. Qed.
#[export] Hint Resolve pb_only_pbuf_free pb_only_ext : pbonly.
Lemma pb_only_short_free p : pb_only (__xdp2_paddr_short_addr_free p).
Proof. unfold __xdp2_paddr_short_addr_free. apply pb_only_bind; [apply pb_only_lift | intros ?]. apply pb_only_bind; [apply (pb_only_gconf short_addr_ops) | intros ?]. pb_only_tac. Qed.
Lemma pb_only_long_free p q : pb_only (__xdp2_paddr_long_addr_free p q).
Proof. unfold __xdp2_paddr_long_addr_free. apply pb_only_bind; [apply pb_only_lift | intros ?]. apply pb_only_bind; [apply (pb_only_gconf long_addr_ops) | intros ?]. pb_only_tac. Qed.
#[export] Hint Resolve pb_only_short_free pb_only_long_free : pbonly.

(** ** Freeing buffers *)

Definition free_leaf (l : leaf) : pvm unit :=
  match ptype (fst l) with
  | TPbuf | TPbuf1ref => __xdp2_pbuf_free (fst l)
  | TShort => __xdp2_paddr_short_addr_free (fst l)
  | TLong => __xdp2_paddr_long_addr_free (fst l) (snd l)
  | TPvbuf => crash
  end.

Lemma pb_only_leaf l : pb_only (free_leaf l).
Proof. unfold free_leaf. pb_only_tac. Qed.

(** Freeing the buffers [ls] one after the other takes [b] to [b']. *)
Inductive frees (c : mgr_conf) : list leaf -> pbside -> pbside -> Prop :=
| frees_nil b : frees c [] b b
| frees_cons l ls b b1 b2 : (forall v, free_leaf l (Mgr c v b) = Done (Mgr c v b1, tt)) -> frees c ls b1 b2 -> frees c (l :: ls) b b2.

Lemma frees_app c l1 l2 b b2 : frees c (l1 ++ l2) b b2 <-> exists b1, frees c l1 b b1 /\ frees c l2 b1 b2.
Proof.
  revert b. induction l1 as [| l l1 IH]; intros b; cbn.
  - split; [intros H; exists b; split; [constructor | done] | intros (b1 & H1 & H2); by inversion H1; subst].
  - split.
    + intros H. inversion H as [| ? ? ? b1 ? Hl Hr]; subst. apply IH in Hr as (b3 & H1 & H2). exists b3. split; [by econstructor | done].
    + intros (b1 & H1 & H2). inversion H1 as [| ? ? ? b3 ? Hl Hr]; subst. econstructor; [done |]. apply IH. eauto.
Qed.

Lemma frees_step c l ls s b2 :
  mconf s = c -> frees c (l :: ls) (mpb s) b2 -> exists b1, free_leaf l s = Done (set_mpb b1 s, tt) /\ frees c ls b1 b2.
Proof. intros <- H. inversion H as [| ? ? ? b1 ? Hl Hr]; subst. exists b1. split; [| done]. destruct s as [c v b]. apply Hl. Qed.

(** ** Clearing an iovec *)

Lemma at_pos_unset k i w rest s :
  pv_inv s -> at_pos k i (w :: rest) s -> w <> 0 ->
  exists s', xdp2_pvbuf_iovec_unset_ent k i s = Done (s', tt) /\ pv_inv s' /\ at_pos k (i + 1) rest s' /\ mpb s' = mpb s /\ mconf s' = mconf s /\
    forall k', k' <> k -> heap s' !! k' = heap s !! k'.
Proof.
  intros Hinv Hat Hw. pose proof (at_pos_next _ _ _ _ _ Hat) as Hat'. destruct Hat as (ws & Hk & Hl & Hi & Hd).
  assert (ws !! Z.to_nat i = Some w) as E by (rewrite <- (Nat.add_0_r (Z.to_nat i)), <- lookup_drop, Hd; done).
  exists (upd k (<[Z.to_nat i := 0]> ws) s). split_and!; try done.
  - apply (unset_ent_ok s k ws Hk ltac:(lia) i w); (done || lia).
  - eapply inv_upd; [done | done |]. by rewrite length_insert.
  - pose proof (lookup_lt_Some _ _ _ E). destruct Hat' as (ws2 & Hk2 & Hl2 & Hi2 & Hd2). rewrite Hk in Hk2. injection Hk2 as _ <-.
    exists (<[Z.to_nat i := 0]> ws). rewrite length_insert. split_and!; [apply lookup_insert_eq | done | lia | lia |]. rewrite drop_insert_lt by lia. done.
  - intros k' Hk'. by rewrite heap_upd, lookup_insert_ne by auto.
Qed.

Lemma pv_step_pb s s' s2 ks ks' : pv_step s s' ks ks' -> mconf s2 = mconf s' -> mpv s2 = mpv s' -> pv_step s s2 ks ks'.
Proof. intros [H1 H2 H3] Hc Hv. split; [congruence | | done]. unfold heap in *. by rewrite Hv. Qed.

(** A step that only changes [k]. *)
Lemma pv_step_local s s' k ks : k ∈ ks -> mconf s' = mconf s -> (forall k', k' <> k -> heap s' !! k' = heap s !! k') -> pv_step s s' ks ks.
Proof. intros Hk Hc H. split; [done | | by left]. intros k' Hk'. rewrite decide_False by done. apply H. by intros ->. Qed.

Lemma segs_keep H H' d ws ls ks (k : pvptr) : segs H d ws ls ks -> k ∉ ks -> (forall k', k' <> k -> H' !! k' = H !! k') -> segs H' d ws ls ks.
Proof. intros Hs Hk Hf. eapply segs_frame; [done |]. intros k' Hk'. apply Hf. by intros ->. Qed.

(** ** Freeing a packet *)

(** The iovecs from position [i] on are still to be freed. *)
Definition free_inv (s : xdp2_pvbuf_mgr) (k : pvptr) (d : nat) (ks : gset pvptr) (bF : pbside) (i : Z) (rest : list Z) (s' : xdp2_pvbuf_mgr) : Prop :=
  at_pos k i rest s' /\ pv_inv s' /\ exists lr kr, segs (heap s') d rest lr kr /\ k ∉ kr /\
    pv_step s s' ks ({[k]} ∪ kr) /\ frees (mconf s) lr (mpb s') bF.

(** The iovec at position [i] is cleared after its buffer was freed. *)
Lemma free_next s k d ks bF i w rest s' lr kr :
  pv_inv s' -> at_pos k i (w :: rest) s' -> w <> 0 -> segs (heap s') d rest lr kr -> k ∉ kr -> pv_step s s' ks ({[k]} ∪ kr) -> frees (mconf s) lr (mpb s') bF ->
  exists s2, xdp2_pvbuf_iovec_unset_ent k i s' = Done (s2, tt) /\ free_inv s k d ks bF (i + 1) rest s2.
Proof.
  intros Hinv Hat Hw Hs Hk Hst Hf. destruct (at_pos_unset _ _ _ _ _ Hinv Hat Hw) as (s2 & E & Hinv2 & Hat2 & Hpb & Hc & Hoth).
  exists s2. split; [done |]. split_and!; [done | done |]. exists lr, kr. split_and!; [by eapply segs_keep | done | | by rewrite Hpb].
  eapply pv_step_trans; [exact Hst |]. eapply pv_step_local; [apply elem_of_union_l, elem_of_singleton; done | done | done].
Qed.

Lemma pvbuf_free_wps fuel : forall d p ls ks bF s,
  pv_inv s -> rep (heap s) d p ls ks -> (d < fuel)%nat -> frees (mconf s) ls (mpb s) bF ->
  wps (__xdp2_pvbuf_free fuel p) s (fun _ s' => pv_inv s' /\ pv_step s s' ks ∅ /\ mpb s' = bF).
Proof.
  induction fuel as [| fuel IH]; intros d p ls ks bF s Hinv (Hp & ws & ks1 & Hk & Hs & Hn & ->) Hd Hf; [lia |].
  cbn [__xdp2_pvbuf_free]. eapply wps_lift; [by apply size_ok |]. eapply wps_step; [exact (paddr_to_addr_ok s Hinv p (mk ws) Hp Hk) |].
  pose proof (inv_bounds _ Hinv _ _ Hk) as Hb. set (k := key_of p) in *.
  apply wps_bind. apply (wps_foreach _ _ _ (fun i rest (_ : unit) s' => free_inv s k d ({[k]} ∪ ks1) bF i rest s')) with (ws := ws); [| | | | done | lia |].
  - by intros i rest x s' [H _].
  - intros i rest x s' (H & Hi & lr & kr & Hr & Hrest). split_and!; [by eapply at_pos_next | done |]. exists lr, kr. split; [by apply segs_null_inv | done].
  - intros i x s' ((ws' & Hk' & _) & Hi & lr & kr & Hr & Hkr & Hst & Hfr). inversion Hr; subst lr kr. inversion Hfr; subst.
    eapply wps_mono; [by apply (pv_obj_free_ok k _ _ Hi Hk') |]. intros _ s2 (Hi2 & Hst2 & Hpb2 & _). split_and!; [done | | done].
    rewrite (right_id_L ∅ (∪)) in Hst. by eapply pv_step_trans.
  - intros i w rest x s' Hw (Hat & Hi & lr & kr & Hr & Hkr & Hst & Hfr). pose proof (step_conf _ _ _ _ Hst) as Hc.
    unfold free_iovec. apply wps_bind. eapply wps_step; [by eapply at_pos_lookup |]. apply wps_assert; [by destruct (Z.eqb_spec w 0) |].
    destruct (segs_first _ _ _ _ _ _ Hw Hr) as [lr' Hbf -> Hr' | w2 ws' lr' Hlc -> -> Hr' | d' l1 lr' k1 kr' -> Hrep _ Hr' Hdj -> ->].
    + destruct (frees_step _ _ _ s' _ Hc Hfr) as (b1 & Ef & Hfr').
      destruct (free_next s k d ({[k]} ∪ ks1) bF i w rest (set_mpb b1 s') lr' kr) as (s2 & E2 & HI2);
        [by eapply pv_inv_same; [| | exact Hi] | exact Hat | exact Hw | exact Hr' | exact Hkr | by eapply pv_step_pb; [exact Hst | |] | exact Hfr' |].
      unfold free_leaf in Ef. cbn [fst] in Ef. destruct Hbf as [T | [T | T]]; rewrite T in Ef |- *; (eapply wps_step; [exact Ef |]); apply wps_ret;
        (eapply wps_step; [exact E2 |]); apply wps_ret; (split; [lia | by exists rest]).
    + pose proof (proj1 (long_check _ _) Hlc) as (_ & T & _ & _ & _ & _ & Hw2). apply nonzero_of in Hw2.
      destruct (frees_step _ _ _ s' _ Hc Hfr) as (b1 & Ef & Hfr'). unfold free_leaf in Ef. cbn [fst snd] in Ef. rewrite T in Ef |- *.
      pose proof (at_pos_next _ _ _ _ _ Hat) as Hat'. eapply wps_step; [by eapply at_pos_lookup |]. eapply wps_step; [exact Ef |].
      set (s1 := set_mpb b1 s'). assert (pv_inv s1) as Hi1 by (by eapply pv_inv_same; [| | exact Hi]).
      destruct (at_pos_unset k i w (w2 :: ws') s1 Hi1 Hat Hw) as (s2 & E2 & Hi2 & Hat2 & Hpb2 & Hc2 & Hoth2).
      eapply wps_step; [exact E2 |]. eapply wps_step; [by eapply at_pos_isset |]. apply wps_assert; [done |]. apply wps_ret.
      destruct (free_next s k d ({[k]} ∪ ks1) bF (i + 1) w2 ws' s2 lr' kr) as (s3 & E3 & HI3);
        [exact Hi2 | exact Hat2 | exact Hw2 | by eapply segs_keep; [exact Hr' | exact Hkr | exact Hoth2] | exact Hkr | | by rewrite Hpb2 |].
      { eapply pv_step_trans; [exact Hst |]. eapply (pv_step_local s' s2 k); [apply elem_of_union_l, elem_of_singleton; done | done | exact Hoth2]. }
      eapply wps_step; [exact E3 |]. apply wps_ret. split; [lia | by exists ws'].
    + pose proof Hrep as [T _]. rewrite T. rewrite <- Hc in Hfr. apply frees_app in Hfr as (b1 & Hf1 & Hf2). rewrite not_elem_of_union in Hkr. destruct Hkr as [Hk1 Hkr].
      apply wps_bind. eapply wps_mono; [by apply (IH d' w l1 k1 b1 s' Hi Hrep ltac:(lia) Hf1) |]. intros _ s1 (Hi1 & Hst1 & Hpb1). apply wps_ret.
      assert ({[k]} ∪ kr' ## k1) as Hdk by (apply disjoint_union_l; split; [by apply disjoint_singleton_l | done]).
      assert (forall k', k' ∈ {[k]} ∪ kr' -> is_Some (heap s' !! k')) as Hdm.
      { intros k' [Hk'%elem_of_singleton | Hk']%elem_of_union; [subst; destruct Hat as (? & -> & _); eauto | by apply (segs_dom _ _ _ _ _ Hr')]. }
      pose proof (pv_step_same _ _ _ _ _ Hst1 Hdk Hdm) as Hsame.
      assert (at_pos k i (w :: rest) s1) as Hat1 by (destruct Hat as (ws' & Hk' & Hrest); exists ws'; by rewrite Hsame by (apply elem_of_union_l, elem_of_singleton; done)).
      destruct (free_next s k (S d') ({[k]} ∪ ks1) bF i w rest s1 lr' kr') as (s2 & E2 & HI2); [exact Hi1 | exact Hat1 | exact Hw | | exact Hkr | | |].
      { eapply segs_frame; [exact Hr' |]. intros k' Hk'. apply Hsame. by apply elem_of_union_r. }
      { eapply pv_step_trans; [exact Hst |]. replace ({[k]} ∪ (k1 ∪ kr')) with (k1 ∪ ({[k]} ∪ kr')) by (clear; set_solver).
        rewrite <- (left_id_L ∅ (∪) ({[k]} ∪ kr')) at 2. by apply pv_step_frame. }
      { by rewrite Hpb1, <- Hc. }
      eapply wps_step; [exact E2 |]. apply wps_ret. split; [lia | by exists rest].
  - split_and!; [by apply at_pos_0; [| lia] | done |]. exists ls, ks1. split_and!; try done. apply pv_step_refl.
Qed.
