(* ===== verification/PvbufPopStep.v ===== *)
(** * Packet vectors: removing data from one iovec

    A buffer that lies in the range to be removed is freed and its iovecs are
    cleared; the last buffer is cut. *)

From stdpp Require Import base list gmap numbers.
From S2P Require Import Prelude BitmapWord BitmapWordSpec Memory Paddr Pvbuf PvbufEdit PvbufPop PvbufMap PvbufRep PvbufRead PvbufInsert PvbufInv PvbufSlots PvbufJoin.

(** ** Packet vectors: what removing data leaves

    The list of buffers after a number of bytes is removed at the front or at the
    end: buffers are removed whole, and the last one touched is cut. *)

(** ** Cutting a buffer *)

(** Without the first [n] bytes. *)
Definition cut_head (n : Z) (l : leaf) : leaf :=
  let '(p, p2) := l in
  match ptype p with
  | TPbuf | TPbuf1ref => (shorten n (bf_set pbuf_offset (bf_get pbuf_offset p + n) p), p2)
  | TShort => (shorten n (bf_set short_offset (bf_get short_offset p + n) p), p2)
  | TLong =>
    let o := u64 (Z.lor (Z.shiftl (bf_get long_high_offset p) 48) (bf_get long2_low_offset p2) + n) in
    (shorten n (bf_set long_high_offset (Z.shiftr o 48) p), bf_set long2_low_offset (Z.land o (Z.ones 48)) p2)
  | TPvbuf => l
  end.

(** Without the last [n] bytes. *)
Definition cut_tail (n : Z) (l : leaf) : leaf := (shorten n (fst l), snd l).

Record cuts (cut : Z -> leaf -> leaf) : Prop := Cuts {
  cut_type n l : ptype (fst l) <> TPvbuf -> ptype (fst (cut n l)) = ptype (fst l);
  cut_snd n l : ptype (fst l) <> TLong -> snd (cut n l) = snd l;
  cut_long n l : __xdp2_paddr_long_addr_check (fst l) (snd l) = Done tt -> __xdp2_paddr_long_addr_check (fst (cut n l)) (snd (cut n l)) = Done tt;
  cut_len n l : ptype (fst l) <> TPvbuf -> 0 <= n < leaf_len l -> leaf_len (cut n l) = leaf_len l - n }.

Lemma shorten_type n p : ptype (shorten n p) = ptype p.
Proof. unfold shorten. destruct (ptype p) eqn:E; rewrite bf_set_tag by (field_side || (cbn; lia)); exact E. Qed.

(** The lengths are in the low order bits. *)
Lemma shorten_get g n p : valid_field g -> 32 <= f_lo g -> bf_get g (shorten n p) = bf_get g p.
Proof. intros Hg Hl. unfold shorten. destruct (ptype p); (apply bf_get_set_other; [field_side | exact Hg | left; cbn; lia]). Qed.

Lemma shorten_buf_get g n p : valid_field g -> is_buf p -> 20 <= f_lo g -> bf_get g (shorten n p) = bf_get g p.
Proof.
  intros Hg Hp Hl. unfold shorten. destruct Hp as [-> | [-> | ->]]; (apply bf_get_set_other; [field_side | exact Hg | left; cbn; lia]).
Qed.

Lemma shorten_len n p p2 : ptype p <> TPvbuf -> 0 <= n < leaf_len (p, p2) -> leaf_len (shorten n p, p2) = leaf_len (p, p2) - n.
Proof.
  intros Hp Hn. unfold leaf_len in *. cbn [fst] in *. rewrite shorten_type. destruct (ptype p) eqn:E; [done | | | |].
  1, 2: assert (tag_15 (shorten n p) = tag_15 p) as Ht by (unfold tag_15; by rewrite shorten_buf_get by (field_side || (unfold is_buf; auto) || (cbn; lia)));
    rewrite Ht; unfold shorten; rewrite E; pose proof (bf_get_range pbuf_data_length p ltac:(field_side)) as Hr; cbn [f_width pbuf_data_length] in Hr;
    assert (0 <= tag_15 p <= 1) by (unfold tag_15; destruct (_ =? _); cbn; lia);
    rewrite bf_get_set_small by (field_side || (cbn; lia)); lia.
  - unfold shorten. rewrite E. pose proof (bf_get_range short_data_length p ltac:(field_side)) as Hr. cbn [f_width short_data_length] in Hr.
    rewrite bf_get_set_small by (field_side || (cbn; lia)). lia.
  - unfold shorten. rewrite E. pose proof (bf_get_range long_data_length p ltac:(field_side)) as Hr. cbn [f_width long_data_length] in Hr.
    rewrite bf_get_set_small by (field_side || (cbn; lia)). lia.
Qed.

(** Moving the start of a buffer keeps its kind and length. *)
Lemma offset_pbuf v p : ptype p = TPbuf \/ ptype p = TPbuf1ref ->
  let q := bf_set pbuf_offset v p in ptype q = ptype p /\ forall p2, leaf_len (q, p2) = leaf_len (p, p2).
Proof.
  intros Hp q. assert (ptype q = ptype p) as Ht by (apply bf_set_tag; [field_side | cbn; lia]). split; [exact Ht |].
  intros p2. unfold leaf_len, tag_15. cbn [fst]. rewrite Ht. unfold q. rewrite !(bf_get_set_other pbuf_offset) by field_side. by destruct Hp as [-> | ->].
Qed.

Lemma offset_short v p : ptype p = TShort -> let q := bf_set short_offset v p in ptype q = TShort /\ forall p2, leaf_len (q, p2) = leaf_len (p, p2).
Proof.
  intros Hp q. assert (ptype q = TShort) as Ht by (apply short_region; unfold q; rewrite bf_get_set_other by field_side; by apply short_region).
  split; [exact Ht |]. intros p2. unfold leaf_len. cbn [fst]. rewrite Ht, Hp. unfold q. by rewrite bf_get_set_other by field_side.
Qed.

Lemma offset_long v v2 p p2 : __xdp2_paddr_long_addr_check p p2 = Done tt ->
  let q := bf_set long_high_offset v p in let q2 := bf_set long2_low_offset v2 p2 in
  ptype q = TLong /\ __xdp2_paddr_long_addr_check q q2 = Done tt /\ leaf_len (q, q2) = leaf_len (p, p2).
Proof.
  intros Hc q q2. pose proof (proj1 (long_check _ _) Hc) as (H1 & H2 & H3 & H4 & H5 & H6 & H7).
  assert (ptype q = TLong) as Ht by (unfold q; rewrite bf_set_tag; [exact H2 | field_side | cbn; lia]).
  split; [exact Ht |]. split.
  - apply long_check. unfold q2. rewrite Ht, bf_set_tag by (field_side || (cbn; lia)). unfold q. rewrite !bf_get_set_other by field_side.
    split_and!; try assumption; [| reflexivity]. apply (nonzero_of long_one_bit). by rewrite bf_get_set_other by field_side.
  - unfold leaf_len. cbn [fst]. rewrite Ht, H2. unfold q. by rewrite bf_get_set_other by field_side.
Qed.

Lemma shorten_long n p p2 : __xdp2_paddr_long_addr_check p p2 = Done tt -> __xdp2_paddr_long_addr_check (shorten n p) p2 = Done tt.
Proof.
  intros Hc. pose proof (proj1 (long_check _ _) Hc) as (H1 & H2 & H3 & H4 & H5). apply long_check.
  rewrite shorten_type, !shorten_get by (field_side || (cbn; lia)). split_and!; try assumption; [| apply H5..].
  apply (nonzero_of long_one_bit). by rewrite shorten_get by (field_side || (cbn; lia)).
Qed.

Lemma cuts_tail : cuts cut_tail.
Proof.
  split; unfold cut_tail; cbn [fst snd].
  - intros n l _. apply shorten_type.
  - done.
  - intros n l. apply shorten_long.
  - intros n [p p2] Hp Hn. by apply shorten_len.
Qed.

Lemma cuts_head : cuts cut_head.
Proof.
  split; unfold cut_head; intros n [p p2]; cbn [fst snd].
  - intros Hp. destruct (ptype p) eqn:E; cbn [fst]; rewrite ?shorten_type.
    + done.
    + rewrite (proj1 (offset_pbuf _ p ltac:(auto))). exact E.
    + rewrite (proj1 (offset_pbuf _ p ltac:(auto))). exact E.
    + apply (proj1 (offset_short _ p E)).
    + rewrite bf_set_tag; [exact E | field_side | cbn; lia].
  - intros Hp. by destruct (ptype p).
  - intros Hc. pose proof (proj1 (long_check _ _) Hc) as (_ & -> & _). cbn [fst snd]. apply shorten_long. by apply offset_long.
  - intros Hp Hn. destruct (ptype p) eqn:E; [done | | | |].
    + destruct (offset_pbuf (bf_get pbuf_offset p + n) p ltac:(auto)) as [Ht Hl]. rewrite shorten_len, Hl; [done | by rewrite Ht, E | by rewrite Hl].
    + destruct (offset_pbuf (bf_get pbuf_offset p + n) p ltac:(auto)) as [Ht Hl]. rewrite shorten_len, Hl; [done | by rewrite Ht, E | by rewrite Hl].
    + destruct (offset_short (bf_get short_offset p + n) p E) as [Ht Hl]. rewrite shorten_len, Hl; [done | by rewrite Ht | by rewrite Hl].
    + assert (ptype (bf_set long_high_offset (Z.shiftr (u64 (Z.lor (Z.shiftl (bf_get long_high_offset p) 48) (bf_get long2_low_offset p2) + n)) 48) p) = TLong) as Ht
        by (rewrite bf_set_tag; [exact E | field_side | cbn; lia]).
      set (q := bf_set long_high_offset _ p) in *. assert (forall q2, leaf_len (q, q2) = leaf_len (p, p2)) as Hl
        by (intros q2; unfold leaf_len; cbn [fst]; rewrite Ht, E; unfold q; by rewrite bf_get_set_other by field_side).
      rewrite shorten_len, Hl; [done | by rewrite Ht | by rewrite Hl].
Qed.

(** ** Removing bytes *)

Definition positive (ls : list leaf) : Prop := Forall (fun l => 0 < leaf_len l) ls.

Section Trim.
Context (cut : Z -> leaf -> leaf).

(** What is left when [n] bytes are removed from the first buffers on, and the
    buffers that are removed whole. *)
Fixpoint trim (n : Z) (ls : list leaf) : list leaf :=
  match ls with
  | [] => []
  | l :: ls => if n <=? 0 then l :: ls else if leaf_len l <=? n then trim (n - leaf_len l) ls else cut n l :: ls
  end.

Fixpoint gone (n : Z) (ls : list leaf) : list leaf :=
  match ls with
  | [] => []
  | l :: ls => if n <=? 0 then [] else if leaf_len l <=? n then l :: gone (n - leaf_len l) ls else []
  end.

Lemma trim_0 n ls : n <= 0 -> trim n ls = ls /\ gone n ls = [].
Proof. intros Hn. destruct ls; [done |]. cbn. by destruct (Z.leb_spec n 0); [| lia]. Qed.

Lemma positive_app l1 l2 : positive (l1 ++ l2) <-> positive l1 /\ positive l2.
Proof. apply Forall_app. Qed.

Lemma positive_total ls : positive ls -> total ls <= 0 -> ls = [].
Proof. intros [| l r Hl Hr]; [done |]. pose proof (total_nonneg r). cbn. lia. Qed.

Lemma trim_app n l1 l2 : positive l1 ->
  trim n (l1 ++ l2) = (if total l1 <=? n then trim (n - total l1) l2 else trim n l1 ++ l2) /\
  gone n (l1 ++ l2) = if total l1 <=? n then l1 ++ gone (n - total l1) l2 else gone n l1.
Proof.
  revert n. induction l1 as [| l l1 IH]; intros n Hp; cbn [app trim gone total].
  - destruct (Z.leb_spec 0 n); [by rewrite Z.sub_0_r |]. by apply trim_0; lia.
  - apply Forall_cons_1 in Hp as [Hl Hp]. pose proof (total_nonneg l1). destruct (Z.leb_spec n 0).
    + by destruct (Z.leb_spec (leaf_len l + total l1) n); [lia |].
    + destruct (Z.leb_spec (leaf_len l) n).
      * destruct (IH (n - leaf_len l) Hp) as [-> ->]. replace (n - leaf_len l - total l1) with (n - (leaf_len l + total l1)) by lia.
        destruct (Z.leb_spec (total l1) (n - leaf_len l)), (Z.leb_spec (leaf_len l + total l1) n); (done || lia).
      * by destruct (Z.leb_spec (leaf_len l + total l1) n); [lia |].
Qed.

Lemma trim_all n ls : positive ls -> total ls <= n -> trim n ls = [] /\ gone n ls = ls.
Proof.
  intros Hp Hn. destruct (trim_app n ls [] Hp) as [E1 E2]. rewrite app_nil_r in *. rewrite E1, E2. destruct (Z.leb_spec (total ls) n); [| lia]. cbn.
  by rewrite app_nil_r.
Qed.

Lemma trim_some n ls : positive ls -> 0 <= n < total ls -> trim n ls <> [].
Proof.
  revert n. induction ls as [| l ls IH]; intros n Hp Hn; cbn [trim total] in *; [lia |].
  apply Forall_cons_1 in Hp as [Hl Hp]. destruct (n <=? 0); [done |]. destruct (Z.leb_spec (leaf_len l) n); [| done]. apply IH; [done | lia].
Qed.
End Trim.

Lemma total_rev ls : total (rev ls) = total ls.
Proof. induction ls as [| l ls IH]; [done |]. cbn [rev total]. rewrite total_app, IH. cbn. lia. Qed.

Lemma positive_rev ls : positive ls -> positive (rev ls).
Proof. unfold positive. intros H. by apply List.Forall_rev. Qed.

Lemma trim_total cut n ls : cuts cut -> Forall leaf_ok ls -> 0 <= n <= total ls -> total (trim cut n ls) = total ls - n.
Proof.
  intros Hc Hf. revert n. induction Hf as [| l ls Ho Hf IH]; intros n Hn; cbn [trim total] in *; [lia |].
  destruct (Z.leb_spec n 0); [cbn [total]; lia |]. destruct (Z.leb_spec (leaf_len l) n); [rewrite IH; lia |].
  cbn [total]. rewrite (cut_len _ Hc); [lia | | lia]. intros E. unfold leaf_ok in Ho. by rewrite E in Ho.
Qed.

(** ** At either end *)

(** An end of a list: what removing bytes there leaves and removes, and how a
    part at this end and the others make a list. *)
Record ending := Ending {
  e_trim : Z -> list leaf -> list leaf;
  e_gone : Z -> list leaf -> list leaf;
  e_cat : list leaf -> list leaf -> list leaf }.
Definition front : ending := Ending (trim cut_head) gone (fun l1 l2 => l1 ++ l2).
Definition back : ending :=
  Ending (fun n ls => rev (trim cut_tail n (rev ls))) (fun n ls => rev (gone n (rev ls))) (fun l1 l2 => l2 ++ l1).

(** Both ends behave alike on one packet. *)
Record ending_ok (e : ending) : Prop := EndingOk {
  e_zero ls : e_trim e 0 ls = ls /\ e_gone e 0 ls = [];
  e_all n ls : positive ls -> total ls <= n -> e_trim e n ls = [] /\ e_gone e n ls = ls;
  e_some n ls : positive ls -> 0 <= n < total ls -> e_trim e n ls <> [];
  e_total n ls : Forall leaf_ok ls -> 0 <= n <= total ls -> total (e_trim e n ls) = total ls - n;
  e_nil ls : e_cat e [] ls = ls;
  e_perm l1 l2 : e_cat e l1 l2 ≡ₚ l1 ++ l2;
  e_assoc l1 l2 l3 : e_cat e l1 (e_cat e l2 l3) = e_cat e (e_cat e l1 l2) l3;
  e_app n l1 l2 : positive l1 ->
    e_trim e n (e_cat e l1 l2) = (if total l1 <=? n then e_trim e (n - total l1) l2 else e_cat e (e_trim e n l1) l2) /\
    e_gone e n (e_cat e l1 l2) = if total l1 <=? n then e_cat e l1 (e_gone e (n - total l1) l2) else e_gone e n l1 }.

Lemma front_ok : ending_ok front.
Proof.
  split; cbn [front e_trim e_gone e_cat]; intros.
  - by apply trim_0.
  - by apply trim_all.
  - by apply trim_some.
  - by apply trim_total; [apply cuts_head | |].
  - done.
  - done.
  - by rewrite app_assoc.
  - by apply trim_app.
Qed.

Lemma back_ok : ending_ok back.
Proof.
  split; cbn [back e_trim e_gone e_cat].
  - intros ls. destruct (trim_0 cut_tail 0 (rev ls)) as [-> ->]; [done |]. by rewrite rev_involutive.
  - intros n ls Hp Hn. destruct (trim_all cut_tail n (rev ls)) as [-> ->]; [by apply positive_rev | by rewrite total_rev |]. by rewrite rev_involutive.
  - intros n ls Hp Hn E. apply (trim_some cut_tail n (rev ls)); [by apply positive_rev | by rewrite total_rev |]. by rewrite <- (rev_involutive (trim _ _ _)), E.
  - intros n ls Ho Hn. rewrite total_rev, trim_total; [by rewrite total_rev | apply cuts_tail | by apply List.Forall_rev | by rewrite total_rev].
  - intros ls. apply app_nil_r.
  - intros l1 l2. apply Permutation_app_comm.
  - intros l1 l2 l3. by rewrite app_assoc.
  - intros n l1 l2 Hp. rewrite rev_app_distr. destruct (trim_app cut_tail n (rev l1) (rev l2) (positive_rev _ Hp)) as [-> ->].
    rewrite total_rev. destruct (total l1 <=? n); rewrite ?rev_app_distr, ?rev_involutive; done.
Qed.

(** ** Buffers freed in any order *)

Definition freed (c : mgr_conf) (L : list leaf) (b b' : pbside) : Prop := exists L', L' ≡ₚ L /\ frees c L' b b'.
Definition freeable (c : mgr_conf) (L : list leaf) (b : pbside) : Prop := forall L', L' ≡ₚ L -> exists b', frees c L' b b'.

Lemma frees_fun c L b b1 b2 : frees c L b b1 -> frees c L b b2 -> b1 = b2.
Proof.
  intros H. revert b2. induction H as [b | l L b b1 b3 Hl HL IH]; intros b2 H2; inversion H2 as [| ? ? ? b1' ? Hl' HL']; subst; [done |].
  apply IH. specialize (Hl (PvSide ∅ [] 0)). specialize (Hl' (PvSide ∅ [] 0)). rewrite Hl in Hl'. by injection Hl' as <-.
Qed.

Lemma freed_nil c b : freed c [] b b.
Proof. exists []. split; [done | constructor]. Qed.

Lemma freed_app c L1 L2 b b1 b2 : freed c L1 b b1 -> freed c L2 b1 b2 -> freed c (L1 ++ L2) b b2.
Proof. intros (L1' & P1 & F1) (L2' & P2 & F2). exists (L1' ++ L2'). split; [by rewrite P1, P2 |]. apply frees_app. eauto. Qed.

Lemma freed_perm c L L' b b' : freed c L b b' -> L ≡ₚ L' -> freed c L' b b'.
Proof. intros (M & P & F) P'. exists M. split; [by rewrite P | done]. Qed.

Lemma freeable_perm c L L' b : freeable c L b -> L ≡ₚ L' -> freeable c L' b.
Proof. intros H P M HM. apply H. by rewrite HM, P. Qed.

Lemma freeable_now c L1 L2 b : freeable c (L1 ++ L2) b -> exists b1, frees c L1 b b1.
Proof. intros H. destruct (H (L1 ++ L2)) as [b' F]; [done |]. apply frees_app in F as (b1 & F1 & _). eauto. Qed.

Lemma freeable_next c L1 L2 b b1 : freeable c (L1 ++ L2) b -> freed c L1 b b1 -> freeable c L2 b1.
Proof.
  intros H (L1' & P1 & F1) L2' P2. destruct (H (L1' ++ L2')) as [b' F]; [by rewrite P1, P2 |].
  apply frees_app in F as (b1' & F1' & F2). rewrite (frees_fun _ _ _ _ _ F1 F1'). eauto.
Qed.

Lemma freeable_l c L1 L2 b : freeable c (L1 ++ L2) b -> freeable c L1 b.
Proof. intros H L' P. destruct (H (L' ++ L2)) as [b' F]; [by rewrite P |]. apply frees_app in F as (b1 & F1 & _). eauto. Qed.

(** ** A buffer among the iovecs *)

Lemma at_pos_mid k a rest s : heap s !! k = Some (mk (a ++ rest)) -> (length (a ++ rest) <= 63)%nat -> at_pos k (Z.of_nat (length a)) rest s.
Proof.
  intros Hk Hl. exists (a ++ rest). rewrite length_app in *. split_and!; [done | lia | lia | lia |]. by rewrite Nat2Z.id, drop_app_length.
Qed.

(** The kinds of buffers. *)
Lemma leaf_view l : leaf_ok l -> is_buf (fst l) /\ snd l = 0 /\ words_of l = [fst l] \/
  ptype (fst l) = TLong /\ __xdp2_paddr_long_addr_check (fst l) (snd l) = Done tt /\ words_of l = [fst l; snd l].
Proof.
  unfold leaf_ok, words_of, is_buf. destruct (ptype (fst l)) eqn:E; intros H.
  - by exfalso.
  - left. rewrite decide_False by discriminate. auto.
  - left. rewrite decide_False by discriminate. auto.
  - left. rewrite decide_False by discriminate. auto.
  - right. rewrite decide_True by done. auto.
Qed.

Lemma leaf_nonzero l : leaf_ok l -> fst l <> 0 /\ ptype (fst l) <> TPvbuf.
Proof.
  intros H. pose proof (leaf_view _ H) as [(Hb & _) | (Ht & Hc & _)].
  - split; [intros E; rewrite E in Hb; exact (not_buf_0 Hb) | destruct Hb as [E | [E | E]]; rewrite E; discriminate].
  - split; [exact (proj1 (proj1 (long_check _ _) Hc)) | rewrite Ht; discriminate].
Qed.

Lemma cut_ok cut n l : cuts cut -> leaf_ok l ->
  leaf_ok (cut n l) /\ length (words_of (cut n l)) = length (words_of l) /\ ptype (fst (cut n l)) = ptype (fst l).
Proof.
  intros Hc Ho. destruct (leaf_nonzero _ Ho) as [_ Ht]. pose proof (cut_type _ Hc n l Ht) as Et.
  split_and!; [| unfold words_of; rewrite Et; by case_decide | exact Et].
  unfold leaf_ok in *. rewrite Et. destruct (ptype (fst l)) eqn:E; [done | | | |].
  1, 2, 3: rewrite (cut_snd _ Hc); [done | by rewrite E].
  by apply (cut_long _ Hc).
Qed.

Section Leaf.
Context (s : xdp2_pvbuf_mgr) (k : pvptr) (a b : list Z) (l : leaf).
Context (Hk : heap s !! k = Some (mk (a ++ words_of l ++ b))) (Hl : (length (a ++ words_of l ++ b) <= 63)%nat) (Hok : leaf_ok l).
Context (x : Z) (Haddr : leaf_addr (mconf s) l = Some x) (Hlast : last_ok (a ++ words_of l ++ b)).
Abbreviation i := (Z.of_nat (length a)).

Lemma ptr_len_mid : __xdp2_pvbuf_get_ptr_len_from_iovec k i false s = Done (s, (x, leaf_len l)).
Proof using Hk Hl Hok Haddr Hlast.
  pose proof (at_pos_mid _ _ _ _ Hk Hl) as Hat. destruct l as [w w2]. destruct (leaf_view _ Hok) as [(Hb & H2 & Ew) | (_ & Hc & Ew)]; cbn [fst snd] in *; rewrite Ew in Hat, Hlast.
  - subst w2. eapply get_ptr_len_buf; [exact Hat | exact Hb | exact (last_ok_next _ _ _ Hlast Hb) | exact Haddr].
  - eapply get_ptr_len_long; [exact Hat | exact Hc | exact Haddr].
Qed.

Lemma free_iovec_mid b1 :
  frees (mconf s) [l] (mpb s) b1 ->
  __xdp2_pvbuf_paddr_free_iovec k i s = Done (upd k (a ++ replicate (length (words_of l)) 0 ++ b) (set_mpb b1 s), tt).
Proof using Hk Hl Hok.
  clear x Haddr Hlast. intros F. destruct (frees_step _ _ _ s _ eq_refl F) as (b1' & Ef & F'). assert (b1' = b1) as -> by (inversion F'; reflexivity). clear F'.
  unfold __xdp2_pvbuf_paddr_free_iovec, mbind, pvm_bind. unfold free_leaf in Ef. destruct l as [w w2].
  rewrite length_app in Hl. destruct (leaf_view _ Hok) as [(Hb & H2 & Ew) | (Ht & Hc & Ew)]; cbn [fst snd] in *; rewrite Ew in *; cbn [app length replicate] in *.
  - assert (w <> 0) as Hw by (intros ->; by destruct not_buf_0). rewrite (ld_iovec_mid _ _ _ _ _ Hk) by lia. rewrite (proj2 (Z.eqb_neq w 0) Hw).
    cbn [negb massert lift XDP2_ASSERT mret outcome_ret].
    assert (xdp2_pvbuf_iovec_unset_ent k i (set_mpb b1 s) = Done (upd k (a ++ 0 :: b) (set_mpb b1 s), tt)) as Eu.
    { erewrite (unset_ent_ok (set_mpb b1 s) k _ Hk); [rewrite Nat2Z.id, insert_middle; reflexivity | rewrite length_app; cbn; lia | lia | rewrite Nat2Z.id; by apply list_lookup_middle | assumption]. }
    destruct Hb as [T | [T | T]]; rewrite T in Ef |- *; rewrite Ef; exact Eu.
  - pose proof (proj1 (long_check _ _) Hc) as (Hw & _ & _ & _ & _ & _ & Hw2). apply nonzero_of in Hw2.
    rewrite (ld_iovec_mid _ _ _ _ _ Hk) by (cbn; lia). rewrite (proj2 (Z.eqb_neq w 0) Hw). cbn [negb massert lift XDP2_ASSERT mret outcome_ret].
    rewrite Ht in Ef |- *. pose proof Hk as Hk2. rewrite cons_middle, app_assoc in Hk2. assert (i + 1 = Z.of_nat (length (a ++ [w]))) as Ei by (rewrite length_app; cbn; lia).
    rewrite Ei. rewrite (ld_iovec_mid _ _ _ _ _ Hk2) by (rewrite length_app; cbn; lia). rewrite Ef.
    erewrite (unset_ent_ok (set_mpb b1 s) k _ Hk2); [| rewrite !length_app; cbn; lia | lia | rewrite Nat2Z.id; by apply list_lookup_middle | assumption].
    rewrite Nat2Z.id, insert_middle, <- app_assoc. cbn [app].
    erewrite (unset_ent_ok _ k (a ++ w :: 0 :: b)); [rewrite upd_upd, Nat2Z.id, insert_middle; reflexivity | apply lookup_insert_eq | rewrite length_app; cbn; lia | lia | rewrite Nat2Z.id; by apply list_lookup_middle | assumption].
Qed.

Lemma pop_whole n b1 :
  frees (mconf s) [l] (mpb s) b1 -> leaf_len l <= n ->
  let s' := upd k (a ++ replicate (length (words_of l)) 0 ++ b) (set_mpb b1 s) in
  __xdp2_pvbuf_pop_from_paddr_iovec k i n None s = Done (s', (n - leaf_len l, None)) /\
  __xdp2_pvbuf_pop_trailers_from_paddr_iovec k i n None s = Done (s', (n - leaf_len l, None)).
Proof using Hk Hl Hok Haddr Hlast.
  intros F Hn. unfold __xdp2_pvbuf_pop_from_paddr_iovec, __xdp2_pvbuf_pop_trailers_from_paddr_iovec, mbind, pvm_bind. rewrite ptr_len_mid.
  destruct (Z.leb_spec (leaf_len l) n); [| lia]. cbn [copy_up copy_down mret pvm_ret]. rewrite (free_iovec_mid b1 F). split; reflexivity.
Qed.

(** Cutting the buffer. *)
Lemma pop_cut_tail n : 0 <= n < leaf_len l ->
  __xdp2_pvbuf_pop_trailers_from_paddr_iovec k i n None s = Done (upd k (a ++ words_of (cut_tail n l) ++ b) s, (0, None)).
Proof using Hk Hl Hok Haddr Hlast.
  intros Hn. unfold __xdp2_pvbuf_pop_trailers_from_paddr_iovec, mbind, pvm_bind. rewrite ptr_len_mid.
  destruct (Z.leb_spec (leaf_len l) n); [lia |]. cbn [copy_up copy_down mret pvm_ret].
  destruct (cut_ok cut_tail n l cuts_tail Hok) as (Ho' & _ & _). destruct (leaf_nonzero _ Hok) as [Hw Hp], (leaf_nonzero _ Ho') as [Hw' _].
  destruct l as [w w2]. unfold cut_tail in *. cbn [fst snd] in *.
  assert (exists t, words_of (w, w2) = w :: t /\ words_of (shorten n w, w2) = shorten n w :: t) as (t & Et1 & Et2).
  { unfold words_of. cbn [fst snd]. rewrite shorten_type. destruct (decide (ptype w = TLong)); [exists [w2] | exists []]; split; reflexivity. }
  rewrite Et1 in Hk, Hl. rewrite Et2. cbn [app] in *. 
  rewrite length_app in Hl. cbn [length] in Hl. rewrite (ld_iovec_mid _ _ _ _ _ Hk) by lia. rewrite (proj2 (Z.eqb_neq w 0) Hw). cbn [negb massert lift XDP2_ASSERT mret outcome_ret].
  pose proof (st_iovec_mid _ _ _ _ (shorten n w) _ Hk ltac:(lia) Hw Hw') as Est. destruct (ptype w) eqn:T; [destruct (Hp eq_refl) | rewrite Est; reflexivity..].
Qed.

Lemma pop_cut_head n : 0 <= n < leaf_len l ->
  __xdp2_pvbuf_pop_from_paddr_iovec k i n None s = Done (upd k (a ++ words_of (cut_head n l) ++ b) s, (0, None)).
Proof using Hk Hl Hok Haddr Hlast.
  intros Hn. unfold __xdp2_pvbuf_pop_from_paddr_iovec, mbind, pvm_bind. rewrite ptr_len_mid.
  destruct (Z.leb_spec (leaf_len l) n); [lia |]. cbn [copy_up copy_down mret pvm_ret].
  destruct (cut_ok cut_head n l cuts_head Hok) as (Ho' & _ & Ht'). destruct (leaf_nonzero _ Hok) as [Hw Hp], (leaf_nonzero _ Ho') as [Hw' _].
  pose proof (leaf_view _ Hok) as V. clear Hok. rewrite length_app in Hl. destruct l as [w w2]. unfold words_of at 1. rewrite Ht'. destruct (cut_head n (w, w2)) as [v v2] eqn:Ecut.
  cbn [fst snd] in *. destruct V as [(Hb & _ & Ew) | (Ht & Hc & Ew)]; rewrite Ew in Hk, Hl; cbn [app length] in Hk, Hl;
    rewrite (ld_iovec_mid _ _ _ _ _ Hk) by (cbn [length]; lia); rewrite (proj2 (Z.eqb_neq w 0) Hw); cbn [negb massert lift XDP2_ASSERT mret outcome_ret].
  - pose proof (st_iovec_mid _ _ _ _ v _ Hk ltac:(lia) Hw Hw') as Est. unfold cut_head in Ecut.
    destruct Hb as [T | [T | T]]; rewrite T in Ecut |- *; injection Ecut as <- <-; rewrite decide_False by discriminate; rewrite Est; reflexivity.
  - unfold cut_head in Ecut. rewrite Ht in Ecut |- *. rewrite decide_True by reflexivity. injection Ecut as <- <-.
    pose proof Hk as Hk2. rewrite cons_middle, app_assoc in Hk2. assert (i + 1 = Z.of_nat (length (a ++ [w]))) as Ei by (rewrite length_app; cbn; lia).
    rewrite Ei. rewrite (ld_iovec_mid _ _ _ _ _ Hk2) by (rewrite length_app; cbn; lia).
    unfold xdp2_paddr_long_addr_get_offset_from_paddr, xdp2_paddr_long_addr_set_offset_from_paddr. rewrite Hc. cbn [mbind outcome_bind mret outcome_ret lift].
    rewrite (st_iovec_mid _ _ _ _ _ _ Hk) by ((cbn [length]; lia) || assumption).
    set (v := shorten n _) in *. set (v2 := bf_set long2_low_offset _ w2) in *.
    unfold leaf_ok in Ho'. cbn [fst snd] in Ho'. rewrite Ht', Ht in Ho'. apply long_check in Ho' as (_ & _ & _ & _ & _ & _ & Hv2). apply nonzero_of in Hv2.
    pose proof (proj1 (long_check _ _) Hc) as (_ & _ & _ & _ & _ & _ & Hw2). apply nonzero_of in Hw2.
    assert (heap (upd k (a ++ v :: w2 :: b) s) !! k = Some (mk ((a ++ [v]) ++ w2 :: b))) as Hk3 by (rewrite <- app_assoc; apply lookup_insert_eq).
    replace (Z.of_nat (length (a ++ [w]))) with (Z.of_nat (length (a ++ [v]))) by (rewrite !length_app; reflexivity).
    rewrite (st_iovec_mid _ _ _ _ _ _ Hk3) by ((rewrite length_app; cbn [length]; lia) || assumption). rewrite upd_upd, <- app_assoc. reflexivity.
Qed.
End Leaf.

(** ** Taking over the iovecs of a single pvbuf *)

Lemma upd_comm k1 k2 l1 l2 s : k1 <> k2 -> upd k1 l1 (upd k2 l2 s) = upd k2 l2 (upd k1 l1 s).
Proof. intros Hne. unfold upd. rewrite !put_put_heap. f_equal. unfold heap at 1 3. cbn. by apply insert_insert_ne. Qed.

Definition uplevel_inv (k ok : pvptr) (N : nat) (sub : list Z) (s : xdp2_pvbuf_mgr) (i : Z) (rest : list Z) (j : Z) (s' : xdp2_pvbuf_mgr) : Prop :=
  exists pre, sub = pre ++ rest /\ i = Z.of_nat (length pre) /\ j = Z.of_nat (length (nz pre)) /\
    s' = upd ok (replicate (length pre) 0 ++ rest) (upd k (nz pre ++ replicate (N - length (nz pre)) 0) s).

Lemma uplevel_loop k ok N sub s :
  k <> ok -> heap s !! k = Some (mk (replicate N 0)) -> heap s !! ok = Some (mk sub) -> (length sub <= N <= 63)%nat ->
  wps (xdp2_pvbuf_iovec_map_foreach ok (fun i j =>
        q ← ld_iovec ok i; _ ← raw_set k j q; _ ← xdp2_pvbuf_iovec_clear_ent ok i; mret (Next i (j + 1))) 0) s
    (fun _ s' => s' = upd ok (replicate (length sub) 0) (upd k (nz sub ++ replicate (N - length (nz sub)) 0) s)).
Proof.
  intros Hne Hk Hok HN. apply (wps_foreach _ _ _ (uplevel_inv k ok N sub s)) with (ws := sub).
  - intros i rest j s' (pre & -> & -> & -> & ->). exists (replicate (length pre) 0 ++ rest). rewrite length_app in HN. rewrite length_app, length_replicate.
    split_and!; [apply lookup_insert_eq | lia | lia | lia |]. rewrite Nat2Z.id. rewrite <- (length_replicate (length pre) 0) at 1. apply drop_app_length.
  - intros i rest j s' (pre & -> & -> & -> & ->). exists (pre ++ [0]). rewrite nz_app, (filter_cons_False _ 0 []) by auto. rewrite app_nil_r, length_app, <- app_assoc.
    cbn [length app]. split_and!; [reflexivity | lia | reflexivity |]. rewrite replicate_add, <- app_assoc. reflexivity.
  - intros i j s' (pre & E & -> & -> & ->). rewrite app_nil_r in *. subst pre. reflexivity.
  - intros i w rest j s' Hw (pre & -> & -> & -> & ->). rewrite length_app in HN. cbn [length] in HN. pose proof (nz_length pre) as Hz.
    set (A := nz pre) in *. set (s1 := upd k _ s). set (s2 := upd ok _ s1).
    assert (heap s2 !! ok = Some (mk (replicate (length pre) 0 ++ w :: rest))) as Hok2 by apply lookup_insert_eq.
    assert (heap s2 !! k = Some (mk (A ++ 0 :: replicate (N - length A - 1) 0))) as Hk2.
    { unfold s2, s1. rewrite heap_upd, lookup_insert_ne, heap_upd, lookup_insert_eq by auto. do 3 f_equal. change (0 :: replicate ?n 0) with (replicate (S n) 0). f_equal. lia. }
    rewrite <- (length_replicate (length pre) 0) at 1. eapply wps_step; [apply (ld_iovec_mid _ _ _ _ _ Hok2); rewrite length_replicate; lia |].
    eapply wps_step; [apply (raw_set_mid _ _ _ w _ Hk2); [rewrite length_replicate; lia | exact Hw] |].
    rewrite <- (length_replicate (length pre) 0) at 1. eapply wps_step.
    { apply (clear_ent_mid _ _ rest w); [| rewrite length_replicate; lia]. rewrite heap_upd, lookup_insert_ne by auto. exact Hok2. }
    apply wps_ret. split; [lia |]. exists rest, (pre ++ [w]). rewrite nz_app, (filter_cons_True _ w []) by done. rewrite !length_app, <- app_assoc. cbn [length app].
    rewrite filter_nil. fold A. cbn [length]. split_and!; [reflexivity | lia | lia |]. unfold s2, s1. rewrite (upd_comm k ok), upd_upd, upd_upd by auto. f_equal; [rewrite replicate_add, <- app_assoc; reflexivity |].
    f_equal. rewrite <- app_assoc. cbn [app].
    f_equal. f_equal. f_equal. lia.
  - exact Hok.
  - lia.
  - exists []. split_and!; [done.. |]. cbn. rewrite Nat.sub_0_r, (upd_same k), upd_same by done. done.
Qed.

Lemma segs_single H d w l ks : ptype w = TPvbuf -> segs H d [w] l ks -> exists d', d = S d' /\ rep H d' w l ks.
Proof.
  intros Hw Hs. destruct (segs_sub_view _ _ [] w [] _ _ Hw Hs) as (d' & la & l1 & lb & ka & k1 & kb & -> & Ha & Hr & _ & Hb & _ & _ & _ & -> & ->).
  inversion Ha; subst. inversion Hb; subst. exists d'. split; [done |]. by rewrite app_nil_r, (left_id_L ∅ (∪)), (right_id_L ∅ (∪)).
Qed.

Lemma segs_one H d ws l ks w : segs H d ws l ks -> nz ws = [w] -> ptype w = TPvbuf -> exists d', d = S d' /\ rep H d' w l ks.
Proof. intros Hs E Hw. apply segs_nz in Hs. rewrite E in Hs. by apply segs_single. Qed.

Lemma uplevel_ok s p d ws ls ks :
  pv_inv s -> rep (heap s) d p ls ks -> heap s !! key_of p = Some (mk ws) ->
  wps (__xdp2_pvbuf_try_iovec_uplevel (key_of p) (Z.of_nat (length ws))) s (fun _ s' =>
    pv_inv s' /\ mpb s' = mpb s /\ exists ks', pv_step s s' ks ks' /\ rep (heap s') d p ls ks').
Proof.
  intros Hinv Hrep Hk. pose proof Hrep as (Hp & ws' & ks1 & Hk' & Hs & Hn & Eks). rewrite Hk in Hk'. injection Hk' as _ <-.
  pose proof (inv_bounds _ Hinv _ _ Hk) as Hb. assert (pv_inv s /\ mpb s = mpb s /\ exists ks', pv_step s s ks ks' /\ rep (heap s) d p ls ks') as Hsame.
  { split_and!; [exact Hinv | reflexivity |]. exists ks. split; [apply pv_step_refl | exact Hrep]. }
  unfold __xdp2_pvbuf_try_iovec_uplevel. eapply wps_step; [apply (weight_ok s _ ws Hk); lia |]. rewrite used_nz.
  destruct (Z.eqb_spec (Z.of_nat (length (nz ws))) 1) as [E1 | E1]; cbn [negb]; [| apply wps_ret; exact Hsame].
  destruct (nz ws) as [| w [| ? ?]] eqn:Enz; [cbn in E1; lia | | cbn in E1; lia]. clear E1.
  destruct (find_split _ _ _ Hk ltac:(lia)) as (r & n & rest & Er & Ews & Hst & [(-> & _ & _) | (Hne & -> & Hnl)]).
  { exfalso. rewrite Ews, app_nil_r, nz_zeros in Enz. discriminate. }
  destruct rest as [| w' rest]; [by exfalso |]. cbn in Hst.
  assert (w' = w /\ nz rest = []) as [-> Ezr].
  { rewrite Ews, nz_app, nz_zeros, filter_cons_True in Enz by done. by injection Enz. }
  assert (length (replicate n 0 ++ w :: rest) = length ws) as El by (by rewrite <- Ews). rewrite length_app, length_replicate in El. cbn [length] in El.
  eapply wps_step; [exact Er |]. apply wps_assert; [lia |].
  assert (heap s !! key_of p = Some (mk (replicate n 0 ++ w :: rest))) as Hkm by (rewrite <- Ews; exact Hk).
  eapply wps_step. { rewrite <- (length_replicate n 0) at 1. apply (ld_iovec_mid _ _ _ _ _ Hkm). rewrite length_replicate. lia. }
  rewrite is_pvbuf_ptype. destruct (decide (ptype w = TPvbuf)) as [Hw | Hw]; [rewrite bool_decide_true by exact Hw | rewrite bool_decide_false by exact Hw; apply wps_ret; exact Hsame].
  cbn [negb]. destruct (segs_one _ _ _ _ _ _ Hs Enz Hw) as (d' & -> & Hrw). pose proof Hrw as (_ & sub & k1 & Hsk & Hsub & Hn1 & Ek1).
  pose proof (inv_bounds _ Hinv _ _ Hsk) as Hb1. eapply wps_lift; [exact (num_iovecs_ok s Hinv w sub Hw Hsk) |].
  destruct (Z.ltb_spec (Z.of_nat (length ws)) (Z.of_nat (length sub))); [apply wps_ret; exact Hsame |].
  eapply wps_step; [exact (paddr_to_addr_ok s Hinv w (mk sub) Hw Hsk) |]. eapply wps_lift; [by apply size_ok |].
  eapply wps_step. { rewrite <- (length_replicate n 0) at 1. apply (clear_ent_mid _ _ _ _ _ Hkm). rewrite length_replicate. lia. }
  assert (replicate n 0 ++ 0 :: rest = replicate (length ws) 0) as ->.
  { assert (rest = replicate (length rest) 0) as ->.
    { clear -Ezr. induction rest as [| x rest IH]; [done |]. destruct (decide (x <> 0)) as [Hx | Hx]; [by rewrite filter_cons_True in Ezr |].
      rewrite filter_cons_False in Ezr by done. cbn. f_equal; [lia | by apply IH]. }
    change (0 :: replicate ?m 0) with (replicate (S m) 0). rewrite <- replicate_add. f_equal. lia. }
  assert (key_of w ∈ ks1) as Hw1 by (rewrite Ek1; apply elem_of_union_l, elem_of_singleton; reflexivity).
  assert (key_of p <> key_of w) as Hpw by (intros E; rewrite E in Hn; done).
  set (s1 := upd (key_of p) (replicate (length ws) 0) s). assert (pv_inv s1) as Hinv1 by (eapply inv_upd; [exact Hinv | exact Hk |]; apply length_replicate).
  assert (heap s1 !! key_of w = Some (mk sub)) as Hsk1 by (unfold s1; rewrite heap_upd, lookup_insert_ne by exact Hpw; exact Hsk).
  assert (heap s1 !! key_of p = Some (mk (replicate (length ws) 0))) as Hk1 by apply lookup_insert_eq.
  apply wps_bind. eapply wps_mono; [apply (uplevel_loop _ _ _ _ _ Hpw Hk1 Hsk1); lia |]. intros _ s2 ->.
  set (new := nz sub ++ replicate (length ws - length (nz sub)) 0). set (s2 := upd (key_of p) new s1). set (s3 := upd (key_of w) _ s2).
  assert (length new = length ws) as Hnew by (unfold new; rewrite length_app, length_replicate; pose proof (nz_length sub); lia).
  assert (pv_inv s2) as Hinv2 by (eapply inv_upd; [exact Hinv1 | exact Hk1 |]; rewrite length_replicate; exact Hnew).
  assert (heap s2 !! key_of w = Some (mk sub)) as Hsk2 by (unfold s2; rewrite heap_upd, lookup_insert_ne by exact Hpw; exact Hsk1).
  assert (pv_inv s3) as Hinv3 by (eapply inv_upd; [exact Hinv2 | exact Hsk2 |]; apply length_replicate).
  assert (heap s3 !! key_of w = Some (mk (replicate (length sub) 0))) as Hsk3 by apply lookup_insert_eq.
  eapply wps_mono; [apply (pv_obj_free_ok (key_of w) _ s3 Hinv3 Hsk3) |]. intros _ s4 (Hinv4 & Hst4 & Hpb4 & Hh4).
  split_and!; [exact Hinv4 | exact Hpb4 |]. exists ({[key_of p]} ∪ k1).
  assert (key_of p ∉ k1) as Hnp by (rewrite Ek1 in Hn; rewrite not_elem_of_union in Hn; tauto).
  assert (ks = {[key_of w]} ∪ ({[key_of p]} ∪ k1)) as Eks2 by (rewrite Eks, Ek1; clear; key_solver).
  split.
  - rewrite Eks2. apply (pv_step_trans s s3 s4 _ ({[key_of w]} ∪ ({[key_of p]} ∪ k1))); [| rewrite <- (left_id_L ∅ (∪) ({[key_of p]} ∪ _)) at 2; by apply pv_step_frame].
    eapply (pv_step_trans s s2); [eapply (pv_step_trans s s1); [apply pv_step_upd | apply pv_step_upd] | apply pv_step_upd]; clear; key_solver.
  - split; [exact Hp |]. exists new, k1. split_and!; [| | exact Hnp | reflexivity].
    + rewrite Hh4, lookup_delete_ne by auto. unfold s3. rewrite heap_upd, lookup_insert_ne by auto. apply lookup_insert_eq.
    + apply segs_zeros_end, segs_nz. apply (segs_deeper _ d'); [| lia]. eapply segs_frame; [exact Hsub |]. intros k' Hk'. rewrite Hh4.
      assert (key_of w <> k') by (by intros <-). assert (key_of p <> k') by (by intros <-).
      rewrite lookup_delete_ne by auto. unfold s3, s2, s1. rewrite !heap_upd, !lookup_insert_ne by auto. reflexivity.
Qed.
