(* ===== verification/PvbufPopProps.v ===== *)
(** * Packet vectors: removing headers and trailers

    [xdp2_pvbuf_pop_hdrs] and [xdp2_pvbuf_pop_trailers] remove bytes at one end of
    a packet and free the buffers and pvbufs that are not needed any more. *)

From stdpp Require Import base list gmap numbers.
From S2P Require Import Prelude BitmapWord BitmapWordSpec Memory Paddr Pvbuf PvbufEdit PvbufPop PvbufMap PvbufRep PvbufInv PvbufRead PvbufSlots PvbufInsert PvbufJoin PvbufPopStep.

(** ** Some iovecs of a packet *)

(** The iovecs [m] of [p], which hold [l1], are between [a] and [b]. *)
Record mid (s : xdp2_pvbuf_mgr) (p : Z) (d : nat) (a m b : list Z) (la l1 lb : list leaf) (ka k1 kb : gset pvptr) : Prop := Mid {
  mid_type : ptype p = TPvbuf;
  mid_heap : heap s !! key_of p = Some (mk (a ++ m ++ b));
  mid_a : segs (heap s) d a la ka;
  mid_m : segs (heap s) d m l1 k1;
  mid_b : segs (heap s) d b lb kb;
  mid_a1 : ka ## k1;
  mid_ab : ka ## kb;
  mid_1b : k1 ## kb;
  mid_notin : key_of p ∉ ka ∪ k1 ∪ kb }.

Definition keys (p : Z) (ka k1 kb : gset pvptr) : gset pvptr := {[key_of p]} ∪ (ka ∪ k1 ∪ kb).

Lemma keys_frame p ka X kb : keys p ka X kb = X ∪ ({[key_of p]} ∪ ka ∪ kb).
Proof. unfold keys. key_solver. Qed.

Section Mid.
Context (s : xdp2_pvbuf_mgr) (p : Z) (d : nat) (a m b : list Z) (la l1 lb : list leaf) (ka k1 kb : gset pvptr).
Context (Hm : mid s p d a m b la l1 lb ka k1 kb).

Lemma mid_rep : rep (heap s) d p (la ++ l1 ++ lb) (keys p ka k1 kb).
Proof using Hm.
  destruct Hm. split; [done |]. exists (a ++ m ++ b), (ka ∪ k1 ∪ kb). split_and!; [done | | done | done].
  rewrite <- (assoc_L (∪)). apply segs_app; [done | by apply segs_app | by apply disjoint_union_r].
Qed.

(** The rest of the packet is not among [k1]. *)
Lemma mid_others : ({[key_of p]} ∪ ka ∪ kb) ## k1 /\ forall k, k ∈ {[key_of p]} ∪ ka ∪ kb -> is_Some (heap s !! k).
Proof using Hm.
  destruct Hm as [_ Hh Ha _ Hb D1 D2 D3 Hn]. rewrite !not_elem_of_union in Hn. split.
  - rewrite !disjoint_union_l. split_and!; [apply disjoint_singleton_l; tauto | done | done].
  - intros k. rewrite !elem_of_union, elem_of_singleton. intros [[-> | Hk] | Hk]; [rewrite Hh; eauto | exact (segs_dom _ _ _ _ _ Ha k Hk) | exact (segs_dom _ _ _ _ _ Hb k Hk)].
Qed.

(** Without the middle the rest is as before. *)
Lemma mid_kept s' k1' :
  pv_step s s' k1 k1' -> heap s' !! key_of p = Some (mk (a ++ m ++ b)) /\ segs (heap s') d a la ka /\ segs (heap s') d b lb kb /\
    ka ## k1' /\ k1' ## kb /\ (key_of p ∉ ka ∪ k1' ∪ kb) /\ pv_step s s' (keys p ka k1 kb) (keys p ka k1' kb) /\ (forall k, k ∈ ka ∪ kb -> heap s' !! k = heap s !! k).
Proof using Hm.
  intros Hst. destruct mid_others as [Hd Hs]. pose proof (pv_step_same _ _ _ _ _ Hst Hd Hs) as Hsame. pose proof (pv_step_disjoint _ _ _ _ _ Hst Hd Hs) as Hd'.
  destruct Hm as [_ Hh Ha _ Hb D1 D2 D3 Hn]. rewrite !disjoint_union_l, disjoint_singleton_l in Hd'. destruct Hd' as [[Hp Ha'] Hb'].
  split_and!.
  - rewrite Hsame; [exact Hh |]. by apply elem_of_union_l, elem_of_union_l, elem_of_singleton.
  - eapply segs_frame; [exact Ha |]. intros k Hk. apply Hsame. by apply elem_of_union_l, elem_of_union_r.
  - eapply segs_frame; [exact Hb |]. intros k Hk. apply Hsame. by apply elem_of_union_r.
  - done.
  - done.
  - rewrite !not_elem_of_union in *. tauto.
  - rewrite !keys_frame. by apply pv_step_frame.
  - intros k Hk. apply Hsame. rewrite !elem_of_union in *. tauto.
Qed.

Lemma mid_step s' l1' k1' :
  pv_step s s' k1 k1' -> segs (heap s') d m l1' k1' -> mid s' p d a m b la l1' lb ka k1' kb /\ pv_step s s' (keys p ka k1 kb) (keys p ka k1' kb).
Proof using Hm.
  intros Hst Hm'. destruct (mid_kept _ _ Hst) as (Hh & Ha & Hb & D1 & D2 & Hn & Hst' & _). split; [| exact Hst']. destruct Hm. by split.
Qed.

(** Other iovecs for the same pvbufs. *)
Lemma mid_set m' l1' :
  pv_inv s -> length m' = length m -> segs (heap s) d m' l1' k1 -> let s' := upd (key_of p) (a ++ m' ++ b) s in
  pv_inv s' /\ mid s' p d a m' b la l1' lb ka k1 kb /\ pv_step s s' (keys p ka k1 kb) (keys p ka k1 kb).
Proof using Hm.
  intros Hinv Hl Hm'. destruct Hm as [Hp Hh Ha _ Hb D1 D2 D3 Hn]. pose proof Hn as Hn'. rewrite !not_elem_of_union in Hn'. destruct Hn' as [[Na N1] Nb].
  split_and!.
  - eapply inv_upd; [exact Hinv | exact Hh |]. rewrite !length_app, Hl. reflexivity.
  - split; try assumption; [apply lookup_insert_eq | ..]; (eapply segs_keep; [eassumption | eassumption |]); intros k Hk; rewrite heap_upd, lookup_insert_ne by auto; reflexivity.
  - apply pv_step_upd. by apply elem_of_union_l, elem_of_singleton.
Qed.
End Mid.

(** ** Dropping a pvbuf *)

Section Drop.
Context (s : xdp2_pvbuf_mgr) (p w : Z) (d fuel : nat) (a b : list Z) (la l1 lb : list leaf) (ka k1 kb : gset pvptr) (bF : pbside).
Context (Hinv : pv_inv s) (Hm : mid s p (S d) a [w] b la l1 lb ka k1 kb) (Hw : ptype w = TPvbuf) (Hf : frees (mconf s) l1 (mpb s) bF) (Hd : (d < fuel)%nat).

(** The iovec is cleared and the buffers are freed. *)
Definition dropped (s' : xdp2_pvbuf_mgr) : Prop :=
  pv_inv s' /\ mpb s' = bF /\ mid s' p (S d) a [0] b la [] lb ka ∅ kb /\ pv_step s s' (keys p ka k1 kb) (keys p ka ∅ kb) /\ forall k, k ∈ ka ∪ kb -> heap s' !! k = heap s !! k.

Lemma drop_rep : rep (heap s) d w l1 k1.
Proof using Hm Hw. destruct (segs_single _ _ _ _ _ Hw (mid_m _ _ _ _ _ _ _ _ _ _ _ _ Hm)) as (d' & [= <-] & Hr). exact Hr. Qed.

Lemma segs_0 H dd : segs H dd [0] [] ∅.
Proof using. apply segs_null, segs_nil. Qed.

Lemma drop_len : (length a + S (length b) <= 63)%nat /\ w <> 0.
Proof using Hinv Hm Hw.
  clear Hd. pose proof (inv_bounds _ Hinv _ _ (mid_heap _ _ _ _ _ _ _ _ _ _ _ _ Hm)) as Hl. rewrite !length_app in Hl. cbn [length] in Hl. split; [lia |].
  apply ptype_nonzero. by rewrite Hw.
Qed.

Lemma free_unset :
  wps (_ ← __xdp2_pvbuf_free fuel w; xdp2_pvbuf_iovec_unset_ent (key_of p) (Z.of_nat (length a))) s (fun _ s' => dropped s').
Proof using Hinv Hm Hw Hf Hd.
  destruct drop_len as [Hl Hw0]. apply wps_bind. eapply wps_mono; [exact (pvbuf_free_wps fuel d w l1 k1 bF s Hinv drop_rep Hd Hf) |]. intros _ s1 (Hi1 & Hst & Hpb).
  destruct (mid_kept _ _ _ _ _ _ _ _ _ _ _ _ Hm _ _ Hst) as (Hh & Ha & Hb & D1 & D2 & Hn & Hst' & Hsame).
  assert (xdp2_pvbuf_iovec_unset_ent (key_of p) (Z.of_nat (length a)) s1 = Done (upd (key_of p) (a ++ [0] ++ b) s1, tt)) as E.
  { erewrite (unset_ent_ok s1 _ _ Hh); [rewrite Nat2Z.id; cbn [app]; rewrite insert_middle; reflexivity | rewrite length_app; cbn; lia | lia | rewrite Nat2Z.id; by apply list_lookup_middle | exact Hw0]. }
  eapply wps_run; [exact E |]. set (s2 := upd _ _ s1). pose proof Hn as Hn'. rewrite !not_elem_of_union in Hn'. destruct Hn' as [[Na _] Nb]. split_and!.
  - eapply inv_upd; [exact Hi1 | exact Hh |]. rewrite !length_app. reflexivity.
  - exact Hpb.
  - split; try assumption; [apply Hm | apply lookup_insert_eq | | apply segs_0 | | apply Hm]; (eapply segs_keep; [eassumption | eassumption |]); intros k Hk;
      unfold s2; rewrite heap_upd, lookup_insert_ne by auto; reflexivity.
  - eapply pv_step_trans; [exact Hst' |]. apply pv_step_upd. by apply elem_of_union_l, elem_of_singleton.
  - intros k Hk. unfold s2. rewrite heap_upd, lookup_insert_ne; [by apply Hsame |]. intros <-. apply elem_of_union in Hk. tauto.
Qed.

Lemma unset_free :
  wps (_ ← xdp2_pvbuf_iovec_unset_ent (key_of p) (Z.of_nat (length a)); __xdp2_pvbuf_free fuel w) s (fun _ s' => dropped s').
Proof using Hinv Hm Hw Hf Hd.
  destruct drop_len as [Hl Hw0]. pose proof Hm as [Hp Hh Ha _ Hb D1 D2 D3 Hn]. rewrite !not_elem_of_union in Hn. destruct Hn as [[Na N1] Nb].
  assert (xdp2_pvbuf_iovec_unset_ent (key_of p) (Z.of_nat (length a)) s = Done (upd (key_of p) (a ++ [0] ++ b) s, tt)) as E.
  { erewrite (unset_ent_ok s _ _ Hh); [rewrite Nat2Z.id; cbn [app]; rewrite insert_middle; reflexivity | rewrite length_app; cbn; lia | lia | rewrite Nat2Z.id; by apply list_lookup_middle | exact Hw0]. }
  eapply wps_step; [exact E |]. set (s1 := upd _ _ s).
  assert (forall k, k <> key_of p -> heap s1 !! k = heap s !! k) as Ho by (intros k Hk; unfold s1; rewrite heap_upd, lookup_insert_ne by auto; reflexivity).
  assert (pv_inv s1) as Hi1 by (eapply inv_upd; [exact Hinv | exact Hh |]; rewrite !length_app; reflexivity).
  assert (rep (heap s1) d w l1 k1) as Hr1 by (eapply rep_frame; [exact drop_rep |]; intros k Hk; apply Ho; by intros ->).
  assert (frees (mconf s1) l1 (mpb s1) bF) as Hf1 by exact Hf.
  eapply wps_mono; [exact (pvbuf_free_wps fuel d w l1 k1 bF s1 Hi1 Hr1 Hd Hf1) |]. intros _ s2 (Hi2 & Hst & Hpb).
  assert (ka ## k1) as D1' by exact D1. assert (kb ## k1) as D3' by (symmetry; exact D3).
  split_and!; [exact Hi2 | exact Hpb | split; try assumption | |].
  - rewrite (step_out _ _ _ _ Hst) by apply not_elem_of_empty. rewrite decide_False by exact N1. apply lookup_insert_eq.
  - eapply segs_step; [exact Hst | | exact D1']. eapply segs_keep; [exact Ha | exact Na | exact Ho].
  - apply segs_0.
  - eapply segs_step; [exact Hst | | exact D3']. eapply segs_keep; [exact Hb | exact Nb | exact Ho].
  - apply disjoint_empty_r.
  - apply disjoint_empty_l.
  - rewrite !not_elem_of_union. split_and!; [exact Na | apply not_elem_of_empty | exact Nb].
  - eapply (pv_step_trans s s1); [apply pv_step_upd; by apply elem_of_union_l, elem_of_singleton |].
    rewrite !keys_frame. by apply pv_step_frame.
  - intros k Hk. rewrite (step_out _ _ _ _ Hst) by apply not_elem_of_empty.
    rewrite decide_False by (apply elem_of_union in Hk as [Hk | Hk]; intros H1; [exact (D1' k Hk H1) | exact (D3' k Hk H1)]).
    apply Ho. intros ->. apply elem_of_union in Hk. tauto.
Qed.
End Drop.

(** ** One item *)

(** [n] bytes can be removed from [ls]: its buffers are not empty, they have an
    address, and those that go can be freed. *)
Record pop_pre (e : ending) (s : xdp2_pvbuf_mgr) (n : Z) (ls : list leaf) : Prop := PopPre {
  pre_n : 0 <= n;
  pre_pos : positive ls;
  pre_addr : Forall (fun l => is_Some (leaf_addr (mconf s) l)) ls;
  pre_free : freeable (mconf s) (e_gone e n ls) (mpb s) }.

(** The packet [p] becomes [ls'] and the buffers [L] are freed. *)
Definition becomes (s s' : xdp2_pvbuf_mgr) (p : Z) (d : nat) (ks : gset pvptr) (L ls' : list leaf) : Prop :=
  pv_inv s' /\ freed (mconf s) L (mpb s) (mpb s') /\ exists ks', pv_step s s' ks ks' /\ rep (heap s') d p ls' ks'.

Definition pop_post (e : ending) (s : xdp2_pvbuf_mgr) (n p : Z) (d : nat) (ls : list leaf) (ks : gset pvptr) (r : Z * option Z) (s' : xdp2_pvbuf_mgr) : Prop :=
  r = (Z.min n (total ls), None) /\ becomes s s' p d ks (e_gone e n ls) (e_trim e n ls).

(** The iovecs [m] are cleared, or the last one was cut. *)
Definition item_post (e : ending) (s : xdp2_pvbuf_mgr) (n p : Z) (d : nat) (a m b : list Z) (la l1 lb : list leaf) (ka k1 kb : gset pvptr)
    (r : Z * option Z) (s' : xdp2_pvbuf_mgr) : Prop :=
  r = (n - Z.min n (total l1), None) /\
  (total l1 <= n /\ pv_inv s' /\ freed (mconf s) l1 (mpb s) (mpb s') /\
     mid s' p d a (replicate (length m) 0) b la [] lb ka ∅ kb /\ pv_step s s' (keys p ka k1 kb) (keys p ka ∅ kb) /\
     (forall k, k ∈ ka ∪ kb -> heap s' !! k = heap s !! k) \/
   n <= total l1 /\ becomes s s' p d (keys p ka k1 kb) (e_gone e n l1) (la ++ e_trim e n l1 ++ lb)).

(** Checking for a single address keeps this. *)
Lemma becomes_single s s' p d ks L ls' (c : bool) i :
  becomes s s' p d ks L ls' -> (forall ws, heap s' !! key_of p = Some (mk ws) -> exists w, ws !! i = Some w /\ (c = true -> ptype w = TPvbuf)) ->
  wps (if c then __xdp2_pvbuf_check_single (key_of p) (Z.of_nat i) else mret tt) s' (fun _ s2 => becomes s s2 p d ks L ls').
Proof.
  intros (Hi & Hf & ks' & Hst & Hr) Hc. destruct c; [| apply wps_ret; split_and!; eauto].
  pose proof Hr as (_ & ws & _ & Hk & _). destruct (Hc ws Hk) as (w & Hw & Ht). specialize (Ht eq_refl).
  pose proof (take_drop_middle _ _ _ Hw) as E. rewrite <- E in Hk.
  assert (length (take i ws) = i) as El by (rewrite length_take; apply lookup_lt_Some in Hw; lia). rewrite <- El at 1.
  eapply wps_mono; [exact (check_single_ok s' p d _ w _ _ _ Hi Hr Hk Ht) |]. intros _ s2 (Hi2 & Hpb & ks2 & Hst2 & Hr2).
  split_and!; [exact Hi2 | rewrite Hpb; exact Hf |]. exists ks2. split; [by eapply pv_step_trans | exact Hr2].
Qed.

Section Leaf.
Context (e : ending) (s : xdp2_pvbuf_mgr) (n p : Z) (d : nat) (a b : list Z) (la lb : list leaf) (ka kb : gset pvptr) (l : leaf).
Context (Hinv : pv_inv s) (Hok : leaf_ok l) (Hm : mid s p d a (words_of l) b la [l] lb ka ∅ kb) (Hn : 0 < n) (Hpre : pop_pre e s n [l]).
Context (He : ending_ok e).

Lemma leaf_pos : 0 < leaf_len l /\ total [l] = leaf_len l /\ (exists x, leaf_addr (mconf s) l = Some x) /\ (length (a ++ words_of l ++ b) <= 63)%nat.
Proof using Hpre Hinv Hm.
  destruct Hpre as [_ Hp Ha _]. apply Forall_cons_1 in Hp as [Hp _], Ha as [Ha _]. split_and!; [exact Hp | cbn; lia | exact Ha |].
  exact (proj2 (inv_bounds _ Hinv _ _ (mid_heap _ _ _ _ _ _ _ _ _ _ _ _ Hm))).
Qed.

Lemma leaf_gone : leaf_len l <= n -> exists b1, frees (mconf s) [l] (mpb s) b1 /\
  item_post e s n p d a (words_of l) b la [l] lb ka ∅ kb (n - leaf_len l, None) (upd (key_of p) (a ++ replicate (length (words_of l)) 0 ++ b) (set_mpb b1 s)).
Proof using Hinv Hm Hn Hpre He.
  intros Hl. destruct leaf_pos as (Hp & Ht & _ & _). pose proof (e_all _ He n [l] (pre_pos _ _ _ _ Hpre) ltac:(lia)) as [_ Eg].
  pose proof (pre_free _ _ _ _ Hpre) as Hf. rewrite Eg in Hf. destruct (Hf [l] ltac:(done)) as [b1 F]. exists b1. split; [exact F |].
  split; [rewrite Ht; f_equal; lia |]. left. split; [lia |].
  assert (pv_inv (set_mpb b1 s)) as Hi1 by (eapply pv_inv_same; [| | exact Hinv]; reflexivity).
  assert (mid (set_mpb b1 s) p d a (words_of l) b la [l] lb ka ∅ kb) as Hm1 by (destruct Hm; split; assumption).
  destruct (mid_set _ _ _ _ _ _ _ _ _ _ _ _ Hm1 (replicate (length (words_of l)) 0) [] Hi1) as (Hi2 & Hm2 & Hst2).
  { apply length_replicate. }
  { rewrite <- (app_nil_r (replicate _ _)). apply segs_zeros, segs_nil. }
  split_and!; [exact Hi2 | exists [l]; split; [reflexivity | exact F] | exact Hm2 | destruct Hst2 as [C O Fr]; split; assumption |].
  intros k Hk. rewrite heap_upd, lookup_insert_ne; [reflexivity |]. intros <-. pose proof (mid_notin _ _ _ _ _ _ _ _ _ _ _ _ Hm) as Hnp.
  rewrite !not_elem_of_union in Hnp. apply elem_of_union in Hk. tauto.
Qed.

Lemma leaf_cut cut : cuts cut -> e_trim e n [l] = [cut n l] -> n < leaf_len l -> e_gone e n [l] = [] ->
  item_post e s n p d a (words_of l) b la [l] lb ka ∅ kb (0, None) (upd (key_of p) (a ++ words_of (cut n l) ++ b) s).
Proof using Hinv Hok Hm Hn Hpre.
  intros Hc Et Hl Eg. destruct leaf_pos as (Hp & Ht & _ & _). destruct (cut_ok cut n l Hc Hok) as (Ho & Hlen & Hty).
  split; [rewrite Ht; f_equal; lia |]. right. split; [lia |]. rewrite Eg, Et.
  destruct (mid_set _ _ _ _ _ _ _ _ _ _ _ _ Hm (words_of (cut n l)) [cut n l] Hinv Hlen) as (Hi2 & Hm2 & Hst2).
  { clear -Ho. destruct (cut n l) as [v v2]. destruct (leaf_view _ Ho) as [(Hb & H2 & ->) | (Ht & Hc & ->)]; cbn [fst snd] in *;
      [subst v2; apply segs_buf; [exact Hb | apply segs_nil] | apply segs_long; [exact Hc | apply segs_nil]]. }
  split_and!; [exact Hi2 | apply freed_nil |]. exists (keys p ka ∅ kb). split; [exact Hst2 |]. exact (mid_rep _ _ _ _ _ _ _ _ _ _ _ _ Hm2).
Qed.
End Leaf.

Lemma front_leaf s n p d a b la lb ka kb l :
  pv_inv s -> leaf_ok l -> mid s p d a (words_of l) b la [l] lb ka ∅ kb -> 0 < n -> last_ok (a ++ words_of l ++ b) -> pop_pre front s n [l] ->
  wps (__xdp2_pvbuf_pop_from_paddr_iovec (key_of p) (Z.of_nat (length a)) n None) s (item_post front s n p d a (words_of l) b la [l] lb ka ∅ kb).
Proof.
  intros Hinv Hok Hm Hn Hla Hpre. destruct (leaf_pos _ _ _ _ _ _ _ _ _ _ _ _ Hinv Hm Hpre) as (Hp & _ & (x & Hx) & Hl).
  pose proof (mid_heap _ _ _ _ _ _ _ _ _ _ _ _ Hm) as Hh. destruct (Z.le_gt_cases (leaf_len l) n) as [H | H].
  - destruct (leaf_gone _ _ _ _ _ _ _ _ _ _ _ _ Hinv Hm Hn Hpre front_ok H) as (b1 & F & Hpost).
    eapply wps_run; [exact (proj1 (pop_whole _ _ _ _ _ Hh Hl Hok x Hx Hla n b1 F H)) | exact Hpost].
  - eapply wps_run; [exact (pop_cut_head _ _ _ _ _ Hh Hl Hok x Hx Hla n ltac:(lia)) |].
    apply (leaf_cut front s n p d a b la lb ka kb l Hinv Hok Hm Hn Hpre cut_head cuts_head); [| lia |]; cbn;
      (destruct (Z.leb_spec n 0); [lia |]); (destruct (Z.leb_spec (leaf_len l) n); [lia | reflexivity]).
Qed.

Lemma back_leaf s n p d a b la lb ka kb l :
  pv_inv s -> leaf_ok l -> mid s p d a (words_of l) b la [l] lb ka ∅ kb -> 0 < n -> last_ok (a ++ words_of l ++ b) -> pop_pre back s n [l] ->
  wps (__xdp2_pvbuf_pop_trailers_from_paddr_iovec (key_of p) (Z.of_nat (length a)) n None) s (item_post back s n p d a (words_of l) b la [l] lb ka ∅ kb).
Proof.
  intros Hinv Hok Hm Hn Hla Hpre. destruct (leaf_pos _ _ _ _ _ _ _ _ _ _ _ _ Hinv Hm Hpre) as (Hp & _ & (x & Hx) & Hl).
  pose proof (mid_heap _ _ _ _ _ _ _ _ _ _ _ _ Hm) as Hh. destruct (Z.le_gt_cases (leaf_len l) n) as [H | H].
  - destruct (leaf_gone _ _ _ _ _ _ _ _ _ _ _ _ Hinv Hm Hn Hpre back_ok H) as (b1 & F & Hpost).
    eapply wps_run; [exact (proj2 (pop_whole _ _ _ _ _ Hh Hl Hok x Hx Hla n b1 F H)) | exact Hpost].
  - eapply wps_run; [exact (pop_cut_tail _ _ _ _ _ Hh Hl Hok x Hx Hla n ltac:(lia)) |].
    apply (leaf_cut back s n p d a b la lb ka kb l Hinv Hok Hm Hn Hpre cut_tail cuts_tail); [| lia |]; cbn;
      (destruct (Z.leb_spec n 0); [lia |]); (destruct (Z.leb_spec (leaf_len l) n); [lia | reflexivity]).
Qed.

(** ** A pvbuf *)

Lemma segs_leaf_ok H d ws ls ks : segs H d ws ls ks -> Forall leaf_ok ls.
Proof.
  induction 1 as [| | d w ws ls ks Hw Hs IH | d w1 w2 ws ls ks Hc Hs IH | d w ws sub ls1 ls ks1 ks Hw Hk Hsub IH1 Hd Hws IH2 Hn Hdj]; [constructor | done | | | by apply Forall_app].
  - constructor; [| done]. unfold leaf_ok. cbn [fst snd]. by destruct Hw as [-> | [-> | ->]].
  - constructor; [| done]. unfold leaf_ok. cbn [fst snd]. by rewrite (proj1 (proj2 (proj1 (long_check _ _) Hc))).
Qed.

(** The length in the iovec of a pvbuf. *)
Lemma set_dlen w v : 0 <= v < 2 ^ 32 -> let q := bf_set pvbuf_data_length v w in
  ptype q = ptype w /\ key_of q = key_of w /\ bf_get pvbuf_data_length q = v.
Proof.
  intros Hv q. split_and!; [apply bf_set_tag; [field_side | cbn; lia] | unfold key_of, q; by rewrite !bf_get_set_other by field_side |].
  unfold q. by rewrite bf_get_set_small by (field_side || (cbn; lia)).
Qed.

Lemma single_sub H d w l ks : segs H (S d) [w] l ks -> ptype w = TPvbuf -> rep H d w l ks /\ dlen_ok w l.
Proof.
  intros Hs Hw. destruct (segs_sub_view _ _ [] w [] _ _ Hw Hs) as (d' & la & l1 & lb & ka & k1 & kb & [= <-] & Ha & Hr & Hdl & Hb & _ & _ & _ & -> & ->).
  inversion Ha; subst. inversion Hb; subst. by rewrite app_nil_r, (left_id_L ∅ (∪)), (right_id_L ∅ (∪)).
Qed.

Lemma sub_single H d w l ks : rep H d w l ks -> dlen_ok w l -> segs H (S d) [w] l ks.
Proof. intros Hr Hd. rewrite <- (app_nil_r l), <- (right_id_L ∅ (∪) ks). apply segs_rep; [done | done | apply segs_nil | apply disjoint_empty_r]. Qed.

Section Sub.
Context (e : ending) (He : ending_ok e) (fuel d : nat) (pop : Z -> Z -> option Z -> pvm (Z * option Z)) (compress : bool) (Hd : (d < fuel)%nat).
Context (Hpop : forall s n w ls ks, pv_inv s -> rep (heap s) d w ls ks -> lasts_ok (heap s) ks -> pop_pre e s n ls -> wps (pop w n None) s (pop_post e s n w d ls ks)).
Context (s : xdp2_pvbuf_mgr) (n p w : Z) (a b : list Z) (la l1 lb : list leaf) (ka k1 kb : gset pvptr).
Context (Hinv : pv_inv s) (Hm : mid s p (S d) a [w] b la l1 lb ka k1 kb) (Hw : ptype w = TPvbuf) (Hn : 0 < n) (Hlo : lasts_ok (heap s) k1) (Hpre : pop_pre e s n l1).

Abbreviation post := (item_post e s n p (S d) a [w] b la l1 lb ka k1 kb).

(** After the recursive call the pvbuf is still there. *)
Lemma sub_popped : wps (pop w n None) s (fun r s1 => r = (Z.min n (total l1), None) /\ pv_inv s1 /\ freed (mconf s) (e_gone e n l1) (mpb s) (mpb s1) /\
  mconf s1 = mconf s /\ exists k1', rep (heap s1) d w (e_trim e n l1) k1' /\
  forall w', ptype w' = TPvbuf -> key_of w' = key_of w -> dlen_ok w' (e_trim e n l1) -> 
    heap s1 !! key_of p = Some (mk (a ++ [w] ++ b)) /\ 
    let s2 := upd (key_of p) (a ++ [w'] ++ b) s1 in pv_inv s2 /\
    mid s2 p (S d) a [w'] b la (e_trim e n l1) lb ka k1' kb /\ pv_step s s2 (keys p ka k1 kb) (keys p ka k1' kb) /\
    forall k, k ∈ ka ∪ kb -> heap s2 !! k = heap s !! k).
Proof using Hpop Hinv Hm Hw Hn Hlo Hpre.
  destruct (single_sub _ _ _ _ _ (mid_m _ _ _ _ _ _ _ _ _ _ _ _ Hm) Hw) as [Hr Hdl].
  eapply wps_mono; [exact (Hpop s n w l1 k1 Hinv Hr Hlo Hpre) |]. intros r s1 (-> & Hi1 & Hf & k1' & Hst & Hr1).
  split_and!; [reflexivity | exact Hi1 | exact Hf | exact (step_conf _ _ _ _ Hst) |]. exists k1'. split; [exact Hr1 |]. intros w' Hw' Hkw' Hdw'.
  destruct (mid_kept _ _ _ _ _ _ _ _ _ _ _ _ Hm _ _ Hst) as (Hh & Ha & Hb & D1 & D2 & Hnp & Hst' & Hsame). split; [exact Hh |].
  pose proof Hnp as Hnp'. rewrite !not_elem_of_union in Hnp'. destruct Hnp' as [[Na N1] Nb].
  assert (rep (heap s1) d w' (e_trim e n l1) k1') as Hr1'.
  { destruct Hr1 as (_ & ws & kk & R1 & R2 & R3 & R4). split; [exact Hw' |]. exists ws, kk. rewrite Hkw'. split_and!; assumption. }
  intros s2. assert (forall k, k <> key_of p -> heap s2 !! k = heap s1 !! k) as Ho by (intros k Hk; unfold s2; rewrite heap_upd, lookup_insert_ne by auto; reflexivity).
  split_and!.
  - eapply inv_upd; [exact Hi1 | exact Hh |]. rewrite !length_app. reflexivity.
  - split; try assumption; [apply Hm | apply lookup_insert_eq | by eapply segs_keep | | by eapply segs_keep | apply Hm].
    eapply segs_keep; [apply sub_single; [exact Hr1' | exact Hdw'] | exact N1 | exact Ho].
  - eapply pv_step_trans; [exact Hst' |]. apply pv_step_upd. by apply elem_of_union_l, elem_of_singleton.
  - intros k Hk. rewrite Ho; [by apply Hsame |]. intros ->. apply elem_of_union in Hk. tauto.
Qed.

(** The whole pvbuf goes. *)
Lemma sub_whole dl : dl = total l1 -> dl <= n ->
  wps (_ ← __xdp2_pvbuf_free fuel w; _ ← xdp2_pvbuf_iovec_unset_ent (key_of p) (Z.of_nat (length a)); mret (n - dl, None)) s post.
Proof using He Hd Hinv Hm Hw Hpre.
  intros -> Hdl. pose proof (e_all _ He n l1 (pre_pos _ _ _ _ Hpre) Hdl) as [_ Eg]. pose proof (pre_free _ _ _ _ Hpre) as Hf. rewrite Eg in Hf.
  destruct (Hf l1 (reflexivity _)) as [bF F]. pose proof (free_unset s p w d fuel a b la l1 lb ka k1 kb bF Hinv Hm Hw F Hd) as Hfree.
  unfold wps, mbind, pvm_bind in *. destruct (__xdp2_pvbuf_free fuel w s) as [[s1 []] | |]; try exact Hfree.
  destruct (xdp2_pvbuf_iovec_unset_ent _ _ s1) as [[s2 []] | |]; try exact Hfree. cbn [mret pvm_ret]. destruct Hfree as (Hi & Hpb & Hm2 & Hst2 & Hsame).
  split; [f_equal; lia |]. left. split_and!; [exact Hdl | exact Hi | exists l1; split; [reflexivity | rewrite Hpb; exact F] | exact Hm2 | exact Hst2 | exact Hsame].
Qed.

(** A part of a pvbuf whose length is known goes. *)
Lemma sub_part dl : dl = bf_get pvbuf_data_length w -> dl = total l1 -> n < dl ->
  wps ('(dropped, c) ← pop w n None; _ ← massert (dropped =? n);
       q ← ld_iovec (key_of p) (Z.of_nat (length a));
       _ ← st_iovec (key_of p) (Z.of_nat (length a)) (bf_set pvbuf_data_length (bf_get pvbuf_data_length q - dropped) q);
       _ ← (if compress then __xdp2_pvbuf_check_single (key_of p) (Z.of_nat (length a)) else mret tt);
       mret (n - dropped, c)) s post.
Proof using He Hpop Hinv Hm Hw Hn Hlo Hpre.
  clear Hd. intros Hdw Ht Hdl. destruct (drop_len _ _ _ _ _ _ _ _ _ _ _ _ Hinv Hm Hw) as [Hl Hw0].
  pose proof (segs_leaf_ok _ _ _ _ _ (mid_m _ _ _ _ _ _ _ _ _ _ _ _ Hm)) as Hok.
  apply wps_bind. eapply wps_mono; [exact sub_popped |]. intros r s1 (-> & Hi1 & Hf & Hc1 & k1' & Hr1 & Hset).
  replace (Z.min n (total l1)) with n by lia. apply wps_assert; [apply Z.eqb_refl |].
  pose proof (bf_get_range pvbuf_data_length w ltac:(field_side)) as Hrg. cbn [f_width pvbuf_data_length] in Hrg.
  destruct (set_dlen w (dl - n)) as (Tq & Kq & Dq); [lia |]. rewrite Hw in Tq. 
  destruct (Hset (bf_set pvbuf_data_length (dl - n) w) Tq Kq) as (Hh & Hi2 & Hm2 & Hst2 & _).
  { right. rewrite Dq, (e_total _ He) by (assumption || lia). lia. }
  eapply wps_step; [apply (ld_iovec_mid _ a b w s1 Hh); lia |]. rewrite <- Hdw. set (q := bf_set pvbuf_data_length (dl - n) w) in *.
  assert (q <> 0) as Hq by (apply ptype_nonzero; rewrite Tq; discriminate).
  eapply wps_step; [apply (st_iovec_mid _ a b w q s1 Hh); [lia | exact Hw0 | exact Hq] |]. cbn [app] in Hi2, Hm2, Hst2.
  apply wps_bind. eapply wps_mono.
  - apply (becomes_single s _ p (S d) (keys p ka k1 kb) (e_gone e n l1) (la ++ e_trim e n l1 ++ lb)).
    + split_and!; [exact Hi2 | exact Hf |]. exists (keys p ka k1' kb). split; [exact Hst2 | exact (mid_rep _ _ _ _ _ _ _ _ _ _ _ _ Hm2)].
    + intros ws Hws. exists q. pose proof (mid_heap _ _ _ _ _ _ _ _ _ _ _ _ Hm2) as Hh2. rewrite Hh2 in Hws. injection Hws as _ <-.
      split; [by apply list_lookup_middle | intros _; exact Tq].
  - intros u s3 Hb. apply wps_ret. split; [f_equal; lia |]. right. split; [lia | exact Hb].
Qed.

(** An empty pvbuf is freed. *)
Lemma sub_empty s1 k1' (first : bool) :
  pv_inv s1 -> mconf s1 = mconf s -> freed (mconf s) (e_gone e n l1) (mpb s) (mpb s1) -> total l1 <= n ->
  mid s1 p (S d) a [w] b la [] lb ka k1' kb -> pv_step s s1 (keys p ka k1 kb) (keys p ka k1' kb) ->
  (forall k, k ∈ ka ∪ kb -> heap s1 !! k = heap s !! k) ->
  wps (if first then _ ← xdp2_pvbuf_iovec_unset_ent (key_of p) (Z.of_nat (length a)); __xdp2_pvbuf_free fuel w
       else _ ← __xdp2_pvbuf_free fuel w; xdp2_pvbuf_iovec_unset_ent (key_of p) (Z.of_nat (length a))) s1
    (fun _ s' => post (n - Z.min n (total l1), None) s').
Proof using He Hd Hw Hpre.
  intros Hi1 Hc1 Hf Hle Hm1 Hst1 Hsame. pose proof (e_all _ He n l1 (pre_pos _ _ _ _ Hpre) Hle) as [_ Eg]. rewrite Eg in Hf.
  assert (frees (mconf s1) [] (mpb s1) (mpb s1)) as F by constructor.
  assert (forall s', dropped s1 p d a b la lb ka k1' kb (mpb s1) s' -> post (n - Z.min n (total l1), None) s') as Hfin.
  { intros s' (Hi & Hpb & Hm2 & Hst2 & Hs2). split; [reflexivity |]. left. split_and!; [exact Hle | exact Hi | rewrite Hpb; exact Hf | exact Hm2 | by eapply pv_step_trans |].
    intros k Hk. rewrite Hs2 by exact Hk. by apply Hsame. }
  destruct first; (eapply wps_mono; [| intros ? ?; apply Hfin]).
  - exact (unset_free s1 p w d fuel a b la [] lb ka k1' kb _ Hi1 Hm1 Hw F Hd).
  - exact (free_unset s1 p w d fuel a b la [] lb ka k1' kb _ Hi1 Hm1 Hw F Hd).
Qed.

(** The length of the pvbuf is not known. *)
Lemma sub_unknown (first : bool) num : bf_get pvbuf_data_length w = 0 -> (forall ws, heap s !! key_of w = Some (mk ws) -> num = Z.of_nat (length ws)) ->
  wps ('(dropped, c) ← pop w n None;
       _ ← (if dropped <? n then _ ← xdp2_pvbuf_iovec_unset_ent (key_of p) (Z.of_nat (length a)); __xdp2_pvbuf_free fuel w else
            _ ← massert (dropped =? n);
            j ← xdp2_pvbuf_iovec_map_find (key_of w);
            if num <=? j then
              if first then _ ← xdp2_pvbuf_iovec_unset_ent (key_of p) (Z.of_nat (length a)); __xdp2_pvbuf_free fuel w
              else _ ← __xdp2_pvbuf_free fuel w; xdp2_pvbuf_iovec_unset_ent (key_of p) (Z.of_nat (length a))
            else mret tt);
       mret (n - dropped, c)) s post.
Proof using He Hd Hpop Hinv Hm Hw Hn Hlo Hpre.
  intros Hdw Hnum. pose proof (total_nonneg l1) as Ht. pose proof (pre_pos _ _ _ _ Hpre) as Hpos.
  apply wps_bind. eapply wps_mono; [exact sub_popped |]. intros r s1 (-> & Hi1 & Hf & Hc1 & k1' & Hr1 & Hset).
  destruct (Hset w Hw eq_refl (or_introl Hdw)) as (Hh & _ & Hm1 & Hst1 & Hsame). rewrite (upd_same _ _ _ Hh) in Hm1, Hst1, Hsame.
  apply wps_bind. destruct (Z.ltb_spec (Z.min n (total l1)) n).
  - pose proof (e_all _ He n l1 Hpos ltac:(lia)) as [Et _]. rewrite Et in Hm1.
    eapply wps_mono; [exact (sub_empty s1 k1' true Hi1 Hc1 Hf ltac:(lia) Hm1 Hst1 Hsame) |]. intros u s2 Hp. apply wps_ret. exact Hp.
  - replace (Z.min n (total l1)) with n by lia. apply wps_assert; [apply Z.eqb_refl |].
    pose proof Hr1 as (_ & sub & kk & Hk1 & Hs1 & _ & _). pose proof (inv_bounds _ Hi1 _ _ Hk1) as Hb1.
    destruct (find_split _ _ _ Hk1 ltac:(lia)) as (j & z & rest & Ej & Esub & Hst & Hj). eapply wps_step; [exact Ej |].
    assert (num = Z.of_nat (length sub)) as ->.
    { destruct (single_sub _ _ _ _ _ (mid_m _ _ _ _ _ _ _ _ _ _ _ _ Hm) Hw) as [(_ & ws & _ & Hk0 & _) _]. rewrite (Hnum ws Hk0).
      pose proof (inv_length _ Hinv _ _ Hk0) as [E0 _]. pose proof (inv_length _ Hi1 _ _ Hk1) as [E1 _]. lia. }
    destruct (Z.leb_spec (Z.of_nat (length sub)) j) as [Hge | Hlt].
    + assert (e_trim e n l1 = []) as Et.
      { destruct Hj as [(-> & _ & _) | (_ & -> & Hz)]; [| lia]. rewrite Esub, app_nil_r in Hs1. rewrite <- (app_nil_r (replicate _ _)) in Hs1. apply segs_zeros_inv in Hs1. by inversion Hs1. }
      assert (total l1 <= n) as Hle.
      { destruct (Z.le_gt_cases (total l1) n) as [| Hgt]; [assumption |]. by destruct (e_some _ He n l1 Hpos ltac:(lia)). }
      rewrite Et in Hm1. eapply wps_mono; [exact (sub_empty s1 k1' first Hi1 Hc1 Hf Hle Hm1 Hst1 Hsame) |]. intros u s2 Hp. apply wps_ret.
      replace (Z.min n (total l1)) with n in Hp by lia. exact Hp.
    + apply wps_ret. apply wps_ret. split; [f_equal; lia |]. right. split; [lia |]. split_and!; [exact Hi1 | exact Hf |].
      exists (keys p ka k1' kb). split; [exact Hst1 | exact (mid_rep _ _ _ _ _ _ _ _ _ _ _ _ Hm1)].
Qed.

Lemma sub_step (first : bool) :
  wps (pop_pvbuf_iovec fuel pop first (key_of p) (Z.of_nat (length a)) n compress None) s post.
Proof using He Hd Hpop Hinv Hm Hw Hn Hlo Hpre.
  destruct (single_sub _ _ _ _ _ (mid_m _ _ _ _ _ _ _ _ _ _ _ _ Hm) Hw) as [Hr Hdl]. pose proof Hr as (_ & sub & kk & Hk1 & _).
  destruct (drop_len _ _ _ _ _ _ _ _ _ _ _ _ Hinv Hm Hw) as [Hl Hw0]. unfold pop_pvbuf_iovec.
  eapply wps_step; [apply (ld_iovec_mid _ a b w s (mid_heap _ _ _ _ _ _ _ _ _ _ _ _ Hm)); lia |].
  eapply wps_step; [exact (paddr_to_addr_ok s Hinv w _ Hw Hk1) |]. eapply wps_lift; [exact (num_iovecs_ok s Hinv w sub Hw Hk1) |].
  eapply wps_lift; [unfold xdp2_pvbuf_get_data_len_from_paddr, __xdp2_pvbuf_check_paddr; rewrite is_pvbuf_ptype, bool_decide_true by exact Hw; reflexivity |].
  destruct (Z.eqb_spec (bf_get pvbuf_data_length w) 0) as [E0 | E0]; cbn [negb].
  - apply sub_unknown; [exact E0 |]. intros ws Hws. rewrite Hk1 in Hws. by injection Hws as _ <-.
  - destruct Hdl as [? | Hdl]; [lia |]. destruct (Z.leb_spec (bf_get pvbuf_data_length w) n).
    + eapply wps_step; [reflexivity |]. apply sub_whole; assumption.
    + exact (sub_part _ eq_refl Hdl ltac:(assumption)).
Qed.
End Sub.

(** ** The loops *)

Section Loop.
Context (e : ending) (He : ending_ok e) (s : xdp2_pvbuf_mgr) (p n : Z) (d : nat) (ls : list leaf) (ks : gset pvptr).

Lemma cat_total l1 l2 : total (e_cat e l1 l2) = total l1 + total l2.
Proof using He. rewrite <- total_app. generalize (e_perm _ He l1 l2). generalize (e_cat e l1 l2) (l1 ++ l2). induction 1; cbn; lia. Qed.

Lemma cat_Forall (P : leaf -> Prop) l1 l2 : Forall P (e_cat e l1 l2) <-> Forall P l1 /\ Forall P l2.
Proof using He. rewrite (e_perm _ He). apply Forall_app. Qed.

(** What a part of the packet needs, and what is left for the rest. *)
Lemma pre_part s' n' l1 l2 : pop_pre e s' n' (e_cat e l1 l2) -> pop_pre e s' n' l1.
Proof using He.
  intros [H1 H2 H3 H4]. apply cat_Forall in H2 as [H2 _]. apply cat_Forall in H3 as [H3 _]. split; [exact H1 | exact H2 | exact H3 |].
  destruct (e_app _ He n' l1 l2 H2) as [_ Eg]. rewrite Eg in H4. destruct (Z.leb_spec (total l1) n'); [| exact H4].
  rewrite (proj2 (e_all _ He n' l1 H2 ltac:(lia))). eapply freeable_l, freeable_perm; [exact H4 | apply (e_perm _ He)].
Qed.

Lemma pre_rest s' s2 n' l1 l2 : pop_pre e s' n' (e_cat e l1 l2) -> total l1 <= n' -> mconf s2 = mconf s' -> freed (mconf s') l1 (mpb s') (mpb s2) ->
  pop_pre e s2 (n' - total l1) l2.
Proof using He.
  intros [H1 H2 H3 H4] Hle Hc Hf. apply cat_Forall in H2 as [H2 H2']. apply cat_Forall in H3 as [_ H3]. split; [lia | exact H2' | rewrite Hc; exact H3 |].
  destruct (e_app _ He n' l1 l2 H2) as [_ Eg]. rewrite Eg in H4. destruct (Z.leb_spec (total l1) n'); [| lia].
  rewrite Hc. eapply freeable_next; [eapply freeable_perm; [exact H4 | apply (e_perm _ He)] | exact Hf].
Qed.

(** [lg] is gone, [lr] is in the iovecs [rest] and [n'] bytes are still to be removed. *)
Record loop_inv (za zb : nat) (rest : list Z) (n' : Z) (s' : xdp2_pvbuf_mgr) (lg lr : list leaf) (kr : gset pvptr) : Prop := LoopInv {
  li_inv : pv_inv s';
  li_type : ptype p = TPvbuf;
  li_split : ls = e_cat e lg lr;
  li_pos : positive lg;
  li_n : n = total lg + n';
  li_heap : heap s' !! key_of p = Some (mk (replicate za 0 ++ rest ++ replicate zb 0));
  li_segs : segs (heap s') d rest lr kr;
  li_notin : key_of p ∉ kr;
  li_step : pv_step s s' ks ({[key_of p]} ∪ kr);
  li_freed : freed (mconf s) lg (mpb s) (mpb s');
  li_pre : pop_pre e s' n' lr;
  li_last : lasts_ok (heap s') ({[key_of p]} ∪ kr) }.

Definition loop_post (r : Z * option Z) (s' : xdp2_pvbuf_mgr) : Prop :=
  r = (n - Z.min n (total ls), None) /\ becomes s s' p d ks (e_gone e n ls) (e_trim e n ls).

(** What is removed from the whole packet, when the rest is known. *)
Lemma loop_becomes s' n' lg lr L lt :
  ls = e_cat e lg lr -> positive lg -> n = total lg + n' -> 0 <= n' -> L ≡ₚ e_gone e n' lr -> lt = e_trim e n' lr ->
  pv_inv s' -> freed (mconf s) (lg ++ L) (mpb s) (mpb s') -> (exists ks', pv_step s s' ks ks' /\ rep (heap s') d p lt ks') ->
  becomes s s' p d ks (e_gone e n ls) (e_trim e n ls).
Proof using He.
  intros -> Hp -> Hn HL -> Hi Hf Hr. destruct (e_app _ He (total lg + n') lg lr Hp) as [-> ->]. destruct (Z.leb_spec (total lg) (total lg + n')); [| lia].
  replace (total lg + n' - total lg) with n' by lia. split_and!; [exact Hi | | exact Hr].
  eapply freed_perm; [exact Hf |]. rewrite HL. symmetry. apply (e_perm _ He).
Qed.

Lemma loop_end za zb rest n' s' lg lr kr : loop_inv za zb rest n' s' lg lr kr -> lr = [] \/ n' = 0 -> loop_post (n', None) s'.
Proof using He.
  intros [Hi Hp El Hpos En Hh Hs Hk Hst Hf Hpre _] Hend. pose proof (pre_n _ _ _ _ Hpre) as Hn0. pose proof (total_nonneg lr) as Ht.
  assert (e_trim e n' lr = lr /\ e_gone e n' lr = []) as [Et Eg].
  { destruct Hend as [-> | ->]; [apply (e_all _ He); [constructor | exact Hn0] | apply (e_zero _ He)]. }
  split.
  - rewrite El, cat_total. f_equal. destruct Hend as [-> | ->]; cbn [total] in *; lia.
  - apply (loop_becomes s' n' lg lr [] lr); try assumption; [by rewrite Eg | done | by rewrite app_nil_r |].
    exists ({[key_of p]} ∪ kr). split; [exact Hst |]. split; [exact Hp |]. exists (replicate za 0 ++ rest ++ replicate zb 0), kr.
    split_and!; [exact Hh | apply segs_zeros, segs_zeros_end; exact Hs | exact Hk | reflexivity].
Qed.

Lemma loop_last za zb rest n' s' lg lr kr ws : loop_inv za zb rest n' s' lg lr kr -> heap s' !! key_of p = Some (mk ws) -> last_ok ws.
Proof using. intros Hli. apply (li_last _ _ _ _ _ _ _ _ Hli). apply elem_of_union_l, elem_of_singleton. reflexivity. Qed.

Lemma loop_lasts za zb rest n' s' lg lr kr k1 : loop_inv za zb rest n' s' lg lr kr -> k1 ⊆ kr -> lasts_ok (heap s') k1.
Proof using. intros Hli Hk. apply (lasts_ok_sub _ _ _ (li_last _ _ _ _ _ _ _ _ Hli)). intros k Hin. apply elem_of_union_r. by apply Hk. Qed.

Lemma last_ok_clear (a m b : list Z) : last_ok (a ++ m ++ b) -> last_ok (a ++ replicate (length m) 0 ++ b).
Proof using.
  clear. intros Hl a' w E. destruct b as [| x b _] using rev_ind.
  - rewrite !app_nil_r in *. destruct m as [| y m _] using rev_ind; [exact (Hl a' w E) |].
    rewrite length_app, replicate_add, app_assoc in E. apply app_inj_2 in E as [_ [= <-]]; [exact not_buf_0 | reflexivity].
  - rewrite !app_assoc in E. apply app_inj_2 in E as [_ [= <-]]; [| reflexivity]. apply (Hl (a ++ m ++ b)). by rewrite !app_assoc.
Qed.

(** The iovecs [m] of [rest] are next. *)
Lemma loop_item za zb rest n' s' lg l1 lr' kr a m b la lb ka k1 kb za' zb' rest' kr' r s2 :
  loop_inv za zb rest n' s' lg (e_cat e l1 lr') kr -> kr = ka ∪ k1 ∪ kb ->
  a ++ m ++ b = replicate za 0 ++ rest ++ replicate zb 0 ->
  a ++ replicate (length m) 0 ++ b = replicate za' 0 ++ rest' ++ replicate zb' 0 -> ka ∪ ∅ ∪ kb = kr' ->
  (forall X, la ++ X ++ lb = e_cat e X lr') ->
  (forall H, segs H d a la ka -> segs H d b lb kb -> segs H d rest' lr' kr') ->
  item_post e s' n' p d a m b la l1 lb ka k1 kb r s2 ->
  exists n2, r = (n2, None) /\ (if n2 =? 0 then loop_post (n2, None) s2 else exists lg', loop_inv za' zb' rest' n2 s2 lg' lr' kr').
Proof using He.
  intros Hli -> Ha0 Ha Hkr Hcat Hseg (-> & Hcase). exists (n' - Z.min n' (total l1)). split; [reflexivity |].
  pose proof Hli as [Hi Hp El Hpos En Hh Hs Hk Hst Hf Hpre Hlo]. pose proof (pre_n _ _ _ _ Hpre) as Hn0. pose proof (step_conf _ _ _ _ Hst) as Hc.
  pose proof (pre_pos _ _ _ _ Hpre) as Hpos2. apply cat_Forall in Hpos2 as [Hpos1 Hpos2].
  destruct Hcase as [(Hle & Hi2 & Hf2 & Hm2 & Hst2 & Hsame) | (Hle & Hi2 & Hf2 & ks2 & Hst2 & Hr2)].
  - replace (n' - Z.min n' (total l1)) with (n' - total l1) by lia.
    assert (loop_inv za' zb' rest' (n' - total l1) s2 (e_cat e lg l1) lr' kr') as Hli2.
    { destruct Hm2 as [_ Hh2 Ha2 _ Hb2 _ _ _ Hn2]. split; [exact Hi2 | exact Hp | by rewrite <- (e_assoc _ He) | by apply cat_Forall | rewrite cat_total; lia | | | | | | |].
      - rewrite <- Ha. exact Hh2.
      - apply Hseg; assumption.
      - rewrite <- Hkr. exact Hn2.
      - eapply pv_step_trans; [exact Hst |]. rewrite <- Hkr. exact Hst2.
      - eapply freed_perm; [eapply freed_app; [exact Hf | rewrite <- Hc; exact Hf2] | symmetry; apply (e_perm _ He)].
      - eapply pre_rest; [exact Hpre | exact Hle | exact (step_conf _ _ _ _ Hst2) | exact Hf2].
      - intros k ws Hkin Hws. rewrite <- Hkr in Hkin. apply elem_of_union in Hkin as [->%elem_of_singleton | Hkin].
        + rewrite Hh2 in Hws. injection Hws as _ <-. apply last_ok_clear. rewrite Ha0. apply (Hlo (key_of p)); [apply elem_of_union_l, elem_of_singleton; reflexivity | exact Hh].
        + rewrite (right_id_L ∅ (∪)) in Hkin. rewrite (Hsame k Hkin) in Hws. apply (Hlo k); [| exact Hws]. rewrite !elem_of_union in *. tauto. }
    destruct (Z.eqb_spec (n' - total l1) 0) as [E0 | E0]; [| eauto]. eapply loop_end; [exact Hli2 | right; exact E0].
  - replace (n' - Z.min n' (total l1)) with 0 by lia. cbn [Z.eqb]. split; [rewrite El, !cat_total; pose proof (total_nonneg lr'); f_equal; lia |].
    destruct (e_app _ He n' l1 lr' Hpos1) as [Et Eg]. apply (loop_becomes s2 n' lg (e_cat e l1 lr') (e_gone e n' l1) (e_cat e (e_trim e n' l1) lr')); try assumption.
    + rewrite Eg. destruct (Z.leb_spec (total l1) n'); [| reflexivity]. replace (n' - total l1) with 0 by lia.
      rewrite (proj2 (e_zero _ He lr')), (e_perm _ He), app_nil_r. by rewrite (proj2 (e_all _ He n' l1 Hpos1 ltac:(lia))).
    + rewrite Et. destruct (Z.leb_spec (total l1) n'); [| reflexivity]. replace (n' - total l1) with 0 by lia.
      rewrite (proj1 (e_zero _ He lr')), (proj1 (e_all _ He n' l1 Hpos1 ltac:(lia))). apply (e_nil _ He).
    + eapply freed_app; [exact Hf | rewrite <- Hc; exact Hf2].
    + exists ks2. split; [by eapply pv_step_trans | rewrite <- Hcat; exact Hr2].
Qed.
End Loop.

(** ** Headers *)

(** The iovec is looked at once more. *)
Lemma item_recheck e s n p d a w b la l1 lb ka k1 kb r s2 (compress : bool) :
  pv_inv s -> heap s !! key_of p = Some (mk (a ++ [w] ++ b)) -> item_post e s n p d a [w] b la l1 lb ka k1 kb r s2 ->
  wps (q ← ld_iovec (key_of p) (Z.of_nat (length a));
       if compress && XDP2_PADDR_IS_PVBUF q then __xdp2_pvbuf_check_single (key_of p) (Z.of_nat (length a)) else mret tt) s2
    (fun _ s3 => item_post e s n p d a [w] b la l1 lb ka k1 kb r s3).
Proof.
  intros Hinv Hk (-> & [Hc | (Hle & Hb)]).
  - pose proof Hc as (_ & Hi2 & _ & Hm2 & _). pose proof (mid_heap _ _ _ _ _ _ _ _ _ _ _ _ Hm2) as Hh2. pose proof (inv_bounds _ Hi2 _ _ Hh2) as Hl.
    rewrite !length_app in Hl. cbn [length replicate] in Hl, Hh2.
    eapply wps_step; [apply (ld_iovec_mid _ a b 0 _ Hh2); lia |]. rewrite is_pvbuf_ptype, bool_decide_false, andb_false_r by discriminate.
    apply wps_ret. split; [reflexivity |]. left. exact Hc.
  - pose proof Hb as (Hi2 & _ & ks2 & _ & (_ & ws & _ & Hk2 & _)). pose proof (inv_length _ Hinv _ _ Hk) as [E1 _]. pose proof (inv_length _ Hi2 _ _ Hk2) as [E2 _].
    pose proof (inv_bounds _ Hi2 _ _ Hk2) as Hl. rewrite !length_app in E1. cbn [length] in E1. destruct (lookup_lt_is_Some_2 ws (length a)) as [q Hq]; [lia |].
    eapply wps_step; [apply (ld_iovec_ok s2 _ ws Hk2 ltac:(lia) _ q); [lia | rewrite Nat2Z.id; exact Hq] |].
    eapply wps_mono; [apply (becomes_single s s2 p d _ _ _ (compress && XDP2_PADDR_IS_PVBUF q) (length a) Hb) |].
    + intros ws' Hws'. rewrite Hk2 in Hws'. injection Hws' as _ <-. exists q. split; [exact Hq |]. rewrite is_pvbuf_ptype. intros Hc.
      apply andb_true_iff in Hc as [_ Hc]. by apply bool_decide_eq_true in Hc.
    + intros u s3 Hb3. split; [reflexivity |]. right. split; [exact Hle | exact Hb3].
Qed.

Lemma buf_leaf w : is_buf w -> leaf_ok (w, 0) /\ words_of (w, 0) = [w].
Proof.
  intros Hb. unfold leaf_ok, words_of. cbn [fst snd]. destruct Hb as [E | [E | E]]; rewrite E; (split; [reflexivity | rewrite decide_False by discriminate; reflexivity]).
Qed.

Lemma long_leaf w w2 : __xdp2_paddr_long_addr_check w w2 = Done tt -> leaf_ok (w, w2) /\ words_of (w, w2) = [w; w2] /\ ptype w = TLong.
Proof.
  intros Hc. pose proof (proj1 (long_check _ _) Hc) as (_ & Ht & _). unfold leaf_ok, words_of. cbn [fst snd]. rewrite Ht.
  split_and!; [exact Hc | rewrite decide_True by reflexivity; reflexivity | reflexivity].
Qed.

Lemma segs_leaf H d l : leaf_ok l -> segs H d (words_of l) [l] ∅.
Proof.
  intros Ho. destruct l as [v v2]. destruct (leaf_view _ Ho) as [(Hb & H2 & ->) | (Ht & Hc & ->)]; cbn [fst snd] in *;
    [subst v2; apply segs_buf; [exact Hb | apply segs_nil] | apply segs_long; [exact Hc | apply segs_nil]].
Qed.

Section Headers.
Context (fuel : nat) (compress : bool).
Context (IH : forall d p ls ks s n, pv_inv s -> rep (heap s) d p ls ks -> (d < fuel)%nat -> lasts_ok (heap s) ks -> pop_pre front s n ls ->
  wps (__xdp2_pvbuf_pop_hdrs fuel p n compress None) s (pop_post front s n p d ls ks)).
Context (s : xdp2_pvbuf_mgr) (p n : Z) (d : nat) (ls : list leaf) (ks : gset pvptr) (Hd : (d < S fuel)%nat).

Definition hdrs_inv (i : Z) (rest : list Z) (x : Z * option Z) (s' : xdp2_pvbuf_mgr) : Prop :=
  0 <= i /\ exists n' lg lr kr, x = (n', None) /\ 0 < n' /\ loop_inv front s p n d ls ks (Z.to_nat i) 0 rest n' s' lg lr kr.

(** The first iovecs of the rest. *)
Lemma hdrs_mid i m rest n' s' lg l1 lr k1 kr :
  loop_inv front s p n d ls ks i 0 (m ++ rest) n' s' lg (l1 ++ lr) (k1 ∪ kr) -> segs (heap s') d m l1 k1 -> segs (heap s') d rest lr kr -> k1 ## kr ->
  mid s' p d (replicate i 0) m rest [] l1 lr ∅ k1 kr.
Proof using.
  intros [Hi Hp _ _ _ Hh _ Hk _ _ _ _] H1 H2 Hdj. cbn [replicate] in Hh. rewrite app_nil_r in Hh.
  split; [exact Hp | exact Hh | | exact H1 | exact H2 | apply disjoint_empty_l | apply disjoint_empty_l | exact Hdj |].
  - rewrite <- (app_nil_r (replicate _ _)). apply segs_zeros, segs_nil.
  - rewrite (left_id_L ∅ (∪)). exact Hk.
Qed.

Definition hdrs_next (i : Z) (m rest : list Z) (r : Z * option Z) (s2 : xdp2_pvbuf_mgr) : Prop :=
  exists n2, r = (n2, None) /\ (if n2 =? 0 then loop_post front s p n d ls ks (n2, None) s2 else hdrs_inv (i + Z.of_nat (length m)) rest (n2, None) s2).

Lemma hdrs_item i m rest n' s' lg l1 lr k1 kr r s2 :
  0 <= i -> loop_inv front s p n d ls ks (Z.to_nat i) 0 (m ++ rest) n' s' lg (l1 ++ lr) (k1 ∪ kr) ->
  item_post front s' n' p d (replicate (Z.to_nat i) 0) m rest [] l1 lr ∅ k1 kr r s2 -> hdrs_next i m rest r s2.
Proof using.
  clear Hd IH. intros Hi Hli Hpost. destruct (loop_item front front_ok s p n d ls ks (Z.to_nat i) 0 (m ++ rest) n' s' lg l1 lr (k1 ∪ kr) (replicate (Z.to_nat i) 0) m rest [] lr ∅ k1 kr
    (Z.to_nat i + length m) 0 rest (∅ ∪ ∅ ∪ kr) r s2 Hli) as (n2 & -> & Hn2).
  - by rewrite (left_id_L ∅ (∪)).
  - cbn [replicate]. by rewrite app_nil_r.
  - cbn [replicate]. by rewrite app_nil_r, replicate_add, app_assoc.
  - reflexivity.
  - reflexivity.
  - intros H _ Hs. by rewrite !(left_id_L ∅ (∪)).
  - exact Hpost.
  - exists n2. split; [reflexivity |]. destruct (Z.eqb_spec n2 0); [exact Hn2 |]. destruct Hn2 as (lg' & Hn2). split; [lia |].
    replace (Z.to_nat (i + Z.of_nat (length m))) with (Z.to_nat i + length m)%nat by lia.
    pose proof (pre_n _ _ _ _ (li_pre _ _ _ _ _ _ _ _ _ _ _ _ _ _ _ Hn2)). exists n2, lg', lr, (∅ ∪ ∅ ∪ kr). split_and!; [reflexivity | lia | exact Hn2].
Qed.

Definition hdrs_body (i : Z) (x : Z * option Z) : pvm (ctl (Z * option Z)) :=
  let '(rest, c) := x in
  q ← ld_iovec (key_of p) i;
  _ ← massert (negb (q =? 0));
  '(i, (rest, c)) ←
    match ptype q with
    | TPvbuf =>
      r ← __xdp2_pvbuf_pop_from_pvbuf_iovec fuel (fun p n c => __xdp2_pvbuf_pop_hdrs fuel p n compress c) (key_of p) i rest compress c;
      q ← ld_iovec (key_of p) i;
      _ ← (if compress && XDP2_PADDR_IS_PVBUF q then __xdp2_pvbuf_check_single (key_of p) i else mret tt);
      mret (i, r)
    | TLong => r ← __xdp2_pvbuf_pop_from_paddr_iovec (key_of p) i rest c; mret (i + 1, r)
    | _ => r ← __xdp2_pvbuf_pop_from_paddr_iovec (key_of p) i rest c; mret (i, r)
    end;
  mret (if rest =? 0 then Break (rest, c) else Next i (rest, c)).

Abbreviation body_post i := (fun (r : ctl (Z * option Z)) s2 =>
  match r with Break y => loop_post front s p n d ls ks y s2 | Next j y => i <= j /\ exists rest', hdrs_inv (j + 1) rest' y s2 end).

(** What the body returns after an item. *)
Lemma hdrs_ret i j m rest r s2 : hdrs_next i m rest r s2 -> i <= j -> j + 1 = i + Z.of_nat (length m) ->
  wps (let '(rest, c) := r in mret (if rest =? 0 then Break (rest, c) else Next j (rest, c))) s2 (body_post i).
Proof using.
  intros (n2 & -> & Hn2) Hij Hj. apply wps_ret. destruct (n2 =? 0); [exact Hn2 |]. split; [exact Hij |]. exists rest. rewrite Hj. exact Hn2.
Qed.

Lemma hdrs_leaf i rest n' s' lg l lr kr :
  leaf_ok l -> 0 <= i -> 0 < n' -> loop_inv front s p n d ls ks (Z.to_nat i) 0 (words_of l ++ rest) n' s' lg (l :: lr) kr -> segs (heap s') d rest lr kr ->
  wps (__xdp2_pvbuf_pop_from_paddr_iovec (key_of p) i n' None) s' (hdrs_next i (words_of l) rest).
Proof using.
  clear Hd IH. intros Ho Hi Hn' Hli Hr. pose proof (left_id_L ∅ (∪) kr) as Ek. rewrite <- Ek in Hli.
  pose proof (hdrs_mid (Z.to_nat i) (words_of l) rest n' s' lg [l] lr ∅ kr Hli (segs_leaf _ _ _ Ho) Hr (disjoint_empty_l _)) as Hm.
  assert (i = Z.of_nat (length (replicate (Z.to_nat i) 0))) as Ei by (rewrite length_replicate; lia). rewrite Ei at 1.
  eapply wps_mono; [apply (front_leaf s' n' p d _ _ _ _ _ _ l (li_inv _ _ _ _ _ _ _ _ _ _ _ _ _ _ _ Hli) Ho Hm Hn' (loop_last _ _ _ _ _ _ _ _ _ _ _ _ _ _ _ _ Hli (mid_heap _ _ _ _ _ _ _ _ _ _ _ _ Hm))); exact (pre_part front front_ok s' n' [l] lr (li_pre _ _ _ _ _ _ _ _ _ _ _ _ _ _ _ Hli)) |].
  intros r s2 Hpost. exact (hdrs_item i (words_of l) rest n' s' lg [l] lr ∅ kr r s2 Hi Hli Hpost).
Qed.

Lemma hdrs_sub i w rest n' s' lg l1 lr k1 kr d' :
  d = S d' -> rep (heap s') d' w l1 k1 -> dlen_ok w l1 -> k1 ## kr -> 0 <= i -> 0 < n' ->
  loop_inv front s p n d ls ks (Z.to_nat i) 0 (w :: rest) n' s' lg (l1 ++ lr) (k1 ∪ kr) -> segs (heap s') d rest lr kr ->
  wps (r ← __xdp2_pvbuf_pop_from_pvbuf_iovec fuel (fun p n c => __xdp2_pvbuf_pop_hdrs fuel p n compress c) (key_of p) i n' compress None;
       q ← ld_iovec (key_of p) i;
       _ ← (if compress && XDP2_PADDR_IS_PVBUF q then __xdp2_pvbuf_check_single (key_of p) i else mret tt);
       mret (i, r)) s' (fun r s2 => fst r = i /\ hdrs_next i [w] rest (snd r) s2).
Proof using IH Hd.
  intros Ed Hrep Hdl Hdj Hi Hn' Hli Hr. pose proof Hrep as (Hw & _). pose proof Hli as Hli'.
  pose proof (hdrs_mid (Z.to_nat i) [w] rest n' s' lg l1 lr k1 kr Hli ltac:(rewrite Ed; apply sub_single; assumption) Hr Hdj) as Hm. rewrite Ed in Hm.
  assert (i = Z.of_nat (length (replicate (Z.to_nat i) 0))) as Ei by (rewrite length_replicate; lia).
  pose proof (li_inv _ _ _ _ _ _ _ _ _ _ _ _ _ _ _ Hli) as Hinv. pose proof (pre_part front front_ok s' n' l1 lr (li_pre _ _ _ _ _ _ _ _ _ _ _ _ _ _ _ Hli)) as Hpre.
  apply wps_bind. rewrite Ei at 1. eapply wps_mono.
  { apply (sub_step front front_ok fuel d' (fun p n c => __xdp2_pvbuf_pop_hdrs fuel p n compress c) compress ltac:(lia)
      (fun s0 n0 w0 ls0 ks0 H1 H2 H3 H4 => IH d' w0 ls0 ks0 s0 n0 H1 H2 ltac:(lia) H3 H4) s' n' p w _ rest [] l1 lr ∅ k1 kr Hinv Hm Hw Hn' (loop_lasts _ _ _ _ _ _ _ _ _ _ _ _ _ _ _ _ Hli (union_subseteq_l _ _)) Hpre). }
  intros r s2 Hpost. pose proof (item_recheck _ _ _ _ _ _ _ _ _ _ _ _ _ _ _ _ compress Hinv (mid_heap _ _ _ _ _ _ _ _ _ _ _ _ Hm) Hpost) as Hre. rewrite <- Ei in Hre.
  unfold wps, mbind, pvm_bind in *. destruct (ld_iovec (key_of p) i s2) as [[s3 q] | |]; try exact Hre.
  destruct (if compress && XDP2_PADDR_IS_PVBUF q then _ else _) as [[s4 u] | |]; try exact Hre. split; [reflexivity |]. cbn [snd]. rewrite <- Ed in Hre.
  exact (hdrs_item i [w] rest n' s' lg l1 lr k1 kr r s4 Hi Hli Hre).
Qed.

Lemma hdrs_step i w rest x s' : w <> 0 -> hdrs_inv i (w :: rest) x s' -> wps (hdrs_body i x) s' (body_post i).
Proof using IH Hd.
  intros Hw (Hi & n' & lg & lr & kr & -> & Hn' & Hli). pose proof (li_heap _ _ _ _ _ _ _ _ _ _ _ _ _ _ _ Hli) as Hh.
  pose proof (inv_bounds _ (li_inv _ _ _ _ _ _ _ _ _ _ _ _ _ _ _ Hli) _ _ Hh) as Hl. rewrite !length_app, length_replicate in Hl. cbn [length replicate] in Hl.
  unfold hdrs_body. eapply wps_step.
  { replace i with (Z.of_nat (length (replicate (Z.to_nat i) 0))) at 1 by (rewrite length_replicate; lia).
    apply (ld_iovec_mid _ _ _ _ _ Hh). rewrite length_replicate, length_app. cbn [length replicate]. lia. }
  apply wps_assert; [rewrite (proj2 (Z.eqb_neq w 0) Hw); reflexivity |].
  destruct (segs_first _ _ _ _ _ _ Hw (li_segs _ _ _ _ _ _ _ _ _ _ _ _ _ _ _ Hli)) as [lr' Hb -> Hr | w2 ws' lr' Hc -> -> Hr | d' l1 lr' k1 kr' Ed Hrep Hdl Hr Hdj -> ->].
  - destruct (buf_leaf w Hb) as [Ho Ew]. pose proof (hdrs_leaf i rest n' s' lg (w, 0) lr' kr Ho Hi Hn') as Hleaf. rewrite Ew in Hleaf. specialize (Hleaf Hli Hr).
    destruct Hb as [T | [T | T]]; rewrite T; apply wps_bind, wps_bind; (eapply wps_mono; [exact Hleaf |]); intros r s2 Hnext; apply wps_ret;
      apply (hdrs_ret i i [w] rest r s2 Hnext); cbn; lia.
  - destruct (long_leaf w w2 Hc) as (Ho & Ew & T). pose proof (hdrs_leaf i ws' n' s' lg (w, w2) lr' kr Ho Hi Hn') as Hleaf. rewrite Ew in Hleaf. specialize (Hleaf Hli Hr).
    rewrite T. apply wps_bind, wps_bind. eapply wps_mono; [exact Hleaf |]. intros r s2 Hnext. apply wps_ret. apply (hdrs_ret i (i + 1) [w; w2] ws' r s2 Hnext); cbn; lia.
  - pose proof Hrep as (T & _). rewrite T. apply wps_bind. eapply wps_mono; [exact (hdrs_sub i w rest n' s' lg l1 lr' k1 kr' d' Ed Hrep Hdl Hdj Hi Hn' Hli Hr) |].
    intros [j r] s2 [Ej Hnext]. cbn [fst snd] in *. subst j. apply (hdrs_ret i i [w] rest r s2 Hnext); cbn; lia.
Qed.

Lemma hdrs_loop ws : pv_inv s -> rep (heap s) d p ls ks -> heap s !! key_of p = Some (mk ws) -> 0 < n -> lasts_ok (heap s) ks -> pop_pre front s n ls ->
  wps (xdp2_pvbuf_iovec_map_foreach (key_of p) hdrs_body (n, None)) s (loop_post front s p n d ls ks).
Proof using IH Hd.
  intros Hinv (Hp & ws' & ks1 & Hk & Hs & Hnk & Eks) Hk' Hn Hlo Hpre. rewrite Hk' in Hk. injection Hk as _ <-. pose proof (inv_bounds _ Hinv _ _ Hk') as Hl.
  apply (wps_foreach _ _ _ hdrs_inv) with (ws := ws); [| | | | exact Hk' | lia |].
  - intros i rest x s' (Hi & n' & lg & lr & kr & _ & _ & Hli). pose proof (li_heap _ _ _ _ _ _ _ _ _ _ _ _ _ _ _ Hli) as Hh. cbn [replicate] in Hh. rewrite app_nil_r in Hh.
    pose proof (inv_bounds _ (li_inv _ _ _ _ _ _ _ _ _ _ _ _ _ _ _ Hli) _ _ Hh) as Hl2. eexists. split; [exact Hh |]. rewrite length_app, length_replicate in *.
    split_and!; [lia | lia | lia |]. rewrite <- (length_replicate (Z.to_nat i) 0) at 1. apply drop_app_length.
  - intros i rest x s' (Hi & n' & lg & lr & kr & Ex & Hn' & [H1 H2 H3 H4 H5 H6 H7 H8 H9 H10 H11 H12]). split; [lia |]. exists n', lg, lr, kr. split_and!; [exact Ex | exact Hn' |].
    split; try assumption; [| by apply segs_null_inv]. replace (Z.to_nat (i + 1)) with (Z.to_nat i + 1)%nat by lia. rewrite replicate_add, <- app_assoc. exact H6.
  - intros i x s' (Hi & n' & lg & lr & kr & -> & Hn' & Hli). pose proof (li_segs _ _ _ _ _ _ _ _ _ _ _ _ _ _ _ Hli) as Hs0. eapply loop_end; [apply front_ok | exact Hli |].
    left. by inversion Hs0.
  - intros i w rest x s' Hw HI. exact (hdrs_step i w rest x s' Hw HI).
  - split; [lia |]. exists n, [], ls, ks1. split_and!; [reflexivity | exact Hn |]. split; try assumption; [reflexivity | constructor | cbn; lia | | rewrite Eks; apply pv_step_refl | apply freed_nil | rewrite <- Eks; exact Hlo].
    cbn. rewrite app_nil_r. exact Hk'.
Qed.
End Headers.

(** After the loop. *)
Lemma pop_finish e s p n d ls ks ws r s1 (compress : bool) :
  pv_inv s -> heap s !! key_of p = Some (mk ws) -> loop_post e s p n d ls ks r s1 ->
  wps (_ ← (if compress then __xdp2_pvbuf_try_iovec_uplevel (key_of p) (Z.of_nat (length ws)) else mret tt); mret (n - fst r, snd r)) s1 (pop_post e s n p d ls ks).
Proof.
  intros Hinv Hk (-> & Hi1 & Hf & ks1 & Hst & Hr). cbn [fst snd]. replace (n - (n - Z.min n (total ls))) with (Z.min n (total ls)) by lia.
  apply wps_bind. destruct compress.
  - pose proof Hr as (_ & ws1 & _ & Hk1 & _). pose proof (inv_length _ Hinv _ _ Hk) as [E0 _]. pose proof (inv_length _ Hi1 _ _ Hk1) as [E1 _].
    replace (Z.of_nat (length ws)) with (Z.of_nat (length ws1)) by lia. eapply wps_mono; [exact (uplevel_ok s1 p d ws1 _ _ Hi1 Hr Hk1) |].
    intros u s2 (Hi2 & Hpb & ks2 & Hst2 & Hr2). apply wps_ret. split; [reflexivity |]. split_and!; [exact Hi2 | rewrite Hpb; exact Hf |].
    exists ks2. split; [by eapply pv_step_trans | exact Hr2].
  - apply wps_ret. apply wps_ret. split; [reflexivity |]. split_and!; [exact Hi1 | exact Hf | eauto].
Qed.

Lemma pop_nothing e s p d ls ks : ending_ok e -> pv_inv s -> rep (heap s) d p ls ks -> pop_post e s 0 p d ls ks (0, None) s.
Proof.
  intros He Hinv Hrep. pose proof (total_nonneg ls). split; [f_equal; lia |]. destruct (e_zero _ He ls) as [-> ->].
  split_and!; [exact Hinv | apply freed_nil |]. exists ks. split; [apply pv_step_refl | exact Hrep].
Qed.

Lemma pop_hdrs_wps compress fuel : forall d p ls ks s n, pv_inv s -> rep (heap s) d p ls ks -> (d < fuel)%nat -> lasts_ok (heap s) ks -> pop_pre front s n ls ->
  wps (__xdp2_pvbuf_pop_hdrs fuel p n compress None) s (pop_post front s n p d ls ks).
Proof.
  induction fuel as [| fuel IH]; intros d p ls ks s n Hinv Hrep Hd Hlo Hpre; [lia |]. pose proof Hrep as (Hp & ws & _ & Hk & _). cbn [__xdp2_pvbuf_pop_hdrs].
  eapply wps_step; [exact (paddr_to_addr_ok s Hinv p _ Hp Hk) |]. eapply wps_lift; [exact (num_iovecs_ok s Hinv p ws Hp Hk) |].
  pose proof (pre_n _ _ _ _ Hpre) as Hn. destruct (Z.eqb_spec n 0) as [-> | Hn0]; [apply wps_ret; exact (pop_nothing _ _ _ _ _ _ front_ok Hinv Hrep) |].
  apply wps_bind. eapply wps_mono; [exact (hdrs_loop fuel compress IH s p n d ls ks Hd ws Hinv Hrep Hk ltac:(lia) Hlo Hpre) |].
  intros [rest c] s1 Hloop. exact (pop_finish _ _ _ _ _ _ _ _ _ _ compress Hinv Hk Hloop).
Qed.

(** ** Trailers *)

Section Trailers.
Context (fuel : nat) (compress : bool).
Context (IH : forall d p ls ks s n, pv_inv s -> rep (heap s) d p ls ks -> (d < fuel)%nat -> lasts_ok (heap s) ks -> pop_pre back s n ls ->
  wps (__xdp2_pvbuf_pop_trailers fuel p n compress None) s (pop_post back s n p d ls ks)).
Context (s : xdp2_pvbuf_mgr) (p n : Z) (d : nat) (ls : list leaf) (ks : gset pvptr) (Hd : (d < S fuel)%nat).

Definition trail_inv (i : Z) (pre : list Z) (x : Z * option Z) (s' : xdp2_pvbuf_mgr) : Prop :=
  i = Z.of_nat (length pre) /\ exists n' lg lr kr zb, x = (n', None) /\ 0 < n' /\ loop_inv back s p n d ls ks 0 zb pre n' s' lg lr kr.

(** The last iovecs of the rest. *)
Lemma trail_mid zb m pre n' s' lg l1 lr k1 kr :
  loop_inv back s p n d ls ks 0 zb (pre ++ m) n' s' lg (lr ++ l1) (kr ∪ k1) -> segs (heap s') d m l1 k1 -> segs (heap s') d pre lr kr -> kr ## k1 ->
  mid s' p d pre m (replicate zb 0) lr l1 [] kr k1 ∅.
Proof using.
  intros [Hi Hp _ _ _ Hh _ Hk _ _ _ _] H1 H2 Hdj. cbn [replicate app] in Hh. rewrite <- app_assoc in Hh.
  split; [exact Hp | exact Hh | exact H2 | exact H1 | | exact Hdj | apply disjoint_empty_r | apply disjoint_empty_r |].
  - rewrite <- (app_nil_r (replicate _ _)). apply segs_zeros, segs_nil.
  - rewrite (right_id_L ∅ (∪)). exact Hk.
Qed.

Definition trail_next (pre : list Z) (r : Z * option Z) (s2 : xdp2_pvbuf_mgr) : Prop :=
  exists n2, r = (n2, None) /\ (if n2 =? 0 then loop_post back s p n d ls ks (n2, None) s2 else trail_inv (Z.of_nat (length pre)) pre (n2, None) s2).

Lemma trail_item zb m pre n' s' lg l1 lr k1 kr r s2 :
  loop_inv back s p n d ls ks 0 zb (pre ++ m) n' s' lg (lr ++ l1) (kr ∪ k1) ->
  item_post back s' n' p d pre m (replicate zb 0) lr l1 [] kr k1 ∅ r s2 -> trail_next pre r s2.
Proof using.
  clear Hd IH. intros Hli Hpost. destruct (loop_item back back_ok s p n d ls ks 0 zb (pre ++ m) n' s' lg l1 lr (kr ∪ k1) pre m (replicate zb 0) lr [] kr k1 ∅
    0 (length m + zb) pre (kr ∪ ∅ ∪ ∅) r s2 Hli) as (n2 & -> & Hn2).
  - by rewrite (right_id_L ∅ (∪)).
  - cbn [replicate app]. by rewrite <- app_assoc.
  - cbn [replicate app]. by rewrite replicate_add.
  - reflexivity.
  - intros X. cbn [back e_cat]. by rewrite app_nil_r.
  - intros H Hs _. by rewrite !(right_id_L ∅ (∪)).
  - exact Hpost.
  - exists n2. split; [reflexivity |]. destruct (Z.eqb_spec n2 0); [exact Hn2 |]. destruct Hn2 as (lg' & Hn2). split; [reflexivity |].
    pose proof (pre_n _ _ _ _ (li_pre _ _ _ _ _ _ _ _ _ _ _ _ _ _ _ Hn2)). exists n2, lg', lr, (kr ∪ ∅ ∪ ∅), (length m + zb)%nat. split_and!; [reflexivity | lia | exact Hn2].
Qed.

Definition trail_body (i : Z) (x : Z * option Z) : pvm (ctl (Z * option Z)) :=
  let '(rest, c) := x in
  q ← ld_iovec (key_of p) i;
  _ ← massert (negb (q =? 0));
  '(i, (rest, c)) ←
    match ptype q with
    | TPvbuf =>
      r ← __xdp2_pvbuf_pop_trailers_from_pvbuf_iovec fuel (fun p n c => __xdp2_pvbuf_pop_trailers fuel p n compress c) (key_of p) i rest compress c;
      mret (i, r)
    | TLong => r ← __xdp2_pvbuf_pop_trailers_from_paddr_iovec (key_of p) (i - 1) rest c; mret (i - 1, r)
    | _ => r ← __xdp2_pvbuf_pop_trailers_from_paddr_iovec (key_of p) i rest c; mret (i, r)
    end;
  mret (if rest =? 0 then Break (rest, c) else Next i (rest, c)).

Abbreviation trail_post i := (fun (r : ctl (Z * option Z)) s2 =>
  match r with Break y => loop_post back s p n d ls ks y s2 | Next j y => j <= i /\ exists pre', trail_inv j pre' y s2 end).

Lemma trail_ret i j pre r s2 : trail_next pre r s2 -> j <= i -> j = Z.of_nat (length pre) ->
  wps (let '(rest, c) := r in mret (if rest =? 0 then Break (rest, c) else Next j (rest, c))) s2 (trail_post i).
Proof using.
  intros (n2 & -> & Hn2) Hij ->. apply wps_ret. destruct (n2 =? 0); [exact Hn2 |]. split; [exact Hij |]. exists pre. exact Hn2.
Qed.

Lemma trail_leaf pre zb n' s' lg l lr kr :
  leaf_ok l -> 0 < n' -> loop_inv back s p n d ls ks 0 zb (pre ++ words_of l) n' s' lg (lr ++ [l]) kr -> segs (heap s') d pre lr kr ->
  wps (__xdp2_pvbuf_pop_trailers_from_paddr_iovec (key_of p) (Z.of_nat (length pre)) n' None) s' (trail_next pre).
Proof using.
  clear Hd IH. intros Ho Hn' Hli Hr. pose proof (right_id_L ∅ (∪) kr) as Ek. rewrite <- Ek in Hli.
  pose proof (trail_mid zb (words_of l) pre n' s' lg [l] lr ∅ kr Hli (segs_leaf _ _ _ Ho) Hr (disjoint_empty_r _)) as Hm.
  eapply wps_mono; [apply (back_leaf s' n' p d _ _ _ _ _ _ l (li_inv _ _ _ _ _ _ _ _ _ _ _ _ _ _ _ Hli) Ho Hm Hn' (loop_last _ _ _ _ _ _ _ _ _ _ _ _ _ _ _ _ Hli (mid_heap _ _ _ _ _ _ _ _ _ _ _ _ Hm))); exact (pre_part back back_ok s' n' [l] lr (li_pre _ _ _ _ _ _ _ _ _ _ _ _ _ _ _ Hli)) |].
  intros r s2 Hpost. exact (trail_item zb (words_of l) pre n' s' lg [l] lr ∅ kr r s2 Hli Hpost).
Qed.

Lemma trail_sub zb w pre n' s' lg l1 lr k1 kr d' :
  d = S d' -> rep (heap s') d' w l1 k1 -> dlen_ok w l1 -> kr ## k1 -> 0 < n' ->
  loop_inv back s p n d ls ks 0 zb (pre ++ [w]) n' s' lg (lr ++ l1) (kr ∪ k1) -> segs (heap s') d pre lr kr ->
  wps (__xdp2_pvbuf_pop_trailers_from_pvbuf_iovec fuel (fun p n c => __xdp2_pvbuf_pop_trailers fuel p n compress c) (key_of p) (Z.of_nat (length pre)) n' compress None) s'
    (trail_next pre).
Proof using IH Hd.
  intros Ed Hrep Hdl Hdj Hn' Hli Hr. pose proof Hrep as (Hw & _).
  pose proof (trail_mid zb [w] pre n' s' lg l1 lr k1 kr Hli ltac:(rewrite Ed; apply sub_single; assumption) Hr Hdj) as Hm. rewrite Ed in Hm.
  pose proof (li_inv _ _ _ _ _ _ _ _ _ _ _ _ _ _ _ Hli) as Hinv. pose proof (pre_part back back_ok s' n' l1 lr (li_pre _ _ _ _ _ _ _ _ _ _ _ _ _ _ _ Hli)) as Hpre.
  eapply wps_mono.
  { apply (sub_step back back_ok fuel d' (fun p n c => __xdp2_pvbuf_pop_trailers fuel p n compress c) compress ltac:(lia)
      (fun s0 n0 w0 ls0 ks0 H1 H2 H3 H4 => IH d' w0 ls0 ks0 s0 n0 H1 H2 ltac:(lia) H3 H4) s' n' p w _ _ lr l1 [] kr k1 ∅ Hinv Hm Hw Hn' (loop_lasts _ _ _ _ _ _ _ _ _ _ _ _ _ _ _ _ Hli (union_subseteq_r _ _)) Hpre). }
  intros r s2 Hpost. rewrite <- Ed in Hpost. exact (trail_item zb [w] pre n' s' lg l1 lr k1 kr r s2 Hli Hpost).
Qed.

Lemma trail_step i w pre x s' : w <> 0 -> trail_inv (i + 1) (pre ++ [w]) x s' -> wps (trail_body i x) s' (trail_post i).
Proof using IH Hd.
  intros Hw (Hi & n' & lg & lr & kr & zb & -> & Hn' & Hli). rewrite length_app in Hi. cbn [length] in Hi. assert (i = Z.of_nat (length pre)) as -> by lia. clear Hi.
  pose proof (li_heap _ _ _ _ _ _ _ _ _ _ _ _ _ _ _ Hli) as Hh. cbn [replicate app] in Hh. rewrite <- app_assoc in Hh.
  pose proof (inv_bounds _ (li_inv _ _ _ _ _ _ _ _ _ _ _ _ _ _ _ Hli) _ _ Hh) as Hl. rewrite !length_app, length_replicate in Hl. cbn [length] in Hl.
  unfold trail_body. eapply wps_step; [apply (ld_iovec_mid _ _ _ _ _ Hh); rewrite length_replicate; lia |].
  apply wps_assert; [rewrite (proj2 (Z.eqb_neq w 0) Hw); reflexivity |].
  destruct (segs_last _ _ _ _ _ _ Hw (li_segs _ _ _ _ _ _ _ _ _ _ _ _ _ _ _ Hli)) as [lr' Hb -> Hr | w1 ws' lr' Hc -> -> Hr | d' l1 lr' k1 kr' Ed Hrep Hdl Hr Hdj -> ->].
  - destruct (buf_leaf w Hb) as [Ho Ew]. pose proof (trail_leaf pre zb n' s' lg (w, 0) lr' kr Ho Hn') as Hleaf. rewrite Ew in Hleaf. specialize (Hleaf Hli Hr).
    destruct Hb as [T | [T | T]]; rewrite T; apply wps_bind, wps_bind; (eapply wps_mono; [exact Hleaf |]); intros r s2 Hnext; apply wps_ret;
      apply (trail_ret _ _ pre r s2 Hnext); lia.
  - destruct (long_leaf w1 w Hc) as (Ho & Ew & _). pose proof (proj1 (long_check _ _) Hc) as (_ & _ & _ & _ & T & _).
    pose proof (trail_leaf ws' zb n' s' lg (w1, w) lr' kr Ho Hn') as Hleaf. rewrite Ew in Hleaf. rewrite <- app_assoc in Hli. specialize (Hleaf Hli Hr).
    rewrite T. rewrite length_app. cbn [length]. replace (Z.of_nat (length ws' + 1) - 1) with (Z.of_nat (length ws')) by lia.
    apply wps_bind, wps_bind. eapply wps_mono; [exact Hleaf |]. intros r s2 Hnext. apply wps_ret. apply (trail_ret _ _ ws' r s2 Hnext); lia.
  - pose proof Hrep as (T & _). rewrite T. apply wps_bind, wps_bind.
    eapply wps_mono; [exact (trail_sub zb w pre n' s' lg l1 lr' k1 kr' d' Ed Hrep Hdl ltac:(symmetry; exact Hdj) Hn' Hli Hr) |].
    intros r s2 Hnext. apply wps_ret. apply (trail_ret _ _ pre r s2 Hnext); lia.
Qed.

Lemma trail_loop ws : pv_inv s -> rep (heap s) d p ls ks -> heap s !! key_of p = Some (mk ws) -> 0 < n -> lasts_ok (heap s) ks -> pop_pre back s n ls ->
  wps (xdp2_pvbuf_iovec_map_rev_foreach (key_of p) (Z.of_nat (length ws) - 1) trail_body (n, None)) s (loop_post back s p n d ls ks).
Proof using IH Hd.
  intros Hinv (Hp & ws' & ks1 & Hk & Hs & Hnk & Eks) Hk' Hn Hlo Hpre. rewrite Hk' in Hk. injection Hk as _ <-. pose proof (inv_bounds _ Hinv _ _ Hk') as Hl.
  apply (wps_rev_foreach _ _ _ trail_inv) with (ws := ws); [| | | | exact Hk' | lia |].
  - intros i pre x s' (-> & n' & lg & lr & kr & zb & _ & _ & Hli). pose proof (li_heap _ _ _ _ _ _ _ _ _ _ _ _ _ _ _ Hli) as Hh. cbn [replicate app] in Hh.
    pose proof (inv_bounds _ (li_inv _ _ _ _ _ _ _ _ _ _ _ _ _ _ _ Hli) _ _ Hh) as Hl2. eexists. split; [exact Hh |]. rewrite length_app, length_replicate in *.
    split_and!; [lia | lia | lia |]. rewrite Nat2Z.id. apply take_app_length.
  - intros i pre x s' (Hi & n' & lg & lr & kr & zb & Ex & Hn' & [H1 H2 H3 H4 H5 H6 H7 H8 H9 H10 H11 H12]). rewrite length_app in Hi. cbn [length] in Hi. split; [lia |].
    exists n', lg, lr, kr, (S zb). split_and!; [exact Ex | exact Hn' |].
    split; try assumption; [rewrite <- app_assoc in H6; exact H6 | by apply (segs_zeros_end_inv _ _ 1)].
  - intros i x s' (Hi & n' & lg & lr & kr & zb & -> & Hn' & Hli). pose proof (li_segs _ _ _ _ _ _ _ _ _ _ _ _ _ _ _ Hli) as Hs0. eapply loop_end; [apply back_ok | exact Hli |].
    left. by inversion Hs0.
  - intros i w pre x s' Hw HI. exact (trail_step i w pre x s' Hw HI).
  - split; [reflexivity |]. exists n, [], ls, ks1, 0%nat. split_and!; [reflexivity | exact Hn |]. split; try assumption;
      [cbn; by rewrite app_nil_r | constructor | cbn; lia | | rewrite Eks; apply pv_step_refl | apply freed_nil | rewrite <- Eks; exact Hlo].
    cbn. rewrite app_nil_r. exact Hk'.
Qed.
End Trailers.

Lemma pop_trailers_wps compress fuel : forall d p ls ks s n, pv_inv s -> rep (heap s) d p ls ks -> (d < fuel)%nat -> lasts_ok (heap s) ks -> pop_pre back s n ls ->
  wps (__xdp2_pvbuf_pop_trailers fuel p n compress None) s (pop_post back s n p d ls ks).
Proof.
  induction fuel as [| fuel IH]; intros d p ls ks s n Hinv Hrep Hd Hlo Hpre; [lia |]. pose proof Hrep as (Hp & ws & _ & Hk & _). cbn [__xdp2_pvbuf_pop_trailers].
  eapply wps_step; [exact (paddr_to_addr_ok s Hinv p _ Hp Hk) |]. eapply wps_lift; [exact (num_iovecs_ok s Hinv p ws Hp Hk) |].
  pose proof (pre_n _ _ _ _ Hpre) as Hn. destruct (Z.eqb_spec n 0) as [-> | Hn0]; [apply wps_ret; exact (pop_nothing _ _ _ _ _ _ back_ok Hinv Hrep) |].
  apply wps_bind. eapply wps_mono; [exact (trail_loop fuel compress IH s p n d ls ks Hd ws Hinv Hrep Hk ltac:(lia) Hlo Hpre) |].
  intros [rest c] s1 Hloop. exact (pop_finish _ _ _ _ _ _ _ _ _ _ compress Hinv Hk Hloop).
Qed.
