(* ===== verification/PvbufProps.v ===== *)
(** * Packet vectors: theorems

    What the operations on packet vectors do to the list of buffers of a packet.
    The hypotheses are that the manager satisfies its invariant and that the
    address stands for a packet; a fuel above the depth of the packet is enough. *)

From stdpp Require Import base list gmap numbers.
From S2P Require Import Prelude BitmapWord BitmapWordSpec Memory Bytes Checksum Paddr Pvbuf PvbufEdit PvbufPop PvbufIter PvbufMap PvbufRep PvbufInv PvbufRead PvbufCopy PvbufSlots PvbufInsert PvbufAppend PvbufJoin.

(** ** A manager *)

(** Four pvbufs with seven iovecs each, two of them in use: pvbuf 0 with a short
    address of 100 bytes at offset 8, and pvbuf 1 with one of 50 bytes at offset
    500. Short addresses of region 1 can be freed. *)
Definition ex_random (_ : nat) : Z := 0.
Definition ex_conf : mgr_conf := MgrConf false false 0 [] [0; 0x1000; 0; 0] [] [(false, false); (true, true)] [].
Definition ex_table : list pvbuf_allocator_entry := PvEntry (Some (OAlloc 4 [2; 3])) 0 :: replicate 15 (PvEntry None 0).

Definition short_a : Z := Z.shiftl 1 62 + Z.shiftl 8 18.
Definition short_b : Z := Z.shiftl 1 62 + Z.shiftl 500 18.
Definition leaf_a : leaf := (short_a + 99, 0).
Definition pv0 : Z := Z.shiftl 1 60.
Definition pv1 : Z := Z.shiftl 1 60 + Z.shiftl 1 32.
Definition ex_heap : gmap pvptr xdp2_pvbuf :=
  {[ (0, 0) := mk [0; 0; 0; short_a + 99; 0; 0; 0]; (0, 1) := mk [0; 0; 0; short_b + 49; 0; 0; 0] ]}.
(** The byte of the memory at an address is its low order byte. *)
Definition ex_mem : memory := list_to_map (map (fun i => (0x1000 + Z.of_nat i, Z.of_nat i mod 256)) (seq 0 600)).
Definition ex_pb : pbside := PbSide ∅ ex_mem [] (MgrStats 0 0 0 0 0).
Definition ex_s : xdp2_pvbuf_mgr := Mgr ex_conf (PvSide ex_heap ex_table 0) ex_pb.

Lemma ex_lookup k v : ex_heap !! k = Some v -> exists w, v = mk [0; 0; 0; w; 0; 0; 0] /\ (k = (0, 0) \/ k = (0, 1)).
Proof.
  unfold ex_heap. rewrite lookup_insert_Some, lookup_singleton_Some. intros [[<- <-] | [_ [<- <-]]]; eauto.
Qed.

Lemma ex_inv : pv_inv ex_s.
Proof.
  split; [done | done | |].
  - intros i e a He Ha. destruct i as [| i]; [| apply lookup_replicate_1 in He as [-> _]; done].
    injection He as <-. injection Ha as <-. split; [lia | cbn; lia | by apply (bool_decide_unpack _) |].
    intros j. cbn [oa_free oa_num]. change (heap ex_s) with ex_heap. rewrite !elem_of_cons, elem_of_nil. unfold ex_heap. rewrite lookup_insert_None, lookup_singleton_None.
    change (Z.of_nat 0) with 0. split; [intros [-> | [-> | []]]; (split; [lia | done]) |]. intros (Hj & H1 & H0).
    assert (j <> 0 /\ j <> 1) by (split; intros ->; congruence). lia.
  - intros k v Hk. apply ex_lookup in Hk as (w & -> & Hk). split; [eexists; split; [done |]; by destruct Hk as [-> | ->] |].
    eexists _, _. destruct Hk as [-> | ->]; (split_and!; [done | reflexivity | reflexivity | done | done]).
Qed.

Lemma ex_rep0 : rep (heap ex_s) 0 pv0 [leaf_a] {[key_of pv0]}.
Proof.
  split; [done |]. eexists _, ∅. split_and!; [reflexivity | | apply not_elem_of_empty | by rewrite (right_id_L ∅ (∪))].
  do 3 apply segs_null. apply segs_buf; [by do 2 right |]. do 3 apply segs_null. apply segs_nil.
Qed.


Lemma ex_lasts ks : lasts_ok (heap ex_s) ks.
Proof.
  intros k ws _ Hk. apply ex_lookup in Hk as (w & E & _). injection E as _ ->. intros a x E.
  change [0; 0; 0; w; 0; 0; 0] with ([0; 0; 0; w; 0; 0] ++ [0]) in E. apply app_inj_2 in E as [_ [= <-]]; [exact not_buf_0 | reflexivity].
Qed.

(** ** Adding a buffer *)















(** C9: freeing a packet. In a manager whose pvbufs have the sizes 0 to 7, so that
    they have at most 63 iovecs ([pool_ok]), when the buffers of a packet can be
    freed in order, going from the state of the buffers in [s] to [b],
    [__xdp2_pvbuf_free] does that and nothing else to the buffers; it returns every
    pvbuf of the packet to its allocator and leaves the others alone. With a pvbuf
    of 64 iovecs it can crash ([iovec_63_crashes]). *)
Theorem pvbuf_free_ok fuel d p ls ks b s :
  pv_inv s -> rep (heap s) d p ls ks -> (d < fuel)%nat -> frees (mconf s) ls (mpb s) b ->
  exists s', __xdp2_pvbuf_free fuel p s = Done (s', tt) /\ pv_inv s' /\ mpb s' = b /\ mconf s' = mconf s /\
    forall k, heap s' !! k = if decide (k ∈ ks) then None else heap s !! k.
Proof.
  intros Hinv Hrep Hd Hf. pose proof (pvbuf_free_wps fuel d p ls ks b s Hinv Hrep Hd Hf) as H.
  apply wps_done in H as (s' & [] & E & Hi & [Hc Ho _] & Hb). exists s'. split_and!; try assumption. intros k. apply Ho. apply not_elem_of_empty.
Qed.

(** The short address is freed and pvbuf 0 is available. *)
Lemma pvbuf_free_ok_witness :
  exists s', __xdp2_pvbuf_free 1 pv0 ex_s = Done (s', tt) /\ pv_inv s' /\
    mpb s' = PbSide ∅ ex_mem [ExtFree (fst leaf_a) 0] (MgrStats 0 0 0 0 0) /\ mconf s' = ex_conf /\
    forall k, heap s' !! k = if decide (k ∈ ({[key_of pv0]} : gset pvptr)) then None else ex_heap !! k.
Proof.
  apply (pvbuf_free_ok 1 0 pv0 [leaf_a] {[key_of pv0]} _ ex_s); [apply ex_inv | apply ex_rep0 | lia |].
  apply (frees_cons _ leaf_a [] _ (PbSide ∅ ex_mem [ExtFree (fst leaf_a) 0] (MgrStats 0 0 0 0 0))); [intros v; reflexivity | apply frees_nil].
Defined.

(** ** Reading a packet *)

(** The length of a packet. [__xdp2_pvbuf_calc_length] returns the sum of the
    lengths of the buffers and changes nothing, whether it trusts the lengths in the
    iovecs of pvbufs or computes them again: the lengths that the operations keep
    there are right. *)
Theorem calc_length_ok fuel d p ls ks deep s :
  pv_inv s -> rep (heap s) d p ls ks -> (d < fuel)%nat -> total ls < 2 ^ 64 -> __xdp2_pvbuf_calc_length fuel p deep s = Done (s, total ls).
Proof.
  intros Hinv Hrep Hd Ht. pose proof (calc_length_wps fuel d p ls ks s deep Hinv Hrep Hd) as H. apply wps_done in H as (s' & n & -> & -> & ->).
  pose proof (total_nonneg ls). unfold u64. by rewrite Z.mod_small by lia.
Qed.

Lemma calc_length_ok_witness : __xdp2_pvbuf_calc_length 1 pv0 true ex_s = Done (ex_s, 100).
Proof. apply (calc_length_ok 1 0 pv0 [leaf_a] {[key_of pv0]} true ex_s); [apply ex_inv | apply ex_rep0 | lia | reflexivity]. Defined.

(** The 100 bytes of pvbuf 0. *)
Definition ex_data : list Z := map (fun i => Z.of_nat i) (seq 8 100).

Example ex_pkt_data : pkt_data ex_conf ex_mem [leaf_a] = Some ex_data.
Proof. vm_compute. reflexivity. Qed.

Lemma ex_data_u8 : Forall is_u8 ex_data.
Proof.
  apply list.Forall_forall. intros x Hx. unfold ex_data in Hx. apply list_elem_of_fmap in Hx as (i & -> & Hi%elem_of_seq). unfold is_u8. lia.
Qed.

Lemma pvbuf_checksum_ref_witness : __xdp2_pvbuf_checksum 1 pv0 0 3 ex_s = Done (ex_s, checksum_ref (map (fun i => Z.of_nat i) (seq 11 97))).
Proof.
  apply (pvbuf_checksum_ref 1 0 pv0 [leaf_a] {[key_of pv0]} 3 ex_data ex_s);
    [apply ex_inv | apply ex_rep0 | lia | apply ex_lasts | lia | exact ex_pkt_data | exact ex_data_u8].
Defined.

(** Bytes 10 to 69 of the packet are copied behind its buffers. *)
Definition ex_mem' : memory := match mem_write (map (fun i => Z.of_nat i) (seq 18 60)) ex_mem 0x1100 with Done m => m | _ => ∅ end.

Example ex_write : mem_write (cap 60 (drop 10 ex_data)) ex_mem 0x1100 = Done ex_mem'.
Proof. vm_compute. reflexivity. Qed.

Lemma copy_pvbuf_to_data_ok_witness :
  __xdp2_pvbuf_copy_pvbuf_to_data 1 pv0 0x1100 60 10 ex_s = Done (set_mpb (set_mem ex_mem' ex_pb) ex_s, 60).
Proof.
  apply (copy_pvbuf_to_data_ok 1 0 pv0 [leaf_a] {[key_of pv0]} 0x1100 60 10 ex_data ex_mem' ex_s);
    [apply ex_inv | apply ex_rep0 | lia | apply ex_lasts | lia | lia | exact ex_pkt_data | lia | reflexivity | | exact ex_write].
  apply Forall_cons_2; [| apply Forall_nil_2]. intros a Ha. left. assert (a = 0x1008) as -> by (vm_compute in Ha; congruence). vm_compute. discriminate.
Defined.

(** ** Addresses *)

Definition paddr_tests (p : Z) : list bool :=
  [XDP2_PADDR_IS_PVBUF p; XDP2_PADDR_IS_PBUF p; XDP2_PADDR_IS_SHORT_ADDR p; XDP2_PADDR_IS_LONG_ADDR p].

Lemma paddr_tests_one p : length (filter (fun b => b = true) (paddr_tests p)) = 1%nat.
Proof. unfold paddr_tests. rewrite is_pvbuf_ptype, is_pbuf_ptype, is_short_ptype, is_long_ptype. destruct (ptype p); reflexivity. Qed.

(** The fields of a new address. *)
Ltac bf_simpl := repeat first [rewrite bf_get_set_small by (field_side || (cbn; lia)) | rewrite bf_get_set_other by field_side | rewrite bf_get_0].

Lemma pvbuf_make_get size zindex p :
  0 <= size -> 0 <= zindex -> xdp2_pvbuf_make_paddr size zindex = Done p ->
  ptype p = TPvbuf /\ xdp2_pvbuf_get_size_from_paddr p = Done size /\ xdp2_pvbuf_index_from_paddr p = Done zindex.
Proof.
  intros Hs Hz E. assert (zindex < 2 ^ 24 /\ size < 16) as [Hz' Hs'].
  { unfold xdp2_pvbuf_make_paddr, XDP2_PVBUF_NUM_SIZES in E. destruct (Z.ltb_spec zindex (2 ^ 24)); [| done]. destruct (Z.ltb_spec size 16); [lia | done]. }
  destruct (make_paddr_ok size zindex ltac:(lia) ltac:(lia)) as (q & Eq & Ht & Hk & _). rewrite E in Eq. injection Eq as <-.
  split; [exact Ht |]. unfold key_of in Hk. injection Hk as Hk1 Hk2.
  unfold xdp2_pvbuf_get_size_from_paddr, xdp2_pvbuf_index_from_paddr, __xdp2_pvbuf_check_paddr. rewrite is_pvbuf_ptype, bool_decide_true by exact Ht.
  rewrite Hk1, Hk2. split; reflexivity.
Qed.

Lemma short_make_get tag offset p :
  0 <= offset -> xdp2_paddr_short_addr_make_paddr tag offset = Done p ->
  ptype p = TShort /\ xdp2_paddr_short_addr_get_mem_region_from_paddr p = Done tag /\ xdp2_paddr_short_addr_get_offset_from_paddr p = Done offset.
Proof.
  unfold xdp2_paddr_short_addr_make_paddr, XDP2_PADDR_SHORT_ADDR_MAX_OFFSET. intros Ho E.
  destruct ((tag =? 1) || (tag =? 2) || (tag =? 3)) eqn:Ht; [| discriminate]. cbn [XDP2_ASSERT mbind outcome_bind] in E.
  destruct (Z.ltb_spec offset (2 ^ 44)); [| discriminate]. injection E as <-.
  assert (1 <= tag <= 3) as Htag. { apply orb_true_iff in Ht as [Ht | Ht]; [apply orb_true_iff in Ht as [Ht | Ht] |]; lia. }
  set (p := bf_set short_offset offset (bf_set short_paddr_tag tag 0)).
  assert (bf_get short_paddr_tag p = tag) as Hg by (unfold p; by bf_simpl).
  assert (ptype p = TShort) as Hp.
  { apply short_region. lia. }
  split; [exact Hp |]. unfold xdp2_paddr_short_addr_get_mem_region_from_paddr, xdp2_paddr_short_addr_get_offset_from_paddr, __xdp2_paddr_short_addr_check.
  rewrite is_short_ptype, bool_decide_true by exact Hp. rewrite Hg. split; [reflexivity |]. cbn [XDP2_ASSERT mbind outcome_bind]. unfold p. bf_simpl. reflexivity.
Qed.

Lemma long_make_get region offset p1 p2 :
  0 <= region -> 0 <= offset < 2 ^ 64 -> xdp2_paddr_long_addr_make_paddr region offset = Done (p1, p2) ->
  ptype p1 = TLong /\ xdp2_paddr_long_addr_get_mem_region_from_paddr p1 p2 = Done (region mod 64) /\ xdp2_paddr_long_addr_get_offset_from_paddr p1 p2 = Done offset.
Proof.
  unfold xdp2_paddr_long_addr_make_paddr, XDP2_PADDR_LONG_ADDR_MAX_MEM_REGION. intros Hr Ho E.
  destruct (Z.ltb_spec region (2 ^ 7)); [| discriminate]. cbn [XDP2_ASSERT mbind outcome_bind] in E.
  change (u64 (Z.shiftr 1 48 - 1)) with (Z.ones 64) in E. rewrite Z.land_ones, (Z.mod_small offset (2 ^ 64)) in E by lia. injection E as Ep1 Ep2.
  assert (0 <= Z.shiftr offset 48 < 2 ^ 16) as Hh by (rewrite Z.shiftr_div_pow2 by lia; split; [apply Z.div_pos; lia | apply Z.div_lt_upper_bound; lia]).
  assert (ptype p1 = TLong) as Ht by (rewrite <- Ep1, !bf_set_tag by (field_side || (cbn; lia)); reflexivity).
  assert (ptype p2 = TLong) as Ht2 by (rewrite <- Ep2, !bf_set_tag by (field_side || (cbn; lia)); reflexivity).
  assert (bf_get long_memory_region p1 = region mod 64) as Hg1 by (rewrite <- Ep1, bf_get_set_other by field_side; apply bf_get_set_same; field_side).
  assert (bf_get long_high_offset p1 = Z.shiftr offset 48) as Hg2 by (rewrite <- Ep1; by bf_simpl).
  assert (bf_get long2_low_offset p2 = offset mod 2 ^ 48) as Hg3 by (rewrite <- Ep2; by apply bf_get_set_same; field_side).
  assert (bf_get long_one_bit p1 = 1) as Hb1 by (rewrite <- Ep1; by bf_simpl).
  assert (__xdp2_paddr_long_addr_check p1 p2 = Done tt) as Hc.
  { apply long_check. split_and!; [apply (nonzero_of long_one_bit); by rewrite Hb1 | exact Ht | rewrite <- Ep1; by bf_simpl | by rewrite Hb1 | exact Ht2 | |];
      rewrite <- Ep2; bf_simpl; done. }
  split; [exact Ht |]. unfold xdp2_paddr_long_addr_get_mem_region_from_paddr, xdp2_paddr_long_addr_get_offset_from_paddr. rewrite Hc, Hg1, Hg2, Hg3.
  split; [reflexivity |]. cbn [mbind outcome_bind]. do 2 f_equal. rewrite <- Z.land_ones by lia. apply Z.bits_inj'. intros i Hi.
  rewrite Z.lor_spec, Z.land_spec, Z.testbit_ones_nonneg by lia. destruct (Z.ltb_spec i 48).
  - rewrite Z.shiftl_spec_low by lia. by rewrite andb_true_r.
  - rewrite Z.shiftl_spec_high, Z.shiftr_spec by lia. rewrite andb_false_r, orb_false_r. f_equal. lia.
Qed.

Lemma lor_shift z o n : 0 <= n -> 0 <= o < 2 ^ n -> Z.lor (Z.shiftl z n) o = z * 2 ^ n + o.
Proof.
  intros Hn Ho. rewrite <- Z.shiftl_mul_pow2 by lia. symmetry. apply Z.add_nocarry_lor.
  apply Z.bits_inj'. intros i Hi. rewrite Z.land_spec, Z.bits_0. destruct (Z.ltb_spec i n); [by rewrite Z.shiftl_spec_low by lia |].
  rewrite <- (Z.mod_small o (2 ^ n)), <- Z.land_ones, Z.land_spec, Z.testbit_ones_nonneg by lia. destruct (Z.ltb_spec i n); [lia |]. by rewrite !andb_false_r.
Qed.

Lemma pbuf_make_get one_ref shift zindex offset length p :
  0 <= zindex -> 0 <= offset < 2 ^ shift -> 0 <= length -> xdp2_pbuf_make_paddr one_ref shift zindex offset length = Done p ->
  ptype p = (if one_ref then TPbuf1ref else TPbuf) /\ xdp2_pbuf_get_offset_from_paddr p = Done (zindex * 2 ^ shift + offset) /\
  xdp2_pbuf_size_from_paddr p = Done (2 ^ shift).
Proof.
  unfold xdp2_pbuf_make_paddr, XDP2_PBUF_MAX_SIZE_SHIFT, XDP2_PBUF_BASE_SIZE_SHIFT. intros Hz Ho Hl E.
  destruct ((shift <=? 20) && (6 <=? shift)) eqn:Hs; [| discriminate]. apply andb_true_iff in Hs as [Hs1 Hs2]. apply Z.leb_le in Hs1, Hs2.
  cbn [XDP2_ASSERT mbind outcome_bind] in E. destruct (Z.ltb_spec zindex (2 ^ (36 - shift))); [| discriminate]. cbn [XDP2_ASSERT mbind outcome_bind] in E.
  destruct (Z.leb_spec (u64 (offset + length)) (xdp2_pbuf_size_shift_to_size shift)); [| discriminate]. cbn [XDP2_ASSERT mbind outcome_bind] in E.
  assert (zindex * 2 ^ shift + offset < 2 ^ 36) as Hr.
  { replace (2 ^ 36) with (2 ^ (36 - shift) * 2 ^ shift) by (rewrite <- Z.pow_add_r by lia; f_equal; lia). pose proof (Z.pow_pos_nonneg 2 shift). nia. }
  assert (0 <= zindex * 2 ^ shift) by (pose proof (Z.pow_pos_nonneg 2 shift); nia).
  assert (u64 (Z.shiftl zindex shift) = Z.shiftl zindex shift) as Hu by (unfold u64; rewrite Z.shiftl_mul_pow2 by lia; apply Z.mod_small; lia).
  rewrite Hu, lor_shift in E by lia. set (btag := if (shift =? 20) && (length =? xdp2_pbuf_size_shift_to_size 20) then XDP2_PBUF_NUM_SIZE_SHIFTS else xdp2_pbuf_size_shift_to_buffer_tag shift) in E. injection E as <-.
  assert (0 <= btag < 16 /\ xdp2_pbuf_buffer_tag_to_size btag = 2 ^ shift) as [Hb Hsz].
  { unfold xdp2_pbuf_buffer_tag_to_size, xdp2_pbuf_buffer_tag_to_size_shift, xdp2_pbuf_size_shift_to_size, btag, XDP2_PBUF_NUM_SIZE_SHIFTS, XDP2_PBUF_BASE_SIZE_SHIFT.
    destruct ((shift =? 20) && _) eqn:Eb; [apply andb_true_iff in Eb as [Eb _]; apply Z.eqb_eq in Eb as ->; done |].
    unfold xdp2_pbuf_size_shift_to_buffer_tag, XDP2_PBUF_BASE_SIZE_SHIFT. assert (u32 (shift - 6) = shift - 6) as -> by (unfold u32; apply Z.mod_small; lia).
    split; [lia |]. destruct (Z.eqb_spec (shift - 6) 15); [lia |]. replace (shift - 6 + 6) with shift by lia. rewrite Z.shiftl_mul_pow2 by lia.
    unfold u64. rewrite Z.mul_1_l. apply Z.mod_small. split; [lia |]. apply Z.pow_lt_mono_r; lia. }
  set (t := if one_ref then XDP2_PADDR_TAG_PBUF_1REF else XDP2_PADDR_TAG_PBUF). assert (0 <= t < 2 ^ 4) as Ht by (unfold t; destruct one_ref; done).
  set (p := bf_set pbuf_offset _ _). assert (ptype p = if one_ref then TPbuf1ref else TPbuf) as Hp.
  { unfold ptype, xdp2_paddr_get_paddr_tag_from_paddr, p. bf_simpl. unfold t. by destruct one_ref. }
  split; [exact Hp |]. unfold xdp2_pbuf_get_offset_from_paddr, xdp2_pbuf_size_from_paddr, xdp2_pbuf_buffer_tag_from_paddr, __xdp2_pbuf_check_paddr.
  rewrite is_pbuf_ptype, Hp. assert (bool_decide ((if one_ref then TPbuf1ref else TPbuf) = TPbuf) || bool_decide ((if one_ref then TPbuf1ref else TPbuf) = TPbuf1ref) = true) as -> by (by destruct one_ref).
  cbn [XDP2_ASSERT mbind outcome_bind mret outcome_ret]. assert (bf_get pbuf_buffer_tag p = btag) as -> by (unfold p; by bf_simpl).
  assert (bf_get pbuf_offset p = zindex * 2 ^ shift + offset) as -> by (unfold p; by bf_simpl). rewrite Hsz. split; reflexivity.
Qed.

(** What [m] makes is an address of type [t] with the parts that [get] returns. *)
Definition makes {A} (t : paddr_type) (ty : A -> paddr_type) (get : A -> outcome (Z * Z)) (parts : Z * Z) (m : outcome A) : Prop :=
  forall p, m = Done p -> ty p = t /\ get p = Done parts.

(** C13: addresses are typed. Each word is of exactly one of the four kinds that the
    macros test; and an address that one of the four functions makes has the kind of
    the function and gives back the parts it was made of: the size and the index of
    a pvbuf, the size of a buffer and its offset (for a position inside of the
    buffer), the region and the offset of a short address, and the offset and the
    low six bits of the region of a long address; the function for long addresses
    accepts regions up to 127. *)
Theorem paddr_typed :
  (forall p, length (filter (fun b => b = true) (paddr_tests p)) = 1%nat) /\
  (forall size zindex, 0 <= size -> 0 <= zindex ->
    makes TPvbuf ptype (fun p => a ← xdp2_pvbuf_get_size_from_paddr p; b ← xdp2_pvbuf_index_from_paddr p; mret (a, b)) (size, zindex)
      (xdp2_pvbuf_make_paddr size zindex)) /\
  (forall (one_ref : bool) shift zindex offset len, 0 <= zindex -> 0 <= offset < 2 ^ shift -> 0 <= len ->
    makes (if one_ref then TPbuf1ref else TPbuf) ptype
      (fun p => a ← xdp2_pbuf_size_from_paddr p; b ← xdp2_pbuf_get_offset_from_paddr p; mret (a, b)) (2 ^ shift, zindex * 2 ^ shift + offset)
      (xdp2_pbuf_make_paddr one_ref shift zindex offset len)) /\
  (forall tag offset, 0 <= offset ->
    makes TShort ptype (fun p => a ← xdp2_paddr_short_addr_get_mem_region_from_paddr p; b ← xdp2_paddr_short_addr_get_offset_from_paddr p; mret (a, b))
      (tag, offset) (xdp2_paddr_short_addr_make_paddr tag offset)) /\
  (forall region offset, 0 <= region -> 0 <= offset < 2 ^ 64 ->
    makes TLong (fun p => ptype (fst p))
      (fun p => a ← xdp2_paddr_long_addr_get_mem_region_from_paddr (fst p) (snd p); b ← xdp2_paddr_long_addr_get_offset_from_paddr (fst p) (snd p); mret (a, b))
      (region mod 64, offset) (xdp2_paddr_long_addr_make_paddr region offset)).
Proof.
  split_and!; [apply paddr_tests_one | intros size z Hs Hz p E | intros r sh z o l Hz Ho Hl p E | intros t o Ho p E | intros r o Hr Ho [p1 p2] E].
  - by destruct (pvbuf_make_get size z p Hs Hz E) as (-> & -> & ->).
  - by destruct (pbuf_make_get r sh z o l p Hz Ho Hl E) as (-> & -> & ->).
  - by destruct (short_make_get t o p Ho E) as (-> & -> & ->).
  - cbn [fst snd]. by destruct (long_make_get r o p1 p2 Hr Ho E) as (-> & -> & ->).
Qed.

(** ** Packet vectors: what the code does not do

    Inputs on which operations on packet vectors stop at an assertion, read behind
    an array or return another result than their comments say. *)

(** The state and the result of a computation that succeeds. *)
Definition st_of {A} (m : pvm A) (s : xdp2_pvbuf_mgr) : xdp2_pvbuf_mgr := match m s with Done (s, _) => s | _ => s end.

(** The manager of [PvbufProps] after another pvbuf, number 2, was allocated. *)
Definition pv2 : Z := Z.shiftl 1 60 + Z.shiftl 2 32.
Definition ex_s2 : xdp2_pvbuf_mgr := st_of (___xdp2_pvbuf_alloc 0 true) ex_s.

(** Joining an empty packet with compression: the comparison with 1 is assigned to
    the weight, which is never 0, and the iovec behind the last one is read. *)
Lemma compress_empty_crashes :
  xdp2_pvbuf_prepend_pvbuf ex_random 4 pv0 pv2 0 true ex_s2 = Crash /\ xdp2_pvbuf_append_pvbuf ex_random 4 pv0 pv2 0 true ex_s2 = Crash.
Proof. split; vm_compute; reflexivity. Qed.

(** A packet of two buffers of 3 and 50 bytes. *)
Definition ex_odd : xdp2_pvbuf_mgr :=
  st_of (_ ← __xdp2_pvbuf_append_paddr ex_random 4 pv2 short_a 0 3 false; __xdp2_pvbuf_append_paddr ex_random 4 pv2 short_b 0 50 false) ex_s2.

(** The checksum of at most 5 bytes of it: the odd byte is not taken from the limit,
    so that with a third buffer a byte more than the limit is summed. *)
Definition ex_odd3 : xdp2_pvbuf_mgr := st_of (__xdp2_pvbuf_append_paddr ex_random 4 pv2 short_a 0 20 false) ex_odd.

Lemma checksum_limit_odd :
  exists bs, pkt_data ex_conf ex_mem [leaf_a] = Some bs /\
    __xdp2_pvbuf_checksum 4 pv2 54 0 ex_odd3 <> Done (ex_odd3, checksum_ref (take 3 bs ++ map (fun i => Z.of_nat i mod 256) (seq 500 50) ++ take 1 bs)) /\
    __xdp2_pvbuf_checksum 4 pv2 54 0 ex_odd3 = Done (ex_odd3, checksum_ref (take 3 bs ++ map (fun i => Z.of_nat i mod 256) (seq 500 50) ++ take 2 bs)).
Proof. eexists. split; [exact ex_pkt_data |]. split; [vm_compute; discriminate | vm_compute; reflexivity]. Qed.

(** Two pbufs of 256 bytes. *)
Definition ex_pbuf_table : list pbuf_allocator_entry := replicate 3 (PbEntry 256 0 8 0 0x1400 255 (Some 2) None) ++ replicate 12 (PbEntry 0 256 0 8 0 0 None (Some 2)).
Definition ex_pbufs : xdp2_pvbuf_mgr :=
  Mgr (MgrConf false false 0 ex_pbuf_table [0; 0x1000; 0; 0] [] [(false, false); (true, true)] [])
    (mpv ex_s) (PbSide {[2 := PAlloc (OAlloc 2 [0; 1]) [0; 0]]} (list_to_map (map (fun i => (0x1000 + Z.of_nat i, Z.of_nat i mod 256)) (seq 0 1536))) [] (MgrStats 0 0 0 0 0)).

(** Joining the two packets and pulling up bytes of both; pulling up more bytes than
    there are stops at an assertion, where the comment promises the length. *)
Lemma pullup_short_crashes :
  let s := st_of (xdp2_pvbuf_append_pvbuf ex_random 4 pv0 pv1 50 false) ex_pbufs in
  (exists s', xdp2_pvbuf_pullup ex_random 4 pv0 150 false s = Done (s', Some 0x1400)) /\ xdp2_pvbuf_pullup ex_random 4 pv0 200 false s = Crash.
Proof. split; [eexists |]; vm_compute; reflexivity. Qed.

(** A packet of nine buffers of 50 bytes in two pvbufs. *)
Definition ex_nine : xdp2_pvbuf_mgr :=
  st_of (_ ← ___xdp2_pvbuf_alloc 0 true; foldr (fun (_ : nat) m => _ ← __xdp2_pvbuf_append_paddr ex_random 4 pv2 short_b 0 50 false; m) (mret tt) (seq 0 9))
    (Mgr ex_conf (PvSide ex_heap (PvEntry (Some (OAlloc 8 [2; 3; 4; 5; 6; 7])) 0 :: replicate 15 (PvEntry None 0)) 0) ex_pb).

(** Cloning it; when more bytes are asked for than there are, the lengths of the
    pvbufs of the clone are repaired with the function for pbufs, which asserts. *)
Lemma clone_fixup_crashes :
  (exists s', __xdp2_pvbuf_clone ex_random 4 pv2 0 450 ex_nine = Done (s', (Some (pv0 + Z.shiftl 4 32), 450))) /\
  __xdp2_pvbuf_clone ex_random 4 pv2 0 451 ex_nine = Crash.
Proof. split; [eexists |]; vm_compute; reflexivity. Qed.

(** The first buffer that is prepended to a new pvbuf goes to its last iovec. The
    address of a buffer there is read together with the iovec behind it, which is
    outside the pvbuf: the checksum, copying out and removing headers do it. *)
Lemma last_iovec_read_past :
  let s := st_of (__xdp2_pvbuf_prepend_paddr ex_random 4 pv2 short_a 0 100 false) ex_s2 in
  heap s !! key_of pv2 = Some (mk [0; 0; 0; 0; 0; 0; short_a + 99]) /\
  __xdp2_pvbuf_checksum 4 pv2 0 0 s = Crash /\ __xdp2_pvbuf_copy_pvbuf_to_data 4 pv2 0x1100 60 0 s = Crash /\
  xdp2_pvbuf_pop_hdrs 4 pv2 30 false s = Crash /\ xdp2_pvbuf_pop_trailers 4 pv2 30 false s = Crash.
Proof. split_and!; vm_compute; reflexivity. Qed.

(** A manager with pvbufs of one size only. *)
Definition ex_sized (size : nat) : xdp2_pvbuf_mgr :=
  Mgr (MgrConf false false (Z.of_nat size) [] [0; 0x1000; 0; 0] [] [(false, false); (true, true)] [])
    (PvSide ∅ (replicate size (PvEntry None 0) ++ PvEntry (Some (OAlloc 2 [0; 1])) 0 :: replicate (15 - size) (PvEntry None 0)) 0) ex_pb.

(** A new pvbuf with one prepended buffer. *)
Definition ex_prepended (size : nat) : pvm Z :=
  r ← ___xdp2_pvbuf_alloc (Z.of_nat size) true;
  '(p, _) ← lift (deref r); _ ← __xdp2_pvbuf_prepend_paddr ex_random 4 p short_a 0 100 false; mret p.

(** Pvbufs of the sizes 8 to 15 have 64 iovecs. The search behind iovec 63, where
    the first prepended buffer goes, shifts the 64-bit map by 64: a pvbuf of such a
    size cannot be freed with a buffer there. With 63 iovecs it can. *)
Lemma iovec_63_crashes :
  match ex_prepended 7 (ex_sized 7) with Done (s, p) => __xdp2_pvbuf_free 4 p s <> Crash /\ __xdp2_pvbuf_free 4 p s <> NoFuel | _ => False end /\
  Forall (fun size => match ex_prepended size (ex_sized size) with Done (s, p) => __xdp2_pvbuf_free 4 p s = Crash | _ => False end) (seq 8 8).
Proof.
  split; [vm_compute; split; discriminate |].
  repeat (apply Forall_cons_2; [vm_compute; reflexivity |]). apply Forall_nil_2.
Qed.
