(* ===== verification/PvbufPopData.v ===== *)
(** * Packet vectors: the data that removing leaves

    The bytes of a packet after headers or trailers are removed, and the theorem
    on the two functions. *)

From stdpp Require Import base list gmap numbers.
From S2P Require Import Prelude BitmapWord BitmapWordSpec Memory Bytes Paddr Pvbuf PvbufEdit PvbufPop PvbufIter PvbufMap PvbufRep PvbufInv PvbufRead PvbufCopy PvbufInsert PvbufJoin PvbufPopStep PvbufPopProps PvbufProps.

(** ** Buffers *)

(** The offset of a buffer in its region, and the width of that field. *)
Definition leaf_offset (l : leaf) : Z :=
  match ptype (fst l) with
  | TPbuf | TPbuf1ref => bf_get pbuf_offset (fst l)
  | TShort => bf_get short_offset (fst l)
  | TLong => Z.lor (Z.shiftl (bf_get long_high_offset (fst l)) 48) (bf_get long2_low_offset (snd l))
  | TPvbuf => 0
  end.

Definition offset_width (l : leaf) : Z := match ptype (fst l) with TPbuf | TPbuf1ref => 36 | TShort => 44 | _ => 64 end.

(** The end of the buffer has an offset. *)
Definition in_region (l : leaf) : Prop := leaf_offset l + leaf_len l <= 2 ^ offset_width l.

(** The start of the region. *)
Definition leaf_base (c : mgr_conf) (l : leaf) : option Z :=
  match ptype (fst l) with
  | TPbuf | TPbuf1ref => e ← table_get (owner_tag (bf_get pbuf_buffer_tag (fst l))) (pbuf_allocator_table c); Some (pbuf_base e)
  | TShort => table_get (bf_get short_paddr_tag (fst l)) (short_addr_base c)
  | TLong => table_get (bf_get long_memory_region (fst l)) (long_addr_base c)
  | TPvbuf => None
  end.

Lemma leaf_addr_base c l : leaf_addr c l = (b ← leaf_base c l; Some (u64 (b + leaf_offset l))).
Proof. unfold leaf_addr, leaf_base, leaf_offset. destruct (ptype (fst l)); [reflexivity | | | reflexivity | reflexivity]; by destruct (table_get _ (pbuf_allocator_table c)). Qed.

Lemma lor_halves x : 0 <= x -> Z.lor (Z.shiftl (Z.shiftr x 48) 48) (Z.land x (Z.ones 48)) = x.
Proof.
  intros Hx. apply Z.bits_inj'. intros i Hi. rewrite Z.lor_spec, Z.shiftl_spec, Z.land_spec by lia.
  destruct (Z.lt_ge_cases i 48).
  - rewrite Z.testbit_neg_r by lia. rewrite Z.ones_spec_low by lia. by rewrite andb_true_r.
  - rewrite Z.shiftr_spec, Z.ones_spec_high by lia. rewrite andb_false_r, orb_false_r. f_equal. lia.
Qed.

Lemma moved_pbuf n p : ptype p = TPbuf \/ ptype p = TPbuf1ref -> 0 <= bf_get pbuf_offset p + n < 2 ^ 36 ->
  let q := shorten n (bf_set pbuf_offset (bf_get pbuf_offset p + n) p) in bf_get pbuf_buffer_tag q = bf_get pbuf_buffer_tag p /\ bf_get pbuf_offset q = bf_get pbuf_offset p + n.
Proof.
  intros Hp Hr q. set (v := bf_get pbuf_offset p + n) in *. pose proof (bf_set_tag pbuf_offset v p ltac:(field_side) ltac:(cbn; lia)) as Ht.
  assert (is_buf (bf_set pbuf_offset v p)) as Hb by (unfold is_buf; rewrite Ht; destruct Hp; auto). unfold q. split.
  - rewrite shorten_buf_get; [| field_side | exact Hb | cbn; lia]. apply bf_get_set_other; field_side.
  - rewrite shorten_buf_get; [| field_side | exact Hb | cbn; lia]. apply bf_get_set_small; [field_side | exact Hr].
Qed.

Lemma cut_head_addr c n l : leaf_ok l -> in_region l -> 0 <= n < leaf_len l ->
  leaf_base c (cut_head n l) = leaf_base c l /\ leaf_offset (cut_head n l) = leaf_offset l + n.
Proof.
  intros Ho Hin Hn. pose proof (cut_ok cut_head n l cuts_head Ho) as (_ & _ & Ht). unfold leaf_base, leaf_offset, in_region, leaf_offset, offset_width in *.
  rewrite Ht. destruct l as [p p2]. unfold cut_head. cbn [fst snd] in *. destruct (ptype p) eqn:E; [by exfalso; unfold leaf_ok in Ho; cbn [fst] in Ho; rewrite E in Ho | | | |].
  1, 2: pose proof (bf_get_nonneg pbuf_offset p ltac:(field_side)) as Hr; destruct (moved_pbuf n p) as [E1 E2]; [first [left; exact E | right; exact E] | clear - Hin Hn Hr; lia |];
    cbn [fst]; rewrite E1, E2; split; reflexivity.
  - pose proof (bf_get_range short_offset p ltac:(field_side)) as Hr. cbn [fst]. set (q := bf_set short_offset (bf_get short_offset p + n) p).
    assert (ptype q = TShort) as Hq by (unfold q; by apply offset_short). unfold shorten. rewrite Hq.
    rewrite !(bf_get_set_other short_data_length) by field_side. unfold q. rewrite (bf_get_set_other short_offset short_paddr_tag) by field_side.
    rewrite bf_get_set_small by (field_side || (cbn; lia)). split; reflexivity.
  - cbn [fst snd]. set (o := Z.lor _ _) in *. set (o' := u64 (o + n)).
    assert (0 <= o) as Ho0.
    { apply Z.lor_nonneg. split; [apply Z.shiftl_nonneg |]; apply bf_get_nonneg; field_side. }
    assert (o' = o + n) as Eo by (unfold o', u64; rewrite Z.mod_small; lia).
    rewrite !shorten_get by (field_side || (cbn; lia)). rewrite (bf_get_set_other long_high_offset long_memory_region) by field_side.
    rewrite bf_get_set_small; [| field_side | cbn; rewrite Z.shiftr_div_pow2 by lia; split; [apply Z.div_pos; lia | apply Z.div_lt_upper_bound; lia]].
    rewrite bf_get_set_small; [| field_side | cbn; rewrite Z.land_ones by lia; apply Z.mod_pos_bound; lia].
    split; [reflexivity |]. rewrite lor_halves by lia. exact Eo.
Qed.

Lemma leaf_data_addr c m l b : leaf_data c m l = Some b -> exists a, leaf_addr c l = Some a.
Proof. unfold leaf_data. intros H. destruct (leaf_addr c l) as [a |]; [exists a; reflexivity | discriminate]. Qed.

Lemma cut_head_data c m n l b : leaf_ok l -> in_region l -> 0 <= n < leaf_len l -> leaf_data c m l = Some b -> leaf_data c m (cut_head n l) = Some (drop (Z.to_nat n) b).
Proof.
  intros Ho Hin Hn Hb. destruct (leaf_nonzero _ Ho) as [_ Ht]. pose proof (cut_len _ cuts_head n l Ht Hn) as El. destruct (cut_head_addr c n l Ho Hin Hn) as [Eb Eo].
  destruct (leaf_data_addr _ _ _ _ Hb) as [a Ha].
  destruct (leaf_data_inv _ _ _ _ _ Hb Ha) as (Hmem & Hlen & Hmax & Ha0). unfold leaf_data. rewrite leaf_addr_base, Eb, Eo, El. rewrite leaf_addr_base in Ha.
  destruct (leaf_base c l) as [base |]; [| discriminate]. cbn in Ha |- *. injection Ha as Ea.
  assert (u64 (base + (leaf_offset l + n)) = a + n) as ->.
  { unfold u64 in *. rewrite Z.add_assoc, <- Zplus_mod_idemp_l, Ea. apply Z.mod_small. lia. }
  destruct (Z.leb_spec (a + n + (leaf_len l - n)) (2 ^ 64)); [| lia].
  pose proof (mem_bytes_drop _ (Z.to_nat n) _ _ _ Hmem ltac:(lia)) as Hd.
  replace (Z.to_nat (leaf_len l) - Z.to_nat n)%nat with (Z.to_nat (leaf_len l - n)) in Hd by lia. rewrite Z2Nat.id in Hd by lia. by rewrite Hd.
Qed.

(** Cutting the end does not move a buffer. *)
Lemma cut_tail_addr c n l : leaf_ok l -> leaf_base c (cut_tail n l) = leaf_base c l /\ leaf_offset (cut_tail n l) = leaf_offset l.
Proof.
  intros Ho. pose proof (cut_ok cut_tail n l cuts_tail Ho) as (_ & _ & Ht). unfold leaf_base, leaf_offset. rewrite Ht. destruct l as [p p2]. unfold cut_tail. cbn [fst snd].
  destruct (ptype p) eqn:E; [split; reflexivity | | | |].
  1, 2: rewrite !shorten_buf_get by (field_side || (cbn; lia) || (unfold is_buf; rewrite E; clear; auto)); split; reflexivity.
  - unfold shorten. rewrite E. rewrite !(bf_get_set_other short_data_length) by field_side. split; reflexivity.
  - rewrite !shorten_get by (field_side || (cbn; lia)). split; reflexivity.
Qed.

Lemma cut_tail_data c m n l b : leaf_ok l -> 0 <= n < leaf_len l -> leaf_data c m l = Some b ->
  leaf_data c m (cut_tail n l) = Some (take (length b - Z.to_nat n) b).
Proof.
  intros Ho Hn Hb. destruct (leaf_nonzero _ Ho) as [_ Ht]. pose proof (cut_len _ cuts_tail n l Ht Hn) as El. destruct (cut_tail_addr c n l Ho) as [Eb Eo].
  destruct (leaf_data_addr _ _ _ _ Hb) as [a Ha].
  destruct (leaf_data_inv _ _ _ _ _ Hb Ha) as (Hmem & Hlen & Hmax & Ha0). unfold leaf_data. rewrite leaf_addr_base, Eb, Eo, El, <- leaf_addr_base, Ha. cbn.
  destruct (Z.leb_spec (a + (leaf_len l - n)) (2 ^ 64)); [| lia].
  replace (Z.to_nat (leaf_len l - n)) with (length b - Z.to_nat n)%nat by lia. rewrite (mem_bytes_take _ _ _ _ _ Hmem) by lia. reflexivity.
Qed.

(** ** Packets *)

Lemma pkt_data_app c m l1 l2 b1 b2 : pkt_data c m l1 = Some b1 -> pkt_data c m l2 = Some b2 -> pkt_data c m (l1 ++ l2) = Some (b1 ++ b2).
Proof.
  revert b1. induction l1 as [| l l1 IH]; intros b1 H1 H2; [by injection H1 as <- |]. apply pkt_data_cons in H1 as (b & r & Hb & Hr & ->).
  apply pkt_data_cons. exists b, (r ++ b2). rewrite app_assoc. auto.
Qed.

Lemma pkt_data_app_inv c m l1 l2 bs : pkt_data c m (l1 ++ l2) = Some bs -> exists b1 b2, pkt_data c m l1 = Some b1 /\ pkt_data c m l2 = Some b2 /\ bs = b1 ++ b2.
Proof.
  revert bs. induction l1 as [| l l1 IH]; intros bs H; [by exists [], bs |]. apply pkt_data_cons in H as (b & r & Hb & Hr & ->).
  destruct (IH r Hr) as (b1 & b2 & H1 & H2 & ->). exists (b ++ b1), b2. rewrite app_assoc. split_and!; [| done | done]. apply pkt_data_cons. eauto.
Qed.

Lemma leaf_data_length c m l b : leaf_data c m l = Some b -> Z.of_nat (length b) = leaf_len l.
Proof. intros Hb. destruct (leaf_data_addr _ _ _ _ Hb) as [a Ha]. by destruct (leaf_data_inv _ _ _ _ _ Hb Ha) as (_ & ? & _). Qed.

Lemma pkt_data_length c m ls bs : pkt_data c m ls = Some bs -> Z.of_nat (length bs) = total ls.
Proof.
  revert bs. induction ls as [| l ls IH]; intros bs H; [by injection H as <- |]. apply pkt_data_cons in H as (b & r & Hb & Hr & ->).
  apply leaf_data_length in Hb. apply IH in Hr. rewrite length_app. cbn. lia.
Qed.

Lemma trim_head_data c m ls : Forall leaf_ok ls -> Forall in_region ls -> forall n bs, 0 <= n -> pkt_data c m ls = Some bs ->
  pkt_data c m (trim cut_head n ls) = Some (drop (Z.to_nat n) bs).
Proof.
  induction ls as [| l ls IH]; intros Ho Hr n bs Hn Hd; [injection Hd as <-; cbn; by rewrite drop_nil |].
  apply Forall_cons_1 in Ho as [Ho Hos], Hr as [Hr Hrs]. pose proof Hd as Hd0. apply pkt_data_cons in Hd as (b & r & Hb & Hd & ->). cbn [trim].
  pose proof (leaf_data_length _ _ _ _ Hb) as Hl. destruct (Z.leb_spec n 0); [by replace (Z.to_nat n) with 0%nat by lia |].
  destruct (Z.leb_spec (leaf_len l) n).
  - rewrite (IH Hos Hrs (n - leaf_len l) r) by (lia || exact Hd). rewrite drop_app, (drop_ge b) by lia. cbn. f_equal. f_equal. lia.
  - apply pkt_data_cons. exists (drop (Z.to_nat n) b), r. split_and!; [apply cut_head_data; (assumption || lia) | exact Hd |].
    rewrite drop_app. by replace (Z.to_nat n - length b)%nat with 0%nat by lia.
Qed.

Lemma trim_tail_data c m ls : Forall leaf_ok ls -> forall n bs, 0 <= n -> pkt_data c m ls = Some bs ->
  pkt_data c m (rev (trim cut_tail n (rev ls))) = Some (take (length bs - Z.to_nat n) bs).
Proof.
  induction ls as [| l ls IH] using rev_ind; intros Ho n bs Hn Hd; [injection Hd as <-; reflexivity |].
  apply Forall_app in Ho as [Hos Ho]. apply Forall_cons_1 in Ho as [Ho _]. rewrite rev_app_distr. cbn [rev app trim]. pose proof Hd as Hd0.
  apply pkt_data_app_inv in Hd as (r & b & Hd & Hb & ->). apply pkt_data_cons in Hb as (b' & r' & Hb & [= <-] & ->). rewrite app_nil_r in *.
  pose proof (leaf_data_length _ _ _ _ Hb) as Hl. rewrite length_app. destruct (Z.leb_spec n 0).
  - cbn [rev]. rewrite rev_involutive. replace (length r + length b' - Z.to_nat n)%nat with (length (r ++ b')) by (rewrite length_app; lia). by rewrite firstn_all.
  - destruct (Z.leb_spec (leaf_len l) n).
    + rewrite (IH Hos (n - leaf_len l) r) by (lia || exact Hd). rewrite take_app. f_equal.
      replace (length r + length b' - Z.to_nat n - length r)%nat with 0%nat by lia. cbn. rewrite app_nil_r. f_equal. lia.
    + cbn [rev]. rewrite rev_involutive. rewrite take_app, (take_ge r) by lia. apply pkt_data_app; [exact Hd |].
      apply pkt_data_cons. eexists _, []. split_and!; [apply cut_tail_data; [exact Ho | lia | exact Hb] | reflexivity |]. rewrite app_nil_r. f_equal. lia.
Qed.

(** ** Removing headers and trailers *)

(** [f] returns [r], the packet [p] has the bytes [bs] of the memory [m] and the
    buffers [L] are freed, in some order. The other packets do not change. *)
Definition popped (s : xdp2_pvbuf_mgr) (p : Z) (d : nat) (ks : gset pvptr) (m : memory) (bs : list Z) (L : list leaf) (r : Z) (f : pvm Z) : Prop :=
  exists s' ls' ks', f s = Done (s', r) /\ pv_inv s' /\ pv_step s s' ks ks' /\ rep (heap s') d p ls' ks' /\
    pkt_data (mconf s') m ls' = Some bs /\ freed (mconf s) L (mpb s) (mpb s').

Lemma popped_post e s n p d ls ks m bs bs' (f : pvm (Z * option Z)) :
  wps f s (pop_post e s n p d ls ks) -> pkt_data (mconf s) m ls = Some bs -> pkt_data (mconf s) m (e_trim e n ls) = Some bs' ->
  popped s p d ks m bs' (e_gone e n ls) (Z.min n (Z.of_nat (length bs))) (r ← f; mret (fst r)).
Proof.
  intros H Hd Hd'. apply wps_done in H as (s' & r & E & -> & Hi & Hf & ks' & Hst & Hr). exists s', (e_trim e n ls), ks'.
  rewrite (pkt_data_length _ _ _ _ Hd), (step_conf _ _ _ _ Hst). split_and!; try assumption. unfold mbind, pvm_bind. rewrite E. reflexivity.
Qed.

(** C10: removing headers and trailers. In a manager whose pvbufs have the sizes 0
    to 7, so that they have at most 63 iovecs ([pool_ok]), for a packet whose
    buffers are not empty and end inside the range of offsets of their regions, and
    in which no pvbuf has a pbuf or a short address in its last iovec ([lasts_ok];
    the code reads the iovec behind it, [last_iovec_read_past]),
    [xdp2_pvbuf_pop_hdrs] removes the first [n] bytes and [xdp2_pvbuf_pop_trailers]
    the last [n], with or without compression, and both return how many bytes were
    removed: [n], or the length of the packet when it is shorter. The buffers that
    lie in the removed part are freed and only those, the pvbufs that are not
    needed any more go back to their pools, the packet is still a tree of pvbufs
    whose bytes are the rest, and the other packets do not change. *)
Theorem pvbuf_pop_ok fuel d p ls ks s n compress m bytes :
  pv_inv s -> rep (heap s) d p ls ks -> (d < fuel)%nat -> lasts_ok (heap s) ks -> 0 <= n -> positive ls -> Forall in_region ls -> pkt_data (mconf s) m ls = Some bytes ->
  (freeable (mconf s) (gone n ls) (mpb s) ->
   popped s p d ks m (drop (Z.to_nat n) bytes) (gone n ls) (Z.min n (Z.of_nat (length bytes))) (xdp2_pvbuf_pop_hdrs fuel p n compress)) /\
  (freeable (mconf s) (rev (gone n (rev ls))) (mpb s) ->
   popped s p d ks m (take (length bytes - Z.to_nat n) bytes) (rev (gone n (rev ls))) (Z.min n (Z.of_nat (length bytes))) (xdp2_pvbuf_pop_trailers fuel p n compress)).
Proof.
  intros Hinv Hrep Hd Hlo Hn Hpos Hreg Hb. pose proof Hrep as (_ & ws & k1 & _ & Hs & _). pose proof (segs_leaf_ok _ _ _ _ _ Hs) as Hok.
  pose proof (pkt_data_addr _ _ _ _ Hb) as Ha. split; intros Hf.
  - apply (popped_post front s n p d ls ks m bytes); [| exact Hb | exact (trim_head_data _ _ _ Hok Hreg n bytes Hn Hb)].
    apply (pop_hdrs_wps compress fuel d p ls ks s n Hinv Hrep Hd Hlo). split; assumption.
  - apply (popped_post back s n p d ls ks m bytes); [| exact Hb | exact (trim_tail_data _ _ _ Hok n bytes Hn Hb)].
    apply (pop_trailers_wps compress fuel d p ls ks s n Hinv Hrep Hd Hlo). split; assumption.
Qed.

(** Thirty of the 100 bytes of pvbuf 0. *)
Lemma pvbuf_pop_ok_witness :
  popped ex_s pv0 0 {[key_of pv0]} ex_mem (map (fun i => Z.of_nat i) (seq 38 70)) [] 30 (xdp2_pvbuf_pop_hdrs 1 pv0 30 true) /\
  popped ex_s pv0 0 {[key_of pv0]} ex_mem (map (fun i => Z.of_nat i) (seq 8 70)) [] 30 (xdp2_pvbuf_pop_trailers 1 pv0 30 true).
Proof.
  destruct (pvbuf_pop_ok 1 0 pv0 [leaf_a] {[key_of pv0]} ex_s 30 true ex_mem ex_data) as [H1 H2];
    [apply ex_inv | apply ex_rep0 | lia | apply ex_lasts | lia | apply Forall_cons_2; [reflexivity | apply Forall_nil_2] | apply Forall_cons_2; [vm_compute; discriminate | apply Forall_nil_2] | exact ex_pkt_data |].
  assert (freeable ex_conf [] ex_pb) as Hf by (intros L' HL; apply Permutation_nil_r in HL as ->; exists ex_pb; apply frees_nil).
  split; [exact (H1 Hf) | exact (H2 Hf)].
Defined.
