(* ===== verification/Vstruct.v ===== *)
(** * Variable structures

    [lib/xdp2/vstruct.c] and the macros of [include/xdp2/vstruct.h]: a structure
    followed by arrays whose sizes are known at run time. A definition map has the
    number of elements, the size of an element and the alignment of each array,
    from which the offsets of the arrays are computed.

    The output of the print functions is a list of lines, with the values that the
    formats have as arguments. *)

From stdpp Require Import base list strings numbers.
From S2P Require Import Prelude Memory.

(** ** Data *)

Record xdp2_vstruct_def_entry := DefEntry {
  num_els : Z;
  struct_size : Z;
  align : Z;
  ename : string }.

(** [num_els] of the generic definition map is the length of the list. *)
Abbreviation def_vsmap := (list xdp2_vstruct_def_entry).
Abbreviation vsmap := (list Z).

(** [utility.h]. *)
Definition xdp2_round_up (x r : Z) : Z :=
  let diff := u32 (x mod r) in
  if negb (diff =? 0) then u64 (x + u32 (r - diff)) else x.

(** The product is an [unsigned int]. *)
Definition all_size (e : xdp2_vstruct_def_entry) : Z := u32 (num_els e * struct_size e).

(** ** Offsets *)

Fixpoint xdp2_vstruct_instantiate_vsmap (es : def_vsmap) (offset : Z) : vsmap * Z :=
  match es with
  | [] => ([], offset)
  | e :: es =>
    let offset := if negb (align e =? 0) then xdp2_round_up offset (align e) else offset in
    let '(offs, size) := xdp2_vstruct_instantiate_vsmap es (u64 (offset + all_size e)) in
    (u32 offset :: offs, size)
  end.

(** The index of the first entry with the name; [None] is NULL and index -1. *)
Fixpoint find_def_entry_from (i : Z) (es : def_vsmap) (name : string) : option (xdp2_vstruct_def_entry * Z) :=
  match es with
  | [] => None
  | e :: es => if String.eqb (ename e) name then Some (e, i) else find_def_entry_from (i + 1) es name
  end.
Definition xdp2_vstruct_find_def_entry (es : def_vsmap) (name : string) : option (xdp2_vstruct_def_entry * Z) := find_def_entry_from 0 es name.

(** The number of entries and [_zero_count]. *)
Definition xdp2_vstruct_count_vsmap (es : def_vsmap) : Z * Z :=
  let zero_count := fold_left (fun c e => if negb (num_els e =? 0) then u32 (c + 1) else c) es 0 in
  (Z.of_nat (length es), zero_count).

(** ** Printing *)

Inductive line :=
| PrNoDef (offset rel : Z)
| PrWarn (name : string)
| PrLong (indent name : string) (all n al sz offset rel : Z)
| PrCsv (indent name : string) (all n al sz offset rel : Z)
| PrShort (indent name : string) (offset rel : Z)
| PrCount (indent name : string) (count total : Z)
| PrFields (indent name : string) (count : Z)
| PrLabel
| PrLabelNoDef.

(** [vs] and [def] are NULL when they are [None]; [label] is not used. *)
Definition xdp2_vstruct_print_one (indent : string) (vs : option vsmap) (def : option def_vsmap) (index offset : Z) (vsmap_name : string)
    (base_offset : Z) (no_zero_size short_output csv : bool) : outcome (list line) :=
  let rel_offset := u32 (offset - base_offset) in
  match def with
  | None => mret [PrNoDef offset rel_offset]
  | Some es =>
    found ← (if 0 <=? index then e ← deref (es !! Z.to_nat index); mret (Some (e, index)) else mret (xdp2_vstruct_find_def_entry es vsmap_name));
    match found with
    | None => mret [PrWarn vsmap_name]
    | Some (e, index) =>
      _ ← match vs with
          | None => mret tt
          | Some offs =>
            oi ← deref (offs !! Z.to_nat index);
            o0 ← deref (offs !! 0%nat);
            XDP2_ASSERT (u32 (oi - o0) =? u32 (offset - base_offset))
          end;
      if no_zero_size && (num_els e =? 0) then mret [] else
      if negb csv then mret [PrLong indent (ename e) (all_size e) (num_els e) (align e) (struct_size e) offset rel_offset]
      else if negb short_output then mret [PrCsv indent (ename e) (all_size e) (num_els e) (align e) (struct_size e) offset rel_offset]
      else mret [PrShort indent (ename e) offset rel_offset]
    end
  end.

Fixpoint print_from (i : Z) (n : nat) (indent : string) (es : def_vsmap) (offs : vsmap) (vsmap_name : string) (base_offset : Z)
    (no_zero_size short_output csv : bool) : outcome (list line) :=
  match n with
  | O => mret []
  | S n =>
    o ← deref (offs !! Z.to_nat i);
    l ← xdp2_vstruct_print_one indent (Some offs) (Some es) i o vsmap_name base_offset no_zero_size short_output csv;
    r ← print_from (i + 1) n indent es offs vsmap_name base_offset no_zero_size short_output csv;
    mret (l ++ r)
  end.

(** The map of offsets is read also when its pointer is NULL, and the definition
    map is read outside of the test for NULL. *)
Definition xdp2_vstruct_print_vsmap (indent : string) (def : option def_vsmap) (vs : option vsmap) (vsmap_name : string) (base_offset : Z)
    (no_zero_size short_output csv label : bool) : outcome (list line) :=
  head ← match no_zero_size, def with
         | true, Some es =>
           mret (if negb short_output && negb csv
                 then [PrCount indent vsmap_name (Z.of_nat (length (filter (fun e => num_els e <> 0) es))) (Z.of_nat (length es))] else [])
         | _, _ =>
           if negb short_output && negb csv then es ← deref def; mret [PrFields indent vsmap_name (Z.of_nat (length es))] else mret []
         end;
  let names := if csv && label then match def with Some _ => [PrLabel] | None => [PrLabelNoDef] end else [] in
  es ← deref def;
  rest ← match es with
         | [] => mret []
         | _ => offs ← deref vs; print_from 0 (length es) indent es offs vsmap_name base_offset no_zero_size short_output csv
         end;
  mret (head ++ names ++ rest).

(** ** The macros *)

(** A field of a variable structure: its name, the sizes of the types and the
    expressions for the number of elements and the alignment, which can use the
    configuration. *)
Record vfield (config : Type) := VField {
  v_name : string;
  v_alloc_size : Z;
  v_cast_align : Z;
  v_num_els : config -> Z;
  v_align : config -> Z }.
Arguments VField {config}. Arguments v_name {config}. Arguments v_alloc_size {config}. Arguments v_cast_align {config}.
Arguments v_num_els {config}. Arguments v_align {config}.

Section Macros.
Context {config : Type}.

Definition __XDP2_VSTRUCT_VFIELD_STRUCT_SET_ENTRY (c : config) (f : vfield config) : xdp2_vstruct_def_entry :=
  DefEntry (v_num_els f c) (v_alloc_size f) (if negb (v_align f c =? 0) then v_align f c else v_cast_align f) (v_name f).

(** The maps and the size. *)
Definition instantiate_vsmap_from_config (c : config) (fs : list (vfield config)) (base_struct_size : Z) : vsmap * def_vsmap * Z :=
  let es := map (__XDP2_VSTRUCT_VFIELD_STRUCT_SET_ENTRY c) fs in
  let '(offs, size) := xdp2_vstruct_instantiate_vsmap es base_struct_size in (offs, es, size).

Definition get_size_from_config (c : config) (fs : list (vfield config)) (base_struct_size : Z) : Z :=
  snd (instantiate_vsmap_from_config c fs base_struct_size).

(** [_count_vsconst] of the structure with constant sizes. *)
Definition count_vsconst (c : config) (fs : list (vfield config)) : Z * Z :=
  fold_left (fun '(all, zero) f => (u32 (all + 1), if v_num_els f c * v_alloc_size f =? 0 then u32 (zero + 1) else zero)) fs (0, 0).
End Macros.

(** The address of an array of the structure at [p]. *)
Definition XDP2_VSTRUCT_GETPTR_VSMAP (p : Z) (offs : vsmap) (i : nat) : outcome Z := o ← deref (offs !! i); mret (u64 (p + o)).

(** ** The layout *)

Definition entry_ok (e : xdp2_vstruct_def_entry) : Prop := 0 <= num_els e < 2 ^ 32 /\ 0 <= struct_size e < 2 ^ 32 /\ 0 <= align e < 2 ^ 32.

(** The number of bytes of the array. *)
Definition array_size (e : xdp2_vstruct_def_entry) : Z := num_els e * struct_size e.

(** The first offset from [lo] on that the array can have. *)
Definition place (e : xdp2_vstruct_def_entry) (lo : Z) : Z := if align e =? 0 then lo else lo + (- lo) mod align e.

(** The end of the last array, when nothing wraps around. *)
Fixpoint extent (es : def_vsmap) (lo : Z) : Z := match es with [] => lo | e :: es => extent es (place e lo + array_size e) end.

Lemma place_spec e lo : 0 <= align e -> lo <= place e lo /\ (align e = 0 -> place e lo = lo) /\ (align e <> 0 -> (align e | place e lo) /\ place e lo < lo + align e).
Proof.
  intros Ha. unfold place. destruct (Z.eqb_spec (align e) 0); [split_and!; [lia | done | done] |].
  pose proof (Z.mod_pos_bound (- lo) (align e) ltac:(lia)) as Hb. split_and!; [lia | done |]. intros _. split; [| lia].
  apply Z.mod_divide; [done |]. rewrite Z.add_mod_idemp_r by done. by rewrite Z.add_opp_diag_r, Z.mod_0_l.
Qed.

Lemma array_size_nonneg e : entry_ok e -> 0 <= array_size e.
Proof. intros (H1 & H2 & _). apply Z.mul_nonneg_nonneg; lia. Qed.

Lemma extent_ge es lo : Forall entry_ok es -> lo <= extent es lo.
Proof.
  revert lo. induction es as [| e es IH]; intros lo Ho; cbn [extent]; [lia |]. apply Forall_cons_1 in Ho as [He Ho].
  pose proof (proj1 (place_spec e lo ltac:(destruct He as (_ & _ & ?); lia))). pose proof (array_size_nonneg e He). pose proof (IH (place e lo + array_size e) Ho). lia.
Qed.

(** [xdp2_round_up] finds the place. *)
Lemma round_up_place e lo : entry_ok e -> 0 <= lo -> place e lo < 2 ^ 32 ->
  (if negb (align e =? 0) then xdp2_round_up lo (align e) else lo) = place e lo.
Proof.
  intros (_ & _ & Ha) Hlo Hp. unfold place in *. destruct (Z.eqb_spec (align e) 0) as [E | E]; cbn [negb]; [done |].
  unfold xdp2_round_up. pose proof (Z.mod_pos_bound lo (align e) ltac:(lia)) as Hb. assert (u32 (lo mod align e) = lo mod align e) as -> by (unfold u32; apply Z.mod_small; lia).
  destruct (Z.eqb_spec (lo mod align e) 0) as [E0 | E0]; cbn [negb].
  - rewrite Z.mod_opp_l_z by done. lia.
  - rewrite Z.mod_opp_l_nz in * by done. unfold u32, u64. rewrite (Z.mod_small (_ - _)) by lia. apply Z.mod_small. lia.
Qed.

(** What the loop stores. *)
Fixpoint places (es : def_vsmap) (lo : Z) : list Z := match es with [] => [] | e :: es => place e lo :: places es (place e lo + array_size e) end.

Lemma instantiate_places es : forall lo, Forall entry_ok es -> 0 <= lo -> extent es lo < 2 ^ 32 ->
  xdp2_vstruct_instantiate_vsmap es lo = (places es lo, extent es lo).
Proof.
  induction es as [| e es IH]; intros lo Ho Hlo Hx; [done |]. apply Forall_cons_1 in Ho as [He Ho]. cbn [xdp2_vstruct_instantiate_vsmap places extent] in *.
  pose proof (proj1 (place_spec e lo ltac:(destruct He as (_ & _ & ?); lia))) as Hp. pose proof (array_size_nonneg e He) as Hs. pose proof (extent_ge es (place e lo + array_size e) Ho) as Hg.
  rewrite round_up_place by (done || lia). assert (all_size e = array_size e) as -> by (unfold all_size, u32; apply Z.mod_small; unfold array_size in *; lia).
  unfold u64. rewrite (Z.mod_small (place e lo + array_size e)) by lia. rewrite IH by (done || lia). f_equal. f_equal. unfold u32. apply Z.mod_small. lia.
Qed.

Lemma places_length es lo : length (places es lo) = length es.
Proof. revert lo. induction es as [| e es IH]; intros lo; cbn; [done | by rewrite IH]. Qed.

(** Every array is after [lo] and before the end. *)
Lemma places_range es : forall lo i o, Forall entry_ok es -> places es lo !! i = Some o -> lo <= o <= extent es lo.
Proof.
  induction es as [| e es IH]; intros lo i o Ho H; [done |]. apply Forall_cons_1 in Ho as [He Ho]. cbn [places extent] in *.
  pose proof (proj1 (place_spec e lo ltac:(destruct He as (_ & _ & ?); lia))) as Hp. pose proof (array_size_nonneg e He) as Hs. destruct i as [| i].
  - injection H as <-. pose proof (extent_ge es (place e lo + array_size e) Ho). lia.
  - pose proof (IH _ _ _ Ho H). lia.
Qed.

Lemma places_array es : forall lo i e o, Forall entry_ok es -> es !! i = Some e -> places es lo !! i = Some o ->
  (align e <> 0 -> (align e | o)) /\ o + array_size e <= extent es lo /\ (forall j o', (i < j)%nat -> places es lo !! j = Some o' -> o + array_size e <= o') /\
  (exists lo', (lo' = lo \/ exists j e' o', (j < i)%nat /\ es !! j = Some e' /\ places es lo !! j = Some o' /\ lo' = o' + array_size e') /\ o <= lo' + Z.max 0 (align e - 1)).
Proof.
  induction es as [| f es IH]; intros lo i e o Ho He H; [done |]. apply Forall_cons_1 in Ho as [Hf Ho]. cbn [places extent] in *.
  destruct (place_spec f lo) as (Hp & Hz & Ha); [destruct Hf as (_ & _ & ?); lia |]. destruct i as [| i]; cbn in He, H.
  - injection He as <-. injection H as <-. pose proof (extent_ge es (place f lo + array_size f) Ho). split_and!; [intros Hne; by apply Ha | lia | |].
    + intros [| j] o' Hj Ho'; [lia |]. cbn in Ho'. by apply (places_range es (place f lo + array_size f) j) in Ho' as [? _].
    + exists lo. split; [by left |]. destruct (decide (align f = 0)) as [E | E]; [rewrite (Hz E); lia | destruct (Ha E); lia].
  - destruct (IH _ _ _ _ Ho He H) as (H1 & H2 & H3 & lo' & Hlo' & H4). split_and!; [done | done | |].
    + intros [| j] o' Hj Ho'; [lia |]. cbn in Ho'. apply (H3 j); [lia | done].
    + exists lo'. split; [| done]. right. destruct Hlo' as [-> | (j & e' & o' & Hj & Hje & Hjo & ->)].
      * exists 0%nat, f, (place f lo). split_and!; [lia | done | done | done].
      * exists (S j), e', o'. split_and!; [lia | done | done | done].
Qed.

(** C37: the arrays of a variable structure. When the end of the structure is below
    2^32, [xdp2_vstruct_instantiate_vsmap] stores an offset for every entry and
    returns the size of the structure: every array is at a multiple of its alignment,
    starts behind the fixed part and lies in the structure, the arrays do not overlap
    and are in order, and there is less padding before an array than its alignment. *)
Theorem vstruct_layout es base offs size :
  Forall entry_ok es -> 0 <= base -> extent es base < 2 ^ 32 -> xdp2_vstruct_instantiate_vsmap es base = (offs, size) ->
  length offs = length es /\ base <= size < 2 ^ 32 /\
  forall i e o, es !! i = Some e -> offs !! i = Some o ->
    base <= o /\ o + num_els e * struct_size e <= size /\ (align e <> 0 -> (align e | o)) /\
    (forall j o', (i < j)%nat -> offs !! j = Some o' -> o + num_els e * struct_size e <= o') /\
    exists lo, (lo = base \/ exists j e' o', (j < i)%nat /\ es !! j = Some e' /\ offs !! j = Some o' /\ lo = o' + num_els e' * struct_size e') /\
      o <= lo + Z.max 0 (align e - 1).
Proof.
  intros Ho Hb Hx. rewrite (instantiate_places es base Ho Hb Hx). intros [= <- <-]. pose proof (extent_ge es base Ho).
  split_and!; [apply places_length | lia | lia |]. intros i e o He Hi. destruct (places_array es base i e o Ho He Hi) as (H1 & H2 & H3 & H4).
  pose proof (places_range es base i o Ho Hi) as [H5 _]. split_and!; assumption.
Qed.

(** A fixed part of 20 bytes, three words, five bytes and two words of 8 bytes. *)
Definition ex_fields : list (vfield unit) :=
  [VField "words" 4 4 (fun _ => 3) (fun _ => 0); VField "bytes" 1 1 (fun _ => 5) (fun _ => 0); VField "longs" 8 8 (fun _ => 2) (fun _ => 16)].
Definition ex_entries : def_vsmap := map (__XDP2_VSTRUCT_VFIELD_STRUCT_SET_ENTRY tt) ex_fields.

Example ex_instantiate : xdp2_vstruct_instantiate_vsmap ex_entries 20 = ([20; 32; 48], 64).
Proof. reflexivity. Qed.

Lemma vstruct_layout_witness : 48 + 2 * 8 <= 64 /\ (16 | 48) /\ 20 + 3 * 4 <= 48.
Proof.
  destruct (vstruct_layout ex_entries 20 [20; 32; 48] 64) as (_ & _ & H).
  - repeat (apply Forall_cons_2; [unfold entry_ok; cbn; lia |]). apply Forall_nil_2.
  - lia.
  - reflexivity.
  - reflexivity.
  - destruct (H 2%nat _ _ eq_refl eq_refl) as (_ & H1 & H2 & _). destruct (H 0%nat _ _ eq_refl eq_refl) as (_ & _ & _ & H3 & _).
    split_and!; [exact H1 | apply H2; discriminate | exact (H3 2%nat 48 ltac:(lia) eq_refl)].
Defined.

(** Every element of an array is inside the structure. *)
Lemma getptr_in_structure es base offs size p i e o j :
  Forall entry_ok es -> 0 <= base -> extent es base < 2 ^ 32 -> xdp2_vstruct_instantiate_vsmap es base = (offs, size) ->
  0 <= p -> p + size < 2 ^ 64 -> es !! i = Some e -> offs !! i = Some o -> 0 <= j < num_els e ->
  exists a, XDP2_VSTRUCT_GETPTR_VSMAP p offs i = Done a /\ p + base <= a + j * struct_size e /\ a + (j + 1) * struct_size e <= p + size.
Proof.
  intros Ho Hb Hx Hi Hp Hs He Hoi Hj. pose proof (list.Forall_lookup_1 _ _ _ _ Ho He) as (Hn & Hz & _). exists (p + o).
  rewrite (instantiate_places es base Ho Hb Hx) in Hi. injection Hi as <- <-.
  destruct (places_array es base i e o Ho He Hoi) as (_ & H2 & _ & _). pose proof (places_range es base i o Ho Hoi) as [H5 _]. unfold array_size in H2.
  assert (j * struct_size e <= num_els e * struct_size e /\ (j + 1) * struct_size e <= num_els e * struct_size e /\ 0 <= j * struct_size e) as (N1 & N2 & N3) by (split_and!; nia).
  unfold XDP2_VSTRUCT_GETPTR_VSMAP. rewrite Hoi. cbn. split_and!; [f_equal; unfold u64; apply Z.mod_small |..]; lia.
Qed.

(** The entry that is found is the first one with the name. *)
Lemma find_def_entry_first es name e i : xdp2_vstruct_find_def_entry es name = Some (e, i) ->
  0 <= i /\ es !! Z.to_nat i = Some e /\ ename e = name /\ forall j e', (j < Z.to_nat i)%nat -> es !! j = Some e' -> ename e' <> name.
Proof.
  unfold xdp2_vstruct_find_def_entry. intros H. assert (forall k, find_def_entry_from k es name = Some (e, i) ->
    k <= i /\ es !! Z.to_nat (i - k) = Some e /\ ename e = name /\ forall j e', (j < Z.to_nat (i - k))%nat -> es !! j = Some e' -> ename e' <> name) as G.
  { clear H. induction es as [| f es IH]; intros k H; [done |]. cbn in H. destruct (String.eqb_spec (ename f) name) as [E | E].
    - injection H as <- <-. rewrite Z.sub_diag. split_and!; [lia | done | done | intros; cbn in *; lia].
    - destruct (IH (k + 1) H) as (H1 & H2 & H3 & H4). replace (Z.to_nat (i - k)) with (S (Z.to_nat (i - (k + 1)))) by lia.
      split_and!; [lia | done | done |]. intros [| j] e' Hj He'; [by injection He' as <- |]. apply (H4 j e'); [lia | done]. }
  destruct (G 0 H) as (H1 & H2 & H3 & H4). rewrite Z.sub_0_r in *. done.
Qed.

(** ** Limits *)

(** The size of an array is computed with 32 bits: the next array overlaps it. *)
Example vstruct_size_wraps :
  xdp2_vstruct_instantiate_vsmap [DefEntry (2 ^ 20) (2 ^ 12) 8 "a"; DefEntry 1 8 8 "b"] 64 = ([64; 64], 72).
Proof. reflexivity. Qed.

(** The two functions that count the empty arrays disagree. *)
Example vstruct_zero_counts :
  let fs := [VField "a" 4 4 (fun _ : unit => 0) (fun _ => 0); VField "b" 4 4 (fun _ => 7) (fun _ => 0); VField "c" 4 4 (fun _ => 9) (fun _ => 0)] in
  xdp2_vstruct_count_vsmap (map (__XDP2_VSTRUCT_VFIELD_STRUCT_SET_ENTRY tt) fs) = (3, 2) /\ count_vsconst tt fs = (3, 1).
Proof. split; reflexivity. Qed.

(** Printing a map fails when there is padding before the first array. *)
Example vstruct_print_padding_crashes :
  let es := [DefEntry 2 8 8 "a"] in
  xdp2_vstruct_instantiate_vsmap es 20 = ([24], 40) /\ xdp2_vstruct_print_vsmap "" (Some es) (Some [24]) "s" 20 false false false false = Crash.
Proof. split; reflexivity. Qed.

(** Without padding the lines have the sizes and the offsets. *)
Example vstruct_print_lines :
  xdp2_vstruct_print_vsmap "" (Some ex_entries) (Some [20; 32; 48]) "s" 20 true false true true =
    Done [PrLabel; PrCsv "" "words" 12 3 4 4 20 0; PrCsv "" "bytes" 5 5 1 1 32 12; PrCsv "" "longs" 16 2 16 8 48 28].
Proof. reflexivity. Qed.
