(* ===== verification/Parselite.v ===== *)
(** * Parselite

    The hand-written parser of [lib/parselite/parser.c], with
    [include/parselite/parser.h] and its protocol headers. The function is two
    [switch] statements on the EtherType and on the IP protocol that jump to each
    other: a state is the label, the rest of the packet and the metadata, a step
    is one case. [max_encaps] is not used by the code.

    Fields in network order are little endian loads that are not converted, and
    constants written with [htons] or [__cpu_to_be16] are swapped. *)

From stdpp Require Import base list numbers.
From S2P Require Import Prelude Bytes Siphash SiphashSpec Dtable FlowHash.

(** ** Constants *)

Definition ETH_P_IP := 0x0800.
Definition ETH_P_ARP := 0x0806.
Definition ETH_P_BATMAN := 0x4305.
Definition ETH_P_TEB := 0x6558.
Definition ETH_P_RARP := 0x8035.
Definition ETH_P_8021Q := 0x8100.
Definition ETH_P_IPV6 := 0x86DD.
Definition ETH_P_MPLS_UC := 0x8847.
Definition ETH_P_MPLS_MC := 0x8848.
Definition ETH_P_PPP_SES := 0x8864.
Definition ETH_P_8021AD := 0x88A8.
Definition ETH_P_TIPC := 0x88CA.
Definition ETH_P_FCOE := 0x8906.

Definition IPPROTO_HOPOPTS := 0.
Definition IPPROTO_ICMP := 1.
Definition IPPROTO_IGMP := 2.
Definition IPPROTO_IPIP := 4.
Definition IPPROTO_TCP := 6.
Definition IPPROTO_UDP := 17.
Definition IPPROTO_DCCP := 33.
Definition IPPROTO_IPV6 := 41.
Definition IPPROTO_ROUTING := 43.
Definition IPPROTO_FRAGMENT := 44.
Definition IPPROTO_GRE := 47.
Definition IPPROTO_DSTOPTS := 60.
Definition IPPROTO_SCTP := 132.
Definition IPPROTO_MPLS := 137.

(** [linux/if_tunnel.h]; in network order. *)
Definition GRE_CSUM := bswap16 0x8000.
Definition GRE_ROUTING := bswap16 0x4000.
Definition GRE_KEY := bswap16 0x2000.
Definition GRE_SEQ := bswap16 0x1000.
Definition GRE_ACK := bswap16 0x0080.
Definition GRE_VERSION := bswap16 0x0007.
Definition GRE_PROTO_PPP := bswap16 0x880b.
Definition PPP_IP := 0x21.
Definition PPP_IPV6 := 0x57.

Definition IP_MF := 0x2000.
Definition IP_OFFSET := 0x1FFF.
Definition IP6_OFFSET := 0xFFF8.
Definition VLAN_VID_MASK := 0x0fff.
Definition VLAN_PRIO_MASK := 0xe000.
Definition MPLS_LS_LABEL_MASK := 0xFFFFF000.
Definition MPLS_LABEL_ENTROPY := 7.
Definition TIPC_KEEPALIVE_MSG_MASK := 0x0e080000.
Definition BATADV_COMPAT_VERSION := 15.
Definition BATADV_UNICAST := 0x40.

Definition PARSELITE_ATYPE_IPV4 := 0.
Definition PARSELITE_ATYPE_IPV6 := 1.
Definition PARSELITE_ATYPE_TIPC := 2.
Definition PARSELITE_F_PARSE_1STFRAG := 1.
Definition PARSELITE_F_STOP_FLOWLABEL := 2.

Definition bit_of (flags mask : Z) : bool := negb (Z.land flags mask =? 0).

(** ** Metadata *)

Record mpls_meta := Mpls { mpls_ttl : Z; mpls_bos : Z; mpls_tc : Z; mpls_label : Z }.
Record arp_meta := Arp { arp_sip : list Z; arp_tip : list Z; arp_op : Z; arp_sha : list Z; arp_tha : list Z }.
Record vlan_meta := Vlan { vlan_id : Z; vlan_dei : Z; vlan_priority : Z; vlan_tpid : Z }.
Record icmp_meta := Icmp { icmp_type : Z; icmp_code : Z; icmp_id : Z }.

(** [addrs] is the 32 bytes of the union; [ports] and [keyid] are in network
    order. *)
Record parselite_metadata := Metadata {
  addr_type : Z; is_fragment : Z; first_frag : Z; vlan_count : Z; tos : Z; ttl : Z;
  eth_addrs : list Z; tcp_flags : Z; mpls : mpls_meta; arp : arp_meta;
  eth_proto : Z; ip_proto : Z; flow_label : Z; vlan : list vlan_meta; keyid : Z; ports : Z;
  icmp : icmp_meta; addrs : list Z }.

Definition set_frag (a b : Z) (m : parselite_metadata) : parselite_metadata :=
  Metadata (addr_type m) a b (vlan_count m) (tos m) (ttl m) (eth_addrs m) (tcp_flags m) (mpls m) (arp m)
    (eth_proto m) (ip_proto m) (flow_label m) (vlan m) (keyid m) (ports m) (icmp m) (addrs m).
Definition set_eth_proto (v : Z) (m : parselite_metadata) : parselite_metadata :=
  Metadata (addr_type m) (is_fragment m) (first_frag m) (vlan_count m) (tos m) (ttl m) (eth_addrs m) (tcp_flags m) (mpls m) (arp m)
    v (ip_proto m) (flow_label m) (vlan m) (keyid m) (ports m) (icmp m) (addrs m).
Definition set_eth_addrs (v : list Z) (m : parselite_metadata) : parselite_metadata :=
  Metadata (addr_type m) (is_fragment m) (first_frag m) (vlan_count m) (tos m) (ttl m) v (tcp_flags m) (mpls m) (arp m)
    (eth_proto m) (ip_proto m) (flow_label m) (vlan m) (keyid m) (ports m) (icmp m) (addrs m).
Definition set_ip_proto (v : Z) (m : parselite_metadata) : parselite_metadata :=
  Metadata (addr_type m) (is_fragment m) (first_frag m) (vlan_count m) (tos m) (ttl m) (eth_addrs m) (tcp_flags m) (mpls m) (arp m)
    (eth_proto m) v (flow_label m) (vlan m) (keyid m) (ports m) (icmp m) (addrs m).
Definition set_ip (proto a b : Z) (m : parselite_metadata) : parselite_metadata :=
  Metadata (addr_type m) (is_fragment m) (first_frag m) (vlan_count m) a b (eth_addrs m) (tcp_flags m) (mpls m) (arp m)
    (eth_proto m) proto (flow_label m) (vlan m) (keyid m) (ports m) (icmp m) (addrs m).
(** A copy to the start of the union. *)
Definition set_addrs (t : Z) (l : list Z) (m : parselite_metadata) : parselite_metadata :=
  Metadata t (is_fragment m) (first_frag m) (vlan_count m) (tos m) (ttl m) (eth_addrs m) (tcp_flags m) (mpls m) (arp m)
    (eth_proto m) (ip_proto m) (flow_label m) (vlan m) (keyid m) (ports m) (icmp m) (l ++ drop (length l) (addrs m)).
Definition set_flow_label (v : Z) (m : parselite_metadata) : parselite_metadata :=
  Metadata (addr_type m) (is_fragment m) (first_frag m) (vlan_count m) (tos m) (ttl m) (eth_addrs m) (tcp_flags m) (mpls m) (arp m)
    (eth_proto m) (ip_proto m) v (vlan m) (keyid m) (ports m) (icmp m) (addrs m).
Definition set_vlan (count : Z) (v : list vlan_meta) (m : parselite_metadata) : parselite_metadata :=
  Metadata (addr_type m) (is_fragment m) (first_frag m) count (tos m) (ttl m) (eth_addrs m) (tcp_flags m) (mpls m) (arp m)
    (eth_proto m) (ip_proto m) (flow_label m) v (keyid m) (ports m) (icmp m) (addrs m).
Definition set_mpls (v : mpls_meta) (m : parselite_metadata) : parselite_metadata :=
  Metadata (addr_type m) (is_fragment m) (first_frag m) (vlan_count m) (tos m) (ttl m) (eth_addrs m) (tcp_flags m) v (arp m)
    (eth_proto m) (ip_proto m) (flow_label m) (vlan m) (keyid m) (ports m) (icmp m) (addrs m).
Definition set_keyid (v : Z) (m : parselite_metadata) : parselite_metadata :=
  Metadata (addr_type m) (is_fragment m) (first_frag m) (vlan_count m) (tos m) (ttl m) (eth_addrs m) (tcp_flags m) (mpls m) (arp m)
    (eth_proto m) (ip_proto m) (flow_label m) (vlan m) v (ports m) (icmp m) (addrs m).
Definition set_arp (v : arp_meta) (m : parselite_metadata) : parselite_metadata :=
  Metadata (addr_type m) (is_fragment m) (first_frag m) (vlan_count m) (tos m) (ttl m) (eth_addrs m) (tcp_flags m) (mpls m) v
    (eth_proto m) (ip_proto m) (flow_label m) (vlan m) (keyid m) (ports m) (icmp m) (addrs m).
Definition set_ports (v : Z) (m : parselite_metadata) : parselite_metadata :=
  Metadata (addr_type m) (is_fragment m) (first_frag m) (vlan_count m) (tos m) (ttl m) (eth_addrs m) (tcp_flags m) (mpls m) (arp m)
    (eth_proto m) (ip_proto m) (flow_label m) (vlan m) (keyid m) v (icmp m) (addrs m).
Definition set_tcp_flags (v : Z) (m : parselite_metadata) : parselite_metadata :=
  Metadata (addr_type m) (is_fragment m) (first_frag m) (vlan_count m) (tos m) (ttl m) (eth_addrs m) v (mpls m) (arp m)
    (eth_proto m) (ip_proto m) (flow_label m) (vlan m) (keyid m) (ports m) (icmp m) (addrs m).
Definition set_icmp (v : icmp_meta) (m : parselite_metadata) : parselite_metadata :=
  Metadata (addr_type m) (is_fragment m) (first_frag m) (vlan_count m) (tos m) (ttl m) (eth_addrs m) (tcp_flags m) (mpls m) (arp m)
    (eth_proto m) (ip_proto m) (flow_label m) (vlan m) (keyid m) (ports m) v (addrs m).

(** [memset(&metadata, 0, sizeof(metadata))]. *)
Definition zero_metadata : parselite_metadata :=
  Metadata 0 0 0 0 0 0 (replicate 12 0) 0 (Mpls 0 0 0 0) (Arp (replicate 4 0) (replicate 4 0) 0 (replicate 6 0) (replicate 6 0))
    0 0 0 [Vlan 0 0 0 0; Vlan 0 0 0 0] 0 0 (Icmp 0 0 0) (replicate 32 0).

(** ** States *)

Inductive label := SwitchEtherType | SwitchIpProto.

(** [proto] is the local variable [ip_proto]. *)
Record pstate := PState { at_label : label; hdr : ptr; len : Z; proto : Z; md : parselite_metadata }.

Inductive jump :=
| Goto (st : pstate)
| Return (ret : bool) (m : parselite_metadata).

(** [goto doreturn] with [ret] as it was. *)
Definition fail (m : parselite_metadata) : outcome jump := mret (Return false m).

(** ** Helpers *)

Definition ipv4_len (p : ptr) : outcome Z := b ← ld8 p 0; mret (Z.land b 0xf * 4).
Definition ip6_flowlabel (p : ptr) : outcome Z := w ← ld32 p 0; mret (Z.land w (bswap32 0x000FFFFF)).
Definition ipv6_get_dsfield (p : ptr) : outcome Z := w ← ld16 p 0; mret (u8 (Z.shiftr (bswap16 w) 4)).
Definition ipv6_optlen (p : ptr) : outcome Z := h ← ld8 p 1; mret (Z.shiftl (h + 1) 3).
Definition tcp_len (p : ptr) : outcome Z := b ← ld8 p 12; mret (Z.shiftr b 4 * 4).
Definition icmp_has_id (type : Z) : bool :=
  (type =? 8) || (type =? 0) || (type =? 13) || (type =? 14) || (type =? 128) || (type =? 129).
Definition PPP_PROTOCOL (p : ptr) : outcome Z := a ← ld8 p 2; b ← ld8 p 3; mret (Z.shiftl a 8 + b).

Definition GRE_CSUM_OMASK := bswap16 0x0.
Definition GRE_ROUTING_OMASK := Z.lor GRE_CSUM GRE_CSUM_OMASK.
Definition GRE_KEY_OMASK := Z.lor GRE_ROUTING GRE_ROUTING_OMASK.
Definition GRE_SEQ_OMASK := Z.lor GRE_KEY GRE_KEY_OMASK.
Definition GRE_ACK_OMASK := Z.lor GRE_SEQ GRE_SEQ_OMASK.

Definition __gre_flags_length (flags mask : Z) : Z :=
  let flags := Z.lor flags mask in
  (if bit_of flags GRE_CSUM then 4 else 0) + (if bit_of flags GRE_KEY then 4 else 0) +
  (if bit_of flags GRE_SEQ then 4 else 0) + (if bit_of flags GRE_ACK then 4 else 0).
Definition gre_v0_flags_length (flags mask : Z) : Z := __gre_flags_length flags (Z.land mask (u32 (Z.lnot GRE_ACK))).
Definition gre_v1_flags_length (flags mask : Z) : Z := __gre_flags_length flags mask.
Definition gre_v0_flags_offset (flags flag mask : Z) : Z := if bit_of flags flag then gre_v0_flags_length flags mask else -1.
Definition gre_v1_flags_offset (flags flag mask : Z) : Z := if bit_of flags flag then gre_v1_flags_length flags mask else -1.

(** [-1U]. *)
Definition ones32 : Z := 2 ^ 32 - 1.

Section Parse.
(** The flags of the call and the result of [rand()]. *)
Context (flags rand : Z).

(** ** EtherTypes *)

Definition ether_ipv4 (p : ptr) (len : Z) (m : parselite_metadata) : outcome jump :=
  if len <? 20 then fail m else
  hlen ← ipv4_len p;
  if len <? hlen then fail m else
  protocol ← ld8 p 9;
  frag_off ← ld16 p 6;
  t ← ld8 p 1; l ← ld8 p 8; a ← ld_bytes 8 p 12;
  let m := set_addrs PARSELITE_ATYPE_IPV4 a (set_ip protocol t l m) in
  let next m := mret (Goto (PState SwitchIpProto (padd p hlen) (len - hlen) protocol m)) in
  if bit_of frag_off (bswap16 (Z.lor IP_MF IP_OFFSET)) then
    let off := bit_of frag_off (bswap16 IP_OFFSET) in
    let m := set_frag 1 (Z.b2z (negb off)) m in
    if negb (bit_of flags PARSELITE_F_PARSE_1STFRAG) || off then mret (Return true m) else next m
  else next m.

Definition ether_ipv6 (p : ptr) (len : Z) (m : parselite_metadata) : outcome jump :=
  if len <? 40 then fail m else
  nexthdr ← ld8 p 6;
  flowlabel ← ip6_flowlabel p;
  t ← ipv6_get_dsfield p; l ← ld8 p 7; a ← ld_bytes 32 p 8;
  let m := set_addrs PARSELITE_ATYPE_IPV6 a (set_flow_label (bswap32 flowlabel) (set_ip nexthdr t l m)) in
  if negb (flowlabel =? 0) && bit_of flags PARSELITE_F_STOP_FLOWLABEL then mret (Return true m)
  else mret (Goto (PState SwitchIpProto (padd p 40) (len - 40) nexthdr m)).

Definition ether_vlan (p : ptr) (len ip_proto : Z) (m : parselite_metadata) : outcome jump :=
  let save_eth_proto := eth_proto m in
  if len <? 4 then fail m else
  tci ← ld16 p 0;
  encapsulated_proto ← ld16 p 2;
  let m := set_eth_proto encapsulated_proto m in
  let '(index, count) := if vlan_count m <? 2 then (vlan_count m, vlan_count m + 1) else (1, vlan_count m) in
  old ← deref (vlan m !! Z.to_nat index);
  let v := Vlan (Z.land (bswap16 tci) VLAN_VID_MASK) (vlan_dei old) (Z.shiftr (Z.land (bswap16 tci) VLAN_PRIO_MASK) 13) (bswap16 save_eth_proto) in
  mret (Goto (PState SwitchEtherType (padd p 4) (len - 4) ip_proto (set_vlan count (<[Z.to_nat index := v]> (vlan m)) m))).

(** The second label is read without a check of the length. *)
Definition ether_mpls (p : ptr) (len : Z) (m : parselite_metadata) : outcome jump :=
  if len <? 4 then fail m else
  w ← ld32 p 0;
  let entry := bswap32 w in
  let lbl := Z.shiftr (Z.land entry MPLS_LS_LABEL_MASK) 12 in
  let m := set_mpls (Mpls (Z.land entry 0xff) (Z.shiftr (Z.land entry 0x100) 8) (Z.shiftr (Z.land entry 0xe00) 9) lbl) m in
  m ← (if lbl =? MPLS_LABEL_ENTROPY then w1 ← ld32 p 4; mret (set_keyid (Z.land w1 (bswap32 MPLS_LS_LABEL_MASK)) m) else mret m);
  mret (Return true m).

Definition ether_arp (p : ptr) (len : Z) (m : parselite_metadata) : outcome jump :=
  if len <? 28 then mret (Return false m) else
  ar_hrd ← ld16 p 0; ar_pro ← ld16 p 2; ar_hln ← ld8 p 4; ar_pln ← ld8 p 5; ar_op ← ld16 p 6;
  if negb (ar_hrd =? bswap16 1) || negb (ar_pro =? bswap16 ETH_P_IP) || negb (ar_hln =? 6) || negb (ar_pln =? 4) ||
     (negb (ar_op =? bswap16 2) && negb (ar_op =? bswap16 1)) then fail m else
  sha ← ld_bytes 6 p 8; tha ← ld_bytes 6 p 18; sip ← ld_bytes 4 p 14; tip ← ld_bytes 4 p 24;
  mret (Return true (set_arp (Arp sip tip (Z.land (bswap16 ar_op) 0xff) sha tha) m)).

Definition ether_tipc (p : ptr) (len : Z) (m : parselite_metadata) : outcome jump :=
  if len <? 16 then fail m else
  w ← ld32 p 0;
  let keepalive_msg := Z.land (bswap32 w) TIPC_KEEPALIVE_MSG_MASK =? TIPC_KEEPALIVE_MSG_MASK in
  key ← (if keepalive_msg then mret (u32 rand) else ld32 p 12);
  mret (Return true (set_addrs PARSELITE_ATYPE_TIPC (le_bytes 4 key) m)).

Definition ether_batman (p : ptr) (len ip_proto : Z) (m : parselite_metadata) : outcome jump :=
  if len <? 24 then mret (Return false m) else
  version ← ld8 p 1; packet_type ← ld8 p 0;
  if negb (version =? BATADV_COMPAT_VERSION) || negb (packet_type =? BATADV_UNICAST) then fail m else
  pr ← ld16 p 22;
  mret (Goto (PState SwitchEtherType (padd p 24) (len - 24) ip_proto (set_eth_proto pr m))).

Definition ether_fcoe (len : Z) (m : parselite_metadata) : outcome jump :=
  if len <? 38 then fail m else mret (Return true m).

Definition ether_ppp (p : ptr) (len ip_proto : Z) (m : parselite_metadata) : outcome jump :=
  if len <? 8 then fail m else
  pr ← ld16 p 6;
  let next e := mret (Goto (PState SwitchEtherType (padd p 8) (len - 8) ip_proto (set_eth_proto (bswap16 e) m))) in
  if pr =? bswap16 PPP_IP then next ETH_P_IP
  else if pr =? bswap16 PPP_IPV6 then next ETH_P_IPV6 else fail m.

Definition switch_ether_type (p : ptr) (len ip_proto : Z) (m : parselite_metadata) : outcome jump :=
  let e := eth_proto m in
  if e =? bswap16 ETH_P_IP then ether_ipv4 p len m
  else if e =? bswap16 ETH_P_IPV6 then ether_ipv6 p len m
  else if (e =? bswap16 ETH_P_8021AD) || (e =? bswap16 ETH_P_8021Q) then ether_vlan p len ip_proto m
  else if (e =? bswap16 ETH_P_MPLS_UC) || (e =? bswap16 ETH_P_MPLS_MC) then ether_mpls p len m
  else if (e =? bswap16 ETH_P_ARP) || (e =? bswap16 ETH_P_RARP) then ether_arp p len m
  else if e =? bswap16 ETH_P_TIPC then ether_tipc p len m
  else if e =? bswap16 ETH_P_BATMAN then ether_batman p len ip_proto m
  else if e =? bswap16 ETH_P_FCOE then ether_fcoe len m
  else if e =? bswap16 ETH_P_PPP_SES then ether_ppp p len ip_proto m
  else fail m.

(** ** IP protocols *)

Definition ip_options (p : ptr) (len : Z) (m : parselite_metadata) : outcome jump :=
  if negb (eth_proto m =? bswap16 ETH_P_IPV6) then mret (Return false m) else
  if len <? 2 then fail m else
  hlen ← ipv6_optlen p;
  if len <? hlen then fail m else
  nexthdr ← ld8 p 0;
  mret (Goto (PState SwitchIpProto (padd p hlen) (len - hlen) nexthdr m)).

Definition ip_fragment (p : ptr) (len : Z) (m : parselite_metadata) : outcome jump :=
  if negb (eth_proto m =? bswap16 ETH_P_IPV6) then mret (Return false m) else
  if len <? 8 then fail m else
  frag_off ← ld16 p 2;
  let off := bit_of frag_off (bswap16 IP6_OFFSET) in
  if negb (bit_of flags PARSELITE_F_PARSE_1STFRAG) || off then mret (Return true m) else
  nexthdr ← ld8 p 0;
  mret (Goto (PState SwitchIpProto (padd p 8) (len - 8) nexthdr (set_frag 1 (Z.b2z (negb off)) (set_ip_proto nexthdr m)))).

Definition ip_tcp (p : ptr) (len : Z) (m : parselite_metadata) : outcome jump :=
  if len <? 20 then fail m else
  hlen ← tcp_len p;
  if len <? hlen then fail m else
  pts ← ld32 p 0;
  let m := if is_fragment m =? 0 then set_ports pts m else m in
  w ← ld32 p 12;
  mret (Return true (set_tcp_flags (u16 (Z.land w (bswap16 0x0fff))) m)).

Definition ip_udp (p : ptr) (len : Z) (m : parselite_metadata) : outcome jump :=
  if len <? 8 then fail m else
  pts ← ld32 p 0;
  mret (Return true (if is_fragment m =? 0 then set_ports pts m else m)).

Definition ip_ports (size : Z) (p : ptr) (len : Z) (m : parselite_metadata) : outcome jump :=
  if len <? size then fail m else
  pts ← ld32 p 0; mret (Return true (set_ports pts m)).
Definition ip_sctp := ip_ports 12.
Definition ip_dccp := ip_ports 12.

(** The key is read behind the header. *)
Definition gre_v0 (p : ptr) (len gflags gprotocol ip_proto : Z) (m : parselite_metadata) : outcome jump :=
  let hlen := 4 + gre_v0_flags_length gflags ones32 in
  if len <? hlen then fail m else
  let q := padd p hlen in
  let len := len - hlen in
  let m := set_eth_proto gprotocol m in
  let offset := gre_v0_flags_offset gflags GRE_KEY GRE_KEY_OMASK in
  m ← (if 0 <=? offset then k ← ld32 q offset; mret (set_keyid k m) else mret m);
  if eth_proto m =? bswap16 ETH_P_TEB then
    if len <? 14 then fail m else mret (Goto (PState SwitchEtherType (padd q 14) (len - 14) ip_proto m))
  else mret (Goto (PState SwitchEtherType q len ip_proto m)).

(** The PPP header is read and removed without a check of the length. *)
Definition gre_v1 (p : ptr) (len gflags gprotocol ip_proto : Z) (m : parselite_metadata) : outcome jump :=
  if negb ((gprotocol =? GRE_PROTO_PPP) && bit_of gflags GRE_KEY) then fail m else
  let hlen := 4 + gre_v1_flags_length gflags ones32 in
  if len <? hlen then fail m else
  let q := padd p hlen in
  let len := len - hlen in
  let m := set_eth_proto GRE_PROTO_PPP m in
  let offset := gre_v1_flags_offset gflags GRE_KEY GRE_KEY_OMASK in
  m ← (if 0 <? offset then k ← ld32 q offset; mret (set_keyid k m) else mret m);
  pr ← PPP_PROTOCOL q;
  let next e := mret (Goto (PState SwitchEtherType (padd q 4) (u64 (len - 4)) ip_proto (set_eth_proto (bswap16 e) m))) in
  if pr =? PPP_IP then next ETH_P_IP else if pr =? PPP_IPV6 then next ETH_P_IPV6 else fail m.

Definition ip_gre (p : ptr) (len ip_proto : Z) (m : parselite_metadata) : outcome jump :=
  if len <? 4 then fail m else
  gflags ← ld16 p 0;
  if bit_of gflags GRE_ROUTING then fail m else
  gprotocol ← ld16 p 2;
  let version := Z.land gflags GRE_VERSION in
  if version =? 0 then gre_v0 p len gflags gprotocol ip_proto m
  else if version =? 1 then gre_v1 p len gflags gprotocol ip_proto m else fail m.

Definition ip_icmp (p : ptr) (len : Z) (m : parselite_metadata) : outcome jump :=
  if len <? 8 then fail m else
  type ← ld8 p 0; code ← ld8 p 1; id ← ld16 p 4;
  let id := if icmp_has_id type then if id =? 0 then 1 else id else 0 in
  mret (Return true (set_icmp (Icmp type code id) m)).

Definition ip_igmp (len : Z) (m : parselite_metadata) : outcome jump :=
  if len <? 8 then fail m else mret (Return true m).

Definition switch_ip_proto (p : ptr) (len ip_proto : Z) (m : parselite_metadata) : outcome jump :=
  let encap e := mret (Goto (PState SwitchEtherType p len ip_proto (set_eth_proto (bswap16 e) m))) in
  if (ip_proto =? IPPROTO_HOPOPTS) || (ip_proto =? IPPROTO_ROUTING) || (ip_proto =? IPPROTO_DSTOPTS) then ip_options p len m
  else if ip_proto =? IPPROTO_FRAGMENT then ip_fragment p len m
  else if ip_proto =? IPPROTO_TCP then ip_tcp p len m
  else if ip_proto =? IPPROTO_UDP then ip_udp p len m
  else if ip_proto =? IPPROTO_SCTP then ip_sctp p len m
  else if ip_proto =? IPPROTO_DCCP then ip_dccp p len m
  else if ip_proto =? IPPROTO_GRE then ip_gre p len ip_proto m
  else if ip_proto =? IPPROTO_ICMP then ip_icmp p len m
  else if ip_proto =? IPPROTO_IGMP then ip_igmp len m
  else if ip_proto =? IPPROTO_MPLS then encap ETH_P_MPLS_UC
  else if ip_proto =? IPPROTO_IPIP then encap ETH_P_IP
  else if ip_proto =? IPPROTO_IPV6 then encap ETH_P_IPV6
  else fail m.

(** ** The function *)

Definition parse_step (st : pstate) : outcome jump :=
  match at_label st with
  | SwitchEtherType => switch_ether_type (hdr st) (len st) (proto st) (md st)
  | SwitchIpProto => switch_ip_proto (hdr st) (len st) (proto st) (md st)
  end.

Fixpoint parse_from (fuel : nat) (st : pstate) : outcome (bool * parselite_metadata) :=
  match fuel with
  | O => NoFuel
  | S fuel =>
    j ← parse_step st;
    match j with
    | Return r m => mret (r, m)
    | Goto st => parse_from fuel st
    end
  end.

(** The jump before the first [switch]; [uninit] is the value of [ip_proto]. *)
Inductive start_mode := PARSELITE_START_ETHER | PARSELITE_START_ETHTYPE | PARSELITE_START_IP | OtherMode.

Definition parse_start (mode : start_mode) (uninit : Z) (p : ptr) (len : Z) (m : parselite_metadata) : outcome jump :=
  match mode with
  | PARSELITE_START_ETHER =>
    if len <? 14 then mret (Return false m) else
    e ← ld16 p 12; a ← ld_bytes 12 p 0;
    mret (Goto (PState SwitchEtherType (padd p 14) (len - 14) uninit (set_eth_addrs a (set_eth_proto e m))))
  | PARSELITE_START_ETHTYPE => mret (Goto (PState SwitchEtherType p len uninit m))
  | PARSELITE_START_IP =>
    if len <? 1 then fail m else
    b ← ld8 p 0;
    let next e := mret (Goto (PState SwitchEtherType p len uninit (set_eth_proto (bswap16 e) m))) in
    if Z.shiftr b 4 =? 4 then next ETH_P_IP else if Z.shiftr b 4 =? 6 then next ETH_P_IPV6 else fail m
  | OtherMode => fail m
  end.

Definition parselite_parse (fuel : nat) (mode : start_mode) (uninit : Z) (p : ptr) (len : Z) (m : parselite_metadata) : outcome (bool * parselite_metadata) :=
  j ← parse_start mode uninit p len m;
  match j with
  | Return r m => mret (r, m)
  | Goto st => parse_from fuel st
  end.
End Parse.

Section Api.
Context (rand uninit : Z) (fuel : nat).

Definition parselite_parse_ether (p : ptr) (len : Z) (m : parselite_metadata) : outcome (bool * parselite_metadata) :=
  parselite_parse PARSELITE_F_STOP_FLOWLABEL rand fuel PARSELITE_START_ETHER uninit p len m.
Definition parselite_parse_l3 (p : ptr) (len pr : Z) (m : parselite_metadata) : outcome (bool * parselite_metadata) :=
  parselite_parse PARSELITE_F_STOP_FLOWLABEL rand fuel PARSELITE_START_ETHTYPE uninit p len (set_eth_proto pr m).
Definition parselite_parse_ip (p : ptr) (len : Z) (m : parselite_metadata) : outcome (bool * parselite_metadata) :=
  parselite_parse PARSELITE_F_STOP_FLOWLABEL rand fuel PARSELITE_START_IP uninit p len m.

(** ** Hash *)

(** The structure has 112 bytes; the hash starts at [eth_proto], offset 48. *)
Definition parselite_hash_length (m : parselite_metadata) : Z :=
  let diff := 48 + 32 in
  let diff := if addr_type m =? PARSELITE_ATYPE_IPV4 then diff - 8 else if addr_type m =? PARSELITE_ATYPE_IPV6 then diff - 32 else diff in
  112 - diff.

(** The bytes of the structure from there on, with the padding behind
    [ip_proto] and at the end, which is zero. *)
Definition vlan_bytes (v : vlan_meta) : list Z :=
  le_bytes 2 (vlan_id v + Z.shiftl (vlan_dei v) 12 + Z.shiftl (vlan_priority v) 13) ++ le_bytes 2 (vlan_tpid v).
Definition hash_bytes (m : parselite_metadata) : list Z :=
  le_bytes 2 (eth_proto m) ++ [ip_proto m; 0] ++ le_bytes 4 (flow_label m) ++ concat (map vlan_bytes (vlan m)) ++
  le_bytes 4 (keyid m) ++ le_bytes 4 (ports m) ++ [icmp_type (icmp m); icmp_code (icmp m)] ++ le_bytes 2 (icmp_id (icmp m)) ++ addrs m ++ replicate 4 0.

Context (is_aligned : bool) (key : siphash_key_t).

Definition parselite_compute_hash (start : ptr) (len : Z) : outcome Z :=
  hash ← siphash is_aligned false start len key;
  let hash := u32 hash in
  mret (if hash =? 0 then 1 else hash).

(** The ports as an array of two. *)
Definition port16 (i : Z) (m : parselite_metadata) : Z := Z.land (Z.shiftr (ports m) (16 * i)) 0xffff.
Definition swap_ports (m : parselite_metadata) : parselite_metadata := set_ports (port16 1 m + Z.shiftl (port16 0 m) 16) m.
Definition swap_addrs (n : nat) (m : parselite_metadata) : parselite_metadata :=
  set_addrs (addr_type m) (take n (drop n (addrs m)) ++ take n (addrs m)) m.

Definition parselite_hash_metadata (m : parselite_metadata) : outcome (Z * parselite_metadata) :=
  m ← (if addr_type m =? PARSELITE_ATYPE_IPV4 then
         a0 ← ld32 (Ptr (addrs m) 0) 0; a1 ← ld32 (Ptr (addrs m) 0) 4;
         let addr_diff := s32 (a1 - a0) in
         mret (if (addr_diff <? 0) || ((addr_diff =? 0) && (port16 1 m <? port16 0 m)) then swap_ports (swap_addrs 4 m) else m)
       else if addr_type m =? PARSELITE_ATYPE_IPV6 then
         addr_diff ← memcmp 16 (Ptr (addrs m) 16) (Ptr (addrs m) 0) 0;
         mret (if (addr_diff <? 0) || ((addr_diff =? 0) && (port16 1 m <? port16 0 m)) then swap_ports (swap_addrs 16 m) else m)
       else mret m);
  hash ← parselite_compute_hash (Ptr (hash_bytes m) 0) (parselite_hash_length m);
  mret (hash, m).

Definition hash_if_parsed (r : outcome (bool * parselite_metadata)) : outcome Z :=
  '(ok, m) ← r;
  if (ok : bool) then fst <$> parselite_hash_metadata m else mret 0.

Definition parselite_hash_ether (p : ptr) (len : Z) : outcome Z := hash_if_parsed (parselite_parse_ether p len zero_metadata).
Definition parselite_hash_l3 (p : ptr) (len pr : Z) : outcome Z := hash_if_parsed (parselite_parse_l3 p len pr zero_metadata).
Definition parselite_hash_ip (p : ptr) (len : Z) : outcome Z := hash_if_parsed (parselite_parse_ip p len zero_metadata).
End Api.

(** The key given, or sixteen bytes of [rand()]. *)
Definition parselite_hash_secret_init (init_key : option siphash_key_t) (rand : nat -> Z) : siphash_key_t :=
  match init_key with
  | Some k => k
  | None => let bytes := (fun i => u8 (rand i)) <$> seq 0 16 in SiphashKey (le_val (take 8 bytes)) (le_val (drop 8 bytes))
  end.
