(* ===== verification/ParseliteProps.v ===== *)
(** * Parselite: correctness

    The parser stays inside the packet and returns unless it meets one of three
    headers that it does not check for; what it extracts and hashes; and what
    happens at those headers. *)

From stdpp Require Import base list numbers.
From S2P Require Import Prelude ParserTypes Parser ParserApi Metadata Parsers ParserProps SimpleHashSpec.
From S2P Require Import Bytes Siphash SiphashSpec Dtable FlowHash FlowHashSpec Parselite.

(** ** Headers that are not checked *)

(** An IPv4 header of length zero that holds another IPv4 packet. *)
Definition empty_ipip (p : ptr) (n : Z) : bool :=
  match ld8 p 0, ld8 p 9 with Done b, Done pr => (20 <=? n) && (Z.land b 0xf =? 0) && (pr =? IPPROTO_IPIP) | _, _ => false end.

(** An entropy label at the end of the packet. *)
Definition last_entropy (p : ptr) (n : Z) : bool :=
  match ld32 p 0 with Done w => (n <? 8) && (Z.shiftr (Z.land (bswap32 w) MPLS_LS_LABEL_MASK) 12 =? MPLS_LABEL_ENTROPY) | _ => false end.

(** A GRE header with a key and less than the offset of the key and four bytes
    behind it. *)
Definition late_key (p : ptr) (n : Z) : bool :=
  match ld16 p 0 with
  | Done f => bit_of f GRE_KEY && (n <? 4 + gre_v0_flags_length f ones32 + gre_v0_flags_length f GRE_KEY_OMASK + 4)
  | _ => false
  end.

Definition unchecked (st : pstate) : bool :=
  match at_label st with
  | SwitchEtherType =>
    (eth_proto (md st) =? bswap16 ETH_P_IP) && empty_ipip (hdr st) (len st) ||
    ((eth_proto (md st) =? bswap16 ETH_P_MPLS_UC) || (eth_proto (md st) =? bswap16 ETH_P_MPLS_MC)) && last_entropy (hdr st) (len st)
  | SwitchIpProto => (proto st =? IPPROTO_GRE) && late_key (hdr st) (len st)
  end.

(** ** Steps *)

Definition md_ok (m : parselite_metadata) : Prop := length (vlan m) = 2%nat /\ 0 <= vlan_count m.

Definition rank (st : pstate) : Z :=
  match at_label st with
  | SwitchEtherType => if eth_proto (md st) =? bswap16 ETH_P_IP then 3 else 1
  | SwitchIpProto => if proto st =? IPPROTO_IPIP then 4 else 2
  end.
Definition measure (st : pstate) : Z := 4 * len st + rank st.

Lemma rank_bounds st : 1 <= rank st <= 4.
Proof. unfold rank. repeat case_match; lia. Qed.

(** A step returns, or goes on with less. *)
Definition step_post (st : pstate) (j : jump) : Prop :=
  match j with Return _ _ => True | Goto st' => in_bounds (hdr st') (len st') /\ md_ok (md st') /\ measure st' < measure st end.

Lemma ld_bytes_wp s n : forall p k i (P : list Z -> Prop), in_bounds p k -> 0 <= i -> i + Z.of_nat n <= k ->
  (forall l, length l = n -> P l) -> wp s (ld_bytes n p i) P.
Proof.
  induction n as [| n IH]; intros p k i P Hb Hi Hk HP; [by apply HP |]. cbn [ld_bytes].
  eapply wp_bind; [apply (ld8_wp s p k i is_u8 Hb); [lia | done] |]. intros b _.
  eapply wp_bind; [apply (IH p k (i + 1) (fun l => length l = n) Hb); [lia | lia | done] |]. intros l Hl. apply HP. cbn. by rewrite Hl.
Qed.

(** Loads of a step. *)
Ltac step_ld :=
  match goal with
  | Hb : in_bounds ?p ?n |- wp _ (ld8 ?p ?i ≫= _) _ => eapply wp_bind; [apply (ld8_wp _ p n i is_u8 Hb); [lia | by intros ? ?] | intros ? ?]
  | Hb : in_bounds ?p ?n |- wp _ (ld16 ?p ?i ≫= _) _ => eapply wp_bind; [apply (ld16_wp _ p n i (fun b => 0 <= b < 2 ^ 16) Hb); [lia | lia | by intros ? ?] | intros ? ?]
  | Hb : in_bounds ?p ?n |- wp _ (ld32 ?p ?i ≫= _) _ => eapply wp_bind; [apply (ld32_wp _ p n i (fun b => 0 <= b < 2 ^ 32) Hb); [lia | lia | by intros ? ?] | intros ? ?]
  | Hb : in_bounds ?p ?n |- wp _ (ld_bytes ?k ?p ?i ≫= _) _ => eapply wp_bind; [apply (ld_bytes_wp _ k p n i (fun l => length l = k) Hb); [lia | lia | by intros ? ?] | intros ? ?]
  end.

Ltac step_auto := repeat first [step_ld | progress (unfold fail) | apply wp_ret; done | match goal with |- wp _ (if ?a <? ?b then _ else _) _ => destruct (Z.ltb_spec a b) end].

Section Step.
Context (flags rand : Z) (p : ptr) (n : Z) (m : parselite_metadata) (Hb : in_bounds p n) (Hm : md_ok m).

Lemma n_nonneg : 0 <= n.
Proof using Hb. by destruct Hb as (_ & ? & _). Qed.

(** Going on behind a header. *)
Lemma go_on lb h pr m' st : 4 <= h <= n -> md_ok m' -> 4 * n < measure st -> step_post st (Goto (PState lb (padd p h) (n - h) pr m')).
Proof using Hb.
  intros Hh Hm' Hst. split_and!; [by apply in_bounds_padd; [| lia] | done |]. unfold measure at 1. cbn [len].
  pose proof (rank_bounds (PState lb (padd p h) (n - h) pr m')). lia.
Qed.

Lemma ether_ipv4_step pr : empty_ipip p n = false -> eth_proto m = bswap16 ETH_P_IP ->
  wp true (ether_ipv4 flags p n m) (step_post (PState SwitchEtherType p n pr m)).
Proof using Hb Hm.
  intros Hbad He. unfold ether_ipv4. step_auto. unfold ipv4_len.
  assert (exists b9, ld8 p 9 = Done b9) as [b9 E9] by (pose proof (ld8_wp true p n 9 (fun _ => True) Hb ltac:(lia) ltac:(done)) as W; destruct (ld8 p 9); [eauto | done | done]).
  assert (exists b0, ld8 p 0 = Done b0 /\ is_u8 b0) as (b0 & E0 & U0) by (pose proof (ld8_wp true p n 0 is_u8 Hb ltac:(lia) ltac:(done)) as W; destruct (ld8 p 0); [eauto | done | done]).
  unfold empty_ipip in Hbad. rewrite E0, E9 in Hbad. rewrite E0. change (Done b0 ≫= ?f) with (f b0). cbn beta. change (mret ?x ≫= ?f) with (f x). cbn beta.
  destruct (Z.ltb_spec n (Z.land b0 15 * 4)); [done |]. rewrite E9. change (Done b9 ≫= ?f) with (f b9). cbn beta. repeat step_ld.
  pose proof (Z.land_nonneg b0 15) as Hland. set (h := Z.land b0 15) in *.
  assert (forall m', md_ok m' -> step_post (PState SwitchEtherType p n pr m) (Goto (PState SwitchIpProto (padd p (h * 4)) (n - h * 4) b9 m'))) as Hgo.
  { intros m' Hm'. split_and!; [apply in_bounds_padd; [done | lia] | done |]. unfold measure, rank. cbn [len at_label md proto]. rewrite He, Z.eqb_refl.
    destruct (Z.leb_spec 20 n); [| lia]. destruct (Z.eqb_spec h 0), (Z.eqb_spec b9 IPPROTO_IPIP); cbn in Hbad; try done; lia. }
  repeat case_match; apply wp_ret; try done; apply Hgo; exact Hm.
Qed.

Lemma ether_ipv6_step st : 4 * n < measure st -> wp true (ether_ipv6 flags p n m) (step_post st).
Proof using Hb Hm.
  intros Hst. unfold ether_ipv6. step_auto. unfold ip6_flowlabel, ipv6_get_dsfield. eapply wp_bind with (Q := fun _ => True); [step_ld; by apply wp_ret |]. intros fl _.
  eapply wp_bind with (Q := fun _ => True); [step_ld; by apply wp_ret |]. intros t _. step_auto. case_match; apply wp_ret; [done |]. apply go_on; [lia | exact Hm | exact Hst].
Qed.

Lemma ether_vlan_step st pr : 4 * n < measure st -> wp true (ether_vlan p n pr m) (step_post st).
Proof using Hb Hm.
  intros Hst. unfold ether_vlan. step_auto. destruct Hm as [Hv Hc]. cbn [vlan_count set_eth_proto vlan].
  assert (exists i c, (if vlan_count m <? 2 then (vlan_count m, vlan_count m + 1) else (1, vlan_count m)) = (i, c) /\ 0 <= i < 2 /\ 0 <= c) as (i & c & -> & Hi & Hc')
    by (destruct (Z.ltb_spec (vlan_count m) 2); eexists _, _; split_and!; (done || lia)).
  destruct (lookup_lt_is_Some_2 (vlan m) (Z.to_nat i)) as [v Ev]; [lia |]. rewrite Ev. cbn [deref]. eapply wp_bind with (Q := fun _ => True); [by apply wp_done |]. intros old _.
  apply wp_ret. apply go_on; [lia | | exact Hst]. split; [cbn; by rewrite length_insert | exact Hc'].
Qed.

Lemma ether_mpls_step st : last_entropy p n = false -> wp true (ether_mpls p n m) (step_post st).
Proof using Hb.
  intros Hbad. unfold ether_mpls. destruct (Z.ltb_spec n 4); [done |]. assert (exists w, ld32 p 0 = Done w) as [w Ew]
    by (pose proof (ld32_wp true p n 0 (fun _ => True) Hb ltac:(lia) ltac:(lia) ltac:(done)) as W; destruct (ld32 p 0); [eauto | done | done]).
  unfold last_entropy in Hbad. rewrite Ew in Hbad |- *. change (Done w ≫= ?f) with (f w). cbn beta zeta.
  destruct (Z.shiftr (Z.land (bswap32 w) MPLS_LS_LABEL_MASK) 12 =? MPLS_LABEL_ENTROPY).
  - rewrite andb_true_r in Hbad. apply Z.ltb_ge in Hbad. eapply wp_bind with (Q := fun _ => True); [step_ld; by apply wp_ret |]. intros m' _. by apply wp_ret.
  - eapply wp_bind with (Q := fun _ => True); [by apply wp_ret |]. intros m' _. by apply wp_ret.
Qed.

Lemma ether_arp_step st : wp true (ether_arp p n m) (step_post st).
Proof using Hb. unfold ether_arp. step_auto. case_match; [done |]. step_auto. Qed.

Lemma ether_tipc_step st : wp true (ether_tipc rand p n m) (step_post st).
Proof using Hb.
  unfold ether_tipc. step_auto. eapply wp_bind with (Q := fun _ => True); [case_match; [by apply wp_ret |] |]; [| intros k _; by apply wp_ret].
  by apply (ld32_wp _ p n 12 (fun _ => True) Hb); [lia | lia |].
Qed.

Lemma ether_batman_step st pr : 4 * n < measure st -> wp true (ether_batman p n pr m) (step_post st).
Proof using Hb Hm. intros Hst. unfold ether_batman. step_auto. case_match; [done |]. step_auto. apply wp_ret. apply go_on; [lia | exact Hm | exact Hst]. Qed.

Lemma ether_ppp_step st pr : 4 * n < measure st -> wp true (ether_ppp p n pr m) (step_post st).
Proof using Hb Hm. intros Hst. unfold ether_ppp. step_auto. repeat case_match; [apply wp_ret; apply go_on; [lia | exact Hm | exact Hst].. | done]. Qed.

Lemma switch_ether_step pr : unchecked (PState SwitchEtherType p n pr m) = false ->
  wp true (switch_ether_type flags rand p n pr m) (step_post (PState SwitchEtherType p n pr m)).
Proof using Hb Hm.
  unfold unchecked. cbn [at_label md hdr len]. intros Hbad. apply orb_false_iff in Hbad as [H1 H2]. unfold switch_ether_type.
  assert (4 * n < measure (PState SwitchEtherType p n pr m)) as Hst by (unfold measure; pose proof (rank_bounds (PState SwitchEtherType p n pr m)); cbn [len]; lia).
  destruct (Z.eqb_spec (eth_proto m) (bswap16 ETH_P_IP)) as [E |]; [by apply ether_ipv4_step |].
  destruct (_ =? bswap16 ETH_P_IPV6); [by apply ether_ipv6_step |].
  destruct ((eth_proto m =? bswap16 ETH_P_8021AD) || _); [by apply ether_vlan_step |].
  destruct ((eth_proto m =? bswap16 ETH_P_MPLS_UC) || _); [by apply ether_mpls_step |]. destruct (_ || _); [apply ether_arp_step |]. destruct (_ =? _); [apply ether_tipc_step |].
  destruct (_ =? _); [by apply ether_batman_step |]. destruct (_ =? _); [unfold ether_fcoe; step_auto |]. destruct (_ =? _); [by apply ether_ppp_step | done].
Qed.

Lemma ip_options_step st : 4 * n < measure st -> wp true (ip_options p n m) (step_post st).
Proof using Hb Hm.
  intros Hst. unfold ip_options, ipv6_optlen. case_match; [done |]. step_auto. eapply wp_bind with (Q := fun h => 8 <= h).
  - step_ld. apply wp_ret. unfold is_u8 in *. rewrite Z.shiftl_mul_pow2 by lia. lia.
  - intros h Hh. step_auto. apply wp_ret. apply go_on; [lia | exact Hm | exact Hst].
Qed.

Lemma ip_fragment_step st : 4 * n < measure st -> wp true (ip_fragment flags p n m) (step_post st).
Proof using Hb Hm.
  intros Hst. unfold ip_fragment. case_match; [done |]. step_auto. case_match; [done |]. step_auto. apply wp_ret. apply go_on; [lia | exact Hm | exact Hst].
Qed.

Lemma ip_tcp_step st : wp true (ip_tcp p n m) (step_post st).
Proof using Hb.
  unfold ip_tcp, tcp_len. step_auto. eapply wp_bind with (Q := fun _ => True); [step_ld; by apply wp_ret |]. intros h _. step_auto.
Qed.

Lemma ip_ports_step k st : 4 <= k -> wp true (ip_ports k p n m) (step_post st).
Proof using Hb. intros Hk. unfold ip_ports. step_auto. Qed.

(** The version is in the second byte, so that it is not one. *)
Lemma gre_version_not_1 f : Z.land f GRE_VERSION <> 1.
Proof using. intros E. apply (f_equal (fun z => Z.testbit z 0)) in E. rewrite Z.land_spec in E. change (Z.testbit GRE_VERSION 0) with false in E. by rewrite andb_false_r in E. Qed.

Lemma gre_length_bounds f k : 0 <= __gre_flags_length f k <= 16.
Proof using. unfold __gre_flags_length. repeat case_match; lia. Qed.

Lemma ip_gre_step st pr : late_key p n = false -> 4 * n < measure st -> wp true (ip_gre p n pr m) (step_post st).
Proof using Hb Hm.
  intros Hbad Hst. unfold ip_gre. destruct (Z.ltb_spec n 4); [done |]. assert (exists f, ld16 p 0 = Done f) as [f Ef]
    by (pose proof (ld16_wp true p n 0 (fun _ => True) Hb ltac:(lia) ltac:(lia) ltac:(done)) as W; destruct (ld16 p 0); [eauto | done | done]).
  unfold late_key in Hbad. rewrite Ef in Hbad |- *. change (Done f ≫= ?g) with (g f). cbn beta zeta. case_match; [done |]. step_ld.
  destruct (_ =? 0); [| by destruct (Z.eqb_spec (Z.land f GRE_VERSION) 1) as [E |]; [destruct (gre_version_not_1 f) |]].
  unfold gre_v0, gre_v0_flags_offset. pose proof (gre_length_bounds f (Z.land ones32 (u32 (Z.lnot GRE_ACK)))) as HL. fold (gre_v0_flags_length f ones32) in HL.
  pose proof (gre_length_bounds f (Z.land GRE_KEY_OMASK (u32 (Z.lnot GRE_ACK)))) as HK. fold (gre_v0_flags_length f GRE_KEY_OMASK) in HK.
  set (L := gre_v0_flags_length f ones32) in *. set (K := gre_v0_flags_length f GRE_KEY_OMASK) in *. step_auto.
  eapply wp_bind with (Q := md_ok).
  - destruct (bit_of f GRE_KEY); [| apply wp_ret; done]. destruct (Z.leb_spec 0 K); [| apply wp_ret; done]. cbn in Hbad. apply Z.ltb_ge in Hbad.
    pose proof (in_bounds_padd p n (4 + L) Hb ltac:(lia)) as Hq. step_ld. apply wp_ret. done.
  - intros m' Hm'. case_match.
    + step_auto. apply wp_ret. rewrite padd_padd. replace (n - (4 + L) - 14) with (n - (4 + L + 14)) by lia. apply go_on; [lia | exact Hm' | exact Hst].
    + apply wp_ret. apply go_on; [lia | exact Hm' | exact Hst].
Qed.

Lemma switch_ip_step pr : unchecked (PState SwitchIpProto p n pr m) = false ->
  wp true (switch_ip_proto flags p n pr m) (step_post (PState SwitchIpProto p n pr m)).
Proof using Hb Hm.
  unfold unchecked. cbn [at_label proto hdr len]. intros Hbad. unfold switch_ip_proto.
  assert (4 * n < measure (PState SwitchIpProto p n pr m)) as Hst by (unfold measure; pose proof (rank_bounds (PState SwitchIpProto p n pr m)); cbn [len]; lia).
  destruct (_ || _); [by apply ip_options_step |]. destruct (pr =? IPPROTO_FRAGMENT); [by apply ip_fragment_step |].
  destruct (pr =? IPPROTO_TCP); [apply ip_tcp_step |]. destruct (pr =? IPPROTO_UDP); [unfold ip_udp; step_auto |].
  destruct (pr =? IPPROTO_SCTP); [by apply ip_ports_step |]. destruct (pr =? IPPROTO_DCCP); [by apply ip_ports_step |].
  destruct (pr =? IPPROTO_GRE); [by apply ip_gre_step |]. destruct (pr =? IPPROTO_ICMP); [unfold ip_icmp; step_auto |].
  destruct (pr =? IPPROTO_IGMP); [unfold ip_igmp; step_auto |].
  destruct (pr =? IPPROTO_MPLS) eqn:E1; [| destruct (pr =? IPPROTO_IPIP) eqn:E2; [| destruct (pr =? IPPROTO_IPV6) eqn:E3; [| done]]]; apply wp_ret;
    (split_and!; [exact Hb | exact Hm |]); unfold measure, rank; cbn [len at_label md eth_proto set_eth_proto proto].
  - apply Z.eqb_eq in E1. rewrite E1. change (bswap16 ETH_P_MPLS_UC =? bswap16 ETH_P_IP) with false. change (IPPROTO_MPLS =? IPPROTO_IPIP) with false. cbn iota. lia.
  - rewrite E2, Z.eqb_refl. cbn iota. lia.
  - rewrite E2. change (bswap16 ETH_P_IPV6 =? bswap16 ETH_P_IP) with false. cbn iota. lia.
Qed.
End Step.

Lemma parse_step_ok flags rand st : in_bounds (hdr st) (len st) -> md_ok (md st) -> unchecked st = false -> wp true (parse_step flags rand st) (step_post st).
Proof. destruct st as [[|] p n pr m]; cbn; intros; [by apply switch_ether_step | by apply switch_ip_step]. Qed.

(** ** Runs *)

Inductive reaches (flags rand : Z) : pstate -> pstate -> Prop :=
| reaches_refl st : reaches flags rand st st
| reaches_step st st1 st2 : parse_step flags rand st = Done (Goto st1) -> reaches flags rand st1 st2 -> reaches flags rand st st2.

Lemma parse_from_total flags rand fuel : forall st, in_bounds (hdr st) (len st) -> md_ok (md st) -> measure st < Z.of_nat fuel ->
  (exists r, parse_from flags rand fuel st = Done r) \/ (exists st', reaches flags rand st st' /\ unchecked st' = true).
Proof.
  induction fuel as [| fuel IH]; intros st Hb Hm Hf.
  { unfold measure in Hf. pose proof (rank_bounds st). destruct Hb as (_ & ? & _). lia. }
  destruct (unchecked st) eqn:Hu; [right; exists st; split; [apply reaches_refl | done] |].
  pose proof (parse_step_ok flags rand st Hb Hm Hu) as Hs. apply wp_strict_done in Hs as (j & Ej & Hj). cbn [parse_from]. rewrite Ej. cbn.
  destruct j as [st1 | r m]; [| left; by exists (r, m)]. destruct Hj as (Hb1 & Hm1 & Hlt).
  destruct (IH st1 Hb1 Hm1 ltac:(lia)) as [? | (st' & Hr & Hu')]; [by left |]. right. exists st'. split; [by eapply reaches_step | done].
Qed.

Lemma parse_start_ok mode uninit p n m : in_bounds p n -> md_ok m ->
  wp true (parse_start mode uninit p n m) (fun j => match j with Return _ _ => True | Goto st => in_bounds (hdr st) (len st) /\ md_ok (md st) /\ measure st <= 4 * n + 4 end).
Proof.
  intros Hb Hm. assert (forall st, len st <= n -> measure st <= 4 * n + 4) as Hme by (intros st Hl; unfold measure; pose proof (rank_bounds st); lia).
  pose proof Hb as (_ & Hn & _). destruct mode; cbn [parse_start].
  - step_auto. apply wp_ret. split_and!; [by apply in_bounds_padd; [| lia] | exact Hm |]. apply Hme. cbn. lia.
  - apply wp_ret. split_and!; [exact Hb | exact Hm |]. apply Hme. cbn. lia.
  - step_auto. repeat case_match; try done; apply wp_ret; (split_and!; [exact Hb | exact Hm |]); apply Hme; cbn; lia.
  - done.
Qed.

(** C30: parselite is memory safe and returns. For every packet, flags, start mode
    and result of [rand()], [parselite_parse] either returns after at most
    [4 * len + 5] jumps without a load outside of the packet, or the run comes to a
    header that the code does not check: an IPv4 header whose length field is zero
    and that holds IPv4, an MPLS entropy label in the last four bytes, or a GRE
    header with a key and too few bytes behind it. *)
Theorem parselite_total flags rand mode uninit p n m fuel :
  in_bounds p n -> md_ok m -> 4 * n + 5 <= Z.of_nat fuel ->
  (exists r, parselite_parse flags rand fuel mode uninit p n m = Done r) \/
  (exists st st', parse_start mode uninit p n m = Done (Goto st) /\ reaches flags rand st st' /\ unchecked st' = true).
Proof.
  intros Hb Hm Hf. pose proof (parse_start_ok mode uninit p n m Hb Hm) as Hs. apply wp_strict_done in Hs as (j & Ej & Hj).
  unfold parselite_parse. rewrite Ej. change (Done j ≫= ?f) with (f j). cbn beta. destruct j as [st | r m']; [| left; by exists (r, m')].
  destruct Hj as (Hb1 & Hm1 & Hlt). destruct (parse_from_total flags rand fuel st Hb1 Hm1 ltac:(lia)) as [? | (st' & Hr & Hu)]; [by left |]. right. by exists st, st'.
Qed.

(** An Ethernet frame with an IPv4 packet that holds UDP, and the ports. *)
Definition lite_udp : list Z :=
  [2; 0; 0; 0; 0; 1; 2; 0; 0; 0; 0; 2; 8; 0] ++ [0x45; 0; 0; 28; 0; 0; 0; 0; 64; 17; 0; 0; 10; 0; 0; 1; 10; 0; 0; 2] ++ [0; 80; 0; 90; 0; 8; 0; 0].

Lemma zero_metadata_ok : md_ok zero_metadata.
Proof. split; [done | cbn; lia]. Qed.

Lemma lite_udp_ok : in_bounds (Ptr lite_udp 0) 42.
Proof.
  unfold in_bounds, lite_udp. split_and!; [cbn; lia.. |]. cbn [pbuf app]. repeat (apply Forall_cons_2; [unfold is_u8; lia |]). apply Forall_nil_2.
Qed.

Lemma parselite_total_witness : exists r, parselite_parse 2 0 173 PARSELITE_START_ETHER 0 (Ptr lite_udp 0) 42 zero_metadata = Done r.
Proof.
  destruct (parselite_total 2 0 PARSELITE_START_ETHER 0 (Ptr lite_udp 0) 42 zero_metadata 173 lite_udp_ok zero_metadata_ok ltac:(lia)) as [H | (st & st' & Hs & Hr & Hu)]; [exact H |].
  exfalso. injection Hs as <-. inversion Hr as [| ? st1 ? E1 Hr1]; subst; [discriminate Hu |]. injection E1 as <-.
  inversion Hr1 as [| ? st2 ? E2 Hr2]; subst; [discriminate Hu |]. discriminate E2.
Defined.

(** ** The headers that are not checked *)

(** C40: [parselite_parse] does not return for a packet with an unfragmented IPv4
    header whose length field is zero and that holds IPv4: the header is not
    removed, so that it is its own payload, and [max_encaps] does not stop it. *)
Theorem parselite_empty_ipip_loops flags rand p n m pr frag fuel :
  in_bounds p n -> eth_proto m = bswap16 ETH_P_IP -> empty_ipip p n = true -> ld16 p 6 = Done frag -> bit_of frag (bswap16 (Z.lor IP_MF IP_OFFSET)) = false ->
  parse_from flags rand fuel (PState SwitchEtherType p n pr m) = NoFuel /\ parse_from flags rand fuel (PState SwitchIpProto p n IPPROTO_IPIP m) = NoFuel.
Proof.
  intros Hb He Hbad Hfrag Hbit. revert pr m He. unfold empty_ipip in Hbad. destruct (ld8 p 0) as [b0 | |] eqn:E0; try discriminate.
  destruct (ld8 p 9) as [b9 | |] eqn:E9; try discriminate. apply andb_true_iff in Hbad as [Hbad E4%Z.eqb_eq]. apply andb_true_iff in Hbad as [H20%Z.leb_le Eh%Z.eqb_eq]. subst b9.
  assert (forall i, 0 <= i < n -> exists b, ld8 p i = Done b) as Hld by (intros i Hi; pose proof (ld8_wp true p n i (fun _ => True) Hb Hi ltac:(done)) as W; destruct (ld8 p i); [eauto | done | done]).
  destruct (Hld 1 ltac:(lia)) as [b1 E1], (Hld 8 ltac:(lia)) as [b8 E8].
  assert (exists a, ld_bytes 8 p 12 = Done a) as [a Ea] by (pose proof (ld_bytes_wp true 8 p n 12 (fun _ => True) Hb ltac:(lia) ltac:(lia) ltac:(done)) as W; destruct (ld_bytes 8 p 12); [eauto | done | done]).
  induction fuel as [| fuel IH]; intros pr m He; [done |]. split.
  - cbn [parse_from]. unfold parse_step. cbn [at_label hdr len proto md]. unfold switch_ether_type. rewrite He, Z.eqb_refl. unfold ether_ipv4, ipv4_len.
    destruct (Z.ltb_spec n 20); [lia |]. rewrite E0. orun. rewrite Eh. destruct (Z.ltb_spec n (0 * 4)); [lia |].
    rewrite E9, Hfrag, E1, E8, Ea, Hbit. change (0 * 4) with 0. rewrite Z.sub_0_r, padd_0. by apply (IH 0).
  - change (parse_from flags rand fuel (PState SwitchEtherType p n IPPROTO_IPIP (set_eth_proto (bswap16 ETH_P_IP) m)) = NoFuel). by apply IH.
Qed.

(** The IPv4 header starts the packet. *)
Definition lite_loop : list Z := [0x40; 0; 0; 28; 0; 0; 0; 0; 64; 4; 0; 0; 10; 0; 0; 1; 10; 0; 0; 2].

Lemma lite_loop_ok : in_bounds (Ptr lite_loop 0) 20.
Proof. unfold in_bounds, lite_loop. split_and!; [cbn; lia.. |]. cbn [pbuf]. repeat (apply Forall_cons_2; [unfold is_u8; lia |]). apply Forall_nil_2. Qed.

Lemma parselite_empty_ipip_loops_witness : parselite_parse_ip 0 0 5000 (Ptr lite_loop 0) 20 zero_metadata = NoFuel.
Proof.
  apply (parselite_empty_ipip_loops 2 0 (Ptr lite_loop 0) 20 (set_eth_proto (bswap16 ETH_P_IP) zero_metadata) 0 0 5000 lite_loop_ok); reflexivity.
Defined.

(** ** What is extracted *)

Lemma ld_bytes_slice n : forall pkt (off : nat), (off + n <= length pkt)%nat -> forall p i, poff p + i = Z.of_nat off -> pbuf p = pkt -> ld_bytes n p i = Done (slice off n pkt).
Proof.
  induction n as [| n IH]; intros pkt off Hl p i Hp Hb; [done |]. cbn [ld_bytes]. destruct (lookup_lt_is_Some_2 pkt off) as [b Eb]; [lia |].
  unfold ld8. rewrite Hp, Hb. destruct (Z.ltb_spec (Z.of_nat off) 0); [lia |]. rewrite Nat2Z.id, Eb. orun.
  rewrite (IH pkt (S off)); [| lia | lia | done]. f_equal. unfold slice. by rewrite (drop_S _ _ _ Eb).
Qed.

Lemma ld8_slot pkt (off : nat) b p i : poff p + i = Z.of_nat off -> pbuf p = pkt -> pkt !! off = Some b -> ld8 p i = Done b.
Proof. intros Hp Hb Eb. unfold ld8. rewrite Hp, Hb. destruct (Z.ltb_spec (Z.of_nat off) 0); [lia |]. by rewrite Nat2Z.id, Eb. Qed.

Lemma le_bytes_4 b0 b1 b2 b3 : is_u8 b0 -> is_u8 b1 -> is_u8 b2 -> is_u8 b3 -> le_bytes 4 (b0 + 2 ^ 8 * b1 + 2 ^ 16 * (b2 + 2 ^ 8 * b3)) = [b0; b1; b2; b3].
Proof.
  unfold is_u8. intros H0 H1 H2 H3. cbn [le_bytes].
  assert (forall x y, 0 <= x < 2 ^ 8 -> (x + 2 ^ 8 * y) mod 2 ^ 8 = x /\ (x + 2 ^ 8 * y) / 2 ^ 8 = y) as D.
  { intros x y Hx. rewrite (Z.mul_comm (2 ^ 8) y), Z.mod_add, Z.div_add, Z.mod_small, Z.div_small by lia. lia. }
  replace (b0 + 2 ^ 8 * b1 + 2 ^ 16 * (b2 + 2 ^ 8 * b3)) with (b0 + 2 ^ 8 * (b1 + 2 ^ 8 * (b2 + 2 ^ 8 * b3))) by lia.
  destruct (D b0 (b1 + 2 ^ 8 * (b2 + 2 ^ 8 * b3)) H0) as [-> ->]. destruct (D b1 (b2 + 2 ^ 8 * b3) H1) as [-> ->]. destruct (D b2 b3 H2) as [-> ->].
  by rewrite Z.mod_small by lia.
Qed.

(** The four bytes of a load. *)
Lemma ld32_slice pkt (off : nat) : (off + 4 <= length pkt)%nat -> Forall is_u8 pkt ->
  exists w, (forall p i, poff p + i = Z.of_nat off -> pbuf p = pkt -> ld32 p i = Done w) /\ le_bytes 4 w = slice off 4 pkt.
Proof.
  intros Hl Hu. assert (forall j, (j < 4)%nat -> exists b, pkt !! (off + j)%nat = Some b /\ is_u8 b) as Hb.
  { intros j Hj. destruct (lookup_lt_is_Some_2 pkt (off + j)) as [b Eb]; [lia |]. exists b. split; [done |]. by eapply Forall_lookup_1. }
  destruct (Hb 0%nat ltac:(lia)) as (b0 & E0 & U0), (Hb 1%nat ltac:(lia)) as (b1 & E1 & U1), (Hb 2%nat ltac:(lia)) as (b2 & E2 & U2), (Hb 3%nat ltac:(lia)) as (b3 & E3 & U3).
  exists (b0 + 2 ^ 8 * b1 + 2 ^ 16 * (b2 + 2 ^ 8 * b3)). split.
  - intros p i Hp Hbf. unfold ld32, ld16. rewrite (ld8_slot pkt (off + 0) b0 p i), (ld8_slot pkt (off + 1) b1 p (i + 1)), (ld8_slot pkt (off + 2) b2 p (i + 2)), (ld8_slot pkt (off + 3) b3 p (i + 2 + 1)) by (done || lia). done.
  - rewrite le_bytes_4 by done. rewrite Nat.add_0_r in E0. unfold slice. rewrite (drop_S _ _ _ E0), (drop_S pkt b1 (S off)), (drop_S pkt b2 (S (S off))), (drop_S pkt b3 (S (S (S off)))); [done | ..];
      first [by replace (S off) with (off + 1)%nat by lia | by replace (S (S off)) with (off + 2)%nat by lia | by replace (S (S (S off))) with (off + 3)%nat by lia].
Qed.

(** The transport header is in the packet. *)
Definition l4_complete (pkt : list Z) (ihl pr : Z) : Prop :=
  let rest := Z.of_nat (length pkt) - 14 - 4 * ihl in
  (pr = IPPROTO_UDP -> 8 <= rest) /\ (pr = IPPROTO_SCTP \/ pr = IPPROTO_DCCP -> 12 <= rest) /\
  (pr = IPPROTO_TCP -> 20 <= rest /\ exists b, pkt !! Z.to_nat (14 + 4 * ihl + 12) = Some b /\ Z.shiftr b 4 * 4 <= rest).

(** What the metadata says about the packet. *)
Record extracted (pkt : list Z) (ihl pr : Z) (m : parselite_metadata) : Prop := Extracted {
  ex_eth_addrs : eth_addrs m = slice 0 12 pkt;
  ex_eth_proto : eth_proto m = bswap16 ETH_P_IP;
  ex_ip_proto : ip_proto m = pr;
  ex_addr_type : addr_type m = PARSELITE_ATYPE_IPV4;
  ex_fragment : is_fragment m = 0;
  ex_addrs : take 8 (addrs m) = slice 26 8 pkt;
  ex_ports : le_bytes 4 (ports m) = slice (Z.to_nat (14 + 4 * ihl)) 4 pkt }.

Section Extract.
Context (pkt : list Z) (ihl pr f : Z) (Hp : ipv4_ports_packet pkt ihl pr) (Hf : pkt !! 20%nat = Some f) (Hnf : Z.land f 0x3f = 0).
Context (Hl4 : l4_complete pkt ihl pr).
Abbreviation n := (Z.of_nat (length pkt)).

Lemma frag_clear : bit_of f (bswap16 (Z.lor IP_MF IP_OFFSET)) = false.
Proof using Hp Hf Hnf.
  assert (is_u8 f) as Hu by (eapply Forall_lookup_1; [exact (proj1 (ip_bytes _ _ _ Hp)) | exact Hf]).
  assert (f = Z.land f 0xff) as E by (change 0xff with (Z.ones 8); rewrite Z.land_ones by lia; symmetry; apply Z.mod_small; exact Hu).
  unfold bit_of. change (bswap16 (Z.lor IP_MF IP_OFFSET)) with 0xff3f. rewrite E, <- Z.land_assoc. change (Z.land 0xff 0xff3f) with 0x3f. by rewrite Hnf.
Qed.

(** The transport headers. *)
Lemma ports_case m : exists w, le_bytes 4 w = slice (Z.to_nat (14 + 4 * ihl)) 4 pkt /\
  (is_fragment m = 0 -> exists t, switch_ip_proto PARSELITE_F_STOP_FLOWLABEL (Ptr pkt (14 + 4 * ihl)) (n - 14 - 4 * ihl) pr m = Done (Return true (t (set_ports w m))) /\
    (forall m', eth_addrs (t m') = eth_addrs m' /\ eth_proto (t m') = eth_proto m' /\ ip_proto (t m') = ip_proto m' /\ addr_type (t m') = addr_type m' /\
       is_fragment (t m') = is_fragment m' /\ addrs (t m') = addrs m' /\ ports (t m') = ports m')).
Proof using Hp Hl4.
  pose proof (ip_ihl _ _ _ Hp) as Hi. pose proof (ip_len _ _ _ Hp) as Hn. destruct (ip_bytes _ _ _ Hp) as [Hu _].
  destruct (ld32_slice pkt (Z.to_nat (14 + 4 * ihl)) ltac:(lia) Hu) as (w & Hw & Ew). exists w. split; [exact Ew |]. intros Hfr.
  pose proof (Hw (Ptr pkt (14 + 4 * ihl)) 0 ltac:(cbn; lia) eq_refl) as Hw0. destruct Hl4 as (L1 & L2 & L3).
  destruct (SimpleHashSpec.ip_ports _ _ _ Hp) as [E | [E | [E | E]]]; subst pr.
  - destruct (L3 eq_refl) as (Hr & b & Eb & Hb). destruct (ld32_slice pkt (Z.to_nat (14 + 4 * ihl + 12)) ltac:(lia) Hu) as (v & Hv & _).
    pose proof (Hv (Ptr pkt (14 + 4 * ihl)) 12 ltac:(cbn; lia) eq_refl) as Hv0.
    exists (set_tcp_flags (u16 (Z.land v (bswap16 0x0fff)))). split; [| intros m'; split_and!; reflexivity].
    change (switch_ip_proto _ _ _ _ _) with (ip_tcp (Ptr pkt (14 + 4 * ihl)) (n - 14 - 4 * ihl) m). unfold ip_tcp, tcp_len.
    destruct (Z.ltb_spec (n - 14 - 4 * ihl) 20); [lia |]. rewrite (ld8_slot pkt (Z.to_nat (14 + 4 * ihl + 12)) b) by (done || (cbn; lia)). orun.
    destruct (Z.ltb_spec (n - 14 - 4 * ihl) (Z.shiftr b 4 * 4)); [lia |]. rewrite Hw0, Hv0, Hfr. reflexivity.
  - exists (fun m => m). split; [| intros m'; split_and!; reflexivity]. specialize (L1 eq_refl).
    change (switch_ip_proto _ _ _ _ _) with (ip_udp (Ptr pkt (14 + 4 * ihl)) (n - 14 - 4 * ihl) m). unfold ip_udp.
    destruct (Z.ltb_spec (n - 14 - 4 * ihl) 8); [lia |]. rewrite Hw0, Hfr. reflexivity.
  - exists (fun m => m). split; [| intros m'; split_and!; reflexivity]. specialize (L2 (or_introl eq_refl)).
    change (switch_ip_proto _ _ _ _ _) with (ip_sctp (Ptr pkt (14 + 4 * ihl)) (n - 14 - 4 * ihl) m). unfold ip_sctp, ip_ports.
    destruct (Z.ltb_spec (n - 14 - 4 * ihl) 12); [lia |]. rewrite Hw0. reflexivity.
  - exists (fun m => m). split; [| intros m'; split_and!; reflexivity]. specialize (L2 (or_intror eq_refl)).
    change (switch_ip_proto _ _ _ _ _) with (ip_dccp (Ptr pkt (14 + 4 * ihl)) (n - 14 - 4 * ihl) m). unfold ip_dccp, ip_ports.
    destruct (Z.ltb_spec (n - 14 - 4 * ihl) 12); [lia |]. rewrite Hw0. reflexivity.
Qed.

Lemma lite_run rand uninit fuel : (2 <= fuel)%nat ->
  exists m, parselite_parse_ether rand uninit fuel (Ptr pkt 0) n zero_metadata = Done (true, m) /\ extracted pkt ihl pr m.
Proof using Hp Hf Hnf Hl4.
  intros Hfu. destruct fuel as [| [| fuel]]; [lia | lia |]. pose proof (ip_ihl _ _ _ Hp) as Hi. pose proof (ip_len _ _ _ Hp) as Hn. destruct (ip_bytes _ _ _ Hp) as [Hu _].
  pose proof (ihl_nibble pkt ihl pr Hp) as [_ Hnib]. destruct (lookup_lt_is_Some_2 pkt 15) as [t Et]; [lia |]. destruct (lookup_lt_is_Some_2 pkt 22) as [l El]; [lia |].
  set (m1 := set_eth_addrs (slice 0 12 pkt) (set_eth_proto 8 zero_metadata)). set (m2 := set_addrs PARSELITE_ATYPE_IPV4 (slice 26 8 pkt) (set_ip pr t l m1)).
  destruct (ports_case m2) as (w & Ew & Hpc). destruct (Hpc eq_refl) as (g & Eg & Hg). exists (g (set_ports w m2)). split.
  - unfold parselite_parse_ether, parselite_parse, parse_start. destruct (Z.ltb_spec n 14); [lia |].
    assert (ld16 (Ptr pkt 0) 12 = Done 8) as -> by (unfold ld16; rewrite (ld8_slot pkt 12 8 (Ptr pkt 0) 12), (ld8_slot pkt 13 0 (Ptr pkt 0) (12 + 1)) by (done || apply Hp); done).
    rewrite (ld_bytes_slice 12 pkt 0) by (done || lia). orun. fold m1. cbn [parse_from].
    assert (parse_step PARSELITE_F_STOP_FLOWLABEL rand (PState SwitchEtherType (padd (Ptr pkt 0) 14) (n - 14) uninit m1) =
      Done (Goto (PState SwitchIpProto (Ptr pkt (14 + 4 * ihl)) (n - 14 - 4 * ihl) pr m2))) as ->.
    { unfold parse_step. cbn [at_label hdr len proto md]. change (switch_ether_type ?a ?b ?c ?d ?e m1) with (ether_ipv4 a c d m1). unfold ether_ipv4, ipv4_len.
      destruct (Z.ltb_spec (n - 14) 20); [lia |]. rewrite (ld8_slot pkt 14 (0x40 + ihl) (padd (Ptr pkt 0) 14) 0) by (done || apply Hp). orun. rewrite Hnib.
      destruct (Z.ltb_spec (n - 14) (ihl * 4)); [lia |]. rewrite (ld8_slot pkt 23 pr (padd (Ptr pkt 0) 14) 9) by (done || apply Hp).
      assert (ld16 (padd (Ptr pkt 0) 14) 6 = Done f) as ->
        by (unfold ld16; rewrite (ld8_slot pkt 20 f (padd (Ptr pkt 0) 14) 6), (ld8_slot pkt 21 0 (padd (Ptr pkt 0) 14) (6 + 1)) by (done || apply Hp); orun; f_equal; lia).
      rewrite (ld8_slot pkt 15 t (padd (Ptr pkt 0) 14) 1), (ld8_slot pkt 22 l (padd (Ptr pkt 0) 14) 8) by done. rewrite (ld_bytes_slice 8 pkt 26) by (done || lia).
      rewrite frag_clear. fold m2. replace (padd (padd (Ptr pkt 0) 14) (ihl * 4)) with (Ptr pkt (14 + 4 * ihl)) by (unfold padd; cbn; f_equal; lia).
      replace (n - 14 - ihl * 4) with (n - 14 - 4 * ihl) by lia. reflexivity. }
    orun. unfold parse_step. cbn [at_label hdr len proto md]. rewrite Eg. reflexivity.
  - destruct (Hg (set_ports w m2)) as (G1 & G2 & G3 & G4 & G5 & G6 & G7).
    split; [rewrite G1 | rewrite G2 | rewrite G3 | rewrite G4 | rewrite G5 | rewrite G6 | rewrite G7]; try reflexivity; [| exact Ew].
    cbn [addrs set_ports m2 set_addrs]. unfold m2. cbn [addrs set_addrs]. rewrite take_app_length'; [done |]. rewrite slice_length; lia.
Qed.
End Extract.

(** Slices of an updated buffer. *)
Lemma slice_inserts i k (xs l : list Z) : length xs = k -> (i + k <= length l)%nat -> slice i k (list_inserts i xs l) = xs.
Proof.
  intros Hx Hl. apply list_eq. intros j. destruct (decide (j < k)%nat) as [Hj | Hj].
  - rewrite slice_lookup by done. rewrite list_lookup_inserts by lia. f_equal. lia.
  - rewrite !lookup_ge_None_2; [done | lia |]. rewrite slice_length; [lia |]. rewrite length_inserts. lia.
Qed.

Lemma slice_inserts_ge i j k (xs l : list Z) : (i + length xs <= j)%nat -> (j + k <= length l)%nat -> slice j k (list_inserts i xs l) = slice j k l.
Proof.
  intros Hij Hl. apply list_eq. intros q. destruct (decide (q < k)%nat) as [Hq | Hq].
  - rewrite !slice_lookup by done. by rewrite list_lookup_inserts_ge by lia.
  - rewrite !lookup_ge_None_2; [done | |]; rewrite slice_length; rewrite ?length_inserts; lia.
Qed.

(** C31: parselite extracts what the packet has and what the simple hash parser
    extracts. For an Ethernet frame with an IPv4 packet of any header length that
    is not a fragment and has a complete TCP, UDP, SCTP or DCCP header,
    [parselite_parse_ether] returns true with the two Ethernet addresses, the
    protocol, both IPv4 addresses and both ports of the packet, and the parser
    generated from the graph of [parser_simple_hash.c] stops with
    [XDP2_STOP_OKAY] and the same protocol, addresses and ports. *)
Theorem parselite_agrees rand uninit fuel fuel' pkt ihl pr f ms c :
  ipv4_ports_packet pkt ihl pr -> pkt !! 20%nat = Some f -> Z.land f 0x3f = 0 -> l4_complete pkt ihl pr -> (2 <= fuel)%nat ->
  meta_ok (lo_size SimpleHash.S) ms ->
  exists m ms' c', parselite_parse_ether rand uninit fuel (Ptr pkt 0) (Z.of_nat (length pkt)) zero_metadata = Done (true, m) /\ extracted pkt ihl pr m /\
    xdp2_parse SimpleHash.graph fuel' SimpleHash.xdp2_parser_simple_hash_ether (Ptr pkt 0) (Z.of_nat (length pkt)) (ParserTypes.PState ms c) =
      Done (XDP2_STOP_OKAY, ParserTypes.PState ms' c') /\
    ms' !! 10%nat = Some (ip_proto m) /\ slice 20 8 ms' = take 8 (addrs m) /\ slice 16 4 ms' = le_bytes 4 (ports m).
Proof.
  intros Hp Hf Hnf Hl4 Hfu Hms. destruct (lite_run pkt ihl pr f Hp Hf Hnf Hl4 rand uninit fuel Hfu) as (m & Em & Hex).
  destruct (simple_hash_ipv4_run pkt ihl pr ms c fuel' Hp Hms) as (c' & Ec). exists m, (ipv4_meta pkt ihl pr ms), c'. split_and!; [exact Em | exact Hex | exact Ec | ..].
  all: pose proof (meta_len ms Hms) as Hl; pose proof (ip_ihl _ _ _ Hp) as Hi; pose proof (ip_len _ _ _ Hp) as Hn; destruct Hex as [_ _ E3 _ _ E6 E7]; unfold ipv4_meta.
  - rewrite E3. etrans; [apply (list_lookup_inserts_lt (A := Z)); lia |]. etrans; [apply (list_lookup_inserts_lt (A := Z)); lia |].
    etrans; [apply (list_lookup_inserts (A := Z)); [cbn; lia | rewrite !length_inserts, Hl; lia] | reflexivity].
  - rewrite E6, slice_inserts_ge, slice_inserts by (rewrite ?length_inserts, ?slice_length, ?Hl; lia). reflexivity.
  - rewrite E7, slice_inserts by (rewrite ?length_inserts, ?slice_length, ?Hl; lia). reflexivity.
Qed.

Lemma parselite_agrees_witness :
  exists m ms' c', parselite_parse_ether 0 0 2 (Ptr lite_udp 0) 42 zero_metadata = Done (true, m) /\ extracted lite_udp 5 IPPROTO_UDP m /\
    xdp2_parse SimpleHash.graph 100 SimpleHash.xdp2_parser_simple_hash_ether (Ptr lite_udp 0) 42 (ParserTypes.PState (replicate 56 0) ctrl0) =
      Done (XDP2_STOP_OKAY, ParserTypes.PState ms' c') /\
    ms' !! 10%nat = Some (ip_proto m) /\ slice 20 8 ms' = take 8 (addrs m) /\ slice 16 4 ms' = le_bytes 4 (ports m).
Proof.
  apply (parselite_agrees 0 0 2 100 lite_udp 5 IPPROTO_UDP 0 (replicate 56 0) ctrl0).
  - constructor; try reflexivity; try lia; [split; [apply lite_udp_ok | cbn; lia] | by exists 0 | right; left; reflexivity | cbn; lia].
  - reflexivity.
  - reflexivity.
  - split_and!; [intros _; cbn; lia | intros [H | H]; discriminate H | discriminate].
  - lia.
  - apply (meta_zero_ok 56).
Defined.

(** ** Hashing *)

(** The metadata of the other direction; an address has [k] bytes. *)
Definition reverse (k : nat) (m : parselite_metadata) : parselite_metadata := swap_ports (swap_addrs k m).

(** What the code does with the difference of the addresses. *)
Definition canon (k : nat) (d : Z) (m : parselite_metadata) : parselite_metadata :=
  if (d <? 0) || ((d =? 0) && (port16 1 m <? port16 0 m)) then reverse k m else m.

Lemma port16_range i m : 0 <= port16 i m < 2 ^ 16.
Proof. unfold port16. change 0xffff with (Z.ones 16). rewrite Z.land_ones by lia. apply Z.mod_pos_bound. lia. Qed.

Lemma port16_split m : 0 <= ports m < 2 ^ 32 -> ports m = port16 0 m + 2 ^ 16 * port16 1 m.
Proof.
  intros H. unfold port16. change 0xffff with (Z.ones 16). rewrite !Z.land_ones by lia. rewrite !Z.shiftr_div_pow2 by lia. change (2 ^ (16 * 0)) with 1. change (16 * 1) with 16.
  rewrite Z.div_1_r, (Z.mod_small (ports m / 2 ^ 16)); [| split; [apply Z.div_pos; lia | apply Z.div_lt_upper_bound; lia]].
  rewrite Z.add_comm. apply Z.div_mod. lia.
Qed.

Lemma two_ports a b : 0 <= a < 2 ^ 16 -> 0 <= b < 2 ^ 16 -> let v := a + Z.shiftl b 16 in Z.land (Z.shiftr v (16 * 0)) 0xffff = a /\ Z.land (Z.shiftr v (16 * 1)) 0xffff = b.
Proof.
  intros H0 H1 v. change 0xffff with (Z.ones 16). unfold v. rewrite !Z.land_ones, !Z.shiftr_div_pow2, Z.shiftl_mul_pow2 by lia.
  change (2 ^ (16 * 0)) with 1. change (16 * 1) with 16. split.
  - rewrite Z.div_1_r, Z.mod_add by lia. apply Z.mod_small. lia.
  - rewrite Z.div_add, (Z.div_small a) by lia. apply Z.mod_small. lia.
Qed.

Lemma reverse_port16 k m : port16 0 (reverse k m) = port16 1 m /\ port16 1 (reverse k m) = port16 0 m.
Proof. exact (two_ports _ _ (port16_range 1 m) (port16_range 0 m)). Qed.

Section Reverse.
Context (k : nat) (m : parselite_metadata) (x y z : list Z).
Context (Ha : addrs m = x ++ y ++ z) (Hx : length x = k) (Hy : length y = k).

Lemma reverse_addrs : addrs (reverse k m) = y ++ x ++ z.
Proof using Ha Hx Hy.
  unfold reverse, swap_ports, swap_addrs. cbn [addrs set_ports set_addrs]. rewrite Ha. rewrite take_app_length', drop_app_length', take_app_length' by done.
  rewrite app_assoc, drop_app_length', <- app_assoc by (rewrite !length_app; lia). done.
Qed.

Lemma reverse_twice : 0 <= ports m < 2 ^ 32 -> reverse k (reverse k m) = m.
Proof using Ha Hx Hy.
  intros Hp. destruct (reverse_port16 k m) as [E0 E1]. pose proof (port16_split m Hp) as Es.
  assert (addrs (reverse k (reverse k m)) = addrs m) as E.
  { rewrite Ha. unfold reverse at 1, swap_ports, swap_addrs. cbn [addrs set_ports set_addrs]. rewrite reverse_addrs.
    rewrite take_app_length', drop_app_length', take_app_length' by done. rewrite app_assoc, drop_app_length', <- app_assoc by (rewrite !length_app; lia). done. }
  assert (ports (reverse k (reverse k m)) = ports m) as E'.
  { unfold reverse at 1, swap_ports. cbn [ports set_ports]. change (port16 ?i (swap_addrs k (reverse k m))) with (port16 i (reverse k m)).
    rewrite E0, E1, Z.shiftl_mul_pow2 by lia. lia. }
  destruct m. cbn in E, E'. unfold reverse, swap_ports, swap_addrs, set_ports, set_addrs in *. cbn in *. f_equal; assumption.
Qed.

Lemma reverse_same : x = y -> port16 0 m = port16 1 m -> 0 <= ports m < 2 ^ 32 -> reverse k m = m.
Proof using Ha Hx Hy.
  intros Exy Ep Hp. pose proof (port16_split m Hp) as Es. pose proof reverse_addrs as Er. assert (addrs (reverse k m) = addrs m) as Er' by (rewrite Er, Ha, Exy; done).
  assert (ports (reverse k m) = ports m) as E'.
  { unfold reverse, swap_ports. cbn [ports set_ports]. change (port16 ?i (swap_addrs k m)) with (port16 i m). rewrite Z.shiftl_mul_pow2 by lia. lia. }
  clear Ha Er. destruct m. unfold reverse, swap_ports, swap_addrs, set_ports, set_addrs in *. cbn in *. f_equal; assumption.
Qed.

Lemma canon_reverse d : 0 <= ports m < 2 ^ 32 -> (d = 0 -> x = y) -> canon k (- d) (reverse k m) = canon k d m.
Proof using Ha Hx Hy.
  intros Hp Hd. destruct (reverse_port16 k m) as [E0 E1]. unfold canon. rewrite E0, E1.
  destruct (Z.ltb_spec d 0), (Z.ltb_spec (- d) 0); try lia; cbn [orb].
  - destruct (Z.eqb_spec (- d) 0); [lia | done].
  - destruct (Z.eqb_spec d 0); [lia |]. by apply reverse_twice.
  - destruct (Z.eqb_spec d 0), (Z.eqb_spec (- d) 0); try lia. cbn [andb].
    destruct (Z.ltb_spec (port16 0 m) (port16 1 m)), (Z.ltb_spec (port16 1 m) (port16 0 m)); try lia; [by apply reverse_twice | done |].
    apply reverse_same; [by apply Hd | lia | done].
Qed.
End Reverse.

(** The addresses of the metadata are [x] and [y] of [k] bytes, in front of the rest of the union. *)
Record flow (k : nat) (m : parselite_metadata) (x y z : list Z) : Prop := Flow {
  fl_addrs : addrs m = x ++ y ++ z;
  fl_x : length x = k;
  fl_y : length y = k;
  fl_xu : Forall is_u8 x;
  fl_yu : Forall is_u8 y;
  fl_ports : 0 <= ports m < 2 ^ 32 }.

Lemma flow_reverse k m x y z : flow k m x y z -> flow k (reverse k m) y x z.
Proof.
  intros [Ha Hx Hy Ux Uy Hp]. split; try assumption; [by apply reverse_addrs |]. destruct (reverse_port16 k m) as [E0 E1].
  pose proof (port16_range 0 m). pose proof (port16_range 1 m). unfold reverse, swap_ports. cbn [ports set_ports].
  change (port16 ?i (swap_addrs k m)) with (port16 i m). rewrite Z.shiftl_mul_pow2 by lia. lia.
Qed.

(** The hash of the canonical direction. *)
Definition hash_canon (al : bool) (key : siphash_key_t) (m : parselite_metadata) : outcome (Z * parselite_metadata) :=
  hash ← parselite_compute_hash al key (Ptr (hash_bytes m) 0) (parselite_hash_length m); mret (hash, m).

Lemma bytes_at_mid (u v w : list Z) : bytes_at (Ptr (u ++ v ++ w) (Z.of_nat (length u))) v.
Proof.
  intros i b E. unfold ld8. cbn [poff pbuf]. destruct (Z.ltb_spec (Z.of_nat (length u) + Z.of_nat i) 0); [lia |].
  replace (Z.to_nat (Z.of_nat (length u) + Z.of_nat i)) with (length u + i)%nat by lia. rewrite lookup_app_r by lia.
  replace (length u + i - length u)%nat with i by lia. rewrite lookup_app_l by (by apply lookup_lt_Some in E). by rewrite E.
Qed.

Lemma hash_ipv4 al key m x y z : flow 4 m x y z -> addr_type m = PARSELITE_ATYPE_IPV4 ->
  parselite_hash_metadata al key m = hash_canon al key (canon 4 (s32 (le_val y - le_val x)) m).
Proof.
  intros [Ha Hx Hy _ _ _] Ht. unfold parselite_hash_metadata. rewrite Ht. change (PARSELITE_ATYPE_IPV4 =? PARSELITE_ATYPE_IPV4) with true. cbn iota. rewrite Ha.
  assert (ld32 (Ptr (x ++ y ++ z) 0) 0 = Done (le_val x)) as -> by exact (ld32_le _ x Hx (bytes_at_mid [] x (y ++ z))).
  assert (ld32 (Ptr (x ++ y ++ z) 0) 4 = Done (le_val y)) as ->.
  { change (ld32 (Ptr (x ++ y ++ z) 0) 4) with (ld32 (Ptr (x ++ y ++ z) (Z.of_nat 4)) 0). rewrite <- Hx. apply (ld32_le _ y Hy (bytes_at_mid x y z)). }
  unfold canon, reverse, hash_canon. orun. reflexivity.
Qed.

Lemma hash_ipv6 al key m x y z : flow 16 m x y z -> addr_type m = PARSELITE_ATYPE_IPV6 ->
  parselite_hash_metadata al key m = hash_canon al key (canon 16 (bytes_diff y x) m).
Proof.
  intros [Ha Hx Hy _ _ _] Ht. unfold parselite_hash_metadata. rewrite Ht. change (PARSELITE_ATYPE_IPV6 =? PARSELITE_ATYPE_IPV4) with false.
  change (PARSELITE_ATYPE_IPV6 =? PARSELITE_ATYPE_IPV6) with true. cbn iota. rewrite Ha.
  assert (memcmp 16 (Ptr (x ++ y ++ z) 16) (Ptr (x ++ y ++ z) 0) 0 = Done (bytes_diff y x)) as ->.
  { rewrite <- Hy at 1. apply memcmp_bytes; [lia | |]; intros i b E; rewrite Z.add_0_l; [change 16 with (Z.of_nat 16); rewrite <- Hx; exact (bytes_at_mid x y z i b E) | exact (bytes_at_mid [] x (y ++ z) i b E)]. }
  unfold canon, reverse, hash_canon. orun. reflexivity.
Qed.

(** Both directions of a flow have the same hash. Swapping the addresses and
    the ports of the metadata does not change the result of
    [parselite_hash_metadata], for IPv6 addresses and for IPv4 addresses whose
    difference is not 2^31, for every key. *)
Theorem parselite_hash_symmetric al key k m x y z :
  flow k m x y z ->
  (addr_type m = PARSELITE_ATYPE_IPV4 /\ k = 4%nat /\ (le_val x - le_val y) mod 2 ^ 32 <> 2 ^ 31) \/ (addr_type m = PARSELITE_ATYPE_IPV6 /\ k = 16%nat) ->
  parselite_hash_metadata al key (reverse k m) = parselite_hash_metadata al key m.
Proof.
  intros Hf Hcase. pose proof (flow_reverse _ _ _ _ _ Hf) as Hr. pose proof Hf as [Ha Hx Hy Ux Uy Hp]. destruct Hcase as [(Ht & -> & Hne) | (Ht & ->)].
  - rewrite (hash_ipv4 al key (reverse 4 m) y x z Hr Ht), (hash_ipv4 al key m x y z Hf Ht). f_equal.
    assert (s32 (le_val x - le_val y) = - s32 (le_val y - le_val x)) as ->.
    { pose proof (s32_diff_opp (le_val y) (le_val x) Hne) as E. unfold s32, sext, u32 in E |- *. rewrite !Z.mod_mod in E by lia. lia. }
    apply (canon_reverse 4 m x y z Ha Hx Hy _ Hp). intros E0. apply le_val_inj; [congruence | done | done |].
    pose proof (le_val_range x Ux) as Rx. pose proof (le_val_range y Uy) as Ry. rewrite Hx in Rx. rewrite Hy in Ry. change (2 ^ (8 * Z.of_nat 4)) with (2 ^ 32) in Rx, Ry.
    unfold s32, sext in E0. destruct (Z.ltb_spec ((le_val y - le_val x) mod 2 ^ 32) (2 ^ (32 - 1))).
    + apply Z.mod_divide in E0 as [q Eq]; [nia | lia].
    + pose proof (Z.mod_pos_bound (le_val y - le_val x) (2 ^ 32) ltac:(lia)). lia.
  - rewrite (hash_ipv6 al key (reverse 16 m) y x z Hr Ht), (hash_ipv6 al key m x y z Hf Ht). f_equal. rewrite bytes_diff_opp.
    apply (canon_reverse 16 m x y z Ha Hx Hy _ Hp). intros E0. symmetry. apply bytes_diff_0; [congruence | exact E0].
Qed.

(** Two IPv4 addresses and two ports. *)
Definition lite_flow : parselite_metadata := set_ports 0x5a005000 (set_addrs PARSELITE_ATYPE_IPV4 [10; 0; 0; 2; 10; 0; 0; 1] zero_metadata).

Lemma parselite_hash_symmetric_witness :
  parselite_hash_metadata true (SiphashKey 1 2) (reverse 4 lite_flow) = parselite_hash_metadata true (SiphashKey 1 2) lite_flow.
Proof.
  apply (parselite_hash_symmetric true (SiphashKey 1 2) 4 lite_flow [10; 0; 0; 2] [10; 0; 0; 1] (replicate 24 0)).
  - split; try reflexivity; [repeat (apply Forall_cons_2; [unfold is_u8; lia |]); apply Forall_nil_2.. | cbn; lia].
  - left. split_and!; [reflexivity | reflexivity | vm_compute; discriminate].
Defined.

(** ** Limits *)

Definition parsed_from (e : Z) (pkt : list Z) : outcome (bool * parselite_metadata) :=
  parselite_parse_l3 0 0 100 (Ptr pkt 0) (Z.of_nat (length pkt)) (bswap16 e) zero_metadata.

(** An entropy label that ends the packet: the next label is read behind it. *)
Example parselite_entropy_crashes : parsed_from ETH_P_MPLS_UC [0; 0; 0x71; 0x40] = Crash.
Proof. reflexivity. Qed.

Definition lite_ipv4 (pr : Z) : list Z := [0x45; 0; 0; 0; 0; 0; 0; 0; 64; pr; 0; 0; 10; 0; 0; 1; 10; 0; 0; 2].

(** A GRE header with a key that ends the packet. *)
Example parselite_gre_key_crashes : parsed_from ETH_P_IP (lite_ipv4 IPPROTO_GRE ++ [0x20; 0; 8; 0] ++ replicate 12 0) = Crash.
Proof. vm_compute. reflexivity. Qed.

(** A GRE header without options has four bytes; the code skips sixteen, so that a
    packet inside is not found. *)
Example parselite_gre_plain_fails :
  (fst <$> parsed_from ETH_P_IP (lite_ipv4 IPPROTO_GRE ++ [0; 0; 8; 0] ++ lite_ipv4 IPPROTO_UDP ++ [0; 80; 0; 90; 0; 8; 0; 0])) = Done false.
Proof. vm_compute. reflexivity. Qed.

(** With twelve more bytes in the header the packet inside is found. *)
Example parselite_gre_twelve_more :
  (fst <$> parsed_from ETH_P_IP (lite_ipv4 IPPROTO_GRE ++ [0; 0; 8; 0] ++ replicate 12 0 ++ lite_ipv4 IPPROTO_UDP ++ [0; 80; 0; 90; 0; 8; 0; 0])) = Done true.
Proof. vm_compute. reflexivity. Qed.

(** The EtherType of a frame in GRE is not read. *)
Example parselite_gre_teb_fails eth : length eth = 12%nat ->
  (fst <$> parsed_from ETH_P_IP (lite_ipv4 IPPROTO_GRE ++ [0; 0; 0x65; 0x58] ++ replicate 12 0 ++ eth ++ [8; 0] ++ lite_ipv4 IPPROTO_UDP ++ [0; 80; 0; 90; 0; 8; 0; 0])) = Done false.
Proof. intros H. do 12 (destruct eth as [| ? eth]; [discriminate H |]). destruct eth; [| discriminate H]. reflexivity. Qed.

(** The version of GRE is compared without a conversion: the case for version one
    is never taken. *)
Example parselite_gre_v1_ignored :
  (fst <$> parsed_from ETH_P_IP (lite_ipv4 IPPROTO_GRE ++ [0x20; 1; 0x88; 0x0b] ++ replicate 16 0 ++ [0xff; 3; 0; 0x21] ++ lite_ipv4 IPPROTO_UDP ++ [0; 80; 0; 90; 0; 8; 0; 0])) = Done false.
Proof. vm_compute. reflexivity. Qed.

(** A fragment is marked in the metadata for IPv4 and not for IPv6. *)
Example parselite_fragment_marks :
  ((fun r => is_fragment (snd r)) <$> parsed_from ETH_P_IP [0x45; 0; 0; 0; 0; 0; 0x20; 0; 64; 17; 0; 0; 10; 0; 0; 1; 10; 0; 0; 2]) = Done 1 /\
  ((fun r => is_fragment (snd r)) <$> parsed_from ETH_P_IPV6 ([0x60; 0; 0; 0; 0; 8; 44; 64] ++ replicate 32 0 ++ [17; 0; 0; 1; 0; 0; 0; 0])) = Done 0.
Proof. split; vm_compute; reflexivity. Qed.
