(* ===== verification/Config.v ===== *)
(** * Configuration

    [lib/xdp2/config_functions.c] and the macros of [include/xdp2/config.h]: a table
    describes the parameters in a configuration structure, which are set from text
    and printed. The structure is its bytes. Strings are C strings without the
    terminating zero; a file is its text. Warnings are left out, and what a function
    prints is a string. *)

From Stdlib Require Import Ascii.
From stdpp Require Import base list strings numbers.
From S2P Require Import Prelude FlagFields Bytes Siphash SiphashSpec.

Local Open Scope string_scope. Local Open Scope list_scope. Local Open Scope Z_scope.

(** ** Data *)

(** [derived_func] reads the structure. *)
Record xdp2_config_desc := ConfigDesc {
  offset : Z; dsize : Z; dmin : Z; dmax : Z; conf_name : string; text : string;
  derived_func : list Z -> Z; fifo : bool }.

Record xdp2_config_desc_table := ConfigTable {
  table : list xdp2_config_desc; config_struct_size : Z; set_default_config : list Z -> outcome (list Z) }.

Record xdp2_config_fifo_config := FifoConfig { limit : Z; low_water_mark : Z; ent_size : Z }.
(** [sizeof]; the last byte is padding. *)
Definition sizeof_fifo_config : nat := 6.

(** ** The C library *)

Definition code (c : ascii) : Z := Z.of_N (N_of_ascii c).
Definition char (z : Z) : ascii := ascii_of_N (Z.to_N z).

Definition tolower (c : ascii) : ascii := if (65 <=? code c) && (code c <=? 90) then char (code c + 32) else c.
Definition isspace (c : ascii) : bool := (code c =? 32) || ((9 <=? code c) && (code c <=? 13)).
Definition isdigit (c : ascii) : bool := (48 <=? code c) && (code c <=? 57).

Fixpoint strchr (s : string) (c : ascii) : option (string * string) :=
  match s with
  | "" => None
  | String d s => if bool_decide (d = c) then Some ("", s) else '(a, b) ← strchr s c; Some (String d a, b)
  end.

(** [Some] of the rest when the first string is a prefix of the second. *)
Fixpoint strip_prefix (a s : string) : option string :=
  match a, s with
  | "", _ => Some s
  | String c a, String d s => if bool_decide (c = d) then strip_prefix a s else None
  | String _ _, "" => None
  end.

Fixpoint map_string (f : ascii -> ascii) (s : string) : string := match s with "" => "" | String c s => String (f c) (map_string f s) end.

Fixpoint strstr (s needle : string) : bool :=
  match strip_prefix needle s with Some _ => true | None => match s with "" => false | String _ s => strstr s needle end end.
Definition strcasestr (s needle : string) : bool := strstr (map_string tolower s) (map_string tolower needle).

(** The value of a digit. *)
Definition digit_val (base : Z) (c : ascii) : option Z :=
  let v := if isdigit c then code c - 48 else let l := code (tolower c) in if (97 <=? l) && (l <=? 122) then l - 87 else 99 in
  if v <? base then Some v else None.

Fixpoint parse_digits (base v : Z) (s : string) : Z * string :=
  match s with
  | "" => (v, "")
  | String c s' => match digit_val base c with Some d => parse_digits base (v * base + d) s' | None => (v, s) end
  end.

Fixpoint skip_space (s : string) : string := match s with String c s' => if isspace c then skip_space s' else s | "" => "" end.

(** [strtoul(s, &rest, 0)]. *)
Definition unsigned_base (s : string) : Z * string :=
  match s with
  | String "0" (String x (String d s')) =>
    if (bool_decide (x = "x"%char) || bool_decide (x = "X"%char)) && (match digit_val 16 d with Some _ => true | None => false end)
    then (16, String d s') else (8, s)
  | String "0" _ => (8, s)
  | _ => (10, s)
  end.
Definition strtoul (s : string) : Z * string :=
  let s := skip_space s in
  let '(neg, s) := match s with String "-" s' => (true, s') | String "+" s' => (false, s') | _ => (false, s) end in
  let '(base, s) := unsigned_base s in
  let '(v, rest) := parse_digits base 0 s in
  (if 2 ^ 64 <=? v then 2 ^ 64 - 1 else if neg then u64 (- v) else v, rest).

(** [inet_aton]: up to four numbers with dots; the last one fills the bytes that
    are left. [i] is the number of parts before. *)
Fixpoint inet_aton (k : nat) (i res : Z) (s : string) : option Z :=
  match s with
  | "" => None
  | String c _ =>
    if negb (isdigit c) then None else
    let '(val, rest) := strtoul s in
    let last := if match rest with "" => true | String d _ => isspace d end
                then if 2 ^ (32 - 8 * i) <=? val then None else Some (Z.lor res (bswap32 val)) else None in
    match rest, k with
    | String "." rest, S k => if 0xff <? val then None else inet_aton k (i + 1) (Z.lor res (Z.shiftl val (8 * i))) rest
    | _, _ => last
    end
  end.
(** [INADDR_NONE] for an error. *)
Definition inet_addr (s : string) : Z := default (2 ^ 32 - 1) (inet_aton 3 0 0 s).

Definition digit_char (d : Z) : ascii := char (if d <? 10 then 48 + d else 87 + d).
Fixpoint print_digits (base : Z) (fuel : nat) (n : Z) (acc : string) : string :=
  match fuel with
  | O => acc
  | S fuel => let acc := String (digit_char (n mod base)) acc in if n / base =? 0 then acc else print_digits base fuel (n / base) acc
  end.
(** [%llu] and [%llx]. *)
Definition dec (n : Z) : string := print_digits 10 64 n "".
Definition hex (n : Z) : string := print_digits 16 64 n "".

(** The bytes of [s_addr] in the order of memory. *)
Definition addr_byte (a i : Z) : Z := Z.land (Z.shiftr a (8 * i)) 0xff.
Definition inet_ntoa (a : Z) : string :=
  dec (addr_byte a 0) +:+ "." +:+ dec (addr_byte a 1) +:+ "." +:+ dec (addr_byte a 2) +:+ "." +:+ dec (addr_byte a 3).

(** ** The structure *)

(** The static buffer has room for 128 characters. *)
Definition strlc (s : string) : string := map_string tolower (String.substring 0 128 s).

Definition config_read_bytes (config : list Z) (off : Z) (n : nat) : outcome (list Z) :=
  if (0 <=? off) && (off + Z.of_nat n <=? Z.of_nat (length config)) then mret (take n (drop (Z.to_nat off) config)) else Crash.
Definition config_write_bytes (config : list Z) (off : Z) (bs : list Z) : outcome (list Z) :=
  if (0 <=? off) && (off + Z.of_nat (length bs) <=? Z.of_nat (length config))
  then mret (take (Z.to_nat off) config ++ bs ++ drop (Z.to_nat off + length bs) config) else Crash.

(** Another size ends the program. *)
Definition config_size_ok (size : Z) : bool := (size =? 1) || (size =? 2) || (size =? 4) || (size =? 8).
Definition config_read_val (config : list Z) (off size : Z) : outcome Z :=
  if config_size_ok size then le_val <$> config_read_bytes config off (Z.to_nat size) else Crash.
Definition config_write_val (config : list Z) (off size val : Z) : outcome (list Z) :=
  if config_size_ok size then config_write_bytes config off (le_bytes (Z.to_nat size) val) else Crash.

Definition fifo_of_bytes (bs : list Z) : xdp2_config_fifo_config := FifoConfig (le_val (take 2 bs)) (le_val (take 2 (drop 2 bs))) (le_val (take 1 (drop 4 bs))).
(** The two limits; the other bytes stay. *)
Definition fifo_bytes (f : xdp2_config_fifo_config) (bs : list Z) : list Z := le_bytes 2 (limit f) ++ le_bytes 2 (low_water_mark f) ++ drop 4 bs.

(** ** Search *)

(** The descriptor, and whether the name is that of a low water mark. The names of
    FIFOs have at most 128 characters, so that [strlc] keeps their length. *)
Fixpoint find_config_desc (ds : list xdp2_config_desc) (name : string) : option (xdp2_config_desc * bool) :=
  match ds with
  | [] => None
  | d :: ds =>
    if fifo d then
      match strip_prefix (strlc (conf_name d)) name with
      | Some last_part =>
        if bool_decide (last_part = "_limit") then Some (d, false)
        else if bool_decide (last_part = "_low_water_mark") then Some (d, true)
        else find_config_desc ds name
      | None => find_config_desc ds name
      end
    else if bool_decide (strlc (conf_name d) = name) then Some (d, false)
    else find_config_desc ds name
  end.

(** The value of [-1U] means no maximum. *)
Definition out_of_range (d : xdp2_config_desc) (val : Z) : bool :=
  (val <? dmin d) || (negb (dmax d =? 2 ^ 32 - 1) && (dmax d <? val)).

(** The new value of [*rval], which is only ever set. *)
Definition xdp2_config_check_config_one (t : xdp2_config_desc_table) (rval : bool) (name : string) (value : Z) : bool :=
  match find_config_desc (table t) name with
  | None => true
  | Some (d, _) => rval || out_of_range d value
  end.

(** ** Options *)

(** The return code and the structure. *)
Definition parse_one_option (ds : list xdp2_config_desc) (config : list Z) (tok : string) : outcome (Z * list Z) :=
  match strchr tok "=" with
  | None => mret (-1, config)
  | Some (name, value) =>
    match find_config_desc ds name with
    | None => mret (-1, config)
    | Some (d, is_low_water_mark) =>
      if fifo d then
        let val := fst (strtoul value) in
        bs ← config_read_bytes config (offset d) sizeof_fifo_config;
        let f := fifo_of_bytes bs in
        let f := if is_low_water_mark : bool then FifoConfig (limit f) (u16 val) (ent_size f) else FifoConfig (u16 val) (low_water_mark f) (ent_size f) in
        config ← config_write_bytes config (offset d) (fifo_bytes f bs);
        mret (0, config)
      else
        let val := if strcasestr (text d) "IPv4 address" then inet_addr value else fst (strtoul value) in
        if out_of_range d val then mret (-1, config) else
        config ← config_write_val config (offset d) (dsize d) val;
        mret (0, config)
    end
  end.

(** Stops at the first option that fails. *)
Fixpoint parse_list (ds : list xdp2_config_desc) (config : list Z) (toks : list string) : outcome (Z * list Z) :=
  match toks with
  | [] => mret (0, config)
  | tok :: toks =>
    '(ret, config) ← parse_one_option ds config tok;
    if negb (ret =? 0) then mret (ret, config) else parse_list ds config toks
  end.

Fixpoint validate_configuration (ds : list xdp2_config_desc) (config : list Z) : outcome Z :=
  match ds with
  | [] => mret 0
  | d :: ds =>
    if fifo d then
      bs ← config_read_bytes config (offset d) sizeof_fifo_config;
      let f := fifo_of_bytes bs in
      if limit f <? low_water_mark f then mret (-1) else validate_configuration ds config
    else validate_configuration ds config
  end.

(** [strtok_r] with blanks and tabs. *)
Fixpoint words (s : string) : list string :=
  match s with
  | "" => [""]
  | String c s =>
    if bool_decide (c = " "%char) || bool_decide (c = char 9) then "" :: words s
    else match words s with w :: ws => String c w :: ws | [] => [String c ""] end
  end.
Definition tokens (s : string) : list string := filter (fun w => w <> "") (words s).

(** A row that [fgets] reads, and the rest of the file. *)
Fixpoint read_row (n : nat) (s : string) : string * string :=
  match n, s with
  | O, _ => ("", s)
  | _, "" => ("", "")
  | S n, String c s => if bool_decide (c = char 10) then (String c "", s) else let '(r, rest) := read_row n s in (String c r, rest)
  end.
Definition MAXCHAR : nat := 256.
Fixpoint file_rows (fuel : nat) (s : string) : list string :=
  match fuel with
  | O => []
  | S fuel => match s with "" => [] | _ => let '(r, rest) := read_row (MAXCHAR - 1) s in r :: file_rows fuel rest end
  end.

Fixpoint xdp2_line_is_whitespace (s : string) : bool := match s with "" => true | String c s => isspace c && xdp2_line_is_whitespace s end.
Definition skipped_row (row : string) : bool := xdp2_line_is_whitespace row || match row with String "#" _ => true | _ => false end.

Definition parse_and_validate (ds : list xdp2_config_desc) (config : list Z) (toks : list string) : outcome (Z * list Z) :=
  '(ret, config) ← parse_list ds config toks;
  if negb (ret =? 0) then mret (ret, config) else
  ret ← validate_configuration ds config; mret (ret, config).

(** [text] is NULL or a string. *)
Definition xdp2_config_parse_options (t : xdp2_config_desc_table) (config : list Z) (txt : option string) : outcome (Z * list Z) :=
  match txt with
  | None => mret (0, config)
  | Some txt => parse_and_validate (table t) config (tokens txt)
  end.
(** [None] is a file that cannot be opened. A file has no more rows than characters. *)
Definition xdp2_config_parse_options_file (t : xdp2_config_desc_table) (config : list Z) (file : option string) : outcome (Z * list Z) :=
  match file with
  | None => mret (-1, config)
  | Some s => parse_and_validate (table t) config (filter (fun r => skipped_row r = false) (file_rows (String.length s) s))
  end.
Definition xdp2_config_parse_options_with_defaults (t : xdp2_config_desc_table) (config : list Z) (txt : option string) : outcome (Z * list Z) :=
  config ← set_default_config t config; xdp2_config_parse_options t config txt.

(** ** Printing *)

Definition nl : string := String (char 10) "".
Definition is_bitmap (d : xdp2_config_desc) : bool := strcasestr (text d) "bitmap".
Definition is_addr (d : xdp2_config_desc) : bool := strcasestr (text d) "IPv4 address".

Definition show_val (d : xdp2_config_desc) (val : Z) : string :=
  if is_bitmap d then "0x" +:+ hex val else if is_addr d then inet_ntoa (u32 val) else dec val.

Definition print_one_config (indent : string) (config : list Z) (d : xdp2_config_desc) : outcome string :=
  let name := strlc (conf_name d) in
  if fifo d then
    bs ← config_read_bytes config (offset d) sizeof_fifo_config;
    let f := fifo_of_bytes bs in
    mret (indent +:+ name +:+ "_limit: " +:+ dec (limit f) +:+ nl +:+ indent +:+ name +:+ "_low_water_mark: " +:+ dec (low_water_mark f) +:+ nl)
  else
    val ← config_read_val config (offset d) (dsize d);
    let val := if val =? 0 then derived_func d config else val in
    mret (indent +:+ name +:+ ": " +:+ show_val d val +:+ nl).

Fixpoint print_all (f : xdp2_config_desc -> outcome string) (ds : list xdp2_config_desc) : outcome string :=
  match ds with [] => mret "" | d :: ds => a ← f d; b ← print_all f ds; mret (a +:+ b) end.

Definition xdp2_config_print_config (t : xdp2_config_desc_table) (indent : string) (config : list Z) : outcome string :=
  print_all (print_one_config indent config) (table t).

Definition quoted (s : string) : string := let q := String (char 34) "" in q +:+ s +:+ q.

Definition print_csv (config : list Z) (d : xdp2_config_desc) : outcome string :=
  let name := strlc (conf_name d) in
  if fifo d then
    bs ← config_read_bytes config (offset d) sizeof_fifo_config;
    let f := fifo_of_bytes bs in
    mret ("Fifo," +:+ name +:+ "," +:+ dec (limit f) +:+ "," +:+ dec (low_water_mark f) +:+ "," +:+ dec (dmin d) +:+ "," +:+ dec (dmax d) +:+ "," +:+ quoted (text d) +:+ nl)
  else
    val ← config_read_val config (offset d) (dsize d);
    mret (if is_bitmap d then "Bitmap," +:+ name +:+ "," +:+ show_val d val +:+ "," +:+ quoted (text d) +:+ nl
          else if is_addr d then "IP4addr," +:+ name +:+ "," +:+ show_val d val +:+ "," +:+ quoted (text d) +:+ nl
          else "Value," +:+ name +:+ "," +:+ show_val d val +:+ "," +:+ dec (dmin d) +:+ "," +:+ dec (dmax d) +:+ "," +:+ quoted (text d) +:+ nl).

Definition xdp2_config_print_config_csv (t : xdp2_config_desc_table) (config : list Z) (key : bool) : outcome string :=
  rows ← print_all (print_csv config) (table t);
  mret ((if key then "# Key: Bitmap name,bitmap,description" +:+ nl +:+ "# Key: IP4addr,name,addr,description" +:+ nl +:+
                     "# Key: Value,name,value,min,max,description" +:+ nl +:+ "# Key: Fifo,name,limit,low-water-mark,description" +:+ nl
         else "") +:+ rows).

Definition print_csv_short (config : list Z) (sep : ascii) (d : xdp2_config_desc) : outcome string :=
  let name := strlc (conf_name d) in
  if fifo d then
    bs ← config_read_bytes config (offset d) sizeof_fifo_config;
    let f := fifo_of_bytes bs in
    mret (name +:+ "_limit" +:+ String sep (dec (limit f)) +:+ nl +:+ name +:+ "_low_water_mark" +:+ String sep (dec (low_water_mark f)) +:+ nl)
  else
    val ← config_read_val config (offset d) (dsize d);
    let val := if bool_decide (sep = "="%char) && (val =? 0) then derived_func d config else val in
    mret (name +:+ String sep (show_val d val) +:+ nl).

Definition xdp2_config_print_config_csv_short (t : xdp2_config_desc_table) (config : list Z) (sep : ascii) (key : bool) : outcome string :=
  rows ← print_all (print_csv_short config sep) (table t);
  mret ((if key && bool_decide (sep <> "="%char) then "# Key: name,value" +:+ nl else "") +:+ rows).

(** Both addresses are in the static buffer of [inet_ntoa] when they are printed, so
    that the one made last appears twice; [val_last] is the compiler's order. *)
Definition show_derived (val_last : bool) (d : xdp2_config_desc) (val derived_val : Z) : string :=
  let last := if val_last then val else derived_val in
  if is_bitmap d then "0x" +:+ hex val +:+ ", derived: 0x" +:+ hex derived_val
  else if is_addr d then inet_ntoa (u32 last) +:+ ", derived: " +:+ inet_ntoa (u32 last)
  else dec val +:+ ", derived: " +:+ dec derived_val.

Definition xdp2_config_print_derived_config (val_last : bool) (t : xdp2_config_desc_table) (indent : string) (config : list Z) (name : string) (derived_val derived_low_water_mark : Z) : outcome string :=
  match find_config_desc (table t) name with
  | None => mret (indent +:+ name +:+ ": No config value, derived: " +:+ dec derived_val +:+ nl)
  | Some (d, _) =>
    if fifo d then
      bs ← config_read_bytes config (offset d) sizeof_fifo_config;
      let f := fifo_of_bytes bs in
      mret (indent +:+ name +:+ "_limit: " +:+ dec (limit f) +:+ ", derived: " +:+ dec derived_val +:+ nl +:+
            indent +:+ name +:+ "_low_water_mark: " +:+ dec (low_water_mark f) +:+ ", derived: " +:+ dec derived_low_water_mark +:+ nl)
    else
      val ← config_read_val config (offset d) (dsize d);
      let val := if val =? 0 then derived_func d config else val in
      mret (indent +:+ name +:+ ": " +:+ show_derived val_last d val derived_val +:+ nl)
  end.

(** A FIFO is read from the variable that holds the pointer to the structure, whose
    eight bytes are [var]. [mem] is the memory from [malloc], NULL when [None]. *)
Definition print_info (indent highc : string) (config var : list Z) (d : xdp2_config_desc) : outcome string :=
  let name := indent +:+ highc +:+ strlc (conf_name d) +:+ highc in
  if fifo d then
    bs ← config_read_bytes var (offset d) sizeof_fifo_config;
    let f := fifo_of_bytes bs in
    mret (name +:+ "_limit: default=" +:+ dec (limit f) +:+ ", min=" +:+ dec (dmin d) +:+ ", max=" +:+ dec (dmax d) +:+ " Limit for fifo " +:+ quoted (text d) +:+ nl +:+
          name +:+ "_low_water_mark: default=" +:+ dec (low_water_mark f) +:+ " max: <= limit), Low water mark for " +:+ quoted (text d) +:+ nl)
  else
    val ← config_read_val config (offset d) (dsize d);
    mret (if is_bitmap d then name +:+ ": default=0x" +:+ hex val +:+ " allflags=" +:+ hex (dmax d) +:+ ", " +:+ text d +:+ nl
          else name +:+ ": default=" +:+ dec val +:+ " min=" +:+ dec (dmin d) +:+ " max=" +:+ dec (dmax d) +:+ ", " +:+ text d +:+ nl).

Definition xdp2_config_print_config_info (t : xdp2_config_desc_table) (mem : option (list Z)) (var : list Z) (indent : string) (highlight : bool) : outcome string :=
  match mem with
  | None => mret ("Malloc of config struct failed!" +:+ nl)
  | Some mem => config ← set_default_config t mem; print_all (print_info indent (if highlight then "**" else "") config var) (table t)
  end.
Definition xdp2_config_print_config_help (t : xdp2_config_desc_table) (mem : option (list Z)) (var : list Z) (highlight : bool) : outcome string :=
  info ← xdp2_config_print_config_info t mem var (String (char 9) "") highlight;
  mret ("Configuration parameters:" +:+ nl +:+ info +:+ nl).

(** ** The macros

    The arguments of [XDP2_CONFIG_MAKE_ALL_CONFIGS_FIFOS]; a parameter has a type of
    [cp_size] bytes. *)

Record config_param := ConfigParam {
  cp_name : string; cp_default : Z; cp_size : Z; cp_min : Z; cp_max : Z; cp_text : string; cp_derived : list Z -> Z }.
Record fifo_param := FifoParam {
  fp_name : string; fp_limit : Z; fp_low_water_mark : Z; fp_limit_min : Z; fp_limit_max : Z; fp_text : string }.

(** The members of the structure behind the pointer [priv], at their alignment. *)
Definition align_up (lo a : Z) : Z := (lo + a - 1) / a * a.
Fixpoint param_descs (lo : Z) (ps : list config_param) : list xdp2_config_desc * Z :=
  match ps with
  | [] => ([], lo)
  | p :: ps =>
    let off := align_up lo (cp_size p) in
    let '(ds, hi) := param_descs (off + cp_size p) ps in
    (ConfigDesc off (cp_size p) (cp_min p) (cp_max p) (cp_name p) (cp_text p) (cp_derived p) false :: ds, hi)
  end.
(** [.size] and [.derived_func] of a FIFO are zero. *)
Fixpoint fifo_descs (lo : Z) (fs : list fifo_param) : list xdp2_config_desc * Z :=
  match fs with
  | [] => ([], lo)
  | f :: fs =>
    let off := align_up lo 2 in
    let '(ds, hi) := fifo_descs (off + 6) fs in
    (ConfigDesc off 0 (fp_limit_min f) (fp_limit_max f) (fp_name f) (fp_text f) (fun _ => 0) true :: ds, hi)
  end.

Definition make_descs (ps : list config_param) (fs : list fifo_param) : list xdp2_config_desc * Z :=
  let '(ds, lo) := param_descs 8 ps in
  let '(es, hi) := fifo_descs lo fs in
  (ds ++ es, align_up hi 8).

Fixpoint set_params (ds : list xdp2_config_desc) (ps : list config_param) (config : list Z) : outcome (list Z) :=
  match ds, ps with
  | d :: ds, p :: ps => config ← config_write_val config (offset d) (cp_size p) (cp_default p); set_params ds ps config
  | _, _ => mret config
  end.
Fixpoint set_fifos (ds : list xdp2_config_desc) (fs : list fifo_param) (config : list Z) : outcome (list Z) :=
  match ds, fs with
  | d :: ds, f :: fs =>
    bs ← config_read_bytes config (offset d) sizeof_fifo_config;
    config ← config_write_bytes config (offset d) (fifo_bytes (FifoConfig (fp_limit f) (fp_low_water_mark f) 0) bs);
    set_fifos ds fs config
  | _, _ => mret config
  end.
(** [priv] is first; the FIFOs are set before the other parameters. *)
Definition make_set_default_config (ps : list config_param) (fs : list fifo_param) (priv : Z) (config : list Z) : outcome (list Z) :=
  let '(ds, lo) := param_descs 8 ps in
  let '(es, _) := fifo_descs lo fs in
  config ← config_write_bytes config 0 (le_bytes 8 priv);
  config ← set_fifos es fs config;
  set_params ds ps config.

(** The enumerations of defaults are in the definitions that use them. *)
Definition XDP2_CONFIG_MAKE_ALL_CONFIGS_FIFOS (ps : list config_param) (fs : list fifo_param) : xdp2_config_desc_table :=
  let '(ds, size) := make_descs ps fs in ConfigTable ds size (make_set_default_config ps fs 0).

Definition XDP2_CONFIG_MAKE_ALL_CONFIGS (ps : list config_param) : xdp2_config_desc_table := XDP2_CONFIG_MAKE_ALL_CONFIGS_FIFOS ps [].

(** The function that gets a parameter at [off]. *)
Definition config_get (use_const : bool) (p : config_param) (off : Z) (config : list Z) : outcome Z :=
  if use_const then mret (cp_default p mod 2 ^ (8 * cp_size p)) else
  val ← config_read_val config off (cp_size p);
  mret (if negb (val =? 0) then val else cp_derived p config mod 2 ^ (8 * cp_size p)).
Definition fifo_get (use_const : bool) (f : fifo_param) (off : Z) (config : list Z) : outcome (Z * Z) :=
  if use_const then mret (u16 (fp_limit f), u16 (fp_low_water_mark f)) else
  bs ← config_read_bytes config off sizeof_fifo_config;
  let c := fifo_of_bytes bs in mret (limit c, low_water_mark c).

(** A value, an address, a bitmap and a FIFO. *)
Definition ex_params : list config_param :=
  [ConfigParam "Num_Ports" 4 2 1 64 "Number of ports" (fun _ => 0); ConfigParam "Peer" 0x0100007f 4 0 (2 ^ 32 - 1) "IPv4 address of the peer" (fun _ => 0);
   ConfigParam "Flags" 0 8 0 0xff "Bitmap of flags" (fun _ => 0x21)].
Definition ex_fifos : list fifo_param := [FifoParam "Work" 128 96 1 1024 "Work queue"].
Definition ex_table : xdp2_config_desc_table := XDP2_CONFIG_MAKE_ALL_CONFIGS_FIFOS ex_params ex_fifos.

Example ex_offsets : offset <$> table ex_table = [8; 12; 16; 24] /\ config_struct_size ex_table = 32.
Proof. split; reflexivity. Qed.

Definition ex_run : outcome (Z * string) :=
  config ← set_default_config ex_table (replicate 32 0);
  '(ret, config) ← xdp2_config_parse_options ex_table config (Some "num_ports=0x10  peer=10.0.0.1 work_limit=256");
  out ← xdp2_config_print_config_csv_short ex_table config "=" false;
  mret (ret, out).
Example ex_parse : ex_run = Done (0, "num_ports=16" +:+ nl +:+ "peer=10.0.0.1" +:+ nl +:+ "flags=0x21" +:+ nl +:+ "work_limit=256" +:+ nl +:+ "work_low_water_mark=96" +:+ nl).
Proof. vm_compute. reflexivity. Qed.

(** A value above the maximum is refused; the limits of a FIFO are not checked, and
    are cut to 16 bits. *)
Example config_fifo_unchecked :
  (fst <$> xdp2_config_parse_options ex_table (replicate 32 0) (Some "num_ports=65")) = Done (-1) /\
  (c ← xdp2_config_parse_options ex_table (replicate 32 0) (Some "work_limit=70000"); bs ← config_read_bytes c.2 24 6; mret (c.1, limit (fifo_of_bytes bs))) = Done (0, 4464).
Proof. split; vm_compute; reflexivity. Qed.

(** The information on a table with FIFOs reads behind the variable [config]. *)
Example config_info_reads_pointer : xdp2_config_print_config_info ex_table (Some (replicate 32 0)) (replicate 8 0) "" false = Crash.
Proof. vm_compute. reflexivity. Qed.

(** The derived address and the configured one print as the same address, whatever the
    order in which the compiler evaluates them. *)
Example config_derived_address_twice val_last :
  exists a, (config ← set_default_config ex_table (replicate 32 0); xdp2_config_print_derived_config val_last ex_table "" config "peer" 0x0200000a 0) = Done ("peer: " +:+ a +:+ ", derived: " +:+ a +:+ nl).
Proof. destruct val_last; [exists "127.0.0.1" | exists "10.0.0.2"]; vm_compute; reflexivity. Qed.
