(* ===== verification/ConfigProps.v ===== *)
(** * Configuration: saving, restoring and setting parameters *)

From Stdlib Require Import Ascii.
From stdpp Require Import base list strings numbers sorting.
From S2P Require Import Prelude FlagFields Bytes Siphash SiphashSpec Config.

Local Open Scope string_scope. Local Open Scope list_scope. Local Open Scope Z_scope.

(** ** Numbers in text *)

Lemma digit_roundtrip base d : base = 10 \/ base = 16 -> 0 <= d < base -> digit_val base (digit_char d) = Some d.
Proof.
  intros Hb Hd. assert (d = 0 \/ d = 1 \/ d = 2 \/ d = 3 \/ d = 4 \/ d = 5 \/ d = 6 \/ d = 7 \/ d = 8 \/ d = 9 \/ d = 10 \/ d = 11 \/ d = 12 \/ d = 13 \/ d = 14 \/ d = 15) as H by lia.
  destruct Hb as [-> | ->]; repeat (destruct H as [-> | H]; [try reflexivity; lia |]); subst d; reflexivity || lia.
Qed.

Lemma print_parse base fuel : base = 10 \/ base = 16 -> forall n acc, 0 <= n < base ^ Z.of_nat fuel -> (0 < fuel)%nat ->
  parse_digits base 0 (print_digits base fuel n acc) = parse_digits base n acc.
Proof.
  intros Hb. induction fuel as [| fuel IH]; intros n acc Hn Hf; [lia |]. cbn [print_digits]. pose proof (Z.mod_pos_bound n base ltac:(lia)) as Hm. pose proof (Z.div_mod n base ltac:(lia)) as Hdm.
  assert (forall v, v * base + n mod base = n -> parse_digits base v (String (digit_char (n mod base)) acc) = parse_digits base n acc) as Hs
    by (intros v E; cbn [parse_digits]; rewrite digit_roundtrip by done; by rewrite E).
  destruct (Z.eqb_spec (n / base) 0) as [E0 | E0]; [apply Hs; lia |].
  assert (0 <= n / base) as H0 by (apply Z.div_pos; lia).
  assert (n / base < base ^ Z.of_nat fuel) as Hlt by (apply Z.div_lt_upper_bound; [lia |]; rewrite <- Z.pow_succ_r by lia; rewrite <- Nat2Z.inj_succ; lia).
  rewrite IH; [apply Hs; lia | lia |]. destruct fuel; [cbn in Hlt; lia | lia].
Qed.

Lemma print_digits_app base fuel : forall n acc rest, print_digits base fuel n acc +:+ rest = print_digits base fuel n (acc +:+ rest).
Proof. induction fuel as [| fuel IH]; intros n acc rest; cbn [print_digits]; [done |]. destruct (n / base =? 0); [done |]. by rewrite IH. Qed.

Lemma dec_app n rest : dec n +:+ rest = print_digits 10 64 n rest.
Proof. exact (print_digits_app 10 64 n "" rest). Qed.
Lemma hex_app n rest : ("0x" +:+ hex n) +:+ rest = String "0" (String "x" (print_digits 16 64 n rest)).
Proof. do 2 apply (f_equal (String _)). exact (print_digits_app 16 64 n "" rest). Qed.

(** The first digit. *)
Lemma print_digits_head base fuel : base = 10 \/ base = 16 -> forall n acc, 0 < n -> (0 < fuel)%nat ->
  exists d s, print_digits base fuel n acc = String (digit_char d) s /\ 0 <= d < base /\ (n < base ^ Z.of_nat fuel -> 0 < d).
Proof.
  intros Hb. induction fuel as [| fuel IH]; intros n acc Hn Hf; [lia |]. cbn [print_digits]. pose proof (Z.mod_pos_bound n base ltac:(lia)) as Hm. pose proof (Z.div_mod n base ltac:(lia)) as Hdm.
  destruct (Z.eqb_spec (n / base) 0) as [E0 | E0]; [exists (n mod base), acc; split_and!; [done | lia | lia | intros _; lia] |].
  assert (0 < n / base) as H0 by (pose proof (Z.div_pos n base); lia). destruct fuel as [| fuel].
  - cbn [print_digits]. exists (n mod base), acc. split_and!; [done | lia | lia |]. intros Hlt. cbn in Hlt. pose proof (Z.div_small n base). lia.
  - destruct (IH (n / base) (String (digit_char (n mod base)) acc) H0 ltac:(lia)) as (d & s & -> & Hd & Hp). exists d, s. split_and!; [done | lia | lia |].
    intros Hlt. apply Hp. apply Z.div_lt_upper_bound; [lia |]. rewrite <- Z.pow_succ_r by lia. rewrite <- Nat2Z.inj_succ. lia.
Qed.

(** The text after a number. *)
Definition stops (s : string) : Prop := match s with "" => True | String c _ => digit_val 16 c = None /\ c <> "x"%char /\ c <> "X"%char end.

Lemma digit_val_le a b c : a <= b -> digit_val b c = None -> digit_val a c = None.
Proof. intros H. unfold digit_val. set (v := if isdigit c then _ else _). destruct (Z.ltb_spec v b), (Z.ltb_spec v a); done || lia. Qed.

Lemma parse_digits_stop base n s : base <= 16 -> stops s -> parse_digits base n s = (n, s).
Proof. intros Hb. destruct s as [| c s]; [done |]. intros [Hc _]. cbn [parse_digits]. by rewrite (digit_val_le base 16 c Hb Hc). Qed.

Lemma digit_char_plain d : 0 < d < 16 ->
  let c := digit_char d in isspace c = false /\ c <> "-"%char /\ c <> "+"%char /\ c <> "0"%char /\ (d < 10 -> isdigit c = true).
Proof.
  intros Hd. assert (d = 1 \/ d = 2 \/ d = 3 \/ d = 4 \/ d = 5 \/ d = 6 \/ d = 7 \/ d = 8 \/ d = 9 \/ d = 10 \/ d = 11 \/ d = 12 \/ d = 13 \/ d = 14 \/ d = 15) as H by lia.
  repeat (destruct H as [-> | H]; [split_and!; try discriminate; try reflexivity; lia |]). subst d. split_and!; try discriminate; try reflexivity; lia.
Qed.

Lemma unsigned_base_zero x d s : unsigned_base (String "0" (String x (String d s))) =
  if (bool_decide (x = "x"%char) || bool_decide (x = "X"%char)) && (match digit_val 16 d with Some _ => true | None => false end)
  then (16, String d s) else (8, String "0" (String x (String d s))).
Proof. reflexivity. Qed.

Lemma strtoul_unsigned c s base s0 v rest : isspace c = false -> c <> "-"%char -> c <> "+"%char ->
  unsigned_base (String c s) = (base, s0) -> parse_digits base 0 s0 = (v, rest) -> v < 2 ^ 64 -> strtoul (String c s) = (v, rest).
Proof.
  intros Hs Hm Hp Hb Hd Hv. unfold strtoul. cbn [skip_space]. rewrite Hs.
  assert (match String c s with String "-" s' => (true, s') | String "+" s' => (false, s') | _ => (false, String c s) end = (false, String c s)) as ->
    by (clear - Hm Hp; destruct c as [[] [] [] [] [] [] [] []]; done).
  rewrite Hb, Hd. by destruct (Z.leb_spec (2 ^ 64) v); [lia |].
Qed.

Lemma strtoul_dec n rest : 0 <= n < 2 ^ 64 -> stops rest -> strtoul (dec n +:+ rest) = (n, rest).
Proof.
  intros Hn Hr. assert (n < 10 ^ Z.of_nat 64) as H64 by (change (10 ^ Z.of_nat 64) with (10 ^ 64); lia).
  rewrite dec_app. destruct (decide (n = 0)) as [-> | Hn0].
  - change (print_digits 10 64 0 rest) with (String "0" rest). apply (strtoul_unsigned _ _ 8 (String "0" rest)); try done.
    + destruct rest as [| c [| d rest]]; [done | done |]. destruct Hr as (_ & Hx & HX). by rewrite unsigned_base_zero, (bool_decide_eq_false_2 _ Hx), (bool_decide_eq_false_2 _ HX).
    + cbn [parse_digits]. change (digit_val 8 "0") with (Some 0). cbn iota. by rewrite parse_digits_stop.
  - pose proof (print_parse 10 64 ltac:(lia) n rest ltac:(lia) ltac:(lia)) as Hp.
    destruct (print_digits_head 10 64 ltac:(lia) n rest ltac:(lia) ltac:(lia)) as (d & s & E & Hd & Hpos). rewrite E in *. specialize (Hpos H64).
    destruct (digit_char_plain d ltac:(lia)) as (H1 & H2 & H3 & H4 & _). apply (strtoul_unsigned _ _ 10 (String (digit_char d) s)); try done; [| | lia].
    + clear - H4. set (c := digit_char d) in *. clearbody c. destruct c as [[] [] [] [] [] [] [] []]; done.
    + rewrite Hp. by apply parse_digits_stop.
Qed.

Lemma strtoul_hex n rest : 0 <= n < 2 ^ 64 -> stops rest -> strtoul (("0x" +:+ hex n) +:+ rest) = (n, rest).
Proof.
  intros Hn Hr. assert (n < 16 ^ Z.of_nat 64) as H64 by (change (16 ^ Z.of_nat 64) with (16 ^ 64); lia).
  rewrite hex_app.
  assert (exists c s, print_digits 16 64 n rest = String c s /\ digit_val 16 c <> None) as (c & s & E & Hc).
  { destruct (decide (n = 0)) as [-> | Hn0]; [by exists "0"%char, rest |].
    destruct (print_digits_head 16 64 ltac:(lia) n rest ltac:(lia) ltac:(lia)) as (d & s & E & Hd & _). exists (digit_char d), s. split; [done |]. by rewrite digit_roundtrip by lia. }
  pose proof (print_parse 16 64 ltac:(lia) n rest ltac:(lia) ltac:(lia)) as Hp. rewrite E in *.
  apply (strtoul_unsigned _ _ 16 (String c s)); try done; [| | lia].
  - rewrite unsigned_base_zero, bool_decide_eq_true_2 by done. cbn [orb andb]. by destruct (digit_val 16 c).
  - rewrite Hp. by apply parse_digits_stop.
Qed.

(** ** Addresses in text *)

Lemma dec_head n rest : 0 <= n < 2 ^ 64 -> exists c s, dec n +:+ rest = String c s /\ isdigit c = true.
Proof.
  intros Hn. rewrite dec_app. destruct (decide (n = 0)) as [-> | Hn0]; [by exists "0"%char, rest |].
  destruct (print_digits_head 10 64 ltac:(lia) n rest ltac:(lia) ltac:(lia)) as (d & s & -> & Hd & Hp). exists (digit_char d), s. split; [done |].
  specialize (Hp ltac:(change (10 ^ Z.of_nat 64) with (10 ^ 64); lia)). by apply digit_char_plain; lia.
Qed.

Lemma inet_part k i res v rest : 0 <= v < 2 ^ 8 -> inet_aton (S k) i res (dec v +:+ String "." rest) = inet_aton k (i + 1) (Z.lor res (Z.shiftl v (8 * i))) rest.
Proof.
  intros Hv. assert (0 <= v < 2 ^ 64) as Hv' by lia. destruct (dec_head v (String "." rest) Hv') as (c & s & E & Hc).
  pose proof (strtoul_dec v (String "." rest) Hv' ltac:(split_and!; [done | discriminate | discriminate])) as Hs. rewrite E in *. cbn [inet_aton]. rewrite Hc, Hs. cbn [negb].
  by destruct (Z.ltb_spec 0xff v); [lia |].
Qed.

Lemma inet_last i res v rest : 0 <= v < 2 ^ 8 -> i = 3 -> stops rest -> match rest with "" => True | String d _ => isspace d = true /\ d <> "."%char end ->
  inet_aton 0 i res (dec v +:+ rest) = Some (Z.lor res (bswap32 v)).
Proof.
  intros Hv -> Hr Hsp. assert (0 <= v < 2 ^ 64) as Hv' by lia. destruct (dec_head v rest Hv') as (c & s & E & Hc).
  pose proof (strtoul_dec v rest Hv' Hr) as Hs. rewrite E in *. cbn [inet_aton]. rewrite Hc, Hs. cbn [negb].
  assert (match rest with "" => true | String d _ => isspace d end = true) as -> by (destruct rest; [done | apply Hsp]).
  change (2 ^ (32 - 8 * 3)) with 256. destruct (Z.leb_spec 256 v); [lia |]. destruct rest as [| d rest]; [done |]. destruct Hsp as [_ Hd].
  clear - Hd. destruct d as [[] [] [] [] [] [] [] []]; done.
Qed.

Lemma addr_byte_range a i : 0 <= addr_byte a i < 2 ^ 8.
Proof. unfold addr_byte. change 0xff with (Z.ones 8). rewrite Z.land_ones by lia. apply Z.mod_pos_bound. lia. Qed.

Lemma addr_byte_bits a i n : 0 <= i -> 0 <= n -> Z.testbit (Z.shiftl (addr_byte a i) (8 * i)) n = (8 * i <=? n) && (n <? 8 * i + 8) && Z.testbit a n.
Proof.
  intros Hi Hn. rewrite Z.shiftl_spec by done. destruct (Z.leb_spec (8 * i) n) as [Hle | Hlt]; [| by rewrite Z.testbit_neg_r by lia]. unfold addr_byte. change 0xff with (Z.ones 8).
  rewrite Z.land_spec, Z.shiftr_spec, Z.testbit_ones_nonneg by lia. replace (n - 8 * i + 8 * i) with n by lia.
  destruct (Z.ltb_spec (n - 8 * i) 8), (Z.ltb_spec n (8 * i + 8)); try lia; by destruct (Z.testbit a n).
Qed.

Lemma bswap32_byte v : 0 <= v < 2 ^ 8 -> bswap32 v = Z.shiftl v 24.
Proof.
  intros Hv. assert (forall k, 8 <= k -> Z.land v (Z.ones k) = v) as Hl by (intros k Hk; rewrite Z.land_ones by lia; apply Z.mod_small; pose proof (Z.pow_le_mono_r 2 8 k); lia).
  assert (forall k, 8 <= k -> Z.shiftr v k = 0) as Hr by (intros k Hk; rewrite Z.shiftr_div_pow2 by lia; apply Z.div_small; pose proof (Z.pow_le_mono_r 2 8 k); lia).
  unfold bswap32, bswap16. change 0xffff with (Z.ones 16). change 0xff with (Z.ones 8). rewrite !Hl, !Hr by lia. cbn [Z.land Z.lor Z.shiftr Z.shiftl]. rewrite ?Z.land_0_l, ?Z.shiftr_0_l, ?Z.shiftl_0_l, ?Z.lor_0_r. by rewrite Z.shiftl_shiftl by lia.
Qed.

Lemma inet_roundtrip a rest : 0 <= a < 2 ^ 32 -> stops rest -> match rest with "" => True | String d _ => isspace d = true /\ d <> "."%char end -> inet_addr (inet_ntoa a +:+ rest) = a.
Proof.
  intros Ha Hr Hsp. pose proof (addr_byte_range a) as Hb. unfold inet_addr, inet_ntoa.
  assert (forall s t u, (s +:+ "." +:+ t) +:+ u = s +:+ String "." (t +:+ u)) as Happ by (intros s t u; induction s as [| c s IH]; [done |]; apply (f_equal (String c)), IH).
  rewrite !Happ, !inet_part, inet_last by (done || lia). change (default ?d (Some ?x)) with x. rewrite Z.lor_0_l, bswap32_byte by done. apply Z.bits_inj'. intros n Hn.
  rewrite !Z.lor_spec. change 24 with (8 * 3). change (8 * (0 + 1)) with (8 * 1). change (8 * (0 + 1 + 1)) with (8 * 2). rewrite !addr_byte_bits by lia.
  destruct (Z.ltb_spec n 32) as [Hlt | Hge].
  - destruct (Z.leb_spec (8 * 0) n), (Z.leb_spec (8 * 1) n), (Z.leb_spec (8 * 2) n), (Z.leb_spec (8 * 3) n), (Z.ltb_spec n (8 * 0 + 8)), (Z.ltb_spec n (8 * 1 + 8)), (Z.ltb_spec n (8 * 2 + 8)), (Z.ltb_spec n (8 * 3 + 8)); try lia; by destruct (Z.testbit a n).
  - assert (Z.testbit a n = false) as -> by (rewrite <- (Z.mod_small a (2 ^ 32)) by done; apply Z.mod_pow2_bits_high; lia). by rewrite !andb_false_r.
Qed.

(** ** Names and rows *)

Fixpoint all_chars (P : ascii -> bool) (s : string) : bool := match s with "" => true | String c s => P c && all_chars P s end.

Lemma cons_app c a b : String c a +:+ b = String c (a +:+ b).
Proof. reflexivity. Qed.
Lemma nil_app b : "" +:+ b = b.
Proof. reflexivity. Qed.
Lemma all_chars_app P a b : all_chars P (a +:+ b) = all_chars P a && all_chars P b.
Proof. induction a as [| c a IH]; [done |]. rewrite cons_app. cbn [all_chars]. by rewrite IH, andb_assoc. Qed.
Lemma all_chars_impl (P Q : ascii -> bool) s : (forall c, P c = true -> Q c = true) -> all_chars P s = true -> all_chars Q s = true.
Proof. intros H. induction s as [| c s IH]; cbn; [done |]. rewrite !andb_true_iff. intros [? ?]. auto. Qed.
Lemma string_length_app a b : String.length (a +:+ b) = (String.length a + String.length b)%nat.
Proof. induction a as [| c a IH]; [done |]. rewrite cons_app. cbn [String.length]. by rewrite IH. Qed.
Lemma string_app_assoc a b c : (a +:+ b) +:+ c = a +:+ b +:+ c.
Proof. induction a as [| x a IH]; [done |]. by rewrite !cons_app, IH. Qed.

(** A C identifier that fits in the buffer of [strlc]. *)
Definition ident_char (c : ascii) : bool := isdigit c || ((65 <=? code c) && (code c <=? 90)) || ((97 <=? code c) && (code c <=? 122)) || (code c =? 95).
Definition name_ok (s : string) : bool := (0 <? Z.of_nat (String.length s)) && (Z.of_nat (String.length s) <=? 128) && all_chars ident_char s.

Definition plain_char (c : ascii) : bool := negb (isspace c) && negb (bool_decide (c = "="%char)) && negb (bool_decide (c = "#"%char)).

Lemma tolower_plain c : ident_char c = true -> plain_char (tolower c) = true.
Proof. destruct c as [[] [] [] [] [] [] [] []]; vm_compute; done. Qed.

Lemma substring_all n s : (String.length s <= n)%nat -> String.substring 0 n s = s.
Proof. revert n. induction s as [| c s IH]; intros [| n] H; cbn in *; try done; [lia |]. by rewrite IH by lia. Qed.

Lemma strlc_name s : name_ok s = true -> all_chars plain_char (strlc s) = true /\ strlc s <> "" /\ (String.length (strlc s) <= 128)%nat.
Proof.
  intros [[H1 H2]%andb_true_iff H3]%andb_true_iff. apply Z.ltb_lt in H1. apply Z.leb_le in H2. unfold strlc. rewrite substring_all by lia. assert (String.length s <= 128)%nat as H2' by lia. clear H2. split_and!.
  - clear H1 H2'. induction s as [| c s IH]; cbn in *; [done |]. apply andb_true_iff in H3 as [Hc Hs]. rewrite tolower_plain, IH by done. done.
  - by destruct s.
  - etrans; [| exact H2']. clear. induction s; cbn; lia.
Qed.

Lemma strchr_app a b c : all_chars (fun d => negb (bool_decide (d = c))) a = true -> strchr (a +:+ String c b) c = Some (a, b).
Proof.
  induction a as [| d a IH]; [intros _; rewrite nil_app; cbn [strchr]; by rewrite bool_decide_eq_true_2 |].
  cbn [all_chars]. intros [Hd Ha]%andb_true_iff. apply negb_true_iff in Hd. rewrite cons_app. cbn [strchr]. by rewrite Hd, IH.
Qed.

Lemma strip_prefix_spec a : forall s r, strip_prefix a s = Some r <-> s = a +:+ r.
Proof.
  induction a as [| c a IH]; intros s r; [cbn [strip_prefix]; rewrite nil_app; split; [by intros [= ->] | by intros ->] |].
  rewrite cons_app. cbn [strip_prefix]. destruct s as [| d s]; [done |]. case_bool_decide as E.
  - subst d. rewrite IH. split; [by intros -> | by intros [= ->]].
  - split; [done |]. by intros [= ? _].
Qed.

(** A row of a file without its newline. *)
Definition row_ok (r : string) : Prop := all_chars (fun d => negb (bool_decide (d = char 10))) r = true /\ (String.length r < 255)%nat.
Definition concat_str (l : list string) : string := foldr (fun a b => a +:+ b) "" l.

Lemma read_row_ok r rest : forall n, all_chars (fun d => negb (bool_decide (d = char 10))) r = true -> (String.length r < n)%nat -> read_row n (r +:+ nl +:+ rest) = (r +:+ nl, rest).
Proof.
  induction r as [| c r IH]; intros [| n] Hc Hn; cbn [all_chars String.length] in *; try lia; [done |]. apply andb_true_iff in Hc as [Hc Hr]. apply negb_true_iff in Hc.
  rewrite !cons_app. cbn [read_row]. by rewrite Hc, IH by (done || lia).
Qed.

Lemma file_rows_ok rows : forall fuel, Forall row_ok rows -> (length rows <= fuel)%nat -> file_rows fuel (concat_str ((fun r => r +:+ nl) <$> rows)) = (fun r => r +:+ nl) <$> rows.
Proof.
  induction rows as [| r rows IH]; intros fuel Hr Hf; cbn [fmap list_fmap concat_str foldr length] in *; [by destruct fuel |]. destruct fuel as [| fuel]; [lia |]. apply Forall_cons_1 in Hr as [[Hc Hl] Hr].
  cbn [file_rows]. rewrite string_app_assoc, read_row_ok by (done || cbn; lia). rewrite IH by (done || lia). destruct r; done.
Qed.

Lemma concat_str_length rows : (length rows <= String.length (concat_str ((fun r => r +:+ nl) <$> rows)))%nat.
Proof. induction rows as [| r rows IH]; cbn [fmap list_fmap concat_str foldr length]; [lia |]. rewrite !string_length_app. unfold concat_str in IH. cbn. lia. Qed.

(** The text of numbers. *)
Lemma print_digits_length base fuel : 1 < base -> forall n acc k, 0 <= n < base ^ Z.of_nat k -> (0 < k)%nat -> (String.length (print_digits base fuel n acc) <= k + String.length acc)%nat.
Proof.
  intros Hb. induction fuel as [| fuel IH]; intros n acc k Hn Hk; cbn [print_digits]; [lia |]. destruct (Z.eqb_spec (n / base) 0) as [E0 | E0]; [cbn; lia |].
  assert (0 <= n / base) as H0 by (apply Z.div_pos; lia). destruct k as [| k]; [lia |].
  assert (n / base < base ^ Z.of_nat k) as Hlt by (apply Z.div_lt_upper_bound; [lia |]; rewrite <- Z.pow_succ_r by lia; rewrite <- Nat2Z.inj_succ; lia).
  destruct k as [| k]; [cbn in Hlt; lia |]. etrans; [apply (IH _ _ (S k)); lia |]. cbn. lia.
Qed.

Lemma print_digits_chars P base fuel : 0 < base <= 16 -> (forall d, 0 <= d < 16 -> P (digit_char d) = true) -> forall n acc, all_chars P acc = true -> all_chars P (print_digits base fuel n acc) = true.
Proof.
  intros Hb HP. induction fuel as [| fuel IH]; intros n acc Ha; cbn [print_digits]; [done |]. pose proof (Z.mod_pos_bound n base ltac:(lia)).
  assert (all_chars P (String (digit_char (n mod base)) acc) = true) as H' by (cbn; by rewrite HP, Ha by lia). destruct (n / base =? 0); [done |]. by apply IH.
Qed.

Definition not_nl (c : ascii) : bool := negb (bool_decide (c = char 10)).
Lemma digit_char_not_nl d : 0 <= d < 16 -> not_nl (digit_char d) = true.
Proof. intros Hd. destruct (decide (d = 0)) as [-> | ?]; [done |]. destruct (digit_char_plain d ltac:(lia)) as (Hs & _). unfold not_nl. rewrite bool_decide_eq_false_2; [done |]. intros E. by rewrite E in Hs. Qed.

Lemma dec_text n : 0 <= n < 2 ^ 64 -> all_chars not_nl (dec n) = true /\ (String.length (dec n) <= 20)%nat.
Proof. intros Hn. split; [by apply print_digits_chars; [lia | apply digit_char_not_nl |] |]. etrans; [apply (print_digits_length 10 64 ltac:(lia) n "" 20); [change (10 ^ Z.of_nat 20) with (10 ^ 20); lia | lia] |]. cbn. lia. Qed.
Lemma byte_text n : 0 <= n < 2 ^ 8 -> (String.length (dec n) <= 3)%nat.
Proof. intros Hn. etrans; [apply (print_digits_length 10 64 ltac:(lia) n "" 3); [change (10 ^ Z.of_nat 3) with (10 ^ 3); lia | lia] |]. cbn. lia. Qed.
Lemma hex_text n : 0 <= n < 2 ^ 64 -> all_chars not_nl (hex n) = true /\ (String.length (hex n) <= 16)%nat.
Proof. intros Hn. split; [by apply print_digits_chars; [lia | apply digit_char_not_nl |] |]. etrans; [apply (print_digits_length 16 64 ltac:(lia) n "" 16); [change (16 ^ Z.of_nat 16) with (2 ^ 64); lia | lia] |]. cbn. lia. Qed.

Lemma show_val_text d v : 0 <= v < 2 ^ 64 -> all_chars not_nl (show_val d v) = true /\ (String.length (show_val d v) <= 20)%nat.
Proof.
  intros Hv. unfold show_val. destruct (is_bitmap d); [| destruct (is_addr d)].
  - rewrite all_chars_app, string_length_app. destruct (hex_text v Hv) as [-> ?]. change (String.length "0x") with 2%nat. split; [done | lia].
  - unfold inet_ntoa. rewrite !all_chars_app, !string_length_app. pose proof (addr_byte_range (u32 v)) as Hb.
    assert (forall i, all_chars not_nl (dec (addr_byte (u32 v) i)) = true) as Hc by (intros i; apply dec_text; specialize (Hb i); lia). rewrite !Hc.
    pose proof (fun i => byte_text _ (Hb i)) as Hl. pose proof (Hl 0); pose proof (Hl 1); pose proof (Hl 2); pose proof (Hl 3). change (String.length ".") with 1%nat. split; [done | lia].
  - apply dec_text, Hv.
Qed.

(** ** Fields of the structure *)

Definition width (d : xdp2_config_desc) : nat := if fifo d then sizeof_fifo_config else Z.to_nat (dsize d).
Definition field (c : list Z) (d : xdp2_config_desc) : list Z := take (width d) (drop (Z.to_nat (offset d)) c).
Definition put (c : list Z) (d : xdp2_config_desc) (bs : list Z) : list Z := take (Z.to_nat (offset d)) c ++ bs ++ drop (Z.to_nat (offset d) + length bs) c.
Definition disjoint_fields (d e : xdp2_config_desc) : Prop := offset d + Z.of_nat (width d) <= offset e \/ offset e + Z.of_nat (width e) <= offset d.

(** The names under which a parameter is set. *)
Definition keys (d : xdp2_config_desc) : list string :=
  let name := strlc (conf_name d) in if fifo d then [name +:+ "_limit"; name +:+ "_low_water_mark"] else [name].

Record desc_ok (size : Z) (d : xdp2_config_desc) : Prop := {
  do_name : name_ok (conf_name d) = true;
  do_offset : 0 <= offset d /\ offset d + Z.of_nat (width d) <= size;
  do_size : fifo d = false -> config_size_ok (dsize d) = true;
  do_text : fifo d = false -> is_bitmap d = true -> is_addr d = false }.

Record table_ok (t : xdp2_config_desc_table) : Prop := {
  to_descs : Forall (desc_ok (config_struct_size t)) (table t);
  to_fields : StronglySorted disjoint_fields (table t);
  to_keys : NoDup (concat (keys <$> table t)) }.

Lemma size_ok_cases z : config_size_ok z = true -> z = 1 \/ z = 2 \/ z = 4 \/ z = 8.
Proof. unfold config_size_ok. rewrite !orb_true_iff, !Z.eqb_eq. lia. Qed.

Section Field.
Context (size : Z) (c : list Z) (Hc : Z.of_nat (length c) = size) (d : xdp2_config_desc) (Hd : desc_ok size d).

Lemma read_field : config_read_bytes c (offset d) (width d) = Done (field c d).
Proof using Hc Hd. destruct (do_offset _ _ Hd). unfold config_read_bytes. destruct (Z.leb_spec 0 (offset d)), (Z.leb_spec (offset d + Z.of_nat (width d)) (Z.of_nat (length c))); done || lia. Qed.

Lemma field_length : length (field c d) = width d.
Proof using Hc Hd. destruct (do_offset _ _ Hd). unfold field. rewrite length_take, length_drop. lia. Qed.

Lemma read_field_val : fifo d = false -> config_read_val c (offset d) (dsize d) = Done (le_val (field c d)).
Proof using Hc Hd.
  intros Hf. unfold config_read_val. rewrite (do_size _ _ Hd Hf). pose proof read_field as E. unfold width in E at 1. rewrite Hf in E. by rewrite E.
Qed.

Context (bs : list Z) (Hb : length bs = width d).

Lemma write_field : config_write_bytes c (offset d) bs = Done (put c d bs).
Proof using Hc Hd Hb. destruct (do_offset _ _ Hd). unfold config_write_bytes. rewrite Hb. destruct (Z.leb_spec 0 (offset d)), (Z.leb_spec (offset d + Z.of_nat (width d)) (Z.of_nat (length c))); try lia. unfold put. by rewrite Hb. Qed.

Lemma put_length : length (put c d bs) = length c.
Proof using Hc Hd Hb. destruct (do_offset _ _ Hd). unfold put. rewrite !length_app, length_take, length_drop. lia. Qed.

Lemma put_same : field (put c d bs) d = bs.
Proof using Hc Hd Hb.
  destruct (do_offset _ _ Hd). unfold field, put. rewrite drop_app_length' by (rewrite length_take; lia). rewrite take_app_length' by done. done.
Qed.

Lemma put_lookup i : (i < Z.to_nat (offset d) \/ Z.to_nat (offset d) + width d <= i)%nat -> put c d bs !! i = c !! i.
Proof using Hc Hd Hb.
  destruct (do_offset _ _ Hd). unfold put. intros [Hi | Hi].
  - rewrite lookup_app_l by (rewrite length_take; lia). by apply lookup_take_lt.
  - rewrite lookup_app_r by (rewrite length_take; lia). rewrite lookup_app_r by (rewrite length_take; lia). rewrite lookup_drop, length_take. f_equal. lia.
Qed.

Lemma put_other e : desc_ok size e -> disjoint_fields d e \/ disjoint_fields e d -> field (put c d bs) e = field c e.
Proof using Hc Hd Hb.
  intros He Hx. destruct (do_offset _ _ Hd), (do_offset _ _ He). unfold disjoint_fields in Hx. unfold field. apply list_eq. intros i. destruct (decide (i < width e)%nat) as [Hi | Hi].
  - rewrite !lookup_take_lt, !lookup_drop by done. apply put_lookup. lia.
  - by rewrite !lookup_take_ge by lia.
Qed.
End Field.

(** ** Names *)

Lemma key_found d ds b : In b (keys d) -> find_config_desc (d :: ds) b = Some (d, fifo d && bool_decide (b = strlc (conf_name d) +:+ "_low_water_mark")).
Proof.
  unfold keys. cbn [find_config_desc]. destruct (fifo d) eqn:Ef; cbn [In andb].
  - assert (forall x, strip_prefix (strlc (conf_name d)) (strlc (conf_name d) +:+ x) = Some x) as Hp by (intros x; by apply strip_prefix_spec).
    assert (forall x, strlc (conf_name d) +:+ x = strlc (conf_name d) +:+ "_low_water_mark" -> x = "_low_water_mark") as Hinj.
    { intros x E. pose proof (Hp x) as H. rewrite E, Hp in H. by injection H as <-. }
    intros [<- | [<- | []]]; rewrite Hp.
    + rewrite bool_decide_eq_true_2 by done. rewrite bool_decide_eq_false_2; [done |]. by intros ?%Hinj.
    + rewrite bool_decide_eq_false_2 by done. by rewrite !bool_decide_eq_true_2.
  - intros [<- | []]. by rewrite bool_decide_eq_true_2.
Qed.

Lemma key_skipped d ds b : ~ In b (keys d) -> find_config_desc (d :: ds) b = find_config_desc ds b.
Proof.
  unfold keys. cbn [find_config_desc]. destruct (fifo d); cbn [In]; intros Hn.
  - destruct (strip_prefix _ b) as [r |] eqn:E; [| done]. apply strip_prefix_spec in E. rewrite !bool_decide_eq_false_2; [done | |]; intros ->; apply Hn; rewrite E; auto.
  - rewrite bool_decide_eq_false_2; [done |]. tauto.
Qed.

(** The first parameter found is the one that has the name. *)
Lemma find_key ds : NoDup (concat (keys <$> ds)) -> forall d b, d ∈ ds -> In b (keys d) ->
  find_config_desc ds b = Some (d, fifo d && bool_decide (b = strlc (conf_name d) +:+ "_low_water_mark")).
Proof.
  induction ds as [| e ds IH]; intros Hn d b Hin Hb; [by apply not_elem_of_nil in Hin |]. cbn [fmap list_fmap concat] in Hn. apply NoDup_app in Hn as (_ & Hne & Hn).
  apply elem_of_cons in Hin as [-> | Hin]; [by apply key_found |]. rewrite key_skipped; [by apply IH |]. intros He. apply (Hne b); [by apply list_elem_of_In |].
  apply list_elem_of_In, in_concat. exists (keys d). split; [| done]. apply list_elem_of_In, list_elem_of_fmap. by exists d.
Qed.

(** ** Saving and restoring *)

(** The value that is saved: a parameter that is zero has a derived value. *)
Definition saved (c : list Z) (d : xdp2_config_desc) : Z := let v := le_val (field c d) in if v =? 0 then derived_func d c else v.
Definition limits (bs : list Z) : Z * Z := (limit (fifo_of_bytes bs), low_water_mark (fifo_of_bytes bs)).

Definition rows (c : list Z) (d : xdp2_config_desc) : list string :=
  let name := strlc (conf_name d) in
  if fifo d then [(name +:+ "_limit") +:+ String "=" (dec (limits (field c d)).1); (name +:+ "_low_water_mark") +:+ String "=" (dec (limits (field c d)).2)]
  else [name +:+ String "=" (show_val d (saved c d))].
Definition lines (rs : list string) : list string := (fun r => r +:+ nl) <$> rs.

(** The parameters of a structure that can be saved. *)
Definition saved_ok (c : list Z) (d : xdp2_config_desc) : Prop :=
  if fifo d then (limits (field c d)).2 <= (limits (field c d)).1
  else 0 <= saved c d < 2 ^ (8 * dsize d) /\ out_of_range d (saved c d) = false /\ (is_addr d = true -> saved c d < 2 ^ 32).

(** What the bytes of a parameter hold afterwards; behind the two limits of a FIFO
    (its entry size) are the bytes [old] of before. *)
Definition restored (c : list Z) (d : xdp2_config_desc) (old bs : list Z) : Prop :=
  if fifo d then limits bs = limits (field c d) /\ drop 4 bs = drop 4 old else le_val bs = saved c d.

Lemma concat_str_app a b : concat_str (a ++ b) = concat_str a +:+ concat_str b.
Proof. induction a as [| x a IH]; [done |]. cbn [app concat_str foldr]. unfold concat_str in IH. by rewrite IH, string_app_assoc. Qed.

Lemma limits_range bs : Forall is_u8 bs -> 0 <= (limits bs).1 < 2 ^ 16 /\ 0 <= (limits bs).2 < 2 ^ 16.
Proof.
  intros H. assert (forall l, Forall is_u8 l -> (length l <= 2)%nat -> 0 <= le_val l < 2 ^ 16) as Hr.
  { intros l Hl Hn. pose proof (le_val_range l Hl) as [? Hlt]. split; [done |]. eapply Z.lt_le_trans; [exact Hlt |]. apply Z.pow_le_mono_r; lia. }
  cbn. split; apply Hr; [by apply Forall_take | rewrite length_take; lia | by apply Forall_take, Forall_drop | rewrite length_take; lia].
Qed.

Lemma limits_fifo_bytes f bs : 0 <= limit f < 2 ^ 16 -> 0 <= low_water_mark f < 2 ^ 16 -> limits (fifo_bytes f bs) = (limit f, low_water_mark f).
Proof.
  intros H1 H2. unfold limits, fifo_of_bytes, fifo_bytes. cbn [limit low_water_mark].
  rewrite take_app_length' by (by rewrite le_bytes_length). rewrite drop_app_length' by (by rewrite le_bytes_length). rewrite take_app_length' by (by rewrite le_bytes_length). by rewrite !le_val_le_bytes.
Qed.

Lemma drop_fifo_bytes f bs : drop 4 (fifo_bytes f bs) = drop 4 bs.
Proof. unfold fifo_bytes. rewrite app_assoc. apply drop_app_length'. by rewrite length_app, !le_bytes_length. Qed.

Lemma stops_nl : stops nl.
Proof. split_and!; [reflexivity | discriminate | discriminate]. Qed.

Lemma parse_list_app ds a b : forall c, parse_list ds c (a ++ b) = ('(ret, c) ← parse_list ds c a; if negb (ret =? 0) then mret (ret, c) else parse_list ds c b).
Proof.
  induction a as [| x a IH]; intros c; cbn [app parse_list]; [done |]. destruct (parse_one_option ds c x) as [[r c'] | |]; orun; [| done | done].
  destruct (negb (r =? 0)) eqn:E; [by orun; rewrite E | apply IH].
Qed.

Section Restore.
Context (t : xdp2_config_desc_table) (Ht : table_ok t) (c : list Z) (Hlen : Z.of_nat (length c) = config_struct_size t) (Hu : Forall is_u8 c).

Lemma desc_in d : d ∈ table t -> desc_ok (config_struct_size t) d.
Proof using Ht. intros Hd. exact (proj1 (Forall_forall _ _) (to_descs _ Ht) d Hd). Qed.

Lemma name_chars d (P : ascii -> bool) : (forall x, plain_char x = true -> P x = true) -> d ∈ table t -> all_chars P (strlc (conf_name d)) = true.
Proof using Ht. intros HP Hd. eapply all_chars_impl; [exact HP |]. exact (proj1 (strlc_name _ (do_name _ _ (desc_in d Hd)))). Qed.

Lemma plain_not_eq x : plain_char x = true -> negb (bool_decide (x = "="%char)) = true.
Proof using. unfold plain_char. rewrite !andb_true_iff. tauto. Qed.
Lemma plain_not_nl x : plain_char x = true -> negb (bool_decide (x = char 10)) = true.
Proof using. unfold plain_char. rewrite !andb_true_iff. intros [[H _] _]. rewrite bool_decide_eq_false_2; [done |]. intros ->. discriminate H. Qed.

Lemma field_u8 d : Forall is_u8 (field c d).
Proof using Hu. unfold field. by apply Forall_take, Forall_drop. Qed.

Lemma print_row d : d ∈ table t -> print_csv_short c "=" d = Done (concat_str (lines (rows c d))).
Proof using Ht Hlen.
  intros Hd. pose proof (desc_in d Hd) as Hok. unfold print_csv_short, rows. destruct (fifo d) eqn:Ef.
  - pose proof (read_field _ c Hlen d Hok) as E. unfold width in E at 1. rewrite Ef in E. rewrite E. cbn [lines fmap list_fmap concat_str foldr limits fst snd]. orun.
    apply (f_equal Done). by rewrite !string_app_assoc, !cons_app.
  - rewrite (read_field_val _ c Hlen d Hok Ef). orun. rewrite bool_decide_eq_true_2 by done. cbn [andb lines fmap list_fmap concat_str foldr]. apply (f_equal Done).
    rewrite !string_app_assoc, !cons_app. unfold saved. done.
Qed.

Lemma print_rows ds : (forall d, d ∈ ds -> d ∈ table t) -> print_all (print_csv_short c "=") ds = Done (concat_str (lines (concat (rows c <$> ds)))).
Proof using Ht Hlen.
  induction ds as [| d ds IH]; intros Hin; cbn [print_all fmap list_fmap concat]; [done |]. rewrite print_row by (apply Hin; by left). orun. rewrite IH by (intros e He; apply Hin; by right). orun.
  unfold lines. by rewrite fmap_app, concat_str_app.
Qed.

Lemma rows_ok d : d ∈ table t -> saved_ok c d -> Forall row_ok (rows c d).
Proof using Ht Hlen Hu.
  intros Hd Hs. pose proof (strlc_name _ (do_name _ _ (desc_in d Hd))) as (_ & _ & Hl). pose proof (name_chars d _ plain_not_nl Hd) as Hc. pose proof (limits_range _ (field_u8 d)) as [H1 H2].
  assert (forall name v, all_chars (fun x => negb (bool_decide (x = char 10))) name = true -> (String.length name <= 143)%nat -> all_chars not_nl v = true -> (String.length v <= 20)%nat -> row_ok (name +:+ String "=" v)) as Hrow.
  { intros name v Hn Hnl Hv Hvl. split; [rewrite all_chars_app, Hn; cbn [andb all_chars]; exact Hv |]. rewrite string_length_app. cbn [String.length]. lia. }
  unfold rows. unfold saved_ok in Hs. destruct (fifo d) eqn:Ef.
  - destruct (dec_text (limits (field c d)).1 ltac:(lia)), (dec_text (limits (field c d)).2 ltac:(lia)).
    apply Forall_cons_2; [| apply Forall_cons_2; [| apply Forall_nil_2]]; apply Hrow; try done; try (by rewrite all_chars_app, Hc); rewrite string_length_app; cbn; lia.
  - destruct Hs as (Hv & _ & _). pose proof (do_size _ _ (desc_in d Hd) Ef) as Hsz. apply size_ok_cases in Hsz.
    assert (0 <= saved c d < 2 ^ 64) as Hv' by (split; [lia |]; eapply Z.lt_le_trans; [apply Hv |]; apply Z.pow_le_mono_r; lia).
    destruct (show_val_text d (saved c d) Hv'). apply Forall_cons_2; [| apply Forall_nil_2]. apply Hrow; try done. lia.
Qed.

Lemma key_in d b : d ∈ table t -> In b (keys d) -> find_config_desc (table t) b = Some (d, fifo d && bool_decide (b = strlc (conf_name d) +:+ "_low_water_mark")).
Proof using Ht. intros Hd Hb. exact (find_key _ (to_keys _ Ht) d b Hd Hb). Qed.

Lemma put_put c0 d a b : Z.of_nat (length c0) = config_struct_size t -> desc_ok (config_struct_size t) d -> length a = width d -> length b = width d -> put (put c0 d a) d b = put c0 d b.
Proof using.
  clear c Hlen Hu. intros Hl Hok Ha Hb. destruct (do_offset _ _ Hok). unfold put. rewrite Ha, Hb, take_app_length' by (rewrite length_take; lia). do 2 f_equal.
  rewrite (app_assoc (take _ _)), drop_app_length' by (rewrite length_app, length_take; lia). done.
Qed.

(** One row of a parameter that is not a FIFO. *)
Lemma parse_value c0 d : d ∈ table t -> fifo d = false -> Z.of_nat (length c0) = config_struct_size t -> saved_ok c d ->
  parse_one_option (table t) c0 ((strlc (conf_name d) +:+ String "=" (show_val d (saved c d))) +:+ nl) = Done (0, put c0 d (le_bytes (width d) (saved c d))).
Proof using Ht.
  intros Hd Ef Hl Hs. pose proof (desc_in d Hd) as Hok. unfold saved_ok in Hs. rewrite Ef in Hs. destruct Hs as (Hv & Hr & Ha).
  pose proof (do_size _ _ Hok Ef) as Hsz. assert (0 <= saved c d < 2 ^ 64) as Hv' by (split; [lia |]; eapply Z.lt_le_trans; [apply Hv |]; apply size_ok_cases in Hsz; apply Z.pow_le_mono_r; lia).
  rewrite string_app_assoc, cons_app. unfold parse_one_option. rewrite strchr_app by (exact (name_chars d _ plain_not_eq Hd)). rewrite (key_in d) by first [done | unfold keys; rewrite Ef; by left]. rewrite Ef. cbn [andb].
  assert ((if strcasestr (text d) "IPv4 address" then inet_addr (show_val d (saved c d) +:+ nl) else fst (strtoul (show_val d (saved c d) +:+ nl))) = saved c d) as ->.
  { change (strcasestr (text d) "IPv4 address") with (is_addr d). unfold show_val. pose proof (do_text _ _ Hok Ef) as Htx. destruct (is_bitmap d).
    - rewrite Htx by done. by rewrite strtoul_hex by (done || apply stops_nl).
    - destruct (is_addr d); [| by rewrite strtoul_dec by (done || apply stops_nl)]. specialize (Ha eq_refl).
      assert (u32 (saved c d) = saved c d) as -> by (unfold u32; apply Z.mod_small; lia). apply inet_roundtrip; [lia | apply stops_nl | by split]. }
  rewrite Hr. unfold config_write_val. rewrite Hsz. assert (width d = Z.to_nat (dsize d)) as Hw by (unfold width; by rewrite Ef). rewrite <- Hw.
  rewrite (write_field _ c0 Hl d Hok) by apply le_bytes_length. done.
Qed.

(** One row of a FIFO. *)
Lemma parse_fifo c0 d (low : bool) v : d ∈ table t -> fifo d = true -> Z.of_nat (length c0) = config_struct_size t -> 0 <= v < 2 ^ 16 ->
  let f := fifo_of_bytes (field c0 d) in
  parse_one_option (table t) c0 (((strlc (conf_name d) +:+ (if low then "_low_water_mark" else "_limit")) +:+ String "=" (dec v)) +:+ nl) =
    Done (0, put c0 d (fifo_bytes (if low then FifoConfig (limit f) v (ent_size f) else FifoConfig v (low_water_mark f) (ent_size f)) (field c0 d))).
Proof using Ht.
  clear c Hlen Hu. intros Hd Ef Hl Hv f. pose proof (desc_in d Hd) as Hok. rewrite (string_app_assoc _ (String _ _)), cons_app. unfold parse_one_option.
  rewrite strchr_app by (rewrite all_chars_app, (name_chars d _ plain_not_eq Hd); by destruct low).
  rewrite (key_in d) by first [done | unfold keys; rewrite Ef; destruct low; [right; by left | by left]]. rewrite Ef. cbn [andb].
  rewrite strtoul_dec by (lia || apply stops_nl). cbn [fst]. pose proof (read_field _ c0 Hl d Hok) as E. unfold width in E at 1. rewrite Ef in E. rewrite E. orun.
  assert (u16 v = v) as -> by (unfold u16; by apply Z.mod_small). fold f.
  assert (bool_decide (strlc (conf_name d) +:+ (if low then "_low_water_mark" else "_limit") = strlc (conf_name d) +:+ "_low_water_mark") = low) as ->.
  { destruct low; [by apply bool_decide_eq_true_2 |]. apply bool_decide_eq_false_2. intros Eq. symmetry in Eq. apply strip_prefix_spec in Eq. by rewrite (proj2 (strip_prefix_spec _ _ _) eq_refl) in Eq. }
  assert (forall g, length (fifo_bytes g (field c0 d)) = width d) as Hlen'.
  { intros g. unfold fifo_bytes. rewrite !length_app, !le_bytes_length, length_drop, (field_length _ c0 Hl d Hok). unfold width. by rewrite Ef. }
  destruct low; rewrite (write_field _ c0 Hl d Hok) by apply Hlen'; done.
Qed.

(** All rows of a parameter. *)
Lemma parse_desc c0 d : d ∈ table t -> Z.of_nat (length c0) = config_struct_size t -> saved_ok c d ->
  exists bs, length bs = width d /\ restored c d (field c0 d) bs /\ parse_list (table t) c0 (lines (rows c d)) = Done (0, put c0 d bs).
Proof using Ht Hu.
  intros Hd Hl Hs. pose proof (desc_in d Hd) as Hok. unfold rows, restored. destruct (fifo d) eqn:Ef.
  - pose proof (limits_range _ (field_u8 d)) as [H1 H2]. set (f0 := fifo_of_bytes (field c0 d)).
    assert (forall c1 g, Z.of_nat (length c1) = config_struct_size t -> length (fifo_bytes g (field c1 d)) = width d) as Hw.
    { intros c1 g Hl1. unfold fifo_bytes. rewrite !length_app, !le_bytes_length, length_drop, (field_length _ c1 Hl1 d Hok). unfold width. by rewrite Ef. }
    set (b1 := fifo_bytes (FifoConfig (limits (field c d)).1 (low_water_mark f0) (ent_size f0)) (field c0 d)).
    assert (Z.of_nat (length (put c0 d b1)) = config_struct_size t) as Hl1 by (by rewrite (put_length _ c0 Hl d Hok b1) by (by apply Hw)).
    pose proof (parse_fifo c0 d false (limits (field c d)).1 Hd Ef Hl H1) as P1. pose proof (parse_fifo (put c0 d b1) d true (limits (field c d)).2 Hd Ef Hl1 H2) as P2. cbn zeta in P1, P2. fold f0 b1 in P1.
    set (b2 := fifo_bytes _ (field (put c0 d b1) d)) in P2. exists b2. split; [by apply Hw |]. split; [unfold b2; clear P1 P2 |].
    + assert (limit (fifo_of_bytes (field (put c0 d b1) d)) = (limits (field c d)).1) as ->.
      { rewrite (put_same _ c0 Hl d Hok b1) by (by apply Hw). unfold b1, fifo_bytes, fifo_of_bytes. cbn [limit]. rewrite take_app_length' by (by rewrite le_bytes_length). by apply le_val_le_bytes. }
      split; [rewrite limits_fifo_bytes by done; cbn [limit low_water_mark]; by destruct (limits (field c d)) |].
      rewrite drop_fifo_bytes, (put_same _ c0 Hl d Hok b1) by (by apply Hw). apply drop_fifo_bytes.
    + cbn [lines fmap list_fmap parse_list].
      rewrite P1. orun. fold b1. change (negb (0 =? 0)) with false. cbn iota. rewrite P2. orun. by rewrite (put_put c0 d b1 b2) by (done || by apply Hw).
  - exists (le_bytes (width d) (saved c d)). split; [apply le_bytes_length |]. pose proof Hs as Hs'. unfold saved_ok in Hs'. rewrite Ef in Hs'. destruct Hs' as (Hv & _ & _). pose proof (size_ok_cases _ (do_size _ _ Hok Ef)). split.
    + apply le_val_le_bytes. unfold width. rewrite Ef. rewrite Z2Nat.id by lia. done.
    + cbn [lines fmap list_fmap parse_list]. rewrite (parse_value c0 d Hd Ef Hl Hs). done.
Qed.

(** Bytes outside of a field. *)
Definition outside (d : xdp2_config_desc) (i : nat) : Prop := (i < Z.to_nat (offset d) \/ Z.to_nat (offset d) + width d <= i)%nat.

Lemma parse_descs ds : forall c0, (forall d, d ∈ ds -> d ∈ table t /\ saved_ok c d) -> StronglySorted disjoint_fields ds -> Z.of_nat (length c0) = config_struct_size t ->
  exists c1, parse_list (table t) c0 (lines (concat (rows c <$> ds))) = Done (0, c1) /\ length c1 = length c0 /\
    (forall d, d ∈ ds -> restored c d (field c0 d) (field c1 d)) /\
    (forall e, desc_ok (config_struct_size t) e -> (forall d, d ∈ ds -> disjoint_fields e d) -> field c1 e = field c0 e) /\
    (forall i, (forall d, d ∈ ds -> outside d i) -> c1 !! i = c0 !! i).
Proof using Ht Hu.
  induction ds as [| d ds IH]; intros c0 Hin Hs Hl; [exists c0; split_and!; [done | done | by intros d ?%not_elem_of_nil | done | done] |].
  apply StronglySorted_inv in Hs as [Hs Hd]. destruct (Hin d ltac:(by left)) as [Hd1 Hd2]. destruct (parse_desc c0 d Hd1 Hl Hd2) as (bs & Hb & Hr & E). pose proof (desc_in d Hd1) as Hok.
  assert (Z.of_nat (length (put c0 d bs)) = config_struct_size t) as Hl1 by (by rewrite (put_length _ c0 Hl d Hok bs Hb)).
  destruct (IH (put c0 d bs)) as (c1 & E1 & Hlen1 & Hres & Hoth & Hout); [intros e He; apply Hin; by right | done | done |]. rewrite Forall_forall in Hd.
  exists c1. split_and!.
  - cbn [fmap list_fmap concat]. unfold lines in E, E1 |- *. rewrite fmap_app, parse_list_app, E. orun. exact E1.
  - by rewrite Hlen1, (put_length _ c0 Hl d Hok bs Hb).
  - intros e [-> | He]%elem_of_cons.
    2: { rewrite <- (put_other _ c0 Hl d Hok bs Hb e); [by apply Hres | apply desc_in, Hin; by right |]. left. by apply Hd. }
    rewrite (Hoth d Hok) by done. by rewrite (put_same _ c0 Hl d Hok bs Hb).
  - intros e He Hdis. rewrite (Hoth e He) by (intros d' Hd'; apply Hdis; by right). apply (put_other _ c0 Hl d Hok bs Hb e He). right. apply Hdis. by left.
  - intros i Hi. rewrite Hout by (intros d' Hd'; apply Hi; by right). apply (put_lookup _ c0 Hl d Hok bs Hb). apply Hi. by left.
Qed.

Lemma validate_restored c1 ds : (forall d, d ∈ ds -> d ∈ table t /\ saved_ok c d) -> Z.of_nat (length c1) = config_struct_size t -> (forall d, d ∈ ds -> exists old, restored c d old (field c1 d)) -> validate_configuration ds c1 = Done 0.
Proof using Ht.
  intros Hin Hl. induction ds as [| d ds IH]; intros Hr; cbn [validate_configuration]; [done |]. assert (validate_configuration ds c1 = Done 0) as Hrest by (apply IH; intros e He; [apply Hin | apply Hr]; by right).
  destruct (fifo d) eqn:Ef; [| done]. destruct (Hin d ltac:(by left)) as [Hd Hs]. pose proof (read_field _ c1 Hl d (desc_in d Hd)) as E. unfold width in E at 1. rewrite Ef in E. rewrite E. orun.
  destruct (Hr d ltac:(by left)) as [old Hold]. unfold restored in Hold. unfold saved_ok in Hs. rewrite Ef in Hold, Hs. destruct Hold as [Hold _]. rewrite <- Hold in Hs. cbn [limits fst snd] in Hs.
  by destruct (Z.ltb_spec (limit (fifo_of_bytes (field c1 d))) (low_water_mark (fifo_of_bytes (field c1 d)))); [lia |].
Qed.
End Restore.

Lemma row_not_skipped t d r : table_ok t -> d ∈ table t -> forall c, r ∈ lines (rows c d) -> skipped_row r = false.
Proof.
  intros Ht Hd c Hr. pose proof (strlc_name _ (do_name _ _ (desc_in t Ht d Hd))) as (Hc & Hne & _).
  assert (exists x, r = strlc (conf_name d) +:+ x) as [x ->].
  { unfold lines, rows in Hr. apply list_elem_of_fmap_1 in Hr as (y & -> & Hy). destruct (fifo d).
    - apply elem_of_cons in Hy as [-> | ->%list_elem_of_singleton]; eexists; rewrite !string_app_assoc; reflexivity.
    - apply list_elem_of_singleton in Hy as ->. eexists. rewrite string_app_assoc. reflexivity. }
  destruct (strlc (conf_name d)) as [| a s]; [done |]. cbn [all_chars] in Hc. apply andb_true_iff in Hc as [Ha _]. unfold plain_char in Ha. rewrite !andb_true_iff in Ha. destruct Ha as [[H1 _] H2].
  unfold skipped_row. rewrite cons_app. cbn [xdp2_line_is_whitespace]. apply negb_true_iff in H1. rewrite H1. cbn [andb orb]. clear - H2. destruct a as [[] [] [] [] [] [] [] []]; done.
Qed.

(** C33: a configuration that is saved is restored. For a table with distinct names
    and disjoint fields, and a configuration in which every value to be saved is in
    the range of its parameter and every low water mark at most its limit
    ([saved_ok]), [xdp2_config_print_config_csv_short] with the separator '='
    prints a text from which [xdp2_config_parse_options_file] restores every
    parameter, in whatever structure it is read: values, bitmaps and addresses have
    the saved value (the derived one where the parameter was zero), and FIFOs their
    limits. The other bytes of the FIFOs, which hold the entry size, and the bytes
    outside of the parameters do not change. *)
Theorem config_save_restore t c c0 key :
  table_ok t -> Z.of_nat (length c) = config_struct_size t -> Forall is_u8 c -> Forall (saved_ok c) (table t) -> Z.of_nat (length c0) = config_struct_size t ->
  exists out c1, xdp2_config_print_config_csv_short t c "=" key = Done out /\ xdp2_config_parse_options_file t c0 (Some out) = Done (0, c1) /\
    length c1 = length c0 /\ (forall d, d ∈ table t -> restored c d (field c0 d) (field c1 d)) /\
    (forall i, (forall d, d ∈ table t -> outside d i) -> c1 !! i = c0 !! i).
Proof.
  intros Ht Hl Hu Hs Hl0. pose proof (proj1 (Forall_forall _ _) Hs) as Hs'.
  assert (forall d, d ∈ table t -> d ∈ table t /\ saved_ok c d) as Hin by (intros d Hd; split; [done | by apply Hs']).
  destruct (parse_descs t Ht c Hu (table t) c0 Hin (to_fields _ Ht) Hl0) as (c1 & E & Hlen & Hres & _ & Hout).
  assert (Z.of_nat (length c1) = config_struct_size t) as Hl1 by (by rewrite Hlen).
  exists (concat_str (lines (concat (rows c <$> table t)))), c1. split_and!; [| | done | done | done].
  - unfold xdp2_config_print_config_csv_short. rewrite (print_rows t Ht c Hl) by done. orun. rewrite bool_decide_eq_false_2 by (by intros H; apply H). by rewrite andb_false_r.
  - unfold xdp2_config_parse_options_file, parse_and_validate.
    assert (Forall row_ok (concat (rows c <$> table t))) as Hrows by (apply Forall_concat, Forall_fmap, Forall_forall; intros d Hd; cbn; by apply (rows_ok t Ht c Hl Hu d Hd), Hs').
    unfold lines at 1 2. rewrite file_rows_ok by (done || apply concat_str_length). fold (lines (concat (rows c <$> table t))).
    assert (forall l : list string, (forall r, r ∈ l -> skipped_row r = false) -> filter (fun r => skipped_row r = false) l = l) as Hfil.
    { intros l. induction l as [| r l IH]; intros H; [done |]. rewrite filter_cons_True by (apply H; by left). f_equal. apply IH. intros x Hx. apply H. by right. }
    rewrite Hfil.
    + rewrite E. orun. change (negb (0 =? 0)) with false. cbn iota. by rewrite (validate_restored t Ht c c1 (table t) Hin Hl1 (fun d Hd => ex_intro (fun old => restored c d old (field c1 d)) _ (Hres d Hd))).
    + intros r Hr. unfold lines in Hr. apply list_elem_of_fmap_1 in Hr as (y & -> & Hy). apply list_elem_of_In, in_concat in Hy as (rs & Hrs & Hy). apply list_elem_of_In, list_elem_of_fmap_1 in Hrs as (d & -> & Hd).
      apply (row_not_skipped t d (y +:+ nl) Ht Hd c). unfold lines. apply (list_elem_of_fmap_2 (fun r => r +:+ nl)). by apply list_elem_of_In.
Qed.

(** ** Tables that the macros make *)

Lemma align_up_ge lo a : 0 < a -> lo <= align_up lo a.
Proof. intros Ha. unfold align_up. pose proof (Z.div_mod (lo + a - 1) a ltac:(lia)). pose proof (Z.mod_pos_bound (lo + a - 1) a ltac:(lia)). lia. Qed.

Definition between (lo hi : Z) (d : xdp2_config_desc) : Prop := lo <= offset d /\ offset d + Z.of_nat (width d) <= hi.

Lemma sorted_between lo mid hi ds es : Forall (between lo mid) ds -> Forall (between mid hi) es -> StronglySorted disjoint_fields ds -> StronglySorted disjoint_fields es -> StronglySorted disjoint_fields (ds ++ es).
Proof.
  intros Hd He Sd Se. apply StronglySorted_app. split_and!; [| done | done]. intros d e Hdi Hei. rewrite Forall_forall in Hd, He. destruct (Hd d Hdi), (He e Hei). left. lia.
Qed.

Lemma between_mono lo lo' hi hi' ds : lo' <= lo -> hi <= hi' -> Forall (between lo hi) ds -> Forall (between lo' hi') ds.
Proof. intros H1 H2 H. eapply Forall_impl; [exact H |]. unfold between. lia. Qed.

Lemma param_layout ps : forall lo ds hi, Forall (fun p => config_size_ok (cp_size p) = true) ps -> param_descs lo ps = (ds, hi) -> lo <= hi /\ Forall (between lo hi) ds /\ StronglySorted disjoint_fields ds.
Proof.
  induction ps as [| p ps IH]; intros lo ds hi Hp E; cbn [param_descs] in E; [injection E as <- <-; split_and!; [lia | constructor | constructor] |].
  apply Forall_cons_1 in Hp as [Hp Hps]. apply size_ok_cases in Hp. pose proof (align_up_ge lo (cp_size p) ltac:(lia)).
  destruct (param_descs _ ps) as [ds' hi'] eqn:E'. injection E as <- <-. destruct (IH _ _ _ Hps E') as (H1 & H2 & H3). split_and!; [lia | |].
  - constructor; [unfold between, width; cbn; lia |]. eapply between_mono; [| | exact H2]; lia.
  - constructor; [done |]. eapply Forall_impl; [exact H2 |]. intros d [? ?]. left. unfold width at 1. cbn. lia.
Qed.

Lemma fifo_layout fs : forall lo ds hi, fifo_descs lo fs = (ds, hi) -> lo <= hi /\ Forall (between lo hi) ds /\ StronglySorted disjoint_fields ds.
Proof.
  induction fs as [| f fs IH]; intros lo ds hi E; cbn [fifo_descs] in E; [injection E as <- <-; split_and!; [lia | constructor | constructor] |].
  pose proof (align_up_ge lo 2 ltac:(lia)). destruct (fifo_descs _ fs) as [ds' hi'] eqn:E'. injection E as <- <-. destruct (IH _ _ _ E') as (H1 & H2 & H3). split_and!; [lia | |].
  - constructor; [unfold between, width, sizeof_fifo_config; cbn; lia |]. eapply between_mono; [| | exact H2]; lia.
  - constructor; [done |]. eapply Forall_impl; [exact H2 |]. intros d [? ?]. left. unfold width at 1, sizeof_fifo_config. cbn. lia.
Qed.

(** Arguments of the macros. *)
Record param_ok (p : config_param) : Prop := {
  po_name : name_ok (cp_name p) = true;
  po_size : config_size_ok (cp_size p) = true;
  po_text : strcasestr (cp_text p) "bitmap" = true -> strcasestr (cp_text p) "IPv4 address" = false;
  po_range : 0 <= cp_min p /\ (cp_max p = 2 ^ 32 - 1 -> cp_min p = 0) /\ (cp_max p <> 2 ^ 32 - 1 -> cp_max p < 2 ^ (8 * cp_size p));
  po_default : 0 <= cp_default p < 2 ^ (8 * cp_size p) /\ cp_min p <= cp_default p /\ (cp_max p <> 2 ^ 32 - 1 -> cp_default p <= cp_max p) }.

Definition distinct_names (ps : list config_param) (fs : list fifo_param) : Prop :=
  NoDup (((fun p => strlc (cp_name p)) <$> ps) ++ concat ((fun f => [strlc (fp_name f) +:+ "_limit"; strlc (fp_name f) +:+ "_low_water_mark"]) <$> fs)).

Lemma param_descs_from ps : forall lo ds hi, param_descs lo ps = (ds, hi) ->
  Forall2 (fun d p => fifo d = false /\ dsize d = cp_size p /\ dmin d = cp_min p /\ dmax d = cp_max p /\ conf_name d = cp_name p /\ text d = cp_text p) ds ps.
Proof.
  induction ps as [| p ps IH]; intros lo ds hi E; cbn [param_descs] in E; [injection E as <- <-; constructor |]. destruct (param_descs _ ps) as [ds' hi'] eqn:E'. injection E as <- <-. constructor; [done | by eapply IH].
Qed.
Lemma fifo_descs_from fs : forall lo ds hi, fifo_descs lo fs = (ds, hi) -> Forall2 (fun d f => fifo d = true /\ conf_name d = fp_name f) ds fs.
Proof.
  induction fs as [| f fs IH]; intros lo ds hi E; cbn [fifo_descs] in E; [injection E as <- <-; constructor |]. destruct (fifo_descs _ fs) as [ds' hi'] eqn:E'. injection E as <- <-. constructor; [done | by eapply IH].
Qed.

Lemma param_keys ds ps : Forall2 (fun d p => fifo d = false /\ dsize d = cp_size p /\ dmin d = cp_min p /\ dmax d = cp_max p /\ conf_name d = cp_name p /\ text d = cp_text p) ds ps -> concat (keys <$> ds) = (fun p => strlc (cp_name p)) <$> ps.
Proof. induction 1 as [| d p ds ps (Hf & _ & _ & _ & Hn & _) _ IH]; [done |]. cbn [fmap list_fmap concat]. rewrite IH. unfold keys. by rewrite Hf, Hn. Qed.
Lemma fifo_keys ds fs : Forall2 (fun d f => fifo d = true /\ conf_name d = fp_name f) ds fs -> concat (keys <$> ds) = concat ((fun f => [strlc (fp_name f) +:+ "_limit"; strlc (fp_name f) +:+ "_low_water_mark"]) <$> fs).
Proof. induction 1 as [| d f ds fs [Hf Hn] _ IH]; [done |]. cbn [fmap list_fmap concat]. rewrite IH. unfold keys. by rewrite Hf, Hn. Qed.

Lemma make_table_ok ps fs : Forall param_ok ps -> Forall (fun f => name_ok (fp_name f) = true) fs -> distinct_names ps fs -> table_ok (XDP2_CONFIG_MAKE_ALL_CONFIGS_FIFOS ps fs).
Proof.
  intros Hp Hf Hn. unfold XDP2_CONFIG_MAKE_ALL_CONFIGS_FIFOS, make_descs. destruct (param_descs 8 ps) as [ds lo] eqn:E1. destruct (fifo_descs lo fs) as [es hi] eqn:E2.
  destruct (param_layout ps 8 ds lo) as (H1 & H2 & H3); [eapply Forall_impl; [exact Hp |]; intros p Hpo; exact (po_size _ Hpo) | done |]. destruct (fifo_layout fs lo es hi E2) as (G1 & G2 & G3).
  pose proof (param_descs_from _ _ _ _ E1) as F1. pose proof (fifo_descs_from _ _ _ _ E2) as F2. pose proof (align_up_ge hi 8 ltac:(lia)).
  constructor; cbn [table config_struct_size].
  - apply Forall_app. split.
    + apply Forall_forall. intros d Hd. pose proof Hd as [i Hi]%list_elem_of_lookup_1. destruct (Forall2_lookup_l _ _ _ _ _ F1 Hi) as (p & Hpi & Hf' & Hs & _ & _ & Hnm & Htx). pose proof (Forall_lookup_1 _ _ _ _ Hp Hpi) as Hpo.
      rewrite Forall_forall in H2. destruct (H2 d Hd). constructor; [rewrite Hnm; apply Hpo | lia | intros _; rewrite Hs; apply Hpo | intros _; unfold is_bitmap, is_addr; rewrite Htx; apply Hpo].
    + apply Forall_forall. intros d Hd. pose proof Hd as [i Hi]%list_elem_of_lookup_1. destruct (Forall2_lookup_l _ _ _ _ _ F2 Hi) as (f & Hfi & Hf' & Hnm). pose proof (Forall_lookup_1 _ _ _ _ Hf Hfi) as Hfo.
      rewrite Forall_forall in G2. destruct (G2 d Hd). constructor; [by rewrite Hnm | lia | congruence | congruence].
  - by apply (sorted_between 8 lo hi).
  - rewrite fmap_app, concat_app, (param_keys _ _ F1), (fifo_keys _ _ F2). exact Hn.
Qed.

(** ** Ranges

    Parsing any text keeps the parameters in their ranges. *)

Definition range_ok (d : xdp2_config_desc) : Prop := fifo d = false ->
  0 <= dmin d /\ (dmax d = 2 ^ 32 - 1 -> dmin d = 0) /\ (dmax d <> 2 ^ 32 - 1 -> dmax d < 2 ^ (8 * dsize d)).
Definition in_range (c : list Z) (d : xdp2_config_desc) : Prop := fifo d = false -> out_of_range d (le_val (field c d)) = false.
Definition limits_ok (c : list Z) (d : xdp2_config_desc) : Prop := fifo d = true -> (limits (field c d)).2 <= (limits (field c d)).1.

Lemma out_of_range_false d v : out_of_range d v = false <-> dmin d <= v /\ (dmax d <> 2 ^ 32 - 1 -> v <= dmax d).
Proof.
  unfold out_of_range. rewrite orb_false_iff, andb_false_iff, negb_false_iff, Z.eqb_eq, !Z.ltb_ge. split; [intros [? [? | ?]]; split; lia |].
  intros [? H]. split; [done |]. destruct (decide (dmax d = 2 ^ 32 - 1)); [by left | right; by apply H].
Qed.

(** What is stored of a value in the range is in the range. *)
Lemma stored_in_range size d v : desc_ok size d -> range_ok d -> fifo d = false -> out_of_range d v = false -> out_of_range d (le_val (le_bytes (width d) v)) = false.
Proof.
  intros Hd Hr Hf. destruct (Hr Hf) as (H0 & H1 & H2). pose proof (size_ok_cases _ (do_size _ _ Hd Hf)) as Hs. rewrite !out_of_range_false. intros [Hlo Hhi].
  pose proof (le_val_range (le_bytes (width d) v) (le_bytes_u8 _ _)) as Hb. destruct (decide (dmax d = 2 ^ 32 - 1)) as [E | E]; [rewrite (H1 E); split; [lia | done] |].
  specialize (H2 E). specialize (Hhi E). rewrite le_val_le_bytes; [done |]. unfold width. rewrite Hf, Z2Nat.id by lia. lia.
Qed.

Lemma sorted_pairs ds d e : StronglySorted disjoint_fields ds -> d ∈ ds -> e ∈ ds -> e = d \/ disjoint_fields d e \/ disjoint_fields e d.
Proof.
  induction 1 as [| x ds _ IH Hx]; [by intros ?%not_elem_of_nil |]. rewrite Forall_forall in Hx. rewrite !elem_of_cons. intros [-> | Hd] [-> | He]; [by left | right; left; by apply Hx | right; right; by apply Hx | by apply IH].
Qed.

Lemma find_in ds n d b : find_config_desc ds n = Some (d, b) -> d ∈ ds.
Proof.
  induction ds as [| x ds IH]; [done |]. cbn [find_config_desc]. intros H. destruct (fifo x); [destruct (strip_prefix _ _)|]; repeat case_bool_decide; try (injection H as <- <-; by left); right; by apply IH.
Qed.

Lemma fifo_bytes_length f size c d : Z.of_nat (length c) = size -> desc_ok size d -> fifo d = true -> length (fifo_bytes f (field c d)) = width d.
Proof. intros Hl Hd Hf. unfold fifo_bytes. rewrite !length_app, !le_bytes_length, length_drop, (field_length _ c Hl d Hd). unfold width. by rewrite Hf. Qed.

Section Ranges.
Context (t : xdp2_config_desc_table) (Ht : table_ok t) (Hr : Forall range_ok (table t)).

(** A structure of the table with its parameters in range. *)
Definition config_ok (c : list Z) : Prop := Z.of_nat (length c) = config_struct_size t /\ Forall (in_range c) (table t).

Lemma put_config_ok c d bs : config_ok c -> d ∈ table t -> length bs = width d -> (fifo d = false -> out_of_range d (le_val bs) = false) -> config_ok (put c d bs).
Proof using Ht.
  intros [Hl Hc] Hd Hb Hv. pose proof (desc_in t Ht d Hd) as Hok. split; [by rewrite (put_length _ c Hl d Hok bs Hb) |]. apply Forall_forall. intros e He Hf.
  destruct (sorted_pairs _ d e (to_fields _ Ht) Hd He) as [-> | Hx]; [rewrite (put_same _ c Hl d Hok bs Hb); by apply Hv |].
  rewrite (put_other _ c Hl d Hok bs Hb e) by (done || exact (desc_in t Ht e He)). rewrite Forall_forall in Hc. by apply Hc.
Qed.

Lemma parse_one_safe c tok : config_ok c -> exists r c', parse_one_option (table t) c tok = Done (r, c') /\ (r = 0 \/ r = -1) /\ config_ok c'.
Proof using Ht Hr.
  intros Hc. pose proof Hc as [Hl _]. unfold parse_one_option. destruct (strchr tok "=") as [[name value] |]; [| by exists (-1), c; split_and!; auto].
  destruct (find_config_desc (table t) name) as [[d low] |] eqn:E; [| by exists (-1), c; split_and!; auto]. apply find_in in E. pose proof (desc_in t Ht d E) as Hok. destruct (fifo d) eqn:Hf.
  - pose proof (read_field _ c Hl d Hok) as Er. unfold width in Er at 1. rewrite Hf in Er. rewrite Er. orun.
    set (f := if low then _ else _). pose proof (fifo_bytes_length f _ c d Hl Hok Hf) as Hb.
    rewrite (write_field _ c Hl d Hok _ Hb). orun. eexists 0, _. split_and!; [done | by left |]. by apply put_config_ok; [| | | congruence].
  - set (v := if strcasestr _ _ then _ else _). destruct (out_of_range d v) eqn:Hv; [by exists (-1), c; split_and!; auto |].
    unfold config_write_val. rewrite (do_size _ _ Hok Hf). assert (length (le_bytes (Z.to_nat (dsize d)) v) = width d) as Hb by (rewrite le_bytes_length; unfold width; by rewrite Hf).
    rewrite (write_field _ c Hl d Hok _ Hb). orun. eexists 0, _. split_and!; [done | by left |]. apply put_config_ok; [done | done | done |]. intros _.
    rewrite Forall_forall in Hr. pose proof (stored_in_range _ d v Hok (Hr d E) Hf Hv) as Hin. unfold width in Hin. by rewrite Hf in Hin.
Qed.

Lemma parse_list_safe toks : forall c, config_ok c -> exists r c', parse_list (table t) c toks = Done (r, c') /\ (r = 0 \/ r = -1) /\ config_ok c'.
Proof using Ht Hr.
  induction toks as [| tok toks IH]; intros c Hc; cbn [parse_list]; [by exists 0, c; split_and!; auto |]. destruct (parse_one_safe c tok Hc) as (r & c' & -> & [-> | ->] & Hc'); orun.
  - by apply IH.
  - by exists (-1), c'; split_and!; auto.
Qed.

Lemma validate_safe ds c : (forall d, d ∈ ds -> d ∈ table t) -> Z.of_nat (length c) = config_struct_size t ->
  exists r, validate_configuration ds c = Done r /\ (r = 0 \/ r = -1) /\ (r = 0 <-> Forall (limits_ok c) ds).
Proof using Ht.
  intros Hin Hl. induction ds as [| d ds IH]; cbn [validate_configuration]; [exists 0; split_and!; auto; by split; [constructor |] |].
  destruct IH as (r & E & H1 & H2); [intros x Hx; apply Hin; by right |]. pose proof (desc_in t Ht d (Hin d ltac:(by left))) as Hok. destruct (fifo d) eqn:Hf.
  - pose proof (read_field _ c Hl d Hok) as Er. unfold width in Er at 1. rewrite Hf in Er. rewrite Er. orun. destruct (Z.ltb_spec (limit (fifo_of_bytes (field c d))) (low_water_mark (fifo_of_bytes (field c d)))) as [Hlt | Hge].
    + exists (-1). split_and!; auto. split; [done |]. intros HF. apply Forall_cons_1 in HF as [HF _]. specialize (HF Hf). unfold limits in HF. cbn [fst snd] in HF. lia.
    + exists r. split_and!; auto. rewrite H2, Forall_cons. split; [intros H; split; [intros _; exact Hge | done] | by intros [_ H]].
  - exists r. split_and!; auto. rewrite H2, Forall_cons. split; [intros H; split; [intros ?; congruence | done] | by intros [_ H]].
Qed.

(** The return code is zero only when the limits of all FIFOs are in order. *)
Lemma parse_options_safe c txt : config_ok c -> exists r c', xdp2_config_parse_options t c (Some txt) = Done (r, c') /\ (r = 0 \/ r = -1) /\ config_ok c' /\ (r = 0 -> Forall (limits_ok c') (table t)).
Proof using Ht Hr.
  intros Hc. unfold xdp2_config_parse_options, parse_and_validate. destruct (parse_list_safe (tokens txt) c Hc) as (r & c' & -> & [-> | ->] & Hc'); orun; [| by exists (-1), c'; split_and!; auto].
  change (negb (0 =? 0)) with false. cbn iota. destruct (validate_safe (table t) c') as (r & -> & H1 & H2); [done | apply Hc' |]. orun. exists r, c'. split_and!; auto. intros ->. by apply H2.
Qed.
End Ranges.

(** ** Defaults *)

Definition apart (ds : list xdp2_config_desc) (e : xdp2_config_desc) : Prop := forall d, d ∈ ds -> disjoint_fields d e \/ disjoint_fields e d.

(** The parameters have their defaults and fields apart from theirs are kept. *)
Lemma set_params_ok size ds ps : Forall2 (fun d p => fifo d = false /\ dsize d = cp_size p) ds ps -> Forall (desc_ok size) ds -> StronglySorted disjoint_fields ds ->
  forall c, Z.of_nat (length c) = size -> exists c', set_params ds ps c = Done c' /\ length c' = length c /\ (forall e, desc_ok size e -> apart ds e -> field c' e = field c e) /\
    Forall2 (fun d p => field c' d = le_bytes (width d) (cp_default p)) ds ps.
Proof.
  induction 1 as [| d p ds ps [Hf Hs] _ IH]; intros Hd Hx c Hl; cbn [set_params]; [by exists c; split_and!; [done | done | done | constructor] |].
  apply Forall_cons_1 in Hd as [Hd Hds]. apply StronglySorted_inv in Hx as [Hx Hdx]. rewrite <- Hs. unfold config_write_val. rewrite (do_size _ _ Hd Hf).
  assert (width d = Z.to_nat (dsize d)) as Hw by (unfold width; by rewrite Hf). rewrite <- Hw. set (bs := le_bytes (width d) (cp_default p)). assert (length bs = width d) as Hb by apply le_bytes_length.
  rewrite (write_field _ c Hl d Hd bs Hb). orun. pose proof (put_length _ c Hl d Hd bs Hb) as Hpl. destruct (IH Hds Hx (put c d bs)) as (c' & -> & Hl' & Hk & H2); [by rewrite Hpl |].
  exists c'. split_and!; [done | by rewrite Hl' | |].
  - intros e He Ha. rewrite Hk; [apply (put_other _ c Hl d Hd bs Hb e He), Ha; by left | done | intros x Hxi; apply Ha; by right].
  - constructor; [| done]. rewrite Hk; [by apply (put_same _ c Hl d Hd bs Hb) | done |]. intros x Hxi. rewrite Forall_forall in Hdx. right. by apply Hdx.
Qed.

Lemma set_fifos_ok size ds fs : Forall2 (fun d f => fifo d = true) ds fs -> Forall (fun f => 0 <= fp_low_water_mark f <= fp_limit f /\ fp_limit f < 2 ^ 16) fs -> Forall (desc_ok size) ds -> StronglySorted disjoint_fields ds ->
  forall c, Z.of_nat (length c) = size -> exists c', set_fifos ds fs c = Done c' /\ length c' = length c /\ (forall e, desc_ok size e -> apart ds e -> field c' e = field c e) /\
    Forall2 (fun d f => limits (field c' d) = (fp_limit f, fp_low_water_mark f)) ds fs.
Proof.
  induction 1 as [| d f ds fs Hf _ IH]; intros Hv Hd Hx c Hl; cbn [set_fifos]; [by exists c; split_and!; [done | done | done | constructor] |].
  apply Forall_cons_1 in Hv as [Hv Hvs]. apply Forall_cons_1 in Hd as [Hd Hds]. apply StronglySorted_inv in Hx as [Hx Hdx].
  pose proof (read_field _ c Hl d Hd) as Er. unfold width in Er at 1. rewrite Hf in Er. rewrite Er. orun. set (bs := fifo_bytes _ _). assert (length bs = width d) as Hb by (by apply (fifo_bytes_length _ size)).
  rewrite (write_field _ c Hl d Hd bs Hb). orun. pose proof (put_length _ c Hl d Hd bs Hb) as Hpl. destruct (IH Hvs Hds Hx (put c d bs)) as (c' & -> & Hl' & Hk & H2); [by rewrite Hpl |].
  exists c'. split_and!; [done | by rewrite Hl' | |].
  - intros e He Ha. rewrite Hk; [apply (put_other _ c Hl d Hd bs Hb e He), Ha; by left | done | intros x Hxi; apply Ha; by right].
  - constructor; [| done]. rewrite Hk; [rewrite (put_same _ c Hl d Hd bs Hb); apply limits_fifo_bytes; cbn; lia | done |]. intros x Hxi. rewrite Forall_forall in Hdx. right. by apply Hdx.
Qed.

Record fifo_ok (f : fifo_param) : Prop := {
  fo_name : name_ok (fp_name f) = true;
  fo_limits : 0 <= fp_low_water_mark f <= fp_limit f /\ fp_limit f < 2 ^ 16 }.

Section Macros.
Context (ps : list config_param) (fs : list fifo_param) (Hp : Forall param_ok ps) (Hf : Forall fifo_ok fs) (Hn : distinct_names ps fs).
Let t := XDP2_CONFIG_MAKE_ALL_CONFIGS_FIFOS ps fs.

Lemma macro_table_ok : table_ok t.
Proof using Hp Hf Hn. apply make_table_ok; [done | | done]. eapply Forall_impl; [exact Hf |]. intros f Hfo. exact (fo_name _ Hfo). Qed.

(** The descriptors of the parameters and of the FIFOs. *)
Lemma macro_table : exists ds es lo hi, param_descs 8 ps = (ds, lo) /\ fifo_descs lo fs = (es, hi) /\ table t = ds ++ es /\ 8 <= config_struct_size t.
Proof using Hp.
  subst t. unfold XDP2_CONFIG_MAKE_ALL_CONFIGS_FIFOS, make_descs. destruct (param_descs 8 ps) as [ds lo] eqn:E1. destruct (fifo_descs lo fs) as [es hi] eqn:E2. exists ds, es, lo, hi. split_and!; try done. cbn [config_struct_size].
  destruct (param_layout ps 8 ds lo) as (H1 & _); [eapply Forall_impl; [exact Hp |]; intros p Hpo; exact (po_size _ Hpo) | done |]. destruct (fifo_layout fs lo es hi E2) as (H2 & _). pose proof (align_up_ge hi 8 ltac:(lia)). lia.
Qed.

Lemma macro_range_ok : Forall range_ok (table t).
Proof using Hp.
  destruct macro_table as (ds & es & lo & hi & E1 & E2 & -> & _). pose proof (param_descs_from _ _ _ _ E1) as F1. pose proof (fifo_descs_from _ _ _ _ E2) as F2. apply Forall_app. split; apply Forall_forall; intros d [i Hi]%list_elem_of_lookup_1 Hfd.
  - destruct (Forall2_lookup_l _ _ _ _ _ F1 Hi) as (p & Hpi & _ & Hs & Hlo & Hhi & _). pose proof (po_range _ (Forall_lookup_1 _ _ _ _ Hp Hpi)) as Hpo. by rewrite Hs, Hlo, Hhi.
  - destruct (Forall2_lookup_l _ _ _ _ _ F2 Hi) as (f & _ & Hf' & _). congruence.
Qed.

(** The structure that [set_default_config] makes of any memory. *)
Lemma set_default_ok c : Z.of_nat (length c) = config_struct_size t -> exists c', set_default_config t c = Done c' /\ length c' = length c /\ config_ok t c' /\ Forall (limits_ok c') (table t) /\
  Forall2 (fun d p => le_val (field c' d) = cp_default p) (take (length ps) (table t)) ps /\ Forall2 (fun d f => limits (field c' d) = (fp_limit f, fp_low_water_mark f)) (drop (length ps) (table t)) fs.
Proof using Hp Hf Hn.
  intros Hl. pose proof macro_table_ok as Ht. destruct macro_table as (ds & es & lo & hi & E1 & E2 & Et & Hsz). pose proof (param_descs_from _ _ _ _ E1) as F1. pose proof (fifo_descs_from _ _ _ _ E2) as F2.
  assert (set_default_config t c = (c ← config_write_bytes c 0 (le_bytes 8 0); c ← set_fifos es fs c; set_params ds ps c)) as ->.
  { subst t. unfold XDP2_CONFIG_MAKE_ALL_CONFIGS_FIFOS. destruct (make_descs ps fs). cbn [set_default_config]. unfold make_set_default_config. by rewrite E1, E2. }
  pose proof (to_descs _ Ht) as Hds. pose proof (to_fields _ Ht) as Hx. rewrite Et in Hds, Hx. apply Forall_app in Hds as [Hd He]. apply StronglySorted_app in Hx as (Hde & Hxd & Hxe).
  unfold config_write_bytes. rewrite le_bytes_length. destruct (Z.leb_spec (0 + Z.of_nat 8) (Z.of_nat (length c))) as [_ | ?]; [| lia]. change (0 <=? 0) with true. cbn [andb]. orun. set (c1 := _ ++ _ ++ _).
  assert (length c1 = length c) as Hl1 by (unfold c1; rewrite !length_app, length_take, le_bytes_length, length_drop; lia).
  destruct (set_fifos_ok (config_struct_size t) es fs) with (c := c1) as (c2 & -> & Hl2 & _ & Hfv); [eapply Forall2_impl; [exact F2 |]; by intros ? ? [? _] | eapply Forall_impl; [exact Hf |]; intros f Hfo; exact (fo_limits _ Hfo) | done | done | by rewrite Hl1 |]. orun.
  destruct (set_params_ok (config_struct_size t) ds ps) with (c := c2) as (c3 & -> & Hl3 & Hk & Hpv); [eapply Forall2_impl; [exact F1 |]; intros ? ? (? & ? & _); done | done | done | by rewrite Hl2, Hl1 |].
  assert (Forall2 (fun d f => limits (field c3 d) = (fp_limit f, fp_low_water_mark f)) es fs) as Hfv3.
  { apply Forall2_same_length_lookup_2; [exact (Forall2_length _ _ _ F2) |]. intros i d f Hi Hj. pose proof (list_elem_of_lookup_2 _ _ _ Hi) as Hin. rewrite Forall_forall in He. rewrite Hk; [exact (Forall2_lookup_lr _ _ _ _ _ _ Hfv Hi Hj) | by apply He |]. intros x Hxi. left. by apply Hde. }
  pose proof (Forall2_length _ _ _ F1) as Hlen.
  assert (Forall2 (fun d p => le_val (field c3 d) = cp_default p) ds ps) as Hpv3.
  { apply Forall2_same_length_lookup_2; [done |]. intros i d p Hi Hpi. destruct (Forall2_lookup_lr _ _ _ _ _ _ F1 Hi Hpi) as (Hfd & Hs & _). rewrite (Forall2_lookup_lr _ _ _ _ _ _ Hpv Hi Hpi). pose proof (Forall_lookup_1 _ _ _ _ Hp Hpi) as Hpo. pose proof (size_ok_cases _ (po_size _ Hpo)).
    apply le_val_le_bytes. unfold width. rewrite Hfd, Hs, Z2Nat.id by lia. apply (po_default _ Hpo). }
  exists c3. rewrite Et. split_and!; [done | congruence | split; [rewrite Hl3, Hl2, Hl1; exact Hl |] | | by rewrite take_app_length' | by rewrite drop_app_length'].
  - rewrite Et. apply Forall_app. split; apply Forall_forall; intros d [i Hi]%list_elem_of_lookup_1 Hfd.
    + destruct (Forall2_lookup_l _ _ _ _ _ F1 Hi) as (p & Hpi & _ & Hs & Hlo & Hhi & _). rewrite (Forall2_lookup_lr _ _ _ _ _ _ Hpv3 Hi Hpi). destruct (po_default _ (Forall_lookup_1 _ _ _ _ Hp Hpi)) as (_ & H2 & H3). apply out_of_range_false. by rewrite Hlo, Hhi.
    + destruct (Forall2_lookup_l _ _ _ _ _ F2 Hi) as (f & _ & Hf' & _). congruence.
  - apply Forall_app. split; apply Forall_forall; intros d [i Hi]%list_elem_of_lookup_1 Hfd.
    + destruct (Forall2_lookup_l _ _ _ _ _ F1 Hi) as (p & _ & Hf' & _). congruence.
    + destruct (Forall2_lookup_l _ _ _ _ _ Hfv3 Hi) as (f & Hfi & ->). cbn [fst snd]. apply (fo_limits _ (Forall_lookup_1 _ _ _ _ Hf Hfi)).
Qed.
End Macros.

(** C34: configuring from any text is safe and keeps the limits. For a table that
    the macros make of well-formed arguments,
    [xdp2_config_parse_options_with_defaults] on memory with any contents, with or
    without a text, never reads or writes outside of the structure and returns 0 or
    -1. In both cases every parameter other than a FIFO is then within its minimum
    and maximum; when it returns 0 the low water mark of every FIFO is at most its
    limit, but the minimum and maximum of a FIFO are not enforced
    ([config_fifo_unchecked]); without a text it returns 0 and every parameter and
    FIFO has its default. *)
Theorem config_parse_safe ps fs c txt :
  Forall param_ok ps -> Forall fifo_ok fs -> distinct_names ps fs -> let t := XDP2_CONFIG_MAKE_ALL_CONFIGS_FIFOS ps fs in Z.of_nat (length c) = config_struct_size t ->
  exists r c', xdp2_config_parse_options_with_defaults t c txt = Done (r, c') /\ (r = 0 \/ r = -1) /\ length c' = length c /\ Forall (in_range c') (table t) /\
    (r = 0 -> Forall (limits_ok c') (table t)) /\
    (txt = None -> r = 0 /\ Forall2 (fun d p => le_val (field c' d) = cp_default p) (take (length ps) (table t)) ps /\
      Forall2 (fun d f => limits (field c' d) = (fp_limit f, fp_low_water_mark f)) (drop (length ps) (table t)) fs).
Proof.
  intros Hp Hf Hn t Hl. unfold xdp2_config_parse_options_with_defaults. destruct (set_default_ok ps fs Hp Hf Hn c Hl) as (c1 & E & Hl1 & Hc1 & Hlim & Hpv & Hfv). fold t in E, Hlim, Hc1, Hpv, Hfv. rewrite E. orun. destruct txt as [txt |].
  - destruct (parse_options_safe t (macro_table_ok ps fs Hp Hf Hn) (macro_range_ok ps fs Hp) c1 txt Hc1) as (r & c2 & E2 & H1 & [H2 H3] & H4). exists r, c2. split_and!; [done | done | lia | done | done | done].
  - exists 0, c1. split_and!; [done | by left | done | apply Hc1 | done | done].
Qed.

(** ** The example *)

Lemma ex_params_ok : Forall param_ok ex_params.
Proof. repeat constructor; vm_compute; congruence. Qed.
Lemma ex_fifos_ok : Forall fifo_ok ex_fifos.
Proof. repeat constructor; vm_compute; congruence. Qed.
Lemma ex_names : distinct_names ex_params ex_fifos.
Proof. apply (bool_decide_unpack _). vm_compute. exact I. Qed.

(** An option is set and one is refused. *)
Lemma config_parse_safe_witness :
  exists r c', xdp2_config_parse_options_with_defaults ex_table (replicate 32 0xa5) (Some "num_ports=8 work_limit=0x20 flags=0x100") = Done (r, c') /\ (r = 0 \/ r = -1) /\ length c' = 32%nat /\
    Forall (in_range c') (table ex_table) /\ (r = 0 -> Forall (limits_ok c') (table ex_table)).
Proof.
  destruct (config_parse_safe ex_params ex_fifos (replicate 32 0xa5) (Some "num_ports=8 work_limit=0x20 flags=0x100") ex_params_ok ex_fifos_ok ex_names ltac:(reflexivity)) as (r & c' & H1 & H2 & H3 & H4 & H5 & _).
  exists r, c'. split; [exact H1 |]. split; [exact H2 |]. split; [exact H3 |]. split; [exact H4 | exact H5].
Defined.

(** The bytes of the example with the defaults, and another structure. *)
Definition ex_config : list Z := replicate 8 0 ++ [4; 0; 0; 0; 127; 0; 0; 1] ++ replicate 8 0 ++ [128; 0; 96; 0; 0; 0; 0; 0].

Lemma config_save_restore_witness :
  exists out c1, xdp2_config_print_config_csv_short ex_table ex_config "=" true = Done out /\ xdp2_config_parse_options_file ex_table (replicate 32 255) (Some out) = Done (0, c1) /\
    length c1 = length (replicate 32 255) /\ (forall d, d ∈ table ex_table -> restored ex_config d (field (replicate 32 255) d) (field c1 d)) /\
    (forall i, (forall d, d ∈ table ex_table -> outside d i) -> c1 !! i = replicate 32 255 !! i).
Proof.
  apply (config_save_restore ex_table ex_config (replicate 32 255) true).
  - apply (macro_table_ok ex_params ex_fifos ex_params_ok ex_fifos_ok ex_names).
  - reflexivity.
  - apply (bool_decide_unpack _). vm_compute. exact I.
  - apply Forall_forall. intros d Hd. repeat (apply elem_of_cons in Hd as [-> | Hd]; [vm_compute; repeat split; congruence |]). by apply not_elem_of_nil in Hd.
  - reflexivity.
Defined.
